(* ===== verification/_CoqProject ===== *)
-Q . S2P
Prelude.v
Types.v
Rtp.v
Replay.v
BTree.v
Reorder.v
Gf256.v
Cauchy.v
Fec.v
Assembler.v
Control.v
Deque.v
Nack.v
Text.v
InputWire.v
InputCodec.v
InputChannels.v
Crypto.v
Srtp.v
Rtcp.v
Stun.v
F64.v
Bandwidth.v
StageTimings.v
Feedback.v
Reports.v
Receiver.v
VideoSession.v
VideoWorker.v
VideoHonesty.v
VideoStream.v
VideoFaults.v
Queues.v
VideoQueue.v
DecodeFeed.v
DecodeTiming.v
ClipReplay.v
Audio.v
Push.v
Hid.v
HidRuntime.v
Str.v
Rtsp.v
RtspFraming.v
PcmRing.v
Cursor.v
Haptics.v
Captured.v
CapturedWire.v
