(* ===== verification/Prelude.v ===== *)
(** * OpenNOW's native streamer: a verified model

    OpenNOW is a client for NVIDIA's GeForce NOW game streaming service.  The
    launcher (src/native/opennow-core and the Qt application) signs the player
    in and creates a session; the native streamer
    (src/native/opennow-streamer) then speaks NVST, NVIDIA's streaming protocol,
    with the game server: it receives video and audio over SRTP, decodes and
    shows them, sends input, and reports on what it received.  This development
    models the streamer's data path, from the bytes of a datagram to the
    decoder's input and from an input event to the bytes on the wire, with the
    text protocol that sets the stream up and the push protocol of the launcher,
    and proves what makes it correct.

    ** The program and its model

    Paths are relative to src/native/opennow-streamer/crates; [nvst.rs] and the
    other [nvst_*.rs] are in opennow-streamer-transport/src.

    _Foundations._
    - [Prelude]: machine integers as [Z], slices and indexing that can panic, the
      error monad [outcome] (a value, an error of the source, or a panic), and
      the generic lemmas and tactics.
    - [Types]: the data several parts of [nvst.rs] exchange.
    - [BTree], [Deque], [Text], [F64], [Crypto]: what the source uses of the
      standard library ([BTreeMap], [VecDeque], UTF-8, [f64]) and, as a class of
      parameters with the laws their documentation gives, of the cryptographic
      crates.

    _Receiving video_ ([nvst.rs]).
    - [Rtp]: RTP headers, the NVIDIA video header and the FEC coordinates.
    - [Replay], [Srtp]: the replay window, and authentication and decryption
      under the four SRTP profiles.
    - [Reorder]: the reorder buffer of streams without FEC.
    - [Gf256], [Cauchy], [Fec]: the field, the erasure code, and the buffer that
      collects blocks of shards and repairs them.
    - [Assembler]: packets of a frame become an access unit.
    - [Nack], [Feedback], [StageTimings], [Bandwidth]: the retransmission queue,
      the state shared between the threads, and what is measured.
    - [Receiver]: [NvstVideoReceiver], which composes all of these.
    - [VideoWorker]: the thread that owns the receiver and the media socket
      ([run_nvst_udp_receiver]).
    - [Audio]: RED payloads, gap filling and the streams the peer connection
      expects.

    _Talking back._
    - [Control], [Rtcp], [Reports]: the records, the RTCP packets and the report
      worker's turns ([nvst_control.rs], [nvst_budget.rs], [nvst.rs]).
    - [Stun]: hole punching and ICE pings.
    - [InputWire], [InputCodec], [InputChannels]: the input formats, the codec of
      the renderer's events and the budgeted channels ([nvst_input.rs]).

    - [Captured], [CapturedWire]: the queue of what the player does, the embedded
      capture in front of it and the session's turn that sends it
      (opennow-streamer-platform's [media.rs] and [embedded_input.rs],
      opennow-streamer-core's [lib.rs]), composed with the codec.

    _From the transport to the decoder_ (opennow-streamer-platform and its
    backends, opennow-streamer-core).
    - [Queues], [VideoQueue], [DecodeFeed]: the bounded queues, the compressed
      video queue and the worker between them ([queue.rs], [video_queue.rs],
      [media.rs]).
    - [DecodeTiming]: decode timings and the watchdog that recovers a silent
      decoder ([timing.rs], [decode_progress.rs]).
    - [ClipReplay]: the instant-replay buffer ([replay.rs]).
    - [PcmRing]: the lock-free ring between the audio decoder and the callback of
      the device, with its accesses one by one under release/acquire order
      (opennow-streamer-platform-macos/src/ring.rs).

    _From the server to the player_ (opennow-streamer-transport/src).
    - [Cursor]: who draws the cursor, and the cache of its bitmaps
      ([nvst_cursor.rs], [nvst_bitmap_cursor.rs]).
    - [Haptics]: pending rumble, and the queue of microphone frames that goes the
      other way ([nvst_haptics.rs], [nvst_microphone.rs]).

    _Controllers_ (opennow-streamer-hid/src).
    - [Hid]: the inventory of claimed devices, the DualShock 4 report
      ([ds4.rs]) and the session that attaches and retires virtual controllers
      ([session.rs], [lib.rs]).
    - [HidRuntime]: the mailbox between the input and the transport thread
      ([runtime.rs]).

    _Signaling._
    - [Str]: the functions of [str] the text protocols use.
    - [Rtsp]: replies, the attributes of the description and the values read
      from them, the search for the video peer, and the log
      ([opennow-streamer-core/src/nvst_rtsp.rs]).
    - [RtspFraming]: the encoder of replies and the proof that the request loop
      takes them off the socket whole.
    - [Push]: the protocol of the push service and the reader of its frames
      (src/native/opennow-core/src/push/protocol.rs, and the receive loop of
      [owner.rs]).

    A Rust type [T] is the record or inductive [T] or, with its methods, the
    Module [T] with the record [T.t]; a method [f] is [T.f].  A long method is
    split where its code has blocks; the parts carry the names of what they do.

    ** What the theorems show

    - _Whole paths_: [VideoStream.undisturbed_stream_is_delivered] (what a sender
      protects comes out as its frames), [VideoHonesty] (no turn of the worker
      panics, and a frame marked contiguous hides no loss),
      [DecodeFeed.decoder_input_is_decodable] (under every interleaving the
      decoder's input is an unbroken chain), [VideoFaults] (forgeries are inert,
      a stalled stream is recovered, and how early polls forget losses).
    - _Parsers_ are total and exact: [Rtp.parse_total],
      [InputWire.input_parsers_total], [Audio.red_parses_exactly], and the round
      trips of [Srtp], [InputWire] and [Text]; frames of the push service and
      replies of the RTSP server arrive whole however the stream is cut
      ([Push.fragmentation_is_invisible], [Push.frames_arrive_whole],
      [RtspFraming.reply_received_whole]).
    - _Data structures_ refine their specification: the replay window a set of
      indices, the retransmission queue the set of wanted indices, the queues a
      class of drop-oldest queues, the reorder and FEC buffers an ordered
      delivery, the mailbox one list of pending items per controller
      ([HidRuntime.mailbox_is_a_list_per_controller]), the bitmap cursors a cache
      of the sixteen used last; the erasure code inverts the encoder over the proved field.
    - _Accounting_: losses, stages, submissions, bytes and memory are counted
      exactly ([Feedback], [Bandwidth], [DecodeTiming], [ClipReplay],
      [VideoQueue.no_frame_disappears]).
    - _Liveness_: keyframe requests, recovery and acknowledgements happen, once.
    - _Controllers_: a report says what was pressed
      ([Hid.ds4_reports_say_what_was_pressed]), a slot sees one attachment,
      reports and one removal ([Hid.virtual_controllers_live_once]), and states
      reach only the controller they were taken from
      ([HidRuntime.input_reaches_its_controller]).
    - _Audio, cursor, rumble_: the sample ring is free of data races and plays the
      stream it was given ([PcmRing.pcm_ring_plays_the_stream]), the cursor is
      handed over once ([Cursor.cursor_is_handed_over]), and rumble is never lost
      uncounted ([Haptics.rumble_reaches_the_controllers]).
    - _Captured input_: nothing but pointer motion is dropped silently
      ([Captured.only_motion_is_dropped]), a closed capture holds no button down
      ([Captured.closed_capture_holds_nothing]), a paste stays with its session
      ([Captured.pastes_stay_with_their_session]), and the codec reads from the
      session's packets what the player did
      ([CapturedWire.captured_input_reaches_the_host]).
    - _Negotiation_: the values read from the server's text fit their fields
      ([Rtsp.negotiated_values_fit]), the search for the video peer ends
      ([Rtsp.video_setup_ends]), and secrets are not logged
      ([Rtsp.secrets_stay_out_of_the_log]).
    - _Flaws_ that the model shows: [Nack.nack_queue_outgrows_its_bound] and
      [VideoFaults.early_polls_forget_losses].

    ** Conventions

    - A [u8] is a byte, every other integer a [Z]; arithmetic that can leave the
      type's range is written with the wrap-around, saturation or check of the
      source, and plain arithmetic where the range is an invariant of the
      surrounding code.  Packet indices stay below 2^48.
    - A panic (an index, slice, [expect] or subtraction out of range) is the
      outcome [Panic]; the safety theorems exclude it.  The check that release
      builds drop ([debug_assert]) and log lines are not modelled.
    - [Instant] and [Duration] are unbounded integers (nanoseconds, or the unit a
      file names); every clock reading is an argument.
    - A method that runs under a lock or on atomics is one step ([PcmRing], whose
      correctness is that of its memory order, has a step per access);
      concurrency is the interleaving of steps, and blocking is a result.
    - Sockets, channels, the peer connection (str0m) and the decoder are inputs
      and outputs: what they answer is an argument the theorems quantify over.
    - Loops that are not structural carry fuel and return [Panic] when it runs
      out, so that the theorems that exclude panics prove termination as well:
      the reorder loops get the number of buffered packets, the FEC loop twice
      the number of blocks plus two, the RED headers nine turns, evictions the
      length of the queue; the search for the video peer four rounds, the frame
      reader of the push service one turn per byte, the request loop one turn
      per event of the socket.
    - Floating point is binary64 of the Standard Library's [SpecFloat], computed.

    ** Not modelled, and why

    - opennow-core (but for the push protocol) and the Qt application: HTTP
      services, JSON, settings, the updater, credentials and the catalog; they
      do not touch the data path.
    - The session control of opennow-streamer-core ([lib.rs]) beyond the turn that
      sends captured input, and of
      [nvst_rtsp.rs] the web socket, TLS, the keep-alive thread and the text of
      the announcement: threads, sockets and formatting.
    - Device code: decoders, presentation, audio output, recording and the
      backends (Direct3D, Metal, Vulkan, VA-API, V4L2, FFmpeg), which call
      operating-system interfaces that are not part of the repository.
    - The bundle worker's socket and str0m loop in [nvst.rs] beyond the turns
      above: its state lives in the peer connection.
    - The FFI, vendored crates, tests, and everything that only formats. *)

From stdpp Require Export prelude numbers list.
From Stdlib Require Export ZArith Lia.
From Stdlib Require Strings.Byte.
From coqutil Require Export Datatypes.RecordSettersUsingExistingGetters.

#[global] Set Default Goal Selector "!".
#[global] Open Scope Z_scope.

Declare Scope nvst_scope.
Delimit Scope nvst_scope with nvst.
#[global] Open Scope nvst_scope.

(** ** Machine integers

    Every Rust integer wider than a byte is a [Z] in its range; the
    operations that can leave the range are written with the wrap-around,
    the saturation or the check the source writes. *)

Definition U16_MAX : Z := 0xffff.
Definition U32_MAX : Z := 0xffffffff.
Definition U64_MAX : Z := 0xffffffffffffffff.

Definition as_u16 (z : Z) : Z := z mod 2 ^ 16.
Definition as_u32 (z : Z) : Z := z mod 2 ^ 32.
Definition as_u64 (z : Z) : Z := z mod 2 ^ 64.
(** [x as i32] on a [u32]: two's complement. *)
Definition as_i32 (z : Z) : Z := (z + 2 ^ 31) mod 2 ^ 32 - 2 ^ 31.

Definition is_u8 (z : Z) : Prop := 0 <= z < 2 ^ 8.
Definition is_u16 (z : Z) : Prop := 0 <= z < 2 ^ 16.
Definition is_u32 (z : Z) : Prop := 0 <= z < 2 ^ 32.
Definition is_u64 (z : Z) : Prop := 0 <= z < 2 ^ 64.

(** [usize] is 64 bits wide. *)
Definition saturating_add64 (a b : Z) : Z := Z.min U64_MAX (a + b).
Definition saturating_mul64 (a b : Z) : Z := Z.min U64_MAX (a * b).
(** [saturating_sub] is the same function at every unsigned width. *)
Definition saturating_sub (a b : Z) : Z := Z.max 0 (a - b).
Definition checked_add64 (a b : Z) : option Z :=
  if a + b <=? U64_MAX then Some (a + b) else None.
Definition checked_mul64 (a b : Z) : option Z :=
  if a * b <=? U64_MAX then Some (a * b) else None.
Definition checked_sub (a b : Z) : option Z :=
  if b <=? a then Some (a - b) else None.
(** [usize::div_ceil] *)
Definition div_ceil (a b : Z) : Z := (a + b - 1) / b.
(** [usize::next_multiple_of] *)
Definition next_multiple_of (a b : Z) : Z := div_ceil a b * b.
(** [Ord::clamp] *)
Definition clamp (lo hi z : Z) : Z := if z <? lo then lo else if hi <? z then hi else z.

(** An [Instant] and a [Duration] are numbers of nanoseconds. *)
Definition saturating_duration_since (now earlier : Z) : Z := Z.max 0 (now - earlier).
Definition checked_duration_since (now earlier : Z) : option Z :=
  if earlier <=? now then Some (now - earlier) else None.
Definition from_millis (ms : Z) : Z := ms * 1000000.
Definition from_secs (s : Z) : Z := s * 1000000000.

(** ** Bytes *)

Abbreviation u8 := Byte.byte.

Definition b2z (b : u8) : Z := Z.of_N (Byte.to_N b).
(** [x as u8] *)
Definition z2b (z : Z) : u8 :=
  match Byte.of_N (Z.to_N (z mod 256)) with Some b => b | None => Byte.x00 end.

Arguments b2z : simpl never.
Arguments z2b : simpl never.

#[export] Instance byte_eq_dec : EqDecision u8.
Proof. intros a b. destruct (Byte.byte_eq_dec a b); [by left | by right]. Defined.

Lemma b2z_range b : 0 <= b2z b < 256.
Proof. unfold b2z. pose proof (Byte.to_N_bounded b). lia. Qed.

Lemma b2z_z2b z : b2z (z2b z) = z mod 256.
Proof.
  unfold b2z, z2b. pose proof (Z.mod_pos_bound z 256 ltac:(lia)).
  destruct (Byte.of_N (Z.to_N (z mod 256))) as [b|] eqn:E.
  - apply Byte.to_of_N in E. rewrite E. lia.
  - apply Byte.of_N_None_iff in E. lia.
Qed.

Lemma b2z_inj a b : b2z a = b2z b -> a = b.
Proof.
  unfold b2z. intros H. apply N2Z.inj in H.
  pose proof (Byte.of_to_N a) as Ha. rewrite H, Byte.of_to_N in Ha. congruence.
Qed.

Lemma z2b_b2z b : z2b (b2z b) = b.
Proof.
  apply b2z_inj. rewrite b2z_z2b. apply Z.mod_small, b2z_range.
Qed.

Lemma b2z_z2b_small z : 0 <= z < 256 -> b2z (z2b z) = z.
Proof. intros. rewrite b2z_z2b. by apply Z.mod_small. Qed.

(** Bitwise operations on bytes. *)
Definition bxor (a b : u8) : u8 := z2b (Z.lxor (b2z a) (b2z b)).

(** ** Fallible code

    [Ok] and [Err] are Rust's [Result]; [Panic] is an unwinding panic (an
    index or a slice out of range, a failed [expect] or [assert!]). *)

Inductive outcome (E A : Type) : Type :=
  | Ok (a : A)
  | Err (e : E)
  | Panic.
Arguments Ok {E A} a.
Arguments Err {E A} e.
Arguments Panic {E A}.

#[export] Instance outcome_ret E : MRet (outcome E) := fun A a => Ok a.
#[export] Instance outcome_bind E : MBind (outcome E) := fun A B f m =>
  match m with Ok a => f a | Err e => Err e | Panic => Panic end.
#[export] Instance outcome_fmap E : FMap (outcome E) := fun A B f m =>
  match m with Ok a => Ok (f a) | Err e => Err e | Panic => Panic end.

Lemma bind_Ok {E A B} (a : A) (f : A -> outcome E B) : (Ok a ≫= f) = f a.
Proof. done. Qed.
Lemma bind_Err {E A B} (e : E) (f : A -> outcome E B) : (Err e ≫= f) = Err e.
Proof. done. Qed.

Lemma bind_mret {E A B} (a : A) (f : A -> outcome E B) : (mret a ≫= f) = f a.
Proof. done. Qed.

(** [map_err] *)
Definition map_err {E F A} (f : E -> F) (m : outcome E A) : outcome F A :=
  match m with Ok a => Ok a | Err e => Err (f e) | Panic => Panic end.
(** [Option::ok_or] *)
Definition ok_or {E A} (o : option A) (e : E) : outcome E A :=
  match o with Some a => Ok a | None => Err e end.
(** [Option::expect] *)
Definition expect {E A} (o : option A) : outcome E A :=
  match o with Some a => Ok a | None => Panic end.
(** [if c { return Err(e) }] *)
Definition guard_err {E} (c : bool) (e : E) : outcome E unit :=
  if c then Err e else Ok tt.

(** A [for] loop that threads a state. *)
Fixpoint ofold {E S X} (f : S -> X -> outcome E S) (xs : list X) (s : S) : outcome E S :=
  match xs with
  | [] => Ok s
  | x :: xs => f s x ≫= ofold f xs
  end.

Lemma ofold_app {E S X} (f : S -> X -> outcome E S) xs ys s :
  ofold f (xs ++ ys) s = ofold f xs s ≫= ofold f ys.
Proof.
  revert s. induction xs as [|x xs IH]; intros s; [done|]. cbn [app ofold].
  destruct (f s x); [apply IH|done|done].
Qed.

Definition no_panic {E A} (m : outcome E A) : Prop := m <> Panic.

(** ** Slices: [usize] indices are [Z] *)

Section Slices.
Context {A : Type}.
Implicit Types l : list A.

Definition zlen l : Z := Z.of_nat (length l).
(** [slice::get] *)
Definition zget l (i : Z) : option A :=
  if i <? 0 then None else l !! Z.to_nat i.
(** [slice::get(a..b)] *)
Definition zget_range l (a b : Z) : option (list A) :=
  if (0 <=? a) && (a <=? b) && (b <=? zlen l)
  then Some (take (Z.to_nat (b - a)) (drop (Z.to_nat a) l)) else None.
(** [s[i]] *)
Definition idx {E} l (i : Z) : outcome E A := expect (zget l i).
(** [s[a..b]] *)
Definition slice {E} l (a b : Z) : outcome E (list A) := expect (zget_range l a b).
(** [s[i] = v] *)
Definition set_idx {E} l (i : Z) (v : A) : outcome E (list A) :=
  if (0 <=? i) && (i <? zlen l) then Ok (<[Z.to_nat i := v]> l) else Panic.
(** [s[a..b].copy_from_slice(v)] *)
Definition set_slice {E} l (a b : Z) (v : list A) : outcome E (list A) :=
  if (0 <=? a) && (a <=? b) && (b <=? zlen l) && (zlen v =? b - a)
  then Ok (take (Z.to_nat a) l ++ v ++ drop (Z.to_nat b) l) else Panic.
(** [Vec::truncate] *)
Definition truncate l (n : Z) : list A := take (Z.to_nat n) l.
(** [Vec::resize] *)
Definition resize l (n : Z) (v : A) : list A :=
  take (Z.to_nat n) l ++ replicate (Z.to_nat n - length l) v.

Lemma resize_exact l n v : length l = Z.to_nat n -> resize l n v = l.
Proof. intros H. unfold resize. rewrite <- H, Nat.sub_diag, firstn_all. apply app_nil_r. Qed.
End Slices.

Notation "l '.[' i ']'" := (idx l i)
  (at level 1, i at level 200, left associativity, format "l .[ i ]") : nvst_scope.
(** ** Byte order *)

Fixpoint from_le_bytes (l : list u8) : Z :=
  match l with
  | [] => 0
  | b :: l => b2z b + 256 * from_le_bytes l
  end.
Definition from_be_bytes (l : list u8) : Z := from_le_bytes (rev l).

Fixpoint to_le_bytes (n : nat) (z : Z) : list u8 :=
  match n with
  | O => []
  | S n => z2b z :: to_le_bytes n (z / 256)
  end.
Definition to_be_bytes (n : nat) (z : Z) : list u8 := rev (to_le_bytes n z).

(** ** Automation *)

Create HintDb nvst.
Create Rewrite HintDb lens.
Create Rewrite HintDb zlens.

(** Case analysis on a monadic hypothesis [m ≫= f = r], keeping equations. *)
Ltac outcome_step :=
  match goal with
  | H : Ok _ = Ok _ |- _ => injection H as H; subst
  | H : Err _ = Err _ |- _ => injection H as H; subst
  | H : Ok _ = Err _ |- _ => discriminate H
  | H : Ok _ = Panic |- _ => discriminate H
  | H : Err _ = Ok _ |- _ => discriminate H
  | H : Err _ = Panic |- _ => discriminate H
  | H : Panic = _ |- _ => discriminate H
  | H : mret _ = _ |- _ => unfold mret, outcome_ret in H
  | H : mbind ?f ?m = _ |- _ =>
      unfold mbind, outcome_bind in H;
      let E := fresh "E" in destruct m eqn:E; try discriminate H
  | H : guard_err ?c _ = Ok _ |- _ =>
      unfold guard_err in H; destruct c eqn:?; try discriminate H
  | H : expect ?o = Ok _ |- _ =>
      unfold expect in H; destruct o eqn:?; try discriminate H
  | H : ok_or ?o _ = Ok _ |- _ =>
      unfold ok_or in H; destruct o eqn:?; try discriminate H
  | H : map_err _ ?m = Ok _ |- _ =>
      unfold map_err in H; destruct m eqn:?; try discriminate H
  end.
Ltac outcome_inv := repeat (outcome_step; simplify_eq/=).

(** Turn the boolean tests of the code into arithmetic. *)
Ltac zbool :=
  repeat match goal with
  | H : context [Z.leb _ _] |- _ => rewrite ?Z.leb_le, ?Z.leb_gt in H
  | H : (_ <=? _) = true |- _ => apply Z.leb_le in H
  | H : (_ <=? _) = false |- _ => apply Z.leb_gt in H
  | H : (_ <? _) = true |- _ => apply Z.ltb_lt in H
  | H : (_ <? _) = false |- _ => apply Z.ltb_ge in H
  | H : (_ =? _) = true |- _ => apply Z.eqb_eq in H
  | H : (_ =? _) = false |- _ => apply Z.eqb_neq in H
  | H : negb _ = true |- _ => apply negb_true_iff in H
  | H : negb _ = false |- _ => apply negb_false_iff in H
  | H : (_ && _)%bool = true |- _ => apply andb_true_iff in H; destruct H
  | H : (_ || _)%bool = false |- _ => apply orb_false_iff in H; destruct H
  end.
(** Decide a conditional of the goal whose test is linear arithmetic. *)
Ltac zif :=
  match goal with
  | |- context [if ?c then _ else _] =>
      let E := fresh "E" in destruct c eqn:E; zbool; try lia
  end.

(** The same for a given test. *)
Tactic Notation "zcase" open_constr(c) :=
  match goal with |- context [if ?t then _ else _] =>
    unify t c; let E := fresh "E" in destruct t eqn:E; zbool; try lia end.

(** ** Generic lemmas: integers *)

Lemma saturating_sub_nonneg a b : 0 <= saturating_sub a b.
Proof. unfold saturating_sub. lia. Qed.

Lemma as_u16_range z : is_u16 (as_u16 z).
Proof. unfold is_u16, as_u16. by apply Z.mod_pos_bound. Qed.
Lemma as_u32_range z : is_u32 (as_u32 z).
Proof. unfold is_u32, as_u32. by apply Z.mod_pos_bound. Qed.
Lemma as_u64_range z : is_u64 (as_u64 z).
Proof. unfold is_u64, as_u64. by apply Z.mod_pos_bound. Qed.
#[export] Hint Resolve as_u16_range as_u32_range as_u64_range
  saturating_sub_nonneg b2z_range : nvst.

Lemma checked_add64_Some a b : a + b < 2 ^ 64 -> checked_add64 a b = Some (a + b).
Proof. intros. unfold checked_add64, U64_MAX. by rewrite (proj2 (Z.leb_le _ _)) by lia. Qed.
Lemma checked_mul64_Some a b : a * b < 2 ^ 64 -> checked_mul64 a b = Some (a * b).
Proof. intros. unfold checked_mul64, U64_MAX. by rewrite (proj2 (Z.leb_le _ _)) by lia. Qed.
Lemma saturating_mul64_small a b : a * b < 2 ^ 64 -> saturating_mul64 a b = a * b.
Proof. intros. unfold saturating_mul64, U64_MAX. lia. Qed.
Lemma saturating_add64_small a b : a + b < 2 ^ 64 -> saturating_add64 a b = a + b.
Proof. intros. unfold saturating_add64, U64_MAX. lia. Qed.
Lemma option_bind_Some {A B} (a : A) (f : A -> option B) : (Some a ≫= f) = f a.
Proof. done. Qed.
Lemma ok_or_Some {E A} (a : A) (e : E) : ok_or (Some a) e = Ok a.
Proof. done. Qed.

Lemma as_u32_small z : is_u32 z -> as_u32 z = z.
Proof. apply Z.mod_small. Qed.
Lemma as_u16_small z : is_u16 z -> as_u16 z = z.
Proof. apply Z.mod_small. Qed.

Lemma clamp_range lo hi z : lo <= hi -> lo <= clamp lo hi z <= hi.
Proof. intros. unfold clamp. repeat zif. Qed.

Lemma div_ceil_spec a b : 0 <= a -> 0 < b -> a <= div_ceil a b * b < a + b.
Proof.
  intros. unfold div_ceil.
  pose proof (Z.div_mod (a + b - 1) b). pose proof (Z.mod_pos_bound (a + b - 1) b). lia.
Qed.

(** Exhaustive checks over a small range of integers. *)
Definition zrange (n : nat) : list Z := map Z.of_nat (seq 0 n).
Lemma range_check (f : Z -> bool) n z :
  forallb f (zrange n) = true -> 0 <= z < Z.of_nat n -> f z = true.
Proof.
  intros Hf Hz. rewrite List.forallb_forall in Hf. apply Hf, List.in_map_iff.
  exists (Z.to_nat z). split; [lia|]. apply List.in_seq. lia.
Qed.

(** ** Generic lemmas: byte order *)

Lemma length_to_le_bytes n z : length (to_le_bytes n z) = n.
Proof. revert z; induction n; intros; simpl; auto. Qed.
Lemma length_to_be_bytes n z : length (to_be_bytes n z) = n.
Proof. unfold to_be_bytes. by rewrite length_rev, length_to_le_bytes. Qed.

Lemma from_le_bytes_range l : 0 <= from_le_bytes l < 256 ^ Z.of_nat (length l).
Proof.
  induction l as [|b l IH]; [simpl; lia|].
  cbn [from_le_bytes length]. pose proof (b2z_range b).
  rewrite Nat2Z.inj_succ, Z.pow_succ_r by lia. lia.
Qed.
Lemma from_be_bytes_range l : 0 <= from_be_bytes l < 256 ^ Z.of_nat (length l).
Proof. unfold from_be_bytes. rewrite <- (length_rev l). apply from_le_bytes_range. Qed.

Lemma from_to_le_bytes n z :
  0 <= z < 256 ^ Z.of_nat n -> from_le_bytes (to_le_bytes n z) = z.
Proof.
  revert z; induction n as [|n IH]; intros z Hz; [simpl in *; lia|].
  rewrite Nat2Z.inj_succ, Z.pow_succ_r in Hz by lia.
  cbn [to_le_bytes from_le_bytes]. rewrite IH.
  - rewrite b2z_z2b. pose proof (Z.div_mod z 256). lia.
  - split; [apply Z.div_pos; lia|]. apply Z.div_lt_upper_bound; lia.
Qed.
Lemma from_to_be_bytes n z :
  0 <= z < 256 ^ Z.of_nat n -> from_be_bytes (to_be_bytes n z) = z.
Proof.
  intros. unfold from_be_bytes, to_be_bytes. rewrite rev_involutive.
  by apply from_to_le_bytes.
Qed.
Lemma to_from_le_bytes l : to_le_bytes (length l) (from_le_bytes l) = l.
Proof.
  induction l as [|b l IH]; [done|].
  cbn [length from_le_bytes to_le_bytes]. f_equal.
  - apply b2z_inj. rewrite b2z_z2b. pose proof (b2z_range b).
    rewrite Z.mul_comm, Z.mod_add by lia. apply Z.mod_small. lia.
  - pose proof (b2z_range b).
    replace ((b2z b + 256 * from_le_bytes l) / 256) with (from_le_bytes l); [done|].
    rewrite Z.mul_comm, Z.div_add, Z.div_small by lia. lia.
Qed.
Lemma to_from_be_bytes l : to_be_bytes (length l) (from_be_bytes l) = l.
Proof.
  unfold to_be_bytes, from_be_bytes. rewrite <- (length_rev l), to_from_le_bytes.
  apply rev_involutive.
Qed.
Lemma take_to_le_bytes n z l : take n (to_le_bytes n z ++ l) = to_le_bytes n z.
Proof. apply take_app_length'. by rewrite length_to_le_bytes. Qed.
Lemma drop_to_le_bytes n z l : drop n (to_le_bytes n z ++ l) = l.
Proof. apply drop_app_length'. by rewrite length_to_le_bytes. Qed.
#[export] Hint Rewrite length_to_le_bytes length_to_be_bytes @length_app
  @length_take @length_drop @length_replicate @length_insert @length_cons
  @length_fmap @length_nil : lens.

(** ** Generic lemmas: slices *)

Section SliceLemmas.
Context {A : Type}.
Implicit Types l : list A.

Lemma zlen_nonneg l : 0 <= zlen l.
Proof. unfold zlen. lia. Qed.
Lemma zlen_app l k : zlen (l ++ k) = zlen l + zlen k.
Proof. unfold zlen. rewrite length_app. lia. Qed.
Lemma zlen_cons x l : zlen (x :: l) = 1 + zlen l.
Proof. unfold zlen. simpl. lia. Qed.
Lemma zlen_nil : zlen (@nil A) = 0.
Proof. done. Qed.

Lemma zget_Some l i : 0 <= i < zlen l -> is_Some (zget l i).
Proof.
  intros. unfold zget, zlen in *. rewrite (proj2 (Z.ltb_ge i 0)) by lia.
  apply lookup_lt_is_Some. lia.
Qed.
Lemma zget_lt l i x : zget l i = Some x -> 0 <= i < zlen l.
Proof.
  unfold zget, zlen. zif; [done|]. intros H%lookup_lt_Some. lia.
Qed.
Lemma zget_lookup l i : 0 <= i -> zget l i = l !! Z.to_nat i.
Proof. intros. unfold zget. by rewrite (proj2 (Z.ltb_ge i 0)) by lia. Qed.

Lemma zget_range_Some l a b :
  0 <= a <= b -> b <= zlen l ->
  zget_range l a b = Some (take (Z.to_nat (b - a)) (drop (Z.to_nat a) l)).
Proof.
  intros. unfold zget_range.
  by rewrite !(proj2 (Z.leb_le _ _)) by lia.
Qed.
Lemma zget_range_inv l a b r :
  zget_range l a b = Some r ->
  0 <= a <= b /\ b <= zlen l /\ r = take (Z.to_nat (b - a)) (drop (Z.to_nat a) l).
Proof. unfold zget_range. zif; intros; simplify_eq. repeat split; lia. Qed.
Lemma zget_range_length l a b r :
  zget_range l a b = Some r -> zlen r = b - a.
Proof.
  intros (?&?&->)%zget_range_inv. unfold zlen in *.
  rewrite length_take, length_drop. lia.
Qed.

Lemma idx_Ok {E} l i : 0 <= i < zlen l -> exists x, idx (E:=E) l i = Ok x /\ zget l i = Some x.
Proof. intros [x Hx]%zget_Some. exists x. unfold idx. by rewrite Hx. Qed.
Lemma slice_Ok {E} l a b :
  0 <= a <= b -> b <= zlen l ->
  slice (E:=E) l a b = Ok (take (Z.to_nat (b - a)) (drop (Z.to_nat a) l)).
Proof. intros. unfold slice. by rewrite zget_range_Some by lia. Qed.

(** A slice that starts after a known prefix. *)
Lemma take_drop_app l1 l2 l3 a b :
  a = zlen l1 -> b = a + zlen l2 ->
  take (Z.to_nat (b - a)) (drop (Z.to_nat a) (l1 ++ l2 ++ l3)) = l2.
Proof.
  intros -> ->. unfold zlen.
  rewrite Nat2Z.id, drop_app_length.
  replace (Z.to_nat _) with (length l2) by lia. by rewrite take_app_length.
Qed.
Lemma slice_app {E} l1 l2 l3 a b :
  a = zlen l1 -> b = a + zlen l2 -> slice (E:=E) (l1 ++ l2 ++ l3) a b = Ok l2.
Proof.
  intros Ha Hb. pose proof (zlen_nonneg l1). pose proof (zlen_nonneg l2).
  pose proof (zlen_nonneg l3).
  rewrite slice_Ok.
  - f_equal. by apply take_drop_app.
  - lia.
  - rewrite !zlen_app. lia.
Qed.

(** [l] with the elements from [a] on overwritten by [v]. *)
Definition splice l (a : Z) (v : list A) : list A :=
  take (Z.to_nat a) l ++ v ++ drop (Z.to_nat (a + zlen v)) l.

Lemma zlen_splice l a v : 0 <= a -> a + zlen v <= zlen l -> zlen (splice l a v) = zlen l.
Proof.
  intros Ha Hl. unfold splice, zlen in *. rewrite !length_app, length_take, length_drop. lia.
Qed.
Lemma set_slice_Ok {E} l a b v :
  0 <= a -> b = a + zlen v -> b <= zlen l -> set_slice (E:=E) l a b v = Ok (splice l a v).
Proof.
  intros Ha -> Hl. unfold set_slice, splice. pose proof (zlen_nonneg v).
  rewrite !(proj2 (Z.leb_le _ _)) by lia. rewrite (proj2 (Z.eqb_eq _ _)) by lia. done.
Qed.
Lemma set_idx_Ok {E} l i v :
  0 <= i < zlen l -> set_idx (E:=E) l i v = Ok (<[Z.to_nat i := v]> l).
Proof.
  intros. unfold set_idx. rewrite (proj2 (Z.leb_le _ _)), (proj2 (Z.ltb_lt _ _)) by lia. done.
Qed.
Lemma zlen_insert l i v : zlen (<[i := v]> l) = zlen l.
Proof. unfold zlen. by rewrite length_insert. Qed.
Lemma splice_outside l a v i :
  0 <= a -> a + zlen v <= zlen l -> (Z.of_nat i < a \/ a + zlen v <= Z.of_nat i) ->
  splice l a v !! i = l !! i.
Proof.
  intros Ha Hl Hi. unfold splice, zlen in *. destruct Hi as [Hi|Hi].
  - rewrite lookup_app_l by (rewrite length_take; lia). apply lookup_take_lt. lia.
  - rewrite lookup_app_r by (rewrite length_take; lia).
    rewrite lookup_app_r by (rewrite length_take; lia).
    rewrite length_take, lookup_drop. f_equal. lia.
Qed.
Lemma splice_inside l a v i :
  0 <= a -> a + zlen v <= zlen l -> (i < length v)%nat ->
  splice l a v !! (Z.to_nat a + i)%nat = v !! i.
Proof.
  intros Ha Hl Hi. unfold splice, zlen in *.
  rewrite lookup_app_r by (rewrite length_take; lia).
  rewrite length_take. replace (_ - _)%nat with i by lia. by rewrite lookup_app_l.
Qed.
End SliceLemmas.

Lemma zlen_to_be_bytes n z : zlen (to_be_bytes n z) = Z.of_nat n.
Proof. unfold zlen. by rewrite length_to_be_bytes. Qed.
Lemma zlen_to_le_bytes n z : zlen (to_le_bytes n z) = Z.of_nat n.
Proof. unfold zlen. by rewrite length_to_le_bytes. Qed.
#[export] Hint Rewrite @zlen_app @zlen_cons @zlen_nil zlen_to_be_bytes zlen_to_le_bytes : zlens.

(** Evaluate binds and guards whose outcome is known. *)
Ltac obind := repeat first
  [rewrite bind_Ok | rewrite bind_mret | rewrite bind_Err | rewrite option_bind_Some | rewrite ok_or_Some
  | progress cbv beta].

(** Step through an index of a slice whose bounds are known. *)
Ltac step_idx :=
  match goal with
  | |- context [idx (E:=?E) ?l ?i] =>
      let x := fresh "x" in let Hx := fresh "Hx" in
      destruct (idx_Ok (E:=E) l i) as (x & -> & Hx); [lia|]
  end; obind.


Arguments from_be_bytes : simpl never.
Arguments to_be_bytes : simpl never.
Arguments from_le_bytes : simpl never.
Arguments to_le_bytes : simpl never.

(** ** Reading at a known position *)

Lemma zget_at {A} (l1 l2 : list A) : zget (l1 ++ l2) (zlen l1) = head l2.
Proof.
  rewrite zget_lookup by apply zlen_nonneg. unfold zlen. rewrite Nat2Z.id, lookup_app_r, Nat.sub_diag by lia.
  by destruct l2.
Qed.

Lemma zget_range_prefix {A} (l1 l2 l3 : list A) n : n = zlen l2 -> zget_range (l1 ++ l2 ++ l3) (zlen l1) (zlen l1 + n) = Some l2.
Proof.
  intros ->. pose proof (zlen_nonneg l1). pose proof (zlen_nonneg l2). pose proof (zlen_nonneg l3).
  rewrite zget_range_Some; [f_equal; by apply take_drop_app|lia|rewrite !zlen_app; lia].
Qed.
Lemma zget_range_split {A} (l1 rest block : list A) n :
  zget_range (l1 ++ rest) (zlen l1) (zlen l1 + n) = Some block -> exists tail, rest = block ++ tail /\ zlen block = n.
Proof.
  intros H. pose proof (zget_range_length _ _ _ _ H) as Hl. apply zget_range_inv in H as (H1 & H2 & ->).
  exists (drop (Z.to_nat n) rest). replace (zlen l1 + n - zlen l1) with n in * by lia.
  split; [|lia]. unfold zlen at 1. rewrite Nat2Z.id, drop_app_length. by rewrite take_drop.
Qed.

Lemma zget_app_l {A} (l1 l2 : list A) i x : zget l1 i = Some x -> zget (l1 ++ l2) i = Some x.
Proof.
  intros H. pose proof (zget_lt _ _ _ H). rewrite zget_lookup in * by lia.
  by apply lookup_app_l_Some.
Qed.
Lemma zget_range_app_l {A} (l1 l2 : list A) a b : b <= zlen l1 -> zget_range (l1 ++ l2) a b = zget_range l1 a b.
Proof.
  intros Hb. unfold zget_range. rewrite zlen_app. pose proof (zlen_nonneg l2).
  rewrite (proj2 (Z.leb_le b (zlen l1 + zlen l2))), (proj2 (Z.leb_le b (zlen l1))) by lia.
  destruct ((0 <=? a) && (a <=? b)) eqn:E; [cbn [andb]|done]. zbool.
  unfold zlen in *. rewrite drop_app_le, take_app_le by (rewrite ?length_drop; lia). done.
Qed.

Lemma zget_insert {A} (l : list A) i j v :
  0 <= i < zlen l -> 0 <= j ->
  zget (<[Z.to_nat i := v]> l) j = if j =? i then Some v else zget l j.
Proof.
  intros Hi Hj. rewrite !zget_lookup by lia. unfold zlen in Hi. destruct (Z.eqb_spec j i) as [->|].
  - apply list_lookup_insert_eq. lia.
  - apply list_lookup_insert_ne. lia.
Qed.

(** Disjoint bits add up. *)
Lemma lor_shiftl_low a b k : 0 <= a -> 0 <= k -> 0 <= b < 2 ^ k -> Z.lor (Z.shiftl a k) b = a * 2 ^ k + b.
Proof.
  intros Ha Hk Hb. rewrite <- Z.shiftl_mul_pow2 by lia. symmetry. rewrite Z.add_nocarry_lxor.
  - apply Z.lxor_lor, Z.bits_inj'. intros n Hn. rewrite Z.land_spec, Z.shiftl_spec, Z.bits_0 by lia.
    destruct (Z.ltb_spec n k); [by rewrite Z.testbit_neg_r by lia|].
    rewrite <- (Z.mod_small b (2 ^ k)) by lia. rewrite Z.mod_pow2_bits_high by lia. apply andb_false_r.
  - apply Z.bits_inj'. intros n Hn. rewrite Z.land_spec, Z.shiftl_spec, Z.bits_0 by lia.
    destruct (Z.ltb_spec n k); [by rewrite Z.testbit_neg_r by lia|].
    rewrite <- (Z.mod_small b (2 ^ k)) by lia. rewrite Z.mod_pow2_bits_high by lia. apply andb_false_r.
Qed.

(** ** Code that cannot panic *)

Section NoPanic.
Context {E : Type}.

Lemma bind_no_panic {A B} (m : outcome E A) (f : A -> outcome E B) :
  m <> Panic -> (forall a, m = Ok a -> f a <> Panic) -> (m ≫= f) <> Panic.
Proof. destruct m as [a|e|]; intros Hm Hf; [by apply Hf|done|done]. Qed.
Lemma idx_no_panic {A} (l : list A) i : 0 <= i < zlen l -> idx (E:=E) l i <> Panic.
Proof. intros H. destruct (idx_Ok (E:=E) l i H) as (x & -> & _). done. Qed.
Lemma slice_no_panic {A} (l : list A) a b : 0 <= a <= b -> b <= zlen l -> slice (E:=E) l a b <> Panic.
Proof. intros. by rewrite slice_Ok. Qed.
Lemma guard_err_no_panic c (e : E) : guard_err c e <> Panic.
Proof. by destruct c. Qed.
Lemma ok_or_no_panic {A} (o : option A) (e : E) : ok_or o e <> Panic.
Proof. by destruct o. Qed.
Lemma expect_no_panic {A} (o : option A) : is_Some o -> expect (E:=E) o <> Panic.
Proof. by intros [x ->]. Qed.

Lemma guard_err_inv c (e : E) u : guard_err c e = Ok u -> c = false.
Proof. by destruct c. Qed.
Lemma slice_inv {A} (l : list A) a b r :
  slice (E:=E) l a b = Ok r -> 0 <= a <= b /\ b <= zlen l /\ zlen r = b - a.
Proof.
  unfold slice, expect. destruct (zget_range l a b) as [x|] eqn:H; [|done]. intros [= <-].
  pose proof (zget_range_length _ _ _ _ H). apply zget_range_inv in H as (? & ? & _). done.
Qed.
Lemma bind_Ok_inv {A B} (m : outcome E A) (f : A -> outcome E B) b :
  (m ≫= f) = Ok b -> exists a, m = Ok a /\ f a = Ok b.
Proof. destruct m as [a|e|]; intros H; [by exists a|done|done]. Qed.
End NoPanic.

(** Walk a monadic program whose indices are in range by arithmetic. *)
Ltac no_panic_step :=
  match goal with
  | |- Ok _ <> Panic => discriminate
  | |- Err _ <> Panic => discriminate
  | |- mret _ <> Panic => discriminate
  | |- guard_err _ _ <> Panic => apply guard_err_no_panic
  | |- ok_or _ _ <> Panic => apply ok_or_no_panic
  | |- idx _ _ <> Panic => apply idx_no_panic; lia
  | |- slice _ _ _ <> Panic => apply slice_no_panic; lia
  | |- mbind _ _ <> Panic =>
      apply bind_no_panic;
      [|let x := fresh "x" in let Hx := fresh "Hx" in intros x Hx;
        try (apply guard_err_inv in Hx; zbool); try (apply slice_inv in Hx as (? & ? & ?))]
  | |- (if ?c then _ else _) <> Panic => let Ec := fresh "Ec" in destruct c eqn:Ec; zbool
  end.
Ltac no_panic := repeat no_panic_step.
