(* ===== verification/Types.v ===== *)
(** * Shared data of the receive transport

    The value types of [nvst.rs] that several components exchange: codecs,
    socket addresses, the reasons for which a datagram is dropped, the events
    the receiver returns. *)

From S2P Require Import Prelude.
From stdpp Require Import strings.

(** The depth of the reorder, NACK and replay windows, and how long a gap is
    waited for. *)
Definition MAX_REORDER_WINDOW : Z := 2048.
Definition MJOLNIR_REORDER_DEQUEUE_TIMEOUT : Z := from_millis 52.

(** [IpAddr] of the standard library: the octets in network order. *)
Inductive IpAddr :=
  | V4 (octets : list u8)
  | V6 (octets : list u8).
Record SocketAddr := { sa_ip : IpAddr; sa_port : Z }.

#[export] Instance IpAddr_eq_dec : EqDecision IpAddr.
Proof. solve_decision. Defined.
#[export] Instance SocketAddr_eq_dec : EqDecision SocketAddr.
Proof. solve_decision. Defined.

Inductive NvstVideoCodec := H264 | H265 | Av1.
#[export] Instance NvstVideoCodec_eq_dec : EqDecision NvstVideoCodec.
Proof. solve_decision. Defined.

Inductive NvstUnsupportedFeature := FecRepair.
#[export] Instance NvstUnsupportedFeature_eq_dec : EqDecision NvstUnsupportedFeature.
Proof. solve_decision. Defined.

Inductive RtpParseError :=
  | TooShort
  | InvalidVersion
  | InvalidCsrcLength
  | InvalidExtensionLength
  | MissingAuthenticationTag
  | InvalidPadding
  | MissingNvVideoHeader.
#[export] Instance RtpParseError_eq_dec : EqDecision RtpParseError.
Proof. solve_decision. Defined.

Inductive NvstDropReason :=
  | UnexpectedSource (expected actual : SocketAddr)
  | DropPaused
  | DropStopped
  | DropRecoveryRequired
  | MalformedRtp (e : RtpParseError)
  | AuthenticationFailed
  | ReplayRejected
  | UnexpectedPayloadType (expected actual : Z)
  | UnexpectedSsrc (expected actual : Z)
  | StaleRtpPacket (index : Z)
  | DuplicateRtpPacket (index : Z)
  | Unsupported (f : NvstUnsupportedFeature)
  | AwaitingStartOfFrame
  | FrameDiscontinuity
  | MissingAnnexBStartCode
  | InvalidLastPacketPayloadLength (reported frame_header_size available : Z)
  | AccessUnitTooLarge (limit : Z)
  | MalformedRedAudio
  | MediaConsumerBackpressured
  | MediaConsumerClosed.
#[export] Instance NvstDropReason_eq_dec : EqDecision NvstDropReason.
Proof. solve_decision. Defined.

Inductive NvstRecovery :=
  | PacketGap (first_missing_index last_missing_index : Z)
  | RecoveryTimeout (idle_for : Z)
  | RecoveryFrameProgress (idle_for : Z) (last_assembled_frame_index : option Z).
#[export] Instance NvstRecovery_eq_dec : EqDecision NvstRecovery.
Proof. solve_decision. Defined.

Record EncodedVideoAccessUnit := {
  au_codec : NvstVideoCodec;
  au_timestamp : Z;
  au_frame_index : Z;
  au_first_stream_packet_index : Z;
  au_keyframe : bool;
  au_contiguous : bool;
  au_bytes : list u8
}.

Inductive NvstReceiverState := Running | Paused | RecoveryRequired | Stopped.
#[export] Instance NvstReceiverState_eq_dec : EqDecision NvstReceiverState.
Proof. solve_decision. Defined.

(** What the receive path reports.  The receiver of this development produces
    [EvFrame], [EvDropped], [EvRecoveryNeeded], [EvFrameProgressResumed] and
    [EvLifecycle]; the others are sent by the UDP worker around it. *)
Inductive NvstReceiveEvent :=
  | EvFrame (frame : EncodedVideoAccessUnit)
  | EvTransportReady (label : string)
  | EvInputReady (protocol : Z)
  | EvInputQueued
  | EvInputUnavailable (reason : string)
  | EvMicrophoneError (reason : string)
  | EvCursor (cursor : list u8)
  | EvCursorCapture (captured : bool)
  | EvDropped (reason : NvstDropReason)
  | EvRecoveryNeeded (recovery : NvstRecovery)
  | EvFrameProgressStall (idle_for : Z) (last_assembled_frame_index : option Z)
      (recovery_required : bool)
  | EvFrameProgressResumed
  | EvLifecycle (state : NvstReceiverState).
