(* ===== verification/Rtp.v ===== *)
(** * RTP headers, video metadata and FEC coordinates

    [RtpHeader::parse], [RtpHeader::payload], [NvVideoPacket::parse] and
    [FecPacketLayout::from_packet] of [nvst.rs], with every index and slice of
    the source written as an operation that can panic. *)

From S2P Require Import Prelude Types.

Definition RTP_FIXED_HEADER_LEN : Z := 12.
Definition NV_VIDEO_PACKET_LEN : Z := 16.
Definition GS_VIDEO_EXTENSION_PROFILE : Z := 0x4753.
Definition STREAM_PACKET_INDEX_MASK : Z := 0x00ffffff.
Definition FLAG_CONTAINS_PIC_DATA : Z := 0x01.
Definition FLAG_EOF : Z := 0x02.
Definition FLAG_SOF : Z := 0x04.

Module RtpHeader.

Record t := {
  payload_type : Z;
  sequence_number : Z;
  timestamp : Z;
  ssrc : Z;
  payload_offset : Z;
  has_padding : bool;
  gs_video_header : option (list u8)
}.

(** The body of [if first & 0x10 != 0]: the new payload offset and the GS
    metadata block. *)
Definition parse_extension (packet : list u8) (payload_offset : Z)
    : outcome RtpParseError (Z * option (list u8)) :=
  guard_err (zlen packet <? payload_offset + 4) InvalidExtensionLength;;
  p0 ← packet.[payload_offset];
  p1 ← packet.[payload_offset + 1];
  let profile := from_be_bytes [p0; p1] in
  w0 ← packet.[payload_offset + 2];
  w1 ← packet.[payload_offset + 3];
  let words := from_be_bytes [w0; w1] in
  extension_len ← ok_or (checked_mul64 words 4 ≫= fun length => checked_add64 length 4)
    InvalidExtensionLength;
  extension_end ← ok_or (checked_add64 payload_offset extension_len)
    InvalidExtensionLength;
  guard_err (zlen packet <? extension_end) InvalidExtensionLength;;
  gs ← (if profile =? GS_VIDEO_EXTENSION_PROFILE then
          guard_err (negb (words * 4 =? NV_VIDEO_PACKET_LEN)) InvalidExtensionLength;;
          body ← slice packet (payload_offset + 4) extension_end;
          block ← slice body 0 NV_VIDEO_PACKET_LEN;
          mret (Some block)
        else mret None);
  mret (extension_end, gs).

Definition parse (packet : list u8) : outcome RtpParseError t :=
  guard_err (zlen packet <? RTP_FIXED_HEADER_LEN) TooShort;;
  first ← packet.[0];
  guard_err (negb (Z.shiftr (b2z first) 6 =? 2)) InvalidVersion;;
  let csrc_count := Z.land (b2z first) 0x0f in
  offset ← ok_or (checked_add64 RTP_FIXED_HEADER_LEN (saturating_mul64 csrc_count 4))
    InvalidCsrcLength;
  guard_err (zlen packet <? offset) InvalidCsrcLength;;
  ext ← (if negb (Z.land (b2z first) 0x10 =? 0) then parse_extension packet offset
         else mret (offset, None));
  b1 ← packet.[1];
  b2 ← packet.[2]; b3 ← packet.[3];
  b4 ← packet.[4]; b5 ← packet.[5]; b6 ← packet.[6]; b7 ← packet.[7];
  b8 ← packet.[8]; b9 ← packet.[9]; b10 ← packet.[10]; b11 ← packet.[11];
  mret {|
    payload_type := Z.land (b2z b1) 0x7f;
    sequence_number := from_be_bytes [b2; b3];
    timestamp := from_be_bytes [b4; b5; b6; b7];
    ssrc := from_be_bytes [b8; b9; b10; b11];
    payload_offset := ext.1;
    has_padding := negb (Z.land (b2z first) 0x20 =? 0);
    gs_video_header := ext.2
  |}.

Definition payload (self : t) (packet : list u8) : outcome RtpParseError (list u8) :=
  guard_err (zlen packet <? payload_offset self) TooShort;;
  let end_ := zlen packet in
  end_ ← (if has_padding self then
            lastb ← ok_or (last packet) InvalidPadding;
            let padding := b2z lastb in
            guard_err ((padding =? 0) || (saturating_sub end_ (payload_offset self) <? padding))
              InvalidPadding;;
            mret (end_ - padding)
          else mret end_);
  slice packet (payload_offset self) end_.

End RtpHeader.

Inductive RtpPacketOrigin := Authenticated | RecoveredData.
#[export] Instance RtpPacketOrigin_eq_dec : EqDecision RtpPacketOrigin.
Proof. solve_decision. Defined.

Record RtpPacket := {
  pk_index : Z;
  pk_header : RtpHeader.t;
  pk_plaintext : list u8;
  pk_origin : RtpPacketOrigin
}.

Module NvVideoPacket.

Record t := {
  stream_packet_index : Z;
  frame_index : Z;
  flags : Z;
  fec_current_block : Z;
  fec_last_block : Z;
  is_fec : bool
}.

(** [u32::from_le_bytes(extension[a..a + 4])] *)
Definition le_word (extension : list u8) (a : Z) : outcome RtpParseError Z :=
  w ← slice extension a (a + 4); mret (from_le_bytes w).

Definition parse (header : RtpHeader.t) (payload : list u8)
    : outcome RtpParseError (t * list u8) :=
  extension ← ok_or (RtpHeader.gs_video_header header) MissingNvVideoHeader;
  packet_word ← le_word extension 0;
  flags_word ← le_word extension 8;
  fec_word ← le_word extension 12;
  multi ← extension.[11];
  let multi_fec_blocks := b2z multi in
  let fec_percentage := Z.land (Z.shiftr fec_word 4) 0xff in
  let fec_index := Z.land (Z.shiftr fec_word 12) 0x3ff in
  let fec_source_packets := Z.land (Z.shiftr fec_word 22) 0x3ff in
  frame ← le_word extension 4;
  mret ({|
    stream_packet_index := Z.land (Z.shiftr packet_word 8) STREAM_PACKET_INDEX_MASK;
    frame_index := frame;
    flags := Z.land flags_word 0x0f;
    fec_current_block := Z.land (Z.shiftr multi_fec_blocks 4) 0x03;
    fec_last_block := Z.land (Z.shiftr multi_fec_blocks 6) 0x03;
    is_fec := negb (fec_percentage =? 0) && (fec_source_packets <=? fec_index)
  |}, payload).

Definition is_start_of_frame (self : t) : bool :=
  negb (Z.land (flags self) FLAG_SOF =? 0) && (fec_current_block self =? 0).

Definition is_end_of_frame (self : t) : bool :=
  negb (Z.land (flags self) FLAG_EOF =? 0)
    && (fec_current_block self =? fec_last_block self).

End NvVideoPacket.

Module FecPacketLayout.

Record t := {
  frame_index : Z;
  block_index : Z;
  last_block_index : Z;
  shard_index : Z;
  data_shards : Z;
  parity_shards : Z
}.

#[export] Instance t_eq_dec : EqDecision t.
Proof. solve_decision. Defined.

(** The slices are taken of a 16-byte array, so [try_into().ok()?] and the
    conversions to [usize] succeed; [None] stands for all the [?]s. *)
Definition from_packet (packet : RtpPacket) : option t :=
  extension ← RtpHeader.gs_video_header (pk_header packet);
  frame ← from_le_bytes <$> zget_range extension 4 8;
  fec_word ← from_le_bytes <$> zget_range extension 12 16;
  let repair_percent := Z.land (Z.shiftr fec_word 4) 0xff in
  let shard_index := Z.land (Z.shiftr fec_word 12) 0x3ff in
  let data_shards := Z.land (Z.shiftr fec_word 22) 0x3ff in
  if (data_shards =? 0) || (repair_percent =? 0) then None else
  let parity_shards := div_ceil (saturating_mul64 data_shards repair_percent) 100 in
  total_shards ← checked_add64 data_shards parity_shards;
  if (parity_shards =? 0) || (total_shards <=? shard_index) || (1023 <? total_shards)
  then None else
  multi ← zget extension 11;
  Some {|
    frame_index := frame;
    block_index := Z.land (Z.shiftr (b2z multi) 4) 0x03;
    last_block_index := Z.land (Z.shiftr (b2z multi) 6) 0x03;
    shard_index := shard_index;
    data_shards := data_shards;
    parity_shards := parity_shards
  |}.

End FecPacketLayout.

(** ** Well-formedness and panic freedom *)

(** A parsed header: fields in range, the GS block exactly 16 bytes. *)
Record header_wf (h : RtpHeader.t) : Prop := {
  wf_payload_type : 0 <= RtpHeader.payload_type h < 128;
  wf_sequence : is_u16 (RtpHeader.sequence_number h);
  wf_timestamp : is_u32 (RtpHeader.timestamp h);
  wf_ssrc : is_u32 (RtpHeader.ssrc h);
  wf_offset : 12 <= RtpHeader.payload_offset h;
  wf_gs : forall e, RtpHeader.gs_video_header h = Some e -> zlen e = NV_VIDEO_PACKET_LEN;
  (** the GS block ends where the payload starts *)
  wf_gs_offset : is_Some (RtpHeader.gs_video_header h) -> 32 <= RtpHeader.payload_offset h
}.

Lemma csrc_count_range b : 0 <= Z.land (b2z b) 0x0f < 16.
Proof.
  change 0x0f with (Z.ones 4). rewrite Z.land_ones by lia.
  apply Z.mod_pos_bound; lia.
Qed.

Lemma be_bytes_u16 a b : is_u16 (from_be_bytes [a; b]).
Proof. apply (from_be_bytes_range [a; b]). Qed.
Lemma be_bytes_u32 a b c d : is_u32 (from_be_bytes [a; b; c; d]).
Proof. apply (from_be_bytes_range [a; b; c; d]). Qed.
#[export] Hint Resolve be_bytes_u16 be_bytes_u32 : nvst.

(** [parse_extension] never panics, and on success the new offset is inside
    the packet, after the 4-byte extension header. *)
Lemma parse_extension_spec packet off :
  12 <= off <= 72 ->
  match RtpHeader.parse_extension packet off with
  | Ok (off', gs) =>
      off + 4 <= off' <= zlen packet /\
      match gs with
      | Some e => off' = off + 4 + 16 /\ zlen e = NV_VIDEO_PACKET_LEN
      | None => True
      end
  | Err e => e = InvalidExtensionLength
  | Panic => False
  end.
Proof.
  intros Hoff. unfold RtpHeader.parse_extension, guard_err.
  zif; [done|]. simpl mbind. do 4 step_idx.
  pose proof (be_bytes_u16 x0 x) as Hw. unfold is_u16 in Hw.
  set (words := from_be_bytes [x0; x]) in *.
  unfold checked_mul64, checked_add64, U64_MAX.
    rewrite (proj2 (Z.leb_le (words * 4) _)) by lia. simpl mbind.
  rewrite (proj2 (Z.leb_le (words * 4 + 4) _)) by lia. simpl.
  rewrite (proj2 (Z.leb_le (off + (words * 4 + 4)) _)) by lia. simpl.
  zcase (zlen packet <? _); [done|]. simpl.
  destruct (_ =? GS_VIDEO_EXTENSION_PROFILE); simpl; [|lia].
  destruct (negb (words * 4 =? NV_VIDEO_PACKET_LEN)) eqn:Ew; zbool; [done|].
  unfold NV_VIDEO_PACKET_LEN in *. simpl.
  rewrite slice_Ok by lia. simpl.
  set (body := take _ (drop _ packet)).
  assert (Hb : zlen body = 16).
  { unfold body, zlen in *. rewrite length_take, length_drop. lia. }
  rewrite slice_Ok by lia. simpl. unfold zlen in *.
  rewrite length_take, length_drop. lia.
Qed.

Lemma parse_spec packet :
  match RtpHeader.parse packet with
  | Ok h => header_wf h /\ RtpHeader.payload_offset h <= zlen packet
  | Err e => e <> MissingNvVideoHeader /\ e <> MissingAuthenticationTag /\ e <> InvalidPadding
  | Panic => False
  end.
Proof.
  unfold RtpHeader.parse, guard_err, RTP_FIXED_HEADER_LEN.
  zcase (zlen packet <? 12); [done|]. simpl.
  destruct (idx_Ok (E:=RtpParseError) packet 0) as (first & -> & _); [lia|]. simpl.
  destruct (negb (_ =? 2)); [done|]. simpl.
  pose proof (csrc_count_range first).
  set (cc := Z.land (b2z first) 0x0f) in *. change (Z.land (b2z first) 15) with cc.
  rewrite saturating_mul64_small, checked_add64_Some by lia. obind.
  zcase (zlen packet <? _); [done|]. simpl.
  assert (Hext : match (if negb (Z.land (b2z first) 0x10 =? 0)
      then RtpHeader.parse_extension packet (12 + cc * 4) else mret (12 + cc * 4, None)) with
    | Ok (off, gs) => 12 <= off <= zlen packet /\
        match gs with Some e => 32 <= off /\ zlen e = NV_VIDEO_PACKET_LEN | None => True end
    | Err e => e = InvalidExtensionLength | Panic => False end).
  { destruct (negb _); [|simpl; lia].
    pose proof (parse_extension_spec packet (12 + cc * 4)) as H'.
    specialize (H' ltac:(lia)).
    destruct (RtpHeader.parse_extension _ _) as [[off gs]|e|]; [|done..].
    destruct H' as [? Hg]. split; [lia|]. destruct gs; [|done]. split; [lia|tauto]. }
  simpl in Hext.
  destruct (if negb _ then _ else _) as [[off gs]|e|]; [|by subst|done]. simpl.
  do 11 step_idx. destruct Hext as [? Hg]. split; [|simpl; lia].
  constructor; simpl; eauto with nvst; try lia.
  - change 127 with (Z.ones 7). rewrite Z.land_ones by lia. apply Z.mod_pos_bound; lia.
  - intros e ->. tauto.
  - intros [e ->]. lia.
Qed.

Lemma payload_spec h packet :
  0 <= RtpHeader.payload_offset h ->
  match RtpHeader.payload h packet with
  | Ok p => exists pad, packet = take (Z.to_nat (RtpHeader.payload_offset h)) packet ++ p ++ pad
      /\ (RtpHeader.has_padding h = false -> pad = [])
      /\ (RtpHeader.has_padding h = true ->
          exists b, last packet = Some b /\ zlen pad = b2z b /\ 0 < zlen pad)
  | Err e => e = TooShort \/ e = InvalidPadding
  | Panic => False
  end.
Proof.
  intros Hoff. unfold RtpHeader.payload, guard_err.
  zcase (zlen packet <? _); [by left|]. simpl.
  set (off := RtpHeader.payload_offset h) in *.
  assert (Hsplit : forall e, off <= e <= zlen packet ->
    slice (E:=RtpParseError) packet off e = Ok (take (Z.to_nat (e - off)) (drop (Z.to_nat off) packet))
    /\ packet = take (Z.to_nat off) packet
         ++ take (Z.to_nat (e - off)) (drop (Z.to_nat off) packet) ++ drop (Z.to_nat e) packet).
  { intros e He. split; [apply slice_Ok; lia|].
    rewrite <- (take_drop (Z.to_nat off) packet) at 1. f_equal.
    rewrite <- (take_drop (Z.to_nat (e - off)) (drop _ packet)) at 1. f_equal.
    rewrite drop_drop. f_equal. lia. }
  destruct (RtpHeader.has_padding h).
  - destruct (last packet) as [b|] eqn:Eb; simpl; [|by right].
    unfold saturating_sub. destruct (_ || _) eqn:Ep; simpl; [by right|]. zbool.
    pose proof (b2z_range b).
    destruct (Hsplit (zlen packet - b2z b)) as [-> Heq]; [lia|].
    eexists; split_and!; [done|done|]. intros _. exists b. split; [done|].
    unfold zlen. rewrite length_drop. unfold zlen in *. lia.
  - simpl. destruct (Hsplit (zlen packet)) as [-> Heq]; [lia|].
    eexists; split_and!; [done| |done]. intros _. apply drop_ge. unfold zlen. lia.
Qed.

(** ** The wire layout of RFC 3550 with the GS extension *)

(** The reference encoding the parser is compared with: version 2, an
    optional 16-byte GS block, [pad] trailing padding bytes. *)
Record wire := {
  w_marker : bool;
  w_payload_type : Z;
  w_sequence : Z;
  w_timestamp : Z;
  w_ssrc : Z;
  w_csrcs : list u8;
  w_gs : option (list u8);
  w_body : list u8;
  w_padding : list u8
}.

Definition wire_first (w : wire) : Z :=
  0x80 + (if decide (w_padding w = []) then 0 else 0x20)
  + (match w_gs w with Some _ => 0x10 | None => 0 end) + zlen (w_csrcs w) / 4.
Definition wire_extension (w : wire) : list u8 :=
  match w_gs w with
  | Some e => to_be_bytes 2 GS_VIDEO_EXTENSION_PROFILE ++ to_be_bytes 2 4 ++ e
  | None => []
  end.
Definition wire_fixed (w : wire) : list u8 :=
  [z2b (wire_first w);
   z2b ((if w_marker w then 0x80 else 0) + w_payload_type w)]
  ++ to_be_bytes 2 (w_sequence w) ++ to_be_bytes 4 (w_timestamp w)
  ++ to_be_bytes 4 (w_ssrc w).
Definition wire_header (w : wire) : list u8 :=
  wire_fixed w ++ w_csrcs w ++ wire_extension w.
Definition wire_bytes (w : wire) : list u8 :=
  wire_header w ++ w_body w ++ w_padding w.

Record wire_ok (w : wire) : Prop := {
  wok_pt : 0 <= w_payload_type w < 128;
  wok_seq : is_u16 (w_sequence w);
  wok_ts : is_u32 (w_timestamp w);
  wok_ssrc : is_u32 (w_ssrc w);
  wok_csrcs : exists n, 0 <= n < 16 /\ zlen (w_csrcs w) = 4 * n;
  wok_gs : forall e, w_gs w = Some e -> zlen e = NV_VIDEO_PACKET_LEN;
  wok_padding : forall b, last (w_padding w) = Some b -> b2z b = zlen (w_padding w)
}.

Lemma wire_fixed_length w : zlen (wire_fixed w) = 12.
Proof. unfold wire_fixed. by autorewrite with zlens. Qed.

(** The first octet is [128 + pad + ext + csrcs]; its fields do not overlap. *)
Definition first_octet_ok (pad ext csrcs : Z) : bool :=
  let f := 0x80 + pad + ext + csrcs in
  (Z.shiftr f 6 =? 2) && (Z.land f 0x0f =? csrcs)
  && (Z.land f 0x10 =? ext) && (Z.land f 0x20 =? pad) && (f <? 256).

Lemma first_octet_fields pad ext csrcs :
  pad = 0 \/ pad = 0x20 -> ext = 0 \/ ext = 0x10 -> 0 <= csrcs < 16 ->
  first_octet_ok pad ext csrcs = true.
Proof.
  intros [-> | ->] [-> | ->] Hc;
    (apply (range_check (first_octet_ok _ _) 16); [vm_compute; reflexivity | exact Hc]).
Qed.

Lemma wire_first_fields w :
  wire_ok w ->
  Z.shiftr (wire_first w) 6 = 2
  /\ Z.land (wire_first w) 0x0f = zlen (w_csrcs w) / 4
  /\ negb (Z.land (wire_first w) 0x10 =? 0) = bool_decide (is_Some (w_gs w))
  /\ negb (Z.land (wire_first w) 0x20 =? 0) = bool_decide (w_padding w <> [])
  /\ 0 <= wire_first w < 256.
Proof.
  intros [_ _ _ _ (n & Hn & Hlen) _ _]. unfold wire_first. rewrite Hlen.
  rewrite (Z.mul_comm 4 n), Z.div_mul by lia.
  set (pad := if decide (w_padding w = []) then 0 else 0x20).
  set (ext := match w_gs w with Some _ => 0x10 | None => 0 end).
  assert (Hp : pad = 0 \/ pad = 0x20) by (unfold pad; case_decide; auto).
  assert (He : ext = 0 \/ ext = 0x10) by (unfold ext; case_match; auto).
  pose proof (first_octet_fields pad ext n Hp He Hn) as Hf.
  unfold first_octet_ok in Hf. zbool.
  split; [done|]. split; [done|]. split; [|split; [|lia]].
  - replace (Z.land (128 + pad + ext + n) 16) with ext by done. unfold ext.
    destruct (w_gs w); [by rewrite bool_decide_eq_true_2 by eauto|].
    rewrite bool_decide_eq_false_2; [done|by intros [??]].
  - replace (Z.land (128 + pad + ext + n) 32) with pad by done. unfold pad.
    case_decide; [by rewrite bool_decide_eq_false_2 by auto|by rewrite bool_decide_eq_true_2].
Qed.

Lemma idx_app_l {E} (l1 l2 : list u8) i x :
  zget l1 i = Some x -> idx (E:=E) (l1 ++ l2) i = Ok x.
Proof.
  intros H. pose proof (zget_lt _ _ _ H) as Hi. unfold idx.
  rewrite zget_lookup in * by lia. by rewrite lookup_app_l_Some with (x := x).
Qed.
Lemma idx_app_r {E} (l1 l2 : list u8) i x :
  zlen l1 <= i -> zget l2 (i - zlen l1) = Some x -> idx (E:=E) (l1 ++ l2) i = Ok x.
Proof.
  intros Hl H. unfold idx. rewrite zget_lookup in * by (unfold zlen in *; lia).
  rewrite lookup_app_r by (unfold zlen in *; lia).
  replace (Z.to_nat i - length l1)%nat with (Z.to_nat (i - zlen l1)) by (unfold zlen in *; lia).
  by rewrite H.
Qed.

(** The two- and four-byte fields, byte by byte. *)
Lemma to_be_bytes_2 z : exists a b, to_be_bytes 2 z = [a; b].
Proof. do 2 eexists. reflexivity. Qed.
Lemma to_be_bytes_4 z : exists a b c d, to_be_bytes 4 z = [a; b; c; d].
Proof. do 4 eexists. reflexivity. Qed.

Definition wire_parsed (w : wire) : RtpHeader.t := {|
  RtpHeader.payload_type := w_payload_type w;
  RtpHeader.sequence_number := w_sequence w;
  RtpHeader.timestamp := w_timestamp w;
  RtpHeader.ssrc := w_ssrc w;
  RtpHeader.payload_offset := zlen (wire_header w);
  RtpHeader.has_padding := bool_decide (w_padding w <> []);
  RtpHeader.gs_video_header := w_gs w
|}.

Lemma parse_extension_wire w e tail :
  wire_ok w -> w_gs w = Some e ->
  RtpHeader.parse_extension (wire_header w ++ tail) (12 + zlen (w_csrcs w))
  = Ok (zlen (wire_header w), Some e).
Proof.
  intros Hok He. pose proof (wok_gs w Hok e He) as Hlen. unfold NV_VIDEO_PACKET_LEN in Hlen.
  destruct (wok_csrcs w Hok) as (n & Hn & Hc).
  assert (Hh : zlen (wire_header w) = 12 + zlen (w_csrcs w) + 20).
  { unfold wire_header, wire_extension. rewrite He. autorewrite with zlens.
    rewrite wire_fixed_length. lia. }
  set (pre := wire_fixed w ++ w_csrcs w).
  assert (Hpre : zlen pre = 12 + zlen (w_csrcs w)).
  { unfold pre. autorewrite with zlens. rewrite wire_fixed_length. lia. }
  rewrite <- Hpre.
  assert (Hw : wire_header w ++ tail = pre ++ [z2b 0x47; z2b 0x53; z2b 0; z2b 4] ++ e ++ tail).
  { unfold wire_header, wire_extension, pre. rewrite He.
    by rewrite <- !app_assoc. }
  assert (Hl : zlen (wire_header w ++ tail) = zlen pre + 20 + zlen tail).
  { rewrite Hw. autorewrite with zlens. lia. }
  pose proof (zlen_nonneg tail).
  assert (Hidx : forall i b, zget [z2b 0x47; z2b 0x53; z2b 0; z2b 4] i = Some b ->
    idx (E:=RtpParseError) (wire_header w ++ tail) (zlen pre + i) = Ok b).
  { intros i b Hb. pose proof (zget_lt _ _ _ Hb). rewrite Hw. apply idx_app_r; [lia|].
    rewrite Z.add_simpl_l. unfold zget in *. case_match; [done|].
    by apply lookup_app_l_Some. }
  unfold RtpHeader.parse_extension, guard_err.
  zcase (zlen (wire_header w ++ tail) <? _). obind.
  rewrite <- (Z.add_0_r (zlen pre)) at 1.
  rewrite (Hidx 0 _ eq_refl); obind. rewrite (Hidx 1 _ eq_refl); obind.
  rewrite (Hidx 2 _ eq_refl); obind. rewrite (Hidx 3 _ eq_refl); obind.
  replace (from_be_bytes [z2b 0x47; z2b 0x53]) with GS_VIDEO_EXTENSION_PROFILE by reflexivity.
  replace (from_be_bytes [z2b 0; z2b 4]) with 4 by reflexivity.
  rewrite Z.eqb_refl, checked_mul64_Some by lia. obind.
  rewrite checked_add64_Some by lia. obind. rewrite checked_add64_Some by lia. obind.
  zcase (zlen (wire_header w ++ tail) <? _).
  unfold NV_VIDEO_PACKET_LEN. rewrite Z.eqb_refl. obind. simpl negb.
  replace (wire_header w ++ tail)
    with ((pre ++ [z2b 0x47; z2b 0x53; z2b 0; z2b 4]) ++ e ++ tail)
    by (rewrite Hw; by rewrite <- app_assoc).
  rewrite slice_app by (autorewrite with zlens; lia). obind.
  rewrite slice_Ok by lia. obind. rewrite drop_0, take_ge by (unfold zlen in *; lia).
  unfold mret, outcome_ret. obind. do 2 f_equal. lia.
Qed.

(** Parsing reads the header only. *)
Lemma parse_header_lemma w tail :
  wire_ok w -> RtpHeader.parse (wire_header w ++ tail) = Ok (wire_parsed w).
Proof.
  intros Hok. destruct (wire_first_fields w Hok) as (Hv & Hcc & Hx & Hp & Hfr).
  destruct (wok_csrcs w Hok) as (n & Hn & Hc). rewrite Hc in Hcc.
  rewrite (Z.mul_comm 4 n), Z.div_mul in Hcc by lia.
  pose proof (zlen_nonneg tail).
  pose proof (zlen_nonneg (wire_extension w)).
  assert (Hlen : zlen (wire_header w ++ tail)
      = 12 + 4 * n + zlen (wire_extension w) + zlen tail).
  { unfold wire_header. autorewrite with zlens. rewrite wire_fixed_length. lia. }
  assert (Hidx : forall i b, zget (wire_fixed w) i = Some b ->
    idx (E:=RtpParseError) (wire_header w ++ tail) i = Ok b).
  { intros i b Hb. unfold wire_header. rewrite <- !app_assoc. by apply idx_app_l. }
  unfold RtpHeader.parse, guard_err, RTP_FIXED_HEADER_LEN.
  zcase (zlen (wire_header w ++ tail) <? 12). obind.
  rewrite (Hidx 0 _ eq_refl). obind. rewrite (b2z_z2b_small _ Hfr), Hv, Hcc. obind. rewrite Z.eqb_refl. simpl negb. obind.
  rewrite saturating_mul64_small, checked_add64_Some by lia. obind.
  zcase (zlen (wire_header w ++ tail) <? _). obind.
  assert (Hext : (if negb (Z.land (wire_first w) 16 =? 0)
      then RtpHeader.parse_extension (wire_header w ++ tail) (12 + n * 4) else mret (12 + n * 4, None))
    = Ok (zlen (wire_header w), w_gs w)).
  { rewrite Hx. destruct (w_gs w) as [e|] eqn:He.
    - rewrite bool_decide_eq_true_2 by eauto. replace (n * 4) with (zlen (w_csrcs w)) by lia.
      by apply parse_extension_wire.
    - rewrite bool_decide_eq_false_2 by (by intros [??]). unfold mret, outcome_ret.
      do 2 f_equal. unfold wire_header, wire_extension. rewrite He.
      autorewrite with zlens. rewrite wire_fixed_length. lia. }
  rewrite Hext. obind.
  rewrite (Hidx 1 _ eq_refl). obind.
  do 10 (erewrite (Hidx _ _); [|reflexivity]; obind).
  simpl snd. simpl fst. rewrite Hp. unfold mret, outcome_ret, wire_parsed. f_equal.
  destruct Hok as [Hpt Hs Ht Hss _ _ _]. f_equal.
  - rewrite b2z_z2b_small by (destruct (w_marker w); lia).
    change 127 with (Z.ones 7). rewrite Z.land_ones by lia.
    destruct (w_marker w).
    + replace (128 + w_payload_type w) with (w_payload_type w + 1 * 2 ^ 7) by lia.
      rewrite Z.mod_add by lia. apply Z.mod_small. lia.
    + apply Z.mod_small. lia.
  - apply (from_to_be_bytes 2). exact Hs.
  - apply (from_to_be_bytes 4). exact Ht.
  - apply (from_to_be_bytes 4). exact Hss.
Qed.

Lemma parse_wire_lemma w :
  wire_ok w -> RtpHeader.parse (wire_bytes w) = Ok (wire_parsed w).
Proof. apply parse_header_lemma. Qed.

Lemma payload_wire_lemma w :
  wire_ok w -> RtpHeader.payload (wire_parsed w) (wire_bytes w) = Ok (w_body w).
Proof.
  intros Hok.
  pose proof (zlen_nonneg (w_body w)). pose proof (zlen_nonneg (w_padding w)).
  assert (Hl : zlen (wire_bytes w) = zlen (wire_header w) + zlen (w_body w) + zlen (w_padding w)).
  { unfold wire_bytes. autorewrite with zlens. lia. }
  unfold RtpHeader.payload, guard_err, wire_parsed.
  cbn [RtpHeader.payload_offset RtpHeader.has_padding].
  zcase (zlen (wire_bytes w) <? _). obind.
  assert (Hslice : forall e, e = zlen (wire_header w) + zlen (w_body w) ->
    slice (E:=RtpParseError) (wire_bytes w) (zlen (wire_header w)) e = Ok (w_body w)).
  { intros e ->. unfold wire_bytes. by apply slice_app. }
  destruct (decide (w_padding w = [])) as [Hp|Hp].
  - rewrite bool_decide_eq_false_2 by auto. unfold mret, outcome_ret. obind. apply Hslice.
    rewrite Hl, Hp, zlen_nil. lia.
  - rewrite bool_decide_eq_true_2 by done.
    destruct (last (w_padding w)) as [b|] eqn:Eb; [|by rewrite last_None in Eb].
    assert (Hlast : last (wire_bytes w) = Some b).
    { unfold wire_bytes. by rewrite app_assoc, last_app, Eb. }
    rewrite Hlast. obind.
    pose proof (wok_padding w Hok b Eb) as Hb.
    assert (0 < zlen (w_padding w)).
    { destruct (w_padding w); [done|]. rewrite zlen_cons. pose proof (zlen_nonneg l). lia. }
    unfold saturating_sub. destruct (_ || _) eqn:Eg.
    + apply orb_true_iff in Eg as [Eg|Eg]; zbool; lia.
    + obind. apply Hslice. lia.
Qed.

(** ** Video metadata and FEC coordinates *)

Lemma land_mask_range z n : 0 <= n -> 0 <= Z.land z (Z.ones n) < 2 ^ n.
Proof. intros. rewrite Z.land_ones by done. apply Z.mod_pos_bound, Z.pow_pos_nonneg; lia. Qed.

Lemma le_word_Ok e a :
  zlen e = NV_VIDEO_PACKET_LEN -> 0 <= a <= 12 ->
  exists w, NvVideoPacket.le_word e a = Ok w /\ is_u32 w
    /\ from_le_bytes <$> zget_range e a (a + 4) = Some w.
Proof.
  intros He Ha. unfold NV_VIDEO_PACKET_LEN, NvVideoPacket.le_word in *.
  destruct (zget_range e a (a + 4)) as [r|] eqn:E; [|by rewrite zget_range_Some in E by lia].
  unfold slice. rewrite E. exists (from_le_bytes r). split_and!; [done| |done].
  pose proof (zget_range_length _ _ _ _ E) as Hl. pose proof (from_le_bytes_range r).
  unfold zlen, is_u32 in *. replace (length r) with 4%nat in * by lia. lia.
Qed.

(** Metadata parsing of a parsed header never panics; it fails exactly when the
    GS extension is absent, and its fields are in range. *)
Lemma nv_parse_spec h payload :
  header_wf h ->
  match NvVideoPacket.parse h payload with
  | Ok (v, media) => media = payload /\ is_u32 (NvVideoPacket.frame_index v)
      /\ 0 <= NvVideoPacket.stream_packet_index v < 2 ^ 24
      /\ 0 <= NvVideoPacket.fec_current_block v < 4
      /\ 0 <= NvVideoPacket.fec_last_block v < 4
      /\ 0 <= NvVideoPacket.flags v < 16
  | Err e => e = MissingNvVideoHeader /\ RtpHeader.gs_video_header h = None
  | Panic => False
  end.
Proof.
  intros Hwf. unfold NvVideoPacket.parse.
  destruct (RtpHeader.gs_video_header h) as [e|] eqn:E; [|done].
  pose proof (wf_gs h Hwf e E) as He. obind.
  destruct (le_word_Ok e 0 He) as (w0 & -> & Hw0 & _); [lia|]. obind.
  destruct (le_word_Ok e 8 He) as (w8 & -> & Hw8 & _); [lia|]. obind.
  destruct (le_word_Ok e 12 He) as (w12 & -> & Hw12 & _); [lia|]. obind.
  unfold NV_VIDEO_PACKET_LEN in He. step_idx.
  destruct (le_word_Ok e 4 He) as (w4 & -> & Hw4 & _); [lia|]. obind.
  unfold mret, outcome_ret. simpl. unfold STREAM_PACKET_INDEX_MASK.
  change 0x00ffffff with (Z.ones 24). change 3 with (Z.ones 2). change 15 with (Z.ones 4).
  split; [done|]. split; [exact Hw4|]. repeat split; apply land_mask_range; lia.
Qed.

(** The shard coordinates the FEC buffers rely on. *)
Record layout_wf (l : FecPacketLayout.t) : Prop := {
  lwf_frame : is_u32 (FecPacketLayout.frame_index l);
  lwf_block : 0 <= FecPacketLayout.block_index l < 4;
  lwf_last : 0 <= FecPacketLayout.last_block_index l < 4;
  lwf_data : 1 <= FecPacketLayout.data_shards l;
  lwf_parity : 1 <= FecPacketLayout.parity_shards l;
  lwf_shard : 0 <= FecPacketLayout.shard_index l
    < FecPacketLayout.data_shards l + FecPacketLayout.parity_shards l;
  lwf_total : FecPacketLayout.data_shards l + FecPacketLayout.parity_shards l <= 1023
}.

Lemma from_packet_layout_wf p l :
  header_wf (pk_header p) -> FecPacketLayout.from_packet p = Some l -> layout_wf l.
Proof.
  intros Hwf. unfold FecPacketLayout.from_packet.
  destruct (RtpHeader.gs_video_header _) as [e|] eqn:E; [|done].
  pose proof (wf_gs _ Hwf e E) as He. obind.
  destruct (le_word_Ok e 4 He) as (w4 & _ & Hw4 & H4); [lia|].
  change (4 + 4) with 8 in H4. rewrite H4. obind.
  destruct (le_word_Ok e 12 He) as (w12 & _ & Hw12 & H12); [lia|].
  change (12 + 4) with 16 in H12. rewrite H12. obind.
  pose proof (land_mask_range (Z.shiftr w12 12) 10 ltac:(lia)) as Hs.
  pose proof (land_mask_range (Z.shiftr w12 22) 10 ltac:(lia)) as Hd.
  pose proof (land_mask_range (Z.shiftr w12 4) 8 ltac:(lia)) as Hr.
  change (Z.ones 10) with 0x3ff in *. change (Z.ones 8) with 0xff in *.
  destruct (_ || _) eqn:E1; [done|]. zbool.
  set (d := Z.land (Z.shiftr w12 22) 1023) in *. set (r := Z.land (Z.shiftr w12 4) 255) in *.
  rewrite saturating_mul64_small by nia.
  pose proof (div_ceil_spec (d * r) 100 ltac:(nia) ltac:(lia)) as Hc.
  rewrite checked_add64_Some by nia. obind.
  destruct (_ || _) eqn:E2; [done|]. zbool.
  destruct (zget e 11) as [m|]; [|done]. obind. intros [= <-].
  assert (forall k, 0 <= Z.land k 0x03 < 4) by (intros; apply (land_mask_range _ 2); lia).
  constructor; simpl; try done; lia.
Qed.

(** C5: parsing an arbitrary datagram never panics; a header that parses has
    its fields in range, a payload offset inside the datagram and, when it
    carries the video extension, exactly 16 bytes of it before the payload;
    the payload can then be cut out of any buffer without panicking. *)
Theorem parse_total packet :
  match RtpHeader.parse packet with
  | Ok h => header_wf h /\ RtpHeader.payload_offset h <= zlen packet
      /\ forall buffer, no_panic (RtpHeader.payload h buffer)
  | Err e => e = TooShort \/ e = InvalidVersion \/ e = InvalidCsrcLength
      \/ e = InvalidExtensionLength
  | Panic => False
  end.
Proof.
  pose proof (parse_spec packet) as H. destruct (RtpHeader.parse packet) as [h|e|]; [|by destruct e; tauto|done].
  destruct H as [Hwf Hle]. split_and!; [done|done|]. intros buffer Hp.
  pose proof (payload_spec h buffer ltac:(pose proof (wf_offset h Hwf); lia)) as Hs.
  by rewrite Hp in Hs.
Qed.

(** Parsing inverts the RFC 3550 layout: every well-formed datagram (any
    marker, CSRC list, optional GS extension, padding) parses to exactly the
    fields it was built from, and its payload is exactly the body. *)
Theorem parse_payload_roundtrip w :
  wire_ok w ->
  RtpHeader.parse (wire_bytes w) = Ok (wire_parsed w)
  /\ RtpHeader.payload (wire_parsed w) (wire_bytes w) = Ok (w_body w).
Proof. intros Hok. split; [by apply parse_wire_lemma|by apply payload_wire_lemma]. Qed.

Definition sample_wire : wire := {|
  w_marker := true; w_payload_type := 96; w_sequence := 65535; w_timestamp := 90000;
  w_ssrc := 0xdeadbeef; w_csrcs := replicate 8 Byte.x07; w_gs := Some (replicate 16 Byte.x11);
  w_body := [Byte.x01; Byte.x02]; w_padding := [Byte.x00; Byte.x02] |}.

Lemma parse_payload_roundtrip_witness :
  RtpHeader.parse (wire_bytes sample_wire) = Ok (wire_parsed sample_wire)
  /\ RtpHeader.payload (wire_parsed sample_wire) (wire_bytes sample_wire) = Ok [Byte.x01; Byte.x02].
Proof.
  apply (parse_payload_roundtrip sample_wire). constructor.
  1-4: vm_compute; split; congruence.
  - exists 2. split; [lia|reflexivity].
  - intros e [= <-]. reflexivity.
  - intros b [= <-]. reflexivity.
Defined.

(** The FEC coordinates read from a parsed packet are usable shard
    indices: a positive number of data and of parity shards, at most 1023 in
    all, and a shard index below their sum. *)
Theorem from_packet_bounds p l :
  header_wf (pk_header p) -> FecPacketLayout.from_packet p = Some l ->
  1 <= FecPacketLayout.data_shards l /\ 1 <= FecPacketLayout.parity_shards l
  /\ 0 <= FecPacketLayout.shard_index l
     < FecPacketLayout.data_shards l + FecPacketLayout.parity_shards l
  /\ FecPacketLayout.data_shards l + FecPacketLayout.parity_shards l <= 1023
  /\ 0 <= FecPacketLayout.block_index l < 4 /\ 0 <= FecPacketLayout.last_block_index l < 4.
Proof. intros Hwf Hl. destruct (from_packet_layout_wf p l Hwf Hl). lia. Qed.

(** Frame 9, block 1 of 0..2, shard 3 of 4 data shards with 50% parity. *)
Definition sample_gs : list u8 :=
  to_le_bytes 4 0x1200 ++ to_le_bytes 4 9 ++ [Byte.x05; Byte.x00; Byte.x00; Byte.x90]
  ++ to_le_bytes 4 (Z.shiftl 4 22 + Z.shiftl 3 12 + Z.shiftl 50 4).
Definition sample_header : RtpHeader.t := {|
  RtpHeader.payload_type := 96; RtpHeader.sequence_number := 3; RtpHeader.timestamp := 1;
  RtpHeader.ssrc := 7; RtpHeader.payload_offset := 32; RtpHeader.has_padding := false;
  RtpHeader.gs_video_header := Some sample_gs |}.
Definition sample_packet : RtpPacket := {|
  pk_index := 3; pk_header := sample_header; pk_plaintext := []; pk_origin := Authenticated |}.

Lemma sample_header_wf : header_wf sample_header.
Proof.
  constructor; try (vm_compute; split; congruence); try (vm_compute; congruence).
  intros e [= <-]. reflexivity.
Defined.

Lemma from_packet_bounds_witness :
  exists l, FecPacketLayout.from_packet sample_packet = Some l
    /\ FecPacketLayout.data_shards l = 4 /\ FecPacketLayout.parity_shards l = 2
    /\ 1 <= FecPacketLayout.data_shards l /\ 1 <= FecPacketLayout.parity_shards l
    /\ 0 <= FecPacketLayout.shard_index l
       < FecPacketLayout.data_shards l + FecPacketLayout.parity_shards l
    /\ FecPacketLayout.data_shards l + FecPacketLayout.parity_shards l <= 1023
    /\ 0 <= FecPacketLayout.block_index l < 4 /\ 0 <= FecPacketLayout.last_block_index l < 4.
Proof.
  eexists. split; [reflexivity|]. split; [reflexivity|]. split; [reflexivity|].
  apply (from_packet_bounds sample_packet); [exact sample_header_wf|reflexivity].
Defined.
