(* ===== verification/Replay.v ===== *)
(** * The SRTP replay window

    [ReplayWindow] of [nvst.rs]: the rollover-counter guess, the check and the
    2048-bit bitmap of 64-bit words, compared with a specification that
    remembers the set of every committed index. *)

From stdpp Require Import gmap.
From S2P Require Import Prelude Types.

Definition SRTP_REPLAY_WINDOW_PACKETS : Z := MAX_REORDER_WINDOW.
Definition SRTP_REPLAY_WINDOW_WORDS : Z := div_ceil SRTP_REPLAY_WINDOW_PACKETS 64.

Module ReplayWindow.

Record t := { highest_index : option Z; seen : list Z }.

Definition default : t :=
  {| highest_index := None; seen := replicate (Z.to_nat SRTP_REPLAY_WINDOW_WORDS) 0 |}.

Definition guess_packet_index (self : t) (sequence_number : Z) : outcome NvstDropReason Z :=
  match highest_index self with
  | None => Ok sequence_number
  | Some highest_index =>
      let roc := Z.shiftr highest_index 16 in
      let highest_sequence := Z.land highest_index 0xffff in
      let delta := sequence_number - highest_sequence in
      guessed_roc ←
        (if delta <? -32768 then ok_or (checked_add64 roc 1) ReplayRejected
         else if 32768 <? delta then ok_or (checked_sub roc 1) ReplayRejected
         else mret roc);
      mret (Z.lor (as_u64 (Z.shiftl guessed_roc 16)) sequence_number)
  end.

Definition check (self : t) (index : Z) : outcome NvstDropReason unit :=
  match highest_index self with
  | None => Ok tt
  | Some highest_index =>
      if highest_index <? index then Ok tt else
      let age := highest_index - index in
      if SRTP_REPLAY_WINDOW_PACKETS <=? age then Err ReplayRejected else
      word ← (seen self).[age / 64];
      guard_err (negb (Z.land word (Z.shiftl 1 (age mod 64)) =? 0)) ReplayRejected
  end.

(** One iteration of the word-shifting loop. *)
Definition shift_word (word_shift bit_shift : Z) (seen : list Z) (destination : Z)
    : outcome NvstDropReason (list Z) :=
  value ← (if destination <? word_shift then mret 0 else
    let source := destination - word_shift in
    s ← seen.[source];
    let shifted := as_u64 (Z.shiftl s bit_shift) in
    if negb (bit_shift =? 0) && (0 <? source) then
      p ← seen.[source - 1];
      mret (Z.lor shifted (Z.shiftr p (64 - bit_shift)))
    else mret shifted);
  set_idx seen destination value.

Definition zero_fill (seen : list Z) : list Z := replicate (length seen) 0.

Definition commit (self : t) (index : Z) : outcome NvstDropReason t :=
  match highest_index self with
  | None =>
      seen ← set_idx (zero_fill (seen self)) 0 1;
      mret {| highest_index := Some index; seen := seen |}
  | Some highest_index =>
      if highest_index <? index then
        let advance := index - highest_index in
        seen ←
          (if SRTP_REPLAY_WINDOW_PACKETS <=? advance then mret (zero_fill (seen self)) else
           let word_shift := advance / 64 in
           let bit_shift := advance mod 64 in
           ofold (shift_word word_shift bit_shift)
             (rev (zrange (Z.to_nat SRTP_REPLAY_WINDOW_WORDS))) (seen self));
        first ← seen.[0];
        seen ← set_idx seen 0 (Z.lor first 1);
        mret {| highest_index := Some index; seen := seen |}
      else
        let age := highest_index - index in
        word ← (seen self).[age / 64];
        seen ← set_idx (seen self) (age / 64) (Z.lor word (Z.shiftl 1 (age mod 64)));
        mret {| highest_index := Some highest_index; seen := seen |}
  end.

End ReplayWindow.

(** ** The specification: a set of committed indices *)

Definition spec_accepts (S : gset Z) (index : Z) : Prop :=
  forall h, h ∈ S -> (forall i, i ∈ S -> i <= h) ->
    h < index \/ (h - index < SRTP_REPLAY_WINDOW_PACKETS /\ index ∉ S).

(** Bit [age] of the bitmap. *)
Definition seen_bit (seen : list Z) (age : Z) : bool :=
  match zget seen (age / 64) with
  | Some w => Z.testbit w (age mod 64)
  | None => false
  end.

Record replay_rel (w : ReplayWindow.t) (S : gset Z) : Prop := {
  rr_length : zlen (ReplayWindow.seen w) = 32;
  rr_words : Forall is_u64 (ReplayWindow.seen w);
  rr_highest : match ReplayWindow.highest_index w with
    | None => S = ∅
    | Some h => h ∈ S /\ (forall i, i ∈ S -> 0 <= i <= h)
        /\ forall age, 0 <= age < SRTP_REPLAY_WINDOW_PACKETS ->
             seen_bit (ReplayWindow.seen w) age = bool_decide (h - age ∈ S)
    end
}.

(** ** Bits of words *)

Lemma u64_testbit_high w k : is_u64 w -> 64 <= k -> Z.testbit w k = false.
Proof.
  intros Hw Hk. destruct (Z.eq_dec w 0) as [->|]; [apply Z.bits_0|].
  apply Z.bits_above_log2; [apply Hw|].
  apply Z.log2_lt_pow2; [unfold is_u64 in Hw; lia|].
  apply Z.lt_le_trans with (2 ^ 64); [apply Hw|]. apply Z.pow_le_mono_r; lia.
Qed.

Lemma as_u64_testbit z k : 0 <= k -> Z.testbit (as_u64 z) k = (k <? 64) && Z.testbit z k.
Proof.
  intros. unfold as_u64. destruct (Z.ltb_spec k 64).
  - by rewrite Z.mod_pow2_bits_low by lia.
  - by rewrite Z.mod_pow2_bits_high by lia.
Qed.

Lemma bit_one k n : 0 <= k -> 0 <= n -> Z.testbit (Z.shiftl 1 k) n = (n =? k).
Proof.
  intros. rewrite Z.shiftl_spec by lia. destruct (Z.eqb_spec n k) as [->|].
  - by rewrite Z.sub_diag.
  - destruct (Z.ltb_spec (n - k) 0); [by rewrite Z.testbit_neg_r by lia|].
    apply Z.bits_above_log2; simpl; lia.
Qed.

Lemma land_bit_zero w k :
  0 <= k -> negb (Z.land w (Z.shiftl 1 k) =? 0) = Z.testbit w k.
Proof.
  intros Hk. destruct (Z.testbit w k) eqn:E.
  - apply negb_true_iff, Z.eqb_neq. intros H.
    assert (Z.testbit (Z.land w (Z.shiftl 1 k)) k = true) as Ht.
    { by rewrite Z.land_spec, bit_one, Z.eqb_refl, E by lia. }
    rewrite H, Z.bits_0 in Ht. done.
  - apply negb_false_iff, Z.eqb_eq, Z.bits_inj'. intros n Hn.
    rewrite Z.land_spec, bit_one, Z.bits_0 by lia.
    destruct (Z.eqb_spec n k) as [->|]; [by rewrite E|apply andb_false_r].
Qed.

Lemma is_u64_lor a b : is_u64 a -> is_u64 b -> is_u64 (Z.lor a b).
Proof.
  unfold is_u64. intros. split; [apply Z.lor_nonneg; lia|].
  destruct (Z.eq_dec (Z.lor a b) 0) as [->|]; [lia|].
  apply Z.log2_lt_pow2; [|rewrite Z.log2_lor by lia].
  - assert (0 <= Z.lor a b) by (apply Z.lor_nonneg; lia). lia.
  - assert (forall x, 0 <= x < 2 ^ 64 -> Z.log2 x < 64) as Hl.
    { intros x Hx. destruct (Z.eq_dec x 0) as [->|]; [simpl; lia|]. apply Z.log2_lt_pow2; lia. }
    pose proof (Hl a). pose proof (Hl b). lia.
Qed.
Lemma is_u64_bit k : 0 <= k < 64 -> is_u64 (Z.shiftl 1 k).
Proof.
  intros. unfold is_u64. rewrite Z.shiftl_1_l. split; [apply Z.pow_nonneg; lia|].
  apply Z.pow_lt_mono_r; lia.
Qed.
Lemma is_u64_shiftr a k : 0 <= k -> is_u64 a -> is_u64 (Z.shiftr a k).
Proof.
  unfold is_u64. intros. rewrite Z.shiftr_div_pow2 by lia.
  assert (0 < 2 ^ k) by (apply Z.pow_pos_nonneg; lia).
  split; [apply Z.div_pos; lia|]. apply Z.div_lt_upper_bound; [lia|]. nia.
Qed.
#[export] Hint Resolve is_u64_lor is_u64_bit is_u64_shiftr : nvst.

(** ** The word-shifting loop *)

(** Word [d] of the bitmap aged by [64 * ws + bs] packets. *)
Definition shifted_word (ws bs : Z) (seen : list Z) (d : Z) : Z :=
  if d <? ws then 0 else
  let source := d - ws in
  Z.lor (as_u64 (Z.shiftl (default 0 (zget seen source)) bs))
    (if negb (bs =? 0) && (0 <? source)
     then Z.shiftr (default 0 (zget seen (source - 1))) (64 - bs) else 0).

Lemma shift_word_Ok ws bs seen cur d :
  0 <= ws -> 0 <= d < zlen cur ->
  (forall i, 0 <= i <= d -> zget cur i = zget seen i) ->
  ReplayWindow.shift_word ws bs cur d = Ok (<[Z.to_nat d := shifted_word ws bs seen d]> cur).
Proof.
  intros Hws Hd Hagree. unfold ReplayWindow.shift_word, shifted_word, set_idx.
  destruct (Z.ltb_spec d ws); obind.
  { unfold mret, outcome_ret. obind. by rewrite !(proj2 (Z.leb_le _ _)), (proj2 (Z.ltb_lt _ _)) by lia. }
  destruct (idx_Ok (E:=NvstDropReason) cur (d - ws)) as (x & -> & Hx); [lia|]. obind.
  rewrite <- (Hagree (d - ws)), Hx by lia. simpl default.
  destruct (negb (bs =? 0) && (0 <? d - ws)) eqn:Eb.
  - zbool. destruct (idx_Ok (E:=NvstDropReason) cur (d - ws - 1)) as (y & -> & Hy); [lia|].
    obind. rewrite <- (Hagree (d - ws - 1)), Hy by lia. unfold mret, outcome_ret. obind.
    by rewrite (proj2 (Z.leb_le _ _)), (proj2 (Z.ltb_lt _ _)) by lia.
  - unfold mret, outcome_ret. obind. rewrite Z.lor_0_r.
    by rewrite (proj2 (Z.leb_le _ _)), (proj2 (Z.ltb_lt _ _)) by lia.
Qed.

Lemma zrange_S n : zrange (S n) = zrange n ++ [Z.of_nat n].
Proof. unfold zrange. by rewrite seq_S, map_app. Qed.

Lemma shift_loop ws bs seen n cur :
  0 <= ws -> (n <= length cur)%nat ->
  (forall i, 0 <= i < Z.of_nat n -> zget cur i = zget seen i) ->
  ofold (ReplayWindow.shift_word ws bs) (rev (zrange n)) cur
  = Ok (map (shifted_word ws bs seen) (zrange n) ++ drop n cur).
Proof.
  intros Hws. revert cur. induction n as [|n IH]; intros cur Hn Hagree; [done|].
  rewrite zrange_S, rev_app_distr. cbn [rev app ofold].
  rewrite (shift_word_Ok ws bs seen) by (unfold zlen; try intros; try apply Hagree; lia).
  obind. rewrite Nat2Z.id.
  rewrite IH.
  - rewrite map_app, <- app_assoc. do 2 f_equal. cbn [map app].
    rewrite insert_take_drop by lia.
    rewrite drop_app_length' by (rewrite length_take; lia). done.
  - rewrite length_insert. lia.
  - intros i Hi. rewrite <- Hagree by lia. rewrite !zget_lookup by lia.
    apply list_lookup_insert_ne. lia.
Qed.

Lemma zget_map_zrange {A} (f : Z -> A) n i :
  0 <= i < Z.of_nat n -> zget (map f (zrange n)) i = Some (f i).
Proof.
  intros Hi. rewrite zget_lookup by lia. unfold zrange.
  change (map f) with (fmap (M:=list) f). change (map Z.of_nat) with (fmap (M:=list) Z.of_nat).
  rewrite !list_lookup_fmap, lookup_seq_lt by lia. simpl. do 2 f_equal. lia.
Qed.

(** The shifted bitmap, bit by bit. *)
Lemma shifted_bit ws bs seen age :
  Forall is_u64 seen -> zlen seen = 32 -> 0 <= ws < 32 -> 0 <= bs < 64 -> 0 <= age < 2048 ->
  seen_bit (map (shifted_word ws bs seen) (zrange 32)) age
  = (64 * ws + bs <=? age) && seen_bit seen (age - (64 * ws + bs)).
Proof.
  intros Hw Hlen Hws Hbs Hage. unfold seen_bit at 1.
  pose proof (Z.div_mod age 64 ltac:(lia)) as Hdm.
  pose proof (Z.mod_pos_bound age 64 ltac:(lia)) as Hk.
  set (d := age / 64) in *. set (k := age mod 64) in *.
  rewrite zget_map_zrange by lia. unfold shifted_word.
  assert (Hget : forall i, 0 <= i < 32 -> exists x, zget seen i = Some x /\ is_u64 x).
  { intros i Hi. destruct (zget_Some seen i) as [x Hx]; [lia|]. exists x. split; [done|].
    rewrite zget_lookup in Hx by lia. by eapply Forall_lookup_1. }
  (* which word and bit the aged position comes from *)
  assert (Hbit : forall q r, 0 <= r < 64 -> age - (64 * ws + bs) = 64 * q + r ->
    seen_bit seen (age - (64 * ws + bs))
    = match zget seen q with Some x => Z.testbit x r | None => false end).
  { intros q r Hr ->. unfold seen_bit.
    replace ((64 * q + r) / 64) with q by (apply Z.div_unique with r; lia).
    by replace ((64 * q + r) mod 64) with r by (apply Z.mod_unique with q; lia). }
  destruct (Z.ltb_spec d ws) as [Hlt|Hge].
  { rewrite Z.bits_0. by rewrite (proj2 (Z.leb_gt _ _)) by lia. }
  rewrite Z.lor_spec, as_u64_testbit by lia.
  rewrite (proj2 (Z.ltb_lt k 64)) by lia. rewrite andb_true_l, Z.shiftl_spec by lia.
  destruct (Hget (d - ws)) as (x & Hx & Hx64); [lia|]. rewrite Hx. cbn [default from_option id].
  destruct (Z.ltb_spec k bs) as [Hkb|Hkb].
  - rewrite (Z.testbit_neg_r x (k - bs)) by lia. rewrite orb_false_l.
    destruct (Z.ltb_spec 0 (d - ws)) as [Hpos|Hpos].
    + rewrite (proj2 (Z.eqb_neq bs 0)) by lia. simpl negb. rewrite andb_true_l.
      destruct (Hget (d - ws - 1)) as (y & Hy & Hy64); [lia|]. rewrite Hy. cbn [default from_option id].
      rewrite Z.shiftr_spec by lia. rewrite (proj2 (Z.leb_le _ _)) by lia.
      rewrite (Hbit (d - ws - 1) (k + (64 - bs))) by lia. by rewrite Hy.
    + rewrite andb_false_r, Z.bits_0. by rewrite (proj2 (Z.leb_gt _ _)) by lia.
  - rewrite (proj2 (Z.leb_le _ _)) by lia. rewrite andb_true_l.
    rewrite (Hbit (d - ws) (k - bs)), Hx by lia.
    destruct (negb (bs =? 0) && (0 <? d - ws)) eqn:Eb; [|rewrite Z.bits_0; apply orb_false_r].
    zbool. destruct (Hget (d - ws - 1)) as (y & Hy & Hy64); [lia|]. rewrite Hy. cbn [default from_option id].
    rewrite Z.shiftr_spec by lia. rewrite (u64_testbit_high y) by (done || lia).
    apply orb_false_r.
Qed.

Lemma shifted_words_u64 ws bs seen :
  Forall is_u64 seen -> 0 <= bs < 64 -> Forall is_u64 (map (shifted_word ws bs seen) (zrange 32)).
Proof.
  intros Hw Hbs. apply Forall_forall. intros x. rewrite list_elem_of_In, List.in_map_iff.
  intros (d & <- & _). unfold shifted_word. destruct (d <? ws); [by unfold is_u64; simpl|].
  assert (Hg : forall i, is_u64 (default 0 (zget seen i))).
  { intros i. destruct (zget seen i) as [y|] eqn:E; [|by unfold is_u64; simpl].
    pose proof (zget_lt _ _ _ E). rewrite zget_lookup in E by lia.
    by eapply Forall_lookup_1. }
  apply is_u64_lor; [apply as_u64_range|].
  destruct (_ && _); [apply is_u64_shiftr; [lia|apply Hg]|by unfold is_u64; simpl].
Qed.

(** ** Setting one bit *)

Lemma seen_bit_range seen age :
  0 <= age < 2048 -> zlen seen = 32 ->
  exists w, zget seen (age / 64) = Some w /\ 0 <= age mod 64 < 64 /\ 0 <= age / 64 < 32
    /\ seen_bit seen age = Z.testbit w (age mod 64).
Proof.
  intros Hage Hlen. pose proof (Z.mod_pos_bound age 64 ltac:(lia)).
  pose proof (Z.div_mod age 64 ltac:(lia)).
  destruct (zget_Some seen (age / 64)) as [w Hw]; [lia|].
  exists w. split_and!; try done; try lia. unfold seen_bit. by rewrite Hw.
Qed.

(** Or-ing bit [a] into its word sets exactly position [a] of the bitmap. *)
Lemma set_bit_seen seen a w age :
  zlen seen = 32 -> 0 <= a < 2048 -> 0 <= age < 2048 -> zget seen (a / 64) = Some w ->
  seen_bit (<[Z.to_nat (a / 64) := Z.lor w (Z.shiftl 1 (a mod 64))]> seen) age
  = (age =? a) || seen_bit seen age.
Proof.
  intros Hlen Ha Hage Hw.
  pose proof (Z.mod_pos_bound a 64 ltac:(lia)). pose proof (Z.div_mod a 64 ltac:(lia)).
  pose proof (Z.mod_pos_bound age 64 ltac:(lia)). pose proof (Z.div_mod age 64 ltac:(lia)).
  unfold seen_bit. rewrite zget_insert by lia.
  destruct (Z.eqb_spec (age / 64) (a / 64)) as [Heq|Hne].
  - rewrite Heq, Hw, Z.lor_spec, bit_one by lia. rewrite orb_comm. f_equal.
    destruct (Z.eqb_spec (age mod 64) (a mod 64)), (Z.eqb_spec age a); congruence || lia.
  - rewrite (proj2 (Z.eqb_neq age a)) by congruence. done.
Qed.

Lemma Forall_u64_insert seen i x : Forall is_u64 seen -> is_u64 x -> Forall is_u64 (<[i := x]> seen).
Proof. intros. by apply Forall_insert. Qed.

Lemma zero_fill_bit (seen : list Z) age : seen_bit (ReplayWindow.zero_fill seen) age = false.
Proof.
  unfold seen_bit, ReplayWindow.zero_fill. destruct (zget _ _) as [w|] eqn:E; [|done].
  pose proof (zget_lt _ _ _ E). rewrite zget_lookup in E by lia.
  apply lookup_replicate in E as [-> _]. apply Z.bits_0.
Qed.
Lemma zero_fill_u64 (seen : list Z) : Forall is_u64 (ReplayWindow.zero_fill seen).
Proof. apply Forall_replicate. by unfold is_u64; simpl. Qed.
Lemma zero_fill_length (seen : list Z) : zlen (ReplayWindow.zero_fill seen) = zlen seen.
Proof. unfold zlen, ReplayWindow.zero_fill. by rewrite length_replicate. Qed.

(** Bit 0 is the newest index. *)
Lemma set_bit0 (seen : list Z) (w : Z) age :
  zlen seen = 32 -> 0 <= age < 2048 -> zget seen 0 = Some w ->
  seen_bit (<[Z.to_nat 0 := Z.lor w 1]> seen) age = (age =? 0) || seen_bit seen age.
Proof. intros. apply (set_bit_seen seen 0 w age); try done; lia. Qed.

(** The bitmap after an advance, before bit 0 is set. *)
Lemma advance_spec seen advance :
  Forall is_u64 seen -> zlen seen = 32 -> 0 < advance ->
  exists seen',
    (if SRTP_REPLAY_WINDOW_PACKETS <=? advance then mret (ReplayWindow.zero_fill seen) else
       ofold (ReplayWindow.shift_word (advance / 64) (advance mod 64))
         (rev (zrange (Z.to_nat SRTP_REPLAY_WINDOW_WORDS))) seen) = Ok seen'
    /\ zlen seen' = 32 /\ Forall is_u64 seen'
    /\ forall age, 0 <= age < 2048 ->
         seen_bit seen' age = (advance <=? age) && seen_bit seen (age - advance).
Proof.
  intros Hw Hlen Hadv. change SRTP_REPLAY_WINDOW_PACKETS with 2048.
  destruct (Z.leb_spec 2048 advance).
  - eexists. split_and!; [reflexivity|by rewrite zero_fill_length|apply zero_fill_u64|].
    intros age Hage. rewrite zero_fill_bit. by rewrite (proj2 (Z.leb_gt _ _)) by lia.
  - pose proof (Z.mod_pos_bound advance 64 ltac:(lia)).
    pose proof (Z.div_mod advance 64 ltac:(lia)).
    change (Z.to_nat SRTP_REPLAY_WINDOW_WORDS) with 32%nat.
    rewrite (shift_loop _ _ seen) by (unfold zlen in *; lia || done).
    rewrite drop_ge, app_nil_r by (unfold zlen in *; lia).
    eexists. split_and!; [reflexivity| |by apply shifted_words_u64|].
    + unfold zlen. by rewrite length_map.
    + intros age Hage. rewrite shifted_bit by (done || lia).
      by replace (64 * (advance / 64) + advance mod 64) with advance by lia.
Qed.

(** ** The refinement *)

Lemma replay_rel_default : replay_rel ReplayWindow.default ∅.
Proof.
  constructor; [done| |done]. unfold ReplayWindow.default.
  apply Forall_replicate. by unfold is_u64; simpl.
Qed.

Lemma check_refines w S index :
  replay_rel w S -> 0 <= index ->
  (ReplayWindow.check w index = Ok tt /\ spec_accepts S index)
  \/ (ReplayWindow.check w index = Err ReplayRejected /\ ~ spec_accepts S index).
Proof.
  intros [Hlen Hw Hh] Hidx. unfold ReplayWindow.check.
  destruct (ReplayWindow.highest_index w) as [h|].
  2: { left. split; [done|]. subst S. intros h Hh. set_solver. }
  destruct Hh as (HhS & Hmax & Hbits).
  assert (Hspec : spec_accepts S index <->
    h < index \/ (h - index < SRTP_REPLAY_WINDOW_PACKETS /\ index ∉ S)).
  { split; [intros H; apply H; [done|intros; by apply Hmax]|].
    intros H h' Hh' Hm. assert (h' = h) as -> by (apply Z.le_antisymm; [by apply Hmax|by apply Hm]).
    done. }
  rewrite Hspec. destruct (Z.ltb_spec h index); [left; tauto|].
  destruct (Z.leb_spec SRTP_REPLAY_WINDOW_PACKETS (h - index)); [right; split; [done|lia]|].
  change SRTP_REPLAY_WINDOW_PACKETS with 2048 in *.
  destruct (seen_bit_range (ReplayWindow.seen w) (h - index)) as (x & Hx & Hm & Hd & Hb); [lia|done|].
  unfold idx. rewrite Hx. cbn [expect]. obind. rewrite land_bit_zero, <- Hb, Hbits by lia.
  replace (h - (h - index)) with index by lia.
  destruct (decide (index ∈ S)).
  - rewrite bool_decide_eq_true_2 by done. right. split; [done|]. intros [?|[_ ?]]; [lia|done].
  - rewrite bool_decide_eq_false_2 by done. left. split; [done|]. right. split; [lia|done].
Qed.

Lemma commit_refines w S index :
  replay_rel w S -> is_u64 index -> ReplayWindow.check w index = Ok tt ->
  exists w', ReplayWindow.commit w index = Ok w' /\ replay_rel w' ({[index]} ∪ S).
Proof.
  intros Hrel Hidx Hcheck. unfold is_u64 in Hidx.
  destruct (check_refines w S index Hrel ltac:(lia)) as [[_ Hspec]|[Hc _]]; [|congruence].
  assert (HP : SRTP_REPLAY_WINDOW_PACKETS = 2048) by reflexivity.
  destruct Hrel as [Hlen Hw Hh]. unfold ReplayWindow.commit.
  destruct (ReplayWindow.highest_index w) as [h|].
  - destruct Hh as (HhS & Hmax & Hbits).
    destruct (Z.ltb_spec h index) as [Hlt|Hge].
    + destruct (advance_spec (ReplayWindow.seen w) (index - h)) as (seen' & -> & Hl' & Hw' & Hb');
        [done|done|lia|]. obind.
      destruct (zget_Some seen' 0) as [f Hf]; [lia|]. unfold idx. rewrite Hf. cbn [expect]. obind.
      rewrite set_idx_Ok by lia. obind. eexists. split; [reflexivity|]. constructor; simpl.
      * by rewrite zlen_insert.
      * apply Forall_u64_insert; [done|]. apply is_u64_lor; [|by unfold is_u64; simpl].
        rewrite zget_lookup in Hf by lia. by eapply Forall_lookup_1.
      * split_and!; [set_solver| |].
        -- intros i [->%elem_of_singleton|Hi]%elem_of_union; [lia|]. pose proof (Hmax i Hi). lia.
        -- intros age Hage. rewrite HP in Hage. rewrite (set_bit0 seen' f) by done. rewrite Hb' by lia.
           destruct (Z.eqb_spec age 0) as [->|].
           { symmetry. apply bool_decide_eq_true_2. rewrite Z.sub_0_r. set_solver. }
           rewrite orb_false_l. destruct (Z.leb_spec (index - h) age).
           ++ rewrite andb_true_l, Hbits by lia.
              replace (h - (age - (index - h))) with (index - age) by lia.
              apply bool_decide_ext. rewrite elem_of_union, elem_of_singleton. split; [by right|].
              intros [?|?]; [lia|done].
           ++ rewrite andb_false_l. symmetry. apply bool_decide_eq_false_2.
              intros [?%elem_of_singleton|Hi]%elem_of_union; [lia|]. pose proof (Hmax _ Hi). lia.
    + destruct (Hspec h HhS) as [?|[Hwin Hnew]]; [intros; by apply Hmax|lia|].
      destruct (seen_bit_range (ReplayWindow.seen w) (h - index)) as (x & Hx & Hm & Hd & Hb); [lia|done|].
      unfold idx. rewrite Hx. cbn [expect]. obind. rewrite set_idx_Ok by lia. obind.
      eexists. split; [reflexivity|]. constructor; simpl.
      * by rewrite zlen_insert.
      * apply Forall_u64_insert; [done|]. apply is_u64_lor; [|by apply is_u64_bit].
        rewrite zget_lookup in Hx by lia. by eapply Forall_lookup_1.
      * split_and!; [set_solver| |].
        -- intros i [->%elem_of_singleton|Hi]%elem_of_union; [lia|]. by apply Hmax.
        -- intros age Hage. rewrite HP in Hage. rewrite set_bit_seen, Hbits by (done || lia).
           destruct (Z.eqb_spec age (h - index)) as [->|].
           { symmetry. apply bool_decide_eq_true_2.
             replace (h - (h - index)) with index by lia. set_solver. }
           rewrite orb_false_l. apply bool_decide_ext.
           rewrite elem_of_union, elem_of_singleton. split; [by right|]. intros [?|?]; [lia|done].
  - subst S. rewrite set_idx_Ok by (rewrite zero_fill_length; lia). obind.
    eexists. split; [reflexivity|]. constructor; simpl.
    + by rewrite zlen_insert, zero_fill_length.
    + apply Forall_u64_insert; [apply zero_fill_u64|by unfold is_u64; simpl].
    + split_and!; [set_solver|intros i Hi; set_solver by lia|].
      intros age Hage. rewrite HP in Hage.
      assert (Hz : zget (ReplayWindow.zero_fill (ReplayWindow.seen w)) 0 = Some 0).
      { rewrite zget_lookup by lia. apply lookup_replicate_2. unfold zlen in Hlen. lia. }
      rewrite <- (Z.lor_0_l 1).
      rewrite (set_bit0 _ _ age (eq_trans (zero_fill_length _) Hlen) Hage Hz), zero_fill_bit, orb_false_r.
      destruct (Z.eqb_spec age 0) as [->|]; symmetry.
      * apply bool_decide_eq_true_2. rewrite Z.sub_0_r. set_solver.
      * apply bool_decide_eq_false_2. rewrite union_empty_r_L, elem_of_singleton. lia.
Qed.

(** ** The sequence-number guess *)

Lemma guess_range w seq i :
  is_u16 seq -> ReplayWindow.guess_packet_index w seq = Ok i ->
  (ReplayWindow.highest_index w = None -> i = seq) /\ Z.land i 0xffff = seq.
Proof.
  intros Hseq. assert (Hl : forall r, Z.land (Z.lor (as_u64 (Z.shiftl r 16)) seq) 0xffff = seq).
  { intros r. apply Z.bits_inj'. intros n Hn. change 0xffff with (Z.ones 16).
    rewrite Z.land_ones, Z.testbit_mod_pow2, Z.lor_spec, as_u64_testbit, Z.shiftl_spec by lia.
    destruct (Z.ltb_spec n 16).
    - rewrite (Z.testbit_neg_r r) by lia. by rewrite andb_false_r.
    - symmetry. rewrite andb_false_l. unfold is_u16 in Hseq.
      rewrite <- (Z.mod_small seq (2 ^ 16)) by lia. apply Z.mod_pow2_bits_high. lia. }
  unfold ReplayWindow.guess_packet_index. destruct (ReplayWindow.highest_index w) as [h|].
  - intros H. outcome_inv. split; [done|apply Hl].
  - intros [= ->]. split; [done|]. change 0xffff with (Z.ones 16).
    rewrite Z.land_ones by lia. by apply Z.mod_small.
Qed.

Lemma lor_shiftl_add a b : 0 <= a -> 0 <= b < 2 ^ 16 -> Z.lor (Z.shiftl a 16) b = a * 2 ^ 16 + b.
Proof.
  intros. rewrite <- Z.shiftl_mul_pow2 by lia. symmetry. rewrite Z.add_nocarry_lxor.
  - apply Z.lxor_lor, Z.bits_inj'. intros n Hn. rewrite Z.land_spec, Z.shiftl_spec, Z.bits_0 by lia.
    destruct (Z.ltb_spec n 16); [by rewrite Z.testbit_neg_r by lia|].
    rewrite <- (Z.mod_small b (2 ^ 16)) by lia. rewrite Z.mod_pow2_bits_high by lia. apply andb_false_r.
  - apply Z.bits_inj'. intros n Hn. rewrite Z.land_spec, Z.shiftl_spec, Z.bits_0 by lia.
    destruct (Z.ltb_spec n 16); [by rewrite Z.testbit_neg_r by lia|].
    rewrite <- (Z.mod_small b (2 ^ 16)) by lia. rewrite Z.mod_pow2_bits_high by lia. apply andb_false_r.
Qed.

Lemma guess_correct_lemma w h t :
  ReplayWindow.highest_index w = Some h -> is_u64 h -> is_u64 t -> Z.abs (t - h) < 32768 ->
  ReplayWindow.guess_packet_index w (as_u16 t) = Ok t.
Proof.
  intros Hw Hh Ht Hd. unfold ReplayWindow.guess_packet_index. rewrite Hw.
  unfold is_u64, as_u16 in *. change 0xffff with (Z.ones 16).
  rewrite Z.land_ones, Z.shiftr_div_pow2 by lia.
  pose proof (Z.div_mod h (2 ^ 16) ltac:(lia)). pose proof (Z.mod_pos_bound h (2 ^ 16) ltac:(lia)).
  pose proof (Z.div_mod t (2 ^ 16) ltac:(lia)). pose proof (Z.mod_pos_bound t (2 ^ 16) ltac:(lia)).
  set (hr := h / 2 ^ 16) in *. set (tr := t / 2 ^ 16) in *.
  set (hs := h mod 2 ^ 16) in *. set (ts := t mod 2 ^ 16) in *.
  assert (Hfin : Z.lor (as_u64 (Z.shiftl tr 16)) ts = t).
  { unfold as_u64. rewrite Z.mod_small; [rewrite lor_shiftl_add; lia|].
    rewrite Z.shiftl_mul_pow2 by lia. lia. }
  destruct (Z.ltb_spec (ts - hs) (-32768)).
  - rewrite checked_add64_Some by lia. obind. unfold mret, outcome_ret. f_equal.
    replace (hr + 1) with tr by lia. done.
  - destruct (Z.ltb_spec 32768 (ts - hs)).
    + unfold checked_sub. rewrite (proj2 (Z.leb_le 1 hr)) by lia. obind. unfold mret, outcome_ret.
      f_equal. replace (hr - 1) with tr by lia. done.
    + unfold mret, outcome_ret. obind. f_equal. replace hr with tr by lia. done.
Qed.

(** ** Runs *)

(** [check] followed by [commit], the way [SrtpReceiver::unprotect] uses the
    window; the flag says whether the index was admitted. *)
Definition admit_index (w : ReplayWindow.t) (i : Z) : outcome NvstDropReason (ReplayWindow.t * bool) :=
  match ReplayWindow.check w i with
  | Ok _ => w' ← ReplayWindow.commit w i; mret (w', true)
  | Err _ => mret (w, false)
  | Panic => Panic
  end.

Fixpoint admitted (w : ReplayWindow.t) (l : list Z) : outcome NvstDropReason (list Z) :=
  match l with
  | [] => mret []
  | i :: l =>
      wb ← admit_index w i;
      rest ← admitted wb.1 l;
      mret (if wb.2 : bool then i :: rest else rest)
  end.

Lemma admitted_spec l w S :
  replay_rel w S -> Forall is_u64 l ->
  exists out, admitted w l = Ok out /\ NoDup out /\ (forall i, i ∈ out -> i ∉ S).
Proof.
  revert w S. induction l as [|i l IH]; intros w S Hrel Hall; cbn [admitted].
  { exists []. split_and!; [done|constructor|set_solver]. }
  inversion Hall as [|? ? Hi Hall']; subst. unfold admit_index.
  assert (0 <= i) by (unfold is_u64 in Hi; lia).
  destruct (check_refines w S i Hrel) as [[Hc Hs]|[Hc _]]; [done|..]; rewrite Hc.
  - destruct (commit_refines w S i Hrel Hi Hc) as (w' & -> & Hrel'). obind.
    unfold mret, outcome_ret. obind. destruct (IH _ _ Hrel' Hall') as (out & Ho & Hnd & Hfresh).
    cbn [fst snd]. rewrite Ho. obind. eexists. split; [reflexivity|]. split.
    + apply NoDup_cons. split; [intros Hin; apply Hfresh in Hin; set_solver|done].
    + intros j [->|Hj]%elem_of_cons; [|apply Hfresh in Hj; set_solver].
      destruct Hrel as [_ _ Hh]. destruct (ReplayWindow.highest_index w) as [h|] eqn:Eh; [|subst; set_solver].
      destruct Hh as (HhS & Hmax & _). intros HiS. pose proof (Hmax _ HiS).
      destruct (Hs h HhS) as [?|[_ ?]]; [intros; by apply Hmax|lia|done].
  - unfold mret, outcome_ret. obind. destruct (IH _ _ Hrel Hall') as (out & Ho & Hnd & Hfresh).
    cbn [fst snd]. rewrite Ho. obind. by exists out.
Qed.

(** C6: the 2048-bit sliding bitmap implements a set of committed indices: an
    index is admitted exactly when nothing as new was ever committed or it is
    inside the window and not in the set; admitting it commits exactly that
    index, and neither operation can panic. *)
Theorem replay_window_refines w S index :
  replay_rel w S -> is_u64 index ->
  match ReplayWindow.check w index with
  | Ok _ => spec_accepts S index
      /\ exists w', ReplayWindow.commit w index = Ok w' /\ replay_rel w' ({[index]} ∪ S)
  | Err e => e = ReplayRejected /\ ~ spec_accepts S index
  | Panic => False
  end.
Proof.
  intros Hrel Hi. assert (0 <= index) by (unfold is_u64 in Hi; lia).
  destruct (check_refines w S index Hrel) as [[Hc Hs]|[Hc Hs]]; [done|..]; rewrite Hc; [|done].
  split; [done|]. by apply commit_refines.
Qed.

Lemma replay_window_refines_witness :
  replay_rel ReplayWindow.default ∅ /\ is_u64 70000
  /\ match ReplayWindow.check ReplayWindow.default 70000 with
     | Ok _ => spec_accepts ∅ 70000
         /\ exists w', ReplayWindow.commit ReplayWindow.default 70000 = Ok w'
              /\ replay_rel w' ({[70000]} ∪ ∅)
     | Err e => e = ReplayRejected /\ ~ spec_accepts ∅ 70000
     | Panic => False
     end.
Proof.
  split; [exact replay_rel_default|]. split; [vm_compute; split; congruence|].
  apply (replay_window_refines ReplayWindow.default ∅ 70000);
    [exact replay_rel_default|vm_compute; split; congruence].
Defined.

(** From a fresh window, whatever sequence of packet indices arrives, no
    index is ever admitted twice and the filter never panics. *)
Theorem no_index_admitted_twice indices :
  Forall is_u64 indices ->
  exists out, admitted ReplayWindow.default indices = Ok out /\ NoDup out.
Proof.
  intros H. destruct (admitted_spec indices _ _ replay_rel_default H) as (out & Ho & Hnd & _).
  by exists out.
Qed.

Lemma no_index_admitted_twice_witness :
  admitted ReplayWindow.default [5; 7; 5; 6; 3000; 7; 2999; 952; 2999; 953; 3000]
    = Ok [5; 7; 6; 3000; 2999; 953]
  /\ exists out, admitted ReplayWindow.default [5; 7; 5; 6; 3000; 7; 2999; 952; 2999; 953; 3000]
       = Ok out /\ NoDup out.
Proof.
  split; [vm_compute; reflexivity|]. apply no_index_admitted_twice.
  repeat constructor; vm_compute; congruence.
Defined.

(** The extended index is reconstructed from the 16-bit sequence number:
    any packet less than half the sequence space away from the newest one gets
    its true 48-bit index back, across wrap-arounds in both directions. *)
Theorem guess_packet_index_correct w h t :
  ReplayWindow.highest_index w = Some h -> is_u64 h -> is_u64 t -> Z.abs (t - h) < 32768 ->
  ReplayWindow.guess_packet_index w (as_u16 t) = Ok t.
Proof. apply guess_correct_lemma. Qed.

Lemma guess_packet_index_correct_witness :
  ReplayWindow.guess_packet_index
    {| ReplayWindow.highest_index := Some 65530; ReplayWindow.seen := [] |} (as_u16 65540) = Ok 65540.
Proof.
  apply (guess_packet_index_correct
    {| ReplayWindow.highest_index := Some 65530; ReplayWindow.seen := [] |} 65530 65540);
    try reflexivity; vm_compute; split; congruence.
Defined.
