(* ===== verification/BTree.v ===== *)
(** * Ordered maps with integer keys

    The standard library's [BTreeMap<u64, V>] as the source uses it: an
    association list in strictly increasing key order, with [get], [insert],
    [remove], [first_key_value], [last_key_value] and [len].  The order of the
    keys is what the reorder buffers rely on. *)

From S2P Require Import Prelude.
From Stdlib Require Import Sorting.Sorted.

Module BTreeMap.

Definition t (V : Type) : Type := list (Z * V).

Section Ops.
Context {V : Type}.
Implicit Types m : t V.

Definition empty : t V := [].

Fixpoint get m (k : Z) : option V :=
  match m with
  | [] => None
  | (k', v) :: m => if k =? k' then Some v else get m k
  end.

Definition contains_key m (k : Z) : bool :=
  match get m k with Some _ => true | None => false end.

Fixpoint insert (k : Z) (v : V) m : t V :=
  match m with
  | [] => [(k, v)]
  | (k', v') :: m' =>
      if k <? k' then (k, v) :: m
      else if k =? k' then (k, v) :: m'
      else (k', v') :: insert k v m'
  end.

Fixpoint remove (k : Z) m : t V :=
  match m with
  | [] => []
  | (k', v') :: m' => if k =? k' then m' else (k', v') :: remove k m'
  end.

Definition first_key_value m : option (Z * V) := head m.
Definition last_key_value m : option (Z * V) := last m.
Definition len m : Z := zlen m.

Definition keys m : list Z := map fst m.

(** Strictly increasing keys. *)
Definition wf m : Prop := StronglySorted Z.lt (keys m).

End Ops.
End BTreeMap.

Section Lemmas.
Context {V : Type}.
Implicit Types m : BTreeMap.t V.

Lemma bt_wf_cons k v m :
  BTreeMap.wf ((k, v) :: m) <-> BTreeMap.wf m /\ forall k', k' ∈ BTreeMap.keys m -> k < k'.
Proof.
  unfold BTreeMap.wf. simpl. split.
  - intros H. inversion H as [|? ? Hs Hall]; subst. split; [done|].
    intros k' Hk'. rewrite Forall_forall in Hall. by apply Hall.
  - intros [Hs Hall]. constructor; [done|]. apply Forall_forall. intros k' Hk'. by apply Hall.
Qed.

Lemma bt_get_keys m k : is_Some (BTreeMap.get m k) <-> k ∈ BTreeMap.keys m.
Proof.
  induction m as [|[k' v] m IH]; simpl.
  - split; [intros [? ?]; done|intros H; inversion H].
  - destruct (Z.eqb_spec k k') as [->|].
    + split; [intros _; by left|by eauto].
    + rewrite IH, elem_of_cons. split; [by right|intros [?|?]; done].
Qed.

Lemma bt_get_None m k : BTreeMap.get m k = None <-> k ∉ BTreeMap.keys m.
Proof. rewrite <- bt_get_keys. apply eq_None_not_Some. Qed.

Lemma bt_keys_insert m k v k' :
  k' ∈ BTreeMap.keys (BTreeMap.insert k v m) <-> k' = k \/ k' ∈ BTreeMap.keys m.
Proof.
  induction m as [|[j w] m IH]; simpl; [rewrite elem_of_cons; tauto|].
  destruct (Z.ltb_spec k j); simpl; [by rewrite !elem_of_cons|].
  destruct (Z.eqb_spec k j) as [->|]; simpl; rewrite !elem_of_cons.
  - tauto.
  - rewrite IH. tauto.
Qed.

Lemma bt_insert_wf m k v : BTreeMap.wf m -> BTreeMap.wf (BTreeMap.insert k v m).
Proof.
  induction m as [|[j w] m IH]; intros Hwf; simpl.
  - apply bt_wf_cons. split; [constructor|intros k' Hk'; inversion Hk'].
  - pose proof Hwf as [Hm Hlt]%bt_wf_cons.
    destruct (Z.ltb_spec k j).
    + apply bt_wf_cons. split; [done|]. simpl. intros k' [->|Hk']%elem_of_cons; [done|].
      pose proof (Hlt _ Hk'). lia.
    + destruct (Z.eqb_spec k j) as [->|]; apply bt_wf_cons; [done|].
      split; [by apply IH|]. intros k'. rewrite bt_keys_insert. intros [->|Hk']; [lia|by apply Hlt].
Qed.

Lemma bt_get_insert m k v k' :
  BTreeMap.wf m ->
  BTreeMap.get (BTreeMap.insert k v m) k' = if k' =? k then Some v else BTreeMap.get m k'.
Proof.
  induction m as [|[j w] m IH]; intros Hwf; simpl; [by destruct (k' =? k)|].
  pose proof Hwf as [Hm Hlt]%bt_wf_cons.
  destruct (Z.ltb_spec k j); simpl; [done|].
  destruct (Z.eqb_spec k j) as [->|]; simpl; [by destruct (k' =? j)|].
  rewrite IH by done. destruct (Z.eqb_spec k' j), (Z.eqb_spec k' k); congruence || done.
Qed.

Lemma bt_keys_remove_subset m k k' :
  k' ∈ BTreeMap.keys (BTreeMap.remove k m) -> k' ∈ BTreeMap.keys m.
Proof.
  induction m as [|[j w] m IH]; simpl; [done|].
  destruct (k =? j); simpl; rewrite ?elem_of_cons; [by right|]. intros [?|?]; auto.
Qed.

Lemma bt_remove_wf m k : BTreeMap.wf m -> BTreeMap.wf (BTreeMap.remove k m).
Proof.
  induction m as [|[j w] m IH]; intros Hwf; simpl; [done|].
  pose proof Hwf as [Hm Hlt]%bt_wf_cons. destruct (k =? j); [done|].
  apply bt_wf_cons. split; [by apply IH|]. intros k' Hk'%bt_keys_remove_subset. by apply Hlt.
Qed.

Lemma bt_get_remove m k k' :
  BTreeMap.wf m ->
  BTreeMap.get (BTreeMap.remove k m) k' = if k' =? k then None else BTreeMap.get m k'.
Proof.
  induction m as [|[j w] m IH]; intros Hwf; simpl; [by destruct (k' =? k)|].
  pose proof Hwf as [Hm Hlt]%bt_wf_cons.
  destruct (Z.eqb_spec k j) as [->|]; simpl.
  - destruct (Z.eqb_spec k' j) as [Hk|]; [|done].
    apply bt_get_None. intros Hin. rewrite Hk in Hin. pose proof (Hlt _ Hin). lia.
  - rewrite IH by done. destruct (Z.eqb_spec k' j), (Z.eqb_spec k' k); congruence || done.
Qed.

Lemma bt_first_None m : BTreeMap.first_key_value m = None -> m = [].
Proof. by destruct m. Qed.

Lemma bt_first_get m k v :
  BTreeMap.first_key_value m = Some (k, v) -> BTreeMap.get m k = Some v.
Proof. destruct m as [|[j w] m]; intros [= -> ->]. simpl. by rewrite Z.eqb_refl. Qed.

Lemma bt_first_min m k v k' :
  BTreeMap.wf m -> BTreeMap.first_key_value m = Some (k, v) -> k' ∈ BTreeMap.keys m -> k <= k'.
Proof.
  destruct m as [|[j w] m]; intros Hwf; intros [= -> ->]; simpl.
  apply bt_wf_cons in Hwf as [_ Hlt]. intros [->|Hk']%elem_of_cons; [lia|].
  pose proof (Hlt _ Hk'). lia.
Qed.

Lemma bt_first_intro m k v :
  BTreeMap.wf m -> BTreeMap.get m k = Some v -> (forall k', k' ∈ BTreeMap.keys m -> k <= k') ->
  BTreeMap.first_key_value m = Some (k, v).
Proof.
  destruct m as [|[j w] m]; intros Hwf; simpl; [done|]. apply bt_wf_cons in Hwf as [_ Hlt].
  destruct (Z.eqb_spec k j) as [->|]; [by intros [= ->]|]. intros Hg Hmin.
  assert (Hk : k ∈ BTreeMap.keys m) by (apply bt_get_keys; eauto). pose proof (Hlt _ Hk).
  specialize (Hmin j ltac:(by left)). lia.
Qed.

(** Maps with the same lookups are the same map. *)
Lemma bt_ext m1 m2 :
  BTreeMap.wf m1 -> BTreeMap.wf m2 -> (forall k, BTreeMap.get m1 k = BTreeMap.get m2 k) -> m1 = m2.
Proof.
  revert m2. induction m1 as [|[k v] m1 IH]; intros [|[j w] m2] H1 H2 Hget; [done|..].
  - specialize (Hget j). simpl in Hget. by rewrite Z.eqb_refl in Hget.
  - specialize (Hget k). simpl in Hget. by rewrite Z.eqb_refl in Hget.
  - assert (Hkj : k = j).
    { apply Z.le_antisymm.
      - apply (bt_first_min ((k, v) :: m1) k v); [done|done|]. apply bt_get_keys. rewrite Hget. simpl.
        rewrite Z.eqb_refl. eauto.
      - apply (bt_first_min ((j, w) :: m2) j w); [done|done|]. apply bt_get_keys. rewrite <- Hget. simpl.
        rewrite Z.eqb_refl. eauto. }
    subst j. pose proof (Hget k) as Hk. simpl in Hk. rewrite Z.eqb_refl in Hk. injection Hk as <-. f_equal.
    apply bt_wf_cons in H1 as [H1 Hlt1]. apply bt_wf_cons in H2 as [H2 Hlt2].
    apply IH; [done|done|]. intros i. specialize (Hget i). simpl in Hget.
    destruct (Z.eqb_spec i k) as [Hi|]; [|done]. rewrite Hi.
    rewrite (proj2 (bt_get_None m1 k)), (proj2 (bt_get_None m2 k)); [done| |].
    + intros Hin%Hlt2. lia.
    + intros Hin%Hlt1. lia.
Qed.

Lemma bt_last_max m k v k' :
  BTreeMap.wf m -> BTreeMap.last_key_value m = Some (k, v) -> k' ∈ BTreeMap.keys m -> k' <= k.
Proof.
  unfold BTreeMap.last_key_value. revert k'.
  induction m as [|[j w] m IH]; intros k' Hwf Hl Hk'; [done|].
  apply bt_wf_cons in Hwf as [Hm Hlt]. rewrite last_cons in Hl.
  simpl in Hk'. apply elem_of_cons in Hk' as [->|Hk'].
  - destruct (last m) as [[j' w']|] eqn:E; [|by injection Hl as -> ->; lia].
    injection Hl as -> ->. assert (Hin : k ∈ BTreeMap.keys m).
    { apply last_Some_elem_of in E. unfold BTreeMap.keys.
      apply list_elem_of_In. apply list_elem_of_In in E. exact (List.in_map fst _ _ E). }
    pose proof (Hlt _ Hin). lia.
  - destruct (last m) as [[j' w']|] eqn:E.
    + injection Hl as -> ->. by apply IH.
    + apply last_None in E as ->. inversion Hk'.
Qed.

Lemma bt_len_insert m k v :
  BTreeMap.get m k = None -> BTreeMap.len (BTreeMap.insert k v m) = BTreeMap.len m + 1.
Proof.
  unfold BTreeMap.len. induction m as [|[j w] m IH]; simpl; [done|].
  destruct (Z.eqb_spec k j) as [->|]; [done|]. intros Hn.
  destruct (k <? j); rewrite ?zlen_cons; [lia|]. rewrite IH by done. lia.
Qed.

Lemma bt_len_remove m k :
  is_Some (BTreeMap.get m k) -> BTreeMap.len (BTreeMap.remove k m) = BTreeMap.len m - 1.
Proof.
  unfold BTreeMap.len. induction m as [|[j w] m IH]; simpl; [by intros [??]|].
  destruct (Z.eqb_spec k j) as [->|]; intros Hs; rewrite ?zlen_cons; [lia|].
  rewrite IH by done. lia.
Qed.

Lemma bt_elem_get m k v : BTreeMap.wf m -> (k, v) ∈ m <-> BTreeMap.get m k = Some v.
Proof.
  induction m as [|[j w] m IH]; intros Hwf; simpl; [split; [intros H; inversion H|done]|].
  pose proof Hwf as [Hm Hlt]%bt_wf_cons. rewrite elem_of_cons, IH by done.
  destruct (Z.eqb_spec k j) as [->|].
  - split; [|by intros [= ->]; left]. intros [[= ->]|Hg]; [done|].
    assert (j ∈ BTreeMap.keys m) as Hin by (apply bt_get_keys; eauto).
    pose proof (Hlt _ Hin). lia.
  - split; [intros [[= ? ?]|?]; done|by right].
Qed.

Lemma bt_wf_empty : BTreeMap.wf (@BTreeMap.empty V).
Proof. constructor. Qed.
End Lemmas.

#[export] Hint Resolve bt_insert_wf bt_remove_wf bt_wf_empty : nvst.
