(* ===== verification/Reorder.v ===== *)
(** * The RTP reorder buffer

    [RtpReorderBuffer] of [nvst.rs]: a [BTreeMap] of early packets, the next
    index to deliver and the gap being waited for.  The two loops of [push]
    carry fuel; running out of it is [Panic], so the panic-freedom lemma also
    states their termination. *)

From Stdlib Require Import Sorting.Sorted.
From S2P Require Import Prelude Types Rtp BTree.

(** What a reorder buffer reports to the receiver. *)
Record ReorderResult := {
  ready : list RtpPacket;
  nack : option (Z * Z);
  recovery : option NvstRecovery;
  dropped : option NvstDropReason;
  fec_repaired : Z
}.

Definition result_dropped (d : option NvstDropReason) : ReorderResult :=
  {| ready := []; nack := None; recovery := None; dropped := d; fec_repaired := 0 |}.

Module RtpReorderBuffer.

Record t := {
  next_index : option Z;
  packets : BTreeMap.t RtpPacket;
  max_packets : Z;
  gap_wait : option (Z * Z)
}.

Definition new (max : Z) : t :=
  {| next_index := None; packets := BTreeMap.empty; max_packets := max; gap_wait := None |}.

Definition reset (self : t) : t :=
  self <| next_index := None |> <| packets := BTreeMap.empty |> <| gap_wait := None |>.

(** [while let Some(next) = self.next_index { ... }] *)
Fixpoint drain (fuel : nat) (self : t) (ready : list RtpPacket)
    : outcome NvstDropReason (t * list RtpPacket) :=
  match fuel with
  | O => Panic
  | S fuel =>
      match next_index self with
      | None => Ok (self, ready)
      | Some next =>
          match BTreeMap.get (packets self) next with
          | None => Ok (self, ready)
          | Some packet =>
              drain fuel
                (self <| packets ::= BTreeMap.remove next |> <| next_index := Some (next + 1) |>)
                (ready ++ [packet])
          end
      end
  end.

(** The outer [loop] of [push]. *)
Fixpoint settle (fuel : nat) (self : t) (now : Z) (ready : list RtpPacket)
    (nack : option (Z * Z)) (recovery : option NvstRecovery)
    : outcome NvstDropReason (t * ReorderResult) :=
  match fuel with
  | O => Panic
  | S fuel =>
      dr ← drain (S (length (packets self))) self ready;
      let '(self, ready) := dr in
      match BTreeMap.first_key_value (packets self) with
      | None =>
          Ok (self <| gap_wait := None |>,
              {| ready := ready; nack := nack; recovery := recovery;
                 dropped := None; fec_repaired := 0 |})
      | Some (first_available, _) =>
          expected ← expect (next_index self);
          let nack := Some (expected, saturating_sub first_available 1) in
          let '(self, gap_started) :=
            match gap_wait self with
            | Some (waiting_for, started) =>
                if waiting_for =? expected then (self, started)
                else (self <| gap_wait := Some (expected, now) |>, now)
            | None => (self <| gap_wait := Some (expected, now) |>, now)
            end in
          let gap_exceeded_window :=
            (max_packets self <=? saturating_sub first_available expected)
            || (max_packets self <=? BTreeMap.len (packets self)) in
          let gap_timed_out :=
            MJOLNIR_REORDER_DEQUEUE_TIMEOUT <=? saturating_duration_since now gap_started in
          if negb gap_exceeded_window && negb gap_timed_out then
            Ok (self, {| ready := ready; nack := nack; recovery := recovery;
                         dropped := None; fec_repaired := 0 |})
          else
            settle fuel
              (self <| next_index := Some first_available |> <| gap_wait := None |>)
              now [] None (Some (PacketGap expected (first_available - 1)))
      end
  end.

Definition push (self : t) (packet : RtpPacket) (now : Z)
    : outcome NvstDropReason (t * ReorderResult) :=
  let index := pk_index packet in
  let next := default index (next_index self) in
  let self := self <| next_index := Some next |> in
  if index <? next then Ok (self, result_dropped (Some (StaleRtpPacket index))) else
  if BTreeMap.contains_key (packets self) index
  then Ok (self, result_dropped (Some (DuplicateRtpPacket index))) else
  let buffered_before := BTreeMap.len (packets self) in
  let '(self, recovery) :=
    if (buffered_before =? 0) && (max_packets self <=? saturating_sub index next)
    then (self <| next_index := Some index |> <| gap_wait := None |>,
          Some (PacketGap next (index - 1)))
    else (self, None) in
  let self := self <| packets ::= BTreeMap.insert index packet |> in
  settle (S (length (packets self))) self now [] None recovery.

End RtpReorderBuffer.

(** ** Invariants *)

(** Packets with indices [n], [n + 1], ... *)
Fixpoint consec (n : Z) (l : list RtpPacket) : Prop :=
  match l with
  | [] => True
  | p :: l => pk_index p = n /\ consec (n + 1) l
  end.

Lemma consec_app n l1 l2 : consec n (l1 ++ l2) <-> consec n l1 /\ consec (n + zlen l1) l2.
Proof.
  revert n. induction l1 as [|p l1 IH]; intros n; simpl; [rewrite zlen_nil, Z.add_0_r; tauto|].
  rewrite IH, zlen_cons, Z.add_assoc. tauto.
Qed.

Lemma consec_elem n l p : consec n l -> p ∈ l -> n <= pk_index p < n + zlen l.
Proof.
  revert n. induction l as [|q l IH]; intros n Hc Hp; [inversion Hp|].
  destruct Hc as [Hq Hc]. rewrite zlen_cons. pose proof (zlen_nonneg l).
  apply elem_of_cons in Hp as [->|Hp]; [lia|]. pose proof (IH _ Hc Hp). lia.
Qed.

Lemma consec_mem n l k : consec n l -> n <= k < n + zlen l -> k ∈ map pk_index l.
Proof.
  revert n. induction l as [|q l IH]; intros n Hc Hk; [rewrite zlen_nil in Hk; lia|].
  destruct Hc as [Hq Hc]. rewrite zlen_cons in Hk. simpl. rewrite elem_of_cons.
  destruct (Z.eq_dec k n) as [->|]; [by left|right]. apply (IH (n + 1)); [done|lia].
Qed.

(** The state between two pushes, and inside the loops ([n] is the next
    index). *)
Record map_wf (m : BTreeMap.t RtpPacket) (n : Z) : Prop := {
  mw_wf : BTreeMap.wf m;
  mw_index : forall k p, BTreeMap.get m k = Some p -> pk_index p = k;
  mw_ge : forall k, k ∈ BTreeMap.keys m -> n <= k
}.

Record reorder_wf (st : RtpReorderBuffer.t) : Prop := {
  ro_max : 1 <= RtpReorderBuffer.max_packets st;
  ro_next : match RtpReorderBuffer.next_index st with
    | None => RtpReorderBuffer.packets st = [] /\ RtpReorderBuffer.gap_wait st = None
    | Some n => 0 <= n /\ map_wf (RtpReorderBuffer.packets st) (n + 1)
        /\ BTreeMap.len (RtpReorderBuffer.packets st) < RtpReorderBuffer.max_packets st
    end
}.

Lemma drain_spec fuel st ready n :
  RtpReorderBuffer.next_index st = Some n -> map_wf (RtpReorderBuffer.packets st) n ->
  (length (RtpReorderBuffer.packets st) < fuel)%nat ->
  exists st' run,
    RtpReorderBuffer.drain fuel st ready = Ok (st', ready ++ run)
    /\ consec n run
    /\ (forall p, p ∈ run -> BTreeMap.get (RtpReorderBuffer.packets st) (pk_index p) = Some p)
    /\ RtpReorderBuffer.next_index st' = Some (n + zlen run)
    /\ map_wf (RtpReorderBuffer.packets st') (n + zlen run + 1)
    /\ (forall k, BTreeMap.get (RtpReorderBuffer.packets st') k
         = if k <? n + zlen run then None else BTreeMap.get (RtpReorderBuffer.packets st) k)
    /\ BTreeMap.len (RtpReorderBuffer.packets st') = BTreeMap.len (RtpReorderBuffer.packets st) - zlen run
    /\ RtpReorderBuffer.max_packets st' = RtpReorderBuffer.max_packets st
    /\ RtpReorderBuffer.gap_wait st' = RtpReorderBuffer.gap_wait st.
Proof.
  revert st ready n. induction fuel as [|fuel IH]; intros st ready n Hn Hwf Hf; [lia|].
  simpl. rewrite Hn. destruct (BTreeMap.get (RtpReorderBuffer.packets st) n) as [p|] eqn:Hp.
  - pose proof (mw_index _ _ Hwf _ _ Hp) as Hpi.
    assert (Hlen : BTreeMap.len (BTreeMap.remove n (RtpReorderBuffer.packets st))
      = BTreeMap.len (RtpReorderBuffer.packets st) - 1) by (apply bt_len_remove; eauto).
    edestruct (IH (st <| RtpReorderBuffer.packets ::= BTreeMap.remove n |>
        <| RtpReorderBuffer.next_index := Some (n + 1) |>) (ready ++ [p]) (n + 1))
      as (st' & run & -> & Hc & Hin & Hn' & Hwf' & Hget & Hl & Hm & Hg).
    + done.
    + simpl. constructor.
      * apply bt_remove_wf, Hwf.
      * intros k q. rewrite bt_get_remove by apply Hwf. destruct (k =? n); [done|apply Hwf].
      * intros k Hk. pose proof Hk as Hk'%bt_keys_remove_subset. pose proof (mw_ge _ _ Hwf _ Hk').
        apply bt_get_keys in Hk. rewrite bt_get_remove in Hk by apply Hwf.
        destruct (Z.eqb_spec k n); [by destruct Hk|lia].
    + simpl. unfold BTreeMap.len, zlen in Hlen. lia.
    + simpl in *. exists st', (p :: run). rewrite zlen_cons, <- app_assoc. split_and!; try done.
      * intros q [->|Hq]%elem_of_cons; [by rewrite Hpi|].
        pose proof (Hin q Hq) as Hg'. rewrite bt_get_remove in Hg' by apply Hwf.
        by destruct (pk_index q =? n).
      * rewrite Hn'. f_equal. lia.
      * by replace (n + (1 + zlen run) + 1) with (n + 1 + zlen run + 1) by lia.
      * intros k. rewrite Hget, bt_get_remove by apply Hwf.
        replace (n + (1 + zlen run)) with (n + 1 + zlen run) by lia.
        pose proof (zlen_nonneg run).
        destruct (Z.ltb_spec k (n + 1 + zlen run)); [done|].
        by rewrite (proj2 (Z.eqb_neq k n)) by lia.
      * lia.
  - exists st, []. rewrite zlen_nil, Z.add_0_r, app_nil_r. split_and!; try done.
    + intros q Hq. inversion Hq.
    + constructor; [apply Hwf|apply Hwf|]. intros k Hk. pose proof (mw_ge _ _ Hwf _ Hk).
      destruct (Z.eq_dec k n) as [->|]; [|lia]. apply bt_get_None in Hp. done.
    + intros k. destruct (Z.ltb_spec k n); [|done]. apply bt_get_None. intros Hk.
      pose proof (mw_ge _ _ Hwf _ Hk). lia.
    + lia.
Qed.

(** What a settled buffer and its result look like; [n] is the next index
    before, [held] what was buffered before. *)
Record settled (now n : Z) (held : BTreeMap.t RtpPacket)
    (st' : RtpReorderBuffer.t) (r : ReorderResult) (start : Z) : Prop := {
  se_next : RtpReorderBuffer.next_index st' = Some (start + zlen (ready r));
  se_start : n <= start;
  se_consec : consec start (ready r);
  se_held : forall k, BTreeMap.get (RtpReorderBuffer.packets st') k
      = if k <? start + zlen (ready r) then None else BTreeMap.get held k;
  se_map : map_wf (RtpReorderBuffer.packets st') (start + zlen (ready r) + 1);
  se_bound : BTreeMap.len (RtpReorderBuffer.packets st') < RtpReorderBuffer.max_packets st';
  se_nack : forall a b, nack r = Some (a, b) ->
      a = start + zlen (ready r) /\ a <= b
      /\ exists p, BTreeMap.first_key_value (RtpReorderBuffer.packets st') = Some (b + 1, p);
  se_gap : match RtpReorderBuffer.gap_wait st' with
    | None => RtpReorderBuffer.packets st' = []
    | Some (e, s) => e = start + zlen (ready r)
        /\ saturating_duration_since now s < MJOLNIR_REORDER_DEQUEUE_TIMEOUT
        /\ RtpReorderBuffer.packets st' <> []
    end;
  se_dropped : dropped r = None
}.

(** How the run ended: without giving anything up, or by skipping to the
    buffered index [start]. *)
Definition run_outcome (n start0 : Z) (held : BTreeMap.t RtpPacket) (ready0 : list RtpPacket)
    (rec0 : option NvstRecovery) (r : ReorderResult) (start : Z) : Prop :=
  (start = start0 /\ recovery r = rec0
     /\ exists run, ready r = ready0 ++ run
          /\ forall p, p ∈ run -> BTreeMap.get held (pk_index p) = Some p)
  \/ (exists e, recovery r = Some (PacketGap e (start - 1)) /\ n <= e < start
        /\ start ∈ BTreeMap.keys held
        /\ forall p, p ∈ ready r -> BTreeMap.get held (pk_index p) = Some p).

Lemma map_wf_first m n k p :
  map_wf m n -> BTreeMap.first_key_value m = Some (k, p) -> n <= k /\ map_wf m k.
Proof.
  intros Hwf Hf. assert (Hk : k ∈ BTreeMap.keys m).
  { apply bt_get_keys. exists p. by apply bt_first_get. }
  split; [by apply (mw_ge _ _ Hwf)|]. constructor; [apply Hwf|apply Hwf|].
  intros k' Hk'. by eapply bt_first_min; [apply Hwf|..].
Qed.

Lemma first_lt_len (m : BTreeMap.t RtpPacket) k p :
  BTreeMap.first_key_value m = Some (k, p) -> 1 <= BTreeMap.len m.
Proof. destruct m; [done|]. intros _. unfold BTreeMap.len. rewrite zlen_cons. pose proof (zlen_nonneg m). lia. Qed.

(** The gap-wait bookkeeping of one iteration. *)
Lemma gap_wait_step st expected now :
  exists s,
    match RtpReorderBuffer.gap_wait st with
    | Some (waiting_for, started) =>
        if waiting_for =? expected then (st, started)
        else (st <| RtpReorderBuffer.gap_wait := Some (expected, now) |>, now)
    | None => (st <| RtpReorderBuffer.gap_wait := Some (expected, now) |>, now)
    end = (st <| RtpReorderBuffer.gap_wait := Some (expected, s) |>, s)
    /\ (s = now \/ RtpReorderBuffer.gap_wait st = Some (expected, s)).
Proof.
  destruct (RtpReorderBuffer.gap_wait st) as [[wf s]|] eqn:Eg; [|by exists now; auto].
  destruct (Z.eqb_spec wf expected) as [->|]; [|by exists now; auto].
  exists s. split; [|by right]. f_equal. destruct st; simpl in *. by subst.
Qed.

(** Enough fuel: one iteration per buffered packet, and one more when the
    first iteration delivers nothing. *)
Definition enough (fuel : nat) (m : BTreeMap.t RtpPacket) (n : Z) : Prop :=
  (length m < fuel)%nat \/ (n ∈ BTreeMap.keys m /\ (length m <= fuel)%nat).

Lemma enough_step fuel m m' n (run : list RtpPacket) fa :
  enough (S fuel) m n -> map_wf m' (n + zlen run + 1) ->
  (forall k, BTreeMap.get m' k = if k <? n + zlen run then None else BTreeMap.get m k) ->
  BTreeMap.len m' = BTreeMap.len m - zlen run -> fa ∈ BTreeMap.keys m' -> enough fuel m' fa.
Proof.
  intros Hf Hwf Hget Hlen Hfa. right. split; [done|]. unfold BTreeMap.len in Hlen.
  destruct Hf as [Hf|[Hn Hf]]; [unfold zlen in *; lia|].
  destruct run as [|p run]; [|rewrite zlen_cons in *; unfold zlen in *; lia].
  exfalso. assert (Hno : BTreeMap.get m' n = None).
  { apply bt_get_None. intros Hk. pose proof (mw_ge _ _ Hwf _ Hk).
    rewrite zlen_nil in *. lia. }
  rewrite Hget, zlen_nil in Hno. rewrite (proj2 (Z.ltb_ge _ _)) in Hno by lia.
  by apply bt_get_None in Hno.
Qed.

Lemma settle_spec fuel st now ready0 rec0 n start0 :
  RtpReorderBuffer.next_index st = Some n -> 0 <= n ->
  map_wf (RtpReorderBuffer.packets st) n -> 1 <= RtpReorderBuffer.max_packets st ->
  (1 <= fuel)%nat -> enough fuel (RtpReorderBuffer.packets st) n ->
  consec start0 ready0 -> start0 + zlen ready0 = n ->
  exists st' r start,
    RtpReorderBuffer.settle fuel st now ready0 None rec0 = Ok (st', r)
    /\ settled now start0 (RtpReorderBuffer.packets st) st' r start
    /\ run_outcome n start0 (RtpReorderBuffer.packets st) ready0 rec0 r start
    /\ RtpReorderBuffer.max_packets st' = RtpReorderBuffer.max_packets st.
Proof.
  revert st ready0 rec0 n start0.
  induction fuel as [|fuel IH]; intros st ready0 rec0 n start0 Hn Hpos Hwf Hmax Hf1 Hf Hc0 Hs0; [lia|].
  cbn [RtpReorderBuffer.settle].
  destruct (drain_spec (S (length (RtpReorderBuffer.packets st))) st ready0 n Hn Hwf)
    as (st1 & run & -> & Hc & Hin & Hn1 & Hwf1 & Hget1 & Hl1 & Hm1 & Hg1); [lia|].
  obind. cbn beta iota.
  assert (Hcr : consec start0 (ready0 ++ run)) by (apply consec_app; by rewrite Hs0).
  assert (Hlen : start0 + zlen (ready0 ++ run) = n + zlen run) by (rewrite zlen_app; lia).
  pose proof (zlen_nonneg run). pose proof (zlen_nonneg ready0).
  destruct (BTreeMap.first_key_value (RtpReorderBuffer.packets st1)) as [[fa fp]|] eqn:Hfirst.
  2: { apply bt_first_None in Hfirst.
    eexists _, _, start0. split; [reflexivity|]. split; [|split; [|done]].
    - constructor; simpl; rewrite ?Hlen; try done; try lia.
      rewrite Hfirst. unfold BTreeMap.len. rewrite zlen_nil. lia.
    - left. simpl. split_and!; try done. by exists run. }
  rewrite Hn1. cbn [expect]. obind. cbn beta iota.
  destruct (map_wf_first _ _ _ _ Hwf1 Hfirst) as [Hfa Hwffa].
  assert (Hfak : fa ∈ BTreeMap.keys (RtpReorderBuffer.packets st1)).
  { apply bt_get_keys. exists fp. by apply bt_first_get. }
  assert (Hnack : saturating_sub fa 1 = fa - 1) by (unfold saturating_sub; lia).
  destruct (gap_wait_step st1 (n + zlen run) now) as (s & -> & _). cbn beta iota.
  destruct (negb _ && negb _) eqn:Ewait.
  - zbool. simpl in *.
    eexists _, _, start0. split; [reflexivity|]. split; [|split; [|done]].
    + constructor; simpl; rewrite ?Hlen; try done; try lia.
      * intros a b [= <- <-]. rewrite Hnack. split_and!; [done|lia|].
        exists fp. by replace (fa - 1 + 1) with fa by lia.
      * split_and!; [done|lia|]. intros He. by rewrite He in Hfirst.
    + left. simpl. split_and!; try done. by exists run.
  - clear Ewait.
    edestruct (IH (st1 <| RtpReorderBuffer.gap_wait := Some (n + zlen run, s) |>
        <| RtpReorderBuffer.next_index := Some fa |> <| RtpReorderBuffer.gap_wait := None |>)
        [] (Some (PacketGap (n + zlen run) (fa - 1))) fa fa)
      as (st' & r & start & -> & Hset & Hout & Hm'); try done; simpl; try lia.
    { destruct fuel; [|lia]. destruct (enough_step 0 _ _ n run fa Hf Hwf1 Hget1 Hl1 Hfak) as [?|[_ Hl0]]; [lia|].
      destruct (RtpReorderBuffer.packets st1); [done|simpl in Hl0; lia]. }
    { by eapply enough_step. }
    { rewrite zlen_nil. lia. }
    simpl in Hset, Hout, Hm'. exists st', r, start. split; [done|].
    destruct Hset as [Hsn Hss Hsc Hsh Hsm Hsb Hsk Hsg Hsd].
    assert (Hsub : forall k q, BTreeMap.get (RtpReorderBuffer.packets st1) k = Some q ->
      BTreeMap.get (RtpReorderBuffer.packets st) k = Some q).
    { intros k q. rewrite Hget1. by destruct (k <? n + zlen run). }
    split; [constructor; try done; try lia|split; [|congruence]].
    + intros k. rewrite Hsh, Hget1. pose proof (zlen_nonneg (ready r)).
      destruct (Z.ltb_spec k (start + zlen (ready r))); [done|].
      by rewrite (proj2 (Z.ltb_ge _ _)) by lia.
    + right. destruct Hout as [(-> & Hr & run' & Hready & Hin')|(e & Hr & He & Hk & Hin')].
      * exists (n + zlen run). split_and!; [done|lia|lia| |].
        -- apply bt_get_keys. exists fp. apply Hsub. by apply bt_first_get.
        -- rewrite Hready. intros p Hp. by apply Hsub, Hin'.
      * exists e. split_and!; [done|lia|lia| |].
        -- apply bt_get_keys in Hk as [q Hq]. apply bt_get_keys. exists q. by apply Hsub.
        -- intros p Hp. by apply Hsub, Hin'.
Qed.

(** ** [push] *)

(** The next index [push] works with: the first packet sets it. *)
Definition next_before (st : RtpReorderBuffer.t) (p : RtpPacket) : Z :=
  default (pk_index p) (RtpReorderBuffer.next_index st).

Lemma map_wf_insert m n p :
  map_wf m n -> n <= pk_index p -> map_wf (BTreeMap.insert (pk_index p) p m) n.
Proof.
  intros Hwf Hn. constructor.
  - apply bt_insert_wf, Hwf.
  - intros k q. rewrite bt_get_insert by apply Hwf. destruct (Z.eqb_spec k (pk_index p)) as [->|].
    + by intros [= <-].
    + apply Hwf.
  - intros k. rewrite bt_keys_insert. intros [->|Hk]; [done|by apply Hwf].
Qed.

Lemma map_wf_weaken m n n' : map_wf m n -> n' <= n -> map_wf m n'.
Proof. intros [Hw Hi Hg] Hle. constructor; [done..|]. intros k Hk. pose proof (Hg k Hk). lia. Qed.

Lemma map_wf_empty n : map_wf BTreeMap.empty n.
Proof. constructor; [constructor|done|]. intros k Hk. inversion Hk. Qed.

Lemma reorder_wf_new max : 1 <= max -> reorder_wf (RtpReorderBuffer.new max).
Proof. intros. by constructor. Qed.

(** The held packets a push settles. *)
Definition offered (st : RtpReorderBuffer.t) (p : RtpPacket) : BTreeMap.t RtpPacket :=
  BTreeMap.insert (pk_index p) p (RtpReorderBuffer.packets st).

Inductive push_result (st : RtpReorderBuffer.t) (p : RtpPacket) (now : Z)
    : RtpReorderBuffer.t -> ReorderResult -> Prop :=
  | push_stale :
      pk_index p < next_before st p -> is_Some (RtpReorderBuffer.next_index st) ->
      push_result st p now st (result_dropped (Some (StaleRtpPacket (pk_index p))))
  | push_duplicate :
      next_before st p <= pk_index p -> is_Some (RtpReorderBuffer.next_index st) ->
      pk_index p ∈ BTreeMap.keys (RtpReorderBuffer.packets st) ->
      push_result st p now st (result_dropped (Some (DuplicateRtpPacket (pk_index p))))
  | push_accepted st' r start :
      next_before st p <= pk_index p ->
      pk_index p ∉ BTreeMap.keys (RtpReorderBuffer.packets st) ->
      settled now (next_before st p) (offered st p) st' r start ->
      (recovery r = None -> start = next_before st p) ->
      (forall q, q ∈ ready r -> BTreeMap.get (offered st p) (pk_index q) = Some q) ->
      (forall e, recovery r = Some e -> exists a b, e = PacketGap a b
          /\ next_before st p <= a <= b /\ b = start - 1) ->
      push_result st p now st' r.

Lemma same_next st n :
  RtpReorderBuffer.next_index st = Some n ->
  st <| RtpReorderBuffer.next_index := Some n |> = st.
Proof. destruct st; simpl. by intros ->. Qed.

Lemma settled_wf now n held st' r start max :
  settled now n held st' r start -> 0 <= n -> 1 <= max ->
  RtpReorderBuffer.max_packets st' = max -> reorder_wf st'.
Proof.
  intros Hs Hn Hmax Hm. constructor; [lia|]. rewrite (se_next _ _ _ _ _ _ Hs).
  pose proof (se_start _ _ _ _ _ _ Hs). pose proof (zlen_nonneg (ready r)).
  split_and!; [lia|apply Hs|apply Hs].
Qed.

Lemma push_spec st p now :
  reorder_wf st -> 0 <= pk_index p ->
  exists st' r, RtpReorderBuffer.push st p now = Ok (st', r)
    /\ reorder_wf st' /\ push_result st p now st' r.
Proof.
  intros Hwf Hp. destruct Hwf as [Hmax Hnext]. unfold RtpReorderBuffer.push.
  fold (next_before st p). set (n := next_before st p).
  assert (Hn : 0 <= n /\ map_wf (RtpReorderBuffer.packets st) n
      /\ (n = pk_index p /\ RtpReorderBuffer.packets st = []
          \/ RtpReorderBuffer.next_index st = Some n)).
  { unfold n, next_before. destruct (RtpReorderBuffer.next_index st) as [m|]; simpl.
    - destruct Hnext as (? & Hm & _). split_and!; [done|eapply map_wf_weaken; [done|lia]|by right].
    - destruct Hnext as [-> _]. split_and!; [done|apply map_wf_empty|by left]. }
  destruct Hn as (Hn0 & Hmwf & Hcase). simpl.
  destruct (Z.ltb_spec (pk_index p) n) as [Hlt|Hge].
  { destruct Hcase as [[? ?]|Hc]; [lia|]. rewrite same_next by done.
    eexists _, _. split; [reflexivity|]. split; [by constructor|]. apply push_stale; eauto. }
  unfold BTreeMap.contains_key.
  destruct (BTreeMap.get (RtpReorderBuffer.packets st) (pk_index p)) as [q|] eqn:Hget.
  { destruct Hcase as [[? He]|Hc]; [by rewrite He in Hget|]. rewrite same_next by done.
    eexists _, _. split; [reflexivity|]. split; [by constructor|]. apply push_duplicate; eauto.
    apply bt_get_keys. eauto. }
  assert (Hnew : pk_index p ∉ BTreeMap.keys (RtpReorderBuffer.packets st)) by by apply bt_get_None.
  assert (Hins : map_wf (offered st p) n) by by apply map_wf_insert.
  destruct ((_ =? 0) && _) eqn:Ejump; cbn beta iota; simpl.
  - (* an empty buffer and a jump beyond the window *)
    zbool. assert (He : RtpReorderBuffer.packets st = []).
    { unfold BTreeMap.len, zlen in *. destruct (RtpReorderBuffer.packets st); [done|simpl in *; lia]. }
    assert (Hgt : n < pk_index p) by (unfold saturating_sub in *; lia).
    edestruct (settle_spec (S (length (offered st p)))
      (st <| RtpReorderBuffer.next_index := Some (pk_index p) |> <| RtpReorderBuffer.gap_wait := None |>
          <| RtpReorderBuffer.packets := offered st p |>) now []
      (Some (PacketGap n (pk_index p - 1))) (pk_index p) (pk_index p))
      as (st' & r & start & Heq & Hset & Hout & Hm); try done; simpl; try lia.
    { unfold offered. rewrite He. simpl. constructor.
      - repeat constructor.
      - intros k q. simpl. destruct (Z.eqb_spec k (pk_index p)) as [->|]; [by intros [= <-]|done].
      - intros k [->|Hk]%elem_of_cons; [simpl; lia|inversion Hk]. }
    { left. apply Nat.lt_succ_diag_r. }
    { rewrite zlen_nil. lia. }
    simpl in Hset, Hout, Hm. exists st', r. split; [exact Heq|]. pose proof (se_start _ _ _ _ _ _ Hset).
    split; [exact (settled_wf _ _ _ _ _ _ _ Hset Hp Hmax Hm)|].
    apply push_accepted with start; try done.
    + destruct Hset. constructor; try done. lia.
    + destruct Hout as [(-> & Hr & _)|(e & Hr & _)]; rewrite Hr; done.
    + destruct Hout as [(-> & Hr & run & -> & Hin)|(e & Hr & He' & Hk & Hin)]; done.
    + destruct Hout as [(-> & Hr & _)|(e & Hr & He' & _)]; rewrite Hr; intros ? [= <-].
      * exists n, (pk_index p - 1). split_and!; [done|lia..].
      * exists e, (start - 1). split_and!; [done|lia..].
  - edestruct (settle_spec (S (length (offered st p)))
      (st <| RtpReorderBuffer.next_index := Some n |> <| RtpReorderBuffer.packets := offered st p |>)
      now [] None n n)
      as (st' & r & start & Heq & Hset & Hout & Hm); try done; simpl; try lia.
    { left. apply Nat.lt_succ_diag_r. }
    { rewrite zlen_nil. lia. }
    simpl in Hset, Hout, Hm. exists st', r. split; [exact Heq|]. split; [exact (settled_wf _ _ _ _ _ _ _ Hset Hn0 Hmax Hm)|].
    apply push_accepted with start; try done.
    + destruct Hout as [(-> & Hr & _)|(e & Hr & _)]; rewrite Hr; done.
    + destruct Hout as [(-> & Hr & run & -> & Hin)|(e & Hr & He' & Hk & Hin)]; done.
    + destruct Hout as [(-> & Hr & _)|(e & Hr & He' & _)]; rewrite Hr; intros ? [= <-].
      exists e, (start - 1). split_and!; [done|lia..].
Qed.

(** ** Runs of the buffer *)

(** Deliveries of a sequence of arrivals, in order. *)
Fixpoint deliver (st : RtpReorderBuffer.t) (arrivals : list (RtpPacket * Z))
    : outcome NvstDropReason (list RtpPacket) :=
  match arrivals with
  | [] => mret []
  | (p, now) :: arrivals =>
      sr ← RtpReorderBuffer.push st p now;
      rest ← deliver sr.1 arrivals;
      mret (ready sr.2 ++ rest)
  end.

Lemma consec_sorted n l :
  consec n l -> StronglySorted Z.lt (map pk_index l) /\ Forall (fun i => n <= i < n + zlen l) (map pk_index l).
Proof.
  revert n. induction l as [|p l IH]; intros n Hc; simpl; [repeat constructor|].
  destruct Hc as [-> Hc]. destruct (IH _ Hc) as [Hs Ha]. rewrite zlen_cons. pose proof (zlen_nonneg l).
  split; constructor; try done; try lia.
  - eapply Forall_impl; [exact Ha|]. intros i Hi. cbv beta in Hi. lia.
  - eapply Forall_impl; [exact Ha|]. intros i Hi. cbv beta in Hi |- *. lia.
Qed.

Lemma sorted_app l1 l2 m :
  StronglySorted Z.lt l1 -> StronglySorted Z.lt l2 ->
  Forall (fun i => i < m) l1 -> Forall (fun i => m <= i) l2 -> StronglySorted Z.lt (l1 ++ l2).
Proof.
  induction 1 as [|x l1 Hs IH Hall]; intros Hs2 H1 H2; simpl; [done|].
  inversion H1; subst. constructor; [by apply IH|]. apply Forall_app. split; [done|].
  eapply Forall_impl; [exact H2|]. simpl. lia.
Qed.

Definition next_of (st : RtpReorderBuffer.t) : Z := default 0 (RtpReorderBuffer.next_index st).

Lemma deliver_spec arrivals st :
  reorder_wf st -> Forall (fun a => 0 <= pk_index a.1) arrivals ->
  exists out, deliver st arrivals = Ok out
    /\ StronglySorted Z.lt (map pk_index out)
    /\ Forall (fun i => next_of st <= i) (map pk_index out).
Proof.
  revert st. induction arrivals as [|[p now] arrivals IH]; intros st Hwf Hall; cbn [deliver].
  { exists []. split_and!; [done|constructor..]. }
  inversion Hall as [|? ? Hp Hall']; subst. simpl in Hp.
  destruct (push_spec st p now Hwf Hp) as (st' & r & -> & Hwf' & Hres). obind. cbn [fst snd].
  destruct (IH st' Hwf' Hall') as (rest & -> & Hs & Hge). obind. eexists. split; [reflexivity|].
  rewrite map_app. destruct Hres as [Hlt Hsome|Hle Hsome Hin|st' r start Hle Hnew Hset Hrec Hin Hgap]; simpl.
  - split; done.
  - split; done.
  - destruct (consec_sorted _ _ (se_consec _ _ _ _ _ _ Hset)) as [Hs1 Ha1].
    pose proof (se_start _ _ _ _ _ _ Hset) as Hstart.
    assert (Hnext : next_of st' = start + zlen (ready r)).
    { unfold next_of. by rewrite (se_next _ _ _ _ _ _ Hset). }
    rewrite Hnext in Hge. pose proof (zlen_nonneg (ready r)).
    assert (Hn0 : next_of st <= start).
    { unfold next_of, next_before in *. destruct (RtpReorderBuffer.next_index st); simpl in *; lia. }
    split.
    + apply (sorted_app _ _ (start + zlen (ready r))); try done.
      eapply Forall_impl; [exact Ha1|]. simpl. lia.
    + apply Forall_app. split; (eapply Forall_impl; [eassumption|]); simpl; lia.
Qed.

(** C7: over any run of arrivals the reorder buffer terminates without a panic
    and delivers packets in strictly increasing index order, so no packet is
    delivered twice or out of order. *)
Theorem reorder_delivers_in_order max arrivals :
  1 <= max -> Forall (fun a => 0 <= pk_index a.1) arrivals ->
  exists out, deliver (RtpReorderBuffer.new max) arrivals = Ok out
    /\ StronglySorted Z.lt (map pk_index out).
Proof.
  intros Hmax Hall.
  destruct (deliver_spec arrivals _ (reorder_wf_new max Hmax) Hall) as (out & Ho & Hs & _). eauto.
Qed.

Definition numbered (i : Z) : RtpPacket :=
  {| pk_index := i; pk_header := sample_header; pk_plaintext := []; pk_origin := Authenticated |}.

Lemma reorder_delivers_in_order_witness :
  fmap (map pk_index) (deliver (RtpReorderBuffer.new 4)
      [(numbered 10, 0); (numbered 12, 1); (numbered 11, 2); (numbered 11, 3); (numbered 15, 4);
       (numbered 9, 5); (numbered 30, from_millis 60)])
    = Ok [10; 11; 12; 30]
  /\ exists out, deliver (RtpReorderBuffer.new 4)
      [(numbered 10, 0); (numbered 12, 1); (numbered 11, 2); (numbered 11, 3); (numbered 15, 4);
       (numbered 9, 5); (numbered 30, from_millis 60)] = Ok out
    /\ StronglySorted Z.lt (map pk_index out).
Proof.
  split; [vm_compute; reflexivity|].
  apply reorder_delivers_in_order; [lia|repeat constructor; simpl; lia].
Defined.

(** While the buffer reports no gap recovery it loses nothing: after an
    accepted push a packet index is delivered or still held exactly when it was
    held before or is the arriving packet, the delivered packets are exactly
    the offered ones, and they start at the expected index without a hole. *)
Theorem reorder_loses_nothing st p now st' r :
  reorder_wf st -> 0 <= pk_index p ->
  RtpReorderBuffer.push st p now = Ok (st', r) -> dropped r = None -> recovery r = None ->
  consec (next_before st p) (ready r)
  /\ (forall q, q ∈ ready r -> q = p \/ BTreeMap.get (RtpReorderBuffer.packets st) (pk_index q) = Some q)
  /\ forall k, (k ∈ BTreeMap.keys (RtpReorderBuffer.packets st') \/ k ∈ map pk_index (ready r))
        <-> (k = pk_index p \/ k ∈ BTreeMap.keys (RtpReorderBuffer.packets st)).
Proof.
  intros Hwf Hp Hpush Hdrop Hrec.
  destruct (push_spec st p now Hwf Hp) as (st1 & r1 & Heq & Hwf' & Hres).
  rewrite Hpush in Heq. injection Heq as <- <-.
  destruct Hres as [Hlt Hsome|Hle Hsome Hin|st' r start Hle Hnew Hset Hstart Hin Hgap]; [done|done|].
  pose proof (Hstart Hrec) as ->.
  assert (Hmw : BTreeMap.wf (RtpReorderBuffer.packets st)).
  { destruct Hwf as [_ Hn]. destruct (RtpReorderBuffer.next_index st); [apply Hn|].
    destruct Hn as [-> _]. constructor. }
  split_and!.
  - apply Hset.
  - intros q Hq. pose proof (Hin q Hq) as Hg. unfold offered in Hg. rewrite bt_get_insert in Hg by done.
    destruct (pk_index q =? pk_index p); [left; congruence|by right].
  - intros k. rewrite <- bt_keys_insert with (v := p). fold (offered st p).
    rewrite <- !bt_get_keys, (se_held _ _ _ _ _ _ Hset). set (n := next_before st p) in *.
    split.
    + intros [Hk|Hk]; [by destruct (k <? _); [by destruct Hk|]|].
      rewrite list_elem_of_In, List.in_map_iff in Hk. destruct Hk as (q & <- & Hq).
      rewrite <- list_elem_of_In in Hq. exists q. by apply Hin.
    + intros [q Hq]. destruct (Z.ltb_spec k (n + zlen (ready r))) as [Hlt|]; [right|left; by exists q].
      assert (Hk : n <= k < n + zlen (ready r)).
      { split; [|done]. assert (Hkk : k ∈ BTreeMap.keys (offered st p)) by (apply bt_get_keys; eauto).
        unfold offered in Hkk. rewrite bt_keys_insert in Hkk. destruct Hkk as [->|Hkk]; [done|].
        destruct Hwf as [_ Hn]. unfold n, next_before.
        destruct (RtpReorderBuffer.next_index st); simpl.
        - destruct Hn as (_ & Hmw' & _). pose proof (mw_ge _ _ Hmw' _ Hkk). lia.
        - destruct Hn as [He _]. rewrite He in Hkk. inversion Hkk. }
      exact (consec_mem n _ k (se_consec _ _ _ _ _ _ Hset) Hk).
Qed.

(** A buffer waiting for index 11 with 12 and 14 held. *)
Definition waiting_buffer : RtpReorderBuffer.t := {|
  RtpReorderBuffer.next_index := Some 11;
  RtpReorderBuffer.packets := [(12, numbered 12); (14, numbered 14)];
  RtpReorderBuffer.max_packets := 8;
  RtpReorderBuffer.gap_wait := Some (11, 5) |}.

Lemma waiting_buffer_wf : reorder_wf waiting_buffer.
Proof.
  constructor; simpl; [lia|]. split_and!; [lia| |unfold BTreeMap.len, zlen; simpl; lia].
  constructor.
  - repeat constructor.
  - intros k q. simpl. destruct (Z.eqb_spec k 12) as [->|]; [by intros [= <-]|].
    destruct (Z.eqb_spec k 14) as [->|]; [by intros [= <-]|done].
  - intros k Hk. simpl in Hk. rewrite !elem_of_cons in Hk.
    destruct Hk as [->|[->|Hk]]; [lia|lia|inversion Hk].
Defined.

Lemma reorder_loses_nothing_witness :
  exists st' r, RtpReorderBuffer.push waiting_buffer (numbered 11) 9 = Ok (st', r)
    /\ map pk_index (ready r) = [11; 12]
    /\ consec (next_before waiting_buffer (numbered 11)) (ready r).
Proof.
  eexists _, _. split; [vm_compute; reflexivity|]. split; [reflexivity|].
  eapply (reorder_loses_nothing waiting_buffer (numbered 11) 9);
    [exact waiting_buffer_wf|simpl; lia|vm_compute; reflexivity|reflexivity|reflexivity].
Defined.

(** The buffer is bounded and never waits forever: after every accepted
    push it holds fewer packets than its window, a gap it still waits for is
    younger than the 52 ms dequeue timeout, and a NACK asks for a non-empty
    range that starts at the expected index, ends right before a held packet
    and contains no held packet. *)
Theorem reorder_bounded_wait st p now st' r :
  reorder_wf st -> 0 <= pk_index p ->
  RtpReorderBuffer.push st p now = Ok (st', r) -> dropped r = None ->
  BTreeMap.len (RtpReorderBuffer.packets st') < RtpReorderBuffer.max_packets st'
  /\ (forall e s, RtpReorderBuffer.gap_wait st' = Some (e, s) ->
        RtpReorderBuffer.next_index st' = Some e
        /\ saturating_duration_since now s < MJOLNIR_REORDER_DEQUEUE_TIMEOUT)
  /\ (forall a b, nack r = Some (a, b) ->
        RtpReorderBuffer.next_index st' = Some a /\ a <= b
        /\ b + 1 ∈ BTreeMap.keys (RtpReorderBuffer.packets st')
        /\ forall i, a <= i <= b -> i ∉ BTreeMap.keys (RtpReorderBuffer.packets st')).
Proof.
  intros Hwf Hp Hpush Hdrop.
  destruct (push_spec st p now Hwf Hp) as (st1 & r1 & Heq & _ & Hres).
  rewrite Hpush in Heq. injection Heq as <- <-.
  destruct Hres as [Hlt Hsome|Hle Hsome Hin|st' r start Hle Hnew Hset Hstart Hin Hgap]; [done|done|].
  split_and!.
  - apply Hset.
  - intros e s Hg. pose proof (se_gap _ _ _ _ _ _ Hset) as Hgap'. rewrite Hg in Hgap'.
    destruct Hgap' as (-> & ? & _). split; [apply Hset|done].
  - intros a b Hn. destruct (se_nack _ _ _ _ _ _ Hset _ _ Hn) as (-> & Hab & q & Hq).
    split_and!; [apply Hset|done| |].
    + apply bt_get_keys. exists q. by apply bt_first_get.
    + intros i Hi Hik. pose proof (bt_first_min _ _ _ _ (mw_wf _ _ (se_map _ _ _ _ _ _ Hset)) Hq Hik). lia.
Qed.

Lemma reorder_bounded_wait_witness :
  exists st' r, RtpReorderBuffer.push waiting_buffer (numbered 16) 9 = Ok (st', r)
    /\ nack r = Some (11, 11)
    /\ BTreeMap.len (RtpReorderBuffer.packets st') < RtpReorderBuffer.max_packets st'.
Proof.
  eexists _, _. split; [vm_compute; reflexivity|]. split; [reflexivity|].
  eapply (reorder_bounded_wait waiting_buffer (numbered 16) 9);
    [exact waiting_buffer_wf|simpl; lia|vm_compute; reflexivity|reflexivity].
Defined.
