(* ===== verification/Gf256.v ===== *)
(** * GF(2^8) with primitive polynomial 0x11d

    [gf256_tables], [gf256_multiply], [gf256_inverse], [gf256_axpy] and
    [gf256_scale] of [nvst.rs], and the proof that bytes with them form a field,
    so that [ring] and [field] apply to the FEC arithmetic. *)

From Stdlib Require Import Field_theory Field Ring.
From S2P Require Import Prelude.

Record Gf256Tables := { exponent : list u8; logarithm : list u8 }.

(** One iteration of the table-building loop: the slot of [power] gets [value],
    then [value] is doubled modulo the polynomial. *)
Definition gf256_tables_step (st : list u8 * list u8 * Z) (power : nat) : list u8 * list u8 * Z :=
  let '(exponent, logarithm, value) := st in
  let exponent := <[power := z2b value]> exponent in
  let logarithm := <[Z.to_nat value := z2b (Z.of_nat power)]> logarithm in
  let value := as_u16 (Z.shiftl value 1) in
  let value := if negb (Z.land value 0x100 =? 0) then Z.lxor value 0x11d else value in
  (exponent, logarithm, value).

(** The [while power < exponent.len()] loop: the second copy of the powers. *)
Definition gf256_mirror (exponent : list u8) (power : nat) : list u8 :=
  <[power := nth (power - 255) exponent Byte.x00]> exponent.

Definition gf256_tables : Gf256Tables :=
  let '(exponent, logarithm, _) :=
    fold_left gf256_tables_step (seq 0 255)
      (replicate 512 Byte.x00, replicate 256 Byte.x00, 1) in
  {| exponent := fold_left gf256_mirror (seq 255 257) exponent; logarithm := logarithm |}.

(** The tables are built once; this is their value. *)
Definition gf256_tables_value : Gf256Tables := Eval vm_compute in gf256_tables.

Definition log_index (b : u8) : nat :=
  Z.to_nat (b2z (nth (Z.to_nat (b2z b)) (logarithm gf256_tables_value) Byte.x00)).
Definition exp_at (k : nat) : u8 := nth k (exponent gf256_tables_value) Byte.x00.

Definition gf256_multiply (left right : u8) : u8 :=
  if decide (left = Byte.x00 \/ right = Byte.x00) then Byte.x00
  else exp_at (log_index left + log_index right).

Definition gf256_inverse (value : u8) : option u8 :=
  if decide (value = Byte.x00) then None
  else Some (exp_at (255 - log_index value)).

(** [for (d, s) in destination.iter_mut().zip(source) { *d ^= f(s) }]: the
    destination keeps its length. *)
Fixpoint xor_zip (f : u8 -> u8) (destination source : list u8) : list u8 :=
  match destination, source with
  | d :: destination, s :: source => bxor d (f s) :: xor_zip f destination source
  | destination, _ => destination
  end.

Definition gf256_axpy (destination source : list u8) (coefficient : u8) : list u8 :=
  if decide (coefficient = Byte.x00) then destination
  else if decide (coefficient = Byte.x01) then xor_zip (fun s => s) destination source
  else xor_zip (gf256_multiply coefficient) destination source.

Definition gf256_scale (bytes : list u8) (coefficient : u8) : list u8 :=
  if decide (coefficient = Byte.x01) then bytes
  else map (fun byte => gf256_multiply byte coefficient) bytes.

(** ** Tables *)

Lemma gf256_tables_eq : gf256_tables_value = gf256_tables.
Proof. vm_compute. reflexivity. Qed.

(** The indices the code uses stay inside the tables. *)
Lemma tables_length : length (exponent gf256_tables) = 512%nat /\ length (logarithm gf256_tables) = 256%nat.
Proof. rewrite <- gf256_tables_eq. split; reflexivity. Qed.

Definition all_bytes : list u8 := map (fun k => z2b (Z.of_nat k)) (seq 0 256).

Lemma all_bytes_complete b : b ∈ all_bytes.
Proof.
  unfold all_bytes. rewrite list_elem_of_In, List.in_map_iff. exists (Z.to_nat (b2z b)).
  pose proof (b2z_range b). rewrite Z2Nat.id by lia. split; [apply z2b_b2z|].
  apply List.in_seq. lia.
Qed.

Lemma byte_check (f : u8 -> bool) : forallb f all_bytes = true -> forall b, f b = true.
Proof.
  intros H b. rewrite List.forallb_forall in H. apply H.
  rewrite <- list_elem_of_In. apply all_bytes_complete.
Qed.

Definition byte_eqb (a b : u8) : bool := Byte.eqb a b.
Lemma byte_eqb_eq a b : byte_eqb a b = true -> a = b.
Proof. apply Byte.byte_dec_bl. Qed.

Lemma log_bound b : (log_index b <= 254)%nat.
Proof.
  apply Nat.leb_le. revert b. apply byte_check. vm_compute. reflexivity.
Qed.

Lemma exp_log b : b <> Byte.x00 -> exp_at (log_index b) = b.
Proof.
  intros Hb. assert (H : byte_eqb b Byte.x00 || byte_eqb (exp_at (log_index b)) b = true).
  { revert b Hb. intros b _. revert b. apply byte_check. vm_compute. reflexivity. }
  apply orb_true_iff in H as [H|H]; [apply byte_eqb_eq in H; done|by apply byte_eqb_eq].
Qed.

Lemma nat_check (f : nat -> bool) n : forallb f (seq 0 n) = true -> forall k, (k < n)%nat -> f k = true.
Proof. intros H k Hk. rewrite List.forallb_forall in H. apply H, List.in_seq. lia. Qed.

Lemma log_exp k : (k < 510)%nat -> log_index (exp_at k) = (k mod 255)%nat /\ exp_at k <> Byte.x00.
Proof.
  intros Hk.
  assert (H : (log_index (exp_at k) =? k mod 255)%nat && negb (byte_eqb (exp_at k) Byte.x00) = true).
  { revert k Hk. apply nat_check. vm_compute. reflexivity. }
  apply andb_true_iff in H as [H1 H2]. split; [by apply Nat.eqb_eq|].
  intros He. rewrite He in H2. done.
Qed.

Lemma exp_period k : (k < 510)%nat -> exp_at k = exp_at (k mod 255).
Proof.
  intros Hk. apply byte_eqb_eq. revert k Hk. apply nat_check. vm_compute. reflexivity.
Qed.

(** ** The field laws *)

Notation "a ⊕ b" := (bxor a b) (at level 50, left associativity) : nvst_scope.
Notation "a ⊗ b" := (gf256_multiply a b) (at level 40, left associativity) : nvst_scope.

Lemma lxor_byte_range a b : 0 <= Z.lxor (b2z a) (b2z b) < 256.
Proof.
  pose proof (b2z_range a). pose proof (b2z_range b).
  split; [apply Z.lxor_nonneg; lia|].
  destruct (Z.eq_dec (Z.lxor (b2z a) (b2z b)) 0) as [->|]; [lia|].
  assert (0 <= Z.lxor (b2z a) (b2z b)) by (apply Z.lxor_nonneg; lia).
  change 256 with (2 ^ 8). apply Z.log2_lt_pow2; [lia|].
  pose proof (Z.log2_lxor (b2z a) (b2z b) ltac:(lia) ltac:(lia)).
  assert (Hl : forall x, 0 <= x < 256 -> Z.log2 x < 8).
  { intros x Hx. destruct (Z.eq_dec x 0) as [->|]; [simpl; lia|]. apply Z.log2_lt_pow2; lia. }
  pose proof (Hl (b2z a)). pose proof (Hl (b2z b)). lia.
Qed.

Lemma b2z_bxor a b : b2z (a ⊕ b) = Z.lxor (b2z a) (b2z b).
Proof. unfold bxor. apply b2z_z2b_small, lxor_byte_range. Qed.

Lemma bxor_comm a b : a ⊕ b = b ⊕ a.
Proof. apply b2z_inj. rewrite !b2z_bxor. apply Z.lxor_comm. Qed.
Lemma bxor_assoc a b c : a ⊕ (b ⊕ c) = a ⊕ b ⊕ c.
Proof. apply b2z_inj. rewrite !b2z_bxor. symmetry. apply Z.lxor_assoc. Qed.
Lemma bxor_0_l a : Byte.x00 ⊕ a = a.
Proof. apply b2z_inj. rewrite b2z_bxor. apply Z.lxor_0_l. Qed.
Lemma bxor_0_r a : a ⊕ Byte.x00 = a.
Proof. rewrite bxor_comm. apply bxor_0_l. Qed.
Lemma bxor_self a : a ⊕ a = Byte.x00.
Proof. apply b2z_inj. rewrite b2z_bxor. apply Z.lxor_nilpotent. Qed.
Lemma bxor_eq_0 a b : a ⊕ b = Byte.x00 -> a = b.
Proof.
  intros H. apply b2z_inj, Z.lxor_eq. rewrite <- b2z_bxor, H. reflexivity.
Qed.

Lemma gf_mul_0_l a : Byte.x00 ⊗ a = Byte.x00.
Proof. unfold gf256_multiply. rewrite decide_True by tauto. done. Qed.
Lemma gf_mul_comm a b : a ⊗ b = b ⊗ a.
Proof.
  unfold gf256_multiply. rewrite (Nat.add_comm (log_index b)).
  repeat case_decide; tauto || done.
Qed.
Lemma gf_mul_0_r a : a ⊗ Byte.x00 = Byte.x00.
Proof. rewrite gf_mul_comm. apply gf_mul_0_l. Qed.
Lemma gf_mul_1_l a : Byte.x01 ⊗ a = a.
Proof. apply byte_eqb_eq. revert a. apply byte_check. vm_compute. reflexivity. Qed.

(** Products of non-zero bytes add the logarithms modulo 255. *)
Lemma gf_mul_log a b :
  a <> Byte.x00 -> b <> Byte.x00 ->
  a ⊗ b <> Byte.x00 /\ log_index (a ⊗ b) = ((log_index a + log_index b) mod 255)%nat
  /\ a ⊗ b = exp_at ((log_index a + log_index b) mod 255).
Proof.
  intros Ha Hb. unfold gf256_multiply. rewrite decide_False by tauto.
  pose proof (log_bound a). pose proof (log_bound b).
  destruct (log_exp (log_index a + log_index b)) as [Hl Hn]; [lia|].
  split_and!; [done|done|]. apply exp_period. lia.
Qed.

Lemma gf_mul_assoc a b c : a ⊗ (b ⊗ c) = a ⊗ b ⊗ c.
Proof.
  destruct (decide (a = Byte.x00)) as [->|Ha]; [by rewrite !gf_mul_0_l|].
  destruct (decide (b = Byte.x00)) as [->|Hb]; [by rewrite gf_mul_0_l, !gf_mul_0_r, gf_mul_0_l|].
  destruct (decide (c = Byte.x00)) as [->|Hc]; [by rewrite !gf_mul_0_r|].
  destruct (gf_mul_log b c Hb Hc) as (Hbc & Hlbc & _).
  destruct (gf_mul_log a b Ha Hb) as (Hab & Hlab & _).
  destruct (gf_mul_log a (b ⊗ c) Ha Hbc) as (_ & _ & ->).
  destruct (gf_mul_log (a ⊗ b) c Hab Hc) as (_ & _ & ->).
  rewrite Hlbc, Hlab. f_equal. rewrite Nat.Div0.add_mod_idemp_r, Nat.Div0.add_mod_idemp_l. f_equal. lia.
Qed.

(** Multiplication in polynomial form: shift and add. *)
Definition xtime (a : u8) : u8 :=
  let v := Z.shiftl (b2z a) 1 in z2b (if Z.testbit v 8 then Z.lxor v 0x11d else v).
Definition bit_term (m : u8) (i : Z) (b : u8) : u8 := if Z.testbit (b2z b) i then m else Byte.x00.
Fixpoint gf_poly (n : nat) (i : Z) (a b : u8) : u8 :=
  match n with
  | O => Byte.x00
  | S n => bit_term a i b ⊕ gf_poly n (i + 1) (xtime a) b
  end.

Lemma bit_term_linear m i b c : bit_term m i (b ⊕ c) = bit_term m i b ⊕ bit_term m i c.
Proof.
  unfold bit_term. rewrite b2z_bxor, Z.lxor_spec.
  destruct (Z.testbit (b2z b) i), (Z.testbit (b2z c) i); simpl;
    by rewrite ?bxor_0_l, ?bxor_0_r, ?bxor_self.
Qed.

Lemma bxor_swap a b c d : a ⊕ b ⊕ (c ⊕ d) = a ⊕ c ⊕ (b ⊕ d).
Proof. rewrite !bxor_assoc. f_equal. rewrite <- !bxor_assoc. f_equal. apply bxor_comm. Qed.

Lemma gf_poly_linear n i a b c : gf_poly n i a (b ⊕ c) = gf_poly n i a b ⊕ gf_poly n i a c.
Proof.
  revert i a. induction n as [|n IH]; intros i a; simpl; [by rewrite bxor_self|].
  rewrite bit_term_linear, IH. apply bxor_swap.
Qed.

Lemma gf_mul_poly a b : a ⊗ b = gf_poly 8 0 a b.
Proof.
  apply byte_eqb_eq. revert b.
  apply (byte_check (fun b => byte_eqb (a ⊗ b) (gf_poly 8 0 a b))). revert a.
  apply byte_check. vm_compute. reflexivity.
Qed.

Lemma gf_distr_r a b c : a ⊗ (b ⊕ c) = a ⊗ b ⊕ a ⊗ c.
Proof. rewrite !gf_mul_poly. apply gf_poly_linear. Qed.
Lemma gf_distr_l a b c : (a ⊕ b) ⊗ c = a ⊗ c ⊕ b ⊗ c.
Proof. rewrite !(gf_mul_comm _ c). apply gf_distr_r. Qed.

Definition gf_inv (a : u8) : u8 := default Byte.x00 (gf256_inverse a).
Definition gf_div (a b : u8) : u8 := a ⊗ gf_inv b.

Lemma gf_inv_l a : a <> Byte.x00 -> gf_inv a ⊗ a = Byte.x01.
Proof.
  intros Ha. assert (H : byte_eqb a Byte.x00 || byte_eqb (gf_inv a ⊗ a) Byte.x01 = true).
  { clear Ha. revert a. apply byte_check. vm_compute. reflexivity. }
  apply orb_true_iff in H as [H|H]; apply byte_eqb_eq in H; done.
Qed.

Lemma gf256_ring : ring_theory Byte.x00 Byte.x01 bxor gf256_multiply bxor (fun a => a) eq.
Proof.
  constructor; intros.
  - apply bxor_0_l.
  - apply bxor_comm.
  - apply bxor_assoc.
  - apply gf_mul_1_l.
  - apply gf_mul_comm.
  - apply gf_mul_assoc.
  - apply gf_distr_l.
  - done.
  - apply bxor_self.
Qed.

Lemma gf256_field :
  field_theory Byte.x00 Byte.x01 bxor gf256_multiply bxor (fun a => a) gf_div gf_inv eq.
Proof. constructor; [exact gf256_ring|done|done|exact gf_inv_l]. Qed.

Add Field gf256_field_inst : gf256_field.

Lemma gf_mul_eq_0 a b : a ⊗ b = Byte.x00 -> a = Byte.x00 \/ b = Byte.x00.
Proof.
  intros H. destruct (decide (a = Byte.x00)), (decide (b = Byte.x00)); auto.
  destruct (gf_mul_log a b) as [? _]; done.
Qed.

Lemma gf256_inverse_Some a : a <> Byte.x00 -> gf256_inverse a = Some (gf_inv a).
Proof. intros. unfold gf_inv, gf256_inverse. by rewrite decide_False. Qed.

Lemma gf_inv_nonzero a : a <> Byte.x00 -> gf_inv a <> Byte.x00.
Proof. intros Ha H. pose proof (gf_inv_l a Ha) as Hi. rewrite H, gf_mul_0_l in Hi. done. Qed.

(** The log/antilog tables the code builds at start-up compute the product
    of two bytes as polynomials over GF(2) modulo x^8+x^4+x^3+x^2+1, and
    [gf256_inverse] is the multiplicative inverse, defined exactly off zero:
    bytes with exclusive or, [gf256_multiply] and [gf256_inverse] are the field
    GF(2^8). *)
Theorem gf256_is_the_field :
  gf256_tables_value = gf256_tables
  /\ (forall a b, gf256_multiply a b = gf_poly 8 0 a b)
  /\ (forall a b c, gf256_multiply a (bxor b c) = bxor (gf256_multiply a b) (gf256_multiply a c))
  /\ (forall a b c, gf256_multiply a (gf256_multiply b c) = gf256_multiply (gf256_multiply a b) c)
  /\ (forall a, match gf256_inverse a with
                | Some b => gf256_multiply b a = Byte.x01
                | None => a = Byte.x00
                end).
Proof.
  split_and!; [exact gf256_tables_eq|exact gf_mul_poly|exact gf_distr_r|exact gf_mul_assoc|].
  intros a. destruct (decide (a = Byte.x00)) as [->|Ha]; [reflexivity|].
  rewrite gf256_inverse_Some by done. by apply gf_inv_l.
Qed.
