(* ===== verification/Cauchy.v ===== *)
(** * Reconstructing shards of the systematic Cauchy Reed-Solomon code

    [nvst_cauchy_coefficient] and [reconstruct_nvst_cauchy_data] of [nvst.rs]:
    Gauss-Jordan elimination over GF(2^8) on whole shards.  Shard and matrix
    positions are [nat] here: the code bounds every size by 255. *)

From Stdlib Require Import Field.
From S2P Require Import Prelude Types Gf256.

Abbreviation fec_error := (Unsupported FecRepair).

Definition nvst_cauchy_coefficient (data_index parity_index parity_shards : nat) : option u8 :=
  data_coordinate ← (if (parity_shards + data_index <=? 255)%nat
                     then Some (z2b (Z.of_nat (parity_shards + data_index))) else None);
  parity_coordinate ← (if (parity_index <=? 255)%nat
                       then Some (z2b (Z.of_nat parity_index)) else None);
  gf256_inverse (bxor data_coordinate parity_coordinate).

(** [iter().collect::<Result<Vec<_>, _>>()] *)
Fixpoint collect {E A B} (f : A -> outcome E B) (l : list A) : outcome E (list B) :=
  match l with
  | [] => Ok []
  | a :: l => b ← f a; bs ← collect f l; mret (b :: bs)
  end.

(** The positions of [l] that satisfy [f], in order. *)
Fixpoint positions_from {A} (f : A -> bool) (n : nat) (l : list A) : list nat :=
  match l with
  | [] => []
  | a :: l => if f a then n :: positions_from f (S n) l else positions_from f (S n) l
  end.
Definition positions {A} (f : A -> bool) (l : list A) : list nat := positions_from f 0 l.

Definition is_none {A} (o : option A) : bool := match o with None => true | Some _ => false end.
Definition is_some {A} (o : option A) : bool := match o with None => false | Some _ => true end.

Definition coefficient_matrix (missing parity_rows : list nat) (parity_shards : nat)
    : outcome NvstDropReason (list (list u8)) :=
  collect (fun parity_index =>
    collect (fun data_index =>
      ok_or (nvst_cauchy_coefficient data_index parity_index parity_shards) fec_error) missing)
    parity_rows.

(** [recovered]: the selected parity shards, padded to the shard length. *)
Definition selected_parity (shards : list (option (list u8))) (data_shards shard_len : nat)
    (parity_rows : list nat) : outcome NvstDropReason (list (list u8)) :=
  collect (fun parity_index =>
    slot ← expect (shards !! (data_shards + parity_index)%nat);
    bytes ← expect slot;
    mret (resize bytes (Z.of_nat shard_len) Byte.x00)) parity_rows.

(** One row of the loop that subtracts the known data shards. *)
Fixpoint subtract_known (data : list (option (list u8))) (data_index parity_index parity_shards : nat)
    (shard_len : nat) (recovered : list u8) : outcome NvstDropReason (list u8) :=
  match data with
  | [] => mret recovered
  | None :: data =>
      subtract_known data (S data_index) parity_index parity_shards shard_len recovered
  | Some known :: data =>
      coefficient ← ok_or (nvst_cauchy_coefficient data_index parity_index parity_shards) fec_error;
      let known_len := Nat.min (length known) shard_len in
      target ← (if (known_len <=? length recovered)%nat then Ok (take known_len recovered) else Panic);
      let recovered := gf256_axpy target (take known_len known) coefficient
        ++ drop known_len recovered in
      subtract_known data (S data_index) parity_index parity_shards shard_len recovered
  end.

(** [vec.swap(a, b)] *)
Definition vec_swap {A} (l : list A) (a b : nat) : outcome NvstDropReason (list A) :=
  x ← expect (l !! a); y ← expect (l !! b); mret (<[b := x]> (<[a := y]> l)).

Definition matrix_at (matrix : list (list u8)) (row column : nat) : outcome NvstDropReason u8 :=
  r ← expect (matrix !! row); expect (r !! column).

(** [(column..n).find(|&row| matrix[row][column] != 0)] *)
Fixpoint find_pivot (rows : list nat) (matrix : list (list u8)) (column : nat)
    : outcome NvstDropReason nat :=
  match rows with
  | [] => Err fec_error
  | row :: rows =>
      x ← matrix_at matrix row column;
      if decide (x = Byte.x00) then find_pivot rows matrix column else mret row
  end.

(** [f(&mut v[from..])] *)
Definition map_tail (f : list u8 -> list u8) (from : nat) (v : list u8) : list u8 :=
  take from v ++ f (drop from v).

(** One iteration of the inner loop: clear [column] in [row] with the pivot row
    [column]. *)
Definition eliminate (column : nat) (st : list (list u8) * list (list u8)) (row : nat)
    : outcome NvstDropReason (list (list u8) * list (list u8)) :=
  let '(matrix, recovered) := st in
  if (row =? column)%nat then mret (matrix, recovered) else
  coefficient ← matrix_at matrix row column;
  if decide (coefficient = Byte.x00) then mret (matrix, recovered) else
  target_matrix ← expect (matrix !! row);
  pivot_matrix ← expect (matrix !! column);
  target_shard ← expect (recovered !! row);
  pivot_shard ← expect (recovered !! column);
  mret (<[row := map_tail (fun t => gf256_axpy t (drop column pivot_matrix) coefficient)
            column target_matrix]> matrix,
        <[row := gf256_axpy target_shard pivot_shard coefficient]> recovered).

(** One iteration of the elimination loop. *)
Definition reduce_column (n : nat) (st : list (list u8) * list (list u8)) (column : nat)
    : outcome NvstDropReason (list (list u8) * list (list u8)) :=
  let '(matrix, recovered) := st in
  pivot ← find_pivot (seq column (n - column)) matrix column;
  matrix ← vec_swap matrix column pivot;
  recovered ← vec_swap recovered column pivot;
  head ← matrix_at matrix column column;
  inverse ← ok_or (gf256_inverse head) fec_error;
  pivot_row ← expect (matrix !! column);
  pivot_shard ← expect (recovered !! column);
  let matrix := <[column := map_tail (fun r => gf256_scale r inverse) column pivot_row]> matrix in
  let recovered := <[column := gf256_scale pivot_shard inverse]> recovered in
  ofold (eliminate column) (seq 0 n) (matrix, recovered).

Definition write_back (shards : list (option (list u8))) (missing : list nat)
    (recovered : list (list u8)) : list (option (list u8)) :=
  fold_left (fun shards '(data_index, bytes) => <[data_index := Some bytes]> shards)
    (zip missing recovered) shards.

Definition reconstruct_nvst_cauchy_data (shards : list (option (list u8)))
    (data_shards parity_shards shard_len : nat)
    : outcome NvstDropReason (list (option (list u8))) :=
  guard_err ((data_shards =? 0)%nat || (parity_shards =? 0)%nat
    || (255 <? data_shards + parity_shards)%nat
    || negb (length shards =? data_shards + parity_shards)%nat) fec_error;;
  let missing := positions is_none (take data_shards shards) in
  if decide (missing = []) then mret shards else
  let parity_rows := take (length missing) (positions is_some (drop data_shards shards)) in
  guard_err (negb (length parity_rows =? length missing)%nat) fec_error;;
  matrix ← coefficient_matrix missing parity_rows parity_shards;
  recovered ← selected_parity shards data_shards shard_len parity_rows;
  recovered ← collect (fun '(bytes, parity_index) =>
      subtract_known (take data_shards shards) 0 parity_index parity_shards shard_len bytes)
    (zip recovered parity_rows);
  st ← ofold (reduce_column (length missing)) (seq 0 (length missing)) (matrix, recovered);
  mret (write_back shards missing st.2).

(** ** Vectors over GF(2^8) *)

Notation "a ⊕ b" := (bxor a b) (at level 50, left associativity) : nvst_scope.
Notation "a ⊗ b" := (gf256_multiply a b) (at level 40, left associativity) : nvst_scope.
Notation "'O₂'" := Byte.x00 : nvst_scope.

Add Field gf256_field_cauchy : gf256_field.

Fixpoint dot (r v : list u8) : u8 :=
  match r, v with
  | a :: r, b :: v => a ⊗ b ⊕ dot r v
  | _, _ => O₂
  end.

Lemma xor_zip_ext f g d s : (forall a, f a = g a) -> xor_zip f d s = xor_zip g d s.
Proof. intros H. revert s. induction d as [|a d IH]; intros [|b s]; simpl; f_equal; auto. by rewrite H. Qed.

Lemma xor_zip_zero f d s : (forall a, f a = O₂) -> xor_zip f d s = d.
Proof.
  intros H. revert s. induction d as [|a d IH]; intros [|b s]; simpl; f_equal; auto.
  by rewrite H, bxor_0_r.
Qed.

Lemma axpy_eq d s c : gf256_axpy d s c = xor_zip (gf256_multiply c) d s.
Proof.
  unfold gf256_axpy. destruct (decide (c = O₂)) as [->|].
  - symmetry. apply xor_zip_zero. intros. apply gf_mul_0_l.
  - case_decide; [|done]. subst. apply xor_zip_ext. intros. symmetry. apply gf_mul_1_l.
Qed.

Lemma scale_eq l c : gf256_scale l c = map (gf256_multiply c) l.
Proof.
  unfold gf256_scale. case_decide.
  - subst. rewrite (List.map_ext _ (fun a => a)); [by rewrite List.map_id|]. apply gf_mul_1_l.
  - apply List.map_ext. intros. apply gf_mul_comm.
Qed.

Lemma length_xor_zip f d s : length (xor_zip f d s) = length d.
Proof. revert s. induction d as [|a d IH]; intros [|b s]; simpl; auto. Qed.
Lemma length_axpy d s c : length (gf256_axpy d s c) = length d.
Proof. rewrite axpy_eq. apply length_xor_zip. Qed.
Lemma length_scale l c : length (gf256_scale l c) = length l.
Proof. rewrite scale_eq. apply length_map. Qed.
#[export] Hint Rewrite length_axpy length_scale length_xor_zip : lens.

Lemma xor_zip_app f d1 d2 s1 s2 :
  length d1 = length s1 -> xor_zip f (d1 ++ d2) (s1 ++ s2) = xor_zip f d1 s1 ++ xor_zip f d2 s2.
Proof.
  revert s1. induction d1 as [|a d1 IH]; intros [|b s1] Hl; simpl in *; try done.
  f_equal. apply IH. lia.
Qed.

Lemma xor_zip_lookup f d s i a b :
  d !! i = Some a -> s !! i = Some b -> xor_zip f d s !! i = Some (a ⊕ f b).
Proof.
  revert s i. induction d as [|x d IH]; intros [|y s] [|i] Hd Hs; simpl in *; try done; [|by apply IH].
  by injection Hd as ->; injection Hs as ->.
Qed.

Lemma dot_nil_r r : dot r [] = O₂.
Proof. by destruct r. Qed.

Lemma dot_axpy d s c v :
  length d = length s -> dot (gf256_axpy d s c) v = dot d v ⊕ c ⊗ dot s v.
Proof.
  rewrite axpy_eq. revert s v. induction d as [|a d IH]; intros [|b s] [|x v] Hl; simpl in *;
    try done; rewrite ?gf_mul_0_r, ?bxor_0_r; try done.
  rewrite IH by lia. ring.
Qed.

Lemma dot_scale l c v : dot (gf256_scale l c) v = c ⊗ dot l v.
Proof.
  rewrite scale_eq. revert v. induction l as [|a l IH]; intros [|x v]; simpl;
    rewrite ?gf_mul_0_r; try done. rewrite IH. ring.
Qed.

Lemma dot_zero_r r n : dot r (replicate n O₂) = O₂.
Proof.
  revert n. induction r as [|a r IH]; intros [|n]; simpl; try done.
  by rewrite IH, gf_mul_0_r, bxor_0_r.
Qed.

(** [dot] with a unit vector reads one entry. *)
Definition unit_vector (n k : nat) : list u8 := <[k := Byte.x01]> (replicate n O₂).

Lemma dot_insert r v k x y :
  r !! k = Some x -> v !! k = Some O₂ -> dot r (<[k := y]> v) = dot r v ⊕ x ⊗ y.
Proof.
  revert v k. induction r as [|a r IH]; intros [|b v] [|k] Hr Hv; simpl in *; try done.
  - injection Hr as ->. injection Hv as ->. ring.
  - rewrite (IH v k) by done. ring.
Qed.

(** ** Matrices with rows of one length *)

Definition shape {A} (n m : nat) (M : list (list A)) : Prop :=
  length M = n /\ Forall (fun r => length r = m) M.

Lemma shape_row {A} n m (M : list (list A)) r :
  shape n m M -> (r < n)%nat -> exists row, M !! r = Some row /\ length row = m.
Proof.
  intros [Hl Hf] Hr. destruct (lookup_lt_is_Some_2 M r) as [row Hrow]; [lia|].
  exists row. split; [done|]. by eapply (Forall_lookup_1 (fun r => length r = m)).
Qed.

Lemma shape_insert {A} n m (M : list (list A)) r row :
  shape n m M -> length row = m -> shape n m (<[r := row]> M).
Proof. intros [Hl Hf] Hr. split; [by rewrite length_insert|]. by apply Forall_insert. Qed.

Definition entry (M : list (list u8)) (r c : nat) : u8 :=
  default O₂ (M !! r ≫= fun row => row !! c).

Lemma matrix_at_entry n m M r c :
  shape n m M -> (r < n)%nat -> (c < m)%nat -> matrix_at M r c = Ok (entry M r c).
Proof.
  intros Hs Hr Hc. destruct (shape_row _ _ _ _ Hs Hr) as (row & Hrow & Hlen).
  unfold matrix_at, entry. rewrite Hrow. cbn [expect]. obind.
  destruct (lookup_lt_is_Some_2 row c) as [x ->]; [lia|]. done.
Qed.

Lemma entry_row M r c row : M !! r = Some row -> entry M r c = default O₂ (row !! c).
Proof. intros H. unfold entry. by rewrite H. Qed.

(** ** One elimination step *)

Lemma axpy_zero d s : gf256_axpy d s O₂ = d.
Proof. unfold gf256_axpy. by rewrite decide_True. Qed.

(** Acting on the tail is acting on the whole row when the pivot row starts
    with zeroes. *)
Lemma axpy_tail c row P x :
  (c <= length row)%nat -> length P = length row -> take c P = replicate c O₂ ->
  map_tail (fun t => gf256_axpy t (drop c P) x) c row = gf256_axpy row P x.
Proof.
  intros Hc Hl Hz. unfold map_tail. rewrite !axpy_eq.
  rewrite <- (take_drop c row) at 3. rewrite <- (take_drop c P) at 2.
  rewrite xor_zip_app by (rewrite !length_take; lia). f_equal.
  rewrite Hz. assert (Hrep : forall l, xor_zip (gf256_multiply x) l (replicate c O₂) = l).
  { intros l. clear. revert l. induction c as [|c IH]; intros [|a l]; simpl; f_equal; auto.
    by rewrite gf_mul_0_r, bxor_0_r. }
  by rewrite Hrep.
Qed.

Lemma scale_tail c row x :
  take c row = replicate c O₂ -> map_tail (fun r => gf256_scale r x) c row = gf256_scale row x.
Proof.
  intros Hz. unfold map_tail. rewrite !scale_eq.
  rewrite <- (take_drop c row) at 3. rewrite map_app. f_equal. rewrite Hz.
  clear. induction c as [|c IH]; simpl; [done|]. by rewrite gf_mul_0_r, <- IH.
Qed.

Lemma eliminate_Ok n L M R c row P Q :
  shape n n M -> shape n L R -> (c < n)%nat -> (row < n)%nat -> row <> c ->
  M !! c = Some P -> R !! c = Some Q -> take c P = replicate c O₂ ->
  exists m r, M !! row = Some m /\ R !! row = Some r
    /\ eliminate c (M, R) row
       = Ok (<[row := gf256_axpy m P (entry M row c)]> M, <[row := gf256_axpy r Q (entry M row c)]> R).
Proof.
  intros HM HR Hc Hrow Hne HP HQ Hz.
  destruct (shape_row _ _ _ _ HM Hrow) as (m & Hm & Hml).
  destruct (shape_row _ _ _ _ HR Hrow) as (r & Hr & Hrl).
  destruct (shape_row _ _ _ _ HM Hc) as (P' & HP' & HPl). rewrite HP in HP'. injection HP' as <-.
  exists m, r. split; [done|]. split; [done|]. unfold eliminate.
  rewrite (proj2 (Nat.eqb_neq _ _) Hne).
  rewrite (matrix_at_entry n n) by done. obind.
  destruct (decide (entry M row c = O₂)) as [->|Hx].
  - rewrite !axpy_zero. unfold mret, outcome_ret. by rewrite !list_insert_id by done.
  - rewrite Hm, HP, Hr, HQ. cbn [expect]. obind. by rewrite axpy_tail by (done || lia).
Qed.

Lemma eliminate_loop n L c P Q rows M R :
  shape n n M -> shape n L R -> (c < n)%nat -> Forall (fun r => (r < n)%nat) rows -> NoDup rows ->
  M !! c = Some P -> R !! c = Some Q -> take c P = replicate c O₂ ->
  exists M' R', ofold (eliminate c) rows (M, R) = Ok (M', R')
    /\ shape n n M' /\ shape n L R'
    /\ (forall r m, M !! r = Some m -> M' !! r =
          Some (if decide (r ∈ rows /\ r <> c) then gf256_axpy m P (entry M r c) else m))
    /\ (forall r s, R !! r = Some s -> R' !! r =
          Some (if decide (r ∈ rows /\ r <> c) then gf256_axpy s Q (entry M r c) else s)).
Proof.
  revert M R. induction rows as [|row rows IH]; intros M R HM HR Hc Hall Hnd HP HQ Hz.
  { exists M, R. split; [done|]. split; [done|]. split; [done|].
    split; intros r x Hx; rewrite decide_False by (intros [H _]; inversion H); done. }
  inversion Hall as [|? ? Hrow Hall']; subst. apply NoDup_cons in Hnd as [Hni Hnd]. cbn [ofold].
  destruct (decide (row = c)) as [->|Hne].
  - unfold eliminate at 2. rewrite Nat.eqb_refl. unfold mret, outcome_ret. obind.
    destruct (IH M R) as (M' & R' & -> & HM' & HR' & HeM & HeR); try done.
    exists M', R'. split; [done|]. split; [done|]. split; [done|].
    split; intros r x Hx; [rewrite (HeM r x Hx)|rewrite (HeR r x Hx)]; f_equal;
      repeat case_decide; set_solver.
  - destruct (eliminate_Ok n L M R c row P Q) as (m & s & Hm & Hs & ->); try done. obind.
    destruct (shape_row _ _ _ _ HM Hrow) as (m' & Hm' & Hml). rewrite Hm in Hm'. injection Hm' as <-.
    destruct (shape_row _ _ _ _ HR Hrow) as (s' & Hs' & Hsl). rewrite Hs in Hs'. injection Hs' as <-.
    destruct (IH (<[row := gf256_axpy m P (entry M row c)]> M)
                 (<[row := gf256_axpy s Q (entry M row c)]> R))
      as (M' & R' & -> & HM' & HR' & HeM & HeR); try done.
    { apply shape_insert; [done|by rewrite length_axpy]. }
    { apply shape_insert; [done|by rewrite length_axpy]. }
    { by rewrite list_lookup_insert_ne. }
    { by rewrite list_lookup_insert_ne. }
    assert (Hent : forall r, r <> row -> entry (<[row := gf256_axpy m P (entry M row c)]> M) r c = entry M r c).
    { intros r Hr. unfold entry at 1. by rewrite list_lookup_insert_ne. }
    exists M', R'. split; [done|]. split; [done|]. split; [done|].
    split; intros r x Hx.
    + destruct (decide (r = row)) as [->|Hr].
      * rewrite Hm in Hx. injection Hx as <-.
        rewrite (HeM row (gf256_axpy m P (entry M row c)))
          by (apply list_lookup_insert_eq; by eapply lookup_lt_Some).
        rewrite (decide_False (P := row ∈ rows /\ _)) by tauto.
        rewrite decide_True by (split; [by left|done]). done.
      * rewrite (HeM r x) by (by rewrite list_lookup_insert_ne). rewrite Hent by done.
        f_equal. repeat case_decide; set_solver.
    + destruct (decide (r = row)) as [->|Hr].
      * rewrite Hs in Hx. injection Hx as <-.
        rewrite (HeR row (gf256_axpy s Q (entry M row c)))
          by (apply list_lookup_insert_eq; by eapply lookup_lt_Some).
        rewrite (decide_False (P := row ∈ rows /\ _)) by tauto.
        rewrite decide_True by (split; [by left|done]). done.
      * rewrite (HeR r x) by (by rewrite list_lookup_insert_ne). rewrite Hent by done.
        f_equal. repeat case_decide; set_solver.
Qed.

(** ** Finding the pivot *)

Lemma find_pivot_spec n rows M c :
  shape n n M -> (c < n)%nat -> Forall (fun r => (r < n)%nat) rows ->
  (exists p, find_pivot rows M c = Ok p /\ p ∈ rows /\ entry M p c <> O₂)
  \/ (find_pivot rows M c = Err fec_error /\ forall r, r ∈ rows -> entry M r c = O₂).
Proof.
  intros HM Hc. induction 1 as [|row rows Hrow Hall IH]; cbn [find_pivot].
  { right. split; [done|]. intros r Hr. inversion Hr. }
  rewrite (matrix_at_entry n n) by done. obind.
  destruct (decide (entry M row c = O₂)) as [He|He].
  - destruct IH as [(p & Hp & Hin & Hx)|[Hp Hz]]; [left|right].
    + exists p. split_and!; [done|by right|done].
    + split; [done|]. intros r [->|Hr]%elem_of_cons; auto.
  - left. exists row. split_and!; [done|by left|done].
Qed.

(** ** The elimination invariant *)

(** [X b] is the vector of the [b]-th bytes of the missing shards, for the
    bytes [P] of interest. *)
Record gauss (P : nat -> Prop) (n L : nat) (X : nat -> list u8) (c : nat) (M R : list (list u8)) : Prop := {
  ga_M : shape n n M;
  ga_R : shape n L R;
  ga_unit : forall r k, (r < n)%nat -> (k < c)%nat ->
    entry M r k = if (r =? k)%nat then Byte.x01 else O₂;
  ga_system : forall r m s b x, P b -> M !! r = Some m -> R !! r = Some s -> s !! b = Some x ->
    dot m (X b) = x;
  ga_kernel : forall v, length v = n -> (forall r m, M !! r = Some m -> dot m v = O₂) ->
    v = replicate n O₂
}.

Lemma entry_lookup n M r k m :
  shape n n M -> M !! r = Some m -> (k < n)%nat -> m !! k = Some (entry M r k).
Proof.
  intros HM Hm Hk. rewrite (entry_row _ _ _ _ Hm).
  destruct (shape_row _ _ _ r HM) as (m' & Hm' & Hl); [rewrite <- (proj1 HM); by eapply lookup_lt_Some|].
  rewrite Hm in Hm'. injection Hm' as <-. destruct (lookup_lt_is_Some_2 m k) as [x ->]; [lia|done].
Qed.

(** The vector [e_c + sum over k < i of M[k][c] e_k]. *)
Fixpoint kernel_vector (n : nat) (M : list (list u8)) (c i : nat) : list u8 :=
  match i with
  | O => unit_vector n c
  | S k => <[k := entry M k c]> (kernel_vector n M c k)
  end.

Lemma kernel_vector_spec n M c i m x :
  (i <= c)%nat -> (c < n)%nat -> length m = n -> m !! c = Some x ->
  length (kernel_vector n M c i) = n
  /\ (forall k, (k < n)%nat -> (i <= k)%nat ->
        kernel_vector n M c i !! k = Some (if (k =? c)%nat then Byte.x01 else O₂))
  /\ (forall r, (forall k, (k < c)%nat -> m !! k = Some (if (r =? k)%nat then Byte.x01 else O₂)) ->
        dot m (kernel_vector n M c i) = x ⊕ (if (r <? i)%nat then entry M r c else O₂)).
Proof.
  intros Hi Hc Hl Hx. induction i as [|i IH]; cbn [kernel_vector].
  - unfold unit_vector. split_and!.
    + by rewrite length_insert, length_replicate.
    + intros k Hk _. destruct (Nat.eqb_spec k c) as [->|].
      * apply list_lookup_insert_eq. by rewrite length_replicate.
      * rewrite list_lookup_insert_ne by done. by apply lookup_replicate_2.
    + intros r _. rewrite (dot_insert m _ c x) by (done || by apply lookup_replicate_2).
      rewrite dot_zero_r. simpl. ring.
  - destruct IH as (IHl & IHk & IHd); [lia|]. split_and!.
    + by rewrite length_insert.
    + intros k Hk Hik. rewrite list_lookup_insert_ne by lia. apply IHk; lia.
    + intros r Hr. pose proof (IHk i ltac:(lia) ltac:(lia)) as Hi0.
      rewrite (proj2 (Nat.eqb_neq i c)) in Hi0 by lia.
      rewrite (dot_insert m _ i (if (r =? i)%nat then Byte.x01 else O₂)) by (auto with lia || done).
      rewrite (IHd r Hr).
      destruct (Nat.eqb_spec r i) as [->|].
      * rewrite Nat.ltb_irrefl, (proj2 (Nat.ltb_lt _ _)) by lia. ring.
      * destruct (Nat.ltb_spec r i), (Nat.ltb_spec r (S i)); try lia; ring.
Qed.

Lemma pivot_exists Sys n L X c M R :
  gauss Sys n L X c M R -> (c < n)%nat ->
  exists p, find_pivot (seq c (n - c)) M c = Ok p /\ (c <= p < n)%nat /\ entry M p c <> O₂.
Proof.
  intros [HM HR Hunit Hsys Hker] Hc.
  destruct (find_pivot_spec n (seq c (n - c)) M c HM Hc) as [(p & Hp & Hin & Hx)|[_ Hz]].
  - apply Forall_forall. intros r Hr%elem_of_seq. lia.
  - exists p. apply elem_of_seq in Hin. split_and!; [done|lia|lia|done].
  - exfalso. set (v := kernel_vector n M c c).
    assert (Hv : v = replicate n O₂).
    { apply Hker.
      - destruct (shape_row _ _ _ c HM Hc) as (m & Hm & Hml).
        by destruct (kernel_vector_spec n M c c m (entry M c c)) as [? _];
          [lia|done|done|by eapply entry_lookup|].
      - intros r m Hm. assert (Hr : (r < n)%nat).
        { rewrite <- (proj1 HM). by eapply lookup_lt_Some. }
        destruct (shape_row _ _ _ r HM Hr) as (m' & Hm' & Hml). rewrite Hm in Hm'. injection Hm' as <-.
        destruct (kernel_vector_spec n M c c m (entry M r c)) as (_ & _ & Hdot);
          [lia|done|done|by eapply entry_lookup|].
        fold v in Hdot. rewrite (Hdot r).
        + destruct (Nat.ltb_spec r c); [apply bxor_self|].
          rewrite (Hz r); [by rewrite bxor_0_r|]. apply elem_of_seq. lia.
        + intros k Hk. rewrite (entry_lookup n M r k m) by (done || lia).
          by rewrite Hunit by lia. }
    destruct (shape_row _ _ _ c HM Hc) as (m & Hm & Hml).
    destruct (kernel_vector_spec n M c c m (entry M c c)) as (_ & Hk & _);
      [lia|done|done|by eapply entry_lookup|].
    fold v in Hk. pose proof (Hk c Hc ltac:(lia)) as H1. rewrite Hv, Nat.eqb_refl in H1.
    apply lookup_replicate in H1 as [H1 _]. done.
Qed.

Definition swapped (a b r : nat) : nat := if (r =? a)%nat then b else if (r =? b)%nat then a else r.

Lemma vec_swap_spec {A} (l : list A) a b :
  (a < length l)%nat -> (b < length l)%nat ->
  exists l', vec_swap l a b = Ok l' /\ length l' = length l /\ forall r, l' !! r = l !! swapped a b r.
Proof.
  intros Ha Hb. unfold vec_swap.
  destruct (lookup_lt_is_Some_2 l a Ha) as [x Hx]. destruct (lookup_lt_is_Some_2 l b Hb) as [y Hy].
  rewrite Hx, Hy. cbn [expect]. obind. eexists. split; [reflexivity|].
  split; [by rewrite !length_insert|]. intros r. unfold swapped.
  destruct (Nat.eqb_spec r a) as [->|Hra].
  - destruct (decide (a = b)) as [->|Hab].
    + rewrite list_lookup_insert_eq by (by rewrite length_insert). congruence.
    + rewrite list_lookup_insert_ne, list_lookup_insert_eq by done. done.
  - destruct (Nat.eqb_spec r b) as [->|Hrb].
    + rewrite list_lookup_insert_eq by (by rewrite length_insert). done.
    + by rewrite !list_lookup_insert_ne by done.
Qed.

Lemma shape_permuted {A} n m (M M' : list (list A)) f :
  shape n m M -> length M' = length M -> (forall r, M' !! r = M !! f r) -> shape n m M'.
Proof.
  intros [Hl Hf] Hl' Hlook. split; [congruence|]. apply Forall_lookup. intros r row Hr.
  rewrite Hlook in Hr. by eapply (Forall_lookup_1 (fun r => length r = m)).
Qed.

Lemma swapped_lt a b r n : (a < n)%nat -> (b < n)%nat -> (r < n)%nat -> (swapped a b r < n)%nat.
Proof. unfold swapped. intros. repeat (case_match; try lia). Qed.

Lemma swapped_invol a b r : swapped a b (swapped a b r) = r.
Proof.
  unfold swapped. destruct (Nat.eqb_spec r a) as [->|].
  - destruct (Nat.eqb_spec b a) as [->|]; [done|]. by rewrite Nat.eqb_refl.
  - destruct (Nat.eqb_spec r b) as [->|]; [by rewrite Nat.eqb_refl|].
    by rewrite !(proj2 (Nat.eqb_neq _ _)).
Qed.

Lemma gauss_swap Sys n L X c M R M' R' p :
  gauss Sys n L X c M R -> (c <= p < n)%nat ->
  length M' = length M -> length R' = length R ->
  (forall r, M' !! r = M !! swapped c p r) -> (forall r, R' !! r = R !! swapped c p r) ->
  gauss Sys n L X c M' R' /\ entry M' c c = entry M p c.
Proof.
  intros [HM HR Hunit Hsys Hker] Hp HlM HlR HeM HeR.
  assert (Hent : forall r k, entry M' r k = entry M (swapped c p r) k) by (intros; unfold entry; by rewrite HeM).
  split; [constructor|].
  - by eapply shape_permuted.
  - by eapply shape_permuted.
  - intros r k Hr Hk. rewrite Hent, Hunit by (done || apply swapped_lt; lia).
    unfold swapped. destruct (Nat.eqb_spec r c) as [->|].
    + by rewrite !(proj2 (Nat.eqb_neq _ _)) by lia.
    + destruct (Nat.eqb_spec r p) as [->|]; [|done]. by rewrite !(proj2 (Nat.eqb_neq _ _)) by lia.
  - intros r m s b x HP Hm Hs. rewrite HeM in Hm. rewrite HeR in Hs. by apply (Hsys (swapped c p r)).
  - intros v Hv Hz. apply Hker; [done|]. intros r m Hm. apply (Hz (swapped c p r)).
    by rewrite HeM, swapped_invol.
  - rewrite Hent. unfold swapped. by rewrite Nat.eqb_refl.
Qed.

(** Scaling the pivot row by the inverse of its head. *)
Lemma gauss_scale Sys n L X c M R m s a :
  gauss Sys n L X c M R -> (c < n)%nat -> M !! c = Some m -> R !! c = Some s -> a <> O₂ ->
  gauss Sys n L X c (<[c := gf256_scale m a]> M) (<[c := gf256_scale s a]> R).
Proof.
  intros [HM HR Hunit Hsys Hker] Hc Hm Hs Ha.
  destruct (shape_row _ _ _ c HM Hc) as (m' & Hm' & Hml). rewrite Hm in Hm'. injection Hm' as <-.
  destruct (shape_row _ _ _ c HR Hc) as (s' & Hs' & Hsl). rewrite Hs in Hs'. injection Hs' as <-.
  assert (HcM : (c < length M)%nat) by (rewrite (proj1 HM); done).
  assert (HcR : (c < length R)%nat) by (rewrite (proj1 HR); done).
  constructor.
  - apply shape_insert; [done|by rewrite length_scale].
  - apply shape_insert; [done|by rewrite length_scale].
  - intros r k Hr Hk. destruct (decide (r = c)) as [->|Hrc].
    + unfold entry. rewrite list_lookup_insert_eq by done. simpl.
      rewrite scale_eq. change (map (gf256_multiply a)) with (fmap (M:=list) (gf256_multiply a)).
      rewrite list_lookup_fmap, (entry_lookup n M c k m) by (done || lia). simpl.
      rewrite Hunit by lia. rewrite (proj2 (Nat.eqb_neq _ _)) by lia. apply gf_mul_0_r.
    + unfold entry. rewrite list_lookup_insert_ne by done. by apply Hunit.
  - intros r m1 s1 b x HP. destruct (decide (r = c)) as [->|Hrc].
    + rewrite !list_lookup_insert_eq by done. intros [= <-] [= <-].
      rewrite (scale_eq s). change (map (gf256_multiply a)) with (fmap (M:=list) (gf256_multiply a)).
      rewrite list_lookup_fmap. destruct (s !! b) as [y|] eqn:Hy; simpl; [|done]. intros [= <-].
      rewrite dot_scale. f_equal. by apply (Hsys c m s).
    + rewrite !list_lookup_insert_ne by done. intros. by apply (Hsys r m1 s1 b).
  - intros v Hv Hz. apply Hker; [done|]. intros r m1 Hm1. destruct (decide (r = c)) as [->|Hrc].
    + rewrite Hm in Hm1. injection Hm1 as <-.
      pose proof (Hz c (gf256_scale m a)) as H0. rewrite list_lookup_insert_eq in H0 by done.
      specialize (H0 eq_refl). rewrite dot_scale in H0. apply gf_mul_eq_0 in H0 as [?|?]; done.
    + apply (Hz r). by rewrite list_lookup_insert_ne.
Qed.

(** Clearing the column in every other row. *)
Lemma gauss_eliminate Sys n L X c M R P Q :
  gauss Sys n L X c M R -> (c < n)%nat -> M !! c = Some P -> R !! c = Some Q -> entry M c c = Byte.x01 ->
  exists M' R', ofold (eliminate c) (seq 0 n) (M, R) = Ok (M', R') /\ gauss Sys n L X (S c) M' R'.
Proof.
  intros [HM HR Hunit Hsys Hker] Hc HP HQ Hone.
  destruct (shape_row _ _ _ c HM Hc) as (P' & HP' & HPl). rewrite HP in HP'. injection HP' as <-.
  destruct (shape_row _ _ _ c HR Hc) as (Q' & HQ' & HQl). rewrite HQ in HQ'. injection HQ' as <-.
  assert (HPk : forall k, (k < n)%nat -> P !! k = Some (entry M c k)) by (intros; by eapply entry_lookup).
  assert (Hz : take c P = replicate c O₂).
  { apply list_eq. intros k. destruct (decide (k < c)%nat) as [Hk|Hk].
    - rewrite lookup_take_lt, HPk, Hunit by lia. rewrite (proj2 (Nat.eqb_neq _ _)) by lia.
      symmetry. by apply lookup_replicate_2.
    - rewrite !lookup_ge_None_2 by (rewrite ?length_take, ?length_replicate; lia). done. }
  destruct (eliminate_loop n L c P Q (seq 0 n) M R) as (M' & R' & -> & HM' & HR' & HeM & HeR); try done.
  { apply Forall_forall. intros r Hr%elem_of_seq. lia. }
  { apply NoDup_seq. }
  exists M', R'. split; [done|].
  assert (Hrows : forall r m', M' !! r = Some m' -> (r < n)%nat /\ exists m, M !! r = Some m /\ length m = n
      /\ m' = if decide (r = c) then m else gf256_axpy m P (entry M r c)).
  { intros r m' Hm'. assert (Hr : (r < n)%nat) by (rewrite <- (proj1 HM'); by eapply lookup_lt_Some).
    split; [done|]. destruct (shape_row _ _ _ r HM Hr) as (m & Hm & Hml). exists m. split; [done|]. split; [done|].
    rewrite (HeM r m Hm) in Hm'. injection Hm' as <-.
    repeat case_decide; try done; exfalso; [tauto|]. apply H. rewrite elem_of_seq. split; [lia|done]. }
  constructor; try done.
  - intros r k Hr Hk. destruct (shape_row _ _ _ r HM' Hr) as (m' & Hm' & _).
    destruct (Hrows r m' Hm') as (_ & m & Hm & Hml & ->). rewrite (entry_row _ _ _ _ Hm').
    assert (Hmk : m !! k = Some (entry M r k)) by (eapply entry_lookup; [done..|lia]).
    case_decide as Hrc.
    + subst r. rewrite Hmk. simpl. destruct (decide (k = c)) as [->|].
      * by rewrite Hone, Nat.eqb_refl.
      * apply Hunit; lia.
    + rewrite axpy_eq, (xor_zip_lookup _ _ _ _ _ _ Hmk (HPk k ltac:(lia))). simpl.
      destruct (decide (k = c)) as [->|].
      * rewrite Hone, (proj2 (Nat.eqb_neq _ _)) by done. by rewrite gf_mul_comm, gf_mul_1_l, bxor_self.
      * rewrite (Hunit r k), (Hunit c k) by lia. rewrite (proj2 (Nat.eqb_neq c k)) by lia. ring.
  - intros r m' s' b x HSys Hm' Hs' Hx. destruct (Hrows r m' Hm') as (Hr & m & Hm & Hml & ->).
    destruct (shape_row _ _ _ r HR Hr) as (s & Hs & Hsl). rewrite (HeR r s Hs) in Hs'. injection Hs' as <-.
    assert (Hrin : r ∈ seq 0 n) by (apply elem_of_seq; lia).
    destruct (decide (r = c)) as [->|Hrc].
    + rewrite decide_False in Hx by tauto. by apply (Hsys c m s).
    + rewrite decide_True in Hx by done.
      assert (Hb : (b < L)%nat).
      { apply lookup_lt_Some in Hx. rewrite length_axpy in Hx. lia. }
      destruct (lookup_lt_is_Some_2 s b) as [y Hy]; [lia|].
      destruct (lookup_lt_is_Some_2 Q b) as [q Hq]; [lia|].
      rewrite axpy_eq, (xor_zip_lookup _ _ _ _ _ _ Hy Hq) in Hx. injection Hx as <-.
      rewrite dot_axpy by lia. by rewrite (Hsys r m s b y HSys), (Hsys c P Q b q HSys).
  - intros v Hv Hz'. apply Hker; [done|]. intros r m Hm.
    assert (Hr : (r < n)%nat) by (rewrite <- (proj1 HM); by eapply lookup_lt_Some).
    assert (HPv : dot P v = O₂).
    { apply (Hz' c). rewrite (HeM c P HP). rewrite decide_False by tauto. done. }
    destruct (decide (r = c)) as [->|Hrc]; [congruence|].
    pose proof (Hz' r (gf256_axpy m P (entry M r c))) as H0.
    destruct (shape_row _ _ _ r HM Hr) as (m1 & Hm1 & Hml). rewrite Hm in Hm1. injection Hm1 as <-.
    rewrite dot_axpy, HPv, gf_mul_0_r, bxor_0_r in H0 by lia. apply H0.
    rewrite (HeM r m Hm). rewrite decide_True; [done|]. split; [apply elem_of_seq; lia|done].
Qed.

Lemma reduce_column_spec Sys n L X c M R :
  gauss Sys n L X c M R -> (c < n)%nat ->
  exists M' R', reduce_column n (M, R) c = Ok (M', R') /\ gauss Sys n L X (S c) M' R'.
Proof.
  intros Hg Hc. unfold reduce_column.
  destruct (pivot_exists _ _ _ _ _ _ _ Hg Hc) as (p & -> & Hp & Hx). obind.
  pose proof (proj1 (ga_M _ _ _ _ _ _ _ Hg)) as HlM. pose proof (proj1 (ga_R _ _ _ _ _ _ _ Hg)) as HlR.
  destruct (vec_swap_spec M c p) as (M1 & -> & HlM1 & HM1); [lia|lia|]. obind.
  destruct (vec_swap_spec R c p) as (R1 & -> & HlR1 & HR1); [lia|lia|]. obind.
  destruct (gauss_swap _ _ _ _ _ _ _ M1 R1 p Hg Hp HlM1 HlR1 HM1 HR1) as [Hg1 He1].
  rewrite (matrix_at_entry n n) by (done || apply Hg1). obind. rewrite He1.
  rewrite gf256_inverse_Some by done. obind.
  destruct (shape_row _ _ _ c (ga_M _ _ _ _ _ _ _ Hg1) Hc) as (P & HP & HPl).
  destruct (shape_row _ _ _ c (ga_R _ _ _ _ _ _ _ Hg1) Hc) as (Q & HQ & HQl).
  rewrite HP, HQ. cbn [expect]. obind.
  assert (Htake : take c P = replicate c O₂).
  { apply list_eq. intros k. destruct (decide (k < c)%nat) as [Hk|Hk].
    - rewrite lookup_take_lt by done.
      rewrite (entry_lookup n M1 c k P) by (done || lia || apply Hg1).
      rewrite (ga_unit _ _ _ _ _ _ _ Hg1) by lia. rewrite (proj2 (Nat.eqb_neq _ _)) by lia.
      symmetry. by apply lookup_replicate_2.
    - rewrite !lookup_ge_None_2 by (rewrite ?length_take, ?length_replicate; lia). done. }
  rewrite scale_tail by done. set (a := gf_inv (entry M p c)).
  assert (Ha : a <> O₂) by by apply gf_inv_nonzero.
  pose proof (gauss_scale _ _ _ _ _ _ _ P Q a Hg1 Hc HP HQ Ha) as Hg2.
  apply (gauss_eliminate Sys n L X c _ _ (gf256_scale P a) (gf256_scale Q a) Hg2 Hc).
  - apply list_lookup_insert_eq. lia.
  - apply list_lookup_insert_eq. lia.
  - unfold entry. rewrite list_lookup_insert_eq by lia. simpl.
    rewrite scale_eq. change (map (gf256_multiply a)) with (fmap (M:=list) (gf256_multiply a)).
    rewrite list_lookup_fmap, (entry_lookup n M1 c c P) by (done || apply Hg1). simpl.
    rewrite He1. by apply gf_inv_l.
Qed.

Lemma reduce_loop Sys n L X k c M R :
  gauss Sys n L X c M R -> (c + k = n)%nat ->
  exists M' R', ofold (reduce_column n) (seq c k) (M, R) = Ok (M', R') /\ gauss Sys n L X n M' R'.
Proof.
  revert c M R. induction k as [|k IH]; intros c M R Hg Hck.
  { replace n with c by lia. replace n with c in Hg by lia. eauto. }
  cbn [seq ofold]. destruct (reduce_column_spec _ _ _ _ _ _ _ Hg) as (M1 & R1 & -> & Hg1); [lia|].
  obind. by apply IH; [|lia].
Qed.

(** A fully reduced system is the identity: the right-hand side is the
    solution. *)
Lemma dot_unit m v r n :
  length m = n -> length v = n -> (r < n)%nat ->
  (forall k, (k < n)%nat -> m !! k = Some (if (r =? k)%nat then Byte.x01 else O₂)) ->
  v !! r = Some (dot m v).
Proof.
  revert m v r. induction n as [|n IH]; intros m v r Hm Hv Hr Hk; [lia|].
  destruct m as [|a m], v as [|b v]; simpl in *; try lia.
  pose proof (Hk 0%nat ltac:(lia)) as H0. simpl in H0. injection H0 as ->.
  destruct r as [|r].
  - simpl. f_equal. rewrite gf_mul_1_l.
    assert (Hz : m = replicate n O₂).
    { apply list_eq. intros k. destruct (decide (k < n)%nat) as [Hkn|Hkn].
      - pose proof (Hk (S k) ltac:(lia)) as Hs. simpl in Hs. rewrite Hs.
        symmetry. by apply lookup_replicate_2.
      - rewrite !lookup_ge_None_2 by (rewrite ?length_replicate; lia). done. }
    subst m. assert (Hd : forall w j, dot (replicate j O₂) w = O₂).
    { intros w. induction w as [|x w IHw]; intros [|j]; simpl; try done.
      by rewrite IHw, gf_mul_0_l, bxor_0_l. }
    by rewrite Hd, bxor_0_r.
  - simpl. rewrite gf_mul_0_l, bxor_0_l. apply IH; try lia.
    intros k Hkn. pose proof (Hk (S k) ltac:(lia)) as Hs. simpl in Hs. done.
Qed.

Lemma gauss_solved Sys n L X M R r s b x :
  gauss Sys n L X n M R -> Sys b -> (forall b, (b < L)%nat -> length (X b) = n) ->
  R !! r = Some s -> s !! b = Some x -> (b < L)%nat -> X b !! r = Some x.
Proof.
  intros [HM HR Hunit Hsys _] HP HX Hs Hx Hb.
  assert (Hr : (r < n)%nat) by (rewrite <- (proj1 HR); by eapply lookup_lt_Some).
  destruct (shape_row _ _ _ r HM Hr) as (m & Hm & Hml).
  rewrite <- (Hsys r m s b x) by done. apply (dot_unit _ _ _ n); auto.
  intros k Hk. rewrite (entry_lookup n M r k m) by done. by rewrite Hunit.
Qed.

(** ** Cauchy matrices are non-singular *)

Definition cauchy_row (xs : list u8) (y : u8) : list u8 := map (fun x => gf_inv (x ⊕ y)) xs.

Lemma gf_inv_r a : a <> O₂ -> a ⊗ gf_inv a = Byte.x01.
Proof. intros. rewrite gf_mul_comm. by apply gf_inv_l. Qed.

Lemma bxor_neq a b : a <> b -> a ⊕ b <> O₂.
Proof. intros H H0. by apply bxor_eq_0 in H0. Qed.

(** The partial-fraction step that removes one column. *)
Lemma cauchy_term x0 x y y0 v :
  x <> y -> x <> y0 ->
  (x0 ⊕ y) ⊗ (gf_inv (x ⊕ y) ⊗ v) ⊕ (x0 ⊕ y0) ⊗ (gf_inv (x ⊕ y0) ⊗ v)
  = (y ⊕ y0) ⊗ (gf_inv (x ⊕ y) ⊗ (v ⊗ (x0 ⊕ x) ⊗ gf_inv (x ⊕ y0))).
Proof.
  intros Hy Hy0. pose proof (gf_inv_r _ (bxor_neq _ _ Hy)) as Hp.
  pose proof (gf_inv_r _ (bxor_neq _ _ Hy0)) as Hq.
  set (p := gf_inv (x ⊕ y)) in *. set (q := gf_inv (x ⊕ y0)) in *.
  transitivity ((x0 ⊕ y) ⊗ (p ⊗ v) ⊗ ((x ⊕ y0) ⊗ q) ⊕ (x0 ⊕ y0) ⊗ (q ⊗ v) ⊗ ((x ⊕ y) ⊗ p)).
  { rewrite Hp, Hq. ring. }
  set (t := v ⊗ p ⊗ q ⊗ (x0 ⊗ x ⊕ y ⊗ y0)).
  transitivity ((y ⊕ y0) ⊗ (p ⊗ (v ⊗ (x0 ⊕ x) ⊗ q)) ⊕ (t ⊕ t)).
  { unfold t. ring. }
  by rewrite bxor_self, bxor_0_r.
Qed.

Definition cauchy_weights (x0 y0 : u8) (xs v : list u8) : list u8 :=
  zip_with (fun x w => w ⊗ (x0 ⊕ x) ⊗ gf_inv (x ⊕ y0)) xs v.

Lemma cauchy_dot x0 y y0 xs v :
  y ∉ xs -> y0 ∉ xs ->
  (x0 ⊕ y) ⊗ dot (cauchy_row xs y) v ⊕ (x0 ⊕ y0) ⊗ dot (cauchy_row xs y0) v
  = (y ⊕ y0) ⊗ dot (cauchy_row xs y) (cauchy_weights x0 y0 xs v).
Proof.
  revert v. induction xs as [|x xs IH]; intros v Hy Hy0; simpl; [ring|].
  apply not_elem_of_cons in Hy as [Hy Hys]. apply not_elem_of_cons in Hy0 as [Hy0 Hy0s].
  destruct v as [|w v]; simpl; [ring|].
  rewrite (gf_distr_r (x0 ⊕ y)), (gf_distr_r (x0 ⊕ y0)), (gf_distr_r (y ⊕ y0)).
  rewrite <- IH, <- cauchy_term by done.
  rewrite !bxor_assoc. f_equal. rewrite <- !bxor_assoc. f_equal. apply bxor_comm.
Qed.

Lemma cauchy_weights_zero x0 y0 xs v :
  x0 ∉ xs -> y0 ∉ xs -> length v = length xs ->
  cauchy_weights x0 y0 xs v = replicate (length xs) O₂ -> v = replicate (length xs) O₂.
Proof.
  revert v. induction xs as [|x xs IH]; intros [|w v] Hx0 Hy0 Hl Hw; simpl in *; try done.
  apply not_elem_of_cons in Hx0 as [Hx Hxs]. apply not_elem_of_cons in Hy0 as [Hy Hys].
  injection Hw as Hw0 Hws. f_equal; [|apply IH; auto].
  apply gf_mul_eq_0 in Hw0 as [Hw0|Hw0].
  - apply gf_mul_eq_0 in Hw0 as [?|Hw0]; [done|]. by apply bxor_eq_0 in Hw0.
  - exfalso. apply (gf_inv_nonzero (x ⊕ y0)); [by apply bxor_neq|done].
Qed.

Lemma cauchy_nonsingular xs ys v :
  NoDup xs -> NoDup ys -> (forall x, x ∈ xs -> x ∉ ys) ->
  length ys = length xs -> length v = length xs ->
  (forall y, y ∈ ys -> dot (cauchy_row xs y) v = O₂) -> v = replicate (length xs) O₂.
Proof.
  revert ys v. induction xs as [|x0 xs IH]; intros [|y0 ys] [|v0 v] Hxs Hys Hdisj Hly Hlv Hz;
    simpl in *; try done.
  apply NoDup_cons in Hxs as [Hx0 Hxs]. apply NoDup_cons in Hys as [Hy0 Hys].
  injection Hly as Hly. injection Hlv as Hlv.
  assert (Hy0xs : y0 ∉ xs) by (intros H; by apply (Hdisj y0); [right|left]).
  (* clearing the denominator of the first column *)
  assert (Hclear : forall y, y ∈ y0 :: ys -> (x0 ⊕ y) ⊗ dot (cauchy_row xs y) v = v0).
  { intros y Hy. pose proof (Hz y Hy) as H0. apply bxor_eq_0 in H0.
    rewrite <- H0, gf_mul_assoc, gf_inv_r, gf_mul_1_l; [done|].
    apply bxor_neq. intros ->. by apply (Hdisj y); [left|]. }
  assert (Hv : v = replicate (length xs) O₂).
  { apply (cauchy_weights_zero x0 y0); [done..|]. apply (IH ys); try done.
    - intros x Hx Hxy. by apply (Hdisj x); right.
    - unfold cauchy_weights. rewrite length_zip_with. lia.
    - intros y Hy. assert (Hyxs : y ∉ xs) by (intros H; by apply (Hdisj y); right).
      pose proof (cauchy_dot x0 y y0 xs v Hyxs Hy0xs) as Hd.
      rewrite (Hclear y), (Hclear y0), bxor_self in Hd by (by left || by right).
      symmetry in Hd. apply gf_mul_eq_0 in Hd as [Hd|Hd]; [|done].
      apply bxor_eq_0 in Hd. by subst. }
  f_equal; [|done]. pose proof (Hclear y0 ltac:(by left)) as H0.
  rewrite Hv, dot_zero_r, gf_mul_0_r in H0. done.
Qed.

(** ** Positions and the code *)

Lemma elem_of_positions_from {A} (f : A -> bool) n l i :
  i ∈ positions_from f n l <-> (n <= i)%nat /\ exists a, l !! (i - n)%nat = Some a /\ f a = true.
Proof.
  revert n. induction l as [|a l IH]; intros n; simpl.
  { split; [intros H; inversion H|]. intros (_ & b & H & _). by rewrite lookup_nil in H. }
  assert (Hstep : i ∈ positions_from f (S n) l <->
    (n <= i)%nat /\ i <> n /\ exists b, (a :: l) !! (i - n)%nat = Some b /\ f b = true).
  { rewrite IH. split.
    - intros (Hle & b & Hb & Hf). split_and!; [lia|lia|]. exists b.
      replace (i - n)%nat with (S (i - S n)) by lia. done.
    - intros (Hle & Hne & b & Hb & Hf). split; [lia|]. exists b.
      replace (i - n)%nat with (S (i - S n)) in Hb by lia. done. }
  destruct (f a) eqn:Hfa; rewrite ?elem_of_cons, Hstep.
  - split.
    + intros [->|(? & ? & ?)]; [|done]. split; [done|]. exists a. by rewrite Nat.sub_diag.
    + intros (Hle & b & Hb & Hf). destruct (decide (i = n)); [by left|right]. eauto.
  - split; [intros (? & ? & ?); done|]. intros (Hle & b & Hb & Hf). split_and!; [done| |by eauto].
    intros ->. rewrite Nat.sub_diag in Hb. injection Hb as <-. congruence.
Qed.

Lemma elem_of_positions {A} (f : A -> bool) l i :
  i ∈ positions f l <-> exists a, l !! i = Some a /\ f a = true.
Proof.
  unfold positions. rewrite elem_of_positions_from, Nat.sub_0_r. split; [tauto|]. intros. split; [lia|done].
Qed.

Lemma NoDup_positions_from {A} (f : A -> bool) n l : NoDup (positions_from f n l).
Proof.
  revert n. induction l as [|a l IH]; intros n; simpl; [constructor|].
  destruct (f a); [|apply IH]. apply NoDup_cons. split; [|apply IH].
  rewrite elem_of_positions_from. intros [? _]. lia.
Qed.

Lemma length_positions_from {A} (f : A -> bool) n m l :
  length (positions_from f n l) = length (positions_from f m l).
Proof.
  revert n m. induction l as [|a l IH]; intros n m; simpl; [done|].
  destruct (f a); simpl; [f_equal|]; apply IH.
Qed.

Lemma length_positions_app {A} (f : A -> bool) l1 l2 :
  length (positions f (l1 ++ l2)) = (length (positions f l1) + length (positions f l2))%nat.
Proof.
  unfold positions. enough (forall n, length (positions_from f n (l1 ++ l2))
    = (length (positions_from f n l1) + length (positions_from f 0 l2))%nat) as H by apply H.
  induction l1 as [|a l1 IH]; intros n; simpl; [by apply length_positions_from|].
  destruct (f a); simpl; rewrite IH; done.
Qed.

Lemma length_positions_split {A} (l : list (option A)) :
  (length (positions is_none l) + length (positions is_some l))%nat = length l.
Proof.
  unfold positions. generalize 0%nat as n. induction l as [|[a|] l IH]; intros n; simpl; [done|..];
    rewrite <- (IH (S n)); lia.
Qed.

Lemma collect_map {E A B} (f : A -> outcome E B) (g : A -> B) l :
  (forall a, a ∈ l -> f a = Ok (g a)) -> collect f l = Ok (map g l).
Proof.
  induction l as [|a l IH]; intros H; simpl; [done|].
  rewrite H by by left. obind. rewrite IH by (intros; apply H; by right). done.
Qed.

Lemma none_lookup {A} (l : list (option A)) i :
  i ∈ positions is_none l <-> l !! i = Some None.
Proof.
  rewrite elem_of_positions. split; [by intros ([a|] & Hi & Hf)|]. intros. by exists None.
Qed.

(** Shard coordinates as field elements: distinct below 256. *)
Definition coord (k : nat) : u8 := z2b (Z.of_nat k).

Lemma coord_inj a b : (a < 256)%nat -> (b < 256)%nat -> coord a = coord b -> a = b.
Proof.
  intros Ha Hb H. apply (f_equal b2z) in H. unfold coord in H.
  rewrite !b2z_z2b_small in H by lia. lia.
Qed.

Definition cauchy (parity_shards data_index parity_index : nat) : u8 :=
  gf_inv (coord (parity_shards + data_index) ⊕ coord parity_index).

Lemma coefficient_Some i j p :
  (p + i <= 255)%nat -> (j < p)%nat -> nvst_cauchy_coefficient i j p = Some (cauchy p i j).
Proof.
  intros Hi Hj. unfold nvst_cauchy_coefficient.
  rewrite (proj2 (Nat.leb_le _ _) Hi). rewrite (proj2 (Nat.leb_le j 255)) by lia.
  rewrite !option_bind_Some. apply gf256_inverse_Some, bxor_neq.
  intros H. apply coord_inj in H; lia.
Qed.

(** The systematic code: parity shard [j] is the Cauchy combination of the
    data shards, byte by byte. *)
Definition column (D : list (list u8)) (b : nat) : list u8 := map (fun s => nth b s O₂) D.
Definition parity_shard (D : list (list u8)) (p L j : nat) : list u8 :=
  map (fun b => dot (map (fun i => cauchy p i j) (seq 0 (length D))) (column D b)) (seq 0 L).
Definition codeword (D : list (list u8)) (p L : nat) : list (list u8) :=
  D ++ map (parity_shard D p L) (seq 0 p).

(** [shards] is [codeword] with some shards erased. *)
Definition erased (shards : list (option (list u8))) (code : list (list u8)) : Prop :=
  Forall2 (fun s c => s = None \/ s = Some c) shards code.

Lemma length_parity_shard D p L j : length (parity_shard D p L j) = L.
Proof. unfold parity_shard. by rewrite length_map, length_seq. Qed.

Lemma parity_shard_nth D p L j b :
  (b < L)%nat ->
  parity_shard D p L j !! b = Some (dot (map (fun i => cauchy p i j) (seq 0 (length D))) (column D b)).
Proof.
  intros Hb. unfold parity_shard.
  change (map ?f) with (fmap (M:=list) f). rewrite list_lookup_fmap, lookup_seq_lt by done. done.
Qed.

(** ** Subtracting the known shards *)

Fixpoint known_sum (data : list (option (list u8))) (p i j b : nat) : u8 :=
  match data with
  | [] => O₂
  | None :: data => known_sum data p (S i) j b
  | Some known :: data => cauchy p i j ⊗ nth b known O₂ ⊕ known_sum data p (S i) j b
  end.

Lemma subtract_known_spec data i j p L recovered :
  Forall (fun s => forall k, s = Some k -> length k = L) data ->
  (p + i + length data <= 256)%nat -> (j < p)%nat -> length recovered = L ->
  exists out, subtract_known data i j p L recovered = Ok out /\ length out = L
    /\ forall b x, recovered !! b = Some x -> out !! b = Some (x ⊕ known_sum data p i j b).
Proof.
  intros Hall. revert i recovered.
  induction Hall as [|s data Hs Hall IH]; intros i recovered Hi Hj Hl; cbn [subtract_known known_sum].
  { exists recovered. split_and!; [done|done|]. intros b x Hx. by rewrite bxor_0_r. }
  simpl in Hi. destruct s as [known|]; [|apply IH; lia].
  pose proof (Hs known eq_refl) as Hk. rewrite coefficient_Some by lia. obind.
  rewrite Hk, Nat.min_id, (proj2 (Nat.leb_le _ _)) by lia. obind.
  rewrite !take_ge, drop_ge, app_nil_r by lia.
  destruct (IH (S i) (gf256_axpy recovered known (cauchy p i j))) as (out & -> & Hlo & Hout);
    [lia|done|by rewrite length_axpy|].
  exists out. split_and!; [done|done|]. intros b x Hx.
  pose proof (lookup_lt_Some _ _ _ Hx) as Hb.
  destruct (lookup_lt_is_Some_2 known b) as [y Hy]; [lia|].
  rewrite (Hout b (x ⊕ cauchy p i j ⊗ y)).
  - rewrite (nth_lookup_Some _ _ _ _ Hy). f_equal. ring.
  - rewrite axpy_eq. by apply xor_zip_lookup.
Qed.

(** Known and missing terms add up to the parity byte. *)
Lemma parity_split data D p i j b :
  Forall2 (fun s c => s = None \/ s = Some c) data D ->
  dot (map (fun i => cauchy p i j) (seq i (length D))) (column D b)
  = known_sum data p i j b
    ⊕ dot (map (fun i => cauchy p i j) (positions_from is_none i data))
          (map (fun k => nth b (nth (k - i) D []) O₂) (positions_from is_none i data)).
Proof.
  intros H. revert i. induction H as [|s c data D Hs H IH]; intros i; simpl; [done|].
  assert (Htail : forall l, (forall k, k ∈ l -> (S i <= k)%nat) ->
    map (fun k => nth b (nth (k - i) (c :: D) []) O₂) l = map (fun k => nth b (nth (k - S i) D []) O₂) l).
  { intros l Hl. apply List.map_ext_in. intros k Hk. rewrite <- list_elem_of_In in Hk.
    specialize (Hl k Hk). replace (k - i)%nat with (S (k - S i)) by lia. done. }
  rewrite IH. destruct Hs as [->| ->]; simpl.
  - rewrite Nat.sub_diag. rewrite Htail; [ring|].
    intros k Hk%elem_of_positions_from. lia.
  - rewrite Htail; [ring|]. intros k Hk%elem_of_positions_from. lia.
Qed.

(** ** Reconstruction *)

Lemma collect_ok {E A B} (f : A -> outcome E B) (P : A -> B -> Prop) l :
  (forall a, a ∈ l -> exists b, f a = Ok b /\ P a b) ->
  exists bs, collect f l = Ok bs /\ Forall2 P l bs.
Proof.
  induction l as [|a l IH]; intros H; simpl; [eauto|].
  destruct (H a ltac:(by left)) as (b & -> & Hb). obind.
  destruct IH as (bs & -> & Hbs); [intros; apply H; by right|]. obind. eauto.
Qed.

Lemma write_back_lookup g missing shards k :
  (k < length shards)%nat ->
  write_back shards missing (map g missing) !! k
  = if decide (k ∈ missing) then Some (Some (g k)) else shards !! k.
Proof.
  unfold write_back. revert shards.
  induction missing as [|i missing IH]; intros shards Hk; cbn [fold_left zip zip_with map].
  { rewrite decide_False; [done|]. apply not_elem_of_nil. }
  rewrite IH by (by rewrite length_insert). destruct (decide (k ∈ missing)).
  - by rewrite decide_True by (by right).
  - destruct (decide (k = i)) as [->|].
    + rewrite list_lookup_insert_eq by done. by rewrite decide_True by left.
    + rewrite list_lookup_insert_ne by done. by rewrite decide_False by set_solver.
Qed.

Lemma length_write_back shards missing recovered :
  length (write_back shards missing recovered) = length shards.
Proof.
  unfold write_back. revert shards recovered.
  induction missing as [|i missing IH]; intros shards [|r recovered]; simpl; try done.
  by rewrite IH, length_insert.
Qed.

Definition parity_row (p : nat) (missing : list nat) (j : nat) : list u8 :=
  map (fun i => cauchy p i j) missing.

Lemma parity_row_cauchy p missing j :
  parity_row p missing j = cauchy_row (map (fun i => coord (p + i)) missing) (coord j).
Proof. unfold parity_row, cauchy_row. by rewrite map_map. Qed.

(** The system the decoder starts from satisfies the invariant. *)
Lemma gauss_start (P : nat -> Prop) X L d p missing rows R0 :
  (d + p <= 255)%nat -> NoDup missing -> NoDup rows -> length rows = length missing ->
  (forall i, i ∈ missing -> (i < d)%nat) -> (forall j, j ∈ rows -> (j < p)%nat) ->
  shape (length missing) L R0 ->
  (forall r j s b x, P b -> rows !! r = Some j -> R0 !! r = Some s -> s !! b = Some x ->
     dot (parity_row p missing j) (X b) = x) ->
  gauss P (length missing) L X 0 (map (parity_row p missing) rows) R0.
Proof.
  intros Hsize Hnm Hnr Hrows Hi Hj HR Hsys. constructor.
  - split; [by rewrite length_map|]. apply Forall_map, Forall_forall. intros j _. simpl.
    unfold parity_row. by rewrite length_map.
  - done.
  - lia.
  - intros r m s b x HP Hm Hs Hx. change (map ?f) with (fmap (M:=list) f) in Hm.
    apply list_lookup_fmap_Some in Hm as (j & -> & Hr). by apply (Hsys r j s).
  - intros v Hv Hz.
    rewrite <- (length_map (fun i => coord (p + i)) missing) in Hv |- *.
    apply (cauchy_nonsingular _ (map coord rows)); [..|done|].
    + apply (NoDup_fmap_2_strong (fun i => coord (p + i))); [|done].
      intros a b Ha%Hi Hb%Hi Heq. apply coord_inj in Heq; lia.
    + apply (NoDup_fmap_2_strong coord); [|done].
      intros a b Ha%Hj Hb%Hj Heq. apply coord_inj in Heq; lia.
    + intros x Hx Hx'. apply list_elem_of_In, in_map_iff in Hx as (i & <- & Him), Hx' as (j & Heq & Hjr).
      apply list_elem_of_In in Him, Hjr. apply Hi in Him. apply Hj in Hjr.
      apply coord_inj in Heq; lia.
    + by rewrite !length_map.
    + intros y Hy. apply list_elem_of_In, in_map_iff in Hy as (j & <- & Hjr).
      rewrite <- parity_row_cauchy. apply list_elem_of_In, list_elem_of_lookup in Hjr as [r Hr].
      apply (Hz r). change (map ?f) with (fmap (M:=list) f). by rewrite list_lookup_fmap, Hr.
Qed.

Lemma coefficient_matrix_ok d p missing rows :
  (d + p <= 255)%nat ->
  (forall i, i ∈ missing -> (i < d)%nat) -> (forall j, j ∈ rows -> (j < p)%nat) ->
  coefficient_matrix missing rows p = Ok (map (parity_row p missing) rows).
Proof.
  intros Hsize Hm Hr. unfold coefficient_matrix, parity_row. apply collect_map. intros j Hj.
  apply collect_map. intros i Hi. specialize (Hm i Hi). specialize (Hr j Hj).
  rewrite coefficient_Some by lia. done.
Qed.

(** Distinct positions make a list a function of them. *)
Lemma functional_rows {A} (missing : list nat) (R : list (list A)) :
  NoDup missing -> length R = length missing -> exists g, R = map g missing.
Proof.
  revert R. induction missing as [|i missing IH]; intros [|r R] Hnd Hl; simpl in *; try done.
  { by exists (fun _ => []). }
  apply NoDup_cons in Hnd as [Hni Hnd]. destruct (IH R Hnd) as [g ->]; [lia|].
  exists (fun k => if decide (k = i) then r else g k). rewrite decide_True by done. f_equal.
  apply List.map_ext_in. intros k Hk. rewrite decide_False; [done|]. intros ->.
  apply Hni. by apply list_elem_of_In.
Qed.

(** [shards] is a codeword with erasures as far as the bytes [K] are
    concerned: the received data shards are the sender's, the received parity
    shards agree with the code on [K].  (The RTP envelope of a parity packet is
    its own, not parity.) *)
Record erased_on (K : nat -> Prop) (D : list (list u8)) (p L : nat)
    (shards : list (option (list u8))) : Prop := {
  eo_len : length shards = (length D + p)%nat;
  eo_data : forall i s, (i < length D)%nat -> shards !! i = Some (Some s) -> D !! i = Some s;
  eo_parity : forall j s, shards !! (length D + j)%nat = Some (Some s) ->
    length s = L /\ forall b, K b -> s !! b = parity_shard D p L j !! b
}.

Section reconstruct.
Context (K : nat -> Prop) (D : list (list u8)) (p L : nat) (shards : list (option (list u8))).
Let d := length D.
Let known := take d shards.
Let missing := positions is_none known.
Let rows := take (length missing) (positions is_some (drop d shards)).
Hypothesis Hd : (1 <= d)%nat.
Hypothesis Hp : (1 <= p)%nat.
Hypothesis Hsize : (d + p <= 255)%nat.
Hypothesis HD : Forall (fun s => length s = L) D.
Hypothesis Hshards : erased_on K D p L shards.

Lemma missing_spec i : i ∈ missing <-> (i < d)%nat /\ shards !! i = Some None.
Proof.
  unfold missing. rewrite none_lookup. unfold known. rewrite lookup_take_Some. tauto.
Qed.

Lemma known_data : Forall2 (fun s c => s = None \/ s = Some c) known D.
Proof.
  apply Forall2_lookup. intros i. pose proof (eo_len _ _ _ _ _ Hshards) as Hl. unfold known.
  destruct (decide (i < d)%nat) as [Hi|Hi].
  - rewrite lookup_take_lt by done. destruct (lookup_lt_is_Some_2 D i Hi) as [c Hc].
    destruct (lookup_lt_is_Some_2 shards i) as [[s|] Hs]; [lia| |]; rewrite Hs, Hc; constructor; [|by left].
    right. pose proof (eo_data _ _ _ _ _ Hshards i s Hi Hs). congruence.
  - rewrite !lookup_ge_None_2; [constructor|lia|rewrite length_take; lia].
Qed.

Lemma rows_spec j : j ∈ rows -> (j < p)%nat /\ exists s, shards !! (d + j)%nat = Some (Some s)
  /\ length s = L /\ forall b, K b -> s !! b = parity_shard D p L j !! b.
Proof.
  intros Hj. unfold rows in Hj.
  apply (subseteq_take (length missing)), elem_of_positions in Hj as ([s|] & Hs & Hf); [|done].
  rewrite lookup_drop in Hs. pose proof (lookup_lt_Some _ _ _ Hs) as Hlt.
  rewrite (eo_len _ _ _ _ _ Hshards) in Hlt. split; [unfold d in Hlt; lia|].
  exists s. split; [done|]. by apply (eo_parity _ _ _ _ _ Hshards).
Qed.

Lemma NoDup_rows : NoDup rows.
Proof.
  unfold rows. eapply sublist_NoDup; [apply (NoDup_positions_from is_some 0 (drop d shards))|].
  apply sublist_take.
Qed.

(** Enough shards are exactly enough parity rows. *)
Lemma length_rows :
  (length rows =? length missing)%nat = (d <=? length (positions is_some shards))%nat.
Proof.
  pose proof (length_positions_split known) as H1.
  pose proof (length_positions_app is_some known (drop d shards)) as H2.
  unfold known in H2 at 1. rewrite take_drop in H2. fold missing in H1.
  unfold known in H1 at 2. rewrite length_take, (eo_len _ _ _ _ _ Hshards) in H1. fold d in H1.
  unfold rows. rewrite length_take.
  destruct (Nat.eqb_spec (length missing `min` length (positions is_some (drop d shards))) (length missing)),
    (Nat.leb_spec d (length (positions is_some shards))); done || lia.
Qed.

(** The parity shards of the chosen rows, before and after subtracting the
    known data. *)
Lemma selected_parity_ok :
  exists R1, selected_parity shards d L rows = Ok R1
    /\ Forall2 (fun j s => length s = L /\ forall b, K b -> s !! b = parity_shard D p L j !! b) rows R1.
Proof.
  unfold selected_parity. apply collect_ok. intros j Hj. destruct (rows_spec j Hj) as (_ & s & Hs & Hl & HK).
  rewrite Hs. cbn [expect]. obind. cbn [expect]. obind. exists s.
  rewrite resize_exact by lia. done.
Qed.

Lemma subtracted_ok R1 :
  Forall2 (fun j s => length s = L /\ forall b, K b -> s !! b = parity_shard D p L j !! b) rows R1 ->
  exists R0, collect (fun '(bytes, parity_index) => subtract_known known 0 parity_index p L bytes)
      (zip R1 rows) = Ok R0
    /\ length R0 = length rows
    /\ forall r j s, rows !! r = Some j -> R0 !! r = Some s -> length s = L
        /\ forall b x, K b -> parity_shard D p L j !! b = Some x ->
             s !! b = Some (x ⊕ known_sum known p 0 j b).
Proof.
  intros HR. destruct (collect_ok (fun '(bytes, parity_index) => subtract_known known 0 parity_index p L bytes)
    (fun bj out => length out = L /\ forall b x, bj.1 !! b = Some x ->
       out !! b = Some (x ⊕ known_sum known p 0 bj.2 b)) (zip R1 rows)) as (R0 & HR0 & Hout).
  { intros [bytes j] Hbj. apply list_elem_of_lookup in Hbj as [r Hr]. apply lookup_zip_Some in Hr as [Hb Hj].
    destruct (Forall2_lookup_lr _ _ _ _ _ _ HR Hj Hb) as [Hl _].
    apply list_elem_of_lookup_2, rows_spec in Hj as [Hj _].
    destruct (subtract_known_spec known 0 j p L bytes) as (out & -> & Hlo & Hx); eauto.
    - apply Forall_lookup. intros k o Ho s ->.
      destruct (Forall2_lookup_l _ _ _ _ _ known_data Ho) as (c & Hc & [?|[= <-]]); [done|].
      by eapply (Forall_lookup_1 (fun s => length s = L)).
    - unfold known. rewrite length_take. fold d in Hsize. lia. }
  exists R0. split; [done|]. pose proof (Forall2_length _ _ _ HR) as Hl1.
  pose proof (Forall2_length _ _ _ Hout) as Hl0. rewrite length_zip_with in Hl0. split; [lia|].
  intros r j s Hj Hs. destruct (Forall2_lookup_l _ _ _ _ _ HR Hj) as (s1 & Hs1 & _ & HK).
  destruct (Forall2_lookup_r _ _ _ _ _ Hout Hs) as ([s1' j'] & Hz & Hls & Hx).
  apply lookup_zip_Some in Hz as [Hz1 Hz2]. rewrite Hs1 in Hz1. rewrite Hj in Hz2.
  injection Hz1 as <-. injection Hz2 as <-. split; [done|]. intros b x Hb Hpar. apply Hx. simpl.
  by rewrite HK.
Qed.

(** The vector of unknowns at byte [b]. *)
Definition unknowns (b : nat) : list u8 := map (fun i => nth b (nth i D []) O₂) missing.

Lemma codeword_start R0 :
  length rows = length missing -> length R0 = length rows ->
  (forall r j s, rows !! r = Some j -> R0 !! r = Some s -> length s = L
     /\ forall b x, K b -> parity_shard D p L j !! b = Some x ->
          s !! b = Some (x ⊕ known_sum known p 0 j b)) ->
  gauss K (length missing) L unknowns 0 (map (parity_row p missing) rows) R0.
Proof.
  intros Hrows Hl0 HR. apply (gauss_start K _ _ d); try done.
  - apply NoDup_positions_from.
  - apply NoDup_rows.
  - by intros i [Hi _]%missing_spec.
  - by intros j [Hj _]%rows_spec.
  - split; [lia|]. apply Forall_forall. intros s [r Hs]%list_elem_of_lookup.
    destruct (lookup_lt_is_Some_2 rows r) as [j Hj]; [rewrite <- Hl0; by eapply lookup_lt_Some|].
    by destruct (HR r j s Hj Hs).
  - intros r j s b x Hb Hj Hs Hx. destruct (HR r j s Hj Hs) as (Hl & Hout).
    assert (HbL : (b < L)%nat) by (rewrite <- Hl; by eapply lookup_lt_Some).
    pose proof (parity_shard_nth D p L j b HbL) as Hpar. rewrite (Hout b _ Hb Hpar) in Hx.
    injection Hx as <-. rewrite (parity_split known D p 0 j b known_data). fold missing.
    unfold parity_row, unknowns.
    rewrite (List.map_ext (fun k => nth b (nth (k - 0) D []) O₂) (fun k => nth b (nth k D []) O₂))
      by (intros; by rewrite Nat.sub_0_r).
    set (t := known_sum _ _ _ _ _). set (u := dot _ _).
    transitivity (u ⊕ (t ⊕ t)); [by rewrite bxor_self, bxor_0_r|]. ring.
Qed.

Lemma solved_shards M R r s i c :
  gauss K (length missing) L unknowns (length missing) M R ->
  missing !! r = Some i -> R !! r = Some s -> D !! i = Some c ->
  length s = L /\ forall b, K b -> s !! b = c !! b.
Proof.
  intros Hg Hi Hs Hc. pose proof (ga_R _ _ _ _ _ _ _ Hg) as HR.
  assert (Hsl : length s = L).
  { destruct (shape_row _ _ _ r HR) as (s' & Hs' & ?); [by eapply lookup_lt_Some|]. congruence. }
  split; [done|]. intros b Hb. pose proof (Forall_lookup_1 _ _ _ _ HD Hc) as Hcl. simpl in Hcl.
  destruct (decide (b < L)%nat) as [HbL|]; [|by rewrite !lookup_ge_None_2 by lia].
  destruct (lookup_lt_is_Some_2 s b) as [x Hx]; [lia|]. destruct (lookup_lt_is_Some_2 c b) as [y Hy]; [lia|].
  pose proof (gauss_solved _ _ _ _ _ _ r s b x Hg Hb) as Hsol.
  unfold unknowns in Hsol. change (map ?f) with (fmap (M:=list) f) in Hsol.
  rewrite list_lookup_fmap, Hi in Hsol. simpl in Hsol.
  rewrite (nth_lookup_Some _ _ _ _ Hc), (nth_lookup_Some _ _ _ _ Hy) in Hsol.
  rewrite Hx, Hy. symmetry. apply Hsol; try done. intros. by rewrite length_fmap.
Qed.

Lemma reconstruct_on :
  if (d <=? length (positions is_some shards))%nat then
    exists out, reconstruct_nvst_cauchy_data shards d p L = Ok out
      /\ length out = length shards
      /\ (forall i s, shards !! i = Some (Some s) -> out !! i = Some (Some s))
      /\ (forall i, (d <= i)%nat -> out !! i = shards !! i)
      /\ (forall i c, D !! i = Some c -> exists s, out !! i = Some (Some s)
            /\ length s = L /\ forall b, K b -> s !! b = c !! b)
  else reconstruct_nvst_cauchy_data shards d p L = Err fec_error.
Proof.
  pose proof (eo_len _ _ _ _ _ Hshards) as Hls. fold d in Hls. rewrite <- length_rows.
  unfold reconstruct_nvst_cauchy_data.
  rewrite (proj2 (Nat.eqb_neq d 0)), (proj2 (Nat.eqb_neq p 0)), (proj2 (Nat.ltb_ge 255 (d + p)%nat)) by lia.
  rewrite Hls, Nat.eqb_refl. cbn [orb negb guard_err]. obind. fold known missing. rewrite <- Hls.
  assert (Hkept : forall i c, i ∉ missing -> D !! i = Some c -> shards !! i = Some (Some c)).
  { intros i c Hni Hc. destruct (Forall2_lookup_r _ _ _ _ _ known_data Hc) as (o & Ho & Hos).
    apply lookup_take_Some in Ho as [Ho Hi]. destruct Hos as [->| ->]; [|done].
    exfalso. by apply Hni, missing_spec. }
  assert (HDL : forall i c, D !! i = Some c -> length c = L).
  { intros i c Hc. by apply (Forall_lookup_1 _ _ _ _ HD Hc). }
  case_decide as Hm.
  { unfold rows. rewrite Hm. simpl. exists shards. split_and!; try done. intros i c Hc. exists c.
    split; [|by eauto]. apply Hkept; [|done]. rewrite Hm. apply not_elem_of_nil. }
  fold rows. destruct (Nat.eqb_spec (length rows) (length missing)) as [Hrows|]; [|done].
  cbn [negb guard_err]. obind.
  rewrite (coefficient_matrix_ok d) by (done || (intros i [Hi _]%missing_spec; done) || (intros j [? _]%rows_spec; done)).
  obind. destruct selected_parity_ok as (R1 & -> & HR1). obind.
  destruct (subtracted_ok R1 HR1) as (R0 & -> & Hl0 & HR0). obind.
  destruct (reduce_loop _ _ _ _ (length missing) 0 _ _ (codeword_start R0 Hrows Hl0 HR0))
    as (M1 & Rf & -> & Hg); [done|]. obind. cbn [snd].
  pose proof (proj1 (ga_R _ _ _ _ _ _ _ Hg)) as HlR.
  destruct (functional_rows missing Rf) as [g Hg']; [apply NoDup_positions_from|done|].
  assert (Hout : forall k, (k < length shards)%nat ->
    write_back shards missing Rf !! k = if decide (k ∈ missing) then Some (Some (g k)) else shards !! k).
  { intros k Hk. rewrite Hg'. by apply write_back_lookup. }
  exists (write_back shards missing Rf). split; [done|]. split; [by rewrite length_write_back|]. split_and!.
  - intros i s Hs. rewrite Hout by by eapply lookup_lt_Some.
    rewrite decide_False; [done|]. intros [_ Hi]%missing_spec. congruence.
  - intros i Hi. destruct (decide (i < length shards)%nat).
    + rewrite Hout by done. rewrite decide_False; [done|]. intros [? _]%missing_spec. lia.
    + rewrite !lookup_ge_None_2; [done|lia|rewrite length_write_back; lia].
  - intros i c Hc. pose proof (lookup_lt_Some _ _ _ Hc). rewrite Hout by (fold d in H; lia).
    case_decide as Hin; [|exists c; split; [by apply Hkept|by eauto]].
    exists (g i). split; [done|]. apply list_elem_of_lookup in Hin as [r Hr].
    apply (solved_shards M1 Rf r (g i) i c Hg Hr); [|done]. rewrite Hg'.
    change (map g) with (fmap (M:=list) g). by rewrite list_lookup_fmap, Hr.
Qed.
End reconstruct.

(** On arbitrary shards of the right length (a corrupted block included) the
    decoder never panics; it keeps the received shards and fills in all data
    shards, or refuses. *)
Lemma reconstruct_total d p L shards :
  length shards = (d + p)%nat -> Forall (fun s => forall k, s = Some k -> length k = L) shards ->
  reconstruct_nvst_cauchy_data shards d p L = Err fec_error
  \/ exists out, reconstruct_nvst_cauchy_data shards d p L = Ok out
    /\ length out = (d + p)%nat
    /\ (forall i s, shards !! i = Some (Some s) -> out !! i = Some (Some s))
    /\ (forall i, (i < d)%nat -> exists s, out !! i = Some (Some s) /\ length s = L).
Proof.
  intros Hls Hall.
  destruct ((d =? 0)%nat || (p =? 0)%nat || (255 <? d + p)%nat) eqn:E.
  { left. unfold reconstruct_nvst_cauchy_data. by rewrite E. }
  apply orb_false_iff in E as [E E3]. apply orb_false_iff in E as [E1 E2].
  apply Nat.eqb_neq in E1, E2. apply Nat.ltb_ge in E3.
  (* any data consistent with the received data shards will do *)
  set (D := map (default (replicate L O₂)) (take d shards)).
  assert (HDl : length D = d) by (unfold D; rewrite length_map, length_take; lia).
  assert (HDi : forall i o, (i < d)%nat -> shards !! i = Some o -> D !! i = Some (default (replicate L O₂) o)).
  { intros i o Hi Ho. unfold D. change (map ?f) with (fmap (M:=list) f).
    by rewrite list_lookup_fmap, lookup_take_lt, Ho by done. }
  pose proof (reconstruct_on (fun _ => False) D p L shards) as Hon. rewrite HDl in Hon.
  specialize (Hon ltac:(lia) ltac:(lia) E3).
  assert (HL : Forall (fun s => length s = L) D).
  { unfold D. apply Forall_map, Forall_take, (Forall_impl _ _ _ Hall). intros [k|] Hk; simpl; [by apply Hk|].
    apply length_replicate. }
  specialize (Hon HL). destruct (d <=? _)%nat.
  - right. destruct Hon as (out & Hrec & Hlo & Hkeep & _ & Hdata).
    + constructor; rewrite ?HDl; [done| |].
      * intros i s Hi Hs. by rewrite (HDi i _ Hi Hs).
      * intros j s Hs. split; [by apply (Forall_lookup_1 _ _ _ _ Hall Hs)|done].
    + exists out. split_and!; [done|lia|done|]. intros i Hi.
      destruct (lookup_lt_is_Some_2 D i) as [c Hc]; [lia|].
      destruct (Hdata i c Hc) as (s & Hs & Hsl & _). eauto.
  - left. apply Hon. constructor; rewrite ?HDl; [done| |].
    + intros i s Hi Hs. by rewrite (HDi i _ Hi Hs).
    + intros j s Hs. split; [by apply (Forall_lookup_1 _ _ _ _ Hall Hs)|done].
Qed.

Lemma erased_codeword D p L shards :
  erased shards (codeword D p L) -> erased_on (fun _ => True) D p L shards.
Proof.
  intros H. pose proof (Forall2_length _ _ _ H) as Hl. unfold codeword in Hl.
  rewrite length_app, length_map, length_seq in Hl. constructor; [done|..].
  - intros i s Hi Hs. destruct (Forall2_lookup_l _ _ _ _ _ H Hs) as (c & Hc & [?|[= <-]]); [done|].
    unfold codeword in Hc. by rewrite lookup_app_l in Hc.
  - intros j s Hs. destruct (Forall2_lookup_l _ _ _ _ _ H Hs) as (c & Hc & [?|[= <-]]); [done|].
    unfold codeword in Hc. rewrite lookup_app_r in Hc by lia.
    replace (length D + j - length D)%nat with j in Hc by lia.
    change (map ?f) with (fmap (M:=list) f) in Hc. apply list_lookup_fmap_Some in Hc as (k & -> & Hk).
    apply lookup_seq in Hk as [-> ?]. simpl. split; [apply length_parity_shard|done].
Qed.

(** C10: Reed-Solomon decoding is exact.  Whenever a block's shards are a
    codeword of the systematic Cauchy code with any set of shards erased,
    [reconstruct_nvst_cauchy_data] restores every data shard byte for byte if at
    least as many shards survive as there are data shards, and otherwise
    answers [FecRepair]; it never panics and never returns wrong data. *)
Theorem reconstruct_correct (D : list (list u8)) (p L : nat) (shards : list (option (list u8)))
    (Hdata : (1 <= length D)%nat) (Hparity : (1 <= p)%nat) (Hsize : (length D + p <= 255)%nat)
    (Hlen : Forall (fun s => length s = L) D) (Hcode : erased shards (codeword D p L)) :
  reconstruct_nvst_cauchy_data shards (length D) p L
  = if (length D <=? length (positions is_some shards))%nat
    then Ok (map Some D ++ drop (length D) shards) else Err fec_error.
Proof.
  pose proof (reconstruct_on _ D p L shards Hdata Hparity Hsize Hlen (erased_codeword _ _ _ _ Hcode)) as H.
  destruct (_ <=? _)%nat; [|done]. destruct H as (out & -> & Hlo & _ & Hrest & Hout). f_equal.
  apply list_eq. intros i. change (map Some) with (fmap (M:=list) (@Some (list u8))).
  destruct (decide (i < length D)%nat) as [Hi|Hi].
  - destruct (lookup_lt_is_Some_2 D i Hi) as [c Hc]. destruct (Hout i c Hc) as (s & -> & _ & Hs).
    rewrite lookup_app_l, list_lookup_fmap, Hc by (by rewrite length_fmap). simpl. do 2 f_equal.
    apply list_eq. intros b. by apply Hs.
  - rewrite Hrest by lia. rewrite lookup_app_r, length_fmap, lookup_drop by (rewrite length_fmap; lia).
    f_equal. lia.
Qed.

(** Three data shards of two bytes, two parity shards; the first and the third
    data shards are lost. *)
Definition sample_data : list (list u8) :=
  [[Byte.x12; Byte.x34]; [Byte.x56; Byte.x78]; [Byte.x9a; Byte.xbc]].
Definition sample_shards : list (option (list u8)) :=
  <[0%nat := None]> (<[2%nat := None]> (map Some (codeword sample_data 2 2))).

Lemma reconstruct_correct_witness :
  reconstruct_nvst_cauchy_data sample_shards 3 2 2
  = Ok (map Some sample_data ++ drop 3 sample_shards).
Proof.
  assert (H : (3 <=? length (positions is_some sample_shards))%nat = true) by reflexivity.
  pose proof (reconstruct_correct sample_data 2 2 sample_shards) as Hr.
  change (length sample_data) with 3%nat in Hr. rewrite H in Hr. apply Hr; [lia|lia|lia|..].
  - repeat constructor.
  - unfold erased, sample_shards, codeword, sample_data. simpl.
    repeat first [apply Forall2_nil_2 | apply Forall2_cons_2; [first [by left | by right]|]].
Defined.
