(* ===== verification/Fec.v ===== *)
(** * FEC blocks and the FEC reorder buffer

    [FecBlock] and [FecReorderBuffer] of [nvst.rs]: shards are collected per
    block, a block with enough of them is repaired with [Cauchy] and its data
    packets delivered in block order; an incomplete head block waits at most
    52 ms, with a NACK for its first missing run, before it is given up. *)

From Stdlib Require Import Sorting.Sorted.
From S2P Require Import Prelude Types Rtp BTree Gf256 Cauchy Reorder.

Definition MAX_PENDING_FEC_BLOCKS : Z := 128.
Definition NVST_FEC_RTP_HEADER_ALLOWANCE : Z := 16.

(** [iter().take_while(f)] *)
Fixpoint take_while {A} (f : A -> bool) (l : list A) : list A :=
  match l with
  | [] => []
  | a :: l => if f a then a :: take_while f l else []
  end.

(** [iter().flatten()] on options. *)
Definition flatten {A} (l : list (option A)) : list A := omap id l.

Module FecBlock.

Record t := {
  layout : FecPacketLayout.t;
  base_index : Z;
  shards : list (option RtpPacket);
  repair_failed : bool
}.

Definition new (layout : FecPacketLayout.t) (packet_index : Z) : t := {|
  layout := layout;
  base_index := saturating_sub packet_index (FecPacketLayout.shard_index layout);
  shards := replicate (Z.to_nat (FecPacketLayout.data_shards layout
    + FecPacketLayout.parity_shards layout)) None;
  repair_failed := false
|}.

Definition matches (self : t) (other : FecPacketLayout.t) (packet_index : Z) : bool :=
  (FecPacketLayout.frame_index (layout self) =? FecPacketLayout.frame_index other)
  && (FecPacketLayout.block_index (layout self) =? FecPacketLayout.block_index other)
  && (FecPacketLayout.last_block_index (layout self) =? FecPacketLayout.last_block_index other)
  && (FecPacketLayout.data_shards (layout self) =? FecPacketLayout.data_shards other)
  && (FecPacketLayout.parity_shards (layout self) =? FecPacketLayout.parity_shards other)
  && (base_index self =? saturating_sub packet_index (FecPacketLayout.shard_index other)).

(** [&self.shards[..self.layout.data_shards]] *)
Definition data_slots (self : t) : outcome NvstDropReason (list (option RtpPacket)) :=
  slice (shards self) 0 (FecPacketLayout.data_shards (layout self)).

Definition missing_data_range (self : t) : outcome NvstDropReason (option (Z * Z)) :=
  slots ← data_slots self;
  mret (first ← head (positions is_none slots);
        let last := default first (last (positions is_none slots)) in
        Some (base_index self + Z.of_nat first, base_index self + Z.of_nat last)).

Definition first_missing_data_run (self : t) : outcome NvstDropReason (option (Z * Z)) :=
  slots ← data_slots self;
  mret (first ← head (positions is_none slots);
        let length := zlen (take_while is_none (drop first slots)) in
        Some (base_index self + Z.of_nat first,
              base_index self + Z.of_nat first + saturating_sub length 1)).

Definition insert (self : t) (other : FecPacketLayout.t) (packet : RtpPacket)
    : outcome NvstDropReason (t * option NvstDropReason) :=
  slot ← (shards self).[FecPacketLayout.shard_index other];
  if is_some slot then mret (self, Some (DuplicateRtpPacket (pk_index packet))) else
  shards' ← set_idx (shards self) (FecPacketLayout.shard_index other) (Some packet);
  mret (self <| shards := shards' |> <| repair_failed := false |>, None).

Definition has_enough_shards (self : t) : bool :=
  FecPacketLayout.data_shards (layout self) <=? zlen (flatten (shards self)).

(** The loop body of [finish] for one recovered data shard. *)
Definition restore_shard (self : t) (extension_start : Z) (template_rtp_envelope : list u8)
    (slots : list (option RtpPacket)) (item : Z * option (list u8))
    : outcome NvstDropReason (list (option RtpPacket)) :=
  let '(index, shard) := item in
  slot ← slots.[index];
  if is_some slot then mret slots else
  plaintext ← ok_or shard fec_error;
  guard_err (zlen plaintext <? extension_start + NV_VIDEO_PACKET_LEN)
    (MalformedRtp InvalidExtensionLength);;
  let sequence := as_u16 (base_index self + index) in
  plaintext ← set_slice plaintext 0 extension_start template_rtp_envelope;
  plaintext ← set_slice plaintext 2 4 (to_be_bytes 2 sequence);
  plaintext ← set_slice plaintext (extension_start + 4) (extension_start + 8)
    (to_le_bytes 4 (FecPacketLayout.frame_index (layout self)));
  plaintext ← set_idx plaintext (extension_start + 11)
    (z2b (Z.lor (Z.shiftl (FecPacketLayout.last_block_index (layout self)) 6)
                (Z.shiftl (FecPacketLayout.block_index (layout self)) 4)));
  header ← map_err MalformedRtp (RtpHeader.parse plaintext);
  gs ← ok_or (RtpHeader.gs_video_header header) (MalformedRtp MissingNvVideoHeader);
  flag_byte ← gs.[8];
  let flags := Z.land (b2z flag_byte) 0x0f in
  let invalid_flags :=
    negb (Z.land flags (255 - Z.lor FLAG_SOF (Z.lor FLAG_EOF FLAG_CONTAINS_PIC_DATA)) =? 0) in
  guard_err invalid_flags fec_error;;
  set_idx slots index (Some {| pk_index := base_index self + index; pk_header := header;
    pk_plaintext := plaintext; pk_origin := RecoveredData |}).

Definition finish (self : t) (shard_len : Z)
    : outcome NvstDropReason (list RtpPacket * Z) :=
  slots ← data_slots self;
  let missing_data := zlen (List.filter is_none slots) in
  if missing_data =? 0 then mret (flatten slots, 0) else
  guard_err (existsb (fun packet => shard_len <? zlen (pk_plaintext packet))
    (flatten (shards self))) fec_error;;
  template ← ok_or (head (flatten (shards self))) fec_error;
  let template_header := pk_header template in
  let shard_bytes :=
    map (option_map (fun packet => resize (pk_plaintext packet) shard_len Byte.x00)) (shards self) in
  shard_bytes ← reconstruct_nvst_cauchy_data shard_bytes
    (Z.to_nat (FecPacketLayout.data_shards (layout self)))
    (Z.to_nat (FecPacketLayout.parity_shards (layout self))) (Z.to_nat shard_len);
  extension_start ← ok_or (checked_sub (RtpHeader.payload_offset template_header) NV_VIDEO_PACKET_LEN)
    (MalformedRtp InvalidExtensionLength);
  template_rtp_envelope ← slice (pk_plaintext template) 0 extension_start;
  recovered ← slice shard_bytes 0 (FecPacketLayout.data_shards (layout self));
  shards' ← ofold (restore_shard self extension_start template_rtp_envelope)
    (zip (zrange (length recovered)) recovered) (shards self);
  slots ← slice shards' 0 (FecPacketLayout.data_shards (layout self));
  mret (flatten slots, missing_data).

End FecBlock.

Module FecReorderBuffer.

Record t := {
  blocks : BTreeMap.t FecBlock.t;
  completed_through : option Z;
  gap_wait : option (Z * Z);
  shard_len : Z
}.

Definition new (video_packet_size : Z) : t := {|
  blocks := BTreeMap.empty;
  completed_through := None;
  gap_wait := None;
  shard_len := video_packet_size + NVST_FEC_RTP_HEADER_ALLOWANCE
|}.

Definition reset (self : t) : t :=
  self <| blocks := BTreeMap.empty |> <| completed_through := None |> <| gap_wait := None |>.

(** The wait bookkeeping the two gap branches share: the moment the wait for
    [waiting_for] began. *)
Definition wait_since (self : t) (missing now : Z) : t * Z :=
  match gap_wait self with
  | Some (waiting_for, started) =>
      if waiting_for =? missing then (self, started)
      else (self <| gap_wait := Some (missing, now) |>, now)
  | None => (self <| gap_wait := Some (missing, now) |>, now)
  end.

Definition keep_waiting (self : t) (now started span : Z) : bool :=
  (saturating_duration_since now started <? MJOLNIR_REORDER_DEQUEUE_TIMEOUT)
  && (span <? MAX_REORDER_WINDOW) && (BTreeMap.len (blocks self) <? MAX_PENDING_FEC_BLOCKS).

Definition block_end (base : Z) (block : FecBlock.t) : Z :=
  base + (FecPacketLayout.data_shards (FecBlock.layout block)
          + FecPacketLayout.parity_shards (FecBlock.layout block)).

(** One iteration of the [loop] of [push]: [inl] leaves the loop, [inr]
    continues. *)
Definition step (self : t) (now : Z) (result : ReorderResult)
    : outcome NvstDropReason (t * ReorderResult + t * ReorderResult) :=
  match BTreeMap.first_key_value (blocks self) with
  | None => mret (inl (self <| gap_wait := None |>, result))
  | Some (base, block) =>
      let expected := default base (completed_through self) in
      if expected <? base then
        let result := result <| nack := Some (expected, base - 1) |> in
        let '(self, started) := wait_since self expected now in
        if keep_waiting self now started (saturating_sub base expected)
        then mret (inl (self, result))
        else
          mret (inr (self <| completed_through := Some base |> <| gap_wait := None |>,
                     result <| recovery := Some (PacketGap expected (base - 1)) |>
                            <| ready := [] |> <| nack := None |>))
      else if FecBlock.has_enough_shards block && negb (FecBlock.repair_failed block) then
        let self := self <| blocks ::= BTreeMap.remove base |> in
        missing ← FecBlock.missing_data_range block;
        let repair_backup := match missing with Some _ => Some block | None => None end in
        match FecBlock.finish block (shard_len self) with
        | Panic => Panic
        | Ok (new_ready, repaired) =>
            mret (inr (self <| completed_through := Some (block_end base block) |>
                            <| gap_wait := None |>,
                       result <| ready ::= (fun ready => ready ++ new_ready) |>
                              <| fec_repaired ::= (fun n => n + repaired) |>))
        | Err reason =>
            pending ← expect repair_backup;
            let pending := pending <| FecBlock.repair_failed := true |> in
            run ← FecBlock.first_missing_data_run pending;
            run ← expect run;
            mret (inl (self <| blocks ::= BTreeMap.insert base pending |>
                            <| gap_wait := Some (run.1, now) |>,
                       result <| nack := Some run |>))
        end
      else if BTreeMap.len (blocks self) =? 1 then mret (inl (self, result))
      else
        run ← FecBlock.first_missing_data_run block;
        run ← expect run;
        let result := result <| nack := Some run |> in
        let '(self, started) := wait_since self run.1 now in
        let block_span := match BTreeMap.last_key_value (blocks self) with
          | Some (last_base, _) => saturating_sub last_base base
          | None => 0
          end in
        if keep_waiting self now started block_span then mret (inl (self, result)) else
        range ← FecBlock.missing_data_range block;
        range ← expect range;
        mret (inr (self <| blocks ::= BTreeMap.remove base |>
                        <| completed_through := Some (block_end base block) |>
                        <| gap_wait := None |>,
                   result <| recovery := Some (PacketGap range.1 range.2) |>
                          <| ready := [] |> <| nack := None |>))
  end.

Fixpoint loop (fuel : nat) (self : t) (now : Z) (result : ReorderResult)
    : outcome NvstDropReason (t * ReorderResult) :=
  match fuel with
  | O => Panic
  | S fuel =>
      next ← step self now result;
      match next with
      | inl done => mret done
      | inr (self, result) => loop fuel self now result
      end
  end.

(** Every iteration that continues removes a block or closes the gap before the
    head. *)
Definition fuel_for (self : t) : nat := 2 * length (blocks self) + 2.

Definition push (self : t) (packet : RtpPacket) (layout : FecPacketLayout.t) (now : Z)
    : outcome NvstDropReason (t * ReorderResult) :=
  let packet_base := saturating_sub (pk_index packet) (FecPacketLayout.shard_index layout) in
  if match completed_through self with
     | Some completed => pk_index packet <? completed
     | None => false
     end
  then mret (self, result_dropped None) else
  let block := default (FecBlock.new layout (pk_index packet))
    (BTreeMap.get (blocks self) packet_base) in
  if negb (FecBlock.matches block layout (pk_index packet))
  then mret (self <| blocks ::= BTreeMap.insert packet_base block |>,
             result_dropped (Some fec_error)) else
  inserted ← FecBlock.insert block layout packet;
  let '(block, dropped) := inserted in
  let self := self <| blocks ::= BTreeMap.insert packet_base block |> in
  match dropped with
  | Some reason => mret (self, result_dropped (Some reason))
  | None => loop (fuel_for self) self now (result_dropped None)
  end.

End FecReorderBuffer.

(** ** Block invariants *)

Record packet_ok (p : RtpPacket) : Prop := {
  po_header : header_wf (pk_header p);
  po_gs : is_Some (RtpHeader.gs_video_header (pk_header p));
  po_offset : RtpHeader.payload_offset (pk_header p) <= zlen (pk_plaintext p);
  po_index : 0 <= pk_index p
}.

Definition data_count (l : FecPacketLayout.t) : nat := Z.to_nat (FecPacketLayout.data_shards l).
Definition total_count (l : FecPacketLayout.t) : nat :=
  Z.to_nat (FecPacketLayout.data_shards l + FecPacketLayout.parity_shards l).

(** The data part of a block's shards. *)
Definition slots (b : FecBlock.t) : list (option RtpPacket) :=
  take (data_count (FecBlock.layout b)) (FecBlock.shards b).

Record block_wf (b : FecBlock.t) : Prop := {
  bw_layout : layout_wf (FecBlock.layout b);
  bw_base : 0 <= FecBlock.base_index b;
  bw_len : length (FecBlock.shards b) = total_count (FecBlock.layout b);
  bw_packet : forall i p, FecBlock.shards b !! i = Some (Some p) -> packet_ok p;
  bw_failed : FecBlock.repair_failed b = true -> None ∈ slots b
}.

Lemma block_counts b :
  block_wf b -> (1 <= data_count (FecBlock.layout b))%nat
  /\ (data_count (FecBlock.layout b) <= total_count (FecBlock.layout b))%nat
  /\ length (slots b) = data_count (FecBlock.layout b).
Proof.
  intros [[]]. unfold slots. rewrite length_take. unfold data_count, total_count in *. lia.
Qed.

Lemma data_slots_Ok b : block_wf b -> FecBlock.data_slots b = Ok (slots b).
Proof.
  intros Hb. pose proof (block_counts b Hb) as (H1 & H2 & _). pose proof (bw_len b Hb).
  pose proof (lwf_data _ (bw_layout _ Hb)).
  unfold FecBlock.data_slots. rewrite slice_Ok.
  - rewrite Z.sub_0_r. done.
  - lia.
  - unfold zlen, data_count, total_count in *. lia.
Qed.

(** The first and last missing data positions, and the first missing run. *)
Record missing_run (b : FecBlock.t) (first last_ run : nat) : Prop := {
  mr_first : slots b !! first = Some None;
  mr_before : forall i, (i < first)%nat -> exists p, slots b !! i = Some (Some p);
  mr_last : slots b !! last_ = Some None /\ (first <= last_)%nat;
  mr_run : (1 <= run)%nat /\ forall i, (first <= i < first + run)%nat -> slots b !! i = Some None
}.

Lemma positions_from_head {A} (f : A -> bool) n l i rest :
  positions_from f n l = i :: rest ->
  (n <= i)%nat /\ (forall k, (k < i - n)%nat -> exists a, l !! k = Some a /\ f a = false)
  /\ (exists a, l !! (i - n)%nat = Some a /\ f a = true).
Proof.
  revert n. induction l as [|a l IH]; intros n; simpl; [done|].
  destruct (f a) eqn:Hf.
  - intros [= <- _]. split; [lia|]. rewrite Nat.sub_diag. split; [lia|]. by exists a.
  - intros H. destruct (IH (S n) H) as (Hle & Hlt & b & Hb & Hfb). split; [lia|].
    replace (i - n)%nat with (S (i - S n)) by lia. split; [|by exists b].
    intros [|k] Hk; [by exists a|]. simpl. apply Hlt. lia.
Qed.

Lemma take_while_prefix {A} (f : A -> bool) l k :
  (k < length (take_while f l))%nat -> exists a, l !! k = Some a /\ f a = true.
Proof.
  revert k. induction l as [|a l IH]; intros k; simpl; [lia|].
  destruct (f a) eqn:Hf; simpl; [|lia]. destruct k as [|k]; [by exists a|]. intros H. apply IH. lia.
Qed.

Lemma missing_run_exists b :
  block_wf b -> None ∈ slots b ->
  exists first last_ run, missing_run b first last_ run
    /\ FecBlock.missing_data_range b
       = Ok (Some (FecBlock.base_index b + Z.of_nat first, FecBlock.base_index b + Z.of_nat last_))
    /\ FecBlock.first_missing_data_run b
       = Ok (Some (FecBlock.base_index b + Z.of_nat first,
                   FecBlock.base_index b + Z.of_nat first + (Z.of_nat run - 1))).
Proof.
  intros Hb Hnone. unfold FecBlock.missing_data_range, FecBlock.first_missing_data_run.
  rewrite data_slots_Ok by done. obind.
  apply list_elem_of_lookup in Hnone as [k Hk]. apply none_lookup in Hk.
  destruct (positions is_none (slots b)) as [|first rest] eqn:Hp; [inversion Hk|].
  pose proof (positions_from_head _ _ _ _ _ Hp) as (_ & Hlt & x & Hx & Hfx). rewrite Nat.sub_0_r in *.
  destruct x; [done|].
  assert (Hrun : (1 <= length (take_while is_none (drop first (slots b))))%nat).
  { rewrite <- (take_drop_middle _ _ _ Hx), drop_app_length'; [simpl; lia|].
    rewrite length_take. apply lookup_lt_Some in Hx. lia. }
  exists first, (default first (last (first :: rest))), (length (take_while is_none (drop first (slots b)))).
  split; [constructor|].
  - done.
  - intros i Hi. destruct (Hlt i Hi) as ([p|] & Hp' & ?); [|done]. by exists p.
  - destruct (last (first :: rest)) as [z|] eqn:Hlast; simpl.
    + pose proof (last_Some_elem_of _ _ Hlast) as Hz. rewrite <- Hp in Hz.
      split; [by apply none_lookup|]. destruct (decide (first <= z)%nat); [done|].
      apply none_lookup in Hz. destruct (Hlt z) as (y & Hy & Hfy); [lia|].
      rewrite Hz in Hy. by injection Hy as <-.
    + done.
  - split; [done|]. intros i Hi.
    destruct (take_while_prefix is_none (drop first (slots b)) (i - first)) as ([p|] & Hi' & Hf);
      [lia|done|]. rewrite lookup_drop in Hi'. by replace (first + (i - first))%nat with i in Hi' by lia.
  - cbn [head]. obind. split; [done|]. unfold mret, outcome_ret. repeat f_equal.
    unfold saturating_sub, zlen. lia.
Qed.

(** ** Restoring one shard *)

(** The recovered bytes: the template's RTP envelope, the packet's own
    sequence number, the block's frame and block coordinates, and the
    reconstructed bytes everywhere else. *)
Definition restored_bytes (b : FecBlock.t) (ext : Z) (envelope : list u8) (i : nat) (s : list u8) : list u8 :=
  let l := FecBlock.layout b in
  <[Z.to_nat (ext + 11) := z2b (Z.lor (Z.shiftl (FecPacketLayout.last_block_index l) 6)
                                      (Z.shiftl (FecPacketLayout.block_index l) 4))]>
    (splice (splice (splice s 0 envelope)
       2 (to_be_bytes 2 (as_u16 (FecBlock.base_index b + Z.of_nat i))))
       (ext + 4) (to_le_bytes 4 (FecPacketLayout.frame_index l))).

(** The recovered packet, when its header parses and its flags are legal. *)
Definition recovered (b : FecBlock.t) (ext : Z) (envelope : list u8) (i : nat) (s : list u8)
    : option RtpPacket :=
  if zlen s <? ext + NV_VIDEO_PACKET_LEN then None else
  match RtpHeader.parse (restored_bytes b ext envelope i s) with
  | Ok header =>
      gs ← RtpHeader.gs_video_header header;
      flag_byte ← zget gs 8;
      if Z.land (Z.land (b2z flag_byte) 0x0f) 0xf8 =? 0
      then Some {| pk_index := FecBlock.base_index b + Z.of_nat i; pk_header := header;
                   pk_plaintext := restored_bytes b ext envelope i s; pk_origin := RecoveredData |}
      else None
  | _ => None
  end.

Lemma restored_outside b ext envelope i s k :
  16 <= ext -> zlen envelope = ext -> ext + 16 <= zlen s ->
  ext + 12 <= Z.of_nat k \/ ext <= Z.of_nat k < ext + 4 \/ ext + 8 <= Z.of_nat k < ext + 11 ->
  restored_bytes b ext envelope i s !! k = s !! k.
Proof.
  intros He Hl Hs Hk. unfold restored_bytes. cbv zeta.
  rewrite list_lookup_insert_ne by lia.
  assert (H2 : zlen (to_be_bytes 2 (as_u16 (FecBlock.base_index b + Z.of_nat i))) = 2) by apply zlen_to_be_bytes.
  assert (H4 : zlen (to_le_bytes 4 (FecPacketLayout.frame_index (FecBlock.layout b))) = 4) by apply zlen_to_le_bytes.
  assert (Hz1 : zlen (splice s 0 envelope) = zlen s) by (apply zlen_splice; lia).
  assert (Hz2 : forall v, zlen v = 2 -> zlen (splice (splice s 0 envelope) 2 v) = zlen s)
    by (intros v Hv; rewrite zlen_splice; lia).
  rewrite splice_outside; [|lia|rewrite Hz2; lia|lia].
  rewrite splice_outside; [|lia|rewrite Hz1; lia|lia].
  apply splice_outside; lia.
Qed.

Lemma recovered_packet_ok b ext envelope i s r :
  0 <= FecBlock.base_index b -> recovered b ext envelope i s = Some r ->
  packet_ok r /\ pk_index r = FecBlock.base_index b + Z.of_nat i /\ pk_origin r = RecoveredData
  /\ pk_plaintext r = restored_bytes b ext envelope i s.
Proof.
  intros Hb. unfold recovered. destruct (zlen s <? _); [done|].
  pose proof (parse_spec (restored_bytes b ext envelope i s)) as Hp.
  destruct (RtpHeader.parse _) as [h| |]; [|done|done]. destruct Hp as [Hwf Hoff].
  destruct (RtpHeader.gs_video_header h) as [gs|] eqn:Hgs; [|done]. obind.
  destruct (zget gs 8) as [f|]; [|done]. obind. destruct (_ =? 0); [|done]. intros [= <-].
  split_and!; try done. constructor; simpl; [done|by rewrite Hgs|done|lia].
Qed.

Lemma restore_shard_spec b ext envelope sl i shard :
  16 <= ext -> zlen envelope = ext -> (i < length sl)%nat ->
  match sl !! i, shard with
  | Some (Some _), _ => FecBlock.restore_shard b ext envelope sl (Z.of_nat i, shard) = Ok sl
  | _, Some s =>
      match recovered b ext envelope i s with
      | Some r => FecBlock.restore_shard b ext envelope sl (Z.of_nat i, shard) = Ok (<[i := Some r]> sl)
      | None => exists e, FecBlock.restore_shard b ext envelope sl (Z.of_nat i, shard) = Err e
      end
  | _, None => exists e, FecBlock.restore_shard b ext envelope sl (Z.of_nat i, shard) = Err e
  end.
Proof.
  intros He Hl Hi. destruct (lookup_lt_is_Some_2 sl i Hi) as [o Ho]. rewrite Ho.
  unfold FecBlock.restore_shard. unfold idx. rewrite zget_lookup, Nat2Z.id, Ho by lia. cbn [expect]. obind.
  destruct o as [p|]; [done|]. cbn [is_some]. destruct shard as [s|]; [|eexists; reflexivity].
  rewrite ok_or_Some. obind. unfold recovered.
  destruct (Z.ltb_spec (zlen s) (ext + NV_VIDEO_PACKET_LEN)) as [|Hs]; [eexists; reflexivity|].
  unfold NV_VIDEO_PACKET_LEN in Hs. cbn [guard_err]. obind.
  assert (Hz1 : zlen (splice s 0 envelope) = zlen s) by (apply zlen_splice; lia).
  rewrite set_slice_Ok by lia. obind.
  rewrite set_slice_Ok by (rewrite ?zlen_to_be_bytes, ?Hz1; lia). obind.
  assert (Hz2 : forall z, zlen (splice (splice s 0 envelope) 2 (to_be_bytes 2 z)) = zlen s)
    by (intros z; rewrite zlen_splice; rewrite ?zlen_to_be_bytes, ?Hz1; lia).
  rewrite set_slice_Ok by (rewrite ?zlen_to_le_bytes, ?Hz2; lia). obind.
  rewrite set_idx_Ok by (rewrite zlen_splice; rewrite ?zlen_to_le_bytes, ?Hz2; lia). obind.
  fold (restored_bytes b ext envelope i s).
  pose proof (parse_spec (restored_bytes b ext envelope i s)) as Hp.
  destruct (RtpHeader.parse (restored_bytes b ext envelope i s)) as [h|e|] eqn:Hparse;
    [|eexists; reflexivity|done].
  cbn [map_err]. obind. destruct Hp as [Hwf _].
  destruct (RtpHeader.gs_video_header h) as [gs|] eqn:Hgs; [|eexists; reflexivity].
  pose proof (wf_gs _ Hwf gs Hgs) as Hgl. unfold NV_VIDEO_PACKET_LEN in Hgl.
  destruct (zget_Some gs 8) as [f Hf]; [lia|]. unfold idx. rewrite ok_or_Some. obind.
  rewrite Hf. cbn [expect]. obind.
  change (255 - Z.lor FLAG_SOF (Z.lor FLAG_EOF FLAG_CONTAINS_PIC_DATA)) with 0xf8.
  destruct (Z.eqb_spec (Z.land (Z.land (b2z f) 0x0f) 0xf8) 0); cbn [negb guard_err]; obind;
    [|eexists; reflexivity].
  rewrite set_idx_Ok by (unfold zlen; lia). by rewrite Nat2Z.id.
Qed.

(** What [finish] puts in a data position. *)
Definition finished (b : FecBlock.t) (ext : Z) (envelope : list u8) (i : nat)
    (slot : option RtpPacket) (shard : option (list u8)) : option RtpPacket :=
  match slot with
  | Some p => Some p
  | None => s ← shard; recovered b ext envelope i s
  end.

Fixpoint finish_all (b : FecBlock.t) (ext : Z) (envelope : list u8) (i : nat)
    (sl : list (option RtpPacket)) (bytes : list (option (list u8))) : option (list RtpPacket) :=
  match sl, bytes with
  | slot :: sl, s :: bytes =>
      r ← finished b ext envelope i slot s;
      rs ← finish_all b ext envelope (S i) sl bytes;
      Some (r :: rs)
  | _, _ => Some []
  end.

Lemma restore_loop b ext envelope bytes pre sl :
  16 <= ext -> zlen envelope = ext -> (length bytes <= length sl)%nat ->
  let loop := ofold (FecBlock.restore_shard b ext envelope)
    (zip (map Z.of_nat (seq (length pre) (length bytes))) bytes) (pre ++ sl) in
  match finish_all b ext envelope (length pre) sl bytes with
  | Some rs => loop = Ok (pre ++ map Some rs ++ drop (length bytes) sl) /\ length rs = length bytes
  | None => exists e, loop = Err e
  end.
Proof.
  intros He Hl. revert pre sl. induction bytes as [|s bytes IH]; intros pre sl Hlen; cbn zeta.
  { destruct sl; simpl; by rewrite ?drop_0. }
  destruct sl as [|slot sl]; [simpl in Hlen; lia|]. cbn [length seq map zip_with ofold finish_all].
  pose proof (restore_shard_spec b ext envelope (pre ++ slot :: sl) (length pre) s He Hl) as Hspec.
  rewrite list_lookup_middle in Hspec by done. specialize (Hspec ltac:(rewrite length_app; simpl; lia)).
  assert (Hnext : forall r, FecBlock.restore_shard b ext envelope (pre ++ slot :: sl) (Z.of_nat (length pre), s)
      = Ok ((pre ++ [Some r]) ++ sl) -> finished b ext envelope (length pre) slot s = Some r ->
    match r ← finished b ext envelope (length pre) slot s;
          rs ← finish_all b ext envelope (S (length pre)) sl bytes; Some (r :: rs) with
    | Some rs => (FecBlock.restore_shard b ext envelope (pre ++ slot :: sl) (Z.of_nat (length pre), s)
        ≫= ofold (FecBlock.restore_shard b ext envelope)
             (zip (map Z.of_nat (seq (S (length pre)) (length bytes))) bytes))
        = Ok (pre ++ map Some rs ++ drop (S (length bytes)) (slot :: sl)) /\ length rs = S (length bytes)
    | None => exists e, (FecBlock.restore_shard b ext envelope (pre ++ slot :: sl) (Z.of_nat (length pre), s)
        ≫= ofold (FecBlock.restore_shard b ext envelope)
             (zip (map Z.of_nat (seq (S (length pre)) (length bytes))) bytes)) = Err e
    end).
  { intros r Hr Hf. rewrite Hr, Hf. obind. specialize (IH (pre ++ [Some r]) sl). simpl in Hlen, IH.
    rewrite length_app, Nat.add_1_r in IH. specialize (IH ltac:(lia)).
    destruct (finish_all _ _ _ _ sl bytes) as [rs|]; [|done]. destruct IH as [-> Hrs]. obind.
    simpl. rewrite <- app_assoc. split; [done|lia]. }
  destruct slot as [p|].
  - apply (Hnext p); [|done]. by rewrite <- app_assoc.
  - destruct s as [s|]; [|destruct Hspec as [e ->]; by exists e].
    pose proof (eq_refl : finished b ext envelope (length pre) None (Some s)
      = recovered b ext envelope (length pre) s) as Hf.
    destruct (recovered b ext envelope (length pre) s) as [r|] eqn:Hr.
    + apply (Hnext r); [|done]. rewrite Hspec, <- app_assoc. f_equal.
      by rewrite insert_app_r_alt, Nat.sub_diag by done.
    + rewrite Hf. destruct Hspec as [e ->]. by exists e.
Qed.

(** ** Finishing a block *)

Lemma filter_none_0 {A} (l : list (option A)) : zlen (List.filter is_none l) = 0 <-> None ∉ l.
Proof.
  unfold zlen. rewrite list_elem_of_In. split.
  - intros H Hin. assert (Hf : In None (List.filter is_none l)) by (apply List.filter_In; done).
    destruct (List.filter is_none l); [done|]. simpl in H. lia.
  - intros H. destruct (List.filter is_none l) as [|[a|] r] eqn:E; [done|..]; exfalso.
    + assert (Hin : In (Some a) (List.filter is_none l)) by (rewrite E; by left).
      apply List.filter_In in Hin as [_ ?]. done.
    + apply H. assert (Hin : In None (List.filter is_none l)) by (rewrite E; by left).
      by apply List.filter_In in Hin as [? _].
Qed.

Lemma none_dec {A} (l : list (option A)) : None ∈ l \/ None ∉ l.
Proof.
  induction l as [|[a|] l IH]; [right; apply not_elem_of_nil| |left; by left].
  destruct IH as [IH|IH]; [left; by right|right]. by apply not_elem_of_cons.
Qed.

Lemma flatten_full {A} (l : list (option A)) : None ∉ l -> l = map Some (flatten l).
Proof.
  unfold flatten. induction l as [|[a|] l IH]; intros H; simpl; [done|..].
  - f_equal. apply IH. intros Hin. apply H. by right.
  - exfalso. apply H. by left.
Qed.

Lemma flatten_map_Some {A} (l : list A) : flatten (map Some l) = l.
Proof. unfold flatten. induction l; simpl; f_equal; done. Qed.

Lemma elem_of_flatten {A} (l : list (option A)) a : a ∈ flatten l <-> Some a ∈ l.
Proof.
  unfold flatten. rewrite list_elem_of_omap. split.
  - intros (x & Hx & Hid). unfold id in Hid. by subst.
  - intros. by exists (Some a).
Qed.

(** What a finished block delivers: its data packets in order, the received
    ones untouched, the missing ones recovered. *)
Record delivered_block (b : FecBlock.t) (rs : list RtpPacket) : Prop := {
  db_len : length rs = data_count (FecBlock.layout b);
  db_received : forall i p, slots b !! i = Some (Some p) -> rs !! i = Some p;
  db_recovered : forall i, slots b !! i = Some None -> exists r, rs !! i = Some r /\ packet_ok r
    /\ pk_index r = FecBlock.base_index b + Z.of_nat i /\ pk_origin r = RecoveredData
}.

Lemma finish_all_lookup b ext envelope n sl bytes rs i slot s :
  finish_all b ext envelope n sl bytes = Some rs -> sl !! i = Some slot -> bytes !! i = Some s ->
  exists r, finished b ext envelope (n + i) slot s = Some r /\ rs !! i = Some r.
Proof.
  revert n sl rs i. induction bytes as [|s0 bytes IH]; intros n [|slot0 sl] rs i; simpl; try done.
  intros Hf. destruct (finished b ext envelope n slot0 s0) as [r0|] eqn:H0; [|done]. revert Hf. obind.
  destruct (finish_all b ext envelope (S n) sl bytes) as [rs0|] eqn:Hrs; [|done]. obind. intros [= <-].
  destruct i as [|i]; simpl.
  - intros [= <-] [= <-]. rewrite Nat.add_0_r. eauto.
  - intros Hs Hb. rewrite Nat.add_succ_r. change (S (n + i)) with (S n + i)%nat. by eapply IH.
Qed.

Lemma finish_all_prefix b ext envelope n sl bytes :
  finish_all b ext envelope n sl bytes = finish_all b ext envelope n (take (length bytes) sl) bytes.
Proof.
  revert n sl. induction bytes as [|s bytes IH]; intros n [|slot sl]; simpl; try done. by rewrite IH.
Qed.

(** The shards of a block as the decoder sees them. *)
Definition padded (L : Z) (b : FecBlock.t) : list (option (list u8)) :=
  map (option_map (fun p => resize (pk_plaintext p) L Byte.x00)) (FecBlock.shards b).

Lemma length_resize {A} (l : list A) n v : length (resize l n v) = Z.to_nat n.
Proof. unfold resize. rewrite length_app, length_take, length_replicate. lia. Qed.

Lemma padded_lengths L b : Forall (fun s => forall k, s = Some k -> length k = Z.to_nat L) (padded L b).
Proof.
  unfold padded. apply Forall_map, Forall_forall. intros [p|] _ k; simpl; [|done].
  intros [= <-]. apply length_resize.
Qed.

(** The envelope of the first received packet. *)
Lemma template_envelope b template :
  block_wf b -> head (flatten (FecBlock.shards b)) = Some template ->
  let ext := RtpHeader.payload_offset (pk_header template) - NV_VIDEO_PACKET_LEN in
  16 <= ext /\ zlen (take (Z.to_nat ext) (pk_plaintext template)) = ext.
Proof.
  intros Hb Htemplate. cbn zeta. assert (Hok : packet_ok template).
  { apply head_Some_elem_of, elem_of_flatten, list_elem_of_lookup in Htemplate as [i Hi].
    by apply (bw_packet _ Hb i). }
  pose proof (wf_gs_offset _ (po_header _ Hok) (po_gs _ Hok)) as Hoff. unfold NV_VIDEO_PACKET_LEN.
  pose proof (po_offset _ Hok) as Hzl. split; [lia|]. unfold zlen in *. rewrite length_take. lia.
Qed.

Lemma finish_all_Some b ext envelope n sl bytes :
  length bytes = length sl ->
  (forall i slot s, sl !! i = Some slot -> bytes !! i = Some s ->
     is_Some (finished b ext envelope (n + i) slot s)) ->
  finish_all b ext envelope n sl bytes <> None.
Proof.
  revert n sl. induction bytes as [|s bytes IH]; intros n [|slot sl] Hl Hall; simpl in *; try done.
  destruct (Hall 0%nat slot s eq_refl eq_refl) as [r Hr]. rewrite Nat.add_0_r in Hr. rewrite Hr. obind.
  specialize (IH (S n) sl ltac:(lia)). destruct (finish_all b ext envelope (S n) sl bytes); [done|].
  exfalso. apply IH; [|done]. intros i slot' s' Hi Hs'. specialize (Hall (S i) slot' s' Hi Hs').
  by rewrite Nat.add_succ_r in Hall.
Qed.

(** The missing-data branch of [finish], once the decoder has answered. *)
Lemma finish_missing b L template shard_bytes :
  block_wf b -> None ∈ slots b ->
  existsb (fun packet => L <? zlen (pk_plaintext packet)) (flatten (FecBlock.shards b)) = false ->
  head (flatten (FecBlock.shards b)) = Some template ->
  reconstruct_nvst_cauchy_data (padded L b) (data_count (FecBlock.layout b))
    (Z.to_nat (FecPacketLayout.parity_shards (FecBlock.layout b))) (Z.to_nat L) = Ok shard_bytes ->
  length shard_bytes = total_count (FecBlock.layout b) ->
  let ext := RtpHeader.payload_offset (pk_header template) - NV_VIDEO_PACKET_LEN in
  let envelope := take (Z.to_nat ext) (pk_plaintext template) in
  16 <= ext /\ zlen envelope = ext /\
  match finish_all b ext envelope 0 (slots b) (take (data_count (FecBlock.layout b)) shard_bytes) with
  | Some rs => FecBlock.finish b L = Ok (rs, zlen (List.filter is_none (slots b)))
      /\ length rs = data_count (FecBlock.layout b)
  | None => exists e, FecBlock.finish b L = Err e
  end.
Proof.
  intros Hb Hnone Hshort Htemplate Hrec Hlen. cbn zeta.
  pose proof (block_counts b Hb) as (Hd1 & Hd2 & Hsl). pose proof (bw_layout _ Hb) as Hlay.
  destruct (template_envelope b template Hb Htemplate) as [Hext Henv].
  revert Hext Henv. unfold NV_VIDEO_PACKET_LEN.
  set (ext := RtpHeader.payload_offset (pk_header template) - 16). intros Hext Henv.
  assert (Hzl : ext <= zlen (pk_plaintext template)).
  { unfold zlen in *. rewrite length_take in Henv. lia. }
  split; [done|]. split; [done|].
  unfold FecBlock.finish. rewrite data_slots_Ok by done. obind.
  destruct (Z.eqb_spec (zlen (List.filter is_none (slots b))) 0) as [Hz|_].
  { by apply filter_none_0 in Hz. }
  rewrite Hshort. cbn [guard_err]. obind. rewrite Htemplate. obind. fold (padded L b).
  change (Z.to_nat (FecPacketLayout.data_shards (FecBlock.layout b))) with (data_count (FecBlock.layout b)).
  rewrite Hrec. obind. unfold checked_sub, NV_VIDEO_PACKET_LEN.
  rewrite (proj2 (Z.leb_le _ _)) by (unfold ext in Hext; lia). obind. fold ext.
  pose proof (lwf_parity _ Hlay) as Hpar.
  assert (Hdz : Z.of_nat (data_count (FecBlock.layout b)) = FecPacketLayout.data_shards (FecBlock.layout b)).
  { unfold data_count. pose proof (lwf_data _ Hlay). lia. }
  rewrite (slice_Ok (pk_plaintext template)) by lia. obind. rewrite Z.sub_0_r. change (Z.to_nat 0) with 0%nat. rewrite drop_0.
  rewrite (slice_Ok shard_bytes) by (unfold zlen; lia). obind. rewrite Z.sub_0_r. change (Z.to_nat 0) with 0%nat. rewrite drop_0.
  fold (data_count (FecBlock.layout b)). set (bytes := take (data_count (FecBlock.layout b)) shard_bytes).
  assert (Hbl : length bytes = data_count (FecBlock.layout b)) by (unfold bytes; rewrite length_take; lia).
  pose proof (restore_loop b ext (take (Z.to_nat ext) (pk_plaintext template)) bytes []
    (FecBlock.shards b) Hext Henv ltac:(rewrite (bw_len _ Hb); lia)) as Hloop.
  cbn [length app] in Hloop. unfold zrange.
  rewrite (finish_all_prefix b ext _ 0 (FecBlock.shards b) bytes), Hbl in Hloop.
  fold (slots b) in Hloop. rewrite Hbl.
  destruct (finish_all b ext _ 0 (slots b) bytes) as [rs|].
  - destruct Hloop as [-> Hrs]. obind. split; [|lia].
    rewrite slice_Ok; [|lia|].
    + obind. rewrite Z.sub_0_r. change (Z.to_nat 0) with 0%nat. rewrite drop_0.
      fold (data_count (FecBlock.layout b)). rewrite take_app_length' by (rewrite length_map; lia).
      by rewrite flatten_map_Some.
    + unfold zlen. rewrite length_app, length_map, length_drop, (bw_len _ Hb). lia.
  - destruct Hloop as [e ->]. by exists e.
Qed.

Lemma finish_complete b L :
  block_wf b -> None ∉ slots b -> FecBlock.finish b L = Ok (flatten (slots b), 0).
Proof.
  intros Hb Hnone. unfold FecBlock.finish. rewrite data_slots_Ok by done. obind.
  apply filter_none_0 in Hnone as ->. done.
Qed.

(** The refusals before the decoder runs, and the decoder's own. *)
Lemma finish_refused b L :
  block_wf b -> None ∈ slots b ->
  existsb (fun packet => L <? zlen (pk_plaintext packet)) (flatten (FecBlock.shards b)) = true
  \/ head (flatten (FecBlock.shards b)) = None
  \/ reconstruct_nvst_cauchy_data (padded L b) (data_count (FecBlock.layout b))
       (Z.to_nat (FecPacketLayout.parity_shards (FecBlock.layout b))) (Z.to_nat L) = Err fec_error ->
  exists e, FecBlock.finish b L = Err e.
Proof.
  intros Hb Hnone Hcase. unfold FecBlock.finish. rewrite data_slots_Ok by done. obind.
  destruct (Z.eqb_spec (zlen (List.filter is_none (slots b))) 0) as [Hz|_].
  { by apply filter_none_0 in Hz. }
  destruct (existsb _ _) eqn:Hshort; [eexists; reflexivity|]. cbn [guard_err]. obind.
  destruct (head _) as [template|]; [|eexists; reflexivity]. obind.
  destruct Hcase as [?|[?|Hrec]]; [done|done|]. fold (padded L b) (data_count (FecBlock.layout b)).
  rewrite Hrec. by eexists.
Qed.

(** [finish] never panics; it fails only with data missing. *)
Lemma finish_ok b L :
  block_wf b ->
  match FecBlock.finish b L with
  | Ok (rs, repaired) => delivered_block b rs /\ repaired = zlen (List.filter is_none (slots b))
  | Err _ => None ∈ slots b
  | Panic => False
  end.
Proof.
  intros Hb. pose proof (block_counts b Hb) as (Hd1 & Hd2 & Hsl). pose proof (bw_layout _ Hb) as Hlay.
  destruct (none_dec (slots b)) as [Hnone|Hnone].
  2:{ rewrite finish_complete by done. split; [|by symmetry; apply filter_none_0].
      pose proof (flatten_full _ Hnone) as Hf. constructor.
      - rewrite Hf, length_map in Hsl. done.
      - intros i p Hi. rewrite Hf in Hi. change (map Some) with (fmap (M:=list) (@Some RtpPacket)) in Hi.
        apply list_lookup_fmap_Some in Hi as (q & [= ->] & Hq). done.
      - intros i Hi. exfalso. by apply Hnone, (list_elem_of_lookup_2 _ i). }
  destruct (existsb (fun packet => L <? zlen (pk_plaintext packet)) (flatten (FecBlock.shards b))) eqn:Hshort.
  { destruct (finish_refused b L Hb Hnone) as [e ->]; auto. }
  destruct (head (flatten (FecBlock.shards b))) as [template|] eqn:Ht.
  2:{ destruct (finish_refused b L Hb Hnone) as [e ->]; auto. }
  assert (Hlen : length (padded L b) = (data_count (FecBlock.layout b)
    + Z.to_nat (FecPacketLayout.parity_shards (FecBlock.layout b)))%nat).
  { unfold padded. rewrite length_map, (bw_len _ Hb). unfold total_count, data_count. destruct Hlay. lia. }
  destruct (reconstruct_total _ _ (Z.to_nat L) (padded L b) Hlen (padded_lengths L b))
    as [Herr|(out & Hrec & Hlo & _ & Hdata)].
  { destruct (finish_refused b L Hb Hnone) as [e ->]; auto. }
  destruct (finish_missing b L template out Hb Hnone Hshort Ht Hrec) as (Hext & Henv & Hfin).
  { rewrite Hlo, <- Hlen. unfold padded. by rewrite length_map, (bw_len _ Hb). }
  revert Hfin. set (ext := RtpHeader.payload_offset _ - _). set (envelope := take _ _).
  destruct (finish_all _ _ _ _ _ _) as [rs|] eqn:Hall; [|by intros [e ->]].
  intros [-> Hrs]. split; [|done]. constructor; [done|..].
  - intros i p Hi. pose proof (lookup_lt_Some _ _ _ Hi) as Hlt.
    destruct (Hdata i) as (s & Hs & _); [lia|].
    destruct (finish_all_lookup _ _ _ _ _ _ _ i _ (Some s) Hall Hi) as (r & Hr & Hri).
    { by rewrite lookup_take_lt by lia. } simpl in Hr. congruence.
  - intros i Hi. pose proof (lookup_lt_Some _ _ _ Hi) as Hlt.
    destruct (Hdata i) as (s & Hs & _); [lia|].
    destruct (finish_all_lookup _ _ _ _ _ _ _ i _ (Some s) Hall Hi) as (r & Hr & Hri).
    { by rewrite lookup_take_lt by lia. } exists r. split; [done|].
    cbn [finished] in Hr. revert Hr. obind. intros Hr.
    by destruct (recovered_packet_ok _ _ _ _ _ _ (bw_base _ Hb) Hr) as (? & ? & ? & ?).
Qed.

Lemma length_positions_some {A B} (f : A -> B) (l : list (option A)) n :
  length (positions_from is_some n (map (option_map f) l)) = length (flatten l).
Proof. revert n. induction l as [|[a|] l IH]; intros n; simpl; [done|..]; by rewrite IH. Qed.

Lemma enough_positions L b :
  block_wf b -> FecBlock.has_enough_shards b = true ->
  (data_count (FecBlock.layout b) <= length (positions is_some (padded L b)))%nat.
Proof.
  unfold FecBlock.has_enough_shards. intros Hb H. zbool. unfold padded, positions.
  rewrite length_positions_some. unfold data_count, zlen in *. lia.
Qed.

(** With no data missing there is nothing to repair. *)
Lemma finish_exact_complete b L (D : list (list u8)) (Q : nat -> list u8 -> RtpPacket -> Prop) :
  block_wf b -> None ∉ slots b -> length D = data_count (FecBlock.layout b) ->
  exists rs, FecBlock.finish b L = Ok (rs, zlen (List.filter is_none (slots b)))
    /\ length rs = length D
    /\ forall i slot s, slots b !! i = Some slot -> D !! i = Some s ->
         exists r, rs !! i = Some r /\ match slot with Some p => r = p | None => Q i s r end.
Proof.
  intros Hb Hnone HD. rewrite finish_complete by done. rewrite (proj2 (filter_none_0 _)) by done.
  pose proof (flatten_full _ Hnone) as Hf. destruct (block_counts b Hb) as (_ & _ & Hsl).
  exists (flatten (slots b)). split; [done|]. split; [rewrite Hf, length_map in Hsl; congruence|].
  intros i slot s Hi _. rewrite Hf in Hi.
  change (map Some) with (fmap (M:=list) (@Some RtpPacket)) in Hi.
  apply list_lookup_fmap_Some in Hi as (q & -> & Hq). by exists q.
Qed.

Lemma recovered_agrees b ext envelope i s r (c : list u8) :
  0 <= FecBlock.base_index b -> 16 <= ext -> zlen envelope = ext ->
  (forall k, ext <= Z.of_nat k -> s !! k = c !! k) ->
  recovered b ext envelope i s = Some r ->
  pk_index r = FecBlock.base_index b + Z.of_nat i /\ pk_origin r = RecoveredData
  /\ forall k, ext + 12 <= Z.of_nat k \/ ext <= Z.of_nat k < ext + 4
       \/ ext + 8 <= Z.of_nat k < ext + 11 -> pk_plaintext r !! k = c !! k.
Proof.
  intros Hbase Hext Henv Hagree Hr.
  destruct (recovered_packet_ok _ _ _ _ _ _ Hbase Hr) as (_ & Hidx & Horigin & Hpl).
  split_and!; [done|done|]. intros k Hk. rewrite Hpl, <- Hagree by lia.
  apply restored_outside; [done|done| |done]. unfold recovered in Hr.
  destruct (Z.ltb_spec (zlen s) (ext + NV_VIDEO_PACKET_LEN)); [done|]. unfold NV_VIDEO_PACKET_LEN in *. lia.
Qed.


(** ** The reorder buffer *)

Record fec_wf (st : FecReorderBuffer.t) : Prop := {
  fw_wf : BTreeMap.wf (FecReorderBuffer.blocks st);
  fw_block : forall base b, BTreeMap.get (FecReorderBuffer.blocks st) base = Some b ->
    block_wf b /\ FecBlock.base_index b = base
}.

Definition matching (b : FecBlock.t) (l : FecPacketLayout.t) (index : Z) : Prop :=
  FecPacketLayout.data_shards (FecBlock.layout b) = FecPacketLayout.data_shards l
  /\ FecPacketLayout.parity_shards (FecBlock.layout b) = FecPacketLayout.parity_shards l
  /\ FecBlock.base_index b = saturating_sub index (FecPacketLayout.shard_index l).

Lemma matches_spec b l index : FecBlock.matches b l index = true -> matching b l index.
Proof. unfold FecBlock.matches, matching. intros. by zbool. Qed.

Lemma new_block_wf l index :
  layout_wf l -> 0 <= index -> block_wf (FecBlock.new l index) /\ FecBlock.matches (FecBlock.new l index) l index = true.
Proof.
  intros Hl Hi. split; [constructor; simpl|].
  - done.
  - apply saturating_sub_nonneg.
  - apply length_replicate.
  - intros i p [? _]%lookup_replicate. done.
  - done.
  - unfold FecBlock.matches, FecBlock.new. simpl. by rewrite !Z.eqb_refl.
Qed.

(** Inserting a packet in its slot. *)
Lemma insert_spec b l p :
  block_wf b -> layout_wf l -> matching b l (pk_index p) -> packet_ok p ->
  FecBlock.insert b l p = Ok (b, Some (DuplicateRtpPacket (pk_index p)))
  \/ exists b', FecBlock.insert b l p = Ok (b', None) /\ block_wf b'
     /\ FecBlock.layout b' = FecBlock.layout b /\ FecBlock.base_index b' = FecBlock.base_index b
     /\ FecBlock.shards b !! Z.to_nat (FecPacketLayout.shard_index l) = Some None
     /\ FecBlock.shards b' = <[Z.to_nat (FecPacketLayout.shard_index l) := Some p]> (FecBlock.shards b).
Proof.
  intros Hb Hl (Hd & Hp & Hbase) Hok. pose proof (bw_len _ Hb) as Hlen. unfold total_count in Hlen.
  pose proof (lwf_shard _ Hl) as Hs. unfold FecBlock.insert, idx.
  rewrite zget_lookup by lia.
  destruct (lookup_lt_is_Some_2 (FecBlock.shards b) (Z.to_nat (FecPacketLayout.shard_index l)))
    as [o Ho]; [lia|]. rewrite Ho. cbn [expect]. obind. destruct o as [q|]; cbn [is_some]; [by left|].
  rewrite set_idx_Ok by (unfold zlen; lia). obind. right. eexists. split; [reflexivity|].
  destruct Hb as [H1 H2 H3 H4 H5]. destruct b as [lay bi sh fl]. simpl in *.
  split; [|done]. constructor; simpl; unfold const; [done|done| | |done].
  - by rewrite length_insert.
  - intros i q. destruct (decide (i = Z.to_nat (FecPacketLayout.shard_index l))) as [->|].
    + rewrite list_lookup_insert_eq by lia. by intros [= <-].
    + rewrite list_lookup_insert_ne by done. apply H4.
Qed.

Lemma incomplete_missing b :
  block_wf b -> FecBlock.has_enough_shards b && negb (FecBlock.repair_failed b) = false -> None ∈ slots b.
Proof.
  intros Hb H. apply andb_false_iff in H as [H|H]; [|apply (bw_failed _ Hb); by destruct (FecBlock.repair_failed b)].
  destruct (none_dec (slots b)) as [|Hn]; [done|exfalso]. unfold FecBlock.has_enough_shards in H. zbool.
  pose proof (flatten_full _ Hn) as Hf. destruct (block_counts b Hb) as (_ & _ & Hsl).
  rewrite Hf, length_map in Hsl. unfold slots in Hsl, Hn.
  rewrite <- (take_drop (data_count (FecBlock.layout b)) (FecBlock.shards b)) in H.
  unfold flatten in *. rewrite omap_app in H. unfold zlen in H. rewrite length_app in H.
  unfold data_count in Hsl at 2. pose proof (lwf_data _ (bw_layout _ Hb)). lia.
Qed.

Lemma no_missing_range b : block_wf b -> None ∉ slots b -> FecBlock.missing_data_range b = Ok None.
Proof.
  intros Hb Hn. unfold FecBlock.missing_data_range. rewrite data_slots_Ok by done. obind.
  destruct (positions is_none (slots b)) as [|i rest] eqn:E; [done|]. exfalso. apply Hn.
  assert (Hi : i ∈ positions is_none (slots b)) by (rewrite E; by left).
  apply none_lookup in Hi. by eapply list_elem_of_lookup_2.
Qed.

Lemma failed_block_wf b :
  block_wf b -> None ∈ slots b -> block_wf (b <| FecBlock.repair_failed := true |>).
Proof. intros [] Hn. by constructor. Qed.

(** One iteration as a case analysis: the facts the loop theorems share. *)
Inductive step_case (st : FecReorderBuffer.t) (now : Z) (r : ReorderResult) :
    FecReorderBuffer.t * ReorderResult + FecReorderBuffer.t * ReorderResult -> Prop :=
  | StepEmpty : FecReorderBuffer.blocks st = [] ->
      step_case st now r (inl (st <| FecReorderBuffer.gap_wait := None |>, r))
  | StepGapWait base b c g : BTreeMap.first_key_value (FecReorderBuffer.blocks st) = Some (base, b) ->
      FecReorderBuffer.completed_through st = Some c -> c < base ->
      BTreeMap.len (FecReorderBuffer.blocks st) < MAX_PENDING_FEC_BLOCKS ->
      step_case st now r
        (inl (st <| FecReorderBuffer.gap_wait := g |>, r <| nack := Some (c, base - 1) |>))
  | StepGapSkip base b c : BTreeMap.first_key_value (FecReorderBuffer.blocks st) = Some (base, b) ->
      FecReorderBuffer.completed_through st = Some c -> c < base ->
      step_case st now r
        (inr (st <| FecReorderBuffer.completed_through := Some base |> <| FecReorderBuffer.gap_wait := None |>,
              r <| recovery := Some (PacketGap c (base - 1)) |> <| ready := [] |> <| nack := None |>))
  | StepDeliver base b rs n : BTreeMap.first_key_value (FecReorderBuffer.blocks st) = Some (base, b) ->
      default base (FecReorderBuffer.completed_through st) >= base ->
      FecBlock.finish b (FecReorderBuffer.shard_len st) = Ok (rs, n) -> delivered_block b rs ->
      step_case st now r
        (inr (st <| FecReorderBuffer.blocks ::= BTreeMap.remove base |>
                 <| FecReorderBuffer.completed_through := Some (FecReorderBuffer.block_end base b) |>
                 <| FecReorderBuffer.gap_wait := None |>,
              r <| ready := ready r ++ rs |> <| fec_repaired := fec_repaired r + n |>))
  | StepRepairFailed base b e first last_ run :
      BTreeMap.first_key_value (FecReorderBuffer.blocks st) = Some (base, b) ->
      FecBlock.finish b (FecReorderBuffer.shard_len st) = Err e -> missing_run b first last_ run ->
      step_case st now r
        (inl (st <| FecReorderBuffer.blocks := BTreeMap.insert base (b <| FecBlock.repair_failed := true |>)
                     (BTreeMap.remove base (FecReorderBuffer.blocks st)) |>
                 <| FecReorderBuffer.gap_wait := Some (base + Z.of_nat first, now) |>,
              r <| nack := Some (base + Z.of_nat first, base + Z.of_nat first + (Z.of_nat run - 1)) |>))
  | StepHold base b : BTreeMap.first_key_value (FecReorderBuffer.blocks st) = Some (base, b) ->
      BTreeMap.len (FecReorderBuffer.blocks st) = 1 -> step_case st now r (inl (st, r))
  | StepBlockWait base b first last_ run g :
      BTreeMap.first_key_value (FecReorderBuffer.blocks st) = Some (base, b) ->
      missing_run b first last_ run ->
      BTreeMap.len (FecReorderBuffer.blocks st) < MAX_PENDING_FEC_BLOCKS ->
      step_case st now r
        (inl (st <| FecReorderBuffer.gap_wait := g |>,
              r <| nack := Some (base + Z.of_nat first, base + Z.of_nat first + (Z.of_nat run - 1)) |>))
  | StepGiveUp base b first last_ run :
      BTreeMap.first_key_value (FecReorderBuffer.blocks st) = Some (base, b) ->
      default base (FecReorderBuffer.completed_through st) >= base ->
      missing_run b first last_ run ->
      step_case st now r
        (inr (st <| FecReorderBuffer.blocks ::= BTreeMap.remove base |>
                 <| FecReorderBuffer.completed_through := Some (FecReorderBuffer.block_end base b) |>
                 <| FecReorderBuffer.gap_wait := None |>,
              r <| recovery := Some (PacketGap (base + Z.of_nat first) (base + Z.of_nat last_)) |>
                <| ready := [] |> <| nack := None |>)).

Lemma wait_since_spec st missing now :
  exists g started, FecReorderBuffer.wait_since st missing now = (st <| FecReorderBuffer.gap_wait := g |>, started).
Proof.
  unfold FecReorderBuffer.wait_since. destruct st as [bl c [[w s]|] L]; simpl; [|by eauto].
  destruct (w =? missing); [exists (Some (w, s))|]; eauto.
Qed.

Lemma step_cases st now r :
  fec_wf st -> exists out, FecReorderBuffer.step st now r = Ok out /\ step_case st now r out.
Proof.
  intros Hwf. unfold FecReorderBuffer.step.
  destruct (BTreeMap.first_key_value (FecReorderBuffer.blocks st)) as [[base b]|] eqn:Hfirst.
  2:{ eexists. split; [reflexivity|]. apply StepEmpty. by apply bt_first_None. }
  pose proof (bt_first_get _ _ _ Hfirst) as Hget.
  destruct (fw_block _ Hwf base b Hget) as [Hb Hbase].
  destruct (Z.ltb_spec (default base (FecReorderBuffer.completed_through st)) base) as [Hgap|Hgap].
  { destruct (FecReorderBuffer.completed_through st) as [c|] eqn:Hc; simpl in Hgap |- *; [|lia].
    destruct (wait_since_spec st c now) as (g & started & ->).
    destruct (FecReorderBuffer.keep_waiting _ _ _ _) eqn:Hk.
    - eexists. split; [reflexivity|]. eapply StepGapWait; try done.
      unfold FecReorderBuffer.keep_waiting in Hk. simpl in Hk. by zbool.
    - eexists. split; [reflexivity|]. exact (StepGapSkip st now r base b c Hfirst Hc Hgap). }
  destruct (FecBlock.has_enough_shards b && negb (FecBlock.repair_failed b)) eqn:Henough.
  - pose proof (finish_ok b (FecReorderBuffer.shard_len st) Hb) as Hfin. cbn [FecReorderBuffer.shard_len].
    destruct (FecBlock.finish b (FecReorderBuffer.shard_len st)) as [[rs n]|e|] eqn:Hf; [|..|done].
    + destruct Hfin as [Hdel _]. destruct (none_dec (slots b)) as [Hn|Hn].
      * destruct (missing_run_exists b Hb Hn) as (first & last_ & run & Hm & -> & _). obind.
        simpl. rewrite Hf. eexists. split; [reflexivity|].
        exact (StepDeliver st now r base b rs n Hfirst ltac:(lia) Hf Hdel).
      * rewrite (no_missing_range b Hb Hn). obind. simpl. rewrite Hf. eexists. split; [reflexivity|].
        exact (StepDeliver st now r base b rs n Hfirst ltac:(lia) Hf Hdel).
    + destruct (missing_run_exists b Hb Hfin) as (first & last_ & run & Hm & -> & _). obind.
      simpl. rewrite Hf. cbn [expect]. obind.
      destruct (missing_run_exists (b <| FecBlock.repair_failed := true |>)) as (f' & l' & run' & Hm' & _ & Hrun').
      { by apply failed_block_wf. } { done. }
      rewrite Hrun'. obind. cbn [expect]. obind.
      change (FecBlock.base_index (b <| FecBlock.repair_failed := true |>)) with (FecBlock.base_index b).
      rewrite Hbase. assert (Hmb : missing_run b f' l' run') by (destruct Hm'; by constructor).
      eexists. split; [reflexivity|]. exact (StepRepairFailed st now r base b e f' l' run' Hfirst Hf Hmb).
  - pose proof (incomplete_missing b Hb Henough) as Hn.
    destruct (Z.eqb_spec (BTreeMap.len (FecReorderBuffer.blocks st)) 1) as [H1|H1].
    { eexists. split; [reflexivity|]. by eapply StepHold. }
    destruct (missing_run_exists b Hb Hn) as (first & last_ & run & Hm & Hrange & Hrun).
    rewrite Hrun. obind. cbn [expect]. obind. rewrite Hbase. simpl.
    destruct (wait_since_spec st (base + Z.of_nat first) now) as (g & started & ->).
    destruct (FecReorderBuffer.keep_waiting _ _ _ _) eqn:Hk.
    + eexists. split; [reflexivity|]. eapply StepBlockWait; try done.
      unfold FecReorderBuffer.keep_waiting in Hk. simpl in Hk. by zbool.
    + rewrite Hrange. obind. cbn [expect]. obind. rewrite Hbase. eexists. split; [reflexivity|].
      exact (StepGiveUp st now r base b first last_ run Hfirst ltac:(lia) Hm).
Qed.

Definition outcome_state (out : FecReorderBuffer.t * ReorderResult + FecReorderBuffer.t * ReorderResult)
    : FecReorderBuffer.t * ReorderResult := match out with inl o | inr o => o end.

Lemma fec_wf_eq st st' :
  fec_wf st -> FecReorderBuffer.blocks st' = FecReorderBuffer.blocks st -> fec_wf st'.
Proof. intros [] H. constructor; by rewrite H. Qed.

Lemma fec_wf_remove st st' base :
  fec_wf st -> FecReorderBuffer.blocks st' = BTreeMap.remove base (FecReorderBuffer.blocks st) -> fec_wf st'.
Proof.
  intros [Hwf Hb] H. constructor; rewrite H; [by apply bt_remove_wf|].
  intros k b. rewrite bt_get_remove by done. destruct (k =? base); [done|apply Hb].
Qed.

Lemma fec_wf_insert st st' base b :
  fec_wf st -> block_wf b -> FecBlock.base_index b = base ->
  FecReorderBuffer.blocks st' = BTreeMap.insert base b (FecReorderBuffer.blocks st) -> fec_wf st'.
Proof.
  intros [Hwf Hb] Hbw Hbase H. constructor; rewrite H; [by apply bt_insert_wf|].
  intros k b'. rewrite bt_get_insert by done. destruct (Z.eqb_spec k base) as [->|]; [|apply Hb].
  by intros [= <-].
Qed.

Lemma missing_run_none b first last_ run : missing_run b first last_ run -> None ∈ slots b.
Proof. intros H. eapply list_elem_of_lookup_2, H. Qed.

Lemma step_wf st now r out : fec_wf st -> step_case st now r out -> fec_wf (outcome_state out).1.
Proof.
  intros Hwf [] ; simpl; try (by eapply fec_wf_eq); try (by eapply fec_wf_remove).
  destruct (fw_block _ Hwf base b) as [Hb Hbase]; [by apply bt_first_get|].
  apply (fec_wf_insert (st <| FecReorderBuffer.blocks ::= BTreeMap.remove base |>) _ base
    (b <| FecBlock.repair_failed := true |>)).
  - by eapply fec_wf_remove.
  - apply failed_block_wf; [done|by eapply missing_run_none].
  - done.
  - done.
Qed.

(** The loop's measure: two per pending block, one for a gap before the head. *)
Definition gap_before (st : FecReorderBuffer.t) : bool :=
  match BTreeMap.first_key_value (FecReorderBuffer.blocks st), FecReorderBuffer.completed_through st with
  | Some (base, _), Some c => c <? base
  | _, _ => false
  end.
Definition measure (st : FecReorderBuffer.t) : nat :=
  2 * length (FecReorderBuffer.blocks st) + (if gap_before st then 1 else 0).

Lemma step_measure st now r st' r' :
  step_case st now r (inr (st', r')) -> (measure st' < measure st)%nat.
Proof.
  assert (Hrem : forall base b st'', BTreeMap.first_key_value (FecReorderBuffer.blocks st) = Some (base, b) ->
    FecReorderBuffer.blocks st'' = BTreeMap.remove base (FecReorderBuffer.blocks st) ->
    (measure st'' < measure st)%nat).
  { intros base b st'' Hf Hb. unfold measure. rewrite Hb.
    assert (Hg : is_Some (BTreeMap.get (FecReorderBuffer.blocks st) base)) by (eexists; by apply bt_first_get).
    pose proof (bt_len_remove _ _ Hg) as Hl. unfold BTreeMap.len, zlen in Hl.
    destruct (gap_before st''), (gap_before st); lia. }
  intros H. inversion H; subst; [|by eapply Hrem..].
  unfold measure. simpl. unfold gap_before at 2.
  repeat match goal with E : _ = Some _ |- _ => rewrite E end.
  rewrite (proj2 (Z.ltb_lt _ _)) by done. unfold gap_before. simpl.
  match goal with E : BTreeMap.first_key_value _ = Some _ |- _ => rewrite E end.
  rewrite Z.ltb_irrefl. lia.
Qed.

(** Induction over the iterations of the loop. *)
Lemma loop_ind (Inv Post : FecReorderBuffer.t -> ReorderResult -> Prop) now :
  (forall st r, Inv st r -> fec_wf st) ->
  (forall st r out, Inv st r -> step_case st now r out ->
     match out with inl (st', r') => Post st' r' | inr (st', r') => Inv st' r' end) ->
  forall fuel st r, Inv st r -> (measure st < fuel)%nat ->
  exists st' r', FecReorderBuffer.loop fuel st now r = Ok (st', r') /\ Post st' r'.
Proof.
  intros Hwf Hstep. induction fuel as [|fuel IH]; intros st r Hinv Hm; [lia|].
  cbn [FecReorderBuffer.loop].
  destruct (step_cases st now r (Hwf _ _ Hinv)) as (out & -> & Hcase). obind.
  pose proof (Hstep _ _ _ Hinv Hcase) as Hout. destruct out as [[st' r']|[st' r']]; [by eauto|].
  apply IH; [done|]. apply step_measure in Hcase. lia.
Qed.

Lemma fuel_enough st : (measure st < FecReorderBuffer.fuel_for st)%nat.
Proof. unfold measure, FecReorderBuffer.fuel_for. destruct (gap_before st); lia. Qed.

(** The state and the outcome of [push] before its loop runs. *)
Inductive push_case (st : FecReorderBuffer.t) (p : RtpPacket) (l : FecPacketLayout.t) (now : Z) :
    outcome NvstDropReason (FecReorderBuffer.t * ReorderResult) -> Prop :=
  | PushOld c : FecReorderBuffer.completed_through st = Some c -> pk_index p < c ->
      push_case st p l now (Ok (st, result_dropped None))
  | PushRefused m reason : m = FecReorderBuffer.blocks st ->
      reason = fec_error \/ reason = DuplicateRtpPacket (pk_index p) ->
      push_case st p l now (Ok (st <| FecReorderBuffer.blocks := m |>, result_dropped (Some reason)))
  | PushStored b b' :
      (forall c, FecReorderBuffer.completed_through st = Some c -> c <= pk_index p) ->
      BTreeMap.get (FecReorderBuffer.blocks st) (FecBlock.base_index b) = Some b
        \/ BTreeMap.get (FecReorderBuffer.blocks st) (FecBlock.base_index b) = None
           /\ b = FecBlock.new l (pk_index p) ->
      matching b l (pk_index p) -> block_wf b -> block_wf b' ->
      FecBlock.layout b' = FecBlock.layout b -> FecBlock.base_index b' = FecBlock.base_index b ->
      FecBlock.shards b !! Z.to_nat (FecPacketLayout.shard_index l) = Some None ->
      FecBlock.shards b' = <[Z.to_nat (FecPacketLayout.shard_index l) := Some p]> (FecBlock.shards b) ->
      push_case st p l now
        (FecReorderBuffer.loop
           (FecReorderBuffer.fuel_for (st <| FecReorderBuffer.blocks ::= BTreeMap.insert (FecBlock.base_index b) b' |>))
           (st <| FecReorderBuffer.blocks ::= BTreeMap.insert (FecBlock.base_index b) b' |>)
           now (result_dropped None)).

Lemma push_cases st p l now :
  fec_wf st -> packet_ok p -> layout_wf l -> push_case st p l now (FecReorderBuffer.push st p l now).
Proof.
  intros Hwf Hp Hl. unfold FecReorderBuffer.push.
  destruct (match FecReorderBuffer.completed_through st with Some c => pk_index p <? c | None => false end) eqn:Hold.
  { destruct (FecReorderBuffer.completed_through st) as [c|] eqn:Hc; [|done]. zbool. by eapply PushOld. }
  assert (Hthrough : forall c, FecReorderBuffer.completed_through st = Some c -> c <= pk_index p).
  { intros c Hc. rewrite Hc in Hold. by zbool. }
  set (base := saturating_sub (pk_index p) (FecPacketLayout.shard_index l)).
  destruct (new_block_wf l (pk_index p) Hl (po_index _ Hp)) as [Hnew Hmnew].
  destruct (BTreeMap.get (FecReorderBuffer.blocks st) base) as [b|] eqn:Hget; cbn [default]; unfold id.
  - destruct (fw_block _ Hwf base b Hget) as [Hb Hbase].
    assert (Hsame : BTreeMap.insert base b (FecReorderBuffer.blocks st) = FecReorderBuffer.blocks st).
    { apply bt_ext; [apply bt_insert_wf, Hwf|apply Hwf|]. intros k.
      rewrite bt_get_insert by apply Hwf. by destruct (Z.eqb_spec k base) as [->|]. }
    destruct (FecBlock.matches b l (pk_index p)) eqn:Hmatch; cbn [negb].
    2:{ apply (PushRefused _ _ _ _ (BTreeMap.insert base b (FecReorderBuffer.blocks st))); [apply Hsame|by left]. }
    destruct (insert_spec b l p Hb Hl (matches_spec _ _ _ Hmatch) Hp) as [->|(b' & -> & Hb' & Hlay & Hbi & Hslot & Hsh)];
      obind.
    + apply (PushRefused _ _ _ _ (BTreeMap.insert base b (FecReorderBuffer.blocks st))); [apply Hsame|by right].
    + replace base with (FecBlock.base_index b) by done.
      apply PushStored; try done; [left; by rewrite Hbase|by apply matches_spec].
  - rewrite Hmnew. cbn [negb].
    destruct (insert_spec _ l p Hnew Hl (matches_spec _ _ _ Hmnew) Hp)
      as [Hdup|(b' & -> & Hb' & Hlay & Hbi & Hslot & Hsh)].
    { exfalso. revert Hdup. unfold FecBlock.insert, idx. simpl. pose proof (lwf_shard _ Hl).
      rewrite zget_lookup, lookup_replicate_2 by lia. cbn [expect]. obind. cbn [is_some].
      rewrite set_idx_Ok; [done|]. unfold zlen. rewrite length_replicate. lia. }
    obind. change base with (FecBlock.base_index (FecBlock.new l (pk_index p))).
    apply PushStored; try done; by right.
Qed.

Lemma consec_lookup n l : (forall i p, l !! i = Some p -> pk_index p = n + Z.of_nat i) -> consec n l.
Proof.
  revert n. induction l as [|p l IH]; intros n H; simpl; [done|]. split.
  - rewrite (H 0%nat p eq_refl). lia.
  - apply IH. intros i q Hi. rewrite (H (S i) q Hi). lia.
Qed.

(** ** Runs over a sender's blocks *)

Definition arrival : Type := RtpPacket * FecPacketLayout.t * Z.

Fixpoint fec_run (st : FecReorderBuffer.t) (arrivals : list arrival)
    : outcome NvstDropReason (FecReorderBuffer.t * list ReorderResult) :=
  match arrivals with
  | [] => mret (st, [])
  | (p, l, now) :: arrivals =>
      out ← FecReorderBuffer.push st p l now;
      rest ← fec_run out.1 arrivals;
      mret (rest.1, out.2 :: rest.2)
  end.

Definition delivered (rs : list ReorderResult) : list RtpPacket := concat (map ready rs).

(** Fewer than 128 pending blocks, unless the head is one whose repair failed. *)
Definition bounded (st : FecReorderBuffer.t) : Prop :=
  BTreeMap.len (FecReorderBuffer.blocks st) < MAX_PENDING_FEC_BLOCKS
  \/ exists base b, BTreeMap.first_key_value (FecReorderBuffer.blocks st) = Some (base, b)
       /\ FecBlock.repair_failed b = true.

(** [sent base d t]: the sender has a block of [d] data and [t] total shards
    at index [base]; blocks do not overlap. *)
Definition disjoint_blocks (sent : Z -> nat -> nat -> Prop) : Prop :=
  forall b1 d1 t1 b2 d2 t2, sent b1 d1 t1 -> sent b2 d2 t2 ->
    (b1 = b2 /\ d1 = d2 /\ t1 = t2) \/ b1 + Z.of_nat t1 <= b2 \/ b2 + Z.of_nat t2 <= b1.

(** [p] is a shard of the block its layout describes. *)
Definition arrival_ok (sent : Z -> nat -> nat -> Prop) (offered : list RtpPacket) (a : arrival) : Prop :=
  let '(p, l, _) := a in
  packet_ok p /\ layout_wf l /\ FecPacketLayout.shard_index l <= pk_index p
  /\ sent (pk_index p - FecPacketLayout.shard_index l) (data_count l) (total_count l) /\ p ∈ offered.

Section sender.
Context (sent : Z -> nat -> nat -> Prop) (offered : list RtpPacket).
Hypothesis Hdisjoint : disjoint_blocks sent.

Definition through (st : FecReorderBuffer.t) : Z := default 0 (FecReorderBuffer.completed_through st).

Record block_sent (base : Z) (b : FecBlock.t) : Prop := {
  bs_sent : sent base (data_count (FecBlock.layout b)) (total_count (FecBlock.layout b));
  bs_packet : forall i p, FecBlock.shards b !! i = Some (Some p) ->
    pk_index p = base + Z.of_nat i /\ p ∈ offered
}.

Record order_inv (st : FecReorderBuffer.t) : Prop := {
  oi_wf : fec_wf st;
  oi_block : forall base b, BTreeMap.get (FecReorderBuffer.blocks st) base = Some b ->
    block_sent base b /\ through st <= base;
  oi_boundary : forall c, FecReorderBuffer.completed_through st = Some c -> 0 <= c /\
    forall b d t, sent b d t -> c <= b \/ b + Z.of_nat t <= c
}.

(** What a run of iterations has delivered so far, from [lo] on. *)
Record run_inv (lo : Z) (st : FecReorderBuffer.t) (r : ReorderResult) : Prop := {
  ri_order : order_inv st;
  ri_lo : lo <= through st;
  ri_sorted : StronglySorted Z.lt (map pk_index (ready r));
  ri_range : forall p, p ∈ ready r -> lo <= pk_index p < through st;
  ri_origin : forall p, p ∈ ready r -> p ∈ offered \/ pk_origin p = RecoveredData;
  ri_whole : forall p, p ∈ ready r -> exists base d t, sent base d t
    /\ base <= pk_index p < base + Z.of_nat d
    /\ forall k, base <= k < base + Z.of_nat d -> k ∈ map pk_index (ready r);
  ri_nack : nack r = None
}.

(** After the loop: also the NACK names only absent packets. *)
Record run_done (lo : Z) (st : FecReorderBuffer.t) (r : ReorderResult) : Prop := {
  rd_run : run_inv lo st (r <| nack := None |>);
  rd_bounded : bounded st;
  rd_nack : forall a z, nack r = Some (a, z) -> through st <= a <= z
    /\ forall base b i p, BTreeMap.get (FecReorderBuffer.blocks st) base = Some b ->
         FecBlock.shards b !! i = Some (Some p) -> ~ (a <= pk_index p <= z)
}.

Lemma head_facts st base b :
  order_inv st -> BTreeMap.first_key_value (FecReorderBuffer.blocks st) = Some (base, b) ->
  block_wf b /\ FecBlock.base_index b = base /\ block_sent base b /\ through st <= base /\ 0 <= base
  /\ forall base' b', BTreeMap.get (FecReorderBuffer.blocks st) base' = Some b' -> base' <> base ->
       base + Z.of_nat (total_count (FecBlock.layout b)) <= base'.
Proof.
  intros Hinv Hf. pose proof (bt_first_get _ _ _ Hf) as Hget.
  destruct (fw_block _ (oi_wf _ Hinv) _ _ Hget) as [Hb Hbase].
  destruct (oi_block _ Hinv _ _ Hget) as [Hs Ht]. split_and!; try done.
  { pose proof (bw_base _ Hb). lia. }
  intros base' b' Hg' Hne. pose proof (bt_first_min _ _ _ base' (fw_wf _ (oi_wf _ Hinv)) Hf) as Hmin.
  specialize (Hmin ltac:(apply bt_get_keys; eauto)).
  destruct (oi_block _ Hinv _ _ Hg') as [Hs' _].
  destruct (Hdisjoint _ _ _ _ _ _ (bs_sent _ _ Hs) (bs_sent _ _ Hs')) as [(?&_)|[?|?]]; lia.
Qed.

Lemma block_end_eq base b :
  block_wf b -> FecReorderBuffer.block_end base b = base + Z.of_nat (total_count (FecBlock.layout b)).
Proof. intros [[]]. unfold FecReorderBuffer.block_end, total_count. lia. Qed.

(** Removing the head block keeps the invariant. *)
Lemma order_remove st st' base b :
  order_inv st -> BTreeMap.first_key_value (FecReorderBuffer.blocks st) = Some (base, b) ->
  FecReorderBuffer.blocks st' = BTreeMap.remove base (FecReorderBuffer.blocks st) ->
  FecReorderBuffer.completed_through st' = Some (FecReorderBuffer.block_end base b) ->
  order_inv st' /\ through st <= base /\ through st' = base + Z.of_nat (total_count (FecBlock.layout b)).
Proof.
  intros Hinv Hf Hbl Hc. destruct (head_facts st base b Hinv Hf) as (Hb & Hbase & Hs & Ht & H0 & Hrest).
  rewrite block_end_eq in Hc by done. assert (Ht' : through st' = base + Z.of_nat (total_count (FecBlock.layout b))).
  { unfold through. by rewrite Hc. }
  split_and!; [|done|done]. constructor.
  - eapply fec_wf_remove; [apply Hinv|done].
  - intros base' b'. rewrite Hbl, bt_get_remove by apply (oi_wf _ Hinv).
    destruct (Z.eqb_spec base' base) as [|Hne]; [done|]. intros Hg. split; [by apply (oi_block _ Hinv)|].
    rewrite Ht'. by eapply Hrest.
  - intros c. rewrite Hc. intros [= <-]. split; [lia|]. intros b2 d2 t2 H2.
    destruct (Hdisjoint _ _ _ _ _ _ (bs_sent _ _ Hs) H2) as [(<-&_&<-)|[?|?]]; lia.
Qed.

(** A delivered block is its data indices, in order. *)
Lemma delivered_consec base b rs :
  block_wf b -> FecBlock.base_index b = base -> block_sent base b -> delivered_block b rs ->
  consec base rs /\ zlen rs = Z.of_nat (data_count (FecBlock.layout b))
  /\ forall p, p ∈ rs -> p ∈ offered \/ pk_origin p = RecoveredData.
Proof.
  intros Hb Hbase Hs [Hlen Hrecv Hrec]. destruct (block_counts b Hb) as (_ & _ & Hsl).
  assert (Hall : forall i p, rs !! i = Some p -> pk_index p = base + Z.of_nat i
    /\ (p ∈ offered \/ pk_origin p = RecoveredData)).
  { intros i p Hi. pose proof (lookup_lt_Some _ _ _ Hi) as Hlt.
    destruct (lookup_lt_is_Some_2 (slots b) i) as [[q|] Hq]; [lia| |].
    - rewrite (Hrecv i q Hq) in Hi. injection Hi as <-. unfold slots in Hq.
      apply lookup_take_Some in Hq as [Hq _]. destruct (bs_packet _ _ Hs i q Hq). auto.
    - destruct (Hrec i Hq) as (r & Hr & _ & Hidx & Ho). rewrite Hr in Hi. injection Hi as <-.
      rewrite Hbase in Hidx. auto. }
  split_and!.
  - apply consec_lookup. intros i p Hi. by apply Hall.
  - unfold zlen. by rewrite Hlen.
  - intros p [i Hi]%list_elem_of_lookup. by apply (Hall i).
Qed.

Lemma run_deliver lo st r st' r' base b rs :
  run_inv lo st r -> BTreeMap.first_key_value (FecReorderBuffer.blocks st) = Some (base, b) ->
  FecReorderBuffer.blocks st' = BTreeMap.remove base (FecReorderBuffer.blocks st) ->
  FecReorderBuffer.completed_through st' = Some (FecReorderBuffer.block_end base b) ->
  delivered_block b rs -> ready r' = ready r ++ rs -> nack r' = nack r -> run_inv lo st' r'.
Proof.
  intros [Hinv Hlo Hsort Hrange Horigin Hwhole Hnack] Hf Hbl Hc Hdel Hready Hn.
  destruct (head_facts st base b Hinv Hf) as (Hb & Hbase & Hs & Ht & H0 & _).
  destruct (order_remove st st' base b Hinv Hf Hbl Hc) as (Hinv' & _ & Ht').
  destruct (delivered_consec base b rs Hb Hbase Hs Hdel) as (Hcons & Hlen & Ho).
  destruct (block_counts b Hb) as (Hd1 & Hd2 & _).
  assert (Hrs : forall p, p ∈ rs -> base <= pk_index p < base + Z.of_nat (data_count (FecBlock.layout b))).
  { intros p Hp. pose proof (consec_elem _ _ _ Hcons Hp). lia. }
  constructor; rewrite ?Hready, ?Hn.
  - done.
  - lia.
  - rewrite map_app. apply (sorted_app _ _ base); [done|by apply consec_sorted in Hcons as []|..].
    + apply Forall_map, Forall_forall. intros p Hp. simpl. specialize (Hrange p Hp). lia.
    + apply Forall_map, Forall_forall. intros p Hp. simpl. specialize (Hrs p Hp). lia.
  - intros p [Hp|Hp]%elem_of_app; [specialize (Hrange p Hp)|specialize (Hrs p Hp)]; lia.
  - intros p [Hp|Hp]%elem_of_app; auto.
  - intros p [Hp|Hp]%elem_of_app.
    + destruct (Hwhole p Hp) as (b0 & d0 & t0 & H1 & H2 & H3). exists b0, d0, t0.
      split_and!; try done; try lia. intros k Hk. rewrite map_app. apply elem_of_app. left. by apply H3.
    + exists base, (data_count (FecBlock.layout b)), (total_count (FecBlock.layout b)).
      split; [apply Hs|]. split; [by apply Hrs|]. intros k Hk.
      rewrite map_app. apply elem_of_app. right. apply (consec_mem base); [done|lia].
  - done.
Qed.

(** Skipping ahead forgets what the push had delivered. *)
Lemma run_skip lo st r st' r' :
  run_inv lo st r -> order_inv st' -> through st <= through st' -> ready r' = [] -> nack r' = None ->
  run_inv lo st' r'.
Proof.
  intros [Hinv Hlo Hsort Hrange Horigin Hwhole Hnack] Hinv' Ht Hr Hn. constructor; rewrite ?Hr.
  - done.
  - lia.
  - constructor.
  - intros p Hp. inversion Hp.
  - intros p Hp. inversion Hp.
  - intros p Hp. inversion Hp.
  - done.
Qed.

Lemma order_gap st st' base b :
  order_inv st -> BTreeMap.first_key_value (FecReorderBuffer.blocks st) = Some (base, b) ->
  FecReorderBuffer.blocks st' = FecReorderBuffer.blocks st ->
  FecReorderBuffer.completed_through st' = Some base -> order_inv st'.
Proof.
  intros Hinv Hf Hbl Hc. destruct (head_facts st base b Hinv Hf) as (Hb & Hbase & Hs & Ht & H0 & Hrest).
  constructor.
  - eapply fec_wf_eq; [apply Hinv|done].
  - intros base' b'. rewrite Hbl. intros Hg. split; [by apply (oi_block _ Hinv)|].
    unfold through. rewrite Hc. simpl.
    apply (bt_first_min (FecReorderBuffer.blocks st) base b); [apply (oi_wf _ Hinv)|done|].
    apply bt_get_keys; eauto.
  - intros c. rewrite Hc. intros [= <-]. split; [done|]. intros b2 d2 t2 H2.
    destruct (Hdisjoint _ _ _ _ _ _ (bs_sent _ _ Hs) H2) as [(<-&_&<-)|[?|?]]; lia.
Qed.

Lemma order_same st st' :
  order_inv st -> FecReorderBuffer.blocks st' = FecReorderBuffer.blocks st ->
  FecReorderBuffer.completed_through st' = FecReorderBuffer.completed_through st -> order_inv st'.
Proof.
  intros [Hwf Hb Hc] H1 H2. constructor; unfold through in *; rewrite ?H1, ?H2; try done.
  by eapply fec_wf_eq.
Qed.

Lemma run_same lo st r st' r' :
  run_inv lo st r -> order_inv st' -> through st' = through st -> ready r' = ready r -> nack r' = None ->
  run_inv lo st' r'.
Proof.
  intros [Hinv Hlo Hsort Hrange Horigin Hwhole Hnack] Hinv' Ht Hr Hn. constructor; rewrite ?Hr, ?Ht; done.
Qed.

(** No stored packet lies in the head's first missing run, or before the head. *)
Lemma nack_before st base b a z :
  order_inv st -> BTreeMap.first_key_value (FecReorderBuffer.blocks st) = Some (base, b) -> z < base ->
  forall base' b' i p, BTreeMap.get (FecReorderBuffer.blocks st) base' = Some b' ->
    FecBlock.shards b' !! i = Some (Some p) -> ~ (a <= pk_index p <= z).
Proof.
  intros Hinv Hf Hz base' b' i p Hg Hi Hp. destruct (oi_block _ Hinv _ _ Hg) as [Hs _].
  destruct (bs_packet _ _ Hs i p Hi) as [Hidx _].
  pose proof (bt_first_min _ _ _ base' (fw_wf _ (oi_wf _ Hinv)) Hf) as Hmin.
  specialize (Hmin ltac:(apply bt_get_keys; eauto)). lia.
Qed.

Lemma nack_run st base b first last_ run :
  order_inv st -> BTreeMap.first_key_value (FecReorderBuffer.blocks st) = Some (base, b) ->
  missing_run b first last_ run ->
  base <= base + Z.of_nat first <= base + Z.of_nat first + (Z.of_nat run - 1)
  /\ forall base' b' i p, BTreeMap.get (FecReorderBuffer.blocks st) base' = Some b' ->
    FecBlock.shards b' !! i = Some (Some p) ->
    ~ (base + Z.of_nat first <= pk_index p <= base + Z.of_nat first + (Z.of_nat run - 1)).
Proof.
  intros Hinv Hf [_ _ _ [Hrun Hmiss]].
  destruct (head_facts st base b Hinv Hf) as (Hb & Hbase & Hs & Ht & H0 & Hrest).
  destruct (block_counts b Hb) as (Hd1 & Hd2 & Hsl). split; [lia|].
  intros base' b' i p Hg Hi Hp. destruct (oi_block _ Hinv _ _ Hg) as [Hs' _].
  destruct (bs_packet _ _ Hs' i p Hi) as [Hidx _].
  assert (Hin : (first + run - 1 < data_count (FecBlock.layout b))%nat).
  { pose proof (lookup_lt_Some _ _ _ (Hmiss (first + run - 1)%nat ltac:(lia))). lia. }
  destruct (decide (base' = base)) as [->|Hne].
  - rewrite (bt_first_get _ _ _ Hf) in Hg. injection Hg as <-.
    specialize (Hmiss i ltac:(lia)). unfold slots in Hmiss. apply lookup_take_Some in Hmiss as [Hm _].
    rewrite Hi in Hm. done.
  - specialize (Hrest base' b' Hg Hne). lia.
Qed.

Lemma run_repair_failed lo now st r base b e first last_ run :
  run_inv lo st r -> BTreeMap.first_key_value (FecReorderBuffer.blocks st) = Some (base, b) ->
  FecBlock.finish b (FecReorderBuffer.shard_len st) = Err e -> missing_run b first last_ run ->
  run_done lo
    (st <| FecReorderBuffer.blocks := BTreeMap.insert base (b <| FecBlock.repair_failed := true |>)
             (BTreeMap.remove base (FecReorderBuffer.blocks st)) |>
        <| FecReorderBuffer.gap_wait := Some (base + Z.of_nat first, now) |>)
    (r <| nack := Some (base + Z.of_nat first, base + Z.of_nat first + (Z.of_nat run - 1)) |>).
Proof.
  intros Hrun Hf Hfin Hmr. pose proof (ri_order _ _ _ Hrun) as Hinv.
  destruct (head_facts st base b Hinv Hf) as (Hb & Hbase & Hs & Ht & H0 & Hrest).
  pose proof (nack_run st base b first last_ run Hinv Hf Hmr) as [Hle Habs].
  pose proof (fw_wf _ (oi_wf _ Hinv)) as Hwf.
  set (b' := b <| FecBlock.repair_failed := true |>).
  set (m := BTreeMap.insert base b' (BTreeMap.remove base (FecReorderBuffer.blocks st))).
  assert (Hget : forall k, BTreeMap.get m k = if k =? base then Some b' else BTreeMap.get (FecReorderBuffer.blocks st) k).
  { intros k. unfold m. rewrite bt_get_insert by by apply bt_remove_wf.
    destruct (Z.eqb_spec k base); [done|]. rewrite bt_get_remove by done.
    by rewrite (proj2 (Z.eqb_neq _ _)). }
  assert (Hinv' : order_inv (st <| FecReorderBuffer.blocks := m |>
    <| FecReorderBuffer.gap_wait := Some (base + Z.of_nat first, now) |>)).
  { constructor; simpl; unfold const.
    - exact (step_wf st now r _ (oi_wf _ Hinv) (StepRepairFailed st now r base b e first last_ run Hf Hfin Hmr)).
    - intros k bk. rewrite Hget. destruct (Z.eqb_spec k base) as [->|]; [|by apply (oi_block _ Hinv)].
      intros [= <-]. split; [|done]. destruct Hs as [H1 H2]. by constructor.
    - apply (oi_boundary _ Hinv). }
  constructor; simpl.
  - eapply run_same; try done.
  - right. exists base, b'. split; [|done]. simpl. unfold const. fold b' m.
    apply bt_first_intro; [by apply bt_insert_wf, bt_remove_wf|by rewrite Hget, Z.eqb_refl|].
    intros k [v Hv]%bt_get_keys. rewrite Hget in Hv. destruct (Z.eqb_spec k base); [lia|].
    apply (bt_first_min _ _ _ k Hwf Hf). apply bt_get_keys. eauto.
  - intros a z [= <- <-]. split; [unfold through in *; simpl; lia|].
    intros base2 b2 i p. fold b' m. unfold const. rewrite Hget. destruct (Z.eqb_spec base2 base) as [->|].
    + intros [= <-] Hi. apply (Habs base b i p); [by apply bt_first_get|done].
    + apply Habs.
Qed.

Lemma step_run lo now st r out :
  run_inv lo st r -> step_case st now r out ->
  match out with inl (st', r') => run_done lo st' r' | inr (st', r') => run_inv lo st' r' end.
Proof.
  intros Hrun Hcase. pose proof (ri_order _ _ _ Hrun) as Hinv. pose proof (ri_nack _ _ _ Hrun) as Hnone.
  destruct Hcase as [Hempty|base b c g Hf Hc Hlt Hlen|base b c Hf Hc Hlt|base b rs n Hf Hge Hfin Hdel
    |base b e first last_ run Hf Hfin Hmr|base b Hf Hlen|base b first last_ run g Hf Hmr Hlen
    |base b first last_ run Hf Hge Hmr].
  - constructor; simpl.
    + eapply run_same; try done. by eapply order_same.
    + left. unfold BTreeMap.len. simpl. rewrite Hempty. reflexivity.
    + rewrite Hnone. done.
  - constructor; simpl.
    + eapply run_same; try done. by eapply order_same.
    + by left.
    + intros a z [= <- <-]. unfold through. simpl. rewrite Hc. simpl. split; [lia|].
      eapply nack_before; [done|done|lia].
  - eapply run_skip; try done; simpl; [by eapply order_gap|]. unfold through. simpl. rewrite Hc. simpl. lia.
  - by eapply run_deliver.
  - by eapply run_repair_failed.
  - constructor.
    + eapply run_same; try done.
    + left. rewrite Hlen. reflexivity.
    + rewrite Hnone. done.
  - pose proof (nack_run st base b first last_ run Hinv Hf Hmr) as [Hle Habs].
    destruct (head_facts st base b Hinv Hf) as (Hb & Hbase & Hs & Ht & H0 & Hrest).
    constructor; simpl.
    + eapply run_same; try done. by eapply order_same.
    + by left.
    + intros a z [= <- <-]. split; [unfold through in *; simpl; lia|done].
  - destruct (order_remove st (st <| FecReorderBuffer.blocks ::= BTreeMap.remove base |>
       <| FecReorderBuffer.completed_through := Some (FecReorderBuffer.block_end base b) |>
       <| FecReorderBuffer.gap_wait := None |>) base b Hinv Hf) as (Hinv' & Hle & Ht'); try done.
    eapply run_skip; try done. rewrite Ht'. lia.
Qed.

Lemma idle_run st r :
  order_inv st -> bounded st -> ready r = [] -> nack r = None -> run_done (through st) st r.
Proof.
  intros Hinv Hb Hr Hn. constructor; [|done|by rewrite Hn].
  constructor; simpl; unfold const; rewrite ?Hr; try done; try lia.
  - constructor.
  - intros p Hp. inversion Hp.
  - intros p Hp. inversion Hp.
  - intros p Hp. inversion Hp.
Qed.

(** Storing a packet of a sent block keeps the invariant. *)
Lemma order_store st p l now b b' :
  order_inv st -> arrival_ok sent offered (p, l, now) ->
  (forall c, FecReorderBuffer.completed_through st = Some c -> c <= pk_index p) ->
  BTreeMap.get (FecReorderBuffer.blocks st) (FecBlock.base_index b) = Some b
    \/ BTreeMap.get (FecReorderBuffer.blocks st) (FecBlock.base_index b) = None
       /\ b = FecBlock.new l (pk_index p) ->
  matching b l (pk_index p) -> block_wf b' ->
  FecBlock.layout b' = FecBlock.layout b -> FecBlock.base_index b' = FecBlock.base_index b ->
  FecBlock.shards b' = <[Z.to_nat (FecPacketLayout.shard_index l) := Some p]> (FecBlock.shards b) ->
  order_inv (st <| FecReorderBuffer.blocks ::= BTreeMap.insert (FecBlock.base_index b) b' |>).
Proof.
  intros Hinv (Hp & Hl & Hshard & Hsent & Hoff) Hthrough Hold (Hd & Hpar & Hbase) Hb' Hlay Hbi Hsh.
  unfold saturating_sub in Hbase. rewrite Z.max_r in Hbase by lia.
  pose proof (lwf_shard _ Hl) as Hsl.
  assert (Ht : Z.of_nat (total_count l) = FecPacketLayout.data_shards l + FecPacketLayout.parity_shards l).
  { unfold total_count. destruct Hl. lia. }
  assert (Hle : through st <= FecBlock.base_index b).
  { unfold through. destruct (FecReorderBuffer.completed_through st) as [c|] eqn:Hc; simpl; [|lia].
    destruct (oi_boundary _ Hinv c Hc) as [_ Hbnd]. specialize (Hthrough c eq_refl).
    destruct (Hbnd _ _ _ Hsent); lia. }
  constructor.
  - eapply fec_wf_insert; [apply Hinv|done|done|done].
  - intros k bk. simpl. rewrite bt_get_insert by apply (oi_wf _ Hinv).
    destruct (Z.eqb_spec k (FecBlock.base_index b)) as [->|]; [|by apply (oi_block _ Hinv)].
    intros [= <-]. split; [|done]. constructor.
    + rewrite Hlay, Hbase. unfold data_count, total_count. by rewrite Hd, Hpar.
    + intros i q. rewrite Hsh. intros [(<- & Hq & _)|[Hne Hi]]%list_lookup_insert_Some.
      * injection Hq as ->. split; [lia|done].
      * destruct Hold as [Hg|[_ ->]].
        -- destruct (oi_block _ Hinv _ _ Hg) as [Hs _]. by apply (bs_packet _ _ Hs).
        -- simpl in Hi. apply lookup_replicate in Hi as [? _]. done.
  - apply (oi_boundary _ Hinv).
Qed.

Lemma push_run st p l now :
  order_inv st -> bounded st -> arrival_ok sent offered (p, l, now) ->
  exists st' r, FecReorderBuffer.push st p l now = Ok (st', r) /\ run_done (through st) st' r.
Proof.
  intros Hinv Hbd Hok. pose proof Hok as (Hp & Hl & _).
  destruct (push_cases st p l now (oi_wf _ Hinv) Hp Hl) as [c Hc Hlt|m reason ->|b b' Hthrough Hold Hm Hb Hb' Hlay Hbi Hslot Hsh].
  - eexists _, _. split; [reflexivity|]. by apply idle_run.
  - eexists _, _. split; [reflexivity|].
    change (through st) with (through (st <| FecReorderBuffer.blocks := FecReorderBuffer.blocks st |>)).
    apply idle_run; [|done..].
    by eapply order_same.
  - pose proof (order_store st p l now b b' Hinv Hok Hthrough Hold Hm Hb' Hlay Hbi Hsh) as Hinv'.
    apply (loop_ind (run_inv (through st)) (run_done (through st))).
    + intros st1 r1 Hrun. apply (ri_order _ _ _ Hrun).
    + intros st1 r1 out. apply step_run.
    + constructor; simpl; try done; try (constructor; done); intros q Hq; inversion Hq.
    + apply fuel_enough.
Qed.

Lemma fec_run_spec arrivals st :
  order_inv st -> bounded st -> Forall (arrival_ok sent offered) arrivals ->
  exists st' rs, fec_run st arrivals = Ok (st', rs) /\ order_inv st' /\ bounded st'
    /\ StronglySorted Z.lt (map pk_index (delivered rs))
    /\ (forall p, p ∈ delivered rs -> through st <= pk_index p /\ (p ∈ offered \/ pk_origin p = RecoveredData)
          /\ exists base d t, sent base d t /\ base <= pk_index p < base + Z.of_nat d
             /\ forall k, base <= k < base + Z.of_nat d -> k ∈ map pk_index (delivered rs)).
Proof.
  intros Hinv Hb Hall. revert st Hinv Hb. induction Hall as [|[[p l] now] arrivals Hok Hall IH]; intros st Hinv Hb.
  { exists st, []. unfold delivered. simpl.
    split_and!; [done|done|done|constructor|]. intros p Hp. inversion Hp. }
  cbn [fec_run]. destruct (push_run st p l now Hinv Hb Hok) as (st1 & r & -> & [Hrun Hb1 _]). obind. cbn [fst snd].
  destruct Hrun as [Hinv1 Hlo Hsort Hrange Horigin Hwhole _]. simpl in *.
  destruct (IH st1 Hinv1 Hb1) as (st' & rs & -> & Hinv' & Hb' & Hs & Hd). obind. exists st', (r :: rs).
  unfold delivered in *. cbn [map concat]. split_and!; [done|done|done|..].
  - rewrite map_app. apply (sorted_app _ _ (through st1)); [done|done|..].
    + apply Forall_map, Forall_forall. intros q Hq. simpl. apply Hrange in Hq; lia.
    + apply Forall_map, Forall_forall. intros q Hq. simpl. apply Hd in Hq; lia.
  - intros q [Hq|Hq]%elem_of_app.
    + split; [apply Hrange in Hq; lia|]. split; [by apply Horigin|].
      destruct (Hwhole q Hq) as (b0 & d0 & t0 & H1 & H2 & H3). exists b0, d0, t0. split_and!; [done|lia|lia|].
      intros k Hk. rewrite map_app. apply elem_of_app. left. by apply H3.
    + destruct (Hd q Hq) as (Hge & Ho & b0 & d0 & t0 & H1 & H2 & H3). split; [lia|]. split; [done|].
      exists b0, d0, t0. split_and!; [done|lia|lia|]. intros k Hk. rewrite map_app. apply elem_of_app. right. by apply H3.
Qed.

Lemma order_new size : order_inv (FecReorderBuffer.new size) /\ bounded (FecReorderBuffer.new size).
Proof.
  split; [constructor|by left]; simpl; try done. constructor; simpl; [apply bt_wf_empty|done].
Qed.
End sender.

(** C8: whatever the network does to a sender's blocks (loss, duplication,
    reordering, any arrival times), the FEC reorder buffer terminates without a
    panic on every packet and delivers a strictly increasing sequence of packet
    indices, each one an offered packet or a recovered one, and always whole
    blocks: with one data packet of a block come all of them. *)
Theorem fec_delivers_whole_blocks_in_order sent offered size arrivals
    (Hdisjoint : disjoint_blocks sent) (Hok : Forall (arrival_ok sent offered) arrivals) :
  exists st rs, fec_run (FecReorderBuffer.new size) arrivals = Ok (st, rs)
    /\ StronglySorted Z.lt (map pk_index (delivered rs))
    /\ forall p, p ∈ delivered rs -> (p ∈ offered \/ pk_origin p = RecoveredData)
          /\ exists base d t, sent base d t /\ base <= pk_index p < base + Z.of_nat d
             /\ forall k, base <= k < base + Z.of_nat d -> k ∈ map pk_index (delivered rs).
Proof.
  destruct (order_new sent offered size) as [Hinv Hb].
  destruct (fec_run_spec sent offered Hdisjoint arrivals _ Hinv Hb Hok) as (st & rs & Hrun & _ & _ & Hs & Hd).
  exists st, rs. split_and!; [done|done|]. intros p Hp. by destruct (Hd p Hp) as (_ & ? & ?).
Qed.

(** After any such run the buffer holds fewer than 128 blocks unless the
    head is a block whose repair failed, and the next packet's NACK, if it asks
    for one, is a non-empty range of indices at or after the delivered ones
    none of which is stored: retransmissions are requested only for packets
    that are really missing. *)
Theorem fec_nacks_only_missing sent offered size arrivals p l now
    (Hdisjoint : disjoint_blocks sent) (Hok : Forall (arrival_ok sent offered) arrivals)
    (Hp : arrival_ok sent offered (p, l, now)) :
  exists st rs st' r, fec_run (FecReorderBuffer.new size) arrivals = Ok (st, rs) /\ bounded st
    /\ FecReorderBuffer.push st p l now = Ok (st', r)
    /\ forall a z, nack r = Some (a, z) -> through st' <= a <= z
         /\ forall base b i q, BTreeMap.get (FecReorderBuffer.blocks st') base = Some b ->
              FecBlock.shards b !! i = Some (Some q) -> ~ (a <= pk_index q <= z).
Proof.
  destruct (order_new sent offered size) as [Hinv Hb].
  destruct (fec_run_spec sent offered Hdisjoint arrivals _ Hinv Hb Hok) as (st & rs & Hrun & Hinv' & Hb' & _).
  destruct (push_run sent offered Hdisjoint st p l now Hinv' Hb' Hp) as (st' & r & Hpush & [_ _ Hn]).
  exists st, rs, st', r. by split_and!.
Qed.

(** ** A concrete block: two data packets, one parity packet *)

Definition fec_gs (shard : Z) : list u8 :=
  to_le_bytes 4 0 ++ to_le_bytes 4 7 ++ [Byte.x05; Byte.x00; Byte.x00; Byte.x00]
  ++ to_le_bytes 4 (Z.lor (Z.shiftl 50 4) (Z.lor (Z.shiftl shard 12) (Z.shiftl 2 22))).

Definition fec_wire (shard : Z) : list u8 := wire_bytes {|
  w_marker := false; w_payload_type := 96; w_sequence := shard; w_timestamp := 90000;
  w_ssrc := 1; w_csrcs := []; w_gs := Some (fec_gs shard);
  w_body := replicate 8 (z2b (shard + 65)); w_padding := [] |}.

Definition fec_data : list (list u8) := [fec_wire 0; fec_wire 1].
(** The parity packet: its own RTP envelope, parity behind it. *)
Definition fec_parity : list u8 := take 16 (fec_wire 2) ++ drop 16 (parity_shard fec_data 1 40 0).

Definition parsed (bytes : list u8) : RtpHeader.t :=
  match RtpHeader.parse bytes with Ok h => h | _ => sample_header end.
Definition fec_packet (i : Z) (bytes : list u8) : RtpPacket :=
  {| pk_index := i; pk_header := parsed bytes; pk_plaintext := bytes; pk_origin := Authenticated |}.
Definition fec_layout (i : Z) : FecPacketLayout.t := {|
  FecPacketLayout.frame_index := 7; FecPacketLayout.block_index := 0;
  FecPacketLayout.last_block_index := 0; FecPacketLayout.shard_index := i;
  FecPacketLayout.data_shards := 2; FecPacketLayout.parity_shards := 1 |}.

Lemma fec_packet_ok i bytes h :
  0 <= i -> RtpHeader.parse bytes = Ok h -> is_Some (RtpHeader.gs_video_header h) ->
  packet_ok (fec_packet i bytes).
Proof.
  intros Hi Hp Hg. pose proof (parse_spec bytes) as H. rewrite Hp in H.
  unfold fec_packet, parsed. rewrite Hp. constructor; simpl; tauto.
Qed.

Lemma fec_layout_wf i : 0 <= i < 3 -> layout_wf (fec_layout i).
Proof. intros. constructor; simpl; try lia. done. Qed.

(** The block with its second data packet lost. *)
Definition fec_block : FecBlock.t := {|
  FecBlock.layout := fec_layout 0; FecBlock.base_index := 0;
  FecBlock.shards := [Some (fec_packet 0 (fec_wire 0)); None; Some (fec_packet 2 fec_parity)];
  FecBlock.repair_failed := false |}.

Lemma fec_block_wf : block_wf fec_block.
Proof.
  constructor; [by apply fec_layout_wf|done|done| |done].
  intros [|[|[|i]]] p; simpl; intros Hp; try done; injection Hp as <-;
    (eapply fec_packet_ok; [lia|vm_compute; reflexivity|by eexists]).
Qed.

Lemma splice_start (s s' v : list u8) :
  length s = length s' -> (forall k, zlen v <= Z.of_nat k -> s !! k = s' !! k) ->
  splice s 0 v = splice s' 0 v.
Proof.
  intros Hl Hk. unfold splice. f_equal. f_equal. apply list_eq. intros k. rewrite !lookup_drop.
  apply Hk. unfold zlen. lia.
Qed.

Lemma recovered_agree b ext envelope i s s' :
  zlen envelope = ext -> length s = length s' ->
  (forall k, ext <= Z.of_nat k -> s !! k = s' !! k) ->
  recovered b ext envelope i s = recovered b ext envelope i s'.
Proof.
  intros He Hl Hk. unfold recovered, restored_bytes.
  rewrite (splice_start s s') by (done || by rewrite He). by replace (zlen s) with (zlen s') by (unfold zlen; lia).
Qed.


Lemma fec_sample_arrival i bytes h :
  0 <= i < 3 -> RtpHeader.parse bytes = Ok h -> is_Some (RtpHeader.gs_video_header h) ->
  forall offered now, fec_packet i bytes ∈ offered ->
  arrival_ok (fun b d t => b = 0 /\ d = 2%nat /\ t = 3%nat) offered (fec_packet i bytes, fec_layout i, now).
Proof.
  intros Hi Hp Hg offered now Hin. simpl. split; [by apply (fec_packet_ok _ _ h); [lia|..]|].
  split; [by apply fec_layout_wf|]. split; [lia|]. split; [|done]. split; [lia|done].
Qed.

Definition fec_arrivals : list arrival :=
  [(fec_packet 2 fec_parity, fec_layout 2, 0); (fec_packet 0 (fec_wire 0), fec_layout 0, 1)].
Definition fec_offered : list RtpPacket := [fec_packet 2 fec_parity; fec_packet 0 (fec_wire 0)].

Lemma fec_arrivals_ok :
  Forall (arrival_ok (fun b d t => b = 0 /\ d = 2%nat /\ t = 3%nat) fec_offered) fec_arrivals.
Proof.
  apply Forall_cons_2; [|apply Forall_cons_2; [|constructor]].
  - eapply fec_sample_arrival; [lia|vm_compute; reflexivity|by eexists|by left].
  - eapply fec_sample_arrival; [lia|vm_compute; reflexivity|by eexists|by right; left].
Qed.

Lemma fec_disjoint : disjoint_blocks (fun b d t => b = 0 /\ d = 2%nat /\ t = 3%nat).
Proof. intros b1 d1 t1 b2 d2 t2 (-> & -> & ->) (-> & -> & ->). by left. Qed.

Lemma fec_delivers_whole_blocks_in_order_witness :
  fmap (fun o => map pk_index (delivered o.2)) (fec_run (FecReorderBuffer.new 24) fec_arrivals) = Ok [0; 1]
  /\ exists st rs, fec_run (FecReorderBuffer.new 24) fec_arrivals = Ok (st, rs)
     /\ StronglySorted Z.lt (map pk_index (delivered rs)).
Proof.
  split; [vm_compute; reflexivity|].
  destruct (fec_delivers_whole_blocks_in_order _ _ 24 fec_arrivals fec_disjoint fec_arrivals_ok)
    as (st & rs & Hrun & Hs & _). exists st, rs. split; [exact Hrun|exact Hs].
Defined.

Lemma fec_nacks_only_missing_witness :
  exists st rs st' r, fec_run (FecReorderBuffer.new 24) fec_arrivals = Ok (st, rs)
    /\ FecReorderBuffer.push st (fec_packet 0 (fec_wire 0)) (fec_layout 0) 2 = Ok (st', r).
Proof.
  destruct (fec_nacks_only_missing _ fec_offered 24 fec_arrivals (fec_packet 0 (fec_wire 0)) (fec_layout 0) 2
    fec_disjoint fec_arrivals_ok) as (st & rs & st' & r & H1 & _ & H2 & _).
  - eapply fec_sample_arrival; [lia|vm_compute; reflexivity|by eexists|by right; left].
  - exists st, rs, st', r. split; [exact H1|exact H2].
Defined.
