(* ===== verification/Assembler.v ===== *)
(** * Assembling access units

    [VideoAccessUnitAssembler] of [nvst.rs] and the Annex B helpers it uses:
    the data packets of one frame are concatenated into an
    [EncodedVideoAccessUnit]. *)

From S2P Require Import Prelude Types Rtp.

Definition MAX_GS_FRAME_HEADER_BYTES : Z := 64.
Definition GS_SHORT_FRAME_HEADER_BYTES : Z := 8.
Definition GFN_EXTENDED_FRAME_HEADER_BYTES : Z := 20.

(** ** Annex B *)

(** [offset] counts the windows already passed. *)
Fixpoint find_annex_b_from (offset : Z) (bytes : list u8) : option (Z * Z) :=
  match bytes with
  | [] => None
  | a :: tail =>
      match tail with
      | b :: c :: rest =>
          if decide ([a; b; c] = [Byte.x00; Byte.x00; Byte.x01]) then Some (offset, 3)
          else if decide ([a; b; c] = [Byte.x00; Byte.x00; Byte.x00] /\ head rest = Some Byte.x01)
          then Some (offset, 4)
          else find_annex_b_from (offset + 1) tail
      | _ => None
      end
  end.
Definition find_annex_b_start_code (bytes : list u8) : option (Z * Z) := find_annex_b_from 0 bytes.

(** The loop of [strip_trailing_access_unit_delimiter]: the last start code and
    the NAL unit behind it. *)
Fixpoint last_nal_loop (fuel : nat) (bytes : list u8) (offset : Z) (last_nal : option (Z * Z))
    : outcome NvstDropReason (option (Z * Z)) :=
  match fuel with
  | O => Panic
  | S fuel =>
      rest ← slice bytes offset (zlen bytes);
      match find_annex_b_start_code rest with
      | None => mret last_nal
      | Some (start, prefix_len) =>
          let start := offset + start in
          let nal_start := start + prefix_len in
          last_nal_loop fuel bytes nal_start (Some (start, nal_start))
      end
  end.

Definition is_delimiter (codec : NvstVideoCodec) (header : u8) : bool :=
  match codec with
  | H264 => Z.land (b2z header) 0x1f =? 9
  | H265 => Z.land (Z.shiftr (b2z header) 1) 0x3f =? 35
  | Av1 => false
  end.

Definition strip_trailing_access_unit_delimiter (codec : NvstVideoCodec) (bytes : list u8)
    : outcome NvstDropReason (list u8) :=
  if decide (codec = Av1) then mret bytes else
  last_nal ← last_nal_loop (S (length bytes)) bytes 0 None;
  match last_nal with
  | Some (start, nal_start) =>
      match zget bytes nal_start with
      | Some header => mret (if is_delimiter codec header then truncate bytes start else bytes)
      | None => mret bytes
      end
  | None => mret bytes
  end.

(** [payload.get(n..)] *)
Definition get_from (payload : list u8) (n : Z) : option (list u8) := zget_range payload n (zlen payload).

Definition video_picture_payload (codec : NvstVideoCodec) (payload : list u8)
    : outcome NvstDropReason (option (list u8)) :=
  match codec with
  | H264 | H265 =>
      let search_len := Z.min (zlen payload) (MAX_GS_FRAME_HEADER_BYTES + 4) in
      window ← slice payload 0 search_len;
      match find_annex_b_start_code window with
      | None => mret None
      | Some (offset, _) => picture ← slice payload offset (zlen payload); mret (Some picture)
      end
  | Av1 =>
      match head payload with
      | None => mret None
      | Some Byte.x01 => mret (get_from payload GS_SHORT_FRAME_HEADER_BYTES)
      | Some Byte.x81 => mret (get_from payload GFN_EXTENDED_FRAME_HEADER_BYTES)
      | Some _ => mret None
      end
  end.

Definition is_intra (codec : NvstVideoCodec) (header : u8) : bool :=
  match codec with
  | H264 => Z.land (b2z header) 0x1f =? 5
  | H265 => let kind := Z.land (Z.shiftr (b2z header) 1) 0x3f in (16 <=? kind) && (kind <=? 21)
  | Av1 => false
  end.

Fixpoint keyframe_loop (fuel : nat) (codec : NvstVideoCodec) (bytes : list u8) (offset : Z)
    : outcome NvstDropReason bool :=
  match fuel with
  | O => Panic
  | S fuel =>
      rest ← slice bytes offset (zlen bytes);
      match find_annex_b_start_code rest with
      | None => mret false
      | Some (start, prefix_len) =>
          let nal_start := offset + start + prefix_len in
          if match zget bytes nal_start with Some header => is_intra codec header | None => false end
          then mret true else keyframe_loop fuel codec bytes nal_start
      end
  end.

Definition video_access_unit_is_keyframe (codec : NvstVideoCodec) (bytes : list u8)
    (frame_header_hint : bool) : outcome NvstDropReason bool :=
  if decide (codec = Av1) then mret frame_header_hint else keyframe_loop (S (length bytes)) codec bytes 0.

(** ** The assembler *)

Module VideoAccessUnitAssembler.

Record t := {
  codec : NvstVideoCodec;
  current_frame : option Z;
  first_stream_packet_index : option Z;
  keyframe_hint : bool;
  last_packet_payload_length : option Z;
  expected_access_unit_length : option Z;
  invalid_av1_length_logged : bool;
  first_start_payload_logged : bool;
  first_access_unit_logged : bool;
  bytes : list u8;
  max_access_unit_bytes : Z
}.

Definition new (codec : NvstVideoCodec) (max_access_unit_bytes : Z) : t := {|
  codec := codec;
  current_frame := None;
  first_stream_packet_index := None;
  keyframe_hint := false;
  last_packet_payload_length := None;
  expected_access_unit_length := None;
  invalid_av1_length_logged := false;
  first_start_payload_logged := false;
  first_access_unit_logged := false;
  bytes := [];
  max_access_unit_bytes := max_access_unit_bytes
|}.

Definition reset (self : t) : t :=
  self <| current_frame := None |> <| first_stream_packet_index := None |>
       <| keyframe_hint := false |> <| last_packet_payload_length := None |>
       <| expected_access_unit_length := None |> <| bytes := [] |>.

Definition begin_frame (self : t) (payload : list u8) : t :=
  (reset self) <| keyframe_hint :=
    match zget payload 3 with Some value => Byte.eqb value Byte.x02 | None => false end |>.

(** The lengths an AV1 frame header announces. *)
Definition note_lengths (self : t) (payload : list u8) : t :=
  if decide (codec self = Av1) then
    match head payload with
    | Some Byte.x01 =>
        self <| last_packet_payload_length := from_le_bytes <$> zget_range payload 4 6 |>
    | Some Byte.x81 =>
        self <| expected_access_unit_length := from_le_bytes <$> zget_range payload 16 20 |>
    | _ => self
    end
  else self.

Definition enter_frame (self : t) (header : NvVideoPacket.t) : t :=
  self <| current_frame := Some (NvVideoPacket.frame_index header) |>
       <| first_stream_packet_index := Some (NvVideoPacket.stream_packet_index header) |>.

(** The start-of-frame branch of [push]; the result is the picture payload. *)
Definition start_frame (self : t) (header : NvVideoPacket.t) (payload : list u8)
    : t * outcome NvstDropReason (list u8) :=
  let self := begin_frame self payload in
  match video_picture_payload (codec self) payload with
  | Panic => (self, Panic)
  | Err e => (self, Err e)
  | Ok None => (self, Err MissingAnnexBStartCode)
  | Ok (Some picture_payload) =>
      let self := self <| first_start_payload_logged := true |> in
      (enter_frame (note_lengths self payload) header, Ok picture_payload)
  end.

(** The length hint of the last packet of a short-header AV1 frame. *)
Definition apply_length_hint (self : t) (header : NvVideoPacket.t) (frame_header_size : Z)
    (picture_payload : list u8) : t * list u8 :=
  if decide (codec self = Av1) then
    if NvVideoPacket.is_end_of_frame header then
      match last_packet_payload_length self with
      | None => (self, picture_payload)
      | Some reported =>
          match checked_sub reported frame_header_size with
          | Some exact_payload_length =>
              if (0 <? exact_payload_length) && (exact_payload_length <=? zlen picture_payload)
              then (self, take (Z.to_nat exact_payload_length) picture_payload)
              else (self <| invalid_av1_length_logged := true |>, picture_payload)
          | None => (self <| invalid_av1_length_logged := true |>, picture_payload)
          end
      end
    else (self, picture_payload)
  else (self, picture_payload).

(** The end-of-frame part of [push]. *)
Definition finish_frame (self : t) (header : NvVideoPacket.t) (timestamp frame_header_size : Z)
    : t * outcome NvstDropReason (option EncodedVideoAccessUnit) :=
  let frame := bytes self in
  let self := self <| bytes := [] |> in
  let exact :=
    if decide (codec self = Av1) then
      match expected_access_unit_length self with
      | Some reported =>
          if (0 <? reported) && (reported <=? zlen frame) then Ok (truncate frame reported)
          else Err (InvalidLastPacketPayloadLength reported frame_header_size (zlen frame))
      | None => Ok frame
      end
    else Ok frame in
  match exact with
  | Panic => (self, Panic)
  | Err e => (reset self, Err e)
  | Ok frame =>
      match strip_trailing_access_unit_delimiter (codec self) frame with
      | Panic => (self, Panic)
      | Err e => (self, Err e)
      | Ok frame =>
          let self := self <| first_access_unit_logged := true |> <| current_frame := None |> in
          match first_stream_packet_index self with
          | None => (self, Panic)
          | Some first =>
              let self := self <| first_stream_packet_index := None |> in
              (self,
               keyframe ← video_access_unit_is_keyframe (codec self) frame (keyframe_hint self);
               mret (Some {|
                 au_codec := codec self; au_timestamp := timestamp;
                 au_frame_index := NvVideoPacket.frame_index header;
                 au_first_stream_packet_index := first; au_keyframe := keyframe;
                 au_contiguous := true; au_bytes := frame |}))
          end
      end
  end.

Definition push (self : t) (header : NvVideoPacket.t) (timestamp : Z) (payload : list u8)
    : t * outcome NvstDropReason (option EncodedVideoAccessUnit) :=
  if NvVideoPacket.is_fec header then (self, Err (Unsupported FecRepair)) else
  let '(self, started) :=
    if NvVideoPacket.is_start_of_frame header then start_frame self header payload
    else if decide (current_frame self = Some (NvVideoPacket.frame_index header))
    then (self, Ok payload)
    else (reset self, Err AwaitingStartOfFrame) in
  match started with
  | Panic => (self, Panic)
  | Err e => (self, Err e)
  | Ok picture_payload =>
      let frame_header_size := zlen payload - zlen picture_payload in
      let '(self, picture_payload) :=
        apply_length_hint self header frame_header_size picture_payload in
      let remaining := saturating_sub (max_access_unit_bytes self) (zlen (bytes self)) in
      if remaining <? zlen picture_payload
      then (reset self, Err (AccessUnitTooLarge (max_access_unit_bytes self))) else
      let self := self <| bytes ::= (fun bytes => bytes ++ picture_payload) |> in
      if negb (NvVideoPacket.is_end_of_frame header) then (self, Ok None)
      else finish_frame self header timestamp frame_header_size
  end.

End VideoAccessUnitAssembler.

(** ** Start codes *)

(** The three-byte start code [00 00 01] at position [i]. *)
Definition code_at (bytes : list u8) (i : nat) : Prop :=
  bytes !! i = Some Byte.x00 /\ bytes !! S i = Some Byte.x00 /\ bytes !! S (S i) = Some Byte.x01.

Lemma code_at_cons a l i : code_at (a :: l) (S i) <-> code_at l i.
Proof. unfold code_at. simpl. tauto. Qed.

Lemma code_at_short l i : (length l < i + 3)%nat -> ~ code_at l i.
Proof. intros Hl (_ & _ & H). apply lookup_lt_Some in H. lia. Qed.

(** The scanner finds the first start code; a four-byte prefix is one preceded
    by a zero. *)
Definition found (bytes : list u8) (n : Z) (r : option (Z * Z)) : Prop :=
  match r with
  | Some (o, k) => exists i c, o = n + Z.of_nat i /\ k = 3 + Z.of_nat (c - i)
      /\ (c = i \/ c = S i /\ bytes !! i = Some Byte.x00)
      /\ code_at bytes c /\ forall j, (j < c)%nat -> ~ code_at bytes j
  | None => forall j, ~ code_at bytes j
  end.

Lemma find_annex_b_cons n a b c rest :
  find_annex_b_from n (a :: b :: c :: rest) =
  if decide ([a; b; c] = [Byte.x00; Byte.x00; Byte.x01]) then Some (n, 3)
  else if decide ([a; b; c] = [Byte.x00; Byte.x00; Byte.x00] /\ head rest = Some Byte.x01)
  then Some (n, 4) else find_annex_b_from (n + 1) (b :: c :: rest).
Proof. reflexivity. Qed.

Lemma find_annex_b_found n bytes : found bytes n (find_annex_b_from n bytes).
Proof.
  revert n. induction bytes as [|a tail IH]; intros n.
  { simpl. intros j. apply code_at_short. simpl. lia. }
  destruct tail as [|b [|c rest]].
  { simpl. intros j. apply code_at_short. simpl. lia. }
  { simpl. intros j. apply code_at_short. simpl. lia. }
  rewrite find_annex_b_cons. destruct (decide ([a; b; c] = _)) as [[= -> -> ->]|H3].
  { exists 0%nat, 0%nat. simpl. split_and!; [lia|lia|by left|done|lia]. }
  assert (H0 : ~ code_at (a :: b :: c :: rest) 0).
  { intros (Ha & Hb & Hc). simpl in *. congruence. }
  destruct (decide ([a; b; c] = [Byte.x00; Byte.x00; Byte.x00] /\ _)) as [[[= -> -> ->] H4]|H4].
  { exists 0%nat, 1%nat. split_and!; [lia|lia|right; done| |].
    - destruct rest; [done|]. injection H4 as ->. done.
    - intros j Hj. by replace j with 0%nat by lia. }
  specialize (IH (n + 1)). set (tail := b :: c :: rest) in *. clearbody tail.
  destruct (find_annex_b_from (n + 1) tail) as [[o k]|]; simpl in IH |- *.
  - destruct IH as (i & c' & -> & -> & Hc & Hat & Hmin). exists (S i), (S c').
    split_and!; [lia|lia| | |].
    + destruct Hc as [->|[-> Hi]]; [by left|by right].
    + by apply code_at_cons.
    + intros [|j] Hj; [done|]. rewrite code_at_cons. apply Hmin. lia.
  - intros [|j]; [done|]. by rewrite code_at_cons.
Qed.

Lemma code_at_drop l n i : code_at (drop n l) i <-> code_at l (n + i).
Proof. unfold code_at. rewrite !lookup_drop. rewrite !Nat.add_succ_r. done. Qed.

(** Scanning on from [offset]. *)
Lemma find_annex_b_drop bytes (offset : nat) :
  match find_annex_b_start_code (drop offset bytes) with
  | Some (o, k) => exists i c, Z.of_nat offset + o = Z.of_nat i /\ Z.of_nat offset + o + k = Z.of_nat (c + 3)
      /\ (offset <= i <= c)%nat /\ (c = i \/ c = S i /\ bytes !! i = Some Byte.x00)
      /\ (c + 3 <= length bytes)%nat
      /\ code_at bytes c /\ forall j, (offset <= j < c)%nat -> ~ code_at bytes j
  | None => forall j, (offset <= j)%nat -> ~ code_at bytes j
  end.
Proof.
  pose proof (find_annex_b_found 0 (drop offset bytes)) as H. unfold find_annex_b_start_code.
  destruct (find_annex_b_from 0 (drop offset bytes)) as [[o k]|]; simpl in H.
  - destruct H as (i & c & -> & -> & Hc & Hat & Hmin). exists (offset + i)%nat, (offset + c)%nat.
    rewrite code_at_drop in Hat. split_and!; try lia.
    + destruct Hc as [->|[-> Hi]]; [by left|right]. rewrite lookup_drop in Hi. split; [lia|done].
    + destruct Hat as (_ & _ & Hat). apply lookup_lt_Some in Hat. lia.
    + done.
    + intros j Hj. replace j with (offset + (j - offset))%nat by lia. rewrite <- code_at_drop. apply Hmin. lia.
  - intros j Hj. replace j with (offset + (j - offset))%nat by lia. by rewrite <- code_at_drop.
Qed.

Lemma slice_tail {E} (bytes : list u8) (offset : nat) :
  (offset <= length bytes)%nat ->
  slice (E := E) bytes (Z.of_nat offset) (zlen bytes) = Ok (drop offset bytes).
Proof.
  intros. rewrite slice_Ok by (unfold zlen; lia). rewrite Nat2Z.id. f_equal.
  apply take_ge. rewrite length_drop. unfold zlen. lia.
Qed.

Lemma zget_of_nat {A} (l : list A) (i : nat) : zget l (Z.of_nat i) = l !! i.
Proof. rewrite zget_lookup by lia. by rewrite Nat2Z.id. Qed.

(** An intra NAL unit at or after [offset]. *)
Definition intra_from (codec : NvstVideoCodec) (bytes : list u8) (offset : nat) : Prop :=
  exists c h, (offset <= c)%nat /\ code_at bytes c /\ bytes !! (c + 3)%nat = Some h /\ is_intra codec h = true.

Lemma keyframe_loop_spec fuel codec bytes offset :
  (offset <= length bytes)%nat -> (length bytes - offset < fuel)%nat ->
  exists b, keyframe_loop fuel codec bytes (Z.of_nat offset) = Ok b /\ (b = true <-> intra_from codec bytes offset).
Proof.
  revert offset. induction fuel as [|fuel IH]; intros offset Ho Hf; [lia|]. cbn [keyframe_loop].
  rewrite slice_tail by done. obind. pose proof (find_annex_b_drop bytes offset) as Hfind.
  destruct (find_annex_b_start_code _) as [[o k]|].
  - destruct Hfind as (i & c & Hi & Hn & Hle & _ & Hlen & Hat & Hmin). rewrite Hn, zget_of_nat.
    assert (Hnext : intra_from codec bytes (c + 3) -> intra_from codec bytes offset).
    { intros (c' & h & H1 & H2). exists c', h. split; [lia|done]. }
    assert (Hprev : forall h, bytes !! (c + 3)%nat = Some h -> is_intra codec h = false ->
      intra_from codec bytes offset -> intra_from codec bytes (c + 3)).
    { intros h Hh Hno (c' & h' & H1 & H2 & H3 & H4). exists c', h'. split; [|done].
      destruct (decide (c' < c)%nat); [exfalso; apply (Hmin c'); [lia|done]|].
      destruct (decide (c' = c)) as [->|]; [congruence|].
      destruct (decide (c' = S c)) as [->|]; [unfold code_at in *; naive_solver|].
      destruct (decide (c' = S (S c))) as [->|]; [unfold code_at in *; naive_solver|]. lia. }
    destruct (bytes !! (c + 3)%nat) as [h|] eqn:Hh; [destruct (is_intra codec h) eqn:Hintra|].
    + exists true. split; [done|]. split; [|done]. intros _. exists c, h. split; [lia|done].
    + destruct (IH (c + 3)%nat ltac:(lia) ltac:(lia)) as (b & -> & Hb). exists b. split; [done|].
      rewrite Hb. split; [done|]. by apply (Hprev h).
    + destruct (IH (c + 3)%nat ltac:(lia) ltac:(lia)) as (b & -> & Hb). exists b. split; [done|].
      rewrite Hb. split; [done|]. intros (c' & h' & H1 & H2 & H3 & H4). exfalso.
      apply lookup_ge_None in Hh. apply lookup_lt_Some in H3.
      apply (Hmin c'); [lia|done].
  - exists false. split; [done|]. split; [done|]. intros (c & h & H1 & H2 & _). by apply Hfind in H2.
Qed.

Lemma last_nal_loop_spec fuel bytes offset acc :
  (offset <= length bytes)%nat -> (length bytes - offset < fuel)%nat ->
  exists r, last_nal_loop fuel bytes (Z.of_nat offset) acc = Ok r /\
    ((r = acc /\ forall j, (offset <= j)%nat -> ~ code_at bytes j)
     \/ exists i c, r = Some (Z.of_nat i, Z.of_nat (c + 3)) /\ (offset <= i <= c)%nat
        /\ (c = i \/ c = S i /\ bytes !! i = Some Byte.x00)
        /\ code_at bytes c /\ (c + 3 <= length bytes)%nat /\ forall j, (c < j)%nat -> ~ code_at bytes j).
Proof.
  revert offset acc. induction fuel as [|fuel IH]; intros offset acc Ho Hf; [lia|]. cbn [last_nal_loop].
  rewrite slice_tail by done. obind. pose proof (find_annex_b_drop bytes offset) as Hfind.
  destruct (find_annex_b_start_code _) as [[o k]|]; [|by eauto].
  destruct Hfind as (i & c & Hi & Hn & Hle & Hc & Hlen & Hat & Hmin). rewrite Hn, Hi.
  destruct (IH (c + 3)%nat (Some (Z.of_nat i, Z.of_nat (c + 3))) ltac:(lia) ltac:(lia)) as (r & -> & Hr).
  exists r. split; [done|]. right. destruct Hr as [[-> Hnone]|(i' & c' & -> & ? & ? & ? & ? & Hlast)].
  - exists i, c. split_and!; try done; try lia. intros j Hj.
    destruct (decide (j = S c)) as [->|]; [unfold code_at in *; naive_solver|].
    destruct (decide (j = S (S c))) as [->|]; [unfold code_at in *; naive_solver|]. apply Hnone. lia.
  - exists i', c'. split_and!; try done; lia.
Qed.

(** A trailing delimiter: the last start code, at [i] with its optional extra
    zero, opens an access unit delimiter. *)
Definition trailing_delimiter (codec : NvstVideoCodec) (bytes : list u8) (i : nat) : Prop :=
  exists c h, (c = i \/ c = S i /\ bytes !! i = Some Byte.x00) /\ code_at bytes c
    /\ (forall j, (c < j)%nat -> ~ code_at bytes j)
    /\ bytes !! (c + 3)%nat = Some h /\ is_delimiter codec h = true.

Lemma strip_spec codec bytes :
  exists out, strip_trailing_access_unit_delimiter codec bytes = Ok out
    /\ (out = bytes \/ exists i, out = take i bytes /\ trailing_delimiter codec bytes i)
    /\ (forall c h, codec <> Av1 -> code_at bytes c -> (forall j, (c < j)%nat -> ~ code_at bytes j) ->
          bytes !! (c + 3)%nat = Some h -> is_delimiter codec h = true ->
          exists i, out = take i bytes /\ (i <= c)%nat).
Proof.
  unfold strip_trailing_access_unit_delimiter. case_decide as Hav1.
  { exists bytes. split; [done|]. split; [by left|]. done. }
  destruct (last_nal_loop_spec (S (length bytes)) bytes 0 None ltac:(lia) ltac:(lia)) as (r & Hr & Hcase).
  change (Z.of_nat 0) with 0 in Hr. rewrite Hr. obind.
  destruct Hcase as [[-> Hnone]|(i & c & -> & Hi & Hc & Hat & Hlen & Hlast)].
  { exists bytes. split; [done|]. split; [by left|]. intros c h _ Hat. exfalso. apply (Hnone c); [lia|done]. }
  assert (Huniq : forall c', code_at bytes c' -> (forall j, (c' < j)%nat -> ~ code_at bytes j) -> c' = c).
  { intros c' Hat' Hlast'. destruct (Nat.lt_trichotomy c c') as [H|[H|H]]; [|done|]; exfalso.
    - by apply (Hlast c').
    - by apply (Hlast' c). }
  rewrite zget_of_nat. destruct (bytes !! (c + 3)%nat) as [h|] eqn:Hh.
  2:{ exists bytes. split; [done|]. split; [by left|]. intros c' h _ Hat' Hlast' Hh'.
      rewrite (Huniq c' Hat' Hlast') in Hh'. congruence. }
  destruct (is_delimiter codec h) eqn:Hd; (eexists; split; [reflexivity|]).
  - unfold truncate. rewrite Nat2Z.id. split; [right; exists i; split; [done|]; by exists c, h|].
    intros c' h' _ Hat' Hlast' _ _. rewrite (Huniq c' Hat' Hlast'). exists i. split; [done|lia].
  - split; [by left|]. intros c' h' _ Hat' Hlast' Hh'. rewrite (Huniq c' Hat' Hlast'), Hh in Hh'.
    injection Hh' as <-. congruence.
Qed.

Lemma keyframe_spec codec bytes hint :
  exists b, video_access_unit_is_keyframe codec bytes hint = Ok b
    /\ (b = true <-> if decide (codec = Av1) then hint = true else intra_from codec bytes 0).
Proof.
  unfold video_access_unit_is_keyframe. case_decide; [by exists hint|].
  destruct (keyframe_loop_spec (S (length bytes)) codec bytes 0 ltac:(lia) ltac:(lia)) as (b & Hb & Hiff).
  by exists b.
Qed.

Lemma picture_payload_spec codec payload :
  exists r, video_picture_payload codec payload = Ok r
    /\ forall picture, r = Some picture -> exists n, picture = drop n payload /\ (n <= length payload)%nat.
Proof.
  assert (Hget : forall n picture, get_from payload n = Some picture ->
    exists k, picture = drop k payload /\ (k <= length payload)%nat).
  { intros n picture (Hn & Hle & ->)%zget_range_inv. exists (Z.to_nat n). split.
    - apply take_ge. rewrite length_drop. unfold zlen. lia.
    - unfold zlen in *. lia. }
  assert (Hannex : forall search_len, search_len = Z.min (zlen payload) (MAX_GS_FRAME_HEADER_BYTES + 4) ->
    exists r, (window ← slice (E := NvstDropReason) payload 0 search_len;
      match find_annex_b_start_code window with
      | None => mret None
      | Some (offset, _) => picture ← slice payload offset (zlen payload); mret (Some picture)
      end) = Ok r
    /\ forall picture, r = Some picture -> exists n, picture = drop n payload /\ (n <= length payload)%nat).
  { intros search_len ->. pose proof (zlen_nonneg payload). unfold MAX_GS_FRAME_HEADER_BYTES.
    rewrite slice_Ok by lia. obind. rewrite Z.sub_0_r. change (Z.to_nat 0) with 0%nat. rewrite drop_0.
    set (window := take _ _). assert (Hw : (length window <= length payload)%nat) by (unfold window; rewrite length_take; lia).
    pose proof (find_annex_b_drop window 0) as Hf. rewrite drop_0 in Hf.
    destruct (find_annex_b_start_code window) as [[o k]|]; [|by eexists].
    destruct Hf as (i & c & Hi & _ & Hle & _ & Hlen & _). change (Z.of_nat 0) with 0 in Hi. rewrite Z.add_0_l in Hi.
    subst o. rewrite slice_tail by lia. obind. eexists. split; [reflexivity|].
    intros picture [= <-]. exists i. split; [done|lia]. }
  destruct codec; [by apply Hannex|by apply Hannex|]. unfold video_picture_payload.
  destruct (head payload) as [b|]; [|by eexists].
  destruct b; (eexists; split; [reflexivity|]); intros picture Hp; try done; by eapply Hget.
Qed.

(** ** The assembler's invariant *)

Record asm_wf (st : VideoAccessUnitAssembler.t) : Prop := {
  aw_first : is_Some (VideoAccessUnitAssembler.current_frame st) ->
    is_Some (VideoAccessUnitAssembler.first_stream_packet_index st);
  aw_bytes : zlen (VideoAccessUnitAssembler.bytes st) <= VideoAccessUnitAssembler.max_access_unit_bytes st
}.

Definition same_config (st st' : VideoAccessUnitAssembler.t) : Prop :=
  VideoAccessUnitAssembler.codec st' = VideoAccessUnitAssembler.codec st
  /\ VideoAccessUnitAssembler.max_access_unit_bytes st' = VideoAccessUnitAssembler.max_access_unit_bytes st.

Lemma asm_reset st :
  0 <= VideoAccessUnitAssembler.max_access_unit_bytes st ->
  asm_wf (VideoAccessUnitAssembler.reset st) /\ same_config st (VideoAccessUnitAssembler.reset st).
Proof. intros. split; [constructor; simpl; [by intros []|done]|done]. Qed.

(** What a push may report. *)
Definition unit_ok (st : VideoAccessUnitAssembler.t)
    (r : outcome NvstDropReason (option EncodedVideoAccessUnit)) : Prop :=
  match r with
  | Ok (Some au) => au_codec au = VideoAccessUnitAssembler.codec st
      /\ zlen (au_bytes au) <= VideoAccessUnitAssembler.max_access_unit_bytes st
  | Ok None | Err _ => True
  | Panic => False
  end.

(** A fresh frame buffer: everything [start_frame] does before [enter_frame]. *)
Record fresh (st st' : VideoAccessUnitAssembler.t) : Prop := {
  fr_config : same_config st st';
  fr_bytes : VideoAccessUnitAssembler.bytes st' = [];
  fr_frame : VideoAccessUnitAssembler.current_frame st' = None
}.

Lemma fresh_note st st' payload : fresh st st' -> fresh st (VideoAccessUnitAssembler.note_lengths st' payload).
Proof.
  intros H. unfold VideoAccessUnitAssembler.note_lengths. case_decide; [|done].
  destruct H as [[H1 H2] H3 H4]. destruct (head payload) as [b|]; [|by constructor].
  destruct b; by constructor.
Qed.

Lemma fresh_enter st st' h : fresh st st' -> same_config st (VideoAccessUnitAssembler.enter_frame st' h)
  /\ VideoAccessUnitAssembler.bytes (VideoAccessUnitAssembler.enter_frame st' h) = [].
Proof. intros [[H1 H2] H3 H4]. done. Qed.

Lemma start_frame_spec st h payload :
  0 <= VideoAccessUnitAssembler.max_access_unit_bytes st ->
  let '(st', r) := VideoAccessUnitAssembler.start_frame st h payload in
  asm_wf st' /\ same_config st st' /\ r <> Panic
  /\ (forall p, r = Ok p ->
        video_picture_payload (VideoAccessUnitAssembler.codec st) payload = Ok (Some p)
        /\ VideoAccessUnitAssembler.bytes st' = []
        /\ st' = VideoAccessUnitAssembler.enter_frame (VideoAccessUnitAssembler.note_lengths
              ((VideoAccessUnitAssembler.begin_frame st payload)
                 <| VideoAccessUnitAssembler.first_start_payload_logged := true |>) payload) h).
Proof.
  intros Hmax. unfold VideoAccessUnitAssembler.start_frame. cbn zeta.
  set (st1 := VideoAccessUnitAssembler.begin_frame st payload).
  assert (Hf1 : fresh st st1) by (by constructor).
  change (VideoAccessUnitAssembler.codec st) with (VideoAccessUnitAssembler.codec st1).
  destruct (picture_payload_spec (VideoAccessUnitAssembler.codec st1) payload) as (r & -> & _).
  destruct r as [picture|].
  2:{ split; [constructor; simpl; [by intros []|done]|]. split_and!; done. }
  assert (Hf2 : fresh st (st1 <| VideoAccessUnitAssembler.first_start_payload_logged := true |>)).
  { destruct Hf1 as [[]]. by constructor. }
  set (st2 := VideoAccessUnitAssembler.note_lengths _ payload).
  assert (Hf3 : fresh st st2) by (by apply fresh_note).
  destruct (fresh_enter st st2 h Hf3) as [Hc Hb].
  split_and!; try done.
  - constructor; [by eexists|]. rewrite Hb. destruct Hc as [_ ->]. done.
  - intros p [= <-]. done.
Qed.

Lemma finish_frame_spec st h ts size :
  0 <= VideoAccessUnitAssembler.max_access_unit_bytes st ->
  is_Some (VideoAccessUnitAssembler.first_stream_packet_index st) ->
  zlen (VideoAccessUnitAssembler.bytes st) <= VideoAccessUnitAssembler.max_access_unit_bytes st ->
  let '(st', r) := VideoAccessUnitAssembler.finish_frame st h ts size in
  asm_wf st' /\ same_config st st' /\ unit_ok st r.
Proof.
  intros Hmax [first Hfirst] Hbytes. unfold VideoAccessUnitAssembler.finish_frame. cbn zeta.
  set (frame := VideoAccessUnitAssembler.bytes st) in *.
  set (exact := if decide (_ = Av1) then _ else _).
  assert (Hexact : match exact with Ok f => zlen f <= zlen frame | Err _ => True | Panic => False end).
  { unfold exact. case_decide; [|lia]. simpl.
    destruct (VideoAccessUnitAssembler.expected_access_unit_length st) as [n|]; [|lia].
    destruct (_ && _) eqn:E; [|done]. zbool. unfold truncate, zlen in *. rewrite length_take. lia. }
  destruct exact as [f|e|]; [| |done].
  2:{ split; [constructor; simpl; [by intros []|done]|]. split_and!; done. }
  simpl. destruct (strip_spec (VideoAccessUnitAssembler.codec st) f) as (out & -> & Hout & _).
  rewrite Hfirst. destruct (keyframe_spec (VideoAccessUnitAssembler.codec st) out
    (VideoAccessUnitAssembler.keyframe_hint st)) as (key & Hkey & _).
  split; [constructor; simpl; [by intros []|done]|]. split; [done|].
  - simpl. rewrite Hkey. obind. simpl. split; [done|].
    destruct Hout as [->|(i & -> & _)]; [lia|]. unfold zlen in *. rewrite length_take. lia.
Qed.

Lemma length_hint_spec st h size p :
  let '(st', p') := VideoAccessUnitAssembler.apply_length_hint st h size p in
  (exists logged, st' = st <| VideoAccessUnitAssembler.invalid_av1_length_logged := logged |>)
  /\ zlen p' <= zlen p.
Proof.
  unfold VideoAccessUnitAssembler.apply_length_hint.
  assert (Hid : (exists logged, st = st <| VideoAccessUnitAssembler.invalid_av1_length_logged := logged |>)
    /\ zlen p <= zlen p).
  { split; [|lia]. exists (VideoAccessUnitAssembler.invalid_av1_length_logged st). by destruct st. }
  case_decide; [|done]. destruct (NvVideoPacket.is_end_of_frame h); [|done].
  destruct (VideoAccessUnitAssembler.last_packet_payload_length st); [|done].
  destruct (checked_sub _ _); [|split; [by exists true|lia]].
  destruct (_ && _); [|split; [by exists true|lia]].
  split; [apply Hid|]. unfold zlen. rewrite length_take. lia.
Qed.

Lemma asm_push_spec st h ts payload :
  asm_wf st -> 0 <= VideoAccessUnitAssembler.max_access_unit_bytes st ->
  let '(st', r) := VideoAccessUnitAssembler.push st h ts payload in
  asm_wf st' /\ same_config st st' /\ unit_ok st r.
Proof.
  intros Hwf Hmax. unfold VideoAccessUnitAssembler.push.
  destruct (NvVideoPacket.is_fec h); [done|].
  set (started := if NvVideoPacket.is_start_of_frame h then _ else _).
  assert (Hstarted : let '(st1, r) := started in asm_wf st1 /\ same_config st st1 /\ r <> Panic
    /\ (forall p, r = Ok p -> is_Some (VideoAccessUnitAssembler.current_frame st1))).
  { unfold started. destruct (NvVideoPacket.is_start_of_frame h).
    - pose proof (start_frame_spec st h payload Hmax) as Hs.
      destruct (VideoAccessUnitAssembler.start_frame st h payload) as [st1 r].
      destruct Hs as (H1 & H2 & H3 & H4). split; [done|]. split; [done|]. split; [done|]. intros p Hp.
      destruct (H4 p Hp) as (_ & _ & ->). by eexists.
    - case_decide as Hcur.
      + split; [done|]. split; [done|]. split; [done|]. intros p _. by rewrite Hcur.
      + destruct (asm_reset st Hmax). split_and!; done. }
  destruct started as [st1 r]. destruct Hstarted as (Hwf1 & [Hc Hm] & Hp & Hcur).
  destruct r as [picture|e|]; [|done|done].
  pose proof (length_hint_spec st1 h (zlen payload - zlen picture) picture) as Hh.
  destruct (VideoAccessUnitAssembler.apply_length_hint st1 h _ picture) as [st2 p2].
  destruct Hh as [[logged ->] _]. simpl. rewrite Hm.
  zcase (saturating_sub _ _ <? zlen p2).
  { split; [constructor; simpl; [by intros []|unfold zlen; simpl; lia]|]. done. }
  pose proof (aw_bytes _ Hwf1) as Hb1. rewrite Hm in Hb1.
  pose proof (aw_first _ Hwf1 (Hcur picture eq_refl)) as Hfirst.
  set (st3 := st1 <| VideoAccessUnitAssembler.invalid_av1_length_logged := logged |>
    <| VideoAccessUnitAssembler.bytes ::= (fun bytes => bytes ++ p2) |>).
  assert (Hb3 : zlen (VideoAccessUnitAssembler.bytes st3) <= VideoAccessUnitAssembler.max_access_unit_bytes st3).
  { simpl. rewrite zlen_app, Hm. unfold saturating_sub in *. lia. }
  assert (Hmax3 : VideoAccessUnitAssembler.max_access_unit_bytes st3 = VideoAccessUnitAssembler.max_access_unit_bytes st) by done.
  assert (Hcodec3 : VideoAccessUnitAssembler.codec st3 = VideoAccessUnitAssembler.codec st) by done.
  destruct (negb (NvVideoPacket.is_end_of_frame h)).
  { split; [constructor; [|done]; intros _; done|]. done. }
  pose proof (finish_frame_spec st3 h ts (zlen payload - zlen picture) ltac:(lia) Hfirst Hb3) as Hfin.
  destruct (VideoAccessUnitAssembler.finish_frame st3 h ts _) as [st4 r4].
  destruct Hfin as (H1 & [H2 H3] & H4). split_and!; [done|split; congruence|].
  destruct r4 as [[au|]| |]; simpl in *; try done. by rewrite <- Hcodec3, <- Hmax3.
Qed.

(** ** Whole frames *)

Definition media_packet : Type := NvVideoPacket.t * Z * list u8.

Fixpoint feed (st : VideoAccessUnitAssembler.t) (packets : list media_packet)
    : VideoAccessUnitAssembler.t * list (outcome NvstDropReason (option EncodedVideoAccessUnit)) :=
  match packets with
  | [] => (st, [])
  | (h, ts, payload) :: packets =>
      let '(st, r) := VideoAccessUnitAssembler.push st h ts payload in
      let '(st, rs) := feed st packets in (st, r :: rs)
  end.

Definition of_frame (f : Z) (h : NvVideoPacket.t) : Prop :=
  NvVideoPacket.is_fec h = false /\ NvVideoPacket.frame_index h = f.
Definition payloads (packets : list media_packet) : list u8 := concat (map snd packets).

(** A packet inside frame [f]: neither first nor last. *)
Definition middle (f : Z) (p : media_packet) : Prop :=
  of_frame f p.1.1 /\ NvVideoPacket.is_start_of_frame p.1.1 = false /\ NvVideoPacket.is_end_of_frame p.1.1 = false.

Lemma feed_app st ps qs :
  feed st (ps ++ qs) = let '(st1, r1) := feed st ps in let '(st2, r2) := feed st1 qs in (st2, r1 ++ r2).
Proof.
  revert st. induction ps as [|[[h ts] p] ps IH]; intros st; simpl.
  { by destruct (feed st qs). }
  destruct (VideoAccessUnitAssembler.push st h ts p) as [st1 r]. rewrite IH.
  destruct (feed st1 ps) as [st2 rs]. by destruct (feed st2 qs).
Qed.

Lemma hint_not_last st h size p :
  NvVideoPacket.is_end_of_frame h = false -> VideoAccessUnitAssembler.apply_length_hint st h size p = (st, p).
Proof. intros H. unfold VideoAccessUnitAssembler.apply_length_hint. rewrite H. by case_decide. Qed.

Definition extend (st : VideoAccessUnitAssembler.t) (p : list u8) : VideoAccessUnitAssembler.t :=
  st <| VideoAccessUnitAssembler.bytes ::= (fun bytes => bytes ++ p) |>.

Lemma extend_nil st : extend st [] = st.
Proof.
  destruct st as [a1 a2 a3 a4 a5 a6 a7 a8 a9 l m].
  exact (f_equal (fun l => VideoAccessUnitAssembler.Build_t a1 a2 a3 a4 a5 a6 a7 a8 a9 l m) (app_nil_r l)).
Qed.
Lemma extend_app st p q : extend (extend st p) q = extend st (p ++ q).
Proof.
  destruct st as [a1 a2 a3 a4 a5 a6 a7 a8 a9 l m].
  exact (f_equal (fun l => VideoAccessUnitAssembler.Build_t a1 a2 a3 a4 a5 a6 a7 a8 a9 l m)
    (eq_sym (app_assoc l p q))).
Qed.

Lemma push_middle st f h ts p :
  middle f (h, ts, p) -> VideoAccessUnitAssembler.current_frame st = Some f ->
  zlen (VideoAccessUnitAssembler.bytes st) + zlen p <= VideoAccessUnitAssembler.max_access_unit_bytes st ->
  VideoAccessUnitAssembler.push st h ts p = (extend st p, Ok None).
Proof.
  intros ([Hfec Hf] & Hsof & Heof) Hcur Hlen. simpl in *. unfold VideoAccessUnitAssembler.push.
  rewrite Hfec, Hsof, Hf, decide_True by done. rewrite hint_not_last by done.
  zcase (saturating_sub _ _ <? zlen p); [unfold saturating_sub in *; lia|]. by rewrite Heof.
Qed.

Lemma feed_middles st f ps :
  Forall (middle f) ps -> VideoAccessUnitAssembler.current_frame st = Some f ->
  zlen (VideoAccessUnitAssembler.bytes st) + zlen (payloads ps) <= VideoAccessUnitAssembler.max_access_unit_bytes st ->
  feed st ps = (extend st (payloads ps), replicate (length ps) (Ok None)).
Proof.
  intros Hall. revert st. induction Hall as [|[[h ts] p] ps Hp Hall IH]; intros st Hcur Hlen.
  { unfold payloads. simpl. by rewrite extend_nil. }
  unfold payloads in Hlen. cbn [map concat snd] in Hlen. rewrite zlen_app in Hlen.
  pose proof (zlen_nonneg (concat (map snd ps))). cbn [feed].
  rewrite (push_middle st f) by (done || lia). rewrite IH; [|done|].
  - by rewrite extend_app.
  - simpl. unfold payloads. rewrite zlen_app. lia.
Qed.

(** The state after the first packet of a frame. *)
Lemma push_first st f h ts p picture :
  of_frame f h -> NvVideoPacket.is_start_of_frame h = true -> NvVideoPacket.is_end_of_frame h = false ->
  video_picture_payload (VideoAccessUnitAssembler.codec st) p = Ok (Some picture) ->
  zlen picture <= VideoAccessUnitAssembler.max_access_unit_bytes st ->
  exists st1, VideoAccessUnitAssembler.push st h ts p = (st1, Ok None)
    /\ same_config st st1
    /\ VideoAccessUnitAssembler.current_frame st1 = Some f
    /\ VideoAccessUnitAssembler.first_stream_packet_index st1 = Some (NvVideoPacket.stream_packet_index h)
    /\ VideoAccessUnitAssembler.bytes st1 = picture
    /\ VideoAccessUnitAssembler.keyframe_hint st1
       = match zget p 3 with Some value => Byte.eqb value Byte.x02 | None => false end
    /\ (VideoAccessUnitAssembler.codec st = Av1 -> head p = Some Byte.x81 ->
        VideoAccessUnitAssembler.expected_access_unit_length st1 = from_le_bytes <$> zget_range p 16 20
        /\ VideoAccessUnitAssembler.last_packet_payload_length st1 = None).
Proof.
  intros [Hfec Hf] Hsof Heof Hpic Hlen. unfold VideoAccessUnitAssembler.push. rewrite Hfec, Hsof.
  unfold VideoAccessUnitAssembler.start_frame. cbn zeta.
  change (VideoAccessUnitAssembler.codec (VideoAccessUnitAssembler.begin_frame st p))
    with (VideoAccessUnitAssembler.codec st). rewrite Hpic.
  rewrite hint_not_last by done.
  set (st0 := VideoAccessUnitAssembler.note_lengths _ p).
  assert (H0 : fresh st st0 /\ VideoAccessUnitAssembler.keyframe_hint st0
       = match zget p 3 with Some value => Byte.eqb value Byte.x02 | None => false end
    /\ (VideoAccessUnitAssembler.codec st = Av1 -> head p = Some Byte.x81 ->
        VideoAccessUnitAssembler.expected_access_unit_length st0 = from_le_bytes <$> zget_range p 16 20
        /\ VideoAccessUnitAssembler.last_packet_payload_length st0 = None)).
  { unfold st0, VideoAccessUnitAssembler.note_lengths. simpl. case_decide as Hc.
    - destruct (head p) as [b|]; [|by split; [by constructor|]]. destruct b; by split; [by constructor|].
    - by split; [by constructor|]. }
  destruct H0 as ([[Hc Hm] Hb Hn] & Hkey & Hav1). simpl. rewrite Hb, Hm.
  zcase (saturating_sub _ _ <? zlen picture); [unfold saturating_sub, zlen in *; simpl in *; lia|].
  rewrite Heof. cbn [negb]. eexists. split; [reflexivity|]. simpl. rewrite Hb.
  split_and!; try done. by rewrite Hf.
Qed.

(** The last packet of a frame, when no AV1 short-header hint applies. *)
Lemma push_last st f h ts p first frame :
  of_frame f h -> NvVideoPacket.is_start_of_frame h = false -> NvVideoPacket.is_end_of_frame h = true ->
  VideoAccessUnitAssembler.current_frame st = Some f ->
  VideoAccessUnitAssembler.first_stream_packet_index st = Some first ->
  zlen (VideoAccessUnitAssembler.bytes st) + zlen p <= VideoAccessUnitAssembler.max_access_unit_bytes st ->
  (VideoAccessUnitAssembler.codec st = Av1 -> VideoAccessUnitAssembler.last_packet_payload_length st = None
     /\ exists n, VideoAccessUnitAssembler.expected_access_unit_length st = Some n
        /\ 0 < n <= zlen (VideoAccessUnitAssembler.bytes st ++ p)
        /\ frame = truncate (VideoAccessUnitAssembler.bytes st ++ p) n) ->
  (VideoAccessUnitAssembler.codec st <> Av1 -> frame = VideoAccessUnitAssembler.bytes st ++ p) ->
  exists st' au, VideoAccessUnitAssembler.push st h ts p = (st', Ok (Some au))
    /\ VideoAccessUnitAssembler.current_frame st' = None
    /\ au_codec au = VideoAccessUnitAssembler.codec st /\ au_timestamp au = ts /\ au_frame_index au = f
    /\ au_first_stream_packet_index au = first /\ au_contiguous au = true
    /\ strip_trailing_access_unit_delimiter (VideoAccessUnitAssembler.codec st) frame = Ok (au_bytes au)
    /\ video_access_unit_is_keyframe (VideoAccessUnitAssembler.codec st) (au_bytes au)
         (VideoAccessUnitAssembler.keyframe_hint st) = Ok (au_keyframe au).
Proof.
  intros [Hfec Hf] Hsof Heof Hcur Hfirst Hlen Hav1 Hnot. unfold VideoAccessUnitAssembler.push.
  rewrite Hfec, Hsof, Hf, decide_True by done.
  assert (Hhint : forall size, VideoAccessUnitAssembler.apply_length_hint st h size p = (st, p)).
  { intros size. unfold VideoAccessUnitAssembler.apply_length_hint. rewrite Heof. case_decide as Hc; [|done].
    destruct (Hav1 Hc) as [-> _]. done. }
  rewrite Hhint. zcase (saturating_sub _ _ <? zlen p); [unfold saturating_sub in *; lia|].
  rewrite Heof. cbn [negb]. unfold VideoAccessUnitAssembler.finish_frame. cbn zeta. fold (extend st p).
  set (exact := if decide (_ = Av1) then _ else _).
  assert (Hexact : exact = Ok frame).
  { unfold exact. case_decide as Hc; simpl in *.
    - destruct (Hav1 Hc) as (_ & n & -> & Hn & ->).
      by rewrite (proj2 (Z.ltb_lt _ _)), (proj2 (Z.leb_le _ _)) by lia.
    - by rewrite Hnot. }
  rewrite Hexact. simpl. destruct (strip_spec (VideoAccessUnitAssembler.codec st) frame) as (out & Hout & _).
  rewrite Hout, Hfirst. simpl.
  destruct (keyframe_spec (VideoAccessUnitAssembler.codec st) out (VideoAccessUnitAssembler.keyframe_hint st))
    as (key & Hkey & _). rewrite Hkey. eexists _, _. split; [reflexivity|]. by split_and!.
Qed.

(** A frame of at least two packets. *)
Record frame_packets (f : Z) (h0 hn : NvVideoPacket.t) (middles : list media_packet) : Prop := {
  fp_first : of_frame f h0 /\ NvVideoPacket.is_start_of_frame h0 = true /\ NvVideoPacket.is_end_of_frame h0 = false;
  fp_middle : Forall (middle f) middles;
  fp_last : of_frame f hn /\ NvVideoPacket.is_start_of_frame hn = false /\ NvVideoPacket.is_end_of_frame hn = true
}.

(** Feeding all but the last packet. *)
Lemma feed_prefix st f h0 t0 p0 middles hn picture :
  frame_packets f h0 hn middles ->
  video_picture_payload (VideoAccessUnitAssembler.codec st) p0 = Ok (Some picture) ->
  zlen picture + zlen (payloads middles) <= VideoAccessUnitAssembler.max_access_unit_bytes st ->
  exists st2, feed st ((h0, t0, p0) :: middles) = (st2, replicate (S (length middles)) (Ok None))
    /\ same_config st st2
    /\ VideoAccessUnitAssembler.current_frame st2 = Some f
    /\ VideoAccessUnitAssembler.first_stream_packet_index st2 = Some (NvVideoPacket.stream_packet_index h0)
    /\ VideoAccessUnitAssembler.bytes st2 = picture ++ payloads middles
    /\ VideoAccessUnitAssembler.keyframe_hint st2
       = match zget p0 3 with Some value => Byte.eqb value Byte.x02 | None => false end
    /\ (VideoAccessUnitAssembler.codec st = Av1 -> head p0 = Some Byte.x81 ->
        VideoAccessUnitAssembler.expected_access_unit_length st2 = from_le_bytes <$> zget_range p0 16 20
        /\ VideoAccessUnitAssembler.last_packet_payload_length st2 = None).
Proof.
  intros [(H0 & Hs0 & He0) Hmid _] Hpic Hlen. pose proof (zlen_nonneg (payloads middles)).
  destruct (push_first st f h0 t0 p0 picture H0 Hs0 He0 Hpic) as (st1 & Hp & [Hc Hm] & Hcur & Hfirst & Hb & Hkey & Hav1);
    [lia|]. cbn [feed]. rewrite Hp. rewrite (feed_middles st1 f middles Hmid Hcur) by (rewrite Hb, Hm; lia).
  eexists. split; [reflexivity|]. simpl. rewrite Hb. by split_and!.
Qed.

(** A frame is reassembled exactly.  From any assembler state, the packets
    of one H.264 or H.265 frame (first, middles in order, last; fitting the
    byte limit) produce exactly one access unit, with the last packet: its bytes
    are the picture payload of the first packet and all later payloads
    concatenated, less a trailing access unit delimiter; frame index, timestamp
    and first stream packet index are the sender's; and it is a keyframe
    exactly when it contains an intra NAL unit. *)
Theorem annex_b_frame_reassembled st f h0 t0 p0 middles hn tn pn picture
    (Hcodec : VideoAccessUnitAssembler.codec st <> Av1)
    (Hframe : frame_packets f h0 hn middles)
    (Hpic : video_picture_payload (VideoAccessUnitAssembler.codec st) p0 = Ok (Some picture))
    (Hlen : zlen (picture ++ payloads middles ++ pn) <= VideoAccessUnitAssembler.max_access_unit_bytes st) :
  exists st' au,
    feed st ((h0, t0, p0) :: middles ++ [(hn, tn, pn)])
      = (st', replicate (S (length middles)) (Ok None) ++ [Ok (Some au)])
    /\ strip_trailing_access_unit_delimiter (VideoAccessUnitAssembler.codec st)
         (picture ++ payloads middles ++ pn) = Ok (au_bytes au)
    /\ au_frame_index au = f /\ au_timestamp au = tn
    /\ au_first_stream_packet_index au = NvVideoPacket.stream_packet_index h0
    /\ (au_keyframe au = true <-> intra_from (VideoAccessUnitAssembler.codec st) (au_bytes au) 0).
Proof.
  rewrite !zlen_app in Hlen. pose proof (zlen_nonneg pn).
  destruct (feed_prefix st f h0 t0 p0 middles hn picture Hframe Hpic) as
    (st2 & Hfeed & [Hc Hm] & Hcur & Hfirst & Hb & _ & _); [lia|].
  destruct Hframe as [_ _ (Hn & Hsn & Hen)].
  destruct (push_last st2 f hn tn pn _ (picture ++ payloads middles ++ pn) Hn Hsn Hen Hcur Hfirst) as
    (st' & au & Hpush & _ & Hac & Hts & Hfi & Hfp & _ & Hstrip & Hkey).
  { rewrite Hb, Hm, zlen_app. lia. } { congruence. } { intros _. by rewrite Hb, app_assoc. }
  exists st', au.
  change ((h0, t0, p0) :: middles ++ [(hn, tn, pn)]) with (((h0, t0, p0) :: middles) ++ [(hn, tn, pn)]).
  rewrite feed_app, Hfeed. cbn [feed]. rewrite Hpush.
  rewrite Hc in Hstrip, Hkey. split_and!; try done.
  destruct (keyframe_spec (VideoAccessUnitAssembler.codec st) (au_bytes au) (VideoAccessUnitAssembler.keyframe_hint st2))
    as (b & Hb' & Hiff). rewrite Hkey in Hb'. injection Hb' as ->. by rewrite decide_False in Hiff.
Qed.

(** An AV1 frame with the cloud header is cut to the length the header
    announces: the padding of its last FEC packet never reaches the decoder,
    and the keyframe flag is the header's. *)
Theorem av1_frame_exact_length st f h0 t0 p0 middles hn tn pn n
    (Hcodec : VideoAccessUnitAssembler.codec st = Av1)
    (Hframe : frame_packets f h0 hn middles)
    (Hhead : head p0 = Some Byte.x81) (Hn : from_le_bytes <$> zget_range p0 16 20 = Some n)
    (Hlen : zlen (drop 20 p0 ++ payloads middles ++ pn) <= VideoAccessUnitAssembler.max_access_unit_bytes st)
    (Hrange : 0 < n <= zlen (drop 20 p0 ++ payloads middles ++ pn)) :
  exists st' au,
    feed st ((h0, t0, p0) :: middles ++ [(hn, tn, pn)])
      = (st', replicate (S (length middles)) (Ok None) ++ [Ok (Some au)])
    /\ au_bytes au = truncate (drop 20 p0 ++ payloads middles ++ pn) n
    /\ zlen (au_bytes au) = n
    /\ (au_keyframe au = true <-> zget p0 3 = Some Byte.x02).
Proof.
  assert (Hp20 : 20 <= zlen p0).
  { destruct (zget_range p0 16 20) as [r|] eqn:E; [|done]. apply zget_range_inv in E. lia. }
  assert (Hpic : video_picture_payload (VideoAccessUnitAssembler.codec st) p0 = Ok (Some (drop 20 p0))).
  { rewrite Hcodec. unfold video_picture_payload. rewrite Hhead. unfold get_from, GFN_EXTENDED_FRAME_HEADER_BYTES.
    rewrite zget_range_Some by lia. change (Z.to_nat 20) with 20%nat. do 2 f_equal.
    rewrite take_ge; [done|]. rewrite length_drop. unfold zlen. lia. }
  rewrite !zlen_app in Hlen. pose proof (zlen_nonneg pn).
  destruct (feed_prefix st f h0 t0 p0 middles hn _ Hframe Hpic) as
    (st2 & Hfeed & [Hc Hm] & Hcur & Hfirst & Hb & Hkh & Hav1); [lia|].
  destruct (Hav1 Hcodec Hhead) as [Hexp Hlast]. rewrite Hn in Hexp.
  destruct Hframe as [_ _ (Hnf & Hsn & Hen)].
  destruct (push_last st2 f hn tn pn _ (truncate (drop 20 p0 ++ payloads middles ++ pn) n) Hnf Hsn Hen Hcur Hfirst)
    as (st' & au & Hpush & _ & Hac & Hts & Hfi & Hfp & _ & Hstrip & Hkey).
  { rewrite Hb, Hm, zlen_app. lia. }
  { intros _. split; [done|]. exists n. rewrite Hb, <- app_assoc. by split_and!; try lia. }
  { congruence. }
  exists st', au.
  change ((h0, t0, p0) :: middles ++ [(hn, tn, pn)]) with (((h0, t0, p0) :: middles) ++ [(hn, tn, pn)]).
  rewrite feed_app, Hfeed. cbn [feed]. rewrite Hpush.
  rewrite Hc, Hcodec in Hstrip, Hkey. unfold strip_trailing_access_unit_delimiter in Hstrip.
  rewrite decide_True in Hstrip by done. injection Hstrip as Hbytes. split; [done|]. split; [done|].
  split; [rewrite <- Hbytes; unfold truncate, zlen in *; rewrite length_take; lia|].
  unfold video_access_unit_is_keyframe in Hkey. rewrite decide_True in Hkey by done. injection Hkey as Hkey.
  rewrite <- Hkey, Hkh. destruct (zget p0 3) as [v|]; [|done]. split.
  - intros Hv%Byte.byte_dec_bl. by subst.
  - intros [= ->]. reflexivity.
Qed.

(** The assembler never panics and never exceeds its byte limit: over any
    sequence of packets (any header fields, any payload) it keeps at most
    [max_access_unit_bytes] buffered, every access unit it emits is at most
    that long and carries the configured codec, and no slice, index or
    [expect] of [push] fails. *)
Theorem assembler_total_and_bounded codec max packets (Hmax : 0 <= max) :
  let '(st, rs) := feed (VideoAccessUnitAssembler.new codec max) packets in
  zlen (VideoAccessUnitAssembler.bytes st) <= max
  /\ Forall (fun r => match r with
       | Ok (Some au) => au_codec au = codec /\ zlen (au_bytes au) <= max
       | Ok None | Err _ => True
       | Panic => False
       end) rs.
Proof.
  assert (Hgen : forall st, asm_wf st -> VideoAccessUnitAssembler.codec st = codec ->
    VideoAccessUnitAssembler.max_access_unit_bytes st = max ->
    let '(st', rs) := feed st packets in
    zlen (VideoAccessUnitAssembler.bytes st') <= max /\ Forall (unit_ok (VideoAccessUnitAssembler.new codec max)) rs).
  { induction packets as [|[[h ts] p] packets IH]; intros st Hwf Hc Hm.
    { simpl. rewrite <- Hm. split; [apply Hwf|constructor]. }
    cbn [feed]. pose proof (asm_push_spec st h ts p Hwf ltac:(lia)) as Hp.
    destruct (VideoAccessUnitAssembler.push st h ts p) as [st1 r]. destruct Hp as (Hwf1 & [Hc1 Hm1] & Hr).
    specialize (IH st1 Hwf1 ltac:(congruence) ltac:(congruence)).
    destruct (feed st1 packets) as [st2 rs]. destruct IH as [Hb Hall]. split; [done|]. constructor; [|done].
    unfold unit_ok in *. simpl. rewrite <- Hc, <- Hm. done. }
  specialize (Hgen (VideoAccessUnitAssembler.new codec max)).
  destruct (feed _ packets) as [st rs]. apply Hgen; [|done|done]. constructor; simpl; [by intros []|done].
Qed.

(** The keyframe scan terminates without panicking and answers whether the
    access unit has an intra NAL unit (H.264 type 5, H.265 types 16 to 21)
    right behind some [00 00 01]; for AV1 it answers the frame header's hint. *)
Theorem keyframe_scan_correct codec bytes hint :
  exists b, video_access_unit_is_keyframe codec bytes hint = Ok b
    /\ (b = true <-> if decide (codec = Av1) then hint = true else
          exists c h, bytes !! c = Some Byte.x00 /\ bytes !! S c = Some Byte.x00
            /\ bytes !! S (S c) = Some Byte.x01 /\ bytes !! (c + 3)%nat = Some h
            /\ is_intra codec h = true).
Proof.
  destruct (keyframe_spec codec bytes hint) as (b & Hb & Hiff). exists b. split; [done|]. rewrite Hiff.
  case_decide; [done|]. split.
  - intros (c & h & _ & (H1 & H2 & H3) & H4 & H5). exists c, h. by split_and!.
  - intros (c & h & H1 & H2 & H3 & H4 & H5). exists c, h. split; [lia|]. by split_and!.
Qed.

(** ** Sample frames *)

Definition video_header (frame flags : Z) : NvVideoPacket.t := {|
  NvVideoPacket.stream_packet_index := 42; NvVideoPacket.frame_index := frame; NvVideoPacket.flags := flags;
  NvVideoPacket.fec_current_block := 0; NvVideoPacket.fec_last_block := 0; NvVideoPacket.is_fec := false |}.

(** A GFN frame header, an IDR slice in three packets, a trailing delimiter. *)
Definition h264_first : list u8 :=
  replicate 8 Byte.x07 ++ [Byte.x00; Byte.x00; Byte.x00; Byte.x01; Byte.x65; Byte.xaa].
Definition h264_middle : list u8 := [Byte.xbb; Byte.xcc].
Definition h264_last : list u8 := [Byte.xdd; Byte.x00; Byte.x00; Byte.x01; Byte.x09; Byte.x10].

Lemma sample_frame_packets p :
  frame_packets 7 (video_header 7 5) (video_header 7 3) [(video_header 7 1, 90, p)].
Proof. by repeat constructor. Qed.

Lemma annex_b_frame_reassembled_witness :
  exists st' au, feed (VideoAccessUnitAssembler.new H264 64)
      [(video_header 7 5, 90, h264_first); (video_header 7 1, 90, h264_middle); (video_header 7 3, 90, h264_last)]
    = (st', [Ok None; Ok None; Ok (Some au)])
    /\ strip_trailing_access_unit_delimiter H264
         (drop 8 h264_first ++ h264_middle ++ h264_last) = Ok (au_bytes au).
Proof.
  destruct (annex_b_frame_reassembled (VideoAccessUnitAssembler.new H264 64) 7 (video_header 7 5) 90 h264_first
    [(video_header 7 1, 90, h264_middle)] (video_header 7 3) 90 h264_last (drop 8 h264_first)) as
    (st' & au & Hfeed & Hstrip & _).
  - discriminate.
  - apply sample_frame_packets.
  - vm_compute. reflexivity.
  - vm_compute. discriminate.
  - exists st', au. split; [exact Hfeed|exact Hstrip].
Defined.

Definition av1_first : list u8 :=
  [Byte.x81; Byte.x00; Byte.x00; Byte.x02] ++ replicate 12 Byte.x00
  ++ [Byte.x05; Byte.x00; Byte.x00; Byte.x00; Byte.x12; Byte.x34].

Lemma av1_frame_exact_length_witness :
  exists st' au, feed (VideoAccessUnitAssembler.new Av1 64)
      [(video_header 7 5, 90, av1_first); (video_header 7 1, 90, h264_middle); (video_header 7 3, 90, h264_last)]
    = (st', [Ok None; Ok None; Ok (Some au)]) /\ zlen (au_bytes au) = 5 /\ au_keyframe au = true.
Proof.
  destruct (av1_frame_exact_length (VideoAccessUnitAssembler.new Av1 64) 7 (video_header 7 5) 90 av1_first
    [(video_header 7 1, 90, h264_middle)] (video_header 7 3) 90 h264_last 5) as (st' & au & Hfeed & _ & Hl & Hk).
  - reflexivity.
  - apply sample_frame_packets.
  - reflexivity.
  - reflexivity.
  - vm_compute. discriminate.
  - vm_compute. split; [reflexivity|discriminate].
  - exists st', au. split; [exact Hfeed|]. split; [exact Hl|]. apply Hk. reflexivity.
Defined.

Lemma assembler_total_and_bounded_witness :
  let '(st, rs) := feed (VideoAccessUnitAssembler.new H264 10)
      [(video_header 7 5, 90, h264_first); (video_header 7 1, 90, h264_middle); (video_header 7 3, 90, h264_last)] in
  zlen (VideoAccessUnitAssembler.bytes st) <= 10.
Proof.
  pose proof (assembler_total_and_bounded H264 10
    [(video_header 7 5, 90, h264_first); (video_header 7 1, 90, h264_middle); (video_header 7 3, 90, h264_last)]
    ltac:(lia)) as H.
  destruct (feed _ _) as [st rs]. apply H.
Defined.
