(* ===== verification/Control.v ===== *)
(** * Control channel records

    [nvst_control.rs]: the little-endian records the client sends on the
    reliable control channel (NACK v2, frame acknowledgements, frame pacing, QoS
    reports, IDR requests), and [admit_write] of [nvst_budget.rs]. *)

From S2P Require Import Prelude.

Definition FRAME_ACK_CODE : Z := 0x204.
Definition FRAME_PACING_CODE : Z := 0x203.
Definition QOS_REPORT_CODE : Z := 0x207.
Definition IDR_REQUEST_CODE : Z := 0x302.
Definition NACK_V2_CODE : Z := 0x317.
Definition MAX_NACK_PACKET_COUNT : Z := 64.
Definition FRAME_ACK_PAYLOAD_LEN : Z := 102.
Definition FRAME_PACING_PAYLOAD_LEN : Z := 28.
Definition QOS_REPORT_PAYLOAD_LEN : Z := 52.
Definition QOS_REPORT_INTERVAL : Z := from_millis 50.

Record NvstControlCommand := { code : Z; payload : list u8 }.

Definition encoded (self : NvstControlCommand) : list u8 :=
  if zlen (payload self) <=? U16_MAX
  then to_le_bytes 2 (code self) ++ to_le_bytes 2 (zlen (payload self)) ++ payload self
  else [].

(** [payload[2] += 1], [u8] arithmetic. *)
Definition bump_count (payload : list u8) : outcome unit (list u8) :=
  n ← payload.[2];
  if b2z n =? 255 then Panic else set_idx payload 2 (z2b (b2z n + 1)).

(** One iteration of the loop over [missing[1..]]. *)
Definition nack_v2_step (st : list u8 * Z * Z) (sequence : Z) : outcome unit (list u8 * Z * Z) :=
  let '(payload, base, bitmap) := st in
  let distance := as_u16 (sequence - base) in
  if distance =? 0 then mret st
  else if distance <=? 64 then mret (payload, base, Z.lor bitmap (as_u64 (Z.shiftl 1 (distance - 1))))
  else
    payload ← bump_count (payload ++ to_le_bytes 2 base ++ to_le_bytes 8 bitmap);
    mret (payload, sequence, 0).

Definition nack_v2 (stream_index : Z) (missing : list Z) : outcome unit (option NvstControlCommand) :=
  match missing with
  | [] => mret None
  | first :: rest =>
      if MAX_NACK_PACKET_COUNT <? zlen missing then mret None else
      st ← ofold nack_v2_step rest ([Byte.x02; z2b stream_index; Byte.x00], first, 0);
      let '(payload, base, bitmap) := st in
      payload ← bump_count (payload ++ to_le_bytes 2 base ++ to_le_bytes 8 bitmap);
      mret (Some {| code := NACK_V2_CODE; payload := payload |})
  end.

Definition put_u16 (payload : list u8) (offset value : Z) : outcome unit (list u8) :=
  set_slice payload offset (offset + 2) (to_le_bytes 2 value).
Definition put_u32 (payload : list u8) (offset value : Z) : outcome unit (list u8) :=
  set_slice payload offset (offset + 4) (to_le_bytes 4 value).
Definition put_u64 (payload : list u8) (offset value : Z) : outcome unit (list u8) :=
  set_slice payload offset (offset + 8) (to_le_bytes 8 value).

(** [vec![0; n]] *)
Definition zeroes (n : Z) : list u8 := replicate (Z.to_nat n) Byte.x00.

(** [(-1.0_f32).to_bits()] *)
Definition MINUS_ONE_F32_BITS : Z := 0xbf800000.

(** [first_packet_time_ms] is the bit pattern of the [f64]. *)
Definition frame_ack (frame_number : Z) (first_packet_time_ms : option Z) (frame_bytes : Z)
    : outcome unit NvstControlCommand :=
  p ← put_u16 (zeroes FRAME_ACK_PAYLOAD_LEN) 0 1;
  p ← put_u16 p 2 9;
  p ← put_u32 p 4 frame_number;
  p ← (match first_packet_time_ms with Some bits => put_u64 p 12 bits | None => mret p end);
  p ← ofold (fun p k => put_u32 p (20 + 4 * k) MINUS_ONE_F32_BITS) (zrange 8) p;
  p ← put_u32 p 72 frame_bytes;
  p ← put_u32 p 94 MINUS_ONE_F32_BITS;
  p ← put_u32 p 98 MINUS_ONE_F32_BITS;
  mret {| code := FRAME_ACK_CODE; payload := p |}.

Definition frame_pacing_report (frame_number target_frame_time_us pacing_error_us : Z)
    : outcome unit NvstControlCommand :=
  p ← put_u32 (zeroes FRAME_PACING_PAYLOAD_LEN) 0 5;
  p ← put_u32 p 8 2;
  p ← put_u32 p 12 frame_number;
  p ← put_u32 p 16 target_frame_time_us;
  p ← put_u32 p 20 (Z.min pacing_error_us target_frame_time_us);
  p ← put_u32 p 24 0x341a;
  mret {| code := FRAME_PACING_CODE; payload := p |}.

(** The fields [BandwidthEstimator::report] fills in. *)
Record BandwidthFeedback := {
  minimum_server_time : Z;
  median_server_time : Z;
  queue_delay_us : Z;
  jitter_us : Z;
  utilization_percent : Z;
  estimate_kbps : Z;
  lossy_frames : Z
}.

Record QosPacketSnapshot := {
  qs_ssrc : Z;
  qs_base : Z;
  qs_highest : Z;
  qs_received : Z
}.

Record QosReport := {
  sequence : Z;
  sender_frame_number : Z;
  bytes_received : Z;
  loss_per_ten_thousand : Z;
  client_time_90khz : Z;
  packet_snapshot : option QosPacketSnapshot;
  bandwidth : BandwidthFeedback
}.

Definition qos_command (self : QosReport) : outcome unit NvstControlCommand :=
  p ← put_u32 (zeroes QOS_REPORT_PAYLOAD_LEN) 0 7;
  p ← put_u32 p 8 (sequence self);
  p ← put_u32 p 12 (sender_frame_number self);
  p ← put_u32 p 16 (minimum_server_time (bandwidth self));
  p ← put_u32 p 20 (queue_delay_us (bandwidth self));
  p ← put_u16 p 24 (jitter_us (bandwidth self));
  p ← put_u16 p 26 (loss_per_ten_thousand self);
  p ← set_idx p 28 (z2b (utilization_percent (bandwidth self)));
  p ← put_u16 p 30 1000;
  p ← put_u16 p 32 1000;
  p ← put_u32 p 36 (client_time_90khz self);
  p ← put_u32 p 40 (lossy_frames (bandwidth self));
  p ← put_u32 p 44 (estimate_kbps (bandwidth self));
  p ← put_u32 p 48 (median_server_time (bandwidth self));
  mret {| code := QOS_REPORT_CODE; payload := p |}.

Definition idr_request : NvstControlCommand :=
  {| code := IDR_REQUEST_CODE; payload := to_le_bytes 2 0 |}.

(** ** The write budget *)

Definition TRANSPORT_AGGREGATE_CAPACITY : Z := 128 * 1024.
Definition TEARDOWN_RESERVE : Z := 64 * 1024.
Definition NORMAL_BUDGET : Z := TRANSPORT_AGGREGATE_CAPACITY - TEARDOWN_RESERVE.

Inductive WriteClass := NormalWrite | TeardownWrite.
Inductive WriteAdmission := Admitted_ | OverBudget | EmptyWrite.

Definition is_admitted (a : WriteAdmission) : bool :=
  match a with Admitted_ => true | _ => false end.

Definition admit_write (buffered_total candidate : Z) (class : WriteClass) : WriteAdmission :=
  if candidate =? 0 then EmptyWrite else
  let limit := match class with
    | NormalWrite => NORMAL_BUDGET
    | TeardownWrite => TRANSPORT_AGGREGATE_CAPACITY
    end in
  if saturating_add64 buffered_total candidate <=? limit then Admitted_ else OverBudget.

(** ** NACK v2 *)

(** The reference decoder: a record is a base sequence and a bitmap of the 64
    sequences after it. *)
Definition decode_record (base bitmap : Z) : list Z :=
  base :: omap (fun bit => if Z.testbit bitmap bit then Some (as_u16 (base + bit + 1)) else None) (zrange 64).

Fixpoint decode_records (n : nat) (bytes : list u8) : list Z :=
  match n with
  | O => []
  | S n => decode_record (from_le_bytes (take 2 bytes)) (from_le_bytes (take 8 (drop 2 bytes)))
           ++ decode_records n (drop 10 bytes)
  end.

Definition decode_nack_v2 (payload : list u8) : list Z :=
  match payload with
  | _ :: _ :: count :: records => decode_records (Z.to_nat (b2z count)) records
  | _ => []
  end.

Definition record_bytes (r : Z * Z) : list u8 := to_le_bytes 2 r.1 ++ to_le_bytes 8 r.2.

Lemma decode_records_S n base bitmap bytes :
  is_u16 base -> is_u64 bitmap ->
  decode_records (S n) (record_bytes (base, bitmap) ++ bytes)
  = decode_record base bitmap ++ decode_records n bytes.
Proof.
  intros Hb Hm.
  assert (Hb' : from_le_bytes (to_le_bytes 2 base) = base) by by apply from_to_le_bytes.
  assert (Hm' : from_le_bytes (to_le_bytes 8 bitmap) = bitmap) by by apply from_to_le_bytes.
  unfold record_bytes. cbn [fst snd]. rewrite <- app_assoc.
  set (tail := to_le_bytes 8 bitmap ++ bytes).
  change (decode_records (S n) (to_le_bytes 2 base ++ tail)) with
    (decode_record (from_le_bytes (take 2 (to_le_bytes 2 base ++ tail)))
       (from_le_bytes (take 8 (drop 2 (to_le_bytes 2 base ++ tail))))
     ++ decode_records n (drop (2 + 8) (to_le_bytes 2 base ++ tail))).
  rewrite <- drop_drop, take_to_le_bytes, drop_to_le_bytes. unfold tail.
  by rewrite take_to_le_bytes, drop_to_le_bytes, Hb', Hm'.
Qed.

Lemma decode_record_bytes rs :
  Forall (fun r => is_u16 r.1 /\ is_u64 r.2) rs ->
  decode_records (length rs) (concat (map record_bytes rs)) = concat (map (fun r => decode_record r.1 r.2) rs).
Proof.
  induction 1 as [|[base bitmap] rs [Hb Hm] Hall IH]; [done|].
  cbn [length map concat]. rewrite decode_records_S by done. by rewrite IH.
Qed.

Arguments decode_record : simpl never.

Lemma elem_of_decode_record base bitmap s :
  s ∈ decode_record base bitmap <->
  s = base \/ exists bit, 0 <= bit < 64 /\ Z.testbit bitmap bit = true /\ s = as_u16 (base + bit + 1).
Proof.
  unfold decode_record. rewrite elem_of_cons, list_elem_of_omap. split.
  - intros [->|(bit & Hbit & Heq)]; [by left|right]. exists bit. unfold zrange in Hbit.
    apply list_elem_of_In, in_map_iff in Hbit as (k & <- & Hk). apply in_seq in Hk.
    destruct (Z.testbit bitmap (Z.of_nat k)) eqn:E; [|done]. injection Heq as <-. split; [lia|done].
  - intros [->|(bit & Hbit & Ht & ->)]; [by left|right]. exists bit. rewrite Ht. split; [|done].
    apply list_elem_of_In, in_map_iff. exists (Z.to_nat bit). split; [lia|]. apply in_seq. lia.
Qed.

Lemma elem_of_zrange64 bit : 0 <= bit < 64 -> Z.testbit (as_u64 (Z.shiftl 1 bit)) bit = true
  /\ forall i, Z.testbit (as_u64 (Z.shiftl 1 bit)) i = true -> i = bit.
Proof.
  intros Hb. assert (Hs : as_u64 (Z.shiftl 1 bit) = 2 ^ bit).
  { unfold as_u64. rewrite Z.shiftl_1_l. apply Z.mod_small. split; [lia|]. apply Z.pow_lt_mono_r; lia. }
  rewrite Hs. split; [apply Z.pow2_bits_true; lia|]. intros i Hi.
  destruct (Z.ltb_spec i 0); [by rewrite Z.testbit_neg_r in Hi|].
  rewrite Z.pow2_bits_eqb in Hi by lia. symmetry. by apply Z.eqb_eq.
Qed.

Lemma is_u64_lor_bit bitmap bit : is_u64 bitmap -> is_u64 (Z.lor bitmap (as_u64 bit)).
Proof.
  intros Hb. pose proof (as_u64_range bit) as Hr. unfold is_u64 in *. split; [apply Z.lor_nonneg; lia|].
  destruct (Z.eq_dec (Z.lor bitmap (as_u64 bit)) 0) as [->|]; [lia|].
  assert (0 <= Z.lor bitmap (as_u64 bit)) by (apply Z.lor_nonneg; lia).
  apply Z.log2_lt_pow2; [lia|]. rewrite Z.log2_lor by lia. 
  assert (Hl : forall x, 0 <= x < 2 ^ 64 -> Z.log2 x < 64).
  { intros x Hx. destruct (Z.eq_dec x 0) as [->|]; [simpl; lia|]. apply Z.log2_lt_pow2; lia. }
  pose proof (Hl bitmap Hb). pose proof (Hl _ Hr). lia.
Qed.

(** Adding a sequence within 64 of the base adds exactly it. *)
Lemma decode_record_add base bitmap s t :
  is_u16 base -> is_u16 s -> 1 <= as_u16 (s - base) <= 64 ->
  t ∈ decode_record base (Z.lor bitmap (as_u64 (Z.shiftl 1 (as_u16 (s - base) - 1))))
  <-> t = s \/ t ∈ decode_record base bitmap.
Proof.
  intros Hb Hs Hd. set (d := as_u16 (s - base)) in *.
  destruct (elem_of_zrange64 (d - 1)) as [Hbit Huniq]; [lia|].
  assert (Hsd : as_u16 (base + (d - 1) + 1) = s).
  { unfold d, as_u16. replace (base + ((s - base) mod 2 ^ 16 - 1) + 1) with (base + (s - base) mod 2 ^ 16) by lia.
    rewrite Zplus_mod_idemp_r. replace (base + (s - base)) with s by lia. by apply Z.mod_small. }
  rewrite !elem_of_decode_record. split.
  - intros [->|(bit & Hr & Ht & ->)]; [by right; left|]. rewrite Z.lor_spec in Ht.
    apply orb_true_iff in Ht as [Ht|Ht].
    + right; right. by exists bit.
    + left. by rewrite (Huniq bit Ht).
  - intros [->|[->|(bit & Hr & Ht & ->)]]; [right|by left|right].
    + exists (d - 1). rewrite Z.lor_spec, Hbit, orb_true_r. split_and!; [lia|lia|done|done].
    + exists bit. rewrite Z.lor_spec, Ht. split_and!; [lia|lia|done|done].
Qed.

(** The payload built from closed records. *)
Definition nack_payload (stream_index : Z) (rs : list (Z * Z)) : list u8 :=
  [Byte.x02; z2b stream_index; z2b (zlen rs)] ++ concat (map record_bytes rs).

Lemma bump_count_records i rs base bitmap :
  zlen rs < 255 ->
  bump_count (nack_payload i rs ++ to_le_bytes 2 base ++ to_le_bytes 8 bitmap)
  = Ok (nack_payload i (rs ++ [(base, bitmap)])).
Proof.
  intros Hl. pose proof (zlen_nonneg rs). unfold bump_count.
  replace (idx (nack_payload i rs ++ to_le_bytes 2 base ++ to_le_bytes 8 bitmap) 2)
    with (@Ok unit u8 (z2b (zlen rs))) by reflexivity.
  obind. rewrite b2z_z2b_small by lia. rewrite (proj2 (Z.eqb_neq _ _)) by lia.
  rewrite set_idx_Ok.
  - unfold nack_payload. rewrite map_app, concat_app, zlen_app.
    change (concat (map record_bytes [(base, bitmap)])) with ((to_le_bytes 2 base ++ to_le_bytes 8 bitmap) ++ []).
    rewrite app_nil_r, <- (app_assoc _ (concat _)). reflexivity.
  - unfold nack_payload. autorewrite with zlens. pose proof (zlen_nonneg (concat (map record_bytes rs))). lia.
Qed.

(** The loop: closed records plus the open one hold exactly the sequences
    seen. *)
Lemma nack_v2_loop i rest seen rs base bitmap :
  Forall is_u16 rest -> is_u16 base -> is_u64 bitmap ->
  Forall (fun r => is_u16 r.1 /\ is_u64 r.2) rs ->
  zlen rs + zlen rest < 255 ->
  (forall s, s ∈ concat (map (fun r => decode_record r.1 r.2) rs) ++ decode_record base bitmap <-> s ∈ seen) ->
  exists rs' base' bitmap',
    ofold nack_v2_step rest (nack_payload i rs, base, bitmap) = Ok (nack_payload i rs', base', bitmap')
    /\ is_u16 base' /\ is_u64 bitmap' /\ Forall (fun r => is_u16 r.1 /\ is_u64 r.2) rs'
    /\ zlen rs' <= zlen rs + zlen rest
    /\ forall s, s ∈ concat (map (fun r => decode_record r.1 r.2) rs') ++ decode_record base' bitmap'
         <-> s ∈ seen ++ rest.
Proof.
  intros Hall. revert seen rs base bitmap. induction Hall as [|s rest Hs Hall IH];
    intros seen rs base bitmap Hb Hm Hrs Hl Hseen.
  { exists rs, base, bitmap. rewrite app_nil_r, zlen_nil. split_and!; try done; lia. }
  rewrite zlen_cons in Hl |- *. pose proof (zlen_nonneg rest) as Hr0. pose proof (zlen_nonneg rs) as Hr1.
  cbn [ofold nack_v2_step].
  assert (Hassoc : forall t, t ∈ seen ++ s :: rest <-> t ∈ (seen ++ [s]) ++ rest).
  { intros t. by rewrite <- app_assoc. }
  destruct (Z.eqb_spec (as_u16 (s - base)) 0) as [Hz|Hz]; [|destruct (Z.leb_spec (as_u16 (s - base)) 64) as [H64|H64]].
  - obind. assert (Hsb : s = base).
    { unfold as_u16, is_u16 in *. apply Z.mod_divide in Hz as [k Hk]; [|lia]. lia. }
    destruct (IH (seen ++ [s]) rs base bitmap) as (rs' & b' & m' & -> & H1 & H2 & H3 & H4 & H5); try done; try lia.
    + intros t. rewrite (elem_of_app seen), <- Hseen, list_elem_of_singleton.
      split; [by left|]. intros [?| ->]; [done|]. apply elem_of_app. right. subst. by left.
    + exists rs', b', m'. split_and!; try done; try lia. intros t. by rewrite H5, Hassoc.
  - obind. pose proof (as_u16_range (s - base)) as Hd. unfold is_u16 in Hd.
    destruct (IH (seen ++ [s]) rs base (Z.lor bitmap (as_u64 (Z.shiftl 1 (as_u16 (s - base) - 1)))))
      as (rs' & b' & m' & -> & H1 & H2 & H3 & H4 & H5); try done; try lia.
    + by apply is_u64_lor_bit.
    + intros t. rewrite elem_of_app, decode_record_add by (done || lia).
      rewrite (elem_of_app seen), <- Hseen, list_elem_of_singleton, elem_of_app. tauto.
    + exists rs', b', m'. split_and!; try done; try lia. intros t. by rewrite H5, Hassoc.
  - rewrite bump_count_records by lia. obind.
    destruct (IH (seen ++ [s]) (rs ++ [(base, bitmap)]) s 0) as (rs' & b' & m' & -> & H1 & H2 & H3 & H4 & H5); try done.
    + apply Forall_app. split; [done|]. by apply Forall_singleton.
    + rewrite zlen_app. change (zlen [(base, bitmap)]) with 1. lia.
    + intros t. rewrite map_app, concat_app. cbn [map concat fst snd]. rewrite app_nil_r, elem_of_app.
      rewrite Hseen, (elem_of_app seen), list_elem_of_singleton.
      assert (H0s : t ∈ decode_record s 0 <-> t = s).
      { rewrite elem_of_decode_record. split; [|by left]. intros [?|(bit & _ & Ht & _)]; [done|].
        by rewrite Z.bits_0 in Ht. }
      by rewrite H0s.
    + rewrite zlen_app in H4. change (zlen [(base, bitmap)]) with 1 in H4.
      exists rs', b', m'. split_and!; try done; try lia. intros t. by rewrite H5, Hassoc.
Qed.

Lemma nack_v2_spec stream_index missing :
  missing <> [] -> zlen missing <= MAX_NACK_PACKET_COUNT -> Forall is_u16 missing ->
  exists rs, nack_v2 stream_index missing
      = Ok (Some {| code := NACK_V2_CODE; payload := nack_payload stream_index rs |})
    /\ 1 <= zlen rs <= zlen missing
    /\ Forall (fun r => is_u16 r.1 /\ is_u64 r.2) rs
    /\ forall s, s ∈ concat (map (fun r => decode_record r.1 r.2) rs) <-> s ∈ missing.
Proof.
  intros Hne Hlen Hall. destruct missing as [|first rest]; [done|]. unfold nack_v2, MAX_NACK_PACKET_COUNT in *.
  rewrite (proj2 (Z.ltb_ge 64 _)) by done. inversion Hall as [|? ? Hf Hrest]; subst.
  rewrite zlen_cons in Hlen |- *. pose proof (zlen_nonneg rest) as Hr0.
  destruct (nack_v2_loop stream_index rest [first] [] first 0 Hrest Hf) as
    (rs & base & bitmap & Hloop & Hb & Hm & Hrs & Hl & Hset).
  - done.
  - constructor.
  - change (zlen (@nil (Z * Z))) with 0. lia.
  - intros s. cbn [map concat app]. rewrite list_elem_of_singleton, elem_of_decode_record.
    split; [|by left]. intros [?|(bit & _ & Ht & _)]; [done|]. by rewrite Z.bits_0 in Ht.
  - change (nack_payload stream_index []) with [Byte.x02; z2b stream_index; Byte.x00] in Hloop.
    rewrite Hloop. obind. change (zlen (@nil (Z * Z))) with 0 in Hl.
    rewrite bump_count_records by lia. obind. exists (rs ++ [(base, bitmap)]).
    rewrite zlen_app. change (zlen [(base, bitmap)]) with 1. pose proof (zlen_nonneg rs).
    split_and!; [done|lia|lia|apply Forall_app; split; [done|by apply Forall_singleton]|].
    intros s. rewrite map_app, concat_app. cbn [map concat fst snd]. rewrite app_nil_r. by rewrite Hset.
Qed.

Lemma concat_records_length rs : zlen (concat (map record_bytes rs)) = 10 * zlen rs.
Proof.
  induction rs as [|r rs IH]; [done|]. cbn [map concat]. unfold record_bytes at 1.
  autorewrite with zlens. rewrite IH. lia.
Qed.

(** A NACK v2 record asks for exactly the missing packets.  For up to 64
    sequence numbers in any order, wrapping included, encoding never panics,
    the record count matches the payload length, and decoding the records (base
    plus the 64-bit bitmap of its successors) yields the same set of sequence
    numbers: none is lost and no hole is requested. *)
Theorem nack_v2_requests_exactly stream_index missing :
  missing <> [] -> zlen missing <= MAX_NACK_PACKET_COUNT -> Forall is_u16 missing ->
  exists payload, nack_v2 stream_index missing = Ok (Some {| code := NACK_V2_CODE; payload := payload |})
    /\ (exists count, payload !! 2%nat = Some count /\ zlen payload = 3 + 10 * b2z count)
    /\ forall s, s ∈ decode_nack_v2 payload <-> s ∈ missing.
Proof.
  intros Hne Hlen Hall. destruct (nack_v2_spec stream_index missing Hne Hlen Hall) as (rs & -> & Hl & Hrs & Hset).
  unfold MAX_NACK_PACKET_COUNT in Hlen. eexists. split; [reflexivity|].
  assert (Hcount : b2z (z2b (zlen rs)) = zlen rs) by (apply b2z_z2b_small; lia). split.
  - exists (z2b (zlen rs)). split; [done|]. rewrite Hcount. unfold nack_payload. autorewrite with zlens.
    rewrite concat_records_length. lia.
  - intros s. unfold nack_payload, decode_nack_v2. cbn [app]. rewrite Hcount. unfold zlen.
    rewrite Nat2Z.id, decode_record_bytes by done. apply Hset.
Qed.

Lemma nack_v2_requests_exactly_witness :
  exists payload, nack_v2 0 [65534; 65535; 0; 62; 63] = Ok (Some {| code := NACK_V2_CODE; payload := payload |})
    /\ decode_nack_v2 payload = [65534; 65535; 0; 62; 63].
Proof.
  destruct (nack_v2_requests_exactly 0 [65534; 65535; 0; 62; 63]) as (payload & Hp & _).
  - discriminate.
  - vm_compute. discriminate.
  - repeat (apply Forall_cons; split; [unfold is_u16; lia|]). apply Forall_nil_2.
  - exists payload. split; [exact Hp|]. vm_compute in Hp. injection Hp as <-. vm_compute. reflexivity.
Defined.

(** ** Fixed layouts *)

(** Reading a little-endian field. *)
Definition field (payload : list u8) (offset : Z) (n : nat) : Z :=
  from_le_bytes (take n (drop (Z.to_nat offset) payload)).

Lemma field_splice_same payload offset n v :
  0 <= offset -> offset + Z.of_nat n <= zlen payload -> 0 <= v < 256 ^ Z.of_nat n ->
  field (splice payload offset (to_le_bytes n v)) offset n = v.
Proof.
  intros Ho Hl Hv. unfold field, splice. rewrite drop_app_length'.
  - rewrite take_to_le_bytes. by apply from_to_le_bytes.
  - rewrite length_take. unfold zlen in Hl. lia.
Qed.

Lemma field_splice_other payload offset v o n :
  0 <= offset -> 0 <= o -> offset + zlen v <= zlen payload -> o + Z.of_nat n <= zlen payload ->
  o + Z.of_nat n <= offset \/ offset + zlen v <= o ->
  field (splice payload offset v) o n = field payload o n.
Proof.
  intros Ho Ho' Hl Hl' Hsep. unfold field. f_equal. apply list_eq. intros i.
  destruct (decide (i < n)%nat) as [Hi|Hi].
  - rewrite !lookup_take_lt, !lookup_drop by done. apply splice_outside; lia.
  - rewrite !lookup_ge_None_2; [done|rewrite length_take; lia..].
Qed.

(** Writing a field: the field reads back, every disjoint field is kept. *)
Lemma put_spec p o n v :
  0 <= o -> o + Z.of_nat n <= zlen p -> 0 <= v < 256 ^ Z.of_nat n ->
  exists p', set_slice (E := unit) p o (o + Z.of_nat n) (to_le_bytes n v) = Ok p' /\ zlen p' = zlen p
    /\ field p' o n = v
    /\ forall o' n', 0 <= o' -> o' + Z.of_nat n' <= zlen p -> o' + Z.of_nat n' <= o \/ o + Z.of_nat n <= o' ->
         field p' o' n' = field p o' n'.
Proof.
  intros Ho Hl Hv. pose proof (zlen_to_le_bytes n v) as Hz.
  exists (splice p o (to_le_bytes n v)). split; [by rewrite set_slice_Ok by lia|].
  split; [by rewrite zlen_splice by lia|]. split; [by apply field_splice_same|].
  intros o' n' Ho' Hl' Hd. apply field_splice_other; lia.
Qed.

Lemma put_u16_spec p o v :
  0 <= o -> o + 2 <= zlen p -> is_u16 v ->
  exists p', put_u16 p o v = Ok p' /\ zlen p' = zlen p /\ field p' o 2 = v
    /\ forall o' n', 0 <= o' -> o' + Z.of_nat n' <= zlen p -> o' + Z.of_nat n' <= o \/ o + 2 <= o' ->
         field p' o' n' = field p o' n'.
Proof. apply (put_spec p o 2 v). Qed.
Lemma put_u32_spec p o v :
  0 <= o -> o + 4 <= zlen p -> is_u32 v ->
  exists p', put_u32 p o v = Ok p' /\ zlen p' = zlen p /\ field p' o 4 = v
    /\ forall o' n', 0 <= o' -> o' + Z.of_nat n' <= zlen p -> o' + Z.of_nat n' <= o \/ o + 4 <= o' ->
         field p' o' n' = field p o' n'.
Proof. apply (put_spec p o 4 v). Qed.
Lemma put_u64_spec p o v :
  0 <= o -> o + 8 <= zlen p -> is_u64 v ->
  exists p', put_u64 p o v = Ok p' /\ zlen p' = zlen p /\ field p' o 8 = v
    /\ forall o' n', 0 <= o' -> o' + Z.of_nat n' <= zlen p -> o' + Z.of_nat n' <= o \/ o + 8 <= o' ->
         field p' o' n' = field p o' n'.
Proof. apply (put_spec p o 8 v). Qed.
Lemma set_byte_spec p o v :
  0 <= o < zlen p -> 0 <= v < 256 ->
  exists p', set_idx (E := unit) p o (z2b v) = Ok p' /\ zlen p' = zlen p /\ field p' o 1 = v
    /\ forall o' n', 0 <= o' -> o' + Z.of_nat n' <= zlen p -> o' + Z.of_nat n' <= o \/ o + 1 <= o' ->
         field p' o' n' = field p o' n'.
Proof.
  intros Ho Hv. exists (<[Z.to_nat o := z2b v]> p). split; [by rewrite set_idx_Ok by lia|].
  split; [apply zlen_insert|]. unfold zlen in *.
  assert (Hsplice : <[Z.to_nat o := z2b v]> p = splice p o (to_le_bytes 1 v)).
  { unfold splice. rewrite insert_take_drop by lia. change (zlen (to_le_bytes 1 v)) with 1.
    replace (Z.to_nat (o + 1)) with (S (Z.to_nat o)) by lia. reflexivity. }
  rewrite Hsplice. split.
  - apply (field_splice_same p o 1 v); unfold zlen; lia.
  - intros o' n' H1 H2 H3. apply field_splice_other; unfold zlen; simpl; lia.
Qed.

Lemma field_zeroes N o n : 0 <= o -> field (zeroes N) o n = 0.
Proof.
  intros Ho. unfold field, zeroes.
  assert (H : forall k, from_le_bytes (replicate k Byte.x00) = 0).
  { intros k. induction k as [|k IH]; [done|]. change (b2z Byte.x00 + 256 * from_le_bytes (replicate k Byte.x00) = 0). by rewrite IH. }
  rewrite drop_replicate, take_replicate. apply H.
Qed.
Lemma zlen_zeroes N : 0 <= N -> zlen (zeroes N) = N.
Proof. intros. unfold zeroes, zlen. rewrite length_replicate. lia. Qed.

(** Step over one [put]; read a field through all of them. *)
Ltac put_step :=
  let go L := (destruct L as (? & -> & ? & ? & ?); [lia|lia|first [assumption | unfold is_u16, is_u32, is_u64 in *; lia]|]; obind) in
  match goal with
  | |- context [put_u16 ?p ?o ?v] => go (put_u16_spec p o v)
  | |- context [put_u32 ?p ?o ?v] => go (put_u32_spec p o v)
  | |- context [put_u64 ?p ?o ?v] => go (put_u64_spec p o v)
  | |- context [set_idx ?p ?o (z2b ?v)] =>
      destruct (set_byte_spec p o v) as (? & -> & ? & ? & ?); [lia|lia|]; obind
  end.
Ltac read_field :=
  repeat match goal with
  | H : field ?p ?o ?n = ?v |- context [field ?p ?o ?n] => rewrite H
  | H : forall o n, _ -> _ -> _ -> field ?p o n = field _ o n |- context [field ?p ?o ?n] =>
      rewrite (H o n) by (simpl; lia)
  | |- context [field (zeroes _) _ _] => rewrite field_zeroes by lia
  end.

(** Every report has its command code, its payload length and its fields at
    their wire offsets. *)
Definition has_fields (payload : list u8) (fields : list (Z * nat * Z)) : Prop :=
  Forall (fun f => field payload f.1.1 f.1.2 = f.2) fields.

Ltac layout :=
  repeat put_step; eexists; split; [reflexivity|]; split; [lia|];
  unfold has_fields; repeat (apply Forall_cons; split; [cbn [fst snd]; read_field; try done|]); apply Forall_nil_2.

Lemma frame_ack_layout frame_number time frame_bytes :
  is_u32 frame_number -> is_u32 frame_bytes -> (forall bits, time = Some bits -> is_u64 bits) ->
  exists p, frame_ack frame_number time frame_bytes = Ok {| code := FRAME_ACK_CODE; payload := p |}
    /\ zlen p = FRAME_ACK_PAYLOAD_LEN
    /\ has_fields p ([(0, 2%nat, 1); (2, 2%nat, 9); (4, 4%nat, frame_number); (12, 8%nat, default 0 time)]
        ++ map (fun o => (o, 4%nat, MINUS_ONE_F32_BITS)) [20; 24; 28; 32; 36; 40; 44; 48; 94; 98]
        ++ [(72, 4%nat, frame_bytes)]).
Proof.
  intros Hf Hb Ht. unfold frame_ack, FRAME_ACK_PAYLOAD_LEN. pose proof (zlen_zeroes 102 ltac:(lia)) as Hz.
  assert (Hm : is_u32 MINUS_ONE_F32_BITS) by by split. cbn [zrange seq map ofold app].
  destruct time as [bits|].
  - specialize (Ht bits eq_refl). layout.
  - layout.
Qed.

Lemma frame_pacing_layout frame_number target error :
  is_u32 frame_number -> is_u32 target -> is_u32 error ->
  exists p, frame_pacing_report frame_number target error = Ok {| code := FRAME_PACING_CODE; payload := p |}
    /\ zlen p = FRAME_PACING_PAYLOAD_LEN
    /\ has_fields p [(0, 4%nat, 5); (4, 4%nat, 0); (8, 4%nat, 2); (12, 4%nat, frame_number);
         (16, 4%nat, target); (20, 4%nat, Z.min error target); (24, 4%nat, 0x341a)].
Proof.
  intros Hf Ht He. unfold frame_pacing_report, FRAME_PACING_PAYLOAD_LEN.
  pose proof (zlen_zeroes 28 ltac:(lia)) as Hz. layout.
Qed.

(** The ranges the types of a [QosReport] give its fields. *)
Record qos_typed (r : QosReport) : Prop := {
  qt_sequence : is_u32 (sequence r);
  qt_frame : is_u32 (sender_frame_number r);
  qt_loss : is_u16 (loss_per_ten_thousand r);
  qt_time : is_u32 (client_time_90khz r);
  qt_minimum : is_u32 (minimum_server_time (bandwidth r));
  qt_median : is_u32 (median_server_time (bandwidth r));
  qt_delay : is_u32 (queue_delay_us (bandwidth r));
  qt_jitter : is_u16 (jitter_us (bandwidth r));
  qt_utilization : is_u8 (utilization_percent (bandwidth r));
  qt_estimate : is_u32 (estimate_kbps (bandwidth r));
  qt_lossy : is_u32 (lossy_frames (bandwidth r))
}.

Lemma qos_layout r :
  qos_typed r ->
  exists p, qos_command r = Ok {| code := QOS_REPORT_CODE; payload := p |}
    /\ zlen p = QOS_REPORT_PAYLOAD_LEN
    /\ has_fields p [(0, 4%nat, 7); (4, 4%nat, 0); (8, 4%nat, sequence r); (12, 4%nat, sender_frame_number r);
         (16, 4%nat, minimum_server_time (bandwidth r)); (20, 4%nat, queue_delay_us (bandwidth r));
         (24, 2%nat, jitter_us (bandwidth r)); (26, 2%nat, loss_per_ten_thousand r);
         (28, 1%nat, utilization_percent (bandwidth r)); (30, 2%nat, 1000); (32, 2%nat, 1000);
         (36, 4%nat, client_time_90khz r); (40, 4%nat, lossy_frames (bandwidth r));
         (44, 4%nat, estimate_kbps (bandwidth r)); (48, 4%nat, median_server_time (bandwidth r))].
Proof.
  intros []. unfold qos_command, QOS_REPORT_PAYLOAD_LEN. unfold is_u8 in *.
  pose proof (zlen_zeroes 52 ltac:(lia)) as Hz. layout.
Qed.

(** [encoded] frames a payload with its code and its length. *)
Definition framed (c : NvstControlCommand) : Prop :=
  zlen (encoded c) = 4 + zlen (payload c)
  /\ has_fields (encoded c) [(0, 2%nat, code c); (2, 2%nat, zlen (payload c))]
  /\ drop 4 (encoded c) = payload c.

Lemma encoded_framed c p :
  zlen p <= U16_MAX -> is_u16 c -> framed {| code := c; payload := p |}.
Proof.
  intros Hl Hc. unfold framed, encoded. cbn [code payload]. rewrite (proj2 (Z.leb_le _ _)) by done.
  pose proof (zlen_nonneg p). unfold U16_MAX, is_u16 in *. split; [autorewrite with zlens; lia|].
  assert (Hd : drop 2 (to_le_bytes 2 c ++ to_le_bytes 2 (zlen p) ++ p) = to_le_bytes 2 (zlen p) ++ p)
    by apply drop_to_le_bytes.
  split; [|].
  - unfold has_fields, field. repeat (apply Forall_cons; split); [..|apply Forall_nil_2]; cbn [fst snd].
    + change (Z.to_nat 0) with 0%nat. rewrite drop_0, take_to_le_bytes. apply from_to_le_bytes. lia.
    + change (Z.to_nat 2) with 2%nat. rewrite Hd, take_to_le_bytes. apply from_to_le_bytes. lia.
  - change 4%nat with (2 + 2)%nat. rewrite <- drop_drop, Hd. apply drop_to_le_bytes.
Qed.

(** The layout of the control records.  For values in the range of their
    Rust types, building a frame acknowledgement, a frame pacing report or a
    QoS report never panics; the payload has the advertised length, every
    field reads back little-endian at its wire offset (unmeasured stages as
    -1.0, the pacing error capped at the target), and [encoded] puts the
    code and the exact payload length in front. *)
Theorem control_records_layout frame_number time frame_bytes target error report :
  is_u32 frame_number -> is_u32 frame_bytes -> (forall bits, time = Some bits -> is_u64 bits) ->
  is_u32 target -> is_u32 error -> qos_typed report ->
  exists ack pacing qos,
    frame_ack frame_number time frame_bytes = Ok {| code := FRAME_ACK_CODE; payload := ack |}
    /\ frame_pacing_report frame_number target error = Ok {| code := FRAME_PACING_CODE; payload := pacing |}
    /\ qos_command report = Ok {| code := QOS_REPORT_CODE; payload := qos |}
    /\ zlen ack = FRAME_ACK_PAYLOAD_LEN
    /\ zlen pacing = FRAME_PACING_PAYLOAD_LEN
    /\ zlen qos = QOS_REPORT_PAYLOAD_LEN
    /\ has_fields ack
         ([(0, 2%nat, 1); (2, 2%nat, 9); (4, 4%nat, frame_number); (12, 8%nat, default 0 time)]
          ++ map (fun o => (o, 4%nat, MINUS_ONE_F32_BITS)) [20; 24; 28; 32; 36; 40; 44; 48; 94; 98]
          ++ [(72, 4%nat, frame_bytes)])
    /\ has_fields pacing
         [(0, 4%nat, 5); (4, 4%nat, 0); (8, 4%nat, 2); (12, 4%nat, frame_number);
          (16, 4%nat, target); (20, 4%nat, Z.min error target); (24, 4%nat, 0x341a)]
    /\ has_fields qos
         [(0, 4%nat, 7); (4, 4%nat, 0); (8, 4%nat, sequence report); (12, 4%nat, sender_frame_number report);
          (16, 4%nat, minimum_server_time (bandwidth report)); (20, 4%nat, queue_delay_us (bandwidth report));
          (24, 2%nat, jitter_us (bandwidth report)); (26, 2%nat, loss_per_ten_thousand report);
          (28, 1%nat, utilization_percent (bandwidth report)); (30, 2%nat, 1000); (32, 2%nat, 1000);
          (36, 4%nat, client_time_90khz report); (40, 4%nat, lossy_frames (bandwidth report));
          (44, 4%nat, estimate_kbps (bandwidth report)); (48, 4%nat, median_server_time (bandwidth report))]
    /\ framed {| code := FRAME_ACK_CODE; payload := ack |}
    /\ framed {| code := FRAME_PACING_CODE; payload := pacing |}
    /\ framed {| code := QOS_REPORT_CODE; payload := qos |}
    /\ framed idr_request.
Proof.
  intros Hn Hb Ht Htgt Herr Hq.
  destruct (frame_ack_layout _ _ _ Hn Hb Ht) as (a & -> & Ha & Hfa).
  destruct (frame_pacing_layout _ _ _ Hn Htgt Herr) as (p & -> & Hp & Hfp).
  destruct (qos_layout _ Hq) as (q & -> & Hql & Hfq).
  exists a, p, q.
  unfold FRAME_ACK_PAYLOAD_LEN, FRAME_PACING_PAYLOAD_LEN, QOS_REPORT_PAYLOAD_LEN in *.
  split_and!; try done; apply encoded_framed; unfold U16_MAX, is_u16; try done;
    rewrite ?Ha, ?Hp, ?Hql; done.
Qed.

Definition report_example : QosReport :=
  {| sequence := 3; sender_frame_number := 42; bytes_received := 100000; loss_per_ten_thousand := 25;
     client_time_90khz := 0x12345678; packet_snapshot := None;
     bandwidth := {| minimum_server_time := 1; median_server_time := 2; queue_delay_us := 3; jitter_us := 4;
                     utilization_percent := 90; estimate_kbps := 50000; lossy_frames := 1 |} |}.

Lemma control_records_layout_witness :
  exists ack, frame_ack 42 (Some 0x40d3d80a3d70a3d7) 15168 = Ok {| code := FRAME_ACK_CODE; payload := ack |}
    /\ field ack 12 8 = 0x40d3d80a3d70a3d7.
Proof.
  destruct (control_records_layout 42 (Some 0x40d3d80a3d70a3d7) 15168 16666 20000 report_example)
    as (ack & pacing & qos & Hack & _); try (split; reflexivity || discriminate).
  - intros bits [= <-]. split; [discriminate|reflexivity].
  - constructor; split; reflexivity || discriminate.
  - exists ack. split; [exact Hack|]. vm_compute in Hack. injection Hack as <-. vm_compute. reflexivity.
Defined.

(** ** Teardown always fits *)

(** The writes admitted since the transport last drained. *)
Inductive buffered : Z -> Prop :=
  | buffered_empty : buffered 0
  | buffered_drain total less : buffered total -> 0 <= less <= total -> buffered less
  | buffered_write total n : buffered total -> 0 <= n -> admit_write total n NormalWrite = Admitted_ ->
      buffered (total + n).

Lemma buffered_bound total : buffered total -> 0 <= total <= NORMAL_BUDGET.
Proof.
  unfold NORMAL_BUDGET, TRANSPORT_AGGREGATE_CAPACITY, TEARDOWN_RESERVE.
  induction 1 as [|total less H IH Hl|total n H IH Hn Hadm]; [lia|lia|].
  unfold admit_write, NORMAL_BUDGET, TRANSPORT_AGGREGATE_CAPACITY, TEARDOWN_RESERVE in Hadm.
  destruct (n =? 0); [done|]. destruct (_ <=? _) eqn:E in Hadm; [|done].
  unfold saturating_add64, U64_MAX in E. zbool. lia.
Qed.

(** The teardown reserve is always there.  However normal writes and
    drains interleave, the admitted bytes never exceed the normal budget, and
    a teardown write of up to the 64 KiB reserve is still admitted; an empty
    write never is, and no write passes the aggregate capacity. *)
Theorem teardown_always_admitted total n class :
  buffered total ->
  total <= NORMAL_BUDGET
  /\ (0 < n <= TEARDOWN_RESERVE -> admit_write total n TeardownWrite = Admitted_)
  /\ (admit_write total n class = Admitted_ -> n <> 0 /\ total + n <= TRANSPORT_AGGREGATE_CAPACITY)
  /\ (admit_write total n NormalWrite = Admitted_ -> 0 <= n ->
       admit_write (total + n) TEARDOWN_RESERVE TeardownWrite = Admitted_).
Proof.
  intros Hb. pose proof (buffered_bound total Hb) as Hr. 
  unfold admit_write, saturating_add64, NORMAL_BUDGET, TRANSPORT_AGGREGATE_CAPACITY, TEARDOWN_RESERVE, U64_MAX in *.
  split_and!; [lia|..].
  - intros Hn. repeat zif. done.
  - destruct (Z.eqb_spec n 0); [done|]. destruct class; destruct (_ <=? _) eqn:E; try done; intros _; zbool; (split; [done|lia]).
  - destruct (Z.eqb_spec n 0); [done|]. destruct (_ <=? _) eqn:E; [|done]. intros _ Hn. zbool.
    repeat zif. done.
Qed.

Lemma teardown_always_admitted_witness :
  admit_write 65000 536 NormalWrite = Admitted_ /\ admit_write 65536 65536 TeardownWrite = Admitted_
  /\ admit_write 65000 537 NormalWrite = OverBudget.
Proof.
  assert (H : buffered 65000) by (apply (buffered_write 0 65000); [apply buffered_empty|discriminate|reflexivity]).
  destruct (teardown_always_admitted 65000 536 NormalWrite H) as (_ & _ & _ & Ht).
  split; [reflexivity|]. split; [|reflexivity]. apply Ht; [reflexivity|discriminate].
Defined.
