(* ===== verification/Deque.v ===== *)
(** * Deques

    The [VecDeque] operations several components use: the first element that
    satisfies a predicate is found, updated or removed, and bounded queues drop
    their oldest element. *)

From S2P Require Import Prelude.

Section Deque.
Context {A : Type}.
Implicit Types (p : A -> bool) (f : A -> A) (q : list A) (r : A).

(** [iter_mut().find(p)] and the update of the element found. *)
Fixpoint update_first p f q : option (list A) :=
  match q with
  | [] => None
  | r :: q => if p r then Some (f r :: q) else (cons r) <$> update_first p f q
  end.

(** [iter_mut().rev().find(p)] and the update of the element found. *)
Definition update_last p f q : option (list A) := (fun q => rev q) <$> update_first p f (rev q).

(** [VecDeque::insert] *)
Definition insert_at (i : nat) r q : list A := take i q ++ r :: drop i q.

(** [iter().position(p)] *)
Definition position p q : option nat :=
  fst <$> list_find (fun r => p r = true) q.

(** [position(p)] and then [remove] *)
Definition take_first p q : option (A * list A) :=
  match position p q with
  | Some i => (fun r => (r, delete i q)) <$> q !! i
  | None => None
  end.

(** [if len == bound { pop_front }] and then [push_back] *)
Definition push_bounded (bound : Z) q r : list A :=
  (if zlen q =? bound then tail q else q) ++ [r].

(** ** Lemmas *)

Lemma update_first_spec p f q q' :
  update_first p f q = Some q' ->
  exists pre r post, q = pre ++ r :: post /\ q' = pre ++ f r :: post /\ p r = true.
Proof.
  revert q'. induction q as [|r q IH]; intros q' H; [done|]. cbn [update_first] in H.
  destruct (p r) eqn:E.
  - injection H as <-. by exists [], r, q.
  - destruct (update_first p f q) as [k|] eqn:Ek; [|done]. injection H as <-.
    destruct (IH _ eq_refl) as (pre & r' & post & -> & -> & Hp). by exists (r :: pre), r', post.
Qed.
Lemma update_first_None p f q : update_first p f q = None -> Forall (fun r => p r = false) q.
Proof.
  induction q as [|r q IH]; intros H; [constructor|]. cbn [update_first] in H. destruct (p r) eqn:E; [done|].
  destruct (update_first p f q) eqn:Ek; [done|]. constructor; [done|]. by apply IH.
Qed.
Lemma update_first_None_iff p f g q : update_first p f q = None <-> update_first p g q = None.
Proof.
  induction q as [|r q IH]; [done|]. cbn [update_first]. destruct (p r); [done|].
  destruct (update_first p f q), (update_first p g q); naive_solver.
Qed.

Lemma update_last_spec p f q q' :
  update_last p f q = Some q' ->
  exists pre r post, q = pre ++ r :: post /\ q' = pre ++ f r :: post /\ p r = true.
Proof.
  unfold update_last. intros (k & (pre & r & post & Hq & -> & Hp)%update_first_spec & ->)%fmap_Some.
  exists (rev post), r, (rev pre). rewrite <- (rev_involutive q), Hq, !rev_app_distr. cbn [rev].
  by rewrite <- !app_assoc.
Qed.
Lemma update_last_None p f q : update_last p f q = None -> Forall (fun r => p r = false) q.
Proof.
  unfold update_last. intros H%fmap_None%update_first_None.
  rewrite Forall_forall in *. intros r Hr. apply H. rewrite list_elem_of_In, <- in_rev. by apply list_elem_of_In.
Qed.

Lemma insert_at_app (pre post : list A) r : insert_at (length pre) r (pre ++ post) = pre ++ r :: post.
Proof. unfold insert_at. by rewrite take_app_length, drop_app_length. Qed.
Lemma delete_app (pre : list A) r post : delete (length pre) (pre ++ r :: post) = pre ++ post.
Proof. by rewrite delete_middle. Qed.

Lemma position_Some p q i :
  position p q = Some i ->
  exists pre r post, q = pre ++ r :: post /\ length pre = i /\ p r = true.
Proof.
  unfold position. destruct (list_find _ q) as [[j r]|] eqn:E; [|done]. intros [= <-].
  apply list_find_Some in E as (Hj & Hp & _). exists (take j q), r, (drop (S j) q).
  pose proof (lookup_lt_Some _ _ _ Hj). rewrite length_take. split_and!; [|lia|done].
  symmetry. by apply take_drop_middle.
Qed.
Lemma position_None p q : position p q = None -> forall r, r ∈ q -> p r = false.
Proof.
  unfold position. destruct (list_find _ q) as [[j r]|] eqn:E; [done|]. intros _ r Hr.
  apply list_find_None in E. rewrite Forall_forall in E. specialize (E r Hr). by destruct (p r).
Qed.

Lemma take_first_Some p q r q' :
  take_first p q = Some (r, q') ->
  exists pre post, q = pre ++ r :: post /\ q' = pre ++ post /\ p r = true.
Proof.
  unfold take_first. destruct (position p q) as [i|] eqn:Hi; [|done].
  apply position_Some in Hi as (pre & x & post & -> & <- & Hp).
  rewrite list_lookup_middle by done. intros [= <- <-]. exists pre, post. by rewrite delete_app.
Qed.
Lemma take_first_None p q : take_first p q = None -> forall r, r ∈ q -> p r = false.
Proof.
  unfold take_first. destruct (position p q) as [i|] eqn:Hi; [|intros _; by apply position_None].
  apply position_Some in Hi as (pre & x & post & -> & <- & Hp).
  by rewrite list_lookup_middle.
Qed.

Lemma push_bounded_length bound q r :
  1 <= bound -> zlen q <= bound -> zlen (push_bounded bound q r) <= bound.
Proof.
  intros Hb Hq. unfold push_bounded. rewrite zlen_app.
  destruct (Z.eqb_spec (zlen q) bound); [|unfold zlen in *; cbn; lia].
  destruct q; unfold zlen in *; cbn in *; lia.
Qed.
End Deque.
