(* ===== verification/Nack.v ===== *)
(** * The retransmission request queue

    The [pending_nacks] deque of [NvstFeedbackState] (nvst.rs): the ranges of
    packet indices the client still wants, with the time of the request and of
    the last transmission.  [request_nack] adds a range, [resolve_nack] removes
    an index that arrived, [take_nack] picks the next range to ask for. *)

From S2P Require Import Prelude Deque Control.

Definition NACK_RETRY_INTERVAL : Z := from_millis 4.
Definition DEFAULT_NACK_RTT : Z := from_millis 30.
Definition NACK_TRACKING_TIMEOUT : Z := from_millis 52.
Definition MAX_NACK_ATTEMPTS : Z := 3.
Definition MAX_PENDING_NACK_RANGES : Z := 16.

(** [Duration::MAX] in nanoseconds. *)
Definition DURATION_MAX : Z := U64_MAX * 1000000000 + 999999999.

Module PendingNackRange.
Record t := {
  first : Z;
  last : Z;
  requested_at : Z;
  last_sent_at : option Z;
  attempts : Z
}.
End PendingNackRange.
Import PendingNackRange (requested_at, last_sent_at, attempts).
Abbreviation range := PendingNackRange.t.

Definition touches (first last : Z) (queued : range) : bool :=
  (first <=? saturating_add64 (PendingNackRange.last queued) 1)
  && (PendingNackRange.first queued <=? saturating_add64 last 1).

Definition widen (first_missing last_missing now : Z) (queued : range) : range :=
  let first := Z.min (PendingNackRange.first queued) first_missing in
  let last := Z.max (PendingNackRange.last queued) last_missing in
  if negb (first =? PendingNackRange.first queued) || negb (last =? PendingNackRange.last queued)
  then {| PendingNackRange.first := first; PendingNackRange.last := last;
          requested_at := now; last_sent_at := None; attempts := 0 |}
  else queued.

Definition request_nack (pending : list range) (first_missing last_missing now : Z) : list range :=
  if last_missing <? first_missing then pending else
  match update_first (touches first_missing last_missing) (widen first_missing last_missing now) pending with
  | Some pending => pending
  | None =>
      let pending := if zlen pending =? MAX_PENDING_NACK_RANGES then tail pending else pending in
      pending ++ [{| PendingNackRange.first := first_missing; PendingNackRange.last := last_missing;
                     requested_at := now; last_sent_at := None; attempts := 0 |}]
  end.

(** One iteration of the loop of [resolve_nack]. *)
Definition resolve_range (received_index : Z) (st : list range * bool) (r : range) : list range * bool :=
  let '(updated, resolved) := st in
  if (received_index <? PendingNackRange.first r) || (PendingNackRange.last r <? received_index)
  then (updated ++ [r], resolved)
  else
    let resolved := resolved || bool_decide (is_Some (last_sent_at r)) in
    let updated := if PendingNackRange.first r <? received_index
      then updated ++ [r <| PendingNackRange.last := received_index - 1 |>] else updated in
    let updated := if received_index <? PendingNackRange.last r
      then updated ++ [r <| PendingNackRange.first := received_index + 1 |>] else updated in
    (updated, resolved).

Definition resolve_nack (pending : list range) (received_index : Z) : list range * bool :=
  foldl (resolve_range received_index) ([], false) pending.

(** The retry interval and the attempts a round trip time leaves room for. *)
Definition retry_budget (retry_rtt : option Z) : Z * Z :=
  match retry_rtt with
  | None => (NACK_RETRY_INTERVAL, MAX_NACK_ATTEMPTS)
  | Some rtt =>
      (Z.min DURATION_MAX (rtt + NACK_RETRY_INTERVAL),
       if rtt =? 0 then MAX_NACK_ATTEMPTS else clamp 1 MAX_NACK_ATTEMPTS (NACK_TRACKING_TIMEOUT / rtt))
  end.

Definition is_live (now : Z) (r : range) : bool :=
  saturating_duration_since now (requested_at r) <? NACK_TRACKING_TIMEOUT.

Definition is_due (now retry_interval max_attempts : Z) (r : range) : bool :=
  (attempts r <? max_attempts)
  && match last_sent_at r with
     | None => true
     | Some last_sent => retry_interval <=? saturating_duration_since now last_sent
     end.

(** The range goes back in place, split when it is wider than one request. *)
Definition send_range (pending : list range) (index : nat) (r : range) (now : Z) : list range * (Z * Z) :=
  let send_last := Z.min (PendingNackRange.last r)
    (saturating_add64 (PendingNackRange.first r) (saturating_sub MAX_NACK_PACKET_COUNT 1)) in
  let '(pending, r) :=
    if send_last <? PendingNackRange.last r
    then (insert_at index {| PendingNackRange.first := send_last + 1;
                             PendingNackRange.last := PendingNackRange.last r;
                             requested_at := requested_at r; last_sent_at := None; attempts := 0 |} pending,
          r <| PendingNackRange.last := send_last |>)
    else (pending, r) in
  let r := (r <| last_sent_at := Some now |>) <| attempts := Z.min 255 (attempts r + 1) |> in
  (insert_at index r pending, (PendingNackRange.first r, PendingNackRange.last r)).

Definition take_nack (pending : list range) (now : Z) (retry_rtt : option Z) : list range * option (Z * Z) :=
  let '(retry_interval, max_attempts) := retry_budget retry_rtt in
  let pending := List.filter (is_live now) pending in
  match position (is_due now retry_interval max_attempts) pending with
  | None => (pending, None)
  | Some index =>
      match pending !! index with
      | None => (pending, None)
      | Some r =>
          let '(pending, result) := send_range (delete index pending) index r now in
          (pending, Some result)
      end
  end.

Definition mark_nack_send_failed (pending : list range) (first last : Z) : list range :=
  default pending
    (update_first (fun r => (PendingNackRange.first r =? first) && (PendingNackRange.last r =? last))
       (fun r => (r <| last_sent_at := None |>) <| attempts := saturating_sub (attempts r) 1 |>) pending).

Definition clear_nacks (pending : list range) : list range := [].

(** ** The set of packets wanted *)

Definition covers (r : range) (x : Z) : Prop := PendingNackRange.first r <= x <= PendingNackRange.last r.
Definition wanted (q : list range) (x : Z) : Prop := exists r, r ∈ q /\ covers r x.

(** Well-formed queues: ranges are non-empty intervals of [u64] indices. *)
Definition range_wf (r : range) : Prop :=
  0 <= PendingNackRange.first r <= PendingNackRange.last r
  /\ PendingNackRange.last r <= U64_MAX /\ 0 <= attempts r <= MAX_NACK_ATTEMPTS.
Definition wf (q : list range) : Prop := Forall range_wf q.

Lemma wanted_nil x : ~ wanted [] x.
Proof. intros (r & Hr & _). by apply elem_of_nil in Hr. Qed.
Lemma wanted_app q k x : wanted (q ++ k) x <-> wanted q x \/ wanted k x.
Proof. unfold wanted. setoid_rewrite elem_of_app. naive_solver. Qed.
Lemma wanted_cons r q x : wanted (r :: q) x <-> covers r x \/ wanted q x.
Proof. unfold wanted. setoid_rewrite elem_of_cons. naive_solver. Qed.
Lemma wanted_singleton r x : wanted [r] x <-> covers r x.
Proof. rewrite wanted_cons. pose proof (wanted_nil x). tauto. Qed.

(** Merging a request into a range it touches gives exactly the union. *)
Lemma widen_covers a b now r x :
  range_wf r -> 0 <= a <= b -> b <= U64_MAX -> touches a b r = true ->
  covers (widen a b now r) x <-> covers r x \/ a <= x <= b.
Proof.
  intros (Hr & Hu & _) Hab Hb Ht. unfold touches, saturating_add64, U64_MAX in *. zbool.
  unfold widen, covers. destruct (_ || _) eqn:E; cbn [PendingNackRange.first PendingNackRange.last].
  - lia.
  - zbool. lia.
Qed.
Lemma widen_wf a b now r : range_wf r -> 0 <= a <= b -> b <= U64_MAX -> range_wf (widen a b now r).
Proof.
  intros (Hr & Hu & Ha) Hab Hb. unfold widen. destruct (_ || _); [|by split_and!; lia].
  unfold range_wf, MAX_NACK_ATTEMPTS. cbn [PendingNackRange.first PendingNackRange.last attempts]. lia.
Qed.

(** Does this request push out the oldest range? *)
Definition evicts (q : list range) (a b : Z) : bool :=
  (zlen q =? MAX_PENDING_NACK_RANGES)
  && match update_first (touches a b) (fun r => r) q with Some _ => false | None => true end.

Lemma request_nack_wf q a b now :
  wf q -> 0 <= a -> b <= U64_MAX -> wf (request_nack q a b now).
Proof.
  intros Hwf Ha Hb. unfold request_nack. destruct (Z.ltb_spec b a); [done|].
  destruct (update_first _ _ q) as [q'|] eqn:E.
  - apply update_first_spec in E as (pre & r & post & -> & -> & Ht).
    apply Forall_app in Hwf as [Hpre [Hr Hpost]%Forall_cons]. apply Forall_app. split; [done|].
    constructor; [|done]. apply widen_wf; [done|lia|done].
  - apply Forall_app. split.
    + destruct (_ =? _); [|done]. destruct q; [done|]. by inversion Hwf.
    + apply Forall_singleton. unfold range_wf, MAX_NACK_ATTEMPTS. cbn. lia.
Qed.

Lemma request_nack_wanted q a b now x :
  wf q -> 0 <= a <= b -> b <= U64_MAX ->
  wanted (request_nack q a b now) x
  <-> a <= x <= b \/ wanted (if evicts q a b then tail q else q) x.
Proof.
  intros Hwf Hab Hb. unfold request_nack, evicts. rewrite (proj2 (Z.ltb_ge b a)) by lia.
  destruct (update_first _ (widen a b now) q) as [q'|] eqn:E.
  - destruct (update_first _ (fun r => r) q) eqn:E'.
    2:{ apply (update_first_None_iff _ _ (widen a b now)) in E'. congruence. }
    rewrite andb_false_r. apply update_first_spec in E as (pre & r & post & -> & -> & Ht).
    apply Forall_app in Hwf as [Hpre [Hr Hpost]%Forall_cons].
    rewrite !wanted_app, !wanted_cons, widen_covers by done. tauto.
  - apply (update_first_None_iff _ _ (fun r => r)) in E. rewrite E, andb_true_r.
    rewrite wanted_app, wanted_singleton. unfold covers at 1. cbn [PendingNackRange.first PendingNackRange.last].
    tauto.
Qed.

(** ** Resolving *)

Lemma resolve_range_spec i u res r :
  range_wf r -> wf u ->
  let '(u', res') := resolve_range i (u, res) r in
  wf u' /\ (forall x, wanted u' x <-> wanted u x \/ (covers r x /\ x <> i))
  /\ (res' = true <-> res = true \/ (covers r i /\ is_Some (last_sent_at r))).
Proof.
  intros (Hr & Hu & Ha) Hwf. unfold resolve_range, covers. unfold MAX_NACK_ATTEMPTS, U64_MAX in *.
  assert (Happ : forall v k, wf (v ++ [k]) <-> wf v /\ range_wf k).
  { intros v k. unfold wf. by rewrite Forall_app, Forall_singleton. }
  destruct (Z.ltb_spec i (PendingNackRange.first r)); [|destruct (Z.ltb_spec (PendingNackRange.last r) i)];
    cbn [orb].
  1,2: split; [by apply Happ|]; split; [intros x; rewrite wanted_app, wanted_singleton; unfold covers; intuition lia|];
       split; [by left|]; intros [?|[? _]]; [done|lia].
  destruct (Z.ltb_spec (PendingNackRange.first r) i), (Z.ltb_spec i (PendingNackRange.last r));
    rewrite ?Happ;
    (split; [try split_and!; try done; unfold range_wf, MAX_NACK_ATTEMPTS, U64_MAX; cbn; unfold const; lia|]);
    (split; [intros x; rewrite ?wanted_app, ?wanted_singleton; unfold covers; cbn; unfold const; intuition lia|]);
    rewrite orb_true_iff, bool_decide_eq_true; naive_solver lia.
Qed.

Lemma resolve_fold i q u res :
  wf q -> wf u ->
  let '(u', res') := foldl (resolve_range i) (u, res) q in
  wf u' /\ (forall x, wanted u' x <-> wanted u x \/ (wanted q x /\ x <> i))
  /\ (res' = true <-> res = true \/ exists r, r ∈ q /\ covers r i /\ is_Some (last_sent_at r)).
Proof.
  intros Hq. revert u res. induction Hq as [|r q Hr Hq IH]; intros u res Hu.
  - cbn [foldl]. split; [done|]. split.
    + intros x. pose proof (wanted_nil x). tauto.
    + split; [by left|]. intros [?|(r & Hr & _)]; [done|]. by apply elem_of_nil in Hr.
  - cbn [foldl]. pose proof (resolve_range_spec i u res r Hr Hu) as Hs.
    destruct (resolve_range i (u, res) r) as [u1 res1]. destruct Hs as (H1 & H2 & H3).
    specialize (IH u1 res1 H1). destruct (foldl _ _ q) as [u2 res2]. destruct IH as (H4 & H5 & H6).
    split; [done|]. split.
    + intros x. rewrite H5, H2, wanted_cons. tauto.
    + rewrite H6, H3. setoid_rewrite elem_of_cons. naive_solver.
Qed.

(** ** Taking the next request *)

Lemma elem_of_live now q r : r ∈ List.filter (is_live now) q <-> r ∈ q /\ is_live now r = true.
Proof. rewrite !list_elem_of_In. apply List.filter_In. Qed.
Lemma live_wf now q : wf q -> wf (List.filter (is_live now) q).
Proof. unfold wf. rewrite !Forall_forall. intros H r Hr. apply H. by apply elem_of_live in Hr as []. Qed.

Lemma retry_budget_attempts rtt : 1 <= (retry_budget rtt).2 <= MAX_NACK_ATTEMPTS.
Proof.
  unfold retry_budget, MAX_NACK_ATTEMPTS. destruct rtt as [rtt|]; cbn [snd]; [|lia].
  destruct (rtt =? 0); [lia|]. by apply clamp_range.
Qed.

(** Sending puts the range back, marked, with what it was too wide for. *)
Lemma send_range_spec pre post r now :
  range_wf r -> attempts r < MAX_NACK_ATTEMPTS ->
  exists sent rest,
    send_range (pre ++ post) (length pre) r now
    = (pre ++ sent :: rest ++ post, (PendingNackRange.first sent, PendingNackRange.last sent))
    /\ range_wf sent /\ wf rest
    /\ PendingNackRange.first sent = PendingNackRange.first r
    /\ PendingNackRange.last sent = Z.min (PendingNackRange.last r) (PendingNackRange.first r + 63)
    /\ last_sent_at sent = Some now /\ attempts sent = attempts r + 1 /\ requested_at sent = requested_at r
    /\ (forall x, covers r x <-> covers sent x \/ wanted rest x)
    /\ Forall (fun k => PendingNackRange.first k = PendingNackRange.first r + 64
         /\ PendingNackRange.last k = PendingNackRange.last r
         /\ requested_at k = requested_at r /\ last_sent_at k = None /\ attempts k = 0) rest
    /\ (length rest <= 1)%nat.
Proof.
  intros (Hr & Hu & Ha) Hmax.
  unfold send_range, saturating_sub, MAX_NACK_PACKET_COUNT, saturating_add64, MAX_NACK_ATTEMPTS, U64_MAX in *.
  change (Z.max 0 (64 - 1)) with 63.
  destruct (Z.ltb_spec (Z.min (PendingNackRange.last r) (Z.min 0xffffffffffffffff (PendingNackRange.first r + 63)))
    (PendingNackRange.last r)) as [Hs|Hs].
  - rewrite !insert_at_app.
    eexists _, [_]. split; [reflexivity|]. cbn. unfold const, range_wf, wf, U64_MAX, MAX_NACK_ATTEMPTS.
    rewrite !Forall_singleton. cbn. unfold const.
    split_and!; try done; try lia.
    { unfold range_wf, U64_MAX, MAX_NACK_ATTEMPTS. cbn. lia. }
    intros x. rewrite wanted_singleton. unfold covers. cbn. unfold const. lia.
  - rewrite insert_at_app.
    eexists _, []. split; [reflexivity|]. cbn. unfold const, range_wf, wf, U64_MAX, MAX_NACK_ATTEMPTS. cbn.
    split_and!; try done; try lia.
    intros x. pose proof (wanted_nil x). unfold covers. cbn. unfold const. intuition lia.
Qed.

Lemma take_nack_spec q now rtt :
  wf q ->
  let '(interval, limit) := retry_budget rtt in
  let '(q', result) := take_nack q now rtt in
  wf q'
  /\ (forall x, wanted q' x <-> wanted (List.filter (is_live now) q) x)
  /\ match result with
     | Some (a, b) =>
         exists r sent, r ∈ q /\ is_live now r = true /\ is_due now interval limit r = true
           /\ PendingNackRange.first r = a /\ b = Z.min (PendingNackRange.last r) (a + 63)
           /\ sent ∈ q' /\ PendingNackRange.first sent = a /\ PendingNackRange.last sent = b
           /\ last_sent_at sent = Some now /\ attempts sent = attempts r + 1
           /\ requested_at sent = requested_at r
     | None => forall r, r ∈ q -> is_live now r = true -> is_due now interval limit r = false
     end.
Proof.
  intros Hwf. pose proof (retry_budget_attempts rtt) as Hlim. unfold take_nack.
  destruct (retry_budget rtt) as [interval limit]. cbn [snd] in Hlim.
  pose proof (live_wf now q Hwf) as Hlive. set (live := List.filter (is_live now) q) in *.
  assert (Hin : forall r, r ∈ live <-> r ∈ q /\ is_live now r = true) by (intros r; apply elem_of_live).
  destruct (position (is_due now interval limit) live) as [i|] eqn:Hpos.
  - apply position_Some in Hpos as (pre & r & post & Hq & <- & Hdue). rewrite Hq in Hlive, Hin |- *.
    rewrite list_lookup_middle by done. rewrite delete_app.
    apply Forall_app in Hlive as [Hpre [Hr Hpost]%Forall_cons].
    assert (Hatt : attempts r < limit).
    { unfold is_due in Hdue. apply andb_true_iff in Hdue as [Hd _]. by apply Z.ltb_lt. }
    destruct (send_range_spec pre post r now Hr) as (sent & rest & -> & Hs & Hrest & Hf & Hl & Hsent & Hat & Hreq & Hcov & _ & _);
      [lia|].
    split; [apply Forall_app; split; [done|]; constructor; [done|]; by apply Forall_app|].
    split; [intros x; rewrite !wanted_app, !wanted_cons, wanted_app, Hcov; tauto|].
    exists r, sent. destruct (proj1 (Hin r)) as [Hrq Hrl]; [apply elem_of_app; right; by left|].
    rewrite Hf in *. split_and!; try done. apply elem_of_app. right. by left.
  - split; [done|]. split; [done|]. intros r Hr Hl. apply (position_None _ _ Hpos r). by apply Hin.
Qed.

Lemma mark_failed_spec q a b x :
  wf q -> wf (mark_nack_send_failed q a b) /\ (wanted (mark_nack_send_failed q a b) x <-> wanted q x).
Proof.
  intros Hwf. unfold mark_nack_send_failed. destruct (update_first _ _ q) as [q'|] eqn:E; [|done].
  cbn [default from_option id]. apply update_first_spec in E as (pre & r & post & -> & -> & _).
  apply Forall_app in Hwf as [Hpre [(Hr & Hu & Ha) Hpost]%Forall_cons]. split.
  - apply Forall_app. split; [done|]. constructor; [|done]. unfold range_wf, saturating_sub, MAX_NACK_ATTEMPTS in *.
    cbn. unfold const. lia.
  - rewrite !wanted_app, !wanted_cons. unfold covers. cbn. unfold const. tauto.
Qed.

(** ** The queue as a set of packets wanted

    The operations of the queue, and what each does to the set. *)
Inductive op :=
  | Request (first last now : Z)
  | Resolve (index : Z)
  | Take (now : Z) (rtt : option Z)
  | SendFailed (first last : Z)
  | Clear.

Definition run_op (q : list range) (o : op) : list range :=
  match o with
  | Request a b now => request_nack q a b now
  | Resolve i => (resolve_nack q i).1
  | Take now rtt => (take_nack q now rtt).1
  | SendFailed a b => mark_nack_send_failed q a b
  | Clear => clear_nacks q
  end.

Definition op_ok (o : op) : Prop :=
  match o with
  | Request a b now => 0 <= a <= b /\ b <= U64_MAX
  | Resolve i => 0 <= i <= U64_MAX
  | Take _ (Some rtt) => 0 <= rtt
  | _ => True
  end.

Definition run (ops : list op) : list range := foldl run_op [] ops.

Lemma run_op_wf q o : wf q -> op_ok o -> wf (run_op q o).
Proof.
  intros Hwf Hok. destruct o as [a b now|i|now rtt|a b|]; cbn [run_op].
  - destruct Hok. apply request_nack_wf; [done|lia|lia].
  - pose proof (resolve_fold i q [] false Hwf (Forall_nil_2 _)) as H. unfold resolve_nack.
    destruct (foldl _ _ q). by destruct H.
  - pose proof (take_nack_spec q now rtt Hwf) as H. destruct (retry_budget rtt), (take_nack q now rtt). by destruct H.
  - by apply (mark_failed_spec q a b 0).
  - constructor.
Qed.
Lemma run_wf ops : Forall op_ok ops -> wf (run ops).
Proof.
  unfold run. assert (Hnil : wf []) by constructor. revert Hnil. generalize (@nil range) as q.
  intros q Hq H. revert q Hq. induction H as [|o ops Ho Hops IH]; intros q Hq; [done|].
  cbn [foldl]. apply IH. by apply run_op_wf.
Qed.

(** C11: the retransmission queue is the set of packets still wanted.  After any
    sequence of operations: a request adds exactly its range (and drops only
    the oldest range when sixteen are pending); an arrival removes exactly its
    index and reports a recovery exactly when that index had been asked for; a
    send keeps every packet whose request is younger than 52 ms and names at
    most 64 packets of one such range, its lower end first; a failed send
    changes nothing in the set. *)
Theorem nack_queue_is_the_wanted_set ops x a b i now rtt :
  Forall op_ok ops -> 0 <= a <= b -> b <= U64_MAX ->
  let q := run ops in
  (wanted (request_nack q a b now) x <-> a <= x <= b \/ wanted (if evicts q a b then tail q else q) x)
  /\ (wanted (resolve_nack q i).1 x <-> wanted q x /\ x <> i)
  /\ ((resolve_nack q i).2 = true <-> exists r, r ∈ q /\ covers r i /\ is_Some (last_sent_at r))
  /\ (wanted (take_nack q now rtt).1 x <-> exists r, r ∈ q /\ covers r x /\ is_live now r = true)
  /\ (forall first last, (take_nack q now rtt).2 = Some (first, last) ->
        first <= last < first + MAX_NACK_PACKET_COUNT /\ (first <= x <= last -> wanted (take_nack q now rtt).1 x))
  /\ (wanted (mark_nack_send_failed q a b) x <-> wanted q x).
Proof.
  intros Hok Hab Hb q. pose proof (run_wf ops Hok) as Hwf. fold q in Hwf. clearbody q.
  split; [by apply request_nack_wanted|].
  pose proof (resolve_fold i q [] false Hwf (Forall_nil_2 _)) as Hres. unfold resolve_nack.
  destruct (foldl _ _ q) as [q1 r1]. destruct Hres as (_ & Hr1 & Hr2). cbn [fst snd].
  split; [rewrite Hr1; pose proof (wanted_nil x); tauto|].
  split; [rewrite Hr2; naive_solver|].
  pose proof (take_nack_spec q now rtt Hwf) as Htake. destruct (retry_budget rtt) as [interval limit].
  destruct (take_nack q now rtt) as [q2 r2]. destruct Htake as (Hwf2 & Ht1 & Ht2). cbn [fst snd].
  split; [rewrite Ht1; unfold wanted; setoid_rewrite elem_of_live; naive_solver|].
  split; [|by apply mark_failed_spec].
  intros first last ->. destruct Ht2 as (r & sent & Hr & _ & _ & Hf & Hl & Hsent & Hsf & Hsl & _).
  unfold wf in Hwf, Hwf2. rewrite Forall_forall in Hwf, Hwf2. destruct (Hwf r Hr) as (? & ? & ?). unfold MAX_NACK_PACKET_COUNT.
  split; [lia|]. intros Hx. exists sent. unfold covers. rewrite Hsf, Hsl. split; [done|lia].
Qed.

Lemma nack_queue_is_the_wanted_set_witness :
  let q := run [Request 100 300 0; Take 1 None; Resolve 120] in
  wanted (take_nack q 2 None).1 150 /\ ~ wanted (take_nack q 2 None).1 120
  /\ (take_nack q 2 None).2 = Some (164, 227).
Proof.
  intros q. assert (Hok : Forall op_ok [Request 100 300 0; Take 1 None; Resolve 120]).
  { repeat (apply Forall_cons; split; [cbn; unfold U64_MAX; lia|]). apply Forall_nil_2. }
  pose proof (nack_queue_is_the_wanted_set _ 150 5 6 0 2 None Hok ltac:(lia) ltac:(unfold U64_MAX; lia)) as (_ & _ & _ & H150 & _).
  pose proof (nack_queue_is_the_wanted_set _ 120 5 6 0 2 None Hok ltac:(lia) ltac:(unfold U64_MAX; lia)) as (_ & _ & _ & H120 & _).
  assert (Hq : q = [ {| PendingNackRange.first := 100; PendingNackRange.last := 119; requested_at := 0;
                        last_sent_at := Some 1; attempts := 1 |};
                     {| PendingNackRange.first := 121; PendingNackRange.last := 163; requested_at := 0;
                        last_sent_at := Some 1; attempts := 1 |};
                     {| PendingNackRange.first := 164; PendingNackRange.last := 300; requested_at := 0;
                        last_sent_at := None; attempts := 0 |}]) by (vm_compute; reflexivity).
  fold q in H150, H120. rewrite Hq in H150, H120 |- *. split_and!.
  - apply H150. eexists. split; [right; left|]. unfold covers. cbn. split; [lia|reflexivity].
  - rewrite H120. intros (r & Hr & Hc & _). unfold covers in Hc.
    repeat (apply elem_of_cons in Hr as [->|Hr]; [cbn in Hc; lia|]). by apply elem_of_nil in Hr.
  - vm_compute. reflexivity.
Defined.

(** ** Draining the queue *)

Definition width (r : range) : Z := PendingNackRange.last r - PendingNackRange.first r + 1.

(** The packets due at [now]. *)
Definition due (now : Z) (rtt : option Z) (r : range) : bool :=
  let '(interval, limit) := retry_budget rtt in is_live now r && is_due now interval limit r.

Definition due_packets (now : Z) (rtt : option Z) (q : list range) : Z :=
  foldr (fun r n => (if due now rtt r then width r else 0) + n) 0 q.

(** Asking again until nothing is due. *)
Fixpoint take_all (fuel : nat) (q : list range) (now : Z) (rtt : option Z) : option (list (Z * Z) * list range) :=
  match fuel with
  | O => None
  | S fuel =>
      match take_nack q now rtt with
      | (q, None) => Some ([], q)
      | (q, Some request) =>
          '(requests, q) ← take_all fuel q now rtt;
          Some (request :: requests, q)
      end
  end.

Lemma due_packets_cons now rtt r q :
  due_packets now rtt (r :: q) = (if due now rtt r then width r else 0) + due_packets now rtt q.
Proof. done. Qed.
Lemma due_packets_app now rtt q k : due_packets now rtt (q ++ k) = due_packets now rtt q + due_packets now rtt k.
Proof. induction q as [|r q IH]; [done|]. cbn [app]. rewrite !due_packets_cons, IH. lia. Qed.
Lemma due_packets_nonneg now rtt q : wf q -> 0 <= due_packets now rtt q.
Proof.
  induction 1 as [|r q (Hr & _) _ IH]; [done|]. rewrite due_packets_cons.
  unfold width. destruct (due now rtt r); lia.
Qed.
Lemma due_live now rtt r :
  due now rtt r = is_live now r && is_due now (retry_budget rtt).1 (retry_budget rtt).2 r.
Proof. unfold due. by destruct (retry_budget rtt). Qed.
Lemma due_packets_live now rtt q : due_packets now rtt (List.filter (is_live now) q) = due_packets now rtt q.
Proof.
  induction q as [|r q IH]; [done|]. cbn [List.filter]. rewrite due_packets_cons, due_live.
  destruct (is_live now r) eqn:El; cbn [andb]; [|done]. by rewrite due_packets_cons, due_live, El, IH.
Qed.

Lemma retry_interval_pos rtt : match rtt with Some r => 0 <= r | None => True end -> 0 < (retry_budget rtt).1.
Proof.
  unfold retry_budget, NACK_RETRY_INTERVAL, DURATION_MAX, from_millis, U64_MAX. destruct rtt; cbn [fst]; lia.
Qed.

(** One request: what was due is what it asks for and what is still due. *)
Lemma take_nack_step q now rtt :
  wf q -> match rtt with Some r => 0 <= r | None => True end ->
  let '(q', result) := take_nack q now rtt in
  wf q' /\ (forall r, r ∈ q' -> is_live now r = true)
  /\ match result with
     | None => forall r, r ∈ q -> due now rtt r = false
     | Some (a, b) =>
         due_packets now rtt q' < due_packets now rtt q
         /\ forall x, (exists r, r ∈ q /\ due now rtt r = true /\ covers r x)
              <-> a <= x <= b \/ exists r, r ∈ q' /\ due now rtt r = true /\ covers r x
     end.
Proof.
  intros Hwf Hrtt. pose proof (retry_interval_pos rtt Hrtt) as Hint.
  pose proof (retry_budget_attempts rtt) as Hlim. rewrite <- (due_packets_live now rtt q).
  pose proof (due_live now rtt) as Hdue.
  unfold take_nack. destruct (retry_budget rtt) as [interval limit]. cbn [fst snd] in *.
  pose proof (live_wf now q Hwf) as Hlive.
  assert (Hin : forall r, r ∈ List.filter (is_live now) q <-> r ∈ q /\ is_live now r = true) by (intros r; apply elem_of_live).
  assert (Hset : forall x, (exists r, r ∈ q /\ due now rtt r = true /\ covers r x)
    <-> exists r, r ∈ List.filter (is_live now) q /\ due now rtt r = true /\ covers r x).
  { intros x. setoid_rewrite Hin. setoid_rewrite Hdue. setoid_rewrite andb_true_iff. naive_solver. }
  set (live := List.filter (is_live now) q) in *.
  destruct (position (is_due now interval limit) live) as [i|] eqn:Hpos.
  - apply position_Some in Hpos as (pre & r & post & Hq & <- & Hd). rewrite Hq in Hlive, Hin, Hset |- *.
    rewrite list_lookup_middle by done. rewrite delete_app.
    apply Forall_app in Hlive as [Hpre [Hr Hpost]%Forall_cons].
    assert (Hatt : attempts r < limit).
    { unfold is_due in Hd. apply andb_true_iff in Hd as [Hd _]. by apply Z.ltb_lt. }
    destruct (send_range_spec pre post r now Hr) as (sent & rest & -> & Hs & Hrest & Hf & Hl & Hsent & Hat & Hreq & Hcov & Htail & Hlen);
      [lia|].
    assert (Hrl : is_live now r = true) by (apply (Hin r), elem_of_app; right; by left).
    assert (Hnot : due now rtt sent = false).
    { rewrite Hdue. unfold is_due. rewrite Hsent. unfold saturating_duration_since.
      rewrite Z.sub_diag, (proj2 (Z.leb_gt interval _)) by lia. by rewrite !andb_false_r. }
    assert (Hrestdue : forall k, k ∈ rest -> due now rtt k = true).
    { intros k Hk. rewrite Forall_forall in Htail. destruct (Htail k Hk) as (_ & _ & Hkr & Hks & Hka).
      rewrite Hdue. unfold is_live, is_due in *. rewrite Hkr, Hks, Hka, Hrl. rewrite (proj2 (Z.ltb_lt 0 limit)) by lia. done. }
    split; [apply Forall_app; split; [done|]; constructor; [done|]; by apply Forall_app|].
    split.
    { intros k Hk. rewrite !elem_of_app, elem_of_cons, elem_of_app in Hk.
      destruct Hk as [Hk|[->|[Hk|Hk]]];
        [apply (Hin k), elem_of_app; by left|unfold is_live; by rewrite Hreq| |
         apply (Hin k), elem_of_app; right; by right].
      specialize (Hrestdue k Hk). rewrite Hdue in Hrestdue. by apply andb_true_iff in Hrestdue as []. }
    split.
    { rewrite !due_packets_app, !due_packets_cons, due_packets_app, Hnot. rewrite (Hdue r), Hrl, Hd. cbn [andb].
      destruct Hr as (Hr & _). unfold width. destruct rest as [|k [|? ?]]; [cbn; lia| |cbn in Hlen; lia].
      rewrite due_packets_cons, Hrestdue by (by left). apply Forall_singleton in Htail as (Hk1 & Hk2 & _).
      unfold width. rewrite Hk1, Hk2. cbn [due_packets foldr]. lia. }
    intros x. rewrite Hset. setoid_rewrite elem_of_app. setoid_rewrite elem_of_cons. setoid_rewrite elem_of_app.
    assert (Hb : PendingNackRange.first sent <= x <= PendingNackRange.last sent <-> covers sent x) by done.
    rewrite Hb. split.
    + intros (k & [Hk|[->|Hk]] & Hkd & Hkx); [right; exists k; tauto| |right; exists k; tauto].
      apply Hcov in Hkx as [Hkx|(k & Hk & Hkx)]; [by left|]. right. exists k. auto.
    + intros [Hx|(k & [Hk|[->|[Hk|Hk]]] & Hkd & Hkx)].
      * exists r. rewrite (Hdue r), Hrl, Hd, Hcov. tauto.
      * exists k. tauto.
      * congruence.
      * exists r. rewrite (Hdue r), Hrl, Hd, Hcov. split; [tauto|]. split; [done|]. right. by exists k.
      * exists k. tauto.
  - split; [done|]. split; [intros r Hr; by apply Hin in Hr as []|]. intros r Hr. rewrite Hdue.
    destruct (is_live now r) eqn:El; [|done]. by apply (position_None _ _ Hpos r), Hin.
Qed.

(** Draining asks for every packet that is due.  Taking requests at one
    instant until none is left terminates, after at most as many requests as
    there are packets due, and the requested ranges together are exactly the
    packets of the live ranges with an attempt left; nothing is due
    afterwards. *)
Theorem nack_drain_requests_all_due q now rtt :
  wf q -> match rtt with Some r => 0 <= r | None => True end ->
  exists requests q',
    take_all (S (Z.to_nat (due_packets now rtt q))) q now rtt = Some (requests, q')
    /\ zlen requests <= due_packets now rtt q
    /\ (forall x, (exists request, request ∈ requests /\ request.1 <= x <= request.2)
          <-> exists r, r ∈ q /\ due now rtt r = true /\ covers r x)
    /\ forall r, r ∈ q' -> due now rtt r = false.
Proof.
  intros Hwf Hrtt. pose proof (due_packets_nonneg now rtt q Hwf) as Hd0.
  enough (H : forall fuel q, wf q -> due_packets now rtt q < Z.of_nat fuel ->
    exists requests q', take_all fuel q now rtt = Some (requests, q')
      /\ zlen requests <= due_packets now rtt q
      /\ (forall x, (exists request, request ∈ requests /\ request.1 <= x <= request.2)
            <-> exists r, r ∈ q /\ due now rtt r = true /\ covers r x)
      /\ forall r, r ∈ q' -> due now rtt r = false) by (apply H; [done|lia]).
  clear q Hwf Hd0. intros fuel. induction fuel as [|fuel IH]; intros q Hwf Hfuel;
    pose proof (due_packets_nonneg now rtt q Hwf) as Hd0; [lia|].
  cbn [take_all]. pose proof (take_nack_step q now rtt Hwf Hrtt) as Hs.
  assert (Hnone : (take_nack q now rtt).2 = None -> (take_nack q now rtt).1 = List.filter (is_live now) q).
  { unfold take_nack. destruct (retry_budget rtt). destruct (position _ _); [|done].
    destruct (_ !! _); [|done]. by destruct (send_range _ _ _ _). }
  destruct (take_nack q now rtt) as [q1 [[a b]|]]; destruct Hs as (Hwf1 & _ & Hs).
  - destruct Hs as [Hlt Hset]. destruct (IH q1 Hwf1) as (reqs & q2 & -> & Hlen & Hall & Hdone); [lia|].
    exists ((a, b) :: reqs), q2. split; [done|]. rewrite zlen_cons. split; [lia|]. split; [|done].
    intros x. rewrite Hset, <- Hall. setoid_rewrite elem_of_cons. split.
    + intros (r & [->|Hr] & Hx); [by left|right; by exists r].
    + intros [Hx|(r & Hr & Hx)]; [by exists (a, b); auto|exists r; auto].
  - exists [], q1. split; [done|]. split; [done|]. cbn [fst snd] in Hnone. rewrite Hnone in * by done. split.
    + intros x. split; [intros (r & Hr & _); by apply elem_of_nil in Hr|].
      intros (r & Hr & Hrd & _). by rewrite Hs in Hrd.
    + intros r Hr. apply Hs. by apply elem_of_live in Hr as [].
Qed.

Lemma nack_drain_requests_all_due_witness :
  let q := run [Request 0 70 0; Request 100 100 0] in
  take_all 80 q 1 (Some 30) = Some ([(0, 63); (64, 70); (100, 100)], (run [Request 0 70 0; Request 100 100 0; Take 1 (Some 30); Take 1 (Some 30); Take 1 (Some 30)])).
Proof.
  intros q. assert (Hwf : wf q).
  { apply run_wf. repeat (apply Forall_cons; split; [cbn; unfold U64_MAX; lia|]). apply Forall_nil_2. }
  destruct (nack_drain_requests_all_due q 1 (Some 30) Hwf ltac:(cbn; lia)) as (reqs & q' & Htake & _).
  vm_compute in Htake. vm_compute. injection Htake as <- <-. reflexivity.
Defined.

(** ** The bound on the number of ranges *)

(** Sixteen requests of three packets each, then an arrival in the middle of
    the first, and requests without end. *)
Definition isolated (k : nat) : op := Request (10 * Z.of_nat k) (10 * Z.of_nat k + 2) 0.
Definition overflow_run (n : nat) : list op :=
  map isolated (seq 0 16) ++ [Resolve 1] ++ map isolated (seq 16 n).

Definition all_below (q : list range) (limit : Z) : Prop :=
  Forall (fun r => PendingNackRange.last r < limit) q.

Lemma request_isolated q k :
  wf q -> all_below q (10 * Z.of_nat k - 1) -> zlen q <> MAX_PENDING_NACK_RANGES ->
  run_op q (isolated k)
  = q ++ [{| PendingNackRange.first := 10 * Z.of_nat k; PendingNackRange.last := 10 * Z.of_nat k + 2;
             requested_at := 0; last_sent_at := None; attempts := 0 |}].
Proof.
  intros Hwf Hb Hlen. cbn [run_op isolated]. unfold request_nack. rewrite (proj2 (Z.ltb_ge _ _)) by lia.
  destruct (update_first _ _ q) as [q'|] eqn:E.
  - apply update_first_spec in E as (pre & r & post & -> & _ & Ht).
    apply Forall_app in Hb as [_ [Hr _]%Forall_cons]. unfold touches, saturating_add64, U64_MAX in Ht. zbool. lia.
  - rewrite (proj2 (Z.eqb_neq _ _)) by done. done.
Qed.


