(* ===== verification/Text.v ===== *)
(** * Text: UTF-8 and the pasted-text slot

    What the streamer uses of the standard library's [str] ([from_utf8],
    [chars], [is_char_boundary]) and the [TextInputSlot] of
    opennow-streamer-protocol's text_input.rs, which admits one paste at a
    time. *)

From S2P Require Import Prelude.

(** ** UTF-8 *)

Definition is_cont (b : u8) : bool := (0x80 <=? b2z b) && (b2z b <=? 0xbf).
Definition in_range (lo hi : Z) (b : u8) : bool := (lo <=? b2z b) && (b2z b <=? hi).

(** The first character of a string and its width in bytes; [None] on the
    encodings [from_utf8] refuses (overlong forms, surrogates, truncation,
    stray continuation bytes). *)
Definition utf8_next (s : list u8) : option (Z * nat) :=
  match s with
  | [] => None
  | a :: s =>
      if b2z a <? 0x80 then Some (b2z a, 1%nat)
      else if in_range 0xc2 0xdf a then
        match s with
        | b :: _ => if is_cont b then Some ((b2z a - 0xc0) * 64 + (b2z b - 0x80), 2%nat) else None
        | _ => None
        end
      else if in_range 0xe0 0xef a then
        match s with
        | b :: c :: _ =>
            let lo := if b2z a =? 0xe0 then 0xa0 else 0x80 in
            let hi := if b2z a =? 0xed then 0x9f else 0xbf in
            if in_range lo hi b && is_cont c
            then Some ((b2z a - 0xe0) * 4096 + (b2z b - 0x80) * 64 + (b2z c - 0x80), 3%nat) else None
        | _ => None
        end
      else if in_range 0xf0 0xf4 a then
        match s with
        | b :: c :: d :: _ =>
            let lo := if b2z a =? 0xf0 then 0x90 else 0x80 in
            let hi := if b2z a =? 0xf4 then 0x8f else 0xbf in
            if in_range lo hi b && is_cont c && is_cont d
            then Some ((b2z a - 0xf0) * 262144 + (b2z b - 0x80) * 4096 + (b2z c - 0x80) * 64 + (b2z d - 0x80), 4%nat)
            else None
        | _ => None
        end
      else None
  end.

Fixpoint utf8_chars (fuel : nat) (s : list u8) : option (list Z) :=
  match s, fuel with
  | [], _ => Some []
  | _, O => None
  | _, S fuel =>
      '(c, w) ← utf8_next s;
      cs ← utf8_chars fuel (drop w s);
      Some (c :: cs)
  end.

(** [str::from_utf8], as the characters of the string. *)
Definition from_utf8 (s : list u8) : option (list Z) := utf8_chars (length s) s.

(** [str::is_char_boundary] *)
Definition is_char_boundary (s : list u8) (index : Z) : bool :=
  (index =? 0) ||
  match zget s index with
  | None => index =? zlen s
  | Some b => negb (is_cont b)
  end.

Inductive utf8 : list u8 -> Prop :=
  | utf8_nil : utf8 []
  | utf8_char s c w : utf8_next s = Some (c, w) -> utf8 (drop w s) -> utf8 s.

(** The shape of a character: one byte that is no continuation, then up to
    three that are. *)
Lemma utf8_next_shape s c w :
  utf8_next s = Some (c, w) ->
  (1 <= w <= 4)%nat /\ (w <= length s)%nat
  /\ (exists a, s !! 0%nat = Some a /\ is_cont a = false)
  /\ forall i, (1 <= i < w)%nat -> exists b, s !! i = Some b /\ is_cont b = true.
Proof.
  destruct s as [|a s]; [done|]. cbn [utf8_next].
  assert (Hcont : forall lo hi b, 0x80 <= lo -> hi <= 0xbf -> in_range lo hi b = true -> is_cont b = true).
  { intros lo hi b Hlo Hhi H. unfold in_range, is_cont in *. zbool. apply andb_true_iff. split; lia. }
  assert (Hlead : forall lo hi, 0xc0 <= lo -> in_range lo hi a = true -> is_cont a = false).
  { intros lo hi Hlo H. unfold in_range, is_cont in *. zbool. apply andb_false_iff. right. lia. }
  assert (Hascii : b2z a < 0x80 -> is_cont a = false).
  { intros H. unfold is_cont. apply andb_false_iff. left. lia. }
  destruct (Z.ltb_spec (b2z a) 0x80) as [Ha|Ha].
  { intros [= <- <-]. cbn. split; [lia|]. split; [lia|]. split; [exists a; auto|]. intros i Hi. lia. }
  destruct (in_range 0xc2 0xdf a) eqn:E2; [|destruct (in_range 0xe0 0xef a) eqn:E3; [|destruct (in_range 0xf0 0xf4 a) eqn:E4; [|done]]].
  - destruct s as [|b s]; [done|]. destruct (is_cont b) eqn:Eb; [|done]. intros [= <- <-]. cbn.
    split; [lia|]. split; [lia|]. split; [exists a; split; [done|]; refine (Hlead _ _ _ E2); lia|].
    intros [|[|i]] Hi; [lia|by exists b|lia].
  - destruct s as [|b [|d s]]; [done..|]. destruct (_ && _) eqn:Eb; [|done]. intros [= <- <-].
    apply andb_true_iff in Eb as [Eb Ed]. apply Hcont in Eb; [|zif..]. cbn.
    split; [lia|]. split; [lia|]. split; [exists a; split; [done|]; refine (Hlead _ _ _ E3); lia|].
    intros [|[|[|i]]] Hi; [lia|by exists b|by exists d|lia].
  - destruct s as [|b [|d [|e s]]]; [done..|]. destruct (_ && _) eqn:Eb; [|done]. intros [= <- <-].
    apply andb_true_iff in Eb as [Eb Ee]. apply andb_true_iff in Eb as [Eb Ed].
    apply Hcont in Eb; [|zif..]. cbn.
    split; [lia|]. split; [lia|]. split; [exists a; split; [done|]; refine (Hlead _ _ _ E4); lia|].
    intros [|[|[|[|i]]]] Hi; [lia|by exists b|by exists d|by exists e|lia].
Qed.

(** Decoding the first character only looks at its bytes. *)
Lemma utf8_next_take s c w n :
  utf8_next s = Some (c, w) -> (w <= n)%nat -> utf8_next (take n s) = Some (c, w).
Proof.
  destruct s as [|a s]; [done|]. intros H Hn.
  pose proof (utf8_next_shape _ _ _ H) as ([H1 H4] & _). destruct n as [|n]; [lia|].
  cbn [utf8_next take] in *. destruct (b2z a <? 0x80); [done|].
  destruct (in_range 0xc2 0xdf a); [|destruct (in_range 0xe0 0xef a); [|destruct (in_range 0xf0 0xf4 a); [|done]]].
  - destruct s as [|b s]; [done|]. destruct (is_cont b) eqn:Eb; [|done]. injection H as <- <-.
    destruct n; [lia|]. cbn [take]. by rewrite Eb.
  - destruct s as [|b [|d s]]; [done..|]. destruct (_ && _) eqn:Eb; [|done]. injection H as <- <-.
    destruct n as [|[|n]]; [lia..|]. cbn [take]. by rewrite Eb.
  - destruct s as [|b [|d [|e s]]]; [done..|]. destruct (_ && _) eqn:Eb; [|done]. injection H as <- <-.
    destruct n as [|[|[|n]]]; [lia..|]. cbn [take]. by rewrite Eb.
Qed.

Lemma utf8_chars_fuel fuel s :
  (length s <= fuel)%nat -> (exists cs, utf8_chars fuel s = Some cs) <-> utf8 s.
Proof.
  revert s. induction fuel as [|fuel IH]; intros s Hl.
  { destruct s; [|cbn in Hl; lia]. split; [constructor|by exists []]. }
  destruct s as [|a s]; [split; [constructor|by exists []]|]. cbn [utf8_chars]. split.
  - intros (cs & H). destruct (utf8_next (a :: s)) as [[c w]|] eqn:E; [|done].
    rewrite option_bind_Some in H. destruct (utf8_chars fuel _) as [cs'|] eqn:Ec; [|done].
    apply (utf8_char _ c w); [done|]. apply utf8_next_shape in E as (Hw & Hlen & _).
    apply IH; [rewrite length_drop; cbn in Hl |- *; lia|by exists cs'].
  - intros Hu. inversion Hu as [|? c w Hn Hd]; subst. rewrite Hn, option_bind_Some.
    apply utf8_next_shape in Hn as (Hw & Hlen & _).
    assert (Hfuel : (length (drop w (a :: s)) <= fuel)%nat) by (rewrite length_drop; cbn in Hl |- *; lia).
    destruct (proj2 (IH _ Hfuel) Hd) as [cs ->]. by exists (c :: cs).
Qed.

Lemma from_utf8_utf8 s : (exists cs, from_utf8 s = Some cs) <-> utf8 s.
Proof. by apply utf8_chars_fuel. Qed.

(** A string splits at its character boundaries into strings. *)
Lemma utf8_split s i :
  utf8 s -> 0 <= i <= zlen s -> is_char_boundary s i = true ->
  utf8 (take (Z.to_nat i) s) /\ utf8 (drop (Z.to_nat i) s).
Proof.
  intros Hu. revert i. induction Hu as [|s c w Hn Hu IH]; intros i Hi Hb.
  { rewrite take_nil, drop_nil. split; constructor. }
  destruct (Z.eqb_spec i 0) as [->|Hi0].
  { change (Z.to_nat 0) with 0%nat. rewrite take_0, drop_0. split; [constructor|by apply (utf8_char s c w)]. }
  pose proof (utf8_next_shape _ _ _ Hn) as (Hw & Hlen & _ & Hcont). unfold zlen in Hi.
  assert (Hwi : (w <= Z.to_nat i)%nat).
  { destruct (decide (w <= Z.to_nat i)%nat) as [|Hlt]; [done|]. exfalso.
    destruct (Hcont (Z.to_nat i)) as (b & Hbi & Hbc); [lia|].
    unfold is_char_boundary in Hb. rewrite zget_lookup, Hbi, Hbc in Hb by lia.
    rewrite (proj2 (Z.eqb_neq i 0)) in Hb by done. done. }
  assert (Hbound : is_char_boundary (drop w s) (i - Z.of_nat w) = true).
  { unfold is_char_boundary in *. destruct (Z.eqb_spec (i - Z.of_nat w) 0); [done|]. cbn [orb].
    rewrite (proj2 (Z.eqb_neq i 0)) in Hb by done. cbn [orb] in Hb.
    rewrite zget_lookup in Hb |- * by lia. rewrite lookup_drop.
    replace (w + Z.to_nat (i - Z.of_nat w))%nat with (Z.to_nat i) by lia.
    destruct (s !! Z.to_nat i); [done|]. unfold zlen in *. rewrite length_drop. zbool. apply Z.eqb_eq. lia. }
  destruct (IH (i - Z.of_nat w)) as [H1 H2]; [unfold zlen; rewrite length_drop; lia|done|].
  replace (Z.to_nat (i - Z.of_nat w)) with (Z.to_nat i - w)%nat in * by lia.
  rewrite drop_drop in H2. replace (w + (Z.to_nat i - w))%nat with (Z.to_nat i) in H2 by lia.
  split; [|done]. apply (utf8_char _ c w); [by apply utf8_next_take|].
  by rewrite skipn_firstn_comm.
Qed.

(** Going back at most three bytes reaches a boundary. *)
Lemma boundary_near s i :
  utf8 s -> 0 <= i <= zlen s -> exists j, 0 <= j /\ i - 3 <= j <= i /\ is_char_boundary s j = true.
Proof.
  intros Hu. revert i. induction Hu as [|s c w Hn Hu IH]; intros i Hi.
  { exists 0. change (zlen (@nil u8)) with 0 in Hi. split_and!; [lia..|done]. }
  pose proof (utf8_next_shape _ _ _ Hn) as (Hw & Hlen & _ & Hcont).
  destruct (Z.ltb_spec i (Z.of_nat w)) as [Hlt|Hge].
  { exists 0. split_and!; [lia..|done]. }
  destruct (IH (i - Z.of_nat w)) as (j & Hj0 & Hj & Hb); [unfold zlen in *; rewrite length_drop; lia|].
  exists (j + Z.of_nat w). split; [lia|]. split; [lia|].
  unfold is_char_boundary in *. rewrite (proj2 (Z.eqb_neq _ 0)) by lia. cbn [orb].
  rewrite zget_lookup in Hb |- * by lia. rewrite lookup_drop in Hb.
  replace (Z.to_nat (j + Z.of_nat w)) with (w + Z.to_nat j)%nat by lia.
  destruct (Z.eqb_spec j 0) as [->|Hj1].
  - change (Z.to_nat 0) with 0%nat in *. rewrite Nat.add_0_r. 
    destruct (s !! w) as [b|] eqn:E.
    + destruct (drop w s) as [|b' s'] eqn:Ed.
      { apply (f_equal length) in Ed. rewrite length_drop in Ed. apply lookup_lt_Some in E. cbn in Ed. lia. }
      inversion Hu as [|? c' w' Hn' Hd']; subst.
      apply utf8_next_shape in Hn' as (_ & _ & (a & Ha & Hac) & _). rewrite <- Ed, lookup_drop, Nat.add_0_r, E in Ha.
      injection Ha as ->. by rewrite Hac.
    + apply lookup_ge_None in E. apply Z.eqb_eq. unfold zlen. lia.
  - cbn [orb] in Hb. destruct (s !! (w + Z.to_nat j)%nat); [done|]. zbool. apply Z.eqb_eq.
    unfold zlen in *. rewrite length_drop in Hb. lia.
Qed.

(** ** The text slot

    The slot keeps a weak reference to the last paste; the paste itself is
    shared by its clones, counted by [strong].  [Arc] clones and drops are the
    two operations the standard library adds. *)

Definition MAX_TEXT_BYTES : Z := 65536.

Inductive TextInputError := Invalid | TooLarge | Busy | Unavailable.

Record TextPayload := { text : list u8; cancelled : bool }.

Module TextInputSlot.
Record t := { payload : option TextPayload; strong : nat }.
Definition default : t := {| payload := None; strong := 0 |}.

(** [Weak::upgrade] *)
Definition upgrade (self : t) : option TextPayload :=
  if (strong self =? 0)%nat then None else payload self.

Definition submit (self : t) (bytes : list u8) : t * outcome TextInputError TextPayload :=
  if MAX_TEXT_BYTES <? zlen bytes then (self, Err TooLarge) else
  if (zlen bytes =? 0) || existsb (fun b => b2z b =? 0) bytes then (self, Err Invalid) else
  match from_utf8 bytes with
  | None => (self, Err Invalid)
  | Some _ =>
      match upgrade self with
      | Some _ => (self, Err Busy)
      | None =>
          let payload := {| text := bytes; cancelled := false |} in
          ({| payload := Some payload; strong := 1 |}, Ok payload)
      end
  end.

Definition cancel (self : t) : t :=
  match upgrade self with
  | None => self
  | Some p => self <| payload := Some (p <| cancelled := true |>) |>
  end.

Definition clone_text (self : t) : t := self <| strong := S (strong self) |>.
Definition drop_text (self : t) : t := self <| strong := pred (strong self) |>.
End TextInputSlot.

(** A paste the slot accepts. *)
Lemma submit_accepts slot bytes slot' p :
  TextInputSlot.submit slot bytes = (slot', Ok p) ->
  text p = bytes /\ utf8 bytes /\ 0 < zlen bytes <= MAX_TEXT_BYTES /\ Forall (fun b => b2z b <> 0) bytes
  /\ TextInputSlot.upgrade slot = None /\ TextInputSlot.upgrade slot' = Some p /\ cancelled p = false.
Proof.
  unfold TextInputSlot.submit, MAX_TEXT_BYTES. destruct (Z.ltb_spec 65536 (zlen bytes)); [done|].
  destruct (_ || _) eqn:E; [done|]. apply orb_false_iff in E as [E1 E2]. zbool.
  destruct (from_utf8 bytes) as [cs|] eqn:Eu; [|done].
  destruct (TextInputSlot.upgrade slot) eqn:Ed; [done|]. intros [= <- <-]. pose proof (zlen_nonneg bytes).
  cbn [text]. split_and!; try done; [apply from_utf8_utf8; by exists cs|lia|].
  apply Forall_forall. intros b Hb Hz. assert (existsb (fun b => b2z b =? 0) bytes = true); [|congruence].
  apply existsb_exists. exists b. split; [by apply list_elem_of_In|]. by apply Z.eqb_eq.
Qed.
