(* ===== verification/InputWire.v ===== *)
(** * Input wire formats

    The byte formats of nvst_input.rs: the control record every message is
    framed in, the remote input packets, the native event wrapper the renderer
    hands over, the server's cursor and version messages, and the Sony HID
    reports of the rich controllers. *)

From stdpp Require Import strings.
From S2P Require Import Prelude Control Text.

Definition CONTROL_KEEPALIVE_INTERVAL : Z := from_secs 3.
Definition INPUT_HANDSHAKE_TIMEOUT : Z := from_secs 5.

Definition COMMAND_SYSTEM_CURSOR : Z := 0x010f.
Definition COMMAND_BITMAP_CURSOR : Z := 0x0110.
Definition COMMAND_KEEPALIVE : Z := 0x0200.
Definition COMMAND_REMOTE_INPUT : Z := 0x0206.
Definition COMMAND_ENABLE_INPUT : Z := 0x020b.
Definition COMMAND_GAMEPAD : Z := 0x020d.
Definition COMMAND_INPUT_VERSION : Z := 0x020e.
Definition COMMAND_MOUSE_CURSOR_CAPTURE : Z := 0x0308.
Definition COMMAND_TRACK_REMOTE_CURSOR_IMAGE : Z := 0x030d.
Definition COMMAND_WINDOW_STATE : Z := 0x0320.
Definition COMMAND_SYSTEM_STATE : Z := 0x0321.
Definition COMMAND_MOUSE_SETTINGS : Z := 0x0323.
Definition MOUSE_SETTINGS_SPEED : Z := 10.
Definition MOUSE_SETTINGS_ACCEL : Z := 0.

Definition INPUT_KEY_DOWN : Z := 3.
Definition INPUT_KEY_UP : Z := 4.
Definition INPUT_HEARTBEAT : Z := 2.
Definition INPUT_MOUSE_ABSOLUTE : Z := 5.
Definition INPUT_MOUSE_RELATIVE : Z := 7.
Definition INPUT_MOUSE_BUTTON_DOWN : Z := 8.
Definition INPUT_MOUSE_BUTTON_UP : Z := 9.
Definition INPUT_MOUSE_WHEEL : Z := 10.
Definition INPUT_GAMEPAD : Z := 12.
Definition INPUT_HAPTICS_ENABLED : Z := 13.
Definition INPUT_LOCK_KEYS_SYNC : Z := 19.
Definition INPUT_TEXT : Z := 23.

Inductive NvstInputRoute := ControlReliable | ControlPartial | InputPartial.

Record NvstEncodedInput := { route : NvstInputRoute; bytes : list u8 }.

Inductive NvstInputCodecError :=
  | Malformed (reason : string)
  | UnsupportedType (input_type : Z)
  | UnsupportedText.

(** ** Reading *)

Definition read_u16_be (bytes : list u8) (offset : Z) : option Z :=
  from_be_bytes <$> zget_range bytes offset (offset + 2).
Definition read_u16_le (bytes : list u8) (offset : Z) : option Z :=
  from_le_bytes <$> zget_range bytes offset (offset + 2).
Definition read_u32_le (bytes : list u8) (offset : Z) : option Z :=
  from_le_bytes <$> zget_range bytes offset (offset + 4).
Definition read_u64_be (bytes : list u8) (offset : Z) : option Z :=
  from_be_bytes <$> zget_range bytes offset (offset + 8).
Definition read_u64_le (bytes : list u8) (offset : Z) : option Z :=
  from_le_bytes <$> zget_range bytes offset (offset + 8).

Definition require_len (bytes : list u8) (minimum : Z) (reason : string) : outcome NvstInputCodecError unit :=
  guard_err (zlen bytes <? minimum) (Malformed reason).
Definition require_remaining (bytes : list u8) (offset minimum : Z) (reason : string)
    : outcome NvstInputCodecError unit :=
  guard_err (saturating_sub (zlen bytes) offset <? minimum) (Malformed reason).

(** ** Framing *)

Definition control_command (code : Z) (payload : list u8) : list u8 :=
  to_le_bytes 2 code ++ to_le_bytes 2 (as_u16 (zlen payload)) ++ payload.

Definition remote_input_packet (input_type : Z) (body : list u8) : list u8 :=
  to_be_bytes 4 (as_u32 (4 + as_u32 (zlen body))) ++ to_le_bytes 4 input_type ++ body.

(** How many copies of the timestamp end the message, and its route. *)
Definition timestamp_count (input_type : Z) : nat :=
  if (input_type =? INPUT_KEY_DOWN) || (input_type =? INPUT_KEY_UP) || (input_type =? INPUT_MOUSE_ABSOLUTE)
  then 2%nat else 1%nat.
Definition message_route (input_type : Z) : NvstInputRoute :=
  if (input_type =? INPUT_MOUSE_RELATIVE) || (input_type =? INPUT_MOUSE_ABSOLUTE)
  then ControlPartial else ControlReliable.

Definition remote_input_message {E} (inner : list u8) (timestamp_us : Z) : outcome E NvstEncodedInput :=
  input_type ← expect (read_u32_le inner 4);
  let padded := Z.max 24 (div_ceil (zlen inner) 8 * 8) in
  let body := resize inner padded Byte.x00 in
  let body := body ++ concat (replicate (timestamp_count input_type) (to_le_bytes 8 timestamp_us)) in
  mret {| route := message_route input_type;
          bytes := control_command COMMAND_REMOTE_INPUT (remote_input_packet 0x0e body) |}.

Definition gamepad_command {E} (packet : list u8) (timestamp_us sequence : Z) : outcome E (list u8) :=
  id ← packet.[6];
  report ← slice packet 0 38;
  mret (control_command COMMAND_GAMEPAD
    ([z2b 0x23] ++ to_be_bytes 8 timestamp_us ++ [z2b 0x26; id] ++ to_be_bytes 2 sequence
     ++ [z2b 0x21] ++ to_be_bytes 2 38 ++ report)).

(** Bytes 9 and 10 are the bitmap. *)
Definition device_descriptor_body : list u8 :=
  map z2b [0x22; 0x0c; 0; 0; 0; 0x1a; 0; 0; 0; 0x02; 0; 0x14] ++ zeroes 15 ++ [z2b 0x55] ++ zeroes 11.

Definition device_descriptor {E} (timestamp_us bitmap : Z) : outcome E (list u8) :=
  body ← set_slice device_descriptor_body 9 11 (to_le_bytes 2 bitmap);
  mret (control_command COMMAND_GAMEPAD ([z2b 0x23] ++ to_be_bytes 8 timestamp_us ++ body)).

Definition bool_u8 (b : bool) : u8 := if b then Byte.x01 else Byte.x00.

Definition mouse_cursor_capture (enabled : bool) : list u8 :=
  control_command COMMAND_MOUSE_CURSOR_CAPTURE [bool_u8 enabled].
Definition remote_cursor_tracking (enabled : bool) : list u8 :=
  control_command COMMAND_TRACK_REMOTE_CURSOR_IMAGE [bool_u8 enabled].
Definition mouse_settings (speed accel : Z) (accel_first : bool) : list u8 :=
  control_command COMMAND_MOUSE_SETTINGS
    (if accel_first then to_le_bytes 4 accel ++ to_le_bytes 4 speed
     else to_le_bytes 4 speed ++ to_le_bytes 4 accel).
Definition haptics_state {E} (enabled : bool) (timestamp_us : Z) : outcome E NvstEncodedInput :=
  remote_input_message (remote_input_packet INPUT_HAPTICS_ENABLED (to_le_bytes 2 (if enabled then 1 else 0)))
    timestamp_us.
Definition control_keepalive (stream_value : Z) : list u8 :=
  control_command COMMAND_KEEPALIVE (to_le_bytes 4 stream_value).
Definition enable_input (counter : Z) (enabled : bool) : list u8 :=
  control_command COMMAND_ENABLE_INPUT
    (to_le_bytes 4 0 ++ to_le_bytes 4 counter ++ to_le_bytes 4 (if enabled then 1 else 0)).
Definition state_change (code state frame_number : Z) : list u8 :=
  control_command code (to_le_bytes 4 0 ++ to_le_bytes 4 state ++ to_le_bytes 4 frame_number).

(** The two environment switches are arguments. *)
Definition activation_chain {E} (mouse_settings_enabled mouse_settings_accel_first : bool) (timestamp_us : Z)
    : outcome E (list (list u8)) :=
  descriptor ← device_descriptor timestamp_us 0;
  haptics ← haptics_state true timestamp_us;
  mret ([enable_input 1 false; descriptor; mouse_cursor_capture true; remote_cursor_tracking true;
         state_change COMMAND_WINDOW_STATE 19 0; state_change COMMAND_SYSTEM_STATE 0 0;
         enable_input 1 true; bytes haptics]
        ++ if mouse_settings_enabled
           then [mouse_settings MOUSE_SETTINGS_SPEED MOUSE_SETTINGS_ACCEL mouse_settings_accel_first]
           else []).

(** ** Native events *)

Module NativeEvent.
Record t := { bytes : list u8; timestamp_us : Z }.
End NativeEvent.

Definition native_event_length (input_type remaining : Z) : outcome NvstInputCodecError Z :=
  if input_type =? INPUT_HEARTBEAT then Ok 4
  else if (input_type =? INPUT_KEY_DOWN) || (input_type =? INPUT_KEY_UP)
       || (input_type =? INPUT_MOUSE_BUTTON_DOWN) || (input_type =? INPUT_MOUSE_BUTTON_UP) then Ok 18
  else if (input_type =? INPUT_MOUSE_RELATIVE) || (input_type =? INPUT_MOUSE_WHEEL) then Ok 22
  else if input_type =? INPUT_MOUSE_ABSOLUTE then Ok 26
  else if input_type =? INPUT_GAMEPAD then Ok 38
  else if input_type =? INPUT_HAPTICS_ENABLED then Ok 6
  else if input_type =? INPUT_LOCK_KEYS_SYNC then Ok 5
  else if input_type =? INPUT_TEXT then Ok remaining
  else Err (UnsupportedType input_type).

(** The three event wrappers: the event's range and the next position. *)
Definition single_event (packet : list u8) (cursor : Z) : outcome NvstInputCodecError (Z * Z) :=
  let start := cursor + 1 in
  input_type ← ok_or (read_u32_le packet start) (Malformed "short single-event wrapper");
  length ← native_event_length input_type (zlen packet - start);
  let end_ := start + length in
  guard_err (zlen packet <? end_) (Malformed "truncated single event");;
  mret (start, end_).

Definition prefixed_event (packet : list u8) (cursor : Z) : outcome NvstInputCodecError (Z * Z) :=
  require_remaining packet cursor 3 "short length-prefixed wrapper";;
  hi ← packet.[cursor + 1];
  lo ← packet.[cursor + 2];
  let start := cursor + 3 in
  let end_ := start + from_be_bytes [hi; lo] in
  guard_err (zlen packet <? end_) (Malformed "truncated length-prefixed event");;
  mret (start, end_).

Definition partial_event (packet : list u8) (cursor : Z) : outcome NvstInputCodecError (Z * Z) :=
  require_remaining packet cursor 7 "short partially-reliable wrapper";;
  marker ← packet.[cursor + 4];
  guard_err (negb (b2z marker =? 0x21)) (Malformed "missing gamepad payload marker");;
  hi ← packet.[cursor + 5];
  lo ← packet.[cursor + 6];
  let start := cursor + 7 in
  let end_ := start + from_be_bytes [hi; lo] in
  guard_err (zlen packet <? end_) (Malformed "truncated gamepad event");;
  mret (start, end_).

(** The loop over the wrapped events; out of fuel is a [Panic]. *)
Fixpoint native_events_loop (fuel : nat) (packet : list u8) (timestamp_us cursor : Z)
    (events : list NativeEvent.t) : outcome NvstInputCodecError (list NativeEvent.t) :=
  match fuel with
  | O => Panic
  | S fuel =>
      if cursor <? zlen packet then
        marker ← packet.[cursor];
        '(start, end_) ←
          (if b2z marker =? 0x22 then single_event packet cursor
           else if b2z marker =? 0x21 then prefixed_event packet cursor
           else if b2z marker =? 0x26 then partial_event packet cursor
           else Err (Malformed "unknown protocol-v3 marker"));
        event ← slice packet start end_;
        native_events_loop fuel packet timestamp_us end_
          (events ++ [{| NativeEvent.bytes := event; NativeEvent.timestamp_us := timestamp_us |}])
      else Ok events
  end.

Definition native_events (packet : list u8) (fallback_timestamp_us : Z)
    : outcome NvstInputCodecError (list NativeEvent.t) :=
  guard_err (zlen packet =? 0) (Malformed "empty packet");;
  marker ← packet.[0];
  if b2z marker =? 0x22 then
    guard_err ((zlen packet <? 5) || negb (bool_decide (read_u32_le packet 1 = Some INPUT_TEXT)))
      (Malformed "unknown leading 0x22 packet");;
    event ← slice packet 1 (zlen packet);
    mret [{| NativeEvent.bytes := event; NativeEvent.timestamp_us := fallback_timestamp_us |}]
  else if negb (b2z marker =? 0x23) then
    mret [{| NativeEvent.bytes := packet; NativeEvent.timestamp_us := fallback_timestamp_us |}]
  else
    require_len packet 10 "short protocol-v3 wrapper";;
    timestamp_us ← expect (read_u64_be packet 1);
    native_events_loop (S (length packet)) packet timestamp_us 9 [].

Definition native_input_types (packet : list u8) : outcome NvstInputCodecError (list Z) :=
  events ← native_events packet 0;
  mret (omap (M:=list) (fun event => read_u32_le (NativeEvent.bytes event) 0) events).

Definition native_input_type_is_motion (input_type : Z) : bool :=
  (input_type =? INPUT_MOUSE_ABSOLUTE) || (input_type =? INPUT_MOUSE_RELATIVE).

(** ** Server messages *)

(** One record of a reliable control stream: its code, its payload range. *)
Definition record_at (bytes : list u8) (cursor : Z) : outcome Empty_set (Z * Z * Z) :=
  c0 ← bytes.[cursor]; c1 ← bytes.[cursor + 1];
  l0 ← bytes.[cursor + 2]; l1 ← bytes.[cursor + 3];
  mret (from_le_bytes [c0; c1], cursor + 4, cursor + 4 + from_le_bytes [l0; l1]).

(** The loop of [input_protocol_version]: [Some (Some v)] is the early
    [return], [Some None] the end of the loop. *)
Fixpoint version_loop (fuel : nat) (bytes : list u8) (cursor : Z) : outcome Empty_set (option Z) :=
  match fuel with
  | O => Panic
  | S fuel =>
      if 4 <=? saturating_sub (zlen bytes) cursor then
        '(code, payload_start, payload_end) ← record_at bytes cursor;
        if zlen bytes <? payload_end then mret None
        else if (code =? COMMAND_INPUT_VERSION) && (2 <=? payload_end - payload_start) then
          v0 ← bytes.[payload_start]; v1 ← bytes.[payload_start + 1];
          mret (Some (from_le_bytes [v0; v1]))
        else version_loop fuel bytes payload_end
      else mret None
  end.

Definition input_protocol_version (bytes : list u8) : outcome Empty_set (option Z) :=
  if zlen bytes <? 2 then mret None else
  found ← version_loop (S (length bytes)) bytes 0;
  match found with
  | Some version => mret (Some version)
  | None =>
      b0 ← bytes.[0]; b1 ← bytes.[1];
      let first := from_le_bytes [b0; b1] in
      if first =? COMMAND_INPUT_VERSION then
        if 4 <=? zlen bytes then
          b2 ← bytes.[2]; b3 ← bytes.[3]; mret (Some (from_le_bytes [b2; b3]))
        else mret (Some 2)
      else mret (if b2z b0 =? 0x0e then Some first else None)
  end.

Module NvstServerCursorMessage.
Record t := {
  command : Z;
  offset : Z;
  raw : list u8;
  cursor_id : option Z;
  position : option (Z * Z);
  visible : option bool;
  normalized : option (list u8)
}.
End NvstServerCursorMessage.

(** The two arms of the [match] on the record's code. *)
Definition system_cursor (bytes payload : list u8) (code offset payload_end : Z)
    : outcome Empty_set NvstServerCursorMessage.t :=
  p0 ← payload.[0]; p1 ← payload.[1]; p2 ← payload.[2]; p3 ← payload.[3];
  let cursor_id := from_le_bytes [p0; p1; p2; p3] in
  position ←
    (if 8 <=? zlen payload then
       p4 ← payload.[4]; p5 ← payload.[5]; p6 ← payload.[6]; p7 ← payload.[7];
       mret (Some (from_le_bytes [p4; p5], from_le_bytes [p6; p7]))
     else mret None);
  let visible := (fun value => negb (b2z value =? 0)) <$> zget payload 8 in
  normalized ←
    (if cursor_id <=? 255 then
       tail ← (if 8 <=? zlen payload then slice payload 4 8 else mret []);
       mret (Some (map z2b [0; cursor_id; 0; 0; 0; 0; 0] ++ tail))
     else mret None);
  raw ← slice bytes offset payload_end;
  mret {| NvstServerCursorMessage.command := code; NvstServerCursorMessage.offset := offset;
          NvstServerCursorMessage.raw := raw; NvstServerCursorMessage.cursor_id := Some cursor_id;
          NvstServerCursorMessage.position := position; NvstServerCursorMessage.visible := visible;
          NvstServerCursorMessage.normalized := normalized |}.

Definition bitmap_cursor_guard (payload : list u8) : bool :=
  (6 <=? zlen payload)
  && match read_u16_le payload 4 with
     | None => false
     | Some length => (length =? 0) || (12 + length <=? zlen payload)
     end.

Definition bitmap_cursor (bytes payload : list u8) (code offset payload_end : Z)
    : outcome Empty_set NvstServerCursorMessage.t :=
  id ← slice payload 0 4;
  raw ← slice bytes offset payload_end;
  mret {| NvstServerCursorMessage.command := code; NvstServerCursorMessage.offset := offset;
          NvstServerCursorMessage.raw := raw; NvstServerCursorMessage.cursor_id := Some (from_le_bytes id);
          NvstServerCursorMessage.position := None; NvstServerCursorMessage.visible := None;
          NvstServerCursorMessage.normalized := None |}.

Definition cursor_message (bytes payload : list u8) (code offset payload_end : Z)
    : outcome Empty_set (list NvstServerCursorMessage.t) :=
  if (code =? COMMAND_SYSTEM_CURSOR) && (4 <=? zlen payload) then
    m ← system_cursor bytes payload code offset payload_end; mret [m]
  else if (code =? COMMAND_BITMAP_CURSOR) && bitmap_cursor_guard payload then
    m ← bitmap_cursor bytes payload code offset payload_end; mret [m]
  else mret [].

Fixpoint cursor_loop (fuel : nat) (bytes : list u8) (offset : Z) (updates : list NvstServerCursorMessage.t)
    : outcome Empty_set (list NvstServerCursorMessage.t) :=
  match fuel with
  | O => Panic
  | S fuel =>
      if 4 <=? saturating_sub (zlen bytes) offset then
        '(code, payload_start, payload_end) ← record_at bytes offset;
        if zlen bytes <? payload_end then mret updates else
        payload ← slice bytes payload_start payload_end;
        new ← cursor_message bytes payload code offset payload_end;
        cursor_loop fuel bytes payload_end (updates ++ new)
      else mret updates
  end.

Definition server_cursor_messages (bytes : list u8) : outcome Empty_set (list NvstServerCursorMessage.t) :=
  cursor_loop (S (length bytes)) bytes 0 [].

(** ** Rich controller reports *)

(** From opennow-streamer-hid. *)
Definition MAX_SOURCES : Z := 4.
Definition DS4_REPORT_BYTES : Z := 64.
Definition DS4_INTERFACE : Z := 4.
Definition DS4_LOW_ID_BASE : Z := 6.

Definition RI_TYPE_DEVICE_CHANGE : Z := 0x12.
Definition RI_TYPE_HID_REPORT : Z := 0x11.
Definition HID_REPORT_MARKER : Z := 0x22.
Definition SONY_DEVICE_CHANGE_FLAGS : Z := 1.

Inductive SonyDeviceControl := Attach | Removal.
Definition control_code (c : SonyDeviceControl) : Z := match c with Attach => 1 | Removal => 3 end.

Definition sony_low_id_in_range (low_id : Z) : option unit :=
  offset ← checked_sub low_id DS4_LOW_ID_BASE;
  if offset <? MAX_SOURCES then Some tt else None.

Definition sony_device_change_command (control : SonyDeviceControl) (low_id : Z) : option (list u8) :=
  _ ← sony_low_id_in_range low_id;
  Some (control_command COMMAND_REMOTE_INPUT (remote_input_packet RI_TYPE_DEVICE_CHANGE
    ([z2b low_id; z2b (control_code control)] ++ to_be_bytes 4 SONY_DEVICE_CHANGE_FLAGS
     ++ to_be_bytes 2 0 ++ to_be_bytes 2 0 ++ to_be_bytes 2 0 ++ to_be_bytes 2 0))).

Definition sony_report_command (low_id : Z) (report : list u8) : option (list u8) :=
  _ ← sony_low_id_in_range low_id;
  Some (control_command COMMAND_GAMEPAD
    ([z2b HID_REPORT_MARKER] ++ to_le_bytes 4 RI_TYPE_HID_REPORT ++ [z2b low_id; z2b DS4_INTERFACE; Byte.x00]
     ++ report)).

Definition parse_sony_output (payload : list u8) : outcome Empty_set (option (Z * list u8)) :=
  if zlen payload <? 13 then mret None else
  kind ← slice payload 0 4;
  if negb (from_le_bytes kind =? RI_TYPE_HID_REPORT) then mret None else
  low_id ← payload.[4];
  match sony_low_id_in_range (b2z low_id) with
  | None => mret None
  | Some _ => operation ← slice payload 7 (zlen payload); mret (Some (b2z low_id, operation))
  end.

(** The calls of [handle] the loop makes, in order. *)
Fixpoint sony_loop (fuel : nat) (bytes : list u8) (handled : list (Z * list u8)) : outcome Empty_set (list (Z * list u8)) :=
  match fuel with
  | O => Panic
  | S fuel =>
      if 4 <=? zlen bytes then
        '(code, payload_start, payload_end) ← record_at bytes 0;
        match zget_range bytes payload_start payload_end with
        | None => mret handled
        | Some payload =>
            bytes ← slice bytes payload_end (zlen bytes);
            if negb (code =? COMMAND_REMOTE_INPUT) then sony_loop fuel bytes handled else
            output ← parse_sony_output payload;
            sony_loop fuel bytes (handled ++ match output with Some o => [o] | None => [] end)
        end
      else mret handled
  end.

Definition for_each_sony_output (bytes : list u8) : outcome Empty_set (list (Z * list u8)) :=
  sony_loop (S (length bytes)) bytes [].

(** ** Pasted text *)

(** [while !remaining.is_char_boundary(end) { end -= 1 }] *)
Fixpoint back_to_boundary (fuel : nat) (remaining : list u8) (end_ : Z) : outcome Empty_set Z :=
  match fuel with
  | O => Panic
  | S fuel =>
      if is_char_boundary remaining end_ then Ok end_ else
      if end_ =? 0 then Panic else back_to_boundary fuel remaining (end_ - 1)
  end.

Definition text_message (chunk : list u8) (timestamp_us : Z) : NvstEncodedInput :=
  let packet := remote_input_packet INPUT_TEXT chunk in
  let packet :=
    if zlen packet <? 0x7e * 8
    then remote_input_packet 0x0e
           (resize packet ((zlen packet + 8) / 8 * 8 + 8) Byte.x00 ++ to_le_bytes 8 timestamp_us)
    else packet in
  {| route := ControlReliable; bytes := control_command COMMAND_REMOTE_INPUT packet |}.

Fixpoint text_loop (fuel : nat) (remaining : list u8) (timestamp_us : Z) (messages : list NvstEncodedInput)
    : outcome Empty_set (list NvstEncodedInput) :=
  match fuel with
  | O => Panic
  | S fuel =>
      if zlen remaining =? 0 then Ok messages else
      end_ ← back_to_boundary (S (length remaining)) remaining (Z.min (zlen remaining) 0x3f8);
      chunk ← slice remaining 0 end_;
      remaining ← slice remaining end_ (zlen remaining);
      text_loop fuel remaining timestamp_us (messages ++ [text_message chunk timestamp_us])
  end.

Definition unicode_text_messages (remaining : list u8) (timestamp_us : Z) : outcome Empty_set (list NvstEncodedInput) :=
  text_loop (S (length remaining)) remaining timestamp_us [].

(** ** Parsers never panic *)

Lemma from_le_bytes2 a b : 0 <= from_le_bytes [a; b] < 65536.
Proof. apply (from_le_bytes_range [a; b]). Qed.
Lemma from_be_bytes2 a b : 0 <= from_be_bytes [a; b] < 65536.
Proof. apply (from_be_bytes_range [a; b]). Qed.

Lemma record_at_Ok bytes cursor :
  0 <= cursor -> cursor + 4 <= zlen bytes ->
  exists code start end_, record_at bytes cursor = Ok (code, start, end_)
    /\ is_u16 code /\ start = cursor + 4 /\ start <= end_ < start + 65536.
Proof.
  intros H0 H4. unfold record_at. do 4 step_idx.
  do 3 eexists. split; [reflexivity|]. unfold is_u16.
  repeat match goal with |- context [from_le_bytes [?a; ?b]] =>
    pose proof (from_le_bytes2 a b); generalize dependent (from_le_bytes [a; b]); intros end.
  lia.
Qed.

Ltac at_record :=
  match goal with
  | |- context [record_at ?b ?c] =>
      destruct (record_at_Ok b c) as (?code & ?start & ?end_ & -> & ? & ? & ?); [lia|lia|]; obind
  end.

Lemma version_loop_total fuel bytes cursor :
  0 <= cursor <= zlen bytes -> zlen bytes - cursor < Z.of_nat fuel -> version_loop fuel bytes cursor <> Panic.
Proof.
  revert cursor. induction fuel as [|fuel IH]; intros cursor H0 Hf; [lia|]. cbn [version_loop].
  unfold saturating_sub. zif; [|done]. at_record. no_panic. apply IH; lia.
Qed.
Lemma input_protocol_version_total bytes : input_protocol_version bytes <> Panic.
Proof.
  unfold input_protocol_version. pose proof (zlen_nonneg bytes). no_panic.
  - apply version_loop_total; unfold zlen; lia.
  - destruct x; no_panic.
Qed.

Lemma system_cursor_total bytes payload code offset payload_end :
  4 <= zlen payload -> 0 <= offset <= payload_end -> payload_end <= zlen bytes ->
  system_cursor bytes payload code offset payload_end <> Panic.
Proof. intros. unfold system_cursor. no_panic. Qed.
Lemma bitmap_cursor_total bytes payload code offset payload_end :
  6 <= zlen payload -> 0 <= offset <= payload_end -> payload_end <= zlen bytes ->
  bitmap_cursor bytes payload code offset payload_end <> Panic.
Proof. intros. unfold bitmap_cursor. no_panic. Qed.
Lemma cursor_message_total bytes payload code offset payload_end :
  0 <= offset <= payload_end -> payload_end <= zlen bytes ->
  cursor_message bytes payload code offset payload_end <> Panic.
Proof.
  intros. unfold cursor_message, bitmap_cursor_guard. no_panic.
  - apply system_cursor_total; lia.
  - apply bitmap_cursor_total; lia.
Qed.
Lemma cursor_loop_total fuel bytes offset updates :
  0 <= offset <= zlen bytes -> zlen bytes - offset < Z.of_nat fuel -> cursor_loop fuel bytes offset updates <> Panic.
Proof.
  revert offset updates. induction fuel as [|fuel IH]; intros offset updates H0 Hf; [lia|]. cbn [cursor_loop].
  unfold saturating_sub. zif; [|done]. at_record. no_panic.
  - apply cursor_message_total; lia.
  - apply IH; lia.
Qed.
Lemma server_cursor_messages_total bytes : server_cursor_messages bytes <> Panic.
Proof. apply cursor_loop_total; unfold zlen; lia. Qed.

Lemma parse_sony_output_total payload : parse_sony_output payload <> Panic.
Proof. unfold parse_sony_output. no_panic. Qed.
Lemma sony_loop_total fuel bytes handled :
  zlen bytes < Z.of_nat fuel -> sony_loop fuel bytes handled <> Panic.
Proof.
  revert bytes handled. induction fuel as [|fuel IH]; intros bytes handled Hf; [pose proof (zlen_nonneg bytes); lia|].
  cbn [sony_loop]. zif; [|done]. at_record. destruct (zget_range bytes _ _) as [payload|] eqn:Ep; [|done].
  apply zget_range_inv in Ep as (? & ? & _). no_panic.
  - apply IH; lia.
  - apply parse_sony_output_total.
  - apply IH; lia.
Qed.
Lemma for_each_sony_output_total bytes : for_each_sony_output bytes <> Panic.
Proof. apply sony_loop_total. unfold zlen. lia. Qed.

Lemma native_event_length_inv input_type remaining n :
  native_event_length input_type remaining = Ok n -> 4 <= n \/ n = remaining.
Proof. unfold native_event_length. repeat case_match; intros [= <-]; lia. Qed.
Lemma native_event_length_no_panic input_type remaining : native_event_length input_type remaining <> Panic.
Proof. unfold native_event_length. no_panic. Qed.

(** Each wrapper yields a range ahead of the cursor. *)
Definition ahead (packet : list u8) (cursor : Z) (m : outcome NvstInputCodecError (Z * Z)) : Prop :=
  m <> Panic /\ forall start end_, m = Ok (start, end_) -> cursor < start <= end_ /\ end_ <= zlen packet.

Lemma read_u32_le_Some bytes offset v :
  read_u32_le bytes offset = Some v -> 0 <= offset /\ offset + 4 <= zlen bytes /\ is_u32 v.
Proof.
  unfold read_u32_le. destruct (zget_range _ _ _) as [r|] eqn:E; [|done]. intros [= <-].
  pose proof (zget_range_length _ _ _ _ E). apply zget_range_inv in E as (? & ? & _).
  pose proof (from_le_bytes_range r) as Hr. unfold zlen in *. replace (length r) with 4%nat in Hr by lia.
  unfold is_u32. change (2 ^ 32) with (256 ^ Z.of_nat 4). lia.
Qed.

Lemma single_event_ahead packet cursor : 0 <= cursor < zlen packet -> ahead packet cursor (single_event packet cursor).
Proof.
  intros Hc. unfold single_event. split.
  - no_panic. apply native_event_length_no_panic.
  - intros s e H. apply bind_Ok_inv in H as (ty & Hty & H). apply bind_Ok_inv in H as (n & Hn & H).
    apply bind_Ok_inv in H as ([] & Hg & H). apply guard_err_inv in Hg. zbool. injection H as <- <-.
    unfold ok_or in Hty. destruct (read_u32_le packet (cursor + 1)) eqn:E; [|done].
    apply read_u32_le_Some in E as (? & ? & _). apply native_event_length_inv in Hn. lia.
Qed.
Lemma prefixed_event_ahead packet cursor : 0 <= cursor < zlen packet -> ahead packet cursor (prefixed_event packet cursor).
Proof.
  intros Hc. unfold prefixed_event, require_remaining, saturating_sub. split; [no_panic|].
  intros s e H. apply bind_Ok_inv in H as (? & ? & H). apply bind_Ok_inv in H as (hi & ? & H).
  apply bind_Ok_inv in H as (lo & ? & H). apply bind_Ok_inv in H as (? & Hg & H).
  apply guard_err_inv in Hg. zbool. injection H as <- <-. pose proof (from_be_bytes2 hi lo). lia.
Qed.
Lemma partial_event_ahead packet cursor : 0 <= cursor < zlen packet -> ahead packet cursor (partial_event packet cursor).
Proof.
  intros Hc. unfold partial_event, require_remaining, saturating_sub. split; [no_panic|].
  intros s e H. apply bind_Ok_inv in H as (? & ? & H). apply bind_Ok_inv in H as (? & ? & H).
  apply bind_Ok_inv in H as (? & ? & H). apply bind_Ok_inv in H as (hi & ? & H).
  apply bind_Ok_inv in H as (lo & ? & H). apply bind_Ok_inv in H as (? & Hg & H).
  apply guard_err_inv in Hg. zbool. injection H as <- <-. pose proof (from_be_bytes2 hi lo). lia.
Qed.

Lemma native_events_loop_total fuel packet timestamp cursor events :
  0 <= cursor <= zlen packet -> zlen packet - cursor < Z.of_nat fuel ->
  native_events_loop fuel packet timestamp cursor events <> Panic.
Proof.
  revert cursor events. induction fuel as [|fuel IH]; intros cursor events H0 Hf; [lia|]. cbn [native_events_loop].
  zif; [|done]. step_idx.
  set (m := if b2z x =? 0x22 then _ else _). assert (Ha : ahead packet cursor m).
  { unfold m. repeat case_match; [apply single_event_ahead|apply prefixed_event_ahead|apply partial_event_ahead|];
      try lia. split; [done|]. intros ? ? H'. discriminate. }
  clearbody m. destruct m as [[s e]|err|]; [|done|by destruct Ha]. obind.
  destruct (proj2 Ha s e eq_refl) as [? ?]. no_panic. apply IH; lia.
Qed.
Lemma native_events_total packet fallback : native_events packet fallback <> Panic.
Proof.
  unfold native_events, require_len. pose proof (zlen_nonneg packet). no_panic.
  - apply expect_no_panic. unfold read_u64_be. by rewrite zget_range_Some by lia.
  - apply native_events_loop_total; unfold zlen in *; lia.
Qed.

(** No message can crash the input parsers.  Whatever bytes arrive (a
    server control stream, a renderer packet, a HID report), the protocol
    version scan, the cursor scan, the HID scan and the native event parser
    terminate within one iteration per byte and return a value or an error,
    never an index out of range. *)
Theorem input_parsers_total bytes fallback :
  input_protocol_version bytes <> Panic
  /\ server_cursor_messages bytes <> Panic
  /\ for_each_sony_output bytes <> Panic
  /\ native_events bytes fallback <> Panic
  /\ native_input_types bytes <> Panic.
Proof.
  split_and!.
  - apply input_protocol_version_total.
  - apply server_cursor_messages_total.
  - apply for_each_sony_output_total.
  - apply native_events_total.
  - unfold native_input_types. no_panic. apply native_events_total.
Qed.

Lemma input_parsers_total_example :
  native_events (map z2b [0x23; 0; 0; 0; 0; 0; 0; 0; 1; 0x21; 0; 9; 1]) 0
  = Err (Malformed "truncated length-prefixed event").
Proof. vm_compute. reflexivity. Qed.

(** ** Reading back what was written *)

Lemma idx_at {E} (pre : list u8) x post i : i = zlen pre -> idx (E := E) (pre ++ x :: post) i = Ok x.
Proof.
  intros ->. unfold idx. rewrite zget_lookup by apply zlen_nonneg. unfold zlen. by rewrite Nat2Z.id, list_lookup_middle.
Qed.
Lemma idx_plus {E} (pre l : list u8) i : 0 <= i -> idx (E := E) (pre ++ l) (zlen pre + i) = idx l i.
Proof.
  intros Hi. unfold idx. pose proof (zlen_nonneg pre). rewrite !zget_lookup by lia. unfold zlen in *.
  rewrite lookup_app_r by lia. do 2 f_equal. lia.
Qed.
(** Indices into a literal prefix. *)
Ltac by_index :=
  repeat match goal with
  | |- context [idx (E := ?E) (?x :: ?l) ?i] =>
      let v := eval lazy in (nth_error (x :: l) (Z.to_nat i)) in
      match v with Some ?y => change (idx (E := E) (x :: l) i) with (@Ok E u8 y) end
  end; obind.
Lemma zget_range_at (l1 l2 l3 : list u8) a b :
  a = zlen l1 -> b = a + zlen l2 -> zget_range (l1 ++ l2 ++ l3) a b = Some l2.
Proof.
  intros Ha Hb. pose proof (zlen_nonneg l1). pose proof (zlen_nonneg l2). pose proof (zlen_nonneg l3).
  rewrite zget_range_Some; [f_equal; by apply take_drop_app|lia|rewrite !zlen_app; lia].
Qed.
Lemma read_u32_le_at l1 v l3 a :
  a = zlen l1 -> is_u32 v -> read_u32_le (l1 ++ to_le_bytes 4 v ++ l3) a = Some v.
Proof.
  intros Ha Hv. unfold read_u32_le. rewrite (zget_range_at l1 (to_le_bytes 4 v) l3).
  - cbn [fmap option_fmap option_map]. by rewrite from_to_le_bytes.
  - done.
  - rewrite zlen_to_le_bytes. lia.
Qed.
Lemma read_u64_be_at l1 v l3 a :
  a = zlen l1 -> is_u64 v -> read_u64_be (l1 ++ to_be_bytes 8 v ++ l3) a = Some v.
Proof.
  intros Ha Hv. unfold read_u64_be. rewrite (zget_range_at l1 (to_be_bytes 8 v) l3).
  - cbn [fmap option_fmap option_map]. by rewrite from_to_be_bytes.
  - done.
  - rewrite zlen_to_be_bytes. lia.
Qed.

(** The bytes of a 16-bit field, as the parsers read them. *)
Lemma le_bytes2 v : is_u16 v -> exists a b, to_le_bytes 2 v = [a; b] /\ from_le_bytes [a; b] = v.
Proof. intros Hv. exists (z2b v), (z2b (v / 256)). split; [done|]. by apply (from_to_le_bytes 2). Qed.
Lemma be_bytes2 v : is_u16 v -> exists a b, to_be_bytes 2 v = [a; b] /\ from_be_bytes [a; b] = v.
Proof. intros Hv. exists (z2b (v / 256)), (z2b v). split; [done|]. by apply (from_to_be_bytes 2). Qed.

(** A record of a control stream, in place. *)
Lemma record_at_frame pre code payload post :
  is_u16 code -> zlen payload <= U16_MAX ->
  record_at (pre ++ control_command code payload ++ post) (zlen pre)
  = Ok (code, zlen pre + 4, zlen pre + 4 + zlen payload).
Proof.
  intros Hc Hp. pose proof (zlen_nonneg payload). unfold U16_MAX in Hp. unfold control_command.
  rewrite as_u16_small by (unfold is_u16; lia).
  destruct (le_bytes2 code Hc) as (c0 & c1 & -> & Hcode).
  destruct (le_bytes2 (zlen payload)) as (l0 & l1 & -> & Hlen); [unfold is_u16; lia|].
  cbn [app]. unfold record_at. rewrite <- (Z.add_0_r (zlen pre)) at 1.
  rewrite !idx_plus by lia. by_index.
  by rewrite Hcode, Hlen.
Qed.
Lemma frame_payload {E} pre code payload post :
  slice (E := E) (pre ++ control_command code payload ++ post) (zlen pre + 4) (zlen pre + 4 + zlen payload) = Ok payload.
Proof.
  unfold control_command. rewrite <- !app_assoc, (app_assoc pre), (app_assoc (pre ++ _)).
  apply slice_app; [rewrite !zlen_app, !zlen_to_le_bytes|]; lia.
Qed.
Lemma zlen_control_command code payload : zlen (control_command code payload) = 4 + zlen payload.
Proof. unfold control_command. autorewrite with zlens. lia. Qed.

(** *** Native events *)

Inductive wrapper :=
  | Single (event : list u8)
  | Prefixed (event : list u8)
  | Partial (id : u8) (sequence : Z) (event : list u8).

Definition wrapped_event (w : wrapper) : list u8 :=
  match w with Single e => e | Prefixed e => e | Partial _ _ e => e end.
Definition wrapper_header (w : wrapper) : list u8 :=
  match w with
  | Single _ => [z2b 0x22]
  | Prefixed e => [z2b 0x21] ++ to_be_bytes 2 (zlen e)
  | Partial id sequence e => [z2b 0x26; id] ++ to_be_bytes 2 sequence ++ [z2b 0x21] ++ to_be_bytes 2 (zlen e)
  end.
Definition wrap (w : wrapper) : list u8 := wrapper_header w ++ wrapped_event w.

(** A single event's length is given by its type; text has no length, so it
    cannot be followed by another event. *)
Definition wrapper_ok (w : wrapper) : Prop :=
  match w with
  | Single e => exists ty body, is_u32 ty /\ e = to_le_bytes 4 ty ++ body /\ ty <> INPUT_TEXT
      /\ native_event_length ty 0 = Ok (zlen e)
  | Prefixed e | Partial _ _ e => zlen e <= U16_MAX
  end.
Definition v3_packet (timestamp_us : Z) (ws : list wrapper) : list u8 :=
  [z2b 0x23] ++ to_be_bytes 8 timestamp_us ++ concat (map wrap ws).

Lemma native_event_length_fixed ty n remaining :
  ty <> INPUT_TEXT -> native_event_length ty 0 = Ok n -> native_event_length ty remaining = Ok n.
Proof.
  intros Ht. unfold native_event_length. rewrite (proj2 (Z.eqb_neq ty INPUT_TEXT)) by done. done.
Qed.

Lemma wrapper_parse pre w post :
  wrapper_ok w ->
  let packet := pre ++ wrap w ++ post in
  let cursor := zlen pre in
  let start := cursor + zlen (wrapper_header w) in
  (marker ← packet.[cursor];
   if b2z marker =? 0x22 then single_event packet cursor
   else if b2z marker =? 0x21 then prefixed_event packet cursor
   else if b2z marker =? 0x26 then partial_event packet cursor
   else Err (Malformed "unknown protocol-v3 marker")) = Ok (start, start + zlen (wrapped_event w)).
Proof.
  intros Hok packet cursor start. unfold packet, start, cursor. clear packet start cursor.
  pose proof (zlen_nonneg pre). pose proof (zlen_nonneg post).
  destruct w as [e|e|id sequence e]; cbn [wrapper_ok wrapped_event wrapper_header] in *; unfold wrap;
    cbn [wrapper_header wrapped_event]; pose proof (zlen_nonneg e).
  - destruct Hok as (ty & body & Hty & -> & Htext & Hlen). cbn [app].
    rewrite <- (Z.add_0_r (zlen pre)) at 1. rewrite idx_plus by lia. by_index.
    change (b2z (z2b 0x22) =? 0x22) with true. cbv iota. unfold single_event.
    rewrite <- app_assoc, (app_assoc pre [_] (to_le_bytes 4 ty ++ _) : pre ++ _ :: _ = _).
    rewrite read_u32_le_at by (done || (rewrite zlen_app; done)). obind.
    rewrite (native_event_length_fixed _ _ _ Htext Hlen). obind.
    unfold guard_err. rewrite (proj2 (Z.ltb_ge _ _)) by (autorewrite with zlens; lia). done.
  - unfold U16_MAX in Hok. destruct (be_bytes2 (zlen e)) as (a & b & -> & Hab); [unfold is_u16; lia|].
    cbn [app]. rewrite <- (Z.add_0_r (zlen pre)) at 1. rewrite idx_plus by lia. by_index.
    change (b2z (z2b 0x21)) with 0x21. cbn [Z.eqb Pos.eqb].
    unfold prefixed_event, require_remaining, guard_err, saturating_sub.
    rewrite (proj2 (Z.ltb_ge _ _)) by (autorewrite with zlens; lia). obind.
    rewrite !idx_plus by lia. by_index.
    rewrite Hab. rewrite (proj2 (Z.ltb_ge _ _)) by (autorewrite with zlens; lia). obind.
    unfold mret, outcome_ret. do 2 f_equal; autorewrite with zlens; lia.
  - unfold U16_MAX in Hok. destruct (be_bytes2 (zlen e)) as (a & b & -> & Hab); [unfold is_u16; lia|].
    assert (Hseq : exists s0 s1, to_be_bytes 2 sequence = [s0; s1]) by (do 2 eexists; reflexivity).
    destruct Hseq as (t0 & t1 & ->).
    cbn [app]. rewrite <- (Z.add_0_r (zlen pre)) at 1. rewrite idx_plus by lia. by_index.
    change (b2z (z2b 0x26)) with 0x26. cbn [Z.eqb Pos.eqb].
    unfold partial_event, require_remaining, guard_err, saturating_sub.
    rewrite (proj2 (Z.ltb_ge _ _)) by (autorewrite with zlens; lia). obind.
    rewrite !idx_plus by lia. by_index. change (b2z (z2b 0x21) =? 0x21) with true. cbn [negb]. obind.
    by_index. rewrite Hab. rewrite (proj2 (Z.ltb_ge _ _)) by (autorewrite with zlens; lia). obind.
    unfold mret, outcome_ret. do 2 f_equal; autorewrite with zlens; lia.
Qed.

Definition to_event (timestamp_us : Z) (w : wrapper) : NativeEvent.t :=
  {| NativeEvent.bytes := wrapped_event w; NativeEvent.timestamp_us := timestamp_us |}.

Lemma zlen_wrap w : zlen (wrap w) = zlen (wrapper_header w) + zlen (wrapped_event w).
Proof. unfold wrap. apply zlen_app. Qed.
Lemma wrapper_header_pos w : 0 < zlen (wrapper_header w).
Proof. destruct w; cbn [wrapper_header]; autorewrite with zlens; lia. Qed.

Lemma native_events_loop_wraps fuel pre ws timestamp events :
  Forall wrapper_ok ws -> (length ws < fuel)%nat ->
  native_events_loop fuel (pre ++ concat (map wrap ws)) timestamp (zlen pre) events
  = Ok (events ++ map (to_event timestamp) ws).
Proof.
  intros Hok. revert fuel pre events. induction Hok as [|w ws Hw Hws IH]; intros fuel pre events Hf;
    (destruct fuel as [|fuel]; [cbn in Hf; lia|]); cbn [native_events_loop map concat].
  - rewrite !app_nil_r. by rewrite Z.ltb_irrefl.
  - pose proof (wrapper_header_pos w) as Hh. pose proof (zlen_nonneg (wrapped_event w)) as He.
    pose proof (zlen_nonneg (concat (map wrap ws))) as Hr. pose proof (zlen_nonneg pre) as Hp.
    rewrite (proj2 (Z.ltb_lt _ _)) by (rewrite !zlen_app, zlen_wrap; lia).
    pose proof (wrapper_parse pre w (concat (map wrap ws)) Hw) as Hparse. cbn zeta in Hparse.
    apply bind_Ok_inv in Hparse as (marker & Hm & Hparse). rewrite Hm. obind. rewrite Hparse. obind.
    assert (Hslice : slice (E := NvstInputCodecError) (pre ++ wrap w ++ concat (map wrap ws))
      (zlen pre + zlen (wrapper_header w)) (zlen pre + zlen (wrapper_header w) + zlen (wrapped_event w))
      = Ok (wrapped_event w)).
    { unfold wrap at 1. rewrite <- app_assoc, (app_assoc pre). apply slice_app; [rewrite zlen_app|]; lia. }
    rewrite Hslice. obind.
    replace (zlen pre + zlen (wrapper_header w) + zlen (wrapped_event w)) with (zlen (pre ++ wrap w))
      by (rewrite zlen_app, zlen_wrap; lia).
    rewrite (app_assoc pre). rewrite IH by (cbn in Hf; lia). by rewrite <- app_assoc.
Qed.

Lemma wraps_length ws : Z.of_nat (length ws) <= zlen (concat (map wrap ws)).
Proof.
  induction ws as [|w ws IH]; [done|]. cbn [length map concat]. rewrite zlen_app, zlen_wrap.
  pose proof (wrapper_header_pos w). pose proof (zlen_nonneg (wrapped_event w)). lia.
Qed.

(** The native event wrapper round trips.  A packet that wraps any
    non-empty series of events, each in any of the three ways the renderer uses
    (by type, length-prefixed, partially reliable), parses back to exactly
    those events in order, all with the packet's timestamp. *)
Theorem native_events_roundtrip timestamp fallback ws :
  ws <> [] -> Forall wrapper_ok ws -> is_u64 timestamp ->
  native_events (v3_packet timestamp ws) fallback = Ok (map (to_event timestamp) ws).
Proof.
  intros Hne Hok Hts. unfold native_events, v3_packet, require_len, guard_err.
  assert (Hpos : 0 < zlen (concat (map wrap ws))).
  { pose proof (wraps_length ws). destruct ws; [done|]. cbn [length] in *. lia. }
  rewrite (proj2 (Z.eqb_neq _ _)) by (autorewrite with zlens; lia). obind.
  cbn [app]. by_index. change (b2z Byte.x23) with 0x23. cbn [Z.eqb Pos.eqb negb].
  rewrite (proj2 (Z.ltb_ge _ _)) by (autorewrite with zlens; lia). obind.
  rewrite (read_u64_be_at [z2b 0x23] timestamp (concat (map wrap ws)) 1 eq_refl Hts
    : read_u64_be (z2b 0x23 :: to_be_bytes 8 timestamp ++ concat (map wrap ws)) 1 = _). cbn [expect]. obind.
  change (z2b 35 :: to_be_bytes 8 timestamp ++ concat (map wrap ws))
    with (((z2b 0x23 :: to_be_bytes 8 timestamp) : list u8) ++ concat (map wrap ws)).
  change 9 with (zlen (z2b 0x23 :: to_be_bytes 8 timestamp)).
  rewrite native_events_loop_wraps; [reflexivity|exact Hok|].
  pose proof (wraps_length ws). unfold zlen in *. rewrite length_app. lia.
Qed.

Lemma native_events_roundtrip_witness :
  let key := to_le_bytes 4 INPUT_KEY_DOWN ++ map z2b [0; 65; 0; 0; 0; 30; 0; 0; 0; 0; 0; 0; 0; 7] in
  let ws := [Single key; Prefixed (to_le_bytes 4 INPUT_HEARTBEAT); Partial Byte.x01 513 (to_le_bytes 4 INPUT_TEXT)] in
  native_events (v3_packet 77 ws) 0 = Ok (map (to_event 77) ws)
  /\ native_input_types (v3_packet 77 ws) = Ok [INPUT_KEY_DOWN; INPUT_HEARTBEAT; INPUT_TEXT].
Proof.
  intros key ws. split; [|vm_compute; reflexivity]. apply (native_events_roundtrip 77 0 ws).
  - discriminate.
  - repeat (apply Forall_cons; split); [|vm_compute; discriminate..|apply Forall_nil_2].
    exists INPUT_KEY_DOWN, (map z2b [0; 65; 0; 0; 0; 30; 0; 0; 0; 0; 0; 0; 0; 7]).
    split; [split; reflexivity || discriminate|]. split; [reflexivity|]. split; [discriminate|vm_compute; reflexivity].
  - split; reflexivity || discriminate.
Defined.

(** *** Control streams *)

(** A stream of records, and the offsets its records have. *)
Definition frames (rs : list (Z * list u8)) : list u8 := concat (map (fun r => control_command r.1 r.2) rs).
Definition frame_ok (r : Z * list u8) : Prop := is_u16 r.1 /\ zlen r.2 <= U16_MAX.

(** What a stream may end in: fewer than four bytes, or a record cut short. *)
Definition unfinished (rest : list u8) : Prop :=
  zlen rest < 4 \/ exists code start end_, record_at rest 0 = Ok (code, start, end_) /\ zlen rest < end_.

(** The cursor message of a record at [offset]. *)
Definition cursor_of (offset : Z) (r : Z * list u8) : list NvstServerCursorMessage.t :=
  let raw := control_command r.1 r.2 in
  if (r.1 =? COMMAND_SYSTEM_CURSOR) && (4 <=? zlen r.2) then
    let id := from_le_bytes (take 4 r.2) in
    [ {| NvstServerCursorMessage.command := r.1; NvstServerCursorMessage.offset := offset;
         NvstServerCursorMessage.raw := raw; NvstServerCursorMessage.cursor_id := Some id;
         NvstServerCursorMessage.position :=
           if 8 <=? zlen r.2 then Some (from_le_bytes (take 2 (drop 4 r.2)), from_le_bytes (take 2 (drop 6 r.2)))
           else None;
         NvstServerCursorMessage.visible := (fun b => negb (b2z b =? 0)) <$> (r.2 !! 8%nat);
         NvstServerCursorMessage.normalized :=
           if id <=? 255 then
             Some (map z2b [0; id; 0; 0; 0; 0; 0] ++ if 8 <=? zlen r.2 then take 4 (drop 4 r.2) else [])
           else None |} ]
  else if (r.1 =? COMMAND_BITMAP_CURSOR) && bitmap_cursor_guard r.2 then
    [ {| NvstServerCursorMessage.command := r.1; NvstServerCursorMessage.offset := offset;
         NvstServerCursorMessage.raw := raw; NvstServerCursorMessage.cursor_id := Some (from_le_bytes (take 4 r.2));
         NvstServerCursorMessage.position := None; NvstServerCursorMessage.visible := None;
         NvstServerCursorMessage.normalized := None |} ]
  else [].

Fixpoint cursors_of (offset : Z) (rs : list (Z * list u8)) : list NvstServerCursorMessage.t :=
  match rs with
  | [] => []
  | r :: rs => cursor_of offset r ++ cursors_of (offset + 4 + zlen r.2) rs
  end.

(** The version a stream announces. *)
Definition version_of (r : Z * list u8) : option Z :=
  if (r.1 =? COMMAND_INPUT_VERSION) && (2 <=? zlen r.2) then Some (from_le_bytes (take 2 r.2)) else None.

Definition sony_of (r : Z * list u8) : list (Z * list u8) :=
  if r.1 =? COMMAND_REMOTE_INPUT
  then if (13 <=? zlen r.2) && (from_le_bytes (take 4 r.2) =? RI_TYPE_HID_REPORT) then
         match r.2 !! 4%nat with
         | Some id => match sony_low_id_in_range (b2z id) with
                      | Some _ => [(b2z id, drop 7 r.2)] | None => [] end
         | None => []
         end
       else []
  else [].

Lemma record_at_plus pre rest :
  record_at (pre ++ rest) (zlen pre)
  = ('(code, start, end_) ← record_at rest 0; Ok (code, zlen pre + start, zlen pre + end_)).
Proof.
  unfold record_at. rewrite <- (Z.add_0_r (zlen pre)) at 1. rewrite !idx_plus by lia.
  change (0 + 1) with 1. change (0 + 2) with 2. change (0 + 3) with 3.
  destruct (idx rest 0); [|done..]. rewrite !bind_Ok. destruct (idx rest 1); [|done..]. rewrite !bind_Ok.
  destruct (idx rest 2); [|done..]. rewrite !bind_Ok. destruct (idx rest 3); [|done..]. rewrite !bind_Ok.
  rewrite !bind_mret. unfold mret, outcome_ret. by rewrite !Z.add_0_l, Z.add_assoc.
Qed.

Lemma unfinished_stops {A} pre rest (k : Z * Z * Z -> outcome Empty_set A) (stop : A) (next : outcome Empty_set A) :
  unfinished rest ->
  (forall code start end_, (zlen (pre ++ rest) <? end_) = true -> k (code, start, end_) = mret stop) ->
  next = mret stop ->
  (if 4 <=? saturating_sub (zlen (pre ++ rest)) (zlen pre)
   then (record_at (pre ++ rest) (zlen pre) ≫= k) else next) = mret stop.
Proof.
  intros Hu Hk Hn. unfold saturating_sub. rewrite zlen_app. pose proof (zlen_nonneg rest).
  destruct Hu as [Hshort|(code & start & end_ & Hrec & Hlen)].
  - rewrite (proj2 (Z.leb_gt _ _)) by lia. done.
  - destruct (4 <=? _); [|done]. rewrite record_at_plus, Hrec. rewrite !bind_Ok.
    apply Hk. apply Z.ltb_lt. rewrite zlen_app. lia.
Qed.

(** Taking a payload apart. *)
Lemma payload_cons (p : list u8) n : Z.of_nat (S n) <= zlen p -> exists x q, p = x :: q /\ Z.of_nat n <= zlen q.
Proof. destruct p as [|x q]; [rewrite zlen_nil; lia|]. rewrite zlen_cons. intros. exists x, q. split; [done|lia]. Qed.
Ltac payload_split p n :=
  match n with
  | O => idtac
  | S ?m => let x := fresh "p" in let q := fresh "q" in let H := fresh "Hq" in
      destruct (payload_cons p m) as (x & q & -> & H); [rewrite ?zlen_cons in *; lia|]; payload_split q m
  end.

Lemma system_cursor_message bytes payload code offset payload_end :
  4 <= zlen payload -> code = COMMAND_SYSTEM_CURSOR ->
  slice (E := Empty_set) bytes offset payload_end = Ok (control_command code payload) ->
  (m ← system_cursor bytes payload code offset payload_end; mret [m]) = Ok (cursor_of offset (code, payload)).
Proof.
  intros H4 -> Hraw. unfold cursor_of, system_cursor. cbn [fst snd]. rewrite Hraw.
  rewrite (proj2 (Z.leb_le 4 _)) by done. rewrite Z.eqb_refl. cbn [andb].
  rewrite (zget_lookup payload 8) by lia. change (Z.to_nat 8) with 8%nat.
  destruct (Z.leb_spec 8 (zlen payload)) as [H8|H8].
  - payload_split payload 8%nat. by_index. cbn [take drop].
    match goal with |- context [slice (E := Empty_set) (?a :: ?b :: ?c :: ?d :: ?e :: ?f :: ?g :: ?h :: ?q) 4 8] =>
      change (slice (E := Empty_set) (a :: b :: c :: d :: e :: f :: g :: h :: q) 4 8) with
        (slice (E := Empty_set) ([a; b; c; d] ++ [e; f; g; h] ++ q) 4 8);
      rewrite (slice_app [a; b; c; d] [e; f; g; h] q) by done
    end. obind. by destruct (_ <=? 255).
  - payload_split payload 4%nat. by_index. cbn [take drop]. by destruct (_ <=? 255).
Qed.

Lemma cursor_message_spec bytes payload code offset payload_end :
  slice (E := Empty_set) bytes offset payload_end = Ok (control_command code payload) ->
  cursor_message bytes payload code offset payload_end = Ok (cursor_of offset (code, payload)).
Proof.
  intros Hraw. unfold cursor_message.
  destruct ((code =? COMMAND_SYSTEM_CURSOR) && (4 <=? zlen payload)) eqn:E1.
  - apply andb_true_iff in E1 as [E1 E1']. zbool. by apply system_cursor_message.
  - unfold cursor_of. cbn [fst snd]. rewrite E1.
    destruct ((code =? COMMAND_BITMAP_CURSOR) && bitmap_cursor_guard payload) eqn:E2; [|done].
    apply andb_true_iff in E2 as [_ E2]. unfold bitmap_cursor_guard in E2. apply andb_true_iff in E2 as [E2 _]. zbool.
    unfold bitmap_cursor. rewrite Hraw, slice_Ok by lia. obind. done.
Qed.

Lemma frames_cons r rs rest : frames (r :: rs) ++ rest = control_command r.1 r.2 ++ frames rs ++ rest.
Proof. unfold frames. cbn [map concat]. by rewrite <- app_assoc. Qed.
Lemma frames_length rs : Z.of_nat (length rs) <= zlen (frames rs).
Proof.
  induction rs as [|r rs IH]; [done|]. unfold frames in *. cbn [map concat length].
  rewrite zlen_app, zlen_control_command. pose proof (zlen_nonneg r.2). lia.
Qed.

Lemma cursor_loop_frames fuel pre rs rest updates :
  Forall frame_ok rs -> unfinished rest -> (length rs < fuel)%nat ->
  cursor_loop fuel (pre ++ frames rs ++ rest) (zlen pre) updates = Ok (updates ++ cursors_of (zlen pre) rs).
Proof.
  intros Hok Hu. revert fuel pre updates. induction Hok as [|[code payload] rs [Hc Hp] Hrs IH];
    intros fuel pre updates Hf; (destruct fuel as [|fuel]; [cbn in Hf; lia|]); cbn [cursor_loop cursors_of].
  - rewrite app_nil_r. apply unfinished_stops; [done| |done]. intros c s e He. by rewrite He.
  - cbn [fst snd] in Hc, Hp. rewrite frames_cons. cbn [fst snd].
    set (post := frames rs ++ rest). pose proof (zlen_nonneg post). pose proof (zlen_nonneg payload). pose proof (zlen_nonneg pre).
    unfold saturating_sub. rewrite (proj2 (Z.leb_le 4 _)) by (rewrite !zlen_app, zlen_control_command; lia).
    rewrite record_at_frame by done. obind.
    rewrite (proj2 (Z.ltb_ge _ _)) by (rewrite !zlen_app, zlen_control_command; lia).
    rewrite frame_payload. obind.
    rewrite cursor_message_spec.
    2:{ apply slice_app; [done|]. rewrite zlen_control_command. lia. }
    obind. rewrite (app_assoc pre).
    replace (zlen pre + 4 + zlen payload) with (zlen (pre ++ control_command code payload))
      by (rewrite zlen_app, zlen_control_command; lia).
    unfold post. rewrite IH by (cbn in Hf; lia). by rewrite <- app_assoc.
Qed.

Lemma version_loop_frames fuel pre rs rest :
  Forall frame_ok rs -> unfinished rest -> (length rs < fuel)%nat ->
  version_loop fuel (pre ++ frames rs ++ rest) (zlen pre) = Ok (head (omap version_of rs)).
Proof.
  intros Hok Hu. revert fuel pre. induction Hok as [|[code payload] rs [Hc Hp] Hrs IH];
    intros fuel pre Hf; (destruct fuel as [|fuel]; [cbn in Hf; lia|]); cbn [version_loop].
  - apply unfinished_stops; [done| |done]. intros c s e He. by rewrite He.
  - cbn [fst snd] in Hc, Hp. rewrite frames_cons. cbn [fst snd].
    set (post := frames rs ++ rest). pose proof (zlen_nonneg post). pose proof (zlen_nonneg payload). pose proof (zlen_nonneg pre).
    unfold saturating_sub. rewrite (proj2 (Z.leb_le 4 _)) by (rewrite !zlen_app, zlen_control_command; lia).
    rewrite record_at_frame by done. obind.
    rewrite (proj2 (Z.ltb_ge _ _)) by (rewrite !zlen_app, zlen_control_command; lia).
    replace (zlen pre + 4 + zlen payload - (zlen pre + 4)) with (zlen payload) by lia.
    cbn [omap list_omap]. unfold version_of at 1. cbn [fst snd].
    destruct ((code =? COMMAND_INPUT_VERSION) && (2 <=? zlen payload)) eqn:E.
    + apply andb_true_iff in E as [_ E]. zbool. payload_split payload 2%nat. cbn [take head].
      match goal with |- context [control_command code (?x :: ?y :: ?q)] =>
        set (n := as_u16 (zlen (x :: y :: q)));
        assert (Hb : pre ++ control_command code (x :: y :: q) ++ post
          = (pre ++ to_le_bytes 2 code ++ to_le_bytes 2 n) ++ x :: y :: q ++ post)
          by (unfold control_command; by rewrite <- !app_assoc);
        assert (Hh : zlen (pre ++ to_le_bytes 2 code ++ to_le_bytes 2 n) = zlen pre + 4)
          by (autorewrite with zlens; lia)
      end.
      rewrite Hb, <- Hh. rewrite <- (Z.add_0_r (zlen (pre ++ _))) at 1. rewrite !idx_plus by lia. by by_index.
    + rewrite (app_assoc pre).
      replace (zlen pre + 4 + zlen payload) with (zlen (pre ++ control_command code payload))
        by (rewrite zlen_app, zlen_control_command; lia).
      unfold post. rewrite IH by (cbn in Hf; lia). done.
Qed.

Lemma parse_sony_output_spec payload :
  parse_sony_output payload = Ok (head (sony_of (COMMAND_REMOTE_INPUT, payload))).
Proof.
  unfold parse_sony_output, sony_of. cbn [fst snd]. rewrite Z.eqb_refl.
  destruct (Z.ltb_spec (zlen payload) 13) as [H|H].
  { by rewrite (proj2 (Z.leb_gt _ _)) by done. }
  rewrite (proj2 (Z.leb_le _ _)) by done. rewrite (slice_Ok payload 0 4) by lia. obind.
  change (take (Z.to_nat (4 - 0)) (drop (Z.to_nat 0) payload)) with (take 4 payload). cbn [andb].
  destruct (from_le_bytes (take 4 payload) =? RI_TYPE_HID_REPORT); cbn [negb]; [|reflexivity].
  step_idx. rewrite zget_lookup in Hx by lia. change (Z.to_nat 4) with 4%nat in Hx. rewrite Hx.
  destruct (sony_low_id_in_range (b2z x)); [|done]. rewrite slice_Ok by lia. obind.
  cbn [head]. unfold mret, outcome_ret. do 3 f_equal. change (Z.to_nat 7) with 7%nat.
  apply take_ge. unfold zlen in *. rewrite length_drop. lia.
Qed.

Lemma sony_of_single r : match head (sony_of r) with Some o => [o] | None => [] end = sony_of r.
Proof. unfold sony_of. by repeat case_match; simplify_eq/=. Qed.

Lemma sony_loop_frames fuel rs rest handled :
  Forall frame_ok rs -> unfinished rest -> (length rs < fuel)%nat ->
  sony_loop fuel (frames rs ++ rest) handled = Ok (handled ++ concat (map sony_of rs)).
Proof.
  intros Hok Hu. revert fuel handled. induction Hok as [|[code payload] rs [Hc Hp] Hrs IH];
    intros fuel handled Hf; (destruct fuel as [|fuel]; [cbn in Hf; lia|]); cbn [sony_loop map concat].
  - change (frames [] ++ rest) with rest. rewrite app_nil_r. zif; [|done].
    destruct Hu as [|(c & s & e & -> & He)]; [lia|]. obind. unfold zget_range.
    rewrite (proj2 (Z.leb_gt e _)) by lia. by rewrite andb_false_r.
  - cbn [fst snd] in Hc, Hp. rewrite frames_cons. cbn [fst snd].
    set (post := frames rs ++ rest). pose proof (zlen_nonneg post). pose proof (zlen_nonneg payload).
    rewrite (proj2 (Z.leb_le 4 _)) by (rewrite !zlen_app, zlen_control_command; lia).
    rewrite (record_at_frame [] code payload post Hc Hp : record_at (control_command code payload ++ post) 0 = _).
    obind. change (zlen (@nil u8)) with 0.
    assert (Hrange : zget_range (control_command code payload ++ post) (0 + 4) (0 + 4 + zlen payload) = Some payload).
    { unfold control_command. rewrite <- !app_assoc. rewrite (app_assoc (to_le_bytes 2 code)).
      apply zget_range_at; [autorewrite with zlens; lia|lia]. }
    rewrite Hrange. assert (Hrest : slice (E := Empty_set) (control_command code payload ++ post) (0 + 4 + zlen payload)
      (zlen (control_command code payload ++ post)) = Ok post).
    { rewrite <- (app_nil_r post) at 1. apply slice_app; rewrite ?zlen_app, zlen_control_command; lia. }
    rewrite Hrest. obind. rewrite parse_sony_output_spec. obind.
    destruct (Z.eqb_spec code COMMAND_REMOTE_INPUT) as [->|Hne]; cbn [negb]; unfold post.
    + rewrite IH by (cbn in Hf; lia). by rewrite sony_of_single, <- app_assoc.
    + rewrite IH by (cbn in Hf; lia). unfold sony_of at 2. cbn [fst]. by rewrite (proj2 (Z.eqb_neq _ _)) by done.
Qed.

(** Control streams are read record by record.  On any stream of framed
    records (followed by at most an unfinished one), whatever their codes: the
    cursor scan returns the cursor messages of the cursor records, in order,
    with their byte offsets, raw bytes and decoded fields; the HID scan returns
    the reports of the remote-input records in order; and the version scan of a
    stream with a version record returns the first one's version. *)
Theorem control_stream_scans rs rest :
  Forall frame_ok rs -> unfinished rest ->
  server_cursor_messages (frames rs ++ rest) = Ok (cursors_of 0 rs)
  /\ for_each_sony_output (frames rs ++ rest) = Ok (concat (map sony_of rs))
  /\ (forall version, head (omap version_of rs) = Some version ->
        input_protocol_version (frames rs ++ rest) = Ok (Some version)).
Proof.
  intros Hok Hu. pose proof (frames_length rs) as Hl. pose proof (zlen_nonneg rest).
  assert (Hfuel : (length rs < S (length (frames rs ++ rest)))%nat).
  { unfold zlen in *. rewrite length_app. lia. }
  split; [exact (cursor_loop_frames _ [] rs rest [] Hok Hu Hfuel)|].
  split; [exact (sony_loop_frames _ rs rest [] Hok Hu Hfuel)|].
  intros version Hv. unfold input_protocol_version.
  destruct rs as [|r rs]; [done|].
  rewrite (proj2 (Z.ltb_ge _ _)).
  - pose proof (version_loop_frames _ [] (r :: rs) rest Hok Hu Hfuel) as Hloop.
    cbn [app] in Hloop. change (zlen (@nil u8)) with 0 in Hloop. rewrite Hloop, Hv. done.
  - rewrite frames_cons, zlen_app, zlen_control_command. pose proof (zlen_nonneg r.2).
    pose proof (zlen_nonneg (frames rs ++ rest)). lia.
Qed.

Lemma control_stream_scans_witness :
  let rs := [(COMMAND_INPUT_VERSION, map z2b [3; 0]); (COMMAND_SYSTEM_CURSOR, map z2b [7; 0; 0; 0; 1; 0; 2; 0; 1]);
             (COMMAND_REMOTE_INPUT, to_le_bytes 4 RI_TYPE_HID_REPORT ++ map z2b [6; 4; 0; 1; 2; 3; 4; 5; 6])] in
  input_protocol_version (frames rs ++ [Byte.x01]) = Ok (Some 3)
  /\ for_each_sony_output (frames rs ++ [Byte.x01]) = Ok [(6, map z2b [1; 2; 3; 4; 5; 6])]
  /\ exists m, server_cursor_messages (frames rs ++ [Byte.x01]) = Ok [m]
       /\ NvstServerCursorMessage.position m = Some (1, 2) /\ NvstServerCursorMessage.offset m = 6.
Proof.
  intros rs.
  assert (Hok : Forall frame_ok rs).
  { repeat (apply Forall_cons; split; [split; [split; reflexivity || discriminate|vm_compute; discriminate]|]).
    apply Forall_nil_2. }
  destruct (control_stream_scans rs [Byte.x01] Hok) as (Hc & Hs & Hv); [left; reflexivity|].
  split; [apply Hv; vm_compute; reflexivity|]. rewrite Hs, Hc. split; [vm_compute; reflexivity|].
  eexists. split; [vm_compute; reflexivity|]. split; vm_compute; reflexivity.
Defined.

(** *** Pasted text *)

(** What the host reads back from one text message: the text of the packet
    inside the record, unwrapped when it carries a timestamp. *)
Definition packet_text (packet : list u8) : list u8 :=
  take (Z.to_nat (from_be_bytes (take 4 packet) - 4)) (drop 8 packet).
Definition message_text (message : NvstEncodedInput) : list u8 :=
  let packet := drop 4 (bytes message) in
  if bool_decide (read_u32_le packet 4 = Some 0x0e) then packet_text (drop 8 packet) else packet_text packet.

Definition text_of (messages : list NvstEncodedInput) : list u8 := concat (map message_text messages).

Lemma packet_text_packet ty body tail :
  zlen body < 2 ^ 31 -> packet_text (remote_input_packet ty body ++ tail) = body.
Proof.
  intros Hb. pose proof (zlen_nonneg body). unfold packet_text, remote_input_packet.
  unfold as_u32. rewrite (Z.mod_small (zlen body)), Z.mod_small by lia.
  rewrite <- !app_assoc. rewrite take_app_length' by (by rewrite length_to_be_bytes).
  rewrite from_to_be_bytes by (change (256 ^ Z.of_nat 4) with (2 ^ 32); lia).
  rewrite (app_assoc (to_be_bytes 4 _)).
  rewrite drop_app_length' by (by rewrite length_app, length_to_be_bytes, length_to_le_bytes).
  replace (Z.to_nat (4 + zlen body - 4)) with (length body) by (unfold zlen; lia). apply take_app_length.
Qed.
Lemma remote_input_packet_type ty body tail :
  is_u32 ty -> read_u32_le (remote_input_packet ty body ++ tail) 4 = Some ty.
Proof.
  intros Hty. unfold remote_input_packet. rewrite <- !app_assoc. apply read_u32_le_at; [|done].
  by rewrite zlen_to_be_bytes.
Qed.
Lemma remote_input_packet_type_of ty body : is_u32 ty -> read_u32_le (remote_input_packet ty body) 4 = Some ty.
Proof. intros Hty. rewrite <- (app_nil_r (remote_input_packet ty body)). by apply remote_input_packet_type. Qed.
Lemma zlen_remote_input_packet ty body : zlen (remote_input_packet ty body) = 8 + zlen body.
Proof. unfold remote_input_packet. autorewrite with zlens. lia. Qed.

Lemma drop_control_command code payload : drop 4 (control_command code payload) = payload.
Proof.
  unfold control_command. rewrite app_assoc. apply drop_app_length'.
  by rewrite length_app, !length_to_le_bytes.
Qed.

Lemma text_message_text chunk timestamp :
  zlen chunk <= 0x3f8 -> message_text (text_message chunk timestamp) = chunk.
Proof.
  intros Hc. pose proof (zlen_nonneg chunk). unfold message_text, text_message. cbn [bytes].
  rewrite drop_control_command. rewrite zlen_remote_input_packet.
  destruct (Z.ltb_spec (8 + zlen chunk) (0x7e * 8)) as [Hsmall|Hbig].
  - set (n := (8 + zlen chunk + 8) / 8 * 8 + 8).
    assert (Hn : 8 + zlen chunk <= n).
    { unfold n. pose proof (Z.div_mod (8 + zlen chunk + 8) 8). pose proof (Z.mod_pos_bound (8 + zlen chunk + 8) 8). lia. }
    set (pad := replicate (Z.to_nat n - length (remote_input_packet INPUT_TEXT chunk)) Byte.x00).
    assert (Hres : resize (remote_input_packet INPUT_TEXT chunk) n Byte.x00 = remote_input_packet INPUT_TEXT chunk ++ pad).
    { unfold resize. rewrite take_ge; [done|]. pose proof (zlen_remote_input_packet INPUT_TEXT chunk). unfold zlen in *. lia. }
    rewrite Hres.
    rewrite bool_decide_true by (apply remote_input_packet_type_of; split; reflexivity || discriminate). unfold remote_input_packet at 1. rewrite app_assoc.
    rewrite drop_app_length' by (by rewrite length_app, length_to_be_bytes, length_to_le_bytes).
    rewrite <- app_assoc. apply packet_text_packet. lia.
  - rewrite bool_decide_false by
      (rewrite remote_input_packet_type_of; [discriminate|split; reflexivity || discriminate]).
    rewrite <- (app_nil_r (remote_input_packet INPUT_TEXT chunk)). apply packet_text_packet. lia.
Qed.

Lemma back_to_boundary_spec fuel s e j :
  0 <= j <= e -> is_char_boundary s j = true -> e - j < Z.of_nat fuel ->
  exists b, back_to_boundary fuel s e = Ok b /\ j <= b <= e /\ is_char_boundary s b = true.
Proof.
  revert e. induction fuel as [|fuel IH]; intros e Hj Hb Hf; [lia|]. cbn [back_to_boundary].
  destruct (is_char_boundary s e) eqn:E; [exists e; split_and!; [done|lia|lia|done]|].
  assert (j <> e) by congruence. rewrite (proj2 (Z.eqb_neq e 0)) by lia.
  destruct (IH (e - 1)) as (b & -> & Hb1 & Hb2); [lia|done|lia|]. exists b. split_and!; [done|lia|lia|done].
Qed.

(** One message takes a non-empty prefix that ends at a boundary. *)
Lemma text_loop_spec fuel s timestamp messages :
  utf8 s -> (length s < fuel)%nat ->
  exists chunks, text_loop fuel s timestamp messages
      = Ok (messages ++ map (fun c => text_message c timestamp) chunks)
    /\ concat chunks = s
    /\ Forall (fun c => utf8 c /\ 0 < zlen c <= 0x3f8) chunks.
Proof.
  revert s messages. induction fuel as [|fuel IH]; intros s messages Hu Hf; [lia|]. cbn [text_loop].
  pose proof (zlen_nonneg s). destruct (Z.eqb_spec (zlen s) 0) as [Hz|Hz].
  { exists []. rewrite app_nil_r. split_and!; [done| |constructor]. destruct s; [done|]. rewrite zlen_cons in Hz.
    pose proof (zlen_nonneg s). lia. }
  set (e := Z.min (zlen s) 0x3f8).
  destruct (boundary_near s e Hu) as (j & Hj0 & Hj & Hjb); [unfold e; lia|].
  assert (Hpos : exists j', 0 < j' <= e /\ e - 3 <= j' /\ is_char_boundary s j' = true).
  { destruct (Z.eq_dec j 0) as [->|]; [|exists j; split_and!; try done; lia].
    exists e. split_and!; [unfold e; lia|lia|lia|].
    assert (e = zlen s) as -> by (unfold e in *; lia).
    unfold is_char_boundary. rewrite zget_lookup by lia. unfold zlen. rewrite Nat2Z.id, lookup_ge_None_2 by lia.
    rewrite Z.eqb_refl. apply orb_true_r. }
  clear j Hj0 Hj Hjb. destruct Hpos as (j & Hj & Hj3 & Hjb).
  destruct (back_to_boundary_spec (S (length s)) s e j) as (b & -> & Hb & Hbb); [lia|done|unfold e, zlen in *; lia|].
  obind. rewrite !slice_Ok by (unfold e in *; lia). obind.
  destruct (utf8_split s b Hu) as [Hu1 Hu2]; [unfold e in *; lia|done|].
  change (drop (Z.to_nat 0) s) with s. replace (Z.to_nat (b - 0)) with (Z.to_nat b) by lia.
  assert (Htail : take (Z.to_nat (zlen s - b)) (drop (Z.to_nat b) s) = drop (Z.to_nat b) s).
  { apply take_ge. rewrite length_drop. unfold zlen. lia. }
  rewrite Htail. destruct (IH (drop (Z.to_nat b) s) (messages ++ [text_message (take (Z.to_nat b) s) timestamp]))
    as (chunks & -> & Hconcat & Hall); [done|rewrite length_drop; unfold zlen in *; lia|].
  exists (take (Z.to_nat b) s :: chunks). split; [by rewrite <- app_assoc|]. cbn [concat].
  rewrite Hconcat. split; [apply take_drop|]. constructor; [|done]. split; [done|].
  unfold zlen. rewrite length_take. unfold e, zlen in *. lia.
Qed.

(** Pasted text arrives whole.  For any valid UTF-8 string the text is
    split, without running out or stepping outside the string, into reliable
    messages whose texts are non-empty, at most 1016 bytes, themselves valid
    UTF-8 (no character is cut), and which put together are the string. *)
Theorem pasted_text_arrives_whole s timestamp :
  utf8 s ->
  exists messages, unicode_text_messages s timestamp = Ok messages
    /\ text_of messages = s
    /\ Forall (fun m => route m = ControlReliable /\ utf8 (message_text m) /\ 0 < zlen (message_text m) <= 0x3f8) messages.
Proof.
  intros Hu. unfold unicode_text_messages.
  destruct (text_loop_spec (S (length s)) s timestamp [] Hu) as (chunks & -> & Hs & Hall); [lia|].
  eexists. split; [reflexivity|]. cbn [app]. unfold text_of. rewrite map_map.
  assert (Hmap : map (fun c => message_text (text_message c timestamp)) chunks = chunks).
  { clear Hs. induction Hall as [|c chunks [_ Hc] _ IH]; [done|]. cbn [map]. rewrite IH, text_message_text by lia. done. }
  rewrite Hmap. split; [done|]. apply Forall_map. refine (Forall_impl _ _ _ Hall _).
  intros c [Hc1 Hc2]. cbn. rewrite text_message_text by lia. done.
Qed.

Lemma pasted_text_arrives_whole_witness :
  let s := concat (replicate 600 (map z2b [0xc3; 0xa9])) in
  exists messages, unicode_text_messages s 5 = Ok messages /\ text_of messages = s /\ length messages = 2%nat.
Proof.
  intros s. destruct (pasted_text_arrives_whole s 5) as (messages & Hm & Ht & _).
  - apply from_utf8_utf8. eexists. vm_compute. reflexivity.
  - exists messages. split; [exact Hm|]. split; [exact Ht|]. 
    assert (H : fmap (M := outcome Empty_set) length (unicode_text_messages s 5) = Ok 2%nat) by (vm_compute; reflexivity).
    rewrite Hm in H. injection H as H. exact H.
Defined.
