(* ===== verification/InputCodec.v ===== *)
(** * The input codec and the input channels

    [NvstInputCodec] of nvst_input.rs turns the renderer's native events into
    the messages of the control and input channels and keeps the gamepad
    topology; [NvstInputChannelState] follows the handshake of the channels;
    [NvstInputChannels] writes within the budget of nvst_budget.rs. *)

From stdpp Require Import strings.
From S2P Require Import Prelude Control Text InputWire.

(** [!mask] on [u16]. *)
Definition not16 (mask : Z) : Z := Z.lxor mask U16_MAX.
(** [bitmap & (1 << id) != 0] *)
Definition has_slot (bitmap id : Z) : bool := negb (Z.land bitmap (Z.shiftl 1 id) =? 0).

(** ** Text as keystrokes *)

(** The ASCII tables of [text_keystroke]: shifted and unshifted keys. *)
Definition shifted_keys : list (Z * Z) :=
  [(33, 0x31); (64, 0x32); (35, 0x33); (36, 0x34); (37, 0x35); (94, 0x36); (38, 0x37); (42, 0x38); (40, 0x39);
   (41, 0x30); (95, 0xbd); (43, 0xbb); (123, 0xdb); (125, 0xdd); (124, 0xdc); (58, 0xba); (34, 0xde); (60, 0xbc);
   (62, 0xbe); (63, 0xbf); (126, 0xc0)].
Definition plain_keys : list (Z * Z) :=
  [(32, 0x20); (9, 0x09); (10, 0x0d); (13, 0x0d); (45, 0xbd); (61, 0xbb); (91, 0xdb); (93, 0xdd); (92, 0xdc);
   (59, 0xba); (39, 0xde); (44, 0xbc); (46, 0xbe); (47, 0xbf); (96, 0xc0)].
Definition key_of (keys : list (Z * Z)) (character : Z) : option Z :=
  snd <$> find (fun k => k.1 =? character) keys.

Definition text_keystroke (character : Z) : option (Z * Z) :=
  if (65 <=? character) && (character <=? 90) then Some (character, 1)
  else if (97 <=? character) && (character <=? 122) then Some (character - 32, 0)
  else if (48 <=? character) && (character <=? 57) then Some (character, 0)
  else match key_of shifted_keys character with
       | Some virtual_key => Some (virtual_key, 1)
       | None => (fun virtual_key => (virtual_key, 0)) <$> key_of plain_keys character
       end.

Definition keystroke_message (timestamp_us virtual_key modifiers input_type : Z)
    : outcome NvstInputCodecError NvstEncodedInput :=
  let body := resize (to_be_bytes 2 virtual_key ++ to_be_bytes 2 modifiers) 14 Byte.x00 in
  remote_input_message (remote_input_packet input_type body) timestamp_us.

Definition character_messages (timestamp_us : Z) (messages : list NvstEncodedInput) (character : Z)
    : outcome NvstInputCodecError (list NvstEncodedInput) :=
  '(virtual_key, modifiers) ← ok_or (text_keystroke character) UnsupportedText;
  down ← keystroke_message timestamp_us virtual_key modifiers INPUT_KEY_DOWN;
  up ← keystroke_message timestamp_us virtual_key modifiers INPUT_KEY_UP;
  mret (messages ++ [down; up]).

Definition text_messages (event : NativeEvent.t) : outcome NvstInputCodecError (list NvstEncodedInput) :=
  require_len (NativeEvent.bytes event) 5 "short text packet";;
  tail ← slice (NativeEvent.bytes event) 5 (zlen (NativeEvent.bytes event));
  text ← ok_or (from_utf8 tail) UnsupportedText;
  ofold (character_messages (NativeEvent.timestamp_us event)) text [].

(** ** The codec *)

Module NvstInputCodec.
Record t := {
  gamepad_sequences : list Z;
  gamepad_bitmap : option Z;
  rich_slot_mask : Z;
  last_gamepad_report : option (list u8)
}.
Definition default : t :=
  {| gamepad_sequences := [0; 0; 0; 0]; gamepad_bitmap := None; rich_slot_mask := 0; last_gamepad_report := None |}.
End NvstInputCodec.
Import NvstInputCodec (gamepad_sequences, gamepad_bitmap, rich_slot_mask, last_gamepad_report).
Abbreviation codec := NvstInputCodec.t.

(** Code that changes the codec and may fail: an error keeps the changes made
    before it. *)
Definition CodecM (A : Type) : Type := codec -> codec * outcome NvstInputCodecError A.
#[export] Instance codecM_ret : MRet CodecM := fun A a self => (self, Ok a).
#[export] Instance codecM_bind : MBind CodecM := fun A B f m self =>
  match m self with
  | (self, Ok a) => f a self
  | (self, Err e) => (self, Err e)
  | (self, Panic) => (self, Panic)
  end.
Definition lift {A} (m : outcome NvstInputCodecError A) : CodecM A := fun self => (self, m).
Definition get_codec : CodecM codec := fun self => (self, Ok self).
Definition modify (f : codec -> codec) : CodecM unit := fun self => (f self, Ok tt).

(** [gamepad_sequences.len()] *)
Definition GAMEPADS : Z := 4.

Definition neutral_report {E} (last_report : option (list u8)) (id previous timestamp_us : Z) : outcome E (list u8) :=
  neutral ← mret (default (zeroes 38) last_report);
  neutral ← set_slice neutral 6 8 (to_le_bytes 2 id);
  neutral ← set_slice neutral 8 10 (to_le_bytes 2 previous);
  neutral ← set_slice neutral 12 24 (zeroes 12);
  set_slice neutral 30 38 (to_be_bytes 8 timestamp_us).

Definition neutral_message (neutral : list u8) (timestamp_us : Z) : NvstEncodedInput :=
  {| route := ControlReliable;
     bytes := control_command COMMAND_GAMEPAD
       ([z2b 0x23] ++ to_be_bytes 8 timestamp_us ++ [z2b 0x22] ++ neutral) |}.

Definition retire_slot {E} (self : codec) (previous filtered timestamp_us : Z) (encoded : list NvstEncodedInput) (id : Z)
    : outcome E (list NvstEncodedInput) :=
  if has_slot previous id && negb (has_slot filtered id) then
    neutral ← neutral_report (last_gamepad_report self) id previous timestamp_us;
    mret (encoded ++ [neutral_message neutral timestamp_us])
  else mret encoded.

Definition reset_sequences (filtered : Z) (sequences : list Z) : list Z :=
  imap (fun id sequence => if has_slot filtered (Z.of_nat id) then sequence else 0) sequences.

Definition emit_topology_transition {E} (self : codec) (previous filtered timestamp_us : Z)
    (encoded : list NvstEncodedInput) : outcome E (codec * list NvstEncodedInput) :=
  encoded ← ofold (retire_slot self previous filtered timestamp_us) (zrange 4) encoded;
  descriptor ← device_descriptor timestamp_us filtered;
  mret ((self <| gamepad_sequences := reset_sequences filtered (gamepad_sequences self) |>)
             <| gamepad_bitmap := Some filtered |>,
        encoded ++ [{| route := ControlReliable; bytes := descriptor |}]).

Definition set_rich_slot_mask (self : codec) (mask timestamp_us : Z)
    : outcome NvstInputCodecError (codec * list NvstEncodedInput) :=
  if rich_slot_mask self =? mask then mret (self, []) else
  let self := self <| rich_slot_mask := mask |> in
  match gamepad_bitmap self with
  | None => mret (self, [])
  | Some previous =>
      let filtered := Z.land previous (not16 mask) in
      if negb (filtered =? previous) then emit_topology_transition self previous filtered timestamp_us []
      else mret (self, [])
  end.

(** The arms of the [match] of [encode]. *)
Definition key_message (input_type : Z) (event : NativeEvent.t) : outcome NvstInputCodecError NvstEncodedInput :=
  let bytes := NativeEvent.bytes event in
  require_len bytes 18 "short keyboard packet";;
  key ← expect (read_u16_be bytes 4);
  modifiers ← expect (read_u16_be bytes 6);
  let timestamp := default (NativeEvent.timestamp_us event) (read_u64_be bytes 10) in
  remote_input_message
    (remote_input_packet input_type
       ([z2b (Z.shiftr key 8); z2b key; z2b (Z.shiftr modifiers 8); z2b modifiers]
        ++ replicate 10 Byte.x00)) timestamp.

(** Relative motion and wheel: two deltas. *)
Definition delta_message (input_type : Z) (reason : string) (event : NativeEvent.t)
    : outcome NvstInputCodecError NvstEncodedInput :=
  let bytes := NativeEvent.bytes event in
  require_len bytes 22 reason;;
  b4 ← bytes.[4]; b5 ← bytes.[5]; b6 ← bytes.[6]; b7 ← bytes.[7];
  remote_input_message (remote_input_packet input_type [b4; b5; b6; b7; Byte.x00; Byte.x00])
    (default (NativeEvent.timestamp_us event) (read_u64_be bytes 14)).

Definition absolute_message (input_type : Z) (event : NativeEvent.t) : outcome NvstInputCodecError NvstEncodedInput :=
  let bytes := NativeEvent.bytes event in
  require_len bytes 26 "short absolute mouse packet";;
  b4 ← bytes.[4]; b5 ← bytes.[5]; b6 ← bytes.[6]; b7 ← bytes.[7];
  b10 ← bytes.[10]; b11 ← bytes.[11]; b12 ← bytes.[12]; b13 ← bytes.[13];
  remote_input_message
    (remote_input_packet input_type [b4; b5; b6; b7; Byte.x08; Byte.x00; b10; b11; b12; b13])
    (default (NativeEvent.timestamp_us event) (read_u64_be bytes 18)).

Definition button_message (input_type : Z) (event : NativeEvent.t) : outcome NvstInputCodecError NvstEncodedInput :=
  let bytes := NativeEvent.bytes event in
  require_len bytes 18 "short mouse button packet";;
  b4 ← bytes.[4];
  remote_input_message (remote_input_packet input_type [b4; Byte.x00])
    (default (NativeEvent.timestamp_us event) (read_u64_be bytes 10)).

Definition haptics_message (event : NativeEvent.t) : outcome NvstInputCodecError NvstEncodedInput :=
  let bytes := NativeEvent.bytes event in
  require_len bytes 6 "short haptics packet";;
  haptics_state (negb (default 0 (read_u16_be bytes 4) =? 0)) (NativeEvent.timestamp_us event).

Definition lock_keys_message (input_type : Z) (event : NativeEvent.t) : outcome NvstInputCodecError NvstEncodedInput :=
  let bytes := NativeEvent.bytes event in
  require_len bytes 5 "short lock-key sync packet";;
  b4 ← bytes.[4];
  remote_input_message (remote_input_packet input_type [b4]) (NativeEvent.timestamp_us event).

Definition gamepad_event (event : NativeEvent.t) (encoded : list NvstEncodedInput) : CodecM (list NvstEncodedInput) :=
  let bytes := NativeEvent.bytes event in
  lift (require_len bytes 38 "short gamepad packet");;
  let timestamp := default (NativeEvent.timestamp_us event) (read_u64_le bytes 30) in
  controller_id ← lift (ok_or (read_u16_le bytes 6) (Malformed "missing gamepad id"));
  lift (guard_err (GAMEPADS <=? controller_id) (Malformed "gamepad id is outside the supported range"));;
  bitmap ← lift (expect (read_u16_le bytes 8));
  report ← lift (slice bytes 0 38);
  modify (fun self => self <| last_gamepad_report := Some report |>);;
  self ← get_codec;
  let filtered := Z.land bitmap (not16 (rich_slot_mask self)) in
  encoded ←
    (if bool_decide (gamepad_bitmap self = Some filtered) then mret encoded
     else
       '(self, encoded) ← lift (emit_topology_transition self (default 0 (gamepad_bitmap self)) filtered timestamp encoded);
       modify (fun _ => self);;
       mret encoded);
  if negb (has_slot filtered controller_id) then mret encoded else
  self ← get_codec;
  sequence ← lift ((gamepad_sequences self).[controller_id]);
  sequences ← lift (set_idx (gamepad_sequences self) controller_id (as_u16 (sequence + 1)));
  modify (fun self => self <| gamepad_sequences := sequences |>);;
  message ← lift (gamepad_command bytes timestamp (as_u16 (sequence + 1)));
  mret (encoded ++ [{| route := InputPartial; bytes := message |}]).

Definition encode_event (event : NativeEvent.t) (encoded : list NvstEncodedInput) : CodecM (list NvstEncodedInput) :=
  let push (m : outcome NvstInputCodecError NvstEncodedInput) : CodecM (list NvstEncodedInput) :=
    message ← lift m; mret (encoded ++ [message]) in
  ty ← lift (ok_or (read_u32_le (NativeEvent.bytes event) 0) (Malformed "missing input type"));
  if ty =? INPUT_HEARTBEAT then mret encoded
  else if (ty =? INPUT_KEY_DOWN) || (ty =? INPUT_KEY_UP) then push (key_message ty event)
  else if ty =? INPUT_MOUSE_RELATIVE then push (delta_message ty "short relative mouse packet" event)
  else if ty =? INPUT_MOUSE_ABSOLUTE then push (absolute_message ty event)
  else if (ty =? INPUT_MOUSE_BUTTON_DOWN) || (ty =? INPUT_MOUSE_BUTTON_UP) then push (button_message ty event)
  else if ty =? INPUT_MOUSE_WHEEL then push (delta_message ty "short mouse wheel packet" event)
  else if ty =? INPUT_GAMEPAD then gamepad_event event encoded
  else if ty =? INPUT_HAPTICS_ENABLED then push (haptics_message event)
  else if ty =? INPUT_LOCK_KEYS_SYNC then push (lock_keys_message ty event)
  else if ty =? INPUT_TEXT then
    messages ← lift (text_messages event); mret (encoded ++ messages)
  else lift (Err (UnsupportedType ty)).

Fixpoint encode_events (events : list NativeEvent.t) (encoded : list NvstEncodedInput) : CodecM (list NvstEncodedInput) :=
  match events with
  | [] => mret encoded
  | event :: events => encoded ← encode_event event encoded; encode_events events encoded
  end.

Definition encode (packet : list u8) (fallback_timestamp_us : Z) : CodecM (list NvstEncodedInput) :=
  events ← lift (native_events packet fallback_timestamp_us);
  encode_events events [].

(** ** Messages are framed *)

Definition message_ok (m : NvstEncodedInput) : Prop :=
  exists code payload, bytes m = control_command code payload /\ zlen payload <= U16_MAX
    /\ (code = COMMAND_REMOTE_INPUT \/ code = COMMAND_GAMEPAD).

(** A fallible computation that cannot panic and whose values satisfy [Q]. *)
Definition yields {E A} (m : outcome E A) (Q : A -> Prop) : Prop :=
  m <> Panic /\ forall a, m = Ok a -> Q a.

Lemma yields_bind {E A B} (m : outcome E A) (f : A -> outcome E B) P Q :
  yields m P -> (forall a, P a -> yields (f a) Q) -> yields (m ≫= f) Q.
Proof.
  intros [Hm HP] Hf. split.
  - apply bind_no_panic; [done|]. intros a Ha. by apply Hf, HP.
  - intros b (a & Ha & Hb)%bind_Ok_inv. by apply (Hf a (HP a Ha)).
Qed.
Lemma yields_ret {E A} (a : A) (Q : A -> Prop) : Q a -> yields (mret a : outcome E A) Q.
Proof. intros HQ. split; [done|]. by intros b [= <-]. Qed.
Lemma yields_Err {E A} (e : E) (Q : A -> Prop) : yields (Err e) Q.
Proof. by split. Qed.
Lemma yields_guard {E A} c (e : E) (m : outcome E A) Q :
  (c = false -> yields m Q) -> yields (guard_err c e;; m) Q.
Proof. destruct c; intros H; [done|]. by apply H. Qed.
Lemma yields_idx {E A B} (l : list A) i (f : A -> outcome E B) Q :
  0 <= i < zlen l -> (forall x, yields (f x) Q) -> yields (x ← l.[i]; f x) Q.
Proof. intros Hi Hf. destruct (idx_Ok (E := E) l i Hi) as (x & -> & _). apply Hf. Qed.

Lemma remote_input_message_ok {E} ty body timestamp :
  is_u32 ty -> zlen body <= 32 ->
  exists m, remote_input_message (E := E) (remote_input_packet ty body) timestamp = Ok m
    /\ message_ok m /\ route m = message_route ty.
Proof.
  intros Hty Hb. pose proof (zlen_nonneg body). unfold remote_input_message.
  rewrite remote_input_packet_type_of by done. cbn [expect]. obind.
  eexists. split; [reflexivity|]. split; [|done]. do 2 eexists. split; [reflexivity|]. split; [|by left].
  rewrite zlen_remote_input_packet, zlen_app. unfold U16_MAX.
  assert (Hts : zlen (concat (replicate (timestamp_count ty) (to_le_bytes 8 timestamp))) <= 16).
  { unfold timestamp_count. destruct (_ || _); cbn [replicate concat]; autorewrite with zlens; lia. }
  assert (Hres : forall n, zlen (resize (remote_input_packet ty body) n Byte.x00) <= Z.max 0 n).
  { intros n. unfold resize, zlen. rewrite length_app, length_take, length_replicate. lia. }
  pose proof (Hres (Z.max 24 (div_ceil (zlen (remote_input_packet ty body)) 8 * 8))) as Hr.
  rewrite zlen_remote_input_packet in Hr |- *. pose proof (div_ceil_spec (8 + zlen body) 8). lia.
Qed.

Lemma yields_message {E} ty body timestamp :
  is_u32 ty -> zlen body <= 32 ->
  yields (remote_input_message (E := E) (remote_input_packet ty body) timestamp)
    (fun m => message_ok m /\ route m = message_route ty).
Proof.
  intros Hty Hb. destruct (remote_input_message_ok (E := E) ty body timestamp Hty Hb) as (m & -> & Hm).
  by apply yields_ret.
Qed.

Definition good (ty : Z) (m : outcome NvstInputCodecError NvstEncodedInput) : Prop :=
  yields m (fun m => message_ok m /\ route m = message_route ty).

Ltac good_index := repeat (apply yields_idx; [lia|intros ?x]).

Lemma key_message_good ty event : is_u32 ty -> good ty (key_message ty event).
Proof.
  intros Hty. unfold good, key_message, require_len. apply yields_guard. intros Hl. zbool.
  unfold read_u16_be. rewrite !zget_range_Some by lia. cbn [fmap option_fmap option_map expect]. obind.
  apply yields_message; [done|]. autorewrite with zlens. unfold zlen. rewrite length_replicate. lia.
Qed.
Lemma delta_message_good ty reason event : is_u32 ty -> good ty (delta_message ty reason event).
Proof.
  intros Hty. unfold good, delta_message, require_len. apply yields_guard. intros Hl. zbool.
  good_index. by apply yields_message.
Qed.
Lemma absolute_message_good ty event : is_u32 ty -> good ty (absolute_message ty event).
Proof.
  intros Hty. unfold good, absolute_message, require_len. apply yields_guard. intros Hl. zbool.
  good_index. by apply yields_message.
Qed.
Lemma button_message_good ty event : is_u32 ty -> good ty (button_message ty event).
Proof.
  intros Hty. unfold good, button_message, require_len. apply yields_guard. intros Hl. zbool.
  good_index. by apply yields_message.
Qed.
Lemma haptics_state_good {E} enabled timestamp :
  yields (haptics_state (E := E) enabled timestamp)
    (fun m => message_ok m /\ route m = message_route INPUT_HAPTICS_ENABLED).
Proof. unfold haptics_state. apply yields_message; [by split|by rewrite zlen_to_le_bytes]. Qed.
Lemma haptics_message_good event : good INPUT_HAPTICS_ENABLED (haptics_message event).
Proof. unfold good, haptics_message, require_len. apply yields_guard. intros _. apply haptics_state_good. Qed.
Lemma lock_keys_message_good ty event : is_u32 ty -> good ty (lock_keys_message ty event).
Proof.
  intros Hty. unfold good, lock_keys_message, require_len. apply yields_guard. intros Hl. zbool.
  good_index. by apply yields_message.
Qed.

Lemma yields_ofold {E S X} (f : S -> X -> outcome E S) (I : S -> Prop) xs s :
  (forall s x, I s -> yields (f s x) I) -> I s -> yields (ofold f xs s) I.
Proof.
  intros Hf. revert s. induction xs as [|x xs IH]; intros s Hs; cbn [ofold]; [by apply yields_ret|].
  apply (yields_bind _ _ I); [by apply Hf|]. intros s' Hs'. by apply IH.
Qed.

Definition reliable_messages (ms : list NvstEncodedInput) : Prop :=
  Forall (fun m => message_ok m /\ route m = ControlReliable) ms.

Lemma keystroke_message_good timestamp key mods ty :
  ty = INPUT_KEY_DOWN \/ ty = INPUT_KEY_UP ->
  yields (keystroke_message timestamp key mods ty) (fun m => message_ok m /\ route m = ControlReliable).
Proof.
  intros Hty. unfold keystroke_message.
  assert (Hr : message_route ty = ControlReliable) by (by destruct Hty as [->| ->]).
  rewrite <- Hr. apply yields_message; [by destruct Hty as [->| ->]|].
  unfold resize, zlen. rewrite length_app, length_take, length_replicate. autorewrite with lens. lia.
Qed.

Lemma character_messages_good timestamp ms c :
  reliable_messages ms -> yields (character_messages timestamp ms c) reliable_messages.
Proof.
  intros Hms. unfold character_messages. destruct (text_keystroke c) as [[key mods]|]; [|exact (yields_Err _ _)].
  rewrite ok_or_Some, bind_Ok.
  apply (yields_bind _ _ _ _ (keystroke_message_good _ _ _ _ (or_introl eq_refl))). intros down Hd.
  apply (yields_bind _ _ _ _ (keystroke_message_good _ _ _ _ (or_intror eq_refl))). intros up Hup.
  apply yields_ret. apply Forall_app. split; [done|]. apply Forall_cons. split; [done|]. by apply Forall_singleton.
Qed.

Lemma text_messages_good event : yields (text_messages event) reliable_messages.
Proof.
  unfold text_messages, require_len. apply yields_guard. intros Hl. zbool.
  rewrite slice_Ok by lia. obind. destruct (from_utf8 _) as [text|]; [|exact (yields_Err _ _)]. obind.
  apply yields_ofold; [|constructor]. intros ms c. apply character_messages_good.
Qed.

(** ** Gamepad topology *)

Lemma has_slot_testbit bitmap id : 0 <= id -> has_slot bitmap id = Z.testbit bitmap id.
Proof.
  intros Hid. unfold has_slot. destruct (Z.eqb_spec (Z.land bitmap (Z.shiftl 1 id)) 0) as [Hz|Hz]; cbn [negb].
  - assert (Hb : Z.testbit (Z.land bitmap (Z.shiftl 1 id)) id = false) by (rewrite Hz; apply Z.bits_0).
    rewrite Z.land_spec, Z.shiftl_1_l, Z.pow2_bits_true, andb_true_r in Hb by done. done.
  - destruct (Z.testbit bitmap id) eqn:E; [done|]. exfalso. apply Hz. apply Z.bits_inj_0. intros n.
    rewrite Z.land_spec, Z.shiftl_1_l. destruct (Z.ltb_spec n 0); [by rewrite Z.testbit_neg_r|].
    rewrite Z.pow2_bits_eqb by done. destruct (Z.eqb_spec id n) as [->|]; [by rewrite E|apply andb_false_r].
Qed.

(** The rich slots are the mask's; a filtered bitmap has none of them. *)
Lemma filtered_slot bitmap mask id :
  is_u16 mask -> 0 <= id < 16 -> has_slot (Z.land bitmap (not16 mask)) id = has_slot bitmap id && negb (has_slot mask id).
Proof.
  intros Hm Hid. rewrite !has_slot_testbit, Z.land_spec by lia. f_equal. unfold not16. rewrite Z.lxor_spec.
  change U16_MAX with (Z.ones 16). rewrite Z.ones_spec_low by lia. by destruct (Z.testbit mask id).
Qed.
Lemma filtered_u16 bitmap mask : is_u16 bitmap -> is_u16 (Z.land bitmap mask).
Proof.
  unfold is_u16. intros Hb. rewrite <- (Z.mod_small bitmap (2 ^ 16)), <- Z.land_ones by lia.
  rewrite <- Z.land_assoc, (Z.land_comm (Z.ones 16)), Z.land_assoc, Z.land_ones by lia.
  by apply Z.mod_pos_bound.
Qed.

(** The neutral report of a pad that left: its id and the previous topology,
    every button, trigger and axis at rest, the time of the change. *)
Definition is_neutral (id previous timestamp_us : Z) (report : list u8) : Prop :=
  zlen report = 38
  /\ has_fields report [(6, 2%nat, id); (8, 2%nat, previous); (12, 12%nat, 0);
       (30, 8%nat, from_le_bytes (to_be_bytes 8 timestamp_us))].

Lemma neutral_report_spec {E} last id previous timestamp_us :
  (forall r, last = Some r -> zlen r = 38) -> is_u16 id -> is_u16 previous ->
  exists report, neutral_report (E := E) last id previous timestamp_us = Ok report
    /\ is_neutral id previous timestamp_us report.
Proof.
  intros Hlast Hid Hprev. unfold neutral_report. obind.
  assert (H0 : zlen (default (zeroes 38) last) = 38).
  { destruct last as [r|]; [by apply Hlast|by apply zlen_zeroes]. }
  set (r0 := default (zeroes 38) last) in *. clearbody r0.
  assert (Hset : forall p o n v, 0 <= o -> o + Z.of_nat n <= zlen p -> 0 <= v < 256 ^ Z.of_nat n ->
    exists p', set_slice (E := E) p o (o + Z.of_nat n) (to_le_bytes n v) = Ok p' /\ zlen p' = zlen p
      /\ field p' o n = v
      /\ forall o' n', 0 <= o' -> o' + Z.of_nat n' <= zlen p -> o' + Z.of_nat n' <= o \/ o + Z.of_nat n <= o' ->
           field p' o' n' = field p o' n').
  { intros p o n v Ho Hl Hv. pose proof (zlen_to_le_bytes n v) as Hz.
    exists (splice p o (to_le_bytes n v)). split; [by rewrite set_slice_Ok by lia|].
    split; [by rewrite zlen_splice by lia|]. split; [by apply field_splice_same|].
    intros o' n' Ho' Hl' Hd. apply field_splice_other; lia. }
  unfold is_u16 in *.
  destruct (Hset r0 6 2%nat id) as (r1 & Hr1 & Hl1 & Hf1 & Hk1); [lia|lia|lia|].
  change (6 + Z.of_nat 2) with 8 in *. rewrite Hr1. obind.
  destruct (Hset r1 8 2%nat previous) as (r2 & Hr2 & Hl2 & Hf2 & Hk2); [lia|lia|lia|].
  change (8 + Z.of_nat 2) with 10 in *. rewrite Hr2. obind.
  destruct (Hset r2 12 12%nat 0) as (r3 & Hr3 & Hl3 & Hf3 & Hk3); [lia|lia|lia|].
  change (to_le_bytes 12 0) with (zeroes 12) in Hr3. change (12 + Z.of_nat 12) with 24 in *. rewrite Hr3. obind.
  set (ts := to_be_bytes 8 timestamp_us).
  destruct (Hset r3 30 8%nat (from_le_bytes ts)) as (r4 & Hr4 & Hl4 & Hf4 & Hk4); [lia|lia| |].
  { pose proof (from_le_bytes_range ts) as Hr. unfold ts in *. by rewrite length_to_be_bytes in Hr. }
  change 8%nat with (length ts) in Hr4 at 2. rewrite to_from_le_bytes in Hr4.
  change (30 + Z.of_nat 8) with 38 in *. rewrite Hr4.
  exists r4. split; [done|]. split; [lia|]. unfold has_fields.
  repeat (apply Forall_cons; split; [cbn [fst snd]|]); [..|apply Forall_nil_2];
    rewrite ?Hf4, ?Hk4, ?Hf3, ?Hk3, ?Hf2, ?Hk2, ?Hf1 by lia; done.
Qed.

Lemma Ok_transport {E F A} (x y : A) : (Ok x : outcome E A) = Ok y -> (Ok x : outcome F A) = Ok y.
Proof. intros [= ->]. done. Qed.

(** The pads a transition takes away. *)
Definition lost_slots (previous filtered : Z) : list Z :=
  List.filter (fun id => has_slot previous id && negb (has_slot filtered id)) (zrange 4).

(** What a transition announces: a neutral report per lost pad, then the new
    topology. *)
Definition announces (previous filtered timestamp_us : Z) (messages : list NvstEncodedInput) : Prop :=
  exists reports descriptor,
    messages = map (fun r => neutral_message r timestamp_us) reports
               ++ [{| route := ControlReliable; bytes := descriptor |}]
    /\ Forall2 (fun id r => is_neutral id previous timestamp_us r) (lost_slots previous filtered) reports
    /\ device_descriptor (E := NvstInputCodecError) timestamp_us filtered = Ok descriptor.

Definition after_transition (self : codec) (filtered : Z) : codec :=
  (self <| gamepad_sequences := reset_sequences filtered (gamepad_sequences self) |>)
       <| gamepad_bitmap := Some filtered |>.

Lemma device_descriptor_Ok {E} timestamp bitmap :
  exists body, device_descriptor (E := E) timestamp bitmap
      = Ok (control_command COMMAND_GAMEPAD ([z2b 0x23] ++ to_be_bytes 8 timestamp ++ body))
    /\ zlen body = 39.
Proof.
  unfold device_descriptor. assert (Hl : zlen device_descriptor_body = 39) by reflexivity.
  rewrite set_slice_Ok by (rewrite ?zlen_to_le_bytes; lia). obind. eexists. split; [done|].
  rewrite zlen_splice; rewrite ?zlen_to_le_bytes; lia.
Qed.

Lemma retire_slot_spec {E} self previous filtered timestamp encoded id :
  (forall r, last_gamepad_report self = Some r -> zlen r = 38) -> is_u16 previous -> is_u16 id ->
  if has_slot previous id && negb (has_slot filtered id)
  then exists r, retire_slot (E := E) self previous filtered timestamp encoded id
      = Ok (encoded ++ [neutral_message r timestamp]) /\ is_neutral id previous timestamp r
  else retire_slot (E := E) self previous filtered timestamp encoded id = Ok encoded.
Proof.
  intros Hlast Hprev Hid. unfold retire_slot. destruct (_ && _); [|done].
  destruct (neutral_report_spec (E := E) (last_gamepad_report self) id previous timestamp Hlast Hid Hprev)
    as (r & -> & Hr). by exists r.
Qed.

Lemma emit_topology_transition_spec {E} self previous filtered timestamp encoded :
  (forall r, last_gamepad_report self = Some r -> zlen r = 38) -> is_u16 previous ->
  exists messages, emit_topology_transition (E := E) self previous filtered timestamp encoded
      = Ok (after_transition self filtered, encoded ++ messages)
    /\ announces previous filtered timestamp messages.
Proof.
  intros Hlast Hprev. unfold emit_topology_transition.
  assert (Hloop : forall ids encoded, Forall is_u16 ids ->
    exists reports, ofold (E := E) (retire_slot self previous filtered timestamp) ids encoded
      = Ok (encoded ++ map (fun r => neutral_message r timestamp) reports)
      /\ Forall2 (fun id r => is_neutral id previous timestamp r)
           (List.filter (fun id => has_slot previous id && negb (has_slot filtered id)) ids) reports).
  { intros ids. induction ids as [|id ids IH]; intros enc Hids; cbn [ofold List.filter].
    - exists []. rewrite app_nil_r. split; [done|constructor].
    - apply Forall_cons in Hids as [Hid Hids].
      pose proof (retire_slot_spec (E := E) self previous filtered timestamp enc id Hlast Hprev Hid) as Hs.
      destruct (has_slot previous id && negb (has_slot filtered id)).
      + destruct Hs as (r & -> & Hr). obind.
        destruct (IH (enc ++ [neutral_message r timestamp]) Hids) as (rs & -> & Hrs).
        exists (r :: rs). rewrite <- app_assoc. split; [done|by constructor].
      + rewrite Hs. obind. by apply IH. }
  destruct (Hloop (zrange 4) encoded) as (reports & -> & Hreports).
  { repeat (apply Forall_cons; split; [by split|]). apply Forall_nil_2. }
  obind. destruct (device_descriptor_Ok (E := E) timestamp filtered) as (body & Hd & Hbody). rewrite Hd. obind.
  eexists. split; [rewrite <- app_assoc; reflexivity|].
  exists reports. eexists. split; [reflexivity|]. split; [done|].
  revert Hd. unfold device_descriptor.
  rewrite !set_slice_Ok by (rewrite ?zlen_to_le_bytes; change (zlen device_descriptor_body) with 39; lia).
  obind. apply Ok_transport.
Qed.

Lemma announces_ok previous filtered timestamp messages :
  announces previous filtered timestamp messages ->
  Forall (fun m => message_ok m /\ route m = ControlReliable) messages.
Proof.
  intros (reports & descriptor & -> & Hreports & Hd). apply Forall_app. split.
  - apply Forall_map. apply Forall_forall. intros r Hr.
    assert (Hlen : zlen r = 38).
    { clear Hd. induction Hreports as [|id r' ids rs [Hr' _] _ IH]; [by apply elem_of_nil in Hr|].
      apply elem_of_cons in Hr as [->|Hr]; [done|by apply IH]. }
    cbn. split; [|done]. do 2 eexists. split; [reflexivity|]. split; [|by right].
    autorewrite with zlens. unfold U16_MAX. lia.
  - apply Forall_singleton. split; [|done].
    destruct (device_descriptor_Ok (E := NvstInputCodecError) timestamp filtered) as (body & Hd' & Hbody).
    rewrite Hd in Hd'. injection Hd' as ->. do 2 eexists. split; [reflexivity|]. split; [|by right].
    autorewrite with zlens. unfold U16_MAX. lia.
Qed.

(** ** The codec's invariant *)

Record codec_wf (self : codec) : Prop := {
  cw_length : length (gamepad_sequences self) = 4%nat;
  cw_sequences : Forall is_u16 (gamepad_sequences self);
  cw_mask : is_u16 (rich_slot_mask self);
  cw_report r : last_gamepad_report self = Some r -> zlen r = 38;
  cw_bitmap b : gamepad_bitmap self = Some b -> is_u16 b;
  (** a pad handled as a rich controller is not announced as a gamepad *)
  cw_rich b id : gamepad_bitmap self = Some b -> 0 <= id < GAMEPADS ->
    has_slot b id = true -> has_slot (rich_slot_mask self) id = false;
  (** a pad that is not there starts again at sequence zero *)
  cw_absent id : 0 <= id < GAMEPADS -> has_slot (default 0 (gamepad_bitmap self)) id = false ->
    gamepad_sequences self !! Z.to_nat id = Some 0
}.

Lemma default_wf : codec_wf NvstInputCodec.default.
Proof.
  constructor; cbn; try done.
  - repeat (apply Forall_cons; split; [by split|]). apply Forall_nil_2.
  - intros id Hid _. unfold GAMEPADS in Hid.
    assert (Hc : id = 0 \/ id = 1 \/ id = 2 \/ id = 3) by lia. by destruct Hc as [->|[->|[->| ->]]].
Qed.

Lemma lookup_reset filtered sequences i :
  reset_sequences filtered sequences !! i = (fun s => if has_slot filtered (Z.of_nat i) then s else 0) <$> sequences !! i.
Proof. unfold reset_sequences. by rewrite list_lookup_imap. Qed.

Arguments reset_sequences : simpl never.

(** A transition to a bitmap filtered by the new mask. *)
Lemma after_transition_wf_gen self mask bitmap :
  codec_wf self -> is_u16 mask -> is_u16 bitmap ->
  codec_wf (after_transition (self <| rich_slot_mask := mask |>) (Z.land bitmap (not16 mask))).
Proof.
  intros [] Hm Hb. set (f := Z.land bitmap _). unfold after_transition.
  constructor; cbn; unfold const; cbn.
  - unfold reset_sequences. by rewrite length_imap.
  - apply Forall_lookup. intros i s. rewrite lookup_reset. intros Hs. apply fmap_Some in Hs as (s' & Hs' & ->).
    destruct (has_slot f _); [|by split]. rewrite Forall_lookup in cw_sequences0. by apply (cw_sequences0 i).
  - done.
  - done.
  - intros b [= <-]. by apply filtered_u16.
  - intros b id [= <-] Hid Hs. unfold f, GAMEPADS in *. rewrite filtered_slot in Hs by (done || lia).
    apply andb_true_iff in Hs as [_ Hs]. by apply negb_true_iff.
  - intros id Hid Hs. rewrite lookup_reset. rewrite Z2Nat.id by lia. rewrite Hs.
    destruct (lookup_lt_is_Some_2 (gamepad_sequences self) (Z.to_nat id)) as [s ->]; [unfold GAMEPADS in *; lia|done].
Qed.

(** Hiding the rich pads: those that were announced are taken away. *)
Lemma set_rich_slot_mask_spec self mask timestamp :
  codec_wf self -> is_u16 mask ->
  exists self' messages, set_rich_slot_mask self mask timestamp = Ok (self', messages)
    /\ codec_wf self' /\ rich_slot_mask self' = mask
    /\ match gamepad_bitmap self with
       | None => gamepad_bitmap self' = None /\ messages = []
       | Some previous =>
           (forall id, 0 <= id < GAMEPADS ->
              has_slot (default 0 (gamepad_bitmap self')) id = has_slot previous id && negb (has_slot mask id))
           /\ (messages = [] /\ gamepad_bitmap self' = Some previous
               \/ exists filtered, gamepad_bitmap self' = Some filtered /\ announces previous filtered timestamp messages)
       end.
Proof.
  intros Hwf Hmask. unfold set_rich_slot_mask.
  destruct (Z.eqb_spec (rich_slot_mask self) mask) as [He|He].
  { exists self, []. split_and!; [done|done|done|]. destruct (gamepad_bitmap self) as [b|] eqn:Eb; [|done].
    split; [|by left]. intros id Hid. change (default 0 (Some b)) with b.
    destruct (has_slot b id) eqn:Es; [|done]. subst mask. by rewrite (cw_rich self Hwf b id Eb Hid Es). }
  assert (Hset : codec_wf self -> (forall b id, gamepad_bitmap self = Some b -> 0 <= id < GAMEPADS ->
    has_slot b id = true -> has_slot mask id = false) -> codec_wf (self <| rich_slot_mask := mask |>)).
  { intros [] Hr. by constructor. }
  change (gamepad_bitmap (self <| rich_slot_mask := mask |>)) with (gamepad_bitmap self).
  destruct (gamepad_bitmap self) as [previous|] eqn:Eb.
  2:{ exists (self <| rich_slot_mask := mask |>), []. split_and!; [done|apply Hset; [done|by intros]|done|done|done]. }
  pose proof (cw_bitmap self Hwf previous Eb) as Hprev.
  assert (Hfilter : forall id, 0 <= id < GAMEPADS ->
    has_slot (Z.land previous (not16 mask)) id = has_slot previous id && negb (has_slot mask id)).
  { intros id Hid. apply filtered_slot; [done|unfold GAMEPADS in *; lia]. }
  destruct (Z.eqb_spec (Z.land previous (not16 mask)) previous) as [Hsame|Hdiff]; cbn [negb].
  - exists (self <| rich_slot_mask := mask |>), []. split_and!; [done| |done| |by left].
    + apply Hset; [done|]. intros b id [= <-] Hid Hs. rewrite <- Hsame, Hfilter in Hs by done.
      apply andb_true_iff in Hs as [_ Hs]. by apply negb_true_iff.
    + intros id Hid. cbn. rewrite Eb. change (default 0 (Some previous)) with previous. by rewrite <- Hfilter, Hsame.
  - destruct (emit_topology_transition_spec (E := NvstInputCodecError) (self <| rich_slot_mask := mask |>)
      previous (Z.land previous (not16 mask)) timestamp []) as (messages & -> & Hann);
      [exact (cw_report self Hwf)|done|].
    eexists _, messages. split; [reflexivity|]. split.
    + apply (after_transition_wf_gen self mask previous Hwf Hmask Hprev).
    + split; [done|]. split; [intros id Hid; cbn; by apply Hfilter|]. right. by eexists.
Qed.

(** ** A gamepad report *)

Lemma lift_bind {A B} (a : A) (f : A -> CodecM B) self : (lift (Ok a) ≫= f) self = f a self.
Proof. done. Qed.
Lemma modify_bind {B} g (f : unit -> CodecM B) self : (modify g ≫= f) self = f tt (g self).
Proof. done. Qed.
Lemma get_bind {B} (f : codec -> CodecM B) self : (get_codec ≫= f) self = f self self.
Proof. done. Qed.
Lemma ret_bind {A B} (a : A) (f : A -> CodecM B) self : (mret a ≫= f) self = f a self.
Proof. done. Qed.
Lemma step_bind {A B} (m : CodecM A) (f : A -> CodecM B) self self' a :
  m self = (self', Ok a) -> (m ≫= f) self = f a self'.
Proof. intros H. unfold mbind, codecM_bind. by rewrite H. Qed.

(** The transition of a report, if its topology is new. *)
Definition report_transition (self : codec) (filtered timestamp_us : Z) (encoded : list NvstEncodedInput)
    : CodecM (list NvstEncodedInput) :=
  if bool_decide (gamepad_bitmap self = Some filtered) then mret encoded
  else
    '(self, encoded) ← lift (emit_topology_transition self (default 0 (gamepad_bitmap self)) filtered timestamp_us encoded);
    modify (fun _ => self);;
    mret encoded.

Lemma report_transition_spec self bitmap timestamp encoded :
  codec_wf self -> is_u16 bitmap ->
  let filtered := Z.land bitmap (not16 (rich_slot_mask self)) in
  exists self' messages, report_transition self filtered timestamp encoded self = (self', Ok (encoded ++ messages))
    /\ codec_wf self' /\ gamepad_bitmap self' = Some filtered /\ rich_slot_mask self' = rich_slot_mask self
    /\ (if bool_decide (gamepad_bitmap self = Some filtered) then messages = []
        else announces (default 0 (gamepad_bitmap self)) filtered timestamp messages)
    /\ forall id, 0 <= id < GAMEPADS -> has_slot filtered id = true ->
         gamepad_sequences self' !! Z.to_nat id = gamepad_sequences self !! Z.to_nat id.
Proof.
  intros Hwf Hb filtered. unfold report_transition. destruct (decide (gamepad_bitmap self = Some filtered)) as [He|He].
  - rewrite bool_decide_true by done. exists self, []. rewrite app_nil_r. by split_and!.
  - rewrite bool_decide_false by done.
    assert (Hprev : is_u16 (default 0 (gamepad_bitmap self))).
    { destruct (gamepad_bitmap self) as [b|] eqn:Eb; [by apply (cw_bitmap self Hwf)|by split]. }
    destruct (emit_topology_transition_spec (E := NvstInputCodecError) self (default 0 (gamepad_bitmap self)) filtered
      timestamp encoded (cw_report self Hwf) Hprev) as (messages & -> & Hann).
    rewrite lift_bind. cbv beta iota. rewrite modify_bind. eexists _, messages. split; [reflexivity|].
    split.
    { assert (Hself : self = self <| rich_slot_mask := rich_slot_mask self |>) by by destruct self.
      pose proof (after_transition_wf_gen self (rich_slot_mask self) bitmap Hwf (cw_mask self Hwf) Hb) as H.
      by rewrite <- Hself in H. }
    split; [done|]. split; [done|]. split; [done|].
    intros id Hid Hs. change (gamepad_sequences (after_transition self filtered))
      with (reset_sequences filtered (gamepad_sequences self)).
    rewrite lookup_reset, Z2Nat.id, Hs by lia. by destruct (gamepad_sequences self !! Z.to_nat id).
Qed.

Lemma sequence_wf self id s :
  codec_wf self -> 0 <= id < GAMEPADS -> is_u16 s -> has_slot (default 0 (gamepad_bitmap self)) id = true ->
  codec_wf (self <| gamepad_sequences := <[Z.to_nat id := s]> (gamepad_sequences self) |>).
Proof.
  intros [] Hid Hs Hslot. constructor; cbn; unfold const; try done.
  - by rewrite length_insert.
  - by apply Forall_insert.
  - intros j Hj Hjs. rewrite list_lookup_insert_ne; [by apply cw_absent0|].
    intros He. assert (j = id) by lia. congruence.
Qed.
Lemma last_report_wf self report :
  codec_wf self -> zlen report = 38 -> codec_wf (self <| last_gamepad_report := Some report |>).
Proof. intros [] Hl. constructor; cbn; try done. by intros r [= <-]. Qed.

Lemma gamepad_command_Ok {E} packet timestamp sequence :
  38 <= zlen packet ->
  exists payload, gamepad_command (E := E) packet timestamp sequence = Ok (control_command COMMAND_GAMEPAD payload)
    /\ zlen payload = 54.
Proof.
  intros Hl. unfold gamepad_command. step_idx. rewrite slice_Ok by lia. obind. eexists. split; [done|].
  autorewrite with zlens. unfold zlen in *. rewrite length_take, length_drop. lia.
Qed.

(** The whole arm of [encode] on a well-formed report. *)
Lemma gamepad_event_spec self event encoded controller bitmap :
  codec_wf self -> 38 <= zlen (NativeEvent.bytes event) ->
  read_u16_le (NativeEvent.bytes event) 6 = Some controller -> 0 <= controller < GAMEPADS ->
  read_u16_le (NativeEvent.bytes event) 8 = Some bitmap -> is_u16 bitmap ->
  let timestamp := default (NativeEvent.timestamp_us event) (read_u64_le (NativeEvent.bytes event) 30) in
  let filtered := Z.land bitmap (not16 (rich_slot_mask self)) in
  exists self' transition report,
    gamepad_event event encoded self = (self', Ok (encoded ++ transition ++ report))
    /\ codec_wf self' /\ gamepad_bitmap self' = Some filtered /\ rich_slot_mask self' = rich_slot_mask self
    /\ (if bool_decide (gamepad_bitmap self = Some filtered) then transition = []
        else announces (default 0 (gamepad_bitmap self)) filtered timestamp transition)
    /\ if has_slot filtered controller
       then exists sequence message, gamepad_sequences self !! Z.to_nat controller = Some sequence
              /\ gamepad_sequences self' !! Z.to_nat controller = Some (as_u16 (sequence + 1))
              /\ gamepad_command (E := NvstInputCodecError) (NativeEvent.bytes event) timestamp (as_u16 (sequence + 1))
                 = Ok message
              /\ report = [{| route := InputPartial; bytes := message |}]
       else report = [].
Proof.
  intros Hwf Hl Hid Hidr Hbm Hb timestamp filtered. unfold gamepad_event, require_len, guard_err.
  fold timestamp. rewrite (proj2 (Z.ltb_ge _ _)) by done. rewrite lift_bind, Hid. cbn [ok_or].
  rewrite lift_bind, (proj2 (Z.leb_gt _ _)) by lia. rewrite !lift_bind, Hbm. cbn [expect].
  rewrite lift_bind, slice_Ok by lia. rewrite lift_bind, modify_bind, get_bind.
  set (self1 := self <| last_gamepad_report := _ |>).
  assert (Hwf1 : codec_wf self1).
  { apply last_report_wf; [done|]. unfold zlen in *. rewrite length_take, length_drop. lia. }
  change (rich_slot_mask self1) with (rich_slot_mask self). fold filtered.
  destruct (report_transition_spec self1 bitmap timestamp encoded Hwf1 Hb)
    as (self2 & transition & Htr & Hwf2 & Hbm2 & Hmask2 & Hann & Hseq).
  change (rich_slot_mask self1) with (rich_slot_mask self) in *. fold filtered in Htr, Hbm2, Hann, Hseq.
  rewrite (step_bind _ _ _ _ _ Htr). cbv beta.
  destruct (has_slot filtered controller) eqn:Hslot; cbn [negb].
  - rewrite get_bind. specialize (Hseq controller Hidr Hslot).
    pose proof (cw_length self2 Hwf2) as Hlen2. unfold GAMEPADS in Hidr.
    assert (Hz : 0 <= controller < zlen (gamepad_sequences self2)) by (unfold zlen; lia).
    destruct (idx_Ok (E := NvstInputCodecError) (gamepad_sequences self2) controller Hz) as (sequence & -> & Hs).
    rewrite zget_lookup in Hs by lia. rewrite lift_bind, set_idx_Ok by done. rewrite lift_bind, modify_bind.
    destruct (gamepad_command_Ok (E := NvstInputCodecError) (NativeEvent.bytes event) timestamp (as_u16 (sequence + 1)) Hl)
      as (payload & Hcmd & _). rewrite Hcmd, lift_bind.
    eexists _, transition, [_]. split; [rewrite <- app_assoc; reflexivity|].
    split; [apply sequence_wf; [done|done|apply as_u16_range|by rewrite Hbm2]|].
    split; [done|]. split; [done|]. split; [exact Hann|].
    exists sequence, (control_command COMMAND_GAMEPAD payload). rewrite Hseq in Hs. split; [exact Hs|].
    split; [|by split]. cbn. unfold const. rewrite list_lookup_insert_eq; [done|]. lia.
  - eexists self2, transition, []. rewrite app_nil_r. split; [reflexivity|]. by split_and!.
Qed.

(** ** Running the codec *)

Definition push_message (encoded : list NvstEncodedInput) (m : outcome NvstInputCodecError NvstEncodedInput)
    : CodecM (list NvstEncodedInput) := message ← lift m; mret (encoded ++ [message]).

(** What one event may do: keep the invariant, and add framed messages. *)
Definition adds_messages (encoded : list NvstEncodedInput) (m : CodecM (list NvstEncodedInput)) : Prop :=
  forall self, codec_wf self ->
    codec_wf (m self).1 /\ (m self).2 <> Panic
    /\ forall ms, (m self).2 = Ok ms -> exists new, ms = encoded ++ new /\ Forall message_ok new.

Lemma adds_nothing encoded : adds_messages encoded (mret encoded).
Proof. intros self Hwf. split_and!; [done|done|]. intros ms [= <-]. exists []. by rewrite app_nil_r. Qed.
Lemma adds_error encoded e : adds_messages encoded (lift (Err e)).
Proof. intros self Hwf. by split_and!. Qed.
Lemma adds_lift encoded m :
  yields m (Forall message_ok) -> adds_messages encoded (messages ← lift m; mret (encoded ++ messages)).
Proof.
  intros [Hp Hq] self Hwf. destruct m as [ms|e|]; [|by split_and!|done].
  split_and!; [done|done|]. intros ms' [= <-]. exists ms. split; [done|]. by apply Hq.
Qed.
Lemma adds_push encoded ty m : good ty m -> adds_messages encoded (push_message encoded m).
Proof.
  intros [Hp Hq] self Hwf. destruct m as [msg|e|]; [|by split_and!|done].
  split_and!; [done|done|]. intros ms' [= <-]. exists [msg]. split; [done|]. apply Forall_singleton.
  by apply (Hq msg).
Qed.

Lemma read_u16_le_Some bytes offset : 0 <= offset -> offset + 2 <= zlen bytes ->
  exists v, read_u16_le bytes offset = Some v /\ is_u16 v.
Proof.
  intros H0 H2. unfold read_u16_le. rewrite zget_range_Some by lia. eexists. split; [reflexivity|].
  pose proof (from_le_bytes_range (take (Z.to_nat (offset + 2 - offset)) (drop (Z.to_nat offset) bytes))) as Hr.
  unfold is_u16, zlen in *. rewrite length_take, length_drop in Hr.
  replace (_ `min` _)%nat with 2%nat in Hr by lia. exact Hr.
Qed.

Lemma adds_gamepad event encoded : adds_messages encoded (gamepad_event event encoded).
Proof.
  intros self Hwf. destruct (Z.ltb_spec (zlen (NativeEvent.bytes event)) 38) as [Hs|Hl].
  { assert (H : gamepad_event event encoded self = (self, Err (Malformed "short gamepad packet"))).
    { unfold gamepad_event, require_len, guard_err. by rewrite (proj2 (Z.ltb_lt _ _)) by done. }
    rewrite H. by split_and!. }
  destruct (read_u16_le_Some (NativeEvent.bytes event) 6) as (id & Hid & Hidr); [lia|lia|].
  destruct (read_u16_le_Some (NativeEvent.bytes event) 8) as (bitmap & Hb & Hbr); [lia|lia|]. unfold is_u16 in Hidr.
  destruct (Z.ltb_spec id GAMEPADS) as [Hlt|Hge].
  - destruct (gamepad_event_spec self event encoded id bitmap Hwf Hl Hid ltac:(lia) Hb Hbr)
      as (self' & transition & report & -> & Hwf' & _ & _ & Hann & Hrep). cbn [fst snd].
    split_and!; [done|done|]. intros ms [= <-]. exists (transition ++ report). split; [done|]. apply Forall_app. split.
    + destruct (bool_decide _); [by rewrite Hann|]. apply announces_ok in Hann.
      refine (Forall_impl _ _ _ Hann _). by intros m [].
    + destruct (has_slot _ id); [|by rewrite Hrep]. destruct Hrep as (s & message & _ & _ & Hcmd & ->).
      destruct (gamepad_command_Ok (E := NvstInputCodecError) (NativeEvent.bytes event)
        (default (NativeEvent.timestamp_us event) (read_u64_le (NativeEvent.bytes event) 30)) (as_u16 (s + 1)) Hl)
        as (payload & Hcmd' & Hpl). rewrite Hcmd in Hcmd'. apply Forall_singleton.
      exists COMMAND_GAMEPAD, payload. split; [|unfold U16_MAX; split; [lia|by right]]. cbn [bytes].
      clear - Hcmd'. congruence.
  - assert (H : gamepad_event event encoded self
      = (self, Err (Malformed "gamepad id is outside the supported range"))).
    { unfold gamepad_event, require_len, guard_err. rewrite (proj2 (Z.ltb_ge _ _)) by done.
      rewrite lift_bind, Hid. cbn [ok_or]. rewrite lift_bind, (proj2 (Z.leb_le _ _)) by lia. done. }
    rewrite H. by split_and!.
Qed.

Lemma adds_event event encoded : adds_messages encoded (encode_event event encoded).
Proof.
  unfold encode_event. destruct (read_u32_le (NativeEvent.bytes event) 0) as [ty|] eqn:Hty.
  2:{ intros self Hwf. by split_and!. }
  apply read_u32_le_Some in Hty as (_ & _ & Hty). intros self. rewrite ok_or_Some, lift_bind. revert self.
  change (adds_messages encoded (fun self => (if ty =? INPUT_HEARTBEAT then mret encoded else
    if (ty =? INPUT_KEY_DOWN) || (ty =? INPUT_KEY_UP) then push_message encoded (key_message ty event)
    else if ty =? INPUT_MOUSE_RELATIVE then push_message encoded (delta_message ty "short relative mouse packet" event)
    else if ty =? INPUT_MOUSE_ABSOLUTE then push_message encoded (absolute_message ty event)
    else if (ty =? INPUT_MOUSE_BUTTON_DOWN) || (ty =? INPUT_MOUSE_BUTTON_UP) then push_message encoded (button_message ty event)
    else if ty =? INPUT_MOUSE_WHEEL then push_message encoded (delta_message ty "short mouse wheel packet" event)
    else if ty =? INPUT_GAMEPAD then gamepad_event event encoded
    else if ty =? INPUT_HAPTICS_ENABLED then push_message encoded (haptics_message event)
    else if ty =? INPUT_LOCK_KEYS_SYNC then push_message encoded (lock_keys_message ty event)
    else if ty =? INPUT_TEXT then (messages ← lift (text_messages event); mret (encoded ++ messages))
    else lift (Err (UnsupportedType ty))) self)).
  repeat match goal with |- context [if ?c then _ else _] => destruct c end.
  - apply adds_nothing.
  - by apply (adds_push _ ty), key_message_good.
  - by apply (adds_push _ ty), delta_message_good.
  - by apply (adds_push _ ty), absolute_message_good.
  - by apply (adds_push _ ty), button_message_good.
  - by apply (adds_push _ ty), delta_message_good.
  - apply adds_gamepad.
  - apply (adds_push _ INPUT_HAPTICS_ENABLED), haptics_message_good.
  - by apply (adds_push _ ty), lock_keys_message_good.
  - apply adds_lift. destruct (text_messages_good event) as [Hp Hq].
    split; [done|]. intros ms Hms. refine (Forall_impl _ _ _ (Hq ms Hms) _). by intros m [].
  - apply adds_error.
Qed.

Lemma adds_events events encoded :
  Forall message_ok encoded ->
  forall self, codec_wf self ->
    codec_wf (encode_events events encoded self).1 /\ (encode_events events encoded self).2 <> Panic
    /\ forall ms, (encode_events events encoded self).2 = Ok ms -> Forall message_ok ms.
Proof.
  revert encoded. induction events as [|event events IH]; intros encoded Henc self Hwf; cbn [encode_events].
  - split_and!; [done|done|]. by intros ms [= <-].
  - destruct (adds_event event encoded self Hwf) as (Hwf' & Hp & Hq).
    destruct (encode_event event encoded self) as [self' r] eqn:Eev. cbn [fst snd] in *.
    unfold mbind, codecM_bind. rewrite Eev. destruct r as [ms|e|]; [|by split_and!|done].
    apply IH; [|done]. destruct (Hq ms eq_refl) as (new & -> & Hnew). by apply Forall_app.
Qed.

Inductive codec_op :=
  | Encode (packet : list u8) (fallback_timestamp_us : Z)
  | SetRichSlotMask (mask timestamp_us : Z).

Definition run_codec (self : codec) (o : codec_op) : codec * outcome NvstInputCodecError (list NvstEncodedInput) :=
  match o with
  | Encode packet fallback => encode packet fallback self
  | SetRichSlotMask mask timestamp =>
      match set_rich_slot_mask self mask timestamp with
      | Ok (self, messages) => (self, Ok messages)
      | Err e => (self, Err e)
      | Panic => (self, Panic)
      end
  end.
Definition codec_op_ok (o : codec_op) : Prop :=
  match o with Encode _ _ => True | SetRichSlotMask mask _ => is_u16 mask end.

(** The codec after a series of operations, from the start of the session. *)
Definition codec_after (ops : list codec_op) : codec :=
  foldl (fun self o => (run_codec self o).1) NvstInputCodec.default ops.

Lemma run_codec_ok self o :
  codec_wf self -> codec_op_ok o ->
  codec_wf (run_codec self o).1 /\ (run_codec self o).2 <> Panic
  /\ forall ms, (run_codec self o).2 = Ok ms -> Forall message_ok ms.
Proof.
  intros Hwf Ho. destruct o as [packet fallback|mask timestamp]; cbn [run_codec].
  - unfold encode. pose proof (native_events_total packet fallback) as Hp.
    destruct (native_events packet fallback) as [events|e|]; [|by split_and!|done].
    rewrite lift_bind. by apply adds_events.
  - destruct (set_rich_slot_mask_spec self mask timestamp Hwf Ho) as (self' & messages & -> & Hwf' & _ & Hm).
    cbn [fst snd]. split_and!; [done|done|]. intros ms [= <-].
    destruct (gamepad_bitmap self); [|by destruct Hm as [_ ->]].
    destruct Hm as [_ [[-> _]|(filtered & _ & Hann)]]; [done|]. apply announces_ok in Hann.
    refine (Forall_impl _ _ _ Hann _). by intros m [].
Qed.
Lemma codec_after_wf ops : Forall codec_op_ok ops -> codec_wf (codec_after ops).
Proof.
  unfold codec_after. pose proof default_wf as Hd. revert Hd. generalize NvstInputCodec.default as self.
  intros self Hwf Hok. revert self Hwf. induction Hok as [|o ops Ho _ IH]; intros self Hwf; [done|].
  cbn [foldl]. apply IH. by apply run_codec_ok.
Qed.

(** C13: the input codec survives any session.  After any packets (well-formed
    or not) and any changes of the rich-controller mask, the next packet is
    encoded or refused without a panic, every message it sends is one framed
    record of at most 65535 payload bytes, no pad handled as a rich controller
    is announced, and a pad that is absent starts again at sequence zero. *)
Theorem codec_session_safe ops o :
  Forall codec_op_ok ops -> codec_op_ok o ->
  codec_wf (codec_after ops)
  /\ (run_codec (codec_after ops) o).2 <> Panic
  /\ forall ms, (run_codec (codec_after ops) o).2 = Ok ms ->
       Forall message_ok ms
       /\ exists rs, concat (map bytes ms) = frames rs /\ length rs = length ms /\ Forall frame_ok rs.
Proof.
  intros Hops Ho. pose proof (codec_after_wf ops Hops) as Hwf. split; [done|].
  destruct (run_codec_ok _ o Hwf Ho) as (_ & Hp & Hq). split; [done|]. intros ms Hms.
  specialize (Hq ms Hms). split; [done|]. clear - Hq.
  induction Hq as [|m ms (code & payload & Hm & Hl & Hc) _ (rs & Hrs & Hlen & Hok)]; [by exists []|].
  exists ((code, payload) :: rs). unfold frames in *. cbn [map concat fst snd length].
  rewrite Hm, Hrs, Hlen. split_and!; [done|done|]. constructor; [|done]. split; [|done].
  destruct Hc as [->| ->]; by split.
Qed.

(** A report of controller [id] with the given topology. *)
Definition pad_packet (id bitmap timestamp_us : Z) : list u8 :=
  to_le_bytes 4 INPUT_GAMEPAD ++ to_le_bytes 2 26 ++ to_le_bytes 2 id ++ to_le_bytes 2 bitmap
  ++ replicate 20 Byte.x11 ++ to_le_bytes 8 timestamp_us.

Lemma codec_session_safe_witness :
  exists ms, (run_codec (codec_after [Encode (pad_packet 0 3 10) 0; Encode (map z2b [35; 1]) 0; SetRichSlotMask 2 20])
                (Encode (pad_packet 0 1 30) 0)).2 = Ok ms
    /\ map route ms = [InputPartial] /\ Forall message_ok ms.
Proof.
  destruct (codec_session_safe [Encode (pad_packet 0 3 10) 0; Encode (map z2b [35; 1]) 0; SetRichSlotMask 2 20]
    (Encode (pad_packet 0 1 30) 0)) as (_ & _ & Hok).
  - repeat (apply Forall_cons; split; [cbn; try split; reflexivity || discriminate || exact I|]). apply Forall_nil_2.
  - exact I.
  - destruct (run_codec _ (Encode (pad_packet 0 1 30) 0)).2 as [ms|e|] eqn:E.
    + exists ms. split; [reflexivity|]. destruct (Hok ms eq_refl) as [Hm _]. split; [|exact Hm].
      assert (H : fmap (M := outcome NvstInputCodecError) (map route)
        (run_codec (codec_after [Encode (pad_packet 0 3 10) 0; Encode (map z2b [35; 1]) 0; SetRichSlotMask 2 20])
          (Encode (pad_packet 0 1 30) 0)).2 = Ok [InputPartial]) by (vm_compute; reflexivity).
      rewrite E in H. injection H as H. exact H.
    + exfalso. vm_compute in E. discriminate E.
    + exfalso. vm_compute in E. discriminate E.
Defined.

(** A pad that goes away is put to rest.  In any session, a gamepad report
    that changes the topology, or a mask that hides pads, first sends for every
    pad lost a reliable report with the pad's id and every button, trigger and
    axis neutral, then the new descriptor; the reporting pad's own data follows
    only when it is present and not hidden, numbered one after its last report
    (from one when it just appeared), and no other message is sent. *)
Theorem lost_pads_are_put_to_rest ops event encoded controller bitmap mask timestamp :
  Forall codec_op_ok ops ->
  38 <= zlen (NativeEvent.bytes event) ->
  read_u16_le (NativeEvent.bytes event) 6 = Some controller -> 0 <= controller < GAMEPADS ->
  read_u16_le (NativeEvent.bytes event) 8 = Some bitmap -> is_u16 bitmap -> is_u16 mask ->
  let self := codec_after ops in
  let time := default (NativeEvent.timestamp_us event) (read_u64_le (NativeEvent.bytes event) 30) in
  let filtered := Z.land bitmap (not16 (rich_slot_mask self)) in
  let previous := default 0 (gamepad_bitmap self) in
  (exists self' transition report,
     gamepad_event event encoded self = (self', Ok (encoded ++ transition ++ report))
     /\ gamepad_bitmap self' = Some filtered
     /\ (gamepad_bitmap self = Some filtered /\ transition = []
         \/ gamepad_bitmap self <> Some filtered /\ announces previous filtered time transition)
     /\ if has_slot filtered controller
        then exists sequence message,
               gamepad_sequences self !! Z.to_nat controller = Some sequence
               /\ (has_slot previous controller = false -> sequence = 0)
               /\ gamepad_sequences self' !! Z.to_nat controller = Some (as_u16 (sequence + 1))
               /\ gamepad_command (E := NvstInputCodecError) (NativeEvent.bytes event) time (as_u16 (sequence + 1)) = Ok message
               /\ report = [{| route := InputPartial; bytes := message |}]
        else report = [])
  /\ exists self' messages,
       set_rich_slot_mask self mask timestamp = Ok (self', messages)
       /\ (messages = [] /\ gamepad_bitmap self' = gamepad_bitmap self
           \/ exists hidden, gamepad_bitmap self' = Some hidden /\ announces previous hidden timestamp messages
                /\ forall id, 0 <= id < GAMEPADS -> has_slot hidden id = has_slot previous id && negb (has_slot mask id)).
Proof.
  intros Hops Hl Hid Hidr Hb Hbr Hmask self time filtered previous.
  pose proof (codec_after_wf ops Hops) as Hwf. fold self in Hwf. split.
  - destruct (gamepad_event_spec self event encoded controller bitmap Hwf Hl Hid Hidr Hb Hbr)
      as (self' & transition & report & Hev & _ & Hbm & _ & Hann & Hrep).
    exists self', transition, report. split; [exact Hev|]. split; [exact Hbm|]. split.
    + destruct (decide (gamepad_bitmap self = Some filtered)) as [He|He].
      * left. by rewrite bool_decide_true in Hann.
      * right. by rewrite bool_decide_false in Hann.
    + fold filtered in Hrep. destruct (has_slot filtered controller); [|exact Hrep].
      destruct Hrep as (s & message & Hs & Hs' & Hcmd & Hr). exists s, message.
      split; [exact Hs|]. split; [|by split]. intros Habs.
      pose proof (cw_absent self Hwf controller Hidr Habs) as H0. congruence.
  - destruct (set_rich_slot_mask_spec self mask timestamp Hwf Hmask) as (self' & messages & Hset & _ & _ & Hm).
    exists self', messages. split; [exact Hset|]. unfold previous. destruct (gamepad_bitmap self) as [b|].
    + destruct Hm as [Hslots [Hm|(hidden & Hh & Hann)]]; [by left|]. right. exists hidden.
      split; [exact Hh|]. split; [exact Hann|]. intros id Hidr'. specialize (Hslots id Hidr'). by rewrite Hh in Hslots.
    + left. by destruct Hm as [-> ->].
Qed.

Lemma lost_pads_are_put_to_rest_witness :
  let event := {| NativeEvent.bytes := pad_packet 0 1 30; NativeEvent.timestamp_us := 0 |} in
  let self := codec_after [Encode (pad_packet 0 3 10) 0] in
  exists self' transition report,
    gamepad_event event [] self = (self', Ok ([] ++ transition ++ report))
    /\ announces 3 1 30 transition /\ lost_slots 3 1 = [1].
Proof.
  intros event self.
  destruct (lost_pads_are_put_to_rest [Encode (pad_packet 0 3 10) 0] event [] 0 1 0 0)
    as [(self' & transition & report & Hev & _ & Htr & _) _].
  - apply Forall_cons. split; [exact I|apply Forall_nil_2].
  - vm_compute. discriminate.
  - vm_compute. reflexivity.
  - split; reflexivity || discriminate.
  - vm_compute. reflexivity.
  - split; reflexivity || discriminate.
  - split; reflexivity || discriminate.
  - exists self', transition, report. split; [exact Hev|]. split; [|vm_compute; reflexivity].
    assert (Hbm : gamepad_bitmap self = Some 3) by (vm_compute; reflexivity).
    assert (Hmask : rich_slot_mask self = 0) by (vm_compute; reflexivity).
    assert (Htime : default (NativeEvent.timestamp_us event) (read_u64_le (NativeEvent.bytes event) 30) = 30)
      by (vm_compute; reflexivity).
    fold self in Htr. rewrite Hbm, Hmask, Htime in Htr. destruct Htr as [[H _]|[_ H]]; [vm_compute in H; discriminate H|exact H].
Defined.
