(* ===== verification/InputChannels.v ===== *)
(** * The input channels

    [NvstInputChannelState] of nvst_input.rs, the handshake that makes the
    control channel ready for input, and [NvstInputChannels], the writes that
    go through the budget of nvst_budget.rs.  The channels themselves are
    str0m's: their identifiers, their buffers and their [write] are
    parameters. *)

From S2P Require Import Prelude Control Text InputWire InputCodec.

Definition TEXT_BATCH_GUARD : Z := 128 * 1024.

Section Channels.
Context {ChannelId : Type} `{EqDecision ChannelId}.

Record NvstInputChannels := {
  control_reliable : ChannelId;
  custom_reliable : ChannelId;
  custom_partial : ChannelId;
  control_partial : ChannelId;
  control_unreliable : ChannelId;
  input_partial : ChannelId;
  cursor : option ChannelId;
  rtcp : option ChannelId
}.

Definition all_channels (self : NvstInputChannels) : list ChannelId :=
  omap id [Some (control_reliable self); Some (custom_reliable self); Some (custom_partial self);
           Some (control_partial self); Some (control_unreliable self); Some (input_partial self);
           cursor self; rtcp self].

Definition contains (self : NvstInputChannels) (channel : ChannelId) : bool :=
  negb (bool_decide (rtcp self = Some channel)) && bool_decide (channel ∈ all_channels self).

(** ** The handshake *)

Record NvstInputChannelState := {
  control_open : bool;
  negotiated_version : option Z;
  ready_reported : bool;
  activation_sent : bool
}.
Definition initial_state : NvstInputChannelState :=
  {| control_open := false; negotiated_version := None; ready_reported := false; activation_sent := false |}.

Definition is_ready (self : NvstInputChannelState) : bool :=
  control_open self && bool_decide (is_Some (negotiated_version self)).

Definition take_new_ready_version (self : NvstInputChannelState) : NvstInputChannelState * option Z :=
  if ready_reported self || negb (is_ready self) then (self, None)
  else ({| control_open := control_open self; negotiated_version := negotiated_version self;
           ready_reported := true; activation_sent := activation_sent self |}, negotiated_version self).

Definition channel_opened (self : NvstInputChannelState) (channels : NvstInputChannels) (channel : ChannelId)
    : NvstInputChannelState * option Z :=
  let self := if bool_decide (channel = control_reliable channels)
    then {| control_open := true; negotiated_version := negotiated_version self;
            ready_reported := ready_reported self; activation_sent := activation_sent self |}
    else self in
  take_new_ready_version self.

Definition channel_data (self : NvstInputChannelState) (channels : NvstInputChannels) (channel : ChannelId)
    (bytes : list u8) : outcome Empty_set (NvstInputChannelState * option Z) :=
  self ←
    (if bool_decide (channel = control_reliable channels) then
       version ← input_protocol_version bytes;
       mret match version with
            | Some version =>
                {| control_open := control_open self; negotiated_version := Some version;
                   ready_reported := ready_reported self; activation_sent := activation_sent self |}
            | None => self
            end
     else mret self);
  mret (take_new_ready_version self).

Definition handshake_timed_out (self : NvstInputChannelState) (started_at : option Z) (now : Z) : bool :=
  negb (is_ready self)
  && match started_at with
     | Some started => INPUT_HANDSHAKE_TIMEOUT <=? saturating_duration_since now started
     | None => false
     end.

Definition mark_activation_sent (self : NvstInputChannelState) : NvstInputChannelState :=
  {| control_open := control_open self; negotiated_version := negotiated_version self;
     ready_reported := ready_reported self; activation_sent := true |}.

Definition channel_closed (self : NvstInputChannelState) (channels : NvstInputChannels) (channel : ChannelId)
    : NvstInputChannelState * bool :=
  if bool_decide (channel = input_partial channels) then (self, is_ready self)
  else if negb (bool_decide (channel = control_reliable channels)) then (self, false)
  else (initial_state, is_ready self).

Definition next_control_keepalive (now : Z) : Z := now + CONTROL_KEEPALIVE_INTERVAL.

(** ** Events of the channels *)

Inductive channel_event :=
  | Opened (channel : ChannelId)
  | Data (channel : ChannelId) (bytes : list u8)
  | Closed (channel : ChannelId)
  | ActivationSent.

Definition channel_step (channels : NvstInputChannels) (self : NvstInputChannelState) (e : channel_event)
    : outcome Empty_set (NvstInputChannelState * option Z) :=
  match e with
  | Opened channel => mret (channel_opened self channels channel)
  | Data channel bytes => channel_data self channels channel bytes
  | Closed channel => mret ((channel_closed self channels channel).1, None)
  | ActivationSent => mret (mark_activation_sent self, None)
  end.

(** A run of events: the final state and the versions reported ready. *)
Fixpoint channel_run (channels : NvstInputChannels) (self : NvstInputChannelState) (es : list channel_event)
    : outcome Empty_set (NvstInputChannelState * list Z) :=
  match es with
  | [] => mret (self, [])
  | e :: es =>
      '(self, report) ← channel_step channels self e;
      '(self, reports) ← channel_run channels self es;
      mret (self, match report with Some v => v :: reports | None => reports end)
  end.

(** How often the control channel was lost. *)
Definition control_closes (channels : NvstInputChannels) (es : list channel_event) : nat :=
  length (List.filter (fun e => match e with
    | Closed channel => bool_decide (channel = control_reliable channels) | _ => false end) es).

Definition reported_when_ready (s : NvstInputChannelState) : Prop := ready_reported s = is_ready s.

Lemma take_new_ready_version_spec s :
  (ready_reported s = true -> is_ready s = true) ->
  let '(s', report) := take_new_ready_version s in
  reported_when_ready s'
  /\ (report = negotiated_version s /\ is_ready s = true /\ ready_reported s = false /\ ready_reported s' = true
      \/ report = None /\ s' = s).
Proof.
  intros Hr. unfold take_new_ready_version, reported_when_ready.
  destruct (ready_reported s) eqn:E; cbn [orb].
  - split; [by rewrite E, Hr|by right].
  - destruct (is_ready s) eqn:Ei; cbn [negb].
    + split; [|by left]. unfold is_ready in *. cbn. by rewrite Ei.
    + split; [by rewrite E, Ei|by right].
Qed.

Lemma channel_step_spec channels s e :
  reported_when_ready s ->
  exists s' report, channel_step channels s e = Ok (s', report) /\ reported_when_ready s'
    /\ match report with
       | Some v => ready_reported s = false /\ ready_reported s' = true /\ negotiated_version s' = Some v
       | None => ready_reported s' = ready_reported s
                 \/ ready_reported s' = false /\ e = Closed (control_reliable channels)
       end.
Proof.
  intros Hs. unfold reported_when_ready in Hs.
  assert (Htake : forall s0, ready_reported s0 = ready_reported s -> (is_ready s = true -> is_ready s0 = true) ->
    exists s' report, Ok (take_new_ready_version s0) = (Ok (s', report) : outcome Empty_set _) /\ reported_when_ready s'
      /\ match report with
         | Some v => ready_reported s = false /\ ready_reported s' = true /\ negotiated_version s' = Some v
         | None => ready_reported s' = ready_reported s \/ ready_reported s' = false /\ e = Closed (control_reliable channels)
         end).
  { intros s0 Hr0 Hi0. pose proof (take_new_ready_version_spec s0) as Hspec.
    destruct (take_new_ready_version s0) as [s' report] eqn:Et. destruct Hspec as [Hw Hrep].
    { intros Hr. apply Hi0. congruence. }
    exists s', report. split; [done|]. split; [done|].
    destruct Hrep as [(Hrep & Hi & Hf & Ht)|(-> & ->)]; [|by left].
    assert (Hv : negotiated_version s' = negotiated_version s0).
    { unfold take_new_ready_version in Et. by destruct (_ || _) in Et; injection Et as <- _. }
    destruct report as [v|]; [|].
    - split_and!; congruence.
    - unfold is_ready in Hi. rewrite <- Hrep in Hi. rewrite andb_comm in Hi. done. }
  destruct e as [channel|channel bytes|channel|]; cbn [channel_step].
  - unfold channel_opened. destruct (bool_decide _); [|by apply Htake].
    apply Htake; [done|]. unfold is_ready. cbn. by intros [_ ?]%andb_true_iff.
  - unfold channel_data. destruct (bool_decide _); [|by apply Htake].
    pose proof (input_protocol_version_total bytes) as Hp.
    destruct (input_protocol_version bytes) as [[v|]|[]|]; [| |done].
    + obind. apply Htake; [done|]. unfold is_ready. cbn. intros [Ho _]%andb_true_iff. by rewrite Ho.
    + obind. by apply Htake.
  - unfold channel_closed. destruct (bool_decide (channel = input_partial channels)); [by exists s, None; auto|].
    destruct (decide (channel = control_reliable channels)) as [->|Hne].
    + rewrite bool_decide_true by done. cbn [negb]. exists initial_state, None. split; [done|]. split; [done|]. by right.
    + rewrite bool_decide_false by done. cbn [negb]. exists s, None. by auto.
  - exists (mark_activation_sent s), None. split; [done|]. split; [done|]. by left.
Qed.

Definition control_close (channels : NvstInputChannels) (e : channel_event) : bool :=
  match e with Closed channel => bool_decide (channel = control_reliable channels) | _ => false end.

Lemma control_closes_cons channels e es :
  control_closes channels (e :: es) = ((if control_close channels e then 1 else 0) + control_closes channels es)%nat.
Proof. unfold control_closes, control_close. cbn [List.filter]. destruct e; try done. by destruct (bool_decide _). Qed.

Lemma channel_run_spec channels s es :
  reported_when_ready s ->
  exists s' reports, channel_run channels s es = Ok (s', reports) /\ reported_when_ready s'
    /\ (length reports + (if ready_reported s then 1 else 0)
         <= control_closes channels es + 1)%nat.
Proof.
  revert s. induction es as [|e es IH]; intros s Hs; cbn [channel_run].
  - exists s, []. split; [done|]. split; [done|]. cbn. destruct (ready_reported s); lia.
  - destruct (channel_step_spec channels s e Hs) as (s1 & report & -> & Hs1 & Hrep). obind.
    destruct (IH s1 Hs1) as (s2 & reports & -> & Hs2 & Hle). obind. eexists _, _. split; [reflexivity|].
    split; [done|]. rewrite control_closes_cons. destruct report as [v|].
    + destruct Hrep as (Hf & Ht & _). rewrite Hf, Ht in *. cbn [length]. lia.
    + destruct Hrep as [Heq|[Hf ->]].
      * rewrite Heq in Hle. lia.
      * rewrite Hf in Hle. unfold control_close. rewrite bool_decide_true by done.
        destruct (ready_reported s); lia.
Qed.

(** Readiness is reported once per connection.  Over any sequence of channel
    events and messages (no message panics the parser), the negotiated version
    is reported at most once, plus once for every time the reliable control
    channel was lost; whenever the channel is open and a version is known the
    report has been made, and the handshake times out only without it. *)
Theorem input_ready_reported_once channels es started now :
  exists s reports, channel_run channels initial_state es = Ok (s, reports)
    /\ (length reports <= control_closes channels es + 1)%nat
    /\ (is_ready s = true <-> ready_reported s = true)
    /\ (handshake_timed_out s (Some started) now = true
         <-> ready_reported s = false /\ INPUT_HANDSHAKE_TIMEOUT <= now - started).
Proof.
  destruct (channel_run_spec channels initial_state es) as (s & reports & Hrun & Hs & Hle); [done|].
  exists s, reports. split; [done|]. split; [cbn in Hle; lia|]. unfold reported_when_ready in Hs. rewrite Hs.
  split; [done|]. unfold handshake_timed_out, saturating_duration_since, INPUT_HANDSHAKE_TIMEOUT, from_secs.
  destruct (is_ready s); cbn [negb andb]; [split; [done|by intros [? _]]|].
  split; [intros H; zbool; split; [done|lia]|intros [_ H]; apply Z.leb_le; lia].
Qed.

(** ** Budgeted writes *)

(** str0m's channels: the bytes a channel still buffers ([None] when it is not
    open), and [channel.write], [None] standing for its error. *)
Context {Rtc : Type} (buffered_amount : Rtc -> ChannelId -> option Z)
  (channel_write : Rtc -> ChannelId -> list u8 -> Rtc * option bool).

Definition buffered_total (self : NvstInputChannels) (rtc : Rtc) : Z :=
  foldr Z.add 0 (omap (buffered_amount rtc) (all_channels self)).

(** [channel.write(true, bytes).unwrap_or(false)] on an open channel. *)
Definition write_open (rtc : Rtc) (channel : ChannelId) (bytes : list u8) : Rtc * bool :=
  match buffered_amount rtc channel with
  | None => (rtc, false)
  | Some _ => let '(rtc, written) := channel_write rtc channel bytes in (rtc, default false written)
  end.

Definition write (self : NvstInputChannels) (rtc : Rtc) (channel : ChannelId) (bytes : list u8) (class : WriteClass)
    : Rtc * bool :=
  if negb (is_admitted (admit_write (buffered_total self rtc) (zlen bytes) class)) then (rtc, false)
  else write_open rtc channel bytes.

Definition send_control (self : NvstInputChannels) (rtc : Rtc) (bytes : list u8) : Rtc * bool :=
  write self rtc (control_reliable self) bytes NormalWrite.
Definition send_control_teardown (self : NvstInputChannels) (rtc : Rtc) (bytes : list u8) : Rtc * bool :=
  write self rtc (control_reliable self) bytes TeardownWrite.
Definition send_rtcp (self : NvstInputChannels) (rtc : Rtc) (bytes : list u8) : Rtc * bool :=
  match rtcp self with Some channel => write self rtc channel bytes NormalWrite | None => (rtc, false) end.
Definition send_partial_control (self : NvstInputChannels) (rtc : Rtc) (bytes : list u8) : Rtc * bool :=
  write self rtc (control_partial self) bytes NormalWrite.
Definition send_keepalive (self : NvstInputChannels) (rtc : Rtc) (stream_value : Z) : Rtc * bool :=
  send_control self rtc (control_keepalive stream_value).

Definition send_encoded (self : NvstInputChannels) (rtc : Rtc) (message : NvstEncodedInput) : Rtc * bool :=
  let channel := match route message with
    | ControlReliable => control_reliable self
    | ControlPartial => control_partial self
    | InputPartial => input_partial self
    end in
  write self rtc channel (bytes message) NormalWrite.

Definition text_batch_fits (buffered batch_bytes guard : Z) : bool := saturating_add64 buffered batch_bytes <=? guard.

(** [Iterator::all]: the first failing write stops the batch. *)
Fixpoint write_all (self : NvstInputChannels) (rtc : Rtc) (messages : list NvstEncodedInput) : Rtc * bool :=
  match messages with
  | [] => (rtc, true)
  | message :: messages =>
      let '(rtc, ok) := write_open rtc (control_reliable self) (bytes message) in
      if ok then write_all self rtc messages else (rtc, false)
  end.

Definition send_text (self : NvstInputChannels) (rtc : Rtc) (text : TextPayload) (timestamp_us : Z)
    : outcome Empty_set (Rtc * bool) :=
  messages ← unicode_text_messages (Text.text text) timestamp_us;
  let total_bytes := foldr Z.add 0 (map (fun message => zlen (bytes message)) messages) in
  let buffered := buffered_total self rtc in
  if negb (text_batch_fits buffered total_bytes TEXT_BATCH_GUARD) then mret (rtc, false)
  else if negb (is_admitted (admit_write buffered total_bytes NormalWrite)) then mret (rtc, false)
  else match buffered_amount rtc (control_reliable self) with
       | None => mret (rtc, false)
       | Some _ => if cancelled text then mret (rtc, true) else mret (write_all self rtc messages)
       end.

(** What the code relies on of str0m: a buffer is never negative, writing adds
    at most the bytes to that channel's buffer and leaves the others alone. *)
Context (buffered_nonneg : forall rtc channel n, buffered_amount rtc channel = Some n -> 0 <= n)
  (write_adds : forall rtc channel bytes n,
     buffered_amount rtc channel = Some n ->
     exists n', buffered_amount (channel_write rtc channel bytes).1 channel = Some n' /\ n' <= n + zlen bytes)
  (write_elsewhere : forall rtc channel bytes other, other <> channel ->
     buffered_amount (channel_write rtc channel bytes).1 other = buffered_amount rtc other).

Lemma buffered_sum_nonneg rtc ids : 0 <= foldr Z.add 0 (omap (buffered_amount rtc) ids).
Proof.
  induction ids as [|c ids IH]; [done|]. cbn [omap list_omap]. destruct (buffered_amount rtc c) as [n|] eqn:E; [|done].
  cbn [foldr]. pose proof (buffered_nonneg _ _ _ E). lia.
Qed.

Lemma sum_after_write rtc channel bytes ids :
  NoDup ids -> is_Some (buffered_amount rtc channel) ->
  foldr Z.add 0 (omap (buffered_amount (channel_write rtc channel bytes).1) ids)
  <= foldr Z.add 0 (omap (buffered_amount rtc) ids) + zlen bytes.
Proof.
  intros Hnd [n Hn]. pose proof (zlen_nonneg bytes).
  destruct (write_adds rtc channel bytes n Hn) as (n' & Hn' & Hle).
  assert (Hsame : forall ids, channel ∉ ids ->
    omap (M := list) (buffered_amount (channel_write rtc channel bytes).1) ids = omap (M := list) (buffered_amount rtc) ids).
  { clear ids Hnd. intros ids. induction ids as [|c ids IH]; intros Hni; [done|]. apply not_elem_of_cons in Hni as [Hc Hni].
    cbn [omap list_omap]. rewrite write_elsewhere by done. by rewrite IH. }
  induction Hnd as [|c ids Hc Hnd IH]; [cbn; lia|]. cbn [omap list_omap].
  destruct (decide (c = channel)) as [->|Hne].
  - rewrite Hn, Hn', Hsame by done. cbn [foldr]. lia.
  - rewrite write_elsewhere by done. destruct (buffered_amount rtc c); cbn [foldr]; lia.
Qed.

Lemma write_open_total self rtc channel bytes :
  NoDup (all_channels self) ->
  buffered_total self (write_open rtc channel bytes).1 <= buffered_total self rtc + zlen bytes.
Proof.
  intros Hnd. unfold write_open, buffered_total. pose proof (zlen_nonneg bytes).
  destruct (buffered_amount rtc channel) eqn:E; [|cbn; lia].
  pose proof (sum_after_write rtc channel bytes (all_channels self) Hnd ltac:(eauto)).
  by destruct (channel_write rtc channel bytes).
Qed.

Lemma write_all_total self rtc messages :
  NoDup (all_channels self) ->
  buffered_total self (write_all self rtc messages).1
  <= buffered_total self rtc + foldr Z.add 0 (map (fun message => zlen (bytes message)) messages).
Proof.
  intros Hnd. revert rtc. induction messages as [|m ms IH]; intros rtc; cbn [write_all map foldr]; [cbn; lia|].
  pose proof (write_open_total self rtc (control_reliable self) (bytes m) Hnd) as Hw.
  assert (Hpos : 0 <= foldr Z.add 0 (map (fun message => zlen (bytes message)) ms)).
  { clear. induction ms as [|m ms IH]; cbn [map foldr]; [lia|]. pose proof (zlen_nonneg (bytes m)). lia. }
  destruct (write_open rtc (control_reliable self) (bytes m)) as [rtc' [|]]; cbn [fst] in *; [|lia].
  specialize (IH rtc'). lia.
Qed.

Lemma admitted_total buffered n class :
  is_admitted (admit_write buffered n class) = true -> 0 <= buffered -> 0 <= n ->
  n <> 0 /\ buffered + n <= match class with NormalWrite => NORMAL_BUDGET | TeardownWrite => TRANSPORT_AGGREGATE_CAPACITY end.
Proof.
  unfold admit_write, saturating_add64, U64_MAX, NORMAL_BUDGET, TRANSPORT_AGGREGATE_CAPACITY, TEARDOWN_RESERVE.
  destruct (Z.eqb_spec n 0); [done|]. intros H Hb Hn. split; [done|].
  destruct class; destruct (_ <=? _) eqn:E in H; try done; zbool; lia.
Qed.

Lemma write_within self rtc channel bytes class :
  NoDup (all_channels self) ->
  let limit := match class with NormalWrite => NORMAL_BUDGET | TeardownWrite => TRANSPORT_AGGREGATE_CAPACITY end in
  buffered_total self rtc <= limit -> buffered_total self (write self rtc channel bytes class).1 <= limit.
Proof.
  intros Hnd limit Hle. unfold write. destruct (is_admitted _) eqn:Ha; cbn [negb]; [|done].
  apply admitted_total in Ha as [_ Ha]; [|apply buffered_sum_nonneg|apply zlen_nonneg].
  pose proof (write_open_total self rtc channel bytes Hnd). unfold limit. destruct class; lia.
Qed.

(** No send overruns the transport.  However the channels' buffers stand,
    as long as the normal budget is kept before, no encoded input, control
    record, RTCP packet, keepalive or pasted text (admitted as one batch, or
    not sent at all) takes the buffers past the normal budget, so the 64 KiB
    kept for the teardown remain and a teardown write within them is handed to
    the channel; sending text never panics. *)
Theorem sends_stay_within_budget self rtc message bytes stream_value text timestamp :
  NoDup (all_channels self) -> utf8 (Text.text text) -> buffered_total self rtc <= NORMAL_BUDGET ->
  buffered_total self (send_encoded self rtc message).1 <= NORMAL_BUDGET
  /\ buffered_total self (send_control self rtc bytes).1 <= NORMAL_BUDGET
  /\ buffered_total self (send_partial_control self rtc bytes).1 <= NORMAL_BUDGET
  /\ buffered_total self (send_rtcp self rtc bytes).1 <= NORMAL_BUDGET
  /\ buffered_total self (send_keepalive self rtc stream_value).1 <= NORMAL_BUDGET
  /\ (exists rtc' sent, send_text self rtc text timestamp = Ok (rtc', sent)
       /\ buffered_total self rtc' <= NORMAL_BUDGET
       /\ (cancelled text = true -> rtc' = rtc))
  /\ (0 < zlen bytes <= TEARDOWN_RESERVE ->
       send_control_teardown self rtc bytes = write_open rtc (control_reliable self) bytes).
Proof.
  intros Hnd Hu Hle.
  assert (Hw : forall channel bytes, buffered_total self (write self rtc channel bytes NormalWrite).1 <= NORMAL_BUDGET).
  { intros. by apply (write_within self rtc channel bytes0 NormalWrite). }
  split_and!; try apply Hw.
  - unfold send_rtcp. destruct (rtcp self); [apply Hw|done].
  - unfold send_text. unfold unicode_text_messages.
    destruct (text_loop_spec (S (length (Text.text text))) (Text.text text) timestamp [] Hu) as (chunks & -> & _); [lia|].
    obind. cbn [app]. set (messages := map _ chunks).
    destruct (text_batch_fits _ _ _); cbn [negb]; [|by exists rtc, false].
    destruct (is_admitted _) eqn:Ha; cbn [negb]; [|by exists rtc, false].
    apply admitted_total in Ha as [_ Ha]; [|apply buffered_sum_nonneg|].
    2:{ clear. induction messages as [|m ms IH]; cbn [map foldr]; [lia|]. pose proof (zlen_nonneg (InputWire.bytes m)). lia. }
    destruct (buffered_amount rtc (control_reliable self)); [|by exists rtc, false].
    destruct (cancelled text); [by exists rtc, true|].
    pose proof (write_all_total self rtc messages Hnd) as Hall.
    destruct (write_all self rtc messages) as [rtc' sent]. cbn [fst] in Hall. exists rtc', sent.
    split; [done|]. split; [lia|done].
  - intros Hn. unfold send_control_teardown, write.
    pose proof (buffered_sum_nonneg rtc (all_channels self)) as H0. fold (buffered_total self rtc) in H0.
    unfold admit_write, saturating_add64, U64_MAX, NORMAL_BUDGET, TRANSPORT_AGGREGATE_CAPACITY, TEARDOWN_RESERVE in *.
    rewrite (proj2 (Z.eqb_neq _ _)) by lia. rewrite (proj2 (Z.leb_le _ _)) by lia. done.
Qed.
End Channels.

(** A transport of one open channel that buffers every byte. *)
Definition toy_buffered (rtc : Z) (channel : Z) : option Z := if channel =? 0 then Some (Z.max 0 rtc) else None.
Definition toy_write (rtc : Z) (channel : Z) (bytes : list u8) : Z * option bool :=
  if channel =? 0 then (Z.max 0 rtc + zlen bytes, Some true) else (rtc, None).
Definition toy_channels : NvstInputChannels :=
  {| control_reliable := 0; custom_reliable := 2; custom_partial := 4; control_partial := 6;
     control_unreliable := 8; input_partial := 10; cursor := None; rtcp := None |}.

Lemma input_ready_reported_once_witness :
  exists s reports, channel_run toy_channels initial_state
      [Data 0 (map z2b [14; 2; 2; 0; 3; 0]); Opened 0; Closed 0; Opened 0; Data 0 (map z2b [14; 2; 2; 0; 3; 0])] = Ok (s, reports)
    /\ (length reports <= 2)%nat /\ reports = [3; 3].
Proof.
  destruct (input_ready_reported_once toy_channels
    [Data 0 (map z2b [14; 2; 2; 0; 3; 0]); Opened 0; Closed 0; Opened 0; Data 0 (map z2b [14; 2; 2; 0; 3; 0])] 0 0)
    as (s & reports & Hrun & Hle & _).
  exists s, reports. split; [exact Hrun|]. split; [exact Hle|]. vm_compute in Hrun. injection Hrun as _ <-. reflexivity.
Defined.

Lemma sends_stay_within_budget_witness :
  buffered_total toy_buffered toy_channels
    (send_control toy_buffered toy_write toy_channels 100 [Byte.x01; Byte.x02]).1 <= NORMAL_BUDGET
  /\ (send_control toy_buffered toy_write toy_channels 100 [Byte.x01; Byte.x02]).2 = true.
Proof.
  assert (H := sends_stay_within_budget toy_buffered toy_write).
  destruct (H) with (self := toy_channels) (rtc := 100) (message := {| route := ControlReliable; bytes := [] |})
    (bytes := [Byte.x01; Byte.x02]) (stream_value := 0) (text := {| Text.text := []; cancelled := false |}) (timestamp := 0)
    as (_ & Hc & _).
  - intros rtc channel n. unfold toy_buffered. destruct (channel =? 0); [|discriminate]. intros [= <-]. lia.
  - intros rtc channel bytes n. unfold toy_buffered, toy_write. destruct (channel =? 0) eqn:E; [|discriminate].
    intros [= <-]. cbn [fst]. eexists. split; [reflexivity|]. pose proof (zlen_nonneg bytes). lia.
  - intros rtc channel bytes other Hne. unfold toy_buffered, toy_write.
    destruct (Z.eqb_spec channel 0) as [->|]; [|reflexivity]. by rewrite (proj2 (Z.eqb_neq other 0)) by exact Hne.
  - apply (bool_decide_unpack (NoDup (all_channels toy_channels))). vm_compute. exact I.
  - apply utf8_nil.
  - vm_compute. discriminate.
  - split; [exact Hc|]. vm_compute. reflexivity.
Defined.
