(* ===== verification/Crypto.v ===== *)
(** * The cryptographic primitives of the transport

    The crates [aes], [ctr], [ghash], [hmac]/[sha1] and [crc32fast] are not part of
    the repository: they are the operations of the class [Crypto], and what the
    transport relies on (the sizes their types fix) is the class [CryptoLaws].
    A stream cipher is modelled as the [StreamCipher] trait documents it: it
    XORs a key stream into a buffer and advances its position by the buffer's
    length. *)

From S2P Require Import Prelude Gf256 Control.

(** [Aes128] and [Aes256]: the block cipher a key size selects. *)
Inductive Aes := Aes128 | Aes256.
#[export] Instance Aes_eq_dec : EqDecision Aes.
Proof. solve_decision. Defined.

Class Crypto := {
  (** [BlockEncrypt::encrypt_block] of the cipher under a key. *)
  encrypt_block : Aes -> list u8 -> list u8 -> list u8;
  (** The key streams of [Ctr32BE] and [Ctr128BE] from a key and an IV. *)
  ctr32be : Aes -> list u8 -> list u8 -> nat -> u8;
  ctr128be : Aes -> list u8 -> list u8 -> nat -> u8;
  (** [GHash] *)
  ghash_state : Type;
  ghash_new : list u8 -> ghash_state;
  update_padded : ghash_state -> list u8 -> ghash_state;
  ghash_update : ghash_state -> list u8 -> ghash_state;
  ghash_finalize : ghash_state -> list u8;
  (** [HmacSha1] of a key over the concatenation of the updates. *)
  hmac_sha1 : list u8 -> list u8 -> list u8;
  (** [crc32fast::hash] *)
  crc32 : list u8 -> Z
}.

Class CryptoLaws `{Crypto} : Prop := {
  ghash_finalize_length s : zlen (ghash_finalize s) = 16;
  hmac_sha1_length key message : zlen (hmac_sha1 key message) = 20;
  crc32_range bytes : is_u32 (crc32 bytes)
}.

(** ** Stream ciphers *)

Record StreamCipher := { keystream : nat -> u8; position : nat }.

(** [KeyIvInit::new] of a counter mode. *)
Definition new_stream (keystream : nat -> u8) : StreamCipher :=
  {| keystream := keystream; position := 0 |}.

Definition apply_keystream (self : StreamCipher) (buffer : list u8) : list u8 * StreamCipher :=
  (imap (fun i b => bxor b (keystream self (position self + i)%nat)) buffer,
   {| keystream := keystream self; position := position self + length buffer |}).

(** [cipher.apply_keystream(&mut buffer[from..])] *)
Definition apply_keystream_from {E} (self : StreamCipher) (buffer : list u8) (from : Z)
    : outcome E (list u8 * StreamCipher) :=
  front ← slice buffer 0 from;
  back ← slice buffer from (zlen buffer);
  let '(back, self) := apply_keystream self back in
  mret (front ++ back, self).

(** [for (target, source) in target.iter_mut().zip(source) { *target ^= source }] *)
Fixpoint xor_bytes (target source : list u8) : list u8 :=
  match target, source with
  | t :: target, s :: source => bxor t s :: xor_bytes target source
  | target, _ => target
  end.

(** The same loop over [target[a..b].iter_mut()]. *)
Definition xor_range {E} (target : list u8) (a b : Z) (source : list u8) : outcome E (list u8) :=
  window ← slice target a b;
  set_slice target a b (xor_bytes window source).

(** ** Lemmas *)

Lemma apply_keystream_length c buffer : length (apply_keystream c buffer).1 = length buffer.
Proof. unfold apply_keystream. cbn. apply length_imap. Qed.
Lemma zlen_apply_keystream c buffer : zlen (apply_keystream c buffer).1 = zlen buffer.
Proof. unfold zlen. by rewrite apply_keystream_length. Qed.

(** Decryption is the same operation from the same position. *)
Lemma apply_keystream_involutive c buffer :
  (apply_keystream c (apply_keystream c buffer).1).1 = buffer.
Proof.
  unfold apply_keystream. cbn [fst]. apply list_eq. intros i. rewrite !list_lookup_imap.
  destruct (buffer !! i) as [b|]; [|done]. cbn.
  f_equal. by rewrite <- bxor_assoc, bxor_self, bxor_0_r.
Qed.

Lemma length_xor_bytes target source : length (xor_bytes target source) = length target.
Proof. revert source. induction target as [|t target IH]; intros [|s source]; cbn; auto. Qed.
Lemma zlen_xor_bytes target source : zlen (xor_bytes target source) = zlen target.
Proof. unfold zlen. by rewrite length_xor_bytes. Qed.
#[export] Hint Rewrite zlen_apply_keystream zlen_xor_bytes : zlens.

(** The results do not depend on the error type of the caller. *)
Lemma set_slice_zlen {A} (l : list A) a b v :
  0 <= a <= b -> b <= zlen l -> zlen v = b - a ->
  exists r, (forall E, set_slice (E:=E) l a b v = Ok r) /\ zlen r = zlen l.
Proof.
  intros. exists (splice l a v). split; [intros; apply set_slice_Ok; lia|]. apply zlen_splice; lia.
Qed.

Lemma xor_range_Ok target a b source :
  0 <= a <= b -> b <= zlen target ->
  exists r, (forall E, xor_range (E:=E) target a b source = Ok r) /\ zlen r = zlen target.
Proof.
  intros. set (window := take (Z.to_nat (b - a)) (drop (Z.to_nat a) target)).
  destruct (set_slice_zlen target a b (xor_bytes window source)) as (r & Hr & Hl); [lia|lia| |].
  { rewrite zlen_xor_bytes. unfold zlen, window in *. rewrite length_take, length_drop. lia. }
  exists r. split; [|done]. intros E. unfold xor_range. rewrite slice_Ok by lia. obind. apply Hr.
Qed.

Lemma apply_keystream_from_app {E} c front back :
  apply_keystream_from (E:=E) c (front ++ back) (zlen front)
  = Ok (front ++ (apply_keystream c back).1, (apply_keystream c back).2).
Proof.
  pose proof (slice_app (E:=E) [] front back 0 (zlen front) eq_refl eq_refl) as Hf.
  pose proof (slice_app (E:=E) front back [] (zlen front) (zlen (front ++ back)) eq_refl) as Hb.
  rewrite app_nil_r in Hb. unfold apply_keystream_from. cbn [app] in Hf.
  rewrite Hf, Hb by (autorewrite with zlens; lia). obind.
  by destruct (apply_keystream c back).
Qed.

(** ** A concrete instance of the primitives *)

(** Not a cipher: just functions of the right sizes that depend on all their
    arguments. *)
Definition digest (n : nat) (bytes : list u8) : list u8 :=
  map (fun i => z2b (foldl (fun a b => a * 31 + b2z b + i) 7 bytes)) (zrange n).
Lemma zlen_digest n bytes : zlen (digest n bytes) = Z.of_nat n.
Proof. unfold zlen, digest, zrange. by rewrite !length_map, length_seq. Qed.
#[export] Instance toy_crypto : Crypto := {|
  encrypt_block aes key block := digest 16 (key ++ block);
  ctr32be aes key iv n := z2b (foldl (fun a b => a * 31 + b2z b) (Z.of_nat n) (key ++ iv));
  ctr128be aes key iv n := z2b (foldl (fun a b => a * 17 + b2z b) (Z.of_nat n) (key ++ iv));
  ghash_state := list u8;
  ghash_new key := key;
  update_padded state data := state ++ data;
  ghash_update state block := state ++ block;
  ghash_finalize state := digest 16 state;
  hmac_sha1 key message := digest 20 (key ++ message);
  crc32 bytes := as_u32 (foldl (fun a b => a * 31 + b2z b) 7 bytes)
|}.
#[export] Instance toy_crypto_laws : CryptoLaws.
Proof.
  split; intros; [apply (zlen_digest 16)|apply (zlen_digest 20)|apply as_u32_range].
Qed.

