(* ===== verification/Srtp.v ===== *)
(** * SRTP: key derivation, authentication and decryption of datagrams

    [NvstSrtpMaterial], [SrtpCipher], [SrtpReceiver] and the AES-GCM and
    AES-CM/HMAC-SHA1 transforms of [nvst.rs], over the primitives of [Crypto]
    and the replay window of [Replay]. *)

From stdpp Require Import gmap.
From S2P Require Import Prelude Types Rtp Replay Gf256 Control Crypto.

Definition SRTP_AES_CM_HMAC_SHA1_80_TAG_LEN : Z := 10.
Definition SRTP_AEAD_AES_GCM_TAG_LEN : Z := 16.
Definition SRTP_AEAD_AES_GCM_8_TAG_LEN : Z := 8.
Definition GFN_SRTP_KEY_LABEL : Z := 0x00.
Definition GFN_SRTP_SALT_LABEL : Z := 0x02.

Inductive NvstSrtpMaterial :=
  | MaterialAeadAes128Gcm (master_key master_salt : list u8) (authentication_tag_len : Z)
  | MaterialAeadAes256Gcm (master_key master_salt : list u8) (authentication_tag_len : Z)
  | MaterialAesCm128HmacSha1 (master_key master_salt : list u8) (authentication_tag_len : Z)
  | MaterialAesCm256HmacSha1 (master_key master_salt : list u8) (authentication_tag_len : Z).

Inductive SrtpCipher :=
  | AeadAes128Gcm (encryption_key session_salt : list u8) (authentication_tag_len : Z)
  | AeadAes256Gcm (encryption_key session_salt : list u8) (authentication_tag_len : Z)
  | AesCm128HmacSha1 (encryption_key authentication_key session_salt : list u8)
      (authentication_tag_len : Z)
  | AesCm256HmacSha1 (encryption_key authentication_key session_salt : list u8)
      (authentication_tag_len : Z).

(** ** Initialization vectors *)

Definition srtp_gcm_iv {E} (session_salt : list u8) (ssrc roc sequence_number : Z)
    : outcome E (list u8) :=
  iv ← xor_range session_salt 2 6 (to_be_bytes 4 ssrc);
  iv ← xor_range iv 6 10 (to_be_bytes 4 roc);
  xor_range iv 10 (zlen iv) (to_be_bytes 2 sequence_number).

Definition srtp_aes_cm_iv {E} (session_salt : list u8) (ssrc packet_index : Z)
    : outcome E (list u8) :=
  iv ← set_slice (zeroes 16) 0 14 session_salt;
  iv ← xor_range iv 4 8 (to_be_bytes 4 ssrc);
  index_bytes ← slice (to_be_bytes 8 packet_index) 2 8;
  xor_range iv 8 14 index_bytes.

Section Srtp.
Context `{Crypto}.

(** ** Key derivation *)

(** The two derivation functions differ in the cipher of the master key only;
    [n] is the length of the array they fill. *)
Definition derive_key {E} (aes : Aes) (n : Z) (master_key master_salt : list u8) (label : Z)
    : outcome E (list u8) :=
  iv ← set_slice (zeroes 16) 0 (zlen master_salt) master_salt;
  iv7 ← iv.[7];
  iv ← set_idx iv 7 (bxor iv7 (z2b label));
  mret (apply_keystream (new_stream (ctr128be aes master_key iv)) (zeroes n)).1.

Definition derive_aes_cm_key {E} (n : Z) (master_key master_salt : list u8) (label : Z)
    : outcome E (list u8) := derive_key Aes256 n master_key master_salt label.
Definition derive_aes128_cm_key {E} (n : Z) (master_key master_salt : list u8) (label : Z)
    : outcome E (list u8) := derive_key Aes128 n master_key master_salt label.

(** ** AES-GCM with a truncated tag *)

(** The block cipher the key's length selects; any other length is
    [unreachable!]. *)
Definition select_aes {E} (encryption_key : list u8) : outcome E Aes :=
  if zlen encryption_key =? 16 then Ok Aes128
  else if zlen encryption_key =? 32 then Ok Aes256
  else Panic.

(** The expected tag, and the counter stream positioned after the tag mask. *)
Definition aes_gcm_tag_and_ctr {E} (encryption_key iv aad ciphertext : list u8)
    : outcome E (list u8 * StreamCipher) :=
  j0 ← set_slice (zeroes 16) 0 12 iv;
  j0 ← set_idx j0 15 (z2b 1);
  aes ← select_aes encryption_key;
  let hash_key := encrypt_block aes encryption_key (zeroes 16) in
  let '(tag_mask, ctr) := apply_keystream (new_stream (ctr32be aes encryption_key j0)) (zeroes 16) in
  let hasher := ghash_new hash_key in
  let hasher := update_padded hasher aad in
  let hasher := update_padded hasher ciphertext in
  len_block ← set_slice (zeroes 16) 0 8 (to_be_bytes 8 (zlen aad * 8));
  len_block ← set_slice len_block 8 16 (to_be_bytes 8 (zlen ciphertext * 8));
  let hasher := ghash_update hasher len_block in
  let tag := xor_bytes (ghash_finalize hasher) tag_mask in
  expected ← set_slice (zeroes 16) 0 16 tag;
  mret (expected, ctr).

Definition unprotect_aes_gcm (datagram : list u8) (header : RtpHeader.t) (roc : Z)
    (encryption_key session_salt : list u8) (tag_len : Z) : outcome NvstDropReason (list u8) :=
  ciphertext_end ← ok_or (checked_sub (zlen datagram) tag_len) (MalformedRtp MissingAuthenticationTag);
  guard_err (ciphertext_end <? RtpHeader.payload_offset header) (MalformedRtp MissingAuthenticationTag);;
  iv ← srtp_gcm_iv session_salt (RtpHeader.ssrc header) roc (RtpHeader.sequence_number header);
  aad ← slice datagram 0 (RtpHeader.payload_offset header);
  ciphertext ← slice datagram (RtpHeader.payload_offset header) ciphertext_end;
  received_tag ← slice datagram ciphertext_end (zlen datagram);
  tc ← aes_gcm_tag_and_ctr encryption_key iv aad ciphertext;
  let '(expected_tag, ctr) := tc in
  expected ← slice expected_tag 0 tag_len;
  guard_err (negb (bool_decide (expected = received_tag))) AuthenticationFailed;;
  plaintext ← slice datagram 0 ciphertext_end;
  pc ← apply_keystream_from ctr plaintext (RtpHeader.payload_offset header);
  mret pc.1.

(** ** AES-CM with HMAC-SHA1 *)

Definition unprotect_aes_cm_hmac_sha1 (datagram : list u8) (header : RtpHeader.t)
    (packet_index roc : Z) (encryption_key authentication_key session_salt : list u8)
    (authentication_tag_len : Z) : outcome NvstDropReason (list u8) :=
  authenticated_len ← ok_or (checked_sub (zlen datagram) authentication_tag_len)
    (MalformedRtp MissingAuthenticationTag);
  guard_err (authenticated_len <? RtpHeader.payload_offset header) (MalformedRtp MissingAuthenticationTag);;
  authenticated ← slice datagram 0 authenticated_len;
  let expected_tag := hmac_sha1 authentication_key (authenticated ++ to_be_bytes 4 roc) in
  received_tag ← slice datagram authenticated_len (zlen datagram);
  expected ← slice expected_tag 0 authentication_tag_len;
  guard_err (negb (bool_decide (expected = received_tag))) AuthenticationFailed;;
  plaintext ← slice datagram 0 authenticated_len;
  iv ← srtp_aes_cm_iv session_salt (RtpHeader.ssrc header) packet_index;
  aes ← select_aes encryption_key;
  pc ← apply_keystream_from (new_stream (ctr128be aes encryption_key iv)) plaintext
    (RtpHeader.payload_offset header);
  mret pc.1.
End Srtp.

Module SrtpReceiver.

Record t := { cipher : SrtpCipher; replay : ReplayWindow.t }.

Section SrtpReceiver.
Context `{Crypto}.

Definition from_material {E} (material : NvstSrtpMaterial) : outcome E t :=
  cipher ←
    match material with
    | MaterialAeadAes128Gcm master_key master_salt authentication_tag_len =>
        encryption_key ← derive_aes128_cm_key 16 master_key master_salt GFN_SRTP_KEY_LABEL;
        session_salt ← derive_aes128_cm_key 12 master_key master_salt GFN_SRTP_SALT_LABEL;
        mret (AeadAes128Gcm encryption_key session_salt authentication_tag_len)
    | MaterialAeadAes256Gcm master_key master_salt authentication_tag_len =>
        encryption_key ← derive_aes_cm_key 32 master_key master_salt GFN_SRTP_KEY_LABEL;
        session_salt ← derive_aes_cm_key 12 master_key master_salt GFN_SRTP_SALT_LABEL;
        mret (AeadAes256Gcm encryption_key session_salt authentication_tag_len)
    | MaterialAesCm128HmacSha1 master_key master_salt authentication_tag_len =>
        encryption_key ← derive_aes128_cm_key 16 master_key master_salt 0x00;
        authentication_key ← derive_aes128_cm_key 20 master_key master_salt 0x01;
        session_salt ← derive_aes128_cm_key 14 master_key master_salt 0x02;
        mret (AesCm128HmacSha1 encryption_key authentication_key session_salt authentication_tag_len)
    | MaterialAesCm256HmacSha1 master_key master_salt authentication_tag_len =>
        encryption_key ← derive_aes_cm_key 32 master_key master_salt 0x00;
        authentication_key ← derive_aes_cm_key 20 master_key master_salt 0x01;
        session_salt ← derive_aes_cm_key 14 master_key master_salt 0x02;
        mret (AesCm256HmacSha1 encryption_key authentication_key session_salt authentication_tag_len)
    end;
  mret {| cipher := cipher; replay := ReplayWindow.default |}.

(** [match &self.cipher] of [unprotect]. *)
Definition decrypt (cipher : SrtpCipher) (datagram : list u8) (header : RtpHeader.t)
    (packet_index roc : Z) : outcome NvstDropReason (list u8) :=
  match cipher with
  | AeadAes128Gcm encryption_key session_salt authentication_tag_len
  | AeadAes256Gcm encryption_key session_salt authentication_tag_len =>
      unprotect_aes_gcm datagram header roc encryption_key session_salt authentication_tag_len
  | AesCm128HmacSha1 encryption_key authentication_key session_salt authentication_tag_len
  | AesCm256HmacSha1 encryption_key authentication_key session_salt authentication_tag_len =>
      unprotect_aes_cm_hmac_sha1 datagram header packet_index roc encryption_key
        authentication_key session_salt authentication_tag_len
  end.

(** [u32::try_from] *)
Definition try_u32 (z : Z) : option Z := if z <=? U32_MAX then Some z else None.

(** The receiver changes in the last call only, so an error leaves it as it
    was. *)
Definition unprotect (self : t) (datagram : list u8) : outcome NvstDropReason (t * RtpPacket) :=
  header ← map_err MalformedRtp (RtpHeader.parse datagram);
  packet_index ← ReplayWindow.guess_packet_index (replay self) (RtpHeader.sequence_number header);
  roc ← ok_or (try_u32 (Z.shiftr packet_index 16)) ReplayRejected;
  plaintext ← decrypt (cipher self) datagram header packet_index roc;
  ReplayWindow.check (replay self) packet_index;;
  map_err MalformedRtp (RtpHeader.payload header plaintext);;
  replay ← ReplayWindow.commit (replay self) packet_index;
  mret ({| cipher := cipher self; replay := replay |},
        {| pk_index := packet_index; pk_header := header;
           pk_plaintext := plaintext; pk_origin := Authenticated |}).

End SrtpReceiver.
End SrtpReceiver.

(** ** The sender's transform

    What a keyed sender does with a packet of which [front] is the header (up
    to the payload offset) and [back] the rest: the transform the receiver
    inverts (RFC 3711 and RFC 7714, with the tag truncated). *)

Section Spec.
Context `{CryptoLaws}.

Definition protect_gcm {E} (encryption_key session_salt : list u8) (tag_len ssrc sequence_number index : Z)
    (front back : list u8) : outcome E (list u8) :=
  iv ← srtp_gcm_iv session_salt ssrc (Z.shiftr index 16) sequence_number;
  stream ← aes_gcm_tag_and_ctr encryption_key iv [] [];
  let ciphertext := (apply_keystream stream.2 back).1 in
  sealed ← aes_gcm_tag_and_ctr encryption_key iv front ciphertext;
  tag ← slice sealed.1 0 tag_len;
  mret (front ++ ciphertext ++ tag).

Definition protect_cm {E} (encryption_key authentication_key session_salt : list u8)
    (tag_len ssrc index : Z) (front back : list u8) : outcome E (list u8) :=
  iv ← srtp_aes_cm_iv session_salt ssrc index;
  aes ← select_aes encryption_key;
  let ciphertext := (apply_keystream (new_stream (ctr128be aes encryption_key iv)) back).1 in
  tag ← slice (hmac_sha1 authentication_key
                 ((front ++ ciphertext) ++ to_be_bytes 4 (Z.shiftr index 16))) 0 tag_len;
  mret (front ++ ciphertext ++ tag).

Definition protect {E} (cipher : SrtpCipher) (ssrc sequence_number index : Z) (front back : list u8)
    : outcome E (list u8) :=
  match cipher with
  | AeadAes128Gcm key salt n | AeadAes256Gcm key salt n =>
      protect_gcm key salt n ssrc sequence_number index front back
  | AesCm128HmacSha1 key auth salt n | AesCm256HmacSha1 key auth salt n =>
      protect_cm key auth salt n ssrc index front back
  end.

(** ** Sizes *)

Definition key_ok (key : list u8) : Prop := zlen key = 16 \/ zlen key = 32.
Definition cipher_wf (c : SrtpCipher) : Prop :=
  match c with
  | AeadAes128Gcm key salt n | AeadAes256Gcm key salt n =>
      key_ok key /\ zlen salt = 12 /\ 0 <= n <= 16
  | AesCm128HmacSha1 key auth salt n | AesCm256HmacSha1 key auth salt n =>
      key_ok key /\ zlen salt = 14 /\ 0 <= n <= 20
  end.

(** The material [from_legacy_handoff] builds: fixed-size arrays and the tag
    lengths of the profiles. *)
Definition material_wf (m : NvstSrtpMaterial) : Prop :=
  match m with
  | MaterialAeadAes128Gcm key salt n => zlen key = 16 /\ zlen salt = 12 /\ (n = 8 \/ n = 16)
  | MaterialAeadAes256Gcm key salt n => zlen key = 32 /\ zlen salt = 12 /\ (n = 8 \/ n = 16)
  | MaterialAesCm128HmacSha1 key salt n => zlen key = 16 /\ zlen salt = 14 /\ (n = 4 \/ n = 10)
  | MaterialAesCm256HmacSha1 key salt n => zlen key = 32 /\ zlen salt = 14 /\ (n = 4 \/ n = 10)
  end.

Ltac sized_step :=
  match goal with
  | |- context [set_slice ?l ?a ?b ?v] =>
      let x := fresh "x" in let Hx := fresh "Hx" in let Hl := fresh "Hl" in
      destruct (set_slice_zlen l a b v) as (x & Hx & Hl);
      [autorewrite with zlens in *; rewrite ?zlen_zeroes in * by lia; lia..|];
      setoid_rewrite Hx
  | |- context [xor_range ?l ?a ?b ?v] =>
      let x := fresh "x" in let Hx := fresh "Hx" in let Hl := fresh "Hl" in
      destruct (xor_range_Ok l a b v) as (x & Hx & Hl);
      [rewrite ?zlen_zeroes in * by lia; lia..|];
      setoid_rewrite Hx
  end; cbn [mbind outcome_bind].

Lemma srtp_gcm_iv_Ok salt ssrc roc seq :
  zlen salt = 12 ->
  exists iv, (forall E, srtp_gcm_iv (E:=E) salt ssrc roc seq = Ok iv) /\ zlen iv = 12.
Proof. intros Hs. unfold srtp_gcm_iv. repeat sized_step. eexists. split; [reflexivity|lia]. Qed.

Lemma srtp_aes_cm_iv_Ok salt ssrc index :
  zlen salt = 14 ->
  exists iv, (forall E, srtp_aes_cm_iv (E:=E) salt ssrc index = Ok iv) /\ zlen iv = 16.
Proof.
  intros Hs. unfold srtp_aes_cm_iv. repeat sized_step.
  assert (Hi : forall E, slice (E:=E) (to_be_bytes 8 index) 2 8 = Ok (take 6 (drop 2 (to_be_bytes 8 index))))
    by (intros; apply slice_Ok; autorewrite with zlens; lia).
  setoid_rewrite Hi. cbn [mbind outcome_bind]. repeat sized_step. eexists. split; [reflexivity|].
  rewrite zlen_zeroes in * by lia. lia.
Qed.

Lemma select_aes_Ok key : key_ok key -> exists aes, forall E, select_aes (E:=E) key = Ok aes.
Proof. unfold select_aes. intros [-> | ->]; eexists; reflexivity. Qed.

Lemma derive_key_Ok {E} aes n key salt label :
  zlen salt <= 16 -> 0 <= n ->
  exists k, derive_key (E:=E) aes n key salt label = Ok k /\ zlen k = n.
Proof.
  intros Hs Hn. unfold derive_key. pose proof (zlen_nonneg salt). sized_step.
  rewrite zlen_zeroes in * by lia. step_idx. rewrite set_idx_Ok by lia. obind.
  eexists. split; [reflexivity|]. autorewrite with zlens. by apply zlen_zeroes.
Qed.

(** The tag is a function of the associated data and the ciphertext, and the
    counter stream does not depend on them. *)
Lemma aes_gcm_tag_and_ctr_Ok key iv :
  key_ok key -> zlen iv = 12 ->
  exists tag ctr, forall aad ct, (forall E, aes_gcm_tag_and_ctr (E:=E) key iv aad ct = Ok (tag aad ct, ctr))
    /\ zlen (tag aad ct) = 16.
Proof.
  intros Hk Hiv. destruct (select_aes_Ok key Hk) as [aes Haes].
  destruct (set_slice_zlen (zeroes 16) 0 12 iv) as (j0 & Hj0 & Hlj);
    [lia|rewrite zlen_zeroes; lia|lia|]. rewrite zlen_zeroes in Hlj by lia.
  set (j1 := <[Z.to_nat 15 := z2b 1]> j0).
  set (mask := apply_keystream (new_stream (ctr32be aes key j1)) (zeroes 16)).
  set (lens := fun aad ct : list u8 => splice (splice (zeroes 16) 0 (to_be_bytes 8 (zlen aad * 8))) 8 (to_be_bytes 8 (zlen ct * 8))).
  set (tag := fun aad ct => xor_bytes (ghash_finalize (ghash_update (update_padded (update_padded
    (ghash_new (encrypt_block aes key (zeroes 16))) aad) ct) (lens aad ct))) mask.1).
  exists (fun aad ct => splice (zeroes 16) 0 (tag aad ct)), mask.2. intros aad ct.
  assert (Ht : zlen (tag aad ct) = 16) by (unfold tag; autorewrite with zlens; apply ghash_finalize_length).
  assert (Hz : zlen (zeroes 16) = 16) by (by rewrite zlen_zeroes).
  split; [|rewrite zlen_splice; lia].
  intros E. unfold aes_gcm_tag_and_ctr. rewrite Hj0. obind. rewrite set_idx_Ok by lia. obind.
  rewrite Haes. obind. fold j1. fold mask. rewrite (surjective_pairing mask). cbn [fst snd].
  rewrite set_slice_Ok by (autorewrite with zlens; lia). obind.
  assert (Hs : zlen (splice (zeroes 16) 0 (to_be_bytes 8 (zlen aad * 8))) = 16).
  { rewrite zlen_splice; autorewrite with zlens; lia. }
  rewrite set_slice_Ok by (autorewrite with zlens; lia). obind. fold (lens aad ct). fold (tag aad ct).
  rewrite set_slice_Ok by lia. obind. done.
Qed.

(** ** One view of the four profiles *)

(** What a receiver with key stream [c] and tag function [T] of length [n]
    answers. *)
Definition open_view (c : StreamCipher) (T : list u8 -> list u8 -> list u8) (n : Z)
    (d : list u8) (offset : Z) : outcome NvstDropReason (list u8) :=
  if zlen d - n <? offset then Err (MalformedRtp MissingAuthenticationTag) else
  let front := take (Z.to_nat offset) d in
  let ct := take (Z.to_nat (zlen d - n - offset)) (drop (Z.to_nat offset) d) in
  let tag := drop (Z.to_nat (zlen d - n)) d in
  if bool_decide (T front ct = tag) then Ok (front ++ (apply_keystream c ct).1)
  else Err AuthenticationFailed.

Lemma three_parts (d : list u8) a b :
  0 <= a <= b -> b <= zlen d ->
  exists front ct tag, d = front ++ ct ++ tag /\ zlen front = a /\ zlen ct = b - a /\ zlen tag = zlen d - b.
Proof.
  intros Ha Hb. exists (take (Z.to_nat a) d), (take (Z.to_nat (b - a)) (drop (Z.to_nat a) d)), (drop (Z.to_nat b) d).
  split_and!.
  - replace (Z.to_nat b) with (Z.to_nat a + Z.to_nat (b - a))%nat by lia.
    by rewrite <- drop_drop, take_drop, take_drop.
  - unfold zlen in *. rewrite length_take. lia.
  - unfold zlen in *. rewrite length_take, length_drop. lia.
  - unfold zlen in *. rewrite length_drop. lia.
Qed.

(** The slices of a datagram in its three parts. *)
Lemma part_slices {E} (front ct tag : list u8) :
  slice (E:=E) (front ++ ct ++ tag) 0 (zlen front) = Ok front
  /\ slice (E:=E) (front ++ ct ++ tag) (zlen front) (zlen front + zlen ct) = Ok ct
  /\ slice (E:=E) (front ++ ct ++ tag) 0 (zlen front + zlen ct) = Ok (front ++ ct)
  /\ slice (E:=E) (front ++ ct ++ tag) (zlen front + zlen ct) (zlen front + zlen ct + zlen tag) = Ok tag.
Proof.
  split_and!.
  - by apply (slice_app [] front (ct ++ tag)).
  - by apply (slice_app front ct tag).
  - rewrite (app_assoc front). apply (slice_app [] (front ++ ct) tag); [done|autorewrite with zlens; lia].
  - rewrite <- (app_nil_r tag) at 1. rewrite (app_assoc front).
    apply (slice_app (front ++ ct) tag []); autorewrite with zlens; lia.
Qed.

Lemma open_view_parts c T n front ct tag :
  zlen tag = n ->
  open_view c T n (front ++ ct ++ tag) (zlen front)
  = if bool_decide (T front ct = tag) then Ok (front ++ (apply_keystream c ct).1) else Err AuthenticationFailed.
Proof.
  intros <-. unfold open_view. pose proof (zlen_nonneg ct).
  replace (zlen (front ++ ct ++ tag) - zlen tag) with (zlen front + zlen ct) by (autorewrite with zlens; lia).
  zcase (zlen front + zlen ct <? zlen front).
  replace (take (Z.to_nat (zlen front)) (front ++ ct ++ tag)) with front
    by (unfold zlen; by rewrite Nat2Z.id, take_app_length).
  replace (drop (Z.to_nat (zlen front)) (front ++ ct ++ tag)) with (ct ++ tag)
    by (unfold zlen; by rewrite Nat2Z.id, drop_app_length).
  replace (take (Z.to_nat (zlen front + zlen ct - zlen front)) (ct ++ tag)) with ct
    by (rewrite Z.add_simpl_l; unfold zlen; by rewrite Nat2Z.id, take_app_length).
  replace (drop (Z.to_nat (zlen front + zlen ct)) (front ++ ct ++ tag)) with tag; [done|].
  rewrite (app_assoc front), drop_app_length'; [done|]. unfold zlen. rewrite length_app. lia.
Qed.

Lemma too_short {E} (d : list u8) n offset (e : E) :
  0 <= offset -> zlen d - n < offset ->
  (ok_or (checked_sub (zlen d) n) e = Err e)
  \/ (ok_or (checked_sub (zlen d) n) e = Ok (zlen d - n) /\ guard_err (zlen d - n <? offset) e = Err e).
Proof.
  intros Ho Hl. unfold checked_sub. destruct (Z.leb_spec n (zlen d)); [right|by left].
  split; [done|]. unfold guard_err. by rewrite (proj2 (Z.ltb_lt _ _)).
Qed.

Lemma long_enough {E} (front ct tag : list u8) (e : E) :
  ok_or (checked_sub (zlen (front ++ ct ++ tag)) (zlen tag)) e = Ok (zlen front + zlen ct)
  /\ guard_err (zlen front + zlen ct <? zlen front) e = Ok tt.
Proof.
  pose proof (zlen_nonneg front). pose proof (zlen_nonneg ct). pose proof (zlen_nonneg tag).
  unfold checked_sub, guard_err. rewrite (proj2 (Z.leb_le _ _)) by (autorewrite with zlens; lia).
  rewrite (proj2 (Z.ltb_ge _ _)) by lia. split; [|done]. cbn. f_equal. autorewrite with zlens. lia.
Qed.

(** Every well-formed cipher, at a given packet, is a key stream and a tag
    function: [protect] encrypts and appends the tag, [decrypt] is
    [open_view]. *)
Definition viewed (cipher : SrtpCipher) (ssrc seq index : Z) (c : StreamCipher)
    (T : list u8 -> list u8 -> list u8) (n : Z) : Prop :=
  0 <= n
  /\ (forall front ct, zlen (T front ct) = n)
  /\ (forall E front back, protect (E:=E) cipher ssrc seq index front back
      = Ok (front ++ (apply_keystream c back).1 ++ T front (apply_keystream c back).1))
  /\ (forall d h, RtpHeader.ssrc h = ssrc -> RtpHeader.sequence_number h = seq ->
      0 <= RtpHeader.payload_offset h <= zlen d ->
      SrtpReceiver.decrypt cipher d h index (Z.shiftr index 16)
      = open_view c T n d (RtpHeader.payload_offset h)).

Lemma gcm_viewed key salt n ssrc seq index :
  key_ok key -> zlen salt = 12 -> 0 <= n <= 16 ->
  exists c T, 
    (forall front ct, zlen (T front ct) = n)
    /\ (forall E front back, protect_gcm (E:=E) key salt n ssrc seq index front back
        = Ok (front ++ (apply_keystream c back).1 ++ T front (apply_keystream c back).1))
    /\ (forall d h, RtpHeader.ssrc h = ssrc -> RtpHeader.sequence_number h = seq ->
        0 <= RtpHeader.payload_offset h <= zlen d ->
        unprotect_aes_gcm d h (Z.shiftr index 16) key salt n
        = open_view c T n d (RtpHeader.payload_offset h)).
Proof.
  intros Hk Hs Hn. destruct (srtp_gcm_iv_Ok salt ssrc (Z.shiftr index 16) seq Hs) as (iv & Hiv & Hl).
  destruct (aes_gcm_tag_and_ctr_Ok key iv Hk Hl) as (tag & c & Ht).
  exists c, (fun front ct => take (Z.to_nat n) (tag front ct)). split_and!.
  - intros. destruct (Ht front ct) as [_ H16]. unfold zlen in *. rewrite length_take. lia.
  - intros E front back. unfold protect_gcm. rewrite Hiv. obind. rewrite (proj1 (Ht _ _)). obind.
    rewrite (proj1 (Ht _ _)). obind. cbn [fst snd].
    rewrite slice_Ok by (rewrite ?(proj2 (Ht _ _)); lia). obind.
    by rewrite Z.sub_0_r, drop_0.
  - intros d h Hss Hsq Ho. unfold unprotect_aes_gcm. rewrite Hss, Hsq, Hiv.
    destruct (decide (zlen d - n < RtpHeader.payload_offset h)) as [Hshort|Hlong].
    { unfold open_view. rewrite (proj2 (Z.ltb_lt _ _)) by done.
      destruct (too_short d n (RtpHeader.payload_offset h) (MalformedRtp MissingAuthenticationTag))
        as [->|[-> Hg]]; [lia|done|done|]. obind. by rewrite Hg. }
    destruct (three_parts d (RtpHeader.payload_offset h) (zlen d - n)) as (front & ct & rtag & -> & Hf & Hc & Hr);
      [lia|lia|]. assert (Hrn : zlen rtag = n) by (autorewrite with zlens in *; lia).
    rewrite <- Hf, <- Hrn. rewrite open_view_parts by done.
    destruct (long_enough front ct rtag (MalformedRtp MissingAuthenticationTag)) as [-> Hg]. obind.
    rewrite Hg. obind. destruct (part_slices (E:=NvstDropReason) front ct rtag) as (S1 & S2 & S3 & S4).
    rewrite S1. obind. rewrite S2. obind.
    replace (zlen (front ++ ct ++ rtag)) with (zlen front + zlen ct + zlen rtag) by (autorewrite with zlens; lia).
    rewrite S4. obind. rewrite (proj1 (Ht _ _)). obind.
    rewrite (slice_Ok (tag front ct)) by (rewrite ?(proj2 (Ht _ _)); lia). obind.
    rewrite Z.sub_0_r, drop_0, Hrn.
    destruct (bool_decide (take (Z.to_nat n) (tag front ct) = rtag)); [|done].
    cbn [negb guard_err]. obind. rewrite S3. obind. rewrite apply_keystream_from_app. done.
Qed.

Lemma cm_viewed key auth salt n ssrc index :
  key_ok key -> zlen salt = 14 -> 0 <= n <= 20 ->
  exists c T, 
    (forall front ct, zlen (T front ct) = n)
    /\ (forall E front back, protect_cm (E:=E) key auth salt n ssrc index front back
        = Ok (front ++ (apply_keystream c back).1 ++ T front (apply_keystream c back).1))
    /\ (forall d h, RtpHeader.ssrc h = ssrc ->
        0 <= RtpHeader.payload_offset h <= zlen d ->
        unprotect_aes_cm_hmac_sha1 d h index (Z.shiftr index 16) key auth salt n
        = open_view c T n d (RtpHeader.payload_offset h)).
Proof.
  intros Hk Hs Hn. destruct (srtp_aes_cm_iv_Ok salt ssrc index Hs) as (iv & Hiv & Hl).
  destruct (select_aes_Ok key Hk) as [aes Haes].
  set (mac := fun front ct : list u8 => hmac_sha1 auth ((front ++ ct) ++ to_be_bytes 4 (Z.shiftr index 16))).
  assert (Hm : forall front ct, zlen (mac front ct) = 20) by (intros; apply hmac_sha1_length).
  exists (new_stream (ctr128be aes key iv)), (fun front ct => take (Z.to_nat n) (mac front ct)). split_and!.
  - intros. pose proof (Hm front ct). unfold zlen in *. rewrite length_take. lia.
  - intros E front back. unfold protect_cm. rewrite Hiv. obind. rewrite Haes. obind.
    fold (mac front (apply_keystream (new_stream (ctr128be aes key iv)) back).1).
    rewrite slice_Ok by (rewrite ?Hm; lia). obind. by rewrite Z.sub_0_r, drop_0.
  - intros d h Hss Ho. unfold unprotect_aes_cm_hmac_sha1. rewrite Hss.
    destruct (decide (zlen d - n < RtpHeader.payload_offset h)) as [Hshort|Hlong].
    { unfold open_view. rewrite (proj2 (Z.ltb_lt _ _)) by done.
      destruct (too_short d n (RtpHeader.payload_offset h) (MalformedRtp MissingAuthenticationTag))
        as [->|[-> Hg]]; [lia|done|done|]. obind. by rewrite Hg. }
    destruct (three_parts d (RtpHeader.payload_offset h) (zlen d - n)) as (front & ct & rtag & -> & Hf & Hc & Hr);
      [lia|lia|]. assert (Hrn : zlen rtag = n) by (autorewrite with zlens in *; lia).
    rewrite <- Hf, <- Hrn. rewrite open_view_parts by done.
    destruct (long_enough front ct rtag (MalformedRtp MissingAuthenticationTag)) as [-> Hg]. obind.
    rewrite Hg. obind. destruct (part_slices (E:=NvstDropReason) front ct rtag) as (S1 & S2 & S3 & S4).
    replace (zlen (front ++ ct ++ rtag)) with (zlen front + zlen ct + zlen rtag) by (autorewrite with zlens; lia).
    rewrite S3, S4. obind. fold (mac front ct).
    rewrite (slice_Ok (mac front ct)) by (rewrite ?Hm; lia). obind.
    rewrite Z.sub_0_r, drop_0, Hrn.
    destruct (bool_decide (take (Z.to_nat n) (mac front ct) = rtag)); [|done].
    cbn [negb guard_err]. obind. rewrite Hiv. obind. rewrite Haes. obind.
    rewrite apply_keystream_from_app. done.
Qed.

Lemma cipher_viewed cipher ssrc seq index :
  cipher_wf cipher -> exists c T n, viewed cipher ssrc seq index c T n.
Proof.
  unfold viewed. destruct cipher; cbn [cipher_wf protect SrtpReceiver.decrypt]; intros (Hk & Hs & Hn).
  1,2: destruct (gcm_viewed encryption_key session_salt authentication_tag_len ssrc seq index Hk Hs Hn)
    as (c & T & ? & ? & ?); exists c, T, authentication_tag_len; split_and!; [lia|done..].
  all: destruct (cm_viewed encryption_key authentication_key session_salt authentication_tag_len ssrc index Hk Hs Hn)
    as (c & T & ? & ? & ?); exists c, T, authentication_tag_len; split_and!; [lia|auto..].
Qed.

(** ** Key schedules *)

Lemma from_material_wf {E} material :
  material_wf material ->
  exists rx, SrtpReceiver.from_material (E:=E) material = Ok rx
    /\ cipher_wf (SrtpReceiver.cipher rx) /\ SrtpReceiver.replay rx = ReplayWindow.default.
Proof.
  unfold SrtpReceiver.from_material, derive_aes128_cm_key, derive_aes_cm_key, material_wf, key_ok.
  destruct material as [key salt n|key salt n|key salt n|key salt n]; intros (Hk & Hs & Hn);
    repeat match goal with
    | |- context [derive_key (E:=?E) ?a ?n ?k ?s ?l] =>
        let x := fresh "k" in let Hx := fresh "Hk" in
        destruct (derive_key_Ok (E:=E) a n k s l) as (x & -> & Hx); [lia|lia|]; obind
    end;
    (eexists; split_and!; [reflexivity| |reflexivity]); cbn; unfold key_ok; lia.
Qed.

(** ** One datagram *)

Lemma guess_total w seq :
  is_u16 seq ->
  match ReplayWindow.guess_packet_index w seq with
  | Ok i => is_u64 i
  | Err e => e = ReplayRejected
  | Panic => False
  end.
Proof.
  intros Hs. assert (is_u64 seq) by (unfold is_u16, is_u64 in *; lia).
  unfold ReplayWindow.guess_packet_index, ok_or, mret, outcome_ret.
  destruct (ReplayWindow.highest_index w); [|done].
  repeat case_match; simplify_eq/=; try done; apply is_u64_lor; auto using as_u64_range.
Qed.

Lemma rejected_fresh w S i : replay_rel w S -> spec_accepts S i -> i ∉ S.
Proof.
  intros [_ _ Hh] Hs HiS. destruct (ReplayWindow.highest_index w) as [h|]; [|set_solver].
  destruct Hh as (HhS & Hmax & _). pose proof (Hmax _ HiS).
  destruct (Hs h HhS) as [?|[_ ?]]; [intros; by apply Hmax|lia|done].
Qed.

(** What an accepted datagram proves: it is exactly what a sender holding the
    keys makes of the returned packet. *)
Definition genuine (cipher : SrtpCipher) (d : list u8) (p : RtpPacket) : Prop :=
  RtpHeader.parse d = Ok (pk_header p)
  /\ 0 <= pk_index p < 2 ^ 48
  /\ RtpHeader.payload_offset (pk_header p) <= zlen (pk_plaintext p)
  /\ no_panic (RtpHeader.payload (pk_header p) (pk_plaintext p))
  /\ (forall e, RtpHeader.payload (pk_header p) (pk_plaintext p) <> Err e)
  /\ protect (E:=NvstDropReason) cipher (RtpHeader.ssrc (pk_header p)) (RtpHeader.sequence_number (pk_header p))
       (pk_index p) (take (Z.to_nat (RtpHeader.payload_offset (pk_header p))) (pk_plaintext p))
       (drop (Z.to_nat (RtpHeader.payload_offset (pk_header p))) (pk_plaintext p)) = Ok d.

Lemma open_view_inv c T n d offset plain :
  0 <= n -> 0 <= offset <= zlen d -> open_view c T n d offset = Ok plain ->
  exists front back, plain = front ++ back /\ zlen front = offset
    /\ d = front ++ (apply_keystream c back).1 ++ T front (apply_keystream c back).1.
Proof.
  intros Hn Ho Hv. destruct (decide (zlen d - n < offset)).
  { unfold open_view in Hv. rewrite (proj2 (Z.ltb_lt _ _)) in Hv by done. done. }
  destruct (three_parts d offset (zlen d - n)) as (front & ct & tag & -> & Hf & Hc & Ht); [lia|lia|].
  rewrite <- Hf in Hv. rewrite open_view_parts in Hv by (autorewrite with zlens in *; lia).
  case_bool_decide as HT; [|done]. injection Hv as <-.
  exists front, (apply_keystream c ct).1. rewrite apply_keystream_involutive. by rewrite HT.
Qed.

Lemma split_plain (front back : list u8) :
  take (Z.to_nat (zlen front)) (front ++ back) = front /\ drop (Z.to_nat (zlen front)) (front ++ back) = back.
Proof. unfold zlen. rewrite Nat2Z.id. by rewrite take_app_length, drop_app_length. Qed.

(** The reasons for which a datagram is refused. *)
Definition datagram_refused (e : NvstDropReason) : Prop :=
  match e with MalformedRtp _ | AuthenticationFailed | ReplayRejected => True | _ => False end.

Lemma unprotect_spec rx S d :
  cipher_wf (SrtpReceiver.cipher rx) -> replay_rel (SrtpReceiver.replay rx) S ->
  match SrtpReceiver.unprotect rx d with
  | Ok (rx', p) => SrtpReceiver.cipher rx' = SrtpReceiver.cipher rx
      /\ (pk_index p ∉ S) /\ replay_rel (SrtpReceiver.replay rx') ({[pk_index p]} ∪ S)
      /\ genuine (SrtpReceiver.cipher rx) d p /\ pk_origin p = Authenticated
  | Err e => datagram_refused e
  | Panic => False
  end.
Proof.
  intros Hc Hr. unfold SrtpReceiver.unprotect. pose proof (parse_spec d) as Hp.
  destruct (RtpHeader.parse d) as [h| |] eqn:Epd; [|done|done]. destruct Hp as [Hwf Hle]. cbn [map_err]. obind.
  pose proof (guess_total (SrtpReceiver.replay rx) _ (wf_sequence h Hwf)) as Hg.
  destruct (ReplayWindow.guess_packet_index _ _) as [i|e|] eqn:Eg; [|by rewrite Hg|done]. obind.
  unfold SrtpReceiver.try_u32. destruct (Z.leb_spec (Z.shiftr i 16) U32_MAX) as [Hroc|]; [|done]. obind.
  assert (Hi : 0 <= i < 2 ^ 48).
  { unfold is_u64 in Hg. rewrite Z.shiftr_div_pow2 in Hroc by lia. unfold U32_MAX in Hroc.
    pose proof (Z.div_mod i (2 ^ 16)). pose proof (Z.mod_pos_bound i (2 ^ 16)). lia. }
  destruct (cipher_viewed (SrtpReceiver.cipher rx) (RtpHeader.ssrc h) (RtpHeader.sequence_number h) i Hc)
    as (c & T & n & Hn & _ & Hprot & Hopen).
  pose proof (wf_offset h Hwf). rewrite (Hopen d h eq_refl eq_refl) by lia.
  assert (Herr : match open_view c T n d (RtpHeader.payload_offset h) with
    | Ok _ => True | Err e => datagram_refused e | Panic => False end) by (unfold open_view; destruct (_ <? _); [done|]; by destruct (bool_decide _)).
  destruct (open_view c T n d (RtpHeader.payload_offset h)) as [plain| |] eqn:Ev; [|done|done]. obind. clear Herr.
  destruct (open_view_inv c T n d (RtpHeader.payload_offset h) plain Hn ltac:(lia) Ev) as (front & back & -> & Hf & Hd).
  destruct (check_refines _ S i Hr) as [[-> Hs]|[-> _]]; [lia| |done]. obind.
  pose proof (payload_spec h (front ++ back) ltac:(lia)) as Hpay.
  destruct (RtpHeader.payload h (front ++ back)) as [body| |] eqn:Epay; [|done|done]. cbn [map_err]. obind.
  destruct (commit_refines (SrtpReceiver.replay rx) S i Hr Hg) as (w' & -> & Hr').
  { destruct (check_refines _ S i Hr) as [[-> _]|[_ ?]]; [lia|done|done]. }
  obind. unfold mret, outcome_ret. cbn [pk_index pk_header pk_plaintext pk_origin SrtpReceiver.cipher SrtpReceiver.replay].
  split_and!; [done|by eapply rejected_fresh|done| |done].
  unfold genuine. cbn [pk_index pk_header pk_plaintext]. rewrite <- Hf.
  destruct (split_plain front back) as [-> ->]. rewrite Epay, Hprot, <- Hd.
  split_and!; [done|lia|lia| |done|done|done].
  autorewrite with zlens. pose proof (zlen_nonneg back). lia.
Qed.

(** ** Sessions *)

(** The datagrams of a session in order of arrival, each answered by a drop
    reason or by the decrypted packet. *)
Fixpoint receive (rx : SrtpReceiver.t) (ds : list (list u8))
    : outcome Empty_set (list (NvstDropReason + RtpPacket)) :=
  match ds with
  | [] => mret []
  | d :: ds =>
      match SrtpReceiver.unprotect rx d with
      | Ok (rx, p) => rest ← receive rx ds; mret (inr p :: rest)
      | Err e => rest ← receive rx ds; mret (inl e :: rest)
      | Panic => Panic
      end
  end.

Definition accepted (results : list (NvstDropReason + RtpPacket)) : list RtpPacket :=
  omap (M := list) (fun r => match r with inr p => Some p | inl _ => None end) results.

Definition answer_ok (cipher : SrtpCipher) (d : list u8) (r : NvstDropReason + RtpPacket) : Prop :=
  match r with inr p => genuine cipher d p | inl _ => True end.

Lemma receive_safe ds rx S :
  cipher_wf (SrtpReceiver.cipher rx) -> replay_rel (SrtpReceiver.replay rx) S ->
  exists results, receive rx ds = Ok results
    /\ Forall2 (answer_ok (SrtpReceiver.cipher rx)) ds results
    /\ NoDup (map pk_index (accepted results))
    /\ (forall p, p ∈ accepted results -> pk_index p ∉ S).
Proof.
  revert rx S. induction ds as [|d ds IH]; intros rx S Hc Hr; cbn [receive].
  { exists []. split_and!; [done|constructor|constructor|set_solver]. }
  pose proof (unprotect_spec rx S d Hc Hr) as Hu.
  destruct (SrtpReceiver.unprotect rx d) as [[rx' p]|e|]; [..|done].
  - destruct Hu as (Hcc & Hnew & Hr' & Hg & _). rewrite <- Hcc in Hc.
    destruct (IH rx' _ Hc Hr') as (results & -> & Hall & Hnd & Hfresh). obind.
    rewrite Hcc in Hall. eexists. split; [reflexivity|]. split; [by constructor|].
    cbn [accepted omap list_omap map]. fold (accepted results). split.
    + apply NoDup_cons. split; [|done]. intros (q & Hq & Hin)%list_elem_of_fmap.
      apply Hfresh in Hin. set_solver.
    + intros q [->|Hq]%elem_of_cons; [done|]. apply Hfresh in Hq. set_solver.
  - destruct (IH rx S Hc Hr) as (results & -> & Hall & Hnd & Hfresh). obind.
    eexists. split; [reflexivity|]. by split; [constructor|].
Qed.

(** What a sender may emit after the packets of [S]: new indices, at most the
    replay window behind the newest one and less than half the sequence space
    ahead of it. *)
Definition near (S : gset Z) (i : Z) : Prop :=
  (S = ∅ -> i < 2 ^ 16)
  /\ forall h, h ∈ S -> (forall j, j ∈ S -> j <= h) -> h - SRTP_REPLAY_WINDOW_PACKETS < i < h + 32768.

Fixpoint sendable (S : gset Z) (l : list (Z * wire)) : Prop :=
  match l with
  | [] => True
  | (i, w) :: l => wire_ok w /\ w_sequence w = as_u16 i /\ 0 <= i < 2 ^ 48 /\ (i ∉ S) /\ near S i
      /\ sendable ({[i]} ∪ S) l
  end.

Definition send (cipher : SrtpCipher) (iw : Z * wire) : outcome Empty_set (list u8) :=
  protect cipher (w_ssrc iw.2) (w_sequence iw.2) iw.1 (wire_header iw.2) (w_body iw.2 ++ w_padding iw.2).

Definition sent_packet (iw : Z * wire) : RtpPacket := {|
  pk_index := iw.1; pk_header := wire_parsed iw.2; pk_plaintext := wire_bytes iw.2;
  pk_origin := Authenticated |}.

Lemma guess_near w S i :
  replay_rel w S -> 0 <= i < 2 ^ 48 -> near S i -> (forall j, j ∈ S -> j < 2 ^ 48) ->
  ReplayWindow.guess_packet_index w (as_u16 i) = Ok i.
Proof.
  intros [_ _ Hh] Hi [Hempty Hnear] Hb. destruct (ReplayWindow.highest_index w) as [h|] eqn:Eh.
  - destruct Hh as (HhS & Hmax & _). specialize (Hnear h HhS (fun j Hj => proj2 (Hmax j Hj))).
    pose proof (Hb h HhS). pose proof (Hmax h HhS). unfold SRTP_REPLAY_WINDOW_PACKETS, MAX_REORDER_WINDOW in Hnear.
    apply (guess_correct_lemma _ h); [done|unfold is_u64; lia..|lia].
  - unfold ReplayWindow.guess_packet_index. rewrite Eh. f_equal. apply as_u16_small.
    specialize (Hempty Hh). unfold is_u16. lia.
Qed.

Lemma unprotect_sent rx S iw l :
  cipher_wf (SrtpReceiver.cipher rx) -> replay_rel (SrtpReceiver.replay rx) S ->
  (forall j, j ∈ S -> j < 2 ^ 48) -> sendable S (iw :: l) ->
  exists d rx', send (SrtpReceiver.cipher rx) iw = Ok d
    /\ SrtpReceiver.unprotect rx d = Ok (rx', sent_packet iw)
    /\ SrtpReceiver.cipher rx' = SrtpReceiver.cipher rx
    /\ replay_rel (SrtpReceiver.replay rx') ({[iw.1]} ∪ S).
Proof.
  destruct iw as [i w]. cbn [sendable fst]. intros Hc Hr Hb (Hok & Hseq & Hi & HiS & Hnear & _).
  destruct (cipher_viewed _ (w_ssrc w) (w_sequence w) i Hc) as (c & T & n & Hn & HT & Hprot & Hopen).
  unfold send. cbn [fst snd]. rewrite Hprot. eexists. 
  set (ct := (apply_keystream c (w_body w ++ w_padding w)).1). set (d := _ ++ ct ++ _).
  assert (Hlen : zlen d = zlen (wire_header w) + zlen ct + n) by (unfold d; autorewrite with zlens; rewrite HT; lia).
  pose proof (zlen_nonneg ct). pose proof (zlen_nonneg (wire_header w)).
  assert (Hu64 : is_u64 i) by (unfold is_u64; lia).
  destruct (check_refines (SrtpReceiver.replay rx) S i Hr) as [[Hck _]|[_ Hns]]; [lia| |].
  2: { exfalso. apply Hns. intros h Hh Hm. pose proof (proj2 Hnear h Hh Hm).
       unfold SRTP_REPLAY_WINDOW_PACKETS in *. destruct (decide (h < i)); [by left|right]. split; [lia|done]. }
  destruct (commit_refines (SrtpReceiver.replay rx) S i Hr Hu64 Hck) as (w' & Hcommit & Hr').
  eexists. split; [reflexivity|]. unfold SrtpReceiver.unprotect, d. rewrite parse_header_lemma by done.
  cbn [map_err]. obind. change (RtpHeader.sequence_number (wire_parsed w)) with (w_sequence w). rewrite Hseq, (guess_near _ S) by done.
  obind. unfold SrtpReceiver.try_u32.
  assert (Z.shiftr i 16 <= U32_MAX) as Hroc.
  { rewrite Z.shiftr_div_pow2 by lia. unfold U32_MAX. pose proof (Z.div_mod i (2 ^ 16)).
    pose proof (Z.mod_pos_bound i (2 ^ 16)). lia. }
  rewrite (proj2 (Z.leb_le _ _) Hroc). obind.
  assert (Hdec : SrtpReceiver.decrypt (SrtpReceiver.cipher rx) d (wire_parsed w) i (Z.shiftr i 16)
    = Ok (wire_bytes w)).
  { rewrite (Hopen d (wire_parsed w)) by (done || (change (RtpHeader.payload_offset (wire_parsed w)) with (zlen (wire_header w)); lia)).
    unfold d, wire_bytes.
    change (RtpHeader.payload_offset (wire_parsed w)) with (zlen (wire_header w)).
    rewrite open_view_parts by apply HT. rewrite bool_decide_eq_true_2 by done.
    unfold ct. by rewrite apply_keystream_involutive. }
  unfold d, ct in Hdec. rewrite Hdec. obind. rewrite Hck. obind.
  rewrite payload_wire_lemma by done. cbn [map_err]. obind. rewrite Hcommit. obind.
  split_and!; [reflexivity|done|done].
Qed.

Lemma session_roundtrip_lemma l rx S :
  cipher_wf (SrtpReceiver.cipher rx) -> replay_rel (SrtpReceiver.replay rx) S ->
  (forall j, j ∈ S -> j < 2 ^ 48) -> sendable S l ->
  exists ds, Forall2 (fun iw d => send (SrtpReceiver.cipher rx) iw = Ok d) l ds
    /\ receive rx ds = Ok (map (fun iw => inr (sent_packet iw)) l).
Proof.
  revert rx S. induction l as [|iw l IH]; intros rx S Hc Hr Hb Hs.
  { exists []. split; [constructor|done]. }
  destruct (unprotect_sent rx S iw l Hc Hr Hb Hs) as (d & rx' & Hsend & Hun & Hcc & Hr').
  assert (Hs' : sendable ({[iw.1]} ∪ S) l) by (destruct iw; cbn in *; tauto).
  assert (Hi : iw.1 < 2 ^ 48) by (destruct iw; cbn in *; lia).
  destruct (IH rx' _ ltac:(by rewrite Hcc) Hr' ltac:(set_solver) Hs') as (ds & Hall & Hrec).
  rewrite Hcc in Hall. exists (d :: ds). split; [by constructor|].
  cbn [receive map]. rewrite Hun, Hrec. done.
Qed.
End Spec.

(** C14: Whatever datagrams arrive, in whatever order, the receiver built from
    well-formed key material never panics; it answers each with a drop reason
    or with a packet, the packets it accepts have pairwise different 48-bit
    indices, and each accepted datagram is, byte for byte, what a sender
    holding the session keys makes of the returned packet: a forged, altered
    or replayed datagram is dropped, whichever of the four profiles is used. *)
Theorem srtp_session_safe `{CryptoLaws} material ds :
  material_wf material ->
  exists rx results,
    SrtpReceiver.from_material (E:=NvstDropReason) material = Ok rx
    /\ receive rx ds = Ok results
    /\ Forall2 (answer_ok (SrtpReceiver.cipher rx)) ds results
    /\ NoDup (map pk_index (accepted results)).
Proof.
  intros Hm. destruct (from_material_wf (E:=NvstDropReason) material Hm) as (rx & Hrx & Hc & Hd).
  destruct (receive_safe ds rx ∅ Hc) as (results & Hres & Hall & Hnd & _);
    [rewrite Hd; apply replay_rel_default|]. by exists rx, results.
Qed.

(** C15: decryption inverts encryption for the four profiles: packets a sender
    protects with the session keys, reordered by less than the replay window
    and with gaps of less than half the sequence space, are all accepted, each
    with its 48-bit index, its header and its plaintext. *)
Theorem srtp_roundtrip `{CryptoLaws} material packets :
  material_wf material -> sendable ∅ packets ->
  exists rx ds,
    SrtpReceiver.from_material (E:=NvstDropReason) material = Ok rx
    /\ Forall2 (fun packet d => send (SrtpReceiver.cipher rx) packet = Ok d) packets ds
    /\ receive rx ds = Ok (map (fun packet => inr (sent_packet packet)) packets).
Proof.
  intros Hm Hs. destruct (from_material_wf (E:=NvstDropReason) material Hm) as (rx & Hrx & Hc & Hd).
  destruct (session_roundtrip_lemma packets rx ∅ Hc) as (ds & Hall & Hrec);
    [rewrite Hd; apply replay_rel_default|set_solver|done|]. by exists rx, ds.
Qed.

(** ** Concrete sessions *)

Definition toy_material : NvstSrtpMaterial :=
  MaterialAeadAes256Gcm (zeroes 32) (zeroes 12) SRTP_AEAD_AES_GCM_8_TAG_LEN.
Definition toy_packets : list (Z * wire) :=
  [(65535, sample_wire);
   (65537, {| w_marker := false; w_payload_type := 96; w_sequence := 1; w_timestamp := 90001;
              w_ssrc := 7; w_csrcs := []; w_gs := None; w_body := [Byte.x41]; w_padding := [] |});
   (65536, {| w_marker := false; w_payload_type := 96; w_sequence := 0; w_timestamp := 90001;
              w_ssrc := 7; w_csrcs := []; w_gs := None; w_body := [Byte.x42]; w_padding := [] |})].

Definition toy_receiver : outcome NvstDropReason SrtpReceiver.t := SrtpReceiver.from_material toy_material.
(** The protected packets, a replay of the first one and two forgeries. *)
Definition toy_datagrams : list (list u8) :=
  match toy_receiver with
  | Ok rx =>
      let sent := omap (M := list) (fun iw => match send (SrtpReceiver.cipher rx) iw with Ok d => Some d | _ => None end)
        toy_packets in
      sent ++ take 1 sent ++ map (fun d => d ++ [Byte.x00]) (take 1 sent) ++ [[Byte.x80]]
  | _ => []
  end.

Lemma srtp_session_safe_witness :
  match toy_receiver with
  | Ok rx => match receive rx toy_datagrams with
             | Ok results => map pk_index (accepted results) = [65535; 65537; 65536] /\ length results = 6%nat
             | _ => False
             end
  | _ => False
  end
  /\ exists rx results,
    SrtpReceiver.from_material (E:=NvstDropReason) toy_material = Ok rx
    /\ receive rx toy_datagrams = Ok results
    /\ Forall2 (answer_ok (SrtpReceiver.cipher rx)) toy_datagrams results
    /\ NoDup (map pk_index (accepted results)).
Proof.
  split; [vm_compute; split; reflexivity|]. apply (srtp_session_safe toy_material toy_datagrams).
  split_and!; [reflexivity|reflexivity|by left].
Defined.

Lemma near_range (S : gset Z) i :
  S <> ∅ -> (forall h, h ∈ S -> h - 2048 < i < h + 32768) -> near S i.
Proof. intros HS H. split; [done|]. intros h Hh _. by apply H. Qed.

Lemma sample_wire_ok : wire_ok sample_wire.
Proof.
  constructor; [vm_compute; split; congruence..| | |].
  - exists 2. split; [lia|reflexivity].
  - intros e [= <-]. reflexivity.
  - intros b [= <-]. reflexivity.
Qed.

Lemma toy_packets_sendable : sendable ∅ toy_packets.
Proof.
  assert (Hplain : forall seq b, 0 <= seq < 2 -> wire_ok
    {| w_marker := false; w_payload_type := 96; w_sequence := seq; w_timestamp := 90001;
       w_ssrc := 7; w_csrcs := []; w_gs := None; w_body := [b]; w_padding := [] |}).
  { intros seq b Hs. constructor; cbn; unfold is_u16, is_u32; try lia; try done. exists 0. split; [lia|done]. }
  cbn [sendable toy_packets].
  split; [apply sample_wire_ok|]. split; [done|]. split; [lia|]. split; [set_solver|].
  split; [split; [lia|set_solver]|].
  split; [by apply Hplain|]. split; [done|]. split; [lia|]. split; [set_solver by lia|].
  split; [apply near_range; [set_solver|intros h Hh; set_solver by lia]|].
  split; [by apply Hplain|]. split; [done|]. split; [lia|]. split; [set_solver by lia|].
  split; [apply near_range; [set_solver|intros h Hh; set_solver by lia]|done].
Qed.

Lemma srtp_roundtrip_witness :
  exists rx ds,
    SrtpReceiver.from_material (E:=NvstDropReason) toy_material = Ok rx
    /\ Forall2 (fun packet d => send (SrtpReceiver.cipher rx) packet = Ok d) toy_packets ds
    /\ receive rx ds = Ok (map (fun packet => inr (sent_packet packet)) toy_packets).
Proof.
  apply (srtp_roundtrip toy_material toy_packets); [|exact toy_packets_sendable].
  split_and!; [reflexivity|reflexivity|by left].
Defined.
