(* ===== verification/Rtcp.v ===== *)
(** * RTCP feedback packets

    The receiver reports, picture loss indications and generic NACKs of
    [nvst.rs], the SRTCP protection of the receiver report with its periodic
    sender, and [send_pending_nack], which turns the queue of [Nack] into
    packets on the channels of [InputChannels]. *)

From S2P Require Import Prelude Types Rtp Control Nack InputWire InputChannels Gf256 Crypto Srtp.

Definition GFN_SRTCP_KEY_LABEL : Z := 0x03.
Definition GFN_SRTCP_SALT_LABEL : Z := 0x05.
Definition SRTCP_ENCRYPTED_FLAG : Z := 0x80000000.
Definition RTCP_SENDER_SSRC : Z := 0x4f4e4f57.
Definition SRTCP_RR_INTERVAL : Z := from_secs 1.
Definition MAX_NACK_FCI_ENTRIES : Z := div_ceil MAX_NACK_PACKET_COUNT 17.

Record RtcpReportBlock := {
  media_ssrc : Z;
  fraction_lost : Z;
  cumulative_lost : Z;
  highest_sequence : Z;
  jitter : Z
}.

(** [&(cumulative_lost as u32).to_be_bytes()[1..]] *)
Definition cumulative_bytes (report : RtcpReportBlock) : list u8 :=
  drop 1 (to_be_bytes 4 (as_u32 (cumulative_lost report))).

Definition build_rtcp_receiver_report (sender_ssrc : Z) (report : RtcpReportBlock) : list u8 :=
  [z2b 0x81] ++ [z2b 201] ++ to_be_bytes 2 7 ++ to_be_bytes 4 sender_ssrc
  ++ to_be_bytes 4 (media_ssrc report) ++ [z2b (fraction_lost report)] ++ cumulative_bytes report
  ++ to_be_bytes 4 (highest_sequence report) ++ to_be_bytes 4 (jitter report)
  ++ to_be_bytes 4 0 ++ to_be_bytes 4 0.

Definition build_rtcp_pli (sender_ssrc media_ssrc : Z) : list u8 :=
  [z2b 0x81] ++ [z2b 206] ++ to_be_bytes 2 2 ++ to_be_bytes 4 sender_ssrc ++ to_be_bytes 4 media_ssrc.

(** ** Generic NACK *)

(** The bitmask of the packets after [current], at most sixteen. *)
Definition nack_blp (current effective_last : Z) : Z :=
  let represented_following := as_u16 (Z.min (effective_last - current) 16) in
  if represented_following =? 16 then U16_MAX else as_u16 (Z.shiftl 1 represented_following - 1).

(** The [while] loop; [room] is [MAX_NACK_FCI_ENTRIES - entries.len()]. *)
Fixpoint nack_entries (room : nat) (current effective_last : Z) : list (Z * Z) :=
  match room with
  | O => []
  | S room =>
      if current <=? effective_last
      then (as_u16 current, nack_blp current effective_last)
             :: nack_entries room (saturating_add64 current 17) effective_last
      else []
  end.

Definition build_rtcp_nack (sender_ssrc media_ssrc first_missing_index last_missing_index : Z) : list u8 :=
  let effective_last := Z.min last_missing_index
    (saturating_add64 first_missing_index (saturating_sub MAX_NACK_PACKET_COUNT 1)) in
  let entries := nack_entries (Z.to_nat MAX_NACK_FCI_ENTRIES) first_missing_index effective_last in
  [z2b 0x81] ++ [z2b 205] ++ to_be_bytes 2 (2 + as_u16 (zlen entries)) ++ to_be_bytes 4 sender_ssrc
  ++ to_be_bytes 4 media_ssrc
  ++ concat (map (fun entry => to_be_bytes 2 entry.1 ++ to_be_bytes 2 entry.2) entries).

Definition uses_rtcp_video_feedback (mjolnir rtcp_channel_open : bool) : bool :=
  negb mjolnir && rtcp_channel_open.

(** [(first..=last).map(|index| index as u16).collect()] *)
Definition missing_sequences (first last : Z) : list Z := map as_u16 (seqZ first (last - first + 1)).

Section SendNack.
Context {ChannelId : Type} `{EqDecision ChannelId} {Rtc : Type}
  (buffered_amount : Rtc -> ChannelId -> option Z)
  (channel_write : Rtc -> ChannelId -> list u8 -> Rtc * option bool).

(** The NACK queue is the part of the feedback state this function touches;
    [ping] is the measured round trip. *)
Definition send_pending_nack (pending : list range) (ping : option Z) (now : Z) (rtc : Rtc)
    (channels : NvstInputChannels (ChannelId:=ChannelId)) (mjolnir : bool) (sender_ssrc media_ssrc : Z)
    : outcome unit (list range * Rtc) :=
  match (if mjolnir then Some (control_partial channels) else rtcp channels) with
  | None => mret (pending, rtc)
  | Some channel =>
      if bool_decide (buffered_amount rtc channel = None) then mret (pending, rtc) else
      let retry_rtt := if mjolnir then Some (default DEFAULT_NACK_RTT ping) else None in
      match take_nack pending now retry_rtt with
      | (pending, None) => mret (pending, rtc)
      | (pending, Some (first, last)) =>
          '(rtc, admitted) ←
            (if mjolnir then
               command ← nack_v2 0 (missing_sequences first last);
               mret match command with
                    | Some command => send_partial_control buffered_amount channel_write channels rtc (encoded command)
                    | None => (rtc, false)
                    end
             else mret (send_rtcp buffered_amount channel_write channels rtc
                          (build_rtcp_nack sender_ssrc media_ssrc first last)));
          mret (if admitted : bool then pending else mark_nack_send_failed pending first last, rtc)
      end
  end.
End SendNack.

(** ** SRTCP *)

Definition srtcp_gcm_iv {E} (session_salt : list u8) (ssrc srtcp_index : Z) : outcome E (list u8) :=
  iv ← xor_range session_salt 2 6 (to_be_bytes 4 ssrc);
  xor_range iv 6 10 (to_be_bytes 4 srtcp_index).

Inductive SrtcpKey := SrtcpAes128 (key : list u8) | SrtcpAes256 (key : list u8).
Definition as_bytes (self : SrtcpKey) : list u8 :=
  match self with SrtcpAes128 key | SrtcpAes256 key => key end.

Section Srtcp.
Context `{Crypto}.

Definition protect_srtcp_receiver_report_gcm {E} (report : RtcpReportBlock) (srtcp_index : Z)
    (encryption_key session_salt : list u8) (tag_len : Z) : outcome E (list u8) :=
  let packet := [z2b 0x81] ++ [z2b 201] ++ to_be_bytes 2 7 ++ to_be_bytes 4 RTCP_SENDER_SSRC
    ++ to_be_bytes 4 (media_ssrc report) ++ [z2b (fraction_lost report)] ++ cumulative_bytes report
    ++ to_be_bytes 4 (highest_sequence report) ++ to_be_bytes 4 (jitter report)
    ++ to_be_bytes 4 0 ++ to_be_bytes 4 0 in
  let e_index := Z.lor SRTCP_ENCRYPTED_FLAG
    (Z.land srtcp_index (Z.lxor U32_MAX SRTCP_ENCRYPTED_FLAG)) in
  iv ← srtcp_gcm_iv session_salt RTCP_SENDER_SSRC srtcp_index;
  p8 ← packet.[8];
  packet ← set_idx packet 8 (z2b (Z.lor (b2z p8) 0x80));
  stream ← aes_gcm_tag_and_ctr encryption_key iv [] [];
  pc ← apply_keystream_from stream.2 packet 8;
  let packet := pc.1 in
  front ← slice packet 0 8;
  clear ← slice packet 8 16;
  let aad := front ++ clear in
  body ← slice packet 8 (zlen packet);
  sealed ← aes_gcm_tag_and_ctr encryption_key iv aad body;
  tag ← slice sealed.1 0 tag_len;
  mret (packet ++ tag ++ to_be_bytes 4 e_index).
End Srtcp.

Module SrtcpSender.
Record t := {
  encryption_key : SrtcpKey;
  session_salt : list u8;
  tag_len : Z;
  next_index : Z;
  last_sent : option Z
}.

Section SrtcpSender.
Context `{Crypto}.

Definition from_material {E} (material : NvstSrtpMaterial) : outcome E (option t) :=
  match material with
  | MaterialAeadAes128Gcm master_key master_salt authentication_tag_len =>
      key ← derive_aes128_cm_key 16 master_key master_salt GFN_SRTCP_KEY_LABEL;
      salt ← derive_aes128_cm_key 12 master_key master_salt GFN_SRTCP_SALT_LABEL;
      mret (Some {| encryption_key := SrtcpAes128 key; session_salt := salt;
                    tag_len := authentication_tag_len; next_index := 0; last_sent := None |})
  | MaterialAeadAes256Gcm master_key master_salt authentication_tag_len =>
      key ← derive_aes_cm_key 32 master_key master_salt GFN_SRTCP_KEY_LABEL;
      salt ← derive_aes_cm_key 12 master_key master_salt GFN_SRTCP_SALT_LABEL;
      mret (Some {| encryption_key := SrtcpAes256 key; session_salt := salt;
                    tag_len := authentication_tag_len; next_index := 0; last_sent := None |})
  | _ => mret None
  end.

Definition poll_receiver_report {E} (self : t) (report : option RtcpReportBlock) (now : Z)
    : outcome E (t * option (list u8)) :=
  match report with
  | None => mret (self, None)
  | Some report =>
      if match last_sent self with
         | Some last => saturating_duration_since now last <? SRTCP_RR_INTERVAL
         | None => false
         end
      then mret (self, None)
      else
        let index := next_index self in
        packet ← protect_srtcp_receiver_report_gcm report index (as_bytes (encryption_key self))
          (session_salt self) (tag_len self);
        mret ({| encryption_key := encryption_key self; session_salt := session_salt self;
                 tag_len := tag_len self; next_index := as_u32 (index + 1); last_sent := Some now |},
              Some packet)
  end.
End SrtcpSender.
End SrtcpSender.

(** ** What the packets say *)

(** A big-endian field, the way a receiver reads it. *)
Definition be_field (packet : list u8) (offset n : nat) : Z := from_be_bytes (take n (drop offset packet)).

(** The packets an FCI entry names: its PID and those of its bitmask. *)
Definition decode_fci (entry : Z * Z) : list Z :=
  entry.1 :: map (fun i => as_u16 (entry.1 + i + 1)) (List.filter (Z.testbit entry.2) (zrange 16)).

Fixpoint decode_fcis (n : nat) (bytes : list u8) : list Z :=
  match n with
  | O => []
  | S n => decode_fci (be_field bytes 0 2, be_field bytes 2 2) ++ decode_fcis n (drop 4 bytes)
  end.

(** A generic NACK (RFC 4585): [None] when it is not one, or when its length
    word is not its length. *)
Definition decode_rtcp_nack (packet : list u8) : option (Z * Z * list Z) :=
  if (be_field packet 0 2 =? 0x81cd) && (4 * (be_field packet 2 2 + 1) =? zlen packet) && (12 <=? zlen packet)
  then Some (be_field packet 4 4, be_field packet 8 4,
             decode_fcis (Z.to_nat (be_field packet 2 2 - 2)) (drop 12 packet))
  else None.

Lemma as_u16_add a b : as_u16 (as_u16 a + b) = as_u16 (a + b).
Proof. unfold as_u16. by rewrite Z.add_mod_idemp_l. Qed.

(** One entry names the run it was built from; the mask is one of seventeen. *)
Lemma blp_bits n :
  (n <= 16)%nat ->
  List.filter (Z.testbit (if Z.of_nat n =? 16 then U16_MAX else as_u16 (Z.shiftl 1 (Z.of_nat n) - 1))) (zrange 16)
  = zrange n.
Proof. intros Hn. do 17 (destruct n as [|n]; [reflexivity|]). lia. Qed.

Lemma seqZ_S m n : 0 <= n -> seqZ m (n + 1) = m :: map (fun i => m + i + 1) (zrange (Z.to_nat n)).
Proof.
  intros Hn. rewrite seqZ_cons by lia. f_equal. replace (Z.pred (n + 1)) with n by lia.
  unfold seqZ, zrange. rewrite map_map. apply map_ext. intros i. lia.
Qed.

Lemma decode_entry current effective_last :
  current <= effective_last ->
  decode_fci (as_u16 current, nack_blp current effective_last)
  = map as_u16 (seqZ current (Z.min (effective_last - current + 1) 17)).
Proof.
  intros Hle. set (n := Z.min (effective_last - current) 16).
  replace (Z.min (effective_last - current + 1) 17) with (n + 1) by lia.
  rewrite seqZ_S by lia. unfold decode_fci, nack_blp. fold n. cbn [fst snd map].
  rewrite (as_u16_small n) by (unfold is_u16; lia).
  pose proof (blp_bits (Z.to_nat n) ltac:(lia)) as Hb. rewrite Z2Nat.id in Hb by lia. rewrite Hb.
  f_equal. rewrite map_map. apply map_ext. intros i. rewrite <- Z.add_assoc, as_u16_add. f_equal. lia.
Qed.

Lemma nack_entries_decode room current effective_last :
  0 <= current -> effective_last + 17 < 2 ^ 64 ->
  concat (map decode_fci (nack_entries room current effective_last))
  = map as_u16 (seqZ current (Z.min (effective_last - current + 1) (17 * Z.of_nat room))).
Proof.
  intros Hc He. revert current Hc. induction room as [|room IH]; intros current Hc; cbn [nack_entries].
  - rewrite (seqZ_nil _ (Z.min _ _)) by lia. done.
  - zcase (current <=? effective_last).
    2: { rewrite (seqZ_nil _ (Z.min _ _)) by lia. done. }
    cbn [map concat]. rewrite decode_entry by done. rewrite saturating_add64_small by lia.
    rewrite IH by lia. rewrite <- map_app. f_equal.
    destruct (Z.le_gt_cases (effective_last - current + 1) 17) as [Hs|Hs].
    + rewrite (seqZ_nil (current + 17)) by lia. rewrite app_nil_r. f_equal. lia.
    + replace (Z.min (effective_last - current + 1) 17) with 17 by lia.
      replace (Z.min (effective_last - current + 1) (17 * Z.of_nat (S room)))
        with (17 + Z.min (effective_last - (current + 17) + 1) (17 * Z.of_nat room)) by lia.
      symmetry. apply seqZ_app; lia.
Qed.

Lemma entries_typed room current effective_last :
  Forall (fun entry => is_u16 entry.1 /\ is_u16 entry.2) (nack_entries room current effective_last)
  /\ (length (nack_entries room current effective_last) <= room)%nat.
Proof.
  revert current. induction room as [|room IH]; intros current; cbn [nack_entries]; [by split; [constructor|]|].
  destruct (current <=? effective_last); [|split; [constructor|cbn; lia]].
  destruct (IH (saturating_add64 current 17)) as [Ht Hl]. split; [|cbn; lia].
  constructor; [|done]. cbn. split; [apply as_u16_range|]. unfold nack_blp.
  destruct (_ =? 16); [unfold is_u16, U16_MAX; lia|apply as_u16_range].
Qed.

Lemma be_field_here n z q : 0 <= z < 256 ^ Z.of_nat n -> be_field (to_be_bytes n z ++ q) 0 n = z.
Proof.
  intros. unfold be_field. rewrite drop_0, take_app_length'; [by apply from_to_be_bytes|].
  by rewrite length_to_be_bytes.
Qed.
Lemma be_field_skip p q o n k : o = (length p + k)%nat -> be_field (p ++ q) o n = be_field q k n.
Proof. intros ->. unfold be_field. by rewrite <- drop_drop, drop_app_length. Qed.

(** Read a field of a concatenation of fields. *)
Ltac be_read := repeat first
  [rewrite be_field_here by (match goal with |- _ <= _ < ?p => let v := eval vm_compute in p in change p with v end; lia)
  |erewrite be_field_skip by (rewrite ?length_to_be_bytes; reflexivity)].

Lemma decode_fcis_concat entries :
  Forall (fun entry => is_u16 entry.1 /\ is_u16 entry.2) entries ->
  decode_fcis (length entries) (concat (map (fun entry : Z * Z => to_be_bytes 2 entry.1 ++ to_be_bytes 2 entry.2) entries))
  = concat (map decode_fci entries).
Proof.
  induction 1 as [|[pid blp] entries [Hp Hb] _ IH]; [done|]. cbn [length decode_fcis map concat fst snd] in *.
  rewrite <- !app_assoc. rewrite be_field_here by exact Hp.
  rewrite (be_field_skip (to_be_bytes 2 pid) _ _ _ 0) by (by rewrite length_to_be_bytes).
  rewrite be_field_here by exact Hb. by rewrite <- IH.
Qed.

Lemma concat_entries_length (entries : list (Z * Z)) :
  zlen (concat (map (fun entry : Z * Z => to_be_bytes 2 entry.1 ++ to_be_bytes 2 entry.2) entries)) = 4 * zlen entries.
Proof. induction entries as [|e es IH]; [done|]. cbn [map concat]. autorewrite with zlens. rewrite IH. lia. Qed.

(** A generic NACK packet is a well-formed RFC 4585 message of at most four
    FCI entries, and what it requests, decoded the way the sender does, is
    exactly the missing range, truncated to its first 64 packets. *)
Theorem rtcp_nack_requests_range sender_ssrc media_ssrc first last :
  is_u32 sender_ssrc -> is_u32 media_ssrc -> 0 <= first <= last -> last < 2 ^ 63 ->
  decode_rtcp_nack (build_rtcp_nack sender_ssrc media_ssrc first last)
  = Some (sender_ssrc, media_ssrc, missing_sequences first (Z.min last (first + 63)))
  /\ zlen (build_rtcp_nack sender_ssrc media_ssrc first last) <= 28.
Proof.
  intros Hs Hm Hf Hl. unfold build_rtcp_nack, saturating_sub, MAX_NACK_PACKET_COUNT.
  rewrite saturating_add64_small by lia. change (Z.max 0 (64 - 1)) with 63.
  change (Z.to_nat MAX_NACK_FCI_ENTRIES) with 4%nat. set (effective := Z.min last (first + 63)).
  destruct (entries_typed 4 first effective) as [Ht Hn].
  pose proof (nack_entries_decode 4 first effective ltac:(lia) ltac:(lia)) as Hd.
  set (entries := nack_entries 4 first effective) in *.
  pose proof (zlen_nonneg entries). assert (Hn' : zlen entries <= 4) by (unfold zlen; lia).
  rewrite as_u16_small by (unfold is_u16; lia). pose proof (concat_entries_length entries) as Hc.
  set (body := concat (map (fun entry : Z * Z => to_be_bytes 2 entry.1 ++ to_be_bytes 2 entry.2) entries)) in *. set (packet := _ ++ _).
  assert (Hlen : zlen packet = 12 + 4 * zlen entries) by (unfold packet; autorewrite with zlens; rewrite Hc; lia).
  split; [|lia]. unfold decode_rtcp_nack. rewrite Hlen.
  assert (F0 : be_field packet 0 2 = 0x81cd) by reflexivity.
  unfold is_u32 in *.
  assert (F1 : be_field packet 2 2 = 2 + zlen entries) by (unfold packet; be_read; done).
  assert (F2 : be_field packet 4 4 = sender_ssrc) by (unfold packet; be_read; done).
  assert (F3 : be_field packet 8 4 = media_ssrc) by (unfold packet; be_read; done).
  assert (F4 : drop 12 packet = body) by reflexivity.
  rewrite F0, F1, F2, F3, F4, Z.eqb_refl. rewrite (proj2 (Z.eqb_eq _ _)), (proj2 (Z.leb_le _ _)) by lia.
  cbn [andb]. do 2 f_equal. replace (Z.to_nat (2 + zlen entries - 2)) with (length entries) by (unfold zlen; lia).
  unfold body. rewrite decode_fcis_concat by done. rewrite Hd. unfold missing_sequences. do 2 f_equal. lia.
Qed.

Lemma rtcp_nack_requests_range_witness :
  decode_rtcp_nack (build_rtcp_nack 7 9 65530 65600) = Some (7, 9, missing_sequences 65530 (Z.min 65600 65593))
  /\ zlen (build_rtcp_nack 7 9 65530 65600) <= 28.
Proof. apply (rtcp_nack_requests_range 7 9 65530 65600); unfold is_u32; lia. Defined.

(** ** Receiver reports *)

Definition signed24 (z : Z) : Z := if z <? 2 ^ 23 then z else z - 2 ^ 24.

(** A receiver report with one block (RFC 3550): the sender and the block. *)
Definition parse_receiver_report (packet : list u8) : option (Z * RtcpReportBlock) :=
  if (be_field packet 0 2 =? 0x81c9) && (4 * (be_field packet 2 2 + 1) =? zlen packet) && (zlen packet =? 32)
     && (be_field packet 24 8 =? 0)
  then Some (be_field packet 4 4,
             {| media_ssrc := be_field packet 8 4; fraction_lost := be_field packet 12 1;
                cumulative_lost := signed24 (be_field packet 13 3);
                highest_sequence := be_field packet 16 4; jitter := be_field packet 20 4 |})
  else None.

Record report_typed (r : RtcpReportBlock) : Prop := {
  rt_ssrc : is_u32 (media_ssrc r);
  rt_fraction : is_u8 (fraction_lost r);
  rt_cumulative : - 2 ^ 23 <= cumulative_lost r < 2 ^ 23;
  rt_highest : is_u32 (highest_sequence r);
  rt_jitter : is_u32 (jitter r)
}.

Lemma to_le_bytes_S n z : to_le_bytes (S n) z = z2b z :: to_le_bytes n (z / 256).
Proof. done. Qed.
Lemma to_le_bytes_mod n z : to_le_bytes n (z mod 256 ^ Z.of_nat n) = to_le_bytes n z.
Proof.
  revert z. induction n as [|n IH]; intros z; [done|].
  rewrite Nat2Z.inj_succ, Z.pow_succ_r by lia. rewrite !to_le_bytes_S.
  assert (0 < 256 ^ Z.of_nat n) by (apply Z.pow_pos_nonneg; lia).
  rewrite Z.rem_mul_r by lia. pose proof (Z.mod_pos_bound z 256 ltac:(lia)). apply f_equal2.
  - apply b2z_inj. rewrite !b2z_z2b. rewrite Z.mul_comm, Z.mod_add by lia. by apply Z.mod_mod.
  - rewrite <- (IH (z / 256)). f_equal. rewrite Z.mul_comm, Z.div_add by lia.
    rewrite (Z.div_small (z mod 256)) by lia. lia.
Qed.

Lemma parse_build_report sender_ssrc report :
  is_u32 sender_ssrc -> report_typed report ->
  parse_receiver_report (build_rtcp_receiver_report sender_ssrc report) = Some (sender_ssrc, report).
Proof.
  intros Hs [H1 H2 H3 H4 H5]. unfold is_u32, is_u8 in *.
  set (c := cumulative_lost report mod 2 ^ 24).
  assert (Hcb : cumulative_bytes report = to_be_bytes 3 c).
  { unfold cumulative_bytes. change (drop 1 (to_be_bytes 4 (as_u32 (cumulative_lost report))))
      with (to_be_bytes 3 (as_u32 (cumulative_lost report))).
    unfold to_be_bytes, c. rewrite <- (to_le_bytes_mod 3 (as_u32 _)). do 2 f_equal. unfold as_u32.
    change (256 ^ Z.of_nat 3) with (2 ^ 24). rewrite (Z.mod_mod_divide _ (2 ^ 32)); [done|]. by exists 256. }
  assert (Hcr : 0 <= c < 2 ^ 24) by (apply Z.mod_pos_bound; lia).
  assert (Hsigned : signed24 c = cumulative_lost report).
  { unfold signed24, c in *. pose proof (Z.div_mod (cumulative_lost report) (2 ^ 24) ltac:(lia)).
    destruct (Z.ltb_spec (cumulative_lost report mod 2 ^ 24) (2 ^ 23)); lia. }
  unfold parse_receiver_report.
  set (packet := build_rtcp_receiver_report sender_ssrc report).
  assert (Hz : [z2b (fraction_lost report)] = to_be_bytes 1 (fraction_lost report)) by done.
  assert (F0 : be_field packet 0 2 = 0x81c9) by reflexivity.
  assert (F1 : be_field packet 2 2 = 7) by (unfold packet, build_rtcp_receiver_report; be_read; done).
  assert (Fl : zlen packet = 32) by reflexivity.
  assert (F2 : be_field packet 4 4 = sender_ssrc) by (unfold packet, build_rtcp_receiver_report; be_read; done).
  assert (F3 : be_field packet 8 4 = media_ssrc report) by (unfold packet, build_rtcp_receiver_report; be_read; done).
  assert (F4 : be_field packet 12 1 = fraction_lost report)
    by (unfold packet, build_rtcp_receiver_report; rewrite Hz; be_read; done).
  assert (F5 : be_field packet 13 3 = c)
    by (unfold packet, build_rtcp_receiver_report; rewrite Hcb; be_read; done).
  assert (F6 : be_field packet 16 4 = highest_sequence report)
    by (unfold packet, build_rtcp_receiver_report; rewrite Hcb; be_read; done).
  assert (F7 : be_field packet 20 4 = jitter report)
    by (unfold packet, build_rtcp_receiver_report; rewrite Hcb; be_read; done).
  assert (F8 : be_field packet 24 8 = 0) by reflexivity.
  rewrite F0, F1, Fl, F2, F3, F4, F5, F6, F7, F8, Hsigned. cbn. by destruct report.
Qed.

(** ** SRTCP: what the peer opens *)

(** The report with the E/S bit the transport sets in the first octet of the
    encrypted part, which is the top bit of the media SSRC. *)
Definition marked (report : RtcpReportBlock) : RtcpReportBlock := {|
  media_ssrc := Z.lor (media_ssrc report) 0x80000000;
  fraction_lost := fraction_lost report; cumulative_lost := cumulative_lost report;
  highest_sequence := highest_sequence report; jitter := jitter report |}.

Lemma lor_top z : 0 <= z < 2 ^ 32 -> Z.lor z (2 ^ 31) = if z <? 2 ^ 31 then z + 2 ^ 31 else z.
Proof.
  intros Hz. destruct (Z.ltb_spec z (2 ^ 31)).
  - symmetry. rewrite <- Z.lxor_lor; [apply Z.add_nocarry_lxor|]; apply Z.bits_inj'; intros n Hn;
      rewrite Z.land_spec, Z.pow2_bits_eqb, Z.bits_0 by lia; destruct (Z.eqb_spec 31 n) as [<-|];
      rewrite ?andb_false_r; try done; rewrite andb_true_r;
      rewrite <- (Z.mod_small z (2 ^ 31)) by lia; apply Z.mod_pow2_bits_high; lia.
  - apply Z.bits_inj'. intros n Hn. rewrite Z.lor_spec, Z.pow2_bits_eqb by lia.
    destruct (Z.eqb_spec 31 n) as [<-|]; [|apply orb_false_r]. rewrite orb_true_r. symmetry.
    apply Z.testbit_true; [lia|]. rewrite <- (Z.div_unique z (2 ^ 31) 1 (z - 2 ^ 31)); [done|lia|lia].
Qed.

Lemma lor_top_byte b : 0 <= b < 256 -> Z.lor b 0x80 = if b <? 128 then b + 128 else b.
Proof.
  intros Hb. apply Z.eqb_eq, (range_check (fun b => Z.lor b 128 =? if b <? 128 then b + 128 else b) 256); [reflexivity|done].
Qed.

Lemma z2b_add z k : z2b (z + k * 256) = z2b z.
Proof. apply b2z_inj. rewrite !b2z_z2b. by apply Z.mod_add. Qed.

(** Setting the bit in the octet is setting it in the field. *)
Lemma mark_octet z :
  is_u32 z ->
  exists a rest, to_be_bytes 4 z = a :: rest
    /\ z2b (Z.lor (b2z a) 0x80) :: rest = to_be_bytes 4 (Z.lor z 0x80000000).
Proof.
  unfold is_u32. intros Hz.
  exists (z2b (z / 256 / 256 / 256)), [z2b (z / 256 / 256); z2b (z / 256); z2b z]. split; [done|].
  set (z' := Z.lor z 0x80000000).
  assert (Hz' : z' = if z <? 2 ^ 31 then z + 2 ^ 31 else z) by (by apply lor_top).
  change (to_be_bytes 4 z') with [z2b (z' / 256 / 256 / 256); z2b (z' / 256 / 256); z2b (z' / 256); z2b z'].
  pose proof (Z.div_mod z 256 ltac:(lia)). pose proof (Z.mod_pos_bound z 256 ltac:(lia)).
  pose proof (Z.div_mod (z / 256) 256 ltac:(lia)). pose proof (Z.mod_pos_bound (z / 256) 256 ltac:(lia)).
  pose proof (Z.div_mod (z / 256 / 256) 256 ltac:(lia)). pose proof (Z.mod_pos_bound (z / 256 / 256) 256 ltac:(lia)).
  rewrite b2z_z2b_small, lor_top_byte by lia.
  destruct (Z.ltb_spec z (2 ^ 31)).
  - rewrite (proj2 (Z.ltb_lt (z / 256 / 256 / 256) 128)) by lia.
    rewrite Hz'. change (2 ^ 31) with (128 * 256 * 256 * 256).
    rewrite !Z.div_add by lia. by rewrite !z2b_add.
  - rewrite Hz'. by rewrite (proj2 (Z.ltb_ge (z / 256 / 256 / 256) 128)) by lia.
Qed.

Section Opened.
Context `{CryptoLaws}.

(** What a peer holding the SRTCP keys does with a protected report of [n]
    octets before the tag (RFC 7714 with the tag ahead of the index word): the
    index and the report, or a failure. *)
Definition open_srtcp (key salt : list u8) (tag_len : Z) (packet : list u8) : outcome unit (Z * list u8) :=
  let n := zlen packet - tag_len - 4 in
  trailer ← slice packet (n + tag_len) (zlen packet);
  let e_index := from_be_bytes trailer in
  guard_err (negb (Z.testbit e_index 31)) tt;;
  let index := e_index mod 2 ^ 31 in
  sender ← slice packet 4 8;
  iv ← srtcp_gcm_iv salt (from_be_bytes sender) index;
  stream ← aes_gcm_tag_and_ctr key iv [] [];
  front ← slice packet 0 8;
  aad ← slice packet 0 16;
  body ← slice packet 8 n;
  tag ← slice packet n (n + tag_len);
  sealed ← aes_gcm_tag_and_ctr key iv aad body;
  expected ← slice sealed.1 0 tag_len;
  guard_err (negb (bool_decide (expected = tag))) tt;;
  mret (index, front ++ (apply_keystream stream.2 body).1).

Definition srtcp_keys_ok (key salt : list u8) (tag_len : Z) : Prop :=
  key_ok key /\ zlen salt = 12 /\ 0 <= tag_len <= 16.

Lemma srtcp_gcm_iv_Ok salt ssrc index :
  zlen salt = 12 -> exists iv, (forall E, srtcp_gcm_iv (E:=E) salt ssrc index = Ok iv) /\ zlen iv = 12.
Proof.
  intros Hs. unfold srtcp_gcm_iv. 
  destruct (xor_range_Ok salt 2 6 (to_be_bytes 4 ssrc)) as (x & Hx & Hl); [lia|lia|]. setoid_rewrite Hx.
  destruct (xor_range_Ok x 6 10 (to_be_bytes 4 index)) as (y & Hy & Hly); [lia|lia|].
  cbn [mbind outcome_bind]. setoid_rewrite Hy. exists y. split; [done|lia].
Qed.

(** The clear header and the part that is encrypted. *)
Definition report_front (sender_ssrc : Z) : list u8 :=
  [z2b 0x81; z2b 201] ++ to_be_bytes 2 7 ++ to_be_bytes 4 sender_ssrc.
Definition report_back (report : RtcpReportBlock) : list u8 :=
  to_be_bytes 4 (media_ssrc report) ++ [z2b (fraction_lost report)] ++ cumulative_bytes report
  ++ to_be_bytes 4 (highest_sequence report) ++ to_be_bytes 4 (jitter report)
  ++ to_be_bytes 4 0 ++ to_be_bytes 4 0.
Lemma report_parts sender_ssrc report :
  build_rtcp_receiver_report sender_ssrc report = report_front sender_ssrc ++ report_back report.
Proof. done. Qed.

Lemma mark_report report :
  is_u32 (media_ssrc report) ->
  exists p8, zget (report_front RTCP_SENDER_SSRC ++ report_back report) 8 = Some p8
    /\ <[Z.to_nat 8 := z2b (Z.lor (b2z p8) 0x80)]> (report_front RTCP_SENDER_SSRC ++ report_back report)
       = report_front RTCP_SENDER_SSRC ++ report_back (marked report).
Proof.
  intros Hs. destruct (mark_octet _ Hs) as (a & rest & Ha & Hm). exists a.
  unfold report_back. rewrite Ha. cbn [marked media_ssrc]. split; [done|].
  rewrite <- Hm. done.
Qed.

Lemma e_index_bits index :
  0 <= index < 2 ^ 31 ->
  Z.lor SRTCP_ENCRYPTED_FLAG (Z.land index (Z.lxor U32_MAX SRTCP_ENCRYPTED_FLAG)) = index + 2 ^ 31.
Proof.
  intros Hi. change (Z.lxor U32_MAX SRTCP_ENCRYPTED_FLAG) with (Z.ones 31).
  rewrite Z.land_ones, Z.mod_small, Z.lor_comm by lia. change SRTCP_ENCRYPTED_FLAG with (2 ^ 31).
  rewrite lor_top by lia. by rewrite (proj2 (Z.ltb_lt _ _)) by lia.
Qed.

(** Protecting and opening a report. *)
Lemma protect_srtcp_opens {E} report index key salt tag_len :
  srtcp_keys_ok key salt tag_len -> is_u32 (media_ssrc report) -> 0 <= index < 2 ^ 31 ->
  exists packet,
    protect_srtcp_receiver_report_gcm (E:=E) report index key salt tag_len = Ok packet
    /\ zlen packet = 36 + tag_len
    /\ open_srtcp key salt tag_len packet
       = Ok (index, build_rtcp_receiver_report RTCP_SENDER_SSRC (marked report)).
Proof.
  intros (Hk & Hs & Ht) Hm Hi.
  destruct (srtcp_gcm_iv_Ok salt RTCP_SENDER_SSRC index Hs) as (iv & Hiv & Hl).
  destruct (aes_gcm_tag_and_ctr_Ok key iv Hk Hl) as (tag & c & Htag).
  destruct (mark_report report Hm) as (p8 & Hp8 & Hmark).
  set (back := report_back (marked report)) in *. set (front := report_front RTCP_SENDER_SSRC) in *.
  set (ct := (apply_keystream c back).1).
  assert (Hfl : zlen front = 8) by done. assert (Hcl : zlen ct = 24) by (unfold ct; by rewrite zlen_apply_keystream).
  set (aad := front ++ take 8 ct). set (word := to_be_bytes 4 (index + 2 ^ 31)).
  set (T := take (Z.to_nat tag_len) (tag aad ct)).
  assert (HT : zlen T = tag_len).
  { unfold T, zlen. rewrite length_take. pose proof (proj2 (Htag aad ct)). unfold zlen in *. lia. }
  assert (Hcut : forall E (l r : list u8) k, k = zlen l -> slice (E:=E) (l ++ r) 0 k = Ok l)
    by (intros; by apply (slice_app [] l r)).
  assert (Hrest : forall E (l r : list u8) k n, k = zlen l -> n = zlen (l ++ r) -> slice (E:=E) (l ++ r) k n = Ok r).
  { intros E' l r k n -> ->. rewrite <- (app_nil_r r) at 1. apply slice_app; [done|autorewrite with zlens; lia]. }
  assert (Hct8 : forall E, slice (E:=E) (front ++ ct) 8 16 = Ok (take 8 ct)).
  { intros E'. rewrite <- (take_drop 8 ct) at 1. apply slice_app; [done|].
    unfold zlen in *. rewrite length_take. lia. }
  exists (front ++ ct ++ T ++ word). split; [|split].
  - unfold protect_srtcp_receiver_report_gcm. fold (build_rtcp_receiver_report RTCP_SENDER_SSRC report).
    rewrite e_index_bits by done. fold word. rewrite Hiv. obind.
    rewrite report_parts. fold front.
    unfold idx. rewrite Hp8. cbn [expect]. obind.
    rewrite set_idx_Ok by (change (zlen (front ++ report_back report)) with 32; lia). obind. rewrite Hmark.
    rewrite (proj1 (Htag _ _)). obind. cbn [snd]. change 8 with (zlen front) at 1.
    rewrite apply_keystream_from_app. obind. cbn [fst]. fold ct.
    rewrite Hcut by done. obind. rewrite Hct8. obind. fold aad.
    rewrite (Hrest E front ct) by done. obind. rewrite (proj1 (Htag _ _)). obind. cbn [fst].
    rewrite slice_Ok by (rewrite ?(proj2 (Htag _ _)); lia). obind. rewrite Z.sub_0_r, drop_0. fold T.
    by rewrite <- app_assoc.
  - autorewrite with zlens. unfold word. autorewrite with zlens. lia.
  - unfold open_srtcp. set (packet := front ++ ct ++ T ++ word).
    assert (Hpl : zlen packet = 36 + tag_len) by (unfold packet, word; autorewrite with zlens; lia).
    replace (zlen packet - tag_len - 4) with 32 by lia.
    assert (S1 : slice (E:=unit) packet (32 + tag_len) (zlen packet) = Ok word).
    { unfold packet. rewrite !app_assoc. apply Hrest; autorewrite with zlens; lia. }
    rewrite S1. obind. unfold word. rewrite from_to_be_bytes by (cbn; lia).
    assert (Z.testbit (index + 2 ^ 31) 31 = true) as ->.
    { apply Z.testbit_true; [lia|]. rewrite <- (Z.div_unique (index + 2 ^ 31) (2 ^ 31) 1 index); [done|lia|lia]. }
    cbn [negb guard_err]. obind. replace ((index + 2 ^ 31) mod 2 ^ 31) with index
      by (rewrite <- (Z.mod_unique (index + 2 ^ 31) (2 ^ 31) 1 index); lia).
    assert (S2 : slice (E:=unit) packet 4 8 = Ok (to_be_bytes 4 RTCP_SENDER_SSRC)).
    { unfold packet, front, report_front. rewrite (app_assoc [z2b 129; z2b 201]), <- app_assoc. by apply slice_app. }
    rewrite S2. obind. change (from_be_bytes (to_be_bytes 4 RTCP_SENDER_SSRC)) with RTCP_SENDER_SSRC.
    rewrite Hiv. obind. rewrite (proj1 (Htag _ _)). obind. cbn [snd].
    assert (S0 : slice (E:=unit) packet 0 8 = Ok front) by (by apply Hcut). rewrite S0. obind.
    assert (S3 : slice (E:=unit) packet 0 16 = Ok aad).
    { unfold packet, aad. rewrite <- (take_drop 8 ct) at 1. rewrite <- (app_assoc (take 8 ct)), app_assoc.
      apply Hcut. unfold zlen in *. rewrite length_app, length_take. lia. }
    assert (S4 : slice (E:=unit) packet 8 32 = Ok ct) by (apply slice_app; lia).
    assert (S5 : slice (E:=unit) packet 32 (32 + tag_len) = Ok T).
    { unfold packet. rewrite (app_assoc front). apply slice_app; autorewrite with zlens; lia. }
    rewrite S3. obind. rewrite S4. obind. rewrite S5. obind.
    rewrite (proj1 (Htag _ _)). obind. cbn [fst].
    rewrite (slice_Ok (tag aad ct)) by (rewrite ?(proj2 (Htag _ _)); lia). obind. rewrite Z.sub_0_r, drop_0. fold T.
    rewrite bool_decide_true by done. cbn [negb guard_err]. obind. unfold ct. rewrite apply_keystream_involutive. done.
Qed.
(** No report and no index make the sender panic. *)
Lemma protect_srtcp_total {E} report index key salt tag_len :
  srtcp_keys_ok key salt tag_len ->
  exists packet, protect_srtcp_receiver_report_gcm (E:=E) report index key salt tag_len = Ok packet.
Proof.
  intros (Hk & Hs & Ht). destruct (srtcp_gcm_iv_Ok salt RTCP_SENDER_SSRC index Hs) as (iv & Hiv & Hl).
  destruct (aes_gcm_tag_and_ctr_Ok key iv Hk Hl) as (tag & c & Htag).
  unfold protect_srtcp_receiver_report_gcm. rewrite Hiv. obind.
  set (packet := [z2b 0x81] ++ _). assert (Hp : zlen packet = 32) by reflexivity. clearbody packet.
  step_idx. rewrite set_idx_Ok by lia. obind. set (packet' := <[_ := _]> packet).
  assert (Hp' : zlen packet' = 32) by (unfold packet'; by rewrite zlen_insert). clearbody packet'.
  rewrite (proj1 (Htag _ _)). obind. cbn [snd].
  destruct (three_parts packet' 8 32) as (front & back & rest & -> & Hf & Hb & Hr); [lia|lia|].
  pose proof (apply_keystream_from_app (E:=E) c front (back ++ rest)) as Hks. rewrite Hf in Hks. rewrite Hks. obind. cbn [fst].
  set (ct := (apply_keystream c (back ++ rest)).1).
  assert (Hct : zlen ct = 24) by (unfold ct; autorewrite with zlens; lia).
  assert (Hall : zlen (front ++ ct) = 32) by (autorewrite with zlens; lia).
  rewrite (slice_Ok _ 0 8), (slice_Ok _ 8 16), (slice_Ok _ 8 (zlen _)) by lia. obind.
  rewrite (proj1 (Htag _ _)). obind. cbn [fst].
  rewrite slice_Ok by (rewrite ?(proj2 (Htag _ _)); lia). obind. by eexists.
Qed.
End Opened.

(** ** The periodic sender *)

(** What the sender is to do, told without packets: with [n] reports sent so
    far, the last at [last], a poll with a report sends report number [n]
    unless less than the interval has passed. *)
Fixpoint schedule (n : Z) (last : option Z) (polls : list (option RtcpReportBlock * Z))
    : list (option (Z * RtcpReportBlock)) :=
  match polls with
  | [] => []
  | (None, _) :: polls => None :: schedule n last polls
  | (Some report, now) :: polls =>
      if match last with Some last => now <? last + SRTCP_RR_INTERVAL | None => false end
      then None :: schedule n last polls
      else Some (n, report) :: schedule (n + 1) (Some now) polls
  end.

Section Sender.
Context `{CryptoLaws}.

Fixpoint poll_all (self : SrtcpSender.t) (polls : list (option RtcpReportBlock * Z))
    : outcome Empty_set (list (option (list u8))) :=
  match polls with
  | [] => mret []
  | (report, now) :: polls =>
      '(self, packet) ← SrtcpSender.poll_receiver_report self report now;
      packets ← poll_all self polls;
      mret (packet :: packets)
  end.

Definition sender_keys (s : SrtcpSender.t) : list u8 * list u8 * Z :=
  (as_bytes (SrtcpSender.encryption_key s), SrtcpSender.session_salt s, SrtcpSender.tag_len s).

(** [packet] is report number [n], sealed under the sender's keys. *)
Definition carries (keys : list u8 * list u8 * Z) (packet : option (list u8)) (sent : option (Z * RtcpReportBlock)) : Prop :=
  match packet, sent with
  | None, None => True
  | Some packet, Some (n, report) => exists plain,
      open_srtcp keys.1.1 keys.1.2 keys.2 packet = Ok (n, plain)
      /\ parse_receiver_report plain = Some (RTCP_SENDER_SSRC, marked report)
  | _, _ => False
  end.

Definition polls_typed (polls : list (option RtcpReportBlock * Z)) : Prop :=
  Forall (fun poll => match poll.1 with Some report => report_typed report | None => True end) polls.

Lemma marked_typed report : report_typed report -> report_typed (marked report).
Proof.
  intros [H1 H2 H3 H4 H5]. constructor; try done. cbn. unfold is_u32 in *.
  pose proof (lor_top (media_ssrc report) H1) as Hl. change (2 ^ 31) with 2147483648 in Hl. rewrite Hl.
  destruct (Z.ltb_spec (media_ssrc report) 2147483648); lia.
Qed.

Lemma poll_all_schedule s polls :
  srtcp_keys_ok (sender_keys s).1.1 (sender_keys s).1.2 (sender_keys s).2 ->
  polls_typed polls -> 0 <= SrtcpSender.next_index s -> SrtcpSender.next_index s + zlen polls <= 2 ^ 31 ->
  exists packets, poll_all s polls = Ok packets
    /\ Forall2 (carries (sender_keys s)) packets
         (schedule (SrtcpSender.next_index s) (SrtcpSender.last_sent s) polls).
Proof.
  intros Hk Ht. revert s Hk. induction Ht as [|[[report|] now] polls Hr Ht IH]; intros s Hk Hn Hb.
  { exists []. split; [done|constructor]. }
  all: cbn [poll_all schedule SrtcpSender.poll_receiver_report]; cbn [fst] in Hr.
  all: rewrite zlen_cons in Hb; pose proof (zlen_nonneg polls).
  2: { obind. destruct (IH s Hk Hn) as (packets & -> & Hall); [lia|]. obind.
       eexists. split; [reflexivity|]. by constructor. }
  assert (Hdue : match SrtcpSender.last_sent s with
      | Some last => saturating_duration_since now last <? SRTCP_RR_INTERVAL | None => false end
    = match SrtcpSender.last_sent s with Some last => now <? last + SRTCP_RR_INTERVAL | None => false end).
  { destruct (SrtcpSender.last_sent s) as [last|]; [|done]. unfold saturating_duration_since.
    change SRTCP_RR_INTERVAL with 1000000000.
    destruct (Z.ltb_spec now (last + 1000000000)); [apply Z.ltb_lt|apply Z.ltb_ge]; lia. }
  rewrite Hdue. clear Hdue.
  set (early := match SrtcpSender.last_sent s with Some last => now <? last + SRTCP_RR_INTERVAL | None => false end).
  destruct early.
  { obind. destruct (IH s Hk Hn) as (packets & -> & Hall); [lia|]. obind.
    eexists. split; [reflexivity|]. by constructor. }
  destruct (protect_srtcp_opens (E:=Empty_set) report (SrtcpSender.next_index s) _ _ _ Hk (rt_ssrc _ Hr) ltac:(lia))
    as (packet & Hp & _ & Ho). unfold sender_keys in Hp, Ho. cbn [fst snd] in Hp, Ho. rewrite Hp. obind.
  set (s' := {| SrtcpSender.encryption_key := _ |}).
  assert (Hn' : SrtcpSender.next_index s' = SrtcpSender.next_index s + 1).
  { unfold s'. cbn. unfold as_u32. apply Z.mod_small. lia. }
  destruct (IH s') as (packets & -> & Hall); [done|lia|rewrite Hn'; lia|]. obind.
  eexists. split; [reflexivity|]. rewrite Hn' in Hall. constructor; [|done].
  cbn [carries]. eexists. split; [exact Ho|]. apply parse_build_report; [by unfold is_u32|by apply marked_typed].
Qed.

(** The SRTCP sender follows its schedule.  From well-formed GCM key
    material, over any sequence of polls, it never panics, a report goes out
    exactly when one is available and the last was sent at least a second
    before, and the peer that derives the same keys opens report number [n]
    with index [n] to exactly the block it was given (with the E/S bit set in
    the media SSRC). *)
Theorem srtcp_reports_follow_schedule master_key master_salt tag_len polls (wide : bool) :
  zlen master_key = (if wide then 32 else 16) -> zlen master_salt = 12 -> tag_len = 8 \/ tag_len = 16 ->
  polls_typed polls -> zlen polls <= 2 ^ 31 ->
  let material := (if wide then MaterialAeadAes256Gcm else MaterialAeadAes128Gcm) master_key master_salt tag_len in
  exists sender packets,
    SrtcpSender.from_material (E:=Empty_set) material = Ok (Some sender)
    /\ poll_all sender polls = Ok packets
    /\ Forall2 (carries (sender_keys sender)) packets (schedule 0 None polls).
Proof.
  intros Hmk Hms Htl Ht Hb material.
  assert (Hs : exists sender, SrtcpSender.from_material (E:=Empty_set) material = Ok (Some sender)
    /\ srtcp_keys_ok (sender_keys sender).1.1 (sender_keys sender).1.2 (sender_keys sender).2
    /\ SrtcpSender.next_index sender = 0 /\ SrtcpSender.last_sent sender = None).
  { unfold SrtcpSender.from_material, material, derive_aes128_cm_key, derive_aes_cm_key, srtcp_keys_ok, key_ok.
    destruct wide;
      (repeat match goal with
       | |- context [derive_key (E:=?E) ?a ?n ?k ?s ?l] =>
           let x := fresh "k" in let Hx := fresh "Hk" in
           destruct (derive_key_Ok (E:=E) a n k s l) as (x & -> & Hx); [lia|lia|]; obind
       end); (eexists; split; [reflexivity|]); cbn; (split; [lia|done]). }
  destruct Hs as (sender & Hf & Hk & Hn & Hl). exists sender.
  destruct (poll_all_schedule sender polls Hk Ht) as (packets & Hp & Hall); [lia|lia|].
  rewrite Hn, Hl in Hall. by exists packets.
Qed.
End Sender.

Definition sample_report : RtcpReportBlock :=
  {| media_ssrc := 0x12345678; fraction_lost := 5; cumulative_lost := -3; highest_sequence := 70000; jitter := 9 |}.
Definition sample_polls : list (option RtcpReportBlock * Z) :=
  [(None, 0); (Some sample_report, from_millis 10); (Some sample_report, from_millis 900);
   (Some sample_report, from_millis 1010)].

Lemma srtcp_reports_follow_schedule_witness :
  schedule 0 None sample_polls = [None; Some (0, sample_report); None; Some (1, sample_report)]
  /\ exists sender packets,
    SrtcpSender.from_material (E:=Empty_set) (MaterialAeadAes256Gcm (zeroes 32) (zeroes 12) 8) = Ok (Some sender)
    /\ poll_all sender sample_polls = Ok packets
    /\ Forall2 (carries (sender_keys sender)) packets (schedule 0 None sample_polls).
Proof.
  split; [reflexivity|].
  apply (srtcp_reports_follow_schedule (zeroes 32) (zeroes 12) 8 sample_polls true); [reflexivity|reflexivity|by left| |].
  - repeat constructor; cbn; unfold is_u32, is_u8; lia.
  - vm_compute. discriminate.
Defined.
