(* ===== verification/Stun.v ===== *)
(** * STUN: hole punching, ICE pings and datagram classification

    The STUN packets [nvst.rs] builds and checks, [handle_stun_datagram], the
    trackers of ICE responses and hole-punching pings, and the tests that tell
    the protocols sharing the bundle socket apart.  HMAC-SHA1 and CRC-32 are
    those of [Crypto]; a credential is the UTF-8 text of its string. *)

From stdpp Require Import gmap.
From S2P Require Import Prelude Types Rtp Gf256 Control InputWire Crypto Rtcp.

Definition STUN_HEADER_LEN : Z := 20.
Definition STUN_MAGIC_COOKIE : Z := 0x2112a442.
Definition STUN_BINDING_REQUEST : Z := 0x0001.
Definition STUN_BINDING_SUCCESS_RESPONSE : Z := 0x0101.
Definition STUN_ATTR_USERNAME : Z := 0x0006.
Definition STUN_ATTR_MESSAGE_INTEGRITY : Z := 0x0008.
Definition STUN_ATTR_XOR_MAPPED_ADDRESS : Z := 0x0020.
Definition STUN_ATTR_FINGERPRINT : Z := 0x8028.
Definition STUN_FINGERPRINT_XOR : Z := 0x5354554e.
Definition STREAM_PING_TIMEOUT : Z := from_secs 5.
Definition MAX_PENDING_STREAM_PINGS : Z := 64.

Record NvstStunCredentials := {
  local_username_fragment : list u8;
  local_password : list u8;
  remote_username_fragment : list u8;
  remote_password : list u8
}.

Inductive StunDatagram :=
  | NotStun
  | Invalid
  | Handled (response : option (list u8)).

(** ** Telling the protocols apart *)

(** [datagram[a..b] == bytes] *)
Definition range_is (datagram : list u8) (a b : Z) (bytes : list u8) : outcome Empty_set bool :=
  window ← slice datagram a b; mret (bool_decide (window = bytes)).

Definition looks_like_stun (datagram : list u8) : outcome Empty_set bool :=
  if STUN_HEADER_LEN <=? zlen datagram
  then range_is datagram 4 8 (to_be_bytes 4 STUN_MAGIC_COOKIE)
  else mret false.

Definition looks_like_dtls (datagram : list u8) : bool :=
  match datagram with first :: _ => (20 <=? b2z first) && (b2z first <=? 63) | [] => false end.

Definition looks_like_rtcp (datagram : list u8) : outcome Empty_set bool :=
  if 4 <=? zlen datagram then
    first ← datagram.[0];
    if Z.shiftr (b2z first) 6 =? 2 then
      second ← datagram.[1];
      mret ((192 <=? b2z second) && (b2z second <=? 223))
    else mret false
  else mret false.

Definition looks_like_rtp (datagram : list u8) : outcome Empty_set bool :=
  if RTP_FIXED_HEADER_LEN <=? zlen datagram then
    first ← datagram.[0];
    if Z.shiftr (b2z first) 6 =? 2 then
      stun ← looks_like_stun datagram;
      if stun : bool then mret false
      else if looks_like_dtls datagram then mret false
      else rtcp ← looks_like_rtcp datagram; mret (negb rtcp)
    else mret false
  else mret false.

Definition peek_rtp_ssrc (datagram : list u8) : outcome Empty_set (option Z) :=
  rtp ← looks_like_rtp datagram;
  if rtp : bool then
    b8 ← datagram.[8]; b9 ← datagram.[9]; b10 ← datagram.[10]; b11 ← datagram.[11];
    mret (Some (from_be_bytes [b8; b9; b10; b11]))
  else mret None.

Definition peek_rtp_payload_type (datagram : list u8) : outcome Empty_set (option Z) :=
  rtp ← looks_like_rtp datagram;
  if rtp : bool then b1 ← datagram.[1]; mret (Some (Z.land (b2z b1) 0x7f)) else mret None.

(** ** Building packets *)

Definition append_stun_attribute (packet : list u8) (attribute_type : Z) (value : list u8) : list u8 :=
  let packet := packet ++ to_be_bytes 2 attribute_type ++ to_be_bytes 2 (as_u16 (zlen value)) ++ value in
  resize packet (next_multiple_of (zlen packet) 4) Byte.x00.

Definition xor_mapped_address (source : SocketAddr) (transaction_id : list u8) : list u8 :=
  let cookie := to_be_bytes 4 STUN_MAGIC_COOKIE in
  let head := [z2b 0; z2b (match sa_ip source with V4 _ => 1 | V6 _ => 2 end)]
    ++ to_be_bytes 2 (Z.lxor (sa_port source) (as_u16 (Z.shiftr STUN_MAGIC_COOKIE 16))) in
  match sa_ip source with
  | V4 octets => head ++ zip_with bxor octets cookie
  | V6 octets => head ++ zip_with bxor octets (cookie ++ transaction_id)
  end.

(** The loop over the attributes; every turn advances by at least four bytes. *)
Fixpoint find_attribute_loop (fuel : nat) (packet : list u8) (wanted_type offset : Z)
    : outcome Empty_set (option (Z * list u8)) :=
  match fuel with
  | O => Panic
  | S fuel =>
      if offset + 4 <=? zlen packet then
        t0 ← packet.[offset]; t1 ← packet.[offset + 1];
        l0 ← packet.[offset + 2]; l1 ← packet.[offset + 3];
        let attribute_type := from_be_bytes [t0; t1] in
        let length := from_be_bytes [l0; l1] in
        let value_start := offset + 4 in
        match checked_add64 value_start length with
        | None => mret None
        | Some value_end =>
            if zlen packet <? value_end then mret None
            else if attribute_type =? wanted_type
            then value ← slice packet value_start value_end; mret (Some (offset, value))
            else find_attribute_loop fuel packet wanted_type (next_multiple_of value_end 4)
        end
      else mret None
  end.

Definition find_stun_attribute (packet : list u8) (wanted_type : Z) : outcome Empty_set (option (Z * list u8)) :=
  find_attribute_loop (S (length packet)) packet wanted_type STUN_HEADER_LEN.

Section Stun.
Context `{Crypto}.

Definition build_authenticated_stun_packet (message_type : Z) (transaction_id key : list u8)
    (attributes : list (Z * list u8)) : outcome Empty_set (list u8) :=
  let packet := to_be_bytes 2 message_type ++ to_be_bytes 2 0 ++ to_be_bytes 4 STUN_MAGIC_COOKIE
    ++ transaction_id in
  let packet := foldl (fun packet attribute => append_stun_attribute packet attribute.1 attribute.2)
    packet attributes in
  let length_through_integrity := zlen packet - STUN_HEADER_LEN + 24 in
  packet ← set_slice packet 2 4 (to_be_bytes 2 (as_u16 length_through_integrity));
  let packet := append_stun_attribute packet STUN_ATTR_MESSAGE_INTEGRITY (hmac_sha1 key packet) in
  let final_length := zlen packet - STUN_HEADER_LEN + 8 in
  packet ← set_slice packet 2 4 (to_be_bytes 2 (as_u16 final_length));
  let fingerprint := Z.lxor (crc32 packet) STUN_FINGERPRINT_XOR in
  mret (append_stun_attribute packet STUN_ATTR_FINGERPRINT (to_be_bytes 4 fingerprint)).

(** [format!("{}:{}", a, b)] *)
Definition username (a b : list u8) : list u8 := a ++ [z2b 58] ++ b.

Definition build_stun_binding_request (credentials : NvstStunCredentials) (transaction_id : list u8)
    : outcome Empty_set (list u8) :=
  build_authenticated_stun_packet STUN_BINDING_REQUEST transaction_id (remote_password credentials)
    [(STUN_ATTR_USERNAME,
      username (remote_username_fragment credentials) (local_username_fragment credentials))].

(** ** Checking packets *)

Definition valid_stun_fingerprint (packet : list u8) : outcome Empty_set bool :=
  found ← find_stun_attribute packet STUN_ATTR_FINGERPRINT;
  match found with
  | None => mret false
  | Some (offset, value) =>
      if negb (zlen value =? 4) || negb (offset + 8 =? zlen packet) then mret false else
      front ← slice packet 0 offset;
      let expected := Z.lxor (crc32 front) STUN_FINGERPRINT_XOR in
      mret (bool_decide (to_be_bytes 4 expected = value))
  end.

Definition valid_stun_message_integrity (packet key : list u8) : outcome Empty_set bool :=
  found ← find_stun_attribute packet STUN_ATTR_MESSAGE_INTEGRITY;
  match found with
  | None => mret false
  | Some (integrity_offset, integrity) =>
      if negb (zlen integrity =? 20) then mret false else
      fingerprint ← find_stun_attribute packet STUN_ATTR_FINGERPRINT;
      let fingerprint_bytes := match fingerprint with Some _ => 8 | None => 0 end in
      match checked_sub (zlen packet) (STUN_HEADER_LEN + fingerprint_bytes) with
      | None => mret false
      | Some adjusted_length =>
          authenticated ← slice packet 0 integrity_offset;
          authenticated ← set_slice authenticated 2 4 (to_be_bytes 2 (as_u16 adjusted_length));
          mret (bool_decide (hmac_sha1 key authenticated = integrity))
      end
  end.

Definition handle_stun_datagram (datagram : list u8) (source : SocketAddr) (credentials : NvstStunCredentials)
    : outcome Empty_set StunDatagram :=
  if zlen datagram <? STUN_HEADER_LEN then mret NotStun else
  d0 ← datagram.[0];
  if negb (Z.land (b2z d0) 0xc0 =? 0) then mret NotStun else
  d4 ← datagram.[4]; d5 ← datagram.[5]; d6 ← datagram.[6]; d7 ← datagram.[7];
  if negb (from_be_bytes [d4; d5; d6; d7] =? STUN_MAGIC_COOKIE) then mret NotStun else
  d2 ← datagram.[2]; d3 ← datagram.[3];
  let message_length := from_be_bytes [d2; d3] in
  valid ← (if negb (STUN_HEADER_LEN + message_length =? zlen datagram) then mret false
           else valid_stun_fingerprint datagram);
  if negb valid then mret Invalid else
  d1 ← datagram.[1];
  let message_type := from_be_bytes [d0; d1] in
  transaction_id ← slice datagram 8 20;
  if message_type =? STUN_BINDING_REQUEST then
    found ← find_stun_attribute datagram STUN_ATTR_USERNAME;
    match found with
    | None => mret Invalid
    | Some (_, name) =>
        let expected_username := username (local_username_fragment credentials)
          (remote_username_fragment credentials) in
        authentic ← (if bool_decide (expected_username = name)
                     then valid_stun_message_integrity datagram (local_password credentials)
                     else mret false);
        if negb authentic then mret Invalid else
        let mapped_address := xor_mapped_address source transaction_id in
        response ← build_authenticated_stun_packet STUN_BINDING_SUCCESS_RESPONSE transaction_id
          (local_password credentials) [(STUN_ATTR_XOR_MAPPED_ADDRESS, mapped_address)];
        mret (Handled (Some response))
    end
  else if message_type =? STUN_BINDING_SUCCESS_RESPONSE then
    authentic ← valid_stun_message_integrity datagram (remote_password credentials);
    mret (if authentic : bool then Handled None else Invalid)
  else mret Invalid.

(** The check both trackers make: the integrity, and the fingerprint only when
    there is one. *)
Definition authentic_response (packet password : list u8) : outcome Empty_set bool :=
  integrity ← valid_stun_message_integrity packet password;
  if negb integrity then mret false else
  fingerprint ← find_stun_attribute packet STUN_ATTR_FINGERPRINT;
  match fingerprint with
  | Some _ => valid_stun_fingerprint packet
  | None => mret true
  end.
End Stun.

(** ** The trackers *)

Module IceResponseTracker.
(** The pending transaction identifiers, oldest first, and whether each was
    answered. *)
Definition t : Type := list (list u8 * bool).

(** A push onto a [VecDeque] of at most [MAX_PENDING_STREAM_PINGS]. *)
Definition push_bounded {A} (queue : list A) (x : A) : list A :=
  (if zlen queue =? MAX_PENDING_STREAM_PINGS then drop 1 queue else queue) ++ [x].

Definition sent (self : t) (packet : list u8) : outcome Empty_set t :=
  stun ← looks_like_stun packet;
  if negb stun then mret self else
  request ← range_is packet 0 2 (to_be_bytes 2 STUN_BINDING_REQUEST);
  if negb request then mret self else
  transaction_id ← slice packet 8 20;
  if existsb (fun request => bool_decide (request.1 = transaction_id)) self then mret self
  else mret (push_bounded self (transaction_id, false)).

(** Mark the first request with the identifier; [None] when there is none. *)
Fixpoint complete (self : t) (transaction_id : list u8) : option (t * bool) :=
  match self with
  | [] => None
  | (id, completed) :: rest =>
      if bool_decide (id = transaction_id) then Some ((id, true) :: rest, completed)
      else '(rest, completed') ← complete rest transaction_id; Some ((id, completed) :: rest, completed')
  end.

Section IceResponseTracker.
Context `{Crypto}.

(** Whether the packet is to be handed on; a second authentic response is
    not. *)
Definition accept (self : t) (packet remote_password : list u8) : outcome Empty_set (t * bool) :=
  stun ← looks_like_stun packet;
  if negb stun then mret (self, true) else
  response ← range_is packet 0 2 (to_be_bytes 2 STUN_BINDING_SUCCESS_RESPONSE);
  if negb response then mret (self, true) else
  p2 ← packet.[2]; p3 ← packet.[3];
  if negb (STUN_HEADER_LEN + from_be_bytes [p2; p3] =? zlen packet) then mret (self, true) else
  transaction_id ← slice packet 8 20;
  match complete self transaction_id with
  | None => mret (self, true)
  | Some (self', completed) =>
      authentic ← authentic_response packet remote_password;
      if negb authentic then mret (self, true) else mret (self', negb completed)
  end.
End IceResponseTracker.
End IceResponseTracker.

Module StreamPingTracker.
Definition t : Type := list (list u8 * Z).

Definition sent (self : t) (transaction_id : list u8) (now : Z) : t :=
  let pending := List.filter (fun ping => saturating_duration_since now ping.2 <? STREAM_PING_TIMEOUT) self in
  IceResponseTracker.push_bounded pending (transaction_id, now).

Definition position (self : t) (transaction_id : list u8) : option nat :=
  fst <$> list_find (fun ping => ping.1 = transaction_id) self.

Section StreamPingTracker.
Context `{Crypto}.

Definition receive (self : t) (packet : list u8) (credentials : NvstStunCredentials) (now : Z)
    : outcome Empty_set (t * option Z) :=
  match zget_range packet 0 2, zget_range packet 8 20 with
  | Some message_type, Some transaction_id =>
      if negb (bool_decide (message_type = to_be_bytes 2 STUN_BINDING_SUCCESS_RESPONSE)) then mret (self, None) else
      match position self transaction_id with
      | None => mret (self, None)
      | Some index =>
          authentic ← authentic_response packet (remote_password credentials);
          if negb authentic then mret (self, None) else
          match self !! index with
          | None => mret (self, None)
          | Some (_, sent) =>
              let self := delete index self in
              match checked_duration_since now sent with
              | None => mret (self, None)
              | Some elapsed =>
                  mret (self, if elapsed <? STREAM_PING_TIMEOUT then Some elapsed else None)
              end
          end
      end
  | _, _ => mret (self, None)
  end.
End StreamPingTracker.
End StreamPingTracker.

(** ** No packet makes the parser panic *)

Lemma next_multiple_spec n : 0 <= n -> n <= next_multiple_of n 4 < n + 4 /\ next_multiple_of n 4 mod 4 = 0.
Proof.
  intros Hn. unfold next_multiple_of. pose proof (div_ceil_spec n 4 Hn ltac:(lia)).
  split; [lia|]. by rewrite Z.mod_mul.
Qed.

(** What a found attribute is: a value inside the packet, after its header. *)
Definition found_ok (packet : list u8) (found : option (Z * list u8)) : Prop :=
  match found with
  | None => True
  | Some (offset, value) => STUN_HEADER_LEN <= offset /\ offset + 4 + zlen value <= zlen packet
  end.

Lemma find_loop_total fuel packet wanted offset :
  STUN_HEADER_LEN <= offset -> (0 < fuel)%nat -> zlen packet - offset < Z.of_nat fuel ->
  exists found, find_attribute_loop fuel packet wanted offset = Ok found /\ found_ok packet found.
Proof.
  revert offset. induction fuel as [|fuel IH]; intros offset Ho Hpos Hf; [lia|].
  cbn [find_attribute_loop]. unfold STUN_HEADER_LEN in *.
  destruct (Z.leb_spec (offset + 4) (zlen packet)); [|by exists None].
  do 4 step_idx. set (len := from_be_bytes [x0; x]).
  assert (Hlen : 0 <= len < 65536) by (pose proof (be_bytes_u16 x0 x); unfold is_u16 in *; lia).
  destruct (checked_add64 _ _) as [value_end|] eqn:Ec; [|by exists None].
  unfold checked_add64 in Ec. destruct (_ <=? _) in Ec; [|done]. injection Ec as <-.
  destruct (Z.ltb_spec (zlen packet) (offset + 4 + len)); [by exists None|].
  destruct (_ =? wanted).
  - rewrite slice_Ok by lia. obind. eexists. split; [reflexivity|]. cbn. split; [done|].
    unfold STUN_HEADER_LEN, zlen in *. rewrite length_take, length_drop. lia.
  - pose proof (next_multiple_spec (offset + 4 + len)). apply IH; lia.
Qed.

Lemma find_total packet wanted :
  exists found, find_stun_attribute packet wanted = Ok found /\ found_ok packet found.
Proof. apply find_loop_total; [done|lia|unfold STUN_HEADER_LEN, zlen; lia]. Qed.



Section Total.
Context `{Crypto}.

Lemma fingerprint_total packet : exists b, valid_stun_fingerprint packet = Ok b.
Proof.
  unfold valid_stun_fingerprint. destruct (find_total packet STUN_ATTR_FINGERPRINT) as (found & -> & Hf). obind.
  destruct found as [[offset value]|]; [|by eexists]. destruct Hf as [Ho Hv]. unfold STUN_HEADER_LEN in Ho.
  destruct (_ || _); [by eexists|]. pose proof (zlen_nonneg value).
  rewrite slice_Ok by lia. obind. by eexists.
Qed.

Lemma integrity_total packet key : exists b, valid_stun_message_integrity packet key = Ok b.
Proof.
  unfold valid_stun_message_integrity. destruct (find_total packet STUN_ATTR_MESSAGE_INTEGRITY) as (found & -> & Hf). obind.
  destruct found as [[offset value]|]; [|by eexists]. destruct Hf as [Ho Hv]. unfold STUN_HEADER_LEN in Ho.
  destruct (negb _); [by eexists|]. pose proof (zlen_nonneg value).
  destruct (find_total packet STUN_ATTR_FINGERPRINT) as (fp & -> & _). obind.
  destruct (checked_sub _ _); [|by eexists]. rewrite slice_Ok by lia. obind.
  set (front := take _ _).
  assert (Hfl : zlen front = offset) by (unfold front, zlen in *; rewrite length_take, length_drop; lia).
  rewrite set_slice_Ok by (autorewrite with zlens; lia). obind. by eexists.
Qed.

Lemma authentic_total packet password : exists b, authentic_response packet password = Ok b.
Proof.
  unfold authentic_response. destruct (integrity_total packet password) as [b ->]. obind.
  destruct (negb b); [by eexists|]. destruct (find_total packet STUN_ATTR_FINGERPRINT) as (fp & -> & _). obind.
  destruct fp; [apply fingerprint_total|by eexists].
Qed.
End Total.

Lemma range_is_total datagram a b bytes :
  0 <= a <= b -> b <= zlen datagram ->
  range_is datagram a b bytes
  = Ok (bool_decide (take (Z.to_nat (b - a)) (drop (Z.to_nat a) datagram) = bytes)).
Proof. intros. unfold range_is. by rewrite slice_Ok. Qed.

Lemma looks_like_stun_total datagram :
  exists b, looks_like_stun datagram = Ok b /\ (b = true -> STUN_HEADER_LEN <= zlen datagram).
Proof.
  unfold looks_like_stun. destruct (Z.leb_spec STUN_HEADER_LEN (zlen datagram)) as [Hl|]; [|by exists false].
  unfold STUN_HEADER_LEN in *. rewrite range_is_total by lia. by eexists.
Qed.

(** ** The attributes of a packet *)

Definition padding (value : list u8) : list u8 :=
  replicate (Z.to_nat (next_multiple_of (zlen value) 4 - zlen value)) Byte.x00.
Definition attribute_bytes (attribute : Z * list u8) : list u8 :=
  to_be_bytes 2 attribute.1 ++ to_be_bytes 2 (zlen attribute.2) ++ attribute.2 ++ padding attribute.2.
Definition attribute_ok (attribute : Z * list u8) : Prop := is_u16 attribute.1 /\ zlen attribute.2 <= U16_MAX.

Lemma next_multiple_add n k : n mod 4 = 0 -> next_multiple_of (n + k) 4 = n + next_multiple_of k 4.
Proof.
  intros Hn. unfold next_multiple_of, div_ceil. pose proof (Z.div_mod n 4 ltac:(lia)).
  replace (n + k + 4 - 1) with (k + 4 - 1 + n / 4 * 4) by lia. rewrite Z.div_add by lia. lia.
Qed.

Lemma zlen_padding value : zlen (padding value) = next_multiple_of (zlen value) 4 - zlen value.
Proof.
  unfold padding. unfold zlen at 1. rewrite length_replicate.
  pose proof (next_multiple_spec (zlen value) (zlen_nonneg value)). lia.
Qed.
Lemma zlen_attribute attribute : zlen (attribute_bytes attribute) = 4 + next_multiple_of (zlen attribute.2) 4.
Proof. unfold attribute_bytes. autorewrite with zlens. rewrite zlen_padding. lia. Qed.
Lemma attribute_aligned attribute : zlen (attribute_bytes attribute) mod 4 = 0.
Proof.
  rewrite zlen_attribute. pose proof (next_multiple_spec (zlen attribute.2) (zlen_nonneg _)) as [_ Hm].
  rewrite Z.add_mod, Hm by lia. done.
Qed.

(** Appending to an aligned packet appends the padded attribute. *)
Lemma append_attribute packet attribute :
  zlen packet mod 4 = 0 -> attribute_ok attribute ->
  append_stun_attribute packet attribute.1 attribute.2 = packet ++ attribute_bytes attribute.
Proof.
  destruct attribute as [t v]. intros Ha [Ht Hv]. cbn [fst snd] in *. unfold append_stun_attribute, attribute_bytes. cbn [fst snd].
  pose proof (zlen_nonneg v). rewrite as_u16_small by (unfold is_u16, U16_MAX in *; lia).
  set (body := packet ++ _). assert (Hl : zlen body = zlen packet + 4 + zlen v) by (unfold body; autorewrite with zlens; lia).
  unfold resize. rewrite take_ge.
  2: { pose proof (next_multiple_spec (zlen body) (zlen_nonneg _)). unfold zlen in *. lia. }
  unfold body. rewrite <- !app_assoc. do 4 f_equal. unfold padding. f_equal. fold body.
  assert (next_multiple_of (zlen body) 4 = zlen packet + 4 + next_multiple_of (zlen v) 4) as ->.
  { rewrite Hl. rewrite next_multiple_add; [done|]. rewrite Z.add_mod, Ha by lia. done. }
  unfold zlen in *. lia.
Qed.

(** The first attribute with the type, and its offset. *)
Fixpoint find_attribute (attributes : list (Z * list u8)) (offset wanted_type : Z) : option (Z * list u8) :=
  match attributes with
  | [] => None
  | attribute :: attributes =>
      if attribute.1 =? wanted_type then Some (offset, attribute.2)
      else find_attribute attributes (offset + zlen (attribute_bytes attribute)) wanted_type
  end.

Definition body (attributes : list (Z * list u8)) : list u8 := concat (map attribute_bytes attributes).

Lemma body_aligned attributes : zlen (body attributes) mod 4 = 0.
Proof.
  induction attributes as [|a attributes IH]; [done|]. unfold body in *. cbn [map concat].
  rewrite zlen_app, Z.add_mod, IH, attribute_aligned by lia. done.
Qed.

Lemma find_loop_body fuel pre attributes wanted :
  zlen pre mod 4 = 0 -> Forall attribute_ok attributes -> (length attributes < fuel)%nat ->
  zlen pre + zlen (body attributes) < 2 ^ 63 ->
  find_attribute_loop fuel (pre ++ body attributes) wanted (zlen pre)
  = Ok (find_attribute attributes (zlen pre) wanted).
Proof.
  intros Ha Hall. revert pre fuel Ha. induction Hall as [|[t v] attributes [Ht Hv] Hall IH]; intros pre fuel Ha Hf Hb;
    (destruct fuel as [|fuel]; [cbn in Hf; lia|]); cbn [find_attribute_loop find_attribute].
  { unfold body. cbn [map concat]. rewrite app_nil_r. by rewrite (proj2 (Z.leb_gt _ _)) by lia. }
  cbn [fst snd] in *. pose proof (zlen_nonneg v). pose proof (zlen_nonneg (body attributes)). pose proof (zlen_nonneg pre).
  pose proof (next_multiple_spec (zlen v) ltac:(lia)) as [Hn Hnm].
  assert (Hbody : body ((t, v) :: attributes) = attribute_bytes (t, v) ++ body attributes) by done.
  rewrite Hbody in *. rewrite zlen_app, zlen_attribute in Hb. cbn [snd] in Hb.
  rewrite (proj2 (Z.leb_le _ _)) by (autorewrite with zlens; rewrite zlen_attribute; cbn [snd]; lia).
  destruct (be_bytes2 t Ht) as (t0 & t1 & Et & Ht').
  destruct (be_bytes2 (zlen v)) as (l0 & l1 & El & Hl'); [unfold is_u16, U16_MAX in *; lia|].
  assert (Hx : attribute_bytes (t, v) = [t0; t1; l0; l1] ++ v ++ padding v).
  { unfold attribute_bytes. cbn [fst snd]. by rewrite Et, El. }
  assert (Hi : forall E i, 0 <= i -> idx (E:=E) (pre ++ attribute_bytes (t, v) ++ body attributes) (zlen pre + i)
    = idx ([t0; t1; l0; l1] ++ (v ++ padding v) ++ body attributes) i).
  { intros. rewrite idx_plus by done. by rewrite Hx, <- app_assoc. }
  rewrite <- (Z.add_0_r (zlen pre)) at 1. rewrite !Hi by lia. cbn [app]. by_index. rewrite Ht', Hl'.
  rewrite checked_add64_Some by lia.
  rewrite (proj2 (Z.ltb_ge _ _)) by (autorewrite with zlens; rewrite zlen_attribute; cbn [snd]; lia).
  destruct (t =? wanted).
  - assert (Hs : pre ++ attribute_bytes (t, v) ++ body attributes
      = (pre ++ [t0; t1; l0; l1]) ++ v ++ padding v ++ body attributes).
    { rewrite Hx. by rewrite <- !app_assoc. }
    rewrite Hs, slice_app by (autorewrite with zlens; lia). done.
  - assert (Hnext : next_multiple_of (zlen pre + 4 + zlen v) 4 = zlen (pre ++ attribute_bytes (t, v))).
    { rewrite zlen_app, zlen_attribute. cbn [snd]. rewrite next_multiple_add; [lia|].
      rewrite Z.add_mod, Ha by lia. done. }
    rewrite Hnext, app_assoc. rewrite IH.
    + do 2 f_equal. by rewrite zlen_app.
    + rewrite zlen_app, Z.add_mod, Ha, attribute_aligned by lia. done.
    + cbn in Hf. lia.
    + rewrite zlen_app, zlen_attribute. cbn [snd]. lia.
Qed.

Lemma body_app l r : body (l ++ r) = body l ++ body r.
Proof. unfold body. by rewrite map_app, concat_app. Qed.

Lemma find_attribute_app l r offset wanted :
  Forall (fun attribute => attribute.1 <> wanted) l ->
  find_attribute (l ++ r) offset wanted = find_attribute r (offset + zlen (body l)) wanted.
Proof.
  intros Hl. revert offset. induction Hl as [|a l Ha Hl IH]; intros offset; cbn [app find_attribute].
  { change (zlen (body [])) with 0. by rewrite Z.add_0_r. }
  rewrite (proj2 (Z.eqb_neq _ _)) by done. rewrite IH. f_equal. unfold body. cbn [map concat].
  autorewrite with zlens. lia.
Qed.

Definition stun_header (message_type length : Z) (transaction_id : list u8) : list u8 :=
  to_be_bytes 2 message_type ++ to_be_bytes 2 length ++ to_be_bytes 4 STUN_MAGIC_COOKIE ++ transaction_id.

Lemma zlen_stun_header message_type length transaction_id :
  zlen transaction_id = 12 -> zlen (stun_header message_type length transaction_id) = 20.
Proof. intros. unfold stun_header. autorewrite with zlens. lia. Qed.

(** Overwriting the length field. *)
Lemma set_length message_type n m transaction_id rest :
  set_slice (E:=Empty_set) (stun_header message_type n transaction_id ++ rest) 2 4 (to_be_bytes 2 m)
  = Ok (stun_header message_type m transaction_id ++ rest).
Proof.
  rewrite set_slice_Ok; [done|lia|done|].
  unfold stun_header. autorewrite with zlens. pose proof (zlen_nonneg rest). pose proof (zlen_nonneg transaction_id). lia.
Qed.

Lemma find_in_packet message_type n transaction_id attributes wanted :
  zlen transaction_id = 12 -> Forall attribute_ok attributes -> zlen (body attributes) < 2 ^ 32 ->
  find_stun_attribute (stun_header message_type n transaction_id ++ body attributes) wanted
  = Ok (find_attribute attributes STUN_HEADER_LEN wanted).
Proof.
  intros Ht Ha Hb. unfold find_stun_attribute. change STUN_HEADER_LEN with 20.
  rewrite <- (zlen_stun_header message_type n transaction_id Ht). apply find_loop_body; [|done| |].
  - by rewrite zlen_stun_header.
  - assert (Hlen : (length attributes <= length (body attributes))%nat).
    { clear. induction attributes as [|a l IH]; [done|]. unfold body in *. cbn [map concat length].
      rewrite length_app. pose proof (zlen_attribute a). pose proof (next_multiple_spec (zlen a.2) (zlen_nonneg _)).
      pose proof (zlen_nonneg a.2). unfold zlen in *. lia. }
    rewrite length_app. lia.
  - rewrite zlen_stun_header by done. lia.
Qed.

Section Built.
Context `{CryptoLaws}.

(** The packet [build_authenticated_stun_packet] makes. *)
Definition signed (message_type : Z) (transaction_id key : list u8) (attributes : list (Z * list u8))
    : list (Z * list u8) :=
  attributes ++ [(STUN_ATTR_MESSAGE_INTEGRITY,
    hmac_sha1 key (stun_header message_type (zlen (body attributes) + 24) transaction_id ++ body attributes))].
Definition checked (message_type : Z) (transaction_id key : list u8) (attributes : list (Z * list u8)) : list u8 :=
  stun_header message_type (zlen (body attributes) + 32) transaction_id
  ++ body (signed message_type transaction_id key attributes).
Definition sealed (message_type : Z) (transaction_id key : list u8) (attributes : list (Z * list u8))
    : list (Z * list u8) :=
  signed message_type transaction_id key attributes
  ++ [(STUN_ATTR_FINGERPRINT,
       to_be_bytes 4 (Z.lxor (crc32 (checked message_type transaction_id key attributes)) STUN_FINGERPRINT_XOR))].
Definition stun_packet (message_type : Z) (transaction_id key : list u8) (attributes : list (Z * list u8)) : list u8 :=
  stun_header message_type (zlen (body attributes) + 32) transaction_id
  ++ body (sealed message_type transaction_id key attributes).

(** The attributes of a message: none of the two the builder adds, and short
    enough for the length field. *)
Record message_ok (transaction_id : list u8) (attributes : list (Z * list u8)) : Prop := {
  mo_id : zlen transaction_id = 12;
  mo_attributes : Forall attribute_ok attributes;
  mo_length : zlen (body attributes) + 32 <= U16_MAX;
  mo_integrity : Forall (fun attribute => attribute.1 <> STUN_ATTR_MESSAGE_INTEGRITY) attributes;
  mo_fingerprint : Forall (fun attribute => attribute.1 <> STUN_ATTR_FINGERPRINT) attributes
}.

Lemma foldl_append packet attributes :
  zlen packet mod 4 = 0 -> Forall attribute_ok attributes ->
  foldl (fun packet attribute => append_stun_attribute packet attribute.1 attribute.2) packet attributes
  = packet ++ body attributes.
Proof.
  intros Ha Hall. revert packet Ha. induction Hall as [|a l Hok Hall IH]; intros packet Ha; cbn [foldl].
  { unfold body. cbn. by rewrite app_nil_r. }
  rewrite append_attribute by done. rewrite IH.
  - unfold body. cbn [map concat]. by rewrite <- app_assoc.
  - by rewrite zlen_app, Z.add_mod, Ha, attribute_aligned by lia.
Qed.

Lemma body_one attribute : body [attribute] = attribute_bytes attribute.
Proof. unfold body. cbn. apply app_nil_r. Qed.

Lemma attribute_ok_integrity key message : attribute_ok (STUN_ATTR_MESSAGE_INTEGRITY, hmac_sha1 key message).
Proof. split; cbn; [unfold is_u16, STUN_ATTR_MESSAGE_INTEGRITY; lia|]. rewrite hmac_sha1_length. unfold U16_MAX. lia. Qed.
Lemma attribute_ok_fingerprint z : attribute_ok (STUN_ATTR_FINGERPRINT, to_be_bytes 4 z).
Proof. split; cbn; [unfold is_u16, STUN_ATTR_FINGERPRINT; lia|]. unfold U16_MAX, zlen. rewrite length_to_be_bytes. lia. Qed.

Lemma sealed_attributes message_type transaction_id key attributes :
  Forall attribute_ok attributes ->
  Forall attribute_ok (signed message_type transaction_id key attributes)
  /\ Forall attribute_ok (sealed message_type transaction_id key attributes).
Proof.
  intros Ha. assert (Hs : Forall attribute_ok (signed message_type transaction_id key attributes)).
  { apply Forall_app. split; [done|]. constructor; [apply attribute_ok_integrity|constructor]. }
  split; [done|]. apply Forall_app. split; [done|]. constructor; [apply attribute_ok_fingerprint|constructor].
Qed.

Lemma sealed_lengths message_type transaction_id key attributes :
  zlen (body (signed message_type transaction_id key attributes)) = zlen (body attributes) + 24
  /\ zlen (body (sealed message_type transaction_id key attributes)) = zlen (body attributes) + 32.
Proof.
  assert (Hs : zlen (body (signed message_type transaction_id key attributes)) = zlen (body attributes) + 24).
  { unfold signed. rewrite body_app, body_one, zlen_app, zlen_attribute. cbn [snd]. by rewrite hmac_sha1_length. }
  split; [done|]. unfold sealed. rewrite body_app, body_one, zlen_app, Hs, zlen_attribute. cbn [snd].
  rewrite zlen_to_be_bytes. change (next_multiple_of _ 4) with 4. lia.
Qed.

Lemma build_spec message_type transaction_id key attributes :
  message_ok transaction_id attributes ->
  build_authenticated_stun_packet message_type transaction_id key attributes
  = Ok (stun_packet message_type transaction_id key attributes).
Proof.
  intros [Hid Ha Hlen _ _]. unfold build_authenticated_stun_packet.
  fold (stun_header message_type 0 transaction_id). pose proof (zlen_nonneg (body attributes)).
  assert (Hal : forall n, zlen (stun_header message_type n transaction_id) mod 4 = 0) by (intros; by rewrite zlen_stun_header).
  rewrite foldl_append by done.
  assert (Hl1 : zlen (stun_header message_type 0 transaction_id ++ body attributes) - STUN_HEADER_LEN + 24
    = zlen (body attributes) + 24) by (rewrite zlen_app, zlen_stun_header by done; unfold STUN_HEADER_LEN; lia).
  rewrite Hl1, as_u16_small by (unfold is_u16, U16_MAX in *; lia). rewrite set_length. obind.
  set (integrity := hmac_sha1 key _).
  rewrite (append_attribute _ (STUN_ATTR_MESSAGE_INTEGRITY, integrity)).
  2: { rewrite zlen_app, Z.add_mod, Hal, body_aligned by lia. done. }
  2: { apply attribute_ok_integrity. }
  rewrite <- body_one, <- app_assoc, <- body_app.
  assert (Hsig : body (attributes ++ [(STUN_ATTR_MESSAGE_INTEGRITY, integrity)])
    = body (signed message_type transaction_id key attributes)) by done.
  rewrite Hsig. destruct (sealed_lengths message_type transaction_id key attributes) as [Hs Hf].
  assert (Hl2 : zlen (stun_header message_type (zlen (body attributes) + 24) transaction_id
      ++ body (signed message_type transaction_id key attributes)) - STUN_HEADER_LEN + 8
    = zlen (body attributes) + 32).
  { rewrite zlen_app, zlen_stun_header, Hs by done. unfold STUN_HEADER_LEN. lia. }
  rewrite Hl2, as_u16_small by (unfold is_u16, U16_MAX in *; lia). rewrite set_length. obind.
  fold (checked message_type transaction_id key attributes).
  set (fingerprint := to_be_bytes 4 _).
  rewrite (append_attribute _ (STUN_ATTR_FINGERPRINT, fingerprint)).
  2: { unfold checked. rewrite zlen_app, Z.add_mod, Hal, body_aligned by lia. done. }
  2: { apply attribute_ok_fingerprint. }
  unfold stun_packet, sealed, checked. rewrite <- body_one, <- app_assoc, <- body_app. done.
Qed.

(** Finding, checking and opening such a packet. *)
Lemma find_sealed message_type transaction_id key attributes wanted :
  message_ok transaction_id attributes ->
  find_stun_attribute (stun_packet message_type transaction_id key attributes) wanted
  = Ok (find_attribute (sealed message_type transaction_id key attributes) STUN_HEADER_LEN wanted).
Proof.
  intros [Hid Ha Hlen _ _]. apply find_in_packet; [done|by apply sealed_attributes|].
  rewrite (proj2 (sealed_lengths _ _ _ _)). unfold U16_MAX in Hlen. lia.
Qed.

Lemma zlen_stun_packet message_type transaction_id key attributes :
  message_ok transaction_id attributes ->
  zlen (stun_packet message_type transaction_id key attributes) = zlen (body attributes) + 52.
Proof.
  intros [Hid _ _ _ _]. unfold stun_packet. rewrite zlen_app, zlen_stun_header by done.
  rewrite (proj2 (sealed_lengths _ _ _ _)). lia.
Qed.

Lemma find_fingerprint message_type transaction_id key attributes :
  message_ok transaction_id attributes ->
  find_attribute (sealed message_type transaction_id key attributes) STUN_HEADER_LEN STUN_ATTR_FINGERPRINT
  = Some (zlen (body attributes) + 44,
          to_be_bytes 4 (Z.lxor (crc32 (checked message_type transaction_id key attributes)) STUN_FINGERPRINT_XOR)).
Proof.
  intros [_ _ _ _ Hf]. unfold sealed. rewrite find_attribute_app.
  - cbn [find_attribute fst snd]. rewrite Z.eqb_refl, (proj1 (sealed_lengths _ _ _ _)). do 2 f_equal.
    unfold STUN_HEADER_LEN. lia.
  - unfold signed. apply Forall_app. split; [done|]. by constructor.
Qed.

Lemma find_integrity message_type transaction_id key attributes :
  message_ok transaction_id attributes ->
  find_attribute (sealed message_type transaction_id key attributes) STUN_HEADER_LEN STUN_ATTR_MESSAGE_INTEGRITY
  = Some (zlen (body attributes) + 20,
          hmac_sha1 key (stun_header message_type (zlen (body attributes) + 24) transaction_id ++ body attributes)).
Proof.
  intros [_ _ _ Hm _]. unfold sealed, signed. rewrite <- app_assoc, find_attribute_app by done.
  cbn [app find_attribute fst snd]. rewrite Z.eqb_refl. do 2 f_equal. unfold STUN_HEADER_LEN. lia.
Qed.

Lemma fingerprint_valid message_type transaction_id key attributes :
  message_ok transaction_id attributes ->
  valid_stun_fingerprint (stun_packet message_type transaction_id key attributes) = Ok true.
Proof.
  intros Hok. unfold valid_stun_fingerprint. rewrite find_sealed, find_fingerprint, zlen_stun_packet by done. obind.
  rewrite zlen_to_be_bytes. rewrite (proj2 (Z.eqb_eq (_ + 8) _)) by lia. cbn [Z.eqb Pos.eqb Z.of_nat Pos.of_succ_nat negb orb].
  assert (Hs : stun_packet message_type transaction_id key attributes
    = [] ++ checked message_type transaction_id key attributes
      ++ body [(STUN_ATTR_FINGERPRINT, to_be_bytes 4 (Z.lxor (crc32 (checked message_type transaction_id key attributes)) STUN_FINGERPRINT_XOR))]).
  { unfold stun_packet, checked, sealed. cbn [app]. by rewrite <- app_assoc, <- body_app. }
  rewrite Hs at 1. rewrite slice_app; [|done|].
  2: { unfold checked. rewrite zlen_app, zlen_stun_header by apply Hok. rewrite (proj1 (sealed_lengths _ _ _ _)). lia. }
  obind. by rewrite bool_decide_true.
Qed.

(** The HMAC is recomputed over exactly the bytes that were signed. *)
Lemma integrity_of_packet message_type transaction_id key attributes key' :
  message_ok transaction_id attributes ->
  valid_stun_message_integrity (stun_packet message_type transaction_id key attributes) key'
  = Ok (bool_decide (
      hmac_sha1 key' (stun_header message_type (zlen (body attributes) + 24) transaction_id ++ body attributes)
      = hmac_sha1 key (stun_header message_type (zlen (body attributes) + 24) transaction_id ++ body attributes))).
Proof.
  intros Hok. unfold valid_stun_message_integrity.
  rewrite !find_sealed, find_integrity, find_fingerprint, zlen_stun_packet by done. obind.
  rewrite hmac_sha1_length. cbn [Z.eqb Pos.eqb negb]. obind. pose proof (zlen_nonneg (body attributes)).
  unfold checked_sub, STUN_HEADER_LEN. rewrite (proj2 (Z.leb_le _ _)) by lia.
  assert (Hs : exists rest, stun_packet message_type transaction_id key attributes
    = [] ++ (stun_header message_type (zlen (body attributes) + 32) transaction_id ++ body attributes) ++ rest).
  { eexists. unfold stun_packet, sealed, signed. rewrite !body_app. cbn [app]. by rewrite <- !app_assoc. }
  destruct Hs as [rest ->]. rewrite slice_app; [|done|].
  2: { rewrite zlen_app, zlen_stun_header by apply Hok. lia. }
  obind. rewrite as_u16_small by (pose proof (mo_length _ _ Hok); unfold is_u16, U16_MAX in *; lia).
  replace (zlen (body attributes) + 52 - (20 + 8)) with (zlen (body attributes) + 24) by lia.
  rewrite set_length. done.
Qed.
End Built.

(** ** The mapped address *)

Definition sockaddr_ok (a : SocketAddr) : Prop :=
  is_u16 (sa_port a)
  /\ match sa_ip a with V4 octets => zlen octets = 4 | V6 octets => zlen octets = 16 end.

(** How the receiver of a XOR-MAPPED-ADDRESS reads it (RFC 5389, 15.2). *)
Definition decode_mapped_address (value transaction_id : list u8) : option SocketAddr :=
  match value with
  | _ :: family :: p0 :: p1 :: octets =>
      let port := Z.lxor (from_be_bytes [p0; p1]) 0x2112 in
      let cookie := to_be_bytes 4 STUN_MAGIC_COOKIE in
      if b2z family =? 1 then Some {| sa_ip := V4 (zip_with bxor octets cookie); sa_port := port |}
      else if b2z family =? 2
      then Some {| sa_ip := V6 (zip_with bxor octets (cookie ++ transaction_id)); sa_port := port |}
      else None
  | _ => None
  end.

Lemma zip_with_involutive (l mask : list u8) :
  (length l <= length mask)%nat -> zip_with bxor (zip_with bxor l mask) mask = l.
Proof.
  revert mask. induction l as [|a l IH]; intros [|m mask] Hl; cbn in *; try done; [lia|].
  rewrite <- bxor_assoc, bxor_self, bxor_0_r, IH by lia. done.
Qed.

Lemma decode_xor_mapped source transaction_id :
  sockaddr_ok source -> zlen transaction_id = 12 ->
  decode_mapped_address (xor_mapped_address source transaction_id) transaction_id = Some source.
Proof.
  destruct source as [ip port]. intros [Hp Hip] Ht. cbn [sa_ip sa_port] in *.
  assert (Hx : is_u16 (Z.lxor port 0x2112)).
  { unfold is_u16 in *. split; [apply Z.lxor_nonneg; lia|].
    destruct (decide (Z.lxor port 0x2112 = 0)) as [->|]; [lia|]. apply Z.log2_lt_pow2; [|].
    - assert (0 <= Z.lxor port 0x2112) by (apply Z.lxor_nonneg; lia). lia.
    - pose proof (Z.log2_lxor port 0x2112 ltac:(lia) ltac:(lia)) as Hlog.
      assert (Z.log2 port < 16).
      { destruct (decide (port = 0)) as [->|]; [done|]. apply Z.log2_lt_pow2; lia. }
      change (Z.log2 0x2112) with 13 in Hlog. lia. }
  unfold xor_mapped_address. cbn [sa_ip sa_port].
  change (as_u16 (Z.shiftr STUN_MAGIC_COOKIE 16)) with 0x2112.
  destruct (be_bytes2 _ Hx) as (a & b & -> & Hab).
  assert (Hport : Z.lxor (Z.lxor port 0x2112) 0x2112 = port)
    by (by rewrite Z.lxor_assoc, Z.lxor_nilpotent, Z.lxor_0_r).
  destruct ip as [octets|octets]; cbn [app decode_mapped_address].
  - change (b2z (z2b 1) =? 1) with true. cbn iota. rewrite Hab, Hport.
    rewrite zip_with_involutive; [done|]. rewrite length_to_be_bytes. unfold zlen in *. lia.
  - change (b2z (z2b 2) =? 1) with false. change (b2z (z2b 2) =? 2) with true. cbn iota. rewrite Hab, Hport.
    rewrite zip_with_involutive; [done|]. rewrite length_app, length_to_be_bytes. unfold zlen in *. lia.
Qed.

Lemma zlen_xor_mapped source transaction_id :
  zlen (xor_mapped_address source transaction_id) <= 4 + Z.max 4 (4 + zlen transaction_id).
Proof.
  unfold xor_mapped_address. pose proof (zlen_nonneg transaction_id). destruct (sa_ip source) as [o|o]; autorewrite with zlens;
    unfold zlen at 1; rewrite length_zip_with; rewrite ?length_app, length_to_be_bytes; unfold zlen in *; lia.
Qed.

(** ** Handling *)

Lemma header_reads message_type n transaction_id rest :
  is_u16 message_type -> is_u16 n -> zlen transaction_id = 12 ->
  let packet := stun_header message_type n transaction_id ++ rest in
  exists d0 d1 d2 d3 d4 d5 d6 d7,
    (forall E, idx (E:=E) packet 0 = Ok d0) /\ (forall E, idx (E:=E) packet 1 = Ok d1)
    /\ (forall E, idx (E:=E) packet 2 = Ok d2) /\ (forall E, idx (E:=E) packet 3 = Ok d3)
    /\ (forall E, idx (E:=E) packet 4 = Ok d4) /\ (forall E, idx (E:=E) packet 5 = Ok d5)
    /\ (forall E, idx (E:=E) packet 6 = Ok d6) /\ (forall E, idx (E:=E) packet 7 = Ok d7)
    /\ d0 = z2b (message_type / 256) /\ from_be_bytes [d0; d1] = message_type /\ from_be_bytes [d2; d3] = n
    /\ from_be_bytes [d4; d5; d6; d7] = STUN_MAGIC_COOKIE
    /\ (forall E, slice (E:=E) packet 8 20 = Ok transaction_id).
Proof.
  intros Ht Hn Hid packet.
  exists (z2b (message_type / 256)), (z2b message_type), (z2b (n / 256)), (z2b n),
    (z2b 0x21), (z2b 0x12), (z2b 0xa4), (z2b 0x42).
  do 9 (split; [done|]).
  split; [by apply (from_to_be_bytes 2)|]. split; [by apply (from_to_be_bytes 2)|]. split; [done|].
  intros E. unfold packet, stun_header.
  rewrite <- !app_assoc, (app_assoc (to_be_bytes 2 message_type)), (app_assoc (_ ++ _) (to_be_bytes 4 _)).
  apply slice_app; autorewrite with zlens; lia.
Qed.

Section Handled.
Context `{CryptoLaws}.

(** A well-formed datagram of a known type passes the framing checks. *)
Lemma handle_framed message_type transaction_id key attributes source credentials :
  message_ok transaction_id attributes ->
  message_type = STUN_BINDING_REQUEST \/ message_type = STUN_BINDING_SUCCESS_RESPONSE ->
  let packet := stun_packet message_type transaction_id key attributes in
  let hmac password := hmac_sha1 password
    (stun_header message_type (zlen (body attributes) + 24) transaction_id ++ body attributes) in
  handle_stun_datagram packet source credentials
  = if message_type =? STUN_BINDING_REQUEST then
      match find_attribute (sealed message_type transaction_id key attributes) STUN_HEADER_LEN STUN_ATTR_USERNAME with
      | None => Ok Invalid
      | Some (_, name) =>
          if bool_decide (username (local_username_fragment credentials) (remote_username_fragment credentials) = name)
             && bool_decide (hmac (local_password credentials) = hmac key)
          then Ok (Handled (Some (stun_packet STUN_BINDING_SUCCESS_RESPONSE transaction_id (local_password credentials)
                 [(STUN_ATTR_XOR_MAPPED_ADDRESS, xor_mapped_address source transaction_id)])))
          else Ok Invalid
      end
    else Ok (if bool_decide (hmac (remote_password credentials) = hmac key) then Handled None else Invalid).
Proof.
  intros Hok Hmt packet hmac. pose proof (zlen_nonneg (body attributes)). pose proof (mo_length _ _ Hok) as Hlen.
  assert (Hpl : zlen packet = zlen (body attributes) + 52) by (by apply zlen_stun_packet).
  destruct (header_reads message_type (zlen (body attributes) + 32) transaction_id
    (body (sealed message_type transaction_id key attributes)))
    as (d0 & d1 & d2 & d3 & d4 & d5 & d6 & d7 & R0 & R1 & R2 & R3 & R4 & R5 & R6 & R7 & Hd0 & Htype & Hn & Hcookie & Hid).
  { destruct Hmt as [-> | ->]; unfold is_u16, STUN_BINDING_REQUEST, STUN_BINDING_SUCCESS_RESPONSE; lia. }
  { unfold is_u16, U16_MAX in *. lia. }
  { apply Hok. }
  fold (stun_packet message_type transaction_id key attributes) in *. fold packet in R0, R1, R2, R3, R4, R5, R6, R7, Hid.
  unfold handle_stun_datagram, STUN_HEADER_LEN. rewrite (proj2 (Z.ltb_ge _ _)) by lia.
  rewrite R0. obind.
  assert (Hc0 : Z.land (b2z d0) 192 =? 0 = true) by (rewrite Hd0; destruct Hmt as [-> | ->]; reflexivity).
  rewrite Hc0. cbn [negb]. rewrite R4, R5, R6, R7. obind. rewrite Hcookie, Z.eqb_refl. cbn [negb].
  rewrite R2, R3. obind. rewrite Hn. rewrite (proj2 (Z.eqb_eq (20 + _) _)) by lia. cbn [negb].
  unfold packet. rewrite fingerprint_valid by done. fold packet. obind. cbn [negb].
  rewrite R1. obind. rewrite Htype, Hid. obind.
  destruct Hmt as [-> | ->]; cbn [Z.eqb Pos.eqb STUN_BINDING_REQUEST STUN_BINDING_SUCCESS_RESPONSE].
  - unfold packet. rewrite find_sealed by done. obind.
    destruct (find_attribute _ _ _) as [[o name]|]; [|done].
    destruct (bool_decide (username _ _ = name)); cbn [andb]; [|obind; done].
    rewrite integrity_of_packet by done. obind. fold (hmac (local_password credentials)). fold (hmac key).
    destruct (bool_decide (hmac _ = hmac key)); cbn [negb]; [|done].
    rewrite build_spec; [done|]. pose proof (zlen_xor_mapped source transaction_id). pose proof (mo_id _ _ Hok).
    constructor; [done| | |by constructor|by constructor].
    + constructor; [|constructor]. split; cbn [fst snd]; [unfold is_u16, STUN_ATTR_XOR_MAPPED_ADDRESS; lia|unfold U16_MAX; lia].
    + rewrite body_one, zlen_attribute. cbn [snd].
      pose proof (next_multiple_spec (zlen (xor_mapped_address source transaction_id)) (zlen_nonneg _)). unfold U16_MAX. lia.
  - unfold packet. rewrite integrity_of_packet by done. obind. by destruct (bool_decide _).
Qed.
End Handled.

Section Exchange.
Context `{CryptoLaws}.

Lemma mapped_message_ok source transaction_id :
  zlen transaction_id = 12 ->
  message_ok transaction_id [(STUN_ATTR_XOR_MAPPED_ADDRESS, xor_mapped_address source transaction_id)].
Proof.
  intros Hid. pose proof (zlen_xor_mapped source transaction_id). constructor; [done| | |by constructor|by constructor].
  - constructor; [|constructor]. split; cbn [fst snd]; [unfold is_u16, STUN_ATTR_XOR_MAPPED_ADDRESS; lia|unfold U16_MAX; lia].
  - rewrite body_one, zlen_attribute. cbn [snd].
    pose proof (next_multiple_spec (zlen (xor_mapped_address source transaction_id)) (zlen_nonneg _)). unfold U16_MAX. lia.
Qed.

Lemma handle_total datagram source credentials :
  exists r, handle_stun_datagram datagram source credentials = Ok r.
Proof.
  unfold handle_stun_datagram, STUN_HEADER_LEN. destruct (Z.ltb_spec (zlen datagram) 20); [by eexists|].
  repeat step_idx. destruct (negb (Z.land _ _ =? 0)); [by eexists|].
  destruct (negb (_ =? STUN_MAGIC_COOKIE)); [by eexists|].
  match goal with |- context [if negb (20 + ?n =? ?m) then mret false else ?v] =>
    set (valid := if negb (20 + n =? m) then mret false else v) end.
  assert (Hv : exists b, valid = Ok b) by (unfold valid; destruct (negb _); [by eexists|apply fingerprint_total]).
  destruct Hv as [b ->]. obind. destruct (negb b); [by eexists|].
  rewrite slice_Ok by lia. obind. set (id := take _ _).
  assert (Hid : zlen id = 12) by (unfold id, zlen in *; rewrite length_take, length_drop; lia).
  destruct (_ =? STUN_BINDING_REQUEST); [|destruct (_ =? STUN_BINDING_SUCCESS_RESPONSE); [|by eexists]].
  - destruct (find_total datagram STUN_ATTR_USERNAME) as ([[o name]|] & -> & _); [|by eexists]. obind.
    match goal with |- context [if bool_decide (?a = name) then ?v else mret false] =>
      set (authentic := if bool_decide (a = name) then v else mret false) end.
    assert (Ha : exists b, authentic = Ok b) by (unfold authentic; destruct (bool_decide _); [apply integrity_total|by eexists]).
    destruct Ha as [b' ->]. obind. destruct (negb b'); [by eexists|].
    rewrite build_spec by (by apply mapped_message_ok). obind. by eexists.
  - destruct (integrity_total datagram (remote_password credentials)) as [b' ->]. obind. by eexists.
Qed.

(** The two ends of a session hold the same fragments and passwords. *)
Definition mirrored (a b : NvstStunCredentials) : Prop :=
  remote_username_fragment a = local_username_fragment b /\ local_username_fragment a = remote_username_fragment b
  /\ remote_password a = local_password b /\ local_password a = remote_password b.

Definition fragments_short (c : NvstStunCredentials) : Prop :=
  zlen (local_username_fragment c) + zlen (remote_username_fragment c) <= 512.

Definition request_attributes (c : NvstStunCredentials) : list (Z * list u8) :=
  [(STUN_ATTR_USERNAME, username (remote_username_fragment c) (local_username_fragment c))].

Lemma request_message_ok c transaction_id :
  fragments_short c -> zlen transaction_id = 12 -> message_ok transaction_id (request_attributes c).
Proof.
  unfold fragments_short. intros Hs Hid.
  pose proof (zlen_nonneg (local_username_fragment c)). pose proof (zlen_nonneg (remote_username_fragment c)).
  assert (Hl : zlen (username (remote_username_fragment c) (local_username_fragment c)) <= 513)
    by (unfold username; autorewrite with zlens; lia).
  constructor; [done| | |by constructor|by constructor].
  - constructor; [|constructor]. split; cbn [fst snd]; [unfold is_u16, STUN_ATTR_USERNAME; lia|unfold U16_MAX; lia].
  - unfold request_attributes. rewrite body_one, zlen_attribute. cbn [snd].
    pose proof (next_multiple_spec _ (zlen_nonneg (username (remote_username_fragment c) (local_username_fragment c)))).
    unfold U16_MAX. lia.
Qed.

(** The binding exchange completes.  The request one end builds is accepted
    by the other end's [handle_stun_datagram], which answers with a response
    the first end accepts as a success for its credentials and in which it
    finds, decoded, the address the request came from; a request signed with a
    password whose HMAC differs on it is invalid, and no datagram whatever
    makes the handler panic. *)
Theorem stun_exchange_completes peer ours transaction_id source source' :
  mirrored peer ours -> fragments_short peer -> zlen transaction_id = 12 -> sockaddr_ok source ->
  (exists request response,
    build_stun_binding_request peer transaction_id = Ok request
    /\ handle_stun_datagram request source ours = Ok (Handled (Some response))
    /\ handle_stun_datagram response source' peer = Ok (Handled None)
    /\ exists offset value, find_stun_attribute response STUN_ATTR_XOR_MAPPED_ADDRESS = Ok (Some (offset, value))
         /\ decode_mapped_address value transaction_id = Some source)
  /\ (forall password, 
       let message := stun_header STUN_BINDING_REQUEST (zlen (body (request_attributes peer)) + 24) transaction_id
         ++ body (request_attributes peer) in
       hmac_sha1 password message <> hmac_sha1 (local_password ours) message ->
       handle_stun_datagram (stun_packet STUN_BINDING_REQUEST transaction_id password (request_attributes peer)) source ours
       = Ok Invalid)
  /\ (forall datagram, exists r, handle_stun_datagram datagram source ours = Ok r).
Proof.
  intros (Hu1 & Hu2 & Hp1 & Hp2) Hshort Hid Hsrc.
  pose proof (request_message_ok peer transaction_id Hshort Hid) as Hreq.
  pose proof (mapped_message_ok source transaction_id Hid) as Hresp.
  assert (Hname : forall key, find_attribute (sealed STUN_BINDING_REQUEST transaction_id key (request_attributes peer))
    STUN_HEADER_LEN STUN_ATTR_USERNAME
    = Some (STUN_HEADER_LEN, username (local_username_fragment ours) (remote_username_fragment ours)))
    by (intros; cbn; by rewrite Hu1, Hu2).
  split; [|split].
  - eexists _, _. split; [unfold build_stun_binding_request; by apply build_spec|].
    split; [|split].
    + rewrite handle_framed by (auto; done). cbn [Z.eqb Pos.eqb STUN_BINDING_REQUEST]. fold (request_attributes peer).
      rewrite Hname, Hp1. rewrite !bool_decide_true by done. done.
    + rewrite handle_framed by (auto; done). cbn [Z.eqb Pos.eqb STUN_BINDING_REQUEST STUN_BINDING_SUCCESS_RESPONSE].
      rewrite <- Hp1. by rewrite bool_decide_true.
    + rewrite find_sealed by done. cbn [sealed signed app find_attribute fst snd].
      rewrite Z.eqb_refl. eexists _, _. split; [done|]. by apply decode_xor_mapped.
  - intros password message Hne. rewrite handle_framed by (auto; done). cbn [Z.eqb Pos.eqb STUN_BINDING_REQUEST].
    rewrite Hname. rewrite (bool_decide_false (hmac_sha1 _ _ = _)); [by rewrite andb_false_r|]. intros Heq. by apply Hne.
  - intros datagram. apply handle_total.
Qed.
End Exchange.

(** ** The trackers, over any session *)

Section Trackers.
Context `{Crypto}.

Definition ice_ok (s : IceResponseTracker.t) : Prop :=
  zlen s <= MAX_PENDING_STREAM_PINGS /\ NoDup (map fst s).

(** Whether the request with an identifier was answered. *)
Fixpoint status (s : IceResponseTracker.t) (id : list u8) : option bool :=
  match s with
  | [] => None
  | (id', completed) :: s => if bool_decide (id' = id) then Some completed else status s id
  end.

Lemma zlen_push_bounded {A} (q : list A) x :
  zlen q <= MAX_PENDING_STREAM_PINGS -> zlen (IceResponseTracker.push_bounded q x) <= MAX_PENDING_STREAM_PINGS.
Proof.
  unfold IceResponseTracker.push_bounded, MAX_PENDING_STREAM_PINGS. intros Hq. rewrite zlen_app, zlen_cons, zlen_nil.
  destruct (Z.eqb_spec (zlen q) 64); [|lia]. unfold zlen in *. rewrite length_drop. lia.
Qed.

Lemma complete_spec s id :
  match IceResponseTracker.complete s id with
  | None => status s id = None
  | Some (s', completed) => status s id = Some completed /\ map fst s' = map fst s
      /\ forall id', status s' id' = if bool_decide (id' = id) then Some true else status s id'
  end.
Proof.
  induction s as [|[id' c] s IH]; cbn [IceResponseTracker.complete status]; [done|].
  case_bool_decide as Hid.
  - subst id'. split; [done|]. split; [done|]. intros id'. cbn [status].
    case_bool_decide; [subst; by rewrite bool_decide_true|]. by rewrite bool_decide_false by congruence.
  - destruct (IceResponseTracker.complete s id) as [[s' c']|]; cbn; [|done].
    destruct IH as (Hst & Hm & Hall). split; [done|]. split; [by rewrite Hm|]. intros id''.
    rewrite Hall. repeat case_bool_decide; congruence.
Qed.

(** A framed, authenticated binding response to a transaction. *)
Definition replies (packet password id : list u8) : Prop :=
  looks_like_stun packet = Ok true
  /\ take 2 packet = to_be_bytes 2 STUN_BINDING_SUCCESS_RESPONSE
  /\ STUN_HEADER_LEN + be_field packet 2 2 = zlen packet
  /\ take 12 (drop 8 packet) = id
  /\ authentic_response packet password = Ok true.

Lemma ice_sent_spec s packet :
  ice_ok s -> exists s', IceResponseTracker.sent s packet = Ok s' /\ ice_ok s'.
Proof.
  intros [Hl Hnd]. unfold IceResponseTracker.sent. destruct (looks_like_stun_total packet) as (b & -> & Hb). obind.
  destruct b; cbn [negb]; [|by exists s]. specialize (Hb eq_refl). unfold STUN_HEADER_LEN in Hb.
  rewrite range_is_total by lia. obind. destruct (negb _); [by exists s|].
  rewrite slice_Ok by lia. obind. set (id := take _ _).
  destruct (existsb _ s) eqn:Ex; [by exists s|]. eexists. split; [reflexivity|]. split; [by apply zlen_push_bounded|].
  assert (Hnew : id ∉ map fst s).
  { intros ([id' c] & Heq & Hin)%list_elem_of_fmap. cbn in Heq. subst id'.
    assert (existsb (fun request => bool_decide (request.1 = id)) s = true) as Hx; [|congruence].
    apply existsb_exists. exists (id, c). split; [by apply list_elem_of_In|]. cbn. by rewrite bool_decide_true. }
  unfold IceResponseTracker.push_bounded. rewrite map_app. apply NoDup_app. split_and!.
  - destruct (_ =? _); [|done]. destruct s as [|x s]; [done|]. cbn in *. by inversion Hnd.
  - intros x Hx Hx'. cbn in Hx'. apply list_elem_of_singleton in Hx'. subst x. apply Hnew.
    destruct (_ =? _); [|done]. destruct s as [|y s]; [done|]. cbn in *. by right.
  - cbn. apply NoDup_singleton.
Qed.

Lemma ice_accept_spec s packet password :
  ice_ok s ->
  exists s' ok, IceResponseTracker.accept s packet password = Ok (s', ok) /\ ice_ok s'
    /\ (forall id completed, replies packet password id -> status s id = Some completed ->
        ok = negb completed /\ status s' id = Some true /\ forall id', id' <> id -> status s' id' = status s id')
    /\ ((forall id, replies packet password id -> status s id = None) -> ok = true /\ s' = s).
Proof.
  intros Hok. unfold IceResponseTracker.accept, replies.
  destruct (looks_like_stun_total packet) as (b & -> & Hb). obind.
  destruct b; cbn [negb]; [|exists s, true; split_and!; [done|done|by intros ? ? (? & _)|done]].
  specialize (Hb eq_refl). unfold STUN_HEADER_LEN in *.
  rewrite range_is_total by lia. obind. change (take (Z.to_nat (2 - 0)) (drop (Z.to_nat 0) packet)) with (take 2 packet).
  case_bool_decide as Htype; cbn [negb]; [|exists s, true; split_and!; [done|done|by intros ? ? (_ & ? & _)|done]].
  do 2 step_idx.
  assert (Hf : from_be_bytes [x0; x] = be_field packet 2 2).
  { unfold zlen in Hb. destruct packet as [|b0 [|b1 [|b2 [|b3 p]]]]; try (cbn in Hb; lia).
    assert (Hb3 : Some b3 = Some x) by exact Hx. assert (Hb2 : Some b2 = Some x0) by exact Hx0.
    injection Hb3 as <-. injection Hb2 as <-. done. }
  rewrite Hf. destruct (Z.eqb_spec (20 + be_field packet 2 2) (zlen packet)) as [Hlen|Hlen]; cbn [negb];
    [|exists s, true; split_and!; [done|done|by intros ? ? (_ & _ & ? & _)|done]].
  rewrite slice_Ok by lia. obind. change (take (Z.to_nat (20 - 8)) (drop (Z.to_nat 8) packet)) with (take 12 (drop 8 packet)).
  pose proof (complete_spec s (take 12 (drop 8 packet))) as Hc.
  destruct (IceResponseTracker.complete _ _) as [[s' completed]|].
  2: { exists s, true. split_and!; [done|done| |done]. intros id c (_ & _ & _ & <- & _) Hst. congruence. }
  destruct (authentic_total packet password) as [a Ha]. rewrite Ha. obind. destruct Hc as (Hst & Hm & Hall).
  destruct a; cbn [negb].
  - exists s', (negb completed). split_and!; [done| | |].
    + destruct Hok as [Hl Hnd]. split; [|by rewrite Hm]. unfold zlen in *. rewrite <- (length_map fst s'), Hm, length_map. done.
    + intros id c (_ & _ & _ & <- & _) Hs. split; [congruence|]. rewrite Hall, bool_decide_true by done.
      split; [done|]. intros id' Hne. by rewrite Hall, bool_decide_false.
    + intros Hnone. rewrite (Hnone (take 12 (drop 8 packet))) in Hst by done. done.
  - exists s, true. split_and!; [done|done| |done]. intros id c (_ & _ & _ & _ & Hf'). congruence.
Qed.
End Trackers.

Section Sessions.
Context `{Crypto}.

Inductive ice_event := IceSent (packet : list u8) | IceReceived (packet : list u8).

Fixpoint ice_run (s : IceResponseTracker.t) (password : list u8) (es : list ice_event)
    : outcome Empty_set IceResponseTracker.t :=
  match es with
  | [] => mret s
  | IceSent packet :: es => s ← IceResponseTracker.sent s packet; ice_run s password es
  | IceReceived packet :: es => '(s, _) ← IceResponseTracker.accept s packet password; ice_run s password es
  end.

Lemma ice_run_ok s password es : ice_ok s -> exists s', ice_run s password es = Ok s' /\ ice_ok s'.
Proof.
  revert s. induction es as [|[packet|packet] es IH]; intros s Hs; cbn [ice_run]; [by exists s|..].
  - destruct (ice_sent_spec s packet Hs) as (s' & -> & Hs'). obind. by apply IH.
  - destruct (ice_accept_spec s packet password Hs) as (s' & ok & -> & Hs' & _). obind. by apply IH.
Qed.

(** ** Hole-punching pings *)

Inductive ping_event := PingSent (id : list u8) (now : Z) | PingReceived (packet : list u8) (now : Z).

(** The reports of a session: the transaction and its round trip. *)
Fixpoint ping_run (s : StreamPingTracker.t) (credentials : NvstStunCredentials) (es : list ping_event)
    : outcome Empty_set (StreamPingTracker.t * list (list u8 * Z)) :=
  match es with
  | [] => mret (s, [])
  | PingSent id now :: es => ping_run (StreamPingTracker.sent s id now) credentials es
  | PingReceived packet now :: es =>
      '(s, elapsed) ← StreamPingTracker.receive s packet credentials now;
      '(s, reports) ← ping_run s credentials es;
      mret (s, match elapsed with
               | Some elapsed => (take 12 (drop 8 packet), elapsed) :: reports
               | None => reports
               end)
  end.

(** How often an identifier occurs. *)
Definition occurrences {A} (id : list u8) (l : list (list u8 * A)) : nat :=
  length (List.filter (fun x => bool_decide (x.1 = id)) l).
Fixpoint pings_sent (id : list u8) (es : list ping_event) : nat :=
  match es with
  | [] => 0
  | PingSent id' _ :: es => ((if bool_decide (id' = id) then 1 else 0) + pings_sent id es)%nat
  | _ :: es => pings_sent id es
  end.

Lemma occurrences_cons {A} id x (l : list (list u8 * A)) :
  occurrences id (x :: l) = ((if bool_decide (x.1 = id) then 1 else 0) + occurrences id l)%nat.
Proof. unfold occurrences. cbn [List.filter]. by case_bool_decide. Qed.
Lemma occurrences_app {A} id (l k : list (list u8 * A)) :
  occurrences id (l ++ k) = (occurrences id l + occurrences id k)%nat.
Proof. unfold occurrences. by rewrite List.filter_app, length_app. Qed.
Lemma occurrences_filter {A} id f (l : list (list u8 * A)) :
  (occurrences id (List.filter f l) <= occurrences id l)%nat.
Proof.
  induction l as [|x l IH]; [done|]. cbn [List.filter]. destruct (f x); rewrite ?occurrences_cons; lia.
Qed.
Lemma occurrences_drop {A} id n (l : list (list u8 * A)) : (occurrences id (drop n l) <= occurrences id l)%nat.
Proof. rewrite <- (take_drop n l) at 2. rewrite occurrences_app. lia. Qed.

Lemma ping_sent_spec s id now id' :
  zlen s <= MAX_PENDING_STREAM_PINGS ->
  zlen (StreamPingTracker.sent s id now) <= MAX_PENDING_STREAM_PINGS
  /\ (occurrences id' (StreamPingTracker.sent s id now)
      <= (if bool_decide (id = id') then 1 else 0) + occurrences id' s)%nat.
Proof.
  intros Hl. unfold StreamPingTracker.sent. set (pending := List.filter _ s).
  assert (Hp : zlen pending <= MAX_PENDING_STREAM_PINGS).
  { unfold pending, zlen in *. pose proof (List.filter_length_le
      (fun ping : list u8 * Z => saturating_duration_since now ping.2 <? STREAM_PING_TIMEOUT) s). lia. }
  split; [by apply zlen_push_bounded|]. unfold IceResponseTracker.push_bounded.
  rewrite occurrences_app, occurrences_cons. cbn [fst]. change (occurrences id' []) with 0%nat.
  pose proof (occurrences_filter id' (fun ping : list u8 * Z => saturating_duration_since now ping.2 <? STREAM_PING_TIMEOUT) s).
  fold pending in H0. destruct (_ =? _); [pose proof (occurrences_drop id' 1 pending)|]; lia.
Qed.

Lemma ping_receive_spec s packet credentials now :
  exists s' elapsed, StreamPingTracker.receive s packet credentials now = Ok (s', elapsed)
    /\ (zlen s' <= zlen s)
    /\ match elapsed with
       | None => forall id, (occurrences id s' <= occurrences id s)%nat
       | Some elapsed =>
           authentic_response packet (remote_password credentials) = Ok true
           /\ 0 <= elapsed < STREAM_PING_TIMEOUT
           /\ (take 12 (drop 8 packet), now - elapsed) ∈ s
           /\ forall id, ((if bool_decide (take 12 (drop 8 packet) = id) then 1 else 0) + occurrences id s' <= occurrences id s)%nat
       end.
Proof.
  unfold StreamPingTracker.receive.
  destruct (zget_range packet 0 2) as [mt|]; [|by exists s, None].
  destruct (zget_range packet 8 20) as [id|] eqn:Eid; [|by exists s, None].
  apply zget_range_inv in Eid as (_ & _ & Eid).
  assert (Hid : id = take 12 (drop 8 packet)) by done. clear Eid.
  destruct (negb _); [by exists s, None|]. unfold StreamPingTracker.position.
  destruct (list_find _ s) as [[index [id' at_]]|] eqn:Ef; cbn [fmap option_fmap option_map fst]; [|by exists s, None].
  apply list_find_Some in Ef as (Hlook & Heq & _). cbn in Heq. subst id'.
  destruct (authentic_total packet (remote_password credentials)) as [b Hb]. rewrite Hb. obind.
  destruct b; cbn [negb]; [|by exists s, None]. unfold StreamPingTracker.t in *. rewrite Hlook.
  assert (Hs : exists pre post, s = pre ++ (id, at_) :: post /\ delete index s = pre ++ post).
  { exists (take index s), (drop (S index) s). split; [by rewrite take_drop_middle|apply delete_take_drop]. }
  destruct Hs as (pre & post & Es & Ed). rewrite Ed.
  assert (Hocc : forall id', ((if bool_decide (id = id') then 1 else 0) + occurrences id' (pre ++ post) <= occurrences id' s)%nat).
  { intros id'. rewrite Es, !occurrences_app, occurrences_cons. cbn [fst]. lia. }
  assert (Hlen : zlen (pre ++ post) <= zlen s) by (rewrite Es; autorewrite with zlens; lia).
  unfold checked_duration_since. destruct (Z.leb_spec at_ now).
  2: { exists (pre ++ post), None. split_and!; [done|done|]. intros id'. specialize (Hocc id'). lia. }
  destruct (Z.ltb_spec (now - at_) STREAM_PING_TIMEOUT).
  2: { exists (pre ++ post), None. split_and!; [done|done|]. intros id'. specialize (Hocc id'). lia. }
  exists (pre ++ post), (Some (now - at_)). split_and!; [done|done|done|lia|lia| |].
  - rewrite <- Hid. replace (now - (now - at_)) with at_ by lia. rewrite Es. set_solver.
  - by rewrite <- Hid.
Qed.

Lemma ping_run_spec s credentials es :
  zlen s <= MAX_PENDING_STREAM_PINGS ->
  exists s' reports, ping_run s credentials es = Ok (s', reports)
    /\ zlen s' <= MAX_PENDING_STREAM_PINGS
    /\ Forall (fun report => 0 <= report.2 < STREAM_PING_TIMEOUT) reports
    /\ forall id, (occurrences id reports <= occurrences id s + pings_sent id es)%nat.
Proof.
  revert s. induction es as [|[id now|packet now] es IH]; intros s Hl; cbn [ping_run pings_sent].
  - exists s, []. split_and!; [done|done|constructor|]. intros. cbn. lia.
  - destruct (IH (StreamPingTracker.sent s id now)) as (s' & reports & -> & Hl' & Hr & Hall);
      [by apply (ping_sent_spec s id now [])|].
    exists s', reports. split_and!; [done|done|done|]. intros id'. specialize (Hall id').
    destruct (ping_sent_spec s id now id' Hl) as [_ Ho]. lia.
  - destruct (ping_receive_spec s packet credentials now) as (s1 & elapsed & -> & Hl1 & He). obind.
    destruct (IH s1) as (s' & reports & -> & Hl' & Hr & Hall); [lia|]. obind.
    eexists _, _. split; [reflexivity|]. split; [done|]. destruct elapsed as [elapsed|].
    + destruct He as (_ & Hrange & _ & Ho). split; [by constructor|]. intros id.
      specialize (Hall id). specialize (Ho id). rewrite occurrences_cons. cbn [fst]. lia.
    + split; [done|]. intros id. specialize (Hall id). specialize (He id). lia.
Qed.

(** No response counts twice.  Over any traffic, hostile packets included,
    the two trackers never panic and hold at most 64 transactions; from any
    state the ICE tracker reaches, an authentic response to a pending request
    is handed on the first time and, repeated in any form, never again, while
    packets that answer nothing pending leave it unchanged; and the ping
    tracker reports, for each transaction, at most as many round trips as
    pings were sent, each below the five-second limit. *)
Theorem stun_replies_count_once password credentials ice_events ping_events :
  (exists s, ice_run [] password ice_events = Ok s /\ zlen s <= MAX_PENDING_STREAM_PINGS
    /\ forall packet id, replies packet password id -> is_Some (status s id) ->
       exists s', IceResponseTracker.accept s packet password = Ok (s', bool_decide (status s id = Some false))
         /\ (forall other, other <> id -> status s' other = status s other)
         /\ forall again, replies again password id ->
              exists s'', IceResponseTracker.accept s' again password = Ok (s'', false))
  /\ (exists s reports, ping_run [] credentials ping_events = Ok (s, reports)
    /\ zlen s <= MAX_PENDING_STREAM_PINGS
    /\ Forall (fun report => 0 <= report.2 < STREAM_PING_TIMEOUT) reports
    /\ forall id, (occurrences id reports <= pings_sent id ping_events)%nat).
Proof.
  split.
  - destruct (ice_run_ok [] password ice_events) as (s & Hrun & Hs); [split; [done|constructor]|].
    exists s. split; [done|]. split; [apply Hs|]. intros packet id Hrep [completed Hst].
    destruct (ice_accept_spec s packet password Hs) as (s' & ok & Ha & Hs' & Hknown & _).
    destruct (Hknown id completed Hrep Hst) as (-> & Hst' & Hother).
    exists s'. split; [|split; [done|]].
    + rewrite Ha, Hst. by destruct completed.
    + intros again Hrep'. destruct (ice_accept_spec s' again password Hs') as (s'' & ok & Ha' & _ & Hk & _).
      destruct (Hk id true Hrep' Hst') as (-> & _). by exists s''.
  - destruct (ping_run_spec [] credentials ping_events) as (s & reports & Hrun & Hl & Hr & Hall); [done|].
    exists s, reports. split_and!; [done|done|done|]. intros id. specialize (Hall id). cbn in Hall. done.
Qed.
End Sessions.

Definition toy_credentials (a b : Z) : NvstStunCredentials := {|
  local_username_fragment := [z2b a]; local_password := [z2b (a + 1)];
  remote_username_fragment := [z2b b]; remote_password := [z2b (b + 1)] |}.
Definition toy_source : SocketAddr := {| sa_ip := V4 (map z2b [192; 0; 2; 1]); sa_port := 4711 |}.

Lemma stun_exchange_completes_witness :
  (exists request response,
    build_stun_binding_request (toy_credentials 7 9) (zeroes 12) = Ok request
    /\ handle_stun_datagram request toy_source (toy_credentials 9 7) = Ok (Handled (Some response))
    /\ handle_stun_datagram response toy_source (toy_credentials 7 9) = Ok (Handled None))
  /\ exists r, handle_stun_datagram (replicate 30 Byte.x21) toy_source (toy_credentials 9 7) = Ok r.
Proof.
  assert (Hx := stun_exchange_completes (toy_credentials 7 9) (toy_credentials 9 7) (zeroes 12) toy_source toy_source).
  destruct Hx as ((request & response & H1 & H2 & H3 & _) & _ & Hall).
  - done.
  - vm_compute. discriminate.
  - reflexivity.
  - split; [vm_compute; split; congruence|reflexivity].
  - split; [by exists request, response|]. apply Hall.
Defined.
