(* ===== verification/F64.v ===== *)
(** * Rust's [f64]

    IEEE 754 binary64 as the Standard Library specifies it ([SpecFloat], with
    53 bits of precision and exponents up to 1024): every operation rounds to
    nearest even, and the casts to integers truncate and saturate. *)

From stdpp Require Import list sorting.
From Stdlib Require Import Floats.SpecFloat.
From S2P Require Import Prelude.

Abbreviation f64 := spec_float.

Module F64.
Definition prec : Z := 53.
Definition emax : Z := 1024.

(** [z as f64] *)
Definition of_Z (z : Z) : f64 := binary_normalize prec emax z 0 false.
Definition add : f64 -> f64 -> f64 := SFadd prec emax.
Definition sub : f64 -> f64 -> f64 := SFsub prec emax.
Definition mul : f64 -> f64 -> f64 := SFmul prec emax.
Definition div : f64 -> f64 -> f64 := SFdiv prec emax.
Definition abs : f64 -> f64 := SFabs.
Definition lt : f64 -> f64 -> bool := SFltb.
Definition le : f64 -> f64 -> bool := SFleb.

Definition is_nan (x : f64) : bool := match x with S754_nan => true | _ => false end.

(** [f64::min] and [f64::max]: the other argument when one is not a number. *)
Definition min (a b : f64) : f64 := if is_nan a then b else if is_nan b then a else if lt b a then b else a.
Definition max (a b : f64) : f64 := if is_nan a then b else if is_nan b then a else if lt a b then b else a.
(** [f64::clamp] with bounds that are numbers in order. *)
Definition clamp (lo hi x : f64) : f64 :=
  let x := if lt x lo then lo else x in if lt hi x then hi else x.

(** [x as] an integer type of the range [lo..=hi]. *)
Definition to_int (lo hi : Z) (x : f64) : Z :=
  match x with
  | S754_nan => 0
  | S754_zero _ => 0
  | S754_infinity s => if s then lo else hi
  | S754_finite s m e => Prelude.clamp lo hi (cond_Zopp s (Z.shiftl (Zpos m) e))
  end.
Definition to_u8 : f64 -> Z := to_int 0 255.
Definition to_u16 : f64 -> Z := to_int 0 U16_MAX.
Definition to_u32 : f64 -> Z := to_int 0 U32_MAX.
Definition to_u64 : f64 -> Z := to_int 0 U64_MAX.
Definition to_i64 : f64 -> Z := to_int (- 2 ^ 63) (2 ^ 63 - 1).

(** [Duration::as_secs_f64] of a number of nanoseconds. *)
Definition as_secs_f64 (nanos : Z) : f64 :=
  add (of_Z (nanos / 1000000000)) (div (of_Z (nanos mod 1000000000)) (of_Z 1000000000)).

(** The bit pattern without its sign: the order of the magnitudes. *)
Definition magnitude_bits (x : f64) : Z :=
  match x with
  | S754_zero _ => 0
  | S754_finite _ m e => (e + 1074) * 2 ^ 52 + Zpos m
  | S754_infinity _ => 2047 * 2 ^ 52
  | S754_nan => 2047 * 2 ^ 52 + 2 ^ 51
  end.
Definition is_negative (x : f64) : bool :=
  match x with S754_zero s | S754_infinity s | S754_finite s _ _ => s | S754_nan => false end.
(** [f64::to_bits] *)
Definition to_bits (x : f64) : Z := (if is_negative x then 2 ^ 63 else 0) + magnitude_bits x.
(** [f64::total_cmp]: the order of these keys. *)
Definition total_key (x : f64) : Z := if is_negative x then - magnitude_bits x - 1 else magnitude_bits x.

(** [slice::sort_by(f64::total_cmp)]: values with equal keys are equal, so any
    sorting algorithm gives the same list. *)
Fixpoint insert_sorted (x : f64) (l : list f64) : list f64 :=
  match l with
  | [] => [x]
  | y :: l => if total_key x <=? total_key y then x :: y :: l else y :: insert_sorted x l
  end.
Definition sort (l : list f64) : list f64 := foldr insert_sorted [] l.

Definition zero : f64 := of_Z 0.
Definition one : f64 := of_Z 1.
(** The literals of the code, all exactly representable. *)
Definition half : f64 := div (of_Z 1) (of_Z 2).
Definition thousand : f64 := of_Z 1000.
End F64.

Lemma to_int_range lo hi x : lo <= 0 <= hi -> lo <= F64.to_int lo hi x <= hi.
Proof.
  intros H. unfold F64.to_int. destruct x as [s|s| |s m e]; try (destruct s; lia); try lia.
  apply clamp_range. lia.
Qed.
Lemma to_u8_range x : is_u8 (F64.to_u8 x).
Proof. pose proof (to_int_range 0 255 x ltac:(lia)). unfold is_u8, F64.to_u8. lia. Qed.
Lemma to_u16_range x : is_u16 (F64.to_u16 x).
Proof. pose proof (to_int_range 0 U16_MAX x ltac:(unfold U16_MAX; lia)). unfold is_u16, F64.to_u16, U16_MAX in *. lia. Qed.
Lemma to_u32_range x : is_u32 (F64.to_u32 x).
Proof. pose proof (to_int_range 0 U32_MAX x ltac:(unfold U32_MAX; lia)). unfold is_u32, F64.to_u32, U32_MAX in *. lia. Qed.
Lemma to_u64_range x : is_u64 (F64.to_u64 x).
Proof. pose proof (to_int_range 0 U64_MAX x ltac:(unfold U64_MAX; lia)). unfold is_u64, F64.to_u64, U64_MAX in *. lia. Qed.
#[export] Hint Resolve to_u8_range to_u16_range to_u32_range to_u64_range : nvst.

Lemma elem_of_insert_sorted x y l : y ∈ F64.insert_sorted x l <-> y = x \/ y ∈ l.
Proof.
  induction l as [|z l IH]; cbn [F64.insert_sorted]; [set_solver|].
  destruct (_ <=? _); set_solver.
Qed.
Lemma elem_of_sort y l : y ∈ F64.sort l <-> y ∈ l.
Proof.
  induction l as [|x l IH]; [done|]. cbn [F64.sort foldr]. fold (F64.sort l).
  rewrite elem_of_insert_sorted. set_solver.
Qed.
Lemma length_insert_sorted x l : length (F64.insert_sorted x l) = S (length l).
Proof. induction l as [|y l IH]; [done|]. cbn [F64.insert_sorted]. destruct (_ <=? _); cbn; auto. Qed.
Lemma length_sort l : length (F64.sort l) = length l.
Proof. induction l as [|x l IH]; [done|]. change (F64.sort (x :: l)) with (F64.insert_sorted x (F64.sort l)). by rewrite length_insert_sorted, IH. Qed.

Definition key_sorted (l : list f64) : Prop := Sorted (fun a b => F64.total_key a <= F64.total_key b) l.
Lemma insert_sorted_sorted x l : key_sorted l -> key_sorted (F64.insert_sorted x l).
Proof.
  unfold key_sorted. induction 1 as [|y l Hs IH Hd]; cbn [F64.insert_sorted]; [by constructor|].
  destruct (Z.leb_spec (F64.total_key x) (F64.total_key y)).
  - repeat constructor; done.
  - constructor; [done|]. destruct l as [|z l]; cbn [F64.insert_sorted]; [constructor; lia|].
    inversion Hd; subst. destruct (_ <=? _); constructor; lia.
Qed.
Lemma sort_sorted l : key_sorted (F64.sort l).
Proof. induction l as [|x l IH]; [constructor|]. cbn [F64.sort foldr]. by apply insert_sorted_sorted. Qed.

(** Anchors: the model against known bit patterns. *)
Example f64_one_bits : F64.to_bits F64.one = 0x3ff0000000000000.
Proof. reflexivity. Qed.
Example f64_tenth_bits : F64.to_bits (F64.div F64.one (F64.of_Z 10)) = 0x3fb999999999999a.
Proof. vm_compute. reflexivity. Qed.
Example f64_secs_bits : F64.to_bits (F64.as_secs_f64 1500000000) = 0x3ff8000000000000.
Proof. vm_compute. reflexivity. Qed.
