(* ===== verification/Bandwidth.v ===== *)
(** * The bandwidth estimator

    [BandwidthEstimator] of [nvst_bandwidth.rs]: transit times, jitter and the
    throughput of whole frames, in Rust's [f64], as the QoS report wants them. *)

From stdpp Require Import list.
From Stdlib Require Import Floats.SpecFloat.
From S2P Require Import Prelude Control F64.

Definition TRANSIT_SAMPLES : Z := 16.

Record PacketBandwidthSample := {
  sample_frame_number : Z;
  sample_sequence : Z;
  sample_timestamp : Z;
  sample_bytes : Z;
  sample_started : bool;
  sample_ended : bool;
  sample_received_at : Z
}.

Module FrameSample.
Record t := {
  number : Z;
  first_at : Z;
  last_at : Z;
  first_timestamp : Z;
  last_timestamp : Z;
  last_sequence : Z;
  bytes : Z;
  sender_gap_ms : f64;
  started : bool;
  ended : bool;
  contiguous : bool
}.
End FrameSample.

Definition smooth (previous : option f64) (value : f64) : f64 :=
  match previous with
  | None => value
  | Some previous => F64.add (F64.mul previous (F64.div (F64.of_Z 7) (F64.of_Z 8)))
                             (F64.mul value (F64.div (F64.of_Z 1) (F64.of_Z 8)))
  end.

Module BandwidthEstimator.
Import FrameSample.

Record t := {
  first_arrival : option Z;
  last_timestamp : option (Z * Z);
  minimum_transit_ms : option f64;
  previous_transit_ms : option f64;
  jitter_ms : f64;
  transits : list f64;
  transit_count : Z;
  transit_next : Z;
  latest_transit_ms : f64;
  active_frame : option FrameSample.t;
  frames_observed : Z;
  lossy_frames : Z;
  average_frame_ms : option f64;
  average_receive_kbps : option f64;
  average_utilization_percent : option f64
}.

Definition default : t := {|
  first_arrival := None; last_timestamp := None; minimum_transit_ms := None; previous_transit_ms := None;
  jitter_ms := F64.zero; transits := replicate (Z.to_nat TRANSIT_SAMPLES) F64.zero;
  transit_count := 0; transit_next := 0; latest_transit_ms := F64.zero; active_frame := None;
  frames_observed := 0; lossy_frames := 0; average_frame_ms := None; average_receive_kbps := None;
  average_utilization_percent := None |}.

(** [now.saturating_duration_since(then).as_secs_f64() * 1_000.0] *)
Definition elapsed_ms (now earlier : Z) : f64 :=
  F64.mul (F64.as_secs_f64 (saturating_duration_since now earlier)) F64.thousand.
(** [ticks as f64 / 90.0] *)
Definition ticks_ms (ticks : Z) : f64 := F64.div (F64.of_Z ticks) (F64.of_Z 90).

Definition observe_parity (self : t) (frame_number sequence : Z) : t :=
  match active_frame self with
  | Some frame =>
      if (number frame =? frame_number) && (last_sequence frame <? sequence) then
        let frame := if sequence =? last_sequence frame + 1 then frame else frame <| contiguous := false |> in
        self <| active_frame := Some (frame <| last_sequence := sequence |>) |>
      else self
  | None => self
  end.

(** The extended timestamp; [None] is the early return on a late packet. *)
Definition extend_timestamp (self : t) (timestamp : Z) : option Z :=
  match last_timestamp self with
  | Some (last, extended) =>
      let delta := as_i32 (timestamp - last) in
      if delta <? 0 then None else Some (as_u64 (extended + delta))
  | None => Some timestamp
  end.

(** The transit statistics of one packet. *)
Definition record_transit (self : t) (at_ first timestamp extended : Z) : outcome Empty_set t :=
  let self := self <| last_timestamp := Some (timestamp, extended) |> in
  let transit_ms := F64.sub (elapsed_ms at_ first) (ticks_ms extended) in
  let minimum := match minimum_transit_ms self with Some minimum => minimum | None => transit_ms end in
  let self := self <| minimum_transit_ms := Some (F64.min minimum transit_ms) |> in
  let self := self <| latest_transit_ms := transit_ms |> in
  let self := match previous_transit_ms self with
    | Some previous => self <| jitter_ms := F64.add (jitter_ms self)
        (F64.div (F64.sub (F64.abs (F64.sub transit_ms previous)) (jitter_ms self)) (F64.of_Z 16)) |>
    | None => self
    end in
  let self := self <| previous_transit_ms := Some transit_ms |> in
  transits ← set_idx (transits self) (transit_next self) transit_ms;
  let self := self <| BandwidthEstimator.transits := transits |> in
  let self := self <| transit_next := (transit_next self + 1) mod TRANSIT_SAMPLES |> in
  mret (self <| transit_count := Z.min (transit_count self + 1) TRANSIT_SAMPLES |>).

(** A later packet of the frame that is being received. *)
Definition continue_frame (frame : FrameSample.t) (sequence extended bytes at_ : Z) (ended : bool) : FrameSample.t :=
  if sequence <=? last_sequence frame then frame <| contiguous := false |> else
  let frame := if sequence =? last_sequence frame + 1 then frame else frame <| contiguous := false |> in
  let sender_gap_ms := ticks_ms (saturating_sub extended (FrameSample.last_timestamp frame)) in
  let receive_gap_ms := elapsed_ms at_ (last_at frame) in
  let frame := if F64.le F64.one sender_gap_ms
    then frame <| FrameSample.sender_gap_ms := F64.add (FrameSample.sender_gap_ms frame)
                                                       (F64.min sender_gap_ms receive_gap_ms) |>
    else frame in
  let frame := frame <| last_at := at_ |> in
  let frame := frame <| FrameSample.last_timestamp := extended |> in
  let frame := frame <| last_sequence := sequence |> in
  let frame := frame <| FrameSample.bytes := saturating_add64 (FrameSample.bytes frame) bytes |> in
  frame <| FrameSample.ended := FrameSample.ended frame || ended |>.

(** [u32::saturating_add] *)
Definition saturating_add32 (a b : Z) : Z := Z.min U32_MAX (a + b).

(** A frame before the newest one is complete: the averages it moves. *)
Definition measure_frame (self : t) (previous : FrameSample.t) (extended : Z) : t :=
  let frame_ms := ticks_ms (saturating_sub extended (first_timestamp previous)) in
  let received_ms := F64.max (F64.sub (elapsed_ms (last_at previous) (first_at previous))
                                      (FrameSample.sender_gap_ms previous)) F64.half in
  if F64.lt F64.zero frame_ms && F64.lt frame_ms F64.thousand then
    let average_frame := smooth (average_frame_ms self) frame_ms in
    let self := self <| average_frame_ms := Some average_frame |> in
    let self := self <| average_receive_kbps := Some (smooth (average_receive_kbps self)
      (F64.div (F64.mul (F64.of_Z (FrameSample.bytes previous)) (F64.of_Z 8)) received_ms)) |> in
    let self := self <| average_utilization_percent := Some (smooth (average_utilization_percent self)
      (F64.min (F64.div (F64.mul (F64.of_Z 100) received_ms) average_frame) (F64.of_Z 100))) |> in
    let self := self <| frames_observed := saturating_add32 (frames_observed self) 1 |> in
    if frames_observed self mod 60 =? 0
    then self <| minimum_transit_ms := (fun minimum => F64.add minimum F64.half) <$> minimum_transit_ms self |>
    else self
  else self.

Definition observe (self : t) (sample : PacketBandwidthSample) : outcome Empty_set t :=
  let '{| sample_frame_number := frame_number; sample_sequence := sequence; sample_timestamp := timestamp;
          sample_bytes := bytes; sample_started := started; sample_ended := ended;
          sample_received_at := at_ |} := sample in
  let first := match first_arrival self with Some first => first | None => at_ end in
  let self := self <| first_arrival := Some first |> in
  match extend_timestamp self timestamp with
  | None => mret self
  | Some extended =>
      self ← record_transit self at_ first timestamp extended;
      let fresh := {| number := frame_number; first_at := at_; last_at := at_; first_timestamp := extended;
        FrameSample.last_timestamp := extended; last_sequence := sequence; FrameSample.bytes := bytes;
        FrameSample.sender_gap_ms := F64.zero; FrameSample.started := started; FrameSample.ended := ended;
        contiguous := true |} in
      match active_frame self with
      | None => mret (self <| active_frame := Some fresh |>)
      | Some previous =>
          if number previous =? frame_number
          then mret (self <| active_frame := Some (continue_frame previous sequence extended bytes at_ ended) |>)
          else
            let distance := as_u32 (frame_number - number previous) in
            if (distance =? 0) || (0x80000000 <=? distance) then mret self else
            let self := self <| lossy_frames := saturating_add32 (lossy_frames self) (saturating_sub distance 1) |> in
            let self := if FrameSample.started previous && FrameSample.ended previous && contiguous previous
              then measure_frame self previous extended
              else self <| lossy_frames := saturating_add32 (lossy_frames self) 1 |> in
            mret (self <| active_frame := Some fresh |>)
      end
  end.

(** [((now_ms - transit).max(0.0) * 90.0) as u64 & 0x7fff_ffff] *)
Definition server_time (now_ms transit : f64) : Z :=
  as_u32 (Z.land (F64.to_u64 (F64.mul (F64.max (F64.sub now_ms transit) F64.zero) (F64.of_Z 90))) 0x7fffffff).

Definition report_default : BandwidthFeedback := {|
  minimum_server_time := 0; median_server_time := 0; queue_delay_us := 0; jitter_us := 0;
  utilization_percent := 0; estimate_kbps := 0; Control.lossy_frames := 0 |}.

Definition report (self : t) (at_ : Z) : outcome Empty_set BandwidthFeedback :=
  match first_arrival self, minimum_transit_ms self with
  | Some first, Some minimum =>
      front ← slice (transits self) 0 (transit_count self);
      back ← slice (transits self) (transit_count self) (zlen (transits self));
      let samples := F64.sort front ++ back in
      median_index ← expect (checked_sub (transit_count self) 1);
      median ← samples.[median_index / 2];
      let now_ms := elapsed_ms at_ first in
      mret {|
        minimum_server_time := server_time now_ms minimum;
        median_server_time := server_time now_ms median;
        queue_delay_us := F64.to_u32 (F64.mul (F64.max (F64.sub (latest_transit_ms self) minimum) F64.zero) F64.thousand);
        jitter_us := F64.to_u16 (F64.min (F64.mul (jitter_ms self) F64.thousand) (F64.of_Z U16_MAX));
        utilization_percent := if 100 <=? frames_observed self
          then F64.to_u8 (match average_utilization_percent self with Some x => x | None => F64.zero end) else 0;
        estimate_kbps := if 100 <=? frames_observed self
          then F64.to_u32 (match average_receive_kbps self with Some x => x | None => F64.zero end) else 0;
        Control.lossy_frames := lossy_frames self
      |}
  | _, _ => mret report_default
  end.
End BandwidthEstimator.

(** ** Invariant *)

Import BandwidthEstimator.

Record estimator_ok (s : t) : Prop := {
  eo_transits : zlen (transits s) = TRANSIT_SAMPLES;
  eo_count : 0 <= transit_count s <= TRANSIT_SAMPLES;
  eo_next : 0 <= transit_next s < TRANSIT_SAMPLES;
  eo_minimum : is_Some (minimum_transit_ms s) -> 1 <= transit_count s;
  eo_frames : is_u32 (frames_observed s);
  eo_lossy : is_u32 (BandwidthEstimator.lossy_frames s);
  (** the slots that are not filled yet come after the filled ones *)
  eo_fill : transit_count s < TRANSIT_SAMPLES -> transit_next s = transit_count s;
  eo_seen : is_Some (active_frame s) -> is_Some (first_arrival s) /\ is_Some (minimum_transit_ms s)
}.

(** The fields of a report fit the record it is sent in. *)
Record feedback_typed (b : BandwidthFeedback) : Prop := {
  ft_minimum : 0 <= minimum_server_time b < 2 ^ 31;
  ft_median : 0 <= median_server_time b < 2 ^ 31;
  ft_queue : is_u32 (queue_delay_us b);
  ft_jitter : is_u16 (jitter_us b);
  ft_utilization : is_u8 (utilization_percent b);
  ft_estimate : is_u32 (estimate_kbps b);
  ft_lossy : is_u32 (Control.lossy_frames b)
}.

Lemma default_ok : estimator_ok default.
Proof. constructor; vm_compute; try (split; congruence); try congruence; by intros [? ?]. Qed.

Lemma saturating_add32_range a b : 0 <= a -> 0 <= b -> is_u32 (saturating_add32 a b).
Proof. unfold saturating_add32, is_u32, U32_MAX. lia. Qed.

(** Everything but the loss counter and the active frame: what [record_transit]
    changes and keeps. *)
Lemma record_transit_spec s at_ first timestamp extended :
  estimator_ok s ->
  exists s', record_transit s at_ first timestamp extended = Ok s' /\ estimator_ok s'
    /\ active_frame s' = active_frame s /\ BandwidthEstimator.lossy_frames s' = BandwidthEstimator.lossy_frames s
    /\ last_timestamp s' = Some (timestamp, extended) /\ 1 <= transit_count s'
    /\ first_arrival s' = first_arrival s /\ is_Some (minimum_transit_ms s').
Proof.
  intros [H1 H2 H3 H4 H5 H6 H7 H8]. unfold record_transit, TRANSIT_SAMPLES in *.
  set (transit_ms := F64.sub _ _). destruct (previous_transit_ms s) eqn:Ep.
  all: cbn [transits transit_next transit_count previous_transit_ms minimum_transit_ms latest_transit_ms jitter_ms
    last_timestamp const]; unfold const; cbn; rewrite Ep; cbn.
  all: rewrite set_idx_Ok by lia; obind; eexists; (split; [reflexivity|]); (split; [|split_and!; [done|done|done|cbn; lia|done|by eexists]]).
  all: constructor; cbn; rewrite ?zlen_insert; unfold TRANSIT_SAMPLES; try done; try lia.
  all: try (apply Z.mod_pos_bound; lia).
  all: try (intros Hc; rewrite Z.mod_small; lia).
  all: by intros (? & _)%H8; split; [|by eexists].
Qed.

Lemma measure_frame_spec s previous extended :
  estimator_ok s ->
  estimator_ok (measure_frame s previous extended)
  /\ active_frame (measure_frame s previous extended) = active_frame s
  /\ BandwidthEstimator.lossy_frames (measure_frame s previous extended) = BandwidthEstimator.lossy_frames s
  /\ last_timestamp (measure_frame s previous extended) = last_timestamp s.
Proof.
  intros [H1 H2 H3 H4 H5 H6 H7 H8]. unfold measure_frame.
  destruct (_ && _); [|by split_and!]. pose proof (saturating_add32_range (frames_observed s) 1) as Hf.
  unfold is_u32 in *. cbn [frames_observed]. unfold const. cbn.
  destruct (_ =? 0); (split; [|by split_and!]); constructor; cbn; unfold const; try done; try (apply Hf; lia).
  - intros [x Hx]. apply H4. destruct (minimum_transit_ms s); [by eexists|done].
  - intros (H & y & ->)%H8. split; [done|by eexists].
Qed.

Lemma observe_parity_spec s frame_number sequence :
  estimator_ok s ->
  estimator_ok (observe_parity s frame_number sequence)
  /\ BandwidthEstimator.lossy_frames (observe_parity s frame_number sequence) = BandwidthEstimator.lossy_frames s.
Proof.
  intros Hok. unfold observe_parity. destruct (active_frame s) eqn:Ha; [|done]. destruct (_ && _); [|done].
  destruct (_ =? _); (split; [|done]); destruct Hok as [H1 H2 H3 H4 H5 H6 H7 H8]; (constructor; try done); intros _; apply H8; rewrite Ha; by eexists.
Qed.

Lemma set_first_ok s first :
  estimator_ok s -> estimator_ok (s <| first_arrival := Some first |>).
Proof.
  intros [H1 H2 H3 H4 H5 H6 H7 H8]. constructor; try done. intros (_ & ?)%H8. split; [by eexists|done].
Qed.

Lemma set_active_ok s fr :
  estimator_ok s -> is_Some (first_arrival s) /\ is_Some (minimum_transit_ms s) ->
  estimator_ok (s <| active_frame := fr |>).
Proof. intros [] ?. by constructor. Qed.

Lemma lose_frames_ok s n :
  estimator_ok s -> 0 <= n ->
  estimator_ok (s <| BandwidthEstimator.lossy_frames := saturating_add32 (BandwidthEstimator.lossy_frames s) n |>).
Proof.
  intros [] Hn. constructor; try done. apply saturating_add32_range; [|done]. unfold is_u32 in *. lia.
Qed.

Lemma observe_ok s sample :
  estimator_ok s ->
  exists s', observe s sample = Ok s' /\ estimator_ok s'.
Proof.
  intros Hok. destruct sample as [f q ts b st en at_]. unfold observe.
  set (first := match first_arrival s with Some _ => _ | None => _ end).
  pose proof (set_first_ok s first Hok) as Hok1.
  destruct (extend_timestamp _ ts) as [extended|]; [|eexists; split; [reflexivity|done]].
  destruct (record_transit_spec _ at_ first ts extended Hok1) as (s1 & -> & Hok2 & _ & _ & _ & _ & Hfa & Hm). obind.
  assert (Hs1 : is_Some (first_arrival s1) /\ is_Some (minimum_transit_ms s1)) by (rewrite Hfa; split; [by eexists|done]).
  destruct (active_frame s1) as [previous|] eqn:Ha; [|eexists; split; [reflexivity|by apply set_active_ok]].
  destruct (_ =? f); [eexists; split; [reflexivity|by apply set_active_ok]|].
  destruct (_ || _); [eexists; split; [reflexivity|done]|].
  set (s2 := s1 <| BandwidthEstimator.lossy_frames := _ |>).
  assert (Hok3 : estimator_ok s2) by (apply lose_frames_ok; [done|apply saturating_sub_nonneg]).
  eexists. split; [reflexivity|]. destruct (_ && _ && _).
  - destruct (measure_frame_spec s2 previous extended Hok3) as (Hok4 & Ha4 & _).
    apply set_active_ok; [done|]. apply (eo_seen _ Hok4). rewrite Ha4. by exists previous.
  - apply set_active_ok; [apply lose_frames_ok; [done|lia]|done].
Qed.

(** ** Runs *)

Inductive bandwidth_event :=
  | Media (sample : PacketBandwidthSample)
  | Parity (frame_number sequence : Z).

Definition bandwidth_step (s : t) (e : bandwidth_event) : outcome Empty_set t :=
  match e with
  | Media sample => observe s sample
  | Parity frame_number sequence => mret (observe_parity s frame_number sequence)
  end.

Lemma bandwidth_run_ok es s :
  estimator_ok s -> exists s', ofold bandwidth_step es s = Ok s' /\ estimator_ok s'.
Proof.
  revert s. induction es as [|e es IH]; intros s Hs; cbn [ofold]; [by exists s|].
  destruct e as [sample|f q]; cbn [bandwidth_step].
  - destruct (observe_ok s sample Hs) as (s1 & -> & Hs1). obind. by apply IH.
  - unfold mret, outcome_ret. obind. apply IH. by apply observe_parity_spec.
Qed.

Lemma server_time_range now_ms transit : 0 <= server_time now_ms transit < 2 ^ 31.
Proof.
  unfold server_time, as_u32. change 0x7fffffff with (Z.ones 31). rewrite Z.land_ones by lia.
  pose proof (Z.mod_pos_bound (F64.to_u64 (F64.mul (F64.max (F64.sub now_ms transit) F64.zero) (F64.of_Z 90))) (2 ^ 31) ltac:(lia)).
  rewrite Z.mod_small; lia.
Qed.

Lemma report_ok s at_ :
  estimator_ok s ->
  exists b, report s at_ = Ok b /\ feedback_typed b
    /\ (is_Some (active_frame s) -> Control.lossy_frames b = BandwidthEstimator.lossy_frames s).
Proof.
  intros [H1 H2 H3 H4 H5 H6 H7 H8]. unfold report.
  destruct (first_arrival s) as [first|], (minimum_transit_ms s) as [minimum|];
    try (eexists; split; [reflexivity|]; split; [constructor; vm_compute; split; congruence|];
         intros [[? ?] [? ?]]%H8; done).
  specialize (H4 ltac:(by eexists)). unfold TRANSIT_SAMPLES in *.
  rewrite !slice_Ok by lia. obind. set (samples := _ ++ _).
  assert (Hl : zlen samples = 16).
  { unfold samples. unfold zlen in *. rewrite length_app, length_sort, !length_take, !length_drop. lia. }
  unfold checked_sub. rewrite (proj2 (Z.leb_le 1 (transit_count s))) by lia. cbn [expect]. obind.
  assert (0 <= (transit_count s - 1) / 2 < 16).
  { split; [apply Z.div_pos; lia|apply Z.div_lt_upper_bound; lia]. }
  step_idx. eexists. split; [reflexivity|]. split; [|done]. constructor; cbn; try apply server_time_range; auto with nvst.
  - destruct (100 <=? _); [auto with nvst|unfold is_u8; lia].
  - destruct (100 <=? _); [auto with nvst|unfold is_u32; lia].
Qed.

(** ** Complete frames *)

Import FrameSample BandwidthEstimator.


(** The packets of one frame, all of them and in order. *)
Record whole_frame := { wf_number : Z; wf_first : PacketBandwidthSample; wf_rest : list PacketBandwidthSample }.
Definition packets (f : whole_frame) : list PacketBandwidthSample := wf_first f :: wf_rest f.

Fixpoint consecutive (sequence : Z) (l : list PacketBandwidthSample) : Prop :=
  match l with
  | [] => True
  | p :: l => sample_sequence p = sequence /\ consecutive (sequence + 1) l
  end.

Record whole_ok (f : whole_frame) : Prop := {
  wo_number : is_u32 (wf_number f);
  wo_numbers : Forall (fun p => sample_frame_number p = wf_number f) (packets f);
  wo_sequences : consecutive (sample_sequence (wf_first f)) (packets f);
  wo_started : sample_started (wf_first f) = true;
  wo_ended : existsb sample_ended (packets f) = true
}.

(** RTP timestamps never go back, in the sense of their 32-bit difference. *)
Fixpoint timely (last : option Z) (l : list PacketBandwidthSample) : Prop :=
  match l with
  | [] => True
  | p :: l => match last with Some t => 0 <= as_i32 (sample_timestamp p - t) | None => True end
      /\ timely (Some (sample_timestamp p)) l
  end.

(** The timestamp the stream is at after [l]. *)
Definition final_stamp (stamp : option Z) (l : list PacketBandwidthSample) : option Z :=
  match last l with Some p => Some (sample_timestamp p) | None => stamp end.

Lemma timely_app l1 l2 stamp :
  timely stamp (l1 ++ l2) <-> timely stamp l1 /\ timely (final_stamp stamp l1) l2.
Proof.
  revert stamp. induction l1 as [|p l1 IH]; intros stamp; cbn [app timely]; [by split; [|intros []]|].
  rewrite IH. unfold final_stamp at 2. rewrite last_cons. unfold final_stamp.
  destruct (last l1); tauto.
Qed.

Definition last_stamp (s : t) : option Z := fst <$> last_timestamp s.

Lemma extend_timely s timestamp :
  match last_stamp s with Some t => 0 <= as_i32 (timestamp - t) | None => True end ->
  exists extended, extend_timestamp s timestamp = Some extended.
Proof.
  unfold last_stamp, extend_timestamp. destruct (last_timestamp s) as [[last extended]|]; cbn; [|by eexists].
  intros H. rewrite (proj2 (Z.ltb_ge _ _)) by done. by eexists.
Qed.

(** One timely packet: the loss counter and the active frame. *)
Lemma observe_timely s p :
  estimator_ok s ->
  match last_stamp s with Some t => 0 <= as_i32 (sample_timestamp p - t) | None => True end ->
  exists s', observe s p = Ok s' /\ estimator_ok s' /\ last_stamp s' = Some (sample_timestamp p)
    /\ (forall fr, active_frame s = Some fr -> number fr = sample_frame_number p ->
         BandwidthEstimator.lossy_frames s' = BandwidthEstimator.lossy_frames s
         /\ exists extended, active_frame s'
              = Some (continue_frame fr (sample_sequence p) extended (sample_bytes p) (sample_received_at p) (sample_ended p)))
    /\ (match active_frame s with
        | None => True
        | Some fr => 0 < as_u32 (sample_frame_number p - number fr) < 2 ^ 31
            /\ FrameSample.started fr = true /\ FrameSample.ended fr = true /\ contiguous fr = true
            /\ number fr <> sample_frame_number p
        end ->
        BandwidthEstimator.lossy_frames s'
        = match active_frame s with
          | None => BandwidthEstimator.lossy_frames s
          | Some fr => saturating_add32 (BandwidthEstimator.lossy_frames s)
              (as_u32 (sample_frame_number p - number fr) - 1)
          end
        /\ exists fr', active_frame s' = Some fr' /\ number fr' = sample_frame_number p
             /\ last_sequence fr' = sample_sequence p /\ contiguous fr' = true
             /\ FrameSample.started fr' = sample_started p /\ FrameSample.ended fr' = sample_ended p).
Proof.
  intros Hok Ht. destruct (observe_ok s p Hok) as (s' & Hs' & Hok'). exists s'. split; [done|]. split; [done|].
  clear Hok'. revert Hs'. destruct p as [f q ts b st en at_]. cbn in *. unfold observe.
  set (first := match first_arrival s with Some _ => _ | None => _ end).
  destruct (extend_timely (s <| first_arrival := Some first |>) ts) as [extended He]; [done|]. rewrite He.
  pose proof (set_first_ok s first Hok) as Hok1.
  destruct (record_transit_spec _ at_ first ts extended Hok1) as (s1 & -> & Hok2 & Ha & Hl & Hts & _).
  change (active_frame (s <| first_arrival := Some first |>)) with (active_frame s) in Ha.
  change (BandwidthEstimator.lossy_frames (s <| first_arrival := Some first |>)) with (BandwidthEstimator.lossy_frames s) in Hl.
  obind. rewrite Ha. unfold last_stamp.
  destruct (active_frame s) as [fr|].
  - destruct (Z.eqb_spec (number fr) f) as [Hn|Hn].
    + intros [= <-]. cbn. rewrite Hts, Hl. split; [done|]. split; [|by intros (_ & _ & _ & _ & ?)].
      intros fr' [= <-] _. split; [done|]. by eexists.
    + destruct (_ || _) eqn:Ed.
      * intros [= <-]. rewrite Hts. split; [done|]. split; [intros fr' [= <-] ?; done|].
        intros (Hd & _). exfalso. apply orb_true_iff in Ed as [Ed|Ed]; zbool; lia.
      * set (s2 := s1 <| BandwidthEstimator.lossy_frames := _ |>).
        destruct (FrameSample.started fr && FrameSample.ended fr && contiguous fr) eqn:Ew.
        -- intros [= <-]. cbn. destruct (measure_frame_spec s2 fr extended) as (_ & _ & Hml & Hmt).
           { destruct Hok2. constructor; try done. apply saturating_add32_range; [|apply saturating_sub_nonneg].
             unfold is_u32 in *. lia. }
           rewrite Hmt, Hml. unfold s2. cbn. unfold const. rewrite Hts, Hl. split; [done|]. split; [intros ? [= <-] ?; done|].
           intros (Hd & _). split; [|by eexists; split_and!]. f_equal. unfold saturating_sub. lia.
        -- intros [= <-]. split; [cbn; by rewrite Hts|]. split; [intros ? [= <-] ?; done|].
           intros (_ & H1 & H2 & H3 & _). by rewrite H1, H2, H3 in Ew.
  - intros [= <-]. cbn. rewrite Hts, Hl. split; [done|]. split; [done|]. intros _. split; [done|]. by eexists; split_and!.
Qed.

Lemma rest_of_frame l s fr :
  estimator_ok s -> active_frame s = Some fr -> contiguous fr = true ->
  Forall (fun p => sample_frame_number p = number fr) l -> consecutive (last_sequence fr + 1) l ->
  timely (last_stamp s) l ->
  exists s' fr', ofold bandwidth_step (map Media l) s = Ok s' /\ estimator_ok s' /\ active_frame s' = Some fr'
    /\ number fr' = number fr /\ contiguous fr' = true /\ FrameSample.started fr' = FrameSample.started fr
    /\ FrameSample.ended fr' = FrameSample.ended fr || existsb sample_ended l
    /\ BandwidthEstimator.lossy_frames s' = BandwidthEstimator.lossy_frames s
    /\ last_stamp s' = final_stamp (last_stamp s) l.
Proof.
  revert s fr. induction l as [|p l IH]; intros s fr Hok Ha Hc Hall Hseq Ht; cbn [map ofold existsb].
  { exists s, fr. split_and!; try done. by rewrite orb_false_r. }
  inversion Hall as [|? ? Hn Hall']; subst. destruct Hseq as [Hq Hseq]. destruct Ht as [Hp Ht].
  destruct (observe_timely s p Hok Hp) as (s1 & Ho & Hok1 & Hst & Hcont & _).
  destruct (Hcont fr Ha (eq_sym Hn)) as (Hl & extended & Ha1).
  set (fr1 := continue_frame _ _ _ _ _ _) in Ha1.
  assert (Hfr : number fr1 = number fr /\ contiguous fr1 = true /\ last_sequence fr1 = sample_sequence p
    /\ FrameSample.started fr1 = FrameSample.started fr
    /\ FrameSample.ended fr1 = FrameSample.ended fr || sample_ended p).
  { unfold fr1, continue_frame. rewrite (proj2 (Z.leb_gt _ _)) by lia. rewrite (proj2 (Z.eqb_eq _ _)) by lia.
    destruct (F64.le _ _); cbn; done. }
  destruct Hfr as (F1 & F2 & F3 & F4 & F5). cbn [bandwidth_step]. rewrite Ho. obind.
  destruct (IH s1 fr1 Hok1 Ha1 F2) as (s' & fr' & Hrun & Hok' & Ha' & N & C & St & En & Lo & La).
  { by rewrite F1. }
  { rewrite F3. by rewrite <- Hq in Hseq. }
  { by rewrite Hst. }
  exists s', fr'. split_and!; [done|done|done|congruence|done|congruence| |congruence|].
  - rewrite En, F5. by rewrite orb_assoc.
  - rewrite La, Hst. unfold final_stamp. rewrite last_cons. by destruct (last l).
Qed.


Definition complete (fr : FrameSample.t) : Prop :=
  contiguous fr = true /\ FrameSample.started fr = true /\ FrameSample.ended fr = true.

(** A whole frame after a complete one: only the gap counts as loss. *)
Lemma whole_frame_step s f :
  estimator_ok s -> whole_ok f -> timely (last_stamp s) (packets f) ->
  match active_frame s with
  | None => True
  | Some fr => complete fr /\ number fr < wf_number f < number fr + 2 ^ 31
  end ->
  exists s' fr', ofold bandwidth_step (map Media (packets f)) s = Ok s' /\ estimator_ok s'
    /\ active_frame s' = Some fr' /\ complete fr' /\ number fr' = wf_number f
    /\ BandwidthEstimator.lossy_frames s'
       = match active_frame s with
         | None => BandwidthEstimator.lossy_frames s
         | Some fr => saturating_add32 (BandwidthEstimator.lossy_frames s) (wf_number f - number fr - 1)
         end
    /\ last_stamp s' = final_stamp (last_stamp s) (packets f).
Proof.
  intros Hok Hf Ht Ha. destruct Hf as [Hn Hall Hseq Hst Hend]. destruct f as [n p l]; cbn in *.
  inversion Hall as [|? ? Hp Hall']; subst. destruct Hseq as [_ Hseq]. destruct Ht as [Ht1 Ht].
  destruct (observe_timely s p Hok Ht1) as (s1 & Ho & Hok1 & Hs1 & _ & Hnew).
  destruct Hnew as (Hl & fr1 & A1 & N1 & Q1 & C1 & S1 & E1).
  { destruct (active_frame s) as [fr|]; [|done]. destruct Ha as ((?&?&?)&?).
    unfold as_u32. rewrite Z.mod_small by lia. split_and!; try done; lia. }
  destruct (rest_of_frame l s1 fr1 Hok1 A1 C1) as (s' & fr' & Hrun & Hok' & A' & N' & C' & S' & E' & L' & T').
  { by rewrite N1. }
  { by rewrite Q1. }
  { by rewrite Hs1. }
  exists s', fr'. rewrite Ho. obind. split_and!; try done.
  - split_and!; [done|congruence|congruence].
  - congruence.
  - rewrite L', Hl. destruct (active_frame s) as [fr|]; [|done]. destruct Ha as (_ & Hd).
    unfold as_u32. by rewrite Z.mod_small by lia.
  - rewrite T', Hs1. unfold final_stamp, packets. cbn [wf_first wf_rest]. rewrite last_cons. by destruct (last l).
Qed.

(** The frames of a stream: their numbers go up, by less than half the range. *)
Fixpoint ascending (number : Z) (fs : list whole_frame) : Prop :=
  match fs with
  | [] => True
  | f :: fs => number < wf_number f < number + 2 ^ 31 /\ ascending (wf_number f) fs
  end.
Definition last_number (n : Z) (fs : list whole_frame) : Z :=
  match last fs with Some f => wf_number f | None => n end.

Lemma ascending_last n fs : ascending n fs -> n + zlen fs <= last_number n fs.
Proof.
  revert n. induction fs as [|f fs IH]; intros n H; [unfold zlen, last_number; cbn; lia|].
  destruct H as [H1 H2%IH]. unfold last_number in *. rewrite last_cons, zlen_cons.
  destruct (last fs); lia.
Qed.

Lemma whole_frames_run fs s fr :
  estimator_ok s -> active_frame s = Some fr -> complete fr -> is_u32 (number fr) ->
  Forall whole_ok fs -> ascending (number fr) fs -> timely (last_stamp s) (fs ≫= packets) ->
  BandwidthEstimator.lossy_frames s <= number fr ->
  exists s', ofold bandwidth_step (map Media (fs ≫= packets)) s = Ok s' /\ estimator_ok s'
    /\ is_Some (active_frame s')
    /\ BandwidthEstimator.lossy_frames s'
       = BandwidthEstimator.lossy_frames s + (last_number (number fr) fs - number fr - zlen fs).
Proof.
  revert s fr. induction fs as [|f fs IH]; intros s fr Hok Ha Hc Hn Hall Has Ht Hl.
  { exists s. split_and!; [done|done|by eexists|unfold last_number, zlen; cbn; lia]. }
  inversion Hall as [|? ? Hf Hall']; subst. destruct Has as [Hd Has].
  change ((f :: fs) ≫= packets) with (packets f ++ (fs ≫= packets)) in *.
  apply timely_app in Ht as [Ht1 Ht2].
  destruct (whole_frame_step s f Hok Hf Ht1) as (s1 & fr1 & Hr1 & Hok1 & A1 & C1 & N1 & L1 & T1); [by rewrite Ha|].
  rewrite Ha in L1. pose proof (wo_number _ Hf) as Hfn. pose proof (eo_lossy _ Hok) as Hll.
  assert (L1' : BandwidthEstimator.lossy_frames s1 = BandwidthEstimator.lossy_frames s + (wf_number f - number fr - 1)).
  { rewrite L1. unfold saturating_add32, is_u32, U32_MAX in *. lia. }
  destruct (IH s1 fr1) as (s' & Hr & Hok' & S' & L'); try done.
  { by rewrite N1. } { by rewrite N1. } { by rewrite T1. } { rewrite N1. lia. }
  exists s'. rewrite map_app, ofold_app, Hr1. obind. split_and!; [done|done|done|].
  rewrite L', L1', N1, zlen_cons. unfold last_number. rewrite last_cons. destruct (last fs); lia.
Qed.

(** Frames whose packets all arrive, in order and with RTP timestamps that
    never go back, are counted without error: after any such stream the loss
    counter of [BandwidthEstimator::observe] is exactly the number of frame
    numbers between the first frame and the last that were never seen, however
    the frames are cut into packets; and the report of the run is well typed. *)
Theorem lost_frames_counted_exactly (f : whole_frame) (fs : list whole_frame) (at_ : Z)
    (Hwhole : Forall whole_ok (f :: fs)) (Hasc : ascending (wf_number f) fs)
    (Htime : timely None ((f :: fs) ≫= packets)) :
  exists s b, ofold bandwidth_step (map Media ((f :: fs) ≫= packets)) default = Ok s
    /\ estimator_ok s
    /\ report s at_ = Ok b /\ feedback_typed b
    /\ Control.lossy_frames b = last_number (wf_number f) fs - wf_number f - zlen fs.
Proof.
  change ((f :: fs) ≫= packets) with (packets f ++ (fs ≫= packets)) in *.
  inversion Hwhole as [|? ? Hf Hall]; subst. apply timely_app in Htime as [Ht1 Ht2].
  destruct (whole_frame_step default f default_ok Hf Ht1 I) as (s1 & fr1 & Hr1 & Hok1 & A1 & C1 & N1 & L1 & T1).
  destruct (whole_frames_run fs s1 fr1) as (s & Hr & Hok & S & L); try done.
  { rewrite N1. apply Hf. } { by rewrite N1. } { by rewrite T1. }
  { rewrite L1, N1. apply Hf. }
  destruct (report_ok s at_ Hok) as (b & Hb & Hty & Hlb).
  exists s, b. rewrite map_app, ofold_app, Hr1. obind. split_and!; try done.
  rewrite Hlb by done. rewrite L, L1, N1. cbn. lia.
Qed.

Definition sample_of (number sequence timestamp : Z) (started ended : bool) : PacketBandwidthSample :=
  {| sample_frame_number := number; sample_sequence := sequence; sample_timestamp := timestamp;
     sample_bytes := 1200; sample_started := started; sample_ended := ended;
     sample_received_at := sequence * 1000000 |}.
(** Frame 5 in two packets, then frame 8 in one: frames 6 and 7 are lost. *)
Definition frame_five : whole_frame :=
  {| wf_number := 5; wf_first := sample_of 5 10 4294967000 true false; wf_rest := [sample_of 5 11 4294967000 false true] |}.
Definition frame_eight : whole_frame :=
  {| wf_number := 8; wf_first := sample_of 8 12 4204 true true; wf_rest := [] |}.

Lemma lost_frames_counted_exactly_witness :
  Forall whole_ok [frame_five; frame_eight]
  /\ exists s b, ofold bandwidth_step (map Media ([frame_five; frame_eight] ≫= packets)) default = Ok s
       /\ estimator_ok s
       /\ report s 20000000 = Ok b /\ feedback_typed b /\ Control.lossy_frames b = 2.
Proof.
  assert (H : Forall whole_ok [frame_five; frame_eight]).
  { repeat constructor; vm_compute; congruence. }
  split; [exact H|].
  apply (lost_frames_counted_exactly frame_five [frame_eight] 20000000); [exact H| |]; vm_compute;
    repeat split; congruence.
Defined.
