(* ===== verification/StageTimings.v ===== *)
(** * Frame stage timings

    [FrameStageTimingsAccumulator] of [frame_stage_timing.rs]: when each frame
    was assembled, admitted by the decoder and acknowledged, the latencies
    between the stages over a sliding window, and their percentiles. *)

From stdpp Require Import list sorting.
From S2P Require Import Prelude Deque F64.

Definition STAGE_SAMPLE_CAPACITY : Z := 256.
Definition DELIVERY_STAMP_CAPACITY : Z := 512.
Definition NANOS_PER_MILLI : f64 := F64.of_Z 1000000.

Record StageSummary := { p50_ms : f64; p95_ms : f64; max_ms : f64 }.

Module FrameStageTimings.
Record t := {
  delivery_to_admission : option StageSummary;
  admission_to_control_queue : option StageSummary;
  assembled_to_control_queue : option StageSummary;
  delivery_window_samples : Z;
  ack_window_samples : Z;
  assembled_frames_total : Z;
  admitted_frames_total : Z;
  queued_ack_frames_total : Z;
  undelivered_frames_total : Z;
  last_assembled_at : option Z;
  last_admitted_at : option Z;
  last_ack_queued_at : option Z;
  pending_deliveries : Z;
  unmatched_deliveries : Z;
  unmatched_admissions : Z
}.

Definition is_empty (self : t) : bool :=
  bool_decide (delivery_to_admission self = None /\ admission_to_control_queue self = None
               /\ assembled_to_control_queue self = None).
Definition has_progress (self : t) : bool := 0 <? assembled_frames_total self.
End FrameStageTimings.

(** The [while] loop drops the oldest samples; it ends because each turn
    removes one. *)
Fixpoint make_room (samples : list Z) : list Z :=
  if STAGE_SAMPLE_CAPACITY <=? zlen samples
  then match samples with [] => [] | _ :: samples => make_room samples end
  else samples.
(** [value] is a [Duration] of at most [u64::MAX] seconds. *)
Definition push_sample (samples : list Z) (value : Z) : list Z :=
  make_room samples ++ [Z.min value U64_MAX].

Definition percentile_ms (sorted : list Z) (percentile : Z) : outcome Empty_set f64 :=
  let rank := Z.max (div_ceil (zlen sorted * percentile) 100) 1 in
  index ← expect (checked_sub (Z.min rank (zlen sorted)) 1);
  sample ← sorted.[index];
  mret (F64.div (F64.of_Z sample) NANOS_PER_MILLI).

Definition summarize (samples : list Z) : outcome Empty_set (option StageSummary) :=
  match samples with
  | [] => mret None
  | _ =>
      let sorted := merge_sort Z.le samples in
      p50 ← percentile_ms sorted 50;
      p95 ← percentile_ms sorted 95;
      maximum ← expect (last sorted);
      mret (Some {| p50_ms := p50; p95_ms := p95; max_ms := F64.div (F64.of_Z maximum) NANOS_PER_MILLI |})
  end.

Module FrameStageTimingsAccumulator.
Record t := {
  delivered : list (Z * Z);
  delivery_to_admission_us : list Z;
  admission_to_control_queue_us : list Z;
  assembled_to_control_queue_us : list Z;
  assembled_frames_total : Z;
  admitted_frames_total : Z;
  queued_ack_frames_total : Z;
  undelivered_frames_total : Z;
  last_assembled_at : option Z;
  last_admitted_at : option Z;
  last_ack_queued_at : option Z;
  unmatched_deliveries : Z;
  unmatched_admissions : Z;
  epoch_started_at : option Z
}.

Definition default : t := {|
  delivered := []; delivery_to_admission_us := []; admission_to_control_queue_us := [];
  assembled_to_control_queue_us := []; assembled_frames_total := 0; admitted_frames_total := 0;
  queued_ack_frames_total := 0; undelivered_frames_total := 0; last_assembled_at := None;
  last_admitted_at := None; last_ack_queued_at := None; unmatched_deliveries := 0;
  unmatched_admissions := 0; epoch_started_at := None |}.

Definition is_frame (frame_index : Z) (stamp : Z * Z) : bool := stamp.1 =? frame_index.

(** The eviction loop of [record_assembly]: a stamp and a count per turn. *)
Fixpoint evict (delivered : list (Z * Z)) (unmatched : Z) : list (Z * Z) * Z :=
  if DELIVERY_STAMP_CAPACITY <=? zlen delivered
  then match delivered with
       | [] => ([], unmatched)
       | _ :: delivered => evict delivered (saturating_add64 unmatched 1)
       end
  else (delivered, unmatched).

Definition record_assembly (self : t) (frame_index at_ : Z) : t :=
  let '(delivered, unmatched) :=
    match take_first (is_frame frame_index) (delivered self) with
    | Some (_, delivered) => (delivered, saturating_add64 (unmatched_deliveries self) 1)
    | None => (delivered self, unmatched_deliveries self)
    end in
  let '(delivered, unmatched) := evict delivered unmatched in
  let self := self <| FrameStageTimingsAccumulator.delivered := delivered ++ [(frame_index, at_)] |> in
  let self := self <| unmatched_deliveries := unmatched |> in
  let self := self <| assembled_frames_total := saturating_add64 (assembled_frames_total self) 1 |> in
  self <| last_assembled_at := Some at_ |>.

Definition retire_undelivered (self : t) (frame_index : Z) : t :=
  let self := match take_first (is_frame frame_index) (delivered self) with
    | Some (_, delivered) => self <| FrameStageTimingsAccumulator.delivered := delivered |>
    | None => self
    end in
  self <| undelivered_frames_total := saturating_add64 (undelivered_frames_total self) 1 |>.

Definition record_admission (self : t) (frame_index at_ : Z) : t * option Z :=
  let self := self <| admitted_frames_total := saturating_add64 (admitted_frames_total self) 1 |> in
  let self := self <| last_admitted_at := Some at_ |> in
  match take_first (is_frame frame_index) (delivered self) with
  | None => (self <| unmatched_admissions := saturating_add64 (unmatched_admissions self) 1 |>, None)
  | Some ((_, delivered_at), delivered) =>
      let self := self <| FrameStageTimingsAccumulator.delivered := delivered |> in
      (self <| delivery_to_admission_us :=
         push_sample (delivery_to_admission_us self) (saturating_duration_since at_ delivered_at) |>,
       Some delivered_at)
  end.

Definition record_ack_queued (self : t) (assembled_at : option Z) (admitted_at at_ : Z) : t :=
  let self := self <| queued_ack_frames_total := saturating_add64 (queued_ack_frames_total self) 1 |> in
  let self := self <| last_ack_queued_at := Some at_ |> in
  if match epoch_started_at self with Some epoch_started_at => admitted_at <? epoch_started_at | None => false end
  then self
  else
    let self := self <| admission_to_control_queue_us :=
      push_sample (admission_to_control_queue_us self) (saturating_duration_since at_ admitted_at) |> in
    match assembled_at with
    | Some assembled_at => self <| assembled_to_control_queue_us :=
        push_sample (assembled_to_control_queue_us self) (saturating_duration_since at_ assembled_at) |>
    | None => self
    end.

Definition reset_epoch (self : t) (at_ : Z) : t :=
  let retired := zlen (delivered self) in
  let self := self <| delivered := [] |> in
  let self := self <| unmatched_deliveries := saturating_add64 (unmatched_deliveries self) retired |> in
  self <| epoch_started_at := Some at_ |>.

Definition snapshot (self : t) : outcome Empty_set FrameStageTimings.t :=
  delivery ← summarize (delivery_to_admission_us self);
  admission ← summarize (admission_to_control_queue_us self);
  assembled ← summarize (assembled_to_control_queue_us self);
  mret {|
    FrameStageTimings.delivery_to_admission := delivery;
    FrameStageTimings.admission_to_control_queue := admission;
    FrameStageTimings.assembled_to_control_queue := assembled;
    FrameStageTimings.delivery_window_samples := zlen (delivery_to_admission_us self);
    FrameStageTimings.ack_window_samples := zlen (admission_to_control_queue_us self);
    FrameStageTimings.assembled_frames_total := assembled_frames_total self;
    FrameStageTimings.admitted_frames_total := admitted_frames_total self;
    FrameStageTimings.queued_ack_frames_total := queued_ack_frames_total self;
    FrameStageTimings.undelivered_frames_total := undelivered_frames_total self;
    FrameStageTimings.last_assembled_at := last_assembled_at self;
    FrameStageTimings.last_admitted_at := last_admitted_at self;
    FrameStageTimings.last_ack_queued_at := last_ack_queued_at self;
    FrameStageTimings.pending_deliveries := zlen (delivered self);
    FrameStageTimings.unmatched_deliveries := unmatched_deliveries self;
    FrameStageTimings.unmatched_admissions := unmatched_admissions self
  |}.
End FrameStageTimingsAccumulator.

Import FrameStageTimingsAccumulator.

(** ** Percentiles *)

Definition count_if (f : Z -> bool) (l : list Z) : Z := zlen (List.filter f l).

Lemma count_if_app f l k : count_if f (l ++ k) = count_if f l + count_if f k.
Proof. unfold count_if. by rewrite List.filter_app, zlen_app. Qed.
Lemma count_if_all f l : Forall (fun x => f x = true) l -> count_if f l = zlen l.
Proof.
  unfold count_if. induction 1 as [|x l Hx _ IH]; [done|]. cbn [List.filter]. rewrite Hx, !zlen_cons. by f_equal.
Qed.
Lemma count_if_none f l : Forall (fun x => f x = false) l -> count_if f l = 0.
Proof. unfold count_if. induction 1 as [|x l Hx _ IH]; [done|]. cbn [List.filter]. by rewrite Hx. Qed.
Lemma count_if_nonneg f l : 0 <= count_if f l.
Proof. apply zlen_nonneg. Qed.
Lemma count_if_Permutation f l k : l ≡ₚ k -> count_if f l = count_if f k.
Proof.
  intros H. unfold count_if.
  assert (Hp : forall l k, l ≡ₚ k -> List.filter f l ≡ₚ List.filter f k).
  { clear. induction 1 as [|x l k _ IH|x y l|l k m _ IH1 _ IH2]; cbn [List.filter]; [done| | |by rewrite IH1].
    - destruct (f x); [by constructor|done].
    - destruct (f x), (f y); try done. constructor. }
  unfold zlen. by rewrite (Permutation_length (Hp _ _ H)).
Qed.

(** The element of rank [i] of a sorted list: [i] elements and itself are at
    most [x], and no more than [i] are below it. *)
Lemma sorted_rank (l : list Z) (i : nat) x :
  StronglySorted Z.le l -> l !! i = Some x ->
  Z.of_nat i + 1 <= count_if (fun y => y <=? x) l /\ count_if (fun y => y <? x) l <= Z.of_nat i.
Proof.
  intros Hs Hi. pose proof (lookup_lt_Some _ _ _ Hi) as Hlt.
  rewrite <- (take_drop_middle l i x Hi) in Hs |- *.
  assert (Hlow : Forall (fun y => y <= x) (take i l)).
  { apply StronglySorted_app in Hs as (Hb & _ & _). apply Forall_forall. intros y Hy. apply Hb; [done|set_solver]. }
  assert (Hhigh : Forall (fun y => x <= y) (drop (S i) l)).
  { apply StronglySorted_app in Hs as (_ & _ & Hs). by inversion Hs. }
  change (x :: drop (S i) l) with ([x] ++ drop (S i) l). rewrite !count_if_app.
  rewrite (count_if_all (fun y => y <=? x) (take i l)) by (eapply Forall_impl; [exact Hlow|]; cbn; intros; lia).
  rewrite (count_if_all (fun y => y <=? x) [x]) by (constructor; [lia|done]).
  rewrite (count_if_none (fun y => y <? x) [x]) by (constructor; [lia|done]).
  rewrite (count_if_none (fun y => y <? x) (drop (S i) l)) by (eapply Forall_impl; [exact Hhigh|]; cbn; intros; lia).
  pose proof (count_if_nonneg (fun y => y <=? x) (drop (S i) l)).
  assert (count_if (fun y => y <? x) (take i l) <= zlen (take i l)).
  { unfold count_if, zlen. pose proof (List.filter_length_le (fun y => y <? x) (take i l)). lia. }
  assert (zlen (take i l) = Z.of_nat i) by (unfold zlen; rewrite length_take; lia).
  unfold zlen at 2. cbn. lia.
Qed.

(** The nearest-rank percentile of [samples]. *)
Definition nearest_rank (percentile : Z) (samples : list Z) (x : Z) : Prop :=
  x ∈ samples
  /\ zlen samples * percentile <= 100 * count_if (fun y => y <=? x) samples
  /\ 100 * count_if (fun y => y <? x) samples < zlen samples * percentile.

Lemma percentile_spec samples percentile :
  samples <> [] -> 1 <= percentile <= 100 ->
  exists i x, merge_sort Z.le samples !! i = Some x
    /\ Z.of_nat i = div_ceil (zlen samples * percentile) 100 - 1
    /\ percentile_ms (merge_sort Z.le samples) percentile = Ok (F64.div (F64.of_Z x) NANOS_PER_MILLI)
    /\ nearest_rank percentile samples x.
Proof.
  intros Hne Hp. set (sorted := merge_sort Z.le samples).
  assert (Hperm : sorted ≡ₚ samples) by apply merge_sort_Permutation.
  assert (Hlen : zlen sorted = zlen samples) by (unfold zlen; by rewrite Hperm).
  assert (Hss : StronglySorted Z.le sorted) by (apply (StronglySorted_merge_sort Z.le); intros ? ?; lia).
  assert (Hpos : 1 <= zlen samples) by (destruct samples; [done|]; rewrite zlen_cons; pose proof (zlen_nonneg samples); lia).
  set (rank := div_ceil (zlen samples * percentile) 100).
  pose proof (div_ceil_spec (zlen samples * percentile) 100 ltac:(lia) ltac:(lia)) as Hr. fold rank in Hr.
  assert (Hr1 : 1 <= rank <= zlen samples) by nia.
  destruct (idx_Ok (E:=Empty_set) sorted (rank - 1)) as (x & Hx & Hget); [lia|].
  rewrite zget_lookup in Hget by lia. exists (Z.to_nat (rank - 1)), x.
  split_and!; [done|lia| |].
  - unfold percentile_ms. rewrite Hlen. fold rank. rewrite (Z.max_l rank 1), (Z.min_l rank) by lia.
    unfold checked_sub. rewrite (proj2 (Z.leb_le 1 rank)) by lia. cbn [expect]. obind. rewrite Hx. by obind.
  - destruct (sorted_rank sorted _ x Hss Hget) as [Hle Hlt]. unfold nearest_rank.
    rewrite !(count_if_Permutation _ sorted samples Hperm) in *.
    split_and!; [|lia|lia]. rewrite <- Hperm. by eapply list_elem_of_lookup_2.
Qed.

(** [summarize] of a window: no sample gives no summary; otherwise the
    nearest-rank median and 95th percentile and the maximum, in order. *)
Lemma summarize_spec samples :
  (samples = [] /\ summarize samples = Ok None)
  \/ (exists a b c, summarize samples = Ok (Some {| p50_ms := F64.div (F64.of_Z a) NANOS_PER_MILLI;
        p95_ms := F64.div (F64.of_Z b) NANOS_PER_MILLI; max_ms := F64.div (F64.of_Z c) NANOS_PER_MILLI |})
      /\ nearest_rank 50 samples a /\ nearest_rank 95 samples b
      /\ c ∈ samples /\ Forall (fun x => x <= c) samples /\ a <= b <= c).
Proof.
  destruct samples as [|s samples]; [by left|right]. unfold summarize.
  set (l := s :: samples). assert (Hne : l <> []) by done.
  destruct (percentile_spec l 50 Hne ltac:(lia)) as (i & a & Hi & Ei & -> & Ha). obind.
  destruct (percentile_spec l 95 Hne ltac:(lia)) as (j & b & Hj & Ej & -> & Hb). obind.
  assert (Hperm : merge_sort Z.le l ≡ₚ l) by apply merge_sort_Permutation.
  assert (Hss : StronglySorted Z.le (merge_sort Z.le l)) by (apply (StronglySorted_merge_sort Z.le); intros ? ?; lia).
  destruct (last (merge_sort Z.le l)) as [c|] eqn:Hc.
  2:{ apply last_None in Hc. rewrite Hc in Hperm. by apply Permutation_nil_l in Hperm. }
  cbn [expect]. obind.
  assert (Hmax : Forall (fun x => x <= c) (merge_sort Z.le l)).
  { apply last_Some in Hc as (k & Hk). rewrite Hk in Hss |- *. apply StronglySorted_app in Hss as (H & _ & _).
    apply Forall_app. split; [|constructor; [lia|done]]. apply Forall_forall. intros x Hx. apply H; [done|set_solver]. }
  exists a, b, c. split_and!; try done.
  - rewrite <- Hperm. apply last_Some in Hc as (k & ->). set_solver.
  - by rewrite <- Hperm.
  - assert (i <= j)%nat.
    { unfold div_ceil in *. apply Nat2Z.inj_le. rewrite Ei, Ej. pose proof (zlen_nonneg l).
      apply Z.sub_le_mono_r, Z.div_le_mono; lia. }
    destruct (decide (i = j)) as [->|]; [rewrite Hi in Hj; injection Hj; lia|].
    rewrite <- (take_drop_middle _ _ _ Hi) in Hss. apply StronglySorted_app in Hss as (_ & _ & Hss).
    apply StronglySorted_inv in Hss as [_ Hss]. rewrite Forall_forall in Hss. apply Hss.
    apply list_elem_of_lookup. exists (j - S i)%nat. rewrite lookup_drop. rewrite <- Hj. f_equal. lia.
  - rewrite Forall_forall in Hmax. apply Hmax. by eapply list_elem_of_lookup_2.
Qed.

(** ** Accounting *)

(** The operations the feedback state performs on its timings. *)
Inductive stage_event :=
  | Assembled (frame_index at_ : Z)
  | Undelivered (frame_index : Z)
  | AdmittedFrame (frame_index at_ : Z)
  | AckQueued (assembled_at : option Z) (admitted_at at_ : Z)
  | EpochReset (at_ : Z).

Definition stage_step (s : t) (e : stage_event) : t :=
  match e with
  | Assembled frame_index at_ => record_assembly s frame_index at_
  | Undelivered frame_index => retire_undelivered s frame_index
  | AdmittedFrame frame_index at_ => (record_admission s frame_index at_).1
  | AckQueued assembled_at admitted_at at_ => record_ack_queued s assembled_at admitted_at at_
  | EpochReset at_ => reset_epoch s at_
  end.

Definition windows_ok (s : t) : Prop :=
  zlen (delivery_to_admission_us s) <= STAGE_SAMPLE_CAPACITY
  /\ zlen (admission_to_control_queue_us s) <= STAGE_SAMPLE_CAPACITY
  /\ zlen (assembled_to_control_queue_us s) <= STAGE_SAMPLE_CAPACITY.

(** Every assembled frame is accounted for once: it is pending, was pushed out
    ([unmatched_deliveries]), was admitted, or was retired. *)
Definition accounted (s : t) : Prop :=
  exists retired, 0 <= retired <= undelivered_frames_total s
    /\ assembled_frames_total s
       = zlen (delivered s) + unmatched_deliveries s
         + (admitted_frames_total s - unmatched_admissions s) + retired.

(** One stamp per frame, and every collection within its capacity. *)
Record stages_bounded (s : t) : Prop := {
  sb_frames : NoDup (map fst (delivered s));
  sb_pending : zlen (delivered s) <= DELIVERY_STAMP_CAPACITY;
  sb_windows : windows_ok s
}.

(** The state after [n] events. *)
Record stages_ok (n : Z) (s : t) : Prop := {
  so_bounded : stages_bounded s;
  so_accounted : accounted s;
  so_assembled : 0 <= assembled_frames_total s <= n;
  so_admitted : 0 <= unmatched_admissions s <= admitted_frames_total s /\ admitted_frames_total s <= n;
  so_undelivered : 0 <= undelivered_frames_total s <= n;
  so_queued : 0 <= queued_ack_frames_total s <= n;
  so_unmatched : 0 <= unmatched_deliveries s
}.

Lemma default_bounded : stages_bounded default.
Proof. constructor; [constructor|by vm_compute|by split_and!]. Qed.
Lemma default_stages_ok : stages_ok 0 default.
Proof. constructor; try (cbn; lia); [apply default_bounded|]. exists 0. cbn. by vm_compute. Qed.

Lemma make_room_length samples : zlen (make_room samples) <= STAGE_SAMPLE_CAPACITY - 1.
Proof.
  induction samples as [|x samples IH]; unfold STAGE_SAMPLE_CAPACITY in *; [by vm_compute|].
  cbn [make_room]. unfold STAGE_SAMPLE_CAPACITY. zif.
Qed.
Lemma push_sample_length samples value : zlen (push_sample samples value) <= STAGE_SAMPLE_CAPACITY.
Proof.
  unfold push_sample. rewrite zlen_app. pose proof (make_room_length samples). unfold zlen at 2. cbn. lia.
Qed.
#[local] Hint Resolve push_sample_length : nvst.

(** The loop drops at most one stamp: there were at most 512. *)
Lemma evict_spec d u :
  zlen d <= DELIVERY_STAMP_CAPACITY ->
  exists d', evict d u = (d', if zlen d =? zlen d' then u else saturating_add64 u 1)
    /\ zlen d' <= zlen d <= zlen d' + 1
    /\ zlen d' <= DELIVERY_STAMP_CAPACITY - 1 /\ d' `suffix_of` d.
Proof.
  unfold DELIVERY_STAMP_CAPACITY. intros Hd. destruct d as [|x d].
  { exists []. cbn. by split_and!; try (vm_compute; congruence). }
  cbn [evict]. unfold DELIVERY_STAMP_CAPACITY at 1. zif.
  - exists d. rewrite zlen_cons in *. rewrite (proj2 (Z.eqb_neq (1 + zlen d) (zlen d))) by lia.
    assert (Hstop : forall v, evict d v = (d, v)).
    { intros v. destruct d; [done|]. cbn [evict]. unfold DELIVERY_STAMP_CAPACITY.
      rewrite (proj2 (Z.leb_gt _ _)); [done|]. lia. }
    rewrite Hstop. split_and!; try lia; [done|]. by exists [x].
  - exists (x :: d). rewrite Z.eqb_refl. by split_and!; try lia.
Qed.

(** Taking the stamp of a frame. *)
Lemma take_frame_spec d f r d' :
  NoDup (map fst d) -> take_first (is_frame f) d = Some (r, d') ->
  r.1 = f /\ zlen d = zlen d' + 1 /\ NoDup (map fst d') /\ f ∉ map fst d'.
Proof.
  intros Hnd (pre & post & -> & -> & Hp)%take_first_Some. unfold is_frame in Hp. apply Z.eqb_eq in Hp.
  rewrite map_app in *. cbn [map] in Hnd. rewrite <- Permutation_middle in Hnd.
  apply NoDup_cons in Hnd as [Hf Hnd]. rewrite Hp in Hf. split_and!; try done.
  rewrite !zlen_app, zlen_cons. lia.
Qed.
Lemma no_frame_spec d f : take_first (is_frame f) d = None -> f ∉ map fst d.
Proof.
  intros H ((g & v) & [= <-] & Hin%list_elem_of_In)%list_elem_of_In%in_map_iff.
  pose proof (take_first_None _ _ H _ Hin) as Hp. unfold is_frame in Hp. cbn in Hp. lia.
Qed.

(** The list side of [record_assembly]: the stamp of an earlier assembly of the
    frame goes, then the oldest one when there is no room. *)
Lemma record_assembly_spec s f at_ :
  stages_bounded s ->
  exists d k, record_assembly s f at_ =
      (((s <| delivered := d ++ [(f, at_)] |>) <| unmatched_deliveries :=
          Nat.iter k (fun u => saturating_add64 u 1) (unmatched_deliveries s) |>)
        <| assembled_frames_total := saturating_add64 (assembled_frames_total s) 1 |>)
        <| last_assembled_at := Some at_ |>
    /\ zlen (delivered s) = zlen d + Z.of_nat k /\ (k <= 2)%nat
    /\ NoDup (map fst (d ++ [(f, at_)])) /\ zlen (d ++ [(f, at_)]) <= DELIVERY_STAMP_CAPACITY.
Proof.
  intros [H1 H2 _]. unfold record_assembly.
  assert (Hpre : exists k d, match take_first (is_frame f) (delivered s) with
    | Some (_, d) => (d, saturating_add64 (unmatched_deliveries s) 1)
    | None => (delivered s, unmatched_deliveries s) end
      = (d, Nat.iter k (fun u => saturating_add64 u 1) (unmatched_deliveries s))
    /\ (k <= 1)%nat /\ zlen (delivered s) = zlen d + Z.of_nat k /\ NoDup (map fst d) /\ f ∉ map fst d).
  { destruct (take_first _ _) as [[x d]|] eqn:E.
    - apply take_frame_spec in E as (_ & Hl & Hnd & Hf); [|done]. exists 1%nat, d. split_and!; try done; lia.
    - apply no_frame_spec in E. exists 0%nat, (delivered s). split_and!; try done; lia. }
  destruct Hpre as (k & d & -> & Hk & Hl & Hnd & Hf).
  set (u := Nat.iter k _ _).
  destruct (evict_spec d u) as (d' & -> & Hl' & Hd' & (pre & ->)); [lia|].
  exists d', (k + Z.to_nat (zlen (pre ++ d') - zlen d'))%nat. split_and!; try lia.
  - repeat f_equal. unfold u. destruct (Z.eqb_spec (zlen (pre ++ d')) (zlen d')).
    + replace (Z.to_nat _) with 0%nat by lia. by rewrite Nat.add_0_r.
    + replace (Z.to_nat _) with 1%nat by lia. by rewrite Nat.add_1_r.
  - rewrite map_app. rewrite map_app in Hnd, Hf. apply NoDup_app in Hnd as (_ & _ & Hnd).
    apply NoDup_app. split_and!; [done| |apply NoDup_singleton]. cbn. intros g Hg Hg'. set_solver.
  - rewrite zlen_app. unfold zlen at 2. cbn. lia.
Qed.

Lemma iter_saturating k u :
  0 <= u -> u + Z.of_nat k < U64_MAX -> Nat.iter k (fun u => saturating_add64 u 1) u = u + Z.of_nat k.
Proof.
  intros Hu. induction k as [|k IH]; intros Hk; [cbn; lia|]. cbn [Nat.iter nat_rect]. fold (Nat.iter k (fun u => saturating_add64 u 1) u).
  change (nat_rect _ _ _ k) with (Nat.iter k (fun u => saturating_add64 u 1) u). rewrite IH by lia.
  rewrite saturating_add64_small by (unfold U64_MAX in *; lia). lia.
Qed.

Lemma record_assembly_bounded s f at_ : stages_bounded s -> stages_bounded (record_assembly s f at_).
Proof.
  intros Hs. destruct (record_assembly_spec s f at_ Hs) as (d & k & -> & _ & _ & Hnd & Hl).
  destruct Hs. by constructor.
Qed.
Lemma retire_undelivered_bounded s f : stages_bounded s -> stages_bounded (retire_undelivered s f).
Proof.
  intros [H1 H2 H3]. unfold retire_undelivered. destruct (take_first _ _) as [[x d]|] eqn:E; [|by constructor].
  apply take_frame_spec in E as (_ & Hl & Hnd & _); [|done]. constructor; cbn; unfold const; try done. lia.
Qed.
Lemma record_admission_bounded s f at_ : stages_bounded s -> stages_bounded (record_admission s f at_).1.
Proof.
  intros [H1 H2 (W1 & W2 & W3)]. unfold record_admission.
  change (delivered (_ <| last_admitted_at := Some at_ |>)) with (delivered s).
  destruct (take_first _ _) as [[[g at'] d]|] eqn:E; [|by constructor].
  apply take_frame_spec in E as (_ & Hl & Hnd & _); [|done]. constructor; cbn; unfold const; try done; [lia|].
  unfold windows_ok. cbn. unfold const. split_and!; [apply push_sample_length|done|done].
Qed.
Lemma record_ack_queued_bounded s a b at_ : stages_bounded s -> stages_bounded (record_ack_queued s a b at_).
Proof.
  intros [H1 H2 (W1 & W2 & W3)]. unfold record_ack_queued.
  destruct (match epoch_started_at _ with Some _ => _ | None => _ end); [by constructor|destruct a as [a|]].
  all: constructor; cbn; unfold const; try done.
  all: unfold windows_ok; cbn; unfold const; split_and!; try done; apply push_sample_length.
Qed.
Lemma reset_epoch_bounded s at_ : stages_bounded s -> stages_bounded (reset_epoch s at_).
Proof. intros []. constructor; cbn; [constructor|by vm_compute|done]. Qed.

Lemma stage_step_bounded s e : stages_bounded s -> stages_bounded (stage_step s e).
Proof.
  destruct e; cbn [stage_step]; eauto using record_assembly_bounded, retire_undelivered_bounded,
    record_admission_bounded, record_ack_queued_bounded, reset_epoch_bounded.
Qed.

(** Each event keeps the accounts. *)
Lemma stage_step_ok n s e : stages_ok n s -> n + 1 < U64_MAX -> stages_ok (n + 1) (stage_step s e).
Proof.
  intros [H1 (r & Hr & Hb) H5 H6 H7 H8 H9] Hn. pose proof (stage_step_bounded s e H1) as Hb'.
  pose proof (zlen_nonneg (delivered s)) as Hd0. pose proof (sb_pending _ H1) as Hd. unfold DELIVERY_STAMP_CAPACITY in Hd.
  assert (Hsat : forall z, 0 <= z <= n -> saturating_add64 z 1 = z + 1)
    by (intros; apply saturating_add64_small; unfold U64_MAX in *; lia).
  destruct e as [f at_|f|f at_|a b at_|at_]; cbn [stage_step] in *.
  - destruct (record_assembly_spec s f at_ H1) as (d & k & Heq & Hl & Hk & _ & _). rewrite Heq in *.
    pose proof (zlen_nonneg d).
    constructor; [exact Hb'|..]; cbn; unfold const; rewrite ?Hsat, ?iter_saturating by (unfold U64_MAX in *; lia); try done; try lia.
    exists r. cbn. unfold const. rewrite ?Hsat, ?iter_saturating by (unfold U64_MAX in *; lia).
    rewrite zlen_app. unfold zlen at 2. cbn. lia.
  - revert Hb'. unfold retire_undelivered. destruct (take_first _ _) as [[x d]|] eqn:E; intros Hb'.
    + apply take_frame_spec in E as (_ & Hl & _); [|apply H1].
      constructor; [exact Hb'|..]; cbn; unfold const; cbn; rewrite ?Hsat by lia; try done; try lia.
      exists (r + 1). cbn. unfold const. cbn. rewrite ?Hsat by lia. lia.
    + constructor; [exact Hb'|..]; cbn; unfold const; cbn; rewrite ?Hsat by lia; try done; try lia.
      exists r. cbn. unfold const. cbn. rewrite ?Hsat by lia. lia.
  - revert Hb'. unfold record_admission.
    change (delivered (_ <| last_admitted_at := Some at_ |>)) with (delivered s).
    destruct (take_first _ _) as [[[g at'] d]|] eqn:E; intros Hb'.
    + apply take_frame_spec in E as (_ & Hl & _); [|apply H1].
      constructor; [exact Hb'|..]; cbn; unfold const; cbn; rewrite ?Hsat by lia; try done; try lia.
      exists r. cbn. unfold const. cbn. rewrite ?Hsat by lia. lia.
    + constructor; [exact Hb'|..]; cbn; unfold const; cbn; rewrite ?Hsat by lia; try done; try lia.
      exists r. cbn. unfold const. cbn. rewrite ?Hsat by lia. lia.
  - revert Hb'. unfold record_ack_queued.
    destruct (match epoch_started_at _ with Some _ => _ | None => _ end); [|destruct a as [a|]]; intros Hb'.
    all: constructor; [exact Hb'|..]; cbn; unfold const; cbn; rewrite ?Hsat by lia; try done; try lia.
    all: exists r; cbn; unfold const; cbn; lia.
  - revert Hb'. unfold reset_epoch. intros Hb'.
    assert (Hadd : saturating_add64 (unmatched_deliveries s) (zlen (delivered s)) = unmatched_deliveries s + zlen (delivered s))
      by (apply saturating_add64_small; unfold U64_MAX in *; lia).
    constructor; [exact Hb'|..]; cbn; unfold const; cbn; rewrite ?Hadd; try done; try lia.
    exists r. cbn. unfold const. cbn. rewrite ?Hadd. change (zlen []) with 0. lia.
Qed.

Definition occurred (p : stage_event -> bool) (es : list stage_event) : Z := zlen (List.filter p es).
Definition is_assembled e := match e with Assembled _ _ => true | _ => false end.
Definition is_undelivered e := match e with Undelivered _ => true | _ => false end.
Definition is_admitted e := match e with AdmittedFrame _ _ => true | _ => false end.
Definition is_ack_queued e := match e with AckQueued _ _ _ => true | _ => false end.
Definition b2n (b : bool) : Z := if b then 1 else 0.

(** What each event adds to the totals. *)
Lemma stage_step_totals n s e :
  stages_ok n s -> n + 1 < U64_MAX ->
  let s' := stage_step s e in
  assembled_frames_total s' = assembled_frames_total s + b2n (is_assembled e)
  /\ undelivered_frames_total s' = undelivered_frames_total s + b2n (is_undelivered e)
  /\ admitted_frames_total s' = admitted_frames_total s + b2n (is_admitted e)
  /\ queued_ack_frames_total s' = queued_ack_frames_total s + b2n (is_ack_queued e).
Proof.
  intros [_ _ H5 H6 H7 H8 _] Hn.
  assert (Hsat : forall z, 0 <= z <= n -> saturating_add64 z 1 = z + 1)
    by (intros; apply saturating_add64_small; unfold U64_MAX in *; lia).
  destruct e; cbn [stage_step is_assembled is_undelivered is_admitted is_ack_queued b2n].
  - unfold record_assembly. destruct (match take_first _ _ with Some _ => _ | None => _ end) as [d u].
    destruct (evict d u) as [d' u']. cbn. unfold const. rewrite !Hsat by lia. lia.
  - unfold retire_undelivered. destruct (take_first _ _) as [[? ?]|]; cbn; unfold const; rewrite !Hsat by lia; lia.
  - unfold record_admission. destruct (take_first _ _) as [[[? ?] ?]|]; cbn; unfold const; rewrite !Hsat by lia; lia.
  - unfold record_ack_queued. destruct (match epoch_started_at _ with Some _ => _ | None => _ end);
      [|destruct assembled_at]; cbn; unfold const; rewrite !Hsat by lia; lia.
  - cbn. lia.
Qed.

Lemma occurred_cons p e es : occurred p (e :: es) = b2n (p e) + occurred p es.
Proof. unfold occurred. cbn [List.filter]. destruct (p e); rewrite ?zlen_cons; cbn [b2n]; lia. Qed.

Lemma stage_run_ok es n s :
  stages_ok n s -> n + zlen es < U64_MAX ->
  let s' := foldl stage_step s es in
  stages_ok (n + zlen es) s'
  /\ assembled_frames_total s' = assembled_frames_total s + occurred is_assembled es
  /\ undelivered_frames_total s' = undelivered_frames_total s + occurred is_undelivered es
  /\ admitted_frames_total s' = admitted_frames_total s + occurred is_admitted es
  /\ queued_ack_frames_total s' = queued_ack_frames_total s + occurred is_ack_queued es.
Proof.
  revert n s. induction es as [|e es IH]; intros n s Hs Hn; cbn [foldl].
  { change (zlen []) with 0. unfold occurred. cbn. rewrite !Z.add_0_r. done. }
  rewrite zlen_cons in Hn. pose proof (zlen_nonneg es).
  destruct (stage_step_totals n s e Hs ltac:(lia)) as (T1 & T2 & T3 & T4).
  destruct (IH (n + 1) (stage_step s e)) as (Hok & R1 & R2 & R3 & R4); [apply stage_step_ok; [done|lia]|lia|].
  rewrite zlen_cons, !occurred_cons. replace (n + (1 + zlen es)) with (n + 1 + zlen es) by lia.
  split; [done|]. lia.
Qed.

Lemma snapshot_ok s :
  stages_bounded s ->
  exists snap, snapshot s = Ok snap
    /\ FrameStageTimings.pending_deliveries snap = zlen (delivered s)
    /\ FrameStageTimings.assembled_frames_total snap = assembled_frames_total s
    /\ FrameStageTimings.admitted_frames_total snap = admitted_frames_total s
    /\ FrameStageTimings.undelivered_frames_total snap = undelivered_frames_total s
    /\ FrameStageTimings.unmatched_deliveries snap = unmatched_deliveries s
    /\ FrameStageTimings.unmatched_admissions snap = unmatched_admissions s
    /\ FrameStageTimings.delivery_window_samples snap <= STAGE_SAMPLE_CAPACITY
    /\ FrameStageTimings.ack_window_samples snap <= STAGE_SAMPLE_CAPACITY
    /\ summarize (delivery_to_admission_us s) = Ok (FrameStageTimings.delivery_to_admission snap)
    /\ summarize (admission_to_control_queue_us s) = Ok (FrameStageTimings.admission_to_control_queue snap)
    /\ summarize (assembled_to_control_queue_us s) = Ok (FrameStageTimings.assembled_to_control_queue snap).
Proof.
  intros [_ _ (W1 & W2 & W3)].
  assert (Hsum : forall l, exists x, summarize l = Ok x).
  { intros l. destruct (summarize_spec l) as [(_ & ->)|(a & b & c & -> & _)]; by eexists. }
  unfold snapshot. destruct (Hsum (delivery_to_admission_us s)) as (x & ->).
  destruct (Hsum (admission_to_control_queue_us s)) as (y & ->).
  destruct (Hsum (assembled_to_control_queue_us s)) as (z & ->). obind.
  eexists. split; [reflexivity|]. by split_and!.
Qed.

(** Whatever the receiver, the decoder and the control channel report (fewer
    than 2^64 - 1 events), the stage timings lose no frame: the totals count the
    events, the frames assembled are those pending, pushed out, admitted or
    retired, at most 512 of them pending and each under one stamp, and the
    snapshot is produced without a panic from windows of at most 256 samples,
    each summarised by its nearest-rank median and 95th percentile and its
    maximum. *)
Theorem stage_accounting (es : list stage_event) (Hn : zlen es < U64_MAX) :
  let s := foldl stage_step default es in
  exists snap retired, snapshot s = Ok snap
    /\ FrameStageTimings.assembled_frames_total snap = occurred is_assembled es
    /\ FrameStageTimings.admitted_frames_total snap = occurred is_admitted es
    /\ FrameStageTimings.undelivered_frames_total snap = occurred is_undelivered es
    /\ 0 <= retired <= occurred is_undelivered es
    /\ occurred is_assembled es
       = FrameStageTimings.pending_deliveries snap + FrameStageTimings.unmatched_deliveries snap
         + (occurred is_admitted es - FrameStageTimings.unmatched_admissions snap) + retired
    /\ FrameStageTimings.pending_deliveries snap <= DELIVERY_STAMP_CAPACITY
    /\ NoDup (map fst (delivered s))
    /\ FrameStageTimings.delivery_window_samples snap <= STAGE_SAMPLE_CAPACITY
    /\ FrameStageTimings.ack_window_samples snap <= STAGE_SAMPLE_CAPACITY
    /\ match FrameStageTimings.delivery_to_admission snap with
       | None => delivery_to_admission_us s = []
       | Some summary => exists a b c,
           summary = {| p50_ms := F64.div (F64.of_Z a) NANOS_PER_MILLI; p95_ms := F64.div (F64.of_Z b) NANOS_PER_MILLI;
                        max_ms := F64.div (F64.of_Z c) NANOS_PER_MILLI |}
           /\ nearest_rank 50 (delivery_to_admission_us s) a /\ nearest_rank 95 (delivery_to_admission_us s) b
           /\ c ∈ delivery_to_admission_us s /\ Forall (fun x => x <= c) (delivery_to_admission_us s) /\ a <= b <= c
       end.
Proof.
  destruct (stage_run_ok es 0 default default_stages_ok Hn) as (Hok & T1 & T2 & T3 & T4).
  pose proof (so_bounded _ _ Hok) as Hsb.
  destruct (snapshot_ok _ Hsb) as (snap & Hsnap & S1 & S2 & S3 & S4 & S5 & S6 & S7 & S8 & S9 & _ & _).
  destruct (so_accounted _ _ Hok) as (retired & Hr & Hb). cbn in T1, T2, T3, T4.
  cbv zeta. exists snap, retired. split_and!; try done; try lia.
  - rewrite S1. apply Hsb.
  - apply Hsb.
  - destruct (summarize_spec (delivery_to_admission_us (foldl stage_step default es))) as [(Hnil & He)|(a & b & c & He & Hs)];
      rewrite He in S9; injection S9 as <-; [done|]. exists a, b, c. by split.
Qed.

(** Frame 1 is admitted 3 ms after its assembly, frame 2 is retired, frame 3 is
    still pending, and frame 9 was never assembled. *)
Lemma stage_accounting_witness :
  zlen [Assembled 1 0; Assembled 2 1000000; AdmittedFrame 1 3000000; Undelivered 2; Assembled 3 4000000; AdmittedFrame 9 5000000] < U64_MAX
  /\ exists snap retired,
    snapshot (foldl stage_step default
      [Assembled 1 0; Assembled 2 1000000; AdmittedFrame 1 3000000; Undelivered 2; Assembled 3 4000000; AdmittedFrame 9 5000000]) = Ok snap
    /\ 3 = FrameStageTimings.pending_deliveries snap + FrameStageTimings.unmatched_deliveries snap
         + (2 - FrameStageTimings.unmatched_admissions snap) + retired.
Proof.
  split; [by vm_compute|].
  destruct (stage_accounting [Assembled 1 0; Assembled 2 1000000; AdmittedFrame 1 3000000; Undelivered 2; Assembled 3 4000000;
    AdmittedFrame 9 5000000] ltac:(by vm_compute)) as (snap & retired & Hs & _ & _ & _ & _ & Hb & _).
  exists snap, retired. split; [exact Hs|exact Hb].
Defined.
