(* ===== verification/Feedback.v ===== *)
(** * The feedback state

    [NvstFeedbackState] of [nvst.rs]: what the video receiver, the decoder and
    the control worker tell each other about the stream, and the reports made
    from it.  The retransmission queue inside it is [Nack], its bandwidth
    estimator [Bandwidth], its stage timings [StageTimings].  The state is shared
    behind locks and atomics; a method is one step here, and the threads'
    interleavings are sequences of steps. *)

From stdpp Require Import list.
From S2P Require Import Prelude Types Control Deque Nack Rtcp Stun F64 Bandwidth StageTimings.

Definition MAX_PENDING_FRAME_ACKS : Z := 512.
Definition KEYFRAME_REQUEST_COOLDOWN : Z := from_millis 250.
Definition RECENT_NETWORK_MAX_SAMPLE_GAP : Z := from_secs 3.
Definition RECENT_NETWORK_SAMPLE_INTERVAL : Z := from_secs 1.

Module ReceptionTiming.
Record t := {
  first_arrival : option Z;
  first_rtp_timestamp : Z;
  last_rtp_timestamp : Z;
  latest_rtp_timestamp : option Z;
  qos_packet_snapshot : option QosPacketSnapshot;
  last_transit : Z;
  jitter : f64;
  bandwidth : BandwidthEstimator.t
}.

Definition default : t := {|
  first_arrival := None; first_rtp_timestamp := 0; last_rtp_timestamp := 0; latest_rtp_timestamp := None;
  qos_packet_snapshot := None; last_transit := 0; jitter := F64.zero; bandwidth := BandwidthEstimator.default |}.
End ReceptionTiming.

Module FramePacketTiming.
Record t := { frame_number : Z; first_at : Z; assembled : bool }.
End FramePacketTiming.

Module CompletedFrameFeedback.
Record t := {
  frame_number : Z;
  bytes : Z;
  accepted_at : Z;
  assembled_at : option Z;
  packet_timing : option FramePacketTiming.t
}.

Definition command (self : t) (origin : Z) : outcome unit NvstControlCommand :=
  let first_packet_time_ms := (fun timing =>
    F64.mul (F64.as_secs_f64 (saturating_duration_since (FramePacketTiming.first_at timing) origin)) F64.thousand)
    <$> packet_timing self in
  frame_ack (frame_number self) (F64.to_bits <$> first_packet_time_ms) (bytes self).
End CompletedFrameFeedback.

Module NetworkCounters.
Record t := { ssrc : Z; base : Z; highest : Z; received : Z }.
End NetworkCounters.
#[export] Instance counters_eq_dec : EqDecision NetworkCounters.t.
Proof. solve_decision. Defined.

(** [RecentNetworkMetrics]: the previous sample. *)
Module RecentNetworkMetrics.
Import NetworkCounters.
Definition sample (self : option (Z * NetworkCounters.t)) (now : Z) (counters : NetworkCounters.t)
    : option (Z * NetworkCounters.t) * option f64 :=
  if (ssrc counters =? 0) || (base counters =? U32_MAX) || (highest counters <? base counters) then (None, None) else
  match self with
  | Some (sampled_at, previous) =>
      if now <? sampled_at then (self, None)
      else if negb (ssrc counters =? ssrc previous) || negb (base counters =? base previous)
           || (highest counters <? highest previous) || (received counters <? received previous)
      then (Some (now, counters), None)
      else if received counters =? received previous then (self, None)
      else if RECENT_NETWORK_MAX_SAMPLE_GAP <? now - sampled_at then (Some (now, counters), None)
      else if now - sampled_at <? RECENT_NETWORK_SAMPLE_INTERVAL then (self, None)
      else
        let expected := highest counters - highest previous in
        let received := received counters - received previous in
        (Some (now, counters),
         if 0 <? expected
         then Some (F64.div (F64.mul (F64.of_Z (saturating_sub expected received)) (F64.of_Z 100)) (F64.of_Z expected))
         else None)
  | None => (Some (now, counters), None)
  end.
End RecentNetworkMetrics.

Inductive StreamSocket := BundleSocket | VideoSocket.

Module NvstFeedbackState.
Record t := {
  video_ssrc : Z;
  highest_sequence : Z;
  base_sequence : Z;
  received_packets : Z;
  report_prior : Z * Z;
  recent_network_metrics : option (Z * NetworkCounters.t);
  bundle_receive_bytes : Z;
  video_receive_bytes : Z;
  reception_timing : ReceptionTiming.t;
  ice_ping : option (Z * Z);
  video_ping : option (Z * Z);
  bundle_ping : option (Z * Z);
  keyframe_needed : bool;
  pending_nacks : list range;
  last_sender_frame : Z;
  completed_frame_bytes : Z;
  pending_frame_acks : list CompletedFrameFeedback.t;
  frame_packet_timings : list FramePacketTiming.t;
  frame_stage_timings : FrameStageTimingsAccumulator.t
}.

Definition default : t := {|
  video_ssrc := 0; highest_sequence := 0; base_sequence := U32_MAX; received_packets := 0;
  report_prior := (0, 0); recent_network_metrics := None; bundle_receive_bytes := 0; video_receive_bytes := 0;
  reception_timing := ReceptionTiming.default; ice_ping := None; video_ping := None; bundle_ping := None;
  keyframe_needed := false; pending_nacks := []; last_sender_frame := 0; completed_frame_bytes := 0;
  pending_frame_acks := []; frame_packet_timings := [];
  frame_stage_timings := FrameStageTimingsAccumulator.default |}.

Definition record_socket_receive (self : t) (socket : StreamSocket) (peer_matches authenticated : bool) (length : Z) : t :=
  if negb peer_matches || negb authenticated then self else
  match socket with
  | BundleSocket => self <| bundle_receive_bytes := saturating_add64 (bundle_receive_bytes self) length |>
  | VideoSocket => self <| video_receive_bytes := saturating_add64 (video_receive_bytes self) length |>
  end.

Definition socket_receive_bytes (self : t) : Z :=
  saturating_add64 (bundle_receive_bytes self) (video_receive_bytes self).

(** [pair] holds the two statistics of the ICE agent the code reads: the
    responses received and the current round trip time. *)
Definition update_ice_ping (self : t) (pair : option (Z * option Z)) (previous_responses now : Z) : t * Z :=
  match pair with
  | None => (self <| ice_ping := None |>, 0)
  | Some (responses_received, current_round_trip_time) =>
      if negb (responses_received =? previous_responses)
      then (self <| ice_ping := (fun elapsed => (now, elapsed)) <$> current_round_trip_time |>, responses_received)
      else (self, previous_responses)
  end.

Definition publish_ping (self : t) (video : bool) (now elapsed : Z) : t :=
  if video then self <| video_ping := Some (now, elapsed) |> else self <| bundle_ping := Some (now, elapsed) |>.

(** One candidate of the [find_map]. *)
Definition fresh_ping (now : Z) (sample : option (Z * Z)) : option Z :=
  match sample with
  | Some (received, elapsed) => if saturating_duration_since now received <? STREAM_PING_TIMEOUT then Some elapsed else None
  | None => None
  end.
Definition ping (self : t) (now : Z) : option Z :=
  match fresh_ping now (ice_ping self) with
  | Some elapsed => Some elapsed
  | None => match fresh_ping now (video_ping self) with
            | Some elapsed => Some elapsed
            | None => fresh_ping now (bundle_ping self)
            end
  end.
Definition ping_ms (self : t) (now : Z) : option f64 :=
  (fun elapsed => F64.mul (F64.as_secs_f64 elapsed) F64.thousand) <$> ping self now.

(** The snapshot [publish_stream_packet] leaves for the QoS report. *)
Definition next_snapshot (previous : option QosPacketSnapshot) (ssrc highest_sequence : Z) : QosPacketSnapshot :=
  let fresh := {| qs_ssrc := ssrc; qs_base := highest_sequence; qs_highest := highest_sequence; qs_received := 1 |} in
  match previous with
  | Some previous =>
      if (qs_ssrc previous =? ssrc) && (qs_received previous <? U32_MAX)
      then {| qs_ssrc := qs_ssrc previous; qs_base := qs_base previous;
              qs_highest := Z.max (qs_highest previous) highest_sequence; qs_received := qs_received previous + 1 |}
      else fresh
  | None => fresh
  end.

(** Interarrival jitter (RFC 3550); the first packet only sets the origin. *)
Definition update_jitter (timing : ReceptionTiming.t) (rtp_timestamp now : Z) : ReceptionTiming.t :=
  match ReceptionTiming.first_arrival timing with
  | None =>
      let timing := timing <| ReceptionTiming.first_arrival := Some now |> in
      let timing := timing <| ReceptionTiming.first_rtp_timestamp := rtp_timestamp |> in
      timing <| ReceptionTiming.last_rtp_timestamp := rtp_timestamp |>
  | Some first_arrival =>
      if ReceptionTiming.last_rtp_timestamp timing =? rtp_timestamp then timing else
      let arrival_ticks := F64.to_i64 (F64.mul (F64.as_secs_f64 (saturating_duration_since now first_arrival)) (F64.of_Z 90000)) in
      let rtp_ticks := as_u32 (rtp_timestamp - ReceptionTiming.first_rtp_timestamp timing) in
      let transit := arrival_ticks - rtp_ticks in
      let delta := F64.of_Z (Z.abs (transit - ReceptionTiming.last_transit timing)) in
      let timing := timing <| ReceptionTiming.last_rtp_timestamp := rtp_timestamp |> in
      let timing := timing <| ReceptionTiming.last_transit := transit |> in
      timing <| ReceptionTiming.jitter := F64.add (ReceptionTiming.jitter timing)
                  (F64.div (F64.sub delta (ReceptionTiming.jitter timing)) (F64.of_Z 16)) |>
  end.

(** Another stream: the timing starts over. *)
Definition rebind_timing (timing : ReceptionTiming.t) (ssrc : Z) : ReceptionTiming.t :=
  if match ReceptionTiming.qos_packet_snapshot timing with
     | Some previous => negb (qs_ssrc previous =? ssrc)
     | None => false
     end
  then
    let timing := timing <| ReceptionTiming.bandwidth := BandwidthEstimator.default |> in
    let timing := timing <| ReceptionTiming.first_arrival := None |> in
    let timing := timing <| ReceptionTiming.latest_rtp_timestamp := None |> in
    let timing := timing <| ReceptionTiming.jitter := F64.zero |> in
    timing <| ReceptionTiming.last_transit := 0 |>
  else timing.

(** What the receiver knows of a video packet: frame number, sequence, bytes,
    start, end, parity. *)
Definition video_sample : Type := Z * Z * Z * bool * bool * bool.

Definition observe_video (timing : ReceptionTiming.t) (video : option video_sample) (rtp_timestamp now : Z)
    : outcome Empty_set ReceptionTiming.t :=
  match video with
  | None => mret timing
  | Some (frame_number, sequence, bytes, started, ended, parity) =>
      if (parity : bool)
      then mret (timing <| ReceptionTiming.bandwidth :=
             BandwidthEstimator.observe_parity (ReceptionTiming.bandwidth timing) frame_number sequence |>)
      else
        bandwidth ← BandwidthEstimator.observe (ReceptionTiming.bandwidth timing)
          {| sample_frame_number := frame_number; sample_sequence := sequence; sample_timestamp := rtp_timestamp;
             sample_bytes := bytes; sample_started := started; sample_ended := ended; sample_received_at := now |};
        mret (timing <| ReceptionTiming.bandwidth := bandwidth |>)
  end.

Definition publish_stream_packet (self : t) (ssrc highest rtp_timestamp now : Z) (video : option video_sample)
    : outcome Empty_set t :=
  let self := self <| video_ssrc := ssrc |> in
  let self := if base_sequence self =? U32_MAX then self <| base_sequence := highest |> else self in
  let self := self <| highest_sequence := Z.max (highest_sequence self) highest |> in
  let self := self <| received_packets := as_u32 (received_packets self + 1) |> in
  let timing := rebind_timing (reception_timing self) ssrc in
  timing ← observe_video timing video rtp_timestamp now;
  let timing := timing <| ReceptionTiming.qos_packet_snapshot :=
    Some (next_snapshot (ReceptionTiming.qos_packet_snapshot timing) ssrc highest) |> in
  let timing :=
    if match ReceptionTiming.latest_rtp_timestamp timing with
       | None => true
       | Some latest => 0 <? as_i32 (rtp_timestamp - latest)
       end
    then timing <| ReceptionTiming.latest_rtp_timestamp := Some rtp_timestamp |> else timing in
  mret (self <| reception_timing := update_jitter timing rtp_timestamp now |>).

Definition request_keyframe (self : t) : t := self <| keyframe_needed := true |>.

Definition publish_completed_frame (self : t) (frame : EncodedVideoAccessUnit) : t :=
  let self := self <| last_sender_frame := au_frame_index frame |> in
  let self := self <| completed_frame_bytes := as_u64 (completed_frame_bytes self + zlen (au_bytes frame)) |> in
  if au_keyframe frame then self <| keyframe_needed := false |> else self.

Definition publish_assembled_frame (self : t) (frame_number assembled_at : Z) : t :=
  self <| frame_stage_timings :=
    FrameStageTimingsAccumulator.record_assembly (frame_stage_timings self) frame_number assembled_at |>.

Definition is_timing_of (frame_number : Z) (entry : FramePacketTiming.t) : bool :=
  FramePacketTiming.frame_number entry =? frame_number.

Definition record_frame_packet (self : t) (frame_number received_at : Z) : t :=
  match update_last (is_timing_of frame_number)
          (fun timing => if FramePacketTiming.assembled timing then timing
             else timing <| FramePacketTiming.first_at := Z.min (FramePacketTiming.first_at timing) received_at |>)
          (frame_packet_timings self) with
  | Some timings => self <| frame_packet_timings := timings |>
  | None => self <| frame_packet_timings := push_bounded MAX_PENDING_FRAME_ACKS (frame_packet_timings self)
      {| FramePacketTiming.frame_number := frame_number; FramePacketTiming.first_at := received_at;
         FramePacketTiming.assembled := false |} |>
  end.

Definition complete_frame_packets (self : t) (frame_number : Z) : t :=
  match update_last (is_timing_of frame_number) (fun timing => timing <| FramePacketTiming.assembled := true |>)
          (frame_packet_timings self) with
  | Some timings => self <| frame_packet_timings := timings |>
  | None => self
  end.

Definition retire_undelivered_frame (self : t) (frame_number : Z) : t :=
  let self := self <| frame_packet_timings :=
    List.filter (fun entry => negb (is_timing_of frame_number entry)) (frame_packet_timings self) |> in
  self <| frame_stage_timings :=
    FrameStageTimingsAccumulator.retire_undelivered (frame_stage_timings self) frame_number |>.

Definition publish_accepted_frame (self : t) (frame_number bytes accepted_at : Z) : t :=
  let '(packet_timing, self) :=
    match take_first (fun entry => is_timing_of frame_number entry && FramePacketTiming.assembled entry)
            (frame_packet_timings self) with
    | Some (timing, timings) => (Some timing, self <| frame_packet_timings := timings |>)
    | None => (None, self)
    end in
  let '(stages, assembled_at) :=
    FrameStageTimingsAccumulator.record_admission (frame_stage_timings self) frame_number accepted_at in
  let self := self <| frame_stage_timings := stages |> in
  self <| pending_frame_acks := push_bounded MAX_PENDING_FRAME_ACKS (pending_frame_acks self)
    {| CompletedFrameFeedback.frame_number := frame_number; CompletedFrameFeedback.bytes := bytes;
       CompletedFrameFeedback.accepted_at := accepted_at; CompletedFrameFeedback.assembled_at := assembled_at;
       CompletedFrameFeedback.packet_timing := packet_timing |} |>.

Definition last_assembled_frame_at (self : t) : option Z :=
  FrameStageTimingsAccumulator.last_assembled_at (frame_stage_timings self).

(** [now] is the [Instant::now()] the code reads. *)
Definition reset_frame_stage_epoch (self : t) (now : Z) : t :=
  let self := self <| frame_stage_timings := FrameStageTimingsAccumulator.reset_epoch (frame_stage_timings self) now |> in
  let timing := reception_timing self in
  self <| reception_timing := (timing <| ReceptionTiming.bandwidth := BandwidthEstimator.default |>) |>.

Definition take_completed_frame (self : t) : t * option CompletedFrameFeedback.t :=
  match pending_frame_acks self with
  | [] => (self, None)
  | frame :: rest => (self <| pending_frame_acks := rest |>, Some frame)
  end.

Definition completed_frame_snapshot (self : t) : Z * Z :=
  (last_sender_frame self, as_u32 (completed_frame_bytes self)).

(** The loss since the previous report, in hundredths of a percent. *)
Definition interval_loss (prior current : option QosPacketSnapshot) : Z :=
  match prior, current with
  | Some prior, Some current =>
      if (qs_ssrc prior =? qs_ssrc current) && (qs_base prior =? qs_base current)
         && (qs_highest prior <=? qs_highest current) && (qs_received prior <=? qs_received current)
      then
        let expected := qs_highest current - qs_highest prior in
        let received := qs_received current - qs_received prior in
        if expected =? 0 then 0 else as_u16 (saturating_sub expected received * 10000 / expected)
      else 0
  | _, _ => 0
  end.

Definition qos_report_at (self : t) (previous : QosReport) (elapsed now : Z) : outcome Empty_set QosReport :=
  let '(sender_frame_number, bytes_received) := completed_frame_snapshot self in
  let packet_snapshot := ReceptionTiming.qos_packet_snapshot (reception_timing self) in
  bandwidth ← BandwidthEstimator.report (ReceptionTiming.bandwidth (reception_timing self)) now;
  mret {|
    sequence := as_u32 (sequence previous + 1);
    Control.sender_frame_number := sender_frame_number;
    Control.bytes_received := bytes_received;
    loss_per_ten_thousand := interval_loss (Control.packet_snapshot previous) packet_snapshot;
    client_time_90khz := as_u32 (elapsed / 1000000 * 90);
    Control.packet_snapshot := packet_snapshot;
    Control.bandwidth := bandwidth
  |}.

Definition stream_snapshot (self : t) : option (Z * Z) :=
  if negb (video_ssrc self =? 0) then Some (video_ssrc self, highest_sequence self) else None.

(** [jitter.clamp(0.0, f64::from(u32::MAX)) as u32] *)
Definition jitter_ticks (self : t) : Z :=
  F64.to_u32 (F64.clamp F64.zero (F64.of_Z U32_MAX) (ReceptionTiming.jitter (reception_timing self))).

Definition report_snapshot (self : t) (update_interval : bool) : t * option RtcpReportBlock :=
  let media_ssrc := video_ssrc self in
  let base := base_sequence self in
  if (media_ssrc =? 0) || (base =? U32_MAX) then (self, None) else
  let highest_sequence := highest_sequence self in
  let received := received_packets self in
  let expected := as_u32 (as_u32 (highest_sequence - base) + 1) in
  let cumulative_lost := clamp (- 0x800000) 0x7fffff (expected - received) in
  let '(self, fraction_lost) :=
    if update_interval then
      let expected_interval := as_u32 (expected - (report_prior self).1) in
      let received_interval := as_u32 (received - (report_prior self).2) in
      let self := self <| report_prior := (expected, received) |> in
      let lost_interval := saturating_sub expected_interval received_interval in
      (self, if expected_interval =? 0 then 0 else Z.min (Z.shiftl lost_interval 8 / expected_interval) 255)
    else (self, 0) in
  (self, Some {| Rtcp.media_ssrc := media_ssrc; Rtcp.fraction_lost := fraction_lost;
                 Rtcp.cumulative_lost := cumulative_lost; Rtcp.highest_sequence := highest_sequence;
                 Rtcp.jitter := jitter_ticks self |}).

Definition network_metrics (self : t) : option (f64 * f64) :=
  report ← (report_snapshot self false).2;
  let base := base_sequence self in
  let expected := Z.min U32_MAX (saturating_sub (Rtcp.highest_sequence report) base + 1) in
  let loss := F64.div (F64.mul (F64.of_Z (Z.max (cumulative_lost report) 0)) (F64.of_Z 100)) (F64.of_Z (Z.max expected 1)) in
  Some (F64.div (F64.of_Z (Rtcp.jitter report)) (F64.of_Z 90), F64.clamp F64.zero (F64.of_Z 100) loss).

Definition read_counters (self : t) : NetworkCounters.t := {|
  NetworkCounters.ssrc := video_ssrc self; NetworkCounters.base := base_sequence self;
  NetworkCounters.highest := highest_sequence self; NetworkCounters.received := received_packets self |}.

(** [again] is the second reading of the counters, which differs from the first
    when the receiver published a packet in between. *)
Definition sample_network_metrics (self : t) (again : NetworkCounters.t) (now : Z) : t * option (f64 * f64) :=
  let counters := read_counters self in
  if negb (bool_decide (counters = again)) then (self, None) else
  let '(recent, loss) := RecentNetworkMetrics.sample (recent_network_metrics self) now counters in
  let self := self <| recent_network_metrics := recent |> in
  match loss with
  | None => (self, None)
  | Some loss => (self, Some (F64.div (F64.of_Z (jitter_ticks self)) (F64.of_Z 90), loss))
  end.

Definition keyframe_request_pending (self : t) : bool := keyframe_needed self.

Definition keyframe_request_routes (self : t) (now last_attempt : Z) (rtcp_open control_open : bool) : bool * bool :=
  if negb (keyframe_request_pending self) || (saturating_duration_since now last_attempt <? KEYFRAME_REQUEST_COOLDOWN)
  then (false, false)
  else (rtcp_open && bool_decide (is_Some (stream_snapshot self)), control_open).

(** The queue of [Nack] inside the state. *)
Definition on_nacks {A} (f : list range -> list range * A) (self : t) : t * A :=
  let '(pending, a) := f (pending_nacks self) in (self <| pending_nacks := pending |>, a).
End NvstFeedbackState.

Import NvstFeedbackState.

(** ** Steps *)

(** What the threads that share the state do to it. *)
Inductive feedback_event :=
  | SocketReceive (socket : StreamSocket) (peer_matches authenticated : bool) (length : Z)
  | IcePing (stats : option (Z * option Z)) (previous_responses now : Z)
  | StreamPing (video : bool) (now elapsed : Z)
  | StreamPacket (ssrc highest rtp_timestamp now : Z) (video : option video_sample)
  | KeyframeRequest
  | CompletedFrame (frame : EncodedVideoAccessUnit)
  | AssembledFrame (frame_number assembled_at : Z)
  | FramePacket (frame_number received_at : Z)
  | FramePacketsDone (frame_number : Z)
  | UndeliveredFrame (frame_number : Z)
  | AcceptedFrame (frame_number bytes accepted_at : Z)
  | StageEpochReset (now : Z)
  | CompletedFrameTaken
  | FrameAckQueued (assembled_at : option Z) (accepted_at now : Z)
  | ReceiverReport (update_interval : bool)
  | NetworkSample (again : NetworkCounters.t) (now : Z)
  | Nacks (operation : Nack.op).

Definition feedback_step (s : t) (e : feedback_event) : outcome Empty_set t :=
  match e with
  | SocketReceive socket peer_matches authenticated length => mret (record_socket_receive s socket peer_matches authenticated length)
  | IcePing stats previous_responses now => mret (update_ice_ping s stats previous_responses now).1
  | StreamPing video now elapsed => mret (publish_ping s video now elapsed)
  | StreamPacket ssrc highest rtp_timestamp now video => publish_stream_packet s ssrc highest rtp_timestamp now video
  | KeyframeRequest => mret (request_keyframe s)
  | CompletedFrame frame => mret (publish_completed_frame s frame)
  | AssembledFrame frame_number assembled_at => mret (publish_assembled_frame s frame_number assembled_at)
  | FramePacket frame_number received_at => mret (record_frame_packet s frame_number received_at)
  | FramePacketsDone frame_number => mret (complete_frame_packets s frame_number)
  | UndeliveredFrame frame_number => mret (retire_undelivered_frame s frame_number)
  | AcceptedFrame frame_number bytes accepted_at => mret (publish_accepted_frame s frame_number bytes accepted_at)
  | StageEpochReset now => mret (reset_frame_stage_epoch s now)
  | CompletedFrameTaken => mret (take_completed_frame s).1
  | FrameAckQueued assembled_at accepted_at now => mret (s <| frame_stage_timings :=
      FrameStageTimingsAccumulator.record_ack_queued (frame_stage_timings s) assembled_at accepted_at now |>)
  | ReceiverReport update_interval => mret (report_snapshot s update_interval).1
  | NetworkSample again now => mret (sample_network_metrics s again now).1
  | Nacks operation => mret (s <| pending_nacks := Nack.run_op (pending_nacks s) operation |>)
  end.

(** The arguments are in the range of their Rust types. *)
Definition event_typed (e : feedback_event) : Prop :=
  match e with
  | SocketReceive _ _ _ length => 0 <= length
  | StreamPacket ssrc highest _ _ _ => is_u32 ssrc /\ is_u32 highest
  | CompletedFrame frame => is_u32 (au_frame_index frame)
  | AcceptedFrame frame_number bytes _ => is_u32 frame_number /\ is_u32 bytes
  | Nacks operation => Nack.op_ok operation
  | _ => True
  end.

(** ** Invariant *)

Definition snapshot_typed (q : QosPacketSnapshot) : Prop :=
  is_u32 (qs_ssrc q) /\ 0 <= qs_base q <= qs_highest q /\ is_u32 (qs_highest q) /\ 1 <= qs_received q <= U32_MAX.

Record timing_ok (timing : ReceptionTiming.t) : Prop := {
  to_bandwidth : estimator_ok (ReceptionTiming.bandwidth timing);
  to_snapshot : forall q, ReceptionTiming.qos_packet_snapshot timing = Some q -> snapshot_typed q
}.

Record feedback_ok (s : t) : Prop := {
  fo_ssrc : is_u32 (video_ssrc s);
  fo_highest : is_u32 (highest_sequence s);
  fo_base : is_u32 (base_sequence s);
  fo_order : base_sequence s = U32_MAX \/ base_sequence s <= highest_sequence s;
  fo_received : is_u32 (received_packets s);
  fo_prior : is_u32 (report_prior s).1 /\ is_u32 (report_prior s).2;
  fo_sockets : is_u64 (bundle_receive_bytes s) /\ is_u64 (video_receive_bytes s);
  fo_timing : timing_ok (reception_timing s);
  fo_nacks : Nack.wf (pending_nacks s);
  fo_frame : is_u32 (last_sender_frame s);
  fo_acks : zlen (pending_frame_acks s) <= MAX_PENDING_FRAME_ACKS;
  fo_frames : NoDup (map FramePacketTiming.frame_number (frame_packet_timings s));
  fo_timings : zlen (frame_packet_timings s) <= MAX_PENDING_FRAME_ACKS;
  fo_stages : stages_bounded (frame_stage_timings s)
}.

Lemma default_timing_ok : timing_ok ReceptionTiming.default.
Proof. constructor; [apply default_ok|done]. Qed.
Lemma default_feedback_ok : feedback_ok default.
Proof.
  constructor; cbn [default video_ssrc highest_sequence base_sequence received_packets report_prior bundle_receive_bytes
    video_receive_bytes reception_timing pending_nacks last_sender_frame pending_frame_acks frame_packet_timings
    frame_stage_timings fst snd map]; unfold is_u32, is_u64, U32_MAX, MAX_PENDING_FRAME_ACKS; try lia.
  - apply default_timing_ok.
  - constructor.
  - change (zlen []) with 0. lia.
  - constructor.
  - change (zlen []) with 0. lia.
  - apply default_bounded.
Qed.

Lemma next_snapshot_typed previous ssrc highest :
  (forall q, previous = Some q -> snapshot_typed q) -> is_u32 ssrc -> is_u32 highest ->
  snapshot_typed (next_snapshot previous ssrc highest).
Proof.
  intros Hq Hs Hh. unfold next_snapshot. unfold snapshot_typed, is_u32, U32_MAX in *.
  destruct previous as [q|]; [|cbn; lia]. specialize (Hq q eq_refl).
  destruct (_ && _) eqn:E; cbn; zbool; lia.
Qed.

Lemma update_jitter_ok timing rtp_timestamp now : timing_ok timing -> timing_ok (update_jitter timing rtp_timestamp now).
Proof.
  intros [H1 H2]. unfold update_jitter. destruct (ReceptionTiming.first_arrival timing); [|by constructor].
  destruct (_ =? _); by constructor.
Qed.
Lemma rebind_timing_ok timing ssrc : timing_ok timing -> timing_ok (rebind_timing timing ssrc).
Proof.
  intros [H1 H2]. unfold rebind_timing. destruct (match _ with Some _ => _ | None => _ end); [|by constructor].
  constructor; [apply default_ok|done].
Qed.
Lemma observe_video_ok timing video rtp_timestamp now :
  timing_ok timing ->
  exists timing', observe_video timing video rtp_timestamp now = Ok timing' /\ timing_ok timing'
    /\ ReceptionTiming.qos_packet_snapshot timing' = ReceptionTiming.qos_packet_snapshot timing.
Proof.
  intros [H1 H2]. unfold observe_video. destruct video as [[[[[[f q] b] st] en] []]|].
  - eexists. split; [reflexivity|]. split; [|done]. constructor; [|done]. by apply observe_parity_spec.
  - destruct (observe_ok _ {| sample_frame_number := f; sample_sequence := q; sample_timestamp := rtp_timestamp;
      sample_bytes := b; sample_started := st; sample_ended := en; sample_received_at := now |} H1) as (bw & -> & Hbw).
    obind. eexists. split; [reflexivity|]. split; [|done]. by constructor.
  - eexists. split; [reflexivity|]. by split; [constructor|].
Qed.

(** The counters after a packet; the rest of the state but the timing is kept. *)
Lemma publish_stream_packet_spec s ssrc highest rtp_timestamp now video :
  timing_ok (reception_timing s) -> is_u32 ssrc -> is_u32 highest ->
  exists timing, timing_ok timing
    /\ ReceptionTiming.qos_packet_snapshot timing
       = Some (next_snapshot (ReceptionTiming.qos_packet_snapshot (reception_timing s)) ssrc highest)
    /\ publish_stream_packet s ssrc highest rtp_timestamp now video
       = Ok ((((( s <| video_ssrc := ssrc |>)
          <| base_sequence := if base_sequence s =? U32_MAX then highest else base_sequence s |>)
          <| highest_sequence := Z.max (highest_sequence s) highest |>)
          <| received_packets := as_u32 (received_packets s + 1) |>)
          <| reception_timing := timing |>).
Proof.
  intros Ht Hs Hh. unfold publish_stream_packet.
  destruct (observe_video_ok (rebind_timing (reception_timing s) ssrc) video rtp_timestamp now) as (timing & Ho & Ht' & Hq);
    [by apply rebind_timing_ok|].
  assert (Hsnap : ReceptionTiming.qos_packet_snapshot timing = ReceptionTiming.qos_packet_snapshot (reception_timing s)).
  { rewrite Hq. unfold rebind_timing. by destruct (match _ with Some _ => _ | None => _ end). }
  set (timing2 := timing <| ReceptionTiming.qos_packet_snapshot :=
    Some (next_snapshot (ReceptionTiming.qos_packet_snapshot timing) ssrc highest) |>).
  set (timing3 := if match ReceptionTiming.latest_rtp_timestamp timing2 with None => true | Some latest => 0 <? as_i32 (rtp_timestamp - latest) end
    then timing2 <| ReceptionTiming.latest_rtp_timestamp := Some rtp_timestamp |> else timing2).
  assert (Hok3 : timing_ok timing3 /\ ReceptionTiming.qos_packet_snapshot timing3
      = Some (next_snapshot (ReceptionTiming.qos_packet_snapshot (reception_timing s)) ssrc highest)).
  { assert (timing_ok timing2 /\ ReceptionTiming.qos_packet_snapshot timing2
      = Some (next_snapshot (ReceptionTiming.qos_packet_snapshot (reception_timing s)) ssrc highest)) as [[H1 H2] H3].
    { destruct Ht' as [H1 H2]. split; [|unfold timing2; cbn; by rewrite Hsnap]. constructor; [done|].
      intros q [= <-]. by apply next_snapshot_typed. }
    unfold timing3. destruct (match _ with Some _ => _ | None => _ end); (split; [by constructor|done]). }
  destruct Hok3 as [Hok3 Hsnap3].
  exists (update_jitter timing3 rtp_timestamp now). split; [by apply update_jitter_ok|]. split.
  - rewrite <- Hsnap3. unfold update_jitter. destruct (ReceptionTiming.first_arrival timing3); [|done]. by destruct (_ =? _).
  - replace (reception_timing _) with (reception_timing s) by (by destruct (_ =? U32_MAX)).
    rewrite Ho. obind. fold timing2. fold timing3. destruct s; cbn. by destruct (_ =? U32_MAX).
Qed.

Lemma publish_stream_packet_ok s ssrc highest rtp_timestamp now video :
  feedback_ok s -> is_u32 ssrc -> is_u32 highest ->
  exists s', publish_stream_packet s ssrc highest rtp_timestamp now video = Ok s' /\ feedback_ok s'.
Proof.
  intros Hok Hs Hh. pose proof (fo_timing _ Hok) as Ht.
  destruct (publish_stream_packet_spec s ssrc highest rtp_timestamp now video Ht Hs Hh) as (timing & Htm & _ & ->).
  eexists. split; [reflexivity|]. destruct Hok. unfold is_u32, U32_MAX in *.
  constructor; cbn; unfold const, is_u32, U32_MAX; try done.
  - lia.
  - by destruct (_ =? _).
  - destruct (Z.eqb_spec (base_sequence s) 0xffffffff); lia.
  - apply as_u32_range.
Qed.

(** The frame timings hold one entry per frame number. *)
Lemma update_timing_frames f g q q' :
  (forall r, FramePacketTiming.frame_number (g r) = FramePacketTiming.frame_number r) ->
  update_last (is_timing_of f) g q = Some q' ->
  map FramePacketTiming.frame_number q' = map FramePacketTiming.frame_number q /\ zlen q' = zlen q.
Proof.
  intros Hg (pre & r & post & -> & -> & _)%update_last_spec. rewrite !map_app, !zlen_app, !zlen_cons. cbn [map].
  by rewrite Hg.
Qed.
Lemma NoDup_tail {A} (l : list A) : NoDup l -> NoDup (tail l).
Proof. destruct l as [|x l]; [done|]. by intros [_ ?]%NoDup_cons. Qed.
Lemma map_tail {A B} (f : A -> B) l : map f (tail l) = tail (map f l).
Proof. by destruct l. Qed.
Lemma elem_of_tail {A} (x : A) l : x ∈ tail l -> x ∈ l.
Proof. destruct l; [done|]. intros. by right. Qed.
Lemma NoDup_filter_map {A B} (f : A -> B) (p : A -> bool) l : NoDup (map f l) -> NoDup (map f (List.filter p l)).
Proof.
  induction l as [|x l IH]; [done|]. cbn [map List.filter]. intros [Hx Hl]%NoDup_cons.
  destruct (p x); [|by apply IH]. cbn [map]. apply NoDup_cons. split; [|by apply IH].
  intros (y & Hy & Hin)%list_elem_of_In%in_map_iff. apply List.filter_In in Hin as [Hin _].
  apply Hx. rewrite <- Hy. by apply list_elem_of_In, List.in_map.
Qed.
Lemma zlen_filter {A} (p : A -> bool) l : zlen (List.filter p l) <= zlen l.
Proof. unfold zlen. pose proof (List.filter_length_le p l). lia. Qed.

Lemma record_frame_packet_ok s f at_ : feedback_ok s -> feedback_ok (record_frame_packet s f at_).
Proof.
  intros Hok. unfold record_frame_packet. destruct (update_last _ _ _) as [q|] eqn:E.
  - apply update_timing_frames in E as [Hm Hl]; [|intros r; by destruct (FramePacketTiming.assembled r)].
    destruct Hok. constructor; cbn; unfold const; try done; [by rewrite Hm|lia].
  - pose proof (update_last_None _ _ _ E) as Hnone. destruct Hok. constructor; cbn; unfold const; try done.
    + unfold push_bounded. rewrite map_app. cbn [map]. apply NoDup_app.
      assert (Hf : f ∉ map FramePacketTiming.frame_number (frame_packet_timings s)).
      { intros (r & Hr & Hin%list_elem_of_In)%list_elem_of_In%in_map_iff. rewrite Forall_forall in Hnone.
        specialize (Hnone r Hin). unfold is_timing_of in Hnone. lia. }
      split_and!; [| |apply NoDup_singleton].
      * destruct (_ =? _); [rewrite map_tail; by apply NoDup_tail|done].
      * intros g Hg ->%list_elem_of_singleton. apply Hf. cbn. destruct (_ =? _); [|done].
        rewrite map_tail in Hg. by apply elem_of_tail in Hg.
    + apply push_bounded_length; [unfold MAX_PENDING_FRAME_ACKS; lia|done].
Qed.
Lemma complete_frame_packets_ok s f : feedback_ok s -> feedback_ok (complete_frame_packets s f).
Proof.
  intros Hok. unfold complete_frame_packets. destruct (update_last _ _ _) as [q|] eqn:E; [|done].
  apply update_timing_frames in E as [Hm Hl]; [|done].
  destruct Hok. constructor; cbn; unfold const; try done; [by rewrite Hm|lia].
Qed.
Lemma retire_undelivered_frame_ok s f : feedback_ok s -> feedback_ok (retire_undelivered_frame s f).
Proof.
  intros []. unfold retire_undelivered_frame. constructor; cbn; unfold const; try done.
  - by apply NoDup_filter_map.
  - pose proof (zlen_filter (fun entry => negb (is_timing_of f entry)) (frame_packet_timings s)). lia.
  - by apply retire_undelivered_bounded.
Qed.
Lemma publish_accepted_frame_ok s f bytes at_ : feedback_ok s -> feedback_ok (publish_accepted_frame s f bytes at_).
Proof.
  intros Hok. unfold publish_accepted_frame.
  set (taken := match take_first _ _ with Some (timing, timings) => _ | None => _ end).
  assert (Ht : feedback_ok taken.2 /\ frame_stage_timings taken.2 = frame_stage_timings s).
  { unfold taken. destruct (take_first _ _) as [[r q]|] eqn:E; [|done]. split; [|done].
    apply take_first_Some in E as (pre & post & Hq & -> & _).
    destruct Hok. constructor; cbn; unfold const; try done.
    - rewrite Hq in fo_frames0. rewrite map_app in *. cbn [map] in fo_frames0.
      rewrite <- Permutation_middle in fo_frames0. by apply NoDup_cons in fo_frames0 as [_ ?].
    - rewrite Hq in fo_timings0. rewrite zlen_app in *. rewrite zlen_cons in fo_timings0. lia. }
  destruct taken as [timing s1]. cbn [snd] in Ht. destruct Ht as [Hok1 Hst].
  pose proof (record_admission_bounded _ f at_ (fo_stages _ Hok1)) as Hsb.
  destruct (FrameStageTimingsAccumulator.record_admission _ _ _) as [stages assembled_at]. cbn [fst] in Hsb.
  destruct Hok1. constructor; cbn; unfold const; try done.
  apply push_bounded_length; [unfold MAX_PENDING_FRAME_ACKS; lia|done].
Qed.

Lemma report_snapshot_spec s update :
  feedback_ok s ->
  feedback_ok (report_snapshot s update).1
  /\ forall block, (report_snapshot s update).2 = Some block -> report_typed block.
Proof.
  intros Hok. unfold report_snapshot. destruct (_ || _); [done|].
  pose proof (fo_ssrc _ Hok). pose proof (fo_highest _ Hok).
  assert (Hcum : forall x, - 2 ^ 23 <= clamp (- 0x800000) 0x7fffff x < 2 ^ 23)
    by (intros x; pose proof (clamp_range (- 0x800000) 0x7fffff x ltac:(lia)); lia).
  destruct update; cbn [fst snd].
  - split.
    + destruct Hok. constructor; cbn; unfold const; try done. split; [apply as_u32_range|done].
    + intros block [= <-]. constructor; cbn; try done; [|apply to_u32_range].
      destruct (Z.eqb_spec (as_u32 (as_u32 (as_u32 (highest_sequence s - base_sequence s) + 1) - (report_prior s).1)) 0);
        [unfold is_u8; lia|].
      set (e := as_u32 (_ - _)) in *. set (l := saturating_sub _ _).
      pose proof (as_u32_range (as_u32 (as_u32 (highest_sequence s - base_sequence s) + 1) - (report_prior s).1)) as He.
      fold e in He. unfold is_u32, is_u8 in *.
      assert (0 <= Z.shiftl l 8) by (apply Z.shiftl_nonneg, saturating_sub_nonneg).
      pose proof (Z.div_pos (Z.shiftl l 8) e ltac:(lia) ltac:(lia)). lia.
  - split; [done|]. intros block [= <-]. constructor; cbn; try done; apply to_u32_range.
Qed.

Lemma sample_network_metrics_ok s again now : feedback_ok s -> feedback_ok (sample_network_metrics s again now).1.
Proof.
  intros Hok. unfold sample_network_metrics. destruct (negb _); [done|].
  destruct (RecentNetworkMetrics.sample _ _ _) as [recent [loss|]]; destruct Hok; by constructor.
Qed.

Lemma feedback_step_ok s e :
  feedback_ok s -> event_typed e -> exists s', feedback_step s e = Ok s' /\ feedback_ok s'.
Proof.
  intros Hok He. destruct e; cbn [feedback_step event_typed] in *; try (eexists; split; [reflexivity|]).
  - unfold record_socket_receive. destruct (_ || _); [done|]. pose proof (fo_sockets _ Hok) as [H1 H2].
    assert (Hs : forall b, is_u64 b -> is_u64 (saturating_add64 b length))
      by (intros b; unfold is_u64, saturating_add64, U64_MAX; lia).
    destruct socket; destruct Hok; constructor; try done; cbn; unfold const; split; auto.
  - unfold update_ice_ping. destruct stats as [[r rtt]|]; [destruct (negb _)|]; destruct Hok; by constructor.
  - unfold publish_ping. destruct video; destruct Hok; by constructor.
  - destruct He. by apply publish_stream_packet_ok.
  - destruct Hok. by constructor.
  - unfold publish_completed_frame. destruct (au_keyframe frame); destruct Hok; by constructor.
  - unfold publish_assembled_frame. pose proof (fo_stages _ Hok). destruct Hok. constructor; try done.
    by apply record_assembly_bounded.
  - by apply record_frame_packet_ok.
  - by apply complete_frame_packets_ok.
  - by apply retire_undelivered_frame_ok.
  - by apply publish_accepted_frame_ok.
  - unfold reset_frame_stage_epoch. pose proof (fo_timing _ Hok) as [_ Hsnap].
    destruct Hok. constructor; try done; [constructor; [apply default_ok|done]|by apply reset_epoch_bounded].
  - unfold take_completed_frame. destruct (pending_frame_acks s) as [|x q] eqn:E; [done|].
    destruct Hok. rewrite E, zlen_cons in *. constructor; cbn; unfold const; try done. lia.
  - destruct Hok. constructor; try done. by apply record_ack_queued_bounded.
  - by apply report_snapshot_spec.
  - by apply sample_network_metrics_ok.
  - destruct Hok. constructor; try done. by apply Nack.run_op_wf.
Qed.

Lemma feedback_run_ok es s :
  feedback_ok s -> Forall event_typed es -> exists s', ofold feedback_step es s = Ok s' /\ feedback_ok s'.
Proof.
  intros Hok Hes. revert s Hok. induction Hes as [|e es He _ IH]; intros s Hok; cbn [ofold]; [by exists s|].
  destruct (feedback_step_ok s e Hok He) as (s1 & -> & Hok1). obind. by apply IH.
Qed.

(** ** Reports *)

Lemma interval_loss_range prior current :
  (forall q, current = Some q -> snapshot_typed q) -> 0 <= interval_loss prior current <= 10000.
Proof.
  intros Hc. unfold interval_loss. destruct prior as [p|]; [|lia]. destruct current as [q|]; [|lia].
  destruct (_ && _) eqn:E; [|lia]. zbool.
  set (expected := qs_highest q - qs_highest p). set (received := qs_received q - qs_received p).
  destruct (Z.eqb_spec expected 0); [lia|].
  assert (H : 0 <= saturating_sub expected received * 10000 / expected <= 10000).
  { split; [apply Z.div_pos; unfold saturating_sub; lia|].
    apply Z.div_le_upper_bound; [lia|]. unfold saturating_sub. nia. }
  unfold as_u16. rewrite Z.mod_small; lia.
Qed.

Lemma qos_report_ok s previous elapsed now :
  feedback_ok s ->
  exists report, qos_report_at s previous elapsed now = Ok report /\ qos_typed report
    /\ sequence report = as_u32 (sequence previous + 1)
    /\ loss_per_ten_thousand report <= 10000.
Proof.
  intros Hok. unfold qos_report_at, completed_frame_snapshot.
  destruct (fo_timing _ Hok) as [Hbw Hsnap].
  destruct (report_ok _ now Hbw) as (b & -> & Hb & _). obind.
  pose proof (interval_loss_range (Control.packet_snapshot previous) _ Hsnap) as Hl.
  eexists. split; [reflexivity|]. split; [|split; [done|cbn; lia]].
  destruct Hb. unfold is_u8, is_u16, is_u32 in *.
  constructor; cbn; unfold is_u16, is_u32, is_u8; try apply as_u32_range; try apply (fo_frame _ Hok); lia.
Qed.



(** ** The losses a receiver report counts *)

Definition arrival : Type := Z * Z * Z * option video_sample.
Definition arrival_sequence (a : arrival) : Z := a.1.1.1.

(** The receiver publishes each packet with the highest sequence so far. *)
Fixpoint stream (ssrc highest : Z) (l : list arrival) : list feedback_event :=
  match l with
  | [] => []
  | (sequence, rtp_timestamp, now, video) :: l =>
      StreamPacket ssrc (Z.max highest sequence) rtp_timestamp now video :: stream ssrc (Z.max highest sequence) l
  end.

Definition highest_of (h : Z) (xs : list Z) : Z := foldl Z.max h xs.

Lemma highest_of_ge h xs : h <= highest_of h xs /\ Forall (fun x => x <= highest_of h xs) xs.
Proof.
  revert h. induction xs as [|x xs IH]; intros h; [split; [cbn; lia|constructor]|].
  destruct (IH (Z.max h x)) as [H1 H2]. unfold highest_of in *. cbn [foldl]. split; [lia|]. constructor; [lia|done].
Qed.
Lemma highest_of_cases h xs : highest_of h xs = h \/ highest_of h xs ∈ xs.
Proof.
  revert h. induction xs as [|x xs IH]; intros h; [by left|]. unfold highest_of in *. cbn [foldl].
  destruct (IH (Z.max h x)) as [->|Hin]; [|right; by right].
  destruct (Z.max_spec h x) as [[_ ->]|[_ ->]]; [right; by left|by left].
Qed.

Record streaming (ssrc base highest received : Z) (prior : Z * Z) (s : t) : Prop := {
  sm_ssrc : video_ssrc s = ssrc;
  sm_base : base_sequence s = base;
  sm_highest : highest_sequence s = highest;
  sm_received : received_packets s = as_u32 received;
  sm_prior : report_prior s = prior;
  sm_timing : timing_ok (reception_timing s)
}.

Lemma stream_run ssrc base highest received prior l s :
  is_u32 ssrc -> 0 <= highest -> base <> U32_MAX ->
  Forall (fun a => is_u32 (arrival_sequence a)) l -> is_u32 highest ->
  streaming ssrc base highest received prior s ->
  exists s', ofold feedback_step (stream ssrc highest l) s = Ok s'
    /\ streaming ssrc base (highest_of highest (map arrival_sequence l)) (received + zlen l) prior s'.
Proof.
  intros Hs Hh Hb. revert highest received s Hh.
  induction l as [|[[[q ts] now] v] l IH]; intros highest received s Hh Hall Hhu [].
  { exists s. split; [done|]. constructor; try done. unfold zlen. cbn. by rewrite Z.add_0_r. }
  inversion Hall as [|? ? Hq Hall']; subst. unfold arrival_sequence in Hq. cbn in Hq. cbn [stream ofold feedback_step].
  assert (Hm : is_u32 (Z.max (highest_sequence s) q)) by (unfold is_u32 in *; lia).
  destruct (publish_stream_packet_spec s (video_ssrc s) (Z.max (highest_sequence s) q) ts now v) as (timing & Ht & _ & ->); try done.
  obind. destruct (IH (Z.max (highest_sequence s) q) (received + 1)
    ((((( s <| video_ssrc := video_ssrc s |>)
          <| base_sequence := if base_sequence s =? U32_MAX then Z.max (highest_sequence s) q else base_sequence s |>)
          <| highest_sequence := Z.max (highest_sequence s) (Z.max (highest_sequence s) q) |>)
          <| received_packets := as_u32 (received_packets s + 1) |>)
          <| reception_timing := timing |>)) as (s' & Hr & Hst).
  { lia. } { done. } { done. }
  { constructor; cbn; unfold const; try done.
    - by destruct (Z.eqb_spec (base_sequence s) U32_MAX).
    - lia.
    - rewrite sm_received0. unfold as_u32. by rewrite Z.add_mod_idemp_l. }
  exists s'. split; [exact Hr|]. rewrite zlen_cons. replace (received + (1 + zlen l)) with (received + 1 + zlen l) by lia.
  exact Hst.
Qed.

(** How many of the packets from [a] to [b] are not among [xs]. *)
Definition missing (a b : Z) (xs : list Z) : Z := zlen (filter (fun x => x ∉ xs) (seqZ a (b - a + 1))).

Lemma missing_count a b xs :
  NoDup xs -> a <= b + 1 -> Forall (fun x => a <= x <= b) xs -> missing a b xs = b - a + 1 - zlen xs.
Proof.
  intros Hnd Hab Hall. unfold missing. pose proof (filter_app_complement (fun x => x ∈ xs) (seqZ a (b - a + 1))) as Hp.
  apply Permutation_length in Hp. rewrite length_app, length_seqZ in Hp.
  assert (Hin : filter (fun x => x ∈ xs) (seqZ a (b - a + 1)) ≡ₚ xs).
  { apply NoDup_Permutation; [apply NoDup_filter, NoDup_seqZ|done|]. intros x. rewrite list_elem_of_filter, elem_of_seqZ.
    rewrite Forall_forall in Hall. split; [by intros []|]. intros Hx. split; [done|]. specialize (Hall x Hx). lia. }
  rewrite Hin in Hp. unfold zlen. lia.
Qed.

Lemma report_of_stream ssrc base highest received prior s :
  streaming ssrc base highest received prior s ->
  ssrc <> 0 -> 0 <= base <= highest -> highest < U32_MAX -> 0 <= received < 2 ^ 32 -> is_u32 prior.1 -> is_u32 prior.2 ->
  let expected := highest - base + 1 in
  exists s' block, report_snapshot s true = (s', Some block)
    /\ media_ssrc block = ssrc
    /\ Rtcp.highest_sequence block = highest
    /\ cumulative_lost block = clamp (- 0x800000) 0x7fffff (expected - received)
    /\ (prior.1 <= expected -> prior.2 <= received ->
        fraction_lost block = if expected - prior.1 =? 0 then 0
          else Z.min (256 * Z.max 0 (expected - prior.1 - (received - prior.2)) / (expected - prior.1)) 255)
    /\ streaming ssrc base highest received (expected, received) s'.
Proof.
  intros [] Hs Hb Hh Hr Hp1 Hp2. unfold report_snapshot, is_u32 in *.
  assert (base <> U32_MAX) by lia. assert (highest < 2 ^ 32 - 1) by (unfold U32_MAX in *; lia).
  rewrite sm_ssrc0, sm_base0, sm_highest0, sm_received0, sm_prior0.
  rewrite (proj2 (Z.eqb_neq ssrc 0)) by done. rewrite (proj2 (Z.eqb_neq base U32_MAX)) by done. cbn [orb].
  rewrite (as_u32_small received) by done. rewrite (as_u32_small (highest - base)) by (unfold is_u32; lia).
  rewrite (as_u32_small (highest - base + 1)) by (unfold is_u32; lia).
  cbv zeta. eexists _, _. split; [reflexivity|]. cbn [media_ssrc Rtcp.highest_sequence cumulative_lost fraction_lost].
  split_and!; [done|done|done| |].
  - intros H1 H2. rewrite !as_u32_small by (unfold is_u32; lia). unfold saturating_sub.
    destruct (_ =? 0); [done|]. rewrite Z.shiftl_mul_pow2 by lia. do 2 f_equal. lia.
  - by constructor.
Qed.

Lemma stream_start ssrc sequence rtp_timestamp now video :
  is_u32 ssrc -> 0 <= sequence < U32_MAX ->
  exists s, feedback_step NvstFeedbackState.default (StreamPacket ssrc (Z.max 0 sequence) rtp_timestamp now video) = Ok s
    /\ streaming ssrc sequence (Z.max 0 sequence) 1 (0, 0) s.
Proof.
  intros Hs Hq. rewrite Z.max_r by lia. cbn [feedback_step].
  destruct (publish_stream_packet_spec NvstFeedbackState.default ssrc sequence rtp_timestamp now video
    default_timing_ok Hs) as (timing & Ht & _ & ->); [unfold is_u32, U32_MAX in *; lia|].
  eexists. split; [reflexivity|]. constructor; try done. cbn. unfold const. lia.
Qed.

Lemma clamp_small x : 0 <= x -> clamp (- 0x800000) 0x7fffff x = Z.min x 0x7fffff.
Proof. intros. unfold clamp. repeat zif. Qed.

(** What the sequences of a burst are, all from [q] on. *)
Lemma burst_facts q xs :
  NoDup xs -> xs <> [] -> 0 <= q -> Forall (fun x => q <= x < U32_MAX) xs ->
  let h := highest_of 0 xs in
  q <= h < U32_MAX /\ missing q h xs = h - q + 1 - zlen xs /\ 0 <= missing q h xs /\ zlen xs < 2 ^ 32.
Proof.
  intros Hnd Hne Hq Hall h. destruct (highest_of_ge 0 xs) as [H0 Hle]. fold h in H0, Hle.
  assert (Hh : q <= h < U32_MAX).
  { destruct xs as [|x xs]; [done|]. inversion Hle as [|? ? Hx _]; subst. inversion Hall as [|? ? Hqx _]; subst.
    split; [lia|]. destruct (highest_of_cases 0 (x :: xs)) as [Heq|Hin]; [fold h in Heq; lia|].
    rewrite Forall_forall in Hall. by apply Hall. }
  assert (Hm : missing q h xs = h - q + 1 - zlen xs).
  { apply missing_count; [done|lia|]. rewrite Forall_forall in *. intros x Hx. specialize (Hall x Hx). specialize (Hle x Hx). lia. }
  pose proof (zlen_nonneg (filter (fun x => x ∉ xs) (seqZ q (h - q + 1)))) as Hn. unfold missing in *. unfold U32_MAX in *.
  split_and!; lia.
Qed.

(** The losses a receiver report announces are the packets that are
    missing.  For a stream whose packets have distinct 32-bit sequences from the
    first one on, in two bursts in any order, the report made after each burst
    names the stream and its highest sequence; its cumulative loss is exactly
    the number of sequences between the first and the highest that never
    arrived (saturated at 2^23 - 1), and its fraction is the loss of the
    interval since the previous report over the packets expected in it, in
    1/256, never negative and at most 255. *)
Theorem receiver_report_counts_losses (ssrc : Z) (first : arrival) (burst1 burst2 : list arrival)
    (Hssrc : 0 < ssrc < 2 ^ 32)
    (Hnd : NoDup (map arrival_sequence (first :: burst1 ++ burst2)))
    (Hrange : Forall (fun a => 0 <= arrival_sequence first <= arrival_sequence a /\ arrival_sequence a < U32_MAX)
                (first :: burst1 ++ burst2)) :
  let base := arrival_sequence first in
  let xs := map arrival_sequence (first :: burst1) in
  let ys := map arrival_sequence burst2 in
  let h1 := highest_of 0 xs in
  let h2 := highest_of h1 ys in
  exists s1 s1' b1 s2 s2' b2,
    ofold feedback_step (stream ssrc 0 (first :: burst1)) NvstFeedbackState.default = Ok s1
    /\ report_snapshot s1 true = (s1', Some b1)
    /\ ofold feedback_step (stream ssrc h1 burst2) s1' = Ok s2
    /\ report_snapshot s2 true = (s2', Some b2)
    /\ media_ssrc b1 = ssrc /\ Rtcp.highest_sequence b1 = h1
    /\ cumulative_lost b1 = Z.min (missing base h1 xs) 0x7fffff
    /\ fraction_lost b1 = Z.min (256 * missing base h1 xs / (h1 - base + 1)) 255
    /\ media_ssrc b2 = ssrc /\ Rtcp.highest_sequence b2 = h2
    /\ cumulative_lost b2 = Z.min (missing base h2 (xs ++ ys)) 0x7fffff
    /\ fraction_lost b2 = if h2 =? h1 then 0 else Z.min (256 * Z.max 0 (h2 - h1 - zlen ys) / (h2 - h1)) 255.
Proof.
  destruct first as [[[q ts] now] v]. intros base xs ys h1 h2. change base with q in *.
  change (arrival_sequence (q, ts, now, v)) with q in Hrange.
  assert (Hall : Forall (fun x => q <= x < U32_MAX) (xs ++ ys)).
  { unfold xs, ys. rewrite <- map_app. apply Forall_map. eapply Forall_impl; [exact Hrange|]. cbn. intros a. lia. }
  assert (Hq : 0 <= q < U32_MAX).
  { inversion Hrange as [|? ? [? Hlt] _]; subst. change (q < U32_MAX) in Hlt. lia. }
  change (map arrival_sequence _) with (q :: map arrival_sequence (burst1 ++ burst2)) in Hnd.
  rewrite map_app in Hnd. change (NoDup (xs ++ ys)) in Hnd.
  destruct (burst_facts q xs) as (B1 & M1 & N1 & L1); [by apply NoDup_app in Hnd as (? & _)|done|lia|by apply Forall_app in Hall as []|].
  destruct (burst_facts q (xs ++ ys)) as (B2 & M2 & N2 & L2); [done|done|lia|done|].
  assert (Hh2 : highest_of 0 (xs ++ ys) = h2) by (unfold h2, h1, highest_of; by rewrite foldl_app).
  rewrite Hh2 in *. fold h1 in B1, M1, N1. rewrite zlen_app in *.
  assert (H12 : h1 <= h2) by apply highest_of_ge.
  assert (Hu : forall l, Forall (fun x => q <= x < U32_MAX) (map arrival_sequence l) -> Forall (fun a => is_u32 (arrival_sequence a)) l).
  { intros l H%Forall_map. eapply Forall_impl; [exact H|]. unfold is_u32, U32_MAX. cbn. intros; lia. }
  apply Forall_app in Hall as [Hall1 Hall2]. inversion Hall1 as [|? ? _ Hall1']; subst.
  destruct (stream_start ssrc q ts now v) as (s0 & Hs0 & Hst0); [unfold is_u32; lia|lia|].
  destruct (stream_run ssrc q (Z.max 0 q) 1 (0, 0) burst1 s0) as (s1 & Hr1 & Hst1);
    [unfold is_u32; lia|lia|lia|by apply Hu|unfold is_u32, U32_MAX in *; lia|done|].
  change (highest_of (Z.max 0 q) (map arrival_sequence burst1)) with h1 in Hst1.
  assert (Hl1 : 1 + zlen burst1 = zlen xs) by (unfold xs, zlen; cbn; rewrite length_map; lia). rewrite Hl1 in Hst1.
  assert (Hl2 : zlen burst2 = zlen ys) by (unfold ys, zlen; by rewrite length_map).
  pose proof (zlen_nonneg xs). pose proof (zlen_nonneg ys).
  destruct (report_of_stream ssrc q h1 (zlen xs) (0, 0) s1 Hst1) as (s1' & b1 & Hb1 & S1 & Hi1 & C1 & F1 & Hst1');
    [lia|lia|lia|lia|unfold is_u32; cbn; lia|unfold is_u32; cbn; lia|].
  destruct (stream_run ssrc q h1 (zlen xs) (h1 - q + 1, zlen xs) burst2 s1') as (s2 & Hr2 & Hst2);
    [unfold is_u32; lia|lia|lia|by apply Hu|unfold is_u32, U32_MAX in *; lia|done|].
  assert (He1 : is_u32 (h1 - q + 1)) by (unfold is_u32, U32_MAX in *; lia).
  fold h2 in Hst2. rewrite Hl2 in Hst2.
  destruct (report_of_stream ssrc q h2 (zlen xs + zlen ys) (h1 - q + 1, zlen xs) s2 Hst2) as (s2' & b2 & Hb2 & S2 & Hi2 & C2 & F2 & _);
    [lia|lia|lia|lia|exact He1|cbn [snd]; unfold is_u32; lia|]. cbn [fst snd] in F1, F2.
  exists s1, s1', b1, s2, s2', b2. split_and!; try done.
  - cbn [stream ofold]. rewrite Hs0. by obind.
  - rewrite C1, M1. apply clamp_small. lia.
  - rewrite F1 by lia. rewrite M1, !Z.sub_0_r, (proj2 (Z.eqb_neq (h1 - q + 1) 0)) by lia. do 3 f_equal. lia.
  - rewrite C2, M2. apply clamp_small. lia.
  - rewrite F2 by lia. replace (h2 - q + 1 - (h1 - q + 1)) with (h2 - h1) by lia.
    destruct (Z.eqb_spec h2 h1) as [->|]; [by rewrite Z.sub_diag|]. rewrite (proj2 (Z.eqb_neq (h2 - h1) 0)) by lia.
    do 4 f_equal. lia.
Qed.

(** Packets 100, 103 and 101, then 106 and 105: 102 is missing in the first
    report, 102 and 104 in the second. *)
Lemma receiver_report_counts_losses_witness :
  exists s1 s1' b1 s2 s2' b2,
    ofold feedback_step (stream 7 0 [(100, 9000, 0, None); (103, 9300, 1, None); (101, 9100, 2, None)])
      NvstFeedbackState.default = Ok s1
    /\ report_snapshot s1 true = (s1', Some b1)
    /\ ofold feedback_step (stream 7 103 [(106, 9600, 3, None); (105, 9500, 4, None)]) s1' = Ok s2
    /\ report_snapshot s2 true = (s2', Some b2)
    /\ cumulative_lost b1 = 1 /\ fraction_lost b1 = 64
    /\ cumulative_lost b2 = 2 /\ fraction_lost b2 = 85.
Proof.
  destruct (receiver_report_counts_losses 7 (100, 9000, 0, None) [(103, 9300, 1, None); (101, 9100, 2, None)]
    [(106, 9600, 3, None); (105, 9500, 4, None)]) as (s1 & s1' & b1 & s2 & s2' & b2 & R1 & P1 & R2 & P2 & _ & _ & C1 & F1 & _ & _ & C2 & F2).
  - split; reflexivity.
  - apply (bool_decide_unpack _). vm_compute. exact I.
  - repeat constructor; vm_compute; congruence.
  - exists s1, s1', b1, s2, s2', b2.
    split; [exact R1|]. split; [exact P1|]. split; [exact R2|]. split; [exact P2|].
    split; [exact C1|]. split; [exact F1|]. split; [exact C2|exact F2].
Defined.
