(* ===== verification/Reports.v ===== *)
(** * The control report worker

    [ControlReportBatch] of [nvst.rs] and the turn of the bundle worker that
    drains the accepted frames into it: frame acknowledgements are collected in
    one message of bounded size, flushed when it is full, when the interval has
    passed, or with the QoS report. *)

From stdpp Require Import list.
From S2P Require Import Prelude Types Control InputChannels Deque F64 Bandwidth StageTimings Feedback.

Definition MAX_CONTROL_REPORT_BYTES : Z := 1071.
Definition MIN_CONTROL_REPORT_BYTES : Z := 4 + FRAME_ACK_PAYLOAD_LEN.
Definition FRAME_ACK_RECORD_LEN : Z := 4 + FRAME_ACK_PAYLOAD_LEN.
(** [Duration::from_micros(55_556)] *)
Definition FRAME_PACING_INTERVAL : Z := 55556 * 1000.

(** What the worker needs of the partially reliable control channel: a write
    that says whether the message was queued. *)
Class ReportChannel (C : Type) := send_report : C -> list u8 -> C * bool.

#[export] Instance partial_control_channel {ChannelId : Type} `{EqDecision ChannelId} {Rtc : Type}
    (buffered_amount : Rtc -> ChannelId -> option Z) (channel_write : Rtc -> ChannelId -> list u8 -> Rtc * option bool)
    (channels : NvstInputChannels (ChannelId:=ChannelId)) : ReportChannel Rtc :=
  fun rtc bytes => send_partial_control buffered_amount channel_write channels rtc bytes.

Definition qos_default : QosReport := {|
  sequence := 0; sender_frame_number := 0; bytes_received := 0; loss_per_ten_thousand := 0;
  client_time_90khz := 0; packet_snapshot := None; bandwidth := BandwidthEstimator.report_default |}.

(** The bandwidth part of the state cannot fail. *)
Definition infallible {A} (m : outcome Empty_set A) : outcome unit A :=
  map_err (fun e : Empty_set => match e with end) m.

Module ControlReportBatch.
Record t := {
  max_bytes : Z;
  bytes : list u8;
  queued_at : option Z;
  frames : list CompletedFrameFeedback.t;
  qos : option QosReport;
  last_qos_report : QosReport;
  last_qos_send : Z;
  frame_acks_sent : Z;
  qos_reports_sent : Z;
  last_ack_frame : option Z
}.

Definition new (now max_bytes : Z) : t := {|
  max_bytes := max_bytes; bytes := []; queued_at := None; frames := []; qos := None;
  last_qos_report := qos_default; last_qos_send := now - QOS_REPORT_INTERVAL;
  frame_acks_sent := 0; qos_reports_sent := 0; last_ack_frame := None |}.

Definition fits (self : t) (record_len : Z) : bool := saturating_add64 (zlen (bytes self)) record_len <=? max_bytes self.

Definition append (self : t) (record : list u8) (now : Z) : outcome unit t :=
  if negb (fits self (zlen record)) then Panic else
  let self := self <| queued_at := Some (match queued_at self with Some at_ => at_ | None => now end) |> in
  mret (self <| bytes := bytes self ++ record |>).

Definition append_ack (self : t) (frame : CompletedFrameFeedback.t) (record : list u8) (now : Z) : outcome unit t :=
  self ← append self record now;
  mret (self <| frames := frames self ++ [frame] |>).

Definition append_qos (self : t) (report : QosReport) (record : list u8) (now : Z) : outcome unit t :=
  self ← append self record now;
  mret (self <| qos := Some report |>).

Definition flush_due (self : t) (now : Z) : bool :=
  bool_decide (is_Some (qos self))
  || match queued_at self with
     | Some queued_at => QOS_REPORT_INTERVAL <=? saturating_duration_since now queued_at
     | None => false
     end.

(** One frame of [frames.drain(..)]. *)
Definition acknowledge (now : Z) (st : t * NvstFeedbackState.t) (frame : CompletedFrameFeedback.t) : t * NvstFeedbackState.t :=
  let '(self, feedback) := st in
  let feedback := feedback <| NvstFeedbackState.frame_stage_timings :=
    FrameStageTimingsAccumulator.record_ack_queued (NvstFeedbackState.frame_stage_timings feedback)
      (CompletedFrameFeedback.assembled_at frame) (CompletedFrameFeedback.accepted_at frame) now |> in
  let self := self <| frame_acks_sent := saturating_add64 (frame_acks_sent self) 1 |> in
  (self <| last_ack_frame := Some (CompletedFrameFeedback.frame_number frame) |>, feedback).

Section Flush.
Context {C : Type} `{ReportChannel C}.

Definition flush (self : t) (now : Z) (feedback : NvstFeedbackState.t) (channel : C) : t * NvstFeedbackState.t * C * bool :=
  match bytes self with
  | [] => (self, feedback, channel, true)
  | _ =>
      let '(channel, queued) := send_report channel (bytes self) in
      if negb queued then (self, feedback, channel, false) else
      let '(self, feedback) := foldl (acknowledge now) (self, feedback) (frames self) in
      let self := self <| frames := [] |> in
      let self := match qos self with
        | Some report =>
            let self := self <| qos := None |> in
            let self := self <| last_qos_report := report |> in
            let self := self <| last_qos_send := now |> in
            self <| qos_reports_sent := saturating_add64 (qos_reports_sent self) 1 |>
        | None => self
        end in
      let self := self <| bytes := [] |> in
      (self <| queued_at := None |>, feedback, channel, true)
  end.
End Flush.
End ControlReportBatch.

(** ** One turn of the worker *)

(** The locals of the worker the turn uses. *)
Module ReportWorker.
Import ControlReportBatch.

Record config := { transport_origin : Z; frame_pacing_feedback : bool; frame_time_us : Z }.

Record t {C : Type} := {
  control_reports : ControlReportBatch.t;
  feedback : NvstFeedbackState.t;
  channel : C;
  last_frame_pacing_send : Z;
  frame_pacing_reports_sent : Z
}.
Arguments t : clear implicits.

Section Worker.
Context {C : Type} `{ReportChannel C} (cfg : config).

Definition flush_reports (self : t C) (now : Z) : t C * bool :=
  let '(control_reports, feedback, channel, writable) := flush (control_reports self) now (feedback self) (channel self) in
  (((self <| ReportWorker.control_reports := control_reports |>) <| ReportWorker.feedback := feedback |>)
     <| ReportWorker.channel := channel |>, writable).

Definition send_pacing (self : t C) (frame : CompletedFrameFeedback.t) (now : Z) : outcome unit (t C) :=
  if frame_pacing_feedback cfg && (FRAME_PACING_INTERVAL <=? saturating_duration_since now (last_frame_pacing_send self))
  then
    pacing ← frame_pacing_report (CompletedFrameFeedback.frame_number frame) (frame_time_us cfg) 0;
    let '(channel, sent) := send_report (channel self) (encoded pacing) in
    let self := self <| ReportWorker.channel := channel |> in
    let self := if sent : bool then self <| frame_pacing_reports_sent := saturating_add64 (frame_pacing_reports_sent self) 1 |> else self in
    mret (self <| last_frame_pacing_send := now |>)
  else mret self.

(** The [while writable] loop; [None] fuel is a panic that is never reached:
    every turn takes a frame from the queue. *)
Fixpoint collect_acks (fuel : nat) (self : t C) (now : Z) (writable : bool) : outcome unit (t C * bool) :=
  match fuel with
  | O => Panic
  | S fuel =>
      if negb writable then mret (self, writable) else
      let '(self, writable) :=
        if negb (fits (control_reports self) FRAME_ACK_RECORD_LEN) then flush_reports self now else (self, true) in
      if negb writable then mret (self, writable) else
      match NvstFeedbackState.take_completed_frame (feedback self) with
      | (_, None) => mret (self, writable)
      | (feedback, Some frame) =>
          let self := self <| ReportWorker.feedback := feedback |> in
          self ← send_pacing self frame now;
          command ← CompletedFrameFeedback.command frame (transport_origin cfg);
          batch ← append_ack (control_reports self) frame (encoded command) now;
          let self := self <| control_reports := batch |> in
          let '(self, writable) :=
            if negb (fits (control_reports self) FRAME_ACK_RECORD_LEN) then flush_reports self now else (self, true) in
          collect_acks fuel self now writable
      end
  end.

Definition report_qos (self : t C) (now : Z) : outcome unit (t C) :=
  report ← infallible (NvstFeedbackState.qos_report_at (feedback self) (last_qos_report (control_reports self))
    (saturating_duration_since now (transport_origin cfg)) now);
  command ← qos_command report;
  let '(self, writable) :=
    if negb (fits (control_reports self) (zlen (encoded command))) then flush_reports self now else (self, true) in
  if writable : bool then
    batch ← append_qos (control_reports self) report (encoded command) now;
    mret (flush_reports (self <| control_reports := batch |>) now).1
  else mret self.

(** The turn, on an open channel. *)
Definition control_turn (self : t C) (now : Z) : outcome unit (t C) :=
  let '(self, writable) :=
    if flush_due (control_reports self) now then flush_reports self now else (self, true) in
  sw ← collect_acks (S (length (NvstFeedbackState.pending_frame_acks (feedback self)))) self now writable;
  let '(self, writable) := sw in
  if writable && bool_decide (qos (control_reports self) = None)
     && (QOS_REPORT_INTERVAL <=? saturating_duration_since now (last_qos_send (control_reports self)))
  then report_qos self now
  else mret self.
End Worker.
End ReportWorker.

Import ControlReportBatch ReportWorker.

(** ** The records *)

Lemma put_Ok p o n v :
  0 <= o -> o + Z.of_nat n <= zlen p ->
  exists q, set_slice (E:=unit) p o (o + Z.of_nat n) (to_le_bytes n v) = Ok q /\ zlen q = zlen p.
Proof.
  intros Ho Hl. pose proof (zlen_to_le_bytes n v) as Hn. eexists. split.
  - apply set_slice_Ok; [done|lia|done].
  - apply zlen_splice; lia.
Qed.
Lemma put_u16_Ok p o v : 0 <= o -> o + 2 <= zlen p -> exists q, put_u16 p o v = Ok q /\ zlen q = zlen p.
Proof. apply (put_Ok p o 2 v). Qed.
Lemma put_u32_Ok p o v : 0 <= o -> o + 4 <= zlen p -> exists q, put_u32 p o v = Ok q /\ zlen q = zlen p.
Proof. apply (put_Ok p o 4 v). Qed.
Lemma put_u64_Ok p o v : 0 <= o -> o + 8 <= zlen p -> exists q, put_u64 p o v = Ok q /\ zlen q = zlen p.
Proof. apply (put_Ok p o 8 v). Qed.

Ltac put_any :=
  match goal with
  | |- context [put_u16 ?p ?o ?v] => destruct (put_u16_Ok p o v) as (? & -> & ?); [lia|lia|]; obind
  | |- context [put_u32 ?p ?o ?v] => destruct (put_u32_Ok p o v) as (? & -> & ?); [lia|lia|]; obind
  | |- context [put_u64 ?p ?o ?v] => destruct (put_u64_Ok p o v) as (? & -> & ?); [lia|lia|]; obind
  end.

(** A frame acknowledgement is built from any values. *)
Lemma frame_ack_total frame_number time frame_bytes :
  exists p, frame_ack frame_number time frame_bytes = Ok {| code := FRAME_ACK_CODE; payload := p |}
    /\ zlen p = FRAME_ACK_PAYLOAD_LEN.
Proof.
  unfold frame_ack, FRAME_ACK_PAYLOAD_LEN. pose proof (zlen_zeroes 102 ltac:(lia)) as Hz.
  cbn [zrange seq map ofold app].
  destruct time as [bits|]; repeat put_any; eexists; (split; [reflexivity|lia]).
Qed.
Lemma frame_pacing_total frame_number target error :
  exists p, frame_pacing_report frame_number target error = Ok {| code := FRAME_PACING_CODE; payload := p |}
    /\ zlen p = FRAME_PACING_PAYLOAD_LEN.
Proof.
  unfold frame_pacing_report, FRAME_PACING_PAYLOAD_LEN. pose proof (zlen_zeroes 28 ltac:(lia)) as Hz.
  repeat put_any; eexists; (split; [reflexivity|lia]).
Qed.

Section Run.
Context (cfg : config).

Definition ack_record (frame : CompletedFrameFeedback.t) : list u8 :=
  match CompletedFrameFeedback.command frame (transport_origin cfg) with Ok command => encoded command | _ => [] end.
Definition qos_record (report : QosReport) : list u8 :=
  match qos_command report with Ok command => encoded command | _ => [] end.
(** The message of a batch. *)
Definition batch_message (batch : list CompletedFrameFeedback.t * option QosReport) : list u8 :=
  concat (map ack_record batch.1) ++ match batch.2 with Some report => qos_record report | None => [] end.

Definition record_code (bytes : list u8) : Z := from_le_bytes (take 2 bytes).

Lemma encoded_spec c p :
  is_u16 c -> zlen p <= U16_MAX ->
  zlen (encoded {| code := c; payload := p |}) = 4 + zlen p /\ record_code (encoded {| code := c; payload := p |}) = c.
Proof.
  intros Hc Hp. destruct (encoded_framed c p Hp Hc) as (Hl & Hf & _). split; [done|].
  unfold has_fields in Hf. apply Forall_cons in Hf as [Hf _]. exact Hf.
Qed.

Lemma ack_record_spec frame :
  exists command, CompletedFrameFeedback.command frame (transport_origin cfg) = Ok command
    /\ encoded command = ack_record frame
    /\ zlen (ack_record frame) = FRAME_ACK_RECORD_LEN /\ record_code (ack_record frame) = FRAME_ACK_CODE.
Proof.
  unfold ack_record, CompletedFrameFeedback.command.
  destruct (frame_ack_total (CompletedFrameFeedback.frame_number frame)
    (F64.to_bits <$> ((fun timing => F64.mul (F64.as_secs_f64 (saturating_duration_since (FramePacketTiming.first_at timing)
       (transport_origin cfg))) F64.thousand) <$> CompletedFrameFeedback.packet_timing frame))
    (CompletedFrameFeedback.bytes frame)) as (p & -> & Hp).
  eexists. split; [reflexivity|]. split; [done|].
  destruct (encoded_spec FRAME_ACK_CODE p) as [H1 H2]; [done|by rewrite Hp|].
  unfold FRAME_ACK_RECORD_LEN. by rewrite H1, Hp.
Qed.
Lemma qos_record_spec report :
  qos_typed report ->
  exists command, qos_command report = Ok command /\ encoded command = qos_record report
    /\ zlen (qos_record report) = 4 + QOS_REPORT_PAYLOAD_LEN /\ record_code (qos_record report) = QOS_REPORT_CODE.
Proof.
  intros Ht. unfold qos_record. destruct (qos_layout report Ht) as (p & -> & Hp & _).
  eexists. split; [reflexivity|]. split; [done|].
  destruct (encoded_spec QOS_REPORT_CODE p) as [H1 H2]; [done|by rewrite Hp|]. by rewrite H1, Hp.
Qed.

Lemma batch_message_snoc fs f : batch_message (fs ++ [f], None) = batch_message (fs, None) ++ ack_record f.
Proof. unfold batch_message. cbn. rewrite map_app, concat_app. cbn. by rewrite !app_nil_r. Qed.
Lemma batch_message_qos fs r : batch_message (fs, Some r) = batch_message (fs, None) ++ qos_record r.
Proof. unfold batch_message. cbn. by rewrite app_nil_r. Qed.
Lemma batch_message_length fs : zlen (batch_message (fs, None)) = FRAME_ACK_RECORD_LEN * zlen fs.
Proof.
  unfold batch_message. cbn. rewrite app_nil_r. induction fs as [|f fs IH]; [done|].
  cbn [map concat]. destruct (ack_record_spec f) as (_ & _ & _ & Hl & _). rewrite zlen_app, zlen_cons, Hl, IH. lia.
Qed.

(** A message that holds batched records, not a pacing report. *)
Definition is_report (bytes : list u8) : bool := negb (record_code bytes =? FRAME_PACING_CODE).

Lemma batch_message_report fs q :
  match q with Some r => qos_typed r | None => True end -> batch_message (fs, q) <> [] ->
  is_report (batch_message (fs, q)) = true.
Proof.
  intros Hq Hne. unfold is_report. cut (record_code (batch_message (fs, q)) = FRAME_ACK_CODE
    \/ record_code (batch_message (fs, q)) = QOS_REPORT_CODE); [by intros [->| ->]|].
  assert (Hfirst : forall r rest, 2 <= zlen r -> record_code (r ++ rest) = record_code r).
  { intros r rest Hr. unfold record_code. rewrite take_app_le; [done|]. unfold zlen in Hr. lia. }
  destruct fs as [|f fs].
  - destruct q as [r|]; [|done]. right. destruct (qos_record_spec r Hq) as (_ & _ & _ & _ & Hc).
    unfold batch_message. cbn. exact Hc.
  - left. destruct (ack_record_spec f) as (_ & _ & _ & Hl & Hc). unfold batch_message. cbn [fst map concat].
    rewrite <- app_assoc, Hfirst; [done|]. rewrite Hl. unfold FRAME_ACK_RECORD_LEN, FRAME_ACK_PAYLOAD_LEN. lia.
Qed.
End Run.
Arguments batch_message : simpl never.

(** ** Exactly once, in order *)

(** A channel that keeps the messages it queued. *)
#[export] Instance logged_channel {C} `{ReportChannel C} : ReportChannel (C * list (list u8)) :=
  fun channel bytes =>
    let '(c, queued) := send_report channel.1 bytes in
    ((c, if queued then channel.2 ++ [bytes] else channel.2), queued).

Section Progress.
Context {C : Type} `{ReportChannel C} (cfg : config).
Abbreviation worker := (ReportWorker.t (C * list (list u8))).

Definition log (w : worker) : list (list u8) := (channel w).2.
Definition pending (w : worker) : list CompletedFrameFeedback.t := NvstFeedbackState.pending_frame_acks (feedback w).

Record batch_ok (b : ControlReportBatch.t) : Prop := {
  bo_max : MIN_CONTROL_REPORT_BYTES <= max_bytes b <= MAX_CONTROL_REPORT_BYTES;
  bo_bytes : bytes b = batch_message cfg (frames b, qos b);
  bo_length : zlen (bytes b) <= max_bytes b;
  bo_qos : match qos b with Some report => qos_typed report | None => True end
}.
Definition worker_ok (w : worker) : Prop :=
  batch_ok (control_reports w) /\ feedback_ok (feedback w) /\ frame_acks_sent (control_reports w) <= U64_MAX.

(** Between [w] and [w'] the batches were sent, each in one message of at most
    [max_bytes]; what was waiting, and what the decoder had accepted, is in them
    or still waiting, in the same order; nothing is sent twice. *)
Record progress (w w' : worker) (batches : list (list CompletedFrameFeedback.t * option QosReport)) : Prop := {
  pr_log : exists sent, log w' = log w ++ sent /\ List.filter is_report sent = map (batch_message cfg) batches
    /\ Forall (fun message => 0 < zlen message <= max_bytes (control_reports w)) (List.filter is_report sent);
  pr_frames : frames (control_reports w) ++ pending w
    = concat (map fst batches) ++ frames (control_reports w') ++ pending w';
  pr_sent : frame_acks_sent (control_reports w')
    = Z.min U64_MAX (frame_acks_sent (control_reports w) + zlen (concat (map fst batches)));
  pr_max : max_bytes (control_reports w') = max_bytes (control_reports w);
  pr_fewer : (length (pending w') <= length (pending w))%nat;
  pr_ok : worker_ok w'
}.

Lemma progress_refl w : worker_ok w -> progress w w [].
Proof.
  intros Hok. destruct Hok as (Hb & Hf & Hs). constructor; try done.
  - exists []. split_and!; [by rewrite app_nil_r|done|constructor].
  - change (zlen (concat (map fst []))) with 0. lia.
Qed.

Lemma progress_trans w1 w2 w3 b1 b2 : progress w1 w2 b1 -> progress w2 w3 b2 -> progress w1 w3 (b1 ++ b2).
Proof.
  intros [(s1 & L1 & F1 & B1) R1 S1 M1 P1 O1] [(s2 & L2 & F2 & B2) R2 S2 M2 P2 O2].
  constructor; try done; try lia.
  - exists (s1 ++ s2). rewrite List.filter_app, F1, F2, map_app. split_and!; [by rewrite L2, L1, app_assoc|done|].
    rewrite F1 in B1. rewrite F2, M1 in B2. by apply Forall_app.
  - by rewrite R1, R2, map_app, concat_app, app_assoc.
  - rewrite S2, S1, map_app, concat_app, zlen_app. pose proof (zlen_nonneg (concat (map fst b2))). lia.
Qed.

(** [frames.drain(..)] only counts and stamps. *)
Lemma acknowledge_fold now fs b f :
  feedback_ok f -> frame_acks_sent b <= U64_MAX ->
  exists b' f', foldl (acknowledge now) (b, f) fs = (b', f') /\ feedback_ok f'
    /\ NvstFeedbackState.pending_frame_acks f' = NvstFeedbackState.pending_frame_acks f
    /\ NvstFeedbackState.reception_timing f' = NvstFeedbackState.reception_timing f
    /\ frame_acks_sent b' = Z.min U64_MAX (frame_acks_sent b + zlen fs)
    /\ max_bytes b' = max_bytes b /\ bytes b' = bytes b /\ qos b' = qos b
    /\ last_qos_send b' = last_qos_send b.
Proof.
  revert b f. induction fs as [|x fs IH]; intros b f Hf Hs; cbn [foldl].
  { exists b, f. change (zlen (@nil CompletedFrameFeedback.t)) with 0. split_and!; try done. lia. }
  unfold acknowledge at 2.
  set (b1 := (b <| frame_acks_sent := _ |>) <| last_ack_frame := _ |>). set (f1 := f <| NvstFeedbackState.frame_stage_timings := _ |>).
  assert (Hs1 : frame_acks_sent b1 = Z.min U64_MAX (frame_acks_sent b + 1)) by done.
  destruct (IH b1 f1) as (b' & f' & -> & Hf' & H2 & H3 & H4 & H5 & H6 & H7 & H8).
  - unfold f1. destruct Hf. constructor; try done. by apply record_ack_queued_bounded.
  - lia.
  - exists b', f'. split_and!; try done. rewrite H4, Hs1, zlen_cons. pose proof (zlen_nonneg fs). lia.
Qed.

(** A flush sends everything that waits in one message, or changes nothing. *)
Lemma flush_progress w now :
  worker_ok w ->
  let '(w', writable) := flush_reports w now in
  (if writable
   then exists batches, progress w w' batches /\ pending w' = pending w
     /\ bytes (control_reports w') = [] /\ frames (control_reports w') = [] /\ qos (control_reports w') = None
   else progress w w' [] /\ control_reports w' = control_reports w /\ pending w' = pending w)
  /\ NvstFeedbackState.reception_timing (feedback w') = NvstFeedbackState.reception_timing (feedback w).
Proof.
  intros (Hb & Hf & Hs). unfold flush_reports, flush.
  assert (Hframes : bytes (control_reports w) = [] -> frames (control_reports w) = [] /\ qos (control_reports w) = None).
  { intros He. destruct Hb as [_ Hm _ Hq]. rewrite He in Hm.
    destruct (qos (control_reports w)) as [r|].
    - rewrite batch_message_qos in Hm. destruct (qos_record_spec r Hq) as (_ & _ & _ & Hl & _).
      symmetry in Hm. apply app_nil in Hm as [_ Hm]. by rewrite Hm in Hl.
    - split; [|done]. pose proof (batch_message_length cfg (frames (control_reports w))) as Hl. rewrite <- Hm in Hl.
      change (zlen []) with 0 in Hl. unfold FRAME_ACK_RECORD_LEN, FRAME_ACK_PAYLOAD_LEN in Hl.
      destruct (frames (control_reports w)); [done|]. rewrite zlen_cons in Hl.
      pose proof (zlen_nonneg l). lia. }
  destruct (bytes (control_reports w)) as [|x bs] eqn:Eb.
  { destruct (Hframes eq_refl) as [Hfr Hq]. destruct w; cbn in *. split; [|done]. exists []. split_and!; try done.
    apply progress_refl. by split_and!. }
  rewrite <- Eb. unfold send_report, logged_channel. set (c := H (channel w).1 (bytes (control_reports w))).
  change (send_report (channel w).1 (bytes (control_reports w))) with c. destruct c as [c' []]; cbn [negb].
  - destruct (acknowledge_fold now (frames (control_reports w)) (control_reports w) (feedback w) Hf Hs)
      as (b' & f' & -> & Hf' & H2 & H3 & H4 & H5 & H6 & H7 & H8).
    set (b2 := match qos (b' <| frames := [] |>) with Some report => _ | None => _ end).
    assert (Hb2 : max_bytes b2 = max_bytes b' /\ frame_acks_sent b2 = frame_acks_sent b' /\ frames b2 = [] /\ qos b2 = None).
    { unfold b2. destruct (qos (b' <| frames := [] |>)) eqn:Eq; split_and!; done. }
    destruct Hb2 as (M2 & S2 & F2 & Q2). split; [|done].
    exists [(frames (control_reports w), qos (control_reports w))]. split_and!; [|exact H2|done|exact F2|exact Q2].
    assert (Hmsg : batch_message cfg (frames (control_reports w), qos (control_reports w)) = bytes (control_reports w))
      by (symmetry; apply Hb).
    assert (Hrep : is_report (bytes (control_reports w)) = true).
    { rewrite <- Hmsg. apply batch_message_report; [apply Hb|]. rewrite Hmsg, Eb. done. }
    constructor; cbn [map concat fst app].
    + exists [bytes (control_reports w)]. split; [done|]. cbn [List.filter]. rewrite Hrep, Hmsg. split; [done|].
      apply Forall_singleton. pose proof (bo_length _ Hb). rewrite Eb in *. rewrite zlen_cons in *.
      pose proof (zlen_nonneg bs). lia.
    + rewrite app_nil_r. cbn. unfold const. rewrite F2. unfold pending. cbn. unfold const. by rewrite H2.
    + rewrite app_nil_r. cbn. unfold const. by rewrite S2.
    + cbn. unfold const. by rewrite M2.
    + unfold pending. cbn. unfold const. by rewrite H2.
    + split_and!; cbn; unfold const; [|done|rewrite S2; lia].
      constructor; cbn; unfold const; rewrite ?F2, ?Q2, ?M2, ?H5; try done; try apply Hb.
      change (zlen []) with 0. pose proof (bo_max _ Hb). unfold MIN_CONTROL_REPORT_BYTES, FRAME_ACK_PAYLOAD_LEN in *. lia.
  - split; [|done]. split_and!; try done. destruct w; cbn in *. constructor; try done.
    + exists []. split_and!; [by rewrite app_nil_r|done|constructor].
    + unfold zlen. cbn in *. unfold const. lia.
Qed.

Lemma pacing_not_report frame_number target error :
  match frame_pacing_report frame_number target error with
  | Ok command => is_report (encoded command) = false
  | _ => True
  end.
Proof.
  destruct (frame_pacing_total frame_number target error) as (p & -> & Hp).
  destruct (encoded_spec FRAME_PACING_CODE p) as [_ Hc]; [done|by rewrite Hp|]. unfold is_report. by rewrite Hc.
Qed.

(** A pacing report changes the channel and the worker's clock only. *)
Lemma send_pacing_spec w frame now :
  worker_ok w ->
  exists w', send_pacing cfg w frame now = Ok w' /\ progress w w' []
    /\ control_reports w' = control_reports w /\ feedback w' = feedback w.
Proof.
  intros Hok. unfold send_pacing. destruct (_ && _).
  2:{ exists w. split_and!; try done. by apply progress_refl. }
  pose proof (pacing_not_report (CompletedFrameFeedback.frame_number frame) (frame_time_us cfg) 0) as Hp.
  destruct (frame_pacing_total (CompletedFrameFeedback.frame_number frame) (frame_time_us cfg) 0) as (p & Hpr & _).
  rewrite Hpr in *. obind. unfold send_report, logged_channel.
  destruct (send_report (channel w).1 (encoded _)) as [c queued].
  assert (Hprog : forall w' : worker, control_reports w' = control_reports w -> feedback w' = feedback w ->
    log w' = (if queued then log w ++ [encoded {| code := FRAME_PACING_CODE; payload := p |}] else log w) -> progress w w' []).
  { intros w' Hb Hf Hl. destruct Hok as (? & ? & ?). constructor; unfold pending, worker_ok; rewrite ?Hb, ?Hf; try done.
    - destruct queued.
      + exists [encoded {| code := FRAME_PACING_CODE; payload := p |}]. split; [done|]. cbn [List.filter map]. rewrite Hp.
        by split.
      + exists []. by rewrite app_nil_r.
    - unfold zlen. cbn. lia. }
  eexists. split; [reflexivity|]. split; [|by destruct queued]. by apply Hprog; destruct queued.
Qed.

(** One more acknowledgement in the batch. *)
Lemma append_ack_spec b frame now :
  batch_ok b -> qos b = None -> fits b FRAME_ACK_RECORD_LEN = true ->
  exists b', append_ack b frame (ack_record cfg frame) now = Ok b' /\ batch_ok b'
    /\ frames b' = frames b ++ [frame] /\ qos b' = None /\ max_bytes b' = max_bytes b /\ frame_acks_sent b' = frame_acks_sent b.
Proof.
  intros [H1 H2 H3 H4] Hq Hfit. destruct (ack_record_spec cfg frame) as (_ & _ & _ & Hl & _).
  unfold append_ack, append. rewrite Hl, Hfit. cbn [negb]. obind. eexists. split; [reflexivity|].
  rewrite Hq in H2. split; [|done]. constructor; cbn; unfold const; rewrite ?Hq; try done.
  - by rewrite H2, batch_message_snoc.
  - unfold fits in Hfit. rewrite zlen_app, Hl. pose proof (zlen_nonneg (bytes b)).
    unfold saturating_add64, U64_MAX, MAX_CONTROL_REPORT_BYTES in *. zbool. lia.
Qed.

Lemma fits_empty b n : batch_ok b -> bytes b = [] -> n <= MIN_CONTROL_REPORT_BYTES -> fits b n = true.
Proof.
  intros Hb He Hn. unfold fits. rewrite He. change (zlen []) with 0. pose proof (bo_max _ Hb).
  unfold saturating_add64. apply Z.leb_le. lia.
Qed.

(** Making room: there is space for an acknowledgement, or the loop stops. *)
Lemma make_space w n now :
  worker_ok w -> n <= MIN_CONTROL_REPORT_BYTES -> qos (control_reports w) = None ->
  let '(w', writable) :=
    if negb (fits (control_reports w) n) then flush_reports w now else (w, true) in
  exists batches, progress w w' batches /\ pending w' = pending w
    /\ qos (control_reports w') = None
    /\ (writable = true -> fits (control_reports w') n = true)
    /\ ((forall c bytes, (send_report (C:=C) c bytes).2 = true) -> writable = true).
Proof.
  intros Hok Hn Hq. destruct (fits _ _) eqn:Hfit; cbn [negb].
  { exists []. split_and!; try done. by apply progress_refl. }
  pose proof (flush_progress w now Hok) as Hfl.
  destruct (flush_reports w now) as [w' []] eqn:Ef.
  - destruct Hfl as [(batches & Hp & Hpe & Hb & Hfr & Hq') _]. exists batches. split_and!; try done.
    intros _. apply fits_empty; [apply Hp|done|done].
  - destruct Hfl as [(Hp & Hb & Hpe) _]. exists []. rewrite Hb. split_and!; try done.
    intros Hrel. revert Ef. unfold flush_reports, flush. destruct (bytes (control_reports w)) as [|u l]; [done|].
    unfold send_report at 1, logged_channel. specialize (Hrel (channel w).1 (u :: l)).
    destruct (send_report (channel w).1 (u :: l)) as [c q]. cbn in Hrel. subst q. cbn [negb].
    by destruct (foldl _ _ _).
Qed.

(** One frame taken, acknowledged and appended. *)
Lemma take_frame (w : worker) frame rest (now : Z) :
  worker_ok w -> pending w = frame :: rest -> qos (control_reports w) = None ->
  fits (control_reports w) FRAME_ACK_RECORD_LEN = true ->
  exists w', (let f1 := (feedback w) <| NvstFeedbackState.pending_frame_acks := rest |> in
      let w1 := w <| ReportWorker.feedback := f1 |> in
      w2 ← send_pacing cfg w1 frame now;
      command ← CompletedFrameFeedback.command frame (transport_origin cfg);
      batch ← append_ack (control_reports w2) frame (encoded command) now;
      mret (w2 <| control_reports := batch |>)) = Ok w'
    /\ progress w w' [] /\ pending w' = rest /\ qos (control_reports w') = None.
Proof.
  intros (Hb & Hf & Hs) Hp Hq Hfit. cbv zeta.
  set (w1 := w <| ReportWorker.feedback := _ |>).
  assert (Hok1 : worker_ok w1).
  { split_and!; try done. unfold w1. cbn. destruct Hf. unfold pending in Hp. rewrite Hp, zlen_cons in *.
    constructor; cbn; unfold const; try done. lia. }
  destruct (send_pacing_spec w1 frame now Hok1) as (w2 & -> & Hpr & Hb2 & Hf2). obind.
  change (control_reports w1) with (control_reports w) in Hb2.
  destruct (ack_record_spec cfg frame) as (command & Hcmd & Henc & _). rewrite Hcmd. obind. rewrite Henc, Hb2.
  destruct (append_ack_spec (control_reports w) frame now Hb Hq Hfit) as (b' & -> & Hb' & Hfr' & Hq' & Hm' & Hs'). obind.
  eexists. split; [reflexivity|]. destruct Hpr as [(sent & Hl & Hrep & Hbd) _ _ _ _ _].
  assert (Hpend : pending (w2 <| control_reports := b' |>) = rest) by (unfold pending; cbn; unfold const; by rewrite Hf2).
  split; [|by split; [|cbn; unfold const]].
  constructor; rewrite ?Hpend; cbn; unfold const.
  - exists sent. split; [exact Hl|]. split; [exact Hrep|exact Hbd].
  - by rewrite Hfr', Hp, <- app_assoc.
  - rewrite Hs'. unfold zlen. cbn. lia.
  - done.
  - rewrite Hp. cbn. lia.
  - split_and!; cbn; unfold const; [done| |by rewrite Hs']. rewrite Hf2. apply Hok1.
Qed.

(** The loop: with one unit of fuel per waiting frame and one more it ends; when
    the channel accepts everything it leaves no frame waiting. *)
Lemma collect_spec fuel w now writable :
  worker_ok w -> (writable = true -> qos (control_reports w) = None) -> (length (pending w) < fuel)%nat ->
  exists w' writable' batches, collect_acks cfg fuel w now writable = Ok (w', writable') /\ progress w w' batches
    /\ (writable' = true -> pending w' = [] /\ qos (control_reports w') = None)
    /\ ((forall c bytes, (send_report (C:=C) c bytes).2 = true) -> writable = true -> writable' = true).
Proof.
  revert w writable. induction fuel as [|fuel IH]; intros w writable Hok Hq Hfuel; [lia|]. cbn [collect_acks].
  destruct writable; cbn [negb]; [|exists w, false, []; split_and!; try done; by apply progress_refl].
  specialize (Hq eq_refl). pose proof (make_space w FRAME_ACK_RECORD_LEN now Hok ltac:(done) Hq) as Hsp.
  destruct (if negb (fits _ _) then _ else _) as [w1 wr1]. destruct Hsp as (b1 & P1 & E1 & Q1 & F1 & R1).
  destruct wr1; cbn [negb].
  2:{ exists w1, false, b1. split_and!; try done. intros Hrel _. by apply R1. }
  specialize (F1 eq_refl). unfold NvstFeedbackState.take_completed_frame.
  change (NvstFeedbackState.pending_frame_acks (feedback w1)) with (pending w1).
  destruct (pending w1) as [|frame rest] eqn:Ep.
  { exists w1, true, b1. by split_and!. }
  destruct (take_frame w1 frame rest now (pr_ok _ _ _ P1) Ep Q1 F1) as (w2 & Ht & P2 & E2 & Q2). cbv zeta in Ht.
  apply bind_Ok_inv in Ht as (w3 & -> & Ht). obind. apply bind_Ok_inv in Ht as (command & -> & Ht). obind.
  apply bind_Ok_inv in Ht as (b & -> & Ht). obind. injection Ht as ->.
  pose proof (make_space w2 FRAME_ACK_RECORD_LEN now (pr_ok _ _ _ P2) ltac:(done) Q2) as Hsp.
  destruct (if negb (fits _ _) then _ else _) as [w4 wr4]. destruct Hsp as (b4 & P4 & E4 & Q4 & _ & R4).
  destruct (IH w4 wr4) as (w5 & wr5 & b5 & -> & P5 & E5 & R5); [apply P4|done| |].
  { rewrite E4, E2. rewrite <- E1 in Hfuel. cbn in Hfuel. lia. }
  exists w5, wr5, (b1 ++ [] ++ b4 ++ b5). split_and!; [done| |done|].
  - eapply progress_trans; [exact P1|]. eapply progress_trans; [exact P2|]. eapply progress_trans; [exact P4|exact P5].
  - intros Hrel _. apply R5; [done|]. by apply R4.
Qed.

(** A flush succeeds when the channel accepts everything. *)
Lemma flush_reliable (w : worker) now :
  (forall c bytes, (send_report (C:=C) c bytes).2 = true) -> (flush_reports w now).2 = true.
Proof.
  intros Hrel. unfold flush_reports, flush. destruct (bytes (control_reports w)) as [|u l]; [done|].
  unfold send_report at 1, logged_channel. specialize (Hrel (channel w).1 (u :: l)).
  destruct (send_report (channel w).1 (u :: l)) as [c q]. cbn in Hrel. subst q. cbn [negb].
  by destruct (foldl _ _ _).
Qed.

Definition empty_batch (w : worker) : Prop :=
  bytes (control_reports w) = [] /\ frames (control_reports w) = [] /\ qos (control_reports w) = None.

Lemma report_qos_spec w now :
  worker_ok w -> qos (control_reports w) = None ->
  exists w' batches, report_qos cfg w now = Ok w' /\ progress w w' batches /\ pending w' = pending w
    /\ ((forall c bytes, (send_report (C:=C) c bytes).2 = true) -> empty_batch w').
Proof.
  intros Hok Hq. unfold report_qos.
  destruct (qos_report_ok (feedback w) (last_qos_report (control_reports w))
    (saturating_duration_since now (transport_origin cfg)) now) as (report & -> & Ht & _); [apply Hok|].
  cbn [infallible map_err]. obind. destruct (qos_record_spec report Ht) as (command & Hcmd & Henc & Hl & _).
  rewrite Hcmd. obind. rewrite Henc, Hl.
  pose proof (make_space w (4 + QOS_REPORT_PAYLOAD_LEN) now Hok ltac:(done) Hq) as Hsp.
  destruct (if negb (fits _ _) then _ else _) as [w1 wr1]. destruct Hsp as (b1 & P1 & E1 & Q1 & F1 & R1).
  destruct wr1.
  2:{ exists w1, b1. split_and!; try done. intros Hrel. by specialize (R1 Hrel). }
  specialize (F1 eq_refl). unfold append_qos, append. rewrite Hl, F1. cbn [negb]. obind.
  set (b := _ <| qos := Some report |>). set (w2 := w1 <| control_reports := b |>).
  destruct (pr_ok _ _ _ P1) as ([H1 H2 H3 H4] & Hf & Hs).
  assert (Hb : batch_ok b).
  { constructor; cbn; unfold const; try done.
    - by rewrite batch_message_qos, <- Henc, Henc, H2, Q1.
    - unfold fits in F1. rewrite zlen_app, Hl. pose proof (zlen_nonneg (bytes (control_reports w1))).
      unfold saturating_add64, U64_MAX, MAX_CONTROL_REPORT_BYTES, QOS_REPORT_PAYLOAD_LEN in *. zbool. lia. }
  assert (P2 : progress w1 w2 []).
  { constructor; try done.
    - exists []. split_and!; [by rewrite app_nil_r|done|constructor].
    - unfold zlen. cbn. unfold const. lia. }
  pose proof (flush_progress w2 now (pr_ok _ _ _ P2)) as Hfl.
  pose proof (flush_reliable w2 now) as Hrel.
  destruct (flush_reports w2 now) as [w3 []]; cbn [fst snd] in *.
  - destruct Hfl as [(b3 & P3 & E3 & B3 & F3 & Q3) _]. exists w3, (b1 ++ [] ++ b3). split; [done|].
    split; [eapply progress_trans; [exact P1|]; by eapply progress_trans|]. split; [by rewrite E3|by intros _].
  - destruct Hfl as [(P3 & _ & E3) _]. exists w3, (b1 ++ [] ++ []). split; [done|].
    split; [eapply progress_trans; [exact P1|]; by eapply progress_trans|]. split; [by rewrite E3|].
    intros Hr. by specialize (Hrel Hr).
Qed.

(** C17: every accepted frame is acknowledged exactly once and in order.  A turn
    of the control worker on any channel that may refuse any write never panics
    (no record is ever appended to a full batch) and ends; each report message
    it queues is a whole batch, acknowledgements first and the QoS report last,
    not empty and no longer than the negotiated maximum; and the frames that
    waited in the batch or were accepted since are, in order, exactly those
    acknowledged followed by those that still wait.  When the channel accepts
    every write no accepted frame is left in the queue, and none in the batch
    either unless a QoS report went out less than the report interval ago. *)
Theorem control_turn_exactly_once (w : worker) (now : Z) (Hok : worker_ok w) :
  exists w' sent batches,
    control_turn cfg w now = Ok w' /\ worker_ok w'
    /\ log w' = log w ++ sent
    /\ List.filter is_report sent = map (batch_message cfg) batches
    /\ Forall (fun message => 0 < zlen message <= max_bytes (control_reports w)) (List.filter is_report sent)
    /\ frames (control_reports w) ++ pending w = concat (map fst batches) ++ frames (control_reports w') ++ pending w'
    /\ frame_acks_sent (control_reports w')
       = Z.min U64_MAX (frame_acks_sent (control_reports w) + zlen (concat (map fst batches)))
    /\ ((forall c bytes, (send_report (C:=C) c bytes).2 = true) ->
         pending w' = []
         /\ (empty_batch w'
             \/ saturating_duration_since now (last_qos_send (control_reports w')) < QOS_REPORT_INTERVAL)).
Proof.
  unfold control_turn.
  assert (H1 : let '(w1, wr1) := if flush_due (control_reports w) now then flush_reports w now else (w, true) in
    exists b1, progress w w1 b1 /\ pending w1 = pending w /\ (wr1 = true -> qos (control_reports w1) = None)
      /\ ((forall c bytes, (send_report (C:=C) c bytes).2 = true) -> wr1 = true)).
  { destruct (flush_due _ _) eqn:Hdue.
    - pose proof (flush_progress w now Hok) as Hfl. pose proof (flush_reliable w now) as Hrel.
      destruct (flush_reports w now) as [w1 []]; cbn [snd] in Hrel.
      + destruct Hfl as [(b1 & P1 & E1 & _ & _ & Q1) _]. by exists b1.
      + destruct Hfl as [(P1 & _ & E1) _]. by exists [].
    - exists []. split_and!; try done; [by apply progress_refl|]. intros _. unfold flush_due in Hdue.
      apply orb_false_iff in Hdue as [Hdue _]. destruct (qos (control_reports w)); [|done].
      rewrite bool_decide_eq_false in Hdue. by destruct Hdue. }
  destruct (if flush_due _ _ then _ else _) as [w1 wr1]. destruct H1 as (b1 & P1 & E1 & Q1 & R1).
  change (NvstFeedbackState.pending_frame_acks (feedback w1)) with (pending w1).
  destruct (collect_spec (S (length (pending w1))) w1 now wr1 (pr_ok _ _ _ P1) Q1 ltac:(lia))
    as (w2 & wr2 & b2 & -> & P2 & E2 & R2). obind.
  pose proof (progress_trans _ _ _ _ _ P1 P2) as P12.
  assert (Hclose : forall w3 b3, progress w w3 b3 ->
    ((forall c bytes, (send_report (C:=C) c bytes).2 = true) -> pending w3 = []
      /\ (empty_batch w3 \/ saturating_duration_since now (last_qos_send (control_reports w3)) < QOS_REPORT_INTERVAL)) ->
    exists sent, worker_ok w3 /\ log w3 = log w ++ sent
      /\ List.filter is_report sent = map (batch_message cfg) b3
      /\ Forall (fun message => 0 < zlen message <= max_bytes (control_reports w)) (List.filter is_report sent)
      /\ frames (control_reports w) ++ pending w = concat (map fst b3) ++ frames (control_reports w3) ++ pending w3
      /\ frame_acks_sent (control_reports w3)
         = Z.min U64_MAX (frame_acks_sent (control_reports w) + zlen (concat (map fst b3)))
      /\ ((forall c bytes, (send_report (C:=C) c bytes).2 = true) -> pending w3 = []
          /\ (empty_batch w3 \/ saturating_duration_since now (last_qos_send (control_reports w3)) < QOS_REPORT_INTERVAL))).
  { intros w3 b3 [(sent & L & F & B) R S _ _ O] Hlive. exists sent. by split_and!. }
  destruct wr2 eqn:Ewr; cbn [andb].
  - destruct (E2 eq_refl) as [Epe Eq]. rewrite Eq, bool_decide_true by done. cbn [andb].
    destruct (Z.leb_spec QOS_REPORT_INTERVAL (saturating_duration_since now (last_qos_send (control_reports w2)))).
    + destruct (report_qos_spec w2 now (pr_ok _ _ _ P2) Eq) as (w3 & b3 & -> & P3 & E3 & R3).
      destruct (Hclose w3 ((b1 ++ b2) ++ b3)) as (sent & Hs); [by eapply progress_trans| |by exists w3, sent, ((b1 ++ b2) ++ b3)].
      intros Hrel. split; [by rewrite E3|]. left. by apply R3.
    + destruct (Hclose w2 (b1 ++ b2)) as (sent & Hs); [done| |by exists w2, sent, (b1 ++ b2)].
      intros _. split; [done|by right].
  - destruct (Hclose w2 (b1 ++ b2)) as (sent & Hs); [done| |by exists w2, sent, (b1 ++ b2)].
    intros Hrel. specialize (R2 Hrel (R1 Hrel)). done.
Qed.

Lemma new_worker_ok max channel f now pacing_at :
  MIN_CONTROL_REPORT_BYTES <= max <= MAX_CONTROL_REPORT_BYTES -> feedback_ok f ->
  worker_ok {| control_reports := ControlReportBatch.new now max; feedback := f; channel := channel;
               last_frame_pacing_send := pacing_at; frame_pacing_reports_sent := 0 |}.
Proof.
  intros Hm Hf. split_and!; [|done|by vm_compute]. constructor; try done. cbn. change (zlen []) with 0.
  unfold MIN_CONTROL_REPORT_BYTES, FRAME_ACK_PAYLOAD_LEN in *. lia.
Qed.
End Progress.

(** A channel that refuses its first write. *)
#[local] Instance hesitant_channel : ReportChannel bool := fun open _ => (true, open).
Definition two_frames : NvstFeedbackState.t :=
  NvstFeedbackState.publish_accepted_frame
    (NvstFeedbackState.publish_accepted_frame NvstFeedbackState.default 1 1200 5000000) 2 900 6000000.
Definition worker_config : config := {| transport_origin := 0; frame_pacing_feedback := true; frame_time_us := 16666 |}.
Definition worker_example : ReportWorker.t (bool * list (list u8)) := {|
  control_reports := ControlReportBatch.new 0 MIN_CONTROL_REPORT_BYTES; feedback := two_frames;
  channel := (false, []); last_frame_pacing_send := 0; frame_pacing_reports_sent := 0 |}.

(** The pacing report is refused; the two acknowledgements go out, each alone in
    a message of the smallest size allowed, and then the QoS report. *)
Lemma control_turn_exactly_once_witness :
  exists w' sent batches,
    control_turn worker_config worker_example 60000000 = Ok w'
    /\ log w' = [] ++ sent
    /\ List.filter is_report sent = map (batch_message worker_config) batches
    /\ frames (control_reports worker_example) ++ pending worker_example
       = concat (map fst batches) ++ frames (control_reports w') ++ pending w'
    /\ length sent = 3%nat.
Proof.
  assert (Hok : worker_ok worker_config worker_example).
  { apply new_worker_ok; [split; vm_compute; congruence|].
    do 2 apply publish_accepted_frame_ok. apply default_feedback_ok. }
  destruct (control_turn_exactly_once worker_config worker_example 60000000 Hok)
    as (w' & sent & batches & Hr & _ & Hl & Hf & _ & Hfr & _).
  exists w', sent, batches. split; [exact Hr|]. split; [exact Hl|]. split; [exact Hf|]. split; [exact Hfr|].
  revert Hl. vm_compute in Hr. injection Hr as <-. vm_compute. intros <-. reflexivity.
Defined.
