(* ===== verification/Receiver.v ===== *)
(** * The video receiver

    [NvstVideoReceiver] of [nvst.rs], which composes the components: a datagram
    is checked and decrypted ([Srtp]), its arrival published ([Feedback]),
    reordered or repaired ([Reorder], [Fec]) and assembled into access units
    ([Assembler]); the timeout and the frame progress watchdog decide when the
    stream needs recovery. *)

From stdpp Require Import list.
From S2P Require Import Prelude Types Rtp Replay BTree Reorder Fec Assembler Control Nack Crypto Srtp Rtcp F64 Bandwidth StageTimings Feedback.

Record NvstFrameProgressPolicy := { stall : Z; keyframe_grace : Z }.

Inductive NvstFrameProgressStage := Tracking | KeyframePending | StageRecoveryRequired.
#[export] Instance NvstFrameProgressStage_eq_dec : EqDecision NvstFrameProgressStage.
Proof. solve_decision. Defined.

Record NvstFrameProgress := {
  fp_authenticated_packets : Z;
  fp_last_authenticated_packet : option Z;
  fp_assembled_frames_total : Z;
  fp_last_assembled_frame_index : option Z;
  fp_last_assembled_at : option Z;
  fp_stage : NvstFrameProgressStage
}.

Inductive NvstFrameProgressEvent :=
  | KeyframeRequested (idle_for : Z) (last_assembled_frame_index : option Z)
  | ProgressRecoveryNeeded (idle_for : Z) (last_assembled_frame_index : option Z).

Module FrameProgressWatchdog.
Record t := {
  first_authenticated_at : option Z;
  first_keyframe_assembled : bool;
  last_assembled_frame_index : option Z;
  stage : NvstFrameProgressStage;
  keyframe_requested_at : option Z
}.

Definition default : t := {|
  first_authenticated_at := None; first_keyframe_assembled := false; last_assembled_frame_index := None;
  stage := Tracking; keyframe_requested_at := None |}.

Definition authenticated (self : t) (now : Z) : t :=
  self <| first_authenticated_at := Some (match first_authenticated_at self with Some at_ => at_ | None => now end) |>.

Definition assembled (self : t) (frame_index : Z) (keyframe : bool) : t * bool :=
  let self := self <| last_assembled_frame_index := Some frame_index |> in
  if negb (first_keyframe_assembled self) && negb keyframe then (self, false) else
  let self := self <| first_keyframe_assembled := true |> in
  let closed_episode := negb (bool_decide (stage self = Tracking)) in
  let self := self <| stage := Tracking |> in
  (self <| keyframe_requested_at := None |>, closed_episode).
End FrameProgressWatchdog.

(** The fields of the configuration the receiver uses. *)
Record NvstVideoConfig := {
  video_peer : SocketAddr;
  video_peer_port_end : option Z;
  srtp_material : NvstSrtpMaterial;
  rtcp_on_sctp : bool;
  video_codec : NvstVideoCodec;
  expected_payload_type : option Z;
  expected_ssrc : option Z;
  reorder_window_packets : Z;
  max_access_unit_bytes : Z;
  timeout : Z;
  startup_timeout : Z;
  video_packet_size : Z
}.

Definition accepts_video_source (self : NvstVideoConfig) (source : SocketAddr) : bool :=
  bool_decide (sa_ip source = sa_ip (video_peer self))
  && (sa_port (video_peer self) <=? sa_port source)
  && (sa_port source <=? match video_peer_port_end self with Some port => port | None => sa_port (video_peer self) end).

(** The reorder buffers return no error. *)
Definition no_error {A} (m : outcome NvstDropReason A) : outcome Empty_set A :=
  match m with Ok a => Ok a | _ => Panic end.
(** [Result::ok] *)
Definition result_ok {E A} (m : outcome E A) : outcome Empty_set (option A) :=
  match m with Ok a => Ok (Some a) | Err _ => Ok None | Panic => Panic end.

Module NvstVideoReceiver.
Record t := {
  config : NvstVideoConfig;
  feedback : NvstFeedbackState.t;
  srtp : SrtpReceiver.t;
  srtcp : option SrtcpSender.t;
  reorder : RtpReorderBuffer.t;
  fec_reorder : FecReorderBuffer.t;
  assembler : VideoAccessUnitAssembler.t;
  last_stream_packet_index : option Z;
  next_frame_contiguous : bool;
  state : NvstReceiverState;
  bound_ssrc : option Z;
  highest_sequence_received : Z;
  authenticated_packets : Z;
  fec_packets : Z;
  fec_repaired_packets : Z;
  frames_emitted : Z;
  replay_rejections : Z;
  stale_packets : Z;
  recovered_retransmissions : Z;
  packet_gap_recoveries : Z;
  timeout_origin : Z;
  last_authenticated_packet : option Z;
  initial_timeout_pending : bool;
  frame_progress : FrameProgressWatchdog.t
}.

Section Receiver.
Context `{Crypto}.

(** [now] is the [Instant::now()] the code reads. *)
Definition new (config : NvstVideoConfig) (feedback : NvstFeedbackState.t) (now : Z) : outcome Empty_set t :=
  srtp ← SrtpReceiver.from_material (srtp_material config);
  srtcp ← (if negb (rtcp_on_sctp config) then SrtcpSender.from_material (srtp_material config) else mret None);
  mret {|
    NvstVideoReceiver.config := config; NvstVideoReceiver.feedback := feedback;
    NvstVideoReceiver.srtp := srtp; NvstVideoReceiver.srtcp := srtcp;
    reorder := RtpReorderBuffer.new (reorder_window_packets config);
    fec_reorder := FecReorderBuffer.new (video_packet_size config);
    assembler := VideoAccessUnitAssembler.new (video_codec config) (max_access_unit_bytes config);
    last_stream_packet_index := None; next_frame_contiguous := true; state := Running; bound_ssrc := None;
    highest_sequence_received := 0; authenticated_packets := 0; fec_packets := 0; fec_repaired_packets := 0;
    frames_emitted := 0; replay_rejections := 0; stale_packets := 0; recovered_retransmissions := 0;
    packet_gap_recoveries := 0; timeout_origin := now; last_authenticated_packet := None;
    initial_timeout_pending := true; frame_progress := FrameProgressWatchdog.default |}.

(** [self.counter += n], a [u64]. *)
Definition bump (counter n : Z) : Z := as_u64 (counter + n).

Definition reset_media_state (self : t) (now : Z) : t :=
  let self := self <| reorder := RtpReorderBuffer.reset (reorder self) |> in
  let self := self <| fec_reorder := FecReorderBuffer.reset (fec_reorder self) |> in
  let self := self <| assembler := VideoAccessUnitAssembler.reset (assembler self) |> in
  let self := self <| last_stream_packet_index := None |> in
  let self := self <| next_frame_contiguous := false |> in
  let fb := (feedback self) <| NvstFeedbackState.frame_packet_timings := [] |> in
  let self := self <| feedback := NvstFeedbackState.reset_frame_stage_epoch fb now |> in
  self <| frame_progress := FrameProgressWatchdog.default |>.

Definition set_state (self : t) (s : NvstReceiverState) : t * option NvstReceiveEvent :=
  (self <| state := s |>, Some (EvLifecycle s)).

Definition pause (self : t) (now : Z) : t * option NvstReceiveEvent :=
  if negb (bool_decide (state self = Running)) then (self, None) else
  set_state (reset_media_state self now) Paused.

(** The common part of [resume] and [recover]. *)
Definition restart (self : t) (now : Z) : t * option NvstReceiveEvent :=
  let self := reset_media_state self now in
  let self := self <| last_authenticated_packet := None |> in
  let self := self <| timeout_origin := now |> in
  let self := self <| initial_timeout_pending := false |> in
  set_state self Running.
Definition resume (self : t) (now : Z) : t * option NvstReceiveEvent :=
  if negb (bool_decide (state self = Paused)) then (self, None) else restart self now.
Definition recover (self : t) (now : Z) : t * option NvstReceiveEvent :=
  if negb (bool_decide (state self = RecoveryRequired)) then (self, None) else restart self now.

Definition stop (self : t) (now : Z) : t * option NvstReceiveEvent :=
  if bool_decide (state self = Stopped) then (self, None) else
  set_state (reset_media_state self now) Stopped.

Definition poll_timeout (self : t) (now : Z) : t * option NvstReceiveEvent :=
  if negb (bool_decide (state self = Running)) then (self, None) else
  let last_packet := match last_authenticated_packet self with Some at_ => at_ | None => timeout_origin self end in
  let idle_for := saturating_duration_since now last_packet in
  let limit := if initial_timeout_pending self then startup_timeout (config self) else timeout (config self) in
  if idle_for <? limit then (self, None) else
  let self := reset_media_state self now in
  (self <| state := RecoveryRequired |>, Some (EvRecoveryNeeded (RecoveryTimeout idle_for))).

Definition progress_report (self : t) : outcome Empty_set NvstFrameProgress :=
  stage ← FrameStageTimingsAccumulator.snapshot (NvstFeedbackState.frame_stage_timings (feedback self));
  mret {|
    fp_authenticated_packets := authenticated_packets self;
    fp_last_authenticated_packet := last_authenticated_packet self;
    fp_assembled_frames_total := FrameStageTimings.assembled_frames_total stage;
    fp_last_assembled_frame_index := FrameProgressWatchdog.last_assembled_frame_index (frame_progress self);
    fp_last_assembled_at := FrameStageTimings.last_assembled_at stage;
    fp_stage := FrameProgressWatchdog.stage (frame_progress self) |}.

(** Since when no frame has been produced; [None] is the early return. *)
Definition progress_base (self : t) : option Z :=
  let assembled_at := NvstFeedbackState.last_assembled_frame_at (feedback self) in
  let epoch_at := FrameProgressWatchdog.first_authenticated_at (frame_progress self) in
  if negb (FrameProgressWatchdog.first_keyframe_assembled (frame_progress self)) then epoch_at else
  match assembled_at, epoch_at with
  | Some assembled, Some epoch => Some (Z.max assembled epoch)
  | Some assembled, None => Some assembled
  | None, epoch => epoch
  end.

Definition poll_frame_progress (self : t) (now : Z) (policy : NvstFrameProgressPolicy) : t * option NvstFrameProgressEvent :=
  if negb (bool_decide (state self = Running)) then (self, None) else
  match progress_base self with
  | None => (self, None)
  | Some base =>
      let idle_for := saturating_duration_since now base in
      let progress := frame_progress self in
      let last_index := FrameProgressWatchdog.last_assembled_frame_index progress in
      match FrameProgressWatchdog.stage progress with
      | Tracking =>
          if idle_for <? stall policy then (self, None) else
          let progress := progress <| FrameProgressWatchdog.stage := KeyframePending |> in
          let progress := progress <| FrameProgressWatchdog.keyframe_requested_at := Some now |> in
          let self := self <| frame_progress := progress |> in
          (self <| feedback := NvstFeedbackState.request_keyframe (feedback self) |>,
           Some (KeyframeRequested idle_for last_index))
      | KeyframePending =>
          let grace_started := match FrameProgressWatchdog.keyframe_requested_at progress with Some at_ => at_ | None => now end in
          if saturating_duration_since now grace_started <? keyframe_grace policy then (self, None) else
          let self := self <| frame_progress := (progress <| FrameProgressWatchdog.stage := StageRecoveryRequired |>) |> in
          (self <| state := RecoveryRequired |>, Some (ProgressRecoveryNeeded idle_for last_index))
      | StageRecoveryRequired => (self, None)
      end
  end.

Definition invalidate_picture (self : t) : t :=
  let self := self <| assembler := VideoAccessUnitAssembler.reset (assembler self) |> in
  let self := self <| last_stream_packet_index := None |> in
  let self := self <| next_frame_contiguous := false |> in
  self <| feedback := NvstFeedbackState.request_keyframe (feedback self) |>.

Definition clear_nacks (self : t) : t :=
  let fb := (feedback self) <| NvstFeedbackState.pending_nacks := Nack.clear_nacks (NvstFeedbackState.pending_nacks (feedback self)) |> in
  self <| feedback := fb |>.
(** The early returns of the receiver that is not running. *)
Definition refusal (s : NvstReceiverState) : option NvstDropReason :=
  match s with
  | Paused => Some DropPaused
  | Stopped => Some DropStopped
  | RecoveryRequired => Some DropRecoveryRequired
  | Running => None
  end.

(** [if let Some(expected) = expected && actual != expected] *)
Definition mismatch (expected : option Z) (actual : Z) : option Z :=
  match expected with
  | Some expected => if negb (actual =? expected) then Some expected else None
  | None => None
  end.

(** The checks of [process_datagram] up to the first change of the state of an
    accepted packet. *)
Definition admission (self : t) (source : SocketAddr) (datagram : list u8)
    : outcome Empty_set (t * (NvstDropReason + RtpPacket)) :=
  if negb (accepts_video_source (config self) source)
  then mret (self, inl (UnexpectedSource (video_peer (config self)) source)) else
  match refusal (state self) with
  | Some reason => mret (self, inl reason)
  | None =>
      match SrtpReceiver.unprotect (srtp self) datagram with
      | Panic => Panic
      | Err reason =>
          let self := if bool_decide (reason = ReplayRejected)
            then self <| replay_rejections := bump (replay_rejections self) 1 |> else self in
          mret (self, inl reason)
      | Ok (srtp, packet) =>
          let self := self <| NvstVideoReceiver.srtp := srtp |> in
          let header := pk_header packet in
          match mismatch (expected_payload_type (config self)) (RtpHeader.payload_type header) with
          | Some expected => mret (self, inl (UnexpectedPayloadType expected (RtpHeader.payload_type header)))
          | None =>
              let expected_ssrc := match expected_ssrc (config self) with Some ssrc => Some ssrc | None => bound_ssrc self end in
              match mismatch expected_ssrc (RtpHeader.ssrc header) with
              | Some expected => mret (self, inl (UnexpectedSsrc expected (RtpHeader.ssrc header)))
              | None => mret (self, inr packet)
              end
          end
      end
  end.

(** What the bandwidth estimator is shown of a packet. *)
Definition video_sample_of (packet : RtpPacket) (sequence : Z) (fresh : bool) : outcome Empty_set (option NvstFeedbackState.video_sample) :=
  if negb fresh then mret None else
  payload ← result_ok (RtpHeader.payload (pk_header packet) (pk_plaintext packet));
  match payload with
  | None => mret None
  | Some payload =>
      parsed ← result_ok (NvVideoPacket.parse (pk_header packet) payload);
      mret (match parsed with
            | None => None
            | Some (video, payload) =>
                Some (NvVideoPacket.frame_index video, sequence, zlen payload,
                      NvVideoPacket.is_start_of_frame video, NvVideoPacket.is_end_of_frame video,
                      NvVideoPacket.is_fec video)
            end)
  end.

(** The bookkeeping of an accepted packet: the counters and the timers, ... *)
Definition note_authenticated (self : t) (packet : RtpPacket) (now : Z) : t * bool :=
  let self := self <| bound_ssrc := Some (default (RtpHeader.ssrc (pk_header packet)) (bound_ssrc self)) |> in
  let self := self <| last_authenticated_packet := Some now |> in
  let self := self <| initial_timeout_pending := false |> in
  let self := self <| frame_progress := FrameProgressWatchdog.authenticated (frame_progress self) now |> in
  let self := self <| authenticated_packets := bump (authenticated_packets self) 1 |> in
  let sequence := Z.land (pk_index packet) 0xffffffff in
  let reordered := (1 <? authenticated_packets self) && (sequence <=? highest_sequence_received self) in
  (self <| highest_sequence_received := Z.max (highest_sequence_received self) sequence |>, reordered).

(** ... the retransmission it may be, ... *)
Definition note_retransmission (self : t) (packet : RtpPacket) : t * bool :=
  let '(fb, retransmitted) := NvstFeedbackState.on_nacks (fun q => Nack.resolve_nack q (pk_index packet)) (feedback self) in
  let self := self <| feedback := fb |> in
  (if (retransmitted : bool)
   then self <| recovered_retransmissions := bump (recovered_retransmissions self) 1 |> else self, retransmitted).

(** ... the statistics of the stream. *)
Definition account (self : t) (packet : RtpPacket) (now : Z) : outcome Empty_set t :=
  fb ← match RtpHeader.gs_video_header (pk_header packet) with
       | Some extension =>
           word ← slice extension 4 8;
           mret (NvstFeedbackState.record_frame_packet (feedback self) (from_le_bytes word) now)
       | None => mret (feedback self)
       end;
  let '(self, reordered) := note_authenticated (self <| feedback := fb |>) packet now in
  let '(self, retransmitted) := note_retransmission self packet in
  video ← video_sample_of packet (Z.land (pk_index packet) 0xffffffff) (negb retransmitted && negb reordered);
  fb ← NvstFeedbackState.publish_stream_packet (feedback self) (RtpHeader.ssrc (pk_header packet))
    (highest_sequence_received self) (RtpHeader.timestamp (pk_header packet)) now video;
  mret (self <| feedback := fb |>).

(** The packet goes through the FEC buffer when it names a block, through the
    plain reorder buffer otherwise. *)
Definition reorder_packet (self : t) (packet : RtpPacket) (now : Z) : outcome Empty_set (t * ReorderResult) :=
  match FecPacketLayout.from_packet packet with
  | Some layout =>
      let is_data := FecPacketLayout.shard_index layout <? FecPacketLayout.data_shards layout in
      let self := if negb is_data then self <| fec_packets := bump (fec_packets self) 1 |> else self in
      out ← no_error (FecReorderBuffer.push (fec_reorder self) packet layout now);
      let '(fec, result) := out in
      let self := self <| fec_reorder := fec |> in
      let unsupported := match dropped result with Some (Unsupported _) => true | _ => false end in
      mret (if is_data && unsupported then invalidate_picture self else self, result)
  | None =>
      out ← no_error (RtpReorderBuffer.push (reorder self) packet now);
      let '(buffer, result) := out in
      mret (self <| reorder := buffer |>, result)
  end.

(** What the receiver makes of the result apart from the packets. *)
Definition note_result (self : t) (result : ReorderResult) (now : Z) : t * list NvstReceiveEvent :=
  let self := self <| fec_repaired_packets := bump (fec_repaired_packets self) (fec_repaired result) |> in
  let self := match nack result with
    | Some (first, last) =>
        let fb := (feedback self) <| NvstFeedbackState.pending_nacks :=
          Nack.request_nack (NvstFeedbackState.pending_nacks (feedback self)) first last now |> in
        self <| feedback := fb |>
    | None => self
    end in
  let '(self, events) := match dropped result with
    | Some reason =>
        (match reason with
         | StaleRtpPacket _ => self <| stale_packets := bump (stale_packets self) 1 |>
         | _ => self
         end, [EvDropped reason])
    | None => (self, [])
    end in
  match recovery result with
  | Some recovery =>
      let self := self <| packet_gap_recoveries := bump (packet_gap_recoveries self) 1 |> in
      (clear_nacks (invalidate_picture self), events ++ [EvRecoveryNeeded recovery])
  | None => (self, events)
  end.

Definition emit_frame (self : t) (frame : EncodedVideoAccessUnit) : t * list NvstReceiveEvent :=
  let frame := frame <| au_contiguous := next_frame_contiguous self |> in
  let self := self <| next_frame_contiguous := true |> in
  let self := self <| frames_emitted := bump (frames_emitted self) 1 |> in
  let '(progress, resumed) := FrameProgressWatchdog.assembled (frame_progress self) (au_frame_index frame) (au_keyframe frame) in
  let self := self <| frame_progress := progress |> in
  let fb := NvstFeedbackState.publish_completed_frame (feedback self) frame in
  let fb := NvstFeedbackState.complete_frame_packets fb (au_frame_index frame) in
  (self <| feedback := fb |>, (if (resumed : bool) then [EvFrameProgressResumed] else []) ++ [EvFrame frame]).

Definition drop_packet (self : t) (reason : NvstDropReason) : t * list NvstReceiveEvent :=
  (invalidate_picture self, [EvDropped reason]).

(** A start of frame while another frame is open. *)
Definition close_open_frame (self : t) (header : NvVideoPacket.t) : t * list NvstReceiveEvent :=
  let other := match VideoAccessUnitAssembler.current_frame (assembler self) with
    | Some current => negb (current =? NvVideoPacket.frame_index header)
    | None => false
    end in
  if NvVideoPacket.is_start_of_frame header && other
  then (clear_nacks (invalidate_picture self), [EvDropped FrameDiscontinuity])
  else (self, []).

(** A gap of the stream packet index inside a frame. *)
Definition index_gap (self : t) (header : NvVideoPacket.t) : bool :=
  negb (NvVideoPacket.is_start_of_frame header)
  && bool_decide (VideoAccessUnitAssembler.current_frame (assembler self) = Some (NvVideoPacket.frame_index header))
  && match last_stream_packet_index self with
     | Some last => negb (Z.land (as_u32 (last + 1)) STREAM_PACKET_INDEX_MASK =? NvVideoPacket.stream_packet_index header)
     | None => false
     end.

Definition assemble (self : t) (header : NvVideoPacket.t) (timestamp : Z) (media : list u8)
    : outcome Empty_set (t * list NvstReceiveEvent) :=
  let '(self, events) := close_open_frame self header in
  if index_gap self header then
    let '(self, more) := drop_packet self FrameDiscontinuity in mret (self, events ++ more)
  else
    let self := self <| last_stream_packet_index := Some (NvVideoPacket.stream_packet_index header) |> in
    let '(assembler, pushed) := VideoAccessUnitAssembler.push (assembler self) header timestamp media in
    let self := self <| NvstVideoReceiver.assembler := assembler |> in
    match pushed with
    | Panic => Panic
    | Ok None => mret (self, events)
    | Ok (Some frame) => let '(self, more) := emit_frame self frame in mret (self, events ++ more)
    | Err reason => let '(self, more) := drop_packet self reason in mret (self, events ++ more)
    end.

(** The body of the loop over the ready packets. *)
Definition deliver_packet (self : t) (packet : RtpPacket) : outcome Empty_set (t * list NvstReceiveEvent) :=
  match RtpHeader.payload (pk_header packet) (pk_plaintext packet) with
  | Panic => Panic
  | Err error => mret (drop_packet self (MalformedRtp error))
  | Ok payload =>
      match NvVideoPacket.parse (pk_header packet) payload with
      | Panic => Panic
      | Err error => mret (drop_packet self (MalformedRtp error))
      | Ok (nv_packet, media) =>
          let nv_packet := if bool_decide (pk_origin packet = RecoveredData)
            then nv_packet <| NvVideoPacket.is_fec := false |> else nv_packet in
          if NvVideoPacket.is_fec nv_packet then
            mret (self <| fec_packets := bump (fec_packets self) 1 |>, [EvDropped (Unsupported FecRepair)])
          else assemble self nv_packet (RtpHeader.timestamp (pk_header packet)) media
      end
  end.

Definition deliver_step (st : t * list NvstReceiveEvent) (packet : RtpPacket) : outcome Empty_set (t * list NvstReceiveEvent) :=
  out ← deliver_packet st.1 packet;
  mret (out.1, st.2 ++ out.2).

Definition process_datagram (self : t) (source : SocketAddr) (datagram : list u8) (now : Z)
    : outcome Empty_set (t * list NvstReceiveEvent) :=
  admitted ← admission self source datagram;
  let '(self, verdict) := admitted in
  match verdict with
  | inl reason => mret (self, [EvDropped reason])
  | inr packet =>
      self ← account self packet now;
      reordered ← reorder_packet self packet now;
      let '(self, result) := reordered in
      ofold deliver_step (ready result) (note_result self result now)
  end.

(** The snapshot is taken, and the interval it closes, whenever the sender
    exists; only then does the sender decide whether a report is due. *)
Definition poll_receiver_report (self : t) (now : Z) : outcome Empty_set (t * option (list u8)) :=
  if negb (bool_decide (state self = Running)) then mret (self, None) else
  match srtcp self with
  | None => mret (self, None)
  | Some sender =>
      let '(fb, block) := NvstFeedbackState.report_snapshot (feedback self) true in
      let self := self <| feedback := fb |> in
      out ← SrtcpSender.poll_receiver_report sender block now;
      mret (self <| srtcp := Some out.1 |>, out.2)
  end.

Definition process_mjolnir_payload (self : t) (ssrc now : Z) : t * list NvstReceiveEvent :=
  match refusal (state self) with
  | Some reason => (self, [EvDropped reason])
  | None =>
      let self := self <| bound_ssrc := Some (default ssrc (bound_ssrc self)) |> in
      let self := self <| last_authenticated_packet := Some now |> in
      (self <| initial_timeout_pending := false |>, [])
  end.
End Receiver.
End NvstVideoReceiver.
