(* ===== verification/VideoSession.v ===== *)
(** * The video session: safety and honesty of the receiver

    What the composition of [Receiver] guarantees whatever arrives: no
    operation panics, every buffer keeps its invariant, and the events never
    hide a loss from the decoder. *)

From stdpp Require Import gmap.
From S2P Require Import Prelude Types Rtp Replay BTree Reorder Fec Assembler Control Nack Crypto Srtp Rtcp F64 Bandwidth StageTimings Feedback Receiver.

(** ** The results of the two reorder buffers *)

(** What the receiver needs of a result: packets with parsed headers, a range
    of indices to ask for, a reason that concerns the packet itself. *)
Definition packet_refused (reason : NvstDropReason) : Prop :=
  match reason with
  | StaleRtpPacket _ | DuplicateRtpPacket _ | Unsupported _ => True
  | _ => False
  end.
Record result_safe (r : ReorderResult) : Prop := {
  rs_ready : Forall (fun p => header_wf (pk_header p)) (ready r);
  rs_nack : forall a b, nack r = Some (a, b) -> 0 <= a <= b /\ b <= U64_MAX;
  rs_dropped : forall reason, dropped r = Some reason -> packet_refused reason
}.

Lemma dropped_safe d : (forall reason, d = Some reason -> packet_refused reason) -> result_safe (result_dropped d).
Proof. by constructor. Qed.
Lemma none_dropped_safe : result_safe (result_dropped None).
Proof. by apply dropped_safe. Qed.

(** An accepted packet: its header was parsed, its index is 48 bits wide. *)
Record accepted_packet (p : RtpPacket) : Prop := {
  ac_header : header_wf (pk_header p);
  ac_offset : RtpHeader.payload_offset (pk_header p) <= zlen (pk_plaintext p);
  ac_index : 0 <= pk_index p < 2 ^ 48
}.

Definition reorder_near (st : RtpReorderBuffer.t) : Prop :=
  forall k p, BTreeMap.get (RtpReorderBuffer.packets st) k = Some p -> accepted_packet p /\ pk_index p = k.

Lemma reorder_push_safe st p now :
  reorder_wf st -> reorder_near st -> accepted_packet p ->
  exists st' r, RtpReorderBuffer.push st p now = Ok (st', r)
    /\ reorder_wf st' /\ reorder_near st' /\ result_safe r.
Proof.
  intros Hwf Hnear Hp. destruct (push_spec st p now Hwf) as (st' & r & Hpush & Hwf' & Hres); [apply Hp|].
  exists st', r. split; [done|]. split; [done|].
  destruct Hres as [| |st' r start Hnext Hnew Hset Hstart Hready Hrec];
    [split; [done|]; apply dropped_safe; by intros ? [= <-]..|].
  assert (Hoff : forall k q, BTreeMap.get (offered st p) k = Some q -> accepted_packet q /\ pk_index q = k).
  { assert (Hm : BTreeMap.wf (RtpReorderBuffer.packets st)).
    { destruct Hwf as [_ Hn]. destruct (RtpReorderBuffer.next_index st); [apply Hn|]. destruct Hn as [-> _]. constructor. }
    intros k q. unfold offered. rewrite bt_get_insert by done.
    destruct (Z.eqb_spec k (pk_index p)) as [->|]; [by intros [= <-]|apply Hnear]. }
  assert (Hnear' : reorder_near st').
  { intros k q. rewrite (se_held _ _ _ _ _ _ Hset). destruct (k <? _); [done|apply Hoff]. }
  split; [done|]. constructor.
  - apply Forall_forall. intros q Hq. apply (Hoff _ _ (Hready q Hq)).
  - intros a b Hn. destruct (se_nack _ _ _ _ _ _ Hset a b Hn) as (-> & Hab & q & Hq).
    pose proof (se_start _ _ _ _ _ _ Hset). pose proof (zlen_nonneg (ready r)).
    assert (0 <= next_before st p).
    { unfold next_before. destruct Hwf as [_ Hw]. destruct (RtpReorderBuffer.next_index st); cbn [default]; unfold id; [apply Hw|apply Hp]. }
    destruct (Hnear' _ _ (bt_first_get _ _ _ Hq)) as [[_ _ Hi] Hk]. unfold U64_MAX. lia.
  - by rewrite (se_dropped _ _ _ _ _ _ Hset).
Qed.

Record fec_near (st : FecReorderBuffer.t) : Prop := {
  fn_base : forall base b, BTreeMap.get (FecReorderBuffer.blocks st) base = Some b -> 0 <= base < 2 ^ 48;
  fn_through : forall c, FecReorderBuffer.completed_through st = Some c -> 0 <= c
}.

Lemma delivered_headers b rs : block_wf b -> delivered_block b rs -> Forall (fun p => header_wf (pk_header p)) rs.
Proof.
  intros Hb Hd. apply Forall_lookup. intros i p Hi.
  assert (Hlt : (i < length (slots b))%nat).
  { destruct (block_counts b Hb) as (_ & _ & ->). rewrite <- (db_len _ _ Hd). by eapply lookup_lt_Some. }
  destruct (lookup_lt_is_Some_2 _ _ Hlt) as [[q|] Hq].
  - rewrite (db_received _ _ Hd i q Hq) in Hi. injection Hi as <-.
    unfold slots in Hq. apply lookup_take_Some in Hq as [Hq _]. apply (bw_packet _ Hb i q Hq).
  - destruct (db_recovered _ _ Hd i Hq) as (q & Hr & Hok & _). rewrite Hr in Hi. injection Hi as <-. apply Hok.
Qed.

Definition fec_inv (st : FecReorderBuffer.t) (r : ReorderResult) : Prop := fec_wf st /\ fec_near st /\ result_safe r.

Lemma fec_near_remove st st' base c :
  BTreeMap.wf (FecReorderBuffer.blocks st) -> fec_near st ->
  FecReorderBuffer.blocks st' = BTreeMap.remove base (FecReorderBuffer.blocks st) ->
  FecReorderBuffer.completed_through st' = Some c -> 0 <= c -> fec_near st'.
Proof.
  intros Hwf [Hb _] Heq Hc Hc0. constructor; [|intros c'; rewrite Hc; intros [= <-]; lia].
  intros k b. rewrite Heq, bt_get_remove by done. destruct (k =? base); [done|apply Hb].
Qed.

Lemma fec_near_insert st st' base b :
  BTreeMap.wf (FecReorderBuffer.blocks st) -> fec_near st -> 0 <= base < 2 ^ 48 ->
  FecReorderBuffer.blocks st' = BTreeMap.insert base b (FecReorderBuffer.blocks st) ->
  FecReorderBuffer.completed_through st' = FecReorderBuffer.completed_through st -> fec_near st'.
Proof.
  intros Hwf [Hb Hc] Hbase Heq Hth. constructor; [|by rewrite Hth].
  intros k q. rewrite Heq, bt_get_insert by done. destruct (Z.eqb_spec k base) as [->|]; [done|apply Hb].
Qed.

Lemma fec_step_inv now st r out :
  fec_inv st r -> step_case st now r out ->
  match out with inl (st', r') => fec_inv st' r' | inr (st', r') => fec_inv st' r' end.
Proof.
  intros (Hwf & Hnear & Hr) Hstep. pose proof (step_wf _ _ _ _ Hwf Hstep) as Hwf'.
  assert (Hhead : forall base b, BTreeMap.first_key_value (FecReorderBuffer.blocks st) = Some (base, b) ->
    0 <= base < 2 ^ 48 /\ block_wf b).
  { intros base b Hf%bt_first_get. split; [by eapply fn_base|apply (fw_block _ Hwf _ _ Hf)]. }
  assert (Hend : forall base b, BTreeMap.first_key_value (FecReorderBuffer.blocks st) = Some (base, b) ->
    0 <= FecReorderBuffer.block_end base b).
  { intros base b Hf. destruct (Hhead _ _ Hf) as [? Hb]. destruct (bw_layout _ Hb). unfold FecReorderBuffer.block_end. lia. }
  assert (Hrun : forall base b first last_ run, BTreeMap.first_key_value (FecReorderBuffer.blocks st) = Some (base, b) ->
    missing_run b first last_ run ->
    0 <= base + Z.of_nat first <= base + Z.of_nat first + (Z.of_nat run - 1)
    /\ base + Z.of_nat first + (Z.of_nat run - 1) <= U64_MAX).
  { intros base b first last_ run Hf Hm. destruct (Hhead _ _ Hf) as [? Hb]. destruct (mr_run _ _ _ _ Hm) as [? Hin].
    destruct (block_counts b Hb) as (_ & Hle & Hlen). destruct (bw_layout _ Hb).
    pose proof (lookup_lt_Some _ _ _ (Hin (first + run - 1)%nat ltac:(lia))) as Hl.
    unfold total_count in Hle. unfold U64_MAX. lia. }
  destruct Hstep as [He|base b c g Hf Hc Hlt Hlen|base b c Hf Hc Hlt|base b rs n Hf Hge Hfin Hdel
    |base b e first last_ run Hf Hfin Hm|base b Hf Hlen|base b first last_ run g Hf Hm Hlen|base b first last_ run Hf Hge Hm];
    (split; [exact Hwf'|]).
  - split; [destruct Hnear; by constructor|done].
  - split; [destruct Hnear; by constructor|]. constructor; [apply Hr| |apply Hr]. cbn. intros x y [= <- <-].
    destruct (Hhead _ _ Hf). pose proof (fn_through _ Hnear c Hc). unfold U64_MAX. lia.
  - destruct (Hhead _ _ Hf). split; [|by constructor; [| |apply Hr]]. constructor; [apply Hnear|]. cbn. intros ? [= <-]. lia.
  - destruct (Hhead _ _ Hf) as [_ Hb]. split.
    + eapply (fec_near_remove st _ base (FecReorderBuffer.block_end base b)); [apply Hwf|done|done|done|by apply Hend].
    + constructor; [|apply Hr|apply Hr]. cbn. apply Forall_app. split; [apply Hr|by eapply delivered_headers].
  - split.
    + set (st1 := st <| FecReorderBuffer.blocks ::= BTreeMap.remove base |>).
      assert (Hst1 : BTreeMap.wf (FecReorderBuffer.blocks st1)) by apply bt_remove_wf, Hwf.
      apply (fec_near_insert st1 _ base (b <| FecBlock.repair_failed := true |>)); [done| |apply (Hhead _ _ Hf)|done|done].
      constructor; [|apply Hnear]. intros k q. unfold st1. change (FecReorderBuffer.blocks _) with (BTreeMap.remove base (FecReorderBuffer.blocks st)).
      rewrite bt_get_remove by apply Hwf. destruct (k =? base); [done|apply Hnear].
    + constructor; [apply Hr| |apply Hr]. cbn. intros x y [= <- <-]. by eapply Hrun.
  - done.
  - split; [destruct Hnear; by constructor|]. constructor; [apply Hr| |apply Hr]. cbn. intros x y [= <- <-]. by eapply Hrun.
  - split; [|by constructor; [| |apply Hr]].
    eapply (fec_near_remove st _ base (FecReorderBuffer.block_end base b)); [apply Hwf|done|done|done|by apply Hend].
Qed.

Lemma fec_push_safe st p l now :
  fec_wf st -> fec_near st -> packet_ok p -> pk_index p < 2 ^ 48 -> layout_wf l ->
  exists st' r, FecReorderBuffer.push st p l now = Ok (st', r) /\ fec_inv st' r.
Proof.
  intros Hwf Hnear Hp Hi Hl. destruct (push_cases st p l now Hwf Hp Hl) as [c Hc Hlt|m reason -> Hreason|b b' Hthrough Hget Hmatch Hb Hb' Hlay Hbase Hslot Hsh].
  - exists st, (result_dropped None). split; [done|]. split; [done|]. split; [done|apply none_dropped_safe].
  - eexists _, _. split; [reflexivity|]. split; [by eapply fec_wf_eq|]. split; [destruct Hnear; by constructor|].
    apply dropped_safe. intros ? [= <-]. by destruct Hreason as [-> | ->].
  - set (st1 := st <| FecReorderBuffer.blocks ::= BTreeMap.insert (FecBlock.base_index b) b' |>).
    assert (Hrange : 0 <= FecBlock.base_index b < 2 ^ 48).
    { destruct Hmatch as (_ & _ & ->). destruct Hl. unfold saturating_sub. lia. }
    assert (Hst1 : fec_inv st1 (result_dropped None)).
    { split; [by apply (fec_wf_insert st _ (FecBlock.base_index b) b')|]. split; [|apply none_dropped_safe].
      apply (fec_near_insert st _ (FecBlock.base_index b) b'); [apply Hwf|done..]. }
    destruct (loop_ind fec_inv fec_inv now) with (fuel := FecReorderBuffer.fuel_for st1) (st := st1) (r := result_dropped None)
      as (st' & r & Heq & Hinv); [by intros ?? []|..|exact Hst1|apply fuel_enough|by exists st', r].
    intros st2 r2 out H1 H2. exact (fec_step_inv now st2 r2 out H1 H2).
Qed.

(** ** Losses and the frames after them *)

(** Events that tell of a loss in the picture stream (the recovery of a stream
    that produces no frames tells of none, the lifecycle event after it does). *)
Definition loses (e : NvstReceiveEvent) : bool :=
  match e with
  | EvRecoveryNeeded (RecoveryFrameProgress _ _) => false
  | EvRecoveryNeeded _ | EvLifecycle _ => true
  | EvDropped reason =>
      match reason with
      | FrameDiscontinuity | AwaitingStartOfFrame | MissingAnnexBStartCode
      | InvalidLastPacketPayloadLength _ _ _ | AccessUnitTooLarge _ | MediaConsumerBackpressured => true
      | _ => false
      end
  | _ => false
  end.

(** Reading events in order: [whole] tells whether nothing was lost since the
    last frame.  [None]: a frame claims to follow the last one and does not. *)
Definition mark (whole : bool) (e : NvstReceiveEvent) : option bool :=
  match e with
  | EvFrame frame => if au_contiguous frame && negb whole then None else Some true
  | e => Some (whole && negb (loses e))
  end.
Fixpoint trace (whole : bool) (es : list NvstReceiveEvent) : option bool :=
  match es with
  | [] => Some whole
  | e :: es => match mark whole e with Some whole => trace whole es | None => None end
  end.

Lemma trace_app whole es fs :
  trace whole (es ++ fs) = match trace whole es with Some whole => trace whole fs | None => None end.
Proof. revert whole. induction es as [|e es IH]; intros whole; [done|]. cbn. by destruct (mark whole e). Qed.

(** ** The receiver's invariant *)

Section Session.
Context `{CryptoLaws}.
Import NvstVideoReceiver.

Record counters_ok (self : t) : Prop := {
  co_authenticated : is_u64 (authenticated_packets self);
  co_fec : is_u64 (fec_packets self);
  co_repaired : is_u64 (fec_repaired_packets self);
  co_frames : is_u64 (frames_emitted self);
  co_replay : is_u64 (replay_rejections self);
  co_stale : is_u64 (stale_packets self);
  co_recovered : is_u64 (recovered_retransmissions self);
  co_gaps : is_u64 (packet_gap_recoveries self);
  co_highest : is_u32 (highest_sequence_received self)
}.

Record receiver_ok (cfg : NvstVideoConfig) (self : t) : Prop := {
  ro_config : config self = cfg;
  ro_limit : 0 <= max_access_unit_bytes cfg;
  ro_cipher : cipher_wf (SrtpReceiver.cipher (srtp self));
  ro_replay : exists S, replay_rel (SrtpReceiver.replay (srtp self)) S;
  ro_srtcp : forall s, srtcp self = Some s -> srtcp_keys_ok (sender_keys s).1.1 (sender_keys s).1.2 (sender_keys s).2;
  ro_reorder : reorder_wf (reorder self) /\ reorder_near (reorder self);
  ro_fec : fec_wf (fec_reorder self) /\ fec_near (fec_reorder self);
  ro_assembler : asm_wf (assembler self);
  ro_codec : VideoAccessUnitAssembler.codec (assembler self) = video_codec cfg;
  ro_max : VideoAccessUnitAssembler.max_access_unit_bytes (assembler self) = max_access_unit_bytes cfg;
  ro_feedback : feedback_ok (feedback self);
  ro_counters : counters_ok self
}.

(** A frame within the configured limits. *)
Definition event_ok (cfg : NvstVideoConfig) (e : NvstReceiveEvent) : Prop :=
  match e with
  | EvFrame frame => au_codec frame = video_codec cfg /\ zlen (au_bytes frame) <= max_access_unit_bytes cfg
  | _ => True
  end.

Record sound (cfg : NvstVideoConfig) (whole : bool) (self : t) : Prop := {
  so_ok : receiver_ok cfg self;
  so_flag : next_frame_contiguous self = true -> whole = true
}.

Definition yields (cfg : NvstVideoConfig) (whole : bool) (out : t * list NvstReceiveEvent) : Prop :=
  exists whole', trace whole out.2 = Some whole' /\ sound cfg whole' out.1 /\ Forall (event_ok cfg) out.2.

Lemma yields_nil cfg whole self : sound cfg whole self -> yields cfg whole (self, []).
Proof. intros. exists whole. split_and!; [done|done|constructor]. Qed.
Lemma yields_app cfg whole self self' es fs :
  yields cfg whole (self, es) -> (forall whole', sound cfg whole' self -> yields cfg whole' (self', fs)) ->
  yields cfg whole (self', es ++ fs).
Proof.
  intros (w1 & Ht & Hs & Hes) Hf. destruct (Hf w1 Hs) as (w2 & Ht2 & Hs2 & Hfs). exists w2. cbn in *.
  rewrite trace_app, Ht. split_and!; [done|done|by apply Forall_app].
Qed.

(** After an invalidation any event but a frame may follow. *)
Lemma yields_broken cfg whole self e :
  receiver_ok cfg self -> next_frame_contiguous self = false -> (forall frame, e <> EvFrame frame) ->
  yields cfg whole (self, [e]).
Proof.
  intros Hok Hf He. destruct e as [frame| | | | | | | | | | | |]; [by destruct (He frame)|..].
  all: eexists; cbn; split_and!; [reflexivity|split; [done|by rewrite Hf]|by repeat constructor].
Qed.
(** An event that tells of no loss changes nothing. *)
Lemma yields_quiet cfg whole self e :
  sound cfg whole self -> loses e = false -> (forall frame, e <> EvFrame frame) -> yields cfg whole (self, [e]).
Proof.
  intros Hs Hl He. destruct e as [frame| | | | | | | | | | | |]; [by destruct (He frame)|..].
  all: exists whole; cbn in *; rewrite ?Hl, ?andb_true_r; split_and!; [done|done|by repeat constructor].
Qed.

(** ** Feedback operations *)

Lemma feedback_op s e s' : feedback_ok s -> event_typed e -> feedback_step s e = Ok s' -> feedback_ok s'.
Proof. intros Hok He Hs. destruct (feedback_step_ok s e Hok He) as (s1 & Heq & ?). rewrite Heq in Hs. by injection Hs as <-. Qed.

Lemma request_keyframe_ok s : feedback_ok s -> feedback_ok (NvstFeedbackState.request_keyframe s).
Proof. intros. by apply (feedback_op s KeyframeRequest). Qed.
Lemma nacks_ok s q : feedback_ok s -> Nack.wf q -> feedback_ok (s <| NvstFeedbackState.pending_nacks := q |>).
Proof. intros [] ?. by constructor. Qed.

(** ** Updates that keep the invariant *)

Lemma with_feedback cfg self fb :
  receiver_ok cfg self -> feedback_ok fb -> receiver_ok cfg (self <| feedback := fb |>).
Proof. intros [] ?. constructor; try done. destruct ro_counters0; by constructor. Qed.

Lemma sound_feedback cfg whole self fb :
  sound cfg whole self -> feedback_ok fb -> sound cfg whole (self <| feedback := fb |>).
Proof. intros [] ?. constructor; [by apply with_feedback|done]. Qed.

Lemma invalidate_ok cfg self :
  receiver_ok cfg self -> receiver_ok cfg (invalidate_picture self) /\ next_frame_contiguous (invalidate_picture self) = false.
Proof.
  intros Hok. split; [|done]. unfold invalidate_picture. apply with_feedback; [|apply request_keyframe_ok, Hok].
  destruct Hok. destruct (asm_reset (assembler self)) as [? [? ?]]; [by rewrite ro_max0|].
  constructor; try done. destruct ro_counters0; by constructor.
Qed.

Lemma clear_nacks_ok cfg self :
  receiver_ok cfg self -> next_frame_contiguous self = false ->
  receiver_ok cfg (clear_nacks self) /\ next_frame_contiguous (clear_nacks self) = false.
Proof. intros Hok Hf. split; [|done]. apply with_feedback; [done|]. apply nacks_ok; [apply Hok|constructor]. Qed.

Lemma drop_yields cfg whole self reason : receiver_ok cfg self -> yields cfg whole (drop_packet self reason).
Proof. intros Hok. destruct (invalidate_ok cfg self Hok). by apply yields_broken. Qed.

(** The access unit carries the frame index of the packet that ended it. *)
Lemma push_frame_index st h timestamp payload frame :
  (VideoAccessUnitAssembler.push st h timestamp payload).2 = Ok (Some frame) ->
  au_frame_index frame = NvVideoPacket.frame_index h.
Proof.
  unfold VideoAccessUnitAssembler.push, VideoAccessUnitAssembler.finish_frame. intros Hf.
  repeat (case_match; simplify_eq/=; try done).
  all: apply bind_Ok_inv in Hf as (k & _ & Hk); by injection Hk as <-.
Qed.

(** ** Delivering packets *)

Lemma emit_frame_yields cfg whole self frame :
  sound cfg whole self -> au_codec frame = video_codec cfg -> zlen (au_bytes frame) <= max_access_unit_bytes cfg ->
  0 <= au_frame_index frame < 2 ^ 32 -> yields cfg whole (emit_frame self frame).
Proof.
  intros [Hok Hflag] Hc Hb Hi. unfold emit_frame. cbn zeta.
  set (unit := frame <| au_contiguous := next_frame_contiguous self |>).
  destruct (FrameProgressWatchdog.assembled _ _ _) as [progress resumed].
  set (self' := _ <| feedback := _ |>).
  assert (Hok' : receiver_ok cfg self').
  { apply with_feedback.
    - destruct Hok. constructor; try done. destruct ro_counters0. constructor; try done. apply as_u64_range.
    - apply (feedback_op (NvstFeedbackState.publish_completed_frame (feedback self) unit) (FramePacketsDone (au_frame_index unit)));
        [|done|done]. apply (feedback_op (feedback self) (CompletedFrame unit)); [apply Hok|exact Hi|done]. }
  exists true. cbn [fst snd]. split_and!.
  - assert (Hm : mark whole (EvFrame unit) = Some true).
    { cbn. unfold const. destruct (next_frame_contiguous self); [by rewrite Hflag|done]. }
    destruct resumed; cbn [app trace]; [change (mark whole EvFrameProgressResumed) with (Some (whole && true)); rewrite andb_true_r|];
      cbn [trace]; by rewrite Hm.
  - by constructor.
  - apply Forall_app. split; [destruct resumed; by repeat constructor|]. by repeat constructor.
Qed.

Lemma close_open_yields cfg whole self header : sound cfg whole self -> yields cfg whole (close_open_frame self header).
Proof.
  intros Hs. unfold close_open_frame. destruct (_ && _); [|by apply yields_nil].
  destruct (invalidate_ok cfg self (so_ok _ _ _ Hs)) as [H1 H2]. destruct (clear_nacks_ok cfg _ H1 H2).
  by apply yields_broken.
Qed.

Lemma push_media cfg self header timestamp media :
  receiver_ok cfg self ->
  let '(asm, r) := VideoAccessUnitAssembler.push (assembler self) header timestamp media in
  receiver_ok cfg (self <| assembler := asm |>)
  /\ match r with
     | Ok (Some frame) => au_codec frame = video_codec cfg /\ zlen (au_bytes frame) <= max_access_unit_bytes cfg
         /\ au_frame_index frame = NvVideoPacket.frame_index header
     | Ok None | Err _ => True
     | Panic => False
     end.
Proof.
  intros Hok. pose proof (ro_limit _ _ Hok) as Hlim. rewrite <- (ro_max _ _ Hok) in Hlim.
  pose proof (asm_push_spec (assembler self) header timestamp media (ro_assembler _ _ Hok) Hlim) as Hp.
  pose proof (fun frame => push_frame_index (assembler self) header timestamp media frame) as Hi.
  destruct (VideoAccessUnitAssembler.push _ _ _ _) as [asm r]. destruct Hp as (Hwf & [Hcodec Hmax] & Hunit). split.
  - destruct Hok. constructor; try done; [cbn; unfold const; congruence..|]. destruct ro_counters0. by constructor.
  - destruct r as [[frame|]| |]; [|done..]. destruct Hunit as [-> ?]. rewrite (ro_codec _ _ Hok), <- (ro_max _ _ Hok).
    split_and!; [done|done|by apply Hi].
Qed.

Lemma assemble_yields cfg whole self header timestamp media :
  sound cfg whole self -> is_u32 (NvVideoPacket.frame_index header) ->
  exists out, assemble self header timestamp media = Ok out /\ yields cfg whole out.
Proof.
  intros Hs Hi. unfold assemble. pose proof (close_open_yields cfg whole self header Hs) as Hclose.
  destruct (close_open_frame self header) as [self1 es].
  assert (Hok1 : receiver_ok cfg self1) by (destruct Hclose as (? & _ & [? _] & _); done).
  destruct (index_gap self1 header).
  { pose proof (fun w => drop_yields cfg w self1 FrameDiscontinuity Hok1) as Hd.
    destruct (drop_packet self1 FrameDiscontinuity) as [self2 fs].
    eexists. split; [reflexivity|]. eapply yields_app; [exact Hclose|]. intros w _. apply Hd. }
  set (self2 := self1 <| last_stream_packet_index := _ |>).
  assert (Hs2 : forall w, sound cfg w self1 -> sound cfg w self2).
  { intros w [Hok Hf]. split; [|done]. destruct Hok. constructor; try done. destruct ro_counters0. by constructor. }
  assert (Hok2 : receiver_ok cfg self2) by (destruct Hclose as (w & _ & Hw & _); by destruct (Hs2 _ Hw)).
  pose proof (push_media cfg self2 header timestamp media Hok2) as Hp.
  change (assembler self1) with (assembler self2).
  destruct (VideoAccessUnitAssembler.push (assembler self2) header timestamp media) as [asm r]. destruct Hp as [Hok3 Hr].
  set (self3 := self2 <| assembler := asm |>) in *.
  assert (Hs3 : forall w, sound cfg w self1 -> sound cfg w self3) by (intros w [? Hf]; by split).
  destruct r as [[frame|]|reason|]; [| | |done].
  - destruct Hr as (Hc & Hb & Hx). pose proof (fun w Hw => emit_frame_yields cfg w self3 frame Hw Hc Hb ltac:(by rewrite Hx)) as He.
    destruct (emit_frame self3 frame) as [self4 fs]. eexists. split; [reflexivity|].
    eapply yields_app; [exact Hclose|]. intros w Hw. by apply He, Hs3.
  - eexists. split; [reflexivity|]. destruct Hclose as (w & ? & ? & ?). exists w. cbn in *. auto.
  - pose proof (fun w => drop_yields cfg w self3 reason Hok3) as Hd.
    destruct (drop_packet self3 reason) as [self4 fs]. eexists. split; [reflexivity|].
    eapply yields_app; [exact Hclose|]. intros w _. apply Hd.
Qed.

Lemma deliver_packet_yields cfg whole self packet :
  sound cfg whole self -> header_wf (pk_header packet) ->
  exists out, deliver_packet self packet = Ok out /\ yields cfg whole out.
Proof.
  intros Hs Hh. unfold deliver_packet. pose proof (so_ok _ _ _ Hs) as Hok.
  pose proof (payload_spec (pk_header packet) (pk_plaintext packet) ltac:(pose proof (wf_offset _ Hh); lia)) as Hp.
  destruct (RtpHeader.payload _ _) as [payload|e|]; [|eexists; split; [reflexivity|by apply drop_yields]|done].
  pose proof (nv_parse_spec (pk_header packet) payload Hh) as Hn.
  destruct (NvVideoPacket.parse _ _) as [[nv media]|e|]; [|eexists; split; [reflexivity|by apply drop_yields]|done].
  destruct Hn as (_ & Hi & _).
  set (nv' := if bool_decide _ then _ else nv).
  assert (Hi' : is_u32 (NvVideoPacket.frame_index nv')) by (unfold nv'; by case_bool_decide).
  destruct (NvVideoPacket.is_fec nv'); [|by apply assemble_yields].
  eexists. split; [reflexivity|]. apply yields_quiet; [|done|done]. destruct Hs as [[] Hf]. split; [|done].
  constructor; try done. destruct ro_counters0. constructor; try done. apply as_u64_range.
Qed.

Lemma deliver_all_yields cfg whole packets acc :
  yields cfg whole acc -> Forall (fun p => header_wf (pk_header p)) packets ->
  exists out, ofold deliver_step packets acc = Ok out /\ yields cfg whole out.
Proof.
  intros Hy Hp. revert acc Hy. induction Hp as [|p packets Hh Hp IH]; intros [self es] Hy; cbn [ofold].
  { by eexists. }
  change (deliver_step (self, es) p) with (out ← deliver_packet self p; mret (out.1, es ++ out.2)).
  pose proof Hy as (w & _ & Hw & _).
  assert (Hall : forall w', sound cfg w' self -> exists out, deliver_packet self p = Ok out /\ yields cfg w' out)
    by (intros; by apply deliver_packet_yields).
  destruct (Hall w Hw) as ([self' fs] & Hd & _). rewrite Hd. obind. apply IH. cbn [fst snd].
  eapply yields_app; [exact Hy|]. intros w' Hw'. destruct (Hall w' Hw') as (out & Heq & Hout).
  rewrite Hd in Heq. by injection Heq as <-.
Qed.

(** ** Before the delivery *)

Lemma note_result_yields cfg whole self result now :
  sound cfg whole self -> result_safe result -> yields cfg whole (note_result self result now).
Proof.
  intros Hs [_ Hnack Hdrop]. unfold note_result. cbn zeta.
  set (self1 := self <| fec_repaired_packets := _ |>).
  assert (Hs1 : sound cfg whole self1).
  { destruct Hs as [[] Hf]. split; [|done]. constructor; try done. destruct ro_counters0. constructor; try done. apply as_u64_range. }
  set (self2 := match nack result with Some _ => _ | None => _ end).
  assert (Hs2 : sound cfg whole self2).
  { unfold self2. destruct (nack result) as [[a b]|]; [|done]. destruct (Hnack a b eq_refl) as [Hab Hb].
    apply sound_feedback; [done|]. pose proof (ro_feedback _ _ (so_ok _ _ _ Hs1)) as Hfb.
    by apply (feedback_op (feedback self1) (Nacks (Nack.Request a b now))). }
  set (noted := match dropped result with Some _ => _ | None => _ end).
  assert (Hnoted : yields cfg whole noted).
  { unfold noted. destruct (dropped result) as [reason|]; [|by apply yields_nil].
    assert (Hcase : sound cfg whole (self2 <| stale_packets := bump (stale_packets self2) 1 |>)).
    { destruct Hs2 as [[] Hf]. split; [|done]. constructor; try done. destruct ro_counters0. constructor; try done. apply as_u64_range. }
    specialize (Hdrop reason eq_refl). destruct reason; try done; by apply yields_quiet. }
  destruct noted as [self3 es]. destruct (recovery result) as [rec|]; [|done].
  eapply yields_app; [exact Hnoted|]. intros w [Hok _].
  assert (Hok4 : receiver_ok cfg (self3 <| packet_gap_recoveries := bump (packet_gap_recoveries self3) 1 |>)).
  { destruct Hok. constructor; try done. destruct ro_counters0. constructor; try done. apply as_u64_range. }
  destruct (invalidate_ok cfg _ Hok4) as [H1 H2]. destruct (clear_nacks_ok cfg _ H1 H2). by apply yields_broken.
Qed.

(** The parts of the state the bookkeeping of a packet leaves alone. *)
Record same_media (self self' : t) : Prop := {
  sm_config : config self' = config self;
  sm_srtp : srtp self' = srtp self;
  sm_srtcp : srtcp self' = srtcp self;
  sm_reorder : reorder self' = reorder self;
  sm_fec : fec_reorder self' = fec_reorder self;
  sm_assembler : assembler self' = assembler self;
  sm_index : last_stream_packet_index self' = last_stream_packet_index self;
  sm_flag : next_frame_contiguous self' = next_frame_contiguous self;
  sm_state : state self' = state self;
  sm_stage : FrameProgressWatchdog.stage (frame_progress self') = FrameProgressWatchdog.stage (frame_progress self)
}.

Lemma sound_same cfg whole self self' :
  sound cfg whole self -> same_media self self' -> feedback_ok (feedback self') -> counters_ok self' ->
  sound cfg whole self'.
Proof.
  intros [Hok Hf] [H1 H2 H3 H4 H5 H6 _ H8 _ _] Hfb Hc. split; [|by rewrite H8].
  destruct Hok. constructor; rewrite ?H1, ?H2, ?H3, ?H4, ?H5, ?H6; done.
Qed.

Lemma video_sample_total packet sequence fresh :
  header_wf (pk_header packet) -> exists video, video_sample_of packet sequence fresh = Ok video.
Proof.
  intros Hh. unfold video_sample_of. destruct (negb fresh); [by eexists|].
  pose proof (payload_spec (pk_header packet) (pk_plaintext packet) ltac:(pose proof (wf_offset _ Hh); lia)) as Hp.
  destruct (RtpHeader.payload _ _) as [payload|e|]; cbn [result_ok]; [|by eexists|done]. obind.
  pose proof (nv_parse_spec (pk_header packet) payload Hh) as Hn.
  destruct (NvVideoPacket.parse _ _) as [[nv media]|e|]; cbn [result_ok]; [by eexists|by eexists|done].
Qed.

Lemma land_u32 z : is_u32 (Z.land z 0xffffffff).
Proof. change 0xffffffff with (Z.ones 32). rewrite Z.land_ones by lia. apply Z.mod_pos_bound. lia. Qed.

Lemma note_authenticated_spec self packet now :
  counters_ok self ->
  let self' := (note_authenticated self packet now).1 in
  same_media self self' /\ counters_ok self' /\ feedback self' = feedback self
  /\ bound_ssrc self' = Some (default (RtpHeader.ssrc (pk_header packet)) (bound_ssrc self))
  /\ last_authenticated_packet self' = Some now.
Proof.
  intros Hco. pose proof (land_u32 (pk_index packet)) as Hseq.
  pose proof (co_highest _ Hco) as Hhigh. destruct Hco, self. cbn in * |-.
  split; [by constructor|]. split; [|done]. constructor; try done; [apply as_u64_range|].
  cbn. unfold const. revert Hhigh Hseq. unfold is_u32. lia.
Qed.

Lemma note_retransmission_spec self packet :
  counters_ok self -> feedback_ok (feedback self) -> accepted_packet packet ->
  let self' := (note_retransmission self packet).1 in
  same_media self self' /\ counters_ok self' /\ feedback_ok (feedback self')
  /\ bound_ssrc self' = bound_ssrc self /\ last_authenticated_packet self' = last_authenticated_packet self.
Proof.
  intros Hco Hfb [_ _ Hi]. unfold note_retransmission, NvstFeedbackState.on_nacks.
  assert (Hnwf : Nack.wf (resolve_nack (NvstFeedbackState.pending_nacks (feedback self)) (pk_index packet)).1).
  { apply (Nack.run_op_wf _ (Nack.Resolve (pk_index packet))); [apply Hfb|cbn; unfold U64_MAX; lia]. }
  pose proof (nacks_ok _ _ Hfb Hnwf) as Hfb'. destruct (resolve_nack _ _) as [pending [|]]; cbn [fst] in *.
  - split; [done|]. split; [|done]. destruct Hco. constructor; try done. apply as_u64_range.
  - split; [done|]. split; [|done]. destruct Hco. by constructor.
Qed.

Lemma same_media_trans a b c : same_media a b -> same_media b c -> same_media a c.
Proof. intros [] []. constructor; congruence. Qed.

Lemma account_spec self packet now :
  feedback_ok (feedback self) -> counters_ok self -> accepted_packet packet ->
  exists self', account self packet now = Ok self' /\ same_media self self' /\ feedback_ok (feedback self') /\ counters_ok self'
    /\ bound_ssrc self' = Some (default (RtpHeader.ssrc (pk_header packet)) (bound_ssrc self))
    /\ last_authenticated_packet self' = Some now.
Proof.
  intros Hfb Hco Hp. pose proof (ac_header _ Hp) as Hh. unfold account.
  assert (Hfirst : exists fb, match RtpHeader.gs_video_header (pk_header packet) with
       | Some extension => word ← slice extension 4 8;
           mret (NvstFeedbackState.record_frame_packet (feedback self) (from_le_bytes word) now)
       | None => mret (feedback self) end = (Ok fb : outcome Empty_set _) /\ feedback_ok fb).
  { destruct (RtpHeader.gs_video_header (pk_header packet)) as [ext|] eqn:Egs; [|by eexists].
    pose proof (wf_gs _ Hh ext Egs) as Hl. unfold NV_VIDEO_PACKET_LEN in Hl.
    rewrite slice_Ok by lia. obind. eexists. split; [reflexivity|]. by apply record_frame_packet_ok. }
  destruct Hfirst as (fb & -> & Hfb1). obind.
  assert (Hstart : same_media self (self <| feedback := fb |>) /\ counters_ok (self <| feedback := fb |>)
    /\ feedback (self <| feedback := fb |>) = fb /\ bound_ssrc (self <| feedback := fb |>) = bound_ssrc self).
  { split; [done|]. split; [|done]. destruct Hco. by constructor. }
  set (self0 := self <| feedback := fb |>) in *. clearbody self0. destruct Hstart as (Hsame0 & Hco0 & Hfb0 & Hb0).
  pose proof (note_authenticated_spec self0 packet now Hco0) as Hn.
  destruct (note_authenticated self0 packet now) as [self1 reordered]. destruct Hn as (Hsame1 & Hco1 & Hfe1 & Hb1 & Hl1).
  cbn [fst] in *. rewrite <- Hfb0, <- Hfe1 in Hfb1.
  pose proof (note_retransmission_spec self1 packet Hco1 Hfb1 Hp) as Hn.
  destruct (note_retransmission self1 packet) as [self2 retransmitted]. destruct Hn as (Hsame2 & Hco2 & Hfb2 & Hb2 & Hl2).
  cbn [fst] in *. destruct (video_sample_total packet (Z.land (pk_index packet) 0xffffffff) (negb retransmitted && negb reordered) Hh) as [video ->]. obind.
  destruct (publish_stream_packet_ok (feedback self2) (RtpHeader.ssrc (pk_header packet)) (highest_sequence_received self2)
    (RtpHeader.timestamp (pk_header packet)) now video) as (fb3 & -> & Hfb3); [done|apply Hh|apply Hco2|]. obind.
  eexists. split; [reflexivity|]. split.
  { eapply same_media_trans; [exact Hsame0|]. eapply same_media_trans; [exact Hsame1|]. eapply same_media_trans; [exact Hsame2|]. done. }
  split; [done|]. split; [destruct Hco2; by constructor|].
  split; [change (bound_ssrc self2 = Some (default (RtpHeader.ssrc (pk_header packet)) (bound_ssrc self))); congruence|].
  change (last_authenticated_packet self2 = Some now). congruence.
Qed.

Lemma accepted_fec packet layout :
  accepted_packet packet -> FecPacketLayout.from_packet packet = Some layout -> packet_ok packet /\ layout_wf layout.
Proof.
  intros [Hh Ho Hi] Hl. split; [|by eapply from_packet_layout_wf].
  constructor; [done| |done|lia]. unfold FecPacketLayout.from_packet in Hl.
  by destruct (RtpHeader.gs_video_header (pk_header packet)).
Qed.

Lemma reorder_packet_spec cfg whole self packet now :
  sound cfg whole self -> accepted_packet packet ->
  exists self' result, reorder_packet self packet now = Ok (self', result) /\ sound cfg whole self' /\ result_safe result.
Proof.
  intros Hs Hp. unfold reorder_packet.
  destruct (FecPacketLayout.from_packet packet) as [layout|] eqn:Hl.
  - destruct (accepted_fec packet layout Hp Hl) as [Hpk Hlay].
    set (is_data := FecPacketLayout.shard_index layout <? FecPacketLayout.data_shards layout).
    set (self1 := if negb is_data then _ else self).
    assert (Hs1 : sound cfg whole self1).
    { unfold self1. destruct (negb is_data); [|done]. destruct Hs as [[] Hf]. split; [|done].
      constructor; try done. destruct ro_counters0. constructor; try done. apply as_u64_range. }
    clearbody self1. destruct (ro_fec _ _ (so_ok _ _ _ Hs1)) as [Hfw Hfn].
    destruct (fec_push_safe (fec_reorder self1) packet layout now Hfw Hfn Hpk) as (fec & result & -> & Hfw' & Hfn' & Hr);
      [apply Hp|done|]. cbn [no_error]. obind.
    assert (Hs2 : sound cfg whole (self1 <| fec_reorder := fec |>)).
    { destruct Hs1 as [[] Hf]. split; [|done]. constructor; try done. destruct ro_counters0. by constructor. }
    eexists _, _. split; [reflexivity|]. split; [|done].
    destruct (_ && _); [|done]. destruct (invalidate_ok cfg _ (so_ok _ _ _ Hs2)). by split.
  - destruct (ro_reorder _ _ (so_ok _ _ _ Hs)) as [Hrw Hrn].
    destruct (reorder_push_safe (reorder self) packet now Hrw Hrn Hp) as (buffer & result & -> & Hrw' & Hrn' & Hr).
    cbn [no_error]. obind. eexists _, _. split; [reflexivity|]. split; [|done].
    destruct Hs as [[] Hf]. split; [|done]. constructor; try done. destruct ro_counters0. by constructor.
Qed.

(** ** A datagram *)

Lemma refused_quiet cfg whole self reason :
  sound cfg whole self -> datagram_refused reason \/ packet_refused reason -> yields cfg whole (self, [EvDropped reason]).
Proof. intros Hs Hr. apply yields_quiet; [done| |done]. destruct reason; by destruct Hr. Qed.

Lemma refusal_yields cfg whole self reason :
  sound cfg whole self -> refusal (state self) = Some reason -> yields cfg whole (self, [EvDropped reason]).
Proof. intros Hs Hr. apply yields_quiet; [done| |done]. destruct (state self); by simplify_eq/=. Qed.

Definition admit_ok (cfg : NvstVideoConfig) (whole : bool) (out : t * (NvstDropReason + RtpPacket)) : Prop :=
  match out.2 with
  | inl reason => yields cfg whole (out.1, [EvDropped reason])
  | inr packet => sound cfg whole out.1 /\ accepted_packet packet /\ state out.1 = Running
  end.

Lemma genuine_accepted cipher d p : genuine cipher d p -> accepted_packet p.
Proof.
  intros (Hparse & Hi & Ho & _). pose proof (parse_spec d) as Hp. rewrite Hparse in Hp. destruct Hp. by constructor.
Qed.

Lemma admit_spec cfg whole self source datagram :
  sound cfg whole self -> exists out, admission self source datagram = Ok out /\ admit_ok cfg whole out.
Proof.
  intros Hs. unfold admission. destruct (negb _); [by eexists; split; [reflexivity|]; apply yields_quiet|].
  destruct (refusal (state self)) as [reason|] eqn:Hstate.
  { eexists. split; [reflexivity|]. by apply refusal_yields. }
  pose proof (so_ok _ _ _ Hs) as Hok. destruct (ro_replay _ _ Hok) as [S HS].
  pose proof (unprotect_spec (srtp self) S datagram (ro_cipher _ _ Hok) HS) as Hu.
  destruct (SrtpReceiver.unprotect (srtp self) datagram) as [[rx packet]|reason|]; [| |done].
  - destruct Hu as (Hc & _ & Hr & Hg & _).
    assert (Hs1 : sound cfg whole (self <| srtp := rx |>)).
    { destruct Hs as [[] Hf]. split; [|done]. constructor; try done; [cbn; unfold const; by rewrite Hc|by eexists|].
      destruct ro_counters0. by constructor. }
    destruct (mismatch _ _); [by eexists; split; [reflexivity|]; apply yields_quiet|].
    destruct (mismatch _ _); [by eexists; split; [reflexivity|]; apply yields_quiet|].
    eexists. split; [reflexivity|]. split; [done|]. split; [by eapply genuine_accepted|].
    cbn. unfold const. by destruct (state self).
  - eexists. split; [reflexivity|]. cbn [admit_ok snd fst]. apply refused_quiet; [|by left].
    case_bool_decide; [|done]. destruct Hs as [[] Hf]. split; [|done]. constructor; try done.
    destruct ro_counters0. constructor; try done. apply as_u64_range.
Qed.

Lemma process_datagram_yields cfg whole self source datagram now :
  sound cfg whole self ->
  exists out, process_datagram self source datagram now = Ok out /\ yields cfg whole out.
Proof.
  intros Hs. unfold process_datagram. destruct (admit_spec cfg whole self source datagram Hs) as ([self1 [reason|packet]] & -> & Hadmit).
  { obind. by eexists. }
  obind. destruct Hadmit as (Hs1 & Hp & _).
  pose proof (so_ok _ _ _ Hs1) as Hok1.
  destruct (account_spec self1 packet now (ro_feedback _ _ Hok1) (ro_counters _ _ Hok1) Hp) as (self2 & -> & Hsame & Hfb & Hco & _).
  obind. pose proof (sound_same cfg whole self1 self2 Hs1 Hsame Hfb Hco) as Hs2.
  destruct (reorder_packet_spec cfg whole self2 packet now Hs2 Hp) as (self3 & result & -> & Hs3 & Hr). obind.
  pose proof (note_result_yields cfg whole self3 result now Hs3 Hr) as Hy.
  destruct (deliver_all_yields cfg whole (ready result) _ Hy (rs_ready _ Hr)) as (out & Heq & Hout).
  exists out. split; [exact Heq|exact Hout].
Qed.

(** ** The other operations of the receiver *)

Definition event_list {A} (e : option A) : list A := match e with Some e => [e] | None => [] end.

Lemma reset_media_ok cfg self now :
  receiver_ok cfg self ->
  receiver_ok cfg (reset_media_state self now) /\ next_frame_contiguous (reset_media_state self now) = false.
Proof.
  intros Hok. split; [|done]. unfold reset_media_state.
  assert (Hfb : feedback_ok (NvstFeedbackState.reset_frame_stage_epoch ((feedback self) <| NvstFeedbackState.frame_packet_timings := [] |>) now)).
  { apply (feedback_op ((feedback self) <| NvstFeedbackState.frame_packet_timings := [] |>) (StageEpochReset now)); [|done|done].
    destruct (ro_feedback _ _ Hok). constructor; try done. constructor. }
  destruct (asm_reset (assembler self)) as [Hasm [Hc Hm]]; [by rewrite (ro_max _ _ Hok); apply (ro_limit _ _ Hok)|].
  set (fb := NvstFeedbackState.reset_frame_stage_epoch _ now) in *.
  destruct Hok, self. cbn in * |-. constructor; try done.
  - split; [|by intros k p]. destruct ro_reorder0 as [[Hmax _] _]. constructor; [exact Hmax|done].
  - split; constructor; [constructor|done|done|done].
  - destruct ro_counters0. by constructor.
Qed.

Lemma with_state cfg self s : receiver_ok cfg self -> receiver_ok cfg (self <| state := s |>).
Proof. intros []. constructor; try done. destruct ro_counters0. by constructor. Qed.

Lemma set_state_yields cfg whole self s :
  receiver_ok cfg self -> next_frame_contiguous self = false ->
  yields cfg whole ((set_state self s).1, event_list (set_state self s).2).
Proof.
  intros Hok Hf. apply yields_broken; [by apply with_state|done|done].
Qed.

Definition op_yields (cfg : NvstVideoConfig) (whole : bool) (out : t * option NvstReceiveEvent) : Prop :=
  yields cfg whole (out.1, event_list out.2).

Lemma pause_yields cfg whole self now : sound cfg whole self -> op_yields cfg whole (pause self now).
Proof.
  intros Hs. unfold pause. destruct (negb _); [by apply yields_nil|].
  destruct (reset_media_ok cfg self now (so_ok _ _ _ Hs)). by apply set_state_yields.
Qed.
Lemma stop_yields cfg whole self now : sound cfg whole self -> op_yields cfg whole (stop self now).
Proof.
  intros Hs. unfold stop. destruct (bool_decide _); [by apply yields_nil|].
  destruct (reset_media_ok cfg self now (so_ok _ _ _ Hs)). by apply set_state_yields.
Qed.

Lemma restart_yields cfg whole self now : sound cfg whole self -> op_yields cfg whole (restart self now).
Proof.
  intros Hs. unfold restart. destruct (reset_media_ok cfg self now (so_ok _ _ _ Hs)) as [Hok Hf].
  destruct (reset_media_state self now) as [] eqn:E. apply set_state_yields; [|exact Hf].
  destruct Hok. constructor; try done. destruct ro_counters0. by constructor.
Qed.
Lemma resume_yields cfg whole self now : sound cfg whole self -> op_yields cfg whole (resume self now).
Proof. intros Hs. unfold resume. destruct (negb _); [by apply yields_nil|by apply restart_yields]. Qed.
Lemma recover_yields cfg whole self now : sound cfg whole self -> op_yields cfg whole (recover self now).
Proof. intros Hs. unfold recover. destruct (negb _); [by apply yields_nil|by apply restart_yields]. Qed.

Lemma poll_timeout_yields cfg whole self now : sound cfg whole self -> op_yields cfg whole (poll_timeout self now).
Proof.
  intros Hs. unfold poll_timeout. destruct (negb _); [by apply yields_nil|].
  destruct (_ <? _); [by apply yields_nil|].
  destruct (reset_media_ok cfg self now (so_ok _ _ _ Hs)) as [Hok Hf].
  revert Hok Hf. generalize (reset_media_state self now). intros self' Hok Hf.
  apply yields_broken; [by apply with_state|exact Hf|done].
Qed.

Lemma poll_frame_progress_sound cfg whole self now policy :
  sound cfg whole self -> sound cfg whole (poll_frame_progress self now policy).1.
Proof.
  intros Hs. unfold poll_frame_progress. destruct (negb _); [done|]. destruct (progress_base self) as [base|]; [|done].
  pose proof (request_keyframe_ok _ (ro_feedback _ _ (so_ok _ _ _ Hs))) as Hfb.
  destruct (FrameProgressWatchdog.stage _); [| |done]; (destruct (_ <? _); [done|]); destruct Hs as [[] Hf]; (split; [|done]);
    constructor; try done; destruct ro_counters0; by constructor.
Qed.

Lemma poll_report_sound cfg whole self now :
  sound cfg whole self -> exists out, poll_receiver_report self now = Ok out /\ sound cfg whole out.1
    /\ (out.2 <> None -> state self = Running /\ is_Some (srtcp self)).
Proof.
  intros Hs. unfold poll_receiver_report. destruct (negb _) eqn:Hst; [by eexists|]. zbool.
  apply bool_decide_eq_true in Hst.
  destruct (srtcp self) as [sender|] eqn:Hsr; [|by eexists].
  pose proof (so_ok _ _ _ Hs) as Hok. pose proof (ro_srtcp _ _ Hok sender Hsr) as Hk.
  destruct (report_snapshot_spec (feedback self) true (ro_feedback _ _ Hok)) as [Hfb _].
  destruct (NvstFeedbackState.report_snapshot (feedback self) true) as [fb block]. cbn [fst] in Hfb.
  assert (Hout : exists sender' packet, SrtcpSender.poll_receiver_report (E:=Empty_set) sender block now = Ok (sender', packet)
    /\ sender_keys sender' = sender_keys sender).
  { unfold SrtcpSender.poll_receiver_report. destruct block as [block|]; [|by eexists _, _].
    destruct (match SrtcpSender.last_sent sender with Some _ => _ | None => _ end); [by eexists _, _|].
    destruct (protect_srtcp_total (E:=Empty_set) block (SrtcpSender.next_index sender) _ _ _ Hk) as [packet Hp].
    unfold sender_keys in Hp. cbn [fst snd] in Hp. rewrite Hp. obind. by eexists _, _. }
  destruct Hout as (sender' & packet & -> & Hkeys). obind. eexists. split; [reflexivity|]. split; [|by eauto].
  destruct Hs as [[] Hf]. split; [|done]. constructor; try done.
  - intros s Hsome. assert (s = sender') as -> by (by injection Hsome). by rewrite Hkeys.
  - destruct ro_counters0. by constructor.
Qed.
End Session.
