(* ===== verification/VideoWorker.v ===== *)
(** * The video worker

    The thread of [run_nvst_udp_receiver] in [nvst.rs]: it owns the receiver of
    [Receiver] and the media socket, executes the commands of the controlling
    thread, answers hole punching, hands frames to the decoder's bounded channel
    and polls the timers.  The clock readings, the socket's results and the
    channel's answers are the input of a turn of its loop. *)

From stdpp Require Import strings.
From S2P Require Import Prelude Types Rtp Replay BTree Reorder Fec Assembler Control Nack Crypto Srtp Rtcp Stun F64 Bandwidth StageTimings Feedback Receiver.

Definition PING_INTERVAL_BEFORE_CONNECTION : Z := from_millis 20.
Definition PING_INTERVAL_AFTER_CONNECTION : Z := from_millis 100.

Definition label (self : NvstVideoCodec) : string :=
  match self with H264 => "H264" | H265 => "H265" | Av1 => "AV1" end.

Record EncodedMediaFrame := {
  mid : string;
  mf_codec : string;
  mf_payload : list u8;
  mf_frame_index : option Z;
  rtp_timestamp : Z;
  clock_rate_hz : Z;
  channels : option Z;
  received_at_us : Z;
  mf_keyframe : bool;
  mf_contiguous : bool;
  mf_ssrc : option Z
}.

(** [SyncSender::try_send] *)
Inductive TrySend := Sent | Full | Disconnected.
(** [deliver_media_frame]: the error is that of the channel. *)
Inductive TransportError := TeMediaConsumerBackpressured | TeMediaConsumerClosed.
Definition deliver_media_frame (answer : TrySend) : unit + TransportError :=
  match answer with
  | Sent => inl tt
  | Full => inr TeMediaConsumerBackpressured
  | Disconnected => inr TeMediaConsumerClosed
  end.

(** What leaves the worker. *)
Inductive output :=
  | Event (e : NvstReceiveEvent)
  | Media (frame : EncodedMediaFrame)
  | SendTo (packet : list u8) (peer : SocketAddr).

Inductive UdpReceiverCommand := CmdSendText | CmdPause | CmdResume | CmdRecover | CmdSendInput | CmdStop.

(** [send_to]: an ICMP port-unreachable is tolerated. *)
Inductive SendResult := SendOk | PortUnreachable | SendFailed.
(** [recv_from] with a timeout. *)
Inductive RecvResult :=
  | Received (datagram : list u8) (source : SocketAddr)
  | ReceiveIdle
  | ReceiveFailed.

(** One turn of the loop as the thread experiences it. *)
Record turn_input := {
  commands : list UdpReceiverCommand;
  commands_closed : bool;
  ping_at : Z;
  transaction_id : option (list u8);
  ping_sent_at : Z;
  ping_result : SendResult;
  received : RecvResult;
  stun_at : Z;
  stun_result : SendResult;
  received_at : Z;
  forwarded_at : Z;
  polled_at : Z;
  report_result : SendResult
}.

Module VideoWorker.
Import NvstVideoReceiver.

Record t := {
  receiver : NvstVideoReceiver.t;
  video_delivery_gap : bool;
  peer_seen : bool;
  last_ping : Z;
  ping_tracker : StreamPingTracker.t;
  (** frames offered to the channel so far *)
  offered : nat
}.

Section Worker.
Context `{Crypto}.
(** The answers of the media channel, in order. *)
Context (try_send : nat -> TrySend).
Context (transport_origin : Z) (stun_credentials : option NvstStunCredentials).

Definition start (receiver : NvstVideoReceiver.t) (now : Z) : t := {|
  receiver := receiver; video_delivery_gap := false; peer_seen := false;
  last_ping := now - PING_INTERVAL_BEFORE_CONNECTION; ping_tracker := []; offered := 0 |}.

Definition with_feedback (self : t) (f : NvstFeedbackState.t -> NvstFeedbackState.t) : t :=
  let rx := (receiver self) <| feedback := f (feedback (receiver self)) |> in
  self <| receiver := rx |>.

Definition media_frame (self : t) (frame : EncodedVideoAccessUnit) (forwarded_at : Z) : EncodedMediaFrame := {|
  mid := "nvst-video-0"; mf_codec := label (au_codec frame); mf_payload := au_bytes frame;
  mf_frame_index := Some (au_frame_index frame); rtp_timestamp := au_timestamp frame; clock_rate_hz := 90000;
  channels := None;
  received_at_us := Z.min U64_MAX (saturating_duration_since forwarded_at transport_origin / 1000);
  mf_keyframe := au_keyframe frame; mf_contiguous := au_contiguous frame && negb (video_delivery_gap self);
  mf_ssrc := None |}.

(** The boolean is false when the worker has to end. *)
Definition forward_receive_event (self : t) (delivered_at forwarded_at : Z) (event : NvstReceiveEvent)
    : t * list output * bool :=
  match event with
  | EvFrame frame =>
      let sent := media_frame self frame forwarded_at in
      let self := with_feedback self (fun fb =>
        NvstFeedbackState.publish_assembled_frame fb (au_frame_index frame) delivered_at) in
      let answer := try_send (offered self) in
      let self := self <| offered := S (offered self) |> in
      let retire := fun self => with_feedback self (fun fb =>
        NvstFeedbackState.retire_undelivered_frame fb (au_frame_index frame)) in
      match deliver_media_frame answer with
      | inl _ => (self <| video_delivery_gap := false |>, [Media sent], true)
      | inr TeMediaConsumerBackpressured =>
          ((retire self) <| video_delivery_gap := true |>, [Event (EvDropped MediaConsumerBackpressured)], true)
      | inr _ => (retire self, [Event (EvDropped MediaConsumerClosed)], false)
      end
  | event => (self, [Event event], true)
  end.

Definition forward_optional (event : option NvstReceiveEvent) : list output :=
  match event with Some event => [Event event] | None => [] end.

(** [forward_optional(&event_sender, receiver.stop()); return] *)
Definition shut_down (self : t) (now : Z) (outs : list output) : t * list output * bool :=
  let '(rx, event) := stop (receiver self) now in
  (self <| receiver := rx |>, outs ++ forward_optional event, false).

(** The loop over the events of a datagram. *)
Fixpoint forward_all (self : t) (delivered_at forwarded_at : Z) (events : list NvstReceiveEvent)
    : t * list output * bool :=
  match events with
  | [] => (self, [], true)
  | event :: events =>
      let '(self, outs, running) := forward_receive_event self delivered_at forwarded_at event in
      if (running : bool) then
        let '(self, rest, running) := forward_all self delivered_at forwarded_at events in
        (self, outs ++ rest, running)
      else shut_down self forwarded_at outs
  end.

(** One command; only [CmdStop] ends the worker. *)
Definition on_command (self : t) (command : UdpReceiverCommand) (now : Z) : t * list output * bool :=
  let keep (out : NvstVideoReceiver.t * option NvstReceiveEvent) : t * list output * bool :=
    (self <| receiver := out.1 |>, forward_optional out.2, true) in
  match command with
  | CmdPause => keep (pause (receiver self) now)
  | CmdResume => keep (resume (receiver self) now)
  | CmdRecover => keep (recover (receiver self) now)
  | CmdSendText | CmdSendInput => (self, [], true)
  | CmdStop => shut_down self now []
  end.

Fixpoint on_commands (self : t) (commands : list UdpReceiverCommand) (closed : bool) (now : Z)
    : t * list output * bool :=
  match commands with
  | [] => if closed then shut_down self now [] else (self, [], true)
  | command :: commands =>
      let '(self, outs, running) := on_command self command now in
      if (running : bool) then
        let '(self, rest, running) := on_commands self commands closed now in (self, outs ++ rest, running)
      else (self, outs, false)
  end.

(** Hole punching; the packet itself is not part of the model. *)
Definition ping (self : t) (i : turn_input) : t * list output * bool :=
  let interval := if peer_seen self then PING_INTERVAL_AFTER_CONNECTION else PING_INTERVAL_BEFORE_CONNECTION in
  if saturating_duration_since (ping_at i) (last_ping self) <? interval then (self, [], true) else
  match stun_credentials, transaction_id i, ping_result i with
  | Some _, None, _ | _, _, SendFailed => shut_down self (ping_at i) []
  | Some _, Some transaction_id, _ =>
      let self := self <| ping_tracker := StreamPingTracker.sent (ping_tracker self) transaction_id (ping_sent_at i) |> in
      (self <| last_ping := ping_at i |>, [], true)
  | None, _, _ => (self <| last_ping := ping_at i |>, [], true)
  end.

(** What a datagram of the peer is to the hole punching: [None] leaves it to
    the receiver, otherwise the loop starts over ([continue]) or ends. *)
Definition on_stun (self : t) (datagram : list u8) (source : SocketAddr) (credentials : NvstStunCredentials) (i : turn_input)
    : outcome Empty_set (t * option (list output * bool)) :=
  tracked ← StreamPingTracker.receive (ping_tracker self) datagram credentials (stun_at i);
  let self := self <| ping_tracker := tracked.1 |> in
  let self := match tracked.2 with
    | Some elapsed => with_feedback self (fun fb => NvstFeedbackState.publish_ping fb true (stun_at i) elapsed)
    | None => self
    end in
  verdict ← handle_stun_datagram datagram source credentials;
  match verdict with
  | Handled response =>
      let self := self <| peer_seen := true |> in
      match response with
      | Some packet =>
          if match stun_result i with SendFailed => true | _ => false end
          then let '(self, outs, running) := shut_down self (stun_at i) [SendTo packet source] in
               mret (self, Some (outs, running))
          else mret (self, Some ([SendTo packet source], true))
      | None => mret (self, Some ([], true))
      end
  | Invalid => mret (self, Some ([], true))
  | NotStun => mret (self, None)
  end.

Definition record_receive (self : t) (expected_source authenticated : bool) (datagram : list u8) : t :=
  with_feedback self (fun fb =>
    NvstFeedbackState.record_socket_receive fb VideoSocket expected_source authenticated (zlen datagram)).

Definition is_authenticated (self : t) : bool := bool_decide (is_Some (last_authenticated_packet (receiver self))).

(** The datagram; the first boolean tells whether the turn goes on to the
    timers. *)
Definition on_datagram (self : t) (datagram : list u8) (source : SocketAddr) (i : turn_input)
    : outcome Empty_set (t * list output * bool * bool) :=
  let expected_source := accepts_video_source (config (receiver self)) source in
  let authenticated_before := is_authenticated self in
  let self := record_receive self expected_source authenticated_before datagram in
  stunned ← match expected_source, stun_credentials with
    | true, Some credentials => on_stun self datagram source credentials i
    | _, _ => mret (self, None)
    end;
  let '(self, verdict) := stunned in
  match verdict with
  | Some (outs, running) => mret (self, outs, false, running)
  | None =>
      processed ← process_datagram (receiver self) source datagram (received_at i);
      let '(rx, events) := processed in
      let self := self <| receiver := rx |> in
      let self := if negb authenticated_before
        then record_receive self expected_source (is_authenticated self) datagram else self in
      let '(self, outs, running) := forward_all self (received_at i) (forwarded_at i) events in
      mret (self, outs, true, running)
  end.

(** The receiver report, the timeout and the frame progress. *)
Definition poll_timers (self : t) (i : turn_input) : outcome Empty_set (t * list output * bool) :=
  let now := polled_at i in
  polled ← poll_receiver_report (receiver self) now;
  let '(rx, report) := polled in
  let self := self <| receiver := rx |> in
  let sent := match report with Some packet => [SendTo packet (video_peer (config rx))] | None => [] end in
  if match report, report_result i with Some _, SendFailed => true | _, _ => false end
  then mret (shut_down self now sent) else
  let '(rx, timeout_event) := poll_timeout (receiver self) now in
  let self := self <| receiver := rx |> in
  let outs := sent ++ forward_optional timeout_event in
  match timeout_event with
  | Some _ => mret (self, outs, true)
  | None =>
      let policy := {| stall := timeout (config (receiver self)); keyframe_grace := timeout (config (receiver self)) |} in
      let '(rx, progress) := poll_frame_progress (receiver self) now policy in
      let self := self <| receiver := rx |> in
      let more := match progress with
        | Some (KeyframeRequested idle_for last) => [Event (EvFrameProgressStall idle_for last false)]
        | Some (ProgressRecoveryNeeded idle_for last) =>
            [Event (EvFrameProgressStall idle_for last true); Event (EvRecoveryNeeded (RecoveryFrameProgress idle_for last))]
        | None => []
        end in
      mret (self, outs ++ more, true)
  end.

Definition turn (self : t) (i : turn_input) : outcome Empty_set (t * list output * bool) :=
  let '(self, outs, running) := on_commands self (commands i) (commands_closed i) (ping_at i) in
  if negb running then mret (self, outs, false) else
  let '(self, pinged, running) := ping self i in
  if negb running then mret (self, outs ++ pinged, false) else
  handled ← match received i with
    | Received datagram source => on_datagram self datagram source i
    | ReceiveIdle => mret (self, [], true, true)
    | ReceiveFailed => mret (let '(self, outs, running) := shut_down self (received_at i) [] in (self, outs, false, running))
    end;
  let '(self, received, timers, running) := handled in
  let outs := outs ++ pinged ++ received in
  if negb running || negb timers then mret (self, outs, running) else
  polled ← poll_timers self i;
  let '(self, polled, running) := polled in
  mret (self, outs ++ polled, running).

(** The life of the worker: turns until one ends it. *)
Fixpoint run (self : t) (inputs : list turn_input) : outcome Empty_set (t * list output) :=
  match inputs with
  | [] => mret (self, [])
  | i :: inputs =>
      turned ← turn self i;
      let '(self, outs, running) := turned in
      if (running : bool) then
        rest ← run self inputs; mret (rest.1, outs ++ rest.2)
      else mret (self, outs)
  end.
End Worker.
End VideoWorker.
