(* ===== verification/VideoHonesty.v ===== *)
(** * What the decoder is told

    The worker of [VideoWorker] over the receiver of [Receiver]: for every
    sequence of turns it does not panic, the frames it delivers are within the
    configured limits, and a frame marked contiguous follows the frame delivered
    before it without a loss in between. *)

From stdpp Require Import gmap strings.
From S2P Require Import Prelude Types Rtp Replay BTree Reorder Fec Assembler Control Nack Crypto Srtp Rtcp Stun F64 Bandwidth StageTimings Feedback Receiver VideoSession VideoWorker.

(** ** The worker's output *)

(** [mark] over what leaves the worker: the decoder sees the delivered frames,
    the events report the losses. *)
Definition mark_output (whole : bool) (o : output) : option bool :=
  match o with
  | Event e => Some (whole && negb (loses e))
  | Media frame => if mf_contiguous frame && negb whole then None else Some true
  | SendTo _ _ => Some whole
  end.
Fixpoint heard (whole : bool) (outs : list output) : option bool :=
  match outs with
  | [] => Some whole
  | o :: outs => match mark_output whole o with Some whole => heard whole outs | None => None end
  end.

Lemma heard_app whole outs more :
  heard whole (outs ++ more) = match heard whole outs with Some whole => heard whole more | None => None end.
Proof. revert whole. induction outs as [|o outs IH]; intros whole; [done|]. cbn. by destruct (mark_output whole o). Qed.

Definition is_media (o : output) : bool := match o with Media _ => true | _ => false end.
Definition tells_loss (o : output) : bool := match o with Event e => loses e | _ => false end.

(** What an accepted output means: no loss lies between a frame that claims
    contiguity and the frame before it. *)
Lemma heard_quiet whole middle whole' :
  heard whole middle = Some whole' -> whole' = true -> Forall (fun o => is_media o = false) middle ->
  whole = true /\ Forall (fun o => tells_loss o = false) middle.
Proof.
  revert whole. induction middle as [|o middle IH]; intros whole Hh Hw Hm; cbn in *; [by simplify_eq|].
  apply Forall_cons in Hm as [Ho Hm]. destruct o as [e|f|p q]; cbn in *; [|done|].
  - destruct (IH _ Hh Hw Hm) as [Hall Hrest]. apply andb_true_iff in Hall as [-> Hl].
    split; [done|]. constructor; [by apply negb_true_iff|done].
  - destruct (IH _ Hh Hw Hm). by split; [|constructor].
Qed.

Lemma heard_contiguous before middle frame after w :
  heard true (before ++ middle ++ Media frame :: after) = Some w -> mf_contiguous frame = true ->
  Forall (fun o => is_media o = false) middle -> Forall (fun o => tells_loss o = false) middle.
Proof.
  rewrite heard_app. destruct (heard true before) as [w1|]; [|done]. rewrite heard_app.
  destruct (heard w1 middle) as [w2|] eqn:Hm; [|done]. cbn. intros Hh Hc Hno. rewrite Hc in Hh. cbn in Hh.
  destruct w2; [|done]. by eapply heard_quiet.
Qed.

(** ** The worker's invariant *)

Section Honesty.
Context `{CryptoLaws}.
Context (try_send : nat -> TrySend) (transport_origin : Z) (stun_credentials : option NvstStunCredentials).
Context (cfg : NvstVideoConfig).
Import VideoWorker.

(** [whole] for the decoder follows from [whole] for the receiver unless the
    channel refused a frame. *)
Definition worker_sound (whole : bool) (self : t) : Prop :=
  exists w, sound cfg w (receiver self) /\ (w = true -> video_delivery_gap self = false -> whole = true).

Definition output_ok (o : output) : Prop :=
  match o with
  | Media frame => mf_codec frame = label (video_codec cfg) /\ zlen (mf_payload frame) <= max_access_unit_bytes cfg
      /\ mf_ssrc frame = None
  | _ => True
  end.

Definition worker_yields (whole : bool) (self : t) (outs : list output) : Prop :=
  exists whole', heard whole outs = Some whole' /\ worker_sound whole' self /\ Forall output_ok outs.

Lemma worker_nil whole self : worker_sound whole self -> worker_yields whole self [].
Proof. intros. exists whole. split_and!; [done|done|constructor]. Qed.

Lemma worker_app whole self self' outs more :
  worker_yields whole self outs -> (forall w, worker_sound w self -> worker_yields w self' more) ->
  worker_yields whole self' (outs ++ more).
Proof.
  intros (w1 & Hh & Hs & Ho) Hm. destruct (Hm w1 Hs) as (w2 & Hh2 & Hs2 & Ho2). exists w2.
  rewrite heard_app, Hh. split_and!; [done|done|by apply Forall_app].
Qed.

(** Outputs that are not frames and tell of no loss. *)
Lemma worker_quiet whole self o :
  worker_sound whole self -> is_media o = false -> tells_loss o = false -> worker_yields whole self [o].
Proof.
  intros Hs Hm Hl. exists whole. destruct o as [e|f|p q]; cbn in *; [|done|].
  - rewrite Hl, andb_true_r. split_and!; [done|done|by repeat constructor].
  - split_and!; [done|done|by repeat constructor].
Qed.

(** The events of a receiver operation that is not a frame, forwarded as they
    are. *)
Lemma forward_optional_yields whole self rx event :
  (forall w, sound cfg w (receiver self) -> op_yields cfg w (rx, event)) ->
  (forall frame, event <> Some (EvFrame frame)) -> worker_sound whole self ->
  worker_yields whole (self <| receiver := rx |>) (forward_optional event).
Proof.
  intros Hop Hframe (w & Hs & Hgap). destruct (Hop w Hs) as (w' & Ht & Hs' & _). cbn [fst snd] in *.
  destruct event as [e|]; cbn [forward_optional event_list] in *.
  - exists (whole && negb (loses e)). split; [done|]. split; [|by repeat constructor]. exists w'. split; [done|].
    intros Hw' Hg. assert (Hm : mark w e = Some w') by (cbn in Ht; by destruct (mark w e)).
    assert (Hm' : w' = w && negb (loses e)) by (destruct e as [frame| | | | | | | | | | | |]; [by destruct (Hframe frame)|..]; cbn in Hm; by injection Hm).
    rewrite Hw' in Hm'. symmetry in Hm'. apply andb_true_iff in Hm' as [Hw ->]. rewrite Hgap; [done|done|exact Hg].
  - apply worker_nil. exists w'. cbn in Ht. injection Ht as ->. done.
Qed.

Lemma sound_with_feedback whole self f :
  (forall fb, feedback_ok fb -> feedback_ok (f fb)) -> worker_sound whole self -> worker_sound whole (with_feedback self f).
Proof.
  intros Hf (w & Hs & Hg). exists w. split; [|exact Hg]. apply sound_feedback; [done|]. apply Hf, Hs.
Qed.

(** A step of the worker: the decoder is not misled, and the invariant holds as
    long as the worker goes on. *)
Definition step_yields (whole : bool) (out : t * list output * bool) : Prop :=
  exists whole', heard whole out.1.2 = Some whole' /\ Forall output_ok out.1.2
    /\ (out.2 = true -> worker_sound whole' out.1.1).

Lemma worker_step whole self outs : worker_yields whole self outs -> step_yields whole (self, outs, true).
Proof. intros (w & ? & ? & ?). by exists w. Qed.

Lemma event_ok_output e : Forall output_ok [Event e].
Proof. by repeat constructor. Qed.

Lemma heard_optional whole event : exists whole', heard whole (forward_optional event) = Some whole'.
Proof. destruct event; by eexists. Qed.
Lemma optional_ok event : Forall output_ok (forward_optional event).
Proof. destruct event; [apply event_ok_output|constructor]. Qed.

Lemma shut_down_yields whole self now outs w :
  heard whole outs = Some w -> Forall output_ok outs -> step_yields whole (shut_down self now outs).
Proof.
  intros Hh Ho. unfold shut_down. destruct (NvstVideoReceiver.stop (receiver self) now) as [rx event].
  destruct (heard_optional w event) as [w' Hw']. exists w'. cbn. rewrite heard_app, Hh.
  split_and!; [done| |done]. apply Forall_app. split; [done|apply optional_ok].
Qed.

(** Steps in a row; the second is taken only when the first lets the worker go
    on. *)
Lemma step_app whole self outs next :
  step_yields whole (self, outs, true) -> (forall w, worker_sound w self -> step_yields w next) ->
  step_yields whole (next.1.1, outs ++ next.1.2, next.2).
Proof.
  intros (w1 & Hh & Ho & Hs) Hn. destruct (Hn w1 (Hs eq_refl)) as (w2 & Hh2 & Ho2 & Hs2). exists w2. cbn in *.
  rewrite heard_app, Hh. split_and!; [done|by apply Forall_app|done].
Qed.

Lemma step_stop whole self outs self' : step_yields whole (self, outs, false) -> step_yields whole (self', outs, false).
Proof. intros (w & ? & ? & _). by exists w. Qed.

(** ** Forwarding *)

Lemma published_ok f at_ fb : feedback_ok fb -> feedback_ok (NvstFeedbackState.publish_assembled_frame fb f at_).
Proof. intros. by apply (feedback_op fb (AssembledFrame f at_)). Qed.
Lemma retired_ok f fb : feedback_ok fb -> feedback_ok (NvstFeedbackState.retire_undelivered_frame fb f).
Proof. intros. by apply (feedback_op fb (UndeliveredFrame f)). Qed.

(** [w] is what the receiver's events say so far, [w2] what they say in the
    end: the receiver is ahead of the forwarding. *)
Lemma forward_one whole self w w1 w2 delivered_at forwarded_at event :
  mark w event = Some w1 -> event_ok cfg event -> sound cfg w2 (receiver self) ->
  (w = true -> video_delivery_gap self = false -> whole = true) ->
  let '(self', outs, running) := forward_receive_event try_send transport_origin self delivered_at forwarded_at event in
  exists whole', heard whole outs = Some whole' /\ Forall output_ok outs /\ sound cfg w2 (receiver self')
    /\ (running = true -> w1 = true -> video_delivery_gap self' = false -> whole' = true).
Proof.
  intros Hm He Hs Hg. unfold forward_receive_event.
  destruct event as [frame| | | | | | | | | | | |].
  2-13: cbn in Hm |- *; injection Hm as <-; eexists; split; [reflexivity|]; split; [apply event_ok_output|]; split; [done|];
    intros _ [Hw Hl]%andb_true_iff Hgap; rewrite (Hg Hw Hgap); exact Hl.
  cbn in Hm. destruct (au_contiguous frame && negb w) eqn:Hc; [done|]. injection Hm as <-. destruct He as [Hcodec Hlen].
  assert (Hpub : forall rx, sound cfg w2 rx -> forall f, (forall fb, feedback_ok fb -> feedback_ok (f fb)) ->
    sound cfg w2 (rx <| NvstVideoReceiver.feedback := f (NvstVideoReceiver.feedback rx) |>)).
  { intros rx Hrx f Hf. apply sound_feedback; [done|]. apply Hf, Hrx. }
  pose proof (Hpub _ Hs _ (published_ok (au_frame_index frame) delivered_at)) as Hs1.
  pose proof (Hpub _ Hs1 _ (retired_ok (au_frame_index frame))) as Hs2.
  cbn zeta. destruct (deliver_media_frame _) as [[]|[]] eqn:Hd.
  - exists true. split_and!; [| |exact Hs1|done].
    + cbn. destruct (au_contiguous frame), w, (video_delivery_gap self); cbn in *; try done; by rewrite Hg.
    + constructor; [|constructor]. cbn. by rewrite Hcodec.
  - eexists. split; [reflexivity|]. split; [apply event_ok_output|]. split; [exact Hs2|done].
  - eexists. split; [reflexivity|]. split; [apply event_ok_output|]. split; [exact Hs2|done].
Qed.

Lemma forward_all_yields events : forall whole self w w2 delivered_at forwarded_at,
  trace w events = Some w2 -> Forall (event_ok cfg) events -> sound cfg w2 (receiver self) ->
  (w = true -> video_delivery_gap self = false -> whole = true) ->
  step_yields whole (forward_all try_send transport_origin self delivered_at forwarded_at events).
Proof.
  induction events as [|e events IH]; intros whole self w w2 delivered_at forwarded_at Ht He Hs Hg; cbn [forward_all].
  { cbn in Ht. injection Ht as <-. exists whole. split_and!; [done|constructor|]. intros _. by exists w. }
  cbn in Ht. destruct (mark w e) as [w1|] eqn:Hm; [|done]. apply Forall_cons in He as [He1 He].
  pose proof (forward_one whole self w w1 w2 delivered_at forwarded_at e Hm He1 Hs Hg) as Hone.
  destruct (forward_receive_event _ _ _ _ _ _) as [[self1 outs] running]. destruct Hone as (whole1 & Hh & Ho & Hs1 & Hg1).
  destruct running; [|by eapply shut_down_yields].
  pose proof (IH whole1 self1 w1 w2 delivered_at forwarded_at Ht He Hs1 (Hg1 eq_refl)) as Hrest.
  destruct (forward_all _ _ self1 _ _ events) as [[self2 rest] running]. destruct Hrest as (whole2 & Hh2 & Ho2 & Hs2).
  exists whole2. cbn in *. rewrite heard_app, Hh. split_and!; [done|by apply Forall_app|done].
Qed.

(** ** Commands, hole punching and timers *)

Lemma on_command_yields whole self command now : worker_sound whole self -> step_yields whole (on_command self command now).
Proof.
  intros Hs. destruct command; cbn [on_command].
  1,5: by apply worker_step, worker_nil.
  4: by eapply shut_down_yields.
  1: destruct (NvstVideoReceiver.pause (receiver self) now) as [rx ev] eqn:E.
  2: destruct (NvstVideoReceiver.resume (receiver self) now) as [rx ev] eqn:E.
  3: destruct (NvstVideoReceiver.recover (receiver self) now) as [rx ev] eqn:E.
  all: cbn [fst snd]; apply worker_step, forward_optional_yields; [|..|done].
  1,3,5: intros w Hw; rewrite <- E; by (apply pause_yields || apply resume_yields || apply recover_yields).
  all: intros frame; unfold NvstVideoReceiver.pause, NvstVideoReceiver.resume, NvstVideoReceiver.recover in E;
    destruct (negb _); by injection E as <- <-.
Qed.

Lemma on_commands_yields commands closed now : forall whole self,
  worker_sound whole self -> step_yields whole (on_commands self commands closed now).
Proof.
  induction commands as [|c commands IH]; intros whole self Hs; cbn [on_commands].
  { destruct closed; [by eapply shut_down_yields|by apply worker_step, worker_nil]. }
  pose proof (on_command_yields whole self c now Hs) as Hc.
  destruct (on_command self c now) as [[self1 outs] [|]]; [|done].
  pose proof (step_app whole self1 outs (on_commands self1 commands closed now) Hc (fun w Hw => IH w self1 Hw)) as Hall.
  by destruct (on_commands self1 commands closed now) as [[self2 rest] running].
Qed.

Lemma sound_fields whole self self' :
  worker_sound whole self -> receiver self' = receiver self -> video_delivery_gap self' = video_delivery_gap self ->
  worker_sound whole self'.
Proof. intros (w & Hs & Hg) Hr Hd. exists w. by rewrite Hr, Hd. Qed.

Lemma ping_yields whole self i : worker_sound whole self -> step_yields whole (ping stun_credentials self i).
Proof.
  intros Hs. unfold ping. destruct (_ <? _); [by apply worker_step, worker_nil|].
  destruct stun_credentials, (transaction_id i), (ping_result i); try (by eapply shut_down_yields);
    apply worker_step, worker_nil; by eapply sound_fields.
Qed.

Lemma poll_timers_yields whole self i :
  worker_sound whole self -> exists out, poll_timers self i = Ok out /\ step_yields whole out.
Proof.
  intros (w & Hs & Hg). unfold poll_timers.
  destruct (poll_report_sound cfg w (receiver self) (polled_at i) Hs) as ([rx report] & -> & Hs1 & _). obind. cbn [fst] in Hs1.
  set (sent := match report with Some packet => [SendTo packet _] | None => [] end).
  assert (Hsent : heard whole sent = Some whole /\ Forall output_ok sent) by (unfold sent; destruct report; split; by repeat constructor).
  destruct Hsent as [Hh Ho].
  set (self1 := self <| receiver := rx |>).
  assert (Hw1 : worker_sound whole self1) by (exists w; done).
  destruct (match report with Some _ => _ | None => false end).
  { eexists. split; [reflexivity|]. by eapply shut_down_yields. }
  change (receiver self1) with rx.
  destruct (NvstVideoReceiver.poll_timeout rx (polled_at i)) as [rx2 event] eqn:E.
  set (self2 := self1 <| receiver := rx2 |>).
  assert (Hy2 : worker_yields whole self2 (sent ++ forward_optional event)).
  { eapply worker_app; [by exists whole; split_and!|]. intros w' Hw'. apply forward_optional_yields; [| |done].
    - intros w1 Hs2. rewrite <- E. by apply poll_timeout_yields.
    - intros frame. unfold NvstVideoReceiver.poll_timeout in E. destruct (negb _); [by injection E as <- <-|].
      destruct (_ <? _); by injection E as <- <-. }
  destruct event as [e|]; [eexists; split; [reflexivity|]; by apply worker_step|].
  set (policy := {| stall := _ |}).
  pose proof (fun w Hw => poll_frame_progress_sound cfg w (receiver self2) (polled_at i) policy Hw) as Hp.
  destruct (NvstVideoReceiver.poll_frame_progress (receiver self2) (polled_at i) policy) as [rx3 progress]. cbn [fst] in Hp.
  eexists. split; [reflexivity|]. apply worker_step. eapply worker_app; [exact Hy2|].
  intros w' (w3 & Hs3 & Hg3). assert (Hw3 : worker_sound w' (self2 <| receiver := rx3 |>)) by (exists w3; split; [by apply Hp|exact Hg3]).
  destruct progress as [[|]|]; [by apply worker_quiet| |by apply worker_nil].
  apply (worker_app w' (self2 <| receiver := rx3 |>) _ [_] [_]); [by apply worker_quiet|]. intros. by apply worker_quiet.
Qed.

(** ** Datagrams *)

Lemma receive_total tracker packet credentials now :
  exists out, StreamPingTracker.receive tracker packet credentials now = Ok out.
Proof.
  unfold StreamPingTracker.receive. destruct (zget_range packet 0 2), (zget_range packet 8 20); try by eexists.
  destruct (negb _); [by eexists|]. destruct (StreamPingTracker.position _ _); [|by eexists].
  destruct (authentic_total packet (remote_password credentials)) as [b ->]. obind. destruct (negb b); [by eexists|].
  destruct (tracker !! n) as [[id sent]|]; [|by eexists]. destruct (checked_duration_since now sent); by eexists.
Qed.

Lemma on_stun_yields whole self datagram source credentials i :
  worker_sound whole self ->
  exists self' verdict, on_stun self datagram source credentials i = Ok (self', verdict)
    /\ match verdict with
       | Some (outs, running) => step_yields whole (self', outs, running)
       | None => worker_sound whole self'
       end.
Proof.
  intros Hs. unfold on_stun. destruct (receive_total (ping_tracker self) datagram credentials (stun_at i)) as [tracked ->]. obind.
  set (self1 := match tracked.2 with Some _ => _ | None => _ end).
  assert (Hs1 : worker_sound whole self1).
  { assert (Hs0 : worker_sound whole (self <| ping_tracker := tracked.1 |>)) by (by eapply sound_fields).
    unfold self1. destruct (tracked.2); [|done]. apply sound_with_feedback; [|done].
    intros fb Hfb. by apply (feedback_op fb (StreamPing true (stun_at i) z)). }
  clearbody self1. destruct (handle_total datagram source credentials) as [verdict ->]. obind.
  assert (Hs2 : worker_sound whole (self1 <| peer_seen := true |>)) by (by eapply sound_fields).
  destruct verdict as [| |[packet|]].
  - eexists _, _. by split; [reflexivity|].
  - eexists _, _. split; [reflexivity|]. by apply worker_step, worker_nil.
  - destruct (match stun_result i with SendFailed => true | _ => false end).
    + assert (Hd : step_yields whole (shut_down (self1 <| peer_seen := true |>) (stun_at i) [SendTo packet source]))
        by (eapply shut_down_yields; [reflexivity|by repeat constructor]).
      destruct (shut_down _ _ _) as [[self3 outs] running]. eexists _, _. by split; [reflexivity|].
    + eexists _, _. split; [reflexivity|]. by apply worker_step, worker_quiet.
  - eexists _, _. split; [reflexivity|]. by apply worker_step, worker_nil.
Qed.

Lemma record_receive_sound whole self expected authenticated datagram :
  worker_sound whole self -> worker_sound whole (record_receive self expected authenticated datagram).
Proof.
  apply sound_with_feedback. intros fb Hfb.
  apply (feedback_op fb (SocketReceive VideoSocket expected authenticated (zlen datagram))); [done|apply zlen_nonneg|done].
Qed.

Lemma on_datagram_yields whole self datagram source i :
  worker_sound whole self ->
  exists self' outs timers running,
    on_datagram try_send transport_origin stun_credentials self datagram source i = Ok (self', outs, timers, running)
    /\ step_yields whole (self', outs, running).
Proof.
  intros Hs. unfold on_datagram. cbn zeta.
  set (expected := accepts_video_source _ _). set (before := is_authenticated self).
  pose proof (record_receive_sound whole self expected before datagram Hs) as Hs1.
  set (self1 := record_receive self expected before datagram) in *. clearbody self1.
  assert (Hst : exists self2 verdict, match expected, stun_credentials with
      | true, Some credentials => on_stun self1 datagram source credentials i
      | _, _ => mret (self1, None) end = Ok (self2, verdict)
    /\ match verdict with Some (outs, running) => step_yields whole (self2, outs, running) | None => worker_sound whole self2 end).
  { destruct expected, stun_credentials; try (by eexists _, _; split; [reflexivity|]). by apply on_stun_yields. }
  destruct Hst as (self2 & verdict & -> & Hv). obind.
  destruct verdict as [[outs running]|]; [by eexists _, _, _, _; split; [reflexivity|]|].
  destruct Hv as (w & Hs2 & Hg).
  destruct (process_datagram_yields cfg w (receiver self2) source datagram (received_at i) Hs2) as ([rx events] & -> & w2 & Ht & Hs3 & He). obind.
  cbn [fst snd] in *.
  set (self3 := if negb before then _ else _).
  assert (Hs4 : sound cfg w2 (receiver self3) /\ video_delivery_gap self3 = video_delivery_gap self2).
  { unfold self3. destruct (negb before); [|done]. split; [|done]. apply sound_feedback; [done|].
    apply (feedback_op (NvstVideoReceiver.feedback rx) (SocketReceive VideoSocket expected (is_authenticated (self2 <| receiver := rx |>)) (zlen datagram)));
      [apply Hs3|apply zlen_nonneg|done]. }
  clearbody self3. destruct Hs4 as [Hs4 Hgap].
  pose proof (forward_all_yields events whole self3 w w2 (received_at i) (forwarded_at i) Ht He Hs4) as Hf. rewrite Hgap in Hf.
  specialize (Hf Hg). destruct (forward_all _ _ self3 _ _ events) as [[self4 outs] running].
  eexists _, _, _, _. by split; [reflexivity|].
Qed.

Lemma turn_yields whole self i :
  worker_sound whole self ->
  exists out, turn try_send transport_origin stun_credentials self i = Ok out /\ step_yields whole out.
Proof.
  intros Hs. unfold turn. pose proof (on_commands_yields (commands i) (commands_closed i) (ping_at i) whole self Hs) as Hc.
  destruct (on_commands self _ _ _) as [[self1 outs] [|]]; cbn [negb]; [|by eexists].
  pose proof (step_app whole self1 outs (ping stun_credentials self1 i) Hc (fun w Hw => ping_yields w self1 i Hw)) as Hp.
  destruct (ping stun_credentials self1 i) as [[self2 pinged] [|]]; cbn [negb fst snd] in *; [|by eexists].
  set (handled := match received i with Received _ _ => _ | _ => _ end).
  assert (Hh : forall w, worker_sound w self2 -> exists self3 received timers running, handled = Ok (self3, received, timers, running)
    /\ step_yields w (self3, received, running)).
  { intros w Hw. unfold handled. destruct (received i) as [datagram source| |].
    - by apply on_datagram_yields.
    - eexists _, _, _, _. split; [reflexivity|]. by apply worker_step, worker_nil.
    - assert (Hd : step_yields w (shut_down self2 (received_at i) [])) by (by eapply shut_down_yields).
      destruct (shut_down self2 _ _) as [[self3 outs3] running]. eexists _, _, _, _. by split; [reflexivity|]. }
  pose proof Hp as (w & _ & _ & Hw). specialize (Hw eq_refl). cbn [fst] in Hw.
  destruct (Hh w Hw) as (self3 & received & timers & running & Heq & _). rewrite Heq. obind.
  assert (H3 : step_yields whole (self3, (outs ++ pinged) ++ received, running)).
  { apply (step_app whole self2 (outs ++ pinged) (self3, received, running) Hp). intros w' Hw'.
    destruct (Hh w' Hw') as (? & ? & ? & ? & Heq' & Hy). rewrite Heq in Heq'. by injection Heq' as <- <- <- <-. }
  rewrite <- app_assoc in H3.
  destruct (negb running || negb timers) eqn:Hstop.
  { eexists. by split; [reflexivity|]. }
  apply orb_false_iff in Hstop as [Hrun _]. zbool. subst running.
  pose proof H3 as (w3 & _ & _ & Hw3). specialize (Hw3 eq_refl). cbn [fst] in Hw3.
  destruct (poll_timers_yields w3 self3 i Hw3) as ([[self4 polled] running] & Hpoll & _). rewrite Hpoll. obind.
  eexists. split; [reflexivity|].
  apply (step_app whole self3 (outs ++ pinged ++ received) (self4, polled, running) H3). intros w' Hw'.
  destruct (poll_timers_yields w' self3 i Hw') as (out & Heq' & Hy). rewrite Hpoll in Heq'. by injection Heq' as <-.
Qed.

Lemma run_yields inputs : forall whole self, worker_sound whole self ->
  exists self' outs w, run try_send transport_origin stun_credentials self inputs = Ok (self', outs)
    /\ heard whole outs = Some w /\ Forall output_ok outs.
Proof.
  induction inputs as [|i inputs IH]; intros whole self Hs; cbn [run].
  { exists self, [], whole. split_and!; [done|done|constructor]. }
  destruct (turn_yields whole self i Hs) as ([[self1 outs] running] & -> & w1 & Hh & Ho & Hs1). obind.
  cbn [fst snd] in *. destruct running; [|by exists self1, outs, w1].
  destruct (IH w1 self1 (Hs1 eq_refl)) as (self2 & rest & w2 & -> & Hh2 & Ho2). obind.
  exists self2, (outs ++ rest), w2. rewrite heard_app, Hh. split_and!; [done|done|by apply Forall_app].
Qed.

(** ** A fresh receiver *)

(** The configurations [NvstVideoConfig] is built with. *)
Record config_ok : Prop := {
  cf_material : material_wf (srtp_material cfg);
  cf_limit : 0 <= max_access_unit_bytes cfg;
  cf_window : 1 <= reorder_window_packets cfg
}.

Lemma new_sender_ok material s :
  material_wf material -> SrtcpSender.from_material (E:=Empty_set) material = Ok (Some s) ->
  srtcp_keys_ok (sender_keys s).1.1 (sender_keys s).1.2 (sender_keys s).2.
Proof.
  unfold SrtcpSender.from_material, derive_aes128_cm_key, derive_aes_cm_key, srtcp_keys_ok, key_ok.
  destruct material as [key salt n|key salt n|key salt n|key salt n]; intros (Hk & Hs & Hn); try done;
    repeat match goal with
    | |- context [derive_key (E:=?E) ?a ?n ?k ?s ?l] =>
        let x := fresh "k" in let Hx := fresh "Hk" in
        destruct (derive_key_Ok (E:=E) a n k s l) as (x & -> & Hx); [lia|lia|]; obind
    end; intros [= <-]; cbn; lia.
Qed.

Lemma new_sender_total material :
  material_wf material -> exists s, SrtcpSender.from_material (E:=Empty_set) material = Ok s.
Proof.
  unfold SrtcpSender.from_material, derive_aes128_cm_key, derive_aes_cm_key.
  destruct material as [key salt n|key salt n|key salt n|key salt n]; intros (Hk & Hs & Hn); try by eexists.
  all: repeat match goal with
    | |- context [derive_key (E:=?E) ?a ?n ?k ?s ?l] =>
        let x := fresh "k" in let Hx := fresh "Hk" in
        destruct (derive_key_Ok (E:=E) a n k s l) as (x & -> & Hx); [lia|lia|]; obind
    end; by eexists.
Qed.

Lemma receiver_new_ok fb now :
  config_ok -> feedback_ok fb ->
  exists rx, NvstVideoReceiver.new cfg fb now = Ok rx /\ sound cfg true rx
    /\ replay_rel (SrtpReceiver.replay (NvstVideoReceiver.srtp rx)) ∅
    /\ NvstVideoReceiver.feedback rx = fb /\ NvstVideoReceiver.state rx = Running
    /\ NvstVideoReceiver.reorder rx = RtpReorderBuffer.new (reorder_window_packets cfg)
    /\ NvstVideoReceiver.assembler rx = VideoAccessUnitAssembler.new (video_codec cfg) (max_access_unit_bytes cfg)
    /\ NvstVideoReceiver.next_frame_contiguous rx = true /\ NvstVideoReceiver.bound_ssrc rx = None
    /\ NvstVideoReceiver.frame_progress rx = FrameProgressWatchdog.default
    /\ NvstVideoReceiver.last_stream_packet_index rx = None.
Proof.
  intros [Hm Hlim Hwin] Hfb. unfold NvstVideoReceiver.new.
  destruct (from_material_wf (E:=Empty_set) (srtp_material cfg) Hm) as (srx & Hsrx & Hc & Hr).
  rewrite Hsrx. obind.
  assert (Hsr : exists s, (if negb (rtcp_on_sctp cfg) then SrtcpSender.from_material (srtp_material cfg) else mret None)
      = (Ok s : outcome Empty_set _)
    /\ forall k, s = Some k -> srtcp_keys_ok (sender_keys k).1.1 (sender_keys k).1.2 (sender_keys k).2).
  { destruct (negb (rtcp_on_sctp cfg)); [|by exists None].
    destruct (new_sender_total (srtp_material cfg) Hm) as [s Hs]. exists s. split; [done|]. intros k ->.
    by eapply new_sender_ok. }
  destruct Hsr as (s & -> & Hk). obind. eexists. split; [reflexivity|].
  assert (Hrel : replay_rel (SrtpReceiver.replay srx) ∅) by (rewrite Hr; apply replay_rel_default).
  split; [|by split_and!]. split; [|done]. constructor; cbn; try done.
  - by eexists.
  - split; constructor; [constructor|done|done|done].
Qed.
End Honesty.

Lemma start_sound `{CryptoLaws} cfg rx now : sound cfg true rx -> worker_sound cfg true (VideoWorker.start rx now).
Proof. intros Hs. by exists true. Qed.

(** C2: the video worker is safe.  Built from well-formed key material and a
    valid configuration, with any feedback state the other threads left, the
    worker survives every sequence of turns: whatever datagrams arrive from
    wherever, whatever the clock, the socket, the commands and the decoder's
    channel do, no turn panics (no index, slice, [expect] or loop of the receive
    path fails), and every frame handed to the decoder carries the configured
    codec and at most the configured number of bytes. *)
Theorem video_worker_never_panics `{CryptoLaws} (try_send : nat -> TrySend) (transport_origin : Z)
    (stun_credentials : option NvstStunCredentials) (cfg : NvstVideoConfig) (fb : NvstFeedbackState.t) (now : Z)
    (inputs : list turn_input) (Hcfg : config_ok cfg) (Hfb : feedback_ok fb) :
  exists rx self outs, NvstVideoReceiver.new cfg fb now = Ok rx
    /\ VideoWorker.run try_send transport_origin stun_credentials (VideoWorker.start rx now) inputs = Ok (self, outs)
    /\ Forall (output_ok cfg) outs.
Proof.
  destruct (receiver_new_ok cfg fb now Hcfg Hfb) as (rx & Hrx & Hs & _).
  destruct (run_yields try_send transport_origin stun_credentials cfg inputs true _ (start_sound cfg rx now Hs))
    as (self & outs & w & Hrun & _ & Ho). by exists rx, self, outs.
Qed.

(** C3: a contiguous frame hides no loss.  In whatever the worker emits over its
    life, between a delivered frame that is marked contiguous and the frame
    delivered before it lies no event that tells of a loss: no packet gap or
    timeout, no broken, oversized or abandoned frame, no frame the decoder's full
    channel refused, no pause, restart or stop. *)
Theorem contiguous_frames_hide_no_loss `{CryptoLaws} (try_send : nat -> TrySend) (transport_origin : Z)
    (stun_credentials : option NvstStunCredentials) (cfg : NvstVideoConfig) (fb : NvstFeedbackState.t) (now : Z)
    (inputs : list turn_input) rx self before middle frame after
    (Hcfg : config_ok cfg) (Hfb : feedback_ok fb) (Hrx : NvstVideoReceiver.new cfg fb now = Ok rx)
    (Hrun : VideoWorker.run try_send transport_origin stun_credentials (VideoWorker.start rx now) inputs
      = Ok (self, before ++ middle ++ Media frame :: after))
    (Hframe : mf_contiguous frame = true) (Hmiddle : Forall (fun o => is_media o = false) middle) :
  Forall (fun o => tells_loss o = false) middle.
Proof.
  destruct (receiver_new_ok cfg fb now Hcfg Hfb) as (rx' & Hrx' & Hs & _). rewrite Hrx in Hrx'. injection Hrx' as <-.
  destruct (run_yields try_send transport_origin stun_credentials cfg inputs true _ (start_sound cfg rx now Hs))
    as (self' & outs & w & Hrun' & Hh & _). rewrite Hrun in Hrun'. injection Hrun' as <- <-.
  by eapply heard_contiguous.
Qed.
