(* ===== verification/VideoStream.v ===== *)
(** * An undisturbed stream

    The whole receive path composed: what a sender protects and the network
    delivers in order comes out as the sender's access units, one event each and
    nothing else. *)

From stdpp Require Import gmap strings.
From S2P Require Import Prelude Types Rtp Replay BTree Reorder Fec Assembler Control Nack Crypto Srtp Rtcp Stun F64 Bandwidth StageTimings Feedback Receiver VideoSession VideoWorker VideoHonesty.

(** ** The sender *)

(** A video packet outside any FEC block: its header metadata is [h]. *)
Record video_wire (cfg : NvstVideoConfig) (ssrc : Z) (w : wire) (h : NvVideoPacket.t) : Prop := {
  vw_ok : wire_ok w;
  vw_ssrc : w_ssrc w = ssrc;
  vw_type : forall expected, expected_payload_type cfg = Some expected -> w_payload_type w = expected;
  vw_meta : NvVideoPacket.parse (wire_parsed w) (w_body w) = Ok (h, w_body w);
  vw_fec : NvVideoPacket.is_fec h = false;
  vw_plain : forall i, FecPacketLayout.from_packet (sent_packet (i, w)) = None
}.

(** The access unit a frame of packets with metadata stands for. *)
Record frame_of (cfg : NvstVideoConfig) (packets : list (wire * NvVideoPacket.t)) (frame : EncodedVideoAccessUnit) : Prop := {
  ff_codec : au_codec frame = video_codec cfg;
  ff_whole : au_contiguous frame = true;
  ff_shape : exists w0 h0 middles wn hn picture, packets = (w0, h0) :: middles ++ [(wn, hn)]
    /\ au_frame_index frame = NvVideoPacket.frame_index h0
    /\ au_first_stream_packet_index frame = NvVideoPacket.stream_packet_index h0
    /\ au_timestamp frame = w_timestamp wn
    /\ video_picture_payload (video_codec cfg) (w_body w0) = Ok (Some picture)
    /\ strip_trailing_access_unit_delimiter (video_codec cfg)
         (picture ++ concat (map (fun p => w_body p.1) (middles ++ [(wn, hn)]))) = Ok (au_bytes frame)
    /\ (au_keyframe frame = true <-> intra_from (video_codec cfg) (au_bytes frame) 0)
}.

(** ** A packet in order *)

Lemma push_in_order st p now :
  RtpReorderBuffer.packets st = [] -> 1 <= RtpReorderBuffer.max_packets st ->
  default (pk_index p) (RtpReorderBuffer.next_index st) = pk_index p ->
  exists st', RtpReorderBuffer.push st p now
    = Ok (st', {| ready := [p]; nack := None; recovery := None; dropped := None; fec_repaired := 0 |})
    /\ RtpReorderBuffer.packets st' = [] /\ RtpReorderBuffer.next_index st' = Some (pk_index p + 1)
    /\ RtpReorderBuffer.max_packets st' = RtpReorderBuffer.max_packets st.
Proof.
  destruct st as [next packets max wait]. cbn [RtpReorderBuffer.packets RtpReorderBuffer.max_packets RtpReorderBuffer.next_index].
  intros -> Hm Hn. unfold RtpReorderBuffer.push. cbn [RtpReorderBuffer.next_index]. rewrite Hn, Z.ltb_irrefl.
  cbn -[Z.leb Z.eqb saturating_sub Z.add]. unfold const. unfold saturating_sub at 1. rewrite Z.sub_diag. change (Z.max 0 0) with 0.
  rewrite (proj2 (Z.leb_gt max 0)) by lia. rewrite andb_false_r. cbn -[Z.eqb Z.add]. unfold const. rewrite Z.eqb_refl.
  cbn -[Z.eqb Z.add]. unfold const. rewrite ?Z.eqb_refl. cbn -[Z.add]. unfold const.
  eexists. split; [reflexivity|]. cbn -[Z.eqb Z.add]. unfold const. by rewrite ?Z.eqb_refl.
Qed.

(** ** The receiver between two packets of the stream *)

Section Stream.
Context `{CryptoLaws}.
Context (cfg : NvstVideoConfig) (ssrc : Z).
Import NvstVideoReceiver.

(** [n] is the index of the next packet, [S] those received. *)
Record streaming (n : Z) (S : gset Z) (self : t) : Prop := {
  st_sound : sound cfg true self;
  st_running : state self = Running;
  st_replay : replay_rel (SrtpReceiver.replay (srtp self)) S;
  st_past : forall j, j ∈ S -> j < n;
  st_last : (S = ∅ -> n < 2 ^ 16) /\ (S <> ∅ -> n - 1 ∈ S);
  st_empty : RtpReorderBuffer.packets (reorder self) = [];
  st_next : default n (RtpReorderBuffer.next_index (reorder self)) = n;
  st_bound : default ssrc (bound_ssrc self) = ssrc;
  st_tracking : FrameProgressWatchdog.stage (frame_progress self) = Tracking
}.

(** What the assembly of frames depends on. *)
Record same_picture (self self' : t) : Prop := {
  sp_assembler : assembler self' = assembler self;
  sp_index : last_stream_packet_index self' = last_stream_packet_index self;
  sp_flag : next_frame_contiguous self' = next_frame_contiguous self
}.

Definition accepts (source : SocketAddr) : Prop := accepts_video_source cfg source = true.
Definition ssrc_allowed : Prop := forall expected, expected_ssrc cfg = Some expected -> expected = ssrc.

Lemma streaming_near n S self : streaming n S self -> near S n /\ (n ∉ S).
Proof.
  intros Hs. destruct (st_last _ _ _ Hs) as [He Hl]. split.
  - split; [done|]. intros h Hh Hmax. assert (HS : S <> ∅) by set_solver.
    pose proof (Hmax _ (Hl HS)). pose proof (st_past _ _ _ Hs h Hh).
    unfold SRTP_REPLAY_WINDOW_PACKETS, MAX_REORDER_WINDOW. lia.
  - intros Hin. pose proof (st_past _ _ _ Hs n Hin). lia.
Qed.

Lemma mismatch_none expected actual : (forall e, expected = Some e -> actual = e) -> mismatch expected actual = None.
Proof. intros He. destruct expected as [e|]; [|done]. cbn. rewrite (He e eq_refl), Z.eqb_refl. done. Qed.

Lemma sent_accepted n w : wire_ok w -> 0 <= n < 2 ^ 48 -> accepted_packet (sent_packet (n, w)).
Proof.
  intros Hok Hn. pose proof (parse_spec (wire_bytes w)) as Hp. rewrite parse_wire_lemma in Hp by done.
  destruct Hp as [Hh Ho]. by constructor.
Qed.

(** A packet in order is decrypted, passes the reorder buffer alone and reaches
    the loop over the ready packets. *)
Lemma stream_packet n S self w h source now :
  streaming n S self -> video_wire cfg ssrc w h -> w_sequence w = as_u16 n -> 0 <= n < 2 ^ 48 ->
  accepts source -> ssrc_allowed ->
  exists d self1, send (SrtpReceiver.cipher (srtp self)) (n, w) = Ok d
    /\ SrtpReceiver.cipher (srtp self1) = SrtpReceiver.cipher (srtp self)
    /\ streaming (n + 1) ({[n]} ∪ S) self1 /\ same_picture self self1
    /\ process_datagram self source d now = deliver_step (self1, []) (sent_packet (n, w)).
Proof.
  intros Hst Hw Hseq Hn Hsrc Hssrc. pose proof (so_ok _ _ _ (st_sound _ _ _ Hst)) as Hok.
  destruct (streaming_near _ _ _ Hst) as [Hnear Hnew].
  assert (Hsend : sendable S [(n, w)]) by (cbn; split_and!; [apply Hw|done|lia|lia|done|done|done]).
  destruct (unprotect_sent (srtp self) S (n, w) [] (ro_cipher _ _ Hok) (st_replay _ _ _ Hst)) as (d & rx & Hd & Hun & Hc & Hrel);
    [intros j Hj; pose proof (st_past _ _ _ Hst j Hj); lia|done|]. cbn [fst] in Hrel.
  set (p := sent_packet (n, w)) in *. assert (Hp : accepted_packet p) by (apply sent_accepted; [apply Hw|done]).
  set (self0 := self <| srtp := rx |>).
  assert (Hadmit : admission self source d = Ok (self0, inr p)).
  { unfold admission. rewrite (ro_config _ _ Hok), Hsrc. cbn [negb]. rewrite (st_running _ _ _ Hst). cbn [refusal]. rewrite Hun.
    fold self0. change (config self0) with (config self). change (bound_ssrc self0) with (bound_ssrc self).
    rewrite (ro_config _ _ Hok). rewrite mismatch_none by (intros e He; exact (vw_type _ _ _ _ Hw e He)).
    rewrite mismatch_none; [done|]. cbn. rewrite (vw_ssrc _ _ _ _ Hw). pose proof (st_bound _ _ _ Hst) as Hb.
    destruct (expected_ssrc cfg) as [e'|] eqn:He; [intros e [= <-]; symmetry; by apply Hssrc|].
    intros e Hbe. rewrite Hbe in Hb. cbn in Hb. done. }
  assert (Hs0 : sound cfg true self0).
  { pose proof (ro_counters _ _ Hok) as Hcount. destruct Hok. split; [|done]. change rx with (srtp self0) in Hc, Hrel. constructor; try done; [by rewrite Hc|by eexists|]. destruct Hcount. by constructor. }
  destruct (account_spec self0 p now (ro_feedback _ _ (so_ok _ _ _ Hs0)) (ro_counters _ _ (so_ok _ _ _ Hs0)) Hp)
    as (self1 & Hacc & Hsame & Hfb & Hco & Hb1 & _).
  pose proof (sound_same cfg true self0 self1 Hs0 Hsame Hfb Hco) as Hs1.
  assert (Hre : reorder self1 = reorder self) by (rewrite (sm_reorder _ _ Hsame); done).
  destruct (push_in_order (reorder self1) p now) as (buffer & Hpush & Hbp & Hbn & Hbm).
  { rewrite Hre. apply Hst. } { rewrite Hre. apply (ro_reorder _ _ Hok). } { rewrite Hre. apply Hst. }
  set (self2 := self1 <| reorder := buffer |>).
  set (result := {| ready := [p] |}) in Hpush.
  set (self3 := self2 <| fec_repaired_packets := bump (fec_repaired_packets self2) (fec_repaired result) |>).
  assert (Hreorder : reorder_packet self1 p now = Ok (self2, result)).
  { unfold reorder_packet. rewrite (vw_plain _ _ _ _ Hw n : FecPacketLayout.from_packet p = None). by rewrite Hpush. }
  assert (Hnote : note_result self2 result now = (self3, [])) by done.
  destruct (reorder_packet_spec cfg true self1 p now Hs1 Hp) as (self2' & result' & Heq & Hs2 & Hrs).
  rewrite Hreorder in Heq. injection Heq as <- <-.
  destruct (note_result_yields cfg true self2 result now Hs2 Hrs) as (w3 & Ht3 & Hs3 & _). rewrite Hnote in Ht3, Hs3.
  cbn [trace fst snd] in Ht3, Hs3. injection Ht3 as <-.
  exists d, self3. split; [done|]. split.
  { change (srtp self3) with (srtp self1). rewrite (sm_srtp _ _ Hsame). exact Hc. }
  split; [|split].
  - constructor; [exact Hs3|..].
    + change (state self3) with (state self1). rewrite (sm_state _ _ Hsame). apply Hst.
    + change (srtp self3) with (srtp self1). rewrite (sm_srtp _ _ Hsame). exact Hrel.
    + intros j [Hj%elem_of_singleton|Hj]%elem_of_union; [lia|]. pose proof (st_past _ _ _ Hst j Hj). lia.
    + split; [set_solver|]. intros _. replace (n + 1 - 1) with n by lia. set_solver.
    + exact Hbp.
    + change (reorder self3) with buffer. by rewrite Hbn.
    + change (bound_ssrc self3) with (bound_ssrc self1). rewrite Hb1. cbn [default]. unfold id.
      change (bound_ssrc self0) with (bound_ssrc self). pose proof (st_bound _ _ _ Hst) as Hb.
      destruct (bound_ssrc self); cbn in *; [done|apply Hw].
    + change (frame_progress self3) with (frame_progress self1). rewrite (sm_stage _ _ Hsame). apply Hst.
  - destruct Hsame. by constructor.
  - unfold process_datagram. rewrite Hadmit. obind. rewrite Hacc. obind. rewrite Hreorder. obind. rewrite Hnote.
    cbn [ready result ofold]. by destruct (deliver_step (self3, []) p).
Qed.

(** ** Packets of a frame *)

Definition media (p : wire * NvVideoPacket.t) : media_packet := (p.2, w_timestamp p.1, w_body p.1).

(** The stream packet indices of a frame count up modulo 2^24. *)
Definition next_index (last : Z) : Z := Z.land (as_u32 (last + 1)) STREAM_PACKET_INDEX_MASK.
Fixpoint chained (last : Z) (packets : list (wire * NvVideoPacket.t)) : Prop :=
  match packets with
  | [] => True
  | (_, h) :: packets => NvVideoPacket.stream_packet_index h = next_index last
      /\ chained (NvVideoPacket.stream_packet_index h) packets
  end.

(** What a packet of the stream produces. *)
Definition emitted (self : t) (unit : option EncodedVideoAccessUnit) : list NvstReceiveEvent :=
  match unit with
  | Some frame => [EvFrame (frame <| au_contiguous := next_frame_contiguous self |>)]
  | None => []
  end.

Lemma deliver_video self n w h :
  video_wire cfg ssrc w h ->
  deliver_step (self, []) (sent_packet (n, w)) = assemble self h (w_timestamp w) (w_body w).
Proof.
  intros Hw. unfold deliver_step, deliver_packet. cbn [fst snd sent_packet pk_header pk_plaintext pk_origin].
  rewrite payload_wire_lemma by apply Hw. rewrite (vw_meta _ _ _ _ Hw).
  change (bool_decide (Authenticated = RecoveredData)) with false. cbn match. rewrite (vw_fec _ _ _ _ Hw).
  change (RtpHeader.timestamp (wire_parsed w)) with (w_timestamp w).
  by destruct (assemble self h (w_timestamp w) (w_body w)) as [[self' es]| |].
Qed.

(** The assembler's answer decides what the receiver does with the packet,
    unless it opens a frame inside another or skips an index. *)
Definition undisturbed (self : t) (h : NvVideoPacket.t) : Prop :=
  if NvVideoPacket.is_start_of_frame h then VideoAccessUnitAssembler.current_frame (assembler self) = None
  else exists last, last_stream_packet_index self = Some last /\ NvVideoPacket.stream_packet_index h = next_index last.

Lemma assemble_undisturbed self h timestamp body asm unit :
  undisturbed self h -> FrameProgressWatchdog.stage (frame_progress self) = Tracking ->
  VideoAccessUnitAssembler.push (assembler self) h timestamp body = (asm, Ok unit) ->
  exists self', assemble self h timestamp body = Ok (self', emitted self unit)
    /\ assembler self' = asm /\ last_stream_packet_index self' = Some (NvVideoPacket.stream_packet_index h)
    /\ next_frame_contiguous self' = (match unit with Some _ => true | None => next_frame_contiguous self end)
    /\ state self' = state self /\ srtp self' = srtp self /\ reorder self' = reorder self /\ bound_ssrc self' = bound_ssrc self
    /\ FrameProgressWatchdog.stage (frame_progress self') = Tracking.
Proof.
  intros Hu Hst Hpush. unfold assemble.
  assert (Hclose : close_open_frame self h = (self, [])).
  { unfold close_open_frame, undisturbed in *. destruct (NvVideoPacket.is_start_of_frame h); [|done]. by rewrite Hu. }
  rewrite Hclose.
  assert (Hgap : index_gap self h = false).
  { unfold index_gap, undisturbed in *. destruct (NvVideoPacket.is_start_of_frame h); [done|].
    destruct Hu as (last & -> & ->). unfold next_index. rewrite Z.eqb_refl. by rewrite andb_false_r. }
  rewrite Hgap. set (self1 := self <| last_stream_packet_index := _ |>).
  change (assembler self1) with (assembler self). rewrite Hpush.
  destruct unit as [frame|].
  - unfold emit_frame. cbn zeta.
    set (progress := FrameProgressWatchdog.assembled _ _ _).
    assert (Hp : progress.2 = false /\ FrameProgressWatchdog.stage progress.1 = Tracking).
    { unfold progress, FrameProgressWatchdog.assembled.
      change (frame_progress (self1 <| assembler := asm |>)) with (frame_progress self).
      destruct (_ && _); [done|]. cbn. unfold const. rewrite Hst. by rewrite bool_decide_eq_true_2. }
    clearbody progress. destruct progress as [progress resumed]. destruct Hp as [Hres Hpst]. cbn [fst snd] in *. subst resumed.
    eexists. split; [reflexivity|]. by split_and!.
  - eexists. split; [reflexivity|]. by split_and!.
Qed.

Lemma stream_step n S self w h source now asm unit :
  streaming n S self -> video_wire cfg ssrc w h -> w_sequence w = as_u16 n -> 0 <= n < 2 ^ 48 ->
  accepts source -> ssrc_allowed -> undisturbed self h ->
  VideoAccessUnitAssembler.push (assembler self) h (w_timestamp w) (w_body w) = (asm, Ok unit) ->
  exists d self', send (SrtpReceiver.cipher (srtp self)) (n, w) = Ok d
    /\ SrtpReceiver.cipher (srtp self') = SrtpReceiver.cipher (srtp self)
    /\ process_datagram self source d now = Ok (self', emitted self unit)
    /\ streaming (n + 1) ({[n]} ∪ S) self'
    /\ assembler self' = asm /\ last_stream_packet_index self' = Some (NvVideoPacket.stream_packet_index h)
    /\ next_frame_contiguous self' = (match unit with Some _ => true | None => next_frame_contiguous self end).
Proof.
  intros Hst Hw Hseq Hn Hsrc Hssrc Hu Hpush.
  destruct (stream_packet n S self w h source now Hst Hw Hseq Hn Hsrc Hssrc) as (d & self1 & Hd & Hc & Hst1 & Hsame & Hproc).
  rewrite (deliver_video self1 n w h Hw) in Hproc. destruct Hsame as [Hasm Hidx Hflag].
  assert (Hu1 : undisturbed self1 h) by (unfold undisturbed in *; by rewrite Hasm, Hidx).
  rewrite <- Hasm in Hpush.
  destruct (assemble_undisturbed self1 h _ _ asm unit Hu1 (st_tracking _ _ _ Hst1) Hpush)
    as (self' & Ha & Hasm' & Hidx' & Hflag' & Hstate & Hsrtp & Hre & Hb & Hstage).
  assert (Hem : emitted self1 unit = emitted self unit) by (unfold emitted; by rewrite Hflag).
  assert (Hi : is_u32 (NvVideoPacket.frame_index h)).
  { pose proof (parse_spec (wire_bytes w)) as Hp. rewrite parse_wire_lemma in Hp by apply Hw. destruct Hp as [Hh _].
    pose proof (nv_parse_spec (wire_parsed w) (w_body w) Hh) as Hv. rewrite (vw_meta _ _ _ _ Hw) in Hv. apply Hv. }
  destruct (assemble_yields cfg true self1 h (w_timestamp w) (w_body w) (st_sound _ _ _ Hst1) Hi) as (out & Ha' & whole & Htrace & Hs' & _).
  rewrite Ha in Ha'. injection Ha' as <-. cbn [fst snd] in Htrace, Hs'.
  assert (whole = true) as ->.
  { destruct unit as [frame|]; cbn in Htrace; [|by injection Htrace].
    destruct (_ && _) in Htrace; [done|]. by injection Htrace. }
  exists d, self'. rewrite Hproc, Ha, Hem, Hsrtp, Hflag', Hflag. split_and!; try done.
  destruct Hst1. constructor; rewrite ?Hstate, ?Hsrtp, ?Hre, ?Hb; done.
Qed.

(** ** Runs of packets *)

(** What the network delivers: a source, a datagram, a time each. *)
Fixpoint process_all (self : t) (arrivals : list (SocketAddr * list u8 * Z)) : outcome Empty_set (t * list NvstReceiveEvent) :=
  match arrivals with
  | [] => mret (self, [])
  | (source, d, now) :: arrivals =>
      out ← process_datagram self source d now;
      rest ← process_all out.1 arrivals;
      mret (rest.1, out.2 ++ rest.2)
  end.

(** The datagrams of packets [ws], from index [n] on, as they arrive. *)
Inductive arrives (cipher : SrtpCipher) : Z -> list wire -> list (SocketAddr * list u8 * Z) -> Prop :=
  | arrives_nil n : arrives cipher n [] []
  | arrives_cons n w ws source d now arrivals :
      send cipher (n, w) = Ok d -> accepts source -> arrives cipher (n + 1) ws arrivals ->
      arrives cipher n (w :: ws) ((source, d, now) :: arrivals).

(** The packets carry the indices from [n] on. *)
Fixpoint sequenced (n : Z) (ws : list wire) : Prop :=
  match ws with
  | [] => True
  | w :: ws => w_sequence w = as_u16 n /\ 0 <= n < 2 ^ 48 /\ sequenced (n + 1) ws
  end.

Lemma process_all_app self xs ys :
  process_all self (xs ++ ys)
  = (out ← process_all self xs; rest ← process_all out.1 ys; mret (rest.1, out.2 ++ rest.2)).
Proof.
  revert self. induction xs as [|[[source d] now] xs IH]; intros self; cbn [app process_all].
  { obind. cbn [fst snd app]. by destruct (process_all self ys) as [[]| |]. }
  destruct (process_datagram self source d now) as [[self1 es]|e|]; [|done|done]. obind. cbn [fst snd]. rewrite IH.
  destruct (process_all self1 xs) as [[self2 fs]|e|]; [|done|done]. obind. cbn [fst snd].
  destruct (process_all self2 ys) as [[self3 gs]|e|]; [|done|done]. obind. cbn [fst snd]. by rewrite app_assoc.
Qed.

(** Packets inside a frame produce nothing. *)
Lemma quiet_run packets : forall n S self last cipher arrivals asm f,
  streaming n S self -> SrtpReceiver.cipher (srtp self) = cipher ->
  Forall (fun p => video_wire cfg ssrc p.1 p.2) packets -> sequenced n (map fst packets) -> ssrc_allowed ->
  arrives cipher n (map fst packets) arrivals ->
  last_stream_packet_index self = Some last -> chained last packets ->
  Forall (middle f) (map media packets) ->
  feed (assembler self) (map media packets) = (asm, replicate (length packets) (Ok None)) ->
  exists self' S', process_all self arrivals = Ok (self', [])
    /\ streaming (n + zlen packets) S' self' /\ SrtpReceiver.cipher (srtp self') = cipher
    /\ assembler self' = asm /\ next_frame_contiguous self' = next_frame_contiguous self
    /\ exists last', last_stream_packet_index self' = Some last'
       /\ forall more, chained last (packets ++ more) -> chained last' more.
Proof.
  induction packets as [|[w h] packets IH]; intros n S self last cipher arrivals asm f Hst Hc Hw Hseq Hss Har Hlast Hch Hmid Hfeed.
  { inversion Har; subst. cbn in Hfeed. injection Hfeed as <-. exists self, S. rewrite zlen_nil, Z.add_0_r.
    split_and!; try done. by exists last. }
  cbn [map fst] in *. inversion Har as [|? ? ? source d now rest Hsend Hsource Hrest]; subst. clear Har.
  apply Forall_cons in Hw as [Hw1 Hw]. destruct Hseq as (Hs1 & Hn & Hseq). destruct Hch as [Hc1 Hch].
  apply Forall_cons in Hmid as [Hm1 Hmid]. cbn [feed media fst snd length replicate] in Hfeed.
  destruct (VideoAccessUnitAssembler.push (assembler self) h (w_timestamp w) (w_body w)) as [asm1 r] eqn:Hpush.
  destruct (feed asm1 (map media packets)) as [asm2 rs] eqn:Hf2. injection Hfeed as <- -> ->.
  assert (Hund : undisturbed self h).
  { unfold undisturbed. destruct Hm1 as (_ & Hns & _). change (NvVideoPacket.is_start_of_frame h = false) in Hns. rewrite Hns. by exists last. }
  destruct (stream_step n S self w h source now asm1 None Hst Hw1 Hs1 Hn Hsource Hss Hund Hpush)
    as (d' & self1 & Hd & Hc' & Hproc & Hst1 & Hasm1 & Hidx1 & Hfl1).
  rewrite Hsend in Hd. injection Hd as <-.
  destruct (IH (n + 1) _ self1 (NvVideoPacket.stream_packet_index h) (SrtpReceiver.cipher (srtp self)) rest asm2 f Hst1 Hc' Hw Hseq Hss Hrest Hidx1 Hch Hmid)
    as (self' & S' & Hall & Hst' & Hc'' & Hasm' & Hfl' & last' & Hl' & Hmore); [by rewrite Hasm1|].
  exists self', S'. cbn [process_all]. rewrite Hproc. obind. cbn [fst snd emitted]. rewrite Hall. obind.
  rewrite zlen_cons. replace (n + (1 + zlen packets)) with (n + 1 + zlen packets) by lia.
  split_and!; try done; [congruence|]. exists last'. split; [done|]. intros more [_ Hch']. by apply Hmore.
Qed.

(** ** Frames *)

(** A frame as the sender cuts it. *)
Record frame_sent (packets : list (wire * NvVideoPacket.t)) : Prop := {
  fs_wires : Forall (fun p => video_wire cfg ssrc p.1 p.2) packets;
  fs_shape : exists f w0 h0 middles wn hn picture, packets = (w0, h0) :: middles ++ [(wn, hn)]
    /\ frame_packets f h0 hn (map media middles)
    /\ chained (NvVideoPacket.stream_packet_index h0) (middles ++ [(wn, hn)])
    /\ video_picture_payload (video_codec cfg) (w_body w0) = Ok (Some picture)
    /\ zlen (picture ++ concat (map (fun p => w_body p.1) (middles ++ [(wn, hn)]))) <= max_access_unit_bytes cfg
}.

Lemma payloads_media packets : payloads (map media packets) = concat (map (fun p => w_body p.1) packets).
Proof. unfold payloads. by rewrite map_map. Qed.

(** Between two frames. *)
Record at_boundary (n : Z) (self : t) : Prop := {
  ab_streaming : exists S, streaming n S self;
  ab_closed : VideoAccessUnitAssembler.current_frame (assembler self) = None;
  ab_whole : next_frame_contiguous self = true
}.

Lemma arrives_app cipher n ws1 ws2 arrivals :
  arrives cipher n (ws1 ++ ws2) arrivals ->
  exists a1 a2, arrivals = a1 ++ a2 /\ arrives cipher n ws1 a1 /\ arrives cipher (n + zlen ws1) ws2 a2.
Proof.
  revert n arrivals. induction ws1 as [|w ws1 IH]; intros n arrivals Ha.
  { exists [], arrivals. rewrite zlen_nil, Z.add_0_r. split_and!; [done|constructor|done]. }
  cbn [app] in Ha. inversion Ha as [|? ? ? source d now rest Hs Hsrc Hr]; subst.
  destruct (IH _ _ Hr) as (a1 & a2 & -> & H1 & H2). exists ((source, d, now) :: a1), a2.
  rewrite zlen_cons, Z.add_assoc. split_and!; [done|by constructor|done].
Qed.

Lemma sequenced_app n ws1 ws2 : sequenced n (ws1 ++ ws2) <-> sequenced n ws1 /\ sequenced (n + zlen ws1) ws2.
Proof.
  revert n. induction ws1 as [|w ws1 IH]; intros n; cbn [app sequenced]; [rewrite zlen_nil, Z.add_0_r; tauto|].
  rewrite IH, zlen_cons, Z.add_assoc. tauto.
Qed.

Lemma stream_frame n self packets arrivals :
  video_codec cfg <> Av1 -> ssrc_allowed -> at_boundary n self -> frame_sent packets ->
  sequenced n (map fst packets) -> arrives (SrtpReceiver.cipher (srtp self)) n (map fst packets) arrivals ->
  exists self' frame, process_all self arrivals = Ok (self', [EvFrame frame])
    /\ frame_of cfg packets frame /\ at_boundary (n + zlen packets) self'
    /\ SrtpReceiver.cipher (srtp self') = SrtpReceiver.cipher (srtp self).
Proof.
  intros Hav Hss [[S Hst] Hcl Hwh] [Hw (f & w0 & h0 & middles & wn & hn & picture & -> & Hfr & Hch & Hpic & Hlen)] Hseq Har.
  pose proof (so_ok _ _ _ (st_sound _ _ _ Hst)) as Hok.
  rewrite map_app, concat_app, <- payloads_media in Hlen. cbn [map concat fst] in Hlen. rewrite app_nil_r in Hlen.
  rewrite !zlen_app in Hlen. pose proof (zlen_nonneg (w_body wn)). pose proof (zlen_nonneg (payloads (map media middles))).
  destruct (feed_prefix (assembler self) f h0 (w_timestamp w0) (w_body w0) (map media middles) hn picture Hfr) as
    (asm2 & Hfeed & [Hcodec Hmax] & Hcur & Hfirst & Hb & _ & _); [by rewrite (ro_codec _ _ Hok)|rewrite (ro_max _ _ Hok); lia|].
  cbn [feed] in Hfeed. destruct (VideoAccessUnitAssembler.push (assembler self) h0 _ _) as [asm1 r1] eqn:Hpush1.
  destruct (feed asm1 (map media middles)) as [asm2' rs] eqn:Hfeed2. injection Hfeed as -> -> ->.
  cbn [map fst] in Hseq, Har. rewrite map_app in Hseq, Har. destruct Hseq as (Hs0 & Hn0 & Hseq).
  inversion Har as [|? ? ? source d now rest Hsend Hsource Hrest]; subst. clear Har.
  apply Forall_cons in Hw as [Hw0 Hw]. apply Forall_app in Hw as [Hwm Hwn]. apply Forall_cons in Hwn as [Hwn _].
  apply sequenced_app in Hseq as [Hseqm Hseqn]. apply arrives_app in Hrest as (am & an & -> & Harm & Harn).
  destruct (fp_first _ _ _ _ Hfr) as (_ & Hsof0 & _). destruct (fp_last _ _ _ _ Hfr) as (Hofn & Hsofn & Heofn).
  (* the first packet *)
  destruct (stream_step n S self w0 h0 source now asm1 None Hst Hw0 Hs0 Hn0 Hsource Hss) as
    (d' & self1 & Hd & Hc1 & Hproc1 & Hst1 & Hasm1 & Hidx1 & Hfl1); [unfold undisturbed; by rewrite Hsof0|done|].
  rewrite Hsend in Hd. injection Hd as <-.
  (* the packets inside *)
  assert (Hchm : chained (NvVideoPacket.stream_packet_index h0) middles).
  { clear -Hch. revert Hch. generalize (NvVideoPacket.stream_packet_index h0). induction middles as [|[w h] l IH]; intros z; cbn; [done|].
    intros [-> Hl]. split; [done|]. by apply IH. }
  destruct (quiet_run middles (n + 1) _ self1 (NvVideoPacket.stream_packet_index h0) (SrtpReceiver.cipher (srtp self)) am asm2 f Hst1 Hc1
    Hwm Hseqm Hss Harm Hidx1 Hchm (fp_middle _ _ _ _ Hfr)) as (self2 & S2 & Hproc2 & Hst2 & Hc2 & Hasm2 & Hfl2 & last & Hlast & Hmore).
  { rewrite Hasm1, Hfeed2. by rewrite length_map. }
  (* the last packet *)
  destruct (push_last asm2 f hn (w_timestamp wn) (w_body wn) _ (picture ++ payloads (map media middles) ++ w_body wn) Hofn Hsofn Heofn Hcur Hfirst)
    as (asm3 & frame & Hpush3 & Hcl3 & Hac & Hts & Hfi & Hfp & _ & Hstrip & Hkey).
  { rewrite Hb, Hmax, (ro_max _ _ Hok), zlen_app. lia. }
  { intros Hx. rewrite Hcodec, (ro_codec _ _ Hok) in Hx. done. }
  { intros _. by rewrite Hb, app_assoc. }
  cbn [map fst] in Hseqn, Harn. destruct Hseqn as (Hsn & Hnn & _).
  inversion Harn as [|? ? ? sourcen dn nown rest Hsendn Hsourcen Hnil]; subst. inversion Hnil; subst. clear Harn Hnil.
  unfold zlen in Hsn, Hnn, Hsendn. rewrite length_map in Hsn, Hnn, Hsendn. fold (zlen middles) in Hsn, Hnn, Hsendn.
  specialize (Hmore [(wn, hn)] Hch). destruct Hmore as [Hmore _].
  destruct (stream_step (n + 1 + zlen middles) S2 self2 wn hn sourcen nown asm3 (Some frame) Hst2 Hwn Hsn Hnn Hsourcen Hss)
    as (d' & self3 & Hd & Hc3 & Hproc3 & Hst3 & Hasm3 & _ & Hfl3); [unfold undisturbed; rewrite Hsofn; by exists last|done|].
  rewrite Hc2, Hsendn in Hd. injection Hd as <-.
  assert (Hwhole : next_frame_contiguous self2 = true) by congruence.
  exists self3, (frame <| au_contiguous := true |>). split_and!.
  - cbn [process_all]. rewrite Hproc1. obind. cbn [fst snd emitted]. rewrite process_all_app, Hproc2. obind. cbn [fst snd].
    cbn [process_all]. rewrite Hproc3. obind. cbn [fst snd emitted app]. by rewrite Hwhole.
  - rewrite Hcodec, (ro_codec _ _ Hok) in Hac, Hstrip, Hkey.
    constructor; [done|done|]. exists w0, h0, middles, wn, hn, picture. rewrite map_app, concat_app, <- payloads_media.
    cbn [map concat fst]. rewrite app_nil_r. split_and!; try done.
    + symmetry. by destruct (fp_first _ _ _ _ Hfr) as ([_ Hf0] & _).
    + destruct (keyframe_spec (video_codec cfg) (au_bytes frame) (VideoAccessUnitAssembler.keyframe_hint (assembler self2)))
        as (b & Hb' & Hiff). rewrite Hkey in Hb'. injection Hb' as <-. by rewrite decide_False in Hiff.
  - rewrite zlen_cons, zlen_app, zlen_cons, zlen_nil.
    replace (n + (1 + (zlen middles + (1 + 0)))) with (n + 1 + zlen middles + 1) by lia.
    constructor; [by eexists|by rewrite Hasm3|done].
  - congruence.
Qed.

Lemma stream_frames frames : forall n self arrivals,
  video_codec cfg <> Av1 -> ssrc_allowed -> at_boundary n self -> Forall frame_sent frames ->
  sequenced n (map fst (concat frames)) -> arrives (SrtpReceiver.cipher (srtp self)) n (map fst (concat frames)) arrivals ->
  exists self' units, process_all self arrivals = Ok (self', map EvFrame units)
    /\ Forall2 (frame_of cfg) frames units /\ at_boundary (n + zlen (concat frames)) self'.
Proof.
  induction frames as [|packets frames IH]; intros n self arrivals Hav Hss Hb Hf Hseq Har; cbn [concat] in *.
  { inversion Har; subst. exists self, []. rewrite zlen_nil, Z.add_0_r. split_and!; [done|constructor|done]. }
  apply Forall_cons in Hf as [Hf1 Hf]. rewrite map_app in Hseq, Har. apply sequenced_app in Hseq as [Hs1 Hs2].
  apply arrives_app in Har as (a1 & a2 & -> & Ha1 & Ha2).
  destruct (stream_frame n self packets a1 Hav Hss Hb Hf1 Hs1 Ha1) as (self1 & frame & Hp1 & Hfo & Hb1 & Hc1).
  unfold zlen in Hs2, Ha2. rewrite length_map in Hs2, Ha2. fold (zlen packets) in Hs2, Ha2. rewrite <- Hc1 in Ha2.
  destruct (IH _ self1 a2 Hav Hss Hb1 Hf Hs2 Ha2) as (self2 & units & Hp2 & Hall & Hb2).
  exists self2, (frame :: units). rewrite process_all_app, Hp1. obind. cbn [fst snd]. rewrite Hp2. obind.
  rewrite zlen_app, Z.add_assoc. split_and!; [done|by constructor|done].
Qed.
End Stream.


(** ** A concrete stream *)

Definition stream_gs (spi frame flags : Z) : list u8 :=
  to_le_bytes 4 (spi * 256) ++ to_le_bytes 4 frame ++ [z2b flags] ++ zeroes 3 ++ zeroes 4.
Definition stream_wire (sequence timestamp spi frame flags : Z) (body : list u8) : wire * NvVideoPacket.t :=
  ({| w_marker := false; w_payload_type := 96; w_sequence := sequence; w_timestamp := timestamp; w_ssrc := 7;
      w_csrcs := []; w_gs := Some (stream_gs spi frame flags); w_body := body; w_padding := [] |},
   {| NvVideoPacket.stream_packet_index := spi; NvVideoPacket.frame_index := frame; NvVideoPacket.flags := flags;
      NvVideoPacket.fec_current_block := 0; NvVideoPacket.fec_last_block := 0; NvVideoPacket.is_fec := false |}).

(** A keyframe in three packets and a frame in two; the index wraps inside the
    first. *)
Definition toy_frames : list (list (wire * NvVideoPacket.t)) :=
  [[stream_wire 65534 90 0xfffffe 7 5 h264_first; stream_wire 65535 90 0xffffff 7 1 h264_middle;
    stream_wire 0 90 0 7 3 h264_last];
   [stream_wire 1 180 1 8 5 h264_first; stream_wire 2 180 2 8 3 h264_middle]].

Definition toy_peer : SocketAddr := {| sa_ip := V4 [z2b 10; z2b 0; z2b 0; z2b 1]; sa_port := 5004 |}.
Definition toy_config : NvstVideoConfig := {|
  video_peer := toy_peer; video_peer_port_end := None; srtp_material := toy_material; rtcp_on_sctp := false;
  video_codec := H264; expected_payload_type := Some 96; expected_ssrc := None; reorder_window_packets := 64;
  max_access_unit_bytes := 1000; timeout := from_secs 5; startup_timeout := from_secs 20; video_packet_size := 1024 |}.

Definition toy_video_receiver : outcome Empty_set NvstVideoReceiver.t :=
  NvstVideoReceiver.new toy_config NvstFeedbackState.default 0.

(** The datagrams in order, a millisecond apart. *)
Definition toy_stream : list (SocketAddr * list u8 * Z) :=
  match toy_video_receiver with
  | Ok rx =>
      imap (fun i w => (toy_peer,
        match send (SrtpReceiver.cipher (NvstVideoReceiver.srtp rx)) (65534 + Z.of_nat i, w) with Ok d => d | _ => [] end,
        from_millis (Z.of_nat i))) (map fst (concat toy_frames))
  | _ => []
  end.

Lemma toy_config_ok : config_ok toy_config.
Proof. constructor; cbn; [|lia|lia]. split_and!; [reflexivity|reflexivity|by left]. Qed.

Lemma toy_wire_ok sequence timestamp spi frame flags body :
  is_u16 sequence -> is_u32 timestamp -> wire_ok (stream_wire sequence timestamp spi frame flags body).1.
Proof.
  intros Hs Ht. constructor; cbn [stream_wire fst w_payload_type w_sequence w_timestamp w_ssrc w_csrcs w_gs w_padding]; try done.
  - exists 0. split; [lia|done].
  - intros e [= <-]. unfold stream_gs. autorewrite with zlens. by rewrite !zlen_zeroes.
Qed.

Lemma toy_frames_sent : Forall (frame_sent toy_config 7) toy_frames.
Proof.
  assert (Hmeta : Forall (fun p => NvVideoPacket.parse (wire_parsed p.1) (w_body p.1) = Ok (p.2, w_body p.1)) (concat toy_frames))
    by (repeat constructor).
  assert (Hall : forall sequence timestamp spi frame flags body,
    let p := stream_wire sequence timestamp spi frame flags body in
    is_u16 sequence -> is_u32 timestamp -> NvVideoPacket.parse (wire_parsed p.1) (w_body p.1) = Ok (p.2, w_body p.1) ->
    (forall i, FecPacketLayout.from_packet (sent_packet (i, p.1)) = None) -> video_wire toy_config 7 p.1 p.2).
  { intros sequence timestamp spi frame flags body p Hs Ht Hm Hl. constructor; try done; [by apply toy_wire_ok|].
    intros expected. cbn. congruence. }
  repeat (apply Forall_cons; split; [|]); [..|apply Forall_nil_2]; constructor.
  1, 3: repeat (apply Forall_cons; split; [apply Hall; [unfold is_u16; lia|unfold is_u32; lia|vm_compute; reflexivity|intros i; vm_compute; reflexivity]|]); apply Forall_nil_2.
  - eexists 7, _, _, [_], _, _, _. split; [reflexivity|]. split; [by repeat constructor|].
    split; [vm_compute; tauto|]. split; [vm_compute; reflexivity|vm_compute; discriminate].
  - eexists 8, _, _, [], _, _, _. split; [reflexivity|]. split; [by repeat constructor|].
    split; [vm_compute; tauto|]. split; [vm_compute; reflexivity|vm_compute; discriminate].
Qed.

Lemma toy_stream_arrives rx :
  toy_video_receiver = Ok rx ->
  arrives toy_config (SrtpReceiver.cipher (NvstVideoReceiver.srtp rx)) 65534 (map fst (concat toy_frames)) toy_stream.
Proof.
  intros Hrx. unfold toy_stream. rewrite Hrx.
  assert (Hsend : Forall (fun p : nat * wire => exists d, send (SrtpReceiver.cipher (NvstVideoReceiver.srtp rx)) (65534 + Z.of_nat p.1, p.2) = Ok d)
    (imap (fun i w => (i, w)) (map fst (concat toy_frames)))).
  { vm_compute in Hrx. injection Hrx as <-. cbn [imap toy_frames concat map app stream_wire fst].
    repeat (apply Forall_cons; split; [eexists; vm_compute; reflexivity|]). apply Forall_nil_2. }
  revert Hsend. generalize (map fst (concat toy_frames)) as ws. intros ws.
  assert (Hgen : forall k, Forall (fun p : nat * wire => exists d, send (SrtpReceiver.cipher (NvstVideoReceiver.srtp rx)) (65534 + Z.of_nat p.1, p.2) = Ok d)
      (imap (fun i w => ((k + i)%nat, w)) ws) ->
    arrives toy_config (SrtpReceiver.cipher (NvstVideoReceiver.srtp rx)) (65534 + Z.of_nat k) ws
      (imap (fun i w => (toy_peer,
        match send (SrtpReceiver.cipher (NvstVideoReceiver.srtp rx)) (65534 + Z.of_nat (k + i), w) with Ok d => d | _ => [] end,
        from_millis (Z.of_nat (k + i)))) ws)).
  { induction ws as [|w ws IH]; intros k Hf; cbn [imap] in *; [constructor|].
    apply Forall_cons in Hf as [[d Hd] Hf]. cbn [fst snd] in Hd. rewrite Nat.add_0_r in *. constructor; [by rewrite Hd|done|].
    replace (65534 + Z.of_nat k + 1) with (65534 + Z.of_nat (S k)) by lia.
    rewrite (imap_ext _ (fun i w => (toy_peer, match send (SrtpReceiver.cipher (NvstVideoReceiver.srtp rx)) (65534 + Z.of_nat (S k + i), w) with Ok d => d | _ => [] end,
        from_millis (Z.of_nat (S k + i))))) by (intros i x _; cbn; by replace (k + S i)%nat with (S (k + i)) by lia).
    apply IH. rewrite (imap_ext _ (fun i w => ((k + S i)%nat, w))); [done|]. intros i x _. cbn. f_equal. lia. }
  intros Hf. exact (Hgen 0%nat Hf).
Qed.


(** ** A concrete worker *)

Definition toy_turn (arrival : RecvResult) (now : Z) : turn_input := {|
  commands := []; commands_closed := false; ping_at := now; transaction_id := None; ping_sent_at := now;
  ping_result := SendOk; received := arrival; stun_at := now; stun_result := SendOk; received_at := now;
  forwarded_at := now; polled_at := now; report_result := SendOk |}.
(** The stream of above, the middle packet of the first frame lost. *)
Definition toy_turns (lost : nat) : list turn_input :=
  imap (fun i arrival => toy_turn (if Nat.eqb i lost then ReceiveIdle else Received arrival.1.2 arrival.1.1) (from_millis (Z.of_nat i)))
    toy_stream.
Definition toy_run (lost : nat) : outcome Empty_set (VideoWorker.t * list output) :=
  match toy_video_receiver with
  | Ok rx => VideoWorker.run (fun _ => Sent) 0 None (VideoWorker.start rx 0) (toy_turns lost)
  | _ => Panic
  end.

Lemma video_worker_never_panics_witness :
  exists rx self outs, toy_video_receiver = Ok rx
    /\ VideoWorker.run (fun _ => Sent) 0 None (VideoWorker.start rx 0) (toy_turns 1) = Ok (self, outs)
    /\ Forall (output_ok toy_config) outs.
Proof.
  apply (video_worker_never_panics (fun _ => Sent) 0 None toy_config NvstFeedbackState.default 0 (toy_turns 1));
    [apply toy_config_ok|apply default_feedback_ok].
Defined.

(** Without a loss: a receiver report, then two contiguous frames. *)
Lemma toy_run_whole : exists rx self report first second,
  NvstVideoReceiver.new toy_config NvstFeedbackState.default 0 = Ok rx
  /\ VideoWorker.run (fun _ => Sent) 0 None (VideoWorker.start rx 0) (toy_turns 9)
     = Ok (self, [] ++ [SendTo report toy_peer] ++ Media first :: [Media second])
  /\ mf_contiguous first = true.
Proof. eexists _, _, _, _, _. split; [vm_compute; reflexivity|]. split; vm_compute; reflexivity. Qed.

Lemma contiguous_frames_hide_no_loss_witness :
  exists rx self report first second,
    VideoWorker.run (fun _ => Sent) 0 None (VideoWorker.start rx 0) (toy_turns 9)
      = Ok (self, [] ++ [SendTo report toy_peer] ++ Media first :: [Media second])
    /\ Forall (fun o => tells_loss o = false) [SendTo report toy_peer].
Proof.
  destruct toy_run_whole as (rx & self & report & first & second & Hrx & Hrun & Hc). exists rx, self, report, first, second.
  split; [exact Hrun|].
  exact (contiguous_frames_hide_no_loss (fun _ => Sent) 0 None toy_config NvstFeedbackState.default 0 (toy_turns 9) rx self
    [] [SendTo report toy_peer] first [Media second] toy_config_ok default_feedback_ok Hrx Hrun Hc
    (Forall_cons_2 (fun o => is_media o = false) (SendTo report toy_peer) [] eq_refl (Forall_nil_2 _))).
Defined.
