(* ===== verification/VideoFaults.v ===== *)
(** * Faults the receiver has to live with

    Forged and replayed datagrams, a stream that stops producing frames, and
    what the receiver reports of its losses. *)

From stdpp Require Import gmap strings.
From S2P Require Import Prelude Types Rtp Replay BTree Reorder Fec Assembler Control Nack Crypto Srtp Rtcp Stun F64 Bandwidth StageTimings Feedback Receiver VideoSession VideoWorker VideoHonesty VideoStream.
Import NvstVideoReceiver.

(** ** Forgeries *)

(** [d] is no datagram the sender makes of a packet that has not arrived yet;
    [S] are the indices received. *)
Definition forged `{CryptoLaws} (self : t) (S : gset Z) (d : list u8) : Prop :=
  forall p, genuine (SrtpReceiver.cipher (srtp self)) d p -> pk_index p ∈ S.

(** C4: forgeries and replays are inert.  Whatever the bytes of a datagram and
    wherever it comes from, if it is not what the sender makes of a packet that
    has not arrived yet, the receiver answers with one drop event and changes
    nothing but its count of replays: the replay window, the buffers, the
    feedback state, the timers and the frame under assembly are as before. *)
Theorem forged_datagrams_are_inert `{CryptoLaws} cfg (self : t) (S : gset Z) source d now
    (Hok : receiver_ok cfg self) (HS : replay_rel (SrtpReceiver.replay (srtp self)) S) (Hd : forged self S d) :
  exists reason replays, process_datagram self source d now
    = Ok (self <| replay_rejections := replays |>, [EvDropped reason])
    /\ (accepts_video_source (config self) source = false -> reason = UnexpectedSource (video_peer (config self)) source)
    /\ (replays <> replay_rejections self -> reason = ReplayRejected).
Proof.
  assert (Hsame : self <| replay_rejections := replay_rejections self |> = self) by (by destruct self).
  unfold process_datagram, admission. destruct (accepts_video_source (config self) source) eqn:Hsrc; cbn [negb].
  2: { obind. exists (UnexpectedSource (video_peer (config self)) source), (replay_rejections self). by rewrite Hsame. }
  destruct (refusal (state self)) as [reason|].
  { obind. exists reason, (replay_rejections self). by rewrite Hsame. }
  pose proof (unprotect_spec (srtp self) S d (ro_cipher _ _ Hok) HS) as Hu.
  destruct (SrtpReceiver.unprotect (srtp self) d) as [[rx p]|reason|]; [| |done].
  - destruct Hu as (_ & Hnew & _ & Hg & _). destruct Hnew. by apply Hd.
  - obind. case_bool_decide as Hr.
    + exists reason, (bump (replay_rejections self) 1). by split_and!.
    + exists reason, (replay_rejections self). by rewrite Hsame.
Qed.

(** ** The frame progress watchdog *)

Section Watchdog.
Context (policy : NvstFrameProgressPolicy).

(** The polls of a stream that produces nothing. *)
Fixpoint poll_all (self : t) (times : list Z) : t * list (option NvstFrameProgressEvent) :=
  match times with
  | [] => (self, [])
  | now :: times =>
      let '(self, event) := poll_frame_progress self now policy in
      let '(self, events) := poll_all self times in (self, event :: events)
  end.

(** What the polls at [times] have to say: nothing before [base + stall], then
    one keyframe request, nothing before the grace period after it is over, then
    one demand for recovery, then nothing. *)
Fixpoint waiting (base started : Z) (last : option Z) (times : list Z) : list (option NvstFrameProgressEvent) :=
  match times with
  | [] => []
  | now :: times =>
      if now <? started + keyframe_grace policy then None :: waiting base started last times
      else Some (ProgressRecoveryNeeded (now - base) last) :: map (fun _ => None) times
  end.
Fixpoint watching (base : Z) (last : option Z) (times : list Z) : list (option NvstFrameProgressEvent) :=
  match times with
  | [] => []
  | now :: times =>
      if now <? base + stall policy then None :: watching base last times
      else Some (KeyframeRequested (now - base) last) :: waiting base now last times
  end.

Lemma idle_test now base limit : 0 < limit -> (saturating_duration_since now base <? limit) = (now <? base + limit).
Proof.
  intros Hl. unfold saturating_duration_since.
  destruct (Z.ltb_spec now (base + limit)); [apply Z.ltb_lt|apply Z.ltb_ge]; lia.
Qed.

Lemma poll_stopped self times : state self <> Running -> poll_all self times = (self, map (fun _ => None) times).
Proof.
  intros Hs. induction times as [|now times IH]; [done|]. cbn [poll_all map]. unfold poll_frame_progress.
  rewrite bool_decide_eq_false_2 by done. cbn [negb]. by rewrite IH.
Qed.

Lemma poll_waiting times : forall self base started last,
  0 < stall policy -> 0 < keyframe_grace policy -> state self = Running -> progress_base self = Some base ->
  FrameProgressWatchdog.stage (frame_progress self) = KeyframePending -> FrameProgressWatchdog.keyframe_requested_at (frame_progress self) = Some started ->
  FrameProgressWatchdog.last_assembled_frame_index (frame_progress self) = last -> base <= started ->
  (poll_all self times).2 = waiting base started last times.
Proof.
  induction times as [|now times IH]; intros self base started last H1 H2 Hs Hb Hst Hreq Hlast Hle; [done|].
  cbn [poll_all waiting]. unfold poll_frame_progress. rewrite bool_decide_eq_true_2 by done. cbn [negb].
  rewrite Hb, Hst, Hreq, idle_test by done. destruct (Z.ltb_spec now (started + keyframe_grace policy)).
  - pose proof (IH self base started last H1 H2 Hs Hb Hst Hreq Hlast Hle) as IHs.
    destruct (poll_all self times) as [self' events]. cbn [snd] in *. by rewrite IHs.
  - set (self' := _ <| state := RecoveryRequired |>). rewrite (poll_stopped self') by done. cbn [snd].
    rewrite Hlast. unfold saturating_duration_since. by rewrite Z.max_r by lia.
Qed.

Lemma poll_watching times : forall self base,
  0 < stall policy -> 0 < keyframe_grace policy -> state self = Running -> progress_base self = Some base ->
  FrameProgressWatchdog.stage (frame_progress self) = Tracking ->
  (poll_all self times).2 = watching base (FrameProgressWatchdog.last_assembled_frame_index (frame_progress self)) times.
Proof.
  induction times as [|now times IH]; intros self base H1 H2 Hs Hb Hst; [done|].
  cbn [poll_all watching]. unfold poll_frame_progress at 1. rewrite bool_decide_eq_true_2 by done. cbn [negb].
  rewrite Hb, Hst, idle_test by done. destruct (Z.ltb_spec now (base + stall policy)).
  - pose proof (IH self base H1 H2 Hs Hb Hst) as IHs.
    destruct (poll_all self times) as [self' events]. cbn [snd] in *. by rewrite IHs.
  - cbv beta iota zeta. match goal with |- context [poll_all ?s times] => set (self' := s) end.
    pose proof (poll_waiting times self' base now (FrameProgressWatchdog.last_assembled_frame_index (frame_progress self)) H1 H2
      Hs Hb eq_refl eq_refl eq_refl ltac:(lia)) as Hw.
    destruct (poll_all self' times) as [self'' events]. cbn [snd] in *. rewrite Hw.
    unfold saturating_duration_since. by rewrite Z.max_r by lia.
Qed.
End Watchdog.


(** ** Receiver reports *)

(** The report a packet of the sender carries. *)
Definition opens_to `{Crypto} (sender : SrtcpSender.t) (packet : list u8) (report : RtcpReportBlock) : Prop :=
  exists plain, open_srtcp (sender_keys sender).1.1 (sender_keys sender).1.2 (sender_keys sender).2 packet
      = Ok (SrtcpSender.next_index sender, plain)
    /\ parse_receiver_report plain = Some (RTCP_SENDER_SSRC, marked report).

Definition without_losses (report : RtcpReportBlock) : RtcpReportBlock := {|
  media_ssrc := media_ssrc report; fraction_lost := 0; cumulative_lost := cumulative_lost report;
  highest_sequence := highest_sequence report; jitter := jitter report |}.

(** A second snapshot with nothing received in between. *)
Lemma snapshot_again fb fb' block :
  NvstFeedbackState.report_snapshot fb true = (fb', Some block) ->
  (NvstFeedbackState.report_snapshot fb' true).2 = Some (without_losses block).
Proof.
  unfold NvstFeedbackState.report_snapshot. destruct (_ || _) eqn:E; [done|]. cbn zeta. intros [= <- <-].
  match goal with |- context [if ?c then (?s, None) else _] => change c with ((NvstFeedbackState.video_ssrc fb =? 0) || (NvstFeedbackState.base_sequence fb =? U32_MAX)) end.
  rewrite E. cbn. unfold const. rewrite Z.sub_diag. change (as_u32 0) with 0. done.
Qed.

Lemma poll_due `{CryptoLaws} (self : t) sender now fb block :
  srtcp_keys_ok (sender_keys sender).1.1 (sender_keys sender).1.2 (sender_keys sender).2 ->
  0 <= SrtcpSender.next_index sender < 2 ^ 31 -> report_typed block ->
  state self = Running -> srtcp self = Some sender ->
  NvstFeedbackState.report_snapshot (feedback self) true = (fb, Some block) ->
  (forall last, SrtcpSender.last_sent sender = Some last -> last + SRTCP_RR_INTERVAL <= now) ->
  exists self' packet, poll_receiver_report self now = Ok (self', Some packet) /\ opens_to sender packet block.
Proof.
  intros Hk Hi Ht Hs Hsr Hsnap Hdue. unfold poll_receiver_report. rewrite bool_decide_eq_true_2 by done. cbn [negb].
  rewrite Hsr, Hsnap. unfold SrtcpSender.poll_receiver_report.
  assert (Hlate : match SrtcpSender.last_sent sender with
    | Some last => saturating_duration_since now last <? SRTCP_RR_INTERVAL | None => false end = false).
  { destruct (SrtcpSender.last_sent sender) as [last|]; [|done]. specialize (Hdue last eq_refl).
    apply Z.ltb_ge. unfold saturating_duration_since, SRTCP_RR_INTERVAL, from_secs in *. lia. }
  rewrite Hlate. destruct (protect_srtcp_opens (E:=Empty_set) block (SrtcpSender.next_index sender) _ _ _ Hk (rt_ssrc _ Ht) Hi)
    as (packet & Hp & _ & Ho). unfold sender_keys in Hp. cbn [fst snd] in Hp. rewrite Hp. obind.
  eexists _, packet. split; [reflexivity|]. eexists. split; [exact Ho|].
  apply parse_build_report; [by unfold is_u32|by apply marked_typed].
Qed.


(** ** Concrete faults *)

Lemma forged_datagrams_are_inert_witness :
  exists rx reason replays, toy_video_receiver = Ok rx
    /\ process_datagram rx toy_peer [Byte.x80; Byte.x60] 5 = Ok (rx <| replay_rejections := replays |>, [EvDropped reason]).
Proof.
  destruct (receiver_new_ok toy_config NvstFeedbackState.default 0 toy_config_ok default_feedback_ok) as (rx & Hrx & Hs & Hrel & _).
  destruct (forged_datagrams_are_inert toy_config rx ∅ toy_peer [Byte.x80; Byte.x60] 5 (so_ok _ _ _ Hs) Hrel) as (reason & replays & Hp & _).
  { intros p (Hparse & _). discriminate Hparse. }
  by exists rx, reason, replays.
Defined.


(** The state after a report at time 0 and three packets of which two are
    missing. *)
Definition lossy_feedback : NvstFeedbackState.t :=
  let fb := NvstFeedbackState.default <| NvstFeedbackState.video_ssrc := 7 |> in
  let fb := fb <| NvstFeedbackState.base_sequence := 100 |> in
  let fb := fb <| NvstFeedbackState.highest_sequence := 104 |> in
  let fb := fb <| NvstFeedbackState.received_packets := 3 |> in
  fb <| NvstFeedbackState.report_prior := (1, 1) |>.

