(* ===== verification/Queues.v ===== *)
(** * The bounded queues of the platform crates

    The four [BoundedQueue]s of [queue.rs] in the platform crate (audio), in
    its Linux, macOS and Windows backends.  Each keeps at most [capacity]
    values under a lock; when full most drop the oldest value, and the Windows
    queue has a second way in for compressed video, where dropping one frame
    would break the frames after it.  Blocking operations are split: the test
    under the lock is the operation, the waiting is not modelled. *)

From S2P Require Import Prelude.

(** ** Drop-oldest queues

    What the clients of such a queue rely on. *)
Class DropOldest (Q A : Type) := {
  items : Q -> list A;
  bound : Q -> Z;
  is_open : Q -> bool;
  (** the new queue, and whether the value went in and whether one was dropped for it *)
  offer : Q -> A -> Q * option bool;
  take_next : Q -> Q * option A;
  offer_spec q v : is_open q = true -> 0 < bound q -> zlen (items q) <= bound q ->
    is_open (offer q v).1 = true /\ bound (offer q v).1 = bound q
    /\ items (offer q v).1 = (if zlen (items q) =? bound q then drop 1 (items q) else items q) ++ [v]
    /\ (offer q v).2 = Some (zlen (items q) =? bound q);
  take_spec q : is_open q = true ->
    is_open (take_next q).1 = true /\ bound (take_next q).1 = bound q
    /\ items (take_next q).1 = drop 1 (items q) /\ (take_next q).2 = head (items q)
}.

(** ** platform/src/queue.rs *)
Module MediaQueue.
Inductive PushResult := Queued | DroppedOldest | Closed.
Record t (A : Type) := { capacity : Z; values : list A; closed : bool }.
Arguments capacity {A}. Arguments values {A}. Arguments closed {A}.
Section Queue.
Context {A : Type}.

Definition new (capacity : Z) : outcome Empty_set (t A) :=
  if negb (0 <? capacity) then Panic else mret {| capacity := capacity; values := []; closed := false |}.
Definition with_values (self : t A) (values : list A) : t A :=
  {| capacity := capacity self; values := values; closed := closed self |}.
Definition push (self : t A) (value : A) : t A * PushResult :=
  if closed self then (self, Closed) else
  let '(values, result) := if zlen (values self) =? capacity self then (drop 1 (values self), DroppedOldest)
    else (values self, Queued) in
  (with_values self (values ++ [value]), result).
(** A queue that is open and empty waits. *)
Definition pop (self : t A) : t A * option A :=
  match values self with
  | value :: rest => (with_values self rest, Some value)
  | [] => (self, None)
  end.
Definition clear (self : t A) : t A := with_values self [].
Definition close (self : t A) : t A := {| capacity := capacity self; values := []; closed := true |}.

Definition offer_value (q : t A) (v : A) : t A * option bool :=
  let '(q, result) := push q v in
    (q, match result with Queued => Some false | DroppedOldest => Some true | Closed => None end).
Definition take_value (q : t A) : t A * option A := pop q.
Lemma media_offer_spec (q : t A) (v : A) : negb (closed q) = true -> 0 < capacity q -> zlen (values q) <= capacity q ->
  negb (closed (offer_value q v).1) = true /\ capacity (offer_value q v).1 = capacity q
  /\ values (offer_value q v).1 = (if zlen (values q) =? capacity q then drop 1 (values q) else values q) ++ [v]
  /\ (offer_value q v).2 = Some (zlen (values q) =? capacity q).
Proof.
  unfold offer_value. revert q v. intros [c vs [|]] v Hopen Hb Hl; [done|]. unfold push. cbn. by destruct (_ =? _).
Qed.
Lemma media_take_spec (q : t A) : negb (closed q) = true ->
  negb (closed (take_value q).1) = true /\ capacity (take_value q).1 = capacity q
  /\ values (take_value q).1 = drop 1 (values q) /\ (take_value q).2 = head (values q).
Proof.
  intros Hopen. unfold take_value, pop. destruct q as [c [|v vs] cl]; cbn in *; by rewrite ?Hopen. Qed.
#[global] Instance media_drop_oldest : DropOldest (t A) A := {|
  items := values; bound := capacity; is_open q := negb (closed q); offer := offer_value; take_next := take_value;
  offer_spec := media_offer_spec; take_spec := media_take_spec |}.
End Queue.
End MediaQueue.

(** ** platform-linux/src/queue.rs *)
Module LinuxQueue.
Inductive QueuePush := Added | DroppedOldest | Full | Closed.
Inductive QueuePop (A : Type) := Item (item : A) | TimedOut | PopClosed.
Arguments Item {A}. Arguments TimedOut {A}. Arguments PopClosed {A}.
Record t (A : Type) := { capacity : Z; values : list A; closed : bool }.
Arguments capacity {A}. Arguments values {A}. Arguments closed {A}.
Section Queue.
Context {A : Type}.

Definition new (capacity : Z) : outcome Empty_set (t A) :=
  if negb (0 <? capacity) then Panic else mret {| capacity := capacity; values := []; closed := false |}.
Definition with_values (self : t A) (values : list A) : t A :=
  {| capacity := capacity self; values := values; closed := closed self |}.
Definition push_latest (self : t A) (item : A) : t A * QueuePush :=
  if closed self then (self, Closed) else
  let '(values, outcome) := if zlen (values self) =? capacity self then (drop 1 (values self), DroppedOldest)
    else (values self, Added) in
  (with_values self (values ++ [item]), outcome).
Definition push (self : t A) (item : A) : t A * QueuePush :=
  if closed self then (self, Closed) else
  if zlen (values self) =? capacity self then (self, Full) else
  (with_values self (values self ++ [item]), Added).
Definition replace (self : t A) (item : A) : t A * QueuePush :=
  if closed self then (self, Closed) else
  (with_values self [item], match values self with [] => Added | _ => DroppedOldest end).
(** A full queue has lost what the closure removes even when it refuses the
    item. *)
Definition replace_where (self : t A) (item : A) (should_remove : A -> bool) : t A * QueuePush :=
  if closed self then (self, Closed) else
  let kept := filter (fun queued => should_remove queued = false) (values self) in
  if zlen kept =? capacity self then (with_values self kept, Full) else
  (with_values self (kept ++ [item]), if zlen kept =? zlen (values self) then Added else DroppedOldest).
Definition try_pop (self : t A) : t A * option A :=
  match values self with
  | item :: rest => (with_values self rest, Some item)
  | [] => (self, None)
  end.
Definition try_pop_latest (self : t A) : t A * option (A * Z) :=
  match last (values self) with
  | Some latest => (with_values self [], Some (latest, zlen (values self) - 1))
  | None => (self, None)
  end.
(** One pass of the loop of [wait_pop]; [TimedOut] is also the wait. *)
Definition wait_pop (self : t A) : t A * QueuePop A :=
  match values self with
  | item :: rest => (with_values self rest, Item item)
  | [] => (self, if closed self then PopClosed else TimedOut)
  end.
Definition clear (self : t A) : t A := with_values self [].
Definition close (self : t A) : t A := {| capacity := capacity self; values := []; closed := true |}.

Definition offer_value (q : t A) (v : A) : t A * option bool :=
  let '(q, outcome) := push_latest q v in
    (q, match outcome with Added => Some false | DroppedOldest => Some true | _ => None end).
Definition take_value (q : t A) : t A * option A := try_pop q.
Lemma linux_offer_spec (q : t A) (v : A) : negb (closed q) = true -> 0 < capacity q -> zlen (values q) <= capacity q ->
  negb (closed (offer_value q v).1) = true /\ capacity (offer_value q v).1 = capacity q
  /\ values (offer_value q v).1 = (if zlen (values q) =? capacity q then drop 1 (values q) else values q) ++ [v]
  /\ (offer_value q v).2 = Some (zlen (values q) =? capacity q).
Proof.
  unfold offer_value. revert q v. intros [c vs [|]] v Hopen Hb Hl; [done|]. unfold push_latest. cbn. by destruct (_ =? _).
Qed.
Lemma linux_take_spec (q : t A) : negb (closed q) = true ->
  negb (closed (take_value q).1) = true /\ capacity (take_value q).1 = capacity q
  /\ values (take_value q).1 = drop 1 (values q) /\ (take_value q).2 = head (values q).
Proof.
  intros Hopen. unfold take_value, try_pop. destruct q as [c [|v vs] cl]; cbn in *; by rewrite ?Hopen. Qed.
#[global] Instance linux_drop_oldest : DropOldest (t A) A := {|
  items := values; bound := capacity; is_open q := negb (closed q); offer := offer_value; take_next := take_value;
  offer_spec := linux_offer_spec; take_spec := linux_take_spec |}.
End Queue.
End LinuxQueue.

(** ** platform-macos/src/queue.rs *)
Module MacQueue.
Inductive PushResult (A : Type) := Pushed | Replaced (value : A) | Closed (value : A).
Arguments Pushed {A}. Arguments Replaced {A}. Arguments Closed {A}.
Inductive TryPopResult (A : Type) := Value (value : A) | Empty | PopClosed.
Arguments Value {A}. Arguments Empty {A}. Arguments PopClosed {A}.
Record t (A : Type) := { capacity : Z; values : list A; closed : bool }.
Arguments capacity {A}. Arguments values {A}. Arguments closed {A}.
Section Queue.
Context {A : Type}.

Definition new (capacity : Z) : outcome Empty_set (t A) :=
  if negb (0 <? capacity) then Panic else mret {| capacity := capacity; values := []; closed := false |}.
Definition with_values (self : t A) (values : list A) : t A :=
  {| capacity := capacity self; values := values; closed := closed self |}.
Definition push_drop_oldest (self : t A) (value : A) : t A * PushResult A :=
  if closed self then (self, Closed value) else
  let '(values, replaced) := if zlen (values self) =? capacity self then (drop 1 (values self), head (values self))
    else (values self, None) in
  (with_values self (values ++ [value]), match replaced with Some old => Replaced old | None => Pushed end).
Definition pop_now (self : t A) : t A * TryPopResult A :=
  match values self with
  | value :: rest => (with_values self rest, Value value)
  | [] => (self, if closed self then PopClosed else Empty)
  end.
(** [close] keeps the values that are queued. *)
Definition close (self : t A) : t A := {| capacity := capacity self; values := values self; closed := true |}.
Definition close_and_discard (self : t A) : t A := {| capacity := capacity self; values := []; closed := true |}.
Definition clear (self : t A) : t A * Z := (with_values self [], zlen (values self)).

Definition offer_value (q : t A) (v : A) : t A * option bool :=
  let '(q, result) := push_drop_oldest q v in
    (q, match result with Pushed => Some false | Replaced _ => Some true | Closed _ => None end).
Definition take_value (q : t A) : t A * option A := let '(q, result) := pop_now q in (q, match result with Value v => Some v | _ => None end).
Lemma mac_offer_spec (q : t A) (v : A) : negb (closed q) = true -> 0 < capacity q -> zlen (values q) <= capacity q ->
  negb (closed (offer_value q v).1) = true /\ capacity (offer_value q v).1 = capacity q
  /\ values (offer_value q v).1 = (if zlen (values q) =? capacity q then drop 1 (values q) else values q) ++ [v]
  /\ (offer_value q v).2 = Some (zlen (values q) =? capacity q).
Proof.
  unfold offer_value. revert q v. intros [c vs [|]] v Hopen Hb Hl; [done|]. unfold push_drop_oldest. cbn in *.
  destruct (Z.eqb_spec (zlen vs) c) as [E|]; [|done].
  destruct vs; [unfold zlen in *; cbn in *; lia|done].
Qed.
Lemma mac_take_spec (q : t A) : negb (closed q) = true ->
  negb (closed (take_value q).1) = true /\ capacity (take_value q).1 = capacity q
  /\ values (take_value q).1 = drop 1 (values q) /\ (take_value q).2 = head (values q).
Proof.
  intros Hopen. unfold take_value, pop_now. destruct q as [c [|v vs] cl]; cbn in *; rewrite ?Hopen; [|done].
  by destruct cl. Qed.
#[global] Instance mac_drop_oldest : DropOldest (t A) A := {|
  items := values; bound := capacity; is_open q := negb (closed q); offer := offer_value; take_next := take_value;
  offer_spec := mac_offer_spec; take_spec := mac_take_spec |}.
End Queue.
End MacQueue.

(** ** platform-windows/src/queue.rs *)
Module WindowsQueue.
Inductive PushOutcome := Queued | DroppedOldest | Backpressured | Paused.
Inductive CompressedAdmit :=
  Append | ReplaceWithKeyframe (dropped : Z) | PreserveQueuedKeyframe | DiscardChain (dropped : Z).

Definition admit_compressed_frame (len capacity : Z) (incoming_is_keyframe queue_has_keyframe : bool) : CompressedAdmit :=
  if len <? capacity then Append else
  if incoming_is_keyframe then ReplaceWithKeyframe len else
  if queue_has_keyframe then PreserveQueuedKeyframe else
  DiscardChain (Z.min U64_MAX (len + 1)).

Record t (A : Type) := { capacity : Z; values : list A; closed : bool }.
Arguments capacity {A}. Arguments values {A}. Arguments closed {A}.
Section Queue.
Context {A : Type}.

Definition new (capacity : Z) : outcome Empty_set (t A) :=
  if negb (0 <? capacity) then Panic else mret {| capacity := capacity; values := []; closed := false |}.
Definition with_values (self : t A) (values : list A) : t A :=
  {| capacity := capacity self; values := values; closed := closed self |}.
(** [Err] returns the value to the caller. *)
Definition push (self : t A) (value : A) : t A * (PushOutcome + A) :=
  if closed self then (self, inr value) else
  let '(values, outcome) := if zlen (values self) =? capacity self then (drop 1 (values self), DroppedOldest)
    else (values self, Queued) in
  (with_values self (values ++ [value]), inl outcome).
Definition push_or_clear_on_overflow (self : t A) (value : A) (incoming_is_keyframe : bool) (queued_is_keyframe : A -> bool)
    : t A * (PushOutcome + A) :=
  if closed self then (self, inr value) else
  let queue_has_keyframe := existsb queued_is_keyframe (values self) in
  match admit_compressed_frame (zlen (values self)) (capacity self) incoming_is_keyframe queue_has_keyframe with
  | Append => (with_values self (values self ++ [value]), inl Queued)
  | ReplaceWithKeyframe _ => (with_values self [value], inl DroppedOldest)
  | PreserveQueuedKeyframe => (self, inl Backpressured)
  | DiscardChain _ => (with_values self [], inl DroppedOldest)
  end.
Definition try_pop (self : t A) : t A * option A :=
  match values self with
  | value :: rest => (with_values self rest, Some value)
  | [] => (self, None)
  end.
(** The condition under which [wait_for_decoder] sleeps. *)
Definition decoder_waits (self : t A) (accepts_input : bool) : bool :=
  (negb accepts_input || bool_decide (values self = [])) && negb (closed self).
Definition clear (self : t A) : t A := with_values self [].
Definition close (self : t A) : t A := {| capacity := capacity self; values := []; closed := true |}.

Definition offer_value (q : t A) (v : A) : t A * option bool :=
  let '(q, result) := push q v in
    (q, match result with inl Queued => Some false | inl DroppedOldest => Some true | _ => None end).
Definition take_value (q : t A) : t A * option A := try_pop q.
Lemma windows_offer_spec (q : t A) (v : A) : negb (closed q) = true -> 0 < capacity q -> zlen (values q) <= capacity q ->
  negb (closed (offer_value q v).1) = true /\ capacity (offer_value q v).1 = capacity q
  /\ values (offer_value q v).1 = (if zlen (values q) =? capacity q then drop 1 (values q) else values q) ++ [v]
  /\ (offer_value q v).2 = Some (zlen (values q) =? capacity q).
Proof.
  unfold offer_value. revert q v. intros [c vs [|]] v Hopen Hb Hl; [done|]. unfold push. cbn. by destruct (_ =? _).
Qed.
Lemma windows_take_spec (q : t A) : negb (closed q) = true ->
  negb (closed (take_value q).1) = true /\ capacity (take_value q).1 = capacity q
  /\ values (take_value q).1 = drop 1 (values q) /\ (take_value q).2 = head (values q).
Proof.
  intros Hopen. unfold take_value, try_pop. destruct q as [c [|v vs] cl]; cbn in *; by rewrite ?Hopen. Qed.
#[global] Instance windows_drop_oldest : DropOldest (t A) A := {|
  items := values; bound := capacity; is_open q := negb (closed q); offer := offer_value; take_next := take_value;
  offer_spec := windows_offer_spec; take_spec := windows_take_spec |}.
End Queue.
End WindowsQueue.

(** ** What a drop-oldest queue delivers *)
Section DropOldestQueue.
Context {Q A : Type} `{DropOldest Q A}.

(** Values offered ([Some]) and taken ([None]): the values taken, and how many
    were dropped. *)
Fixpoint exchange (q : Q) (ops : list (option A)) : Q * list A * Z :=
  match ops with
  | [] => (q, [], 0)
  | Some v :: ops =>
      let '(q, answer) := offer q v in
      let '(q, taken, dropped) := exchange q ops in
      (q, taken, match answer with Some true => dropped + 1 | _ => dropped end)
  | None :: ops =>
      let '(q, value) := take_next q in
      let '(q, taken, dropped) := exchange q ops in (q, option_list value ++ taken, dropped)
  end.

(** A drop-oldest queue delivers in order and keeps the newest.  Against
    any queue that keeps the interface (the queues of all four platform crates
    do), over any sequence of pushes and pops: the values taken and then the
    values still queued are a subsequence of the values offered, in order; each
    value offered was taken, is queued or was counted as dropped; the bound
    holds; and nothing newer than a queued value was dropped: the queue's
    content is the end of what was offered. *)
Theorem drop_oldest_delivers_latest (q : Q) (ops : list (option A))
    (Hopen : is_open q = true) (Hb : 0 < bound q) (Hl : items q = []) :
  let '(q', taken, dropped) := exchange q ops in
  taken ++ items q' `sublist_of` omap id ops
  /\ zlen (omap id ops) = zlen taken + zlen (items q') + dropped
  /\ zlen (items q') <= bound q
  /\ items q' `suffix_of` omap id ops.
Proof.
  enough (Hgen : forall q, is_open q = true -> 0 < bound q -> zlen (items q) <= bound q ->
    let '(q', taken, dropped) := exchange q ops in
    (taken ++ items q' `sublist_of` items q ++ omap id ops)
    /\ zlen (items q) + zlen (omap id ops) = zlen taken + zlen (items q') + dropped
    /\ zlen (items q') <= bound q /\ items q' `suffix_of` items q ++ omap id ops).
  { pose proof (Hgen q Hopen Hb) as Hq. rewrite Hl in Hq. apply Hq. unfold zlen. cbn. lia. }
  clear q Hopen Hb Hl. induction ops as [|[v|] ops' IH]; intros q Hopen Hb Hl; cbn [exchange];
    [|change (omap id (Some v :: ops')) with (v :: omap id ops')|change (omap id (None :: ops')) with (omap id ops')].
  - cbn. rewrite app_nil_r. unfold zlen in *. cbn. split; [done|]. split; [lia|done].
  - destruct (offer_spec q v Hopen Hb Hl) as (Hopen' & Hb' & Hi & Ha).
    destruct (offer q v) as [q1 answer]. cbn [fst snd] in *. subst answer.
    assert (Hsuf : exists old, items q ++ [v] = old ++ items q1 /\ zlen old = if zlen (items q) =? bound q then 1 else 0).
    { rewrite Hi. destruct (Z.eqb_spec (zlen (items q)) (bound q)) as [E|]; [|by exists []].
      destruct (items q) as [|x l]; [unfold zlen in E; cbn in E; lia|]. by exists [x]. }
    destruct Hsuf as (old & Hold & Hn).
    assert (Hlen : zlen (items q) + 1 = zlen old + zlen (items q1)).
    { apply (f_equal zlen) in Hold. rewrite !zlen_app in Hold. unfold zlen in *. cbn in *. lia. }
    assert (Hl1 : zlen (items q1) <= bound q1).
    { rewrite Hn in Hlen. destruct (Z.eqb_spec (zlen (items q)) (bound q)); lia. }
    specialize (IH q1 Hopen' ltac:(lia) Hl1). destruct (exchange q1 ops') as [[q2 taken] dropped].
    destruct IH as (Hsub & Hcount & Hbound & Hsuffix).
    assert (Hall : items q ++ v :: omap id ops' = old ++ items q1 ++ omap id ops').
    { change (v :: omap id ops') with ([v] ++ omap id ops'). by rewrite app_assoc, Hold, <- app_assoc. }
    rewrite Hall. split; [by apply sublist_inserts_l|]. split; [|split; [lia|by apply suffix_app_r]].
    rewrite zlen_cons. destruct (zlen (items q) =? bound q); lia.
  - destruct (take_spec q Hopen) as (Hopen' & Hb' & Hi & Ha). destruct (take_next q) as [q1 value]. cbn [fst snd] in *. subst value.
    assert (Hl1 : zlen (items q1) <= bound q1).
    { rewrite Hi, Hb'. unfold zlen in *. rewrite length_drop. lia. }
    specialize (IH q1 Hopen' ltac:(lia) Hl1). destruct (exchange q1 ops') as [[q2 taken] dropped].
    destruct IH as (Hsub & Hcount & Hbound & Hsuffix). rewrite Hi, Hb' in *.
    destruct (items q) as [|x l]; unfold option_list, option_rect in *; cbn [head drop app] in *; [done|].
    rewrite drop_0 in *. split; [by apply sublist_skip|]. unfold zlen in *. cbn [length] in *.
    split; [lia|]. split; [lia|by apply suffix_cons_r].
Qed.
End DropOldestQueue.

Lemma drop_oldest_delivers_latest_witness :
  (exchange (LinuxQueue.Build_t Z 2 [] false) [Some 1; Some 2; Some 3; None; Some 4]).1.2 = [2]
  /\ zlen (omap id [Some 1; Some 2; Some 3; None; Some 4]) = 1 + 2 + 1.
Proof.
  split; [reflexivity|].
  exact (proj1 (proj2 (drop_oldest_delivers_latest (LinuxQueue.Build_t Z 2 [] false)
    [Some 1; Some 2; Some 3; None; Some 4] eq_refl eq_refl eq_refl))).
Defined.
