(* ===== verification/VideoQueue.v ===== *)
(** * The compressed video queue

    [video_queue.rs] of the platform crate: the bounded queue between the
    transport's frames and the decoder.  A delta frame can only be decoded
    after the frame before it, so the queue never drops a frame from the
    middle: it drops the whole chain and waits for a keyframe.  Each method
    runs under the queue's lock and is one step here; [pop_packet] blocks on
    the condition variable, which is the result [Blocked].  The packet's
    generation is the one of the Windows build. *)

From stdpp Require Import strings.
From S2P Require Import Prelude.

Inductive MediaCodec := CodecH264 | CodecH265 | CodecAv1 | CodecOpus (channels : Z) | CodecUnsupported (name : string).
#[export] Instance MediaCodec_eq_dec : EqDecision MediaCodec.
Proof. solve_decision. Defined.

Record EncodedFrame := {
  ef_mid : string;
  ef_codec : MediaCodec;
  ef_data : list u8;
  ef_frame_index : option Z;
  ef_timestamp : Z;
  ef_clock_rate_hz : Z;
  ef_keyframe : bool;
  ef_contiguous : bool;
  ef_ssrc : option Z
}.

Record VideoPacket := { vp_frame : EncodedFrame; vp_generation : Z; reset_decoder : bool }.
Record VideoPush := { vp_dropped : Z; request_keyframe : bool }.
Inductive PopResult := Popped (packet : VideoPacket) | Ended | Blocked.

Module VideoQueue.
Record t := {
  capacity : Z;
  frames : list VideoPacket;
  generation : Z;
  waiting_for_keyframe : bool;
  request_pending : bool;
  closed : bool
}.

Definition new (capacity : Z) : outcome Empty_set t :=
  if negb (0 <? capacity) then Panic else
  mret {| capacity := capacity; frames := []; generation := 1; waiting_for_keyframe := true;
          request_pending := false; closed := false |}.

Definition invalidate_locked (self : t) : t * Z :=
  ({| capacity := capacity self; frames := []; generation := as_u64 (generation self + 1);
      waiting_for_keyframe := true; request_pending := false; closed := closed self |}, zlen (frames self)).

(** The first half of [push]: a full queue or a gap gives up the chain, unless
    a queued keyframe is worth more than the frame; [inl] is that early
    return. *)
Definition make_room (self : t) (frame : EncodedFrame) : (t * VideoPush) + (t * Z) :=
  if negb (waiting_for_keyframe self) && (negb (ef_contiguous frame) || (zlen (frames self) =? capacity self)) then
    if ef_contiguous frame && negb (ef_keyframe frame)
       && existsb (fun queued => ef_keyframe (vp_frame queued)) (frames self)
    then inl ({| capacity := capacity self; frames := frames self; generation := generation self;
                 waiting_for_keyframe := true; request_pending := true; closed := closed self |},
              {| vp_dropped := 1; request_keyframe := true |})
    else inr (invalidate_locked self)
  else inr (self, 0).

(** The second half: deltas are refused while a keyframe is awaited, a
    keyframe starts over. *)
Definition enqueue (self : t) (frame : EncodedFrame) (dropped : Z) : t * VideoPush :=
  if waiting_for_keyframe self && negb (ef_keyframe frame) then
    ({| capacity := capacity self; frames := frames self; generation := generation self;
        waiting_for_keyframe := waiting_for_keyframe self; request_pending := true; closed := closed self |},
     {| vp_dropped := dropped + 1; request_keyframe := negb (request_pending self) |})
  else
    let '(self, dropped) := if waiting_for_keyframe self && negb (bool_decide (frames self = []))
      then let '(self, more) := invalidate_locked self in (self, dropped + more) else (self, dropped) in
    let packet := {| vp_frame := frame; vp_generation := generation self; reset_decoder := waiting_for_keyframe self |} in
    ({| capacity := capacity self; frames := frames self ++ [packet]; generation := generation self;
        waiting_for_keyframe := false; request_pending := false; closed := closed self |},
     {| vp_dropped := dropped; request_keyframe := false |}).

Definition push (self : t) (frame : EncodedFrame) : t * option VideoPush :=
  if closed self then (self, None) else
  match make_room self frame with
  | inl (self, result) => (self, Some result)
  | inr (self, dropped) => let '(self, result) := enqueue self frame dropped in (self, Some result)
  end.

Definition with_frames (self : t) (queued : list VideoPacket) : t :=
  {| capacity := capacity self; frames := queued; generation := generation self;
     waiting_for_keyframe := waiting_for_keyframe self; request_pending := request_pending self; closed := closed self |}.

Definition pop_packet (self : t) : t * PopResult :=
  match frames self with
  | packet :: rest => (with_frames self rest, Popped packet)
  | [] => (self, if closed self then Ended else Blocked)
  end.

(** [pop]: for consumers that only look at the frame. *)
Definition popped_frame (packet : VideoPacket) : EncodedFrame :=
  let frame := vp_frame packet in
  {| ef_mid := ef_mid frame; ef_codec := ef_codec frame; ef_data := ef_data frame; ef_frame_index := ef_frame_index frame;
     ef_timestamp := ef_timestamp frame; ef_clock_rate_hz := ef_clock_rate_hz frame; ef_keyframe := ef_keyframe frame;
     ef_contiguous := ef_contiguous frame && negb (reset_decoder packet); ef_ssrc := ef_ssrc frame |}.

(** Whether the closure of the caller runs. *)
Definition submit_if_current (self : t) (generation : Z) : bool :=
  negb (closed self || negb (VideoQueue.generation self =? generation)).

Definition clear (self : t) : t := (invalidate_locked self).1.

Definition hold_keyframe_request (self : t) : t :=
  {| capacity := capacity self; frames := frames self; generation := generation self;
     waiting_for_keyframe := true; request_pending := true; closed := closed self |}.

Definition close (self : t) : t :=
  let self := (invalidate_locked self).1 in
  {| capacity := capacity self; frames := frames self; generation := generation self;
     waiting_for_keyframe := waiting_for_keyframe self; request_pending := request_pending self; closed := true |}.
End VideoQueue.

(** ** The consumer

    The submission worker takes a packet, prepares it without the lock, and
    submits it; a worker that checks the generation submits only while no loss
    has been published since ([submit_if_current]), the others submit
    always. *)
Inductive queue_op := OpPush (frame : EncodedFrame) | OpPop | OpSubmit | OpClear | OpHold | OpClose.

Record pipeline := {
  queue : VideoQueue.t;
  held : option VideoPacket;
  pushed : list EncodedFrame;
  submitted : list VideoPacket
}.

Section Consumer.
Variable checked : bool.

Definition current (q : VideoQueue.t) (p : VideoPacket) : bool :=
  negb checked || VideoQueue.submit_if_current q (vp_generation p).

Definition pipeline_step (s : pipeline) (op : queue_op) : pipeline :=
  let at_queue q := {| queue := q; held := held s; pushed := pushed s; submitted := submitted s |} in
  match op with
  | OpPush frame => {| queue := (VideoQueue.push (queue s) frame).1; held := held s;
                       pushed := pushed s ++ [frame]; submitted := submitted s |}
  | OpPop =>
      match held s, VideoQueue.pop_packet (queue s) with
      | None, (q, Popped p) => {| queue := q; held := Some p; pushed := pushed s; submitted := submitted s |}
      | _, _ => s
      end
  | OpSubmit =>
      match held s with
      | Some p => {| queue := queue s; held := None; pushed := pushed s;
                     submitted := if current (queue s) p then submitted s ++ [p] else submitted s |}
      | None => s
      end
  | OpClear => at_queue (VideoQueue.clear (queue s))
  | OpHold => at_queue (VideoQueue.hold_keyframe_request (queue s))
  | OpClose => at_queue (VideoQueue.close (queue s))
  end.

Definition pipeline_run (q : VideoQueue.t) (ops : list queue_op) : pipeline :=
  foldl pipeline_step {| queue := q; held := None; pushed := []; submitted := [] |} ops.
End Consumer.

(** ** Reference chains

    [n] is the position of a packet's frame among the frames offered.  A packet
    can be decoded after the packet [prev] when it resets the decoder with a
    keyframe, or when its frame was offered right after that one with nothing
    lost in between. *)
Definition decodable (frames : list EncodedFrame) (prev : option nat) (n : nat) (p : VideoPacket) : Prop :=
  frames !! n = Some (vp_frame p)
  /\ (forall m, prev = Some m -> (m < n)%nat)
  /\ (if reset_decoder p then ef_keyframe (vp_frame p) = true
      else ef_contiguous (vp_frame p) = true /\ exists m, prev = Some m /\ n = S m).

Fixpoint chain (frames : list EncodedFrame) (prev : option nat) (l : list (nat * VideoPacket)) : Prop :=
  match l with
  | [] => True
  | (n, p) :: l => decodable frames prev n p /\ chain frames (Some n) l
  end.

Definition latest (prev : option nat) (l : list (nat * VideoPacket)) : option nat :=
  match last l with Some (n, _) => Some n | None => prev end.

Lemma latest_app prev l n p : latest prev (l ++ [(n, p)]) = Some n.
Proof. unfold latest. by rewrite last_snoc. Qed.
Lemma latest_cons prev n p l : latest prev ((n, p) :: l) = latest (Some n) l.
Proof. unfold latest. destruct l as [|x l]; [done|]. rewrite last_cons_cons.
  destruct (last (x :: l)) as [[]|] eqn:E; [done|]. by apply last_None in E.
Qed.

Lemma chain_app frames prev l n p :
  chain frames prev l -> decodable frames (latest prev l) n p -> chain frames prev (l ++ [(n, p)]).
Proof.
  revert prev. induction l as [|[m q] l IH]; intros prev Hl Hp; cbn; [done|].
  destruct Hl as [Hq Hl]. split; [done|]. apply IH; [done|]. by rewrite latest_cons in Hp.
Qed.

Lemma decodable_offer frames f prev n p : decodable frames prev n p -> decodable (frames ++ [f]) prev n p.
Proof. intros (Hn & H). split; [by apply lookup_app_l_Some|done]. Qed.
Lemma chain_offer frames f prev l : chain frames prev l -> chain (frames ++ [f]) prev l.
Proof.
  revert prev. induction l as [|[n p] l IH]; intros prev Hl; [done|].
  destruct Hl. split; [by apply decodable_offer|]. by apply IH.
Qed.

(** Nothing is known of what a decoder that skips the packet [h] has seen
    since; a chain that starts over is decodable all the same. *)
Lemma decodable_bound frames prev n p : decodable frames prev n p -> (n < length frames)%nat.
Proof. intros (Hn & _). by eapply lookup_lt_Some. Qed.
Lemma latest_bound frames prev l :
  chain frames prev l -> (forall m, prev = Some m -> (m < length frames)%nat) ->
  forall m, latest prev l = Some m -> (m < length frames)%nat.
Proof.
  revert prev. induction l as [|[n p] l IH]; intros prev Hl Hprev m; [apply Hprev|].
  rewrite latest_cons. destruct Hl as [Hp Hl]. apply IH; [done|]. intros ? [= <-].
  by eapply decodable_bound.
Qed.

(** ** What [push] does to the queue *)
Import VideoQueue.

Definition packet_of (frame : EncodedFrame) (g : Z) (reset : bool) : VideoPacket :=
  {| vp_frame := frame; vp_generation := g; reset_decoder := reset |}.

(** The queue is as it was, or it has been given up. *)
Definition refused (q q' : VideoQueue.t) : Prop :=
  waiting_for_keyframe q' = true
  /\ (frames q' = frames q /\ generation q' = generation q
      \/ frames q' = [] /\ generation q' = as_u64 (generation q + 1)).
Definition accepted (q q' : VideoQueue.t) (f : EncodedFrame) : Prop :=
  waiting_for_keyframe q' = false
  /\ (frames q' = frames q ++ [packet_of f (generation q) false] /\ generation q' = generation q
      /\ waiting_for_keyframe q = false /\ ef_contiguous f = true
      \/ frames q' = [packet_of f (generation q') true] /\ ef_keyframe f = true
         /\ (generation q' = generation q /\ frames q = [] \/ generation q' = as_u64 (generation q + 1))).

Lemma video_push_cases q f :
  closed q = false ->
  let q' := (push q f).1 in
  capacity q' = capacity q /\ closed q' = false /\ (refused q q' \/ accepted q q' f).
Proof.
  destruct q as [c fs g w r cl]. unfold push. cbn [closed]. intros ->. cbn [closed].
  unfold make_room, enqueue, refused, accepted, packet_of, invalidate_locked.
  cbn [waiting_for_keyframe frames capacity generation request_pending closed].
  destruct w; cbn [negb andb].
  - destruct (ef_keyframe f) eqn:Hk; cbn [negb]; [|cbn; naive_solver].
    case_bool_decide as Hf; cbn [negb]; cbn; [subst; naive_solver|naive_solver].
  - destruct (ef_contiguous f) eqn:Hc; cbn [negb orb andb];
      [|cbn; destruct (ef_keyframe f) eqn:Hk; cbn; naive_solver].
    destruct (zlen fs =? c); [|cbn; naive_solver].
    destruct (ef_keyframe f) eqn:Hk; cbn [negb andb]; [cbn; naive_solver|].
    destruct (existsb _ fs); cbn; naive_solver.
Qed.

(** ** The invariant of the pipeline *)
Section Pipeline.
Variable checked : bool.

(** [prev] is the last packet a decoder has been or will be given before the
    queue's first one; [ls] is the last one it has been given. *)
Record pipeline_ok (s : pipeline) (ls prev : option nat) (tags stags : list nat) : Prop := {
  po_tags : length tags = length (frames (queue s));
  po_stags : length stags = length (submitted s);
  po_gens : Forall (fun p => vp_generation p = generation (queue s)) (frames (queue s));
  po_given : chain (pushed s) None (zip stags (submitted s));
  po_ls : ls = latest None (zip stags (submitted s));
  po_queue : chain (pushed s) prev (zip tags (frames (queue s)));
  po_newest : waiting_for_keyframe (queue s) = false ->
    exists n, latest prev (zip tags (frames (queue s))) = Some n /\ length (pushed s) = S n;
  po_closed : closed (queue s) = true -> waiting_for_keyframe (queue s) = true /\ frames (queue s) = [];
  po_held : match held s with
            | None => prev = ls
            | Some p => vp_generation p <= generation (queue s)
                        /\ (if current checked (queue s) p then exists h, prev = Some h /\ decodable (pushed s) ls h p
                            else prev = ls)
            end
}.

Lemma given_bound s ls prev tags stags :
  pipeline_ok s ls prev tags stags -> forall m, ls = Some m -> (m < length (pushed s))%nat.
Proof.
  intros Hok m Hm. rewrite (po_ls _ _ _ _ _ Hok) in Hm.
  by refine (latest_bound _ _ _ (po_given _ _ _ _ _ Hok) _ _ Hm).
Qed.
Lemma prev_bound s ls prev tags stags :
  pipeline_ok s ls prev tags stags -> forall m, prev = Some m -> (m < length (pushed s))%nat.
Proof.
  intros Hok m Hm. pose proof (given_bound _ _ _ _ _ Hok) as Hls. destruct Hok.
  destruct (held s) as [p|]; [|by apply Hls; congruence].
  destruct po_held0 as (_ & Hp). destruct (current checked (queue s) p); [|apply Hls; congruence].
  destruct Hp as (h & Hh & Hd). assert (h = m) as -> by congruence. by eapply decodable_bound.
Qed.

(** Giving up the chain leaves a queue that is empty or starts over; the held
    packet is stale for a worker that checks. *)
Definition gave_up (q q' : VideoQueue.t) (f : option EncodedFrame) : Prop :=
  generation q' = generation q + 1
  /\ (closed q = true -> closed q' = true)
  /\ (closed q' = true -> waiting_for_keyframe q' = true /\ frames q' = [])
  /\ (frames q' = [] /\ waiting_for_keyframe q' = true
      \/ exists frame, f = Some frame /\ frames q' = [packet_of frame (generation q') true] /\ ef_keyframe frame = true).

Lemma give_up_ok s q' (f : option EncodedFrame) ls prev tags stags :
  pipeline_ok s ls prev tags stags -> gave_up (queue s) q' f ->
  exists prev' tags', pipeline_ok {| queue := q'; held := held s;
    pushed := pushed s ++ option_list f; submitted := submitted s |} ls prev' tags' stags.
Proof.
  intros Hok (Hg & Hcl & Hcw & Hfs). pose proof (prev_bound _ _ _ _ _ Hok) as Hprev.
  pose proof (given_bound _ _ _ _ _ Hok) as Hls. destruct Hok.
  assert (Hgrow : forall pr l, chain (pushed s) pr l -> chain (pushed s ++ option_list f) pr l).
  { intros pr l. destruct f; cbn; [apply chain_offer|by rewrite app_nil_r]. }
  set (prev' := match held s with
                | Some p => if current checked q' p then prev else ls | None => ls end).
  assert (Hprev' : forall m, prev' = Some m -> (m < length (pushed s))%nat).
  { intros m. unfold prev'. destruct (held s) as [p|]; [destruct (current checked q' p)|]; auto. }
  exists prev', (match frames q' with [] => [] | _ => [length (pushed s)] end).
  constructor; cbn [queue held pushed submitted]; try done; auto.
  - destruct Hfs as [(-> & _)|(frame & _ & -> & _)]; done.
  - destruct Hfs as [(-> & _)|(frame & _ & -> & _)]; by repeat constructor.
  - destruct Hfs as [(-> & _)|(frame & -> & -> & Hk)]; [done|]. cbn. split; [|done].
    split; [by rewrite lookup_app_r, Nat.sub_diag by lia|]. split; [exact Hprev'|exact Hk].
  - destruct Hfs as [(-> & Hw)|(frame & -> & -> & _)]; [congruence|]. intros _. cbn.
    exists (length (pushed s)). rewrite length_app. cbn. split; [done|lia].
  - destruct (held s) as [p|]; [|done]. destruct po_held0 as (Hle & Hp). split; [lia|].
    unfold prev'. destruct (current checked q' p) eqn:Hcur; [|done].
    assert (Hq : current checked (queue s) p = true).
    { unfold current, submit_if_current in *. destruct checked; [|done]. cbn in *.
      destruct (Z.eqb_spec (generation q') (vp_generation p)); [lia|]. destruct (closed q'); done. }
    rewrite Hq in Hp. destruct Hp as (h & Hh & Hd). exists h. split; [done|].
    destruct f; cbn; [by apply decodable_offer|by rewrite app_nil_r].
Qed.

(** The queue keeps its frames and waits. *)
Lemma keep_ok s q' f ls prev tags stags :
  pipeline_ok s ls prev tags stags ->
  frames q' = frames (queue s) -> generation q' = generation (queue s) -> closed q' = closed (queue s) ->
  waiting_for_keyframe q' = true ->
  pipeline_ok {| queue := q'; held := held s; pushed := pushed s ++ option_list f; submitted := submitted s |}
    ls prev tags stags.
Proof.
  intros Hok Hf Hg Hc Hw. destruct Hok.
  assert (Hgrow : forall pr l, chain (pushed s) pr l -> chain (pushed s ++ option_list f) pr l).
  { intros pr l. destruct f; cbn; [apply chain_offer|by rewrite app_nil_r]. }
  constructor; cbn [queue held pushed submitted]; rewrite ?Hf, ?Hg, ?Hc; try done; auto.
  - by rewrite Hw.
  - intros Hcl. split; [done|]. by apply po_closed0.
  - destruct (held s) as [p|]; [|done]. destruct po_held0 as (Hle & Hp). split; [done|].
    unfold current, submit_if_current in *. rewrite Hg, Hc.
    destruct (negb checked || _); [|done]. destruct Hp as (h & Hh & Hd). exists h. split; [done|].
    destruct f; cbn; [by apply decodable_offer|by rewrite app_nil_r].
Qed.

(** The queue appends the frame. *)
Lemma append_ok s q' f reset ls prev tags stags :
  pipeline_ok s ls prev tags stags ->
  frames q' = frames (queue s) ++ [packet_of f (generation (queue s)) reset] ->
  generation q' = generation (queue s) -> closed q' = closed (queue s) -> closed q' = false ->
  decodable (pushed s ++ [f]) (latest prev (zip tags (frames (queue s)))) (length (pushed s))
    (packet_of f (generation (queue s)) reset) ->
  pipeline_ok {| queue := q'; held := held s; pushed := pushed s ++ [f]; submitted := submitted s |}
    ls prev (tags ++ [length (pushed s)]) stags.
Proof.
  intros Hok Hf Hg Hc Hopen Hd. destruct Hok.
  assert (Hzip : zip (tags ++ [length (pushed s)]) (frames q')
    = zip tags (frames (queue s)) ++ [(length (pushed s), packet_of f (generation (queue s)) reset)]).
  { rewrite Hf. rewrite zip_with_app by done. done. }
  constructor; cbn [queue held pushed submitted]; rewrite ?Hzip, ?Hg; try done.
  - rewrite Hf, !length_app. cbn. lia.
  - rewrite Hf. apply Forall_app. split; [done|]. by repeat constructor.
  - by apply chain_offer.
  - apply chain_app; [by apply chain_offer|done].
  - intros _. exists (length (pushed s)). rewrite latest_app, length_app. cbn. split; [done|lia].
  - by rewrite Hopen.
  - destruct (held s) as [p|]; [|done]. destruct po_held0 as (Hle & Hp). split; [done|].
    unfold current, submit_if_current in *. rewrite Hg, Hc.
    destruct (negb checked || _); [|done]. destruct Hp as (h & Hh & Hd'). exists h. split; [done|].
    by apply decodable_offer.
Qed.

Lemma push_ok s f ls prev tags stags :
  pipeline_ok s ls prev tags stags -> 0 <= generation (queue s) -> generation (queue s) + 1 < 2 ^ 64 ->
  exists prev' tags', pipeline_ok (pipeline_step checked s (OpPush f)) ls prev' tags' stags.
Proof.
  intros Hok H0 Hg. cbn [pipeline_step]. destruct (closed (queue s)) eqn:Hc.
  - exists prev, tags. unfold push. rewrite Hc. cbn [fst].
    apply (keep_ok s (queue s) (Some f)); try done. by apply Hok.
  - destruct (video_push_cases (queue s) f Hc) as (_ & Hc' & H).
    set (q' := (push (queue s) f).1) in *. clearbody q'.
    unfold refused, accepted in H.
    assert (Hu : as_u64 (generation (queue s) + 1) = generation (queue s) + 1) by (apply Z.mod_small; lia).
    rewrite Hu in H. change (pushed s ++ [f]) with (pushed s ++ option_list (Some f)).
    destruct H as [(Hw & [(Hf & Hg')|(Hf & Hg')])|(Hw & [(Hf & Hg' & Hw' & Hk)|(Hf & Hk & [(Hg' & He)|Hg'])])].
    + exists prev, tags. apply keep_ok; by rewrite ?Hc.
    + eapply give_up_ok; [done|]. unfold gave_up. rewrite Hc, Hc'. naive_solver.
    + exists prev, (tags ++ [length (pushed s)]). eapply append_ok; [done..|by rewrite Hc|done|].
      destruct (po_newest _ _ _ _ _ Hok Hw') as (n & Hn & Hlen). rewrite Hn.
      split; [by rewrite lookup_app_r, Nat.sub_diag by lia|]. cbn. split; [intros m [= <-]; lia|].
      split; [done|]. exists n. split; [done|lia].
    + exists prev, (tags ++ [length (pushed s)]). eapply append_ok; [done| |done|by rewrite Hc|done|].
      { by rewrite He, Hf, Hg'. }
      split; [by rewrite lookup_app_r, Nat.sub_diag by lia|]. split; [|exact Hk].
      rewrite He. destruct tags; exact (prev_bound _ _ _ _ _ Hok).
    + eapply give_up_ok; [done|]. unfold gave_up. rewrite Hc, Hc'. naive_solver.
Qed.

Lemma invalidated_gen q : 0 <= generation q -> generation q + 1 < 2 ^ 64 ->
  generation (invalidate_locked q).1 = generation q + 1.
Proof. intros. cbn. apply Z.mod_small. lia. Qed.

Lemma submit_ok s p ls prev tags stags :
  pipeline_ok s ls prev tags stags -> held s = Some p ->
  if current checked (queue s) p
  then exists h, decodable (pushed s) ls h p
    /\ pipeline_ok (pipeline_step checked s OpSubmit) (Some h) (Some h) tags (stags ++ [h])
  else pipeline_ok (pipeline_step checked s OpSubmit) ls ls tags stags.
Proof.
  intros Hok Hh. cbn [pipeline_step]. destruct Hok. rewrite Hh in *. destruct po_held0 as (_ & Hp).
  destruct (current checked (queue s) p) eqn:Hcur; [|subst prev; by constructor].
  destruct Hp as (h & -> & Hd). exists h. split; [done|].
  assert (Hzip : zip (stags ++ [h]) (submitted s ++ [p]) = zip stags (submitted s) ++ [(h, p)]).
  { by rewrite zip_with_app by done. }
  constructor; cbn; rewrite ?Hzip; try done.
  - rewrite !length_app. cbn. lia.
  - apply chain_app; [done|]. by rewrite <- po_ls0.
  - by rewrite latest_app.
Qed.

Lemma step_ok s op ls prev tags stags :
  pipeline_ok s ls prev tags stags -> 0 <= generation (queue s) -> generation (queue s) + 1 < 2 ^ 64 ->
  (exists ls' prev' tags' stags', pipeline_ok (pipeline_step checked s op) ls' prev' tags' stags'
    /\ (op <> OpSubmit -> ls' = ls))
  /\ 0 <= generation (queue (pipeline_step checked s op)) <= generation (queue s) + 1.
Proof.
  intros Hok H0 Hg. destruct op as [f| | | | |].
  - split; [destruct (push_ok _ f _ _ _ _ Hok H0 Hg) as (prev' & tags' & H); by eauto 10|].
    cbn. destruct (closed (queue s)) eqn:Hc; [unfold push; rewrite Hc; cbn; lia|].
    destruct (video_push_cases (queue s) f Hc) as (_ & _ & H). unfold refused, accepted in H.
    assert (Hu : as_u64 (generation (queue s) + 1) = generation (queue s) + 1) by (apply Z.mod_small; lia).
    rewrite Hu in H. naive_solver lia.
  - cbn. destruct (held s) as [p|] eqn:Hh; [split; [by eauto 10|lia]|].
    unfold pop_packet. destruct (frames (queue s)) as [|p rest] eqn:Hf; [by destruct (closed (queue s)); split; [eauto 10|lia|eauto 10|lia]|].
    split; [|cbn; lia]. destruct Hok. rewrite Hf in *. rewrite Hh in *.
    destruct tags as [|n tags]; [done|]. exists ls, (Some n), tags, stags. split; [|done]. cbn in po_queue0. destruct po_queue0 as [Hd Hrest].
    apply Forall_cons in po_gens0 as (Hgp & Hgr). subst prev.
    constructor; cbn; try done.
    + by injection po_tags0.
    + intros Hw. destruct (po_newest0 Hw) as (m & Hm & Hlen). exists m. split; [|done].
      exact (eq_trans (eq_sym (latest_cons _ n p _)) Hm).
    + intros Hcl. by destruct (po_closed0 Hcl).
    + split; [lia|]. unfold current, submit_if_current. cbn.
      assert (Hcl : closed (queue s) = false).
      { destruct (closed (queue s)) eqn:Hcl; [|done]. by destruct (po_closed0 eq_refl). }
      rewrite Hcl, Hgp, Z.eqb_refl. cbn. rewrite orb_true_r. by exists n.
  - destruct (held s) as [p|] eqn:Hh; [|cbn; rewrite Hh; split; [by eauto 10|lia]].
    pose proof (submit_ok _ _ _ _ _ _ Hok Hh) as Hs. split; [|cbn; rewrite Hh; cbn; lia].
    destruct (current checked (queue s) p); [destruct Hs as (h & _ & Hs)|]; (do 4 eexists; split; [exact Hs|done]).
  - assert (H : gave_up (queue s) (clear (queue s)) None).
    { split; [by apply invalidated_gen|]. split; [done|]. split; [done|]. by left. }
    destruct (give_up_ok _ _ _ _ _ _ _ Hok H) as (prev' & tags' & Hok'). rewrite app_nil_r in Hok'.
    split; [by eauto 10|]. destruct H as (H & _). cbn. cbn in H. lia.
  - split; [|cbn; lia]. exists ls, prev, tags, stags. split; [|done].
    pose proof (keep_ok s (hold_keyframe_request (queue s)) None _ _ _ _ Hok) as H. rewrite app_nil_r in H. by apply H.
  - assert (H : gave_up (queue s) (close (queue s)) None).
    { split; [by apply invalidated_gen|]. split; [done|]. split; [done|]. by left. }
    destruct (give_up_ok _ _ _ _ _ _ _ Hok H) as (prev' & tags' & Hok'). rewrite app_nil_r in Hok'.
    split; [by eauto 10|]. destruct H as (H & _). cbn. cbn in H. lia.
Qed.
End Pipeline.

Lemma run_ok checked s ops ls prev tags stags :
  pipeline_ok checked s ls prev tags stags -> 0 <= generation (queue s) -> generation (queue s) + zlen ops < 2 ^ 64 ->
  exists ls' prev' tags' stags', pipeline_ok checked (foldl (pipeline_step checked) s ops) ls' prev' tags' stags'.
Proof.
  revert s ls prev tags stags. induction ops as [|op ops IH]; intros s ls prev tags stags Hok H0 Hg; cbn [foldl]; [by eauto 10|].
  rewrite zlen_cons in Hg. pose proof (zlen_nonneg ops).
  destruct (step_ok checked s op _ _ _ _ Hok H0 ltac:(lia)) as ((ls' & prev' & tags' & stags' & Hok' & _) & Hg').
  eapply IH; [exact Hok'|lia|lia].
Qed.

Lemma pushed_frames checked s ops :
  pushed (foldl (pipeline_step checked) s ops)
  = pushed s ++ omap (fun op => match op with OpPush f => Some f | _ => None end) ops.
Proof.
  revert s. induction ops as [|op ops IH]; intros s; cbn [foldl]; [by rewrite app_nil_r|].
  rewrite IH. destruct op; cbn; rewrite <- ?app_assoc; try done.
  - destruct (held s); [done|]. unfold pop_packet. by destruct (frames (queue s)), (closed (queue s)).
  - by destruct (held s).
Qed.

(** The decoder sees unbroken chains.  However the producer's pushes and the
    losses published by other threads ([clear], [hold_keyframe_request],
    [close]) interleave with the worker that takes packets and submits them,
    whether it checks the generation or not: of the packets submitted, each one
    is a keyframe that resets the decoder, or a frame with nothing lost before
    it that was offered to the queue directly after the packet submitted before
    it. *)
Theorem decoder_sees_unbroken_chains (checked : bool) (size : Z) (q : VideoQueue.t) (ops : list queue_op)
    (Hnew : VideoQueue.new size = Ok q) (Hops : zlen ops < 2 ^ 64 - 1) :
  exists positions, length positions = length (submitted (pipeline_run checked q ops))
    /\ chain (omap (fun op => match op with OpPush f => Some f | _ => None end) ops) None
         (zip positions (submitted (pipeline_run checked q ops))).
Proof.
  assert (Hq : generation q = 1 /\ frames q = [] /\ waiting_for_keyframe q = true /\ closed q = false).
  { unfold new in Hnew. destruct (negb _); [done|]. by injection Hnew as <-. }
  destruct Hq as (Hg & Hf & Hw & Hc).
  destruct (run_ok checked {| queue := q; held := None; pushed := []; submitted := [] |} ops None None [] [])
    as (ls & prev & tags & stags & Hok); cbn.
  - constructor; cbn; rewrite ?Hf, ?Hw, ?Hc; try done. 
  - lia.
  - lia.
  - exists stags. split; [by apply Hok|]. pose proof (po_given _ _ _ _ _ _ Hok) as H. by rewrite pushed_frames in H.
Qed.

(** ** Accounting *)

(** Pushes ([Some]) and pops ([None]) of an open queue: the results of the
    pushes and the packets popped. *)
Fixpoint traffic (q : VideoQueue.t) (ops : list (option EncodedFrame)) : VideoQueue.t * list VideoPush * list VideoPacket :=
  match ops with
  | [] => (q, [], [])
  | Some f :: ops =>
      let '(q, result) := push q f in
      let '(q, results, popped) := traffic q ops in (q, option_list result ++ results, popped)
  | None :: ops =>
      let '(q, result) := pop_packet q in
      let '(q, results, popped) := traffic q ops in
      (q, results, match result with Popped p => p :: popped | _ => popped end)
  end.

Definition dropped_total (results : list VideoPush) : Z := foldr (fun r n => vp_dropped r + n) 0 results.

(** The tests of [push] that remain when the flags are known. *)
Ltac queue_cases :=
  repeat first
    [ case_bool_decide; subst; cbn
    | match goal with |- context [zlen ?l =? ?c] => destruct (Z.eqb_spec (zlen l) c); cbn end
    | match goal with |- context [existsb ?p ?l] => destruct (existsb p l); cbn end ].

Definition queue_ok (q : VideoQueue.t) : Prop :=
  0 < capacity q /\ zlen (frames q) <= capacity q /\ closed q = false.

Lemma push_counts q f :
  queue_ok q ->
  let q' := (push q f).1 in
  queue_ok q' /\ exists r, (push q f).2 = Some r /\ zlen (frames q') + vp_dropped r = zlen (frames q) + 1
    /\ 0 <= vp_dropped r.
Proof.
  destruct q as [c fs g w r cl]. intros (Hc & Hf & Hcl). cbn in *. subst cl. pose proof (zlen_nonneg fs) as H0.
  unfold push, make_room, enqueue, invalidate_locked, queue_ok. cbn.
  destruct w, (ef_keyframe f), (ef_contiguous f); cbn;
    queue_cases;
    (split; [split; [done|split; [rewrite ?zlen_app, ?zlen_cons, ?zlen_nil in *; lia|done]]|]);
    eexists; (split; [reflexivity|]); rewrite ?zlen_app, ?zlen_cons, ?zlen_nil in *; cbn; lia.
Qed.

(** C21: no frame disappears.  Over any pushes and pops the queue stays within
    its capacity, answers every push, and every frame offered has been popped,
    is still queued, or was reported as dropped. *)
Theorem no_frame_disappears (q : VideoQueue.t) (ops : list (option EncodedFrame)) (Hok : queue_ok q) :
  let '(q', results, popped) := traffic q ops in
  queue_ok q'
  /\ zlen results = zlen (omap id ops)
  /\ zlen (frames q) + zlen (omap id ops) = zlen popped + zlen (frames q') + dropped_total results.
Proof.
  revert q Hok. induction ops as [|[f|] ops IH]; intros q Hok; cbn [traffic];
    [|change (omap id (Some f :: ops)) with (f :: omap id ops)|change (omap id (None :: ops)) with (omap id ops)].
  - split; [done|]. split; [done|]. unfold zlen. cbn. lia.
  - destruct (push_counts q f Hok) as (Hok' & r & Hr & Hn & _). destruct (push q f) as [q' result]. cbn in Hok', Hr, Hn. subst result.
    specialize (IH q' Hok'). destruct (traffic q' ops) as [[q'' results] popped]. destruct IH as (H1 & H2 & H3).
    split; [done|]. change (option_list (Some r) ++ results) with (r :: results).
    unfold zlen, dropped_total in *. cbn [length foldr].
    split; lia.
  - unfold pop_packet. destruct (frames q) as [|p rest] eqn:Hf.
    + specialize (IH q Hok). rewrite Hf in IH. by destruct (closed q), (traffic q ops) as [[q'' results] popped].
    + assert (Hok' : queue_ok (with_frames q rest)).
      { destruct Hok as (? & Hl & ?). rewrite Hf, zlen_cons in Hl. split; [done|]. split; [cbn; lia|done]. }
      specialize (IH _ Hok'). destruct (traffic _ ops) as [[q'' results] popped]. destruct IH as (H1 & H2 & H3).
      cbn [with_frames frames] in H3. split; [done|]. split; [done|]. unfold zlen in *. cbn [length]. lia.
Qed.

Lemma delta_refused q f :
  queue_ok q -> waiting_for_keyframe q = true -> request_pending q = true -> ef_keyframe f = false ->
  push q f = (q, Some {| vp_dropped := 1; request_keyframe := false |}).
Proof.
  intros (_ & _ & Hc) Hw Hr Hk. destruct q. cbn in *. subst. unfold push, make_room, enqueue. cbn. by rewrite Hk.
Qed.

(** One request per loss.  After a push that asks for a keyframe, every
    further delta frame is dropped without asking again, whatever is popped in
    between; the first keyframe that arrives is accepted: the queue then holds
    that frame alone, marked to reset the decoder. *)
Theorem one_request_per_loss (q : VideoQueue.t) (lost : EncodedFrame) (ops : list (option EncodedFrame)) (key : EncodedFrame)
    (Hok : queue_ok q) (Hreq : request_keyframe <$> (push q lost).2 = Some true)
    (Hdeltas : Forall (fun op => forall f, op = Some f -> ef_keyframe f = false) ops) (Hkey : ef_keyframe key = true) :
  exists q', (traffic (push q lost).1 ops).1
      = (q', replicate (length (omap id ops)) {| vp_dropped := 1; request_keyframe := false |})
    /\ exists g dropped, frames (push q' key).1 = [packet_of key g true]
      /\ (push q' key).2 = Some {| vp_dropped := dropped; request_keyframe := false |}.
Proof.
  assert (Hw : let q1 := (push q lost).1 in queue_ok q1 /\ waiting_for_keyframe q1 = true /\ request_pending q1 = true).
  { split; [by apply push_counts|]. destruct q as [c fs g w r cl], Hok as (_ & _ & Hc). cbn in Hc. subst cl. revert Hreq.
    unfold push, make_room, enqueue, invalidate_locked. cbn.
    destruct w, (ef_keyframe lost), (ef_contiguous lost); cbn;
      queue_cases;
      intros Hx; first [discriminate Hx|by simplify_eq]. }
  destruct Hw as (Hok1 & Hw & Hr). revert Hok1 Hw Hr. generalize (push q lost).1 as q1. clear q lost Hok Hreq.
  induction Hdeltas as [|op ops Hop Hrest IH]; intros q1 Hok1 Hw Hr; cbn.
  - exists q1. split; [done|]. destruct q1 as [c fs g w r cl], Hok1 as (_ & _ & Hc). cbn in *. subst.
    unfold push, make_room, enqueue, invalidate_locked. cbn. rewrite Hkey. cbn.
    case_bool_decide; subst; cbn; by eauto.
  - destruct op as [f|]; cbn.
    + rewrite delta_refused by auto. destruct (IH q1 Hok1 Hw Hr) as (q' & Ht & Hq').
      destruct (traffic q1 ops) as [[q2 results] popped]. cbn in Ht. injection Ht as -> ->. exists q'. by split.
    + unfold pop_packet. destruct (frames q1) as [|p rest] eqn:Hf.
      * destruct (IH q1 Hok1 Hw Hr) as (q' & Ht & Hq'). destruct (closed q1), (traffic q1 ops) as [[q2 results] popped];
          cbn in *; injection Ht as -> ->; by exists q'.
      * assert (Hok' : queue_ok (with_frames q1 rest)).
        { destruct Hok1 as (? & Hl & ?). rewrite Hf, zlen_cons in Hl. split; [done|]. split; [cbn; lia|done]. }
        destruct (IH _ Hok' Hw Hr) as (q' & Ht & Hq'). destruct (traffic (with_frames q1 rest) ops) as [[q2 results] popped].
        cbn in Ht. injection Ht as -> ->. by exists q'.
Qed.

(** ** Example runs *)
Definition sample_frame (id : Z) (keyframe contiguous : bool) : EncodedFrame :=
  {| ef_mid := "video"; ef_codec := CodecH264; ef_data := []; ef_frame_index := Some id; ef_timestamp := id * 750;
     ef_clock_rate_hz := 90000; ef_keyframe := keyframe; ef_contiguous := contiguous; ef_ssrc := None |}.
Definition sample_ops : list queue_op :=
  [OpPush (sample_frame 1 true true); OpPush (sample_frame 2 false true); OpPop; OpSubmit; OpPop;
   OpPush (sample_frame 4 false false); OpSubmit; OpPush (sample_frame 5 true true); OpPop; OpSubmit].
Definition sample_queue : VideoQueue.t :=
  {| capacity := 2; frames := []; generation := 1; waiting_for_keyframe := true; request_pending := false; closed := false |}.

Lemma decoder_sees_unbroken_chains_witness :
  VideoQueue.new 2 = Ok sample_queue
  /\ (fun p => ef_frame_index (vp_frame p)) <$> submitted (pipeline_run true sample_queue sample_ops) = [Some 1; Some 5]
  /\ exists positions, length positions = 2%nat
    /\ chain [sample_frame 1 true true; sample_frame 2 false true; sample_frame 4 false false; sample_frame 5 true true] None
         (zip positions (submitted (pipeline_run true sample_queue sample_ops))).
Proof.
  split; [reflexivity|]. split; [reflexivity|].
  destruct (decoder_sees_unbroken_chains true 2 sample_queue sample_ops eq_refl eq_refl) as (positions & Hl & Hc).
  exists positions. split; [exact Hl|exact Hc].
Defined.

Lemma no_frame_disappears_witness :
  let '(q', results, popped) := traffic sample_queue
    [Some (sample_frame 1 true true); Some (sample_frame 2 false true); Some (sample_frame 3 false true); None] in
  zlen popped = 1 /\ dropped_total results = 1 /\ zlen (frames q') = 1
  /\ zlen (frames sample_queue) + 3 = zlen popped + zlen (frames q') + dropped_total results.
Proof.
  assert (Hok : queue_ok sample_queue) by (split; [done|]; split; [done|reflexivity]).
  pose proof (no_frame_disappears sample_queue [Some (sample_frame 1 true true); Some (sample_frame 2 false true);
    Some (sample_frame 3 false true); None] Hok) as H. cbn. cbn in H. destruct H as (_ & _ & H).
  split; [done|]. split; [done|]. split; [done|]. exact H.
Defined.

Lemma one_request_per_loss_witness :
  request_keyframe <$> (push sample_queue (sample_frame 2 false true)).2 = Some true
  /\ exists q', (traffic (push sample_queue (sample_frame 2 false true)).1 [Some (sample_frame 3 false true); None]).1
      = (q', [{| vp_dropped := 1; request_keyframe := false |}])
    /\ exists g dropped, frames (push q' (sample_frame 4 true true)).1 = [packet_of (sample_frame 4 true true) g true]
      /\ (push q' (sample_frame 4 true true)).2 = Some {| vp_dropped := dropped; request_keyframe := false |}.
Proof.
  split; [reflexivity|].
  refine (one_request_per_loss sample_queue (sample_frame 2 false true) [Some (sample_frame 3 false true); None]
    (sample_frame 4 true true) _ eq_refl _ eq_refl).
  - split; [done|]. split; [done|reflexivity].
  - constructor; [by intros f [= <-]|]. by constructor.
Defined.
