(* ===== verification/DecodeFeed.v ===== *)
(** * From the video queue to the Windows decoder

    The submission worker of the embedded Direct3D session ([media.rs]): it
    takes packets from the queue of [VideoQueue], submits them to the decoder's
    queue of [Queues.WindowsQueue] while no loss has been published, and gives
    up the chain when the decoder's queue refuses a frame.  The decoder takes
    its input at its own pace; every step is one critical section of one of the
    threads. *)

From stdpp Require Import strings.
From S2P Require Import Prelude Queues VideoQueue.
Import VideoQueue.

(** Where the worker is: between packets or holding one, or inside
    [invalidate_embedded_video], before its [clear] or before its
    [hold_keyframe_request]. *)
Inductive worker_phase := Working | MustClear | MustHold.

Inductive feed_op :=
  (** the transport's frames, and losses other threads publish *)
  | FeedPush (frame : EncodedFrame) | FeedClear | FeedHold
  (** a step of the worker: [pop_packet], the submission, or the invalidation *)
  | WorkerPop | WorkerSubmit | WorkerInvalidate
  (** the decoder takes its next input *)
  | DecoderTake.

Module DecodeFeed.
Record t := {
  source : pipeline;
  decoder_queue : WindowsQueue.t VideoPacket;
  keyframe_requested : bool;
  phase : worker_phase;
  decoded : list VideoPacket
}.

Definition start (q : VideoQueue.t) (dq : WindowsQueue.t VideoPacket) : t :=
  {| source := {| queue := q; held := None; pushed := []; submitted := [] |}; decoder_queue := dq;
     keyframe_requested := false; phase := Working; decoded := [] |}.

Definition with_source (self : t) (s : pipeline) : t :=
  {| source := s; decoder_queue := decoder_queue self; keyframe_requested := keyframe_requested self;
     phase := phase self; decoded := decoded self |}.
Definition with_phase (self : t) (p : worker_phase) : t :=
  {| source := source self; decoder_queue := decoder_queue self; keyframe_requested := keyframe_requested self;
     phase := p; decoded := decoded self |}.
Definition with_request (self : t) (b : bool) : t :=
  {| source := source self; decoder_queue := decoder_queue self; keyframe_requested := b;
     phase := phase self; decoded := decoded self |}.

Definition is_key (p : VideoPacket) : bool := ef_keyframe (vp_frame p).

(** [EmbeddedD3d11State::push] with a submitter: is the frame queued? *)
Definition queued (p : VideoPacket) (outcome : WindowsQueue.PushOutcome) : bool :=
  match outcome with
  | WindowsQueue.Queued | WindowsQueue.Paused => true
  | WindowsQueue.Backpressured => false
  | WindowsQueue.DroppedOldest => is_key p
  end.

(** The submission of the held packet and what the worker makes of its
    outcome. *)
Definition submit (self : t) : t :=
  match held (source self) with
  | None => self
  | Some p =>
      let current := VideoQueue.submit_if_current (queue (source self)) (vp_generation p) in
      let self := with_source self (pipeline_step true (source self) OpSubmit) in
      if negb current then self else
      let '(dq, outcome) := WindowsQueue.push_or_clear_on_overflow (decoder_queue self) p (is_key p) is_key in
      let self := {| source := source self; decoder_queue := dq; keyframe_requested := keyframe_requested self;
                     phase := phase self; decoded := decoded self |} in
      match outcome with
      | inr _ => with_phase self MustClear
      | inl outcome =>
          if queued p outcome then (if is_key p then with_request self false else self)
          else if keyframe_requested self then self
          else with_phase (with_request self true) MustClear
      end
  end.

Definition step (self : t) (op : feed_op) : t :=
  let at_source op := with_source self (pipeline_step true (source self) op) in
  match op, phase self with
  | FeedPush frame, _ => at_source (OpPush frame)
  | FeedClear, _ => at_source OpClear
  | FeedHold, _ => at_source OpHold
  | WorkerPop, Working => at_source OpPop
  | WorkerSubmit, Working => submit self
  | WorkerInvalidate, MustClear => with_phase (at_source OpClear) MustHold
  | WorkerInvalidate, MustHold => with_phase (at_source OpHold) Working
  | DecoderTake, _ =>
      match WindowsQueue.try_pop (decoder_queue self) with
      | (dq, Some p) => {| source := source self; decoder_queue := dq; keyframe_requested := keyframe_requested self;
                           phase := phase self; decoded := decoded self ++ [p] |}
      | (_, None) => self
      end
  | _, _ => self
  end.

Definition run (self : t) (ops : list feed_op) : t := foldl step self ops.
End DecodeFeed.
Import DecodeFeed.

(** ** Decodable sequences

    A frame can be decoded when it is a keyframe or was offered to the queue
    right after the frame decoded before it, with nothing lost in between. *)
Definition follows (offered : list EncodedFrame) (prev : option nat) (n : nat) (p : VideoPacket) : Prop :=
  offered !! n = Some (vp_frame p) /\ (forall m, prev = Some m -> (m < n)%nat)
  /\ (is_key p = true \/ ef_contiguous (vp_frame p) = true /\ exists m, prev = Some m /\ n = S m).

Fixpoint decodes (offered : list EncodedFrame) (prev : option nat) (l : list (nat * VideoPacket)) : Prop :=
  match l with
  | [] => True
  | (n, p) :: l => follows offered prev n p /\ decodes offered (Some n) l
  end.

Lemma decodes_app offered prev l k :
  decodes offered prev (l ++ k) <-> decodes offered prev l /\ decodes offered (latest prev l) k.
Proof.
  revert prev. induction l as [|[n p] l IH]; intros prev; [cbn; tauto|].
  rewrite latest_cons. cbn. rewrite IH. tauto.
Qed.
Lemma decodes_offer offered f prev l : decodes offered prev l -> decodes (offered ++ [f]) prev l.
Proof.
  revert prev. induction l as [|[n p] l IH]; intros prev; [done|]. intros [(Hn & H) Hl]. split; [|by apply IH].
  split; [by apply lookup_app_l_Some|done].
Qed.
Lemma decodable_follows offered prev n p : decodable offered prev n p -> follows offered prev n p.
Proof. intros (Hn & Hlt & H). split; [done|]. split; [done|]. unfold is_key. destruct (reset_decoder p); auto. Qed.

(** ** After a loss the decoder is reset

    [fresh]: the next packet the worker can submit starts over. *)
Definition first_resets (q : VideoQueue.t) : Prop :=
  match frames q with [] => waiting_for_keyframe q = true | p :: _ => reset_decoder p = true end.
Definition fresh (s : pipeline) : Prop :=
  match held s with
  | Some p => if current true (queue s) p then reset_decoder p = true else first_resets (queue s)
  | None => first_resets (queue s)
  end.


(** Generations of packets never exceed the queue's, so an invalidation makes
    every packet taken before it stale. *)
Lemma stale_after q q' p :
  vp_generation p <= generation q -> generation q' = generation q + 1 -> current true q' p = false.
Proof. intros Hp Hg. unfold current, submit_if_current. destruct (Z.eqb_spec (generation q') (vp_generation p)); [lia|]. by destruct (closed q'). Qed.

Lemma fresh_give_up s s' ls prev tags stags :
  pipeline_ok true s ls prev tags stags -> held s' = held s ->
  generation (queue s') = generation (queue s) + 1 -> first_resets (queue s') -> fresh s'.
Proof.
  intros Hok Hh Hg Hr. unfold fresh. rewrite Hh. pose proof (po_held _ _ _ _ _ _ Hok) as Hp.
  destruct (held s) as [p|]; [|done]. destruct Hp as (Hp & _). by rewrite (stale_after _ _ _ Hp Hg).
Qed.

Lemma fresh_keep s s' :
  held s' = held s -> generation (queue s') = generation (queue s) -> closed (queue s') = closed (queue s) ->
  (first_resets (queue s) -> first_resets (queue s')) -> fresh s -> fresh s'.
Proof.
  intros Hh Hg Hc Hr. unfold fresh, current, submit_if_current. rewrite Hh, Hg, Hc.
  destruct (held s) as [p|]; [|done]. by destruct (negb true || _).
Qed.

Lemma fresh_push s f ls prev tags stags :
  pipeline_ok true s ls prev tags stags -> 0 <= generation (queue s) -> generation (queue s) + 1 < 2 ^ 64 ->
  fresh s -> fresh (pipeline_step true s (OpPush f)).
Proof.
  intros Hok H0 Hg Hf. cbn [pipeline_step]. destruct (closed (queue s)) eqn:Hc.
  - unfold push. rewrite Hc. exact Hf.
  - destruct (video_push_cases (queue s) f Hc) as (_ & Hc' & H). set (q' := (push (queue s) f).1) in *. clearbody q'.
    unfold refused, accepted in H.
    assert (Hu : as_u64 (generation (queue s) + 1) = generation (queue s) + 1) by (apply Z.mod_small; lia).
    rewrite Hu in H. destruct H as [(Hw & [(Hq & Hg')|(Hq & Hg')])|(Hw & [(Hq & Hg' & Hw' & Hk)|(Hq & Hk & [(Hg' & He)|Hg'])])].
    + apply (fresh_keep s); [reflexivity|done|cbn; congruence| |exact Hf]. unfold first_resets. cbn. rewrite Hq, Hw. by destruct (frames (queue s)).
    + eapply fresh_give_up; [exact Hok|reflexivity|done|]. unfold first_resets. cbn. by rewrite Hq.
    + apply (fresh_keep s); [reflexivity|done|cbn; congruence| |exact Hf]. unfold first_resets. cbn. rewrite Hq.
      destruct (frames (queue s)); [by rewrite Hw'|done].
    + apply (fresh_keep s); [reflexivity|done|cbn; congruence| |exact Hf]. unfold first_resets. cbn. by rewrite Hq.
    + eapply fresh_give_up; [exact Hok|reflexivity|done|]. unfold first_resets. cbn. by rewrite Hq.
Qed.

Lemma fresh_other s op ls prev tags stags :
  pipeline_ok true s ls prev tags stags -> 0 <= generation (queue s) -> generation (queue s) + 1 < 2 ^ 64 ->
  op <> OpSubmit -> fresh s -> fresh (pipeline_step true s op).
Proof.
  intros Hok H0 Hg Hop Hf. destruct op as [f| | | | |]; [by eapply fresh_push| |done|..]; cbn [pipeline_step].
  - unfold pop_packet. destruct (held s) as [p|] eqn:Hh; [done|]. unfold fresh, first_resets in *. rewrite Hh in Hf.
    destruct (frames (queue s)) as [|p rest] eqn:Hq; [destruct (closed (queue s)); rewrite Hh; by rewrite Hq|]. cbn.
    pose proof (po_gens _ _ _ _ _ _ Hok) as Hgens. rewrite Hq in Hgens. apply Forall_cons in Hgens as (Hgp & _).
    unfold submit_if_current, current. cbn. rewrite Hgp, Z.eqb_refl.
    destruct (closed (queue s)) eqn:Hc; [|done]. destruct (po_closed _ _ _ _ _ _ Hok Hc). congruence.
  - eapply fresh_give_up; [exact Hok|reflexivity|by apply invalidated_gen|done].
  - apply (fresh_keep s); [reflexivity|reflexivity|reflexivity| |exact Hf]. unfold first_resets. cbn. by destruct (frames (queue s)).
  - eapply fresh_give_up; [exact Hok|reflexivity|by apply invalidated_gen|done].
Qed.

Lemma fresh_submit s :
  fresh s -> (forall p, held s = Some p -> current true (queue s) p = false) -> fresh (pipeline_step true s OpSubmit).
Proof.
  unfold fresh. intros Hf Hp. cbn [pipeline_step]. destruct (held s) as [p|] eqn:Hh; [|by rewrite Hh].
  cbn. by rewrite (Hp p eq_refl) in Hf.
Qed.

(** ** The invariant of the feed

    [ls] is the position of the last packet submitted; [positions] are those of
    the packets the decoder took and of those waiting for it. *)
Definition decoder_input (self : DecodeFeed.t) : list VideoPacket :=
  decoded self ++ WindowsQueue.values (decoder_queue self).

Record feed_ok (self : DecodeFeed.t) (ls prev : option nat) (tags stags positions : list nat) : Prop := {
  fo_source : pipeline_ok true (source self) ls prev tags stags;
  fo_positions : length positions = length (decoder_input self);
  fo_decodes : decodes (pushed (source self)) None (zip positions (decoder_input self));
  fo_behind : forall m, latest None (zip positions (decoder_input self)) = Some m -> exists n, ls = Some n /\ (m <= n)%nat;
  fo_open : WindowsQueue.closed (decoder_queue self) = false;
  fo_clean : phase self = Working -> keyframe_requested self = false ->
    latest None (zip positions (decoder_input self)) = ls;
  fo_phase : phase self <> Working -> keyframe_requested self = true;
  fo_fresh : keyframe_requested self = true -> phase self = MustClear \/ fresh (source self)
}.

Lemma pushed_grows s op l prev :
  decodes (pushed s) prev l -> decodes (pushed (pipeline_step true s op)) prev l.
Proof.
  destruct op as [f| | | | |]; cbn [pipeline_step]; [apply decodes_offer|..]; try done.
  - destruct (held s); [done|]. destruct (pop_packet (queue s)) as [? []]; done.
  - by destruct (held s).
Qed.

Definition gen_of (self : DecodeFeed.t) : Z := generation (queue (source self)).

Lemma source_step self op ls prev tags stags positions :
  feed_ok self ls prev tags stags positions -> 0 <= gen_of self -> gen_of self + 1 < 2 ^ 64 -> op <> OpSubmit ->
  (exists prev' tags' stags', feed_ok (with_source self (pipeline_step true (source self) op)) ls prev' tags' stags' positions)
  /\ 0 <= gen_of (with_source self (pipeline_step true (source self) op)) <= gen_of self + 1.
Proof.
  intros Hok H0 Hg Hop. destruct Hok.
  destruct (step_ok true (source self) op _ _ _ _ fo_source0 H0 Hg) as ((ls' & prev' & tags' & stags' & Hok' & Hls) & Hgen).
  rewrite (Hls Hop) in Hok'. split; [|exact Hgen]. exists prev', tags', stags'.
  constructor; cbn [with_source source decoder_queue keyframe_requested phase decoded decoder_input]; auto.
  - by apply pushed_grows.
  - intros Hreq. destruct (fo_fresh0 Hreq); [by left|right]. by eapply fresh_other.
Qed.

Lemma take_step self ls prev tags stags positions :
  feed_ok self ls prev tags stags positions -> feed_ok (step self DecoderTake) ls prev tags stags positions.
Proof.
  intros Hok. cbn [step]. unfold WindowsQueue.try_pop.
  destruct (WindowsQueue.values (decoder_queue self)) as [|p rest] eqn:Hv; [by destruct (phase self)|].
  set (self' := {| source := source self |}). assert (H : feed_ok self' ls prev tags stags positions); [|by destruct (phase self)].
  destruct Hok. unfold decoder_input in *. rewrite Hv in *.
  constructor; unfold decoder_input; cbn; rewrite <- ?app_assoc; done.
Qed.

(** How the decoder's queue takes a packet. *)
Lemma windows_push_cases (dq : WindowsQueue.t VideoPacket) p :
  WindowsQueue.closed dq = false ->
  exists outcome dq', WindowsQueue.push_or_clear_on_overflow dq p (is_key p) is_key = (dq', inl outcome)
    /\ WindowsQueue.closed dq' = false
    /\ if queued p outcome
       then (WindowsQueue.values dq' = WindowsQueue.values dq ++ [p]
             \/ is_key p = true /\ WindowsQueue.values dq' = [p])
       else is_key p = false /\ (WindowsQueue.values dq' = WindowsQueue.values dq \/ WindowsQueue.values dq' = []).
Proof.
  destruct dq as [c vs cl]. cbn. intros ->. unfold WindowsQueue.push_or_clear_on_overflow, WindowsQueue.admit_compressed_frame. cbn.
  destruct (zlen vs <? c); [do 2 eexists; split; [reflexivity|]; cbn; by auto|].
  destruct (is_key p) eqn:Hk; [do 2 eexists; split; [reflexivity|]; cbn; rewrite Hk; by auto|].
  destruct (existsb is_key vs); (do 2 eexists; split; [reflexivity|]); cbn; rewrite ?Hk; by auto.
Qed.

(** The packets a decoder has not been given can be forgotten. *)
Lemma forget_waiting self ls prev tags stags positions :
  feed_ok self ls prev tags stags positions ->
  exists before waiting, positions = before ++ waiting
    /\ length before = length (decoded self) /\ length waiting = length (WindowsQueue.values (decoder_queue self))
    /\ zip positions (decoder_input self)
       = zip before (decoded self) ++ zip waiting (WindowsQueue.values (decoder_queue self)).
Proof.
  intros Hok. pose proof (fo_positions _ _ _ _ _ _ Hok) as Hl. unfold decoder_input in *. rewrite length_app in Hl.
  exists (take (length (decoded self)) positions), (drop (length (decoded self)) positions).
  split; [by rewrite take_drop|]. rewrite length_take, length_drop. split; [lia|]. split; [lia|].
  rewrite <- (take_drop (length (decoded self)) positions) at 1. apply zip_with_app. rewrite length_take. lia.
Qed.

Lemma latest_app_l prev l k : latest prev (l ++ k) = latest (latest prev l) k.
Proof. revert prev. induction l as [|[n p] l IH]; intros prev; [done|]. cbn [app]. by rewrite !latest_cons. Qed.

Lemma decodes_latest offered prev l m k :
  decodes offered prev l -> prev = Some k -> latest prev l = Some m -> (k <= m)%nat.
Proof.
  revert prev k. induction l as [|[n p] l IH]; intros prev k Hl Hk Hm; [cbn in Hm; unfold latest in Hm; cbn in Hm; simplify_eq; lia|].
  rewrite latest_cons in Hm. destruct Hl as [(_ & Hlt & _) Hl]. specialize (Hlt _ Hk).
  specialize (IH (Some n) n Hl eq_refl Hm). lia.
Qed.

(** A submitted packet can follow whatever the decoder will have been given:
    the packet before it, or anything when it starts over. *)
Lemma submitted_follows self ls prev tags stags positions p h prefix rest :
  feed_ok self ls prev tags stags positions -> phase self = Working ->
  held (source self) = Some p -> current true (queue (source self)) p = true ->
  decodable (pushed (source self)) ls h p ->
  zip positions (decoder_input self) = prefix ++ rest ->
  (rest = [] \/ is_key p = true) ->
  follows (pushed (source self)) (latest None prefix) h p
  /\ (keyframe_requested self = true -> is_key p = true).
Proof.
  intros Hok Hph Hh Hcur Hd Hzip Hrest. destruct Hok. rewrite Hzip in *.
  assert (Hkey : keyframe_requested self = true -> is_key p = true).
  { intros Hreq. destruct (fo_fresh0 Hreq) as [|Hf]; [congruence|]. unfold fresh in Hf. rewrite Hh, Hcur in Hf.
    destruct Hd as (_ & _ & Hd). by rewrite Hf in Hd. }
  split; [|exact Hkey]. destruct (decodable_follows _ _ _ _ Hd) as (Hn & Hlt & Hor). split; [done|]. split.
  - intros m Hm. apply decodes_app in fo_decodes0 as (Hd1 & Hd2). rewrite latest_app_l in fo_behind0.
    destruct (latest (latest None prefix) rest) as [k|] eqn:Hk.
    + destruct (fo_behind0 k eq_refl) as (n & Hls & Hkn). specialize (Hlt n Hls).
      pose proof (decodes_latest _ _ _ _ _ Hd2 Hm Hk). lia.
    + rewrite Hm in Hk. unfold latest in Hk. destruct (last rest) as [[]|]; done.
  - destruct (keyframe_requested self) eqn:Hreq; [left; auto|].
    destruct Hrest as [->|]; [|by left]. rewrite app_nil_r in fo_clean0. by rewrite (fo_clean0 Hph eq_refl).
Qed.

Lemma zip_snoc {A B} (l : list A) (k : list B) a b :
  length l = length k -> zip (l ++ [a]) (k ++ [b]) = zip l k ++ [(a, b)].
Proof. intros. by rewrite zip_with_app. Qed.

Lemma accept_step self ls prev tags stags positions h dq s1 prefix :
  feed_ok self ls prev tags stags positions -> phase self = Working ->
  pipeline_ok true s1 (Some h) (Some h) tags (stags ++ [h]) -> pushed s1 = pushed (source self) ->
  length prefix = length (decoded self ++ WindowsQueue.values dq) ->
  WindowsQueue.closed dq = false ->
  decodes (pushed (source self)) None (zip prefix (decoded self ++ WindowsQueue.values dq)) ->
  latest None (zip prefix (decoded self ++ WindowsQueue.values dq)) = Some h ->
  feed_ok {| source := s1; decoder_queue := dq; keyframe_requested := false; phase := phase self; decoded := decoded self |}
    (Some h) (Some h) tags (stags ++ [h]) prefix.
Proof.
  intros Hok Hph Hs Hp Hl Hc Hd Hlast.
  constructor; unfold decoder_input; cbn; rewrite ?Hp, ?Hlast; try done. intros m [= <-]. by exists h.
Qed.

Lemma submit_step self ls prev tags stags positions :
  feed_ok self ls prev tags stags positions -> phase self = Working ->
  exists ls' prev' tags' stags' positions', feed_ok (submit self) ls' prev' tags' stags' positions'.
Proof.
  intros Hok Hph. unfold submit. destruct (held (source self)) as [p|] eqn:Hh; [|by eauto 10].
  pose proof (submit_ok true _ _ _ _ _ _ (fo_source _ _ _ _ _ _ Hok) Hh) as Hs.
  change (submit_if_current (queue (source self)) (vp_generation p)) with (current true (queue (source self)) p).
  set (s1 := pipeline_step true (source self) OpSubmit) in *.
  assert (Hp1 : pushed s1 = pushed (source self)) by (unfold s1; cbn; by rewrite Hh).
  destruct (current true (queue (source self)) p) eqn:Hcur; cbn [negb].
  2: { exists ls, ls, tags, stags, positions. destruct Hok. constructor; cbn [with_source source decoder_queue keyframe_requested phase decoded]; rewrite ?Hp1; auto.
       intros Hreq. destruct (fo_fresh0 Hreq) as [|Hf]; [by left|right]. apply fresh_submit; [done|]. by intros ? [= <-]%(eq_trans (eq_sym Hh)). }
  destruct Hs as (h & Hd & Hs1).
  clearbody s1.
  destruct (windows_push_cases (decoder_queue self) p (fo_open _ _ _ _ _ _ Hok)) as (out & dq & Hpush & Hopen & Hcase).
  cbn [with_source decoder_queue]. rewrite Hpush. cbn [with_source source decoder_queue keyframe_requested phase decoded].
  destruct (forget_waiting _ _ _ _ _ _ Hok) as (before & waiting & Hpos & Hbl & Hwl & Hzip).
  destruct (queued p out) eqn:Hq.
  - assert (Hfeed : exists positions', feed_ok {| source := s1; decoder_queue := dq; keyframe_requested := false; phase := phase self;
        decoded := decoded self |} (Some h) (Some h) tags (stags ++ [h]) positions').
    { destruct Hcase as [Hv|(Hk & Hv)].
      - destruct (submitted_follows _ _ _ _ _ _ _ _ (zip positions (decoder_input self)) [] Hok Hph Hh Hcur Hd) as (Hfol & _);
          [by rewrite app_nil_r|by left|].
        exists (positions ++ [h]). pose proof (fo_positions _ _ _ _ _ _ Hok) as Hl.
        apply (accept_step self ls prev tags stags positions); try done.
        + rewrite Hv, app_assoc, (length_app positions), (length_app _ [p]), Hl. done.
        + rewrite Hv, app_assoc, zip_snoc by exact Hl. apply decodes_app. split; [apply Hok|]. by split.
        + by rewrite Hv, app_assoc, zip_snoc, latest_app by exact Hl.
      - destruct (submitted_follows _ _ _ _ _ _ _ _ (zip before (decoded self)) _ Hok Hph Hh Hcur Hd Hzip) as (Hfol & _); [by right|].
        exists (before ++ [h]).
        apply (accept_step self ls prev tags stags positions); try done.
        + rewrite Hv, (length_app before), (length_app _ [p]), Hbl. done.
        + rewrite Hv, zip_snoc by exact Hbl. apply decodes_app. split; [|by split].
          pose proof (fo_decodes _ _ _ _ _ _ Hok) as Hdec. rewrite Hzip in Hdec. by apply decodes_app in Hdec as [].
        + by rewrite Hv, zip_snoc, latest_app by exact Hbl. }
    destruct Hfeed as (positions' & Hfeed). exists (Some h), (Some h), tags, (stags ++ [h]), positions'.
    destruct (is_key p) eqn:Hk; [exact Hfeed|].
    destruct (submitted_follows _ _ _ _ _ _ _ _ (zip positions (decoder_input self)) [] Hok Hph Hh Hcur Hd) as (_ & Hkey);
      [by rewrite app_nil_r|by left|]. destruct (keyframe_requested self); [by rewrite Hkey in Hk|exact Hfeed].
  - destruct Hcase as (Hk & Hv).
    destruct (submitted_follows _ _ _ _ _ _ _ _ (zip positions (decoder_input self)) [] Hok Hph Hh Hcur Hd) as (_ & Hkey);
      [by rewrite app_nil_r|by left|]. destruct (keyframe_requested self) eqn:Hreq; [by rewrite Hkey in Hk|].
    set (positions' := if bool_decide (WindowsQueue.values dq = []) then before else positions).
    exists (Some h), (Some h), tags, (stags ++ [h]), positions'.
    assert (Hsame : exists rest, zip positions (decoder_input self)
        = zip positions' (decoded self ++ WindowsQueue.values dq) ++ rest /\ length positions' = length (decoded self ++ WindowsQueue.values dq)).
    { unfold positions'. case_bool_decide as He.
      - rewrite He, app_nil_r. by eexists.
      - destruct Hv as [->|]; [|done]. exists []. rewrite app_nil_r. split; [done|]. apply Hok. }
    destruct Hsame as (rest & Hsame & Hlen).
    pose proof (fo_decodes _ _ _ _ _ _ Hok) as Hdec. rewrite Hsame in Hdec. apply decodes_app in Hdec as (Hdec & Hdec2).
    constructor; unfold decoder_input; cbn; rewrite ?Hp1; try done; [|by left].
    intros m Hm. exists h. split; [done|].
    pose proof (fo_behind _ _ _ _ _ _ Hok) as Hb. rewrite Hsame, latest_app_l, Hm in Hb.
    destruct (latest (Some m) rest) as [k|] eqn:Hk2; [|unfold latest in Hk2; by destruct (last rest) as [[]|]].
    destruct (Hb k eq_refl) as (n & Hls & Hkn). destruct Hd as (_ & Hlt & _). specialize (Hlt n Hls).
    rewrite Hm in Hdec2. pose proof (decodes_latest _ _ _ _ _ Hdec2 eq_refl Hk2). lia.
Qed.

Lemma submit_gen self : gen_of (submit self) = gen_of self.
Proof.
  unfold submit, gen_of. destruct (held (source self)) as [p|] eqn:Hh; [|done].
  assert (Hq : queue (pipeline_step true (source self) OpSubmit) = queue (source self)) by (cbn; by rewrite Hh).
  destruct (negb _); [by cbn [with_source source]; rewrite Hq|].
  destruct (WindowsQueue.push_or_clear_on_overflow _ p (is_key p) is_key) as [dq [out|]]; [|by cbn [with_phase with_source source]; rewrite Hq].
  cbn [with_source source keyframe_requested]. destruct (queued p out).
  - destruct (is_key p); cbn [with_request source]; by rewrite Hq.
  - destruct (keyframe_requested self); cbn [with_phase with_request source]; by rewrite Hq.
Qed.

Lemma phase_step self p ls prev tags stags positions :
  feed_ok self ls prev tags stags positions -> keyframe_requested self = true -> fresh (source self) ->
  feed_ok (with_phase self p) ls prev tags stags positions.
Proof. intros Hok Hreq Hf. destruct Hok. constructor; cbn; try done; [by rewrite Hreq|by right]. Qed.

Lemma feed_step self op ls prev tags stags positions :
  feed_ok self ls prev tags stags positions -> 0 <= gen_of self -> gen_of self + 1 < 2 ^ 64 ->
  (exists ls' prev' tags' stags' positions', feed_ok (step self op) ls' prev' tags' stags' positions')
  /\ 0 <= gen_of (step self op) <= gen_of self + 1.
Proof.
  intros Hok H0 Hg.
  assert (Hsrc : forall o, o <> OpSubmit ->
    (exists ls' prev' tags' stags' positions', feed_ok (with_source self (pipeline_step true (source self) o)) ls' prev' tags' stags' positions')
    /\ 0 <= gen_of (with_source self (pipeline_step true (source self) o)) <= gen_of self + 1).
  { intros o Ho. destruct (source_step _ _ _ _ _ _ _ Hok H0 Hg Ho) as (H & Hgen). split; [naive_solver|exact Hgen]. }
  assert (Hstay : (exists ls' prev' tags' stags' positions', feed_ok self ls' prev' tags' stags' positions')
    /\ 0 <= gen_of self <= gen_of self + 1) by (split; [by eauto 10|lia]).
  destruct op; try (cbn [step]; destruct (phase self); by apply Hsrc).
  - cbn [step]. destruct (phase self); [by apply Hsrc|exact Hstay..].
  - cbn [step]. destruct (phase self) eqn:Hph; [|exact Hstay..]. rewrite submit_gen.
    split; [by eapply submit_step|lia].
  - cbn [step]. destruct (phase self) eqn:Hph; [exact Hstay| |].
    + destruct (source_step _ OpClear _ _ _ _ _ Hok H0 Hg ltac:(done)) as ((prev' & tags' & stags' & Hok') & Hgen).
      split; [|exact Hgen]. exists ls, prev', tags', stags', positions.
      apply phase_step; [exact Hok'| |].
      * apply (fo_phase _ _ _ _ _ _ Hok). by rewrite Hph.
      * eapply fresh_give_up; [exact (fo_source _ _ _ _ _ _ Hok)|reflexivity|by apply invalidated_gen|done].
    + destruct (source_step _ OpHold _ _ _ _ _ Hok H0 Hg ltac:(done)) as ((prev' & tags' & stags' & Hok') & Hgen).
      split; [|exact Hgen]. exists ls, prev', tags', stags', positions.
      assert (Hreq : keyframe_requested self = true) by (apply (fo_phase _ _ _ _ _ _ Hok); by rewrite Hph).
      apply phase_step; [exact Hok'|exact Hreq|].
      destruct (fo_fresh _ _ _ _ _ _ Hok Hreq) as [|Hf]; [congruence|].
      by eapply fresh_other; [exact (fo_source _ _ _ _ _ _ Hok)|..].
  - assert (Hgen : gen_of (step self DecoderTake) = gen_of self).
    { cbn [step]. unfold WindowsQueue.try_pop. destruct (WindowsQueue.values _), (phase self); done. }
    rewrite Hgen. split; [|lia]. exists ls, prev, tags, stags, positions. by apply take_step.
Qed.

Definition offered (ops : list feed_op) : list EncodedFrame :=
  omap (fun op => match op with FeedPush f => Some f | _ => None end) ops.

Lemma offered_pushed self ops : pushed (source (run self ops)) = pushed (source self) ++ offered ops.
Proof.
  revert self. induction ops as [|op ops IH]; intros self; [by rewrite app_nil_r|].
  change (run self (op :: ops)) with (run (step self op) ops). rewrite IH.
  assert (Hkeep : forall o, (forall f, o <> OpPush f) -> pushed (pipeline_step true (source self) o) = pushed (source self)).
  { intros o Ho. destruct o; cbn; try done; [by destruct (Ho frame)| |by destruct (held _)].
    destruct (held _); [done|]. by destruct (pop_packet _) as [? []]. }
  assert (Hsub : pushed (source (submit self)) = pushed (source self)).
  { unfold submit. destruct (held (source self)) as [p|]; [|done].
    destruct (negb _); [by apply Hkeep|]. destruct (WindowsQueue.push_or_clear_on_overflow _ p _ _) as [dq [out|]]; [|by apply Hkeep].
    cbn [with_source source keyframe_requested]. destruct (queued p out); [destruct (is_key p)|destruct (keyframe_requested self)]; by apply Hkeep. }
  destruct op; cbn [step];
    try (destruct (phase self); cbn [with_source with_phase source]; rewrite ?Hsub, ?Hkeep by done; by cbn).
  - destruct (phase self); cbn; by rewrite <- app_assoc.
  - unfold WindowsQueue.try_pop. destruct (WindowsQueue.values _), (phase self); done.
Qed.

Lemma feed_run self ops ls prev tags stags positions :
  feed_ok self ls prev tags stags positions -> 0 <= gen_of self -> gen_of self + zlen ops < 2 ^ 64 ->
  exists ls' prev' tags' stags' positions', feed_ok (run self ops) ls' prev' tags' stags' positions'.
Proof.
  revert self ls prev tags stags positions. induction ops as [|op ops IH]; intros self ls prev tags stags positions Hok H0 Hg; [by eauto 10|].
  rewrite zlen_cons in Hg. pose proof (zlen_nonneg ops).
  destruct (feed_step self op _ _ _ _ _ Hok H0 ltac:(lia)) as ((? & ? & ? & ? & ? & Hok') & Hg').
  change (run self (op :: ops)) with (run (step self op) ops). eapply IH; [exact Hok'|lia|lia].
Qed.


(** A decoder queue of two packets overflows on the third: the worker gives up
    the chain and the decoder resumes at the next keyframe. *)
Definition sample_feed : list feed_op :=
  [FeedPush (sample_frame 1 false true); FeedPush (sample_frame 2 true true); FeedPush (sample_frame 3 false true);
   WorkerPop; WorkerSubmit; DecoderTake; WorkerPop; WorkerSubmit; FeedPush (sample_frame 4 false true); WorkerPop; WorkerSubmit;
   FeedPush (sample_frame 5 false true); WorkerPop; WorkerSubmit; WorkerInvalidate; WorkerInvalidate;
   FeedPush (sample_frame 6 false true); FeedPush (sample_frame 7 true true); WorkerPop; WorkerSubmit; DecoderTake].

