(* ===== verification/DecodeTiming.v ===== *)
(** * Decode timings and the decode watchdog

    [timing.rs] of the Linux backend measures how long the decoder holds each
    submission; [decode_progress.rs] of the core crate watches those
    measurements and asks first for a keyframe and then for recovery when the
    decoder stops producing.  The probe's methods run under its lock and are
    one step each; the clock readings are arguments. *)

From stdpp Require Import sorting.
From S2P Require Import Prelude Deque F64 StageTimings.

Definition IN_FLIGHT_CAPACITY : Z := 64.

Record DecodeStagePercentiles := { p50_us : Z; p95_us : Z; max_us : Z }.

Module DecodeTimings.
Record t := {
  call : option DecodeStagePercentiles;
  residence : option DecodeStagePercentiles;
  call_window_samples : Z;
  residence_window_samples : Z;
  submissions_total : Z;
  outputs_total : Z;
  output_calls_total : Z;
  last_submission_at : option Z;
  last_output_at : option Z;
  in_flight : Z;
  oldest_in_flight_at : option Z;
  epoch : Z;
  epoch_started_at : option Z;
  unmatched_outputs : Z;
  unmatched_submissions : Z;
  duplicate_timestamps : Z
}.

Definition is_empty (self : t) : bool := bool_decide (call self = None) && bool_decide (residence self = None).
Definition has_progress (self : t) : bool := 0 <? outputs_total self.
Definition has_observable_state (self : t) : bool :=
  negb (is_empty self) || (0 <? submissions_total self) || (0 <? outputs_total self).

(** The last output of this epoch. *)
Definition this_epoch_output (self : t) : option Z :=
  match last_output_at self with
  | Some at_ => if match epoch_started_at self with Some floor => floor <=? at_ | None => true end then Some at_ else None
  | None => None
  end.
Definition progress_reference (self : t) : option Z :=
  match this_epoch_output self, oldest_in_flight_at self with
  | Some last, Some oldest => Some (Z.max last oldest)
  | Some last, None => Some last
  | None, Some oldest => Some (match epoch_started_at self with Some floor => Z.max oldest floor | None => oldest end)
  | None, None => None
  end.
End DecodeTimings.

(** [percentile_us] *)
Definition percentile_us (sorted : list Z) (percentile : Z) : outcome Empty_set Z :=
  let rank := Z.max (div_ceil (zlen sorted * percentile) 100) 1 in
  index ← expect (checked_sub (Z.min rank (zlen sorted)) 1);
  sample ← sorted.[index];
  mret (sample / 1000).

Definition summarize_us (samples : list Z) : outcome Empty_set (option DecodeStagePercentiles) :=
  match samples with
  | [] => mret None
  | _ =>
      let sorted := merge_sort Z.le samples in
      p50 ← percentile_us sorted 50;
      p95 ← percentile_us sorted 95;
      maximum ← expect (last sorted);
      mret (Some {| p50_us := p50; p95_us := p95; max_us := maximum / 1000 |})
  end.

Module DecodeTimingAccumulator.
Record t := {
  in_flight : list (Z * Z);
  call_us : list Z;
  residence_us : list Z;
  submissions_total : Z;
  outputs_total : Z;
  output_calls_total : Z;
  last_submission_at : option Z;
  last_output_at : option Z;
  unmatched_outputs : Z;
  unmatched_submissions : Z;
  duplicate_timestamps : Z;
  epoch : Z;
  epoch_started_at : option Z
}.

Definition default : t := {|
  in_flight := []; call_us := []; residence_us := []; submissions_total := 0; outputs_total := 0;
  output_calls_total := 0; last_submission_at := None; last_output_at := None; unmatched_outputs := 0;
  unmatched_submissions := 0; duplicate_timestamps := 0; epoch := 0; epoch_started_at := None |}.

Definition clear (self : t) (now : Z) : t :=
  let retired := zlen (in_flight self) in
  let self := self <| in_flight := [] |> in
  let self := self <| unmatched_submissions := saturating_add64 (unmatched_submissions self) retired |> in
  let self := self <| epoch := saturating_add64 (epoch self) 1 |> in
  self <| epoch_started_at := Some now |>.

Definition is_timestamp (timestamp_us : Z) (entry : Z * Z) : bool := entry.1 =? timestamp_us.

(** The eviction loop of [record_submission]. *)
Fixpoint evict_oldest (queue : list (Z * Z)) (unmatched : Z) : list (Z * Z) * Z :=
  if IN_FLIGHT_CAPACITY <=? zlen queue
  then match queue with
       | [] => ([], unmatched)
       | _ :: queue => evict_oldest queue (saturating_add64 unmatched 1)
       end
  else (queue, unmatched).

Definition record_submission (self : t) (timestamp_us at_ : Z) : t :=
  let self := if existsb (is_timestamp timestamp_us) (in_flight self)
    then self <| duplicate_timestamps := saturating_add64 (duplicate_timestamps self) 1 |> else self in
  let '(queue, unmatched) := evict_oldest (in_flight self) (unmatched_submissions self) in
  let self := self <| unmatched_submissions := unmatched |> in
  let self := self <| in_flight := queue ++ [(timestamp_us, at_)] |> in
  let self := self <| submissions_total := saturating_add64 (submissions_total self) 1 |> in
  self <| last_submission_at := Some at_ |>.

Definition record_output (self : t) (timestamp_us at_ : Z) : t :=
  let self := self <| outputs_total := saturating_add64 (outputs_total self) 1 |> in
  let self := self <| last_output_at := Some at_ |> in
  match take_first (is_timestamp timestamp_us) (in_flight self) with
  | None => self <| unmatched_outputs := saturating_add64 (unmatched_outputs self) 1 |>
  | Some ((_, submitted_at), queue) =>
      let self := self <| in_flight := queue |> in
      self <| residence_us := push_sample (residence_us self) (saturating_duration_since at_ submitted_at) |>
  end.

Definition record_call (self : t) (duration : Z) (produced_output : bool) : t :=
  if negb produced_output then self else
  let self := self <| output_calls_total := saturating_add64 (output_calls_total self) 1 |> in
  self <| call_us := push_sample (call_us self) duration |>.

Definition snapshot (self : t) : outcome Empty_set DecodeTimings.t :=
  call ← summarize_us (call_us self);
  residence ← summarize_us (residence_us self);
  mret {|
    DecodeTimings.call := call; DecodeTimings.residence := residence;
    DecodeTimings.call_window_samples := zlen (call_us self);
    DecodeTimings.residence_window_samples := zlen (residence_us self);
    DecodeTimings.submissions_total := submissions_total self;
    DecodeTimings.outputs_total := outputs_total self;
    DecodeTimings.output_calls_total := output_calls_total self;
    DecodeTimings.last_submission_at := last_submission_at self;
    DecodeTimings.last_output_at := last_output_at self;
    DecodeTimings.in_flight := zlen (in_flight self);
    DecodeTimings.oldest_in_flight_at := snd <$> head (in_flight self);
    DecodeTimings.epoch := epoch self;
    DecodeTimings.epoch_started_at := epoch_started_at self;
    DecodeTimings.unmatched_outputs := unmatched_outputs self;
    DecodeTimings.unmatched_submissions := unmatched_submissions self;
    DecodeTimings.duplicate_timestamps := duplicate_timestamps self |}.
End DecodeTimingAccumulator.

(** ** The watchdog *)
Record DecodeProgressPolicy := { decode_stall : Z; decode_grace : Z }.
Inductive DecodeProgressStage := DecodeTracking | DecodeKeyframePending | DecodeRecoveryRequired.
Inductive DecodeProgressEvent :=
  | DecodeKeyframeRequested (idle_for in_flight : Z)
  | DecodeRecoveryNeeded (idle_for in_flight : Z).

Module DecodeProgressWatchdog.
Record t := {
  stage : DecodeProgressStage;
  keyframe_requested_at : option Z;
  decoder_epoch : option Z;
  unsubmitted_since : option Z
}.
Definition default : t := {| stage := DecodeTracking; keyframe_requested_at := None; decoder_epoch := None; unsubmitted_since := None |}.

Definition clear_episode (self : t) : t :=
  {| stage := DecodeTracking; keyframe_requested_at := None; decoder_epoch := decoder_epoch self;
     unsubmitted_since := unsubmitted_since self |}.
Definition since (self : t) (at_ : option Z) : t :=
  {| stage := stage self; keyframe_requested_at := keyframe_requested_at self; decoder_epoch := decoder_epoch self;
     unsubmitted_since := at_ |}.
(** [clear_episode] and [unsubmitted_since = None] *)
Definition rest (self : t) : t := since (clear_episode self) None.

(** A new decoder epoch starts over. *)
Definition enter_epoch (self : t) (epoch : Z) : t :=
  if bool_decide (decoder_epoch self = Some epoch) then self else
  {| stage := DecodeTracking; keyframe_requested_at := None; decoder_epoch := Some epoch; unsubmitted_since := None |}.

(** Frames are being assembled that the decoder has produced nothing after. *)
Definition starving (timings : DecodeTimings.t) (last_assembled_at : option Z) (now : Z) (policy : DecodeProgressPolicy) : bool :=
  match last_assembled_at with
  | Some assembled =>
      (saturating_duration_since now assembled <? decode_stall policy)
      && match DecodeTimings.last_output_at timings with Some output => output <? assembled | None => true end
  | None => false
  end.

(** The time since which the decoder is expected to make progress; [None] is
    an early return. *)
Definition reference (self : t) (timings : DecodeTimings.t) (last_assembled_at : option Z) (now : Z) (policy : DecodeProgressPolicy)
    : t * option Z :=
  if DecodeTimings.in_flight timings =? 0 then
    if negb (starving timings last_assembled_at now policy) then (rest self, None) else
    let first := match unsubmitted_since self with Some first => first | None => now end in
    let self := since self (Some first) in
    if match DecodeTimings.last_output_at timings with Some output => first <=? output | None => false end
    then (rest self, None) else (self, Some first)
  else
    (since self None, DecodeTimings.progress_reference timings).

(** Escalation, once the reference is known. *)
Definition escalate (self : t) (idle_for in_flight now : Z) (policy : DecodeProgressPolicy) : t * option DecodeProgressEvent :=
  match stage self with
  | DecodeTracking =>
      ({| stage := DecodeKeyframePending; keyframe_requested_at := Some now; decoder_epoch := decoder_epoch self;
          unsubmitted_since := unsubmitted_since self |}, Some (DecodeKeyframeRequested idle_for in_flight))
  | DecodeKeyframePending =>
      let grace_started := match keyframe_requested_at self with Some at_ => at_ | None => now end in
      if saturating_duration_since now grace_started <? decode_grace policy then (self, None) else
      ({| stage := DecodeRecoveryRequired; keyframe_requested_at := keyframe_requested_at self;
          decoder_epoch := decoder_epoch self; unsubmitted_since := unsubmitted_since self |},
       Some (DecodeRecoveryNeeded idle_for in_flight))
  | DecodeRecoveryRequired => (self, None)
  end.

Definition poll (self : t) (timings : DecodeTimings.t) (upstream_stalled : bool) (last_assembled_at : option Z) (now : Z)
    (policy : DecodeProgressPolicy) : t * option DecodeProgressEvent :=
  let self := enter_epoch self (DecodeTimings.epoch timings) in
  match stage self with
  | DecodeRecoveryRequired => (self, None)
  | _ =>
      if upstream_stalled then (rest self, None) else
      match reference self timings last_assembled_at now policy with
      | (self, None) => (self, None)
      | (self, Some reference) =>
          let idle_for := saturating_duration_since now reference in
          if idle_for <? decode_stall policy then (clear_episode self, None) else
          escalate self idle_for (DecodeTimings.in_flight timings) now policy
      end
  end.
End DecodeProgressWatchdog.

(** ** Accounting *)
Import DecodeTimingAccumulator.

Inductive decode_event :=
  | Submission (timestamp_us at_ : Z)
  | Output (timestamp_us at_ : Z)
  | Call (duration : Z) (produced_output : bool)
  | Cleared (at_ : Z).

Definition decode_step (s : t) (e : decode_event) : t :=
  match e with
  | Submission timestamp_us at_ => record_submission s timestamp_us at_
  | Output timestamp_us at_ => record_output s timestamp_us at_
  | Call duration produced_output => record_call s duration produced_output
  | Cleared at_ => clear s at_
  end.

Definition is_submission (e : decode_event) : bool := match e with Submission _ _ => true | _ => false end.
Definition is_output (e : decode_event) : bool := match e with Output _ _ => true | _ => false end.
Definition is_cleared (e : decode_event) : bool := match e with Cleared _ => true | _ => false end.
Definition happened (p : decode_event -> bool) (es : list decode_event) : Z := zlen (List.filter p es).

Lemma happened_snoc p es e : happened p (es ++ [e]) = happened p es + (if p e then 1 else 0).
Proof. unfold happened. rewrite List.filter_app, zlen_app. cbn. by destruct (p e). Qed.
Lemma happened_le p es : 0 <= happened p es <= zlen es.
Proof. unfold happened, zlen. pose proof (List.filter_length_le p es). lia. Qed.

(** [es]: what the probe has been told. *)
Record decode_ok (es : list decode_event) (s : t) : Prop := {
  do_submissions : submissions_total s = happened is_submission es;
  do_outputs : outputs_total s = happened is_output es;
  do_epoch : epoch s = happened is_cleared es;
  do_submitted : submissions_total s = (outputs_total s - unmatched_outputs s) + unmatched_submissions s + zlen (in_flight s);
  do_unmatched : 0 <= unmatched_outputs s <= outputs_total s;
  do_lost : 0 <= unmatched_submissions s;
  do_in_flight : zlen (in_flight s) <= IN_FLIGHT_CAPACITY;
  do_windows : zlen (call_us s) <= STAGE_SAMPLE_CAPACITY /\ zlen (residence_us s) <= STAGE_SAMPLE_CAPACITY
}.

Lemma evict_oldest_spec q u :
  zlen q <= IN_FLIGHT_CAPACITY -> 0 <= u < U64_MAX ->
  exists q', evict_oldest q u = (q', u + zlen q - zlen q') /\ zlen q' < IN_FLIGHT_CAPACITY /\ zlen q' <= zlen q
    /\ q' `suffix_of` q.
Proof.
  unfold IN_FLIGHT_CAPACITY, U64_MAX. intros Hq Hu. destruct q as [|x q].
  { exists []. cbn. rewrite zlen_nil. split; [f_equal; lia|done]. }
  cbn [evict_oldest]. unfold IN_FLIGHT_CAPACITY at 1. rewrite zlen_cons in *. zif.
  - exists q. assert (Hstop : forall v, evict_oldest q v = (q, v)).
    { intros v. destruct q; [done|]. cbn [evict_oldest]. unfold IN_FLIGHT_CAPACITY.
      rewrite (proj2 (Z.leb_gt _ _)); [done|]. lia. }
    rewrite Hstop, saturating_add64_small by lia. split; [f_equal; lia|]. split; [lia|]. split; [lia|]. by exists [x].
  - exists (x :: q). rewrite zlen_cons. split; [f_equal; lia|]. split; [lia|]. split; [lia|done].
Qed.

Lemma decode_step_ok es s e :
  decode_ok es s -> zlen es + IN_FLIGHT_CAPACITY + 1 < U64_MAX -> decode_ok (es ++ [e]) (decode_step s e).
Proof.
  intros Hok Hn. pose proof (happened_le is_submission es). pose proof (happened_le is_output es).
  pose proof (happened_le is_cleared es). pose proof (zlen_nonneg (in_flight s)). unfold IN_FLIGHT_CAPACITY, U64_MAX in Hn.
  destruct Hok. destruct e as [ts at_|ts at_|d b|at_]; cbn [decode_step].
  - unfold record_submission.
    set (s0 := if existsb _ _ then _ else s).
    assert (Hs0 : in_flight s0 = in_flight s /\ unmatched_submissions s0 = unmatched_submissions s
      /\ submissions_total s0 = submissions_total s /\ outputs_total s0 = outputs_total s
      /\ unmatched_outputs s0 = unmatched_outputs s /\ epoch s0 = epoch s
      /\ call_us s0 = call_us s /\ residence_us s0 = residence_us s) by (unfold s0; by destruct (existsb _ _)).
    destruct Hs0 as (E1 & E2 & E3 & E4 & E5 & E6 & E7 & E8). clearbody s0. rewrite E1, E2.
    destruct (evict_oldest_spec (in_flight s) (unmatched_submissions s) do_in_flight0 ltac:(unfold U64_MAX; lia)) as (q & -> & Hq & Hle & _).
    constructor; rewrite ?happened_snoc; cbn; unfold const; rewrite ?E3, ?E4, ?E5, ?E6, ?E7, ?E8,
      ?zlen_app, ?(saturating_add64_small (submissions_total s)) by lia; try done; try lia.
    + change (zlen [(ts, at_)]) with 1. lia.
    + change (zlen [(ts, at_)]) with 1. lia.
  - unfold record_output. cbn [in_flight set]. unfold const.
    destruct (take_first (is_timestamp ts) _) as [[[r0 sub] q]|] eqn:Ht; cbn in Ht.
    + apply take_first_Some in Ht as (pre & post & Hin & -> & _).
      assert (Hlen : zlen (in_flight s) = zlen (pre ++ post) + 1) by (rewrite Hin, !zlen_app, zlen_cons; lia).
      constructor; rewrite ?happened_snoc; cbn; unfold const; rewrite ?(saturating_add64_small (outputs_total s)) by lia;
        try done; try lia.
      split; [apply do_windows0|apply push_sample_length].
    + constructor; rewrite ?happened_snoc; cbn; unfold const;
        rewrite ?(saturating_add64_small (outputs_total s)), ?(saturating_add64_small (unmatched_outputs s)) by lia; try done; lia.
  - unfold record_call. destruct b; cbn [negb];
      constructor; rewrite ?happened_snoc; cbn; unfold const; rewrite ?Z.add_0_r; try done.
    split; [apply push_sample_length|apply do_windows0].
  - unfold clear. constructor; rewrite ?happened_snoc; cbn; unfold const;
      rewrite ?(saturating_add64_small (unmatched_submissions s)), ?(saturating_add64_small (epoch s)) by
        (unfold IN_FLIGHT_CAPACITY in *; lia); rewrite ?zlen_nil; unfold IN_FLIGHT_CAPACITY in *; try done; lia.
Qed.

Lemma decode_run_ok es : zlen es + IN_FLIGHT_CAPACITY < U64_MAX -> decode_ok es (foldl decode_step default es).
Proof.
  induction es as [|e es IH] using rev_ind; intros Hn.
  - by constructor.
  - rewrite zlen_app in Hn. change (zlen [e]) with 1 in Hn. rewrite foldl_snoc. apply decode_step_ok; [apply IH|]; lia.
Qed.

(** The percentiles of a window, in whole microseconds. *)
Lemma percentile_us_spec samples percentile :
  samples <> [] -> 1 <= percentile <= 100 ->
  exists x, percentile_us (merge_sort Z.le samples) percentile = Ok (x / 1000) /\ nearest_rank percentile samples x.
Proof.
  intros Hne Hp. destruct (percentile_spec samples percentile Hne Hp) as (i & x & Hi & Ei & _ & Hx).
  exists x. split; [|exact Hx]. pose proof (lookup_lt_Some _ _ _ Hi) as Hlt.
  assert (Hlen : zlen (merge_sort Z.le samples) = zlen samples) by (unfold zlen; by rewrite merge_sort_Permutation).
  unfold percentile_us. rewrite Hlen.
  assert (Hr : Z.min (Z.max (div_ceil (zlen samples * percentile) 100) 1) (zlen samples) = Z.of_nat i + 1).
  { unfold zlen in *. lia. }
  rewrite Hr. unfold checked_sub. rewrite (proj2 (Z.leb_le 1 _)) by lia. cbn [expect]. obind.
  replace (Z.of_nat i + 1 - 1) with (Z.of_nat i) by lia.
  destruct (idx_Ok (E:=Empty_set) (merge_sort Z.le samples) (Z.of_nat i)) as (y & Hy & Hget); [unfold zlen in *; lia|].
  rewrite zget_lookup, Nat2Z.id, Hi in Hget by lia. injection Hget as ->. rewrite Hy. by obind.
Qed.

Lemma summarize_us_spec samples :
  (samples = [] /\ summarize_us samples = Ok None)
  \/ exists a b c, summarize_us samples = Ok (Some {| p50_us := a / 1000; p95_us := b / 1000; max_us := c / 1000 |})
      /\ nearest_rank 50 samples a /\ nearest_rank 95 samples b /\ c ∈ samples /\ Forall (fun x => x <= c) samples.
Proof.
  destruct samples as [|s samples]; [by left|right]. unfold summarize_us.
  destruct (percentile_us_spec (s :: samples) 50 ltac:(done) ltac:(lia)) as (a & -> & Ha). obind.
  destruct (percentile_us_spec (s :: samples) 95 ltac:(done) ltac:(lia)) as (b & -> & Hb). obind.
  destruct (summarize_spec (s :: samples)) as [(? & _)|(a' & b' & c & _ & _ & _ & Hc & Hmax & _)]; [done|].
  set (l := s :: samples) in *.
  assert (Hperm : merge_sort Z.le l ≡ₚ l) by apply merge_sort_Permutation.
  assert (Hss : StronglySorted Z.le (merge_sort Z.le l)) by (apply (StronglySorted_merge_sort Z.le); intros ? ?; lia).
  destruct (last (merge_sort Z.le l)) as [z|] eqn:Hz.
  2:{ apply last_None in Hz. rewrite Hz in Hperm. by apply Permutation_nil_l in Hperm. }
  cbn [expect]. obind.
  assert (z = c) as ->.
  { apply last_Some in Hz as (k & Hk). rewrite Forall_forall in Hmax.
    assert (z <= c) by (apply Hmax; rewrite <- Hperm, Hk; set_solver).
    rewrite <- Hperm, Hk in Hc. rewrite Hk in Hss. apply StronglySorted_app in Hss as (H1 & _ & _).
    apply elem_of_app in Hc as [Hc|Hc]; [specialize (H1 c z Hc ltac:(set_solver)); lia|set_solver]. }
  exists a, b, c. by split.
Qed.

(** Every submission is accounted for.  Whatever the decoder's calls report,
    in any order (fewer than 2^64 - 65 reports): the snapshot is produced
    without a panic; the submissions are those an output was matched to, those
    given up and those in flight, of which there are at most 64; every output
    was matched or counted as unmatched; the epoch counts the resets; and each
    window of at most 256 samples is summarised by its nearest-rank median and
    95th percentile and its maximum, in whole microseconds. *)
Theorem decode_submissions_accounted (es : list decode_event) (Hn : zlen es + IN_FLIGHT_CAPACITY < U64_MAX) :
  exists snap, snapshot (foldl decode_step default es) = Ok snap
    /\ DecodeTimings.submissions_total snap = happened is_submission es
    /\ DecodeTimings.outputs_total snap = happened is_output es
    /\ DecodeTimings.epoch snap = happened is_cleared es
    /\ happened is_submission es
       = (happened is_output es - DecodeTimings.unmatched_outputs snap) + DecodeTimings.unmatched_submissions snap
         + DecodeTimings.in_flight snap
    /\ 0 <= DecodeTimings.unmatched_outputs snap <= happened is_output es
    /\ 0 <= DecodeTimings.in_flight snap <= IN_FLIGHT_CAPACITY
    /\ (DecodeTimings.in_flight snap = 0 <-> DecodeTimings.oldest_in_flight_at snap = None)
    /\ DecodeTimings.residence_window_samples snap <= STAGE_SAMPLE_CAPACITY
    /\ match DecodeTimings.residence snap with
       | None => residence_us (foldl decode_step default es) = []
       | Some summary => exists a b c, summary = {| p50_us := a / 1000; p95_us := b / 1000; max_us := c / 1000 |}
           /\ nearest_rank 50 (residence_us (foldl decode_step default es)) a
           /\ nearest_rank 95 (residence_us (foldl decode_step default es)) b
           /\ c ∈ residence_us (foldl decode_step default es)
           /\ Forall (fun x => x <= c) (residence_us (foldl decode_step default es))
       end.
Proof.
  pose proof (decode_run_ok es Hn) as Hok. set (s := foldl decode_step default es) in *. clearbody s.
  assert (Hsum : forall l, exists x, summarize_us l = Ok x).
  { intros l. destruct (summarize_us_spec l) as [(_ & ->)|(a & b & c & -> & _)]; by eexists. }
  unfold snapshot. destruct (Hsum (call_us s)) as (x & ->). obind.
  destruct (Hsum (residence_us s)) as (y & Hy). rewrite Hy. obind. eexists. split; [reflexivity|]. cbn.
  pose proof (zlen_nonneg (in_flight s)). destruct Hok.
  split; [done|]. split; [done|]. split; [done|]. split; [lia|]. split; [lia|]. split; [lia|].
  split; [by destruct (in_flight s) as [|? l]; cbn; [|rewrite zlen_cons; pose proof (zlen_nonneg l); split; [lia|done]]|].
  split; [apply do_windows0|].
  destruct (summarize_us_spec (residence_us s)) as [(Hnil & He)|(a & b & c & He & Hs)]; rewrite He in Hy; injection Hy as <-; [done|].
  exists a, b, c. by split.
Qed.

Lemma decode_submissions_accounted_witness :
  let es := [Submission 1000 0; Submission 2000 1000000; Output 2000 5000000; Output 9 6000000; Cleared 7000000; Submission 3000 8000000] in
  zlen es + IN_FLIGHT_CAPACITY < U64_MAX
  /\ exists snap, snapshot (foldl decode_step default es) = Ok snap
    /\ 3 = (2 - DecodeTimings.unmatched_outputs snap) + DecodeTimings.unmatched_submissions snap + DecodeTimings.in_flight snap.
Proof.
  intros es. assert (Hn : zlen es + IN_FLIGHT_CAPACITY < U64_MAX) by reflexivity. split; [exact Hn|].
  destruct (decode_submissions_accounted es Hn) as (snap & Hs & _ & _ & _ & Hb & _). exists snap. split; [exact Hs|exact Hb].
Defined.

(** ** The watchdog's answers *)
Import DecodeProgressWatchdog.

(** What the watchdog is shown at a poll. *)
Record decode_poll := {
  dp_timings : DecodeTimings.t;
  dp_upstream_stalled : bool;
  dp_last_assembled_at : option Z;
  dp_now : Z
}.

Section Watchdog.
Variable policy : DecodeProgressPolicy.

Definition poll_one (self : DecodeProgressWatchdog.t) (p : decode_poll) : DecodeProgressWatchdog.t * option DecodeProgressEvent :=
  poll self (dp_timings p) (dp_upstream_stalled p) (dp_last_assembled_at p) (dp_now p) policy.

Fixpoint poll_decode (self : DecodeProgressWatchdog.t) (polls : list decode_poll)
    : DecodeProgressWatchdog.t * list (option DecodeProgressEvent) :=
  match polls with
  | [] => (self, [])
  | p :: polls =>
      let '(self, event) := poll_one self p in
      let '(self, events) := poll_decode self polls in (self, event :: events)
  end.

(** What a decoder that has made no progress since [r], with [n] frames in
    flight, is answered: [watching_decoder] before the keyframe request,
    [awaiting_keyframe] after it. *)
Fixpoint silent_decoder (r n : Z) (requested : option Z) (times : list Z) : list (option DecodeProgressEvent) :=
  match times with
  | [] => []
  | now :: times =>
      if now <? r + decode_stall policy then None :: silent_decoder r n None times else
      match requested with
      | None => Some (DecodeKeyframeRequested (now - r) n) :: silent_decoder r n (Some now) times
      | Some started =>
          if now <? started + decode_grace policy then None :: silent_decoder r n requested times
          else Some (DecodeRecoveryNeeded (now - r) n) :: map (fun _ => None) times
      end
  end.

Definition stage_of (requested : option Z) (w : DecodeProgressWatchdog.t) : Prop :=
  match requested with
  | None => stage w = DecodeTracking
  | Some started => stage w = DecodeKeyframePending /\ keyframe_requested_at w = Some started
  end.

Lemma after_recovery polls : forall w e,
  stage w = DecodeRecoveryRequired -> decoder_epoch w = Some e ->
  Forall (fun p => DecodeTimings.epoch (dp_timings p) = e) polls ->
  (poll_decode w polls).2 = map (fun _ => None) polls.
Proof.
  induction polls as [|p polls IH]; intros w e Hs He Hp; [done|]. apply Forall_cons in Hp as (Hpe & Hp).
  cbn [poll_decode map]. unfold poll_one, poll, enter_epoch. rewrite Hpe, He, bool_decide_eq_true_2, Hs by done.
  specialize (IH w e Hs He Hp). destruct (poll_decode w polls). cbn in *. by rewrite IH.
Qed.

Lemma silent_test now r limit : 0 < limit -> (saturating_duration_since now r <? limit) = (now <? r + limit).
Proof.
  intros. unfold saturating_duration_since. destruct (Z.ltb_spec (Z.max 0 (now - r)) limit), (Z.ltb_spec now (r + limit)); lia.
Qed.

Lemma poll_silent polls : forall w e r n requested,
  0 < decode_stall policy -> 0 < decode_grace policy -> n <> 0 ->
  decoder_epoch w = Some e -> stage_of requested w ->
  Forall (fun p => DecodeTimings.epoch (dp_timings p) = e /\ DecodeTimings.in_flight (dp_timings p) = n
    /\ DecodeTimings.progress_reference (dp_timings p) = Some r /\ dp_upstream_stalled p = false) polls ->
  (poll_decode w polls).2 = silent_decoder r n requested (map dp_now polls).
Proof.
  induction polls as [|p polls IH]; intros w e r n requested Hstall Hgrace Hn He Hstage Hp; [done|].
  apply Forall_cons in Hp as ((Hpe & Hpn & Hpr & Hpu) & Hp). cbn [poll_decode map silent_decoder].
  unfold poll_one at 1. unfold poll, enter_epoch. rewrite Hpe, He, bool_decide_eq_true_2, Hpu by done.
  unfold reference. rewrite Hpn, (proj2 (Z.eqb_neq n 0)), Hpr by done. rewrite silent_test by done.
  assert (Hnot : stage w = DecodeTracking \/ stage w = DecodeKeyframePending) by (destruct requested; [right|left]; apply Hstage).
  destruct (Z.ltb_spec (dp_now p) (r + decode_stall policy)) as [Hlt|Hge].
  - assert (Hw : forall x : DecodeProgressWatchdog.t * option DecodeProgressEvent,
      (match stage w with DecodeRecoveryRequired => (w, None) | _ => x end) = x) by (by destruct Hnot as [-> | ->]).
    rewrite Hw.
    specialize (IH (clear_episode (since w None)) e r n None Hstall Hgrace Hn He eq_refl Hp).
    destruct (poll_decode _ polls). cbn in *. by rewrite IH.
  - unfold escalate. cbn [since stage keyframe_requested_at]. destruct requested as [started|]; cbn in Hstage.
    + destruct Hstage as (Hs & Hk). rewrite Hs, Hk. rewrite silent_test by done.
      destruct (Z.ltb_spec (dp_now p) (started + decode_grace policy)) as [Hlt'|Hge'].
      * specialize (IH (since w None) e r n (Some started) Hstall Hgrace Hn He (conj Hs Hk) Hp).
        destruct (poll_decode _ polls). cbn in *. by rewrite IH.
      * match goal with |- context [poll_decode ?w' polls] => set (self' := w') end.
        pose proof (after_recovery polls self' e eq_refl He (Forall_impl _ _ _ Hp (fun _ H => proj1 H))) as Hrest.
        destruct (poll_decode self' polls). cbn in *. rewrite Hrest, map_map. unfold saturating_duration_since. by rewrite Z.max_r by lia.
    + rewrite Hstage. match goal with |- context [poll_decode ?w' polls] => set (self' := w') end.
      specialize (IH self' e r n (Some (dp_now p)) Hstall Hgrace Hn He (conj eq_refl eq_refl) Hp).
      destruct (poll_decode self' polls). cbn in *. rewrite IH. unfold saturating_duration_since. by rewrite Z.max_r by lia.
Qed.
End Watchdog.


Section Justified.
Variable policy : DecodeProgressPolicy.

(** A poll that shows frames arriving while the decoder holds none and has
    produced nothing after them. *)
Definition starved (epoch : Z) (p : decode_poll) : Prop :=
  DecodeTimings.epoch (dp_timings p) = epoch /\ dp_upstream_stalled p = false
  /\ DecodeTimings.in_flight (dp_timings p) = 0
  /\ starving (dp_timings p) (dp_last_assembled_at p) (dp_now p) policy = true.

(** [before]: the polls so far.  While [unsubmitted_since] is set, every poll
    since then was starved. *)
Definition watch_ok (before : list decode_poll) (w : DecodeProgressWatchdog.t) : Prop :=
  forall first, stage w <> DecodeRecoveryRequired -> unsubmitted_since w = Some first ->
    exists old p recent, before = old ++ p :: recent /\ dp_now p = first
      /\ exists epoch, decoder_epoch w = Some epoch /\ Forall (starved epoch) (p :: recent).

Definition justified (before : list decode_poll) (p : decode_poll) : Prop :=
  dp_upstream_stalled p = false
  /\ exists r, decode_stall policy <= Z.max 0 (dp_now p - r)
    /\ (DecodeTimings.in_flight (dp_timings p) <> 0 /\ DecodeTimings.progress_reference (dp_timings p) = Some r
        \/ exists old q recent, before ++ [p] = old ++ q :: recent /\ dp_now q = r
           /\ Forall (starved (DecodeTimings.epoch (dp_timings p))) (q :: recent)
           /\ forall output, DecodeTimings.last_output_at (dp_timings p) = Some output -> output < r).

Lemma idle_watch before w : unsubmitted_since w = None -> watch_ok before w.
Proof. intros Hw first _. congruence. Qed.

Lemma enter_epoch_ok before w e : watch_ok before w -> watch_ok before (enter_epoch w e) /\ decoder_epoch (enter_epoch w e) = Some e.
Proof. unfold enter_epoch. case_bool_decide; [done|]. intros _. split; [by apply idle_watch|done]. Qed.

(** The reference of a poll and the state it leaves. *)
Lemma reference_ok before w p w' o :
  watch_ok before w -> stage w <> DecodeRecoveryRequired -> decoder_epoch w = Some (DecodeTimings.epoch (dp_timings p)) -> dp_upstream_stalled p = false ->
  reference w (dp_timings p) (dp_last_assembled_at p) (dp_now p) policy = (w', o) ->
  watch_ok (before ++ [p]) w' /\ (forall r, o = Some r -> decode_stall policy <= Z.max 0 (dp_now p - r) -> justified before p).
Proof.
  intros Hw Hstage He Hu. unfold reference. destruct (Z.eqb_spec (DecodeTimings.in_flight (dp_timings p)) 0) as [H0|H0].
  2: { intros [= <- <-]. split; [by apply idle_watch|]. intros r Hr Hs. split; [done|]. exists r. split; [done|]. by left. }
  destruct (starving _ _ _ _) eqn:Hst; cbn [negb]; [|intros [= <- <-]; split; [by apply idle_watch|done]].
  set (first := match unsubmitted_since w with Some first => first | None => dp_now p end).
  destruct (match DecodeTimings.last_output_at (dp_timings p) with Some output => first <=? output | None => false end) eqn:Hout;
    [intros [= <- <-]; split; [by apply idle_watch|done]|].
  assert (Hp : starved (DecodeTimings.epoch (dp_timings p)) p) by done.
  assert (Hrun : exists old q recent, before ++ [p] = old ++ q :: recent /\ dp_now q = first
    /\ Forall (starved (DecodeTimings.epoch (dp_timings p))) (q :: recent)).
  { unfold first. destruct (unsubmitted_since w) as [f|] eqn:Hf.
    - destruct (Hw f Hstage Hf) as (old & q & recent & -> & Hq & e & He' & Hall). rewrite He in He'. injection He' as <-.
      exists old, q, (recent ++ [p]). split; [by rewrite <- app_assoc|]. split; [done|].
      change (q :: recent ++ [p]) with ((q :: recent) ++ [p]). apply Forall_app. split; [done|]. by repeat constructor.
    - exists before, p, []. split; [done|]. split; [done|]. by repeat constructor. }
  destruct Hrun as (old & q & recent & Happ & Hq & Hall). intros [= <- <-]. split.
  - intros f _ [= <-]. exists old, q, recent. split; [done|]. split; [done|]. by exists (DecodeTimings.epoch (dp_timings p)).
  - intros r [= <-] Hs. split; [done|]. exists first. split; [done|]. right. exists old, q, recent.
    split; [done|]. split; [done|]. split; [done|]. intros output Ho. rewrite Ho in Hout. lia.
Qed.

Lemma poll_one_ok before w p :
  watch_ok before w ->
  watch_ok (before ++ [p]) (poll_one policy w p).1
  /\ ((poll_one policy w p).2 <> None -> justified before p).
Proof.
  intros Hw. unfold poll_one, poll.
  destruct (enter_epoch_ok _ w (DecodeTimings.epoch (dp_timings p)) Hw) as (Hw1 & He).
  set (w1 := enter_epoch w _) in *. clearbody w1. clear w Hw.
  assert (Hrest : watch_ok (before ++ [p]) (rest w1)) by (by apply idle_watch).
  assert (Hgo : stage w1 <> DecodeRecoveryRequired ->
    let out := if dp_upstream_stalled p then (rest w1, None) else
      match reference w1 (dp_timings p) (dp_last_assembled_at p) (dp_now p) policy with
      | (self, None) => (self, None)
      | (self, Some reference) =>
          if saturating_duration_since (dp_now p) reference <? decode_stall policy then (clear_episode self, None)
          else escalate self (saturating_duration_since (dp_now p) reference) (DecodeTimings.in_flight (dp_timings p)) (dp_now p) policy
      end in
    watch_ok (before ++ [p]) out.1 /\ (out.2 <> None -> justified before p)).
  { intros Hst. destruct (dp_upstream_stalled p) eqn:Hu; [done|].
    destruct (reference w1 (dp_timings p) (dp_last_assembled_at p) (dp_now p) policy) as [w2 o] eqn:Href.
    destruct (reference_ok _ _ _ _ _ Hw1 Hst He Hu Href) as (Hw2 & Hjust).
    destruct o as [r|]; [|done]. destruct (Z.ltb_spec (saturating_duration_since (dp_now p) r) (decode_stall policy)) as [|Hge].
    - cbn. split; [|done]. intros f _ Hf. cbn in Hf. apply Hw2; [|exact Hf].
      unfold reference in Href. repeat case_match; simplify_eq; done.
    - split; [|intros _; by apply (Hjust r)]. unfold escalate. destruct (stage w2) eqn:Hs2; cbn.
      + intros f _ Hf. apply Hw2; [by rewrite Hs2|exact Hf].
      + destruct (_ <? _); [done|]. by intros f [].
      + intros f []. exact Hs2. }
  destruct (stage w1) eqn:Hs1; [by apply Hgo..|]. cbn. split; [|done]. by intros f [].
Qed.

Lemma poll_decode_app w before after :
  poll_decode policy w (before ++ after)
  = ((poll_decode policy (poll_decode policy w before).1 after).1,
     (poll_decode policy w before).2 ++ (poll_decode policy (poll_decode policy w before).1 after).2).
Proof.
  revert w. induction before as [|p before IH]; intros w; cbn [app poll_decode fst snd].
  - by destruct (poll_decode policy w after).
  - destruct (poll_one policy w p) as [w1 event]. rewrite IH. by destruct (poll_decode policy w1 before) as [w2 l].
Qed.

Lemma watch_run before : watch_ok before (poll_decode policy default before).1.
Proof.
  induction before as [|p before IH] using rev_ind; [by apply idle_watch|].
  rewrite poll_decode_app. cbn [fst]. destruct (poll_one_ok _ _ p IH) as (H & _). cbn.
  by destruct (poll_one policy (poll_decode policy default before).1 p).
Qed.
End Justified.

(** The watchdog has a reason.  Whatever it has been shown before, when a
    poll makes it ask for a keyframe or for recovery, the transport is not
    stalled and the decoder has made no progress for the stall limit: either
    frames are in flight and its last progress (its last output of this epoch,
    or the oldest submission it still holds) is that old; or for that long, at
    every poll, frames kept arriving while the decoder held none and had
    produced nothing since the first of those polls. *)
Theorem watchdog_events_justified (policy : DecodeProgressPolicy) (before : list decode_poll) (p : decode_poll)
    (event : DecodeProgressEvent)
    (Hevent : (poll_decode policy default (before ++ [p])).2 = (poll_decode policy default before).2 ++ [Some event]) :
  justified policy before p.
Proof.
  rewrite poll_decode_app in Hevent. cbn [snd] in Hevent. apply app_inv_head in Hevent.
  destruct (poll_one_ok policy _ _ p (watch_run policy before)) as (_ & H). apply H.
  cbn [poll_decode] in Hevent. destruct (poll_one policy _ p) as [w1 o]. injection Hevent as ->. done.
Qed.

(** The decoder holds a frame since 10 and answers nothing. *)
Definition quiet_timings : DecodeTimings.t := {|
  DecodeTimings.call := None; DecodeTimings.residence := None; DecodeTimings.call_window_samples := 0;
  DecodeTimings.residence_window_samples := 0; DecodeTimings.submissions_total := 1; DecodeTimings.outputs_total := 0;
  DecodeTimings.output_calls_total := 0; DecodeTimings.last_submission_at := Some 10; DecodeTimings.last_output_at := None;
  DecodeTimings.in_flight := 1; DecodeTimings.oldest_in_flight_at := Some 10; DecodeTimings.epoch := 0;
  DecodeTimings.epoch_started_at := None; DecodeTimings.unmatched_outputs := 0; DecodeTimings.unmatched_submissions := 0;
  DecodeTimings.duplicate_timestamps := 0 |}.
Definition quiet_poll (now : Z) : decode_poll :=
  {| dp_timings := quiet_timings; dp_upstream_stalled := false; dp_last_assembled_at := Some now; dp_now := now |}.
Definition quiet_policy : DecodeProgressPolicy := {| decode_stall := 8; decode_grace := 4 |}.


Lemma watchdog_events_justified_witness : justified quiet_policy [quiet_poll 12] (quiet_poll 18).
Proof. by apply (watchdog_events_justified quiet_policy [quiet_poll 12] (quiet_poll 18) (DecodeKeyframeRequested 8 1)). Defined.
