(* ===== verification/ClipReplay.v ===== *)
(** * The instant-replay buffer

    [replay.rs] of the platform crate: the last seconds of compressed video and
    audio, kept within a memory budget so that a clip can be saved at any time.
    [ReplayTap] runs each method in one critical section of its buffer, apart
    from the flags around it; a frame that finds the buffer locked only sets
    [reset].  The reservation is shared with the saving worker, whose end is
    [release].  Durations are unbounded integers of nanoseconds. *)

From stdpp Require Import strings.
From Stdlib Require Import Floats.SpecFloat.
From S2P Require Import Prelude F64 VideoQueue.

Definition MAX_FRAMES : Z := 32768.
Definition FRAME_OVERHEAD : Z := 256.

(** [x.div_euclid] rounded to nearest, ties to even. *)
Definition round_half_even (x d : Z) : Z :=
  let q := x / d in
  let r := x mod d in
  if (2 * r <? d) || ((2 * r =? d) && Z.even q) then q else q + 1.
(** [Duration::from_secs_f64] of a value that is not negative. *)
Definition from_secs_f64 (x : f64) : Z :=
  match x with
  | S754_finite false m e =>
      if 0 <=? e then Zpos m * 2 ^ e * 1000000000 else round_half_even (Zpos m * 1000000000) (2 ^ (- e))
  | _ => 0
  end.

Record ReplayBufferConfig := { rb_enabled : bool; rb_memory_bytes : Z; rb_duration : Z }.
Record ReplayFrame := { rf_frame : EncodedFrame; rf_time : Z }.

Module Clock.
Record t := { timestamp : Z; rate : Z; time : Z; codec : MediaCodec }.

(** [None] leaves the clock alone. *)
Definition delta (self : t) (frame : EncodedFrame) : option Z :=
  if (timestamp self <=? U32_MAX) && (ef_timestamp frame <=? U32_MAX)
  then Some (as_u32 (as_u32 (ef_timestamp frame) - as_u32 (timestamp self)))
  else checked_sub (ef_timestamp frame) (timestamp self).
Definition advance (self : t) (frame : EncodedFrame) : option t :=
  if (ef_clock_rate_hz frame =? 0) || negb (rate self =? ef_clock_rate_hz frame)
     || negb (bool_decide (codec self = ef_codec frame)) then None else
  delta ← delta self frame;
  if rate self * 10 <? delta then None else
  Some {| timestamp := ef_timestamp frame; rate := rate self;
          time := time self + from_secs_f64 (F64.div (F64.of_Z delta) (F64.of_Z (rate self))); codec := codec self |}.
End Clock.

Module Buffer.
Record t := {
  config : ReplayBufferConfig;
  frames : list ReplayFrame;
  bytes : Z;
  origin : Z;
  video : option Clock.t;
  audio : option Clock.t;
  latest : Z
}.

Definition frame_bytes (frame : EncodedFrame) : Z := zlen (ef_data frame) + Z.of_nat (String.length (ef_mid frame)) + FRAME_OVERHEAD.

Definition clear (self : t) (now : Z) : t :=
  {| config := config self; frames := []; bytes := 0; origin := now; video := None; audio := None; latest := 0 |}.

Definition with_frames (self : t) (frames : list ReplayFrame) (bytes : Z) : t :=
  {| config := config self; frames := frames; bytes := bytes; origin := origin self; video := video self;
     audio := audio self; latest := latest self |}.

(** [self.bytes -=] panics below zero. *)
Definition pop_front (self : t) : outcome Empty_set t :=
  match frames self with
  | first :: rest =>
      bytes ← expect (checked_sub (bytes self) (frame_bytes (rf_frame first)));
      mret (with_frames self rest bytes)
  | [] => mret self
  end.

Definition is_video (frame : EncodedFrame) : bool := match ef_codec frame with CodecOpus _ => false | _ => true end.

(** The clock of the frame's medium: the frame's time, [inl] when the buffer
    starts over and [inr None] when the frame is ignored. *)
Definition set_clock (self : t) (is_video : bool) (clock : Clock.t) : t :=
  {| config := config self; frames := frames self; bytes := bytes self; origin := origin self;
     video := if is_video then Some clock else video self; audio := if is_video then audio self else Some clock;
     latest := latest self |}.
Definition time_frame (self : t) (frame : EncodedFrame) (received_at : Z) : unit + option (t * Z) :=
  match (if is_video frame then video self else audio self) with
  | Some clock =>
      match Clock.advance clock frame with
      | None => inl tt
      | Some clock => inr (Some (set_clock self (is_video frame) clock, Clock.time clock))
      end
  | None =>
      if ef_clock_rate_hz frame =? 0 then inr None else
      let time := saturating_duration_since received_at (origin self) in
      inr (Some (set_clock self (is_video frame)
        {| Clock.timestamp := ef_timestamp frame; Clock.rate := ef_clock_rate_hz frame; Clock.time := time;
           Clock.codec := ef_codec frame |}, time))
  end.

(** The two eviction loops; each turn removes a frame, so the length of the
    buffer is fuel enough. *)
Definition over_limit (self : t) (budget : Z) : bool :=
  (budget <? bytes self) || (MAX_FRAMES <? zlen (frames self))
  || match frames self with
     | first :: _ => rb_duration (config self) <? Z.max 0 (latest self - rf_time first)
     | [] => false
     end.
Definition not_a_start (self : t) : bool :=
  match frames self with
  | first :: _ => negb (ef_keyframe (rf_frame first)) || negb (is_video (rf_frame first))
  | [] => false
  end.
Fixpoint evict_while (fuel : nat) (test : t -> bool) (self : t) : outcome Empty_set t :=
  if test self then
    match fuel with
    | O => Panic
    | S fuel => self ← pop_front self; evict_while fuel test self
    end
  else mret self.
Definition evict (self : t) (test : t -> bool) : outcome Empty_set t := evict_while (S (length (frames self))) test self.

(** The end of [push], with the frame's time. *)
Definition insert (self : t) (frame : EncodedFrame) (time reserved now : Z) : outcome Empty_set t :=
  let self := {| config := config self; frames := frames self; bytes := bytes self; origin := origin self;
                 video := video self; audio := audio self; latest := Z.max (latest self) time |} in
  if match frames self with first :: _ => time <? rf_time first | [] => false end then mret self else
  if bool_decide (frames self = []) && negb (is_video frame && ef_keyframe frame) then mret self else
  let budget := Z.max 0 (rb_memory_bytes (config self) - reserved) in
  let added := Z.min U64_MAX (Z.min U64_MAX (zlen (ef_data frame) + Z.of_nat (String.length (ef_mid frame))) + FRAME_OVERHEAD) in
  if budget <? added then mret (clear self now) else
  let self := with_frames self (frames self ++ [{| rf_frame := frame; rf_time := time |}]) (bytes self + added) in
  self ← evict self (fun self => over_limit self budget);
  evict self not_a_start.

Definition push (self : t) (frame : EncodedFrame) (reserved received_at now : Z) : outcome Empty_set t :=
  if negb (ef_contiguous frame) then mret (clear self now) else
  match time_frame self frame received_at with
  | inl _ => mret (clear self now)
  | inr None => mret self
  | inr (Some (self, time)) => insert self frame time reserved now
  end.
End Buffer.

(** What the clip writer gets. *)
Record ReplaySnapshot := { rs_frames : list ReplayFrame; rs_bytes : Z }.
Inductive snapshot_error := ReplayNotEnabled | ClipAlreadySaving | ReplayNotReady.

Module ReplayTap.
Record t := { enabled : bool; reset : bool; buffer : option Buffer.t; reserved : Z }.

Definition start_with_budget (self : t) (config : ReplayBufferConfig) (now : Z) : t :=
  if negb (rb_enabled config) then {| enabled := false; reset := false; buffer := None; reserved := reserved self |} else
  {| enabled := true; reset := false;
     buffer := Some {| Buffer.config := config; Buffer.frames := []; Buffer.bytes := 0; Buffer.origin := now;
                       Buffer.video := None; Buffer.audio := None; Buffer.latest := 0 |};
     reserved := reserved self |}.
Definition stop (self : t) : t := {| enabled := false; reset := false; buffer := None; reserved := reserved self |}.

(** [contended]: the buffer was locked. *)
Definition publish (self : t) (frame : EncodedFrame) (contended : bool) (now : Z) : outcome Empty_set t :=
  if negb (enabled self) then mret self else
  if contended then mret {| enabled := enabled self; reset := true; buffer := buffer self; reserved := reserved self |} else
  match buffer self with
  | None => mret self
  | Some b =>
      let b := if reset self then Buffer.clear b now else b in
      b ← Buffer.push b frame (reserved self) now now;
      mret {| enabled := enabled self; reset := false; buffer := Some b; reserved := reserved self |}
  end.

Definition snapshot (self : t) (now : Z) : t * (snapshot_error + ReplaySnapshot) :=
  match buffer self with
  | None => (self, inl ReplayNotEnabled)
  | Some b =>
      let b := if reset self then Buffer.clear b now else b in
      let self := {| enabled := enabled self; reset := false; buffer := Some b; reserved := reserved self |} in
      if negb (reserved self =? 0) then (self, inl ClipAlreadySaving) else
      if bool_decide (Buffer.frames b = []) then (self, inl ReplayNotReady) else
      ({| enabled := enabled self; reset := false; buffer := Some (Buffer.with_frames b [] 0); reserved := Buffer.bytes b |},
       inr {| rs_frames := Buffer.frames b; rs_bytes := Buffer.bytes b |})
  end.

(** [ReplaySnapshot::drop] *)
Definition release (self : t) : t := {| enabled := enabled self; reset := reset self; buffer := buffer self; reserved := 0 |}.
End ReplayTap.

(** ** What the buffer keeps *)
Definition bytes_of (frames : list ReplayFrame) : Z := foldr (fun f n => Buffer.frame_bytes (rf_frame f) + n) 0 frames.

Lemma frame_bytes_pos frame : 0 < Buffer.frame_bytes frame.
Proof. unfold Buffer.frame_bytes, FRAME_OVERHEAD. pose proof (zlen_nonneg (ef_data frame)). lia. Qed.
Lemma bytes_of_cons f l : bytes_of (f :: l) = Buffer.frame_bytes (rf_frame f) + bytes_of l.
Proof. done. Qed.
Lemma bytes_of_nonneg l : 0 <= bytes_of l.
Proof. induction l as [|f l IH]; [done|]. rewrite bytes_of_cons. pose proof (frame_bytes_pos (rf_frame f)). lia. Qed.
Lemma bytes_of_snoc l f : bytes_of (l ++ [f]) = bytes_of l + Buffer.frame_bytes (rf_frame f).
Proof. induction l as [|g l IH]; cbn [app]; rewrite ?bytes_of_cons; change (bytes_of []) with 0; lia. Qed.

(** Both loops drop frames from the front until their test fails. *)
Lemma evict_while_spec fuel test : forall self,
  (length (Buffer.frames self) <= fuel)%nat -> Buffer.bytes self = bytes_of (Buffer.frames self) ->
  test (Buffer.with_frames self [] 0) = false ->
  exists k, Buffer.evict_while fuel test self
      = Ok (Buffer.with_frames self (drop k (Buffer.frames self)) (bytes_of (drop k (Buffer.frames self))))
    /\ test (Buffer.with_frames self (drop k (Buffer.frames self)) (bytes_of (drop k (Buffer.frames self)))) = false.
Proof.
  induction fuel as [|fuel IH]; intros self Hfuel Hbytes Hempty.
  - assert (Hnil : Buffer.frames self = []) by (destruct (Buffer.frames self); [done|cbn in Hfuel; lia]).
    assert (Hself : Buffer.with_frames self [] 0 = self) by (destruct self; cbn in *; by subst).
    rewrite Hself in Hempty. exists 0%nat. rewrite Hnil. cbn [Buffer.evict_while drop]. rewrite Hempty. cbn. by rewrite Hself.
  - cbn [Buffer.evict_while]. destruct (test self) eqn:Htest.
    + destruct (Buffer.frames self) as [|first rest] eqn:Hf.
      { assert (Hself : Buffer.with_frames self [] 0 = self) by (destruct self; cbn in *; by subst). congruence. }
      unfold Buffer.pop_front. rewrite Hf, Hbytes. unfold checked_sub.
      assert (Hle : (Buffer.frame_bytes (rf_frame first) <=? bytes_of (first :: rest)) = true).
      { rewrite bytes_of_cons. pose proof (bytes_of_nonneg rest). apply Z.leb_le. lia. }
      rewrite Hle. cbn [expect]. obind.
      replace (bytes_of (first :: rest) - Buffer.frame_bytes (rf_frame first)) with (bytes_of rest) by (rewrite bytes_of_cons; lia).
      destruct (IH (Buffer.with_frames self rest (bytes_of rest))) as (k & Hk & Ht); [cbn in *; lia|done|done|].
      exists (S k). split; [exact Hk|exact Ht].
    + exists 0%nat. rewrite drop_0, <- Hbytes. assert (Hself : Buffer.with_frames self (Buffer.frames self) (Buffer.bytes self) = self) by by destruct self.
      by rewrite Hself.
Qed.

Lemma frames_evicted test self :
  Buffer.bytes self = bytes_of (Buffer.frames self) -> test (Buffer.with_frames self [] 0) = false ->
  exists k, Buffer.evict self test
      = Ok (Buffer.with_frames self (drop k (Buffer.frames self)) (bytes_of (drop k (Buffer.frames self))))
    /\ test (Buffer.with_frames self (drop k (Buffer.frames self)) (bytes_of (drop k (Buffer.frames self)))) = false.
Proof. intros. apply evict_while_spec; [lia|done|done]. Qed.

Lemma from_secs_f64_nonneg x : 0 <= from_secs_f64 x.
Proof.
  destruct x as [| | |[] m e]; try done. unfold from_secs_f64. destruct (Z.leb_spec 0 e).
  - pose proof (Z.pow_nonneg 2 e ltac:(lia)). nia.
  - unfold round_half_even. pose proof (Z.pow_pos_nonneg 2 (- e) ltac:(lia) ltac:(lia)) as Hp.
    pose proof (Z.div_pos (Zpos m * 1000000000) (2 ^ (- e)) ltac:(lia) Hp). destruct (_ || _); lia.
Qed.

Lemma advance_later clock frame clock' :
  Clock.advance clock frame = Some clock' -> Clock.time clock <= Clock.time clock'.
Proof.
  unfold Clock.advance. destruct (_ || _); [done|]. destruct (Clock.delta clock frame) as [d|]; [|done]. cbn [mbind option_bind].
  destruct (_ <? d); [done|]. intros [= <-]. cbn [Clock.time].
  pose proof (from_secs_f64_nonneg (F64.div (F64.of_Z d) (F64.of_Z (Clock.rate clock)))). lia.
Qed.

Definition is_video_frame (f : ReplayFrame) : bool := Buffer.is_video (rf_frame f).
Definition starts_clip (l : list ReplayFrame) : Prop :=
  match l with f :: _ => Buffer.is_video (rf_frame f) = true /\ ef_keyframe (rf_frame f) = true | [] => True end.

Record buffer_ok (reserved : Z) (b : Buffer.t) : Prop := {
  bo_reserved : 0 <= reserved;
  bo_config : 0 <= rb_memory_bytes (Buffer.config b) < U64_MAX;
  bo_bytes : Buffer.bytes b = bytes_of (Buffer.frames b);
  bo_budget : Buffer.bytes b <= Z.max 0 (rb_memory_bytes (Buffer.config b) - reserved);
  bo_count : zlen (Buffer.frames b) <= MAX_FRAMES;
  bo_start : starts_clip (Buffer.frames b);
  bo_contiguous : Forall (fun f => ef_contiguous (rf_frame f) = true) (Buffer.frames b);
  (* no video frame is later than the video clock *)
  bo_clock : Buffer.frames b <> [] -> exists clock, Buffer.video b = Some clock
    /\ Forall (fun f => is_video_frame f = true -> rf_time f <= Clock.time clock) (Buffer.frames b)
}.

(** The video frames of the buffer, in order. *)
Definition kept_video (b : Buffer.t) : list EncodedFrame := filter Buffer.is_video (rf_frame <$> Buffer.frames b).

Lemma cleared_ok reserved b now :
  0 <= reserved -> 0 <= rb_memory_bytes (Buffer.config b) < U64_MAX -> buffer_ok reserved (Buffer.clear b now).
Proof. intros. constructor; cbn; try done; unfold MAX_FRAMES; lia. Qed.

Lemma dropped_ok reserved b k :
  buffer_ok reserved b -> starts_clip (drop k (Buffer.frames b)) ->
  buffer_ok reserved (Buffer.with_frames b (drop k (Buffer.frames b)) (bytes_of (drop k (Buffer.frames b)))).
Proof.
  intros [] Hs. constructor; cbn; try done.
  - rewrite bo_bytes0 in *. assert (Hle : bytes_of (drop k (Buffer.frames b)) <= bytes_of (Buffer.frames b)); [|lia].
    clear. revert k. induction (Buffer.frames b) as [|f l IH]; intros [|k]; cbn [drop]; try lia.
    rewrite bytes_of_cons. specialize (IH k). pose proof (frame_bytes_pos (rf_frame f)). lia.
  - unfold zlen in *. rewrite length_drop. lia.
  - by apply Forall_drop.
  - intros Hne. destruct bo_clock0 as (c & Hc & Hf); [by intros E; rewrite E, drop_nil in Hne|].
    exists c. split; [done|]. by apply Forall_drop.
Qed.

Lemma suffix_drop {A} (l : list A) k : drop k l `suffix_of` l.
Proof. exists (take k l). by rewrite take_drop. Qed.
Lemma suffix_filter_fmap k (l : list ReplayFrame) :
  filter Buffer.is_video (rf_frame <$> drop k l) `suffix_of` filter Buffer.is_video (rf_frame <$> l).
Proof. exists (filter Buffer.is_video (rf_frame <$> take k l)). by rewrite <- filter_app, <- fmap_app, take_drop. Qed.

Definition video_of (frame : EncodedFrame) : list EncodedFrame := if Buffer.is_video frame then [frame] else [].

Lemma kept_dropped b k :
  kept_video (Buffer.with_frames b (drop k (Buffer.frames b)) (bytes_of (drop k (Buffer.frames b)))) `suffix_of` kept_video b.
Proof. apply suffix_filter_fmap. Qed.

(** The two loops after a frame was appended. *)
Lemma evicted_ok reserved b :
  let budget := Z.max 0 (rb_memory_bytes (Buffer.config b) - reserved) in
  0 <= reserved -> 0 <= rb_memory_bytes (Buffer.config b) < U64_MAX ->
  Buffer.bytes b = bytes_of (Buffer.frames b) ->
  Forall (fun f => ef_contiguous (rf_frame f) = true) (Buffer.frames b) ->
  (exists clock, Buffer.video b = Some clock
    /\ Forall (fun f => is_video_frame f = true -> rf_time f <= Clock.time clock) (Buffer.frames b)) ->
  exists b', (self ← Buffer.evict b (fun self => Buffer.over_limit self budget); Buffer.evict self Buffer.not_a_start) = Ok b'
    /\ buffer_ok reserved b' /\ Buffer.config b' = Buffer.config b /\ kept_video b' `suffix_of` kept_video b.
Proof.
  intros budget Hr Hc Hb Hcont (clock & Hv & Hclock).
  destruct (frames_evicted (fun self => Buffer.over_limit self budget) b Hb) as (k & -> & Htest).
  { unfold Buffer.over_limit. cbn. rewrite (proj2 (Z.ltb_ge budget 0)) by lia. done. }
  obind. set (b1 := Buffer.with_frames b _ _) in *.
  destruct (frames_evicted Buffer.not_a_start b1) as (j & -> & Hstart); [done|done|].
  unfold Buffer.over_limit in Htest. apply orb_false_iff in Htest as [Htest _]. apply orb_false_iff in Htest as [Hbytes Hcount].
  apply Z.ltb_ge in Hbytes, Hcount.
  assert (Hlen : forall n (l : list ReplayFrame), zlen (drop n l) <= zlen l) by (intros; unfold zlen; rewrite length_drop; lia).
  eexists. split; [reflexivity|]. split; [|split; [done|]].
  - constructor; cbn.
    + done.
    + done.
    + done.
    + fold budget. assert (Hle : forall n l, bytes_of (drop n l) <= bytes_of l); [|etrans; [apply Hle|exact Hbytes]].
      clear. intros n l. revert n. induction l as [|f l IH]; intros [|n]; cbn [drop]; try lia.
      rewrite bytes_of_cons. specialize (IH n). pose proof (frame_bytes_pos (rf_frame f)). lia.
    + etrans; [apply Hlen|exact Hcount].
    + unfold Buffer.not_a_start in Hstart. cbn in Hstart. unfold starts_clip. destruct (drop j _) as [|f l]; [done|].
      apply orb_false_iff in Hstart as [?%negb_false_iff ?%negb_false_iff]. done.
    + by do 2 apply Forall_drop.
    + intros _. exists clock. split; [done|]. by do 2 apply Forall_drop.
  - etrans; [apply (kept_dropped b1)|apply (kept_dropped b)].
Qed.

Lemma insert_ok reserved b frame time now :
  buffer_ok reserved b -> ef_contiguous frame = true ->
  (Buffer.is_video frame = true -> exists clock, Buffer.video b = Some clock /\ Clock.time clock = time) ->
  exists b', Buffer.insert b frame time reserved now = Ok b' /\ buffer_ok reserved b' /\ Buffer.config b' = Buffer.config b
    /\ kept_video b' `suffix_of` kept_video b ++ video_of frame.
Proof.
  intros Hok Hcont Hvideo. unfold Buffer.insert. set (b0 := Buffer.Build_t _ _ _ _ _ _ _).
  assert (Hok0 : buffer_ok reserved b0) by (destruct Hok; by constructor).
  assert (Hkept : kept_video b0 = kept_video b) by done. assert (Hvid : Buffer.video b0 = Buffer.video b) by done.
  assert (Hconf : Buffer.config b0 = Buffer.config b) by done. rewrite <- Hkept, <- Hconf. rewrite <- Hvid in Hvideo.
  clearbody b0. clear b Hok Hkept Hvid Hconf.
  destruct (match Buffer.frames b0 with first :: _ => time <? rf_time first | [] => false end) eqn:Hearly.
  { eexists. split; [reflexivity|]. split; [done|]. split; [done|]. unfold video_of.
    destruct (Buffer.is_video frame) eqn:Hv; [|by rewrite app_nil_r]. exfalso.
    destruct (Hvideo eq_refl) as (clock & Hclock & <-). destruct Hok0. destruct (Buffer.frames b0) as [|first rest] eqn:Hf; [done|].
    destruct (bo_clock0 ltac:(done)) as (clock' & Hclock' & Hall). apply Forall_cons in Hall as (Hfirst & _).
    destruct bo_start0 as [Hfv _]. specialize (Hfirst Hfv). rewrite Hclock in Hclock'. injection Hclock' as <-. lia. }
  destruct (bool_decide (Buffer.frames b0 = []) && negb (Buffer.is_video frame && ef_keyframe frame)) eqn:Hwait.
  { eexists. split; [reflexivity|]. split; [done|]. split; [done|]. apply andb_true_iff in Hwait as [Hnil%bool_decide_eq_true _].
    unfold kept_video. rewrite Hnil. cbn. apply suffix_nil. }
  cbn zeta. destruct (Z.ltb_spec (Z.max 0 (rb_memory_bytes (Buffer.config b0) - reserved))
    (Z.min U64_MAX (Z.min U64_MAX (zlen (ef_data frame) + Z.of_nat (String.length (ef_mid frame))) + FRAME_OVERHEAD))) as [|Hfits].
  { eexists. split; [reflexivity|]. split; [by apply cleared_ok; destruct Hok0|]. split; [done|]. apply suffix_nil. }
  assert (Hadded : Z.min U64_MAX (Z.min U64_MAX (zlen (ef_data frame) + Z.of_nat (String.length (ef_mid frame))) + FRAME_OVERHEAD)
    = Buffer.frame_bytes frame).
  { destruct Hok0. unfold Buffer.frame_bytes, FRAME_OVERHEAD, U64_MAX in *. pose proof (zlen_nonneg (ef_data frame)). lia. }
  rewrite Hadded. clear Hadded Hfits. set (b1 := Buffer.with_frames b0 _ _).
  destruct Hok0. destruct (evicted_ok reserved b1) as (b' & Hb' & Hok' & Hconf' & Hsuf').
  - done.
  - done.
  - cbn. rewrite bytes_of_snoc. cbn. by rewrite bo_bytes0.
  - apply Forall_app. split; [done|]. by repeat constructor.
  - cbn. destruct (Buffer.is_video frame) eqn:Hv.
    + destruct (Hvideo eq_refl) as (clock & Hclock & Htime). exists clock. split; [done|]. apply Forall_app. split.
      * destruct (decide (Buffer.frames b0 = [])) as [->|Hne]; [constructor|]. destruct (bo_clock0 Hne) as (c & Hc & Hall).
        rewrite Hclock in Hc. by injection Hc as <-.
      * constructor; [|constructor]. intros _. cbn. lia.
    + assert (Hne : Buffer.frames b0 <> []).
      { intros E. rewrite E in Hwait. by rewrite bool_decide_true in Hwait. }
      destruct (bo_clock0 Hne) as (c & Hc & Hall). exists c. split; [done|]. apply Forall_app. split; [done|].
      constructor; [|constructor]. unfold is_video_frame. cbn. by rewrite Hv.
  - exists b'. split; [exact Hb'|]. split; [done|]. split; [done|]. etrans; [exact Hsuf'|].
    unfold kept_video, b1, video_of. cbn. rewrite fmap_app, filter_app. cbn [fmap list_fmap rf_frame].
    rewrite filter_cons, filter_nil. destruct (Buffer.is_video frame) eqn:E; by rewrite ?decide_True, ?decide_False by (rewrite ?E; by cbn).
Qed.

Lemma frame_pushed reserved b frame received_at now :
  buffer_ok reserved b ->
  exists b', Buffer.push b frame reserved received_at now = Ok b' /\ buffer_ok reserved b' /\ Buffer.config b' = Buffer.config b
    /\ kept_video b' `suffix_of` kept_video b ++ video_of frame.
Proof.
  intros Hok.
  assert (Hclear : exists b', (mret (Buffer.clear b now) : outcome Empty_set _) = Ok b' /\ buffer_ok reserved b'
      /\ Buffer.config b' = Buffer.config b /\ kept_video b' `suffix_of` kept_video b ++ video_of frame).
  { eexists. split; [reflexivity|]. split; [by apply cleared_ok; destruct Hok|]. split; [done|]. apply suffix_nil. }
  unfold Buffer.push. destruct (ef_contiguous frame) eqn:Hcont; cbn [negb]; [|done].
  (* the buffer with the medium's new clock *)
  assert (Hset : forall clock,
      (Buffer.is_video frame = true -> forall old, Buffer.video b = Some old -> Clock.time old <= Clock.time clock) ->
      (Buffer.is_video frame = true -> Buffer.video b = None -> Buffer.frames b = []) ->
      exists b', Buffer.insert (Buffer.set_clock b (Buffer.is_video frame) clock) frame (Clock.time clock) reserved now = Ok b'
        /\ buffer_ok reserved b' /\ Buffer.config b' = Buffer.config b
        /\ kept_video b' `suffix_of` kept_video b ++ video_of frame).
  { intros clock Hold Hnone.
    destruct (insert_ok reserved (Buffer.set_clock b (Buffer.is_video frame) clock) frame (Clock.time clock) now)
      as (b' & ? & ? & ? & ?).
    - destruct Hok. constructor; try done. cbn. destruct (Buffer.is_video frame); [|done].
      intros Hne. destruct (bo_clock0 Hne) as (c & Hc & Hall). exists clock. split; [done|].
      eapply Forall_impl; [exact Hall|]. intros f Hf Hv. cbn in *. specialize (Hold eq_refl c Hc). specialize (Hf Hv). lia.
    - done.
    - intros Hv. rewrite Hv. by exists clock.
    - by exists b'. }
  unfold Buffer.time_frame. destruct (if Buffer.is_video frame then Buffer.video b else Buffer.audio b) as [old|] eqn:Hold.
  - destruct (Clock.advance old frame) as [clock|] eqn:Hadv; [|done]. apply Hset.
    + intros Hv old' Hold'. rewrite Hv, Hold' in Hold. injection Hold as ->. by eapply advance_later.
    + intros Hv Hnone. rewrite Hv, Hnone in Hold. done.
  - destruct (ef_clock_rate_hz frame =? 0).
    { exists b. split; [done|]. split; [done|]. split; [done|]. unfold video_of. destruct (Buffer.is_video frame); [|by rewrite app_nil_r].
      destruct Hok. destruct (decide (Buffer.frames b = [])) as [E|Hne]; [unfold kept_video; rewrite E; apply suffix_nil|].
      destruct (bo_clock0 Hne) as (c & Hc & _). congruence. }
    apply Hset; cbn [Clock.time].
    + intros Hv old' Hold'. rewrite Hv, Hold' in Hold. done.
    + intros Hv _. rewrite Hv in Hold. destruct Hok. destruct (decide (Buffer.frames b = [])) as [|Hne]; [done|].
      destruct (bo_clock0 Hne) as (c & Hc & _). congruence.
Qed.

(** ** Runs of the tap *)
Inductive tap_op :=
  | TapStart (config : ReplayBufferConfig) (now : Z)
  | TapStop
  | TapPublish (frame : EncodedFrame) (contended : bool) (now : Z)
  | TapSnapshot (now : Z)
  | TapRelease.

(** The snapshots taken so far ride along. *)
Definition tap_step (s : ReplayTap.t * list ReplaySnapshot) (op : tap_op) : outcome Empty_set (ReplayTap.t * list ReplaySnapshot) :=
  match op with
  | TapStart config now => mret (ReplayTap.start_with_budget s.1 config now, s.2)
  | TapStop => mret (ReplayTap.stop s.1, s.2)
  | TapPublish frame contended now => tap ← ReplayTap.publish s.1 frame contended now; mret (tap, s.2)
  | TapSnapshot now =>
      match ReplayTap.snapshot s.1 now with
      | (tap, inr clip) => mret (tap, s.2 ++ [clip])
      | (tap, inl _) => mret (tap, s.2)
      end
  | TapRelease => mret (ReplayTap.release s.1, s.2)
  end.
Definition tap_init : ReplayTap.t * list ReplaySnapshot :=
  ({| ReplayTap.enabled := false; ReplayTap.reset := false; ReplayTap.buffer := None; ReplayTap.reserved := 0 |}, []).

Definition configured (op : tap_op) : Prop :=
  match op with TapStart config _ => 0 <= rb_memory_bytes config < U64_MAX | _ => True end.
(** The video frames published by the operations. *)
Definition published_video (ops : list tap_op) : list EncodedFrame :=
  ops ≫= fun op => match op with TapPublish frame _ _ => video_of frame | _ => [] end.

Definition clip_ok (video : list EncodedFrame) (clip : ReplaySnapshot) : Prop :=
  rs_frames clip <> [] /\ starts_clip (rs_frames clip)
  /\ Forall (fun f => ef_contiguous (rf_frame f) = true) (rs_frames clip)
  /\ zlen (rs_frames clip) <= MAX_FRAMES
  /\ rs_bytes clip = bytes_of (rs_frames clip)
  /\ exists before after, video = before ++ filter Buffer.is_video (rf_frame <$> rs_frames clip) ++ after.

Record tap_ok (video : list EncodedFrame) (s : ReplayTap.t * list ReplaySnapshot) : Prop := {
  to_reserved : 0 <= ReplayTap.reserved s.1;
  to_disabled : ReplayTap.enabled s.1 = false -> ReplayTap.buffer s.1 = None;
  to_buffer : forall b, ReplayTap.buffer s.1 = Some b ->
    buffer_ok (ReplayTap.reserved s.1) b /\ (ReplayTap.reset s.1 = false -> kept_video b `suffix_of` video);
  to_clips : Forall (clip_ok video) s.2
}.

Lemma clip_later video more clip : clip_ok video clip -> clip_ok (video ++ more) clip.
Proof.
  intros (? & ? & ? & ? & ? & before & after & ->). repeat (split; [done|]). exists before, (after ++ more). by rewrite <- !app_assoc.
Qed.

Lemma budget_shrinks reserved reserved' b :
  0 <= reserved' <= reserved -> buffer_ok reserved b -> buffer_ok reserved' b.
Proof. intros Hr []. constructor; try done; lia. Qed.

Lemma emptied_ok reserved b : 0 <= reserved -> buffer_ok 0 b -> buffer_ok reserved (Buffer.with_frames b [] 0).
Proof. intros Hr []. constructor; cbn; try done; unfold MAX_FRAMES; lia. Qed.

Lemma tap_step_ok video s op :
  configured op -> tap_ok video s ->
  exists s', tap_step s op = Ok s' /\ tap_ok (video ++ published_video [op]) s'.
Proof.
  intros Hconf [Hres Hdis Hbuf Hclips]. destruct s as [[enabled reset buffer reserved] clips].
  cbn [fst snd ReplayTap.reserved ReplayTap.enabled ReplayTap.buffer ReplayTap.reset] in *.
  destruct op as [config now| |frame contended now|now|]; unfold published_video; cbn [mbind list_bind tap_step fst snd];
    rewrite ?app_nil_r.
  - eexists. split; [reflexivity|]. unfold ReplayTap.start_with_budget. destruct (rb_enabled config); cbn [negb]; constructor; try done.
    intros b [= <-]. split; [|intros _; apply suffix_nil]. constructor; cbn; try done; unfold MAX_FRAMES; lia.
  - eexists. split; [reflexivity|]. by constructor.
  - assert (Hclips' : Forall (clip_ok (video ++ video_of frame)) clips).
    { eapply Forall_impl; [exact Hclips|]. intros. by apply clip_later. }
    unfold ReplayTap.publish. cbn [ReplayTap.enabled ReplayTap.reset ReplayTap.buffer ReplayTap.reserved]. destruct enabled; cbn [negb].
    + destruct contended.
      { eexists. split; [reflexivity|]. constructor; try done. intros b Hb. cbn in *. by destruct (Hbuf b Hb). }
      destruct buffer as [b|]; [|by eexists; split; [reflexivity|constructor]].
      destruct (Hbuf b eq_refl) as (Hok & Hsuf).
      assert (Hok1 : buffer_ok reserved (if reset then Buffer.clear b now else b)).
      { destruct reset; [|done]. by apply cleared_ok; destruct Hok. }
      assert (Hsuf1 : kept_video (if reset then Buffer.clear b now else b) `suffix_of` video).
      { destruct reset; [apply suffix_nil|by apply Hsuf]. }
      destruct (frame_pushed reserved _ frame now now Hok1) as (b' & -> & Hok' & _ & Hsuf'). obind.
      eexists. split; [reflexivity|]. constructor; try done. intros ? [= <-]. split; [done|]. intros _.
      etrans; [exact Hsuf'|]. destruct Hsuf1 as (before & ->). exists before. by rewrite app_assoc.
    + eexists. split; [reflexivity|]. constructor; try done. intros b Hb. cbn in *. by rewrite Hdis in Hb.
  - unfold ReplayTap.snapshot. cbn [ReplayTap.enabled ReplayTap.reset ReplayTap.buffer ReplayTap.reserved].
    destruct buffer as [b|]; [|by eexists; split; [reflexivity|constructor]].
    destruct (Hbuf b eq_refl) as (Hok & Hsuf). set (b1 := if reset then _ else b).
    assert (Hok1 : buffer_ok reserved b1).
    { unfold b1. destruct reset; [|done]. by apply cleared_ok; destruct Hok. }
    assert (Hsuf1 : kept_video b1 `suffix_of` video).
    { unfold b1. destruct reset; [apply suffix_nil|by apply Hsuf]. }
    assert (Hen : enabled = false -> Some b1 = None) by (intros E; by specialize (Hdis E)).
    clearbody b1. destruct (Z.eqb_spec reserved 0) as [->|]; cbn [negb].
    + case_bool_decide as Hnil.
      { eexists. split; [reflexivity|]. constructor; try done. by intros ? [= <-]. }
      pose proof (bytes_of_nonneg (Buffer.frames b1)) as Hpos. destruct Hok1 as [? ? Hbytes ? ? ? ? ?] eqn:E; clear E.
      eexists. split; [reflexivity|]. constructor; cbn; try done; try lia.
      * by intros E; specialize (Hen E).
      * intros ? [= <-]. split; [|intros _; apply suffix_nil]. apply emptied_ok; [lia|done].
      * apply Forall_app. split; [done|]. constructor; [|constructor]. repeat (split; [done|]).
        destruct Hsuf1 as (before & ->). exists before, []. by rewrite app_nil_r.
    + eexists. split; [reflexivity|]. constructor; try done. by intros ? [= <-].
  - eexists. split; [reflexivity|]. constructor; try done. intros b Hb. cbn in *. destruct (Hbuf b Hb) as (Hok & Hsuf).
    split; [|done]. eapply budget_shrinks; [|exact Hok]. lia.
Qed.

Lemma tap_run_ok ops : forall video s, Forall configured ops -> tap_ok video s ->
  exists s', ofold tap_step ops s = Ok s' /\ tap_ok (video ++ published_video ops) s'.
Proof.
  induction ops as [|op ops IH]; intros video s Hconf Hok.
  - exists s. split; [done|]. cbn. by rewrite app_nil_r.
  - apply Forall_cons in Hconf as (Hop & Hops). destruct (tap_step_ok video s op Hop Hok) as (s1 & Hs & Hok1). cbn [ofold]. rewrite Hs. obind.
    destruct (IH _ s1 Hops Hok1) as (s' & -> & Hok'). exists s'. split; [done|].
    unfold published_video in *. cbn [mbind list_bind] in *. by rewrite app_nil_r, <- app_assoc in Hok'.
Qed.

Lemma tap_init_ok : tap_ok [] tap_init.
Proof. by constructor. Qed.

(** C23: a saved clip can be decoded from its first frame.  Whatever is
    published, contended, started, stopped, saved and released, in any order:
    nothing panics, and the frames of every snapshot begin with a video
    keyframe, all follow their predecessors without a loss, and the video
    frames among them are consecutive video frames of those published, none
    left out. *)
Theorem clips_hold_unbroken_video (ops : list tap_op) (Hconf : Forall configured ops) :
  exists tap clips, ofold tap_step ops tap_init = Ok (tap, clips)
    /\ forall clip, clip ∈ clips ->
      (exists first rest, rs_frames clip = first :: rest
        /\ Buffer.is_video (rf_frame first) = true /\ ef_keyframe (rf_frame first) = true)
      /\ Forall (fun f => ef_contiguous (rf_frame f) = true) (rs_frames clip)
      /\ exists before after, published_video ops = before ++ filter Buffer.is_video (rf_frame <$> rs_frames clip) ++ after.
Proof.
  destruct (tap_run_ok ops [] tap_init Hconf tap_init_ok) as ([tap clips] & Hs & Hok). exists tap, clips. split; [exact Hs|].
  intros clip Hin. destruct Hok as [_ _ _ Hclips]. rewrite Forall_forall in Hclips.
  destruct (Hclips clip Hin) as (Hne & Hstart & Hcont & _ & _ & Hrun). split; [|done].
  destruct (rs_frames clip) as [|first rest]; [done|]. by exists first, rest.
Qed.

(** A session: two frames, one lost to contention, a new keyframe, sound, and
    a save. *)
Definition sample_frame (codec : MediaCodec) (timestamp : Z) (keyframe : bool) : EncodedFrame :=
  {| ef_mid := "0"; ef_codec := codec; ef_data := [Byte.x00]; ef_frame_index := None; ef_timestamp := timestamp;
     ef_clock_rate_hz := 90000; ef_keyframe := keyframe; ef_contiguous := true; ef_ssrc := None |}.
Definition sample_session : list tap_op :=
  [ TapStart {| rb_enabled := true; rb_memory_bytes := 10000; rb_duration := 30 * 10 ^ 9 |} 0;
    TapPublish (sample_frame CodecH264 0 true) false 10000000; TapPublish (sample_frame CodecH264 1500 false) false 20000000;
    TapPublish (sample_frame CodecH264 3000 false) true 30000000; TapPublish (sample_frame CodecH264 4500 false) false 40000000;
    TapPublish (sample_frame CodecH264 6000 true) false 50000000; TapPublish (sample_frame (CodecOpus 2) 700 false) false 58000000;
    TapPublish (sample_frame CodecH264 7500 false) false 60000000; TapSnapshot 70000000 ].

Lemma sample_session_configured : Forall configured sample_session.
Proof. by repeat constructor. Defined.

Lemma clips_hold_unbroken_video_witness :
  (exists tap clips, ofold tap_step sample_session tap_init = Ok (tap, clips)
    /\ forall clip, clip ∈ clips ->
      (exists first rest, rs_frames clip = first :: rest
        /\ Buffer.is_video (rf_frame first) = true /\ ef_keyframe (rf_frame first) = true)
      /\ Forall (fun f => ef_contiguous (rf_frame f) = true) (rs_frames clip)
      /\ exists before after, published_video sample_session = before ++ filter Buffer.is_video (rf_frame <$> rs_frames clip) ++ after)
  /\ match ofold tap_step sample_session tap_init with
     | Ok (_, [clip]) => (fun f => ef_timestamp (rf_frame f)) <$> rs_frames clip = [6000; 700; 7500]
     | _ => False
     end.
Proof. split; [exact (clips_hold_unbroken_video sample_session sample_session_configured)|by vm_compute]. Defined.

(** The replay buffer stays within its memory.  In every reachable state
    the byte counter is exactly the size of the frames held (so its subtractions
    cannot underflow), there are at most 32768 frames, and what the buffer
    holds together with the snapshot still being saved is within the configured
    memory, unless the buffer is empty. *)
Theorem replay_stays_within_its_memory (ops : list tap_op) (Hconf : Forall configured ops) :
  exists tap clips, ofold tap_step ops tap_init = Ok (tap, clips)
    /\ Forall (fun clip => rs_bytes clip = bytes_of (rs_frames clip)) clips
    /\ forall b, ReplayTap.buffer tap = Some b ->
      Buffer.bytes b = bytes_of (Buffer.frames b) /\ zlen (Buffer.frames b) <= MAX_FRAMES
      /\ (Buffer.frames b <> [] -> Buffer.bytes b + ReplayTap.reserved tap <= rb_memory_bytes (Buffer.config b)).
Proof.
  destruct (tap_run_ok ops [] tap_init Hconf tap_init_ok) as ([tap clips] & Hs & Hok). exists tap, clips. split; [exact Hs|].
  destruct Hok as [Hres _ Hbuf Hclips]. split.
  - eapply Forall_impl; [exact Hclips|]. intros clip (_ & _ & _ & _ & ? & _). done.
  - intros b Hb. destruct (Hbuf b Hb) as ([] & _). cbn [fst] in *. split; [done|]. split; [done|]. intros Hne.
    assert (0 < Buffer.bytes b); [|lia]. rewrite bo_bytes0. destruct (Buffer.frames b) as [|f l]; [done|].
    rewrite bytes_of_cons. pose proof (frame_bytes_pos (rf_frame f)). pose proof (bytes_of_nonneg l). lia.
Qed.

Lemma replay_stays_within_its_memory_witness :
  exists tap clips, ofold tap_step sample_session tap_init = Ok (tap, clips)
    /\ Forall (fun clip => rs_bytes clip = bytes_of (rs_frames clip)) clips
    /\ forall b, ReplayTap.buffer tap = Some b ->
      Buffer.bytes b = bytes_of (Buffer.frames b) /\ zlen (Buffer.frames b) <= MAX_FRAMES
      /\ (Buffer.frames b <> [] -> Buffer.bytes b + ReplayTap.reserved tap <= rb_memory_bytes (Buffer.config b)).
Proof. exact (replay_stays_within_its_memory sample_session sample_session_configured). Defined.
