(* ===== verification/Audio.v ===== *)
(** * Audio

    The audio path of the bundle worker in [nvst.rs]: which RTP streams the
    peer connection expects ([NvstAudioStreams]), the RED payload of RFC 2198
    ([parse_red_opus]), and the receiver that turns packets into Opus frames,
    fills gaps from the redundant blocks and marks the gaps it cannot fill
    ([NvstAudioReceiver]).  The peer connection is str0m's: its calls are the
    output of the operations, its packets their input. *)

From stdpp Require Import strings gmap.
From S2P Require Import Prelude Types Rtp Stun VideoWorker.

Definition GFN_RED_PAYLOAD_TYPE : Z := 63.
Definition GFN_OPUS_PAYLOAD_TYPE : Z := 111.
Definition MAX_REDUNDANT_AUDIO_BLOCKS : Z := 8.
Definition MAX_OPUS_PACKET_BYTES : Z := 1275.

Record NvstAudioTrack := {
  at_payload_type : Z;
  at_clock_rate_hz : Z;
  at_channels : Z;
  at_mid : string;
  at_ssrc : option Z
}.

(** What the code reads of str0m's RTP header. *)
Record BundleRtpHeader := { bh_ssrc : Z; bh_sequence_number : Z; bh_payload_type : Z; bh_timestamp : Z }.

Definition matches_audio_track (track : NvstAudioTrack) (payload_type ssrc : Z) : bool :=
  let matches_payload_type := (payload_type =? at_payload_type track)
    || ((at_payload_type track =? GFN_OPUS_PAYLOAD_TYPE) && (payload_type =? GFN_RED_PAYLOAD_TYPE)) in
  matches_payload_type && match at_ssrc track with Some expected => expected =? ssrc | None => true end.

(** ** The streams of the peer connection *)
Inductive RtcCall := ExpectStreamRx (ssrc : Z) (mid : string) | RemoveStreamRx (ssrc : Z).

Module NvstAudioStreams.
Record t := { authenticated_ssrcs : list Z; provisional : option Z }.
Definition default : t := {| authenticated_ssrcs := []; provisional := None |}.

Definition finish_poll (self : t) : t * list RtcCall :=
  match provisional self with
  | Some rejected => ({| authenticated_ssrcs := authenticated_ssrcs self; provisional := None |}, [RemoveStreamRx rejected])
  | None => (self, [])
  end.

(** Whether the datagram goes to the peer connection. *)
Definition admission (self : t) (track : NvstAudioTrack) (datagram : list u8)
    : outcome Empty_set (t * list RtcCall * bool) :=
  peeked ← peek_rtp_ssrc datagram;
  match peeked with
  | None => mret (self, [], false)
  | Some ssrc =>
      payload_type ← (if ssrc =? 0 then mret None else peek_rtp_payload_type datagram);
      if match payload_type with Some payload_type => matches_audio_track track payload_type ssrc | None => false end
      then
        let '(self, calls) := finish_poll self in
        if existsb (Z.eqb ssrc) (authenticated_ssrcs self) then mret (self, calls, true) else
        mret ({| authenticated_ssrcs := authenticated_ssrcs self; provisional := Some ssrc |},
              calls ++ [ExpectStreamRx ssrc (at_mid track)], true)
      else mret (self, [], false)
  end.

Definition authenticated (self : t) (ssrc : Z) : t * list RtcCall :=
  if negb (bool_decide (provisional self = Some ssrc)) then (self, []) else
  let '(kept, calls) := match authenticated_ssrcs self with
    | retired :: kept => if zlen (authenticated_ssrcs self) =? 2 then (kept, [RemoveStreamRx retired])
                         else (authenticated_ssrcs self, [])
    | [] => ([], [])
    end in
  ({| authenticated_ssrcs := kept ++ [ssrc]; provisional := None |}, calls).
End NvstAudioStreams.

(** ** RED *)
Record RedOpusBlock := { timestamp_offset : Z; block_payload : list u8 }.
Record RedOpusPayload := { redundant : list RedOpusBlock; primary : list u8 }.

Definition opus_sized (block : list u8) : bool := negb (zlen block =? 0) && (zlen block <=? MAX_OPUS_PACKET_BYTES).

(** The headers: the turn that meets one without the marker bit ends the
    loop.  It turns at most nine times: the ninth header with the marker is
    refused. *)
Fixpoint red_headers (fuel : nat) (payload : list u8) (header_offset : Z) (headers : list (Z * Z))
    : outcome Empty_set (option (list (Z * Z) * Z)) :=
  match fuel with
  | O => Panic
  | S fuel =>
      match zget payload header_offset with
      | None => mret None
      | Some header =>
          let payload_type := Z.land (b2z header) 0x7f in
          if Z.land (b2z header) 0x80 =? 0 then
            mret (if negb (payload_type =? GFN_OPUS_PAYLOAD_TYPE) then None else Some (headers, header_offset + 1))
          else if negb (payload_type =? GFN_OPUS_PAYLOAD_TYPE) || (zlen headers =? MAX_REDUNDANT_AUDIO_BLOCKS) then mret None
          else match zget_range payload header_offset (header_offset + 4) with
               | Some [_; b1; b2; b3] =>
                   let timestamp_offset := Z.lor (Z.shiftl (b2z b1) 6) (Z.shiftr (b2z b2) 2) in
                   let block_len := Z.lor (Z.shiftl (Z.land (b2z b2) 3) 8) (b2z b3) in
                   red_headers fuel payload (header_offset + 4) (headers ++ [(timestamp_offset, block_len)])
               | _ => mret None
               end
      end
  end.

(** The blocks the headers announce. *)
Fixpoint red_blocks (payload : list u8) (block_offset : Z) (headers : list (Z * Z)) : option (list RedOpusBlock * Z) :=
  match headers with
  | [] => Some ([], block_offset)
  | (timestamp_offset, block_len) :: headers =>
      block ← zget_range payload block_offset (block_offset + block_len);
      if negb (opus_sized block) then None else
      '(blocks, rest) ← red_blocks payload (block_offset + block_len) headers;
      Some ({| timestamp_offset := timestamp_offset; block_payload := block |} :: blocks, rest)
  end.

Definition parse_red_opus (payload : list u8) : outcome Empty_set (option RedOpusPayload) :=
  headers ← red_headers 9 payload 0 [];
  mret ('(headers, block_offset) ← headers;
        '(redundant, block_offset) ← red_blocks payload block_offset headers;
        primary ← zget_range payload block_offset (zlen payload);
        if opus_sized primary then Some {| redundant := redundant; primary := primary |} else None).

(** ** The receiver *)
Module NvstAudioReceiver.
Record t := { last_sequence : option (Z * Z); discontinuity_pending : bool }.
Definition default : t := {| last_sequence := None; discontinuity_pending := false |}.

Definition opus_frame (track : NvstAudioTrack) (header : BundleRtpHeader) (received_at_us : Z) (payload : list u8) (timestamp : Z)
    : EncodedMediaFrame := {|
  mid := at_mid track; mf_codec := "opus"; mf_payload := payload; mf_frame_index := None; rtp_timestamp := timestamp;
  clock_rate_hz := at_clock_rate_hz track; channels := Some (at_channels track); received_at_us := received_at_us;
  mf_keyframe := false; mf_contiguous := true; mf_ssrc := Some (bh_ssrc header) |}.

(** The packets missing before this one and whether the source changed;
    [None] for a packet that is not new. *)
Definition missing_before (self : t) (header : BundleRtpHeader) : option (Z * bool) :=
  match last_sequence self with
  | Some (ssrc, previous) =>
      if ssrc =? bh_ssrc header then
        let delta := as_u16 (bh_sequence_number header - previous) in
        if (delta =? 0) || (0x8000 <=? delta) then None else Some (delta - 1, false)
      else Some (0, true)
  | None => Some (0, false)
  end.

Definition set_contiguous (frames : list EncodedMediaFrame) (contiguous : bool) : outcome NvstDropReason (list EncodedMediaFrame) :=
  match frames with
  | [] => Panic
  | f :: frames => mret ({|
      mid := mid f; mf_codec := mf_codec f; mf_payload := mf_payload f; mf_frame_index := mf_frame_index f;
      rtp_timestamp := rtp_timestamp f; clock_rate_hz := clock_rate_hz f; channels := channels f;
      received_at_us := received_at_us f; mf_keyframe := mf_keyframe f; mf_contiguous := contiguous;
      mf_ssrc := mf_ssrc f |} :: frames)
  end.

Definition depacketize (self : t) (track : NvstAudioTrack) (header : BundleRtpHeader) (payload : list u8) (received_at_us : Z)
    : outcome NvstDropReason (t * list EncodedMediaFrame) :=
  match missing_before self header with
  | None => mret (self, [])
  | Some (missing_packets, source_changed) =>
      let append := opus_frame track header received_at_us in
      recovered ← (if bh_payload_type header =? GFN_RED_PAYLOAD_TYPE then
          match parse_red_opus payload with
          | Ok (Some red) =>
              let recover_count := Z.min missing_packets (zlen (redundant red)) in
              let used := drop (Z.to_nat (zlen (redundant red) - recover_count)) (redundant red) in
              mret (((fun block => append (block_payload block) (as_u32 (bh_timestamp header - timestamp_offset block))) <$> used)
                      ++ [append (primary red) (bh_timestamp header)], recover_count)
          | Ok None => Err MalformedRedAudio
          | _ => Panic
          end
        else mret ([append payload (bh_timestamp header)], 0));
      let '(frames, recovered_packets) := recovered in
      frames ← set_contiguous frames (negb source_changed && (missing_packets =? recovered_packets));
      mret ({| last_sequence := Some (bh_ssrc header, bh_sequence_number header);
               discontinuity_pending := discontinuity_pending self |}, frames)
  end.

(** The frame as it is offered to the channel. *)
Definition offered (self : t) (f : EncodedMediaFrame) : EncodedMediaFrame := {|
  mid := mid f; mf_codec := mf_codec f; mf_payload := mf_payload f; mf_frame_index := mf_frame_index f;
  rtp_timestamp := rtp_timestamp f; clock_rate_hz := clock_rate_hz f; channels := channels f;
  received_at_us := received_at_us f; mf_keyframe := mf_keyframe f;
  mf_contiguous := mf_contiguous f && negb (discontinuity_pending self); mf_ssrc := mf_ssrc f |}.

Definition deliver (self : t) (answer : TrySend) : t * (unit + TransportError) :=
  let result := deliver_media_frame answer in
  ({| last_sequence := last_sequence self;
      discontinuity_pending := match result with inl _ => false | inr _ => true end |}, result).

(** The worker's loop over the frames of a packet, with the channel's answers:
    the frames that reach the consumer, and whether the worker goes on. *)
Fixpoint deliver_all (self : t) (frames : list EncodedMediaFrame) (answers : list TrySend)
    : t * list EncodedMediaFrame * bool :=
  match frames, answers with
  | frame :: frames, answer :: answers =>
      let sent := offered self frame in
      let '(self, result) := deliver self answer in
      match result with
      | inr TeMediaConsumerClosed => (self, [], false)
      | _ =>
          let '(self, rest, running) := deliver_all self frames answers in
          (self, match result with inl _ => sent :: rest | inr _ => rest end, running)
      end
  | _, _ => (self, [], true)
  end.
End NvstAudioReceiver.

(** ** RED payloads are parsed exactly

    The wire format of RFC 2198 with Opus blocks only. *)
Definition red_header (b : Z * Z) : list u8 :=
  [z2b 0xef; z2b (b.1 / 64); z2b ((b.1 mod 64) * 4 + b.2 / 256); z2b (b.2 mod 256)].
Definition header_of (b : RedOpusBlock) : Z * Z := (timestamp_offset b, zlen (block_payload b)).
Definition encode_red (red : RedOpusPayload) : list u8 :=
  concat (red_header ∘ header_of <$> redundant red) ++ [z2b 0x6f] ++ concat (block_payload <$> redundant red) ++ primary red.

Definition red_block_wf (b : RedOpusBlock) : Prop :=
  0 <= timestamp_offset b < 2 ^ 14 /\ 1 <= zlen (block_payload b) < 2 ^ 10.
Definition red_wf (red : RedOpusPayload) : Prop :=
  zlen (redundant red) <= MAX_REDUNDANT_AUDIO_BLOCKS /\ Forall red_block_wf (redundant red)
  /\ 1 <= zlen (primary red) <= MAX_OPUS_PACKET_BYTES.

(** The fields of the three bytes after the first. *)
Definition red_fields (b1 b2 b3 : u8) : Z * Z :=
  (Z.lor (Z.shiftl (b2z b1) 6) (Z.shiftr (b2z b2) 2), Z.lor (Z.shiftl (Z.land (b2z b2) 3) 8) (b2z b3)).

Lemma red_fields_eq b1 b2 b3 :
  red_fields b1 b2 b3 = (b2z b1 * 64 + b2z b2 / 4, (b2z b2 mod 4) * 256 + b2z b3).
Proof.
  pose proof (b2z_range b1). pose proof (b2z_range b2). pose proof (b2z_range b3). unfold red_fields.
  change 3 with (Z.ones 2). rewrite Z.land_ones by lia. rewrite Z.shiftr_div_pow2 by lia.
  rewrite !lor_shiftl_low; try lia; [done|..]; change (2 ^ 2) with 4; change (2 ^ 6) with 64.
  - pose proof (Z.mod_pos_bound (b2z b2) 4). lia.
  - split; [apply Z.div_pos; lia|apply Z.div_lt_upper_bound; lia].
Qed.

Lemma red_header_fields b1 b2 b3 :
  red_header (red_fields b1 b2 b3) = [z2b 0xef; b1; b2; b3]
  /\ 0 <= (red_fields b1 b2 b3).1 < 2 ^ 14 /\ 0 <= (red_fields b1 b2 b3).2 < 2 ^ 10.
Proof.
  rewrite red_fields_eq. pose proof (b2z_range b1). pose proof (b2z_range b2). pose proof (b2z_range b3). cbn [fst snd].
  assert (E1 : (b2z b1 * 64 + b2z b2 / 4) / 64 = b2z b1) by (Z.to_euclidean_division_equations; lia).
  assert (E2 : (b2z b1 * 64 + b2z b2 / 4) mod 64 = b2z b2 / 4) by (Z.to_euclidean_division_equations; lia).
  assert (E3 : ((b2z b2 mod 4) * 256 + b2z b3) / 256 = b2z b2 mod 4) by (Z.to_euclidean_division_equations; lia).
  assert (E4 : ((b2z b2 mod 4) * 256 + b2z b3) mod 256 = b2z b3) by (Z.to_euclidean_division_equations; lia).
  split; [|Z.to_euclidean_division_equations; lia]. unfold red_header. cbn [fst snd]. rewrite E1, E2, E3, E4.
  replace (b2z b2 / 4 * 4 + b2z b2 mod 4) with (b2z b2) by (Z.to_euclidean_division_equations; lia). by rewrite !z2b_b2z.
Qed.

Lemma red_fields_header h b0 b1 b2 b3 :
  0 <= h.1 < 2 ^ 14 -> 0 <= h.2 < 2 ^ 10 -> red_header h = [b0; b1; b2; b3] -> b0 = z2b 0xef /\ red_fields b1 b2 b3 = h.
Proof.
  destruct h as [ts len]. cbn [fst snd]. intros Ht Hl [= <- <- <- <-]. split; [done|]. rewrite red_fields_eq, !b2z_z2b.
  rewrite !(Z.mod_small _ 256) by (Z.to_euclidean_division_equations; lia). f_equal; Z.to_euclidean_division_equations; lia.
Qed.

(** The first byte of a header. *)
Lemma header_octet b :
  (Z.land (b2z b) 0x80 =? 0) = false /\ (Z.land (b2z b) 0x7f =? GFN_OPUS_PAYLOAD_TYPE) = true <-> b = z2b 0xef.
Proof. destruct b; vm_compute; intuition congruence. Qed.
Lemma final_octet b :
  (Z.land (b2z b) 0x80 =? 0) = true /\ (Z.land (b2z b) 0x7f =? GFN_OPUS_PAYLOAD_TYPE) = true <-> b = z2b 0x6f.
Proof. destruct b; vm_compute; intuition congruence. Qed.

(** A header is four bytes. *)
Lemma red_header_bytes h : exists b1 b2 b3, red_header h = [z2b 0xef; b1; b2; b3].
Proof. by eexists _, _, _. Qed.

Definition header_wf (h : Z * Z) : Prop := 0 <= h.1 < 2 ^ 14 /\ 0 <= h.2 < 2 ^ 10.

Lemma red_headers_turn fuel pre b1 b2 b3 rest acc :
  zlen acc < MAX_REDUNDANT_AUDIO_BLOCKS ->
  red_headers (S fuel) (pre ++ [z2b 0xef; b1; b2; b3] ++ rest) (zlen pre) acc
  = red_headers fuel ((pre ++ [z2b 0xef; b1; b2; b3]) ++ rest) (zlen (pre ++ [z2b 0xef; b1; b2; b3])) (acc ++ [red_fields b1 b2 b3]).
Proof.
  intros Hacc. cbn [red_headers]. rewrite zget_at. cbn [head app].
  destruct (proj2 (header_octet (z2b 0xef)) eq_refl) as (-> & ->). cbn [negb orb].
  rewrite (proj2 (Z.eqb_neq _ _)) by lia.
  change (z2b 0xef :: b1 :: b2 :: b3 :: rest) with ([z2b 0xef; b1; b2; b3] ++ rest).
  rewrite zget_range_prefix by done. rewrite <- app_assoc. unfold red_fields. do 2 f_equal. rewrite zlen_app. done.
Qed.

(** The loop over the headers. *)
Lemma red_headers_spec fuel : forall pre rest acc,
  zlen acc <= MAX_REDUNDANT_AUDIO_BLOCKS -> MAX_REDUNDANT_AUDIO_BLOCKS - zlen acc < Z.of_nat fuel ->
  exists o, red_headers fuel (pre ++ rest) (zlen pre) acc = Ok o
    /\ forall hs off, o = Some (hs, off) <->
      exists new body, hs = acc ++ new /\ Forall header_wf new /\ zlen hs <= MAX_REDUNDANT_AUDIO_BLOCKS
        /\ rest = concat (red_header <$> new) ++ [z2b 0x6f] ++ body
        /\ off = zlen (pre ++ concat (red_header <$> new) ++ [z2b 0x6f]).
Proof.
  induction fuel as [|fuel IH]; intros pre rest acc Hacc Hfuel; [lia|].
  destruct rest as [|b rest].
  { cbn [red_headers]. rewrite zget_at. cbn [head]. exists None. split; [done|]. intros hs off. split; [done|].
    intros (new & body & _ & _ & _ & Hr & _). by destruct (concat (red_header <$> new)). }
  assert (Hother : (Z.land (b2z b) 0x80 =? 0) = false /\ (Z.land (b2z b) 0x7f =? GFN_OPUS_PAYLOAD_TYPE) = true -> b = z2b 0xef)
    by apply header_octet.
  assert (Hfinal : (Z.land (b2z b) 0x80 =? 0) = true /\ (Z.land (b2z b) 0x7f =? GFN_OPUS_PAYLOAD_TYPE) = true -> b = z2b 0x6f)
    by apply final_octet.
  assert (Hnone : forall o, red_headers (S fuel) (pre ++ b :: rest) (zlen pre) acc = Ok o -> o = None ->
    (forall h tail, header_wf h -> zlen acc < MAX_REDUNDANT_AUDIO_BLOCKS -> b :: rest <> red_header h ++ tail) -> b <> z2b 0x6f ->
    exists o, red_headers (S fuel) (pre ++ b :: rest) (zlen pre) acc = Ok o /\ forall hs off, o = Some (hs, off) <->
      exists new body, hs = acc ++ new /\ Forall header_wf new /\ zlen hs <= MAX_REDUNDANT_AUDIO_BLOCKS
        /\ b :: rest = concat (red_header <$> new) ++ [z2b 0x6f] ++ body
        /\ off = zlen (pre ++ concat (red_header <$> new) ++ [z2b 0x6f])).
  { intros o Ho -> Hno Hb. exists None. split; [done|]. intros hs off. split; [done|].
    intros ([|h new] & body & -> & Hwf & Hle & Hr & _); [by injection Hr|].
    apply Forall_cons in Hwf as (Hh & _). cbn [fmap list_fmap concat] in Hr. rewrite <- app_assoc in Hr.
    exfalso. eapply Hno; [exact Hh| |exact Hr]. rewrite zlen_app, zlen_cons in Hle. pose proof (zlen_nonneg new). lia. }
  destruct (Z.land (b2z b) 0x80 =? 0) eqn:E80; destruct (Z.land (b2z b) 0x7f =? GFN_OPUS_PAYLOAD_TYPE) eqn:E7f.
  - rewrite (Hfinal (conj eq_refl eq_refl)) in *. cbn [red_headers]. rewrite zget_at. cbn [head].
    rewrite E80, E7f. cbn [negb]. eexists. split; [reflexivity|]. intros hs off. split.
    + intros [= <- <-]. exists [], rest. rewrite app_nil_r. split; [done|]. split; [done|]. split; [done|]. split; [done|].
      cbn. rewrite zlen_app. done.
    + intros ([|h new] & body & -> & _ & _ & Hr & ->); [|by destruct (red_header_bytes h) as (? & ? & ? & Eh); cbn in Hr].
      rewrite app_nil_r. cbn. by rewrite zlen_app.
  - apply (Hnone None); [|done| |].
    + cbn [red_headers]. rewrite zget_at. cbn [head]. by rewrite E80, E7f.
    + intros h tail Hh _ Hr. injection Hr as Hb _. rewrite Hb in E80. by vm_compute in E80.
    + intros ->. by vm_compute in E7f.
  - rewrite (Hother (conj eq_refl eq_refl)) in *. clear Hother Hfinal.
    destruct (decide (zlen acc < MAX_REDUNDANT_AUDIO_BLOCKS)) as [Hlt|Hge].
    2: { apply (Hnone None); [|done| |done].
         - cbn [red_headers]. rewrite zget_at. cbn [head]. rewrite E80, E7f. cbn [negb orb].
           by rewrite (proj2 (Z.eqb_eq _ _)) by lia.
         - intros. lia. }
    destruct rest as [|b1 [|b2 [|b3 rest]]];
      try (apply (Hnone None); [|done| |done];
           [cbn [red_headers]; rewrite zget_at; cbn [head]; rewrite E80, E7f; cbn [negb orb];
            rewrite (proj2 (Z.eqb_neq _ _)) by lia;
            destruct (zget_range _ _ _) as [r|] eqn:Hr; [|done];
            apply zget_range_split in Hr as (tail & Hr & Hl);
            apply (f_equal zlen) in Hr; rewrite zlen_app in Hr; pose proof (zlen_nonneg tail); unfold zlen in *; cbn in *; lia
           |intros h tail _ _ Hr; apply (f_equal zlen) in Hr; rewrite zlen_app in Hr; pose proof (zlen_nonneg tail);
            unfold zlen in *; cbn in *; lia]).
    destruct (red_header_fields b1 b2 b3) as (Hbytes & Hwf1 & Hwf2).
    change (z2b 0xef :: b1 :: b2 :: b3 :: rest) with ([z2b 0xef; b1; b2; b3] ++ rest).
    rewrite red_headers_turn by done.
    destruct (IH (pre ++ [z2b 0xef; b1; b2; b3]) rest (acc ++ [red_fields b1 b2 b3])) as (o & Ho & Hspec).
    { rewrite zlen_app, zlen_cons, zlen_nil. lia. }
    { rewrite zlen_app, zlen_cons, zlen_nil. lia. }
    exists o. split; [exact Ho|]. intros hs off. rewrite Hspec. split.
    + intros (new & body & -> & Hnew & Hle & -> & ->). exists (red_fields b1 b2 b3 :: new), body.
      rewrite <- app_assoc in *. split; [done|]. split; [by constructor|]. split; [done|].
      rewrite fmap_cons. cbn [concat]. rewrite Hbytes. rewrite <- !app_assoc. done.
    + intros ([|h new] & body & -> & Hnew & Hle & Hr & ->); [cbn in Hr; by injection Hr|].
      apply Forall_cons in Hnew as ((Hh1 & Hh2) & Hnew). rewrite fmap_cons in Hr. cbn [concat] in Hr.
      destruct (red_header_bytes h) as (c1 & c2 & c3 & Eh). rewrite Eh in Hr. cbn in Hr. injection Hr as -> -> -> Hr.
      destruct (red_fields_header h _ _ _ _ Hh1 Hh2 Eh) as (_ & <-).
      exists new, body. rewrite <- app_assoc in *. split; [done|]. split; [done|]. split; [done|].
      split; [exact Hr|]. rewrite fmap_cons. cbn [concat]. rewrite Eh. by rewrite <- !app_assoc.
  - apply (Hnone None); [|done| |].
    + cbn [red_headers]. rewrite zget_at. cbn [head]. by rewrite E80, E7f.
    + intros h tail Hh _ Hr. injection Hr as Hb _. rewrite Hb in E7f. by vm_compute in E7f.
    + intros ->. by vm_compute in E80.
Qed.

(** The blocks. *)
Lemma red_blocks_spec hs : forall pre rest,
  forall blocks off, red_blocks (pre ++ rest) (zlen pre) hs = Some (blocks, off) <->
    exists body, rest = concat (block_payload <$> blocks) ++ body /\ hs = header_of <$> blocks
      /\ Forall (fun b => opus_sized (block_payload b) = true) blocks
      /\ off = zlen (pre ++ concat (block_payload <$> blocks)).
Proof.
  induction hs as [|[ts n] hs IH]; intros pre rest blocks off; cbn [red_blocks].
  - split.
    + intros [= <- <-]. exists rest. rewrite app_nil_r. by cbn.
    + intros (body & -> & Hh & _ & ->). symmetry in Hh. apply fmap_nil_inv in Hh as ->. by rewrite app_nil_r.
  - split.
    + destruct (zget_range _ _ _) as [block|] eqn:Hblock; [|done]. cbn [mbind option_bind].
      destruct (opus_sized block) eqn:Hsize; cbn [negb]; [|done].
      destruct (zget_range_split _ _ _ _ Hblock) as (tail & -> & Hn).
      assert (Hoff : zlen pre + n = zlen (pre ++ block)) by (rewrite zlen_app; lia).
      rewrite Hoff, (app_assoc pre). destruct (red_blocks _ _ hs) as [[bs o]|] eqn:Hrec; [|done]. cbn [mbind option_bind].
      intros [= <- <-]. apply IH in Hrec as (body & -> & -> & Hall & ->). exists body.
      rewrite !fmap_cons. cbn [concat block_payload]. rewrite <- !app_assoc. split; [done|]. split; [|split; [by constructor|done]].
      unfold header_of at 2. cbn. by rewrite Hn.
    + intros (body & -> & Hh & Hall & ->). destruct blocks as [|b bs]; [done|].
      rewrite fmap_cons in Hh. injection Hh as -> -> Hh. apply Forall_cons in Hall as (Hb & Hall).
      rewrite !fmap_cons. cbn [concat]. rewrite <- !app_assoc. rewrite zget_range_prefix by done. cbn [mbind option_bind].
      rewrite Hb. cbn [negb]. rewrite <- zlen_app, (app_assoc pre).
      rewrite (proj2 (IH _ _ bs (zlen ((pre ++ block_payload b) ++ concat (block_payload <$> bs))))); [|by exists body].
      cbn [mbind option_bind]. rewrite <- app_assoc. by destruct b.
Qed.

Lemma opus_sized_spec l : opus_sized l = true <-> 1 <= zlen l <= MAX_OPUS_PACKET_BYTES.
Proof.
  unfold opus_sized, MAX_OPUS_PACKET_BYTES. pose proof (zlen_nonneg l).
  destruct (Z.eqb_spec (zlen l) 0), (Z.leb_spec (zlen l) 1275); cbn; split; try done; lia.
Qed.

Lemma header_wf_of bs : Forall red_block_wf bs <->
  Forall header_wf (header_of <$> bs) /\ Forall (fun b => opus_sized (block_payload b) = true) bs.
Proof.
  rewrite Forall_fmap, <- Forall_and. apply Forall_iff. intros b. unfold red_block_wf, header_wf, header_of. cbn.
  rewrite opus_sized_spec. unfold MAX_OPUS_PACKET_BYTES. lia.
Qed.

Lemma parse_red_opus_spec (payload : list u8) :
  exists o, parse_red_opus payload = Ok o
    /\ forall red, o = Some red <-> red_wf red /\ payload = encode_red red.
Proof.
  unfold parse_red_opus.
  destruct (red_headers_spec 9 [] payload []) as (o & Ho & Hspec); [done|by vm_compute|].
  cbn [app] in Ho. rewrite zlen_nil in Ho. rewrite Ho. obind. eexists. split; [reflexivity|]. intros [bs p]. split.
  - destruct o as [[hs off]|]; [|done]. cbn [mbind option_bind].
    destruct (proj1 (Hspec hs off) eq_refl) as (new & body & -> & Hwf & Hle & Hp & ->). clear Hspec Ho. rewrite Hp, ?app_nil_l in *.
    rewrite app_assoc. destruct (red_blocks _ _ new) as [[bs' o']|] eqn:Hb; [|done]. cbn [mbind option_bind].
    apply red_blocks_spec in Hb as (tail & -> & -> & Hsized & ->).
    rewrite (app_assoc (concat _ ++ _) (concat _) tail). set (pre := (concat _ ++ _) ++ concat _). assert (Hr : zget_range (pre ++ tail) (zlen pre) (zlen (pre ++ tail)) = Some tail).
    { rewrite zlen_app. rewrite <- (app_nil_r tail) at 1. by apply zget_range_prefix. }
    rewrite Hr. cbn [mbind option_bind]. destruct (opus_sized tail) eqn:Ht; [|done]. intros [= <- <-].
    apply opus_sized_spec in Ht. split.
    + split; [cbn; unfold zlen in *; by rewrite length_fmap in Hle|]. split; [by apply header_wf_of|done].
    + unfold encode_red, pre. cbn. rewrite <- !app_assoc. by rewrite <- list_fmap_compose.
  - intros ((Hn & Hwf & Hp) & ->). cbn [redundant primary] in *. apply header_wf_of in Hwf as (Hh & Hs).
    rewrite (proj2 (Hspec (header_of <$> bs) (zlen (concat (red_header <$> (header_of <$> bs)) ++ [z2b 0x6f])))).
    2: { exists (header_of <$> bs), (concat (block_payload <$> bs) ++ p). split; [done|]. split; [done|].
         split; [unfold zlen in *; by rewrite length_fmap|]. split; [|done]. unfold encode_red. cbn.
         by rewrite <- list_fmap_compose. }
    cbn [mbind option_bind]. unfold encode_red. cbn [redundant primary].
    rewrite (list_fmap_compose header_of red_header), (app_assoc (concat (red_header <$> _))).
    set (heads := concat (red_header <$> (header_of <$> bs)) ++ [z2b 0x6f]).
    rewrite (proj2 (red_blocks_spec (header_of <$> bs) heads (concat (block_payload <$> bs) ++ p) bs
      (zlen (heads ++ concat (block_payload <$> bs))))); [|by exists p].
    cbn [mbind option_bind]. rewrite (app_assoc heads (concat _) p). set (pre := heads ++ concat _).
    assert (Hr : zget_range (pre ++ p) (zlen pre) (zlen (pre ++ p)) = Some p).
    { rewrite zlen_app. rewrite <- (app_nil_r p) at 1. by apply zget_range_prefix. }
    rewrite Hr. cbn [mbind option_bind]. by rewrite (proj2 (opus_sized_spec p)) by exact Hp.
Qed.

(** RED payloads are parsed exactly.  The parser never panics; what it
    returns is well formed (at most eight redundant blocks of at most 1023
    bytes with 14-bit offsets, no empty block, an Opus packet of at most 1275
    bytes), and it returns [red] for exactly one byte string, the RFC 2198
    encoding of [red]. *)
Theorem red_parses_exactly (payload : list u8) :
  exists o, parse_red_opus payload = Ok o
    /\ forall red, o = Some red <-> red_wf red /\ payload = encode_red red.
Proof. exact (parse_red_opus_spec payload). Qed.

(** ** Lost packets are filled in *)
Section AudioStream.
Variable track : NvstAudioTrack.
(** The sender's frames and their timestamps, its first sequence number, and
    how many earlier frames a packet repeats. *)
Variable sound : nat -> list u8.
Variable stamp : nat -> Z.
Variables ssrc first_sequence : Z.
Variable redundancy : nat.

Definition red_block (i j : nat) : RedOpusBlock :=
  {| timestamp_offset := as_u32 (stamp i - stamp j); block_payload := sound j |}.
Definition red_of (i : nat) : RedOpusPayload :=
  {| redundant := red_block i <$> seq (i - redundancy) (Nat.min redundancy i); primary := sound i |}.
Definition audio_header (i : nat) : BundleRtpHeader :=
  {| bh_ssrc := ssrc; bh_sequence_number := as_u16 (first_sequence + Z.of_nat i); bh_payload_type := GFN_RED_PAYLOAD_TYPE;
     bh_timestamp := stamp i |}.

Definition audio_sent : Prop :=
  (redundancy <= 8)%nat
  /\ (forall i, 1 <= zlen (sound i) < 2 ^ 10 /\ is_u32 (stamp i))
  /\ (forall i j, (j < i <= j + redundancy)%nat -> as_u32 (stamp i - stamp j) < 2 ^ 14).

Fixpoint receive_audio (self : NvstAudioReceiver.t) (arrivals : list (nat * Z))
    : outcome NvstDropReason (NvstAudioReceiver.t * list EncodedMediaFrame) :=
  match arrivals with
  | [] => mret (self, [])
  | (i, received_at_us) :: arrivals =>
      out ← NvstAudioReceiver.depacketize self track (audio_header i) (encode_red (red_of i)) received_at_us;
      rest ← receive_audio out.1 arrivals;
      mret (rest.1, out.2 ++ rest.2)
  end.

(** Frame [j] as it leaves the receiver. *)
Definition audio_frame (received_at_us : Z) (contiguous : bool) (j : nat) : EncodedMediaFrame := {|
  mid := at_mid track; mf_codec := "opus"; mf_payload := sound j; mf_frame_index := None; rtp_timestamp := stamp j;
  clock_rate_hz := at_clock_rate_hz track; channels := Some (at_channels track); received_at_us := received_at_us;
  mf_keyframe := false; mf_contiguous := contiguous; mf_ssrc := Some ssrc |}.

(** After frame [newest], packet [i] brings the frames it still has: all that
    are missing, or the last [redundancy] of them, the first of which is then
    marked as following a gap. *)
Definition heard_from (newest i : nat) : nat := Nat.max (S newest) (i - redundancy).
Definition frames_from (received_at_us : Z) (contiguous : bool) (lo i : nat) : list EncodedMediaFrame :=
  audio_frame received_at_us contiguous lo :: (audio_frame received_at_us true <$> seq (S lo) (i - lo)).
Fixpoint expected_audio (newest : nat) (arrivals : list (nat * Z)) : list EncodedMediaFrame :=
  match arrivals with
  | [] => []
  | (i, received_at_us) :: arrivals =>
      if (i <=? newest)%nat then expected_audio newest arrivals
      else frames_from received_at_us (heard_from newest i =? S newest)%nat (heard_from newest i) i ++ expected_audio i arrivals
  end.

(** Arrivals are less than half the sequence space away from the newest. *)
Fixpoint within_reach (newest : nat) (arrivals : list (nat * Z)) : Prop :=
  match arrivals with
  | [] => True
  | (i, _) :: arrivals => Z.abs (Z.of_nat i - Z.of_nat newest) < 0x8000 /\ within_reach (Nat.max newest i) arrivals
  end.

Hypothesis sent : audio_sent.

Lemma red_of_wf i : red_wf (red_of i).
Proof.
  destruct sent as (Hk & Hs & Ht). split; [|split].
  - cbn. unfold zlen, MAX_REDUNDANT_AUDIO_BLOCKS. rewrite length_fmap, length_seq. lia.
  - apply Forall_fmap, Forall_forall. intros j Hj%elem_of_seq. split; [|apply Hs].
    cbn. split; [apply as_u32_range|apply Ht; lia].
  - cbn. unfold MAX_OPUS_PACKET_BYTES. destruct (Hs i). lia.
Qed.

Lemma stamp_back i j : as_u32 (stamp i - as_u32 (stamp i - stamp j)) = stamp j.
Proof.
  destruct sent as (_ & Hs & _). destruct (Hs j) as (_ & Hj). unfold as_u32 in *.
  rewrite Zminus_mod_idemp_r. replace (stamp i - (stamp i - stamp j)) with (stamp j) by lia. by apply Z.mod_small.
Qed.

Lemma depacketize_new self i newest received_at_us missing :
  NvstAudioReceiver.missing_before self (audio_header i) = Some (missing, false) ->
  missing = Z.of_nat i - Z.of_nat (S newest) -> (newest < i)%nat ->
  NvstAudioReceiver.depacketize self track (audio_header i) (encode_red (red_of i)) received_at_us
  = Ok ({| NvstAudioReceiver.last_sequence := Some (ssrc, as_u16 (first_sequence + Z.of_nat i));
           NvstAudioReceiver.discontinuity_pending := NvstAudioReceiver.discontinuity_pending self |},
        frames_from received_at_us (heard_from newest i =? S newest)%nat (heard_from newest i) i).
Proof.
  intros Hm Hmissing Hnew. unfold NvstAudioReceiver.depacketize. rewrite Hm. cbn [bh_payload_type audio_header].
  rewrite Z.eqb_refl. destruct (parse_red_opus_spec (encode_red (red_of i))) as (o & -> & Ho).
  rewrite (proj2 (Ho (red_of i)) (conj (red_of_wf i) eq_refl)). obind.
  assert (Hn : zlen (redundant (red_of i)) = Z.of_nat (Nat.min redundancy i)).
  { cbn. unfold zlen. by rewrite length_fmap, length_seq. }
  rewrite Hn. set (r := Z.min missing (Z.of_nat (Nat.min redundancy i))).
  assert (Hlo : Z.of_nat (heard_from newest i) = Z.of_nat i - r) by (unfold heard_from, r; lia).
  assert (Hused : drop (Z.to_nat (Z.of_nat (Nat.min redundancy i) - r)) (redundant (red_of i))
    = red_block i <$> seq (heard_from newest i) (i - heard_from newest i)).
  { cbn [redundant red_of]. rewrite <- fmap_drop, drop_seq. do 2 f_equal; lia. }
  rewrite Hused. clear Hused. set (lo := heard_from newest i) in *.
  assert (Hcont : (missing =? r) = (lo =? S newest)%nat).
  { destruct (Z.eqb_spec missing r), (Nat.eqb_spec lo (S newest)); lia. }
  cbn [negb andb]. rewrite Hcont. clear Hcont.
  set (append := NvstAudioReceiver.opus_frame track (audio_header i) received_at_us).
  assert (Hframes : ((fun block => append (block_payload block) (as_u32 (bh_timestamp (audio_header i) - timestamp_offset block)))
      <$> (red_block i <$> seq lo (i - lo))) ++ [append (primary (red_of i)) (bh_timestamp (audio_header i))]
    = audio_frame received_at_us true <$> seq lo (S (i - lo))).
  { rewrite seq_S, fmap_app, <- list_fmap_compose. f_equal.
    - apply list_fmap_ext. intros n j _. cbn. unfold append, audio_frame, NvstAudioReceiver.opus_frame. cbn. by rewrite stamp_back.
    - cbn. replace (lo + (i - lo))%nat with i by lia. done. }
  rewrite Hframes. cbn [seq fmap list_fmap NvstAudioReceiver.set_contiguous]. obind. done.
Qed.

Lemma receive_audio_spec arrivals : forall self newest,
  NvstAudioReceiver.last_sequence self = Some (ssrc, as_u16 (first_sequence + Z.of_nat newest)) ->
  within_reach newest arrivals ->
  exists self', receive_audio self arrivals = Ok (self', expected_audio newest arrivals).
Proof.
  induction arrivals as [|[i at_us] arrivals IH]; intros self newest Hlast Hreach; [by eexists|].
  destruct Hreach as (Hi & Hreach). cbn [receive_audio expected_audio].
  assert (Hdelta : as_u16 (bh_sequence_number (audio_header i) - as_u16 (first_sequence + Z.of_nat newest))
    = (Z.of_nat i - Z.of_nat newest) mod 2 ^ 16).
  { cbn. unfold as_u16. rewrite <- Zminus_mod. f_equal. lia. }
  destruct (Nat.leb_spec i newest) as [Hle|Hgt].
  - assert (Hm : NvstAudioReceiver.missing_before self (audio_header i) = None).
    { unfold NvstAudioReceiver.missing_before. rewrite Hlast. cbn [bh_ssrc audio_header]. rewrite Z.eqb_refl.
      change (bh_sequence_number _) with (bh_sequence_number (audio_header i)). rewrite Hdelta.
      destruct (Z.eqb_spec ((Z.of_nat i - Z.of_nat newest) mod 2 ^ 16) 0); [done|].
      destruct (Z.leb_spec 0x8000 ((Z.of_nat i - Z.of_nat newest) mod 2 ^ 16)) as [|Hsmall]; [done|].
      exfalso. Z.to_euclidean_division_equations. lia. }
    unfold NvstAudioReceiver.depacketize at 1. rewrite Hm. obind. cbn [fst snd].
    rewrite Nat.max_l in Hreach by done. destruct (IH self newest Hlast Hreach) as (self' & ->). by eexists.
  - assert (Hm : NvstAudioReceiver.missing_before self (audio_header i) = Some (Z.of_nat i - Z.of_nat (S newest), false)).
    { unfold NvstAudioReceiver.missing_before. rewrite Hlast. cbn [bh_ssrc audio_header]. rewrite Z.eqb_refl.
      change (bh_sequence_number _) with (bh_sequence_number (audio_header i)).
      rewrite Hdelta, Z.mod_small by lia. rewrite (proj2 (Z.eqb_neq _ _)), (proj2 (Z.leb_gt _ _)) by lia. cbn [orb].
      do 2 f_equal. lia. }
    rewrite (depacketize_new self i newest at_us _ Hm eq_refl Hgt). obind. cbn [fst snd].
    rewrite Nat.max_r in Hreach by lia.
    destruct (IH {| NvstAudioReceiver.last_sequence := Some (ssrc, as_u16 (first_sequence + Z.of_nat i));
      NvstAudioReceiver.discontinuity_pending := NvstAudioReceiver.discontinuity_pending self |} i eq_refl Hreach) as (self' & ->).
    by eexists.
Qed.
End AudioStream.

(** C24: audio survives losses.  A sender repeats in each packet up to
    [redundancy] (at most eight) of the frames before it.  Whatever packets are
    lost, late or duplicated (less than half the sequence space out of place),
    the receiver hands on, from the first packet it gets, exactly the frames it
    can: each once and in order, with the sender's payload and timestamp; late
    packets and duplicates add nothing; a run of at most [redundancy] losses is
    filled completely; and a frame is marked as following a gap exactly when
    some frame before it is missing. *)
Theorem redundant_audio_fills_gaps (track : NvstAudioTrack) (sound : nat -> list u8) (stamp : nat -> Z) (ssrc first_sequence : Z)
    (redundancy i : nat) (received_at_us : Z) (arrivals : list (nat * Z))
    (Hsent : audio_sent sound stamp redundancy) (Hreach : within_reach i arrivals) :
  exists self, receive_audio track sound stamp ssrc first_sequence redundancy NvstAudioReceiver.default ((i, received_at_us) :: arrivals)
    = Ok (self, audio_frame track sound stamp ssrc received_at_us true i :: expected_audio track sound stamp ssrc redundancy i arrivals).
Proof.
  cbn [receive_audio].
  assert (Hfirst : NvstAudioReceiver.depacketize NvstAudioReceiver.default track (audio_header stamp ssrc first_sequence i)
      (encode_red (red_of sound stamp redundancy i)) received_at_us
    = Ok ({| NvstAudioReceiver.last_sequence := Some (ssrc, as_u16 (first_sequence + Z.of_nat i));
             NvstAudioReceiver.discontinuity_pending := false |}, [audio_frame track sound stamp ssrc received_at_us true i])).
  { unfold NvstAudioReceiver.depacketize. cbn [NvstAudioReceiver.missing_before NvstAudioReceiver.default NvstAudioReceiver.last_sequence].
    cbn [bh_payload_type audio_header]. rewrite Z.eqb_refl.
    destruct (parse_red_opus_spec (encode_red (red_of sound stamp redundancy i))) as (o & -> & Ho).
    rewrite (proj2 (Ho (red_of sound stamp redundancy i))) by (split; [by apply red_of_wf|done]). obind.
    set (n := zlen _). assert (Hn : 0 <= n) by apply zlen_nonneg. rewrite (Z.min_l 0 n), Z.sub_0_r by done.
    rewrite (drop_ge _ (Z.to_nat n)) by (unfold n, zlen; lia). cbn. done. }
  rewrite Hfirst. obind. cbn [fst snd].
  destruct (receive_audio_spec track sound stamp ssrc first_sequence redundancy Hsent arrivals
    {| NvstAudioReceiver.last_sequence := Some (ssrc, as_u16 (first_sequence + Z.of_nat i));
       NvstAudioReceiver.discontinuity_pending := false |} i eq_refl Hreach) as (self & ->).
  by eexists.
Qed.

(** Packets 1 and 2 are lost and repeated by packet 3; packet 2 arrives late;
    of the packets 4 to 6 only two frames can be filled in. *)
Lemma redundant_audio_fills_gaps_witness :
  let track := {| at_payload_type := 111; at_clock_rate_hz := 48000; at_channels := 2; at_mid := "audio"; at_ssrc := None |} in
  let sound := fun i => [z2b (Z.of_nat i)] in
  let stamp := fun i => as_u32 (Z.of_nat i * 480) in
  let arrivals := [(3%nat, 30); (2%nat, 31); (3%nat, 32); (7%nat, 70)] in
  (fun f => (mf_payload f, mf_contiguous f)) <$> expected_audio track sound stamp 9 2 0 arrivals
    = [([z2b 1], true); ([z2b 2], true); ([z2b 3], true); ([z2b 5], false); ([z2b 6], true); ([z2b 7], true)]
  /\ exists self, receive_audio track sound stamp 9 65534 2 NvstAudioReceiver.default ((0%nat, 0) :: arrivals)
    = Ok (self, audio_frame track sound stamp 9 0 true 0 :: expected_audio track sound stamp 9 2 0 arrivals).
Proof.
  intros track sound stamp arrivals. split; [reflexivity|].
  refine (redundant_audio_fills_gaps track sound stamp 9 65534 2 0 0 arrivals _ _).
  - split; [lia|]. split.
    + intros i. split; [by vm_compute|]. apply as_u32_range.
    + intros i j Hij. unfold stamp, as_u32. rewrite <- Zminus_mod.
      replace (Z.of_nat i * 480 - Z.of_nat j * 480) with ((Z.of_nat i - Z.of_nat j) * 480) by lia.
      rewrite Z.mod_small by lia. lia.
  - cbn. lia.
Defined.

(** ** The streams the peer connection expects *)
Inductive stream_op := StreamDatagram (datagram : list u8) | StreamAuthenticated (ssrc : Z) | StreamPollEnds.

Definition stream_step (track : NvstAudioTrack) (s : NvstAudioStreams.t * list RtcCall) (op : stream_op)
    : outcome Empty_set (NvstAudioStreams.t * list RtcCall) :=
  match op with
  | StreamDatagram datagram =>
      out ← NvstAudioStreams.admission s.1 track datagram; mret (out.1.1, s.2 ++ out.1.2)
  | StreamAuthenticated ssrc => let '(self, calls) := NvstAudioStreams.authenticated s.1 ssrc in mret (self, s.2 ++ calls)
  | StreamPollEnds => let '(self, calls) := NvstAudioStreams.finish_poll s.1 in mret (self, s.2 ++ calls)
  end.

(** The streams the peer connection has after the calls. *)
Definition rtc_call (streams : gset Z) (call : RtcCall) : gset Z :=
  match call with ExpectStreamRx ssrc _ => {[ssrc]} ∪ streams | RemoveStreamRx ssrc => streams ∖ {[ssrc]} end.
Definition rtc_streams (calls : list RtcCall) : gset Z := foldl rtc_call ∅ calls.

Record streams_ok (track : NvstAudioTrack) (s : NvstAudioStreams.t * list RtcCall) : Prop := {
  so_streams : rtc_streams s.2 = list_to_set (NvstAudioStreams.authenticated_ssrcs s.1 ++ option_list (NvstAudioStreams.provisional s.1));
  so_distinct : NoDup (NvstAudioStreams.authenticated_ssrcs s.1 ++ option_list (NvstAudioStreams.provisional s.1));
  so_two : zlen (NvstAudioStreams.authenticated_ssrcs s.1) <= 2;
  so_match : Forall (fun ssrc => ssrc <> 0 /\ match at_ssrc track with Some expected => ssrc = expected | None => True end)
    (NvstAudioStreams.authenticated_ssrcs s.1 ++ option_list (NvstAudioStreams.provisional s.1))
}.

Lemma finish_poll_ok track s :
  streams_ok track s ->
  streams_ok track ((NvstAudioStreams.finish_poll s.1).1, s.2 ++ (NvstAudioStreams.finish_poll s.1).2)
  /\ NvstAudioStreams.provisional (NvstAudioStreams.finish_poll s.1).1 = None
  /\ NvstAudioStreams.authenticated_ssrcs (NvstAudioStreams.finish_poll s.1).1 = NvstAudioStreams.authenticated_ssrcs s.1.
Proof.
  intros [H1 H2 H3 H4]. unfold NvstAudioStreams.finish_poll. destruct (NvstAudioStreams.provisional s.1) as [p|] eqn:Hp.
  - cbn [fst snd NvstAudioStreams.provisional NvstAudioStreams.authenticated_ssrcs option_list]. split; [|done].
    cbn [option_list option_rect] in H1, H2, H4. apply NoDup_app in H2 as (Hnd & Hnot & _). apply Forall_app in H4 as (H4 & _).
    constructor; cbn; rewrite ?app_nil_r; try done. unfold rtc_streams in *. rewrite foldl_app, H1. cbn. apply set_eq. intros x.
    specialize (Hnot x). rewrite elem_of_difference, !elem_of_list_to_set, elem_of_app, elem_of_singleton, list_elem_of_singleton in *. naive_solver.
  - cbn [fst snd]. rewrite app_nil_r, Hp. split; [|done]. constructor; cbn [fst snd]; by rewrite ?Hp.
Qed.

Lemma rtp_classified d : exists b, looks_like_rtp d = Ok b /\ (b = true -> RTP_FIXED_HEADER_LEN <= zlen d).
Proof.
  unfold looks_like_rtp. destruct (Z.leb_spec RTP_FIXED_HEADER_LEN (zlen d)) as [Hl|]; [|by eexists].
  unfold RTP_FIXED_HEADER_LEN in *.
  destruct (idx_Ok (E:=Empty_set) d 0 ltac:(lia)) as (b0 & -> & _). obind.
  destruct (_ =? 2); [|by eexists].
  destruct (looks_like_stun_total d) as ([] & -> & _); obind; [by eexists|]. destruct (looks_like_dtls d); [by eexists|].
  unfold looks_like_rtcp. rewrite (proj2 (Z.leb_le 4 _)) by lia.
  destruct (idx_Ok (E:=Empty_set) d 0 ltac:(lia)) as (c0 & -> & _). obind.
  destruct (_ =? 2); [|by eexists].
  destruct (idx_Ok (E:=Empty_set) d 1 ltac:(lia)) as (b1 & -> & _). obind. by eexists.
Qed.

Lemma peeks_total d :
  exists o p, peek_rtp_ssrc d = Ok o /\ peek_rtp_payload_type d = Ok p.
Proof.
  unfold peek_rtp_ssrc, peek_rtp_payload_type. destruct (rtp_classified d) as ([] & -> & Hl); obind; [|by eexists _, _].
  specialize (Hl eq_refl). unfold RTP_FIXED_HEADER_LEN in Hl.
  destruct (idx_Ok (E:=Empty_set) d 8 ltac:(lia)) as (? & -> & _). obind.
  destruct (idx_Ok (E:=Empty_set) d 9 ltac:(lia)) as (? & -> & _). obind.
  destruct (idx_Ok (E:=Empty_set) d 10 ltac:(lia)) as (? & -> & _). obind.
  destruct (idx_Ok (E:=Empty_set) d 11 ltac:(lia)) as (? & -> & _). obind.
  destruct (idx_Ok (E:=Empty_set) d 1 ltac:(lia)) as (? & -> & _). obind.
  by eexists _, _.
Qed.

Lemma expect_ok track s ssrc :
  streams_ok track s -> NvstAudioStreams.provisional s.1 = None ->
  existsb (Z.eqb ssrc) (NvstAudioStreams.authenticated_ssrcs s.1) = false -> ssrc <> 0 ->
  match at_ssrc track with Some expected => ssrc = expected | None => True end ->
  streams_ok track ({| NvstAudioStreams.authenticated_ssrcs := NvstAudioStreams.authenticated_ssrcs s.1;
                       NvstAudioStreams.provisional := Some ssrc |}, s.2 ++ [ExpectStreamRx ssrc (at_mid track)]).
Proof.
  intros [H1 H2 H3 H4] Hp Hnew H0 Hm. rewrite Hp in H1, H2, H4. cbn [option_list option_rect] in H1, H2, H4. rewrite app_nil_r in H1, H2, H4.
  assert (Hnot : ssrc ∉ NvstAudioStreams.authenticated_ssrcs s.1).
  { intros Hin. apply not_true_iff_false in Hnew. apply Hnew, List.existsb_exists. exists ssrc.
    split; [by apply list_elem_of_In|apply Z.eqb_refl]. }
  constructor; cbn.
  - unfold rtc_streams in *. rewrite foldl_app, H1. cbn. set_solver.
  - apply NoDup_app. split; [done|]. split; [set_solver|apply NoDup_singleton].
  - done.
  - apply Forall_app. split; [done|]. by repeat constructor.
Qed.

Lemma authenticated_ok track s ssrc :
  streams_ok track s ->
  streams_ok track ((NvstAudioStreams.authenticated s.1 ssrc).1, s.2 ++ (NvstAudioStreams.authenticated s.1 ssrc).2).
Proof.
  intros Hok. unfold NvstAudioStreams.authenticated. case_bool_decide as Hp; cbn [negb]; [|by rewrite app_nil_r; destruct s].
  destruct Hok as [H1 H2 H3 H4]. rewrite Hp in H1, H2, H4. cbn [option_list option_rect] in H1, H2, H4.
  destruct (NvstAudioStreams.authenticated_ssrcs s.1) as [|retired kept] eqn:Ha.
  - cbn. rewrite app_nil_r. by constructor.
  - destruct (Z.eqb_spec (zlen (retired :: kept)) 2) as [E|E]; cbn [fst snd].
    + constructor; cbn.
      * unfold rtc_streams in *. rewrite foldl_app, H1. cbn. rewrite app_nil_r. apply NoDup_cons in H2 as (Hr & _).
        rewrite list_to_set_app_L in *. set_solver.
      * rewrite app_nil_r. by apply NoDup_cons in H2 as (_ & H2).
      * rewrite zlen_app. unfold zlen in *. cbn in *. lia.
      * rewrite app_nil_r. by apply Forall_cons in H4 as (_ & H4).
    + rewrite app_nil_r. constructor; cbn; rewrite ?app_nil_r; try done.
      change (retired :: kept ++ [ssrc]) with ((retired :: kept) ++ [ssrc]). rewrite zlen_app. unfold zlen in *. cbn in *. lia.
Qed.

Lemma stream_step_ok track s op : streams_ok track s -> exists s', stream_step track s op = Ok s' /\ streams_ok track s'.
Proof.
  intros Hok. destruct op as [d|ssrc|]; cbn [stream_step].
  - destruct (peeks_total d) as (o & p & Ho & Hp). unfold NvstAudioStreams.admission. rewrite Ho. obind.
    assert (Hsame : exists s', (mret (s.1, s.2 ++ []) : outcome Empty_set _) = Ok s' /\ streams_ok track s').
    { eexists. split; [reflexivity|]. rewrite app_nil_r. by destruct s. }
    destruct o as [ssrc|]; [|exact Hsame].
    destruct (Z.eqb_spec ssrc 0) as [|H0]; [obind; exact Hsame|]. rewrite Hp. obind.
    destruct p as [payload_type|]; [|exact Hsame].
    destruct (matches_audio_track track payload_type ssrc) eqn:Hm; [|exact Hsame].
    destruct (finish_poll_ok _ _ Hok) as (Hok' & Hnone & Hauth).
    destruct (NvstAudioStreams.finish_poll s.1) as [self calls]. cbn [fst snd] in *.
    destruct (existsb (Z.eqb ssrc) (NvstAudioStreams.authenticated_ssrcs self)) eqn:Hin; obind; (eexists; split; [reflexivity|]); [done|].
    cbn [fst snd]. rewrite app_assoc. apply (expect_ok track (self, s.2 ++ calls)); try done.
    unfold matches_audio_track in Hm. apply andb_true_iff in Hm as (_ & Hm). destruct (at_ssrc track); [|done]. by apply Z.eqb_eq in Hm.
  - pose proof (authenticated_ok _ _ ssrc Hok) as H. destruct (NvstAudioStreams.authenticated s.1 ssrc) as [self calls].
    by eexists.
  - destruct (finish_poll_ok _ _ Hok) as (H & _). destruct (NvstAudioStreams.finish_poll s.1) as [self calls]. by eexists.
Qed.

(** The peer connection expects at most three audio streams.  Whatever
    datagrams arrive, packets authenticate and polls end: no operation panics;
    the streams the peer connection has been told to expect and not to forget
    are exactly the authenticated ones, of which there are at most two, and the
    provisional one; each has the SSRC of the track when it announces one, and
    none is zero; and after the end of a poll no unauthenticated stream is
    left. *)
Theorem audio_streams_stay_bounded (track : NvstAudioTrack) (ops : list stream_op) :
  exists self calls, ofold (stream_step track) ops (NvstAudioStreams.default, []) = Ok (self, calls)
    /\ rtc_streams calls = list_to_set (NvstAudioStreams.authenticated_ssrcs self ++ option_list (NvstAudioStreams.provisional self))
    /\ (size (rtc_streams calls) <= 3)%nat
    /\ (forall ssrc, ssrc ∈ rtc_streams calls -> ssrc <> 0 /\ match at_ssrc track with Some expected => ssrc = expected | None => True end)
    /\ rtc_streams (calls ++ (NvstAudioStreams.finish_poll self).2) = list_to_set (NvstAudioStreams.authenticated_ssrcs self).
Proof.
  assert (Hrun : forall s, streams_ok track s -> exists s', ofold (stream_step track) ops s = Ok s' /\ streams_ok track s').
  { induction ops as [|op ops IH]; intros s Hok; [by eexists|]. cbn [ofold].
    destruct (stream_step_ok track s op Hok) as (s1 & -> & Hok1). obind. by apply IH. }
  destruct (Hrun (NvstAudioStreams.default, [])) as ([self calls] & Hs & Hok); [constructor; try done; constructor|].
  exists self, calls. split; [exact Hs|]. pose proof (finish_poll_ok _ _ Hok) as (Hend & Hnone & Hauth). destruct Hok as [H1 H2 H3 H4]. cbn [fst snd] in *.
  split; [done|]. split; [|split].
  - rewrite H1, size_list_to_set by done. rewrite length_app. unfold zlen in H3.
    destruct (NvstAudioStreams.provisional self); cbn; lia.
  - intros ssrc Hin. rewrite H1 in Hin. apply elem_of_list_to_set in Hin. rewrite Forall_forall in H4. by apply H4.
  - destruct Hend as [H1' _ _ _]. cbn [fst snd] in H1'. rewrite H1', Hnone, Hauth. cbn. by rewrite app_nil_r.
Qed.
