(* ===== verification/Push.v ===== *)
(** * The push service's wire protocol

    [push/protocol.rs] of opennow-core: the protobuf reader and writer, the
    requests of the MCS protocol, the messages it answers with, and the framing
    of the byte stream ([FrameReader]).  A [String] is its UTF-8 bytes; the
    version of the package is an argument. *)

From stdpp Require Import strings pretty.
From Stdlib Require Import Strings.String.
From S2P Require Import Prelude Text.

Inductive PushError :=
  | UnsupportedProtocolVersion | InvalidFrameSize | OversizedFrame
  | FrameEnded | OversizedInteger | InvalidInteger | OversizedField | InvalidText | UnsupportedFieldType.

Definition MCS_VERSION : Z := 41.
Definition TAG_HEARTBEAT_PING : Z := 0.
Definition TAG_HEARTBEAT_ACK : Z := 1.
Definition TAG_LOGIN_REQUEST : Z := 2.
Definition TAG_LOGIN_RESPONSE : Z := 3.
Definition TAG_CLOSE : Z := 4.
Definition TAG_IQ_STANZA : Z := 7.
Definition TAG_DATA_MESSAGE_STANZA : Z := 8.
Definition STREAM_ACK_EXTENSION_ID : Z := 13.
Definition IQ_TYPE_SET : Z := 1.
Definition AUTH_SERVICE_ANDROID_ID : Z := 2.
Definition WIRE_VARINT : Z := 0.
Definition WIRE_FIXED64 : Z := 1.
Definition WIRE_LENGTH : Z := 2.

Record CheckinRequest := { req_android_id : option Z; req_security_token : option Z }.
Record CheckinResponse := { android_id : option Z; security_token : option Z }.
Record LoginResponse := { error_code : option Z; heartbeat_interval_ms : option Z }.
Record DataMessage := {
  from : list u8;
  category : list u8;
  app_data : list (list u8 * list u8);
  persistent_id : option (list u8);
  raw_data : option (list u8);
  immediate_ack : bool
}.
Inductive Frame :=
  | HeartbeatPing | HeartbeatAck | LoginResponseFrame (response : LoginResponse)
  | DataMessageFrame (message : DataMessage) | CloseFrame | OtherFrame.

(** ** Writing *)

(** The loop of [write_varint]: a [u64] has at most ten groups of seven bits. *)
Fixpoint varint_loop (fuel : nat) (value : Z) : list u8 :=
  let byte := Z.land value 0x7f in
  let value := Z.shiftr value 7 in
  if value =? 0 then [z2b byte] else
  match fuel with
  | O => []
  | S fuel => z2b (Z.lor byte 0x80) :: varint_loop fuel value
  end.
Definition write_varint (value : Z) (out : list u8) : list u8 := out ++ varint_loop 9 value.

Definition write_tag (field wire : Z) (out : list u8) : list u8 := write_varint (Z.lor (as_u64 (Z.shiftl field 3)) wire) out.
Definition write_varint_field (field value : Z) (out : list u8) : list u8 := write_varint value (write_tag field WIRE_VARINT out).
Definition write_bool (field : Z) (value : bool) (out : list u8) : list u8 := write_varint_field field (Z.b2z value) out.
Definition write_bytes (field : Z) (value : list u8) (out : list u8) : list u8 :=
  write_varint (zlen value) (write_tag field WIRE_LENGTH out) ++ value.
Definition write_string (field : Z) (value : list u8) (out : list u8) : list u8 := write_bytes field value out.
Definition write_fixed64 (field value : Z) (out : list u8) : list u8 := write_tag field WIRE_FIXED64 out ++ to_le_bytes 8 value.
Definition write_setting (name value : list u8) (out : list u8) : list u8 :=
  let setting := write_string 1 name [] in
  let setting := write_string 2 value setting in
  write_bytes 8 setting out.

Definition write_frame (versioned : bool) (tag : Z) (payload : list u8) : list u8 :=
  let frame := if versioned then [z2b MCS_VERSION] else [] in
  let frame := frame ++ [z2b tag] in
  write_varint (zlen payload) frame ++ payload.

Definition text_bytes (s : string) : list u8 := list_byte_of_string s.
(** [to_string] and [{:x}] of an [i64] *)
Definition decimal (value : Z) : list u8 := text_bytes (pretty value).
Definition hex_digit (d : Z) : u8 := if d <? 10 then z2b (0x30 + d) else z2b (0x61 + d - 10).
Fixpoint hex_loop (fuel : nat) (value : Z) (digits : list u8) : list u8 :=
  let digits := hex_digit (Z.land value 0xf) :: digits in
  let value := Z.shiftr value 4 in
  if value =? 0 then digits else match fuel with O => digits | S fuel => hex_loop fuel value digits end.
Definition hexadecimal (value : Z) : list u8 := hex_loop 15 (as_u64 value) [].

(** ** Requests *)

Definition optional_varint_field (field : Z) (value : option Z) (out : list u8) : list u8 :=
  match value with Some value => write_varint_field field value out | None => out end.

Definition heartbeat (last_stream_id_received : option Z) : list u8 := optional_varint_field 2 last_stream_id_received [].
Definition encode_heartbeat_ack (last_stream_id_received : option Z) : list u8 :=
  write_frame false TAG_HEARTBEAT_ACK (heartbeat last_stream_id_received).
Definition encode_heartbeat_ping (last_stream_id_received : option Z) : list u8 :=
  write_frame false TAG_HEARTBEAT_PING (heartbeat last_stream_id_received).
Definition encode_close : list u8 := write_frame false TAG_CLOSE [].

Definition encode_stream_ack (last_stream_id_received : option Z) : list u8 :=
  let payload := write_varint_field 2 IQ_TYPE_SET [] in
  let payload := write_string 3 [] payload in
  let extension := write_varint_field 1 STREAM_ACK_EXTENSION_ID [] in
  let extension := write_bytes 2 [] extension in
  let payload := write_bytes 7 extension payload in
  write_frame false TAG_IQ_STANZA (optional_varint_field 10 last_stream_id_received payload).

Definition encode_login_request (package_version : list u8) (android_id security_token : Z)
    (received_persistent_ids : list (list u8)) : list u8 :=
  let payload := write_string 1 (text_bytes "chrome-" ++ package_version) [] in
  let payload := write_string 2 (text_bytes "mcs.android.com") payload in
  let payload := write_string 3 (decimal android_id) payload in
  let payload := write_string 4 (decimal android_id) payload in
  let payload := write_string 5 (decimal security_token) payload in
  let payload := write_string 6 (text_bytes "android-" ++ hexadecimal android_id) payload in
  let payload := write_setting (text_bytes "new_vc") (text_bytes "1") payload in
  let payload := foldl (fun payload id => write_string 10 id payload) payload (take 64 received_persistent_ids) in
  let payload := write_bool 12 false payload in
  let payload := write_bool 14 true payload in
  let payload := write_varint_field 16 AUTH_SERVICE_ANDROID_ID payload in
  let payload := write_varint_field 17 1 payload in
  write_frame true TAG_LOGIN_REQUEST payload.

Definition encode_checkin_request (request : CheckinRequest) : list u8 :=
  let payload := match req_android_id request with Some id => write_varint_field 2 (as_u64 id) [] | None => [] end in
  let checkin := write_varint_field 12 3 [] in
  let chrome_build := write_varint_field 1 3 [] in
  let chrome_build := write_string 2 (text_bytes "63.0.3234.0") chrome_build in
  let chrome_build := write_varint_field 3 1 chrome_build in
  let checkin := write_bytes 13 chrome_build checkin in
  let payload := write_bytes 4 checkin payload in
  let payload := write_varint_field 14 3 payload in
  let payload := write_varint_field 22 0 payload in
  match req_security_token request with Some token => write_fixed64 13 token payload | None => payload end.

(** ** Reading *)
Module Reader.
Record t := { data : list u8; position : Z }.
Definition new (data : list u8) : t := {| data := data; position := 0 |}.
Definition at_position (self : t) (position : Z) : t := {| data := data self; position := position |}.

(** The loop of [read_varint]; the eleventh byte is refused. *)
Fixpoint varint_from (fuel : nat) (self : t) (value shift : Z) : outcome PushError (Z * t) :=
  match fuel with
  | O => Panic
  | S fuel =>
      byte ← ok_or (zget (data self) (position self)) FrameEnded;
      let self := at_position self (position self + 1) in
      guard_err (64 <=? shift) OversizedInteger;;
      let value := Z.lor value (as_u64 (Z.shiftl (Z.land (b2z byte) 0x7f) shift)) in
      if Z.land (b2z byte) 0x80 =? 0 then mret (value, self) else varint_from fuel self value (shift + 7)
  end.
Definition read_varint (self : t) : outcome PushError (Z * t) := varint_from 11 self 0 0.

Definition next_tag (self : t) : outcome PushError (option (Z * Z) * t) :=
  if zlen (data self) <=? position self then mret (None, self) else
  '(tag, self) ← read_varint self;
  mret (Some (Z.shiftr tag 3, Z.land tag 7), self).

Definition read_fixed64 (self : t) : outcome PushError (Z * t) :=
  let end_ := position self + 8 in
  bytes ← ok_or (zget_range (data self) (position self) end_) FrameEnded;
  mret (from_le_bytes bytes, at_position self end_).

Definition take_length (self : t) : outcome PushError (list u8 * t) :=
  '(length, self) ← read_varint self;
  guard_err (saturating_sub (zlen (data self)) (position self) <? length) OversizedField;;
  let end_ := position self + length in
  taken ← slice (data self) (position self) end_;
  mret (taken, at_position self end_).

Definition read_string (self : t) : outcome PushError (list u8 * t) :=
  '(bytes, self) ← take_length self;
  match from_utf8 bytes with Some _ => mret (bytes, self) | None => Err InvalidText end.

Definition skip (self : t) (wire : Z) : outcome PushError t :=
  if wire =? WIRE_VARINT then snd <$> read_varint self
  else if wire =? WIRE_FIXED64 then snd <$> read_fixed64 self
  else if wire =? WIRE_LENGTH then snd <$> take_length self
  else Err UnsupportedFieldType.

(** [while let Some((field, wire)) = reader.next_tag()?]: every turn takes at
    least one byte, so the length of the data is fuel enough. *)
Fixpoint fields_from {A} (fuel : nat) (handle : A -> Z -> Z -> t -> outcome PushError (A * t)) (a : A) (self : t)
    : outcome PushError A :=
  match fuel with
  | O => Panic
  | S fuel =>
      '(tag, self) ← next_tag self;
      match tag with
      | None => mret a
      | Some (field, wire) => '(a, self) ← handle a field wire self; fields_from fuel handle a self
      end
  end.
Definition fields {A} (handle : A -> Z -> Z -> t -> outcome PushError (A * t)) (a : A) (data : list u8) : outcome PushError A :=
  fields_from (S (length data)) handle a (new data).

Definition skipped {A} (a : A) (wire : Z) (self : t) : outcome PushError (A * t) := self ← skip self wire; mret (a, self).
End Reader.
Import Reader.

(** ** Messages *)

(** The nested messages of [decode_login_response]: one [i32] field. *)
Definition i32_field (wanted : Z) (value : option Z) (field wire : Z) (reader : Reader.t) : outcome PushError (option Z * Reader.t) :=
  if (field =? wanted) && (wire =? WIRE_VARINT) then '(v, reader) ← read_varint reader; mret (Some (as_i32 v), reader)
  else skipped value wire reader.

Definition decode_login_response (payload : list u8) : outcome PushError LoginResponse :=
  fields (fun response field wire reader =>
    if (field =? 3) && (wire =? WIRE_LENGTH) then
      '(nested, reader) ← take_length reader;
      error_code ← fields (i32_field 1) (error_code response) nested;
      mret ({| error_code := error_code; heartbeat_interval_ms := heartbeat_interval_ms response |}, reader)
    else if (field =? 7) && (wire =? WIRE_LENGTH) then
      '(nested, reader) ← take_length reader;
      interval ← fields (i32_field 3) (heartbeat_interval_ms response) nested;
      mret ({| error_code := error_code response; heartbeat_interval_ms := interval |}, reader)
    else skipped response wire reader)
  {| error_code := None; heartbeat_interval_ms := None |} payload.

Definition with_from (m : DataMessage) (v : list u8) : DataMessage :=
  {| from := v; category := category m; app_data := app_data m; persistent_id := persistent_id m; raw_data := raw_data m;
     immediate_ack := immediate_ack m |}.
Definition with_category (m : DataMessage) (v : list u8) : DataMessage :=
  {| from := from m; category := v; app_data := app_data m; persistent_id := persistent_id m; raw_data := raw_data m;
     immediate_ack := immediate_ack m |}.
Definition with_app_data (m : DataMessage) (v : list (list u8 * list u8)) : DataMessage :=
  {| from := from m; category := category m; app_data := v; persistent_id := persistent_id m; raw_data := raw_data m;
     immediate_ack := immediate_ack m |}.
Definition with_persistent_id (m : DataMessage) (v : list u8) : DataMessage :=
  {| from := from m; category := category m; app_data := app_data m; persistent_id := Some v; raw_data := raw_data m;
     immediate_ack := immediate_ack m |}.
Definition with_raw_data (m : DataMessage) (v : list u8) : DataMessage :=
  {| from := from m; category := category m; app_data := app_data m; persistent_id := persistent_id m; raw_data := Some v;
     immediate_ack := immediate_ack m |}.
Definition with_immediate_ack (m : DataMessage) (v : bool) : DataMessage :=
  {| from := from m; category := category m; app_data := app_data m; persistent_id := persistent_id m; raw_data := raw_data m;
     immediate_ack := v |}.

Definition MAX_APP_DATA : Z := 128.
Definition app_entry (entry : list u8 * list u8) (field wire : Z) (reader : Reader.t) : outcome PushError (list u8 * list u8 * Reader.t) :=
  if (field =? 1) && (wire =? WIRE_LENGTH) then '(key, reader) ← read_string reader; mret ((key, entry.2), reader)
  else if (field =? 2) && (wire =? WIRE_LENGTH) then '(value, reader) ← read_string reader; mret ((entry.1, value), reader)
  else skipped entry wire reader.

Definition message_field (message : DataMessage) (field wire : Z) (reader : Reader.t) : outcome PushError (DataMessage * Reader.t) :=
  if (field =? 3) && (wire =? WIRE_LENGTH) then '(v, reader) ← read_string reader; mret (with_from message v, reader)
  else if (field =? 5) && (wire =? WIRE_LENGTH) then '(v, reader) ← read_string reader; mret (with_category message v, reader)
  else if (field =? 7) && (wire =? WIRE_LENGTH) then
    '(nested, reader) ← take_length reader;
    '(key, value) ← fields app_entry ([], []) nested;
    let message := if negb (bool_decide (key = [])) && (zlen (app_data message) <? MAX_APP_DATA)
      then with_app_data message (app_data message ++ [(key, value)]) else message in
    mret (message, reader)
  else if (field =? 9) && (wire =? WIRE_LENGTH) then '(v, reader) ← read_string reader; mret (with_persistent_id message v, reader)
  else if (field =? 21) && (wire =? WIRE_LENGTH) then '(v, reader) ← take_length reader; mret (with_raw_data message v, reader)
  else if (field =? 24) && (wire =? WIRE_VARINT) then
    '(v, reader) ← read_varint reader; mret (with_immediate_ack message (negb (v =? 0)), reader)
  else skipped message wire reader.
Definition empty_message : DataMessage :=
  {| from := []; category := []; app_data := []; persistent_id := None; raw_data := None; immediate_ack := false |}.
Definition decode_data_message (payload : list u8) : outcome PushError DataMessage := fields message_field empty_message payload.

Definition decode_checkin_response (payload : list u8) : outcome PushError CheckinResponse :=
  fields (fun response field wire reader =>
    if (field =? 7) && (wire =? WIRE_FIXED64) then
      '(v, reader) ← read_fixed64 reader; mret ({| android_id := Some v; security_token := security_token response |}, reader)
    else if (field =? 8) && (wire =? WIRE_FIXED64) then
      '(v, reader) ← read_fixed64 reader; mret ({| android_id := android_id response; security_token := Some v |}, reader)
    else skipped response wire reader)
  {| android_id := None; security_token := None |} payload.

Definition decode_frame (tag : Z) (payload : list u8) : outcome PushError Frame :=
  if tag =? TAG_HEARTBEAT_PING then mret HeartbeatPing
  else if tag =? TAG_HEARTBEAT_ACK then mret HeartbeatAck
  else if tag =? TAG_CLOSE then mret CloseFrame
  else if tag =? TAG_LOGIN_RESPONSE then LoginResponseFrame <$> decode_login_response payload
  else if tag =? TAG_DATA_MESSAGE_STANZA then DataMessageFrame <$> decode_data_message payload
  else mret OtherFrame.

(** ** The byte stream *)
Module FrameReader.
Record t := { buffer : list u8; expects_version : bool }.
Definition new : t := {| buffer := []; expects_version := true |}.
Definition extend (self : t) (bytes : list u8) : t := {| buffer := buffer self ++ bytes; expects_version := expects_version self |}.

(** The loop over the bytes of the frame's size: the size and the number of its
    bytes; [None] when the buffer ends.  A sixth byte is refused. *)
Fixpoint frame_size (fuel : nat) (buffer : list u8) (position header size shift : Z) : outcome PushError (option (Z * Z)) :=
  match fuel with
  | O => Panic
  | S fuel =>
      match zget buffer (position + header) with
      | None => mret None
      | Some byte =>
          if 5 <=? header then Err InvalidFrameSize else
          let size := Z.lor size (as_u64 (Z.shiftl (Z.land (b2z byte) 0x7f) shift)) in
          if Z.land (b2z byte) 0x80 =? 0 then mret (Some (size, header + 1))
          else frame_size fuel buffer position (header + 1) size (shift + 7)
      end
  end.

(** The version byte: where the frame begins; [None] when the buffer ends. *)
Definition frame_start (self : t) : outcome PushError (option Z) :=
  if negb (expects_version self) then mret (Some 0) else
  if zlen (buffer self) <? 2 then mret None else
  version ← (buffer self).[0];
  guard_err ((b2z version <? MCS_VERSION) && negb (b2z version =? 38)) UnsupportedProtocolVersion;;
  mret (Some 1).

(** The frame behind its tag. *)
Definition frame_body (self : t) (position tag maximum : Z) : outcome PushError (t * option (Z * list u8)) :=
  sized ← frame_size 6 (buffer self) position 0 0 0;
  match sized with
  | None => mret (self, None)
  | Some (size, header) =>
      guard_err (maximum <? size) OversizedFrame;;
      let start := position + header in
      let end_ := start + size in
      if zlen (buffer self) <? end_ then mret (self, None) else
      payload ← slice (buffer self) start end_;
      rest ← slice (buffer self) end_ (zlen (buffer self));
      mret ({| buffer := rest; expects_version := false |}, Some (tag, payload))
  end.

Definition next_frame (self : t) (maximum : Z) : outcome PushError (t * option (Z * list u8)) :=
  start ← frame_start self;
  match start with
  | None => mret (self, None)
  | Some position =>
      if zlen (buffer self) <=? position then mret (self, None) else
      tag ← (buffer self).[position];
      frame_body self (position + 1) (b2z tag) maximum
  end.

(** The receive loop of [owner.rs] around [next_frame]: every frame that is
    complete, or the error that ends the session. *)
Fixpoint drain (fuel : nat) (self : t) (maximum : Z) : outcome Empty_set (t * list (Z * list u8) * option PushError) :=
  match fuel with
  | O => Panic
  | S fuel =>
      match next_frame self maximum with
      | Panic => Panic
      | Err e => mret (self, [], Some e)
      | Ok (self, None) => mret (self, [], None)
      | Ok (self, Some frame) => '(self, frames, e) ← drain fuel self maximum; mret (self, frame :: frames, e)
      end
  end.
(** Every frame takes at least two bytes of the buffer. *)
Definition drain_all (self : t) (maximum : Z) : outcome Empty_set (t * list (Z * list u8) * option PushError) :=
  drain (S (length (buffer self))) self maximum.

Fixpoint receive (self : t) (maximum : Z) (chunks : list (list u8)) : outcome Empty_set (list (Z * list u8) * option PushError) :=
  match chunks with
  | [] => mret ([], None)
  | chunk :: chunks =>
      '(self, frames, e) ← drain_all (extend self chunk) maximum;
      match e with
      | Some e => mret (frames, Some e)
      | None => '(more, e) ← receive self maximum chunks; mret (frames ++ more, e)
      end
  end.
End FrameReader.

(** ** Groups of seven bits *)

Lemma low7 v : 0 <= v -> Z.land v 0x7f = v mod 128.
Proof. intros. change 0x7f with (Z.ones 7). by rewrite Z.land_ones by lia. Qed.
Lemma shr7 v : Z.shiftr v 7 = v / 128.
Proof. by rewrite Z.shiftr_div_pow2 by lia. Qed.

(** The two tests on a byte of a varint. *)
Lemma last_group v : 0 <= v < 128 -> Z.land (b2z (z2b v)) 0x80 = 0 /\ Z.land (b2z (z2b v)) 0x7f = v.
Proof.
  intros Hv. rewrite b2z_z2b_small by lia. split.
  - apply Z.bits_inj'. intros n Hn. rewrite Z.land_spec, Z.bits_0.
    destruct (Z.eq_dec n 7) as [->|Hne].
    + rewrite <- (Z.mod_small v (2 ^ 7)) by lia. by rewrite Z.mod_pow2_bits_high by lia.
    + change 0x80 with (2 ^ 7). rewrite Z.pow2_bits_false by lia. apply andb_false_r.
  - rewrite low7, Z.mod_small by lia. done.
Qed.
Lemma more_group v : 0 <= v < 128 ->
  (Z.land (b2z (z2b (Z.lor v 0x80))) 0x80 =? 0) = false /\ Z.land (b2z (z2b (Z.lor v 0x80))) 0x7f = v.
Proof.
  intros Hv. assert (Hl : Z.lor v 0x80 = v + 128).
  { trans (Z.lor (Z.shiftl 1 7) v); [by rewrite Z.lor_comm|]. rewrite lor_shiftl_low by lia. lia. }
  rewrite Hl, b2z_z2b_small by lia. split.
  - apply Z.eqb_neq. intros E. assert (Ht : Z.testbit (Z.land (v + 128) 0x80) 7 = true); [|by rewrite E, Z.bits_0 in Ht].
    rewrite Z.land_spec. change (Z.testbit 0x80 7) with true. rewrite andb_true_r, Z.testbit_true by lia.
    change (2 ^ 7) with 128. Z.to_euclidean_division_equations. lia.
  - rewrite low7 by lia. Z.to_euclidean_division_equations. lia.
Qed.

Lemma group_added value v shift :
  0 <= value < 2 ^ shift -> 0 <= v -> 0 <= shift -> value + v * 2 ^ shift < 2 ^ 64 ->
  Z.lor value (as_u64 (Z.shiftl v shift)) = value + v * 2 ^ shift.
Proof.
  intros Hvalue Hv Hs Hb. pose proof (Z.pow_pos_nonneg 2 shift ltac:(lia) Hs).
  unfold as_u64. rewrite Z.mod_small by (rewrite Z.shiftl_mul_pow2 by lia; nia).
  rewrite Z.lor_comm, lor_shiftl_low by lia. lia.
Qed.

Lemma varint_step k v : 0 <= v -> varint_loop (S k) v = (if v <? 128 then [z2b v] else z2b (Z.lor (v mod 128) 0x80) :: varint_loop k (v / 128)).
Proof.
  intros Hv. cbn [varint_loop]. rewrite low7, shr7 by done.
  destruct (Z.ltb_spec v 128), (Z.eqb_spec (v / 128) 0); try (exfalso; Z.to_euclidean_division_equations; lia); [|done].
  by rewrite Z.mod_small by lia.
Qed.
Lemma varint_last k v : 0 <= v < 128 -> varint_loop k v = [z2b v].
Proof.
  intros Hv. destruct k; cbn [varint_loop]; rewrite low7, shr7, Z.div_small, Z.mod_small by lia; done.
Qed.

(** The groups after the first: the value shifts down, the accumulated value up. *)
Lemma group_split value v shift :
  0 <= value < 2 ^ shift -> 0 <= shift -> 0 <= v ->
  0 <= value + (v mod 128) * 2 ^ shift < 2 ^ (shift + 7)
  /\ value + (v mod 128) * 2 ^ shift + v / 128 * 2 ^ (shift + 7) = value + v * 2 ^ shift.
Proof.
  intros Hvalue Hs Hv. rewrite Z.pow_add_r by lia. pose proof (Z.pow_pos_nonneg 2 shift ltac:(lia) Hs).
  pose proof (Z.mod_pos_bound v 128 ltac:(lia)). pose proof (Z.div_mod v 128 ltac:(lia)). change (2 ^ 7) with 128. nia.
Qed.

Lemma pow_7_succ n : 2 ^ (7 * Z.of_nat (S (S n))) = 128 * 2 ^ (7 * Z.of_nat (S n)).
Proof. replace (7 * Z.of_nat (S (S n))) with (7 + 7 * Z.of_nat (S n)) by lia. by rewrite Z.pow_add_r by lia. Qed.

(** ** The writer's numbers are read back *)
Section Numbers.
Variables before after : list u8.

Lemma varint_from_written n : forall k fuel pre v value shift,
  0 <= v < 2 ^ (7 * Z.of_nat (S n)) -> (n <= k)%nat -> (n < fuel)%nat ->
  0 <= value < 2 ^ shift -> 0 <= shift -> value + v * 2 ^ shift < 2 ^ 64 -> shift + 7 * Z.of_nat n < 64 ->
  varint_from fuel {| data := pre ++ varint_loop k v ++ after; position := zlen pre |} value shift
  = Ok (value + v * 2 ^ shift, {| data := pre ++ varint_loop k v ++ after; position := zlen (pre ++ varint_loop k v) |}).
Proof.
  induction n as [|n IH]; intros k fuel pre v value shift Hv Hk Hfuel Hvalue Hs Hb Hsh;
    (destruct fuel as [|fuel]; [lia|]); cbn [varint_from]; cbn [data position].
  - assert (Hv' : 0 <= v < 128) by (cbn in Hv; lia). destruct (last_group v Hv') as [H1 H2].
    rewrite varint_last by done. cbn [app]. rewrite zget_at. cbn [head]. obind. unfold at_position. cbn [data position].
    rewrite (proj2 (Z.leb_gt 64 shift)) by lia. unfold guard_err. obind. rewrite H1, H2. cbn [Z.eqb].
    rewrite group_added by lia. rewrite zlen_app. done.
  - destruct (Z.ltb_spec v 128) as [Hsmall|Hbig].
    + destruct (last_group v) as [H1 H2]; [lia|].
      rewrite varint_last by lia. cbn [app]. rewrite zget_at. cbn [head]. obind. unfold at_position. cbn [data position].
      rewrite (proj2 (Z.leb_gt 64 shift)) by lia. unfold guard_err. obind. rewrite H1, H2. cbn [Z.eqb].
      rewrite group_added by lia. rewrite zlen_app. done.
    + destruct k as [|k]; [lia|]. rewrite varint_step by lia. rewrite (proj2 (Z.ltb_ge v 128)) by lia.
      pose proof (Z.mod_pos_bound v 128 ltac:(lia)) as Hm. destruct (more_group (v mod 128) Hm) as [H1 H2].
      cbn [app]. rewrite zget_at. cbn [head]. obind. unfold at_position. cbn [data position].
      rewrite (proj2 (Z.leb_gt 64 shift)) by lia. unfold guard_err. obind. rewrite H1, H2.
      destruct (group_split value v shift) as [Hr He]; [lia..|].
      rewrite group_added by nia.
      set (b := z2b (Z.lor (v mod 128) 128)).
      replace (pre ++ b :: varint_loop k (v / 128) ++ after) with ((pre ++ [b]) ++ varint_loop k (v / 128) ++ after)
        by (rewrite <- app_assoc; done).
      replace (zlen pre + 1) with (zlen (pre ++ [b])) by (rewrite zlen_app; done).
      rewrite IH; [|rewrite pow_7_succ in Hv; Z.to_euclidean_division_equations; lia|lia|lia|exact Hr|lia|lia|lia].
      rewrite He, <- !app_assoc. done.
Qed.
End Numbers.

Lemma read_written pre v after : is_u64 v ->
  read_varint {| data := pre ++ varint_loop 9 v ++ after; position := zlen pre |}
  = Ok (v, {| data := pre ++ varint_loop 9 v ++ after; position := zlen (pre ++ varint_loop 9 v) |}).
Proof.
  intros Hv. unfold read_varint, is_u64 in *. rewrite (varint_from_written after 9) by lia. by rewrite Z.mul_1_r.
Qed.

(** ** Framing *)
Section Framing.
Import FrameReader.

Lemma frame_size_written after n : forall k fuel pre v header size,
  0 <= v < 2 ^ (7 * Z.of_nat (S n)) -> (n <= k)%nat -> (n < fuel)%nat ->
  0 <= header -> header + Z.of_nat n < 5 -> 0 <= size < 2 ^ (7 * header) ->
  forall position, position + header = zlen pre ->
  frame_size fuel (pre ++ varint_loop k v ++ after) position header size (7 * header)
  = Ok (Some (size + v * 2 ^ (7 * header), header + zlen (varint_loop k v))).
Proof.
  induction n as [|n IH]; intros k fuel pre v header size Hv Hk Hfuel Hh Hn Hsize position Hpos;
    (destruct fuel as [|fuel]; [lia|]); cbn [frame_size]; rewrite Hpos.
  - assert (Hv' : 0 <= v < 128) by (cbn in Hv; lia). destruct (last_group v Hv') as [H1 H2].
    assert (Hp : 2 ^ (7 * header) <= 2 ^ 28) by (apply Z.pow_le_mono_r; lia).
    rewrite varint_last by done. cbn [app]. rewrite zget_at. cbn [head].
    rewrite (proj2 (Z.leb_gt 5 header)) by lia. rewrite H1, H2. cbn [Z.eqb]. rewrite group_added by nia. done.
  - assert (Hp : 2 ^ (7 * header) <= 2 ^ 28) by (apply Z.pow_le_mono_r; lia).
    assert (Hpos' : 0 < 2 ^ (7 * header)) by (apply Z.pow_pos_nonneg; lia).
    destruct (Z.ltb_spec v 128) as [Hsmall|Hbig].
    + destruct (last_group v) as [H1 H2]; [lia|].
      rewrite varint_last by lia. cbn [app]. rewrite zget_at. cbn [head].
      rewrite (proj2 (Z.leb_gt 5 header)) by lia. rewrite H1, H2. cbn [Z.eqb]. rewrite group_added by nia. done.
    + destruct k as [|k]; [lia|]. rewrite varint_step by lia. rewrite (proj2 (Z.ltb_ge v 128)) by lia.
      pose proof (Z.mod_pos_bound v 128 ltac:(lia)) as Hm. destruct (more_group (v mod 128) Hm) as [H1 H2].
      cbn [app]. rewrite zget_at. cbn [head]. rewrite (proj2 (Z.leb_gt 5 header)) by lia. rewrite H1, H2.
      destruct (group_split size v (7 * header)) as [Hr He]; [lia..|].
      rewrite group_added by nia. set (b := z2b (Z.lor (v mod 128) 128)).
      replace (pre ++ b :: varint_loop k (v / 128) ++ after) with ((pre ++ [b]) ++ varint_loop k (v / 128) ++ after)
        by (rewrite <- app_assoc; done).
      replace (7 * header + 7) with (7 * (header + 1)) in * by lia.
      rewrite IH; [|rewrite pow_7_succ in Hv; Z.to_euclidean_division_equations; lia|lia|lia|lia|lia|exact Hr|
        rewrite zlen_app; change (zlen [b]) with 1; lia].
      rewrite He, zlen_cons. do 2 f_equal. f_equal. lia.
Qed.

(** One frame on the wire is read back with what follows it. *)
Lemma frame_read versioned tag payload after maximum :
  0 <= tag < 256 -> zlen payload <= maximum -> zlen payload < 2 ^ 35 ->
  next_frame {| buffer := write_frame versioned tag payload ++ after; expects_version := versioned |} maximum
  = Ok ({| buffer := after; expects_version := false |}, Some (tag, payload)).
Proof.
  intros Htag Hmax Hlen. unfold next_frame, frame_start, write_frame, write_varint. cbn [expects_version buffer].
  pose proof (zlen_nonneg payload). pose proof (zlen_nonneg after).
  set (head := (if versioned then [z2b MCS_VERSION] else []) ++ [z2b tag]).
  set (size := varint_loop 9 (zlen payload)).
  assert (Hsize : frame_size 6 (head ++ size ++ payload ++ after) (zlen head) 0 0 0 = Ok (Some (zlen payload, zlen size))).
  { pose proof (frame_size_written (payload ++ after) 4 9 6 head (zlen payload) 0 0) as Hs. cbn [Z.mul] in Hs. rewrite Z.mul_1_r in Hs.
    apply Hs; lia. }
  assert (Hbuf : ((head ++ size) ++ payload) ++ after = head ++ size ++ payload ++ after) by by rewrite <- !app_assoc.
  rewrite Hbuf.
  assert (Hbody : frame_body {| buffer := head ++ size ++ payload ++ after; expects_version := versioned |} (zlen head) tag maximum
    = Ok ({| buffer := after; expects_version := false |}, Some (tag, payload))).
  { unfold frame_body. cbn [buffer]. rewrite Hsize. obind. rewrite (proj2 (Z.ltb_ge maximum (zlen payload))) by lia. unfold guard_err. obind.
    rewrite (proj2 (Z.ltb_ge _ _)).
    2: { rewrite !zlen_app. lia. }
    rewrite (app_assoc head size), <- (zlen_app head size).
    rewrite (slice_app (head ++ size) payload after (zlen (head ++ size)) (zlen (head ++ size) + zlen payload)) by done. obind.
    rewrite <- (zlen_app (head ++ size) payload), (app_assoc (head ++ size) payload after).
    rewrite <- (app_nil_r after) at 1.
    rewrite (slice_app ((head ++ size) ++ payload) after []); [done|done|].
    rewrite ?app_nil_r. by rewrite zlen_app. }
  set (rest := size ++ payload ++ after) in *. pose proof (zlen_nonneg rest).
  destruct versioned; cbn [negb].
  - assert (H0' : idx (E:=PushError) (head ++ rest) 0 = Ok (z2b MCS_VERSION)) by done.
    assert (H1' : idx (E:=PushError) (head ++ rest) 1 = Ok (z2b tag)) by done.
    assert (Hlong : zlen (head ++ rest) = 2 + zlen rest) by by rewrite zlen_app.
    rewrite Hlong, (proj2 (Z.ltb_ge _ 2)), H0' by lia. obind.
    change (b2z (z2b MCS_VERSION) <? MCS_VERSION) with false. cbn [andb]. unfold guard_err. obind.
    rewrite (proj2 (Z.leb_gt _ 1)), H1' by lia. obind. rewrite b2z_z2b_small by lia. exact Hbody.
  - assert (H0' : idx (E:=PushError) (head ++ rest) 0 = Ok (z2b tag)) by done.
    assert (Hlong : zlen (head ++ rest) = 1 + zlen rest) by by rewrite zlen_app.
    obind. rewrite Hlong, (proj2 (Z.leb_gt _ 0)), H0' by lia. obind. rewrite b2z_z2b_small by lia. exact Hbody.
Qed.
End Framing.

(** ** Fragmentation *)
Section Fragmentation.
Import FrameReader.

(** More bytes never change what is already known of a frame's size. *)
Lemma frame_size_more m fuel : forall b position header size shift,
  0 <= header -> header + Z.of_nat fuel = 6 ->
  match frame_size fuel b position header size shift with
  | Panic => header = 6
  | Ok (Some (size', header')) => frame_size fuel (b ++ m) position header size shift = Ok (Some (size', header')) /\ header < header'
  | Ok None => True
  | Err e => frame_size fuel (b ++ m) position header size shift = Err e
  end.
Proof.
  induction fuel as [|fuel IH]; intros b position header size shift Hh Hf; cbn [frame_size]; [lia|].
  destruct (zget b (position + header)) as [byte|] eqn:Hg; [|done]. rewrite (zget_app_l _ m _ _ Hg).
  destruct (Z.leb_spec 5 header); [done|]. set (size1 := Z.lor size _).
  destruct (Z.land (b2z byte) 0x80 =? 0); [split; [done|lia]|].
  specialize (IH b position (header + 1) size1 (shift + 7) ltac:(lia) ltac:(lia)).
  destruct (frame_size fuel b position (header + 1) size1 (shift + 7)) as [[[size' header']|]|e|]; [|done|done|lia].
  destruct IH. split; [done|lia].
Qed.

Lemma frame_size_nonneg fuel : forall b position header size shift size' header',
  0 <= size -> frame_size fuel b position header size shift = Ok (Some (size', header')) -> 0 <= size'.
Proof.
  induction fuel as [|fuel IH]; intros b position header size shift size' header' Hs; cbn [frame_size]; [done|].
  destruct (zget b (position + header)) as [byte|]; [|done]. destruct (5 <=? header); [done|].
  assert (Hl : 0 <= Z.lor size (as_u64 (Z.shiftl (Z.land (b2z byte) 0x7f) shift))).
  { apply Z.lor_nonneg. split; [done|]. destruct (as_u64_range (Z.shiftl (Z.land (b2z byte) 0x7f) shift)). done. }
  destruct (_ =? 0); [intros [= <- <-]; done|]. by apply IH.
Qed.

Lemma idx_more (l m : list u8) i x : zget l i = Some x -> idx (E:=PushError) (l ++ m) i = Ok x.
Proof. intros H. unfold idx. by rewrite (zget_app_l _ m _ _ H). Qed.

(** The step of the stream: an error and a frame stay as they are whatever
    bytes come later, and a frame shortens the buffer. *)
Lemma next_frame_more self m maximum :
  match next_frame self maximum with
  | Panic => False
  | Err e => next_frame (extend self m) maximum = Err e
  | Ok (self', Some f) => next_frame (extend self m) maximum = Ok (extend self' m, Some f)
      /\ (length (buffer self') < length (buffer self))%nat
  | Ok (self', None) => self' = self
  end.
Proof.
  assert (Hbody : forall position tag, 0 <= position ->
    match frame_body self position tag maximum with
    | Panic => False
    | Err e => frame_body (extend self m) position tag maximum = Err e
    | Ok (self', Some f) => frame_body (extend self m) position tag maximum = Ok (extend self' m, Some f)
        /\ (length (buffer self') < length (buffer self))%nat
    | Ok (self', None) => self' = self
    end).
  { intros position tag Hpos. unfold frame_body. cbn [extend buffer].
    pose proof (frame_size_more m 6 (buffer self) position 0 0 0 ltac:(lia) ltac:(lia)) as Hm.
    pose proof (frame_size_nonneg 6 (buffer self) position 0 0 0) as Hn.
    destruct (frame_size 6 (buffer self) position 0 0 0) as [[[size header]|]|e|]; [|done|by rewrite Hm|lia].
    destruct Hm as [-> Hh]. specialize (Hn size header ltac:(lia) eq_refl). obind. unfold guard_err.
    destruct (Z.ltb_spec maximum size); [done|]. obind.
    destruct (Z.ltb_spec (zlen (buffer self)) (position + header + size)) as [|Hle]; [done|].
    pose proof (zlen_nonneg m).
    rewrite (proj2 (Z.ltb_ge (zlen (buffer self ++ m)) _)) by (rewrite zlen_app; lia).
    assert (Hs : slice (E:=PushError) (buffer self ++ m) (position + header) (position + header + size)
      = slice (buffer self) (position + header) (position + header + size)) by (unfold slice; by rewrite zget_range_app_l by lia).
    rewrite Hs. rewrite !slice_Ok by (rewrite ?zlen_app; lia). obind. cbn [extend buffer expects_version]. split.
    - do 3 f_equal. rewrite drop_app_le by (unfold zlen in *; lia).
      rewrite !take_ge by (unfold zlen in *; rewrite ?length_app, ?length_drop; lia). done.
    - cbn [buffer]. unfold zlen in *. rewrite length_take, length_drop. lia. }
  unfold next_frame, frame_start. cbn [extend buffer expects_version]. pose proof (zlen_nonneg m).
  destruct (expects_version self); cbn [negb].
  - destruct (Z.ltb_spec (zlen (buffer self)) 2) as [|H2]; [obind; done|].
    rewrite (proj2 (Z.ltb_ge (zlen (buffer self ++ m)) 2)) by (rewrite zlen_app; lia).
    destruct (idx_Ok (E:=PushError) (buffer self) 0 ltac:(lia)) as (v & Hv & Hgv).
    rewrite Hv, (idx_more _ m _ _ Hgv). obind. unfold guard_err.
    destruct (_ && _); [obind; done|]. obind. rewrite (proj2 (Z.leb_gt _ 1)) by lia.
    rewrite (proj2 (Z.leb_gt (zlen (buffer self ++ m)) 1)) by (rewrite zlen_app; lia).
    destruct (idx_Ok (E:=PushError) (buffer self) 1 ltac:(lia)) as (t & Ht & Hgt).
    rewrite Ht, (idx_more _ m _ _ Hgt). obind. apply Hbody. lia.
  - obind. destruct (Z.leb_spec (zlen (buffer self)) 0) as [|H0]; [done|].
    rewrite (proj2 (Z.leb_gt (zlen (buffer self ++ m)) 0)) by (rewrite zlen_app; lia).
    destruct (idx_Ok (E:=PushError) (buffer self) 0 ltac:(lia)) as (t & Ht & Hgt).
    rewrite Ht, (idx_more _ m _ _ Hgt). obind. apply Hbody. lia.
Qed.

(** Any fuel above the length of the buffer drains it. *)
Lemma drain_fuel maximum n : forall self fuel1 fuel2,
  (length (buffer self) <= n)%nat -> (length (buffer self) < fuel1)%nat -> (length (buffer self) < fuel2)%nat ->
  drain fuel1 self maximum = drain fuel2 self maximum.
Proof.
  induction n as [|n IH]; intros self [|fuel1] [|fuel2] Hn H1 H2; try lia; cbn [drain];
    pose proof (next_frame_more self [] maximum) as Hm;
    destruct (next_frame self maximum) as [[self' [f|]]|e|]; try done; destruct Hm as [_ Hl]; [lia|].
  by rewrite (IH self' fuel1 fuel2) by lia.
Qed.

Lemma drain_step self maximum :
  drain_all self maximum = match next_frame self maximum with
    | Panic => Panic
    | Err e => Ok (self, [], Some e)
    | Ok (self, None) => Ok (self, [], None)
    | Ok (self', Some frame) => '(self, frames, e) ← drain_all self' maximum; mret (self, frame :: frames, e)
    end.
Proof.
  unfold drain_all at 1. cbn [drain]. pose proof (next_frame_more self [] maximum) as Hm.
  destruct (next_frame self maximum) as [[self' [f|]]|e|]; try done. destruct Hm as [_ Hl].
  by rewrite (drain_fuel maximum (length (buffer self')) self' (length (buffer self)) (S (length (buffer self')))) by lia.
Qed.

(** Draining a buffer and later what is left of it with more bytes is draining
    it with those bytes at once. *)
Lemma drain_extend maximum m n : forall self, (length (buffer self) <= n)%nat ->
  exists self' frames e, drain_all self maximum = Ok (self', frames, e)
    /\ (e = None -> next_frame self' maximum = Ok (self', None))
    /\ drain_all (extend self m) maximum = match e with
       | Some _ => Ok (extend self' m, frames, e)
       | None => '(self, more, e) ← drain_all (extend self' m) maximum; mret (self, frames ++ more, e)
       end.
Proof.
  induction n as [|n IH]; intros self Hn; rewrite (drain_step self), (drain_step (extend self m));
    pose proof (next_frame_more self m maximum) as Hm; destruct (next_frame self maximum) as [[self' [f|]]|e|] eqn:Hnext; try done.
  - destruct Hm as [_ Hl]. lia.
  - subst self'. exists self, [], None. split; [done|]. split; [done|]. rewrite <- drain_step.
    destruct (drain_all (extend self m) maximum) as [[[? ?] ?]| |]; done.
  - exists self, [], (Some e). split; [done|]. split; [done|]. by rewrite Hm.
  - destruct Hm as [-> Hl]. destruct (IH self' ltac:(lia)) as (self2 & frames & e & Hd & Hidle & He).
    rewrite Hd, He. obind. exists self2, (f :: frames), e. split; [done|]. split; [done|].
    destruct e; [done|]. destruct (drain_all (extend self2 m) maximum) as [[[? ?] ?]| |]; done.
  - subst self'. exists self, [], None. split; [done|]. split; [done|]. rewrite <- drain_step.
    destruct (drain_all (extend self m) maximum) as [[[? ?] ?]| |]; done.
  - exists self, [], (Some e). split; [done|]. split; [done|]. by rewrite Hm.
Qed.

Lemma extend_extend self a b : extend (extend self a) b = extend self (a ++ b).
Proof. unfold extend. cbn. by rewrite app_assoc. Qed.
Lemma frame_extend_nil self : extend self [] = self.
Proof. unfold extend. rewrite app_nil_r. by destruct self. Qed.

Lemma receive_whole maximum chunks : forall self,
  next_frame self maximum = Ok (self, None) ->
  exists self' frames e, receive self maximum chunks = Ok (frames, e)
    /\ drain_all (extend self (concat chunks)) maximum = Ok (self', frames, e).
Proof.
  induction chunks as [|chunk chunks IH]; intros self Hidle.
  - exists self, [], None. split; [done|]. cbn [concat]. by rewrite frame_extend_nil, drain_step, Hidle.
  - cbn [receive concat]. destruct (drain_extend maximum (concat chunks) _ (extend self chunk) (le_n _))
      as (self1 & frames & e & Hd & Hnext & He).
    rewrite Hd. obind. rewrite <- extend_extend, He. destruct e as [e|].
    + by eexists _, frames, (Some e).
    + destruct (IH self1 (Hnext eq_refl)) as (self2 & more & e & -> & ->). obind. by eexists _, _, _.
Qed.

(** C25: fragmentation is invisible.  However the bytes of the connection are
    cut into reads, the framing never panics and the session sees the same
    frames in the same order, and the same error after them, as if all bytes
    had arrived at once. *)
Theorem fragmentation_is_invisible (maximum : Z) (chunks : list (list u8)) :
  exists frames e, receive FrameReader.new maximum chunks = Ok (frames, e)
    /\ receive FrameReader.new maximum [concat chunks] = Ok (frames, e).
Proof.
  destruct (receive_whole maximum chunks FrameReader.new eq_refl) as (self & frames & e & Hr & Hd).
  exists frames, e. split; [done|]. cbn [receive]. rewrite Hd. obind. destruct e; [done|].
  obind. by rewrite app_nil_r.
Qed.

(** The bytes of a session: the first frame carries the version. *)
Definition stream_of (frames : list (Z * list u8)) : list u8 :=
  match frames with
  | [] => []
  | (tag, payload) :: frames => write_frame true tag payload ++ concat ((fun f => write_frame false f.1 f.2) <$> frames)
  end.
Definition frame_fits (maximum : Z) (frame : Z * list u8) : Prop :=
  0 <= frame.1 < 256 /\ zlen frame.2 <= maximum /\ zlen frame.2 < 2 ^ 35.

Lemma drain_written maximum frames : forall self,
  Forall (frame_fits maximum) frames -> expects_version self = false ->
  buffer self = concat ((fun f => write_frame false f.1 f.2) <$> frames) ->
  exists self', drain_all self maximum = Ok (self', frames, None).
Proof.
  induction frames as [|[tag payload] frames IH]; intros [b v] Hfit Hv Hb; cbn [expects_version buffer] in Hv, Hb; subst v b; rewrite drain_step.
  - by eexists.
  - apply Forall_cons in Hfit as ((Ht & Hm & Hl) & Hfit). cbn [fst snd] in *.
    change (concat ((fun f => write_frame false f.1 f.2) <$> (tag, payload) :: frames))
      with (write_frame false tag payload ++ concat ((fun f => write_frame false f.1 f.2) <$> frames)).
    rewrite frame_read by done.
    destruct (IH {| buffer := concat ((fun f => write_frame false f.1 f.2) <$> frames); expects_version := false |} Hfit eq_refl eq_refl)
      as (self' & ->). obind. by eexists.
Qed.

(** Frames arrive whole.  The bytes of any sequence of frames that fit the
    limit of the receiver (and 35 bits), cut into reads anywhere, are received as
    exactly those frames, without an error. *)
Theorem frames_arrive_whole (maximum : Z) (frames : list (Z * list u8)) (chunks : list (list u8))
    (Hfit : Forall (frame_fits maximum) frames) (Hchunks : concat chunks = stream_of frames) :
  receive FrameReader.new maximum chunks = Ok (frames, None).
Proof.
  destruct (receive_whole maximum chunks FrameReader.new eq_refl) as (self & got & e & -> & Hd). rewrite Hchunks in Hd.
  destruct frames as [|[tag payload] frames].
  - cbn [stream_of] in Hd. rewrite frame_extend_nil, drain_step in Hd. cbn in Hd. by injection Hd as <- <- <-.
  - apply Forall_cons in Hfit as ((Ht & Hm & Hl) & Hfit). cbn [fst snd] in *. rewrite drain_step in Hd.
    change (extend FrameReader.new (stream_of ((tag, payload) :: frames)))
      with {| buffer := write_frame true tag payload ++ concat ((fun f => write_frame false f.1 f.2) <$> frames); expects_version := true |} in Hd.
    rewrite frame_read in Hd by done.
    destruct (drain_written maximum frames {| buffer := concat ((fun f => write_frame false f.1 f.2) <$> frames); expects_version := false |}
      Hfit eq_refl eq_refl) as (self' & Hw). rewrite Hw in Hd. unfold mbind, outcome_bind in Hd. by injection Hd as <- <- <-.
Qed.

Lemma frames_arrive_whole_witness :
  concat [[z2b 41; z2b 0]; [z2b 0; z2b 4]; [z2b 0]] = stream_of [(TAG_HEARTBEAT_PING, []); (TAG_CLOSE, [])]
  /\ receive FrameReader.new 1024 [[z2b 41; z2b 0]; [z2b 0; z2b 4]; [z2b 0]] = Ok ([(TAG_HEARTBEAT_PING, []); (TAG_CLOSE, [])], None).
Proof.
  split; [reflexivity|].
  refine (frames_arrive_whole 1024 [(TAG_HEARTBEAT_PING, []); (TAG_CLOSE, [])] _ _ _); [|reflexivity].
  by repeat constructor.
Defined.
End Fragmentation.

(** ** The decoders return *)

(** A reader inside its data, and what a read leaves behind. *)
Definition reader_ok (r : Reader.t) : Prop := 0 <= position r <= zlen (data r).
Definition advanced (r r' : Reader.t) : Prop := data r' = data r /\ position r < position r' <= zlen (data r).
Definition reads {A} (P : Reader.t -> Reader.t -> Prop) (r : Reader.t) (m : outcome PushError (A * Reader.t)) : Prop :=
  match m with Panic => False | Err _ => True | Ok (_, r') => P r r' end.

Lemma advanced_ok r r' : reader_ok r -> advanced r r' -> reader_ok r'.
Proof. unfold reader_ok, advanced. intros ? [-> ?]. lia. Qed.

Lemma varint_from_reads fuel : forall r value shift,
  reader_ok r -> 71 <= shift + 7 * Z.of_nat fuel -> 0 <= value -> (1 <= fuel)%nat ->
  match varint_from fuel r value shift with Panic => False | Err _ => True | Ok (v, r') => 0 <= v /\ advanced r r' end.
Proof.
  induction fuel as [|fuel IH]; intros r value shift Hr Hf Hv H1; [lia|]. cbn [varint_from].
  destruct (zget (data r) (position r)) as [byte|] eqn:Hg; [|done]. cbn [ok_or]. obind. pose proof (zget_lt _ _ _ Hg) as Hlt.
  unfold guard_err. destruct (Z.leb_spec 64 shift) as [|Hs]; [done|]. obind.
  set (value1 := Z.lor value _). assert (Hv1 : 0 <= value1).
  { apply Z.lor_nonneg. split; [done|]. by destruct (as_u64_range (Z.shiftl (Z.land (b2z byte) 0x7f) shift)). }
  assert (Hstep : advanced r (at_position r (position r + 1))) by (split; cbn; [done|lia]).
  destruct (_ =? 0); [split; done|].
  specialize (IH (at_position r (position r + 1)) value1 (shift + 7) ltac:(unfold reader_ok in *; cbn; lia) ltac:(lia) Hv1 ltac:(lia)).
  destruct (varint_from fuel _ value1 (shift + 7)) as [[v r']|e|]; [|done|done]. destruct IH as [? [Hd Hp]].
  split; [done|]. split; [by rewrite Hd|]. cbn in *. lia.
Qed.

Lemma read_varint_reads r : reader_ok r ->
  match read_varint r with Panic => False | Err _ => True | Ok (v, r') => 0 <= v /\ advanced r r' end.
Proof. intros Hr. apply varint_from_reads; [done|lia..]. Qed.

Lemma read_fixed64_reads r : reader_ok r -> reads advanced r (read_fixed64 r).
Proof.
  intros Hr. unfold read_fixed64. destruct (zget_range (data r) (position r) (position r + 8)) as [bytes|] eqn:Hg; [|done].
  cbn [ok_or]. obind. apply zget_range_inv in Hg as (_ & Hle & _). split; cbn; [done|lia].
Qed.

Lemma take_length_reads r : reader_ok r -> reads advanced r (take_length r).
Proof.
  intros Hr. unfold take_length. pose proof (read_varint_reads r Hr) as Hv.
  destruct (read_varint r) as [[n r1]|e|]; [|done|done]. destruct Hv as (Hn & Hd & Hp). obind. unfold guard_err, saturating_sub.
  rewrite Hd. destruct (Z.ltb_spec (Z.max 0 (zlen (data r) - position r1)) n); [done|]. obind.
  unfold reader_ok in Hr. rewrite slice_Ok by lia. obind. split; cbn; [done|lia].
Qed.

Lemma read_string_reads r : reader_ok r -> reads advanced r (read_string r).
Proof.
  intros Hr. unfold read_string. pose proof (take_length_reads r Hr) as H.
  destruct (take_length r) as [[bytes r1]|e|]; [|done|done]. obind. by destruct (from_utf8 bytes).
Qed.

Lemma skipped_reads {A} (a : A) wire r : reader_ok r -> reads advanced r (skipped a wire r).
Proof.
  intros Hr. unfold skipped, skip.
  destruct (wire =? WIRE_VARINT).
  { pose proof (read_varint_reads r Hr). destruct (read_varint r) as [[v r1]|e|]; [|done|done]. by apply H. }
  destruct (wire =? WIRE_FIXED64).
  { pose proof (read_fixed64_reads r Hr). by destruct (read_fixed64 r) as [[v r1]|e|]. }
  destruct (wire =? WIRE_LENGTH); [|done].
  pose proof (take_length_reads r Hr). by destruct (take_length r) as [[v r1]|e|].
Qed.

Lemma next_tag_reads r : reader_ok r ->
  match next_tag r with Panic => False | Err _ => True | Ok (None, r') => r' = r | Ok (Some _, r') => advanced r r' end.
Proof.
  intros Hr. unfold next_tag. destruct (_ <=? _); [done|]. pose proof (read_varint_reads r Hr) as H.
  destruct (read_varint r) as [[v r1]|e|]; [|done|done]. obind. by apply H.
Qed.

Section Fields.
Context {A : Type} (handle : A -> Z -> Z -> Reader.t -> outcome PushError (A * Reader.t)).
Hypothesis handled : forall a field wire r, reader_ok r -> reads advanced r (handle a field wire r).

Lemma fields_from_returns fuel : forall a r,
  reader_ok r -> zlen (data r) - position r < Z.of_nat fuel -> fields_from fuel handle a r <> Panic.
Proof.
  induction fuel as [|fuel IH]; intros a r Hr Hf; [unfold reader_ok in Hr; lia|]. cbn [fields_from].
  pose proof (next_tag_reads r Hr) as Ht. destruct (next_tag r) as [[[[field wire]|] r1]|e|]; obind; try done.
  pose proof (advanced_ok _ _ Hr Ht) as Hr1. pose proof (handled a field wire r1 Hr1) as Hh.
  destruct (handle a field wire r1) as [[a' r2]|e|]; obind; try done.
  apply IH; [by eapply advanced_ok|]. destruct Ht as [Hd1 ?], Hh as [Hd2 ?]. rewrite Hd2, Hd1 in *. lia.
Qed.

Lemma fields_return a bytes : fields handle a bytes <> Panic.
Proof. apply fields_from_returns; unfold reader_ok; cbn; unfold zlen; lia. Qed.
End Fields.

Ltac reads_field :=
  match goal with
  | |- reads advanced ?r (mbind _ (read_varint ?r)) =>
      let H := fresh in pose proof (read_varint_reads r ltac:(assumption)) as H;
      destruct (read_varint r) as [[??]|?|]; obind; cbn [reads]; [by apply H|done|done]
  | |- reads advanced ?r (mbind _ (read_fixed64 ?r)) =>
      let H := fresh in pose proof (read_fixed64_reads r ltac:(assumption)) as H;
      destruct (read_fixed64 r) as [[??]|?|]; obind; cbn [reads]; [exact H|done|done]
  | |- reads advanced ?r (mbind _ (read_string ?r)) =>
      let H := fresh in pose proof (read_string_reads r ltac:(assumption)) as H;
      destruct (read_string r) as [[??]|?|]; obind; cbn [reads]; [exact H|done|done]
  | |- reads advanced ?r (skipped _ _ ?r) => by apply skipped_reads
  | |- reads advanced ?r (if ?c then _ else _) => destruct c
  end.

(** A nested message: its fields are read, then the outer reader goes on. *)
Lemma nested_reads {A B} (f : list u8 -> outcome PushError A) (g : A -> B) r :
  (forall bytes, f bytes <> Panic) -> reader_ok r ->
  reads advanced r ('(nested, reader) ← take_length r; a ← f nested; mret (g a, reader)).
Proof.
  intros Hf Hr. pose proof (take_length_reads r Hr) as H. destruct (take_length r) as [[nested r1]|e|]; obind; [|done|done].
  specialize (Hf nested). destruct (f nested); obind; done.
Qed.

Lemma i32_field_reads wanted value field wire r : reader_ok r -> reads advanced r (i32_field wanted value field wire r).
Proof. intros. unfold i32_field. repeat reads_field. Qed.
Lemma app_entry_reads entry field wire r : reader_ok r -> reads advanced r (app_entry entry field wire r).
Proof. intros. unfold app_entry. repeat reads_field. Qed.

Lemma message_field_reads message field wire r : reader_ok r -> reads advanced r (message_field message field wire r).
Proof.
  intros. unfold message_field. do 2 (destruct (_ && _); [reads_field|]). destruct (_ && _).
  - pose proof (take_length_reads r ltac:(done)) as Ht. destruct (take_length r) as [[nested r1]|e|]; obind; [|done|done].
    pose proof (fields_return app_entry app_entry_reads ([], []) nested) as Hf.
    destruct (fields app_entry ([], []) nested) as [[key value]|e|]; obind; done.
  - destruct (_ && _); [reads_field|]. destruct (_ && _); [|repeat reads_field].
    pose proof (take_length_reads r ltac:(done)) as Ht. destruct (take_length r) as [[raw r1]|e|]; obind; done.
Qed.

(** Whatever the push service sends, the decoders return: no payload makes
    them panic or read forever, of a frame of the stream or of the check-in
    response. *)
Theorem push_decoders_return (tag : Z) (payload : list u8) :
  decode_frame tag payload <> Panic /\ decode_checkin_response payload <> Panic.
Proof.
  split.
  - unfold decode_frame. do 3 (destruct (_ =? _); [done|]). destruct (_ =? _).
    + assert (H : decode_login_response payload <> Panic).
      { apply fields_return. intros a field wire r Hr. destruct (_ && _).
        { apply (nested_reads (fields (i32_field 1) (error_code a)) (fun v => {| error_code := v; heartbeat_interval_ms := heartbeat_interval_ms a |}));
            [|done]. intros. apply fields_return. intros. by apply i32_field_reads. }
        destruct (_ && _); [|by apply skipped_reads].
        apply (nested_reads (fields (i32_field 3) (heartbeat_interval_ms a)) (fun v => {| error_code := error_code a; heartbeat_interval_ms := v |}));
          [|done]. intros. apply fields_return. intros. by apply i32_field_reads. }
      by destruct (decode_login_response payload).
    + destruct (_ =? _); [|done].
      assert (H : decode_data_message payload <> Panic) by (apply fields_return; intros; by apply message_field_reads).
      by destruct (decode_data_message payload).
  - apply fields_return. intros. repeat reads_field.
Qed.

(** ** Messages are read as written *)

(** The fields of a data message: those the decoder knows and others. *)
Inductive other_value := OtherVarint (v : Z) | OtherFixed (v : Z) | OtherLength (v : list u8).
Inductive message_item :=
  | ItFrom (v : list u8) | ItCategory (v : list u8) | ItAppData (key value : list u8) | ItPersistentId (v : list u8)
  | ItRawData (v : list u8) | ItImmediateAck (v : Z) | ItOther (field : Z) (v : other_value).

Definition item_wire (it : message_item) (out : list u8) : list u8 :=
  match it with
  | ItFrom v => write_string 3 v out
  | ItCategory v => write_string 5 v out
  | ItAppData key value => write_bytes 7 (write_string 2 value (write_string 1 key [])) out
  | ItPersistentId v => write_string 9 v out
  | ItRawData v => write_bytes 21 v out
  | ItImmediateAck v => write_varint_field 24 v out
  | ItOther field (OtherVarint v) => write_varint_field field v out
  | ItOther field (OtherFixed v) => write_fixed64 field v out
  | ItOther field (OtherLength v) => write_bytes field v out
  end.
Definition encode_items (items : list message_item) : list u8 := foldl (fun out it => item_wire it out) [] items.

(** What the message becomes: the last value counts, application data
    accumulates up to the limit, the rest is ignored. *)
Definition apply_item (m : DataMessage) (it : message_item) : DataMessage :=
  match it with
  | ItFrom v => with_from m v
  | ItCategory v => with_category m v
  | ItAppData key value => if negb (bool_decide (key = [])) && (zlen (app_data m) <? MAX_APP_DATA)
      then with_app_data m (app_data m ++ [(key, value)]) else m
  | ItPersistentId v => with_persistent_id m v
  | ItRawData v => with_raw_data m v
  | ItImmediateAck v => with_immediate_ack m (negb (v =? 0))
  | ItOther _ _ => m
  end.

Definition text (v : list u8) : Prop := zlen v < 2 ^ 32 /\ is_Some (from_utf8 v).
Definition item_ok (it : message_item) : Prop :=
  match it with
  | ItFrom v | ItCategory v | ItPersistentId v => text v
  | ItAppData key value => text key /\ text value
  | ItRawData v => zlen v < 2 ^ 32
  | ItImmediateAck v => is_u64 v
  | ItOther field v => 0 <= field < 2 ^ 60 /\
      match v with
      | OtherVarint v => is_u64 v /\ field <> 24
      | OtherFixed v => is_u64 v
      | OtherLength v => zlen v < 2 ^ 32 /\ field ∉ [3; 5; 7; 9; 21]
      end
  end.

Definition tag_bytes (field wire : Z) : list u8 := varint_loop 9 (field * 8 + wire).
Lemma write_tag_bytes field wire out : 0 <= field < 2 ^ 60 -> 0 <= wire < 8 -> write_tag field wire out = out ++ tag_bytes field wire.
Proof.
  intros Hf Hw. unfold write_tag, write_varint, tag_bytes, as_u64. rewrite Z.mod_small by (rewrite Z.shiftl_mul_pow2; lia).
  by rewrite lor_shiftl_low by lia.
Qed.

Definition at_end (pre after : list u8) : Reader.t := {| data := pre ++ after; position := zlen pre |}.

Lemma varint_nonempty v : exists b l, varint_loop 9 v = b :: l.
Proof. cbn [varint_loop]. destruct (_ =? _); by eexists _, _. Qed.

Lemma tag_read pre field wire after : 0 <= field < 2 ^ 60 -> 0 <= wire < 8 ->
  next_tag (at_end pre (tag_bytes field wire ++ after)) = Ok (Some (field, wire), at_end (pre ++ tag_bytes field wire) after).
Proof.
  intros Hf Hw. unfold next_tag, at_end. cbn [data position]. rewrite (proj2 (Z.leb_gt _ _)).
  2: { rewrite zlen_app. unfold tag_bytes. destruct (varint_nonempty (field * 8 + wire)) as (b & l & ->). cbn [app].
       rewrite zlen_cons. pose proof (zlen_nonneg (l ++ after)). lia. }
  unfold tag_bytes. rewrite read_written by (unfold is_u64; lia). obind. do 3 f_equal.
  - rewrite Z.shiftr_div_pow2 by lia. change (2 ^ 3) with 8. f_equal; [Z.to_euclidean_division_equations; lia|].
    change 7 with (Z.ones 3). rewrite Z.land_ones by lia. change (2 ^ 3) with 8. Z.to_euclidean_division_equations; lia.
  - by rewrite <- app_assoc.
Qed.

Lemma varint_read pre v after : is_u64 v ->
  read_varint (at_end pre (varint_loop 9 v ++ after)) = Ok (v, at_end (pre ++ varint_loop 9 v) after).
Proof. intros. unfold at_end. rewrite read_written by done. by rewrite <- app_assoc. Qed.

Lemma length_read pre v after : zlen v < 2 ^ 60 ->
  take_length (at_end pre ((varint_loop 9 (zlen v) ++ v) ++ after)) = Ok (v, at_end (pre ++ varint_loop 9 (zlen v) ++ v) after).
Proof.
  intros Hv. pose proof (zlen_nonneg v). pose proof (zlen_nonneg after).
  unfold take_length. rewrite <- (app_assoc (varint_loop 9 (zlen v))). rewrite varint_read by (unfold is_u64; lia). obind.
  unfold at_end, at_position, saturating_sub. cbn [data position]. unfold guard_err. rewrite (proj2 (Z.ltb_ge _ _)).
  2: { rewrite !zlen_app. lia. }
  obind. rewrite slice_app by done. obind. do 3 f_equal; [by rewrite <- !app_assoc|]. rewrite !zlen_app. lia.
Qed.
Lemma string_read pre v after : text v ->
  read_string (at_end pre ((varint_loop 9 (zlen v) ++ v) ++ after)) = Ok (v, at_end (pre ++ varint_loop 9 (zlen v) ++ v) after).
Proof. intros (Hv & cs & Hcs). unfold read_string. rewrite length_read by lia. obind. by rewrite Hcs. Qed.
Lemma fixed_read pre v after : is_u64 v ->
  read_fixed64 (at_end pre (to_le_bytes 8 v ++ after)) = Ok (v, at_end (pre ++ to_le_bytes 8 v) after).
Proof.
  intros Hv. unfold read_fixed64, at_end, at_position. cbn [data position].
  rewrite (zget_range_prefix pre (to_le_bytes 8 v) after) by (by rewrite zlen_to_le_bytes). cbn [ok_or]. obind.
  rewrite from_to_le_bytes by exact Hv. do 3 f_equal; [by rewrite <- app_assoc|]. by rewrite zlen_app, zlen_to_le_bytes.
Qed.

(** One turn of the field loop on a field whose value the handler reads. *)
Lemma fields_turn {A} (handle : A -> Z -> Z -> Reader.t -> outcome PushError (A * Reader.t)) fuel a a' pre field wire value after :
  0 <= field < 2 ^ 60 -> 0 <= wire < 8 ->
  (forall pre, handle a field wire (at_end pre (value ++ after)) = Ok (a', at_end (pre ++ value) after)) ->
  fields_from (S fuel) handle a (at_end pre ((tag_bytes field wire ++ value) ++ after))
  = fields_from fuel handle a' (at_end (pre ++ tag_bytes field wire ++ value) after).
Proof.
  intros Hf Hw Hh. cbn [fields_from]. rewrite <- (app_assoc (tag_bytes field wire)). rewrite tag_read by done. obind. rewrite Hh. obind.
  by rewrite <- app_assoc.
Qed.
Lemma fields_end {A} (handle : A -> Z -> Z -> Reader.t -> outcome PushError (A * Reader.t)) fuel a pre :
  fields_from (S fuel) handle a (at_end pre []) = Ok a.
Proof.
  cbn [fields_from]. unfold next_tag, at_end. cbn [data position]. rewrite app_nil_r, (proj2 (Z.leb_le _ _)) by lia. done.
Qed.

Lemma app_entry_read key value : text key -> text value ->
  fields app_entry ([], []) (write_string 2 value (write_string 1 key [])) = Ok (key, value).
Proof.
  intros Hk Hv. unfold fields, write_string, write_bytes, write_varint. rewrite !write_tag_bytes by (unfold WIRE_LENGTH; lia). cbn [app].
  set (first := tag_bytes 1 WIRE_LENGTH ++ varint_loop 9 (zlen key) ++ key).
  set (second := tag_bytes 2 WIRE_LENGTH ++ varint_loop 9 (zlen value) ++ value).
  assert (Hdata : ((((tag_bytes 1 WIRE_LENGTH ++ varint_loop 9 (zlen key)) ++ key) ++ tag_bytes 2 WIRE_LENGTH) ++ varint_loop 9 (zlen value)) ++ value
    = first ++ second ++ []) by (unfold first, second; rewrite app_nil_r, <- !app_assoc; done).
  rewrite Hdata. change (Reader.new (first ++ second ++ [])) with (at_end [] (first ++ second ++ [])).
  assert (Hlen : exists n, S (length (first ++ second ++ [])) = S (S (S n))).
  { unfold first, second, tag_bytes. destruct (varint_nonempty (1 * 8 + WIRE_LENGTH)) as (? & ? & ->).
    destruct (varint_nonempty (2 * 8 + WIRE_LENGTH)) as (? & ? & ->). rewrite !length_app. cbn [length].
    match goal with |- exists n, S ?l = _ => exists (l - 2)%nat; lia end. }
  destruct Hlen as (n & ->). unfold first.
  rewrite (fields_turn app_entry _ ([], []) (key, []) [] 1 WIRE_LENGTH (varint_loop 9 (zlen key) ++ key)); [|unfold WIRE_LENGTH; lia..|].
  2: { intros pre. unfold app_entry. cbn [Z.eqb andb Pos.eqb]. rewrite string_read by done. by obind. }
  rewrite (fields_turn app_entry _ (key, []) (key, value) _ 2 WIRE_LENGTH (varint_loop 9 (zlen value) ++ value)); [|unfold WIRE_LENGTH; lia..|].
  2: { intros pre. unfold app_entry. cbn [Z.eqb andb Pos.eqb]. rewrite string_read by done. by obind. }
  apply fields_end.
Qed.

Lemma zlen_varint k v : zlen (varint_loop k v) <= 1 + Z.of_nat k.
Proof.
  unfold zlen. assert (length (varint_loop k v) <= S k)%nat; [|lia].
  revert v. induction k as [|k IH]; intros v; cbn [varint_loop]; destruct (_ =? _); cbn [length]; try lia.
  specialize (IH (Z.shiftr v 7)). lia.
Qed.

Definition value_read (it : message_item) (field wire : Z) (value : list u8) : Prop :=
  forall m pre after, message_field m field wire (at_end pre (value ++ after)) = Ok (apply_item m it, at_end (pre ++ value) after).
Definition item_shape (it : message_item) (field wire : Z) (value : list u8) : Prop :=
  0 <= field < 2 ^ 60 /\ 0 <= wire < 8
  /\ (forall out, item_wire it out = out ++ tag_bytes field wire ++ value) /\ value_read it field wire value.

(** The shape of a field with a length. *)
Lemma length_shape it field v :
  0 <= field < 2 ^ 60 ->
  (forall out, item_wire it out = write_bytes field v out) -> value_read it field WIRE_LENGTH (varint_loop 9 (zlen v) ++ v) ->
  item_shape it field WIRE_LENGTH (varint_loop 9 (zlen v) ++ v).
Proof.
  intros Hf Hw Hr. split; [done|]. split; [unfold WIRE_LENGTH; lia|]. split; [|done]. intros out. rewrite Hw. unfold write_bytes, write_varint.
  rewrite write_tag_bytes by (unfold WIRE_LENGTH; lia). by rewrite <- !app_assoc.
Qed.
Lemma text_shape it field v (update : DataMessage -> list u8 -> DataMessage) :
  text v -> 0 <= field < 2 ^ 60 -> (forall out, item_wire it out = write_string field v out) ->
  (forall m r, message_field m field WIRE_LENGTH r = '(v, r) ← read_string r; mret (update m v, r)) ->
  (forall m, apply_item m it = update m v) ->
  item_shape it field WIRE_LENGTH (varint_loop 9 (zlen v) ++ v).
Proof.
  intros Hv Hf Hw Hm Ha. apply length_shape; [done|done|]. intros m pre after. rewrite Hm, string_read by done. obind. by rewrite Ha.
Qed.

Lemma other_skipped m field wire r :
  wire <> WIRE_LENGTH \/ field ∉ [3; 5; 7; 9; 21] -> wire <> WIRE_VARINT \/ field <> 24 ->
  message_field m field wire r = skipped m wire r.
Proof.
  intros H1 H2. unfold message_field.
  assert (Hl : forall f, f ∈ [3; 5; 7; 9; 21] -> (field =? f) && (wire =? WIRE_LENGTH) = false).
  { intros f Hf. destruct (Z.eqb_spec field f) as [->|], (Z.eqb_spec wire WIRE_LENGTH) as [->|]; try done. by destruct H1. }
  rewrite !Hl by set_solver. destruct (Z.eqb_spec field 24), (Z.eqb_spec wire WIRE_VARINT); try done. by destruct H2.
Qed.

Lemma item_shaped it : item_ok it -> exists field wire value, item_shape it field wire value.
Proof.
  destruct it as [v|v|key value|v|v|v|field [v|v|v]]; cbn [item_ok]; intros Hok.
  - exists 3, WIRE_LENGTH, (varint_loop 9 (zlen v) ++ v). by apply (text_shape _ _ _ with_from); [done|lia|..].
  - exists 5, WIRE_LENGTH, (varint_loop 9 (zlen v) ++ v). by apply (text_shape _ _ _ with_category); [done|lia|..].
  - destruct Hok as (Hk & Hv). set (nested := write_string 2 value (write_string 1 key [])).
    exists 7, WIRE_LENGTH, (varint_loop 9 (zlen nested) ++ nested). apply length_shape; [lia|done|]. intros m pre after.
    unfold message_field. cbn [Z.eqb andb Pos.eqb WIRE_LENGTH]. rewrite length_read.
    + obind. pose proof (app_entry_read key value Hk Hv) as He. fold nested in He. rewrite He. by obind.
    + unfold nested, write_string, write_bytes, write_varint. rewrite !write_tag_bytes by (unfold WIRE_LENGTH; lia). cbn [app]. rewrite !zlen_app.
      unfold tag_bytes. destruct Hk as [Hk _], Hv as [Hv _].
      pose proof (zlen_varint 9 (1 * 8 + WIRE_LENGTH)). pose proof (zlen_varint 9 (2 * 8 + WIRE_LENGTH)).
      pose proof (zlen_varint 9 (zlen key)). pose proof (zlen_varint 9 (zlen value)). rewrite ?zlen_nil. lia.
  - exists 9, WIRE_LENGTH, (varint_loop 9 (zlen v) ++ v). by apply (text_shape _ _ _ with_persistent_id); [done|lia|..].
  - exists 21, WIRE_LENGTH, (varint_loop 9 (zlen v) ++ v). apply length_shape; [lia|done|]. intros m pre after.
    unfold message_field. cbn [Z.eqb andb Pos.eqb WIRE_LENGTH]. rewrite length_read by lia. by obind.
  - exists 24, WIRE_VARINT, (varint_loop 9 v). split; [lia|]. split; [unfold WIRE_VARINT; lia|]. split.
    + intros out. cbn [item_wire]. unfold write_varint_field, write_varint. rewrite write_tag_bytes by (unfold WIRE_VARINT; lia).
      by rewrite <- app_assoc.
    + intros m pre after. unfold message_field. cbn [Z.eqb andb Pos.eqb WIRE_VARINT WIRE_LENGTH]. rewrite varint_read by done. by obind.
  - destruct Hok as (Hf & Hv & H24). exists field, WIRE_VARINT, (varint_loop 9 v). split; [done|]. split; [unfold WIRE_VARINT; lia|]. split.
    + intros out. cbn [item_wire]. unfold write_varint_field, write_varint. rewrite write_tag_bytes by (unfold WIRE_VARINT; lia).
      by rewrite <- app_assoc.
    + intros m pre after. rewrite other_skipped by first [by left | by right]. unfold skipped, skip. cbn [Z.eqb WIRE_VARINT].
      rewrite varint_read by done. done.
  - destruct Hok as (Hf & Hv). exists field, WIRE_FIXED64, (to_le_bytes 8 v). split; [done|]. split; [unfold WIRE_FIXED64; lia|]. split.
    + intros out. cbn [item_wire]. unfold write_fixed64. rewrite write_tag_bytes by (unfold WIRE_FIXED64; lia). by rewrite <- app_assoc.
    + intros m pre after. rewrite other_skipped by (by left). unfold skipped, skip. cbn [Z.eqb WIRE_VARINT WIRE_FIXED64 Pos.eqb].
      rewrite fixed_read by done. done.
  - destruct Hok as (Hf & Hv & Hother). exists field, WIRE_LENGTH, (varint_loop 9 (zlen v) ++ v). apply length_shape; [done|done|].
    intros m pre after. rewrite other_skipped by first [by left | by right]. unfold skipped, skip. cbn [Z.eqb WIRE_VARINT WIRE_FIXED64 WIRE_LENGTH Pos.eqb].
    rewrite length_read by lia. done.
Qed.

Lemma encode_items_from items : forall out, Forall item_ok items ->
  exists bytes, foldl (fun out it => item_wire it out) out items = out ++ bytes /\ Z.of_nat (length items) <= zlen bytes
    /\ forall m fuel, zlen bytes < Z.of_nat fuel -> fields_from fuel message_field m (at_end out bytes) = Ok (foldl apply_item m items).
Proof.
  induction items as [|it items IH]; intros out Hok.
  - exists []. rewrite app_nil_r. split; [done|]. split; [done|]. intros m [|fuel] Hf; [by cbn in Hf|].
    apply fields_end.
  - apply Forall_cons in Hok as (Hit & Hok). destruct (item_shaped it Hit) as (field & wire & value & Hf & Hw & Hwire & Hread).
    destruct (IH (out ++ tag_bytes field wire ++ value) Hok) as (bytes & Hb & Hl & Hr).
    exists ((tag_bytes field wire ++ value) ++ bytes). cbn [foldl]. rewrite Hwire, Hb. split; [by rewrite <- !app_assoc|].
    assert (Hone : 1 <= zlen (tag_bytes field wire)).
    { unfold tag_bytes. destruct (varint_nonempty (field * 8 + wire)) as (b & l & ->). rewrite zlen_cons. pose proof (zlen_nonneg l). lia. }
    pose proof (zlen_nonneg value). rewrite !zlen_app. split; [cbn [length]; lia|]. intros m [|fuel] Hfuel; [pose proof (zlen_nonneg bytes); lia|].
    rewrite (fields_turn message_field fuel m (apply_item m it) out field wire value bytes Hf Hw).
    + rewrite Hr by lia. done.
    + intros pre. apply Hread.
Qed.

(** Data messages are read as written.  Whatever fields a data message is
    written with, in any order, repeated or unknown to the decoder, it is read
    as the message those fields make: the last value of a field counts, the
    first 128 entries with a key are kept in order, unknown fields are
    skipped. *)
Theorem data_messages_roundtrip (items : list message_item) (Hok : Forall item_ok items) :
  decode_frame TAG_DATA_MESSAGE_STANZA (encode_items items) = Ok (DataMessageFrame (foldl apply_item empty_message items)).
Proof.
  destruct (encode_items_from items [] Hok) as (bytes & Hb & _ & Hr). unfold encode_items. rewrite Hb. cbn [app].
  change (decode_frame TAG_DATA_MESSAGE_STANZA bytes) with (DataMessageFrame <$> decode_data_message bytes).
  unfold decode_data_message, fields. change (Reader.new bytes) with (at_end [] bytes). rewrite Hr by (unfold zlen; lia). done.
Qed.

Lemma data_messages_roundtrip_witness :
  let items := [ItOther 4 (OtherVarint 300); ItFrom (text_bytes "push"); ItAppData (text_bytes "k") (text_bytes "v");
    ItOther 99 (OtherLength [z2b 1]); ItImmediateAck 1; ItFrom (text_bytes "server")] in
  decode_frame TAG_DATA_MESSAGE_STANZA (encode_items items) = Ok (DataMessageFrame
    {| from := text_bytes "server"; category := []; app_data := [(text_bytes "k", text_bytes "v")]; persistent_id := None;
       raw_data := None; immediate_ack := true |}).
Proof.
  intros items. refine (data_messages_roundtrip items _).
  repeat constructor; try (by eexists); unfold is_u64; try lia; vm_compute; intros H; inversion H; subst; try done; set_solver.
Defined.
