(* ===== verification/Hid.v ===== *)
(** * Rich controllers

    The crate opennow-streamer-hid apart from its mailbox: the inventory of
    controllers ([lib.rs]), the DualShock 4 report ([ds4.rs]) and the session
    that attaches, reports and removes virtual controllers ([session.rs]).
    Arrays with one entry per source are lists of four, the two contacts and
    tracking ids of a source are pairs. *)

From stdpp Require Import list.
From Stdlib Require Import Floats.SpecFloat.
From S2P Require Import Prelude F64 InputWire.

Definition SONY_VENDOR : Z := 0x054c.
Definition SONY_DS4_PRODUCTS : list Z := [0x05c4; 0x09cc; 0x0ba0].
Definition SONY_DS5_PRODUCTS : list Z := [0x0ce6; 0x0df2].
Definition MAX_EXACT_INCARNATION : Z := 9007199254740991.

Inductive SonyTarget := Ds4.

Module SonyCapability.
Record t := {
  synthesized_ds4_support : bool;
  server_mask : Z;
  ds4_source_allowed : bool;
  dualsense_source_allowed : bool;
  cross_synthesize_ds5_to_ds4 : bool
}.
Definition default : t := {|
  synthesized_ds4_support := true; server_mask := 0; ds4_source_allowed := true; dualsense_source_allowed := true;
  cross_synthesize_ds5_to_ds4 := true |}.
Definition SERVER_DS4_TARGET_BIT : Z := 4.
Definition SERVER_GAME_PERMISSION_BIT : Z := 1.
Definition server_supports_ds4 (self : t) : bool := negb (Z.land (server_mask self) SERVER_DS4_TARGET_BIT =? 0).
Definition game_allows_ds4 (self : t) : bool := negb (Z.land (server_mask self) SERVER_GAME_PERMISSION_BIT =? 0).
Definition admits (self : t) (target : SonyTarget) (cross_synthesis : bool) : bool :=
  synthesized_ds4_support self && server_supports_ds4 self && game_allows_ds4 self
  && match target, cross_synthesis with
     | Ds4, false => ds4_source_allowed self
     | Ds4, true => dualsense_source_allowed self && cross_synthesize_ds5_to_ds4 self
     end.
End SonyCapability.

Module SdlDeviceClaim.
Record t := { slot : Z; incarnation : Z; vendor : Z; product : Z }.
Definition new (slot incarnation vendor product : Z) : option t :=
  if (MAX_SOURCES <=? slot) || (incarnation =? 0) || (MAX_EXACT_INCARNATION <? incarnation) then None else
  Some {| slot := slot; incarnation := incarnation; vendor := vendor; product := product |}.
Definition sony_product (self : t) : option (SonyTarget * bool) :=
  if negb (vendor self =? SONY_VENDOR) then None else
  if existsb (Z.eqb (product self)) SONY_DS4_PRODUCTS then Some (Ds4, false) else
  if existsb (Z.eqb (product self)) SONY_DS5_PRODUCTS then Some (Ds4, true) else None.
End SdlDeviceClaim.

Record SonyContact := { active : bool; x : Z; y : Z }.
#[export] Instance SonyContact_eq_dec : EqDecision SonyContact.
Proof. solve_decision. Defined.
Definition no_contact : SonyContact := {| active := false; x := 0; y := 0 |}.

Inductive SonySnapshotError := SlotOutOfRange (slot : Z) | MissingIncarnation | IncarnationOutOfRange (incarnation : Z).

Module SonySnapshot.
Record t := {
  slot : Z;
  incarnation : Z;
  buttons : Z;
  left_trigger : Z;
  right_trigger : Z;
  left_stick_x : Z;
  left_stick_y : Z;
  right_stick_x : Z;
  right_stick_y : Z;
  touchpad_click : bool;
  contacts : SonyContact * SonyContact;
  observed_at_us : Z
}.
Definition neutral (slot incarnation observed_at_us : Z) : t := {|
  slot := slot; incarnation := incarnation; buttons := 0; left_trigger := 0; right_trigger := 0; left_stick_x := 0;
  left_stick_y := 0; right_stick_x := 0; right_stick_y := 0; touchpad_click := false; contacts := (no_contact, no_contact);
  observed_at_us := observed_at_us |}.
Definition with_contacts (self : t) (contacts : SonyContact * SonyContact) : t := {|
  slot := slot self; incarnation := incarnation self; buttons := buttons self; left_trigger := left_trigger self;
  right_trigger := right_trigger self; left_stick_x := left_stick_x self; left_stick_y := left_stick_y self;
  right_stick_x := right_stick_x self; right_stick_y := right_stick_y self; touchpad_click := touchpad_click self;
  contacts := contacts; observed_at_us := observed_at_us self |}.
Definition validate (self : t) : SonySnapshotError + t :=
  if MAX_SOURCES <=? slot self then inl (SlotOutOfRange (slot self)) else
  if incarnation self =? 0 then inl MissingIncarnation else
  if MAX_EXACT_INCARNATION <? incarnation self then inl (IncarnationOutOfRange (incarnation self)) else inr self.
Definition is_neutral (self : t) : bool :=
  (buttons self =? 0) && (left_trigger self =? 0) && (right_trigger self =? 0) && (left_stick_x self =? 0)
  && (left_stick_y self =? 0) && (right_stick_x self =? 0) && (right_stick_y self =? 0) && negb (touchpad_click self)
  && (negb (active (contacts self).1) && negb (active (contacts self).2)).
End SonySnapshot.

(** ** The inventory *)
Inductive InventoryOutcome := Replaced | DuplicateSlot | DuplicateIncarnation | MalformedEntry.

Definition flatten {A} (o : option (option A)) : option A := match o with Some o => o | None => None end.
(** [1 << slot] on a [u16] for each entry the test holds of. *)
Fixpoint slot_mask {A} (test : A -> bool) (slot : Z) (entries : list A) : Z :=
  match entries with
  | [] => 0
  | entry :: entries => Z.lor (if test entry then Z.shiftl 1 slot else 0) (slot_mask test (slot + 1) entries)
  end.

Module InventoryView.
Definition t := list (option SdlDeviceClaim.t).
Definition default : t := replicate 4 None.
Definition claim (self : t) (slot : Z) : option SdlDeviceClaim.t := flatten (zget self slot).
Definition incarnation (self : t) (slot : Z) : option Z := SdlDeviceClaim.incarnation <$> claim self slot.

(** The loop of [replace]: the new entries, or the reason it returns early. *)
Fixpoint replace_from (claims : list SdlDeviceClaim.t) (seen : Z) (next : t) (seen_incarnations : list Z)
    : outcome InventoryOutcome t :=
  match claims with
  | [] => mret next
  | claim :: claims =>
      guard_err ((MAX_SOURCES <=? SdlDeviceClaim.slot claim) || (SdlDeviceClaim.incarnation claim =? 0)) MalformedEntry;;
      taken ← next.[SdlDeviceClaim.slot claim];
      guard_err (bool_decide (is_Some taken)) DuplicateSlot;;
      earlier ← slice seen_incarnations 0 seen;
      guard_err (existsb (Z.eqb (SdlDeviceClaim.incarnation claim)) earlier) DuplicateIncarnation;;
      seen_incarnations ← set_idx seen_incarnations seen (SdlDeviceClaim.incarnation claim);
      next ← set_idx next (SdlDeviceClaim.slot claim) (Some claim);
      replace_from claims (seen + 1) next seen_incarnations
  end.
Definition replace (self : t) (claims : list (option SdlDeviceClaim.t)) : outcome Empty_set (t * InventoryOutcome) :=
  if MAX_SOURCES <? zlen claims then mret (self, MalformedEntry) else
  match replace_from (take 4 (omap id claims)) 0 default (replicate 4 0) with
  | Ok next => mret (next, Replaced)
  | Err reason => mret (self, reason)
  | Panic => Panic
  end.

Definition rich_slot_mask (self : t) : Z :=
  slot_mask (fun claim => match claim with Some claim => bool_decide (is_Some (SdlDeviceClaim.sony_product claim)) | None => false end) 0 self.
End InventoryView.

(** ** The DualShock 4 report *)
Definition DS4_REPORT_ID : Z := 1.
Definition DS4_TOUCH_SAMPLE_COUNT : Z := 1.
Definition DS4_STATUS_BYTE : Z := 0x1b.
Definition DS4_BUTTON_SQUARE : Z := 0x4000.
Definition DS4_BUTTON_CROSS : Z := 0x1000.
Definition DS4_BUTTON_CIRCLE : Z := 0x2000.
Definition DS4_BUTTON_TRIANGLE : Z := 0x8000.
Definition DS4_BUTTON_L1 : Z := 0x0100.
Definition DS4_BUTTON_R1 : Z := 0x0200.
Definition DS4_BUTTON_SHARE : Z := 0x0020.
Definition DS4_BUTTON_OPTIONS : Z := 0x0010.
Definition DS4_BUTTON_L3 : Z := 0x0040.
Definition DS4_BUTTON_R3 : Z := 0x0080.
Definition DS4_BUTTON_DPAD_UP : Z := 0x0001.
Definition DS4_BUTTON_DPAD_DOWN : Z := 0x0002.
Definition DS4_BUTTON_DPAD_LEFT : Z := 0x0004.
Definition DS4_BUTTON_DPAD_RIGHT : Z := 0x0008.
Definition HAT_TABLE : list (list Z) := [[7; 6; 5]; [0; 8; 4]; [1; 2; 3]].

Definition low_id_for_slot (slot : Z) : option Z := if slot <? MAX_SOURCES then Some (slot + DS4_LOW_ID_BASE) else None.
Definition slot_for_low_id (low_id : Z) : option Z :=
  slot ← checked_sub low_id DS4_LOW_ID_BASE;
  if slot <? MAX_SOURCES then Some slot else None.

(** [f32]: binary32 of the same specification as [F64]. *)
Module F32.
Definition of_Z (z : Z) : spec_float := binary_normalize 24 128 z 0 false.
Definition add : spec_float -> spec_float -> spec_float := SFadd 24 128.
Definition mul : spec_float -> spec_float -> spec_float := SFmul 24 128.
Definition div : spec_float -> spec_float -> spec_float := SFdiv 24 128.
(** The casts between the widths. *)
Definition rounded (prec emax : Z) (v : spec_float) : spec_float :=
  match v with S754_finite s m e => binary_normalize prec emax (cond_Zopp s (Zpos m)) e s | v => v end.
Definition of_f64 (v : f64) : spec_float := rounded 24 128 v.
Definition to_f64 (v : spec_float) : f64 := rounded 53 1024 v.
(** [f32::round]: to the nearest integer, ties away from zero. *)
Definition round (v : spec_float) : spec_float :=
  match v with
  | S754_finite s m e =>
      if 0 <=? e then v else binary_normalize 24 128 (cond_Zopp s ((2 * Zpos m + 2 ^ (- e)) / 2 ^ (1 - e))) 0 s
  | v => v
  end.
End F32.

Definition I16_MIN : Z := - 32768.
Definition I16_MAX : Z := 32767.
Definition to_i16 : spec_float -> Z := F64.to_int I16_MIN I16_MAX.
(** [(scaled * k).round().clamp(-32768.0, 32767.0) as i16] *)
Definition scaled_axis (scaled : spec_float) (k : Z) : Z :=
  to_i16 (F64.clamp (F32.of_Z (- 32768)) (F32.of_Z 32767) (F32.round (F32.mul scaled (F32.of_Z k)))).
Definition normalize_touch_axis (value : spec_float) : Z :=
  if F64.is_nan value then 0 else
  if F64.le value (F32.of_Z 0) then I16_MIN else
  if F64.le (F32.of_Z 1) value then I16_MAX else
  let scaled := F32.of_f64 (F64.sub (F64.mul (F64.of_Z 2) (F32.to_f64 value)) (F64.of_Z 1)) in
  if F64.lt scaled (F32.of_Z 0) then scaled_axis scaled 32768
  else if F64.lt (F32.of_Z 0) scaled then scaled_axis scaled 32767 else 0.

Definition scale_axis (raw extent : Z) : Z :=
  let value := F32.mul (F32.div (F32.add (F32.of_Z raw) (F32.of_Z 32768)) (F32.of_Z 65535)) (F32.of_Z extent) in
  F64.to_u16 (F64.clamp (F32.of_Z 0) (F32.of_Z extent) value).

Definition encode_contact (tracking_id : Z) (contact : SonyContact) : list u8 :=
  let cx := scale_axis (x contact) 1919 in
  let cy := scale_axis (y contact) 942 in
  [ z2b (Z.lor (Z.land tracking_id 0x7f) (if active contact then 0 else 0x80));
    z2b (Z.land cx 0xff);
    z2b (Z.lor (Z.land (Z.shiftr cx 8) 0x0f) (Z.shiftl (Z.land cy 0x0f) 4));
    z2b (Z.land (Z.shiftr cy 4) 0xff) ].

Definition centered_axis (raw : Z) : Z := Z.shiftr (raw + 32768) 8.
Definition pressed (buttons button : Z) : bool := negb (Z.land buttons button =? 0).
Definition bit_if (condition : bool) (bit : Z) : Z := if condition then bit else 0.
Definition hat_byte (buttons : Z) : outcome Empty_set Z :=
  let hx := Z.b2z (pressed buttons DS4_BUTTON_DPAD_RIGHT) - Z.b2z (pressed buttons DS4_BUTTON_DPAD_LEFT) in
  let hy := Z.b2z (pressed buttons DS4_BUTTON_DPAD_DOWN) - Z.b2z (pressed buttons DS4_BUTTON_DPAD_UP) in
  row ← HAT_TABLE.[hx + 1]; row.[hy + 1].

Module Ds4ReportState.
Record t := {
  contacts : SonyContact * SonyContact;
  tracking_ids : Z * Z;
  touch_timestamp_byte : Z;
  last_observed_at_us : Z;
  seeded : bool
}.
Definition default : t := {|
  contacts := (no_contact, no_contact); tracking_ids := (0, 0); touch_timestamp_byte := 0; last_observed_at_us := 0;
  seeded := false |}.
Definition observe (self : t) (observed_at_us : Z) : t := {|
  contacts := contacts self; tracking_ids := tracking_ids self; touch_timestamp_byte := touch_timestamp_byte self;
  last_observed_at_us := Z.max (last_observed_at_us self) observed_at_us; seeded := seeded self |}.

(** A contact that becomes active takes the next tracking id. *)
Definition next_tracking_id (tracking_id : Z) (previous contact : SonyContact) : Z :=
  if active contact && negb (active previous) then Z.land ((tracking_id + 1) mod 2 ^ 8) 0x7f else tracking_id.

(** The first half of [build]: what the report's state becomes. *)
Definition advance (self : t) (snapshot : SonySnapshot.t) : t :=
  let self := observe self (SonySnapshot.observed_at_us snapshot) in
  let next := SonySnapshot.contacts snapshot in
  let changed := negb (seeded self) || negb (bool_decide (next = contacts self)) in
  {| contacts := next;
     tracking_ids := (next_tracking_id (tracking_ids self).1 (contacts self).1 next.1,
                      next_tracking_id (tracking_ids self).2 (contacts self).2 next.2);
     touch_timestamp_byte := if changed then (SonySnapshot.observed_at_us snapshot / 1000) mod 2 ^ 8 else touch_timestamp_byte self;
     last_observed_at_us := last_observed_at_us self;
     seeded := seeded self || changed |}.

Definition face_byte (buttons : Z) : outcome Empty_set Z :=
  hat ← hat_byte buttons;
  mret (Z.lor (Z.lor (Z.lor (Z.lor hat (bit_if (pressed buttons DS4_BUTTON_SQUARE) 0x10)) (bit_if (pressed buttons DS4_BUTTON_CROSS) 0x20))
    (bit_if (pressed buttons DS4_BUTTON_CIRCLE) 0x40)) (bit_if (pressed buttons DS4_BUTTON_TRIANGLE) 0x80)).
Definition shoulder_byte (snapshot : SonySnapshot.t) : Z :=
  let buttons := SonySnapshot.buttons snapshot in
  Z.lor (Z.lor (Z.lor (Z.lor (Z.lor (Z.lor (Z.lor
    (bit_if (pressed buttons DS4_BUTTON_L1) 0x01) (bit_if (pressed buttons DS4_BUTTON_R1) 0x02))
    (bit_if (negb (SonySnapshot.left_trigger snapshot =? 0)) 0x04)) (bit_if (negb (SonySnapshot.right_trigger snapshot =? 0)) 0x08))
    (bit_if (pressed buttons DS4_BUTTON_SHARE) 0x10)) (bit_if (pressed buttons DS4_BUTTON_OPTIONS) 0x20))
    (bit_if (pressed buttons DS4_BUTTON_L3) 0x40)) (bit_if (pressed buttons DS4_BUTTON_R3) 0x80).

(** The second half: the 64 bytes, zero where nothing is written. *)
Definition report (self : t) (snapshot : SonySnapshot.t) : outcome Empty_set (list u8) :=
  face ← face_byte (SonySnapshot.buttons snapshot);
  let counter := to_le_bytes 8 (Z.shiftr (as_u64 (SonySnapshot.observed_at_us snapshot * 3)) 4) in
  let report := replicate 64 Byte.x00 in
  report ← set_slice report 0 10 (z2b <$>
    [DS4_REPORT_ID; centered_axis (SonySnapshot.left_stick_x snapshot); centered_axis (SonySnapshot.left_stick_y snapshot);
     centered_axis (SonySnapshot.right_stick_x snapshot); centered_axis (SonySnapshot.right_stick_y snapshot); face;
     shoulder_byte snapshot; bit_if (SonySnapshot.touchpad_click snapshot) 0x02; SonySnapshot.left_trigger snapshot;
     SonySnapshot.right_trigger snapshot]);
  counter0 ← counter.[0]; report ← set_idx report 10 counter0;
  counter1 ← counter.[1]; report ← set_idx report 11 counter1;
  report ← set_idx report 30 (z2b DS4_STATUS_BYTE);
  report ← set_idx report 33 (z2b DS4_TOUCH_SAMPLE_COUNT);
  report ← set_idx report 34 (z2b (touch_timestamp_byte self));
  report ← set_slice report 35 39 (encode_contact (tracking_ids self).1 (contacts self).1);
  set_slice report 39 43 (encode_contact (tracking_ids self).2 (contacts self).2).

Definition build (self : t) (snapshot : SonySnapshot.t) : outcome Empty_set (t * list u8) :=
  let self := advance self snapshot in
  bytes ← report self snapshot;
  mret (self, bytes).
End Ds4ReportState.

(** ** The session *)
Definition DS4_OUTPUT_REPORT_ID : Z := 5.
Definition DS4_OUTPUT_ENABLE_BIT : Z := 1.
Definition DS4_OUTPUT_MIN_BYTES : Z := 6.
Definition DS4_OUTPUT_LOW_BYTE : Z := 4.
Definition DS4_OUTPUT_HIGH_BYTE : Z := 5.

Record SonyRumble := { rumble_slot : Z; rumble_incarnation : Z; low_frequency : Z; high_frequency : Z }.
Inductive HidSessionError := UnsupportedIdentity.
Inductive HidAttachment := Attached | RemovedSource | Refused.
Inductive HidOutbound :=
  | OutAttach (low_id : Z) | OutReport (low_id : Z) (bytes : list u8) | OutRelease (low_id : Z) (bytes : list u8)
  | OutRemoval (low_id : Z).

Record AdmittedSource := { as_slot : Z; as_incarnation : Z; as_vendor : Z; as_product : Z }.

Module HidSession.
Record t := {
  capability : SonyCapability.t;
  sources : list (option AdmittedSource);
  tombstones : list (option Z);
  report_states : list Ds4ReportState.t
}.
Definition new (capability : SonyCapability.t) : t := {|
  capability := capability; sources := replicate 4 None; tombstones := replicate 4 None;
  report_states := replicate 4 Ds4ReportState.default |}.
Definition set_server_mask (self : t) (server_mask : Z) : t := {|
  capability := {| SonyCapability.synthesized_ds4_support := SonyCapability.synthesized_ds4_support (capability self);
    SonyCapability.server_mask := server_mask;
    SonyCapability.ds4_source_allowed := SonyCapability.ds4_source_allowed (capability self);
    SonyCapability.dualsense_source_allowed := SonyCapability.dualsense_source_allowed (capability self);
    SonyCapability.cross_synthesize_ds5_to_ds4 := SonyCapability.cross_synthesize_ds5_to_ds4 (capability self) |};
  sources := sources self; tombstones := tombstones self; report_states := report_states self |}.
Definition with_sources (self : t) (v : list (option AdmittedSource)) : t :=
  {| capability := capability self; sources := v; tombstones := tombstones self; report_states := report_states self |}.
Definition with_tombstones (self : t) (v : list (option Z)) : t :=
  {| capability := capability self; sources := sources self; tombstones := v; report_states := report_states self |}.
Definition with_report_states (self : t) (v : list Ds4ReportState.t) : t :=
  {| capability := capability self; sources := sources self; tombstones := tombstones self; report_states := v |}.

Definition source (self : t) (slot : Z) : option AdmittedSource := flatten (zget (sources self) slot).
Definition attached (self : t) (slot : Z) : option Z := as_incarnation <$> source self slot.
Definition is_tombstoned (self : t) (slot : Z) : bool := bool_decide (is_Some (flatten (zget (tombstones self) slot))).
Definition rich_slot_mask (self : t) : Z := slot_mask (fun source => bool_decide (is_Some source)) 0 (sources self).

Definition admission (self : t) (claim : SdlDeviceClaim.t) : outcome Empty_set (t * list HidOutbound * HidAttachment) :=
  let refused := mret (self, [], Refused) in
  if (MAX_SOURCES <=? SdlDeviceClaim.slot claim) || (SdlDeviceClaim.incarnation claim =? 0) then refused else
  let index := SdlDeviceClaim.slot claim in
  match SdlDeviceClaim.sony_product claim with
  | None => refused
  | Some (target, cross_synthesis) =>
      if negb (SonyCapability.admits (capability self) target cross_synthesis) then refused else
      match low_id_for_slot (SdlDeviceClaim.slot claim) with
      | None => refused
      | Some low_id =>
          tombstone ← (tombstones self).[index];
          if bool_decide (is_Some tombstone) then refused else
          sources ← set_idx (sources self) index (Some {|
            as_slot := SdlDeviceClaim.slot claim; as_incarnation := SdlDeviceClaim.incarnation claim;
            as_vendor := SdlDeviceClaim.vendor claim; as_product := SdlDeviceClaim.product claim |});
          states ← set_idx (report_states self) index Ds4ReportState.default;
          mret (with_report_states (with_sources self sources) states, [OutAttach low_id], Attached)
      end
  end.

Definition released (contact : SonyContact) : SonyContact := {| active := false; x := x contact; y := y contact |}.
Definition release_report (self : t) (slot : Z) : outcome Empty_set (t * list u8) :=
  state ← (report_states self).[slot];
  let release := SonySnapshot.neutral slot 1 (Ds4ReportState.last_observed_at_us state) in
  let previous := Ds4ReportState.contacts state in
  let release := SonySnapshot.with_contacts release (released previous.1, released previous.2) in
  '(state, bytes) ← Ds4ReportState.build state release;
  states ← set_idx (report_states self) slot state;
  mret (with_report_states self states, bytes).

Definition retire_slot (self : t) (slot : Z) : outcome Empty_set (t * list HidOutbound) :=
  match source self slot with
  | None => mret (self, [])
  | Some source =>
      sources ← set_idx (sources self) slot None;
      tombstones ← set_idx (tombstones self) slot (Some (as_incarnation source));
      let self := with_tombstones (with_sources self sources) tombstones in
      match low_id_for_slot slot with
      | Some low_id =>
          '(self, bytes) ← release_report self slot;
          states ← set_idx (report_states self) slot Ds4ReportState.default;
          mret (with_report_states self states, [OutRelease low_id bytes; OutRemoval low_id])
      | None =>
          states ← set_idx (report_states self) slot Ds4ReportState.default;
          mret (with_report_states self states, [])
      end
  end.

(** The body of the loop of [reconcile]. *)
Definition reconcile_slot (inventory : InventoryView.t) (st : t * list HidOutbound) (slot : Z)
    : outcome Empty_set (t * list HidOutbound) :=
  let '(self, outbound) := st in
  let wanted := InventoryView.claim inventory slot in
  current ← (sources self).[slot];
  match current, wanted with
  | Some current, wanted =>
      if match wanted with Some claim => as_incarnation current =? SdlDeviceClaim.incarnation claim | None => false end
      then mret (self, outbound) else
      '(self, more) ← retire_slot self slot;
      match wanted with
      | Some claim => '(self, attach, _) ← admission self claim; mret (self, outbound ++ more ++ attach)
      | None => mret (self, outbound ++ more)
      end
  | None, Some claim => '(self, attach, _) ← admission self claim; mret (self, outbound ++ attach)
  | None, None => mret (self, outbound)
  end.
Definition reconcile (self : t) (inventory : InventoryView.t) : outcome Empty_set (t * list HidOutbound) :=
  ofold (reconcile_slot inventory) (zrange 4) (self, []).

Definition retire (self : t) (slot : Z) : outcome Empty_set (t * list HidOutbound) := retire_slot self slot.
Definition retire_one (st : t * list HidOutbound) (slot : Z) : outcome Empty_set (t * list HidOutbound) :=
  '(self, more) ← retire_slot st.1 slot; mret (self, st.2 ++ more).
Definition retire_all (self : t) : outcome Empty_set (t * list HidOutbound) := ofold retire_one (zrange 4) (self, []).

Definition observe_slot (self : t) (slot observed_at_us : Z) : outcome Empty_set t :=
  match zget (report_states self) slot with
  | Some state => states ← set_idx (report_states self) slot (Ds4ReportState.observe state observed_at_us); mret (with_report_states self states)
  | None => mret self
  end.

Definition build_report (self : t) (snapshot : SonySnapshot.t) : outcome Empty_set (t * option (Z * list u8)) :=
  let index := SonySnapshot.slot snapshot in
  match source self index with
  | None => mret (self, None)
  | Some source =>
      if negb (as_incarnation source =? SonySnapshot.incarnation snapshot) then mret (self, None) else
      match low_id_for_slot index with
      | None => mret (self, None)
      | Some low_id =>
          state ← (report_states self).[index];
          '(state, bytes) ← Ds4ReportState.build state snapshot;
          states ← set_idx (report_states self) index state;
          mret (with_report_states self states, Some (low_id, bytes))
      end
  end.

Definition release_snapshot (self : t) (slot : Z) : outcome Empty_set (t * option (Z * list u8)) :=
  match source self slot with
  | None => mret (self, None)
  | Some _ =>
      match low_id_for_slot slot with
      | None => mret (self, None)
      | Some low_id => '(self, bytes) ← release_report self slot; mret (self, Some (low_id, bytes))
      end
  end.

Definition take_output (self : t) (payload : list u8) (low_id : Z) : outcome Empty_set (option SonyRumble) :=
  match slot_for_low_id low_id with
  | None => mret None
  | Some slot =>
      match source self slot with
      | None => mret None
      | Some source =>
          if zlen payload <? DS4_OUTPUT_MIN_BYTES then mret None else
          report_id ← payload.[0];
          if negb (b2z report_id =? DS4_OUTPUT_REPORT_ID) then mret None else
          flags ← payload.[1];
          if Z.land (b2z flags) DS4_OUTPUT_ENABLE_BIT =? 0 then mret None else
          low ← payload.[DS4_OUTPUT_LOW_BYTE]; high ← payload.[DS4_OUTPUT_HIGH_BYTE];
          mret (Some {| rumble_slot := slot; rumble_incarnation := as_incarnation source;
                        low_frequency := Z.shiftl (b2z low) 8; high_frequency := Z.shiftl (b2z high) 8 |})
      end
  end.

(** [adopt] drops the message of the attachment; only tests call it. *)
Definition adopt (self : t) (claim : SdlDeviceClaim.t) : outcome Empty_set (t * (HidSessionError + HidAttachment)) :=
  match SdlDeviceClaim.sony_product claim with
  | None => mret (self, inl UnsupportedIdentity)
  | Some _ => '(self, _, attachment) ← admission self claim; mret (self, inr attachment)
  end.
End HidSession.

(** ** The report *)

(** What a host reads in the 64 bytes. *)
Record ds4_contact := { dc_active : bool; dc_tracking_id : Z; dc_x : Z; dc_y : Z }.
Record ds4_view := {
  dv_sticks : list Z;
  dv_hat : Z;
  dv_face : list bool;
  dv_shoulder : list bool;
  dv_ps : bool;
  dv_touchpad : bool;
  dv_triggers : list Z;
  dv_contacts : list ds4_contact
}.
Definition at_ (bytes : list u8) (i : nat) : Z := b2z (nth i bytes Byte.x00).
Definition bits (byte : Z) (positions : list Z) : list bool := Z.testbit byte <$> positions.
Definition view_contact (bytes : list u8) (i : nat) : ds4_contact := {|
  dc_active := negb (Z.testbit (at_ bytes i) 7);
  dc_tracking_id := at_ bytes i mod 2 ^ 7;
  dc_x := at_ bytes (i + 1) + at_ bytes (i + 2) mod 2 ^ 4 * 2 ^ 8;
  dc_y := at_ bytes (i + 2) / 2 ^ 4 + at_ bytes (i + 3) * 2 ^ 4 |}.
Definition view (bytes : list u8) : ds4_view := {|
  dv_sticks := at_ bytes <$> [1; 2; 3; 4]%nat;
  dv_hat := at_ bytes 5 mod 2 ^ 4;
  dv_face := bits (at_ bytes 5) [4; 5; 6; 7];
  dv_shoulder := bits (at_ bytes 6) [0; 1; 2; 3; 4; 5; 6; 7];
  dv_ps := Z.testbit (at_ bytes 7) 0;
  dv_touchpad := Z.testbit (at_ bytes 7) 1;
  dv_triggers := at_ bytes <$> [8; 9]%nat;
  dv_contacts := view_contact bytes <$> [35; 39]%nat |}.

(** The eight directions of the hat, clockwise from north; 8 is centered.
    Opposite directions cancel. *)
Definition hat_of (up down left right : bool) : Z :=
  match Z.b2z right - Z.b2z left, Z.b2z down - Z.b2z up with
  | 0, -1 => 0 | 1, -1 => 1 | 1, 0 => 2 | 1, 1 => 3 | 0, 1 => 4 | -1, 1 => 5 | -1, 0 => 6 | -1, -1 => 7 | _, _ => 8
  end.
Definition expected_contact (tracking_id : Z) (contact : SonyContact) : ds4_contact := {|
  dc_active := active contact; dc_tracking_id := tracking_id;
  dc_x := scale_axis (x contact) 1919 mod 2 ^ 12; dc_y := scale_axis (y contact) 942 mod 2 ^ 12 |}.
Definition expected_view (state : Ds4ReportState.t) (s : SonySnapshot.t) : ds4_view :=
  let b := pressed (SonySnapshot.buttons s) in {|
  dv_sticks := (fun v => (v + 32768) / 256)
    <$> [SonySnapshot.left_stick_x s; SonySnapshot.left_stick_y s; SonySnapshot.right_stick_x s; SonySnapshot.right_stick_y s];
  dv_hat := hat_of (b DS4_BUTTON_DPAD_UP) (b DS4_BUTTON_DPAD_DOWN) (b DS4_BUTTON_DPAD_LEFT) (b DS4_BUTTON_DPAD_RIGHT);
  dv_face := b <$> [DS4_BUTTON_SQUARE; DS4_BUTTON_CROSS; DS4_BUTTON_CIRCLE; DS4_BUTTON_TRIANGLE];
  dv_shoulder := [b DS4_BUTTON_L1; b DS4_BUTTON_R1; negb (SonySnapshot.left_trigger s =? 0); negb (SonySnapshot.right_trigger s =? 0);
    b DS4_BUTTON_SHARE; b DS4_BUTTON_OPTIONS; b DS4_BUTTON_L3; b DS4_BUTTON_R3];
  dv_ps := false;
  dv_touchpad := SonySnapshot.touchpad_click s;
  dv_triggers := [SonySnapshot.left_trigger s; SonySnapshot.right_trigger s];
  dv_contacts := [expected_contact (Ds4ReportState.tracking_ids state).1 (SonySnapshot.contacts s).1;
    expected_contact (Ds4ReportState.tracking_ids state).2 (SonySnapshot.contacts s).2] |}.

Definition is_i16 (z : Z) : Prop := I16_MIN <= z <= I16_MAX.
Definition snapshot_ok (s : SonySnapshot.t) : Prop :=
  is_u8 (SonySnapshot.left_trigger s) /\ is_u8 (SonySnapshot.right_trigger s)
  /\ Forall is_i16 [SonySnapshot.left_stick_x s; SonySnapshot.left_stick_y s; SonySnapshot.right_stick_x s; SonySnapshot.right_stick_y s].
Definition ids_ok (ids : Z * Z) : Prop := 0 <= ids.1 < 128 /\ 0 <= ids.2 < 128.

Lemma set_slice_app {A E} (pre old post v : list A) a b :
  a = zlen pre -> b = a + zlen old -> zlen v = zlen old ->
  set_slice (E:=E) (pre ++ old ++ post) a b v = Ok (pre ++ v ++ post).
Proof.
  intros -> -> Hv. unfold set_slice. pose proof (zlen_nonneg pre). pose proof (zlen_nonneg old). pose proof (zlen_nonneg post).
  rewrite !zlen_app, !(proj2 (Z.leb_le _ _)), (proj2 (Z.eqb_eq _ _)) by lia. cbn [andb]. f_equal. unfold zlen.
  rewrite Nat2Z.id, take_app_length. do 2 f_equal.
  replace (Z.to_nat _) with (length pre + length old)%nat by lia. rewrite app_assoc. by rewrite <- length_app, drop_app_length.
Qed.

Lemma face_byte_ok buttons :
  exists hat, Ds4ReportState.face_byte buttons = Ok hat /\ is_u8 hat
    /\ hat mod 2 ^ 4 = hat_of (pressed buttons DS4_BUTTON_DPAD_UP) (pressed buttons DS4_BUTTON_DPAD_DOWN)
         (pressed buttons DS4_BUTTON_DPAD_LEFT) (pressed buttons DS4_BUTTON_DPAD_RIGHT)
    /\ bits hat [4; 5; 6; 7] = pressed buttons <$> [DS4_BUTTON_SQUARE; DS4_BUTTON_CROSS; DS4_BUTTON_CIRCLE; DS4_BUTTON_TRIANGLE].
Proof.
  unfold Ds4ReportState.face_byte, hat_byte. cbn [fmap list_fmap].
  destruct (pressed buttons DS4_BUTTON_DPAD_UP), (pressed buttons DS4_BUTTON_DPAD_DOWN),
    (pressed buttons DS4_BUTTON_DPAD_LEFT), (pressed buttons DS4_BUTTON_DPAD_RIGHT),
    (pressed buttons DS4_BUTTON_SQUARE), (pressed buttons DS4_BUTTON_CROSS),
    (pressed buttons DS4_BUTTON_CIRCLE), (pressed buttons DS4_BUTTON_TRIANGLE);
    (eexists; split; [vm_compute; reflexivity|]; by vm_compute).
Qed.

Lemma shoulder_byte_ok s :
  is_u8 (Ds4ReportState.shoulder_byte s) /\ bits (Ds4ReportState.shoulder_byte s) [0; 1; 2; 3; 4; 5; 6; 7]
    = dv_shoulder (expected_view Ds4ReportState.default s).
Proof.
  unfold Ds4ReportState.shoulder_byte. cbn [dv_shoulder expected_view].
  destruct (pressed _ DS4_BUTTON_L1), (pressed _ DS4_BUTTON_R1), (negb (SonySnapshot.left_trigger s =? 0)),
    (negb (SonySnapshot.right_trigger s =? 0)), (pressed _ DS4_BUTTON_SHARE), (pressed _ DS4_BUTTON_OPTIONS),
    (pressed _ DS4_BUTTON_L3), (pressed _ DS4_BUTTON_R3); by vm_compute.
Qed.

Lemma length_encode_contact id c : length (encode_contact id c) = 4%nat.
Proof. done. Qed.

(** The bytes of a report, laid out. *)
Definition laid_out (self : Ds4ReportState.t) (s : SonySnapshot.t) (face : Z) : list u8 :=
  let counter := to_le_bytes 8 (Z.shiftr (as_u64 (SonySnapshot.observed_at_us s * 3)) 4) in
  (z2b <$> [DS4_REPORT_ID; centered_axis (SonySnapshot.left_stick_x s); centered_axis (SonySnapshot.left_stick_y s);
     centered_axis (SonySnapshot.right_stick_x s); centered_axis (SonySnapshot.right_stick_y s); face;
     Ds4ReportState.shoulder_byte s; bit_if (SonySnapshot.touchpad_click s) 0x02; SonySnapshot.left_trigger s;
     SonySnapshot.right_trigger s])
  ++ take 2 counter ++ replicate 18 Byte.x00 ++ [z2b DS4_STATUS_BYTE; Byte.x00; Byte.x00; z2b DS4_TOUCH_SAMPLE_COUNT;
    z2b (Ds4ReportState.touch_timestamp_byte self)]
  ++ encode_contact (Ds4ReportState.tracking_ids self).1 (Ds4ReportState.contacts self).1
  ++ encode_contact (Ds4ReportState.tracking_ids self).2 (Ds4ReportState.contacts self).2 ++ replicate 21 Byte.x00.

Lemma report_laid_out self s :
  exists face, Ds4ReportState.face_byte (SonySnapshot.buttons s) = Ok face /\ Ds4ReportState.report self s = Ok (laid_out self s face).
Proof.
  destruct (face_byte_ok (SonySnapshot.buttons s)) as (face & Hface & _). exists face. split; [done|].
  unfold Ds4ReportState.report. rewrite Hface. obind. unfold laid_out.
  generalize (Z.shiftr (as_u64 (SonySnapshot.observed_at_us s * 3)) 4). intros counter.
  generalize (encode_contact (Ds4ReportState.tracking_ids self).1 (Ds4ReportState.contacts self).1)
    (length_encode_contact (Ds4ReportState.tracking_ids self).1 (Ds4ReportState.contacts self).1).
  generalize (encode_contact (Ds4ReportState.tracking_ids self).2 (Ds4ReportState.contacts self).2)
    (length_encode_contact (Ds4ReportState.tracking_ids self).2 (Ds4ReportState.contacts self).2).
  intros [|? [|? [|? [|? [|? ?]]]]] H2 [|? [|? [|? [|? [|? ?]]]]] H1; done.
Qed.

Lemma build_total self s : exists self' bytes, Ds4ReportState.build self s = Ok (self', bytes) /\ length bytes = 64%nat
  /\ self' = Ds4ReportState.advance self s /\ exists face, Ds4ReportState.face_byte (SonySnapshot.buttons s) = Ok face /\ bytes = laid_out self' s face.
Proof.
  unfold Ds4ReportState.build. destruct (report_laid_out (Ds4ReportState.advance self s) s) as (face & Hface & ->). obind.
  eexists _, _. split; [reflexivity|]. split; [done|]. split; [done|]. by exists face.
Qed.

Lemma scale_axis_range raw extent : is_u16 (scale_axis raw extent).
Proof. apply to_u16_range. Qed.

Lemma low_bits v k : 0 <= v -> 0 <= k -> Z.land v (Z.ones k) = v mod 2 ^ k.
Proof. intros. by rewrite Z.land_ones. Qed.

Lemma contact_bytes cx cy : is_u16 cx -> is_u16 cy ->
  let b1 := b2z (z2b (Z.land cx 0xff)) in
  let b2 := b2z (z2b (Z.lor (Z.land (Z.shiftr cx 8) 0x0f) (Z.shiftl (Z.land cy 0x0f) 4))) in
  let b3 := b2z (z2b (Z.land (Z.shiftr cy 4) 0xff)) in
  b1 + b2 mod 2 ^ 4 * 2 ^ 8 = cx mod 2 ^ 12 /\ b2 / 2 ^ 4 + b3 * 2 ^ 4 = cy mod 2 ^ 12.
Proof.
  intros Hx Hy. unfold is_u16 in *. cbn zeta.
  change 0xff with (Z.ones 8). change 0x0f with (Z.ones 4). rewrite !Z.shiftr_div_pow2 by lia.
  assert (0 <= cx / 2 ^ 8) by (apply Z.div_pos; lia). assert (0 <= cy / 2 ^ 4) by (apply Z.div_pos; lia).
  rewrite !low_bits by lia. rewrite Z.lor_comm, lor_shiftl_low by (try apply Z.mod_pos_bound; lia || (split; [apply Z.mod_pos_bound|apply Z.mod_pos_bound]; lia)).
  pose proof (Z.mod_pos_bound (cx / 2 ^ 8) (2 ^ 4) ltac:(lia)). pose proof (Z.mod_pos_bound cy (2 ^ 4) ltac:(lia)).
  rewrite !b2z_z2b_small by (try (pose proof (Z.mod_pos_bound cx (2 ^ 8) ltac:(lia))); try (pose proof (Z.mod_pos_bound (cy / 2 ^ 4) (2 ^ 8) ltac:(lia))); lia).
  change (2 ^ 4) with 16 in *. change (2 ^ 8) with 256 in *. change (2 ^ 12) with 4096.
  split; Z.to_euclidean_division_equations; lia.
Qed.

Lemma tracking_byte id (a : bool) : 0 <= id < 128 ->
  let b := b2z (z2b (Z.lor (Z.land id 0x7f) (if a then 0 else 0x80))) in
  negb (Z.testbit b 7) = a /\ b mod 2 ^ 7 = id.
Proof.
  intros Hid. cbn zeta. change 0x7f with (Z.ones 7). rewrite low_bits, Z.mod_small by (change (2 ^ 7) with 128; lia).
  destruct a.
  - rewrite Z.lor_0_r, b2z_z2b_small by lia. change (2 ^ 7) with 128. rewrite Z.mod_small by lia. split; [|done].
    rewrite <- (Z.mod_small id (2 ^ 7)) by (change (2 ^ 7) with 128; lia). by rewrite Z.mod_pow2_bits_high by lia.
  - assert (Hl : Z.lor id 0x80 = id + 128) by (trans (Z.lor (Z.shiftl 1 7) id); [by rewrite Z.lor_comm|rewrite lor_shiftl_low by lia; lia]).
    rewrite Hl, b2z_z2b_small by lia. change (2 ^ 7) with 128. split.
    + apply negb_false_iff. rewrite Z.testbit_true by lia. change (2 ^ 7) with 128. Z.to_euclidean_division_equations. lia.
    + Z.to_euclidean_division_equations. lia.
Qed.

Lemma view_encoded id c bytes i :
  0 <= id < 128 -> (forall k, (k < 4)%nat -> at_ bytes (i + k) = at_ (encode_contact id c) k) ->
  view_contact bytes i = expected_contact id c.
Proof.
  intros Hid Hat. unfold view_contact, expected_contact.
  pose proof (Hat 0%nat ltac:(lia)) as H0. pose proof (Hat 1%nat ltac:(lia)) as H1.
  pose proof (Hat 2%nat ltac:(lia)) as H2. pose proof (Hat 3%nat ltac:(lia)) as H3. rewrite Nat.add_0_r in H0.
  rewrite H0, H1, H2, H3. unfold at_, encode_contact. cbn [nth].
  destruct (tracking_byte id (active c) Hid) as [-> ->].
  destruct (contact_bytes (scale_axis (x c) 1919) (scale_axis (y c) 942)) as [-> ->]; [apply scale_axis_range..|]. done.
Qed.

Lemma advance_ids state s : ids_ok (Ds4ReportState.tracking_ids state) -> ids_ok (Ds4ReportState.tracking_ids (Ds4ReportState.advance state s)).
Proof.
  unfold ids_ok. intros (H1 & H2).
  assert (Hn : forall id p c, 0 <= id < 128 -> 0 <= Ds4ReportState.next_tracking_id id p c < 128).
  { intros id p c Hid. unfold Ds4ReportState.next_tracking_id. destruct (_ && _); [|done].
    change 0x7f with (Z.ones 7). rewrite low_bits by (try lia; apply Z.mod_pos_bound; lia). by apply Z.mod_pos_bound. }
  split; apply Hn; done.
Qed.

Lemma centered v : is_i16 v -> b2z (z2b (centered_axis v)) = (v + 32768) / 256.
Proof.
  intros Hv. unfold is_i16, I16_MIN, I16_MAX, centered_axis in *. rewrite Z.shiftr_div_pow2 by lia. change (2 ^ 8) with 256.
  apply b2z_z2b_small. Z.to_euclidean_division_equations. lia.
Qed.

Lemma report_view (state : Ds4ReportState.t) (s : SonySnapshot.t)
    (Hs : snapshot_ok s) (Hids : ids_ok (Ds4ReportState.tracking_ids state)) :
  exists bytes, Ds4ReportState.build state s = Ok (Ds4ReportState.advance state s, bytes)
    /\ length bytes = 64%nat /\ view bytes = expected_view (Ds4ReportState.advance state s) s.
Proof.
  destruct (build_total state s) as (self' & bytes & Hb & Hlen & -> & face & Hface & Hbytes).
  exists bytes. split; [done|]. split; [done|]. pose proof (advance_ids state s Hids) as (Hid1 & Hid2).
  destruct (face_byte_ok (SonySnapshot.buttons s)) as (face' & Hface' & Hf8 & Hhat & Hbits).
  rewrite Hface in Hface'. injection Hface' as <-. destruct (shoulder_byte_ok s) as [Hs8 Hsh].
  set (st := Ds4ReportState.advance state s) in *. destruct Hs as (Ht1 & Ht2 & Haxes). repeat apply Forall_cons in Haxes as (? & Haxes).
  assert (H5 : at_ bytes 5 = face) by (rewrite Hbytes; trans (b2z (z2b face)); [done|by apply b2z_z2b_small]).
  assert (H6 : at_ bytes 6 = Ds4ReportState.shoulder_byte s).
  { rewrite Hbytes. trans (b2z (z2b (Ds4ReportState.shoulder_byte s))); [done|by apply b2z_z2b_small]. }
  assert (H7 : at_ bytes 7 = bit_if (SonySnapshot.touchpad_click s) 2) by (rewrite Hbytes; trans (b2z (z2b (bit_if (SonySnapshot.touchpad_click s) 2))); [done|by destruct (SonySnapshot.touchpad_click s)]).
  assert (H35 : forall k, (k < 4)%nat -> at_ bytes (35 + k) = at_ (encode_contact (Ds4ReportState.tracking_ids st).1 (Ds4ReportState.contacts st).1) k).
  { intros [|[|[|[|k]]]] Hk; try lia; by rewrite Hbytes. }
  assert (H39 : forall k, (k < 4)%nat -> at_ bytes (39 + k) = at_ (encode_contact (Ds4ReportState.tracking_ids st).2 (Ds4ReportState.contacts st).2) k).
  { intros [|[|[|[|k]]]] Hk; try lia; by rewrite Hbytes. }
  unfold view, expected_view. f_equal.
  - cbn [fmap list_fmap]. rewrite Hbytes. repeat f_equal;
      match goal with |- _ = (?v + 32768) / 256 => trans (b2z (z2b (centered_axis v))); [done|by apply centered] end.
  - by rewrite H5.
  - by rewrite H5.
  - by rewrite H6.
  - rewrite H7. by destruct (SonySnapshot.touchpad_click s).
  - rewrite H7. by destruct (SonySnapshot.touchpad_click s).
  - cbn [fmap list_fmap]. rewrite Hbytes. repeat f_equal.
    + trans (b2z (z2b (SonySnapshot.left_trigger s))); [done|by apply b2z_z2b_small].
    + trans (b2z (z2b (SonySnapshot.right_trigger s))); [done|by apply b2z_z2b_small].
  - cbn [fmap list_fmap]. rewrite (view_encoded (Ds4ReportState.tracking_ids st).1 (Ds4ReportState.contacts st).1) by done.
    rewrite (view_encoded (Ds4ReportState.tracking_ids st).2 (Ds4ReportState.contacts st).2) by done. done.
Qed.



(** Tracking ids count the touch_count of a contact, modulo 128. *)
Fixpoint touch_count (previous : SonyContact) (contacts : list SonyContact) : Z :=
  match contacts with
  | [] => 0
  | c :: contacts => (if active c && negb (active previous) then 1 else 0) + touch_count c contacts
  end.
Lemma next_tracking_id_mod id p c : 0 <= id < 128 ->
  Ds4ReportState.next_tracking_id id p c = (id + if active c && negb (active p) then 1 else 0) mod 128.
Proof.
  intros Hid. unfold Ds4ReportState.next_tracking_id. destruct (_ && _); [|by rewrite Z.add_0_r, Z.mod_small].
  change 0x7f with (Z.ones 7). rewrite low_bits by (try lia; apply Z.mod_pos_bound; lia).
  change (2 ^ 7) with 128. change (2 ^ 8) with 256. Z.to_euclidean_division_equations. lia.
Qed.
Lemma tracking_ids_count_touches snapshots : forall state, ids_ok (Ds4ReportState.tracking_ids state) ->
  Ds4ReportState.tracking_ids (foldl Ds4ReportState.advance state snapshots)
  = (((Ds4ReportState.tracking_ids state).1 + touch_count (Ds4ReportState.contacts state).1 (fst ∘ SonySnapshot.contacts <$> snapshots)) mod 128,
     ((Ds4ReportState.tracking_ids state).2 + touch_count (Ds4ReportState.contacts state).2 (snd ∘ SonySnapshot.contacts <$> snapshots)) mod 128).
Proof.
  induction snapshots as [|s snapshots IH]; intros state Hids; cbn [foldl fmap list_fmap touch_count].
  - destruct Hids. rewrite !Z.add_0_r, !Z.mod_small by done. by destruct (Ds4ReportState.tracking_ids state).
  - rewrite IH by by apply advance_ids. destruct Hids. unfold Ds4ReportState.advance. cbn -[Ds4ReportState.next_tracking_id Z.modulo].
    rewrite !next_tracking_id_mod, !Zplus_mod_idemp_l by done. by rewrite <- !Z.add_assoc.
Qed.

(** ** The session's messages *)

(** The life of a virtual controller as the host sees it. *)
Inductive phase := Unborn | Live | Gone.
#[global] Instance phase_eq_dec : EqDecision phase.
Proof. solve_decision. Defined.
Definition out_low_id (o : HidOutbound) : Z :=
  match o with OutAttach l | OutReport l _ | OutRelease l _ | OutRemoval l => l end.
(** Nothing pressed and nothing touched. *)
Definition at_rest (bytes : list u8) : bool :=
  let v := view bytes in
  bool_decide (dv_sticks v = [128; 128; 128; 128]) && (dv_hat v =? 8)
  && forallb negb (dv_face v ++ dv_shoulder v ++ [dv_ps v; dv_touchpad v] ++ (dc_active <$> dv_contacts v))
  && forallb (Z.eqb 0) (dv_triggers v).
(** A controller is attached once, reports while it lives, and is removed
    right after a neutral report. *)
Fixpoint life (p : phase) (messages : list HidOutbound) : option phase :=
  match p, messages with
  | p, [] => Some p
  | Unborn, OutAttach _ :: messages => life Live messages
  | Live, OutReport _ _ :: messages => life Live messages
  | Live, OutRelease _ bytes :: OutRemoval _ :: messages => if at_rest bytes then life Gone messages else None
  | _, _ => None
  end.
Definition of_slot (slot : Z) (messages : list HidOutbound) : list HidOutbound :=
  List.filter (fun o => out_low_id o =? slot + DS4_LOW_ID_BASE) messages.

Lemma life_app n : forall l1 p p' l2, (length l1 <= n)%nat -> life p l1 = Some p' -> life p (l1 ++ l2) = life p' l2.
Proof.
  induction n as [|n IH]; intros [|o l1] p p' l2 Hn; cbn [length] in Hn; try lia.
  - intros H. destruct p; by injection H as <-.
  - intros H. destruct p; by injection H as <-.
  - destruct p, o as [?|? ?|? ?|?]; cbn [app life]; try done; try (apply IH; lia). destruct l1 as [|[?|? ?|? ?|?] l1]; try done.
    cbn [app life]. destruct (at_rest bytes); [|done]. apply IH. cbn in Hn. lia.
Qed.

Section SessionProofs.
Import HidSession.

Definition phase_of (self : t) (slot : Z) : phase :=
  match source self slot with Some _ => Live | None => if is_tombstoned self slot then Gone else Unborn end.

Record session_ok (self : t) : Prop := {
  ss_sources : zlen (sources self) = 4;
  ss_tombstones : zlen (tombstones self) = 4;
  ss_states : zlen (report_states self) = 4;
  ss_ids : Forall (fun st => ids_ok (Ds4ReportState.tracking_ids st)) (report_states self);
  ss_alive : forall slot, is_Some (source self slot) -> is_tombstoned self slot = false
}.

(** What an operation does: the session stays well formed and every slot's
    messages take its controller from its old to its new phase. *)
Definition lives (self : t) (out : list HidOutbound) (self' : t) : Prop :=
  session_ok self' /\ forall slot, 0 <= slot < 4 -> life (phase_of self slot) (of_slot slot out) = Some (phase_of self' slot).

Lemma lives_nil self : session_ok self -> lives self [] self.
Proof. intros. split; [done|]. intros slot _. by destruct (phase_of self slot). Qed.
Lemma lives_app self out1 self1 out2 self2 : lives self out1 self1 -> lives self1 out2 self2 -> lives self (out1 ++ out2) self2.
Proof.
  intros [_ H1] [Hok H2]. split; [done|]. intros slot Hs. unfold of_slot. rewrite List.filter_app.
  rewrite (life_app _ _ _ _ _ (le_n _) (H1 slot Hs)). by apply H2.
Qed.

Lemma zget_4 {A} (l : list A) slot : zlen l = 4 -> 0 <= slot < 4 -> is_Some (zget l slot).
Proof. intros Hl Hs. apply zget_Some. lia. Qed.

Lemma source_insert self v slot slot' :
  zlen (sources self) = 4 -> 0 <= slot < 4 -> 0 <= slot' ->
  flatten (zget (<[Z.to_nat slot := v]> (sources self)) slot') = if slot' =? slot then v else source self slot'.
Proof. intros Hl Hs Hs'. rewrite zget_insert by lia. by destruct (slot' =? slot). Qed.
Lemma tombstone_insert self v slot slot' :
  zlen (tombstones self) = 4 -> 0 <= slot < 4 -> 0 <= slot' ->
  bool_decide (is_Some (flatten (zget (<[Z.to_nat slot := v]> (tombstones self)) slot')))
  = if slot' =? slot then bool_decide (is_Some v) else is_tombstoned self slot'.
Proof. intros Hl Hs Hs'. rewrite zget_insert by lia. by destruct (slot' =? slot). Qed.

Lemma source_in_range self slot : session_ok self -> is_Some (source self slot) -> 0 <= slot < 4.
Proof.
  intros Hok [s Hs]. unfold source in Hs. destruct (zget (sources self) slot) as [o|] eqn:Hg; [|done].
  apply zget_lt in Hg. by rewrite (ss_sources self Hok) in Hg.
Qed.

(** A new report state. *)
Lemma with_state_ok self slot st :
  session_ok self -> 0 <= slot < 4 -> ids_ok (Ds4ReportState.tracking_ids st) ->
  set_idx (E:=Empty_set) (report_states self) slot st = Ok (<[Z.to_nat slot := st]> (report_states self))
  /\ session_ok (with_report_states self (<[Z.to_nat slot := st]> (report_states self))).
Proof.
  intros [] Hs Hids. split; [apply set_idx_Ok; lia|]. constructor; cbn; try done; [by rewrite zlen_insert|].
  by apply Forall_insert.
Qed.
Lemma state_at self slot : session_ok self -> 0 <= slot < 4 ->
  exists st, idx (E:=Empty_set) (report_states self) slot = Ok st /\ ids_ok (Ds4ReportState.tracking_ids st).
Proof.
  intros [] Hs. destruct (idx_Ok (E:=Empty_set) (report_states self) slot ltac:(lia)) as (st & Hst & Hg). exists st. split; [done|].
  rewrite zget_lookup in Hg by lia. rewrite Forall_forall in ss_ids0. apply ss_ids0. by eapply list_elem_of_lookup_2.
Qed.

Lemma default_ids : ids_ok (Ds4ReportState.tracking_ids Ds4ReportState.default).
Proof. unfold ids_ok. cbn. lia. Qed.

Lemma admission_lives self claim :
  session_ok self -> 0 <= SdlDeviceClaim.slot claim -> source self (SdlDeviceClaim.slot claim) = None ->
  exists self' out attachment, admission self claim = Ok (self', out, attachment) /\ lives self out self'.
Proof.
  intros Hok Hslot Hnone. unfold admission. set (slot := SdlDeviceClaim.slot claim) in *.
  assert (Hrefused : exists self' out attachment, (mret (self, [], Refused) : outcome Empty_set _) = Ok (self', out, attachment) /\ lives self out self').
  { eexists _, _, _. split; [reflexivity|]. by apply lives_nil. }
  destruct ((MAX_SOURCES <=? slot) || _) eqn:Hguard; [done|]. apply orb_false_iff in Hguard as [Hlt _]. unfold MAX_SOURCES in *. zbool.
  destruct (SdlDeviceClaim.sony_product claim) as [[target cross]|]; [|done].
  destruct (SonyCapability.admits (capability self) target cross); cbn [negb]; [|done].
  unfold low_id_for_slot, MAX_SOURCES. rewrite (proj2 (Z.ltb_lt slot 4)) by lia.
  destruct (idx_Ok (E:=Empty_set) (tombstones self) slot) as (tomb & -> & Htomb); [rewrite (ss_tombstones self Hok); lia|]. obind.
  case_bool_decide as Hdead; [done|]. rewrite (set_idx_Ok (sources self)) by (rewrite (ss_sources self Hok); lia). obind.
  destruct (with_state_ok self slot Ds4ReportState.default Hok ltac:(lia) default_ids) as (-> & Hok'). obind.
  eexists _, _, _. split; [reflexivity|]. set (self' := with_report_states _ _).
  assert (Htomb' : is_tombstoned self slot = false).
  { unfold is_tombstoned. rewrite Htomb. cbn [flatten]. by apply bool_decide_eq_false. }
  assert (Hsource : forall s, 0 <= s -> source self' s = if s =? slot
    then Some {| as_slot := slot; as_incarnation := SdlDeviceClaim.incarnation claim; as_vendor := SdlDeviceClaim.vendor claim;
                 as_product := SdlDeviceClaim.product claim |} else source self s).
  { intros s Hs. unfold source at 1. cbn. by rewrite source_insert by (try lia; apply Hok). }
  split.
  - destruct Hok as [H1 H2 H3 H4 H5], Hok' as [_ _ H3' H4' _]. constructor; cbn; try done; [by rewrite zlen_insert|].
    intros s Hs. destruct (decide (0 <= s)) as [Hpos|]; [|unfold source in Hs; destruct Hs as [? Hs]; destruct (zget _ s) eqn:E in Hs; [apply zget_lt in E; lia|done]].
    rewrite Hsource in Hs by done. destruct (Z.eqb_spec s slot) as [E|]; [by rewrite E|]. by apply H5.
  - intros s Hs. unfold phase_of. rewrite Hsource by lia. unfold of_slot. cbn [List.filter out_low_id].
    destruct (Z.eqb_spec s slot) as [E|Hne].
    + rewrite E, Z.add_comm, Z.eqb_refl, Hnone, Htomb'. done.
    + rewrite (proj2 (Z.eqb_neq _ _)) by lia. change (is_tombstoned self' s) with (is_tombstoned self s).
      destruct (source self s); [done|]. by destruct (is_tombstoned self s).
Qed.
End SessionProofs.

Section SessionRuns.
Import HidSession.

(** A report of an attached slot leaves every phase as it is. *)
Lemma report_lives self self' slot bytes :
  session_ok self' -> sources self' = sources self -> tombstones self' = tombstones self -> is_Some (source self slot) ->
  lives self [OutReport (slot + DS4_LOW_ID_BASE) bytes] self'.
Proof.
  intros Hok Hs Ht Hlive. split; [done|]. intros s _. unfold phase_of, source, is_tombstoned, of_slot in *. rewrite Hs, Ht. cbn [List.filter out_low_id].
  destruct (Z.eqb_spec (slot + DS4_LOW_ID_BASE) (s + DS4_LOW_ID_BASE)) as [E|].
  - assert (s = slot) as -> by lia. destruct Hlive as [src ->]. done.
  - destruct (flatten (zget (sources self) s)); [done|]. by destruct (bool_decide _).
Qed.
Lemma same_lives self self' :
  session_ok self' -> sources self' = sources self -> tombstones self' = tombstones self -> lives self [] self'.
Proof.
  intros Hok Hs Ht. split; [done|]. intros s _. unfold phase_of, source, is_tombstoned. rewrite Hs, Ht. cbn.
  destruct (flatten (zget (sources self) s)); [done|]. by destruct (bool_decide _).
Qed.

Lemma build_neutral st slot t :
  ids_ok (Ds4ReportState.tracking_ids st) ->
  let s := SonySnapshot.with_contacts (SonySnapshot.neutral slot 1 t) (released (Ds4ReportState.contacts st).1, released (Ds4ReportState.contacts st).2) in
  exists bytes, Ds4ReportState.build st s = Ok (Ds4ReportState.advance st s, bytes) /\ at_rest bytes = true
    /\ ids_ok (Ds4ReportState.tracking_ids (Ds4ReportState.advance st s)).
Proof.
  intros Hids s. destruct (build_total st s) as (self' & bytes & Hb & _ & -> & face & Hface & Hbytes).
  exists bytes. split; [done|]. split; [|by apply advance_ids]. unfold at_rest.
  assert (Hv : view bytes = expected_view (Ds4ReportState.advance st s) s).
  { destruct (report_view st s) as (bytes' & Hb' & _ & Hv); [|done|rewrite Hb in Hb'; by injection Hb' as <-].
    unfold snapshot_ok, is_u8. cbn. repeat split; try lia; repeat constructor; unfold I16_MIN, I16_MAX; lia. }
  rewrite Hv. by vm_compute.
Qed.

Lemma release_report_ok self slot :
  session_ok self -> 0 <= slot < 4 ->
  exists self' bytes, release_report self slot = Ok (self', bytes) /\ session_ok self' /\ at_rest bytes = true
    /\ sources self' = sources self /\ tombstones self' = tombstones self.
Proof.
  intros Hok Hs. unfold release_report. destruct (state_at self slot Hok Hs) as (st & -> & Hids). obind.
  destruct (build_neutral st slot (Ds4ReportState.last_observed_at_us st) Hids) as (bytes & -> & Hn & Hids'). obind.
  destruct (with_state_ok self slot _ Hok Hs Hids') as (-> & Hok'). obind. by eexists _, _.
Qed.

Lemma retire_lives self slot :
  session_ok self -> exists self' out, retire_slot self slot = Ok (self', out) /\ lives self out self' /\ source self' slot = None.
Proof.
  intros Hok. unfold retire_slot. destruct (source self slot) as [src|] eqn:Hsrc.
  2: { eexists _, _. split; [reflexivity|]. split; [by apply lives_nil|done]. }
  pose proof (source_in_range self slot Hok (mk_is_Some _ _ Hsrc)) as Hs.
  rewrite (set_idx_Ok (sources self)) by (rewrite (ss_sources self Hok); lia). obind.
  rewrite (set_idx_Ok (tombstones self)) by (rewrite (ss_tombstones self Hok); lia). obind.
  set (self1 := with_tombstones _ _). unfold low_id_for_slot, MAX_SOURCES. rewrite (proj2 (Z.ltb_lt slot 4)) by lia.
  assert (Hsource : forall s, 0 <= s -> source self1 s = if s =? slot then None else source self s).
  { intros s Hs'. unfold source at 1. cbn. by rewrite source_insert by (try lia; apply Hok). }
  assert (Htomb : forall s, 0 <= s -> is_tombstoned self1 s = if s =? slot then true else is_tombstoned self s).
  { intros s Hs'. unfold is_tombstoned at 1. cbn. by rewrite tombstone_insert by (try lia; apply Hok). }
  assert (Hok1 : session_ok self1).
  { destruct Hok as [H1 H2 H3 H4 H5]. constructor; cbn; try done; [by rewrite zlen_insert|by rewrite zlen_insert|].
    intros s Hlive. assert (Hr : 0 <= s).
    { destruct (decide (0 <= s)); [done|]. exfalso. destruct Hlive as [? Hlive]. unfold source in Hlive.
      destruct (zget (sources self1) s) eqn:E; [apply zget_lt in E; lia|done]. }
    rewrite Hsource in Hlive by done. rewrite Htomb by done. destruct (s =? slot); [by destruct Hlive|]. by apply H5. }
  destruct (release_report_ok self1 slot Hok1 Hs) as (self2 & bytes & -> & Hok2 & Hn & Hs2 & Ht2). obind.
  destruct (with_state_ok self2 slot Ds4ReportState.default Hok2 Hs default_ids) as (-> & Hok3). obind.
  eexists _, _. split; [reflexivity|].
  assert (Hsrc3 : forall s, source (with_report_states self2 (<[Z.to_nat slot:=Ds4ReportState.default]> (report_states self2))) s = source self1 s)
    by (intros; unfold source; cbn; by rewrite Hs2).
  split; [|rewrite Hsrc3, Hsource, Z.eqb_refl by lia; done].
  split; [done|]. intros s Hs'. unfold phase_of. rewrite Hsrc3.
  assert (Htomb3 : is_tombstoned (with_report_states self2 (<[Z.to_nat slot:=Ds4ReportState.default]> (report_states self2))) s = is_tombstoned self1 s)
    by (unfold is_tombstoned; cbn; by rewrite Ht2).
  rewrite Htomb3, Hsource, Htomb by lia. unfold of_slot. cbn [List.filter out_low_id].
  destruct (Z.eqb_spec s slot) as [->|Hne].
  - rewrite !Z.eqb_refl, Hsrc. cbn [life]. by rewrite Hn.
  - rewrite !(proj2 (Z.eqb_neq _ _)) by lia. destruct (source self s); [done|]. by destruct (is_tombstoned self s).
Qed.

(** ** The inventory *)
Definition inventory_ok (inventory : InventoryView.t) : Prop :=
  zlen inventory = 4 /\ forall slot claim, InventoryView.claim inventory slot = Some claim -> SdlDeviceClaim.slot claim = slot /\ 0 <= slot.

Lemma replace_from_ok claims : forall seen next seen_incarnations,
  Forall (fun c => 0 <= SdlDeviceClaim.slot c) claims -> inventory_ok next -> zlen seen_incarnations = 4 ->
  0 <= seen -> seen + zlen claims <= 4 ->
  match InventoryView.replace_from claims seen next seen_incarnations with Ok next' => inventory_ok next' | Err _ => True | Panic => False end.
Proof.
  induction claims as [|c claims IH]; intros seen next si Hc Hn Hsi Hseen Hlen; [done|].
  apply Forall_cons in Hc as (Hc & Hcs). rewrite zlen_cons in Hlen. pose proof (zlen_nonneg claims). cbn [InventoryView.replace_from].
  unfold guard_err. destruct (_ || _) eqn:Hg; [done|]. apply orb_false_iff in Hg as [Hg _]. unfold MAX_SOURCES in Hg. zbool. obind.
  destruct (idx_Ok (E:=InventoryOutcome) next (SdlDeviceClaim.slot c)) as (taken & -> & Htaken); [destruct Hn as [-> _]; lia|]. obind.
  case_bool_decide; [done|]. obind. rewrite slice_Ok by lia. obind. destruct (existsb _ _); [done|]. obind.
  rewrite (set_idx_Ok si) by lia. obind. rewrite (set_idx_Ok next) by (destruct Hn as [-> _]; lia). obind.
  apply IH; [done| |by rewrite zlen_insert|lia|lia]. destruct Hn as [Hl Hat]. split; [by rewrite zlen_insert|].
  intros slot claim. unfold InventoryView.claim in *. destruct (decide (0 <= slot)) as [Hpos|Hneg].
  - rewrite zget_insert by lia. destruct (Z.eqb_spec slot (SdlDeviceClaim.slot c)) as [E|]; [intros [= <-]; split; [done|lia]|apply Hat].
  - intros H'. exfalso. destruct (zget _ slot) eqn:E in H'; [apply zget_lt in E; lia|done].
Qed.

Definition claims_ok (claims : list (option SdlDeviceClaim.t)) : Prop :=
  Forall (fun o => match o with Some c => 0 <= SdlDeviceClaim.slot c | None => True end) claims.

Lemma default_inventory_ok : inventory_ok InventoryView.default.
Proof.
  split; [done|]. intros slot claim. unfold InventoryView.claim, InventoryView.default.
  destruct (zget (replicate 4 None) slot) as [o|] eqn:E; [|done]. pose proof (zget_lt _ _ _ E) as Hr.
  rewrite zget_lookup in E by lia. apply lookup_replicate in E as [-> _]. done.
Qed.

(** The inventory is replaced as a whole or not at all. *)
Lemma replace_ok inventory claims :
  inventory_ok inventory -> claims_ok claims ->
  exists inventory' reason, InventoryView.replace inventory claims = Ok (inventory', reason) /\ inventory_ok inventory'
    /\ (reason <> Replaced -> inventory' = inventory).
Proof.
  intros Hi Hc. unfold InventoryView.replace. destruct (MAX_SOURCES <? zlen claims); [by eexists _, _|].
  pose proof (replace_from_ok (take 4 (omap id claims)) 0 InventoryView.default (replicate 4 0)) as H.
  destruct (InventoryView.replace_from _ _ _ _) as [next|reason|].
  - eexists _, _. split; [reflexivity|]. split; [|done]. apply H; try done; [|apply default_inventory_ok|].
    + apply Forall_take, Forall_forall. intros c Hin. apply list_elem_of_omap in Hin as (o & Ho & Hco). unfold id in Hco. subst o.
      unfold claims_ok in Hc. rewrite Forall_forall in Hc. by apply (Hc (Some c)).
    + unfold zlen. rewrite length_take. lia.
  - eexists _, _. split; [reflexivity|]. split; [done|]. done.
  - exfalso. apply H; try done; [|apply default_inventory_ok|].
    + apply Forall_take, Forall_forall. intros c Hin. apply list_elem_of_omap in Hin as (o & Ho & Hco). unfold id in Hco. subst o.
      unfold claims_ok in Hc. rewrite Forall_forall in Hc. by apply (Hc (Some c)).
    + unfold zlen. rewrite length_take. lia.
Qed.

Lemma reconcile_slot_lives inventory self out slot :
  inventory_ok inventory -> session_ok self -> 0 <= slot < 4 ->
  exists self' more, reconcile_slot inventory (self, out) slot = Ok (self', out ++ more) /\ lives self more self'.
Proof.
  intros [_ Hinv] Hok Hs. unfold reconcile_slot.
  destruct (idx_Ok (E:=Empty_set) (sources self) slot) as (current & -> & Hcur); [rewrite (ss_sources self Hok); lia|]. obind.
  assert (Hsrc : source self slot = current) by (unfold source; by rewrite Hcur).
  destruct (InventoryView.claim inventory slot) as [claim|] eqn:Hclaim; [destruct (Hinv slot claim Hclaim) as [Hcs _]|].
  - destruct current as [current|].
    + destruct (_ =? _); [exists self, []; rewrite app_nil_r; split; [done|by apply lives_nil]|].
      destruct (retire_lives self slot Hok) as (self1 & more & -> & Hl & Hnone). obind.
      destruct (admission_lives self1 claim) as (self2 & attach & a & -> & Hl2); [by destruct Hl|lia|by rewrite Hcs|]. obind.
      exists self2, (more ++ attach). split; [done|]. by eapply lives_app.
    + destruct (admission_lives self claim Hok) as (self2 & attach & a & -> & Hl2); [lia|by rewrite Hcs|]. obind. by exists self2, attach.
  - destruct current as [current|].
    + destruct (retire_lives self slot Hok) as (self1 & more & -> & Hl & Hnone). obind. by exists self1, more.
    + exists self, []. rewrite app_nil_r. split; [done|by apply lives_nil].
Qed.

Lemma fold_lives (f : t * list HidOutbound -> Z -> outcome Empty_set (t * list HidOutbound)) slots :
  (forall self out slot, session_ok self -> slot ∈ slots -> exists self' more, f (self, out) slot = Ok (self', out ++ more) /\ lives self more self') ->
  forall self out, session_ok self -> exists self' more, ofold f slots (self, out) = Ok (self', out ++ more) /\ lives self more self'.
Proof.
  induction slots as [|slot slots IH]; intros Hf self out Hok.
  - exists self, []. rewrite app_nil_r. split; [done|by apply lives_nil].
  - cbn [ofold]. destruct (Hf self out slot Hok) as (self1 & more1 & -> & Hl1); [set_solver|]. obind.
    destruct (IH ltac:(set_solver) self1 (out ++ more1)) as (self2 & more2 & -> & Hl2); [by destruct Hl1|].
    exists self2, (more1 ++ more2). split; [by rewrite app_assoc|]. by eapply lives_app.
Qed.

(** ** Runs *)
Inductive session_op :=
  | SReplaceInventory (claims : list (option SdlDeviceClaim.t))
  | SSetServerMask (server_mask : Z)
  | SReconcile
  | SReport (snapshot : SonySnapshot.t)
  | SObserve (slot observed_at_us : Z)
  | SReleaseSnapshot (slot : Z)
  | SRetire (slot : Z)
  | SRetireAll.

Definition reported (r : outcome Empty_set (t * option (Z * list u8))) : outcome Empty_set (t * list HidOutbound) :=
  '(self, report) ← r; mret (self, match report with Some (low_id, bytes) => [OutReport low_id bytes] | None => [] end).

Definition session_step (st : InventoryView.t * t * list HidOutbound) (op : session_op)
    : outcome Empty_set (InventoryView.t * t * list HidOutbound) :=
  let '(inventory, self, out) := st in
  let sends r := '(self, more) ← r; mret (inventory, self, out ++ more) in
  match op with
  | SReplaceInventory claims => '(inventory, _) ← InventoryView.replace inventory claims; mret (inventory, self, out)
  | SSetServerMask server_mask => mret (inventory, set_server_mask self server_mask, out)
  | SReconcile => sends (reconcile self inventory)
  | SReport snapshot => sends (reported (build_report self snapshot))
  | SObserve slot observed_at_us => self ← observe_slot self slot observed_at_us; mret (inventory, self, out)
  | SReleaseSnapshot slot => sends (reported (release_snapshot self slot))
  | SRetire slot => sends (retire self slot)
  | SRetireAll => sends (retire_all self)
  end.
Definition session_op_ok (op : session_op) : Prop := match op with SReplaceInventory claims => claims_ok claims | _ => True end.

Lemma session_new_ok capability : session_ok (new capability).
Proof.
  constructor; try done; cbn.
  - repeat constructor; cbn; lia.
  - intros slot _. unfold is_tombstoned. cbn [new tombstones]. apply bool_decide_eq_false_2. rewrite <- not_eq_None_Some. intros Hne. apply Hne.
    destruct (zget _ slot) as [o|] eqn:E; [|done]. pose proof (zget_lt _ _ _ E). rewrite zget_lookup in E by lia. by apply lookup_replicate in E as [-> _].
Qed.

Lemma session_step_lives inventory self out op :
  inventory_ok inventory -> session_ok self -> session_op_ok op ->
  exists inventory' self' more, session_step (inventory, self, out) op = Ok (inventory', self', out ++ more)
    /\ inventory_ok inventory' /\ lives self more self'.
Proof.
  intros Hi Hok Hop. destruct op as [claims|server_mask| |s|slot at_us|slot|slot|]; cbn [session_step].
  - destruct (replace_ok inventory claims Hi Hop) as (inventory' & reason & -> & Hi' & _). obind.
    exists inventory', self, []. rewrite app_nil_r. split; [done|]. split; [done|by apply lives_nil].
  - exists inventory, (set_server_mask self server_mask), []. rewrite app_nil_r. split; [done|]. split; [done|].
    apply same_lives; [|done..]. by destruct Hok.
  - unfold reconcile. destruct (fold_lives (reconcile_slot inventory) (zrange 4)) with (self := self) (out := @nil HidOutbound)
      as (self' & more & -> & Hl); [|done|].
    + intros self1 out1 slot Hok1 Hin. apply reconcile_slot_lives; [done|done|]. unfold zrange in Hin. set_solver by lia.
    + obind. by eexists _, _, _.
  - unfold build_report. destruct (source self (SonySnapshot.slot s)) as [src|] eqn:Hsrc.
    2: { exists inventory, self, []. split; [done|]. split; [done|by apply lives_nil]. }
    destruct (negb _); [exists inventory, self, []; split; [done|]; split; [done|by apply lives_nil]|].
    pose proof (source_in_range self _ Hok (mk_is_Some _ _ Hsrc)) as Hs.
    unfold low_id_for_slot, MAX_SOURCES. rewrite (proj2 (Z.ltb_lt _ 4)) by lia.
    destruct (state_at self _ Hok Hs) as (st & -> & Hids). obind.
    destruct (build_total st s) as (st' & bytes & -> & _ & -> & _). obind.
    destruct (with_state_ok self _ _ Hok Hs (advance_ids st s Hids)) as (-> & Hok'). obind. unfold reported. obind.
    eexists _, _, _. split; [reflexivity|]. split; [done|]. by apply report_lives.
  - unfold observe_slot. destruct (zget (report_states self) slot) as [st|] eqn:Hst.
    2: { exists inventory, self, []. rewrite app_nil_r. split; [done|]. split; [done|by apply lives_nil]. }
    pose proof (zget_lt _ _ _ Hst) as Hs. rewrite (ss_states self Hok) in Hs.
    destruct (with_state_ok self slot (Ds4ReportState.observe st at_us) Hok Hs) as (-> & Hok').
    { destruct (state_at self slot Hok Hs) as (st' & Hst' & Hids). unfold idx in Hst'. rewrite Hst in Hst'. cbn in Hst'. injection Hst' as <-. exact Hids. }
    obind. eexists _, _, []. rewrite app_nil_r. split; [reflexivity|]. split; [done|]. by apply same_lives.
  - unfold release_snapshot. destruct (source self slot) as [src|] eqn:Hsrc.
    2: { exists inventory, self, []. split; [done|]. split; [done|by apply lives_nil]. }
    pose proof (source_in_range self _ Hok (mk_is_Some _ _ Hsrc)) as Hs.
    unfold low_id_for_slot, MAX_SOURCES. rewrite (proj2 (Z.ltb_lt _ 4)) by lia.
    destruct (release_report_ok self slot Hok Hs) as (self' & bytes & -> & Hok' & _ & Hs' & Ht'). obind. unfold reported. obind.
    eexists _, _, _. split; [reflexivity|]. split; [done|]. by apply report_lives.
  - unfold retire. destruct (retire_lives self slot Hok) as (self' & more & -> & Hl & _). obind. by eexists _, _, _.
  - unfold retire_all. destruct (fold_lives retire_one (zrange 4)) with (self := self) (out := @nil HidOutbound) as (self' & more & -> & Hl); [|done|].
    + intros self1 out1 slot Hok1 _. unfold retire_one. cbn [fst snd]. destruct (retire_lives self1 slot Hok1) as (self2 & more & -> & Hl & _). obind. by eexists _, _.
    + obind. by eexists _, _, _.
Qed.

Lemma session_run_lives ops : forall inventory self out,
  inventory_ok inventory -> session_ok self -> Forall session_op_ok ops ->
  exists inventory' self' more, ofold session_step ops (inventory, self, out) = Ok (inventory', self', out ++ more)
    /\ inventory_ok inventory' /\ lives self more self'.
Proof.
  induction ops as [|op ops IH]; intros inventory self out Hi Hok Hops.
  - exists inventory, self, []. rewrite app_nil_r. split; [done|]. split; [done|by apply lives_nil].
  - apply Forall_cons in Hops as (Hop & Hops). cbn [ofold].
    destruct (session_step_lives inventory self out op Hi Hok Hop) as (i1 & s1 & m1 & -> & Hi1 & Hl1). obind.
    destruct (IH i1 s1 (out ++ m1) Hi1 ltac:(by destruct Hl1) Hops) as (i2 & s2 & m2 & -> & Hi2 & Hl2).
    exists i2, s2, (m1 ++ m2). split; [by rewrite app_assoc|]. split; [done|]. by eapply lives_app.
Qed.

(** C27: every virtual controller lives once and leaves nothing pressed.
    Whatever inventories are announced (malformed and duplicate ones included),
    whatever the server admits, and however reports, releases, retirements and
    reconciliations interleave, nothing panics, and the host sees for each slot
    a prefix of: one attach, reports only while attached, a neutral report
    (nothing pressed, nothing touched), one removal, and then nothing.  A slot
    whose controller is gone is never attached again. *)
Theorem virtual_controllers_live_once (capability : SonyCapability.t) (ops : list session_op) (Hops : Forall session_op_ok ops) :
  exists inventory self out,
    ofold session_step ops (InventoryView.default, new capability, []) = Ok (inventory, self, out)
    /\ forall slot, 0 <= slot < 4 ->
      life Unborn (of_slot slot out)
      = Some (match source self slot with Some _ => Live | None => if is_tombstoned self slot then Gone else Unborn end).
Proof.
  destruct (session_run_lives ops InventoryView.default (new capability) [] default_inventory_ok (session_new_ok capability) Hops)
    as (inventory & self & out & Hrun & _ & _ & Hl).
  exists inventory, self, out. split; [done|]. intros slot Hs. specialize (Hl slot Hs).
  assert (Hunborn : phase_of (new capability) slot = Unborn).
  { unfold phase_of, source, is_tombstoned. cbn. assert (Hz : forall A, zget (replicate 4 (@None A)) slot = Some None).
    { intros A. rewrite zget_lookup by lia. apply lookup_replicate. split; [done|lia]. }
    by rewrite !Hz. }
  by rewrite Hunborn in Hl.
Qed.
End SessionRuns.
Lemma virtual_controllers_live_once_witness :
  let pad := {| SdlDeviceClaim.slot := 1; SdlDeviceClaim.incarnation := 7; SdlDeviceClaim.vendor := SONY_VENDOR; SdlDeviceClaim.product := 0x09cc |} in
  let ops := [SSetServerMask 5; SReplaceInventory [Some pad]; SReconcile;
              SReport (SonySnapshot.neutral 1 7 2500); SRetire 1; SReconcile] in
  exists inventory self out,
    ofold session_step ops (InventoryView.default, HidSession.new SonyCapability.default, []) = Ok (inventory, self, out)
    /\ forall slot, 0 <= slot < 4 ->
      life Unborn (of_slot slot out)
      = Some (match HidSession.source self slot with Some _ => Live | None => if HidSession.is_tombstoned self slot then Gone else Unborn end).
Proof.
  intros pad ops. apply (virtual_controllers_live_once SonyCapability.default ops).
  repeat constructor; cbn; lia.
Defined.

(** The run of the witness: one attach, a report, and the removal after the
    neutral report; the second reconciliation attaches nothing. *)
Definition out_kind (o : HidOutbound) : Z := match o with OutAttach _ => 0 | OutReport _ _ => 1 | OutRelease _ _ => 2 | OutRemoval _ => 3 end.
Example one_life_sent :
  match ofold session_step
    [SSetServerMask 5;
     SReplaceInventory [Some {| SdlDeviceClaim.slot := 1; SdlDeviceClaim.incarnation := 7; SdlDeviceClaim.vendor := SONY_VENDOR; SdlDeviceClaim.product := 0x09cc |}];
     SReconcile; SReport (SonySnapshot.neutral 1 7 2500); SRetire 1; SReconcile]
    (InventoryView.default, HidSession.new SonyCapability.default, []) with
  | Ok (_, _, out) => map out_kind out = [0; 1; 2; 3]
  | _ => False
  end.
Proof. by vm_compute. Qed.
