(* ===== verification/HidRuntime.v ===== *)
(** * The mailbox of rich controllers

    [runtime.rs] of the crate opennow-streamer-hid: the lanes between the
    thread that reads controllers and the transport thread that reports them.
    Every method holds the mutex throughout, so an interleaving of the two
    threads is a sequence of operations.  [size_of::<SonySnapshot>] is a
    parameter; the two identifier sources wrap at 64 bits. *)

From stdpp Require Import list.
From S2P Require Import Prelude InputWire Hid.

Definition MAX_QUEUED_STATES : Z := 64.
Definition MAX_QUEUED_STATE_BYTES : Z := 8 * 1024.
Definition DRAIN_PER_ITERATION : Z := 32.

Module SnapshotAdmission.
Inductive t := Accepted | AdmittedInactive | Unbound | Faulted | StaleSource | Overflow.
End SnapshotAdmission.

Record ReleaseRequest := { rq_slot : Z; rq_incarnation : Z; rq_observed_at_us : Z }.
Module LaneFault.
Inductive t := Overflow.
End LaneFault.
Inductive SourceMode := Rich | OrdinaryFallback.
#[export] Instance SourceMode_eq_dec : EqDecision SourceMode.
Proof. solve_decision. Defined.
Inductive IngressItem :=
  | Snapshot (snapshot : SonySnapshot.t)
  | Release (slot incarnation observed_at_us : Z)
  | Fault (slot incarnation observed_at_us : Z).

Module SourceLane.
Record t := {
  states : list SonySnapshot.t;
  bytes : Z;
  release : option ReleaseRequest;
  fault : option LaneFault.t;
  last_observed_at_us : Z;
  dropped : Z
}.
Definition default : t := {|
  states := []; bytes := 0; release := None; fault := None; last_observed_at_us := 0; dropped := 0 |}.
Definition reset (self : t) : t := {|
  states := []; bytes := 0; release := None; fault := None; last_observed_at_us := 0; dropped := dropped self |}.
Definition drop_buffered (self : t) : t := {|
  states := []; bytes := 0; release := release self; fault := fault self;
  last_observed_at_us := last_observed_at_us self; dropped := dropped self |}.
Definition arm_release (self : t) (slot incarnation : Z) : t := {|
  states := states self; bytes := bytes self;
  release := match release self with
    | None => Some {| rq_slot := slot; rq_incarnation := incarnation; rq_observed_at_us := last_observed_at_us self |}
    | Some request => Some request
    end;
  fault := fault self; last_observed_at_us := last_observed_at_us self; dropped := dropped self |}.
Definition observe (self : t) (observed_at_us : Z) : t := {|
  states := states self; bytes := bytes self; release := release self; fault := fault self;
  last_observed_at_us := Z.max (last_observed_at_us self) observed_at_us; dropped := dropped self |}.
Definition with_fault (self : t) (fault : option LaneFault.t) : t := {|
  states := states self; bytes := bytes self; release := release self; fault := fault;
  last_observed_at_us := last_observed_at_us self; dropped := dropped self |}.
Definition with_release (self : t) (release : option ReleaseRequest) : t := {|
  states := states self; bytes := bytes self; release := release; fault := fault self;
  last_observed_at_us := last_observed_at_us self; dropped := dropped self |}.
Definition drop_one (self : t) : t := {|
  states := states self; bytes := bytes self; release := release self; fault := fault self;
  last_observed_at_us := last_observed_at_us self; dropped := saturating_add64 (dropped self) 1 |}.
Definition with_states (self : t) (states : list SonySnapshot.t) (bytes : Z) : t := {|
  states := states; bytes := bytes; release := release self; fault := fault self;
  last_observed_at_us := last_observed_at_us self; dropped := dropped self |}.

Section Push.
Context (snapshot_size : Z).
Definition push (self : t) (snapshot : SonySnapshot.t) : t * SnapshotAdmission.t :=
  match fault self with
  | Some _ => (drop_one self, SnapshotAdmission.Faulted)
  | None =>
      let self := observe self (SonySnapshot.observed_at_us snapshot) in
      let bytes := snapshot_size in
      if (MAX_QUEUED_STATES <=? zlen (states self)) || (MAX_QUEUED_STATE_BYTES <? saturating_add64 (SourceLane.bytes self) bytes) then
        let self := drop_one (with_fault (drop_buffered self) (Some LaneFault.Overflow)) in
        (arm_release self (SonySnapshot.slot snapshot) (SonySnapshot.incarnation snapshot), SnapshotAdmission.Overflow)
      else (with_states self (states self ++ [snapshot]) (SourceLane.bytes self + bytes), SnapshotAdmission.Accepted)
  end.
End Push.
End SourceLane.

Module RuntimeState.
Record t := {
  binding : option Z;
  capture_active : bool;
  inventory : InventoryView.t;
  inventory_epoch : Z;
  endpoint : option Z;
  lanes : list SourceLane.t;
  session_evaluated_epoch : option Z;
  session_admitted : Z
}.
Definition default : t := {|
  binding := None; capture_active := false; inventory := InventoryView.default; inventory_epoch := 0; endpoint := None;
  lanes := replicate 4 SourceLane.default; session_evaluated_epoch := None; session_admitted := 0 |}.
Definition with_lanes (self : t) (lanes : list SourceLane.t) : t := {|
  binding := binding self; capture_active := capture_active self; inventory := inventory self;
  inventory_epoch := inventory_epoch self; endpoint := endpoint self; lanes := lanes;
  session_evaluated_epoch := session_evaluated_epoch self; session_admitted := session_admitted self |}.
(** [lane.reset()] for every lane, the session's verdict withdrawn. *)
Definition restart (self : t) (binding endpoint : option Z) : t := {|
  binding := binding; capture_active := capture_active self; inventory := inventory self;
  inventory_epoch := inventory_epoch self; endpoint := endpoint; lanes := SourceLane.reset <$> lanes self;
  session_evaluated_epoch := None; session_admitted := 0 |}.

Definition mode_for_epoch (self : t) (slot : Z) : option SourceMode :=
  if negb (bool_decide (session_evaluated_epoch self = Some (inventory_epoch self))) then None else
  match InventoryView.incarnation (inventory self) slot with
  | None => None
  | Some _ => Some (if negb (Z.land (session_admitted self) (Z.shiftl 1 slot) =? 0) then Rich else OrdinaryFallback)
  end.
End RuntimeState.

Module HidRuntime.
Import RuntimeState.
Record t := { state : RuntimeState.t; incarnation_source : Z; epoch : Z; endpoint_source : Z }.
Definition new : t := {| state := RuntimeState.default; incarnation_source := 1; epoch := 0; endpoint_source := 1 |}.
Definition with_state (self : t) (state : RuntimeState.t) : t := {|
  state := state; incarnation_source := incarnation_source self; epoch := epoch self; endpoint_source := endpoint_source self |}.

(** [fetch_add] wraps. *)
Definition next_incarnation (self : t) : t * Z :=
  ({| state := state self; incarnation_source := (incarnation_source self + 1) mod 2 ^ 64; epoch := epoch self;
      endpoint_source := endpoint_source self |}, incarnation_source self).

Definition reset_if_changed (previous next : InventoryView.t) (lanes : list SourceLane.t) (slot : Z)
    : outcome Empty_set (list SourceLane.t) :=
  if bool_decide (InventoryView.incarnation previous slot = InventoryView.incarnation next slot) then mret lanes else
  lane ← lanes.[slot]; set_idx lanes slot (SourceLane.reset lane).
Definition replace_inventory (self : t) (claims : list (option SdlDeviceClaim.t)) : outcome Empty_set (t * (InventoryOutcome * Z)) :=
  let previous := inventory (state self) in
  '(next, outcome) ← InventoryView.replace previous claims;
  match outcome with
  | Replaced =>
      lanes ← ofold (reset_if_changed previous next) (zrange 4) (lanes (state self));
      let epoch := (inventory_epoch (state self) + 1) mod 2 ^ 64 in
      let state := {| binding := binding (state self); capture_active := capture_active (state self); inventory := next;
        inventory_epoch := epoch; endpoint := endpoint (state self); lanes := lanes; session_evaluated_epoch := None;
        session_admitted := 0 |} in
      mret ({| state := state; incarnation_source := incarnation_source self; epoch := epoch;
               endpoint_source := endpoint_source self |}, (outcome, epoch))
  | _ => mret (self, (outcome, inventory_epoch (state self)))
  end.
Definition inventory_snapshot (self : t) : InventoryView.t * Z := (inventory (state self), inventory_epoch (state self)).

Definition open_endpoint (self : t) : t * Z :=
  let token := endpoint_source self in
  ({| state := restart (state self) (binding (state self)) (Some token); incarnation_source := incarnation_source self;
      epoch := epoch self; endpoint_source := (token + 1) mod 2 ^ 64 |}, token).
Definition close_endpoint (self : t) (token : Z) : t :=
  if negb (bool_decide (endpoint (state self) = Some token)) then self else with_state self (restart (state self) None None).
Definition bind_session (self : t) (generation : Z) : t * option Z :=
  match endpoint (state self) with
  | None => (self, None)
  | Some _ => (with_state self (restart (state self) (Some generation) (endpoint (state self))), Some generation)
  end.
Definition unbind_session (self : t) (generation : Z) : t :=
  if match binding (state self) with Some bound => negb (bound =? generation) | None => false end then self else
  with_state self (restart (state self) None (endpoint (state self))).
Definition session_generation (self : t) : option Z := binding (state self).

Definition set_session_admission (self : t) (admitted epoch : Z) : t * bool :=
  let st := state self in
  if negb (epoch =? inventory_epoch st) then (self, false) else
  (with_state self {| binding := binding st; capture_active := capture_active st; inventory := inventory st;
     inventory_epoch := inventory_epoch st; endpoint := endpoint st; lanes := lanes st;
     session_evaluated_epoch := Some epoch; session_admitted := admitted |}, true).

Definition source_mode (self : t) (slot : Z) : option SourceMode := mode_for_epoch (state self) slot.

Definition release_lane (inventory : InventoryView.t) (lanes : list SourceLane.t) (slot : Z) : outcome Empty_set (list SourceLane.t) :=
  match InventoryView.incarnation inventory slot with
  | None => mret lanes
  | Some incarnation =>
      lane ← lanes.[slot];
      set_idx lanes slot (SourceLane.arm_release (SourceLane.drop_buffered lane) slot incarnation)
  end.
Definition set_active (self : t) (active : bool) : outcome Empty_set t :=
  let st := state self in
  if eqb (capture_active st) active then mret self else
  let st := {| binding := binding st; capture_active := active; inventory := inventory st;
     inventory_epoch := inventory_epoch st; endpoint := endpoint st; lanes := lanes st;
     session_evaluated_epoch := session_evaluated_epoch st; session_admitted := session_admitted st |} in
  if active then mret (with_state self st) else
  lanes ← ofold (release_lane (inventory st)) (zrange 4) (lanes st);
  mret (with_state self (with_lanes st lanes)).

Definition output_admitted (self : t) (slot : Z) : bool :=
  let st := state self in
  if negb (capture_active st) || bool_decide (binding st = None) then false else
  match InventoryView.incarnation (inventory st) slot, zget (lanes st) slot with
  | Some _, Some lane => match SourceLane.fault lane with None => true | Some _ => false end
  | _, _ => false
  end.

(** The gamepads present, low and high byte. *)
Definition source_bitmap (inventory : InventoryView.t) : Z :=
  foldl (fun bitmap slot => match InventoryView.incarnation inventory slot with
    | Some _ => Z.lor bitmap (Z.lor (Z.shiftl 1 slot) (Z.shiftl 1 (slot + 8)))
    | None => bitmap
    end) 0 (zrange 4).

Section Submit.
Context (snapshot_size : Z).
(** The third component is the call of [admit_ordinary], if it is made. *)
Definition submit_snapshot_with (self : t) (snapshot : SonySnapshot.t)
    : outcome Empty_set (t * SnapshotAdmission.t * option (SonySnapshot.t * Z)) :=
  match SonySnapshot.validate snapshot with
  | inl _ => mret (self, SnapshotAdmission.StaleSource, None)
  | inr snapshot =>
      let st := state self in
      match binding st with
      | None => mret (self, SnapshotAdmission.Unbound, None)
      | Some _ =>
          match InventoryView.incarnation (inventory st) (SonySnapshot.slot snapshot) with
          | None => mret (self, SnapshotAdmission.StaleSource, None)
          | Some incarnation =>
              if negb (incarnation =? SonySnapshot.incarnation snapshot) then mret (self, SnapshotAdmission.StaleSource, None) else
              match mode_for_epoch st (SonySnapshot.slot snapshot) with
              | None => mret (self, SnapshotAdmission.StaleSource, None)
              | Some OrdinaryFallback =>
                  mret (self, SnapshotAdmission.Accepted, Some (snapshot, source_bitmap (inventory st)))
              | Some Rich =>
                  lane ← (lanes st).[SonySnapshot.slot snapshot];
                  let lane := SourceLane.observe lane (SonySnapshot.observed_at_us snapshot) in
                  let '(lane, admission) :=
                    if negb (capture_active st) then
                      (if SonySnapshot.is_neutral snapshot
                       then SourceLane.arm_release lane (SonySnapshot.slot snapshot) (SonySnapshot.incarnation snapshot) else lane,
                       SnapshotAdmission.AdmittedInactive)
                    else SourceLane.push snapshot_size lane snapshot in
                  lanes ← set_idx (lanes st) (SonySnapshot.slot snapshot) lane;
                  mret (with_state self (with_lanes st lanes), admission, None)
              end
          end
      end
  end.

(** One lane of [drain]: what it gives up of the budget that is left, and
    whether the loop over the lanes goes on. *)
Definition take_marker (lane : SourceLane.t) : SourceLane.t * list IngressItem :=
  match SourceLane.release lane with
  | None => (lane, [])
  | Some release =>
      let lane := SourceLane.with_release lane None in
      let item := match SourceLane.fault lane with
        | Some _ => Fault (rq_slot release) (rq_incarnation release) (rq_observed_at_us release)
        | None => Release (rq_slot release) (rq_incarnation release) (rq_observed_at_us release)
        end in
      (SourceLane.with_fault lane None, [item])
  end.
Fixpoint pop_states (budget : nat) (states : list SonySnapshot.t) (bytes : Z) : list SonySnapshot.t * Z * list IngressItem :=
  match budget, states with
  | O, _ | _, [] => (states, bytes, [])
  | S budget, snapshot :: states =>
      let '(states, bytes, items) := pop_states budget states (Z.max 0 (bytes - snapshot_size)) in
      (states, bytes, Snapshot snapshot :: items)
  end.
Fixpoint drain_lanes (lanes : list SourceLane.t) (budget : nat) : list SourceLane.t * list IngressItem :=
  match lanes with
  | [] => ([], [])
  | lane :: rest =>
      if (budget =? 0)%nat then (lane :: rest, []) else
      let '(lane, marker) := take_marker lane in
      let budget := (budget - length marker)%nat in
      if (budget =? 0)%nat then (lane :: rest, marker) else
      let '(states, bytes, items) := pop_states budget (SourceLane.states lane) (SourceLane.bytes lane) in
      let '(rest, more) := drain_lanes rest (budget - length items) in
      (SourceLane.with_states lane states bytes :: rest, marker ++ items ++ more)
  end.
Definition drain (self : t) (budget : nat) : t * list IngressItem :=
  let '(lanes, drained) := drain_lanes (lanes (state self)) budget in
  (with_state self (with_lanes (state self) lanes), drained).
End Submit.

Definition pending_states (self : t) : Z := foldr Z.add 0 ((fun lane => zlen (SourceLane.states lane)) <$> lanes (state self)).
Definition faulted_sources (self : t) : Z :=
  slot_mask (fun lane => match SourceLane.fault lane with Some _ => true | None => false end) 0 (lanes (state self)).
End HidRuntime.

(** ** The mailbox as a list of pending items per source *)

Definition item_slot (item : IngressItem) : Z :=
  match item with Snapshot s => SonySnapshot.slot s | Release slot _ _ | Fault slot _ _ => slot end.
Definition item_incarnation (item : IngressItem) : Z :=
  match item with Snapshot s => SonySnapshot.incarnation s | Release _ incarnation _ | Fault _ incarnation _ => incarnation end.
Definition is_snapshot (item : IngressItem) : bool := match item with Snapshot _ => true | _ => false end.

(** What a client of the mailbox has to know: who is bound, which controllers
    are present, the verdict on them, and for each source the items not yet
    delivered with the latest time it was observed at.  There are no byte
    counts, no fault flags and no release requests. *)
Module Mailbox.
Record t := {
  bound : option Z;
  active : bool;
  controllers : InventoryView.t;
  version : Z;
  endpoint : option Z;
  next_endpoint : Z;
  verdict : option Z;
  boxes : list (list IngressItem * Z)
}.
Definition empty : t := {|
  bound := None; active := false; controllers := InventoryView.default; version := 0; endpoint := None; next_endpoint := 1;
  verdict := None; boxes := replicate 4 ([], 0) |}.
Definition with_boxes (m : t) (boxes : list (list IngressItem * Z)) : t := {|
  bound := bound m; active := active m; controllers := controllers m; version := version m; endpoint := endpoint m;
  next_endpoint := next_endpoint m; verdict := verdict m; boxes := boxes |}.
Definition restart (m : t) (bound endpoint : option Z) (next_endpoint : Z) : t := {|
  bound := bound; active := active m; controllers := controllers m; version := version m; endpoint := endpoint;
  next_endpoint := next_endpoint; verdict := None; boxes := (fun _ => ([], 0)) <$> boxes m |}.

Definition marker (box : list IngressItem) : option IngressItem :=
  match box with Snapshot _ :: _ | [] => None | item :: _ => Some item end.
Definition faulted (box : list IngressItem) : bool := match box with Fault _ _ _ :: _ => true | _ => false end.
Definition to_fault (item : IngressItem) : IngressItem :=
  match item with Release slot incarnation at_us => Fault slot incarnation at_us | item => item end.

(** The input of an attached controller: kept in order while there is room,
    and given up as a whole when there is none. *)
Definition submit_box (capacity : Z) (active : bool) (s : SonySnapshot.t) (boxed : list IngressItem * Z) : list IngressItem * Z :=
  let '(box, seen) := boxed in
  let seen := Z.max seen (SonySnapshot.observed_at_us s) in
  let release := default (Release (SonySnapshot.slot s) (SonySnapshot.incarnation s) seen) (marker box) in
  (if active then
     if faulted box then box else
     if capacity <=? zlen (List.filter is_snapshot box) then [to_fault release] else box ++ [Snapshot s]
   else if SonySnapshot.is_neutral s && match marker box with None => true | Some _ => false end then release :: box else box, seen).
(** A controller that loses the capture is released, nothing else of it is delivered. *)
Definition release_box (controllers : InventoryView.t) (slot : nat) (boxed : list IngressItem * Z) : list IngressItem * Z :=
  match InventoryView.incarnation controllers (Z.of_nat slot) with
  | None => boxed
  | Some incarnation => ([default (Release (Z.of_nat slot) incarnation boxed.2) (marker boxed.1)], boxed.2)
  end.
(** The boxes are emptied from the first on. *)
Fixpoint drain_boxes (budget : nat) (boxes : list (list IngressItem * Z)) : list (list IngressItem * Z) * list IngressItem :=
  match boxes with
  | [] => ([], [])
  | (box, seen) :: boxes =>
      let '(boxes, more) := drain_boxes (budget - length box) boxes in
      ((drop budget box, seen) :: boxes, take budget box ++ more)
  end.
End Mailbox.

Inductive runtime_op :=
  | RNextIncarnation
  | RReplaceInventory (claims : list (option SdlDeviceClaim.t))
  | ROpenEndpoint
  | RCloseEndpoint (token : Z)
  | RBind (generation : Z)
  | RUnbind (generation : Z)
  | RSetAdmission (admitted epoch : Z)
  | RSetActive (active : bool)
  | RSubmit (snapshot : SonySnapshot.t)
  | RDrain (budget : nat).

Section Refinement.
Context (snapshot_size : Z) (snapshot_size_pos : 0 < snapshot_size).

(** One operation, with the items it delivers. *)
Definition runtime_step (st : HidRuntime.t * list IngressItem) (op : runtime_op) : outcome Empty_set (HidRuntime.t * list IngressItem) :=
  let '(self, out) := st in
  match op with
  | RNextIncarnation => mret ((HidRuntime.next_incarnation self).1, out)
  | RReplaceInventory claims => '(self, _) ← HidRuntime.replace_inventory self claims; mret (self, out)
  | ROpenEndpoint => mret ((HidRuntime.open_endpoint self).1, out)
  | RCloseEndpoint token => mret (HidRuntime.close_endpoint self token, out)
  | RBind generation => mret ((HidRuntime.bind_session self generation).1, out)
  | RUnbind generation => mret (HidRuntime.unbind_session self generation, out)
  | RSetAdmission admitted epoch => mret ((HidRuntime.set_session_admission self admitted epoch).1, out)
  | RSetActive active => self ← HidRuntime.set_active self active; mret (self, out)
  | RSubmit s => '(self, _, _) ← HidRuntime.submit_snapshot_with snapshot_size self s; mret (self, out)
  | RDrain budget => let '(self, items) := HidRuntime.drain snapshot_size self budget in mret (self, out ++ items)
  end.

(** A lane holds 64 states, or what fits in 8 KiB. *)
Definition lane_capacity : Z := Z.min MAX_QUEUED_STATES (MAX_QUEUED_STATE_BYTES / snapshot_size).

Definition mailbox_step (st : Mailbox.t * list IngressItem) (op : runtime_op) : Mailbox.t * list IngressItem :=
  let '(m, out) := st in
  match op with
  | RNextIncarnation => (m, out)
  | RReplaceInventory claims =>
      (match InventoryView.replace (Mailbox.controllers m) claims with
       | Ok (next, Replaced) => {|
           Mailbox.bound := Mailbox.bound m; Mailbox.active := Mailbox.active m; Mailbox.controllers := next;
           Mailbox.version := (Mailbox.version m + 1) mod 2 ^ 64; Mailbox.endpoint := Mailbox.endpoint m;
           Mailbox.next_endpoint := Mailbox.next_endpoint m; Mailbox.verdict := None;
           Mailbox.boxes := imap (fun slot boxed =>
             if bool_decide (InventoryView.incarnation (Mailbox.controllers m) (Z.of_nat slot) = InventoryView.incarnation next (Z.of_nat slot)) then boxed else ([], 0))
             (Mailbox.boxes m) |}
       | _ => m
       end, out)
  | ROpenEndpoint => (Mailbox.restart m (Mailbox.bound m) (Some (Mailbox.next_endpoint m)) ((Mailbox.next_endpoint m + 1) mod 2 ^ 64), out)
  | RCloseEndpoint token =>
      (if bool_decide (Mailbox.endpoint m = Some token) then Mailbox.restart m None None (Mailbox.next_endpoint m) else m, out)
  | RBind generation =>
      (if bool_decide (is_Some (Mailbox.endpoint m)) then Mailbox.restart m (Some generation) (Mailbox.endpoint m) (Mailbox.next_endpoint m) else m, out)
  | RUnbind generation =>
      (if bool_decide (Mailbox.bound m = None \/ Mailbox.bound m = Some generation)
       then Mailbox.restart m None (Mailbox.endpoint m) (Mailbox.next_endpoint m) else m, out)
  | RSetAdmission admitted epoch =>
      (if epoch =? Mailbox.version m then {|
         Mailbox.bound := Mailbox.bound m; Mailbox.active := Mailbox.active m; Mailbox.controllers := Mailbox.controllers m;
         Mailbox.version := Mailbox.version m; Mailbox.endpoint := Mailbox.endpoint m; Mailbox.next_endpoint := Mailbox.next_endpoint m;
         Mailbox.verdict := Some admitted; Mailbox.boxes := Mailbox.boxes m |} else m, out)
  | RSetActive active =>
      ({| Mailbox.bound := Mailbox.bound m; Mailbox.active := active; Mailbox.controllers := Mailbox.controllers m;
          Mailbox.version := Mailbox.version m; Mailbox.endpoint := Mailbox.endpoint m; Mailbox.next_endpoint := Mailbox.next_endpoint m;
          Mailbox.verdict := Mailbox.verdict m;
          Mailbox.boxes := if Mailbox.active m && negb active then imap (Mailbox.release_box (Mailbox.controllers m)) (Mailbox.boxes m)
                           else Mailbox.boxes m |}, out)
  | RSubmit s =>
      (if bool_decide (is_Some (Mailbox.bound m)) && match SonySnapshot.validate s with inr _ => true | inl _ => false end
          && bool_decide (InventoryView.incarnation (Mailbox.controllers m) (SonySnapshot.slot s) = Some (SonySnapshot.incarnation s))
          && match Mailbox.verdict m with Some admitted => Z.testbit admitted (SonySnapshot.slot s) | None => false end
       then Mailbox.with_boxes m (alter (Mailbox.submit_box lane_capacity (Mailbox.active m) s) (Z.to_nat (SonySnapshot.slot s)) (Mailbox.boxes m))
       else m, out)
  | RDrain budget => let '(boxes, items) := Mailbox.drain_boxes budget (Mailbox.boxes m) in (Mailbox.with_boxes m boxes, out ++ items)
  end.

Definition box_of (lane : SourceLane.t) : list IngressItem :=
  (HidRuntime.take_marker lane).2 ++ (Snapshot <$> SourceLane.states lane).
Definition mailbox_of (self : HidRuntime.t) : Mailbox.t :=
  let st := HidRuntime.state self in {|
  Mailbox.bound := RuntimeState.binding st; Mailbox.active := RuntimeState.capture_active st;
  Mailbox.controllers := RuntimeState.inventory st; Mailbox.version := RuntimeState.inventory_epoch st;
  Mailbox.endpoint := RuntimeState.endpoint st; Mailbox.next_endpoint := HidRuntime.endpoint_source self;
  Mailbox.verdict := if bool_decide (RuntimeState.session_evaluated_epoch st = Some (RuntimeState.inventory_epoch st))
                     then Some (RuntimeState.session_admitted st) else None;
  Mailbox.boxes := (fun lane => (box_of lane, SourceLane.last_observed_at_us lane)) <$> RuntimeState.lanes st |}.

Record lane_ok (lane : SourceLane.t) : Prop := {
  ln_bytes : SourceLane.bytes lane = snapshot_size * zlen (SourceLane.states lane);
  ln_fault : is_Some (SourceLane.fault lane) -> is_Some (SourceLane.release lane) /\ SourceLane.states lane = []
}.
Record runtime_ok (self : HidRuntime.t) : Prop := {
  ru_lanes : zlen (RuntimeState.lanes (HidRuntime.state self)) = 4;
  ru_lane : Forall lane_ok (RuntimeState.lanes (HidRuntime.state self));
  ru_inventory : inventory_ok (RuntimeState.inventory (HidRuntime.state self));
  ru_evaluated : RuntimeState.session_evaluated_epoch (HidRuntime.state self) = None
    \/ RuntimeState.session_evaluated_epoch (HidRuntime.state self) = Some (RuntimeState.inventory_epoch (HidRuntime.state self))
}.

(** ** The lanes *)
Lemma box_of_states lane : SourceLane.release lane = None -> box_of lane = Snapshot <$> SourceLane.states lane.
Proof. intros H. unfold box_of, HidRuntime.take_marker. by rewrite H. Qed.
Lemma snapshots_only (states : list SonySnapshot.t) : List.filter is_snapshot (Snapshot <$> states) = Snapshot <$> states.
Proof. induction states as [|s states IH]; [done|]. cbn. by rewrite IH. Qed.
Lemma box_snapshots lane : List.filter is_snapshot (box_of lane) = Snapshot <$> SourceLane.states lane.
Proof.
  unfold box_of. rewrite List.filter_app, snapshots_only. unfold HidRuntime.take_marker.
  destruct (SourceLane.release lane); [|done]. cbn. by destruct (SourceLane.fault lane).
Qed.
Lemma zlen_fmap {A B} (f : A -> B) l : zlen (f <$> l) = zlen l.
Proof. unfold zlen. by rewrite length_fmap. Qed.

Lemma no_states : 0 = snapshot_size * zlen (@nil SonySnapshot.t).
Proof. unfold zlen. cbn [length]. lia. Qed.

Lemma reset_box lane : box_of (SourceLane.reset lane) = [] /\ lane_ok (SourceLane.reset lane).
Proof. split; [done|]. split; [apply no_states|]. by intros [? H]. Qed.

Lemma marker_snapshots states : Mailbox.marker (Snapshot <$> states) = None.
Proof. by destruct states. Qed.
Lemma faulted_snapshots states : Mailbox.faulted (Snapshot <$> states) = false.
Proof. by destruct states. Qed.

(** The marker of a lane's box is its release request, a fault when one is armed. *)
Lemma box_cases lane : lane_ok lane ->
  match SourceLane.release lane with
  | None => SourceLane.fault lane = None /\ box_of lane = Snapshot <$> SourceLane.states lane
  | Some r => box_of lane = (match SourceLane.fault lane with Some _ => Fault | None => Release end) (rq_slot r) (rq_incarnation r) (rq_observed_at_us r) :: (Snapshot <$> SourceLane.states lane)
  end.
Proof.
  intros [_ Hf]. unfold box_of, HidRuntime.take_marker. destruct (SourceLane.release lane) as [r|].
  - cbn. by destruct (SourceLane.fault lane).
  - split; [|done]. destruct (SourceLane.fault lane); [|done]. destruct Hf as [[? H] _]; [by eexists|done].
Qed.

Lemma released_box lane slot incarnation : lane_ok lane ->
  box_of (SourceLane.arm_release (SourceLane.drop_buffered lane) slot incarnation)
    = [default (Release slot incarnation (SourceLane.last_observed_at_us lane)) (Mailbox.marker (box_of lane))]
  /\ lane_ok (SourceLane.arm_release (SourceLane.drop_buffered lane) slot incarnation).
Proof.
  intros Hok. pose proof (box_cases lane Hok) as Hb. pose proof (ln_fault _ Hok) as Hf. split.
  - unfold box_of at 1, HidRuntime.take_marker. cbn [SourceLane.release SourceLane.arm_release SourceLane.drop_buffered].
    destruct (SourceLane.release lane) as [r|] eqn:Hr.
    + rewrite Hb. cbn. by destruct (SourceLane.fault lane).
    + destruct Hb as [Hnone ->]. rewrite marker_snapshots. cbn. by rewrite Hnone.
  - split; [apply no_states|]. intros H. cbn in H. cbn. destruct (Hf H) as [[r ->] _]. split; [by eexists|done].
Qed.

Lemma full_lane lane : lane_ok lane -> 
  ((MAX_QUEUED_STATES <=? zlen (SourceLane.states lane)) || (MAX_QUEUED_STATE_BYTES <? saturating_add64 (SourceLane.bytes lane) snapshot_size))
  = (lane_capacity <=? zlen (SourceLane.states lane)).
Proof.
  intros Hok. rewrite (ln_bytes _ Hok). unfold lane_capacity, saturating_add64, U64_MAX, MAX_QUEUED_STATES, MAX_QUEUED_STATE_BYTES.
  set (n := zlen (SourceLane.states lane)). pose proof (zlen_nonneg (SourceLane.states lane)) as Hn. fold n in Hn.
  change (8 * 1024) with 8192. set (q := 8192 / snapshot_size).
  assert (Hq : q * snapshot_size <= 8192 < (q + 1) * snapshot_size) by (unfold q; Z.to_euclidean_division_equations; nia).
  destruct (Z.leb_spec (Z.min 64 q) n) as [H|H].
  - apply orb_true_iff. destruct (decide (64 <= n)); [left; by apply Z.leb_le|right]. apply Z.ltb_lt.
    assert (q <= n) by lia. nia.
  - apply orb_false_iff. split; [apply Z.leb_gt; lia|]. apply Z.ltb_ge. nia.
Qed.

Lemma observed_box lane observed_at_us : box_of (SourceLane.observe lane observed_at_us) = box_of lane.
Proof. unfold box_of, HidRuntime.take_marker. cbn. by destruct (SourceLane.release lane). Qed.
Lemma submitted_box (active : bool) lane s : lane_ok lane ->
  let lane' := SourceLane.observe lane (SonySnapshot.observed_at_us s) in
  let result := if negb active then
      (if SonySnapshot.is_neutral s then SourceLane.arm_release lane' (SonySnapshot.slot s) (SonySnapshot.incarnation s) else lane',
       SnapshotAdmission.AdmittedInactive)
    else SourceLane.push snapshot_size lane' s in
  (box_of result.1, SourceLane.last_observed_at_us result.1)
    = Mailbox.submit_box lane_capacity active s (box_of lane, SourceLane.last_observed_at_us lane)
  /\ lane_ok result.1.
Proof.
  intros Hok lane' result. pose proof (box_cases lane Hok) as Hb. pose proof (box_snapshots lane) as Hs. destruct Hok as [Hbytes Hf].
  assert (Hok' : lane_ok lane') by done. unfold Mailbox.submit_box. rewrite Hs, zlen_fmap. destruct active; cbn [negb] in result.
  - unfold result, SourceLane.push. destruct (SourceLane.fault lane') as [f|] eqn:Hfault; cbn in Hfault.
    + destruct (Hf ltac:(by eexists)) as [[r Hr] Hst]. rewrite Hr, Hfault in Hb. rewrite Hb. cbn. split; [|done].
      f_equal. unfold box_of, HidRuntime.take_marker. cbn. by rewrite Hr, Hfault, Hst.
    + assert (Hnf : Mailbox.faulted (box_of lane) = false).
      { destruct (SourceLane.release lane); [rewrite Hb, Hfault; done|]. destruct Hb as [_ ->]. apply faulted_snapshots. }
      rewrite Hnf. rewrite full_lane by done. cbn [SourceLane.observe SourceLane.states]. subst lane'.
      cbn [SourceLane.observe SourceLane.states]. destruct (lane_capacity <=? zlen (SourceLane.states lane)).
      * cbn [fst]. split.
        -- f_equal; [|cbn; lia]. unfold box_of at 1, HidRuntime.take_marker. cbn.
           destruct (SourceLane.release lane) as [r|]; cbn; [rewrite Hb, Hfault; done|]. destruct Hb as [_ ->].
           rewrite marker_snapshots. cbn. do 2 f_equal. lia.
        -- split; [apply no_states|]. intros _. cbn. split; [|done]. destruct (SourceLane.release lane); by eexists.
      * cbn [fst]. split.
        -- f_equal; [|cbn; lia]. unfold box_of, HidRuntime.take_marker. cbn. destruct (SourceLane.release lane) as [r|]; cbn.
           ++ rewrite Hfault, fmap_app. done.
           ++ by rewrite fmap_app.
        -- split; [cbn -[Z.mul Z.add]; rewrite Hbytes, zlen_app; change (zlen [s]) with 1; lia|]. cbn. rewrite Hfault. by intros [? H].
  - unfold result. destruct (SonySnapshot.is_neutral s); cbn [andb fst]; [|split; [unfold lane'; cbn [fst]; rewrite observed_box; reflexivity|exact Hok']]. split.
    + f_equal. unfold box_of at 1, HidRuntime.take_marker. subst lane'. cbn.
      destruct (SourceLane.release lane) as [r|] eqn:Hr; cbn.
      * rewrite Hb. cbn. by destruct (SourceLane.fault lane).
      * destruct Hb as [Hfault ->]. rewrite marker_snapshots, Hfault. done.
    + split; [done|]. cbn. intros H. destruct (Hf H) as [[r ->] Hst]. split; [by eexists|done].
Qed.

Lemma pop_states_spec budget : forall states bytes, bytes = snapshot_size * zlen states ->
  HidRuntime.pop_states snapshot_size budget states bytes
  = (drop budget states, snapshot_size * zlen (drop budget states), Snapshot <$> take budget states).
Proof.
  induction budget as [|budget IH]; intros states bytes ->; [by destruct states|]. destruct states as [|s states]; [done|].
  cbn [HidRuntime.pop_states drop take]. rewrite zlen_cons. pose proof (zlen_nonneg states).
  rewrite (IH states (Z.max 0 _)) by nia. done.
Qed.

Definition boxed (lane : SourceLane.t) : list IngressItem * Z := (box_of lane, SourceLane.last_observed_at_us lane).

Lemma drain_boxes_0 boxes : Mailbox.drain_boxes 0 boxes = (boxes, []).
Proof. induction boxes as [|[box seen] boxes IH]; [done|]. cbn [Mailbox.drain_boxes]. rewrite Nat.sub_0_l, IH. done. Qed.

Lemma taken_marker lane : lane_ok lane ->
  let '(lane', marker) := HidRuntime.take_marker lane in
  lane_ok lane' /\ SourceLane.release lane' = None /\ SourceLane.states lane' = SourceLane.states lane
  /\ SourceLane.last_observed_at_us lane' = SourceLane.last_observed_at_us lane /\ (length marker <= 1)%nat
  /\ box_of lane = marker ++ (Snapshot <$> SourceLane.states lane).
Proof.
  intros Hok. pose proof (box_cases lane Hok) as Hb. unfold HidRuntime.take_marker. destruct (SourceLane.release lane) as [r|] eqn:Hr.
  - repeat split; try done; cbn; try lia; [apply Hok|by destruct H|by destruct H|]. rewrite Hb. by destruct (SourceLane.fault lane).
  - destruct Hb as [_ Hb]. cbn. rewrite Hb. repeat split; try done; try lia; by apply Hok.
Qed.

Lemma drained_boxes lanes : forall budget, Forall lane_ok lanes ->
  let '(lanes', items) := HidRuntime.drain_lanes snapshot_size lanes budget in
  Forall lane_ok lanes' /\ length lanes' = length lanes
  /\ Mailbox.drain_boxes budget (boxed <$> lanes) = (boxed <$> lanes', items).
Proof.
  induction lanes as [|lane lanes IH]; intros budget Hok; [done|]. pose proof Hok as Hall. apply Forall_cons in Hok as [Hl Hok].
  cbn [HidRuntime.drain_lanes]. destruct (Nat.eqb_spec budget 0) as [E|Hb].
  { rewrite E. split; [done|]. split; [done|]. apply drain_boxes_0. }
  pose proof (taken_marker lane Hl) as Hm. destruct (HidRuntime.take_marker lane) as [lane' marker].
  destruct Hm as (Hl' & Hr & Hst & Hlast & Hm & Hbox). cbn [fmap list_fmap]. unfold boxed at 1. cbn [Mailbox.drain_boxes]. rewrite Hbox.
  rewrite length_app, length_fmap.
  destruct (Nat.eqb_spec (budget - length marker) 0) as [E|Hb'].
  - rewrite (take_app_le marker), (drop_app_ge marker) by lia. replace (budget - (length marker + _))%nat with O by lia.
    rewrite drain_boxes_0, E, drop_0, firstn_all2, app_nil_r by lia. split; [by constructor|]. split; [done|].
    cbn [fmap list_fmap]. unfold boxed at 2. rewrite (box_of_states lane' Hr), Hst, Hlast. done.
  - rewrite (pop_states_spec _ _ _ (ln_bytes _ Hl')). rewrite length_fmap, length_take.
    replace (budget - length marker - Nat.min (budget - length marker) (length (SourceLane.states lane')))%nat
      with (budget - (length marker + length (SourceLane.states lane)))%nat by (rewrite Hst; lia).
    specialize (IH (budget - (length marker + length (SourceLane.states lane)))%nat Hok).
    destruct (HidRuntime.drain_lanes _ lanes _) as [lanes' more]. destruct IH as (Hok' & Hlen & ->).
    split; [|split; [cbn; by rewrite Hlen|]].
    + constructor; [|done]. split; [done|]. cbn. intros Hf. destruct (ln_fault _ Hl' Hf) as [[? Hs] _]. by rewrite Hr in Hs.
    + cbn [fmap list_fmap]. unfold boxed at 2. rewrite box_of_states by done. cbn [SourceLane.states SourceLane.with_states SourceLane.last_observed_at_us].
      rewrite Hlast, <- Hst, drop_app, take_app, (firstn_all2 marker), (skipn_all2 marker) by lia. cbn [app].
      rewrite <- fmap_drop, <- fmap_take, <- app_assoc. done.
Qed.

(** ** The operations *)
Lemma verdict_bit admitted slot : 0 <= slot -> negb (Z.land admitted (Z.shiftl 1 slot) =? 0) = Z.testbit admitted slot.
Proof.
  intros Hs. rewrite Z.shiftl_1_l. destruct (Z.testbit admitted slot) eqn:Hbit.
  - apply negb_true_iff, Z.eqb_neq. intros H. assert (Ht : Z.testbit (Z.land admitted (2 ^ slot)) slot = true).
    { by rewrite Z.land_spec, Z.pow2_bits_true, Hbit by done. }
    by rewrite H, Z.bits_0 in Ht.
  - apply negb_false_iff, Z.eqb_eq, Z.bits_inj_0. intros n. rewrite Z.land_spec.
    destruct (Z.eqb_spec n slot) as [->|]; [by rewrite Hbit|]. destruct (decide (0 <= n)); [|by rewrite Z.testbit_neg_r by lia].
    rewrite Z.pow2_bits_false by done. by rewrite andb_false_r.
Qed.

Lemma alter_at {A} (f : A -> A) (l : list A) : forall i x, l !! i = Some x -> alter f i l = <[i := f x]> l.
Proof. induction l as [|y l IH]; intros [|i] x H; cbn in *; [done..| |]; [by injection H as ->|]. by rewrite (IH i x). Qed.
Lemma Forall_imap {A} (P : A -> Prop) (l : list A) : forall g, (forall i x, P x -> P (g i x)) -> Forall P l -> Forall P (imap g l).
Proof.
  induction l as [|x l IH]; intros g Hg H; [done|]. apply Forall_cons in H as [Hx H]. rewrite imap_cons.
  constructor; [by apply Hg|]. apply IH; [|done]. intros i y. apply Hg.
Qed.
(** A loop over the four slots that updates each lane on its own. *)
Lemma ofold_slots {A} (f : list A -> Z -> outcome Empty_set (list A)) (g : Z -> A -> A) lanes :
  (forall l slot x, zget l slot = Some x -> f l slot = Ok (<[Z.to_nat slot := g slot x]> l)) ->
  zlen lanes = 4 -> ofold f (zrange 4) lanes = Ok (imap (fun i x => g (Z.of_nat i) x) lanes).
Proof.
  intros Hf Hlen. destruct lanes as [|a [|b [|c [|d [|e lanes]]]]]; try (unfold zlen in Hlen; cbn [length] in Hlen; lia).
  change (zrange 4) with [0; 1; 2; 3]. cbn [ofold].
  rewrite (Hf _ 0 a) by done. obind. rewrite (Hf _ 1 b) by done. obind. rewrite (Hf _ 2 c) by done. obind. by rewrite (Hf _ 3 d).
Qed.
Lemma insert_same {A} (l : list A) slot x : zget l slot = Some x -> <[Z.to_nat slot := x]> l = l.
Proof. intros H. pose proof (zget_lt _ _ _ H). rewrite zget_lookup in H by lia. by apply list_insert_id. Qed.
Lemma set_got {A} (l : list A) slot x y : zget l slot = Some x -> set_idx (E:=Empty_set) l slot y = Ok (<[Z.to_nat slot := y]> l).
Proof. intros H. apply set_idx_Ok. by eapply zget_lt. Qed.
Lemma idx_got {A} (l : list A) slot x : zget l slot = Some x -> idx (E:=Empty_set) l slot = Ok x.
Proof. intros H. unfold idx. by rewrite H. Qed.

Lemma replaced_lanes previous next lanes : zlen lanes = 4 ->
  ofold (HidRuntime.reset_if_changed previous next) (zrange 4) lanes
  = Ok (imap (fun i lane => if bool_decide (InventoryView.incarnation previous (Z.of_nat i) = InventoryView.incarnation next (Z.of_nat i))
                           then lane else SourceLane.reset lane) lanes).
Proof.
  set (g := fun slot lane => if bool_decide (InventoryView.incarnation previous slot = InventoryView.incarnation next slot)
                             then lane else SourceLane.reset lane).
  apply (ofold_slots _ g). subst g.
  intros l slot x Hx. unfold HidRuntime.reset_if_changed. case_bool_decide; [by rewrite (insert_same l slot x)|].
  rewrite (idx_got _ _ _ Hx). obind. by apply (set_got _ _ x).
Qed.
Lemma released_lanes inventory lanes : zlen lanes = 4 ->
  ofold (HidRuntime.release_lane inventory) (zrange 4) lanes
  = Ok (imap (fun i lane => match InventoryView.incarnation inventory (Z.of_nat i) with
      | None => lane
      | Some incarnation => SourceLane.arm_release (SourceLane.drop_buffered lane) (Z.of_nat i) incarnation
      end) lanes).
Proof.
  apply (ofold_slots _ (fun slot lane => match InventoryView.incarnation inventory slot with
      | None => lane
      | Some incarnation => SourceLane.arm_release (SourceLane.drop_buffered lane) slot incarnation
      end)).
  intros l slot x Hx. unfold HidRuntime.release_lane. destruct (InventoryView.incarnation inventory slot); [|by rewrite (insert_same l slot x)].
  rewrite (idx_got _ _ _ Hx). obind. by apply (set_got _ _ x).
Qed.

Definition runtime_op_ok (op : runtime_op) : Prop :=
  match op with RReplaceInventory claims => claims_ok claims | RSubmit s => 0 <= SonySnapshot.slot s | _ => True end.
Definition refines_step (self : HidRuntime.t) (out : list IngressItem) (op : runtime_op) : Prop :=
  exists self' out', runtime_step (self, out) op = Ok (self', out') /\ runtime_ok self'
    /\ mailbox_step (mailbox_of self, out) op = (mailbox_of self', out').

Lemma restart_refines self bound endpoint source :
  runtime_ok self ->
  let self' := {| HidRuntime.state := RuntimeState.restart (HidRuntime.state self) bound endpoint;
    HidRuntime.incarnation_source := HidRuntime.incarnation_source self; HidRuntime.epoch := HidRuntime.epoch self;
    HidRuntime.endpoint_source := source |} in
  runtime_ok self' /\ mailbox_of self' = Mailbox.restart (mailbox_of self) bound endpoint source.
Proof.
  intros [H1 H2 H3 H4] self'. split.
  - constructor; cbn; [by rewrite zlen_fmap| |done|by left]. apply Forall_fmap. eapply Forall_impl; [done|]. intros lane _. apply reset_box.
  - unfold mailbox_of, Mailbox.restart, self'. cbn. f_equal. by rewrite <- !list_fmap_compose.
Qed.

Lemma replace_refines self out claims : runtime_ok self -> claims_ok claims -> refines_step self out (RReplaceInventory claims).
Proof.
  intros Hok Hc. pose proof Hok as [H1 H2 H3 H4]. unfold refines_step. cbn [runtime_step mailbox_step].
  change (Mailbox.controllers (mailbox_of self)) with (RuntimeState.inventory (HidRuntime.state self)).
  unfold HidRuntime.replace_inventory. destruct (replace_ok _ claims H3 Hc) as (next & reason & -> & Hi & _). obind.
  destruct reason; try (eexists _, _; split; [reflexivity|]; done).
  rewrite replaced_lanes by done. obind. eexists _, _. split; [reflexivity|]. split.
  - constructor; cbn; [unfold zlen; by rewrite length_imap| |done|by left].
    apply Forall_imap; [|done]. intros i lane Hl. case_bool_decide; [done|]. apply reset_box.
  - f_equal. unfold mailbox_of. cbn. f_equal. rewrite fmap_imap, imap_fmap. apply imap_ext. intros i lane _. cbn. by case_bool_decide.
Qed.

Lemma set_active_refines self out active : runtime_ok self -> refines_step self out (RSetActive active).
Proof.
  intros Hok. pose proof Hok as [H1 H2 H3 H4]. unfold refines_step. cbn [runtime_step mailbox_step].
  unfold HidRuntime.set_active. change (Mailbox.active (mailbox_of self)) with (RuntimeState.capture_active (HidRuntime.state self)).
  destruct (Bool.eqb_spec (RuntimeState.capture_active (HidRuntime.state self)) active) as [E|Hne].
  - obind. eexists _, _. split; [reflexivity|]. split; [done|]. rewrite E, andb_negb_r. f_equal. unfold mailbox_of. cbn. by rewrite E.
  - destruct active.
    + obind. eexists _, _. split; [reflexivity|]. split; [by constructor|]. f_equal. unfold mailbox_of. cbn. by rewrite andb_false_r.
    + rewrite (not_false_is_true _ Hne). rewrite released_lanes by done. obind. eexists _, _. split; [reflexivity|]. split.
      * constructor; cbn; [unfold zlen; by rewrite length_imap| |done|done]. apply Forall_imap; [|done]. intros i lane Hl.
        destruct (InventoryView.incarnation _ _); [|done]. by apply released_box.
      * f_equal. unfold mailbox_of. cbn. f_equal. rewrite fmap_imap, imap_fmap. apply imap_ext. intros i lane Hlane. cbn.
        unfold Mailbox.release_box. destruct (InventoryView.incarnation _ _); [|done]. cbn.
        rewrite Forall_lookup in H2. f_equal. symmetry. apply released_box. by eapply H2.
Qed.

Lemma submit_refines self out s : runtime_ok self -> 0 <= SonySnapshot.slot s -> refines_step self out (RSubmit s).
Proof.
  intros Hok Hs. pose proof Hok as [H1 H2 H3 H4]. unfold refines_step. cbn [runtime_step mailbox_step].
  unfold HidRuntime.submit_snapshot_with.
  assert (Hval : match SonySnapshot.validate s with inr s' => s' = s /\ SonySnapshot.slot s < 4 | inl _ => True end).
  { unfold SonySnapshot.validate, MAX_SOURCES. destruct (Z.leb_spec 4 (SonySnapshot.slot s)); [done|].
    destruct (_ =? _); [done|]. by destruct (_ <? _). }
  destruct (SonySnapshot.validate s) as [e|s'].
  { obind. eexists _, _. split; [reflexivity|]. split; [done|]. by rewrite andb_false_r. }
  destruct Hval as [-> Hlt].
  change (Mailbox.bound (mailbox_of self)) with (RuntimeState.binding (HidRuntime.state self)).
  change (Mailbox.controllers (mailbox_of self)) with (RuntimeState.inventory (HidRuntime.state self)).
  assert (Hsame : forall b : bool, b = false -> exists self' out', (Ok (self, out) : outcome Empty_set _) = Ok (self', out') /\ runtime_ok self'
    /\ (if b then Mailbox.with_boxes (mailbox_of self) (alter (Mailbox.submit_box lane_capacity (Mailbox.active (mailbox_of self)) s)
          (Z.to_nat (SonySnapshot.slot s)) (Mailbox.boxes (mailbox_of self))) else mailbox_of self, out) = (mailbox_of self', out')).
  { intros b ->. by eexists _, _. }
  destruct (RuntimeState.binding (HidRuntime.state self)) as [bound|]; [|obind; exact (Hsame false eq_refl)].
  destruct (InventoryView.incarnation (RuntimeState.inventory (HidRuntime.state self)) (SonySnapshot.slot s)) as [incarnation|] eqn:Hinc;
    [|obind; exact (Hsame false eq_refl)].
  destruct (Z.eqb_spec incarnation (SonySnapshot.incarnation s)) as [E|Hne]; cbn [negb].
  2: { obind. apply Hsame. rewrite (bool_decide_eq_false_2 (Some incarnation = _)) by congruence. done. }
  rewrite (bool_decide_eq_true_2 (Some incarnation = _)) by congruence.
  rewrite (bool_decide_eq_true_2 (is_Some (Some bound))) by done. cbn [andb].
  unfold RuntimeState.mode_for_epoch. rewrite Hinc, verdict_bit by done. 
  change (Mailbox.verdict (mailbox_of self)) with (if bool_decide (RuntimeState.session_evaluated_epoch (HidRuntime.state self)
    = Some (RuntimeState.inventory_epoch (HidRuntime.state self))) then Some (RuntimeState.session_admitted (HidRuntime.state self)) else None).
  case_bool_decide as Hep; cbn [negb]; [|obind; exact (Hsame false eq_refl)].
  destruct (Z.testbit (RuntimeState.session_admitted (HidRuntime.state self)) (SonySnapshot.slot s)) eqn:Hbit; [|obind; exact (Hsame false eq_refl)].
  destruct (zget_Some (RuntimeState.lanes (HidRuntime.state self)) (SonySnapshot.slot s) ltac:(lia)) as (lane & Hlane).
  rewrite (idx_got _ _ _ Hlane). obind.
  pose proof Hlane as Hlane'. rewrite zget_lookup in Hlane' by done.
  assert (Hl : lane_ok lane) by (rewrite Forall_lookup in H2; by eapply H2).
  destruct (submitted_box (RuntimeState.capture_active (HidRuntime.state self)) lane s Hl) as [Hbox Hl'].
  destruct (if negb _ then _ else _) as [lane' admission]. cbn [fst] in *. rewrite (set_got _ _ _ _ Hlane). obind.
  eexists _, _. split; [reflexivity|]. split.
  - constructor; cbn; [by rewrite zlen_insert|by apply Forall_insert|done|done].
  - f_equal. unfold Mailbox.with_boxes, mailbox_of. cbn [Mailbox.boxes Mailbox.bound Mailbox.active Mailbox.controllers Mailbox.version
      Mailbox.endpoint Mailbox.next_endpoint Mailbox.verdict HidRuntime.with_state HidRuntime.state RuntimeState.with_lanes RuntimeState.binding
      RuntimeState.capture_active RuntimeState.inventory RuntimeState.inventory_epoch RuntimeState.endpoint RuntimeState.lanes
      RuntimeState.session_evaluated_epoch RuntimeState.session_admitted HidRuntime.endpoint_source].
    f_equal. rewrite list_fmap_insert, (alter_at _ _ _ (boxed lane)) by (rewrite list_lookup_fmap, Hlane'; done).
    unfold boxed at 1. by rewrite <- Hbox.
Qed.

Lemma drain_refines self out budget : runtime_ok self -> refines_step self out (RDrain budget).
Proof.
  intros Hok. pose proof Hok as [H1 H2 H3 H4]. unfold refines_step. cbn [runtime_step mailbox_step]. unfold HidRuntime.drain.
  pose proof (drained_boxes _ budget H2) as Hd.
  change (Mailbox.boxes (mailbox_of self)) with (boxed <$> RuntimeState.lanes (HidRuntime.state self)).
  destruct (HidRuntime.drain_lanes snapshot_size _ budget) as [lanes items]. destruct Hd as (Hl & Hlen & ->).
  eexists _, _. split; [reflexivity|]. split; [|done]. constructor; cbn; [unfold zlen in *; by rewrite Hlen|done..].
Qed.

Lemma runtime_step_refines self out op : runtime_ok self -> runtime_op_ok op -> refines_step self out op.
Proof.
  intros Hok Hop. destruct op as [|claims| |token|generation|generation|admitted epoch|active|s|budget];
    [|by apply replace_refines| | | | | |by apply set_active_refines|by apply submit_refines|by apply drain_refines];
    unfold refines_step; cbn [runtime_step mailbox_step].
  - eexists _, _. split; [reflexivity|]. split; [by destruct Hok|done].
  - eexists _, _. split; [reflexivity|].
    destruct (restart_refines self (RuntimeState.binding (HidRuntime.state self)) (Some (HidRuntime.endpoint_source self))
      ((HidRuntime.endpoint_source self + 1) mod 2 ^ 64) Hok) as [H1 H2]. split; [exact H1|]. f_equal. symmetry. exact H2.
  - eexists _, _. split; [reflexivity|]. unfold HidRuntime.close_endpoint. cbn [Mailbox.endpoint mailbox_of].
    case_bool_decide; cbn [negb]; [|done].
    destruct (restart_refines self None None (HidRuntime.endpoint_source self) Hok) as [H1 H2]. split; [exact H1|]. f_equal. symmetry. exact H2.
  - eexists _, _. split; [reflexivity|]. unfold HidRuntime.bind_session. cbn [Mailbox.endpoint mailbox_of].
    destruct (RuntimeState.endpoint (HidRuntime.state self)) as [token|] eqn:He; [|done].
    rewrite bool_decide_eq_true_2 by done.
    destruct (restart_refines self (Some generation) (Some token) (HidRuntime.endpoint_source self) Hok) as [H1 H2].
    split; [exact H1|]. f_equal. symmetry. exact H2.
  - eexists _, _. split; [reflexivity|]. unfold HidRuntime.unbind_session. cbn [Mailbox.bound mailbox_of].
    assert (Hdec : match RuntimeState.binding (HidRuntime.state self) with Some bound => negb (bound =? generation) | None => false end
      = negb (bool_decide (RuntimeState.binding (HidRuntime.state self) = None \/ RuntimeState.binding (HidRuntime.state self) = Some generation))).
    { destruct (RuntimeState.binding (HidRuntime.state self)) as [bound|]; [|by rewrite bool_decide_eq_true_2 by (by left)].
      destruct (Z.eqb_spec bound generation) as [->|]; [by rewrite bool_decide_eq_true_2 by (by right)|].
      rewrite bool_decide_eq_false_2 by (intros [?|?]; congruence). done. }
    rewrite Hdec. case_bool_decide; cbn [negb]; [|done].
    destruct (restart_refines self None (RuntimeState.endpoint (HidRuntime.state self)) (HidRuntime.endpoint_source self) Hok) as [H1 H2].
    split; [exact H1|]. f_equal. symmetry. exact H2.
  - eexists _, _. split; [reflexivity|]. unfold HidRuntime.set_session_admission. cbn [Mailbox.version mailbox_of].
    destruct (Z.eqb_spec epoch (RuntimeState.inventory_epoch (HidRuntime.state self))) as [E|]; cbn [negb]; [|done].
    rewrite E. split; [destruct Hok; by constructor; cbn; [..|by right]|]. unfold mailbox_of. cbn. by rewrite bool_decide_eq_true_2.
Qed.

Lemma runtime_run_refines ops : forall self out, runtime_ok self -> Forall runtime_op_ok ops ->
  exists self' out', ofold runtime_step ops (self, out) = Ok (self', out') /\ runtime_ok self'
    /\ foldl mailbox_step (mailbox_of self, out) ops = (mailbox_of self', out').
Proof.
  induction ops as [|op ops IH]; intros self out Hok Hops; [by eexists _, _|]. apply Forall_cons in Hops as [Hop Hops].
  destruct (runtime_step_refines self out op Hok Hop) as (self1 & out1 & Hstep & Hok1 & Hm).
  cbn [ofold foldl]. rewrite Hstep, Hm. obind. by apply IH.
Qed.

Lemma new_runtime_ok : runtime_ok HidRuntime.new.
Proof.
  constructor; [done| |apply default_inventory_ok|by left]. cbn [HidRuntime.new HidRuntime.state RuntimeState.default RuntimeState.lanes].
  apply Forall_replicate. constructor; [apply no_states|]. by intros [? H].
Qed.

(** ** What a mailbox holds *)
Definition item_ok (m : Mailbox.t) (slot : nat) (item : IngressItem) : Prop :=
  item_slot item = Z.of_nat slot
  /\ InventoryView.incarnation (Mailbox.controllers m) (Z.of_nat slot) = Some (item_incarnation item)
  /\ (is_snapshot item = true -> Mailbox.active m = true /\ Mailbox.bound m <> None /\ Mailbox.endpoint m <> None).
(** At most a marker, then at most as many states as a lane holds. *)
Definition box_ok (box : list IngressItem) : Prop :=
  (length box <= Z.to_nat lane_capacity + 1)%nat
  /\ match box with [] => True | item :: rest => Forall (fun item => is_snapshot item = true) rest end
  /\ zlen (List.filter is_snapshot box) <= lane_capacity.
Record mail_ok (m : Mailbox.t) : Prop := {
  ml_bound : Mailbox.bound m <> None -> Mailbox.endpoint m <> None;
  ml_items : forall slot boxed, Mailbox.boxes m !! slot = Some boxed -> Forall (item_ok m slot) boxed.1;
  ml_boxes : Forall (fun boxed => box_ok boxed.1) (Mailbox.boxes m)
}.

Lemma capacity_nonneg : 0 <= lane_capacity.
Proof. unfold lane_capacity, MAX_QUEUED_STATES, MAX_QUEUED_STATE_BYTES. pose proof (Z.div_pos (8 * 1024) snapshot_size). lia. Qed.
Lemma box_ok_nil : box_ok [].
Proof. split; [cbn [length]; lia|]. split; [done|]. exact capacity_nonneg. Qed.
Lemma box_ok_one item : is_snapshot item = false -> box_ok [item].
Proof. intros H. split; [cbn [length]; lia|]. split; [constructor|]. cbn [List.filter]. rewrite H. exact capacity_nonneg. Qed.

Lemma marker_head box item : Mailbox.marker box = Some item -> exists rest, box = item :: rest /\ is_snapshot item = false.
Proof. destruct box as [|[s|? ? ?|? ? ?] box]; cbn; intros [=]; subst; by eexists. Qed.

Lemma filter_all (box : list IngressItem) : Forall (fun item => is_snapshot item = true) box -> List.filter is_snapshot box = box.
Proof. induction 1 as [|item box H _ IH]; [done|]. cbn. by rewrite H, IH. Qed.

Lemma restart_mail m bound endpoint next : mail_ok m -> (bound <> None -> endpoint <> None) -> mail_ok (Mailbox.restart m bound endpoint next).
Proof.
  intros _ Hb. constructor; cbn; [done| |].
  - intros slot boxed H. apply list_lookup_fmap_Some in H as (? & -> & _). constructor.
  - apply Forall_fmap, Forall_forall. intros; apply box_ok_nil.
Qed.

Lemma submit_box_mail m s slot boxed :
  mail_ok m -> Mailbox.boxes m !! slot = Some boxed -> SonySnapshot.slot s = Z.of_nat slot ->
  InventoryView.incarnation (Mailbox.controllers m) (SonySnapshot.slot s) = Some (SonySnapshot.incarnation s) -> Mailbox.bound m <> None ->
  Forall (item_ok m slot) (Mailbox.submit_box lane_capacity (Mailbox.active m) s boxed).1
  /\ box_ok (Mailbox.submit_box lane_capacity (Mailbox.active m) s boxed).1.
Proof.
  intros [Hb Hi Hx] Hlook Hs Hinc Hbound. pose proof (Hi _ _ Hlook) as Hitems. rewrite Forall_lookup in Hx. pose proof (Hx _ _ Hlook) as Hbox.
  destruct boxed as [box seen]. cbn [fst] in *. unfold Mailbox.submit_box. cbn [fst].
  set (release := default _ _).
  assert (Hrel : item_ok m slot release /\ is_snapshot release = false).
  { unfold release. destruct (Mailbox.marker box) as [item|] eqn:Hm; cbn.
    - apply marker_head in Hm as (rest & -> & Hitem). by apply Forall_cons in Hitems as [? _].
    - split; [|done]. rewrite Hs in Hinc. by split. }
  destruct Hrel as [Hrel Hkind]. destruct (Mailbox.active m) eqn:Hactive.
  - destruct (Mailbox.faulted box); [by split|]. destruct (Z.leb_spec lane_capacity (zlen (List.filter is_snapshot box))).
    + split; [constructor; [|constructor]|].
      * by destruct release.
      * apply box_ok_one. by destruct release.
    + split.
      * apply Forall_app. split; [done|]. constructor; [|constructor]. rewrite Hs in Hinc. split; [done|]. split; [done|]. auto.
      * destruct Hbox as (Hlen & Hrest & Hcount). unfold box_ok. rewrite List.filter_app, zlen_app. cbn [List.filter is_snapshot].
        change (zlen [Snapshot s]) with 1. rewrite length_app. cbn [length].
        assert (Hsnaps : Forall (fun item => is_snapshot item = true) (tl box ++ [Snapshot s])).
        { apply Forall_app. split; [by destruct box|by repeat constructor]. }
        split; [|split; [destruct box; [constructor|exact Hsnaps]|lia]].
        destruct box as [|item box]; [cbn; lia|]. cbn in Hrest. cbn [List.filter] in *. rewrite (filter_all box Hrest) in *. unfold zlen in *.
        destruct (is_snapshot item); cbn [length] in *; lia.
  - destruct (SonySnapshot.is_neutral s); cbn [andb]; [|by split]. destruct (Mailbox.marker box) eqn:Hm; [by split|].
    assert (box = []) as ->.
    { destruct box as [|item box]; [done|]. destruct item; [|done..]. apply Forall_cons in Hitems as [(_ & _ & Hact) _].
      destruct (Hact eq_refl) as [? _]. congruence. }
    split; [by repeat constructor; apply Hrel|by apply box_ok_one].
Qed.

Lemma release_box_mail m slot boxed active :
  mail_ok m -> Mailbox.boxes m !! slot = Some boxed ->
  forall m', Mailbox.controllers m' = Mailbox.controllers m -> active = false ->
  Forall (item_ok m' slot) (Mailbox.release_box (Mailbox.controllers m) slot boxed).1
  /\ box_ok (Mailbox.release_box (Mailbox.controllers m) slot boxed).1.
Proof.
  intros [Hb Hi Hx] Hlook m' Hc _. pose proof (Hi _ _ Hlook) as Hitems. rewrite Forall_lookup in Hx. pose proof (Hx _ _ Hlook) as Hbox.
  unfold Mailbox.release_box. destruct (InventoryView.incarnation (Mailbox.controllers m) (Z.of_nat slot)) as [incarnation|] eqn:Hinc.
  - cbn [fst]. destruct (Mailbox.marker boxed.1) as [item|] eqn:Hm; cbn.
    + apply marker_head in Hm as (rest & Hrest & Hitem). rewrite Hrest in Hitems. apply Forall_cons in Hitems as [(H1 & H2 & _) _].
      split; [|by apply box_ok_one]. constructor; [|constructor]. split; [done|]. split; [by rewrite Hc|]. by rewrite Hitem.
    + split; [|by apply box_ok_one]. constructor; [|constructor]. split; [done|]. split; [by rewrite Hc|done].
  - split; [|done]. destruct boxed as [[|item box] seen]; [constructor|]. apply Forall_cons in Hitems as [(_ & H & _) _]. congruence.
Qed.

Lemma box_ok_drop budget box : box_ok box -> box_ok (drop budget box).
Proof.
  intros (H1 & H2 & H3). destruct budget as [|budget]; [done|]. destruct box as [|item box]; [done|]. cbn [drop].
  assert (Hall : Forall (fun item => is_snapshot item = true) (drop budget box)) by by apply Forall_drop.
  split; [rewrite length_drop; cbn in H1; lia|]. split; [destruct (drop budget box); [done|by apply Forall_cons in Hall as [_ ?]]|].
  rewrite filter_all by done. cbn [List.filter] in H3. rewrite (filter_all box H2) in H3. unfold zlen in *. rewrite length_drop.
  destruct (is_snapshot item); cbn [length] in H3; lia.
Qed.
Lemma drained_mail (P : nat -> IngressItem -> Prop) boxes : forall budget start,
  (forall slot boxed, boxes !! slot = Some boxed -> Forall (P (start + slot)%nat) boxed.1) -> Forall (fun boxed => box_ok boxed.1) boxes ->
  let '(boxes', items) := Mailbox.drain_boxes budget boxes in
  (forall slot boxed, boxes' !! slot = Some boxed -> Forall (P (start + slot)%nat) boxed.1) /\ Forall (fun boxed => box_ok boxed.1) boxes'
  /\ Forall (fun item => exists slot, P slot item) items /\ (length items <= budget)%nat.
Proof.
  induction boxes as [|[box seen] boxes IH]; intros budget start Hi Hb; [cbn; repeat split; [done..|lia]|].
  apply Forall_cons in Hb as [Hbox Hb]. cbn [Mailbox.drain_boxes].
  assert (Hrest : forall slot boxed, boxes !! slot = Some boxed -> Forall (P (S start + slot)%nat) boxed.1).
  { intros slot boxed H. replace (S start + slot)%nat with (start + S slot)%nat by lia. by apply Hi. }
  specialize (IH (budget - length box)%nat (S start) Hrest Hb). destruct (Mailbox.drain_boxes _ boxes) as [boxes' more].
  destruct IH as (I1 & I2 & I3 & I4). pose proof (Hi 0%nat (box, seen) eq_refl) as H0. cbn [fst] in H0. repeat split.
  - intros [|slot] boxed; cbn.
    + intros [= <-]. by apply Forall_drop.
    + intros H. replace (start + S slot)%nat with (S start + slot)%nat by lia. by apply I1.
  - constructor; [by apply box_ok_drop|done].
  - apply Forall_app. split; [|done]. apply Forall_take. eapply Forall_impl; [exact H0|]. intros item. by exists (start + 0)%nat.
  - rewrite length_app, length_take. lia.
Qed.

Lemma mailbox_step_ok m out op : mail_ok m -> runtime_op_ok op -> mail_ok (mailbox_step (m, out) op).1.
Proof.
  intros Hm Hop. pose proof Hm as [H1 H2 H3].
  destruct op as [|claims| |token|generation|generation|admitted epoch|active|s|budget]; cbn [mailbox_step fst]; [done|..].
  - destruct (InventoryView.replace _ _) as [[next [| | |]]| |]; try done. constructor; cbn; [done| |].
    + intros slot boxed. rewrite list_lookup_imap. destruct (Mailbox.boxes m !! slot) as [b|] eqn:Hb; cbn; [|done]. intros [= <-].
      case_bool_decide as Hsame; [|constructor]. eapply Forall_impl; [by apply H2|]. intros item (I1 & I2 & I3).
      split; [done|]. split; [cbn [Mailbox.controllers]; congruence|done].
    + apply Forall_imap; [|done]. intros i b Hb. case_bool_decide; [done|apply box_ok_nil].
  - by apply restart_mail.
  - case_bool_decide; [|done]. by apply restart_mail.
  - case_bool_decide as H; [|done]. apply restart_mail; [done|]. intros _. by destruct H as [? ->].
  - case_bool_decide; [|done]. by apply restart_mail.
  - destruct (_ =? _); [|done]. by constructor.
  - destruct (Mailbox.active m && negb active) eqn:Hloses.
    + apply andb_true_iff in Hloses as [Ha Hn]. destruct active; [done|]. constructor; cbn; [done| |].
      * intros slot boxed. rewrite list_lookup_imap. destruct (Mailbox.boxes m !! slot) as [b|] eqn:Hb; cbn; [|done]. intros [= <-].
        by apply (release_box_mail m slot b false).
      * rewrite Forall_lookup. intros slot boxed. rewrite list_lookup_imap. destruct (Mailbox.boxes m !! slot) as [b|] eqn:Hb; cbn; [|done].
        intros [= <-]. by apply (release_box_mail m slot b false Hm Hb m).
    + constructor; cbn; [done| |done]. intros slot boxed Hb. eapply Forall_impl; [by apply H2|]. intros item (I1 & I2 & I3).
      split; [done|]. split; [done|]. intros Hs. destruct (I3 Hs) as [Hact ?]. split; [|done]. rewrite Hact in Hloses. by destruct active.
  - destruct (_ && _ && _ && _) eqn:Hgo; [|done]. repeat rewrite andb_true_iff in Hgo. destruct Hgo as [[[Hbound _] Hinc] _].
    apply bool_decide_eq_true in Hbound, Hinc. cbn in Hop.
    assert (Hne : Mailbox.bound m <> None) by (destruct Hbound as [? ->]; done).
    constructor; cbn; [done| |].
    + intros slot boxed. destruct (decide (slot = Z.to_nat (SonySnapshot.slot s))) as [E|].
      * rewrite E, list_lookup_alter_eq. intros H. destruct (Mailbox.boxes m !! Z.to_nat (SonySnapshot.slot s)) as [b|] eqn:Hb; [|done].
        cbn in H. injection H as <-. apply (submit_box_mail m s _ b Hm Hb); [lia|done|done].
      * rewrite list_lookup_alter_ne by done. apply H2.
    + rewrite Forall_lookup. intros slot boxed. destruct (decide (slot = Z.to_nat (SonySnapshot.slot s))) as [E|].
      * rewrite E, list_lookup_alter_eq. intros H. destruct (Mailbox.boxes m !! Z.to_nat (SonySnapshot.slot s)) as [b|] eqn:Hb; [|done].
        cbn in H. injection H as <-. apply (submit_box_mail m s _ b Hm Hb); [lia|done|done].
      * rewrite list_lookup_alter_ne by done. rewrite Forall_lookup in H3. apply H3.
  - pose proof (drained_mail (item_ok m) (Mailbox.boxes m) budget 0 H2 H3) as Hd.
    destruct (Mailbox.drain_boxes budget (Mailbox.boxes m)) as [boxes items]. destruct Hd as (D1 & D2 & _). by constructor.
Qed.

Lemma mailbox_run_ok ops : forall m out, mail_ok m -> Forall runtime_op_ok ops -> mail_ok (foldl mailbox_step (m, out) ops).1.
Proof.
  induction ops as [|op ops IH]; intros m out Hm Hops; [done|]. apply Forall_cons in Hops as [Hop Hops]. cbn [foldl].
  pose proof (mailbox_step_ok m out op Hm Hop). destruct (mailbox_step (m, out) op). by apply IH.
Qed.
Lemma empty_mail_ok : mail_ok Mailbox.empty.
Proof.
  constructor; cbn [Mailbox.empty Mailbox.bound Mailbox.boxes]; [done| |].
  - intros slot boxed H. apply lookup_replicate in H as [-> _]. constructor.
  - apply Forall_replicate, box_ok_nil.
Qed.
End Refinement.

(** C28: the mailbox is a list of pending items per controller.  Whatever the
    order of the operations of the two threads, the lanes with their byte
    counts, fault flags and release requests behave as boxes: input is kept in
    order while there is room (64 states, or what fits in 8 KiB) and delivered
    first in, first out; the first input there is no room for replaces all of
    it by one fault, a lost capture replaces it by one release, and nothing
    panics. *)
Theorem mailbox_is_a_list_per_controller (snapshot_size : Z) (Hsize : 0 < snapshot_size) (ops : list runtime_op)
    (Hops : Forall runtime_op_ok ops) :
  exists self out,
    ofold (runtime_step snapshot_size) ops (HidRuntime.new, []) = Ok (self, out)
    /\ foldl (mailbox_step snapshot_size) (Mailbox.empty, []) ops = (mailbox_of self, out).
Proof.
  destruct (runtime_run_refines snapshot_size Hsize ops HidRuntime.new [] (new_runtime_ok snapshot_size) Hops) as (self & out & Hrun & _ & Hm).
  by exists self, out.
Qed.

(** C29: input reaches the controller it came from.  After any operations, what
    a drain delivers is within its budget, carries the incarnation that is
    present in its slot now, and contains states only while the capture is
    active, a session is bound and the endpoint is open; no lane holds more
    than one release or fault and 64 states. *)
Theorem input_reaches_its_controller (snapshot_size : Z) (Hsize : 0 < snapshot_size) (ops : list runtime_op)
    (Hops : Forall runtime_op_ok ops) (budget : nat) :
  exists self out,
    ofold (runtime_step snapshot_size) ops (HidRuntime.new, []) = Ok (self, out)
    /\ let st := HidRuntime.state self in
       let '(_, items) := HidRuntime.drain snapshot_size self budget in
       (length items <= budget)%nat
       /\ Forall (fun item => InventoryView.incarnation (RuntimeState.inventory st) (item_slot item) = Some (item_incarnation item)
            /\ (is_snapshot item = true -> RuntimeState.capture_active st = true /\ RuntimeState.binding st <> None
                                          /\ RuntimeState.endpoint st <> None)) items
       /\ Forall (fun lane => zlen (SourceLane.states lane) <= lane_capacity snapshot_size) (RuntimeState.lanes st).
Proof.
  destruct (runtime_run_refines snapshot_size Hsize ops HidRuntime.new [] (new_runtime_ok snapshot_size) Hops) as (self & out & Hrun & Hok & Hm).
  exists self, out. split; [done|]. change (mailbox_of HidRuntime.new) with Mailbox.empty in Hm.
  pose proof (mailbox_run_ok snapshot_size Hsize ops Mailbox.empty [] (empty_mail_ok snapshot_size Hsize) Hops) as Hmail. rewrite Hm in Hmail. cbn [fst] in Hmail.
  cbv zeta. unfold HidRuntime.drain. pose proof (drained_boxes snapshot_size Hsize _ budget (ru_lane _ _ Hok)) as Hd.
  pose proof (drained_mail snapshot_size (item_ok (mailbox_of self)) (Mailbox.boxes (mailbox_of self)) budget 0
    (ml_items _ _ Hmail) (ml_boxes _ _ Hmail)) as Hd'.
  change (Mailbox.boxes (mailbox_of self)) with (boxed <$> RuntimeState.lanes (HidRuntime.state self)) in Hd'.
  destruct (HidRuntime.drain_lanes snapshot_size _ budget) as [lanes items]. destruct Hd as (_ & _ & Hd). rewrite Hd in Hd'.
  destruct Hd' as (_ & _ & Hitems & Hlen). split; [done|]. split.
  - eapply Forall_impl; [exact Hitems|]. intros item (slot & I1 & I2 & I3). rewrite I1. by split.
  - pose proof (ml_boxes _ _ Hmail) as Hb. cbn [mailbox_of Mailbox.boxes] in Hb. rewrite !Forall_fmap in Hb.
    eapply Forall_impl; [exact Hb|]. intros lane (_ & _ & Hcount). cbn [fst] in Hcount. by rewrite box_snapshots, zlen_fmap in Hcount.
Qed.

(** A pad in slot 1 is captured, reports, loses the capture and is released. *)
Definition pad_ops : list runtime_op :=
  [RReplaceInventory [Some {| SdlDeviceClaim.slot := 1; SdlDeviceClaim.incarnation := 7; SdlDeviceClaim.vendor := SONY_VENDOR;
                              SdlDeviceClaim.product := 0x09cc |}];
   ROpenEndpoint; RBind 3; RSetAdmission 2 1; RSetActive true; RSubmit (SonySnapshot.neutral 1 7 2500);
   RSubmit (SonySnapshot.neutral 1 7 2600); RDrain 1; RSetActive false; RSubmit (SonySnapshot.neutral 1 7 2700)].
Lemma pad_ops_ok : Forall runtime_op_ok pad_ops.
Proof. repeat constructor; cbn; lia. Qed.
Example pad_run :
  match ofold (runtime_step 56) pad_ops (HidRuntime.new, []) with
  | Ok (self, out) => out = [Snapshot (SonySnapshot.neutral 1 7 2500)] /\ (HidRuntime.drain 56 self 8).2 = [Release 1 7 2600]
  | _ => False
  end.
Proof. vm_compute. by split. Qed.

Lemma mailbox_is_a_list_per_controller_witness :
  exists self out,
    ofold (runtime_step 56) pad_ops (HidRuntime.new, []) = Ok (self, out)
    /\ foldl (mailbox_step 56) (Mailbox.empty, []) pad_ops = (mailbox_of self, out).
Proof. apply (mailbox_is_a_list_per_controller 56); [lia|exact pad_ops_ok]. Defined.

Lemma input_reaches_its_controller_witness :
  exists self out,
    ofold (runtime_step 56) pad_ops (HidRuntime.new, []) = Ok (self, out)
    /\ let st := HidRuntime.state self in
       let '(_, items) := HidRuntime.drain 56 self 8 in
       (length items <= 8)%nat
       /\ Forall (fun item => InventoryView.incarnation (RuntimeState.inventory st) (item_slot item) = Some (item_incarnation item)
            /\ (is_snapshot item = true -> RuntimeState.capture_active st = true /\ RuntimeState.binding st <> None
                                          /\ RuntimeState.endpoint st <> None)) items
       /\ Forall (fun lane => zlen (SourceLane.states lane) <= lane_capacity 56) (RuntimeState.lanes st).
Proof. apply (input_reaches_its_controller 56); [lia|exact pad_ops_ok]. Defined.
