(* ===== verification/Str.v ===== *)
(** * String functions

    The functions of the standard library's [str] that the text protocols use,
    on the bytes of a UTF-8 string: ASCII case folding, [trim] over Unicode
    white space, [lines], [split], [find] and the integer parser. *)

From stdpp Require Import list strings.
From Stdlib Require Import String.
From S2P Require Import Prelude.

Definition str (s : string) : list u8 := list_byte_of_string s.
Arguments str s%_string_scope.
Notation byte_eqb := Byte.eqb.

Definition CR : u8 := Byte.x0d.
Definition LF : u8 := Byte.x0a.

(** ** ASCII *)
Definition in_range (lo hi : Z) (b : u8) : bool := (lo <=? b2z b) && (b2z b <=? hi).
Definition is_ascii_digit : u8 -> bool := in_range 0x30 0x39.
Definition is_ascii_upper : u8 -> bool := in_range 0x41 0x5a.
Definition is_ascii_lower : u8 -> bool := in_range 0x61 0x7a.
Definition is_ascii_alphabetic (b : u8) : bool := is_ascii_upper b || is_ascii_lower b.
Definition is_ascii_hexdigit (b : u8) : bool := is_ascii_digit b || in_range 0x41 0x46 b || in_range 0x61 0x66 b.
Definition is_ascii_graphic : u8 -> bool := in_range 0x21 0x7e.
Definition to_ascii_lowercase (s : list u8) : list u8 := map (fun b => if is_ascii_upper b then z2b (b2z b + 32) else b) s.
Definition to_ascii_uppercase (s : list u8) : list u8 := map (fun b => if is_ascii_lower b then z2b (b2z b - 32) else b) s.
Definition eq_ignore_ascii_case (a b : list u8) : bool := bool_decide (to_ascii_lowercase a = to_ascii_lowercase b).

(** ** Searching and splitting *)
Fixpoint strip_prefix (p s : list u8) : option (list u8) :=
  match p, s with
  | [], _ => Some s
  | a :: p, b :: s => if byte_eqb a b then strip_prefix p s else None
  | _ :: _, [] => None
  end.
Definition starts_with (p s : list u8) : bool := match strip_prefix p s with Some _ => true | None => false end.
(** [str::find] of a pattern: the first place it starts at. *)
Fixpoint find_sub (p s : list u8) : option nat :=
  if starts_with p s then Some O else match s with [] => None | _ :: s => S <$> find_sub p s end.
(** [str::find] of a class of bytes. *)
Fixpoint find_byte (test : u8 -> bool) (s : list u8) : option nat :=
  match s with [] => None | b :: s => if test b then Some O else S <$> find_byte test s end.
Definition split_once_by (test : u8 -> bool) (s : list u8) : option (list u8 * list u8) :=
  (fun i => (take i s, drop (S i) s)) <$> find_byte test s.
Definition split_once (c : u8) : list u8 -> option (list u8 * list u8) := split_once_by (byte_eqb c).
(** [split] at a class of bytes: always at least one part. *)
Fixpoint split_by (test : u8 -> bool) (s : list u8) : list (list u8) :=
  match s with
  | [] => [[]]
  | b :: s =>
      if test b then [] :: split_by test s else
      match split_by test s with part :: parts => (b :: part) :: parts | [] => [[b]] end
  end.
(** [split(pattern).next()]: the text before the first pattern. *)
Definition before (p s : list u8) : list u8 := match find_sub p s with Some i => take i s | None => s end.
Fixpoint split_str (fuel : nat) (p s : list u8) : list (list u8) :=
  match fuel with
  | O => [s]
  | S fuel => match find_sub p s with Some i => take i s :: split_str fuel p (drop (i + length p) s) | None => [s] end
  end.
Definition split (p s : list u8) : list (list u8) := split_str (length s) p s.

(** [str::lines]: the pieces between line feeds; a carriage return goes with
    the line feed it precedes, an unterminated last line keeps it. *)
Fixpoint split_lines (s : list u8) : list (list u8 * bool) :=
  match s with
  | [] => []
  | b :: s =>
      if byte_eqb b LF then ([], true) :: split_lines s else
      match split_lines s with (line, ended) :: rest => (b :: line, ended) :: rest | [] => [([b], false)] end
  end.
Definition strip_cr (line : list u8) : list u8 :=
  match rev line with b :: r => if byte_eqb b CR then rev r else line | [] => line end.
Definition lines (s : list u8) : list (list u8) :=
  map (fun '(line, ended) => if ended : bool then strip_cr line else line) (split_lines s).

(** ** White space *)

(** The encodings of the characters [char::is_whitespace] holds of. *)
Definition WHITE_SPACE : list (list u8) :=
  map (map z2b) ([[0x09]; [0x0a]; [0x0b]; [0x0c]; [0x0d]; [0x20]; [0xc2; 0x85]; [0xc2; 0xa0]; [0xe1; 0x9a; 0x80];
    [0xe2; 0x80; 0xa8]; [0xe2; 0x80; 0xa9]; [0xe2; 0x80; 0xaf]; [0xe2; 0x81; 0x9f]; [0xe3; 0x80; 0x80]]
    ++ map (fun i => [0xe2; 0x80; 0x80 + i]) (zrange 11)).
Fixpoint strip_any (patterns : list (list u8)) (s : list u8) : option (list u8) :=
  match patterns with
  | [] => None
  | p :: patterns => match strip_prefix p s with Some rest => Some rest | None => strip_any patterns s end
  end.
Fixpoint trim_with (patterns : list (list u8)) (fuel : nat) (s : list u8) : list u8 :=
  match fuel with
  | O => s
  | S fuel => match strip_any patterns s with Some rest => trim_with patterns fuel rest | None => s end
  end.
Definition trim_start (s : list u8) : list u8 := trim_with WHITE_SPACE (length s) s.
Definition trim_end (s : list u8) : list u8 := rev (trim_with (map (@rev u8) WHITE_SPACE) (length s) (rev s)).
Definition trim (s : list u8) : list u8 := trim_end (trim_start s).
(** [split_whitespace]: the maximal runs of other characters. *)
Fixpoint words (fuel : nat) (word : list u8) (s : list u8) : list (list u8) :=
  let close rest := match word with [] => rest | _ => rev word :: rest end in
  match fuel with
  | O => close []
  | S fuel =>
      match strip_any WHITE_SPACE s with
      | Some rest => close (words fuel [] rest)
      | None => match s with [] => close [] | b :: s => words fuel (b :: word) s end
      end
  end.
Definition split_whitespace (s : list u8) : list (list u8) := words (S (length s)) [] s.

(** ** Integers *)
Definition U8_MAX : Z := 0xff.
Definition to_digit (radix : Z) (b : u8) : option Z :=
  let z := b2z b in
  d ← (if is_ascii_digit b then Some (z - 0x30)
       else if is_ascii_lower b then Some (z - 0x61 + 10)
       else if is_ascii_upper b then Some (z - 0x41 + 10) else None);
  if d <? radix then Some d else None.
Fixpoint digits_value (radix : Z) (value : Z) (s : list u8) : option Z :=
  match s with [] => Some value | b :: s => d ← to_digit radix b; digits_value radix (value * radix + d) s end.
(** [from_str_radix] of an unsigned type: an optional plus, at least one digit,
    and the value in range. *)
Definition parse_unsigned (radix max : Z) (s : list u8) : option Z :=
  let digits := match s with b :: s' => if byte_eqb b Byte.x2b then s' else s | [] => s end in
  match digits with
  | [] => None
  | _ => value ← digits_value radix 0 digits; if value <=? max then Some value else None
  end.
Definition parse_i64 (s : list u8) : option Z :=
  match s with
  | b :: digits =>
      if byte_eqb b Byte.x2d then
        match digits with
        | [] => None
        | _ => value ← digits_value 10 0 digits; if value <=? 2 ^ 63 then Some (- value) else None
        end
      else parse_unsigned 10 (2 ^ 63 - 1) s
  | [] => None
  end.

(** [Display] of an unsigned integer. *)
Fixpoint decimal_loop (fuel : nat) (value : Z) (digits : list u8) : list u8 :=
  let digits := z2b (0x30 + value mod 10) :: digits in
  match fuel with
  | O => digits
  | S fuel => if value <? 10 then digits else decimal_loop fuel (value / 10) digits
  end.
Definition decimal_text (value : Z) : list u8 := decimal_loop 19 value [].
