(* ===== verification/Rtsp.v ===== *)
(** * RTSP signaling

    What [nvst_rtsp.rs] makes of the text it exchanges with the server: the
    framing of the replies, the attributes of the session description, the
    negotiation values, and the search for the video peer.  The web socket,
    TLS and the clock are parameters.  A [String] is its UTF-8 bytes, a header
    map the list of its entries, an error its code. *)

From stdpp Require Import list strings.
From Stdlib Require Import String.
From S2P Require Import Prelude Text Str Control Reports.

Inductive RtspError :=
  | RtspFailed | SequenceMismatch | RtspTimeout | MissingVideoPeer | QosVersionInvalid | QosVersionUnsupported
  | QosPacingUnsupported | QosSizeInvalid | QosSizeUnsupported | SignalingForbidden | MissingEndpoint | InvalidEndpoint
  | OtherError (code : Z).
#[export] Instance RtspError_eq_dec : EqDecision RtspError.
Proof. solve_decision. Defined.

Definition MAX_REQUEST_RESPONSE_BYTES : Z := 4 * 1024 * 1024.
Definition SETUP_PEER_RETRY_ROUNDS : Z := 3.
Definition MAX_NVST_VIDEO_PEER_PORTS : Z := 16.

(** ** Replies *)
Record RtspResponse := {
  status : Z;
  status_text : list u8;
  headers : list (list u8 * list u8);
  body : list u8
}.
Fixpoint header_get (name : list u8) (headers : list (list u8 * list u8)) : option (list u8) :=
  match headers with
  | [] => None
  | (n, v) :: headers => if bool_decide (n = name) then Some v else header_get name headers
  end.
(** [HashMap::insert] *)
Definition header_insert (name value : list u8) (headers : list (list u8 * list u8)) : list (list u8 * list u8) :=
  (name, value) :: List.filter (fun h => negb (bool_decide (fst h = name))) headers.
Definition header_value (response : RtspResponse) (name : list u8) : option (list u8) :=
  header_get (to_ascii_lowercase name) (headers response).

Definition is_line_end (b : u8) : bool := byte_eqb b CR || byte_eqb b LF.
Definition CRLF : list u8 := [CR; LF].
Definition COLON : u8 := Byte.x3a.
Definition SPACE : u8 := Byte.x20.

(** The padding before the status line is dropped. *)
Definition drop_padding (buffer : list u8) : list u8 :=
  drop (default (length buffer) (find_byte (fun b => negb (is_line_end b)) buffer)) buffer.
Definition header_end (buffer : list u8) : option nat :=
  match find_sub (CRLF ++ CRLF) buffer with Some i => Some i | None => find_sub [LF; LF] buffer end.
Definition content_length_line (line : list u8) : option Z :=
  '(name, value) ← split_once COLON line;
  if eq_ignore_ascii_case name (str "content-length") then parse_unsigned 10 U64_MAX (trim value) else None.
Fixpoint find_map {A B} (f : A -> option B) (l : list A) : option B :=
  match l with [] => None | a :: l => match f a with Some b => Some b | None => find_map f l end end.
Definition add_header (headers : list (list u8 * list u8)) (line : list u8) : list (list u8 * list u8) :=
  match split_once COLON line with
  | Some (name, value) => header_insert (to_ascii_lowercase (trim name)) (trim value) headers
  | None => headers
  end.
(** [splitn(3, ' ')]: the second and the third part of the status line. *)
Definition status_parts (line : list u8) : option (list u8) * option (list u8) :=
  match split_once SPACE line with
  | None => (None, None)
  | Some (_, rest) => match split_once SPACE rest with None => (Some rest, None) | Some (code, text) => (Some code, Some text) end
  end.
Definition sequence_matches (headers : list (list u8 * list u8)) (expected : Z) : bool :=
  match header_get (str "cseq") headers with
  | Some value => bool_decide (parse_unsigned 10 U64_MAX value = Some expected)
  | None => bool_decide ((value ← header_get (str "request-id") headers; parse_unsigned 10 U64_MAX value) = Some expected)
  end.

(** A complete reply, its head and its body. *)
Definition parse_reply (head body : list u8) (expected_cseq : Z) : RtspError + RtspResponse :=
  let ls := lines head in
  let '(code, text) := status_parts (default [] (List.hd_error ls)) in
  match (code ← code; parse_unsigned 10 U16_MAX code) with
  | None => inl RtspFailed
  | Some status =>
      let headers := foldl add_header [] (List.tl ls) in
      if negb (sequence_matches headers expected_cseq) then inl SequenceMismatch else
      inr {| status := status; status_text := trim (default [] text); headers := headers; body := body |}
  end.

(** [take_rtsp_response]: what is left of the buffer and the reply, if it is
    complete. *)
Definition take_rtsp_response (buffer : list u8) (expected_cseq : Z) : list u8 * (RtspError + option RtspResponse) :=
  let buffer := drop_padding buffer in
  match header_end buffer with
  | None => (buffer, inr None)
  | Some header_end =>
      let separator := if starts_with (CRLF ++ CRLF) (drop header_end buffer) then 4 else 2 in
      let header_text := take header_end buffer in
      let content_length := default 0 (find_map content_length_line (lines header_text)) in
      let total := Z.of_nat header_end + separator + content_length in
      if (U64_MAX <? total) || (MAX_REQUEST_RESPONSE_BYTES <? total) then (buffer, inl RtspFailed) else
      if zlen buffer <? total then (buffer, inr None) else
      if negb (is_char_boundary buffer total) then (buffer, inl RtspFailed) else
      let raw := take (Z.to_nat total) buffer in
      let buffer := drop (Z.to_nat total) buffer in
      let split := (header_end + Z.to_nat separator)%nat in
      (buffer, match parse_reply (take split raw) (drop split raw) expected_cseq with inl e => inl e | inr r => inr (Some r) end)
  end.

(** ** The request loop *)

(** What a read of the socket gives. *)
Inductive SocketEvent := TextFrame (text : list u8) | PingFrame | CloseFrame | OtherFrame | WouldBlock | SocketFailure.
Record RtspClient := { cseq : Z; buffer : list u8 }.
Definition with_buffer (self : RtspClient) (buffer : list u8) : RtspClient := {| cseq := cseq self; buffer := buffer |}.

(** One turn of the loop of [request_with_timeout] before it reads: a result,
    another turn at once (the stale reply of a TEARDOWN), or a read. *)
Inductive Turn := Finished (result : RtspError + RtspResponse) | Again | Reads.
Definition request_turn (self : RtspClient) (teardown expired : bool) : RtspClient * Turn :=
  if MAX_REQUEST_RESPONSE_BYTES <? zlen (buffer self) then (self, Finished (inl RtspFailed)) else
  if expired then (self, Finished (inl RtspTimeout)) else
  let '(buffer, result) := take_rtsp_response (buffer self) (cseq self) in
  let self := with_buffer self buffer in
  match result with
  | inl SequenceMismatch => if teardown then (self, Again) else (self, Finished (inl SequenceMismatch))
  | inl error => (self, Finished (inl error))
  | inr (Some response) => (self, Finished (inr response))
  | inr None => (self, Reads)
  end.
Definition request_read (self : RtspClient) (event : SocketEvent) : RtspClient * option RtspError :=
  match event with
  | TextFrame text => (with_buffer self (buffer self ++ text), None)
  | PingFrame | OtherFrame | WouldBlock => (self, None)
  | CloseFrame | SocketFailure => (self, Some RtspFailed)
  end.
(** The loop over the clock's answers and the socket's events; [None] while it
    waits for the next event. *)
Fixpoint request_loop (fuel : nat) (teardown : bool) (expired : nat -> bool) (self : RtspClient) (events : list SocketEvent)
    : RtspClient * list SocketEvent * option (RtspError + RtspResponse) :=
  match fuel with
  | O => (self, events, None)
  | S fuel =>
      let '(self, turn) := request_turn self teardown (expired fuel) in
      match turn with
      | Finished result => (self, events, Some result)
      | Again => request_loop fuel teardown expired self events
      | Reads =>
          match events with
          | [] => (self, [], None)
          | event :: events =>
              let '(self, failure) := request_read self event in
              match failure with
              | Some error => (self, events, Some (inl error))
              | None => request_loop fuel teardown expired self events
              end
          end
      end
  end.

(** [send_request]: the text of the request and the counter. *)
Definition header_line (h : list u8 * list u8) : list u8 := h.1 ++ str ": " ++ h.2 ++ CRLF.
Definition send_request (self : RtspClient) (method uri : list u8) (headers : list (list u8 * list u8)) (body : list u8)
    : RtspClient * list u8 :=
  let self := {| cseq := cseq self + 1; buffer := buffer self |} in
  let sequence := decimal_text (cseq self) in
  let request := method ++ [SPACE] ++ uri ++ str " RTSP/1.0" ++ CRLF ++ header_line (str "CSeq", sequence)
    ++ header_line (str "Request-Id", sequence) in
  let request := foldl (fun request h => request ++ header_line h) request headers in
  let request := match body with [] => request | _ => request ++ header_line (str "Content-Length", decimal_text (zlen body)) end in
  (self, request ++ CRLF ++ body).

(** ** The session description *)
Definition PIPES : list u8 := str "||".
Definition SEMICOLONS : list u8 := str ";;".
(** [sdp.split("||").next()], further up to the first [";;"], by lines. *)
Definition first_part (sdp : list u8) : list u8 := before PIPES sdp.
Definition media_lines (sdp : list u8) : list (list u8) := map trim (lines (before SEMICOLONS (first_part sdp))).
Definition attribute_lines (sdp : list u8) : list (list u8) :=
  map trim (concat (map lines (split SEMICOLONS (first_part sdp)))).

Definition attribute_value (prefixes : list (list u8)) (line : list u8) : option (list u8) :=
  let lower := to_ascii_lowercase line in
  find_map (fun prefix =>
    match strip_prefix prefix lower with
    | Some _ => match trim (drop (length prefix) line) with [] => None | value => Some value end
    | None => None
    end) prefixes.
Definition sdp_attribute (sdp name : list u8) : option (list u8) :=
  let prefixes := [to_ascii_lowercase (str "a=x-nv-" ++ name ++ [COLON]); to_ascii_lowercase (str "a=" ++ name ++ [COLON])] in
  last (omap (attribute_value prefixes) (attribute_lines sdp)).

Fixpoint control_from (kind current : list u8) (ls : list (list u8)) : option (list u8) :=
  match ls with
  | [] => None
  | line :: ls =>
      match strip_prefix (str "m=") line with
      | Some media => control_from kind (default [] (List.hd_error (split_whitespace media))) ls
      | None =>
          if eq_ignore_ascii_case current kind then
            match strip_prefix (str "a=control:") line with
            | Some value => if bool_decide (value = str "*") || bool_decide (value = []) then control_from kind current ls else Some value
            | None => control_from kind current ls
            end
          else control_from kind current ls
      end
  end.
Definition media_control (sdp kind : list u8) : option (list u8) := control_from kind [] (media_lines sdp).

(** ** The versions of the QoS records *)
Inductive QosVersionOffer := QosMissing | QosMalformed | QosVersion (version : Z).
Record VideoQosOffers := { feedback : QosVersionOffer; timings : QosVersionOffer; blob_stats : QosVersionOffer }.
Definition no_offers : VideoQosOffers := {| feedback := QosMissing; timings := QosMissing; blob_stats := QosMissing |}.
Definition at_least (offer : QosVersionOffer) (minimum : Z) : bool :=
  match offer with QosVersion version => minimum <=? version | _ => false end.
Definition uses_v5_timings (self : VideoQosOffers) : bool := at_least (timings self) 5 && at_least (blob_stats self) 9.
Fixpoint validate_offers (offers : list (QosVersionOffer * Z)) : RtspError + unit :=
  match offers with
  | [] => inr tt
  | (QosMalformed, _) :: _ => inl QosVersionInvalid
  | (QosVersion version, minimum) :: offers => if version <? minimum then inl QosVersionUnsupported else validate_offers offers
  | (QosMissing, _) :: offers => validate_offers offers
  end.
Definition validate (self : VideoQosOffers) : RtspError + unit :=
  validate_offers [(feedback self, 7); (timings self, 5); (blob_stats self, 9)].
Definition pacing_feedback_mode (self : VideoQosOffers) (sdp : list u8) : RtspError + Z :=
  match sdp_attribute sdp (str "video[0].framePacing.feedbackMode") with
  | None => inr (if uses_v5_timings self then 0 else 1)
  | Some value =>
      if bool_decide (value = str "0") then inr 0 else
      if bool_decide (value = str "1") then inr 1 else inl QosPacingUnsupported
  end.
Definition is_sign (b : u8) : bool := byte_eqb b Byte.x3d || byte_eqb b COLON.
Definition offered_version (offer : QosVersionOffer) (raw_version : list u8) : QosVersionOffer :=
  match offer, raw_version with
  | QosMissing, _ :: _ =>
      if forallb is_ascii_digit raw_version
      then match parse_unsigned 10 U8_MAX raw_version with Some version => QosVersion version | None => QosMalformed end
      else QosMalformed
  | _, _ => QosMalformed
  end.
Definition record_offer (self : VideoQosOffers) (parameter : list u8) : VideoQosOffers :=
  let parameter := trim parameter in
  let parameter := default parameter (strip_prefix (str "a=") parameter) in
  let '(name, raw_version) := default (parameter, []) (split_once_by is_sign parameter) in
  let name := trim name in
  let raw_version := trim raw_version in
  if eq_ignore_ascii_case name (str "nv-video-qos-feedback-version") then
    {| feedback := offered_version (feedback self) raw_version; timings := timings self; blob_stats := blob_stats self |}
  else if eq_ignore_ascii_case name (str "nv-video-qos-timings-version") then
    {| feedback := feedback self; timings := offered_version (timings self) raw_version; blob_stats := blob_stats self |}
  else if eq_ignore_ascii_case name (str "nv-video-qos-blob-stats-version") then
    {| feedback := feedback self; timings := timings self; blob_stats := offered_version (blob_stats self) raw_version |}
  else self.

Definition is_white_space_at (s : list u8) : option (list u8) := strip_any WHITE_SPACE s.
(** [splitn(2, char::is_whitespace)] *)
Fixpoint split_white (fuel : nat) (word s : list u8) : list u8 * option (list u8) :=
  match strip_any WHITE_SPACE s, s, fuel with
  | Some rest, _, _ => (rev word, Some rest)
  | None, b :: s, S fuel => split_white fuel (b :: word) s
  | None, _, _ => (rev word, None)
  end.
Fixpoint offers_from (ls : list (list u8)) (in_video : bool) (formats : list (list u8)) (offers : VideoQosOffers) : VideoQosOffers :=
  match ls with
  | [] => offers
  | line :: ls =>
      match strip_prefix (str "m=") line with
      | Some media =>
          if in_video then offers else
          let parts := split_whitespace media in
          let in_video := match parts with kind :: _ => eq_ignore_ascii_case kind (str "video") | [] => false end in
          offers_from ls in_video (if in_video then drop 3 parts else formats) offers
      | None =>
          if negb in_video then offers_from ls in_video formats offers else
          match strip_prefix (str "a=fmtp:") line with
          | Some fmtp =>
              let '(format, parameters) := split_white (length fmtp) [] fmtp in
              offers_from ls in_video formats
                (if bool_decide (format ∈ formats)
                 then foldl record_offer offers (split_by (byte_eqb Byte.x3b) (default [] parameters)) else offers)
          | None => offers_from ls in_video formats (if starts_with (str "a=") line then record_offer offers line else offers)
          end
      end
  end.
Definition video_qos_offers (sdp : list u8) : VideoQosOffers := offers_from (media_lines sdp) false [] no_offers.

(** ** Negotiation values *)
Definition parse_hid_device_mask (value : list u8) : Z :=
  let trimmed := trim value in
  let '(radix, digits) :=
    match strip_prefix (str "0x") trimmed, strip_prefix (str "0X") trimmed with
    | Some hex, _ | None, Some hex => (16, hex)
    | None, None =>
        if existsb is_ascii_hexdigit trimmed && existsb is_ascii_alphabetic trimmed then (16, trimmed) else (10, trimmed)
    end in
  default 0 (parse_unsigned radix U32_MAX digits).

Definition qos_size_line (line : list u8) : option (bool * list u8) :=
  attribute ← strip_prefix (str "a=") line;
  let '(name, value) := default (attribute, []) (split_once_by is_sign attribute) in
  if eq_ignore_ascii_case name (str "x-nv-general.maxQosMessagesSize") || eq_ignore_ascii_case name (str "general.maxQosMessagesSize")
  then Some (bool_decide (attribute !! length name = Some COLON), trim value) else None.
Definition qos_messages_size (sdp : list u8) : RtspError + option Z :=
  match last (omap qos_size_line (attribute_lines sdp)) with
  | None => inr None
  | Some (valid_separator, value) =>
      if negb valid_separator || bool_decide (value = []) || negb (forallb is_ascii_digit value) then inl QosSizeInvalid else
      match parse_unsigned 10 U64_MAX value with
      | None => inl QosSizeInvalid
      | Some offered =>
          if offered <? MIN_CONTROL_REPORT_BYTES then inl QosSizeUnsupported
          else inr (Some (Z.min offered MAX_CONTROL_REPORT_BYTES))
      end
  end.

Definition increment_digit (b : u8) : u8 * bool :=
  match to_digit 16 b with
  | Some digit => if digit =? 15 then (z2b 0x30, true) else
      (z2b (if digit + 1 <? 10 then 0x30 + (digit + 1) else 0x61 + (digit + 1) - 10), false)
  | None => (b, false)
  end.
(** The loop over the bytes from the last to the first. *)
Fixpoint increment_loop (reversed : list u8) : list u8 * bool :=
  match reversed with
  | [] => ([], true)
  | b :: reversed =>
      let '(b, carry) := increment_digit b in
      if carry then let '(reversed, carry) := increment_loop reversed in (b :: reversed, carry) else (b :: reversed, false)
  end.
Definition increment_hex (value : list u8) : option (list u8) :=
  if bool_decide (value = []) || negb (forallb is_ascii_hexdigit value) then None else
  let '(bytes, carry) := increment_loop (rev value) in
  Some (if carry then z2b 0x31 :: rev bytes else rev bytes).

Definition resolve_remote_ufrag (ping_payload described_ufrag bundle_username : option (list u8)) (ping_version : Z) : option (list u8) :=
  let without_bundle :=
    match ping_payload with
    | Some payload =>
        match increment_hex payload with
        | Some incremented => Some incremented
        | None => if eq_ignore_ascii_case payload (str "PING") || (ping_version =? 6) then Some payload else described_ufrag
        end
    | None => described_ufrag
    end in
  match bundle_username with
  | Some username => if ping_version =? 6 then Some username else without_bundle
  | None => without_bundle
  end.
Definition bundle_natt_username (sdp : list u8) : option (list u8) :=
  ufrag ← match sdp_attribute sdp (str "general.iceUsernameFragment") with
          | Some ufrag => Some ufrag
          | None => sdp_attribute sdp (str "general.iceUserNameFragmentV2")
          end;
  port ← sdp_attribute sdp (str "general.serverBundlePort");
  port ← parse_unsigned 10 U16_MAX port;
  if port =? 0 then None else
  let port_text := decimal_text port in
  if bool_decide (ufrag = []) || (256 <? zlen ufrag + zlen port_text)
     || negb (forallb (fun b => is_ascii_graphic b && negb (byte_eqb b COLON)) ufrag) then None
  else Some (ufrag ++ port_text).
Definition runtime_key (sdp : list u8) : option (list u8 * Z) :=
  key ← sdp_attribute sdp (str "runtime.encryptionKey");
  if negb (zlen key =? 64) || negb (forallb is_ascii_hexdigit key) then None else
  raw ← sdp_attribute sdp (str "runtime.encryptionKeyId");
  raw ← parse_i64 raw;
  Some (to_ascii_uppercase key, raw mod 2 ^ 32).

(** ** The video peer *)

(** One part of the Transport header; [None] when the function gives up. *)
Definition peer_part (st : option (list u8) * option Z * option Z) (part : list u8)
    : option (option (list u8) * option Z * option Z) :=
  let '(ip, port, port_end) := st in
  match split_once Byte.x3d (trim part) with
  | None => Some st
  | Some (name, value) =>
      if eq_ignore_ascii_case name (str "source") then Some (Some (trim value), port, port_end)
      else if eq_ignore_ascii_case name (str "X-GS-ServerPort") then
        let value := trim value in
        let '(first, last) := default (value, value) (split_once Byte.x2d value) in
        first ← parse_unsigned 10 U16_MAX first;
        if first =? 0 then None else
        let port_end := match parse_unsigned 10 U16_MAX last with
          | Some last => if (first <=? last) && (last - first <? MAX_NVST_VIDEO_PEER_PORTS) then last else first
          | None => first
          end in
        Some (ip, Some first, Some port_end)
      else Some st
  end.
Fixpoint peer_parts (st : option (list u8) * option Z * option Z) (parts : list (list u8))
    : option (option (list u8) * option Z * option Z) :=
  match parts with [] => Some st | part :: parts => st ← peer_part st part; peer_parts st parts end.
Definition is_transport_separator (b : u8) : bool := byte_eqb b Byte.x3b || byte_eqb b Byte.x2c.
Definition parse_video_peer (transport : list u8) : option (list u8 * Z * Z) :=
  '(ip, port, port_end) ← peer_parts (None, None, None) (split_by is_transport_separator transport);
  ip ← ip; port ← port; port_end ← port_end;
  Some (ip, port, port_end).

Definition official_video_setup_control (control : list u8) : list u8 :=
  if starts_with (str "streamid=video/") (to_ascii_lowercase control)
     && (length (List.filter (byte_eqb Byte.x2f) control) =? 1)%nat
  then control ++ str "/0" else control.
Fixpoint trim_start_slash (s : list u8) : list u8 :=
  match s with b :: s' => if byte_eqb b Byte.x2f then trim_start_slash s' else s | [] => [] end.
Definition trim_end_slash (s : list u8) : list u8 := rev (trim_start_slash (rev s)).
Definition absolute_candidate (target : list u8) (candidates : list (list u8)) (control : list u8) : list (list u8) :=
  let lower := to_ascii_lowercase control in
  if starts_with (str "rtsps://") lower || starts_with (str "rtsp://") lower then candidates else
  let absolute := trim_end_slash target ++ str "/" ++ trim_start_slash control in
  if bool_decide (absolute ∈ candidates) then candidates else candidates ++ [absolute].
(** The loop runs over the candidates there are before it. *)
Definition video_setup_candidates (control target : list u8) : list (list u8) :=
  let official := official_video_setup_control control in
  let candidates := official :: (if bool_decide (official = control) then [] else [control]) in
  foldl (absolute_candidate target) candidates candidates.

(** ** Addresses: [IpAddr::from_str] succeeds *)
Section Address.
Fixpoint read_digits (radix max count value : Z) (fuel : nat) (s : list u8) : option (Z * Z * list u8) :=
  match fuel, s with
  | S fuel, b :: s' =>
      match to_digit radix b with
      | Some d => if max <? value * radix + d then None else read_digits radix max (count + 1) (value * radix + d) fuel s'
      | None => Some (count, value, s)
      end
  | _, _ => Some (count, value, s)
  end.
(** [read_number]: at most [max_digits] digits, no leading zero unless allowed. *)
Definition read_number (radix max max_digits : Z) (allow_zero_prefix : bool) (s : list u8) : option (list u8) :=
  '(count, _, rest) ← read_digits radix max 0 0 (length s) s;
  let leading_zero := match s with b :: _ => b2z b =? 0x30 | [] => false end in
  if (count =? 0) || (max_digits <? count) || (negb allow_zero_prefix && leading_zero && (1 <? count)) then None else Some rest.
Definition read_char (c : u8) (s : list u8) : option (list u8) :=
  match s with b :: s => if byte_eqb b c then Some s else None | [] => None end.
Definition read_octet (s : list u8) : option (list u8) := read_number 10 255 3 false s.
Definition read_ipv4 (s : list u8) : option (list u8) :=
  s ← read_octet s; s ← read_char Byte.x2e s; s ← read_octet s; s ← read_char Byte.x2e s;
  s ← read_octet s; s ← read_char Byte.x2e s; read_octet s.
Definition read_separated (index : nat) (inner : list u8 -> option (list u8)) (s : list u8) : option (list u8) :=
  s ← (if (index =? 0)%nat then Some s else read_char COLON s); inner s.
(** [read_groups]: how many groups were read, whether they end in an IPv4
    address, and what is left. *)
Fixpoint read_groups (limit index fuel : nat) (s : list u8) : nat * bool * list u8 :=
  match fuel with
  | O => (index, false, s)
  | S fuel =>
      match (if (S index <? limit)%nat then read_separated index read_ipv4 s else None) with
      | Some s => ((index + 2)%nat, true, s)
      | None =>
          match read_separated index (read_number 16 U16_MAX 4 true) s with
          | Some s => read_groups limit (S index) fuel s
          | None => (index, false, s)
          end
      end
  end.
Definition read_ipv6 (s : list u8) : option (list u8) :=
  let '(head, ipv4, s) := read_groups 8 0 8 s in
  if (head =? 8)%nat then Some s else
  if ipv4 then None else
  s ← read_char COLON s; s ← read_char COLON s;
  let limit := (8 - (head + 1))%nat in
  let '(_, _, s) := read_groups limit 0 limit s in Some s.
End Address.
Definition parses_all (parser : list u8 -> option (list u8)) (s : list u8) : bool :=
  match parser s with Some [] => true | _ => false end.
(** [read_ip_addr]: IPv4, or else IPv6, and then the end of the text. *)
Definition is_ip_address (s : list u8) : bool :=
  match read_ipv4 s with Some rest => bool_decide (rest = []) | None => parses_all read_ipv6 s end.

(** ** SETUP *)
Definition video_peer : Type := list u8 * Z * Z.
Record VideoSetup := { response : RtspResponse; peer : video_peer }.
Record SweepFailure := { error : RtspError; peerless_200 : option RtspResponse }.

(** The server and the clock: what each request is answered with and whether
    the deadline has passed at each look at the clock. *)
Record SetupEnv := { answer : nat -> RtspError + RtspResponse; timed_out : nat -> bool }.
(** The requests made, by Transport form and candidate, and the looks taken. *)
Record SetupTrace := { requests : list (bool * list u8); looks : nat }.

Definition usable_peer (response : RtspResponse) : option video_peer :=
  transport ← header_value response (str "transport");
  '(ip, port, port_end) ← parse_video_peer transport;
  if is_ip_address ip then Some (ip, port, port_end) else None.
Definition retried_status (status : Z) : bool := existsb (Z.eqb status) [400; 404; 459; 460; 461].

Section Setup.
Context (env : SetupEnv).

(** The attempts of a sweep in order: each candidate with each Transport form. *)
Fixpoint sweep_attempts (attempts : list (bool * list u8)) (trace : SetupTrace) : SetupTrace * (SweepFailure + VideoSetup) :=
  match attempts with
  | [] => (trace, inl {| error := RtspFailed; peerless_200 := None |})
  | attempt :: attempts =>
      let look := looks trace in
      let trace := {| requests := requests trace; looks := S look |} in
      if timed_out env look then (trace, inl {| error := RtspTimeout; peerless_200 := None |}) else
      let reply := answer env (length (requests trace)) in
      let trace := {| requests := requests trace ++ [attempt]; looks := looks trace |} in
      match reply with
      | inl error => (trace, inl {| error := error; peerless_200 := None |})
      | inr response =>
          if status response =? 200 then
            match usable_peer response with
            | Some peer => (trace, inr {| response := response; peer := peer |})
            | None => (trace, inl {| error := MissingVideoPeer; peerless_200 := Some response |})
            end
          else if retried_status (status response) then sweep_attempts attempts trace
          else (trace, inl {| error := RtspFailed; peerless_200 := None |})
      end
  end.
Definition setup_video_sweep (candidates : list (list u8)) : SetupTrace -> SetupTrace * (SweepFailure + VideoSetup) :=
  sweep_attempts (map (pair false) candidates ++ map (pair true) candidates).

(** [loop] of [setup_video_with_retry]; the fuel is the number of rounds. *)
Fixpoint setup_rounds (fuel : nat) (candidates : list (list u8)) (max_peer_retries round : Z) (peerless_200_seen : bool)
    (bundle_video_peer : option video_peer) (trace : SetupTrace) : outcome RtspError (SetupTrace * (RtspError + VideoSetup)) :=
  match fuel with
  | O => Panic
  | S fuel =>
      let '(trace, result) := setup_video_sweep candidates trace in
      match result with
      | inr setup => mret (trace, inr setup)
      | inl failure =>
          let seen := peerless_200_seen || bool_decide (is_Some (option_map status (peerless_200 failure))) in
          match peerless_200 failure, bundle_video_peer with
          | Some response, Some peer => mret (trace, inr {| response := response; peer := peer |})
          | _, _ =>
              let error := error failure in
              let error' := if bool_decide (error = MissingVideoPeer) then Some error
                else if bool_decide (error = RtspFailed) && seen then Some MissingVideoPeer else None in
              match error' with
              | None => mret (trace, inl error)
              | Some error =>
                  if max_peer_retries <=? round then mret (trace, inl error) else
                  let look := looks trace in
                  let trace := {| requests := requests trace; looks := S look |} in
                  if timed_out env look then mret (trace, inl error) else
                  setup_rounds fuel candidates max_peer_retries (round + 1) seen bundle_video_peer trace
              end
          end
      end
  end.
Definition setup_video (control target : list u8) (bundle_video_peer : option video_peer) : outcome RtspError (SetupTrace * (RtspError + VideoSetup)) :=
  setup_rounds (S (Z.to_nat SETUP_PEER_RETRY_ROUNDS)) (video_setup_candidates control target) SETUP_PEER_RETRY_ROUNDS 0 false
    bundle_video_peer {| requests := []; looks := 0 |}.
End Setup.

(** ** Connecting *)

(** [connect_with_retry]: what an attempt says of its failure is whether it is
    transient. *)
Fixpoint connect_with_retry {T} (fuel : nat) (retry : Z) (attempts : list ((RtspError * bool) + T)) : option (RtspError + T) * list ((RtspError * bool) + T) :=
  match fuel with
  | O => (Some (inl (OtherError 0)), attempts)
  | S fuel =>
      match attempts with
      | [] => (None, [])
      | inr value :: attempts => (Some (inr value), attempts)
      | inl (failure, transient) :: attempts =>
          if negb transient || (retry =? 2) then (Some (inl failure), attempts) else connect_with_retry fuel (retry + 1) attempts
      end
  end.
(** [try_signaling_endpoints]: the handshake of each endpoint is its answer. *)
Fixpoint try_endpoints {T} (endpoints : list (option (RtspError + T))) (failures : list RtspError) : RtspError + T :=
  match endpoints with
  | [] => inl (default MissingEndpoint (last failures))
  | endpoint :: endpoints =>
      match default (inl InvalidEndpoint) endpoint with
      | inr session => inr session
      | inl error => if bool_decide (error = SignalingForbidden) then inl error else try_endpoints endpoints (failures ++ [error])
      end
  end.
Definition try_signaling_endpoints {T} (endpoints : list (option (RtspError + T))) : RtspError + T :=
  match endpoints with [] => inl MissingEndpoint | _ => try_endpoints endpoints [] end.

(** ** Announcements *)
Definition SECRET_KEYS : list (list u8) := map (fun s => to_ascii_lowercase (str s))
  ["icePassword"; "iceUserNameFragment"; "dtlsFingerprint"; "encryptionKey"; "encryptionKeyId"; "ice-pwd"; "ice-ufrag"; "fingerprint"].
Definition has_sub (p s : list u8) : bool := match find_sub p s with Some _ => true | None => false end.
Definition is_secret (line : list u8) : bool := existsb (fun key => has_sub key (to_ascii_lowercase line)) SECRET_KEYS.
Definition redact (line : list u8) : list u8 :=
  match (if is_secret line then find_byte (byte_eqb COLON) line else None) with
  | Some colon => take colon line ++ str ":[redacted]"
  | None => line
  end.
Fixpoint join (separator : list u8) (ls : list (list u8)) : list u8 :=
  match ls with [] => [] | [l] => l | l :: ls => l ++ separator ++ join separator ls end.
Definition sanitize_announce_for_log (body : list u8) : list u8 := join CRLF (map redact (split CRLF body)).

(** ** Counting in hexadecimal *)
Definition digit_of (b : u8) : Z := default 0 (to_digit 16 b).
(** The number written with the given digits, the last one first. *)
Fixpoint little_value (digits : list u8) : Z :=
  match digits with [] => 0 | b :: digits => digit_of b + 16 * little_value digits end.
Definition hex_value (s : list u8) : Z := little_value (rev s).

Lemma hexdigit_value b : is_ascii_hexdigit b = true -> to_digit 16 b = Some (digit_of b) /\ 0 <= digit_of b < 16.
Proof. destruct b; intros H; first [discriminate H|vm_compute; split; [reflexivity|split; [discriminate|reflexivity]]]. Qed.
Lemma digits_value_snoc radix b s : forall value,
  digits_value radix value (s ++ [b]) = (v ← digits_value radix value s; d ← to_digit radix b; Some (v * radix + d)).
Proof.
  induction s as [|a s IH]; intros value; cbn; [by destruct (to_digit radix b)|]. destruct (to_digit radix a); cbn; [apply IH|done].
Qed.
Lemma hex_value_digits s : forallb is_ascii_hexdigit s = true -> digits_value 16 0 s = Some (hex_value s).
Proof.
  unfold hex_value. induction s as [|b s IH] using rev_ind; intros H; [done|]. rewrite forallb_app in H. apply andb_true_iff in H as [Hs Hb].
  cbn in Hb. rewrite andb_true_r in Hb. destruct (hexdigit_value b Hb) as [Hd _].
  rewrite digits_value_snoc, IH by done. rewrite rev_unit. cbn. rewrite Hd. cbn. f_equal. lia.
Qed.

Lemma increment_digit_value b : is_ascii_hexdigit b = true ->
  is_ascii_hexdigit (increment_digit b).1 = true
  /\ digit_of (increment_digit b).1 + (if (increment_digit b).2 then 16 else 0) = digit_of b + 1.
Proof. destruct b; intros H; first [discriminate H|vm_compute; split; reflexivity]. Qed.
Lemma increment_loop_value digits : forallb is_ascii_hexdigit digits = true ->
  forallb is_ascii_hexdigit (increment_loop digits).1 = true
  /\ length (increment_loop digits).1 = length digits
  /\ little_value (increment_loop digits).1 + (if (increment_loop digits).2 then 16 ^ Z.of_nat (length digits) else 0) = little_value digits + 1.
Proof.
  induction digits as [|b digits IH]; intros H; [done|]. cbn [forallb] in H. apply andb_true_iff in H as [Hb H].
  destruct (increment_digit_value b Hb) as [Hb' Hv]. destruct (IH H) as (I1 & I2 & I3). cbn [increment_loop].
  destruct (increment_digit b) as [b' carry]. cbn [fst snd] in *. destruct carry.
  - destruct (increment_loop digits) as [digits' carry']. cbn [fst snd forallb length little_value] in *.
    rewrite Hb', I1, I2. split; [done|]. split; [done|]. rewrite Nat2Z.inj_succ, Z.pow_succ_r by lia. destruct carry'; lia.
  - cbn [fst snd forallb length little_value]. rewrite Hb', H. split; [done|]. split; [done|]. lia.
Qed.
Lemma little_value_bound digits : forallb is_ascii_hexdigit digits = true -> 0 <= little_value digits < 16 ^ Z.of_nat (length digits).
Proof.
  induction digits as [|b digits IH]; intros H; [cbn; lia|]. cbn [forallb] in H. apply andb_true_iff in H as [Hb H].
  destruct (hexdigit_value b Hb) as [_ Hr]. specialize (IH H). cbn [little_value length]. rewrite Nat2Z.inj_succ, Z.pow_succ_r by lia. lia.
Qed.
Lemma little_value_snoc digits b : little_value (digits ++ [b]) = little_value digits + 16 ^ Z.of_nat (length digits) * digit_of b.
Proof.
  induction digits as [|a digits IH]; [cbn -[Z.mul]; lia|]. cbn [app little_value length]. rewrite IH, Nat2Z.inj_succ, Z.pow_succ_r by lia. lia.
Qed.
Lemma forallb_rev {A} (f : A -> bool) l : forallb f (rev l) = forallb f l.
Proof. induction l as [|a l IH]; [done|]. cbn. rewrite forallb_app, IH. cbn. rewrite andb_true_r. apply andb_comm. Qed.

(** C0: the ping payload is counted on as a number.  [increment_hex] answers
    exactly for a non-empty text of hexadecimal digits; its answer is the
    hexadecimal number one larger, as long as the text, or one digit longer
    when every digit was an F. *)
Theorem increment_hex_counts (s : list u8) :
  match increment_hex s with
  | None => s = [] \/ forallb is_ascii_hexdigit s = false
  | Some s' =>
      forallb is_ascii_hexdigit s = true /\ forallb is_ascii_hexdigit s' = true
      /\ digits_value 16 0 s' = Some (hex_value s + 1) /\ digits_value 16 0 s = Some (hex_value s)
      /\ length s' = (length s + if Z.eqb (hex_value s + 1) (16 ^ Z.of_nat (length s)) then 1 else 0)%nat
  end.
Proof.
  unfold increment_hex. case_bool_decide as Hnil; [by left|]. destruct (forallb is_ascii_hexdigit s) eqn:Hhex; [|by right]. cbn [orb negb].
  pose proof (increment_loop_value (rev s)) as Hi. rewrite forallb_rev, length_rev in Hi. specialize (Hi Hhex) as (I1 & I2 & I3).
  destruct (increment_loop (rev s)) as [digits carry]. cbn [fst snd] in *. change (little_value (rev s)) with (hex_value s) in I3.
  assert (Hhex' : forallb is_ascii_hexdigit (if carry then z2b 0x31 :: rev digits else rev digits) = true).
  { destruct carry; cbn [forallb]; rewrite forallb_rev, I1; done. }
  assert (Hvalue : hex_value (if carry then z2b 0x31 :: rev digits else rev digits) = hex_value s + 1).
  { unfold hex_value at 1. destruct carry; cbn [rev]; rewrite rev_involutive; [|lia]. rewrite little_value_snoc, I2.
    change (digit_of (z2b 0x31)) with 1. lia. }
  split; [done|]. split; [done|]. rewrite hex_value_digits, Hvalue by done. split; [done|]. split; [by apply hex_value_digits|].
  pose proof (little_value_bound digits I1) as Hb. rewrite I2 in Hb.
  destruct carry; cbn [length]; rewrite length_rev, I2.
  - assert (hex_value s < 16 ^ Z.of_nat (length s)).
    { unfold hex_value. rewrite <- (length_rev s). apply little_value_bound. by rewrite forallb_rev. }
    rewrite (proj2 (Z.eqb_eq _ _)) by lia. lia.
  - rewrite (proj2 (Z.eqb_neq _ _)) by lia. lia.
Qed.

(** ** Values from the wire *)
Lemma to_digit_range radix b d : to_digit radix b = Some d -> 0 <= d < radix.
Proof.
  unfold to_digit. destruct (is_ascii_digit b) eqn:H1; [|destruct (is_ascii_lower b) eqn:H2; [|destruct (is_ascii_upper b) eqn:H3]];
    cbn [mbind option_bind]; try done; unfold is_ascii_digit, is_ascii_lower, is_ascii_upper, in_range in *;
    destruct (_ <? radix) eqn:Hlt; try done; intros [= <-]; zbool; lia.
Qed.
Lemma digits_value_nonneg radix s : forall value v, 0 <= radix -> 0 <= value -> digits_value radix value s = Some v -> 0 <= v.
Proof.
  induction s as [|b s IH]; intros value v Hr Hv H; cbn in H; [by injection H as <-|].
  destruct (to_digit radix b) as [d|] eqn:Hd; cbn in H; [|done]. apply to_digit_range in Hd. eapply IH; [done| |exact H]. nia.
Qed.
Lemma parse_unsigned_range radix max s v : 0 <= radix -> parse_unsigned radix max s = Some v -> 0 <= v <= max.
Proof.
  intros Hr. unfold parse_unsigned. destruct (match s with b :: s' => if byte_eqb b Byte.x2b then s' else s | [] => s end) as [|b digits]; [done|].
  destruct (digits_value radix 0 (b :: digits)) as [value|] eqn:Hd; cbn [mbind option_bind]; [|done].
  destruct (Z.leb_spec value max); [|done]. intros [= <-]. split; [|done]. by eapply (digits_value_nonneg radix _ 0).
Qed.

Definition port_ok (port : Z) : Prop := 1 <= port <= U16_MAX.
Definition peer_state_ok (st : option (list u8) * option Z * option Z) : Prop :=
  let '(_, port, port_end) := st in
  match port, port_end with
  | None, None => True
  | Some port, Some port_end => port_ok port /\ port <= port_end < port + MAX_NVST_VIDEO_PEER_PORTS /\ port_end <= U16_MAX
  | _, _ => False
  end.
Lemma peer_part_ok st part st' : peer_state_ok st -> peer_part st part = Some st' -> peer_state_ok st'.
Proof.
  destruct st as [[ip port] port_end]. intros Hok. unfold peer_part. destruct (split_once _ _) as [[name value]|]; [|by intros [= <-]].
  destruct (eq_ignore_ascii_case name (str "source")); [by intros [= <-]|]. destruct (eq_ignore_ascii_case name _); [|by intros [= <-]].
  destruct (default _ _) as [first last]. destruct (parse_unsigned 10 U16_MAX first) as [p|] eqn:Hp; cbn [mbind option_bind]; [|done].
  apply parse_unsigned_range in Hp; [|done]. destruct (Z.eqb_spec p 0); [done|]. intros [= <-].
  assert (Hport : port_ok p) by (unfold port_ok; lia). cbn. split; [done|].
  destruct (parse_unsigned 10 U16_MAX last) as [l|] eqn:Hl; [apply parse_unsigned_range in Hl; [|done]|unfold MAX_NVST_VIDEO_PEER_PORTS; lia].
  destruct (_ && _) eqn:Hrange; [|unfold MAX_NVST_VIDEO_PEER_PORTS; lia]. zbool. unfold MAX_NVST_VIDEO_PEER_PORTS in *. lia.
Qed.
Lemma peer_parts_ok parts : forall st st', peer_state_ok st -> peer_parts st parts = Some st' -> peer_state_ok st'.
Proof.
  induction parts as [|part parts IH]; intros st st' Hok H; cbn in H; [by injection H as <-|].
  destruct (peer_part st part) as [st1|] eqn:E; cbn in H; [|done]. eapply IH; [|exact H]. by eapply peer_part_ok.
Qed.
Lemma video_peer_ports transport ip port port_end : parse_video_peer transport = Some (ip, port, port_end) ->
  1 <= port <= port_end /\ port_end <= U16_MAX /\ port_end - port < MAX_NVST_VIDEO_PEER_PORTS.
Proof.
  unfold parse_video_peer. destruct (peer_parts _ _) as [[[ip' port'] end']|] eqn:E; cbn [mbind option_bind]; [|done].
  apply peer_parts_ok in E; [|done]. destruct ip'; cbn [mbind option_bind]; [|done]. destruct port' as [p|]; cbn [mbind option_bind]; [|done].
  destruct end' as [e|]; cbn [mbind option_bind]; [|done]. intros [= <- <- <-]. cbn in E. unfold port_ok in E. lia.
Qed.
Lemma qos_size_range sdp size : qos_messages_size sdp = inr (Some size) -> MIN_CONTROL_REPORT_BYTES <= size <= MAX_CONTROL_REPORT_BYTES.
Proof.
  unfold qos_messages_size. destruct (last _) as [[valid value]|]; [|done]. destruct (_ || _ || _); [done|].
  destruct (parse_unsigned _ _ _) as [offered|]; [|done]. destruct (Z.ltb_spec offered MIN_CONTROL_REPORT_BYTES); [done|].
  intros [= <-]. unfold MIN_CONTROL_REPORT_BYTES, MAX_CONTROL_REPORT_BYTES, FRAME_ACK_PAYLOAD_LEN in *. lia.
Qed.
Lemma hid_mask_range value : 0 <= parse_hid_device_mask value <= U32_MAX.
Proof.
  unfold parse_hid_device_mask. destruct (match strip_prefix _ _ with Some _ => _ | None => _ end) as [radix digits] eqn:E.
  assert (0 <= radix).
  { revert E. destruct (strip_prefix _ _); [intros [= <- _]; lia|]. destruct (strip_prefix _ _); [intros [= <- _]; lia|].
    destruct (_ && _); intros [= <- _]; lia. }
  destruct (parse_unsigned radix U32_MAX digits) as [mask|] eqn:Hm; cbn; [by apply parse_unsigned_range in Hm|done].
Qed.
Lemma upper_hexdigits s : forallb is_ascii_hexdigit s = true ->
  forallb (fun b => is_ascii_hexdigit b && negb (is_ascii_lower b)) (to_ascii_uppercase s) = true.
Proof.
  induction s as [|b s IH]; intros H; [done|]. cbn [forallb] in H. apply andb_true_iff in H as [Hb H]. cbn [to_ascii_uppercase map forallb].
  change (map _ s) with (to_ascii_uppercase s). rewrite IH by done. rewrite andb_true_r.
  destruct b; first [discriminate Hb|reflexivity].
Qed.
Lemma runtime_key_shape sdp key id : runtime_key sdp = Some (key, id) ->
  zlen key = 64 /\ forallb (fun b => is_ascii_hexdigit b && negb (is_ascii_lower b)) key = true /\ 0 <= id < 2 ^ 32.
Proof.
  unfold runtime_key. destruct (sdp_attribute sdp (str "runtime.encryptionKey")) as [k|]; cbn [mbind option_bind]; [|done].
  destruct (Z.eqb_spec (zlen k) 64) as [Hlen|]; [|done]. destruct (forallb is_ascii_hexdigit k) eqn:Hhex; [|done]. cbn [negb orb].
  destruct (sdp_attribute _ _) as [raw|]; cbn [mbind option_bind]; [|done]. destruct (parse_i64 raw) as [z|]; cbn [mbind option_bind]; [|done].
  intros [= <- <-]. split; [unfold zlen, to_ascii_uppercase in *; by rewrite length_map|]. split; [by apply upper_hexdigits|].
  apply Z.mod_pos_bound. lia.
Qed.
Lemma natt_username_shape sdp username : bundle_natt_username sdp = Some username -> 1 <= zlen username <= 256.
Proof.
  unfold bundle_natt_username. destruct (match sdp_attribute sdp _ with Some _ => _ | None => _ end) as [ufrag|]; cbn [mbind option_bind]; [|done].
  destruct (sdp_attribute _ _) as [port|]; cbn [mbind option_bind]; [|done].
  destruct (parse_unsigned _ _ _) as [p|]; cbn [mbind option_bind]; [|done]. destruct (p =? 0); [done|].
  destruct (_ || _ || _) eqn:Hguard; [done|]. intros [= <-]. apply orb_false_iff in Hguard as [Hguard _]. apply orb_false_iff in Hguard as [Hnil Hlen].
  apply bool_decide_eq_false in Hnil. zbool. rewrite zlen_app. destruct ufrag as [|b ufrag]; [done|]. rewrite zlen_cons in *.
  pose proof (zlen_nonneg ufrag). pose proof (zlen_nonneg (decimal_text p)). lia.
Qed.

Definition offer_ok (offer : QosVersionOffer) : Prop := match offer with QosVersion version => 0 <= version <= U8_MAX | _ => True end.
Definition offers_ok (offers : VideoQosOffers) : Prop := offer_ok (feedback offers) /\ offer_ok (timings offers) /\ offer_ok (blob_stats offers).
Lemma offered_version_ok offer raw : offer_ok (offered_version offer raw).
Proof.
  unfold offered_version. destruct offer; [|done..]. destruct raw as [|b raw]; [done|]. destruct (forallb _ _); [|done].
  destruct (parse_unsigned _ _ _) as [v|] eqn:E; [|done]. by apply parse_unsigned_range in E.
Qed.
Lemma record_offer_ok offers parameter : offers_ok offers -> offers_ok (record_offer offers parameter).
Proof.
  intros (H1 & H2 & H3). unfold record_offer. destruct (default _ _) as [name raw].
  repeat (destruct (eq_ignore_ascii_case _ _); [repeat split; try done; apply offered_version_ok|]). by repeat split.
Qed.
Lemma fold_offers_ok parameters : forall offers, offers_ok offers -> offers_ok (foldl record_offer offers parameters).
Proof. induction parameters as [|p parameters IH]; intros offers H; [done|]. by apply IH, record_offer_ok. Qed.
Lemma offers_from_ok ls : forall in_video formats offers, offers_ok offers -> offers_ok (offers_from ls in_video formats offers).
Proof.
  induction ls as [|line ls IH]; intros in_video formats offers H; [done|]. cbn [offers_from].
  destruct (strip_prefix (str "m=") line); [destruct in_video; [done|by apply IH]|]. destruct in_video; cbn [negb]; [|by apply IH].
  destruct (strip_prefix (str "a=fmtp:") line); [destruct (split_white _ _ _) as [format parameters]|];
    apply IH; [destruct (bool_decide _); [by apply fold_offers_ok|done]|destruct (starts_with _ _); [by apply record_offer_ok|done]].
Qed.

Lemma validated_offer offers offer minimum : offers_ok offers -> validate offers = inr tt ->
  (offer, minimum) ∈ [(feedback offers, 7); (timings offers, 5); (blob_stats offers, 9)] ->
  offer = QosMissing \/ exists version, offer = QosVersion version /\ minimum <= version <= U8_MAX.
Proof.
  intros (H1 & H2 & H3) Hv Hin. unfold validate in Hv.
  assert (Hall : forall os, validate_offers os = inr tt -> Forall (fun o => offer_ok o.1) os -> (offer, minimum) ∈ os ->
    offer = QosMissing \/ exists version, offer = QosVersion version /\ minimum <= version <= U8_MAX).
  { clear. induction os as [|[o m] os IH]; intros Hv Hos Hin; [by apply elem_of_nil in Hin|]. apply Forall_cons in Hos as [Ho Hos].
    apply elem_of_cons in Hin as [[= -> ->]|Hin].
    - destruct o as [| |version]; [by left|done|]. cbn in Hv. destruct (Z.ltb_spec version m); [done|]. right. exists version. unfold offer_ok in Ho. cbn [fst] in Ho. split; [done|lia].
    - apply IH; [|done..]. destruct o as [| |version]; [done|done|]. cbn in Hv. by destruct (version <? m). }
  apply (Hall _ Hv); [|done]. by repeat constructor.
Qed.

(** C32: what is negotiated fits its field, whatever text the server sends:
    the video peer has a port range of at most sixteen non-zero 16-bit ports,
    the QoS message size holds a complete report and no more than a message,
    versions fit a byte, the HID mask and the key id 32 bits, the runtime key
    is 64 upper-case hexadecimal digits, the bundle user name at most 256
    bytes; and offers that pass validation are versions the client speaks. *)
Theorem negotiated_values_fit (text value : list u8) :
  (forall ip port port_end, parse_video_peer text = Some (ip, port, port_end) ->
     1 <= port <= port_end /\ port_end <= U16_MAX /\ port_end - port < MAX_NVST_VIDEO_PEER_PORTS)
  /\ (forall size, qos_messages_size text = inr (Some size) -> MIN_CONTROL_REPORT_BYTES <= size <= MAX_CONTROL_REPORT_BYTES)
  /\ offers_ok (video_qos_offers text)
  /\ (validate (video_qos_offers text) = inr tt ->
       forall offer minimum, (offer, minimum) ∈ [(feedback (video_qos_offers text), 7); (timings (video_qos_offers text), 5); (blob_stats (video_qos_offers text), 9)] ->
       offer = QosMissing \/ exists version, offer = QosVersion version /\ minimum <= version <= U8_MAX)
  /\ 0 <= parse_hid_device_mask value <= U32_MAX
  /\ (forall key id, runtime_key text = Some (key, id) ->
       zlen key = 64 /\ forallb (fun b => is_ascii_hexdigit b && negb (is_ascii_lower b)) key = true /\ 0 <= id < 2 ^ 32)
  /\ (forall username, bundle_natt_username text = Some username -> 1 <= zlen username <= 256).
Proof.
  assert (Hok : offers_ok (video_qos_offers text)) by by apply offers_from_ok.
  split; [apply video_peer_ports|]. split; [apply qos_size_range|]. split; [done|].
  split; [|split; [apply hid_mask_range|split; [apply runtime_key_shape|apply natt_username_shape]]].
  intros Hv offer minimum Hin. by eapply validated_offer.
Qed.
Lemma negotiated_values_fit_witness :
  parse_video_peer (str "unicast;source=10.0.0.7;X-GS-ServerPort=47998-48005") = Some (str "10.0.0.7", 47998, 48005)
  /\ (1 <= 47998 <= 48005 /\ 48005 <= U16_MAX /\ 48005 - 47998 < MAX_NVST_VIDEO_PEER_PORTS).
Proof.
  split; [reflexivity|].
  apply (proj1 (negotiated_values_fit (str "unicast;source=10.0.0.7;X-GS-ServerPort=47998-48005") []) (str "10.0.0.7")). reflexivity.
Defined.

(** ** The search for the video peer *)
Lemma candidates_grow target cs : forall candidates,
  NoDup candidates -> NoDup (foldl (absolute_candidate target) candidates cs)
  /\ (length candidates <= length (foldl (absolute_candidate target) candidates cs) <= length candidates + length cs)%nat.
Proof.
  induction cs as [|c cs IH]; intros candidates Hn; [cbn; split; [done|lia]|]. cbn [foldl].
  assert (Hstep : NoDup (absolute_candidate target candidates c)
    /\ (length candidates <= length (absolute_candidate target candidates c) <= S (length candidates))%nat).
  { unfold absolute_candidate. destruct (_ || _); [split; [done|lia]|]. case_bool_decide as Hin; [split; [done|lia]|].
    rewrite length_app. cbn [length]. split; [|lia]. apply NoDup_app. split; [done|]. split; [|apply NoDup_singleton].
    intros x Hx Hx'. apply list_elem_of_singleton in Hx' as ->. done. }
  destruct Hstep as [H1 H2]. destruct (IH _ H1) as [H3 H4]. split; [done|]. cbn [length]. lia.
Qed.
Lemma setup_candidates_few control target :
  NoDup (video_setup_candidates control target) /\ (1 <= length (video_setup_candidates control target) <= 4)%nat
  /\ List.hd_error (video_setup_candidates control target) = Some (official_video_setup_control control).
Proof.
  unfold video_setup_candidates. set (official := official_video_setup_control control).
  set (base := official :: (if bool_decide (official = control) then [] else [control])).
  assert (Hbase : NoDup base /\ (1 <= length base <= 2)%nat).
  { unfold base. case_bool_decide as Hc; cbn [length]; (split; [|lia]); [apply NoDup_singleton|].
    apply NoDup_cons. split; [|apply NoDup_singleton]. by intros ?%list_elem_of_singleton. }
  destruct Hbase as [Hn Hl]. destruct (candidates_grow target base base Hn) as [H1 H2]. split; [done|]. split; [lia|].
  assert (Hhd : forall cs candidates, List.hd_error candidates = Some official -> List.hd_error (foldl (absolute_candidate target) candidates cs) = Some official).
  { induction cs as [|c cs IH]; intros candidates H; [done|]. apply IH. unfold absolute_candidate. destruct (_ || _); [done|].
    case_bool_decide; [exact H|]. by destruct candidates. }
  by apply Hhd.
Qed.

Section SetupProofs.
Context (env : SetupEnv).

(** Answered with status 200. *)
Definition accepted (n : nat) : bool := match answer env n with inr response => status response =? 200 | inl _ => false end.
Definition accepted_among (start count : nat) : nat := length (List.filter accepted (seq start count)).
Lemma accepted_app start a b : accepted_among start (a + b) = (accepted_among start a + accepted_among (start + a) b)%nat.
Proof. unfold accepted_among. by rewrite seq_app, List.filter_app, length_app. Qed.
Lemma accepted_one n : accepted_among n 1 = if accepted n then 1%nat else 0%nat.
Proof. unfold accepted_among. cbn. by destruct (accepted n). Qed.

(** A peer that is returned was named by a reply with status 200. *)
Definition setup_ok (bundle : option video_peer) (setup : VideoSetup) : Prop :=
  status (response setup) = 200
  /\ (usable_peer (response setup) = Some (peer setup) \/ usable_peer (response setup) = None /\ bundle = Some (peer setup)).

Lemma sweep_spec attempts : forall trace trace' result, sweep_attempts env attempts trace = (trace', result) ->
  (exists k, (k <= length attempts)%nat /\ length (requests trace') = (length (requests trace) + k)%nat
     /\ (accepted_among (length (requests trace)) k <= 1)%nat)
  /\ match result with
     | inr setup => setup_ok None setup
     | inl failure => forall reply, peerless_200 failure = Some reply -> status reply = 200 /\ usable_peer reply = None
     end.
Proof.
  induction attempts as [|attempt attempts IH]; intros trace trace' result H; cbn [sweep_attempts] in H.
  { injection H as <- <-. split; [|done]. exists 0%nat. split; [done|]. split; [lia|]. cbn. lia. }
  destruct (timed_out env (looks trace)).
  { injection H as <- <-. split; [|done]. exists 0%nat. split; [lia|]. split; [cbn; lia|]. cbn. lia. }
  cbn [requests looks] in H. set (n := length (requests trace)) in *.
  assert (Hone : forall t, requests t = requests trace ++ [attempt] ->
    exists k, (k <= length (attempt :: attempts))%nat /\ length (requests t) = (n + k)%nat /\ (accepted_among n k <= 1)%nat).
  { intros t Ht. exists 1%nat. rewrite Ht, length_app, accepted_one. cbn [length]. split; [lia|]. split; [done|]. destruct (accepted n); lia. }
  destruct (answer env n) as [e|reply] eqn:Hanswer; [injection H as <- <-; split; [by apply Hone|done]|].
  destruct (Z.eqb_spec (status reply) 200) as [E|E].
  - destruct (usable_peer reply) as [p|] eqn:Hp; injection H as <- <-; (split; [by apply Hone|]).
    + split; [done|by left].
    + cbn. by intros r [= <-].
  - destruct (retried_status (status reply)); [|injection H as <- <-; split; [by apply Hone|done]].
    apply IH in H as [(k & Hk & Hlen & Hacc) Hres]. split; [|done]. cbn [requests] in Hlen, Hacc. rewrite length_app in Hlen, Hacc. cbn [length] in *.
    fold n in Hlen, Hacc. exists (S k). split; [lia|]. split; [lia|].
    change (S k) with (1 + k)%nat. rewrite accepted_app, accepted_one. unfold accepted at 1. rewrite Hanswer, (proj2 (Z.eqb_neq _ _)) by done. lia.
Qed.

(** What [fuel] rounds that begin at [trace] come to. *)
Definition rounds_ok (candidates : list (list u8)) (bundle : option video_peer) (fuel : nat) (trace : SetupTrace)
    (m : outcome RtspError (SetupTrace * (RtspError + VideoSetup))) : Prop :=
  exists trace' result, m = Ok (trace', result)
    /\ (exists k, (k <= fuel * (2 * length candidates))%nat /\ length (requests trace') = (length (requests trace) + k)%nat
          /\ (accepted_among (length (requests trace)) k <= fuel)%nat)
    /\ match result with inr setup => setup_ok bundle setup | inl _ => True end.
Lemma setup_rounds_spec candidates max bundle fuel : forall round seen trace,
  0 <= round -> max < round + Z.of_nat fuel -> (1 <= fuel)%nat ->
  rounds_ok candidates bundle fuel trace (setup_rounds env fuel candidates max round seen bundle trace).
Proof.
  induction fuel as [|fuel IH]; intros round seen trace Hr Hfuel Hpos; [lia|]. cbn [setup_rounds].
  destruct (setup_video_sweep env candidates trace) as [trace1 result] eqn:Hsweep. unfold setup_video_sweep in Hsweep.
  apply sweep_spec in Hsweep as [(k & Hk & Hlen & Hacc) Hres]. rewrite length_app, !length_map in Hk.
  assert (Hstop : forall t (r : RtspError + VideoSetup), requests t = requests trace1 ->
    match r with inr setup => setup_ok bundle setup | inl _ => True end -> rounds_ok candidates bundle (S fuel) trace (mret (t, r))).
  { intros t r Ht Hr'. exists t, r. split; [done|]. split; [|done]. exists k. rewrite Ht. split; [nia|]. split; [done|lia]. }
  destruct result as [failure|setup].
  2: { apply Hstop; [done|]. destruct Hres as [H1 [H2|[_ H2]]]; [|done]. split; [done|by left]. }
  assert (Hnext : forall seen' e, rounds_ok candidates bundle (S fuel) trace
      (if max <=? round then mret (trace1, inl e) else
       if timed_out env (looks trace1) then mret ({| requests := requests trace1; looks := S (looks trace1) |}, inl e)
       else setup_rounds env fuel candidates max (round + 1) seen' bundle {| requests := requests trace1; looks := S (looks trace1) |})).
  { intros seen' e. destruct (Z.leb_spec max round); [by apply Hstop|]. destruct (timed_out env (looks trace1)); [by apply Hstop|].
    destruct (IH (round + 1) seen' {| requests := requests trace1; looks := S (looks trace1) |}) as (t & r & Hrun & (k' & Hk' & Hlen' & Hacc') & Hr'); try lia.
    exists t, r. split; [done|]. split; [|done]. cbn [requests] in Hlen', Hacc'. rewrite Hlen in Hlen', Hacc'. exists (k + k')%nat.
    split; [nia|]. split; [lia|]. rewrite accepted_app. lia. }
  destruct (peerless_200 failure) as [reply|] eqn:Hreply.
  - destruct (Hres reply eq_refl) as [H200 Hno]. destruct bundle as [p|]; [apply Hstop; [done|]; split; [done|by right]|].
    destruct (if bool_decide _ then _ else _); [apply Hnext|by apply Hstop].
  - destruct (if bool_decide _ then _ else _); [apply Hnext|by apply Hstop].
Qed.
End SetupProofs.

(** C31: the search for the video peer ends.  Whatever the server answers and
    the clock shows, [setup_video] returns after at most four sweeps of at most
    eight requests, at most one of which per sweep the server accepts: a sweep
    stops at the first 200.  The forms tried are different and begin with the
    official one.  A peer that is returned was named by a reply with status
    200, or is the one of the bundle after a 200 that named none. *)
Theorem video_setup_ends (env : SetupEnv) (control target : list u8) (bundle_video_peer : option video_peer) :
  exists trace result,
    setup_video env control target bundle_video_peer = Ok (trace, result)
    /\ (length (requests trace) <= 4 * (2 * length (video_setup_candidates control target)) <= 32)%nat
    /\ (accepted_among env 0 (length (requests trace)) <= 4)%nat
    /\ NoDup (video_setup_candidates control target)
    /\ List.hd_error (video_setup_candidates control target) = Some (official_video_setup_control control)
    /\ match result with inr setup => setup_ok bundle_video_peer setup | inl _ => True end.
Proof.
  destruct (setup_candidates_few control target) as (Hn & Hl & Hhd). unfold setup_video, SETUP_PEER_RETRY_ROUNDS.
  destruct (setup_rounds_spec env (video_setup_candidates control target) 3 bundle_video_peer 4 0 false {| requests := []; looks := 0 |})
    as (trace & result & Hrun & (k & Hk & Hlen & Hacc) & Hres); try lia.
  cbn [requests length] in Hlen, Hacc. exists trace, result. split; [done|]. rewrite Hlen. split; [lia|]. by split_and!.
Qed.

(** ** Secrets *)
Lemma strip_prefix_app p : forall s rest t, strip_prefix p s = Some rest -> strip_prefix p (s ++ t) = Some (rest ++ t).
Proof.
  induction p as [|a p IH]; intros [|b s] rest t H; cbn in *; try done; [by injection H as <-..|].
  destruct (byte_eqb a b); [by apply IH|done].
Qed.
Lemma starts_with_app p s t : starts_with p s = true -> starts_with p (s ++ t) = true.
Proof. unfold starts_with. destruct (strip_prefix p s) as [rest|] eqn:E; [|done]. by rewrite (strip_prefix_app p s rest t). Qed.
Lemma has_sub_app p s t : has_sub p s = true -> has_sub p (s ++ t) = true.
Proof.
  unfold has_sub. induction s as [|b s IH]; intros H.
  - cbn [find_sub] in H. destruct (starts_with p []) eqn:E; [|done]. pose proof (starts_with_app p [] t E) as Ht. cbn [app] in *.
    destruct t; cbn [find_sub]; by rewrite Ht.
  - cbn [app find_sub] in *. destruct (starts_with p (b :: s)) eqn:E.
    + change (b :: s ++ t) with ((b :: s) ++ t). by rewrite (starts_with_app p (b :: s) t E).
    + destruct (starts_with p (b :: s ++ t)); [done|]. destruct (find_sub p s); [|done].
      specialize (IH eq_refl). by destruct (find_sub p (s ++ t)).
Qed.
Lemma is_secret_app name value : is_secret name = true -> is_secret (name ++ value) = true.
Proof.
  unfold is_secret. rewrite !existsb_exists. intros (key & Hin & Hk). exists key. split; [done|].
  unfold to_ascii_lowercase in *. rewrite map_app. by apply has_sub_app.
Qed.
Lemma find_byte_skip test s c t : forallb (fun b => negb (test b)) s = true -> test c = true -> find_byte test (s ++ c :: t) = Some (length s).
Proof.
  induction s as [|b s IH]; intros Hs Hc; cbn [app find_byte length]; [by rewrite Hc|]. cbn [forallb] in Hs. apply andb_true_iff in Hs as [Hb Hs].
  apply negb_true_iff in Hb. rewrite Hb, IH by done. done.
Qed.
Lemma redact_secret name value : is_secret name = true -> forallb (fun b => negb (byte_eqb COLON b)) name = true ->
  redact (name ++ COLON :: value) = name ++ str ":[redacted]".
Proof.
  intros Hs Hn. unfold redact. rewrite is_secret_app by done. rewrite find_byte_skip by done. by rewrite take_app_length.
Qed.

(** Two lines that differ at most in the value of a secret attribute. *)
Inductive same_but_secret : list u8 -> list u8 -> Prop :=
  | SamePublic line : same_but_secret line line
  | SameName name value value' : is_secret name = true -> forallb (fun b => negb (byte_eqb COLON b)) name = true ->
      same_but_secret (name ++ COLON :: value) (name ++ COLON :: value').

(** Secrets stay out of the log.  Announcements that differ only in the
    values of their secret attributes (the ICE user name fragment and password,
    the fingerprint, the key and its id) are logged as the same text. *)
Theorem secrets_stay_out_of_the_log (body body' : list u8)
    (Hsame : Forall2 same_but_secret (split CRLF body) (split CRLF body')) :
  sanitize_announce_for_log body = sanitize_announce_for_log body'.
Proof.
  unfold sanitize_announce_for_log. f_equal. induction Hsame as [|line line' ls ls' Hline _ IH]; [done|]. cbn [map]. f_equal; [|done].
  destruct Hline as [line|name value value' Hs Hn]; [done|]. by rewrite !redact_secret.
Qed.

Lemma secrets_stay_out_of_the_log_witness :
  sanitize_announce_for_log (str "v=0" ++ CRLF ++ str "a=ice-pwd:secret one" ++ CRLF ++ str "m=video 9")
  = sanitize_announce_for_log (str "v=0" ++ CRLF ++ str "a=ice-pwd:another" ++ CRLF ++ str "m=video 9").
Proof.
  apply secrets_stay_out_of_the_log.
  constructor; [apply SamePublic|]. constructor; [|constructor; [apply SamePublic|constructor]].
  apply (SameName (str "a=ice-pwd") (str "secret one") (str "another")); reflexivity.
Defined.
