(* ===== verification/RtspFraming.v ===== *)
(** * Framing of RTSP replies

    The text of a reply, and that the client's request loop takes it off the
    stream whole however the socket cuts it. *)

From stdpp Require Import list strings.
From Stdlib Require Import String.
From S2P Require Import Prelude Text Str Control Reports Rtsp.

Record reply := {
  rp_version : list u8;
  rp_status : Z;
  rp_reason : list u8;
  rp_headers : list (list u8 * list u8);
  rp_body : list u8
}.
Definition status_line (r : reply) : list u8 := rp_version r ++ SPACE :: decimal_text (rp_status r) ++ SPACE :: rp_reason r.
Definition reply_headers (sequence : Z) (r : reply) : list (list u8 * list u8) :=
  (str "CSeq", decimal_text sequence) :: rp_headers r
  ++ match rp_body r with [] => [] | body => [(str "Content-Length", decimal_text (zlen body))] end.
Definition header_text (h : list u8 * list u8) : list u8 := h.1 ++ COLON :: SPACE :: h.2.
Definition reply_lines (sequence : Z) (r : reply) : list (list u8) := status_line r :: map header_text (reply_headers sequence r).
Definition block (ls : list (list u8)) : list u8 := concat (map (fun l => l ++ CRLF) ls).
Definition encode_reply (sequence : Z) (r : reply) : list u8 := block (reply_lines sequence r) ++ CRLF ++ rp_body r.
(** What the client makes of it. *)
Definition reply_response (sequence : Z) (r : reply) : RtspResponse := {|
  status := rp_status r; status_text := trim (rp_reason r);
  headers := foldl (fun hs h => header_insert (to_ascii_lowercase (trim h.1)) (trim (SPACE :: h.2)) hs) [] (reply_headers sequence r);
  body := rp_body r |}.

Definition no_eol (s : list u8) : Prop := Forall (fun b => is_line_end b = false) s.
Definition without (c : u8) (s : list u8) : Prop := Forall (fun b => byte_eqb c b = false) s.
Record reply_ok (r : reply) : Prop := {
  rk_version : rp_version r <> [] /\ no_eol (rp_version r) /\ without SPACE (rp_version r) /\ without COLON (rp_version r);
  rk_status : 0 <= rp_status r <= U16_MAX;
  rk_reason : no_eol (rp_reason r);
  rk_headers : Forall (fun h => no_eol h.1 /\ without COLON h.1 /\ no_eol h.2
    /\ eq_ignore_ascii_case h.1 (str "content-length") = false /\ to_ascii_lowercase (trim h.1) <> str "cseq") (rp_headers r);
  rk_body : zlen (rp_body r) <= MAX_REQUEST_RESPONSE_BYTES
}.

(** ** Searching *)
Lemma byte_eqb_refl b : byte_eqb b b = true.
Proof. by destruct b. Qed.
Lemma byte_eqb_true a b : byte_eqb a b = true -> a = b.
Proof. apply Byte.byte_dec_bl. Qed.


Lemma find_sub_bound p s i : find_sub p s = Some i -> (i + length p <= length s)%nat.
Proof.
  revert i. induction s as [|b s IH]; intros i H; cbn [find_sub] in H.
  - destruct (starts_with p []) eqn:E; [|done]. injection H as <-. unfold starts_with in E. destruct p; [cbn; lia|done].
  - destruct (starts_with p (b :: s)) eqn:E.
    + injection H as <-. unfold starts_with in E. destruct (strip_prefix p (b :: s)) as [rest|] eqn:Hs; [|done]. clear E IH.
      revert s b rest Hs. induction p as [|a p IHp]; intros s b rest Hs; [cbn; lia|]. cbn in Hs. destruct (byte_eqb a b); [|done].
      destruct s as [|c s]; [destruct p; [cbn; lia|done]|]. specialize (IHp s c rest Hs). cbn in *. lia.
    + destruct (find_sub p s) as [j|] eqn:Hj; [|done]. cbn in H. injection H as <-. specialize (IH j eq_refl). cbn [length]. lia.
Qed.
Lemma starts_with_long p : forall s t, (length p <= length s)%nat -> starts_with p (s ++ t) = starts_with p s.
Proof.
  unfold starts_with. induction p as [|a p IH]; intros [|b s] t H; cbn in *; try done; [lia|]. destruct (byte_eqb a b); [|done]. apply IH. lia.
Qed.
Lemma find_sub_app p s : forall t i, find_sub p s = Some i -> find_sub p (s ++ t) = Some i.
Proof.
  induction s as [|b s IH]; intros t i H; pose proof (find_sub_bound _ _ _ H) as Hb.
  - destruct p as [|a p]; [|cbn in Hb; lia]. cbn in H. injection H as <-. by destruct t.
  - cbn [app find_sub] in *. change (b :: s ++ t) with ((b :: s) ++ t). rewrite starts_with_long by (destruct i; lia).
    destruct (starts_with p (b :: s)); [done|]. destruct (find_sub p s) as [j|]; [|done]. by rewrite (IH t j).
Qed.
(** A prefix too short for the first occurrence has none. *)
Lemma find_sub_short p s t i : find_sub p (s ++ t) = Some i -> (length s < i + length p)%nat -> find_sub p s = None.
Proof.
  intros H Hlen. destruct (find_sub p s) as [j|] eqn:E; [|done]. pose proof (find_sub_bound _ _ _ E). apply (find_sub_app _ _ t) in E.
  rewrite E in H. injection H as ->. lia.
Qed.
Lemma find_sub_none_prefix p s t : find_sub p (s ++ t) = None -> find_sub p s = None.
Proof. intros H. destruct (find_sub p s) as [j|] eqn:E; [|done]. by rewrite (find_sub_app _ _ t _ E) in H. Qed.

Definition eol_start (p : list u8) : Prop := match p with b :: _ => is_line_end b = true | [] => False end.
Lemma is_line_end_eqb a b : is_line_end a = true -> is_line_end b = false -> byte_eqb a b = false.
Proof. intros Ha Hb. destruct (byte_eqb a b) eqn:E; [|done]. apply byte_eqb_true in E as ->. congruence. Qed.
Lemma find_sub_line p l s : eol_start p -> no_eol l -> find_sub p (l ++ s) = (fun i => (length l + i)%nat) <$> find_sub p s.
Proof.
  intros Hp Hl. induction Hl as [|b l Hb _ IH]; [cbn; by destruct (find_sub p s)|]. destruct p as [|a p]; [done|]. cbn in Hp.
  cbn [app find_sub]. unfold starts_with at 1. cbn [strip_prefix]. rewrite (is_line_end_eqb a b Hp Hb), IH. by destruct (find_sub (a :: p) s).
Qed.
Lemma crlf_starts s : starts_with (CRLF ++ CRLF) (CRLF ++ CRLF ++ s) = true.
Proof. done. Qed.

Definition line_ok (l : list u8) : Prop := l <> [] /\ no_eol l.
Lemma find_after_crlf p b s : p = CRLF ++ CRLF \/ p = [LF; LF] -> is_line_end b = false ->
  find_sub p (CR :: LF :: b :: s) = (fun i => (2 + i)%nat) <$> find_sub p (b :: s).
Proof.
  intros Hp Hb. assert (H1 : starts_with p (CR :: LF :: b :: s) = false).
  { unfold starts_with. destruct Hp as [-> | ->]; cbn [CRLF app strip_prefix]; rewrite ?byte_eqb_refl; [|done].
    by rewrite (is_line_end_eqb CR b eq_refl Hb). }
  assert (H2 : starts_with p (LF :: b :: s) = false).
  { unfold starts_with. destruct Hp as [-> | ->]; cbn [CRLF app strip_prefix]; rewrite ?byte_eqb_refl; [done|].
    by rewrite (is_line_end_eqb LF b eq_refl Hb). }
  cbn [find_sub]. rewrite H1, H2. destruct (starts_with p (b :: s)); [done|]. by destruct (find_sub p s).
Qed.
Lemma block_cons l ls s : block (l :: ls) ++ s = l ++ CRLF ++ block ls ++ s.
Proof. unfold block. cbn [map concat]. by rewrite <- !app_assoc. Qed.
Lemma block_length l ls : length (block (l :: ls)) = (length l + 2 + length (block ls))%nat.
Proof. unfold block. cbn [map concat]. rewrite !length_app. cbn. lia. Qed.

Lemma find_blank ls rest : Forall line_ok ls -> ls <> [] ->
  find_sub (CRLF ++ CRLF) (block ls ++ CRLF ++ rest) = Some (length (block ls) - 2)%nat.
Proof.
  induction ls as [|l ls IH]; intros Hls Hne; [done|]. apply Forall_cons in Hls as [[Hl Hno] Hls].
  rewrite block_cons, block_length, find_sub_line by done. destruct ls as [|[|b l2] ls]; [|by apply Forall_cons in Hls as [[? _] _]|].
  - change (find_sub _ (CRLF ++ block [] ++ CRLF ++ rest)) with (Some 0%nat). cbn. f_equal. lia.
  - assert (Hb : is_line_end b = false) by (apply Forall_cons in Hls as [[_ Hb] _]; by apply Forall_cons in Hb as [? _]).
    specialize (IH Hls ltac:(done)). rewrite block_length in IH |- *. rewrite block_cons in IH |- *. cbn [app] in IH |- *.
    change (CRLF ++ b :: ?x) with (CR :: LF :: b :: x). rewrite find_after_crlf; [|by left|done]. rewrite IH. cbn [fmap option_fmap option_map length].
    f_equal. lia.
Qed.
Lemma find_double_lf ls : Forall line_ok ls -> find_sub [LF; LF] (block ls ++ CRLF) = None.
Proof.
  induction ls as [|l ls IH]; intros Hls; [done|]. apply Forall_cons in Hls as [[Hl Hno] Hls].
  rewrite block_cons, find_sub_line by done. destruct ls as [|[|b l2] ls]; [done|by apply Forall_cons in Hls as [[? _] _]|].
  assert (Hb : is_line_end b = false) by (apply Forall_cons in Hls as [[_ Hb] _]; by apply Forall_cons in Hb as [? _]).
  specialize (IH Hls). rewrite block_cons in IH |- *. cbn [app] in IH |- *.
  change (CRLF ++ b :: ?x) with (CR :: LF :: b :: x). rewrite find_after_crlf; [|by right|done]. by rewrite IH.
Qed.

(** ** Lines *)
Lemma split_lines_line l s : Forall (fun b => byte_eqb b LF = false) l -> split_lines (l ++ LF :: s) = (l, true) :: split_lines s.
Proof.
  induction 1 as [|b l Hb _ IH]; cbn [app split_lines]; [by rewrite byte_eqb_refl|]. by rewrite Hb, IH.
Qed.
Lemma split_lines_last l : Forall (fun b => byte_eqb b LF = false) l -> split_lines l = match l with [] => [] | _ => [(l, false)] end.
Proof.
  induction 1 as [|b l Hb _ IH]; cbn [split_lines]; [done|]. rewrite Hb, IH. by destruct l.
Qed.
Lemma no_eol_lf l : no_eol l -> Forall (fun b => byte_eqb b LF = false) l.
Proof.
  intros H. eapply Forall_impl; [exact H|]. cbn. intros b Hb. destruct (byte_eqb b LF) eqn:E; [|done]. apply byte_eqb_true in E as ->. done.
Qed.
Lemma strip_cr_cr l : strip_cr (l ++ [CR]) = l.
Proof. unfold strip_cr. rewrite rev_unit, byte_eqb_refl. apply rev_involutive. Qed.
Lemma lines_block ls s : Forall line_ok ls -> lines (block ls ++ s) = ls ++ lines s.
Proof.
  induction ls as [|l ls IH]; intros Hls; [done|]. apply Forall_cons in Hls as [[Hl Hno] Hls]. rewrite block_cons.
  unfold lines. change (CRLF ++ block ls ++ s) with ([CR] ++ LF :: (block ls ++ s)). rewrite app_assoc.
  rewrite split_lines_line by (apply Forall_app; split; [by apply no_eol_lf|by repeat constructor]). cbn [map]. rewrite strip_cr_cr.
  change (map _ (split_lines (block ls ++ s))) with (lines (block ls ++ s)). by rewrite IH.
Qed.
Lemma lines_header ls : Forall line_ok ls -> ls <> [] -> lines (take (length (block ls) - 2) (block ls)) = ls.
Proof.
  intros Hls Hne. destruct (exists_last Hne) as (init & l & ->). apply Forall_app in Hls as [Hinit Hl].
  apply Forall_cons in Hl as [[Hl Hno] _]. unfold block at 2. rewrite map_app, concat_app. cbn [map concat]. fold (block init). rewrite app_nil_r.
  assert (Hlen : (length (block (init ++ [l])) - 2)%nat = length (block init ++ l)).
  { unfold block. rewrite map_app, concat_app. cbn [map concat]. rewrite app_nil_r, !length_app. cbn [length CRLF]. lia. }
  rewrite Hlen, app_assoc, take_app_length. rewrite lines_block by done. f_equal. unfold lines.
  rewrite split_lines_last by by apply no_eol_lf. by destruct l.
Qed.

(** ** Numbers and white space *)
Definition starts_some (patterns : list (list u8)) (b : u8) : bool :=
  existsb (fun p => match p with a :: _ => byte_eqb a b | [] => true end) patterns.
Lemma strip_any_none patterns b s : starts_some patterns b = false -> strip_any patterns (b :: s) = None.
Proof.
  induction patterns as [|p patterns IH]; intros H; [done|]. cbn [starts_some existsb] in H. apply orb_false_iff in H as [Hp H].
  cbn [strip_any]. destruct p as [|a p]; [done|]. cbn [strip_prefix]. rewrite Hp. by apply IH.
Qed.
Lemma trim_with_stop patterns fuel b s : starts_some patterns b = false -> trim_with patterns fuel (b :: s) = b :: s.
Proof. intros H. destruct fuel; [done|]. cbn [trim_with]. by rewrite strip_any_none. Qed.
Lemma digit_not_white b : is_ascii_digit b = true ->
  starts_some WHITE_SPACE b = false /\ starts_some (map (@rev u8) WHITE_SPACE) b = false /\ is_line_end b = false
  /\ byte_eqb SPACE b = false /\ byte_eqb b Byte.x2b = false /\ is_cont b = false.
Proof. destruct b; intros H; first [discriminate H|vm_compute; repeat split]. Qed.

Lemma trim_digits s : Forall (fun b => is_ascii_digit b = true) s -> s <> [] -> trim s = s.
Proof.
  intros Hs Hne. unfold trim. assert (trim_start s = s) as ->.
  { destruct s as [|b s]; [done|]. apply Forall_cons in Hs as [Hb _]. by apply trim_with_stop, digit_not_white. }
  unfold trim_end. destruct (exists_last Hne) as (init & b & ->). apply Forall_app in Hs as [_ Hb]. apply Forall_cons in Hb as [Hb _].
  rewrite rev_unit, trim_with_stop by by apply digit_not_white. cbn [rev]. by rewrite rev_involutive.
Qed.
Lemma trim_space s : trim (SPACE :: s) = trim s.
Proof.
  reflexivity.
Qed.

Lemma to_digit_text d : 0 <= d < 10 -> to_digit 10 (z2b (0x30 + d)) = Some d /\ is_ascii_digit (z2b (0x30 + d)) = true.
Proof.
  intros Hd. assert (Hf : forallb (fun d => match to_digit 10 (z2b (0x30 + d)) with Some e => (e =? d) && is_ascii_digit (z2b (0x30 + d)) | None => false end) (zrange 10) = true)
    by (vm_compute; reflexivity).
  pose proof (range_check _ _ _ Hf Hd) as H. cbn beta in H. destruct (to_digit 10 (z2b (0x30 + d))) as [e|]; [|done].
  apply andb_true_iff in H as [He Hdig]. zbool. by subst.
Qed.
Lemma decimal_value fuel : forall value digits, 0 <= value < 10 ^ (Z.of_nat fuel + 1) ->
  digits_value 10 0 (decimal_loop fuel value digits) = digits_value 10 value digits.
Proof.
  induction fuel as [|fuel IH]; intros value digits Hv; cbn [decimal_loop]; assert (Hm : 0 <= value mod 10 < 10) by (apply Z.mod_pos_bound; lia);
    destruct (to_digit_text _ Hm) as [Hd _].
  - change (10 ^ (Z.of_nat 0 + 1)) with 10 in Hv. cbn [digits_value]. rewrite Hd. cbn [mbind option_bind]. f_equal. rewrite Z.mod_small; lia.
  - destruct (Z.ltb_spec value 10).
    + cbn [digits_value]. rewrite Hd. cbn [mbind option_bind]. f_equal. rewrite Z.mod_small; lia.
    + rewrite IH.
      * cbn [digits_value]. rewrite Hd. cbn [mbind option_bind]. f_equal. pose proof (Z.div_mod value 10). lia.
      * replace (Z.of_nat (S fuel) + 1) with (Z.succ (Z.of_nat fuel + 1)) in Hv by lia. rewrite Z.pow_succ_r in Hv by lia. split; [apply Z.div_pos; lia|]. apply Z.div_lt_upper_bound; lia.
Qed.
Lemma decimal_digits fuel : forall value digits, 0 <= value -> Forall (fun b => is_ascii_digit b = true) digits ->
  Forall (fun b => is_ascii_digit b = true) (decimal_loop fuel value digits) /\ decimal_loop fuel value digits <> [].
Proof.
  induction fuel as [|fuel IH]; intros value digits Hv Hd; cbn [decimal_loop]; assert (Hm : 0 <= value mod 10 < 10) by (apply Z.mod_pos_bound; lia);
    destruct (to_digit_text _ Hm) as [_ Hdig]; [split; [by constructor|done]|].
  destruct (value <? 10); [split; [by constructor|done]|]. apply IH; [by apply Z.div_pos|by constructor].
Qed.
Lemma decimal_text_digits value : 0 <= value -> Forall (fun b => is_ascii_digit b = true) (decimal_text value) /\ decimal_text value <> [].
Proof. intros H. by apply decimal_digits. Qed.
Lemma parse_decimal max value : 0 <= value <= max -> value <= U64_MAX -> parse_unsigned 10 max (decimal_text value) = Some value.
Proof.
  intros Hv Hmax. destruct (decimal_text_digits value) as [Hd Hne]; [lia|]. unfold parse_unsigned.
  assert (Hval : digits_value 10 0 (decimal_text value) = Some value).
  { unfold decimal_text. rewrite decimal_value; [done|]. unfold U64_MAX in Hmax. change (10 ^ (Z.of_nat 19 + 1)) with 100000000000000000000. lia. }
  destruct (decimal_text value) as [|b s]; [done|]. apply Forall_cons in Hd as [Hb _].
  destruct (digit_not_white b Hb) as (_ & _ & _ & _ & -> & _). rewrite Hval. cbn [mbind option_bind]. by rewrite (proj2 (Z.leb_le _ _)) by lia.
Qed.
Lemma digits_no_eol s : Forall (fun b => is_ascii_digit b = true) s -> no_eol s /\ without SPACE s.
Proof. intros H. split; eapply Forall_impl; try exact H; cbn beta; intros b Hb; by destruct (digit_not_white b Hb) as (_ & _ & ? & ? & _). Qed.

(** ** The head of a reply *)
Lemma split_once_at c s t : without c s -> split_once c (s ++ c :: t) = Some (s, t).
Proof.
  intros Hs. unfold split_once, split_once_by.
  rewrite find_byte_skip; [cbn; by rewrite take_app_length, (drop_app_ge s) by lia; replace (S (length s) - length s)%nat with 1%nat by lia|
    |apply byte_eqb_refl].
  apply forallb_forall. intros b Hb. unfold without in Hs. rewrite List.Forall_forall in Hs. by rewrite (Hs b Hb).
Qed.

Lemma header_line_ok h : no_eol h.1 -> no_eol h.2 -> line_ok (header_text h).
Proof. intros H1 H2. split; [by destruct h as [[|]]|]. apply Forall_app. split; [done|]. by repeat constructor. Qed.
Lemma content_length_headers (r : reply) :
  match rp_body r with [] => [] | body => [(str "Content-Length", decimal_text (zlen body))] end
  = match rp_body r with [] => [] | _ :: _ => [(str "Content-Length", decimal_text (zlen (rp_body r)))] end.
Proof. by destruct (rp_body r). Qed.

Lemma reply_headers_ok sequence r : 0 <= sequence -> reply_ok r ->
  Forall (fun h => no_eol h.1 /\ without COLON h.1 /\ no_eol h.2) (reply_headers sequence r).
Proof.
  intros Hs Hok. unfold reply_headers. constructor.
  - cbn [fst snd]. split; [by repeat constructor|]. split; [by repeat constructor|]. by apply digits_no_eol, decimal_text_digits.
  - apply Forall_app. split.
    + eapply Forall_impl; [apply (rk_headers _ Hok)|]. cbn. intros h (H1 & H2 & H3 & _). done.
    + rewrite content_length_headers. destruct (rp_body r) as [|b body]; [constructor|]. constructor; [|constructor]. cbn [fst snd].
      split; [by repeat constructor|]. split; [by repeat constructor|]. apply digits_no_eol, decimal_text_digits. apply zlen_nonneg.
Qed.
Lemma status_line_ok r : reply_ok r -> line_ok (status_line r).
Proof.
  intros [(H1 & H2 & _) H3 H4 _ _]. split; [unfold status_line; by destruct (rp_version r)|].
  apply Forall_app. split; [done|]. constructor; [done|]. apply Forall_app. split; [|by constructor].
  apply (digits_no_eol (decimal_text (rp_status r))), decimal_text_digits. lia.
Qed.
Lemma reply_lines_ok sequence r : 0 <= sequence -> reply_ok r -> Forall line_ok (reply_lines sequence r).
Proof.
  intros Hs Hok. constructor; [by apply status_line_ok|]. apply Forall_fmap. eapply Forall_impl; [by apply reply_headers_ok|].
  cbn. intros h (H1 & _ & H3). by apply header_line_ok.
Qed.

Lemma add_header_text hs h : without COLON h.1 ->
  add_header hs (header_text h) = header_insert (to_ascii_lowercase (trim h.1)) (trim (SPACE :: h.2)) hs.
Proof. intros H. unfold add_header, header_text. by rewrite split_once_at. Qed.
Lemma fold_headers l : forall hs, Forall (fun h => without COLON h.1) l ->
  foldl add_header hs (map header_text l)
  = foldl (fun hs h => header_insert (to_ascii_lowercase (trim h.1)) (trim (SPACE :: h.2)) hs) hs l.
Proof.
  induction l as [|h l IH]; intros hs H; [done|]. apply Forall_cons in H as [Hh H]. cbn [map foldl]. by rewrite add_header_text, IH.
Qed.

Lemma header_get_insert name value hs : header_get name (header_insert name value hs) = Some value.
Proof. cbn. by rewrite bool_decide_eq_true_2. Qed.
Lemma header_get_filter n name hs : n <> name ->
  header_get name (List.filter (fun h : list u8 * list u8 => negb (bool_decide (h.1 = n))) hs) = header_get name hs.
Proof.
  intros Hne. induction hs as [|[m v] hs IH]; [done|]. cbn [List.filter fst header_get]. case_bool_decide as E; cbn [negb].
  - rewrite IH, bool_decide_eq_false_2 by congruence. done.
  - cbn [header_get]. by rewrite IH.
Qed.
Lemma header_get_insert_other n name value hs : n <> name -> header_get name (header_insert n value hs) = header_get name hs.
Proof. intros Hne. unfold header_insert. cbn [header_get]. rewrite bool_decide_eq_false_2 by done. by apply header_get_filter. Qed.
Lemma fold_headers_get name l : forall hs, Forall (fun h : list u8 * list u8 => to_ascii_lowercase (trim h.1) <> name) l ->
  header_get name (foldl (fun hs h => header_insert (to_ascii_lowercase (trim h.1)) (trim (SPACE :: h.2)) hs) hs l) = header_get name hs.
Proof.
  induction l as [|h l IH]; intros hs H; [done|]. apply Forall_cons in H as [Hh H]. cbn [foldl]. rewrite IH by done. by apply header_get_insert_other.
Qed.
Lemma reply_cseq sequence r : 0 <= sequence <= U64_MAX -> reply_ok r ->
  sequence_matches (headers (reply_response sequence r)) sequence = true.
Proof.
  intros Hs Hok. unfold sequence_matches, reply_response. cbn [headers]. unfold reply_headers. cbn [foldl fst snd].
  change (to_ascii_lowercase (trim (str "CSeq"))) with (str "cseq"). rewrite fold_headers_get.
  - destruct (decimal_text_digits sequence) as [Hd Hn]; [lia|].
    rewrite header_get_insert, trim_space, trim_digits by done. rewrite parse_decimal by lia. by apply bool_decide_eq_true_2.
  - apply Forall_app. split.
    + eapply Forall_impl; [apply (rk_headers _ Hok)|]. cbn. by intros h (_ & _ & _ & _ & H).
    + rewrite content_length_headers. destruct (rp_body r); repeat constructor. discriminate.
Qed.

Lemma content_length_line_other h : without COLON h.1 -> eq_ignore_ascii_case h.1 (str "content-length") = false ->
  content_length_line (header_text h) = None.
Proof. intros H1 H2. unfold content_length_line, header_text. rewrite split_once_at by done. cbn [mbind option_bind]. by rewrite H2. Qed.
Lemma find_map_none {A B} (f : A -> option B) l : Forall (fun a => f a = None) l -> forall l2, find_map f (l ++ l2) = find_map f l2.
Proof. induction 1 as [|a l Ha _ IH]; intros l2; [done|]. cbn. by rewrite Ha. Qed.
Lemma content_length_status r : reply_ok r -> content_length_line (status_line r) = None.
Proof.
  intros Hok. destruct (rk_version _ Hok) as (_ & _ & _ & Hcolon). unfold content_length_line.
  destruct (split_once COLON (status_line r)) as [[name value]|] eqn:E; [|done]. cbn [mbind option_bind].
  assert (Hin : SPACE ∈ name).
  { revert E. unfold split_once, split_once_by, status_line. clear Hok. generalize (rp_version r) Hcolon. intros v Hv.
    assert (Hskip : forall i, find_byte (byte_eqb COLON) (v ++ SPACE :: decimal_text (rp_status r) ++ SPACE :: rp_reason r) = Some i -> (length v < i)%nat).
    { clear name value. induction Hv as [|b v Hb _ IH]; intros i; cbn [app find_byte].
      - change (byte_eqb COLON SPACE) with false. destruct (find_byte _ _); cbn; [intros [= <-]; lia|done].
      - rewrite Hb. destruct (find_byte _ _) as [j|]; cbn; [|done]. intros [= <-]. specialize (IH j eq_refl). lia. }
    destruct (find_byte _ _) as [i|]; [|done]. specialize (Hskip i eq_refl). cbn. intros [= <- _].
    rewrite take_app_ge by lia. apply elem_of_app. right. destruct (i - length v)%nat eqn:Hi; [lia|]. cbn. apply elem_of_cons. by left. }
  unfold eq_ignore_ascii_case. rewrite bool_decide_eq_false_2; [done|]. intros Heq.
  apply list_elem_of_split in Hin as (l1 & l2 & ->). unfold to_ascii_lowercase in Heq at 1. rewrite map_app in Heq. cbn [map] in Heq.
  assert (Hsp : SPACE ∈ to_ascii_lowercase (str "content-length")).
  { rewrite <- Heq. apply elem_of_app. right. apply elem_of_cons. by left. }
  revert Hsp. apply (bool_decide_unpack (SPACE ∉ to_ascii_lowercase (str "content-length"))). by vm_compute.
Qed.

(** ** Taking a reply off the buffer *)
Definition padding (pad : list u8) : Prop := Forall (fun b => is_line_end b = true) pad.
Lemma drop_padding_spec pad b s : padding pad -> is_line_end b = false -> drop_padding (pad ++ b :: s) = b :: s.
Proof.
  intros Hp Hb. unfold drop_padding. rewrite find_byte_skip; [cbn; by rewrite drop_app_length| |by rewrite Hb].
  apply forallb_forall. intros a Ha. unfold padding in Hp. rewrite List.Forall_forall in Hp. by rewrite (Hp a Ha).
Qed.
Lemma drop_padding_all pad : padding pad -> drop_padding pad = [].
Proof.
  intros Hp. unfold drop_padding. assert (find_byte (fun b => negb (is_line_end b)) pad = None) as ->; [|cbn; apply skipn_all].
  induction Hp as [|b pad Hb _ IH]; [done|]. cbn [find_byte]. rewrite Hb. cbn [negb]. by rewrite IH.
Qed.
Lemma encode_starts sequence r : reply_ok r -> exists b s, encode_reply sequence r = b :: s /\ is_line_end b = false.
Proof.
  intros Hok. destruct (rk_version _ Hok) as (Hne & Hno & _). unfold encode_reply, reply_lines. rewrite block_cons. unfold status_line.
  destruct (rp_version r) as [|b v]; [done|]. apply Forall_cons in Hno as [Hb _]. by eexists b, _.
Qed.

Definition head_length (sequence : Z) (r : reply) : nat := length (block (reply_lines sequence r)).
Lemma head_long sequence r : (2 <= head_length sequence r)%nat.
Proof. unfold head_length, reply_lines. rewrite block_length. lia. Qed.
Lemma encode_length sequence r : length (encode_reply sequence r) = (head_length sequence r + 2 + length (rp_body r))%nat.
Proof. unfold encode_reply, head_length. rewrite !length_app. cbn. lia. Qed.

(** The head is found once it is there, and not before. *)
Lemma header_end_complete sequence r rest : 0 <= sequence -> reply_ok r ->
  header_end (block (reply_lines sequence r) ++ CRLF ++ rest) = Some (head_length sequence r - 2)%nat.
Proof. intros Hs Hok. unfold header_end. by rewrite find_blank by (try done; by apply reply_lines_ok). Qed.
Lemma header_end_incomplete sequence r p q : 0 <= sequence -> reply_ok r ->
  block (reply_lines sequence r) ++ CRLF = p ++ q -> q <> [] -> header_end p = None.
Proof.
  intros Hs Hok Heq Hq. pose proof (reply_lines_ok sequence r Hs Hok) as Hls. unfold header_end.
  assert (Hlen : (length p < head_length sequence r + 2)%nat).
  { apply (f_equal length) in Heq. rewrite !length_app in Heq. cbn [length CRLF] in Heq. unfold head_length. destruct q; [done|]. cbn [length] in Heq. lia. }
  rewrite (find_sub_short _ p q (head_length sequence r - 2)).
  - apply (find_sub_none_prefix _ p q). rewrite <- Heq. by apply find_double_lf.
  - rewrite <- Heq. pose proof (find_blank _ [] Hls ltac:(done)) as H. by rewrite app_nil_r in H.
  - pose proof (head_long sequence r). cbn [length app CRLF]. lia.
Qed.
Lemma take_head sequence r rest :
  take (head_length sequence r - 2) (block (reply_lines sequence r) ++ rest) = take (head_length sequence r - 2) (block (reply_lines sequence r)).
Proof. apply take_app_le. unfold head_length. lia. Qed.

Lemma reply_content_length sequence r : 0 <= sequence -> reply_ok r ->
  default 0 (find_map content_length_line (reply_lines sequence r)) = zlen (rp_body r).
Proof.
  intros Hs Hok. unfold reply_lines, reply_headers. cbn [find_map map]. rewrite content_length_status by done.
  rewrite content_length_line_other by (by repeat constructor). rewrite map_app, find_map_none.
  - rewrite content_length_headers. destruct (rp_body r) as [|b body] eqn:Hb; [done|]. rewrite <- Hb. cbn [map find_map].
    unfold content_length_line, header_text. cbn [fst snd]. rewrite split_once_at by (by repeat constructor). cbn [mbind option_bind].
    change (eq_ignore_ascii_case (str "Content-Length") (str "content-length")) with true. cbv iota. pose proof (rk_body _ Hok) as Hlen.
    pose proof (zlen_nonneg (rp_body r)). destruct (decimal_text_digits (zlen (rp_body r))) as [Hd Hn]; [lia|].
    rewrite trim_space, trim_digits by done. unfold MAX_REQUEST_RESPONSE_BYTES, U64_MAX in *. rewrite parse_decimal; [done|unfold U64_MAX; lia..].
  - apply Forall_fmap. eapply Forall_impl; [apply (rk_headers _ Hok)|]. cbn. intros h (_ & H1 & _ & H2 & _). by apply content_length_line_other.
Qed.

Lemma parse_encoded sequence r : 0 <= sequence <= U64_MAX -> reply_ok r ->
  parse_reply (block (reply_lines sequence r) ++ CRLF) (rp_body r) sequence = inr (reply_response sequence r).
Proof.
  intros Hs Hok. unfold parse_reply. pose proof (reply_lines_ok sequence r ltac:(lia) Hok) as Hls. rewrite lines_block by done.
  change (lines CRLF) with [@nil u8]. unfold reply_lines in *. cbn [app List.hd_error default List.tl].
  change (id (status_line r)) with (status_line r).
  destruct (rk_version _ Hok) as (_ & _ & Hspace & _). pose proof (rk_status _ Hok) as Hstatus.
  destruct (decimal_text_digits (rp_status r)) as [Hd _]; [lia|].
  assert (Hparts : status_parts (status_line r) = (Some (decimal_text (rp_status r)), Some (rp_reason r))).
  { unfold status_parts, status_line. rewrite split_once_at by done. cbv iota beta. rewrite split_once_at; [done|].
    by apply (digits_no_eol (decimal_text (rp_status r))). }
  rewrite Hparts. cbv iota beta. cbn [mbind option_bind]. rewrite parse_decimal by (unfold U16_MAX, U64_MAX in *; lia). cbn [default].
  rewrite foldl_app. cbn [foldl]. change (add_header ?hs []) with hs.
  rewrite fold_headers.
  2: { eapply Forall_impl; [apply reply_headers_ok; [lia|done]|]. cbn. by intros h (_ & ? & _). }
  pose proof (reply_cseq sequence r Hs Hok) as Hseq. unfold reply_response in Hseq. cbn [headers] in Hseq. rewrite Hseq. done.
Qed.

Lemma head_separator sequence r rest :
  starts_with (CRLF ++ CRLF) (drop (head_length sequence r - 2) (block (reply_lines sequence r) ++ CRLF ++ rest)) = true.
Proof.
  unfold head_length. destruct (exists_last (l := reply_lines sequence r) ltac:(done)) as (init & l & ->).
  unfold block. rewrite map_app, concat_app. cbn [map concat]. rewrite app_nil_r.
  set (pre := concat (map _ init)).
  assert (length (pre ++ l ++ CRLF) - 2 = length (pre ++ l))%nat as -> by (rewrite !length_app; cbn; lia).
  rewrite <- !app_assoc, (app_assoc pre l), drop_app_length. apply crlf_starts.
Qed.
(** What is read of a head that is there. *)
Lemma head_lines sequence r rest : 0 <= sequence -> reply_ok r ->
  lines (take (head_length sequence r - 2) (block (reply_lines sequence r) ++ rest)) = reply_lines sequence r.
Proof. intros Hs Hok. rewrite take_head. apply lines_header; [by apply reply_lines_ok|done]. Qed.
Lemma head_total sequence r :
  Z.of_nat (head_length sequence r - 2) + 4 + zlen (rp_body r) = zlen (encode_reply sequence r).
Proof. unfold zlen. rewrite encode_length. pose proof (head_long sequence r). lia. Qed.

Lemma take_complete sequence r pad rest : 0 <= sequence <= U64_MAX -> reply_ok r -> padding pad ->
  zlen (encode_reply sequence r) <= MAX_REQUEST_RESPONSE_BYTES ->
  match rest with b :: _ => is_cont b = false | [] => True end ->
  take_rtsp_response (pad ++ encode_reply sequence r ++ rest) sequence = (rest, inr (Some (reply_response sequence r))).
Proof.
  intros Hs Hok Hpad Hmax Hrest. unfold take_rtsp_response. destruct (encode_starts sequence r Hok) as (b & s & Hb & Hbe).
  assert (drop_padding (pad ++ encode_reply sequence r ++ rest) = encode_reply sequence r ++ rest) as ->.
  { rewrite Hb. by apply drop_padding_spec. }
  pose proof (head_long sequence r) as Hlong. pose proof (encode_length sequence r) as Hlen.
  unfold encode_reply at 1. rewrite <- !app_assoc, header_end_complete by (lia || done).
  assert (Hbuf : encode_reply sequence r ++ rest = block (reply_lines sequence r) ++ CRLF ++ rp_body r ++ rest) by (unfold encode_reply; by rewrite <- !app_assoc).
  rewrite Hbuf, head_separator, head_lines, reply_content_length, head_total, <- Hbuf by (lia || done).
  pose proof (zlen_nonneg (encode_reply sequence r)) as Hnn.
  rewrite (proj2 (Z.ltb_ge U64_MAX _)) by (unfold MAX_REQUEST_RESPONSE_BYTES, U64_MAX in *; lia).
  rewrite (proj2 (Z.ltb_ge MAX_REQUEST_RESPONSE_BYTES _)) by exact Hmax. cbn [orb].
  rewrite (proj2 (Z.ltb_ge (zlen (_ ++ rest)) _)) by (rewrite zlen_app; pose proof (zlen_nonneg rest); lia).
  assert (Hboundary : is_char_boundary (encode_reply sequence r ++ rest) (zlen (encode_reply sequence r)) = true).
  { unfold is_char_boundary. apply orb_true_iff. right. destruct rest as [|c rest].
    - rewrite app_nil_r. destruct (zget _ _) eqn:E; [apply zget_lt in E; lia|apply Z.eqb_refl].
    - rewrite zget_at. cbn [head]. by rewrite Hrest. }
  rewrite Hboundary. cbn [negb]. unfold zlen. rewrite Nat2Z.id, take_app_length, drop_app_length. f_equal.
  unfold encode_reply. rewrite app_assoc.
  assert (Hsplit : (head_length sequence r - 2 + Z.to_nat 4)%nat = length (block (reply_lines sequence r) ++ CRLF)).
  { rewrite length_app. unfold head_length in *. change (Z.to_nat 4) with 4%nat. change (length CRLF) with 2%nat. lia. }
  rewrite Hsplit, take_app_length, drop_app_length. by rewrite parse_encoded.
Qed.

Lemma body_incomplete sequence r p q : 0 <= sequence -> reply_ok r -> q <> [] ->
  zlen (encode_reply sequence r) <= MAX_REQUEST_RESPONSE_BYTES -> rp_body r = p ++ q ->
  take_rtsp_response (block (reply_lines sequence r) ++ CRLF ++ p) sequence
  = (drop_padding (block (reply_lines sequence r) ++ CRLF ++ p), inr None)
  /\ drop_padding (block (reply_lines sequence r) ++ CRLF ++ p) = block (reply_lines sequence r) ++ CRLF ++ p.
Proof.
  intros Hs Hok Hq Hmax Hbody. set (B := block _ ++ CRLF ++ p). assert (Hpad : drop_padding B = B).
  { destruct (encode_starts sequence r Hok) as (b & s & Hb & Hbe). assert (exists s', B = b :: s') as [s' ->].
    { unfold B. unfold encode_reply, reply_lines in *. rewrite block_cons in Hb |- *. unfold status_line in *.
      destruct (rk_version _ Hok) as (Hne & _). destruct (rp_version r) as [|c v]; [done|]. cbn [app] in Hb |- *. injection Hb as -> _. by eexists. }
    by apply (drop_padding_spec [] b s'); [constructor|]. }
  split; [|done]. unfold take_rtsp_response. rewrite Hpad. unfold B.
  rewrite header_end_complete, head_separator, head_lines, reply_content_length, head_total by done.
  pose proof (head_total sequence r) as Htotal. rewrite Hbody, zlen_app in Htotal.
  assert (Hq0 : 0 < zlen q) by (destruct q; [done|unfold zlen; cbn [length]; lia]).
  rewrite (proj2 (Z.ltb_ge U64_MAX _)) by (unfold MAX_REQUEST_RESPONSE_BYTES, U64_MAX in *; lia).
  rewrite (proj2 (Z.ltb_ge MAX_REQUEST_RESPONSE_BYTES _)) by lia. cbn [orb].
  rewrite (proj2 (Z.ltb_lt (zlen (_ ++ CRLF ++ p)) _)); [done|].
  pose proof (head_long sequence r). rewrite !zlen_app. fold (head_length sequence r). change (zlen CRLF) with 2.
  unfold zlen at 1. fold (head_length sequence r). lia.
Qed.

Lemma app_split {A} (a b c d : list A) : a ++ b = c ++ d ->
  (exists m, a = c ++ m /\ d = m ++ b) \/ (exists m, c = a ++ m /\ b = m ++ d).
Proof. intros H. apply app_eq_app in H as (m & [[-> ->]|[-> ->]]); [left|right]; by exists m. Qed.

(** A reply that is not all there stays in the buffer. *)
Lemma take_incomplete sequence r pad p q : 0 <= sequence -> reply_ok r -> padding pad -> q <> [] ->
  zlen (encode_reply sequence r) <= MAX_REQUEST_RESPONSE_BYTES -> pad ++ encode_reply sequence r = p ++ q ->
  exists pad', padding pad' /\ take_rtsp_response p sequence = (drop_padding p, inr None)
    /\ drop_padding p ++ q = pad' ++ encode_reply sequence r.
Proof.
  intros Hs Hok Hpad Hq Hmax Heq. destruct (app_split _ _ _ _ Heq) as [(m & -> & ->)|(m & -> & Henc)].
  - apply Forall_app in Hpad as [Hp Hm]. exists m. split; [done|]. unfold take_rtsp_response. rewrite drop_padding_all by done. done.
  - exists []. split; [constructor|]. cbn [app]. destruct m as [|b m].
    { rewrite app_nil_r. unfold take_rtsp_response. rewrite drop_padding_all by done. done. }
    destruct (encode_starts sequence r Hok) as (b' & s & Hb & Hbe). assert (b' = b) as -> by (rewrite Hb in Henc; by injection Henc as -> _).
    rewrite (drop_padding_spec pad b m) by done. split; [|done].
    assert (Htake : take_rtsp_response (pad ++ b :: m) sequence = take_rtsp_response (b :: m) sequence).
    { unfold take_rtsp_response. by rewrite drop_padding_spec, (drop_padding_spec [] b m (Forall_nil_2 _) Hbe : drop_padding (b :: m) = _). }
    rewrite Htake. unfold encode_reply in Henc. rewrite app_assoc in Henc.
    destruct (app_split _ _ _ _ Henc) as [(x & Hhead & ->)|(x & Hbm & Hbody)].
    + destruct x as [|c x].
      * rewrite app_nil_r in Hhead. rewrite <- Hhead. destruct (body_incomplete sequence r [] (rp_body r) Hs Hok Hq Hmax eq_refl) as [H1 H2].
        rewrite app_nil_r in *. rewrite H1. by rewrite H2.
      * unfold take_rtsp_response. rewrite (drop_padding_spec [] b m (Forall_nil_2 _) Hbe : drop_padding (b :: m) = _).
        by rewrite (header_end_incomplete sequence r (b :: m) (c :: x)).
    + destruct (body_incomplete sequence r x q Hs Hok Hq Hmax Hbody) as [H1 H2]. rewrite <- app_assoc in Hbm. rewrite Hbm, H1. by rewrite H2.
Qed.

(** ** The loop *)

(** The text an event brings; the events that do not end the request. *)
Definition text_of (event : SocketEvent) : list u8 := match event with TextFrame text => text | _ => [] end.
Definition goes_on (event : SocketEvent) : bool := match event with CloseFrame | SocketFailure => false | _ => true end.
Definition starts_char (s : list u8) : Prop := match s with b :: _ => is_cont b = false | [] => True end.

Lemma starts_char_prefix s t : starts_char (s ++ t) -> starts_char s.
Proof. by destruct s. Qed.
Lemma request_read_goes_on self event : goes_on event = true ->
  exists self', request_read self event = (self', None) /\ cseq self' = cseq self /\ buffer self' = buffer self ++ text_of event.
Proof. destruct event; intros H; try done; exists (with_buffer self (buffer self ++ text_of (TextFrame text))) || exists self; by rewrite ?app_nil_r. Qed.

(** A turn that finds the reply, and one that does not. *)
Lemma turn_complete teardown self pad r rest : 0 <= cseq self <= U64_MAX -> reply_ok r -> padding pad ->
  zlen (encode_reply (cseq self) r) <= MAX_REQUEST_RESPONSE_BYTES -> starts_char rest ->
  buffer self = pad ++ encode_reply (cseq self) r ++ rest -> zlen (buffer self) <= MAX_REQUEST_RESPONSE_BYTES ->
  request_turn self teardown false = (with_buffer self rest, Finished (inr (reply_response (cseq self) r))).
Proof.
  intros Hs Hok Hpad Hmax Hrest Hbuf Hlen. unfold request_turn. rewrite (proj2 (Z.ltb_ge _ _) Hlen), Hbuf. by rewrite take_complete.
Qed.
Lemma turn_incomplete teardown self pad r q : 0 <= cseq self -> reply_ok r -> padding pad -> q <> [] ->
  zlen (encode_reply (cseq self) r) <= MAX_REQUEST_RESPONSE_BYTES ->
  pad ++ encode_reply (cseq self) r = buffer self ++ q -> zlen (buffer self) <= MAX_REQUEST_RESPONSE_BYTES ->
  exists pad' b, padding pad' /\ request_turn self teardown false = (with_buffer self b, Reads) /\ zlen b <= zlen (buffer self)
    /\ b ++ q = pad' ++ encode_reply (cseq self) r.
Proof.
  intros Hs Hok Hpad Hq Hmax Heq Hlen. destruct (take_incomplete _ r pad _ q Hs Hok Hpad Hq Hmax Heq) as (pad' & Hpad' & Htake & Hrem).
  exists pad', (drop_padding (buffer self)). split; [done|]. unfold request_turn. rewrite (proj2 (Z.ltb_ge _ _) Hlen), Htake.
  split; [done|]. split; [|done]. unfold drop_padding, zlen. rewrite length_drop. lia.
Qed.

Lemma request_sizes (b t pad s rest : list u8) max : zlen (pad ++ s ++ rest) <= max -> b ++ t = pad ++ s ++ rest -> zlen s <= max /\ zlen b <= max.
Proof.
  intros Hmax Heq. apply (f_equal zlen) in Heq. rewrite !zlen_app in *.
  pose proof (zlen_nonneg pad). pose proof (zlen_nonneg rest). pose proof (zlen_nonneg t). lia.
Qed.


(** A description of five bytes, its reply cut in the middle of the head. *)
Definition example_reply : reply :=
  {| rp_version := str "RTSP/1.0"; rp_status := 200; rp_reason := str "OK"; rp_headers := [(str "Session", str "a1:b2")]; rp_body := str "v=0ok" |}.
Definition example_events : list SocketEvent :=
  let text := encode_reply 7 example_reply ++ str "RTSP" in [TextFrame (take 20 text); PingFrame; WouldBlock; TextFrame (drop 20 text)].
Lemma example_reply_ok : reply_ok example_reply.
Proof.
  constructor; [| | |constructor; [|constructor]|]; cbn [example_reply rp_version rp_status rp_reason rp_body fst snd].
  - split; [discriminate|]. repeat split; repeat constructor.
  - unfold U16_MAX. lia.
  - repeat constructor.
  - split; [repeat constructor|]. split; [repeat constructor|]. split; [repeat constructor|]. split; [reflexivity|discriminate].
  - vm_compute. discriminate.
Qed.
