(* ===== verification/PcmRing.v ===== *)
(** * The lock-free sample ring of the macOS audio output

    [PcmRing] of [ring.rs]: one decoder thread pushes, one audio callback pops,
    any thread clears.  The threads run one memory access at a time, and a load
    may return an older value than the last: the model is the release/acquire
    fragment of Rust's memory model.  The stores to an atomic form a list; a
    thread that acquires the [i]-th store sees at least that one from then on,
    and what its thread had done before it.  An access to a sample slot is not
    atomic: it is a data race unless the other side's last access to the slot
    came before a store that this thread has acquired. *)

From stdpp Require Import list relations.
From S2P Require Import Prelude.

Module PcmRing.
(** A slot: its sample (the bits of an [f32]), and the stores of [write] and
    [read] that come after its last write and its last read. *)
Record Slot := { sample : Z; written : nat; taken : nat }.

Inductive Producer :=
  | PIdle
  | PLoadedWrite (input : list Z) (write : Z)
  | PCopying (chunk : list Z) (write offset : Z).
Inductive Consumer :=
  | CIdle
  | CLoadedRead (room read : Z)
  | CLoadedDiscard (room read discard_before : Z)
  | CCopying (read count : Z) (output : list Z).

(** The atomics with all stores to them, oldest first.  A store to
    [discard_before] carries the last store of [write] its thread had seen.
    [published] and [delivered] only record what was pushed and popped: every
    sample behind the published [write], and every pop with its position. *)
Record t := {
  slots : list Slot;
  read : list Z;
  write : list Z;
  discard_before : list (Z * nat);
  producer : Producer;
  producer_saw : nat;
  consumer : Consumer;
  consumer_saw : nat;
  clearing : list (Z * nat);
  published : list Z;
  delivered : list (Z * list Z)
}.

Inductive fault := DataRace.

Definition new (capacity : Z) : outcome fault t :=
  if negb ((0 <? capacity) && (capacity <? 2 ^ 63 - 1)) then Panic else
  mret {| slots := replicate (Z.to_nat capacity) {| sample := 0; written := 0; taken := 0 |};
          read := [0]; write := [0]; discard_before := [(0, 0%nat)];
          producer := PIdle; producer_saw := 0; consumer := CIdle; consumer_saw := 0; clearing := [];
          published := []; delivered := [] |}.

(** ** Accesses *)
Definition store_sample (slots : list Slot) (index : Z) (value : Z) (writes saw : nat) : outcome fault (list Slot) :=
  slot ← slots.[index];
  if (saw <? taken slot)%nat then Err DataRace else
  set_idx slots index {| sample := value; written := writes; taken := taken slot |}.
Definition load_sample (slots : list Slot) (index : Z) (reads saw : nat) : outcome fault (list Slot * Z) :=
  slot ← slots.[index];
  if (saw <? written slot)%nat then Err DataRace else
  slots ← set_idx slots index {| sample := sample slot; written := written slot; taken := reads |};
  mret (slots, sample slot).

(** ** [push] *)
Definition push_load_write (self : t) (input : list Z) (value : Z) : t := self <| producer := PLoadedWrite input value |>.
(** [read.load(Acquire)] returns the store of index [i]. *)
Definition push_load_read (self : t) (input : list Z) (write : Z) (i : nat) (value : Z) : t :=
  let available := saturating_sub (zlen (slots self)) (as_u64 (write - value)) in
  let count := Z.min (zlen input) available in
  self <| producer := PCopying (take (Z.to_nat count) input) write 0 |> <| producer_saw := i |>.
Definition push_copy (self : t) (chunk : list Z) (at_ offset : Z) : outcome fault t :=
  value ← chunk.[offset];
  slots ← store_sample (slots self) (as_u64 (at_ + offset) mod zlen (slots self)) value (length (write self)) (producer_saw self);
  mret (self <| PcmRing.slots := slots |> <| producer := PCopying chunk at_ (offset + 1) |>).
Definition push_publish (self : t) (chunk : list Z) (at_ : Z) : t :=
  self <| write ::= (fun stores => stores ++ [as_u64 (at_ + zlen chunk)]) |> <| published ::= (fun samples => samples ++ chunk) |>
       <| producer := PIdle |>.

(** ** [pop_into] *)
Definition pop_load_read (self : t) (room value : Z) : t := self <| consumer := CLoadedRead room value |>.
Definition pop_load_discard (self : t) (room read value : Z) (saw : nat) : t :=
  self <| consumer := CLoadedDiscard room read value |> <| consumer_saw := Nat.max (consumer_saw self) saw |>.
Definition pop_load_write (self : t) (room read discard_before : Z) (i : nat) (value : Z) : t :=
  let read := if as_u64 (discard_before - read) <=? as_u64 (value - read) then discard_before else read in
  self <| consumer := CCopying read (Z.min room (as_u64 (value - read))) [] |> <| consumer_saw := i |>.
Definition pop_copy (self : t) (at_ count : Z) (output : list Z) : outcome fault t :=
  '(slots, value) ← load_sample (slots self) (as_u64 (at_ + zlen output) mod zlen (slots self)) (length (read self)) (consumer_saw self);
  mret (self <| PcmRing.slots := slots |> <| consumer := CCopying at_ count (output ++ [value]) |>).
Definition pop_publish (self : t) (at_ count : Z) (output : list Z) : t :=
  self <| read ::= (fun stores => stores ++ [as_u64 (at_ + count)]) |> <| delivered ::= (fun pops => pops ++ [(at_, output)]) |>
       <| consumer := CIdle |>.

(** ** [clear] *)
Definition clear_load (self : t) (i : nat) (value : Z) : t := self <| clearing ::= (fun cs => cs ++ [(value, i)]) |>.
Definition clear_store (self : t) (before after : list (Z * nat)) (store : Z * nat) : t :=
  self <| clearing := before ++ after |> <| discard_before ::= (fun stores => stores ++ [store]) |>.

(** One access of one thread. *)
Inductive step (self : t) : outcome fault t -> Prop :=
  | StepPushLoadWrite input value : producer self = PIdle -> last (write self) = Some value ->
      step self (mret (push_load_write self input value))
  | StepPushLoadRead input at_ i value : producer self = PLoadedWrite input at_ -> (producer_saw self <= i)%nat -> read self !! i = Some value ->
      step self (mret (push_load_read self input at_ i value))
  | StepPushCopy chunk at_ offset : producer self = PCopying chunk at_ offset -> offset < zlen chunk ->
      step self (push_copy self chunk at_ offset)
  | StepPushPublish chunk at_ offset : producer self = PCopying chunk at_ offset -> zlen chunk <= offset ->
      step self (mret (push_publish self chunk at_))
  | StepPopLoadRead room value : consumer self = CIdle -> 0 <= room -> last (read self) = Some value ->
      step self (mret (pop_load_read self room value))
  | StepPopLoadDiscard room at_ value saw : consumer self = CLoadedRead room at_ -> (value, saw) ∈ discard_before self ->
      step self (mret (pop_load_discard self room at_ value saw))
  | StepPopLoadWrite room at_ discard i value : consumer self = CLoadedDiscard room at_ discard -> (consumer_saw self <= i)%nat -> write self !! i = Some value ->
      step self (mret (pop_load_write self room at_ discard i value))
  | StepPopCopy at_ count output : consumer self = CCopying at_ count output -> zlen output < count ->
      step self (pop_copy self at_ count output)
  | StepPopPublish at_ count output : consumer self = CCopying at_ count output -> count <= zlen output ->
      step self (mret (pop_publish self at_ count output))
  | StepClearLoad i value : write self !! i = Some value -> step self (mret (clear_load self i value))
  | StepClearStore before store after : clearing self = before ++ store :: after ->
      step self (mret (clear_store self before after store)).

(** Any number of accesses. *)
Definition moves (s s' : t) : Prop := step s (mret s').
End PcmRing.

(** ** Positions

    The positions of the stream run on; the code keeps them modulo 2^64, which
    is the same while fewer samples than that were pushed. *)
Import PcmRing.
Definition slot_of (slots : list Slot) (position : Z) : option Slot := zget slots (position mod zlen slots).
Definition stored (stores : list Z) (i : nat) : Z := default 0 (stores !! i).
Definition rising (stores : list Z) (top : Z) : Prop :=
  last stores = Some top /\ (forall i v, stores !! i = Some v -> 0 <= v <= top)
  /\ (forall i j v w, (i <= j)%nat -> stores !! i = Some v -> stores !! j = Some w -> v <= w).

(** What each thread knows where it stands. *)
Definition producer_ok (s : t) : Prop :=
  match producer s with
  | PIdle => True
  | PLoadedWrite input at_ => at_ = zlen (published s)
  | PCopying chunk at_ offset =>
      at_ = zlen (published s) /\ 0 <= offset <= zlen chunk /\ at_ + zlen chunk <= stored (read s) (producer_saw s) + zlen (slots s)
      /\ forall k x, 0 <= k < offset -> zget chunk k = Some x ->
           exists slot, slot_of (slots s) (at_ + k) = Some slot /\ sample slot = x /\ written slot = length (write s)
  end.
Definition discarded (stores : list (Z * nat)) (position : Z) : Prop := exists saw, (position, saw) ∈ stores.
Definition consumer_ok (s : t) (top : Z) : Prop :=
  match consumer s with
  | CIdle => True
  | CLoadedRead room at_ => 0 <= room /\ at_ = top
  | CLoadedDiscard room at_ discard => 0 <= room /\ at_ = top /\ 0 <= discard <= stored (write s) (consumer_saw s) /\ discarded (discard_before s) discard
  | CCopying at_ count output =>
      zlen output <= count /\ at_ + count <= stored (write s) (consumer_saw s)
      /\ (at_ = top \/ top < at_ /\ discarded (discard_before s) at_)
      /\ forall k x, zget output k = Some x -> zget (published s) (at_ + k) = Some x
  end.

(** The pops so far: each takes the samples of the stream at its position; it
    begins where the last one ended, or at a point a [clear] has set. *)
Fixpoint delivered_ok (published : list Z) (stops : list (Z * nat)) (from : Z) (pops : list (Z * list Z)) (to : Z) : Prop :=
  match pops with
  | [] => from = to
  | (at_, output) :: pops =>
      (at_ = from \/ from < at_ /\ discarded stops at_)
      /\ (forall k x, zget output k = Some x -> zget published (at_ + k) = Some x)
      /\ delivered_ok published stops (at_ + zlen output) pops to
  end.

Record ring_ok (s : t) (top : Z) : Prop := {
  ro_capacity : 0 < zlen (slots s) < 2 ^ 63;
  ro_write : rising (write s) (zlen (published s));
  ro_read : rising (read s) top;
  ro_producer_saw : (producer_saw s < length (read s))%nat;
  ro_consumer_saw : (consumer_saw s < length (write s))%nat;
  ro_window : zlen (published s) <= stored (read s) (producer_saw s) + zlen (slots s);
  ro_behind : top <= stored (write s) (consumer_saw s);
  ro_discard : forall value saw, (value, saw) ∈ discard_before s \/ (value, saw) ∈ clearing s -> write s !! saw = Some value;
  ro_producer : producer_ok s;
  ro_consumer : consumer_ok s top;
  ro_live : forall p, top <= p < zlen (published s) -> exists slot, slot_of (slots s) p = Some slot
    /\ zget (published s) p = Some (sample slot) /\ (forall i v, write s !! i = Some v -> p < v -> (written slot <= i)%nat);
  ro_epochs : forall slot, slot ∈ slots s -> (written slot <= length (write s))%nat /\ (taken slot <= length (read s))%nat;
  ro_taken : forall j slot, zget (slots s) j = Some slot -> exists q, q < zlen (published s) /\ q mod zlen (slots s) = j
    /\ forall i v, read s !! i = Some v -> q < v -> (taken slot <= i)%nat;
  ro_delivered : delivered_ok (published s) (discard_before s) 0 (delivered s) top
}.

(** ** Rising stores *)
Lemma rising_top stores top : rising stores top -> 0 <= top.
Proof. intros (H & Hb & _). rewrite last_lookup in H. apply Hb in H. lia. Qed.
Lemma rising_stored stores top i : rising stores top -> (i < length stores)%nat -> stores !! i = Some (stored stores i) /\ 0 <= stored stores i <= top.
Proof. intros (_ & Hb & _) Hi. unfold stored. destruct (lookup_lt_is_Some_2 stores i Hi) as [v Hv]. rewrite Hv. split; [done|]. by apply (Hb i). Qed.
Lemma rising_mono stores top i j : rising stores top -> (i <= j)%nat -> (j < length stores)%nat -> stored stores i <= stored stores j.
Proof.
  intros Hr Hij Hj. destruct (rising_stored stores top i Hr) as [Hi _]; [lia|]. destruct (rising_stored stores top j Hr Hj) as [Hj' _].
  destruct Hr as (_ & _ & Hm). by apply (Hm i j).
Qed.
Lemma rising_snoc stores top v : rising stores top -> top <= v -> rising (stores ++ [v]) v.
Proof.
  intros (Hl & Hb & Hm) Hv. split; [apply last_snoc|]. split.
  - intros i w Hi. apply lookup_app_Some in Hi as [Hi|[_ Hi]]; [specialize (Hb _ _ Hi); lia|]. apply list_lookup_singleton_Some in Hi as [_ <-].
    rewrite last_lookup in Hl. specialize (Hb _ _ Hl). lia.
  - intros i j w x Hij Hi Hj. apply lookup_app_Some in Hj as [Hj|[Hge Hj]].
    + rewrite lookup_app_l in Hi by (apply lookup_lt_Some in Hj; lia). by apply (Hm i j).
    + apply list_lookup_singleton_Some in Hj as [_ <-]. apply lookup_app_Some in Hi as [Hi|[_ Hi]].
      * specialize (Hb _ _ Hi). lia.
      * apply list_lookup_singleton_Some in Hi as [_ <-]. lia.
Qed.
Lemma stored_snoc stores v i : (i < length stores)%nat -> stored (stores ++ [v]) i = stored stores i.
Proof. intros Hi. unfold stored. by rewrite lookup_app_l. Qed.
Lemma lookup_stored stores i v : stores !! i = Some v -> stored stores i = v.
Proof. intros H. unfold stored. by rewrite H. Qed.

(** Positions less than a capacity apart have different slots. *)
Lemma slots_apart p q n : 0 < n -> p < q < p + n -> p mod n <> q mod n.
Proof.
  intros Hn Hpq Heq. pose proof (Z.div_mod p n). pose proof (Z.div_mod q n).
  assert (Hd : q - p = n * (q / n - p / n)) by lia. assert (q / n - p / n = 0 \/ 1 <= q / n - p / n \/ q / n - p / n <= -1) by lia. nia.
Qed.
Lemma slot_position (slots : list Slot) p : 0 < zlen slots -> 0 <= p mod zlen slots < zlen slots.
Proof. intros H. by apply Z.mod_pos_bound. Qed.

(** ** Slots *)
Lemma slot_of_insert (slots : list Slot) p q slot : 0 < zlen slots ->
  slot_of (<[Z.to_nat (p mod zlen slots) := slot]> slots) q = if q mod zlen slots =? p mod zlen slots then Some slot else slot_of slots q.
Proof.
  intros Hn. unfold slot_of. rewrite zlen_insert. pose proof (slot_position slots p Hn). pose proof (slot_position slots q Hn).
  rewrite !zget_lookup by lia. destruct (Z.eqb_spec (q mod zlen slots) (p mod zlen slots)) as [->|Hne].
  - apply list_lookup_insert_eq. unfold zlen in *. lia.
  - apply list_lookup_insert_ne. lia.
Qed.
Lemma slot_exists (slots : list Slot) p : 0 < zlen slots -> exists slot, slot_of slots p = Some slot /\ slots !! Z.to_nat (p mod zlen slots) = Some slot.
Proof.
  intros Hn. pose proof (slot_position slots p Hn) as Hp. destruct (zget_Some slots _ Hp) as [slot Hslot]. exists slot. split; [done|].
  rewrite zget_lookup in Hslot by lia. done.
Qed.

Lemma delivered_mono published published' stops stops' : published `prefix_of` published' -> (forall p, discarded stops p -> discarded stops' p) ->
  forall pops from to, delivered_ok published stops from pops to -> delivered_ok published' stops' from pops to.
Proof.
  intros [more ->] Hstops. induction pops as [|[at_ output] pops IH]; intros from to; [done|]. intros (Hat & Hout & Hrest). split; [|split].
  - destruct Hat as [->|[Hlt Hd]]; [by left|right]. split; [done|by apply Hstops].
  - intros k x Hk. apply zget_app_l. by apply Hout.
  - by apply IH.
Qed.
Lemma delivered_snoc published stops at_ output to : forall pops from, delivered_ok published stops from pops to ->
  (at_ = to \/ to < at_ /\ discarded stops at_) -> (forall k x, zget output k = Some x -> zget published (at_ + k) = Some x) ->
  delivered_ok published stops from (pops ++ [(at_, output)]) (at_ + zlen output).
Proof.
  induction pops as [|[a o] pops IH]; intros from Hd Hat Hout; cbn [app delivered_ok] in *.
  - subst. split; [done|]. by split.
  - destruct Hd as (H1 & H2 & H3). split; [done|]. split; [done|]. by apply IH.
Qed.

(** ** The steps keep the invariant

    The steps that only move a thread on. *)
Lemma keep_thread s s' top : ring_ok s top ->
  slots s' = slots s -> read s' = read s -> write s' = write s -> published s' = published s -> delivered s' = delivered s ->
  discard_before s' = discard_before s -> clearing s' = clearing s ->
  (producer_saw s <= producer_saw s' < length (read s))%nat -> (consumer_saw s <= consumer_saw s' < length (write s))%nat ->
  producer_ok s' -> consumer_ok s' top -> ring_ok s' top.
Proof.
  intros Hok Hslots Hread Hwrite Hpub Hdel Hdisc Hclear Hps Hcs Hp Hc.
  pose proof (rising_mono _ _ _ _ (ro_read _ _ Hok) (proj1 Hps) (proj2 Hps)) as Hmr.
  pose proof (rising_mono _ _ _ _ (ro_write _ _ Hok) (proj1 Hcs) (proj2 Hcs)) as Hmw.
  constructor; rewrite ?Hslots, ?Hread, ?Hwrite, ?Hpub, ?Hdel, ?Hdisc, ?Hclear; try apply Hok; try done; try lia.
  - pose proof (ro_window _ _ Hok). lia.
  - pose proof (ro_behind _ _ Hok). lia.
Qed.

Ltac fields := unfold RecordSettersUsingExistingGetters.set, RecordSettersUsingExistingGetters.const; cbn [slots read write discard_before producer producer_saw consumer consumer_saw clearing published delivered].
Ltac still := match goal with Hok : ring_ok _ _ |- _ => split; [apply Nat.le_refl|first [exact (ro_producer_saw _ _ Hok)|exact (ro_consumer_saw _ _ Hok)]] end.
Lemma push_load_write_ok s top input value : ring_ok s top -> producer s = PIdle -> last (write s) = Some value -> ring_ok (push_load_write s input value) top.
Proof.
  intros Hok _ Hl. apply (keep_thread s); try done; try still; [|exact (ro_consumer _ _ Hok)].
  destruct (ro_write _ _ Hok) as (Hw & _). rewrite Hw in Hl. by injection Hl as <-.
Qed.
Lemma push_load_read_ok s top input at_ i value : ring_ok s top -> zlen (published s) + zlen (slots s) < 2 ^ 64 ->
  producer s = PLoadedWrite input at_ -> (producer_saw s <= i)%nat -> read s !! i = Some value -> ring_ok (push_load_read s input at_ i value) top.
Proof.
  intros Hok Hbound Hpc Hi Hv. pose proof (lookup_lt_Some _ _ _ Hv) as Hlt. pose proof (ro_producer _ _ Hok) as Hp. unfold producer_ok in Hp. rewrite Hpc in Hp.
  pose proof (rising_stored _ _ i (ro_read _ _ Hok) Hlt) as [_ Hr]. rewrite (lookup_stored _ _ _ Hv) in Hr.
  pose proof (rising_mono _ _ _ _ (ro_read _ _ Hok) Hi Hlt) as Hmono. rewrite (lookup_stored _ _ _ Hv) in Hmono.
  pose proof (rising_stored _ _ _ (ro_write _ _ Hok) (ro_consumer_saw _ _ Hok)) as [_ Hw]. pose proof (ro_behind _ _ Hok). pose proof (ro_window _ _ Hok).
  apply (keep_thread s); try done; try still; [|exact (ro_consumer _ _ Hok)].
  unfold producer_ok, push_load_read. fields. rewrite (lookup_stored _ _ _ Hv).
  assert (Hav : as_u64 (at_ - value) = at_ - value) by (unfold as_u64; rewrite Z.mod_small; lia).
  rewrite Hav. unfold saturating_sub. rewrite Z.max_r by lia. set (count := Z.min _ _).
  assert (Hc : 0 <= count <= zlen input) by (unfold count; pose proof (zlen_nonneg input); lia).
  assert (Hlen : zlen (take (Z.to_nat count) input) = count) by (unfold zlen in *; rewrite length_take; lia).
  rewrite Hlen. split; [done|]. split; [lia|]. split; [unfold count; lia|]. intros; lia.
Qed.
Lemma pop_load_read_ok s top room value : ring_ok s top -> 0 <= room -> last (read s) = Some value -> ring_ok (pop_load_read s room value) top.
Proof.
  intros Hok Hroom Hl. apply (keep_thread s); try done; try still; [exact (ro_producer _ _ Hok)|].
  destruct (ro_read _ _ Hok) as (Hr & _). rewrite Hr in Hl. injection Hl as <-. done.
Qed.
Lemma pop_load_discard_ok s top room at_ value saw : ring_ok s top -> consumer s = CLoadedRead room at_ -> (value, saw) ∈ discard_before s ->
  ring_ok (pop_load_discard s room at_ value saw) top.
Proof.
  intros Hok Hpc Hin. pose proof (ro_discard _ _ Hok value saw (or_introl Hin)) as Hsaw. pose proof (lookup_lt_Some _ _ _ Hsaw) as Hlt.
  pose proof (ro_consumer _ _ Hok) as Hc. unfold consumer_ok in Hc. rewrite Hpc in Hc. destruct Hc as [Hroom ->].
  apply (keep_thread s); try done; [still|unfold pop_load_discard; fields; pose proof (ro_consumer_saw _ _ Hok); lia|exact (ro_producer _ _ Hok)|].
  unfold consumer_ok, pop_load_discard. fields. split; [done|]. split; [done|]. split; [|by exists saw].
  pose proof (rising_stored _ _ saw (ro_write _ _ Hok) Hlt) as [_ Hr]. rewrite (lookup_stored _ _ _ Hsaw) in Hr. split; [lia|].
  rewrite <- (lookup_stored _ _ _ Hsaw) at 1. apply (rising_mono _ _ _ _ (ro_write _ _ Hok)); [lia|]. pose proof (ro_consumer_saw _ _ Hok). lia.
Qed.
Lemma pop_load_write_ok s top room at_ discard i value : ring_ok s top -> zlen (published s) + zlen (slots s) < 2 ^ 64 ->
  consumer s = CLoadedDiscard room at_ discard -> (consumer_saw s <= i)%nat -> write s !! i = Some value ->
  ring_ok (pop_load_write s room at_ discard i value) top.
Proof.
  intros Hok Hbound Hpc Hi Hv. pose proof (lookup_lt_Some _ _ _ Hv) as Hlt. pose proof (ro_consumer _ _ Hok) as Hc. unfold consumer_ok in Hc. rewrite Hpc in Hc.
  destruct Hc as (Hroom & -> & Hd & Hdis). pose proof (rising_top _ _ (ro_read _ _ Hok)) as Htop.
  pose proof (rising_stored _ _ i (ro_write _ _ Hok) Hlt) as [_ Hw]. rewrite (lookup_stored _ _ _ Hv) in Hw.
  pose proof (rising_mono _ _ _ _ (ro_write _ _ Hok) Hi Hlt) as Hmono. rewrite (lookup_stored _ _ _ Hv) in Hmono.
  pose proof (ro_behind _ _ Hok). pose proof (ro_capacity _ _ Hok).
  apply (keep_thread s); try done; try still; [exact (ro_producer _ _ Hok)|].
  unfold consumer_ok, pop_load_write. fields. rewrite (lookup_stored _ _ _ Hv).
  assert (Hwr : as_u64 (value - top) = value - top) by (unfold as_u64; rewrite Z.mod_small; lia). rewrite Hwr.
  destruct (Z.leb_spec (as_u64 (discard - top)) (value - top)) as [Hle|Hgt].
  - assert (top <= discard) as Hge.
    { destruct (Z.le_gt_cases top discard); [done|]. exfalso. unfold as_u64 in Hle.
      rewrite <- (Z.mod_add (discard - top) 1), Z.mod_small in Hle by lia. lia. }
    assert (Hwd : as_u64 (value - discard) = value - discard) by (unfold as_u64; rewrite Z.mod_small; lia). rewrite Hwd.
    change (zlen []) with 0. split; [lia|]. split; [lia|]. split; [|intros k x Hk; apply zget_lt in Hk; change (zlen (@nil Z)) with 0 in Hk; lia].
    destruct (Z.eq_dec discard top); [by left|right; split; [lia|done]].
  - rewrite Hwr. change (zlen []) with 0. split; [lia|]. split; [lia|]. split; [by left|]. intros k x Hk; apply zget_lt in Hk; change (zlen (@nil Z)) with 0 in Hk; lia.
Qed.

(** The steps that write. *)
Lemma stored_bound s top : ring_ok s top -> stored (read s) (producer_saw s) <= top /\ 0 <= top /\ top <= zlen (published s).
Proof.
  intros Hok. pose proof (rising_stored _ _ _ (ro_read _ _ Hok) (ro_producer_saw _ _ Hok)) as [_ H].
  pose proof (rising_stored _ _ _ (ro_write _ _ Hok) (ro_consumer_saw _ _ Hok)) as [_ Hw]. pose proof (ro_behind _ _ Hok).
  pose proof (rising_top _ _ (ro_read _ _ Hok)). lia.
Qed.

(** The slot the producer writes next is not one the consumer may read. *)
Lemma push_slot_free s top p q : ring_ok s top -> p < stored (read s) (producer_saw s) + zlen (slots s) -> zlen (published s) <= p ->
  top <= q < zlen (published s) -> q mod zlen (slots s) <> p mod zlen (slots s).
Proof.
  intros Hok Hp Hw Hq. pose proof (stored_bound s top Hok). pose proof (ro_capacity _ _ Hok). apply slots_apart; lia.
Qed.

Lemma push_copy_ok s top chunk at_ offset : ring_ok s top -> zlen (published s) + zlen (slots s) < 2 ^ 64 ->
  producer s = PCopying chunk at_ offset -> offset < zlen chunk ->
  exists s', push_copy s chunk at_ offset = mret s' /\ ring_ok s' top /\ published s' = published s /\ zlen (slots s') = zlen (slots s).
Proof.
  intros Hok Hbound Hpc Hoff. pose proof (ro_producer _ _ Hok) as Hp. unfold producer_ok in Hp. rewrite Hpc in Hp. destruct Hp as (-> & Ho & Hroom & Hdone).
  pose proof (stored_bound s top Hok) as Hb. pose proof (ro_capacity _ _ Hok) as Hcap. set (p := zlen (published s) + offset).
  assert (Hp64 : as_u64 p = p) by (unfold as_u64, p; rewrite Z.mod_small; lia).
  destruct (slot_exists (slots s) p) as (slot & Hslot & Hlookup); [lia|]. pose proof (slot_position (slots s) p ltac:(lia)) as Hpos.
  destruct (idx_Ok (E:=fault) chunk offset ltac:(lia)) as (x & Hx & Hget).
  unfold push_copy. rewrite Hx, bind_Ok. fold p. rewrite Hp64. unfold store_sample, idx. unfold slot_of in Hslot. rewrite Hslot. cbn [expect]. rewrite bind_Ok.
  destruct (ro_taken _ _ Hok _ _ Hslot) as (q & Hq & Hmod & Htaken).
  assert (Hsaw : (taken slot <= producer_saw s)%nat).
  { destruct (rising_stored _ _ _ (ro_read _ _ Hok) (ro_producer_saw _ _ Hok)) as [Hlk _]. apply (Htaken _ _ Hlk).
    destruct (Z.lt_ge_cases q (stored (read s) (producer_saw s))); [done|]. exfalso. revert Hmod. apply slots_apart; [lia|]. unfold p in *. lia. }
  rewrite (proj2 (Nat.ltb_ge _ _) Hsaw). rewrite set_idx_Ok by lia. rewrite bind_Ok. eexists. split; [reflexivity|].
  set (new_slot := {| sample := x; written := _; taken := _ |}). split; [|split; [reflexivity|fields; apply zlen_insert]].
  assert (Hother : forall r, top <= r < zlen (published s) -> slot_of (<[Z.to_nat (p mod zlen (slots s)) := new_slot]> (slots s)) r = slot_of (slots s) r).
  { intros r Hr. rewrite slot_of_insert by lia. rewrite (proj2 (Z.eqb_neq _ _)); [done|]. apply (push_slot_free s top); [done|unfold p; lia..|done]. }
  destruct (ro_epochs _ _ Hok slot) as [_ Htk]; [by eapply list_elem_of_lookup_2|].
  constructor; fields; rewrite ?zlen_insert; try apply Hok.
  - unfold producer_ok. fields. rewrite zlen_insert. split; [done|]. split; [lia|]. split; [done|]. intros k y Hk Hy. rewrite slot_of_insert by lia.
    destruct (Z.eq_dec k offset) as [->|Hne].
    + fold p. rewrite Z.eqb_refl. exists new_slot. split; [done|]. rewrite Hget in Hy. injection Hy as ->. done.
    + rewrite (proj2 (Z.eqb_neq _ _)); [apply Hdone; [lia|done]|]. unfold p. apply slots_apart; lia.
  - intros r Hr. rewrite Hother by done. by apply (ro_live _ _ Hok).
  - intros sl Hsl. apply list_elem_of_lookup in Hsl as [j Hj]. apply list_lookup_insert_Some in Hj as [(_ & <- & _)|[_ Hj]]; [by cbn|].
    apply (ro_epochs _ _ Hok). by eapply list_elem_of_lookup_2.
  - intros j sl Hj. pose proof (zget_lt _ _ _ Hj) as Hjr. rewrite zget_insert in Hj by lia. destruct (Z.eqb_spec j (p mod zlen (slots s))) as [->|Hne].
    + exists q. split; [done|]. split; [done|]. injection Hj as <-. done.
    + by apply (ro_taken _ _ Hok).
Qed.

Lemma push_publish_ok s top chunk at_ offset : ring_ok s top -> zlen (published (push_publish s chunk at_)) + zlen (slots s) < 2 ^ 64 ->
  producer s = PCopying chunk at_ offset -> zlen chunk <= offset -> ring_ok (push_publish s chunk at_) top.
Proof.
  intros Hok Hbound Hpc Hoff. pose proof (ro_producer _ _ Hok) as Hp. unfold producer_ok in Hp. rewrite Hpc in Hp. destruct Hp as (-> & Ho & Hroom & Hdone).
  assert (offset = zlen chunk) as -> by lia. pose proof (stored_bound s top Hok) as Hb. pose proof (ro_capacity _ _ Hok) as Hcap.
  unfold push_publish in *. revert Hbound. fields. intros Hbound. rewrite zlen_app in Hbound.
  assert (Hw64 : as_u64 (zlen (published s) + zlen chunk) = zlen (published s ++ chunk)) by (unfold as_u64; rewrite zlen_app, Z.mod_small; lia).
  rewrite Hw64. set (W' := zlen (published s ++ chunk)). assert (HW' : W' = zlen (published s) + zlen chunk) by (unfold W'; by rewrite zlen_app).
  pose proof (ro_write _ _ Hok) as Hwr. pose proof (ro_consumer_saw _ _ Hok) as Hcs. clearbody W'.
  assert (Hstored : stored (write s ++ [W']) (consumer_saw s) = stored (write s) (consumer_saw s)) by by apply stored_snoc.
  assert (Hlive : forall p, top <= p < zlen (published s ++ chunk) -> exists slot, slot_of (slots s) p = Some slot
    /\ zget (published s ++ chunk) p = Some (sample slot) /\ (forall i v, (write s ++ [W']) !! i = Some v -> p < v -> (written slot <= i)%nat)).
  { intros p Hp. rewrite zlen_app in Hp. destruct (Z.lt_ge_cases p (zlen (published s))) as [Hlt|Hge].
    - destruct (ro_live _ _ Hok p ltac:(lia)) as (slot & Hslot & Hget & Hsees). exists slot. split; [done|]. split; [by apply zget_app_l|].
      intros i v Hi Hv. apply lookup_app_Some in Hi as [Hi|[Hi _]]; [by apply (Hsees i v)|]. unfold slot_of in Hslot.
      rewrite zget_lookup in Hslot by (apply (slot_position (slots s) p); lia). apply list_elem_of_lookup_2 in Hslot. apply (ro_epochs _ _ Hok) in Hslot. lia.
    - destruct (zget_Some chunk (p - zlen (published s)) ltac:(lia)) as [x Hx].
      destruct (Hdone (p - zlen (published s)) x ltac:(lia) Hx) as (slot & Hslot & Hval & Hwrit). replace (zlen (published s) + (p - zlen (published s))) with p in Hslot by lia.
      exists slot. split; [done|]. split.
      + rewrite zget_lookup in Hx |- * by lia. rewrite lookup_app_r by (unfold zlen in *; lia). rewrite Hval, <- Hx. f_equal. unfold zlen in *. lia.
      + intros i v Hi Hv. apply lookup_app_Some in Hi as [Hi|[Hi _]]; [|lia]. destruct Hwr as (_ & Hbd & _). specialize (Hbd _ _ Hi). lia. }
  assert (Hdisc : forall p, discarded (discard_before s) p -> discarded (discard_before s) p) by done.
  assert (Hpre : published s `prefix_of` published s ++ chunk) by by exists chunk.
  constructor; fields; rewrite ?Hstored, ?zlen_app; try apply Hok; try done.
  - rewrite <- HW'. apply rising_snoc with (zlen (published s)); [done|]. pose proof (zlen_nonneg chunk). lia.
  - rewrite length_app. cbn. lia.
  - intros value saw Hin. apply lookup_app_l_Some. by apply (ro_discard _ _ Hok).
  - pose proof (ro_consumer _ _ Hok) as Hc. unfold consumer_ok in *. fields. rewrite Hstored. destruct (consumer s) as [|room r|room r d|r count output]; try done.
    destruct Hc as (H1 & H2 & H3 & H4). split; [done|]. split; [done|]. split; [done|]. intros k x Hk. apply zget_app_l. by apply H4.
  - intros p Hp. apply Hlive. rewrite zlen_app. lia.
  - intros slot Hslot. destruct (ro_epochs _ _ Hok slot Hslot). rewrite length_app. cbn. lia.
  - intros j slot Hj. destruct (ro_taken _ _ Hok j slot Hj) as (q & Hq & Hm & Ht). exists q. split; [|done]. pose proof (zlen_nonneg chunk). lia.
  - by eapply delivered_mono; [..|apply (ro_delivered _ _ Hok)].
Qed.

Lemma pop_copy_ok s top at_ count output : ring_ok s top -> zlen (published s) + zlen (slots s) < 2 ^ 64 ->
  consumer s = CCopying at_ count output -> zlen output < count ->
  exists s', pop_copy s at_ count output = mret s' /\ ring_ok s' top /\ published s' = published s /\ zlen (slots s') = zlen (slots s).
Proof.
  intros Hok Hbound Hpc Hlt. pose proof (ro_consumer _ _ Hok) as Hc. unfold consumer_ok in Hc. rewrite Hpc in Hc. destruct Hc as (Hle & Hcount & Hat & Hout).
  pose proof (stored_bound s top Hok) as Hb. pose proof (ro_capacity _ _ Hok) as Hcap. pose proof (zlen_nonneg output) as Hon.
  destruct (rising_stored _ _ _ (ro_write _ _ Hok) (ro_consumer_saw _ _ Hok)) as [Hlk Hw]. set (p := at_ + zlen output).
  assert (Hp : top <= p < stored (write s) (consumer_saw s)) by (unfold p; destruct Hat as [->|[? _]]; lia).
  assert (Hp64 : as_u64 p = p) by (unfold as_u64; rewrite Z.mod_small; lia).
  destruct (ro_live _ _ Hok p ltac:(lia)) as (slot & Hslot & Hget & Hsees). pose proof (slot_position (slots s) p ltac:(lia)) as Hpos.
  unfold pop_copy. fold p. rewrite Hp64. unfold load_sample, idx. unfold slot_of in Hslot. rewrite Hslot. cbn [expect]. rewrite bind_Ok.
  rewrite (proj2 (Nat.ltb_ge _ _) (Hsees _ _ Hlk (proj2 Hp))). rewrite set_idx_Ok by lia. rewrite bind_Ok, bind_mret. eexists. split; [reflexivity|].
  set (new_slot := {| sample := _; written := _; taken := _ |}). split; [|split; [reflexivity|fields; apply zlen_insert]].
  assert (Hsame : forall q slot', slot_of (slots s) q = Some slot' -> exists slot'', slot_of (<[Z.to_nat (p mod zlen (slots s)) := new_slot]> (slots s)) q = Some slot''
    /\ sample slot'' = sample slot' /\ written slot'' = written slot').
  { intros q slot' Hq. rewrite slot_of_insert by lia. destruct (Z.eqb_spec (q mod zlen (slots s)) (p mod zlen (slots s))) as [E|]; [|by exists slot'].
    exists new_slot. split; [done|]. unfold slot_of in Hq. rewrite E, Hslot in Hq. by injection Hq as <-. }
  constructor; fields; rewrite ?zlen_insert; try apply Hok.
  - pose proof (ro_producer _ _ Hok) as Hpr. unfold producer_ok in *. fields. rewrite zlen_insert. destruct (producer s) as [| |chunk a o]; [done..|].
    destruct Hpr as (H1 & H2 & H3 & H4). split; [done|]. split; [done|]. split; [done|]. intros k x Hk Hx. destruct (H4 k x Hk Hx) as (sl & Hsl & Hv & Hwn).
    destruct (Hsame _ _ Hsl) as (sl' & Hsl' & Hv' & Hw'). exists sl'. split; [done|]. by rewrite Hv', Hw'.
  - unfold consumer_ok. fields. rewrite zlen_app. change (zlen [sample slot]) with 1. split; [lia|]. split; [lia|]. split; [done|].
    intros k x Hk. destruct (Z.lt_ge_cases k (zlen output)) as [Hko|Hko].
    + apply Hout. pose proof (zget_lt _ _ _ Hk). rewrite zget_lookup in Hk |- * by lia. rewrite lookup_app_l in Hk by (unfold zlen in *; lia). done.
    + pose proof (zget_lt _ _ _ Hk) as Hkl. rewrite zlen_app in Hkl. change (zlen [sample slot]) with 1 in Hkl. assert (k = zlen output) as -> by lia.
      rewrite zget_at in Hk. cbn in Hk. injection Hk as <-. done.
  - intros q Hq. destruct (ro_live _ _ Hok q Hq) as (sl & Hsl & Hg & Hs). destruct (Hsame _ _ Hsl) as (sl' & Hsl' & Hv' & Hw'). exists sl'. rewrite Hv', Hw'. done.
  - intros sl Hsl. apply list_elem_of_lookup in Hsl as [j Hj]. apply list_lookup_insert_Some in Hj as [(_ & <- & _)|[_ Hj]].
    + cbn. split; [|lia]. apply (ro_epochs _ _ Hok slot). rewrite zget_lookup in Hslot by lia. by eapply list_elem_of_lookup_2.
    + apply (ro_epochs _ _ Hok). by eapply list_elem_of_lookup_2.
  - intros j sl Hj. pose proof (zget_lt _ _ _ Hj) as Hjr. rewrite zget_insert in Hj by lia. destruct (Z.eqb_spec j (p mod zlen (slots s))) as [->|Hne].
    + exists p. split; [lia|]. split; [done|]. intros i v Hi Hv. destruct (ro_read _ _ Hok) as (_ & Hbd & _). specialize (Hbd _ _ Hi). lia.
    + by apply (ro_taken _ _ Hok).
Qed.

Lemma pop_publish_ok s top at_ count output : ring_ok s top -> zlen (published s) + zlen (slots s) < 2 ^ 64 ->
  consumer s = CCopying at_ count output -> count <= zlen output -> ring_ok (pop_publish s at_ count output) (at_ + count).
Proof.
  intros Hok Hbound Hpc Hge. pose proof (ro_consumer _ _ Hok) as Hc. unfold consumer_ok in Hc. rewrite Hpc in Hc. destruct Hc as (Hle & Hcount & Hat & Hout).
  assert (count = zlen output) as -> by lia. pose proof (stored_bound s top Hok) as Hb. pose proof (ro_capacity _ _ Hok) as Hcap. pose proof (zlen_nonneg output) as Hon.
  destruct (rising_stored _ _ _ (ro_write _ _ Hok) (ro_consumer_saw _ _ Hok)) as [Hlk Hw].
  assert (Htop : top <= at_) by (destruct Hat as [->|[? _]]; lia). unfold pop_publish.
  assert (Hr64 : as_u64 (at_ + zlen output) = at_ + zlen output) by (unfold as_u64; rewrite Z.mod_small; lia). rewrite Hr64.
  assert (Hstored : stored (read s ++ [at_ + zlen output]) (producer_saw s) = stored (read s) (producer_saw s)) by (apply stored_snoc, Hok).
  constructor; fields; rewrite ?Hstored; try apply Hok; try done.
  - apply rising_snoc with top; [apply Hok|lia].
  - rewrite length_app. pose proof (ro_producer_saw _ _ Hok). cbn. lia.
  - pose proof (ro_producer _ _ Hok) as Hpr. unfold producer_ok in *. fields. rewrite Hstored. done.
  - intros p Hp. apply (ro_live _ _ Hok). lia.
  - intros slot Hslot. destruct (ro_epochs _ _ Hok slot Hslot). rewrite length_app. cbn. lia.
  - intros j slot Hj. destruct (ro_taken _ _ Hok j slot Hj) as (q & Hq & Hm & Ht). exists q. split; [done|]. split; [done|].
    intros i v Hi Hv. apply lookup_app_Some in Hi as [Hi|[Hi _]]; [by apply (Ht i v)|]. rewrite zget_lookup in Hj by (apply zget_lt in Hj; lia).
    apply list_elem_of_lookup_2 in Hj. apply (ro_epochs _ _ Hok) in Hj. lia.
  - apply delivered_snoc with top; [apply Hok|done|done].
Qed.

Lemma clear_load_ok s top i value : ring_ok s top -> write s !! i = Some value -> ring_ok (clear_load s i value) top.
Proof.
  intros Hok Hv. constructor; try exact (ro_producer _ _ Hok); try exact (ro_consumer _ _ Hok); unfold clear_load; fields; try apply Hok.
  intros v saw [Hin|Hin]; [apply (ro_discard _ _ Hok); by left|]. apply elem_of_app in Hin as [Hin|Hin]; [apply (ro_discard _ _ Hok); by right|].
  apply list_elem_of_singleton in Hin. by simplify_eq.
Qed.
Lemma clear_store_ok s top before store after : ring_ok s top -> clearing s = before ++ store :: after -> ring_ok (clear_store s before after store) top.
Proof.
  intros Hok Hcl. assert (Hmore : forall p, discarded (discard_before s) p -> discarded (discard_before s ++ [store]) p).
  { intros p [saw Hin]. exists saw. apply elem_of_app. by left. }
  constructor; try exact (ro_producer _ _ Hok); unfold clear_store; fields; try apply Hok.
  - intros v saw Hin. apply (ro_discard _ _ Hok). clear Hmore. rewrite Hcl. set_solver.
  - pose proof (ro_consumer _ _ Hok) as Hc. unfold consumer_ok in *. fields. destruct (consumer s); naive_solver.
  - eapply delivered_mono; [reflexivity|exact Hmore|apply (ro_delivered _ _ Hok)].
Qed.

(** ** Runs *)
Lemma set_idx_length {E A} (l : list A) i v l' : set_idx (E:=E) l i v = Ok l' -> zlen l' = zlen l.
Proof. unfold set_idx. destruct (_ && _); intros H; simplify_eq. apply zlen_insert. Qed.
Lemma store_sample_length sl i v w saw sl' : store_sample sl i v w saw = Ok sl' -> zlen sl' = zlen sl.
Proof. unfold store_sample. intros H. apply bind_Ok_inv in H as (slot & _ & H). destruct (_ <? _)%nat; [done|]. by eapply set_idx_length. Qed.
Lemma load_sample_length sl i r saw sl' v : load_sample sl i r saw = Ok (sl', v) -> zlen sl' = zlen sl.
Proof.
  unfold load_sample. intros H. apply bind_Ok_inv in H as (slot & _ & H). destruct (_ <? _)%nat; [done|].
  apply bind_Ok_inv in H as (sl2 & H & [= <- _]). by eapply set_idx_length.
Qed.
Lemma step_grows s s' : step s (mret s') -> zlen (slots s') = zlen (slots s) /\ zlen (published s) <= zlen (published s').
Proof.
  intros H. inversion H as [| |chunk at_ offset Hp Ho E|chunk| | | |at_ count output Hc Hl E| | |]; subst; try (split; [done|apply Z.le_refl]).
  - unfold push_copy in E. apply bind_Ok_inv in E as (x & _ & E). apply bind_Ok_inv in E as (sl & E & [= <-]). split; [by eapply store_sample_length|apply Z.le_refl].
  - unfold push_publish. fields. split; [done|]. rewrite zlen_app. pose proof (zlen_nonneg chunk). lia.
  - unfold pop_copy in E. apply bind_Ok_inv in E as ([sl x] & E & [= <-]). split; [by eapply load_sample_length|apply Z.le_refl].
Qed.
Lemma ring_step_ok s top m : ring_ok s top -> step s m -> zlen (published s) + zlen (slots s) < 2 ^ 64 ->
  exists s', m = mret s' /\ (zlen (published s') + zlen (slots s') < 2 ^ 64 -> exists top', ring_ok s' top').
Proof.
  intros Hok Hstep Hbound. inversion Hstep; subst.
  - eexists. split; [done|]. intros _. eexists. by eapply push_load_write_ok.
  - eexists. split; [done|]. intros _. eexists. by eapply push_load_read_ok.
  - destruct (push_copy_ok s top chunk at_ offset) as (s' & -> & Hs' & _); [done..|]. exists s'. split; [done|]. by exists top.
  - eexists. split; [done|]. intros Hb. eexists. by eapply push_publish_ok.
  - eexists. split; [done|]. intros _. eexists. by eapply pop_load_read_ok.
  - eexists. split; [done|]. intros _. eexists. by eapply pop_load_discard_ok.
  - eexists. split; [done|]. intros _. eexists. by eapply pop_load_write_ok.
  - destruct (pop_copy_ok s top at_ count output) as (s' & -> & Hs' & _); [done..|]. exists s'. split; [done|]. by exists top.
  - eexists. split; [done|]. intros _. eexists. by eapply pop_publish_ok.
  - eexists. split; [done|]. intros _. eexists. by eapply clear_load_ok.
  - eexists. split; [done|]. intros _. eexists. by eapply clear_store_ok.
Qed.
Lemma new_ok capacity : 0 < capacity < 2 ^ 63 - 1 -> exists s, new capacity = mret s /\ ring_ok s 0 /\ zlen (slots s) = capacity.
Proof.
  intros Hc. unfold new. rewrite (proj2 (Z.ltb_lt _ _)), (proj2 (Z.ltb_lt _ _)) by lia. cbn [andb negb]. eexists. split; [reflexivity|].
  fields. set (cell := {| sample := 0; written := 0; taken := 0 |}). assert (Hlen : zlen (replicate (Z.to_nat capacity) cell) = capacity) by (unfold zlen; rewrite length_replicate; lia).
  split; [|done]. assert (Hrising : rising [0] 0).
  { split; [done|]. split; [intros i v Hi|intros i j v w _ Hi Hj]; repeat match goal with H : [_] !! _ = Some _ |- _ => apply list_lookup_singleton_Some in H as [_ <-] end; lia. }
  constructor; fields; rewrite ?Hlen; try done; try (cbn; lia).
  - change (0 <= 0 + capacity). lia.
  - intros value saw [Hin|Hin]; [|by apply not_elem_of_nil in Hin]. apply list_elem_of_singleton in Hin. by simplify_eq.
  - intros p Hp. change (0 <= p < 0) in Hp. lia.
  - intros slot Hin. apply elem_of_replicate in Hin as [-> _]. cbn. lia.
  - intros j slot Hj. pose proof (zget_lt _ _ _ Hj) as Hr. rewrite zget_lookup in Hj by lia. apply list_elem_of_lookup_2, elem_of_replicate in Hj as [-> _].
    exists (j - capacity). rewrite Hlen in Hr. split; [change (j - capacity < 0); lia|]. split; [|intros; cbn; lia].
    rewrite <- (Z.mod_add (j - capacity) 1), Z.mod_small by lia. lia.
Qed.
Lemma reachable_ok s0 s : ring_ok s0 0 -> rtc moves s0 s -> zlen (published s) + zlen (slots s0) < 2 ^ 64 ->
  zlen (slots s) = zlen (slots s0) /\ exists top, ring_ok s top.
Proof.
  intros Hok Hrun. revert s Hrun. apply (rtc_ind_r (fun s => zlen (published s) + zlen (slots s0) < 2 ^ 64 ->
    zlen (slots s) = zlen (slots s0) /\ exists top, ring_ok s top)); [intros _; split; [done|by exists 0]|].
  intros s s' Hrun Hstep IH Hbound.
  destruct (step_grows s s' Hstep) as [Hn Hg]. destruct (IH ltac:(lia)) as [Hcap [top Htop]]. split; [congruence|].
  destruct (ring_step_ok s top _ Htop Hstep) as (s'' & [= <-] & Hnext); [lia|]. apply Hnext. rewrite Hn. lia.
Qed.

Lemma delivered_top published stops : forall pops from to, delivered_ok published stops from pops to -> 0 <= from -> from <= to.
Proof.
  induction pops as [|[at_ output] pops IH]; intros from to H Hf; cbn in H; [lia|]. destruct H as (Hat & _ & Hrest).
  apply IH in Hrest; pose proof (zlen_nonneg output); destruct Hat as [->|[? _]]; lia.
Qed.
(** Without a [clear], the pops together are the stream. *)
Lemma delivered_all published : forall pops from to, delivered_ok published [(0, 0%nat)] from pops to -> 0 <= from <= zlen published -> to <= zlen published ->
  take (Z.to_nat from) published ++ concat (map snd pops) = take (Z.to_nat to) published.
Proof.
  induction pops as [|[at_ output] pops IH]; intros from to H Hf Ht; cbn in H; [subst; cbn; by rewrite app_nil_r|]. destruct H as (Hat & Hout & Hrest).
  assert (at_ = from) as ->.
  { destruct Hat as [->|[Hlt [saw Hin]]]; [done|]. apply list_elem_of_singleton in Hin. simplify_eq. lia. }
  pose proof (zlen_nonneg output) as Hn. pose proof (delivered_top _ _ _ _ _ Hrest ltac:(lia)) as Hle.
  cbn [map concat snd]. rewrite <- (IH _ _ Hrest) by lia. rewrite app_assoc. f_equal.
  apply list_eq. intros i. destruct (Nat.lt_ge_cases i (Z.to_nat from)) as [Hi|Hi].
  - rewrite lookup_app_l by (rewrite length_take; unfold zlen in *; lia). rewrite !lookup_take_lt by (unfold zlen in *; lia). done.
  - rewrite lookup_app_r by (rewrite length_take; lia). rewrite length_take, Nat.min_l by (unfold zlen in *; lia).
    destruct (output !! (i - Z.to_nat from)%nat) as [x|] eqn:E.
    + pose proof (lookup_lt_Some _ _ _ E). rewrite lookup_take_lt by (unfold zlen in *; lia).
      specialize (Hout (Z.of_nat (i - Z.to_nat from)) x). rewrite !zget_lookup in Hout by lia. rewrite Nat2Z.id in Hout. rewrite <- (Hout E). f_equal. lia.
    + apply lookup_ge_None in E. rewrite lookup_take_ge by (unfold zlen in *; lia). done.
Qed.

(** C33: safety): two threads and a ring.  However the accesses of the
    decoder thread, the audio callback and the threads that clear interleave, and
    whatever older stores their loads return, no two of them race for a slot and
    no index is out of range, until 2^64 samples have been pushed.  Every pop
    takes consecutive samples of the stream that was pushed, from where the last
    pop ended or from a point further on that a [clear] has set; without a
    [clear] the pops together are a prefix of the stream. *)
Theorem pcm_ring_plays_the_stream capacity (Hc : 0 < capacity < 2 ^ 63 - 1) : exists s0, new capacity = mret s0
  /\ forall s, rtc moves s0 s -> zlen (published s) + capacity < 2 ^ 64 ->
     (forall m, step s m -> exists s', m = mret s')
     /\ exists top, 0 <= top <= zlen (published s) /\ delivered_ok (published s) (discard_before s) 0 (delivered s) top
        /\ (discard_before s = [(0, 0%nat)] -> concat (map snd (delivered s)) = take (Z.to_nat top) (published s)).
Proof.
  destruct (new_ok capacity Hc) as (s0 & Hnew & Hok & Hcap). exists s0. split; [done|]. intros s Hrun Hbound. rewrite <- Hcap in Hbound.
  destruct (reachable_ok s0 s Hok Hrun Hbound) as [Hsame [top Htop]]. split.
  - intros m Hm. destruct (ring_step_ok s top m Htop Hm) as (s' & -> & _); [lia|]. by exists s'.
  - exists top. pose proof (stored_bound s top Htop) as Hb. split; [lia|]. split; [apply Htop|]. intros Hd.
    pose proof (ro_delivered _ _ Htop) as Hdel. rewrite Hd in Hdel. apply delivered_all in Hdel; [|lia..]. done.
Qed.

Lemma step_moves s m s' : step s m -> m = mret s' -> moves s s'.
Proof. by intros H ->. Qed.
Ltac turn rule := eapply rtc_l; [eapply step_moves; [rule; vm_compute; first [reflexivity | discriminate | repeat constructor]|vm_compute; reflexivity]|].
(** Two samples go through a ring of four slots. *)
Lemma pcm_ring_plays_the_stream_witness : exists s0 s, new 4 = mret s0 /\ rtc moves s0 s /\ delivered s = [(0, [5; 6])]
  /\ exists top, delivered_ok [5; 6] [(0, 0%nat)] 0 [(0, [5; 6])] top /\ [5; 6] = take (Z.to_nat top) [5; 6].
Proof.
  destruct (pcm_ring_plays_the_stream 4 ltac:(lia)) as (s0 & Hnew & H). exists s0. vm_compute in Hnew. injection Hnew as Hs0.
  assert (Hrun : exists s, rtc moves s0 s /\ delivered s = [(0, [5; 6])] /\ published s = [5; 6] /\ discard_before s = [(0, 0%nat)]).
  { rewrite <- Hs0. eexists. split.
    - turn ltac:(idtac; eapply (StepPushLoadWrite _ [5; 6])).
      turn ltac:(idtac; eapply (StepPushLoadRead _ _ _ 0)).
      turn ltac:(idtac; eapply StepPushCopy).
      turn ltac:(idtac; eapply StepPushCopy).
      turn ltac:(idtac; eapply StepPushPublish).
      turn ltac:(idtac; eapply (StepPopLoadRead _ 2)).
      turn ltac:(idtac; eapply (StepPopLoadDiscard _ _ _ 0 0)).
      turn ltac:(idtac; eapply (StepPopLoadWrite _ _ _ _ 1)).
      turn ltac:(idtac; eapply StepPopCopy).
      turn ltac:(idtac; eapply StepPopCopy).
      turn ltac:(idtac; eapply StepPopPublish).
      apply rtc_refl.
    - done. }
  destruct Hrun as (s & Hrun & Hd & Hp & Hst). exists s. split; [by rewrite <- Hs0|]. split; [done|]. split; [done|].
  destruct (H s Hrun) as (_ & top & _ & Hdel & Hall); [rewrite Hp; vm_compute; reflexivity|]. rewrite Hd, Hp, Hst in *. exists top. split; [done|]. by apply Hall.
Defined.
