(* ===== verification/Cursor.v ===== *)
(** * Cursors

    The cursor side of the input channel ([nvst_cursor.rs],
    [nvst_bitmap_cursor.rs]): the commands that hand the cursor from the server
    to the client, the check of cursor messages, and the cache that turns the
    server's bitmaps into them.  The base64 encoder of the [base64] crate is a
    parameter. *)

From stdpp Require Import list strings.
From S2P Require Import Prelude Str Deque.

(** ** Handing the cursor over *)
Definition RETRY_INTERVAL : Z := from_millis 250.
Definition MAX_ATTEMPTS : Z := 8.
Definition SILENT_HOST_TIMEOUT : Z := from_secs 3.

Module CursorTrackingRefresh.
Record t := { started : bool; due : option Z; attempts : Z }.
Definition default : t := {| started := false; due := None; attempts := 0 |}.
Definition hidden (self : t) (now : Z) : t :=
  if started self then self else {| started := true; due := Some now; attempts := attempts self |}.
(** [update], when [send] would answer [queued]; also whether it was called. *)
Definition update (self : t) (now : Z) (queued : bool) : t * bool :=
  match due self with
  | Some due => if now <? due then (self, false) else
      let attempts := attempts self + 1 in
      ({| started := started self; attempts := attempts;
          CursorTrackingRefresh.due := if queued || (3 <=? attempts) then None else Some (now + RETRY_INTERVAL) |}, true)
  | None => (self, false)
  end.
End CursorTrackingRefresh.

Definition valid_cursor_channel_message (bytes : list u8) : outcome Empty_set bool :=
  if zlen bytes <? 7 then mret false else
  kind ← bytes.[0];
  if negb ((b2z kind =? 0) || (b2z kind =? 1)) then mret false else
  name ← bytes.[4];
  let image_length_offset := 5 + b2z name in
  match zget_range bytes image_length_offset (image_length_offset + 2) with
  | None => mret false
  | Some length =>
      let image_length := from_le_bytes length in
      let image_end := image_length_offset + 2 + image_length in
      mret ((image_end <=? zlen bytes) && existsb (Z.eqb (zlen bytes - image_end)) [0; 4; 6]
        && (negb (b2z kind =? 0) || ((b2z name =? 0) && (image_length =? 0))))
  end.

Inductive CursorCommand := Capture (enabled : bool) | Tracking.
#[export] Instance CursorCommand_eq_dec : EqDecision CursorCommand.
Proof. solve_decision. Defined.
Inductive CaptureState :=
  | Inactive
  | Waiting (deadline retry_at attempts : Z)
  | Disabling (retry_at attempts : Z)
  | Local
  | Exhausted.
Module NvstCursorCapture.
(** The state is all there is; [activate] and [reset] set it whatever it was. *)
Definition activate (now : Z) : CaptureState := Waiting (now + SILENT_HOST_TIMEOUT) (now + RETRY_INTERVAL) 1.
Definition reset : CaptureState := Inactive.
Definition notify (state : CaptureState) (now : Z) : CaptureState :=
  match state with Waiting _ _ _ => Disabling now 0 | _ => state end.
(** The commands sent and whether the client composes the cursor from now on,
    when [send] answers. *)
Definition update (state : CaptureState) (now : Z) (send : CursorCommand -> bool) : CaptureState * list CursorCommand * bool :=
  let state := match state with Waiting deadline _ _ => if deadline <=? now then Disabling now 0 else state | _ => state end in
  match state with
  | Waiting deadline retry_at attempts =>
      if (attempts <? MAX_ATTEMPTS) && (retry_at <=? now)
      then (Waiting deadline (now + RETRY_INTERVAL) (attempts + 1), [Capture true; Tracking], false)
      else (state, [], false)
  | Disabling retry_at attempts =>
      if retry_at <=? now then
        let attempts := attempts + 1 in
        if send (Capture false) then (Local, [Capture false], true)
        else if attempts =? MAX_ATTEMPTS then (Exhausted, [Capture false], false)
        else (Disabling (now + RETRY_INTERVAL) attempts, [Capture false], false)
      else (state, [], false)
  | _ => (state, [], false)
  end.
End NvstCursorCapture.

(** ** Bitmap cursors *)
Module BitmapCursors.
Definition MAX_CURSORS : Z := 16.
Definition MAX_IMAGE_BYTES : Z := 49000.

(** [None] is the error. *)
Definition get {A} (l : list A) (a b : Z) : outcome unit (list A) := ok_or (zget_range l a b) tt.
Definition read_u16 (data : list u8) (offset : Z) : outcome unit Z := bytes ← get data offset (offset + 2); mret (from_le_bytes bytes).
Definition read_u32 (data : list u8) (offset : Z) : outcome unit Z := bytes ← get data offset (offset + 4); mret (from_le_bytes bytes).
Definition none_if (c : bool) : outcome unit unit := guard_err c tt.
Definition masks : list Z := [0x00ff0000; 0x0000ff00; 0x000000ff; 0xff000000].
Definition mask_differs (image : list u8) (i : nat) : bool :=
  match read_u32 image (54 + Z.of_nat i * 4) with Ok value => negb (bool_decide (masks !! i = Some value)) | _ => true end.
(** [chunks_exact(4)] *)
Fixpoint transparent (pixels : list u8) : bool :=
  match pixels with _ :: _ :: _ :: alpha :: pixels => (b2z alpha =? 0) && transparent pixels | _ => true end.
Fixpoint opaque (pixels : list u8) : list u8 :=
  match pixels with b :: g :: r :: _ :: pixels => b :: g :: r :: Byte.xff :: opaque pixels | _ => pixels end.

(** The header that is written. *)
Definition bmp_header (image : list u8) (pixels_len : Z) : outcome unit (list u8) :=
  let bmp := replicate 122 Byte.x00 in
  head ← get image 0 54;
  bmp ← set_slice bmp 0 54 head;
  bmp ← set_slice bmp 2 6 (to_le_bytes 4 (122 + pixels_len));
  bmp ← set_slice bmp 10 14 (to_le_bytes 4 122);
  bmp ← set_slice bmp 14 18 (to_le_bytes 4 108);
  bmp ← set_slice bmp 30 34 (to_le_bytes 4 3);
  bmp ← set_slice bmp 34 38 (to_le_bytes 4 pixels_len);
  bmp ← set_slice bmp 46 54 (replicate 8 Byte.x00);
  bmp ← ofold (fun bmp '(i, mask) => set_slice bmp (54 + i * 4) (58 + i * 4) (to_le_bytes 4 mask)) (zip (zrange 4) masks) bmp;
  set_slice bmp 70 74 (to_le_bytes 4 0x73524742).

Definition normalized_bmp (image : list u8) : outcome unit (list u8 * Z * Z) :=
  none_if (MAX_IMAGE_BYTES <? zlen image);;
  magic ← get image 0 2;
  none_if (negb (bool_decide (magic = str "BM")));;
  header ← read_u32 image 14;
  none_if (negb (existsb (Z.eqb header) [40; 108; 124]));;
  planes ← read_u16 image 26;
  none_if (negb (planes =? 1));;
  bits ← read_u16 image 28;
  none_if (negb (bits =? 32));;
  width ← read_u32 image 18;
  let width := as_i32 width in
  signed_height ← read_u32 image 22;
  let signed_height := as_i32 signed_height in
  none_if (signed_height =? - 2 ^ 31);;
  let height := Z.abs signed_height in
  none_if (negb ((1 <=? width) && (width <=? 256)) || negb ((1 <=? height) && (height <=? 256)));;
  compression ← read_u32 image 30;
  none_if (negb (compression =? 0) && negb (compression =? 3));;
  none_if ((compression =? 3) && ((header <? 108) || existsb (mask_differs image) [0; 1; 2; 3]%nat));;
  offset ← read_u32 image 10;
  none_if (offset <? 14 + header);;
  let pixels_len := width * height * 4 in
  pixels ← get image offset (offset + pixels_len);
  none_if (MAX_IMAGE_BYTES <? 122 + pixels_len);;
  bmp ← bmp_header image pixels_len;
  let pixels := if (header =? 40) && (compression =? 0) && transparent pixels then opaque pixels else pixels in
  mret (bmp ++ pixels, width, height).

Section Encoder.
Context (encode : list u8 -> list u8).

(** [entries]: the cursors with their message, the least recently used first. *)
Definition Entries : Type := list (Z * list u8).
Definition position_of (id : Z) (entries : Entries) : option nat := position (fun entry => bool_decide (entry.1 = id)) entries.

(** A message with an image. *)
Definition image_message (body : list u8) (image_size : Z) : outcome unit (list u8) :=
  image ← get body 12 (12 + image_size);
  '(bmp, width, height) ← normalized_bmp image;
  hotspot_x ← read_u16 body 8;
  hotspot_y ← read_u16 body 10;
  none_if ((width <=? hotspot_x) || (height <=? hotspot_y));;
  let encoded := encode bmp in
  none_if (U16_MAX <? zlen encoded);;
  mret ([Byte.x01; Byte.x00; z2b hotspot_x; z2b hotspot_y; Byte.x09] ++ str "image/bmp" ++ to_le_bytes 2 (zlen encoded) ++ encoded).
Definition remember (entries : Entries) (id : Z) (result : list u8) : Entries :=
  let entries := List.filter (fun entry => negb (bool_decide (entry.1 = id))) entries in
  let entries := if zlen entries =? MAX_CURSORS then tail entries else entries in
  entries ++ [(id, result)].
Definition recall (entries : Entries) (id : Z) : outcome unit (Entries * list u8) :=
  index ← ok_or (position_of id entries) tt;
  entry ← ok_or (entries !! index) tt;
  mret (delete index entries ++ [entry], entry.2).

(** The optional suffix of the server, less its visibility. *)
Definition with_suffix (result suffix : list u8) : outcome unit (list u8) :=
  if zlen suffix <? 4 then mret result else
  place ← slice suffix 0 4;
  let result := result ++ place in
  if zlen suffix <? 7 then mret result else
  scale ← slice suffix 5 7;
  mret (result ++ scale).

(** The message without its suffix and where the suffix begins. *)
Definition cursor_message (entries : Entries) (body : list u8) (id image_size : Z) : outcome unit (Entries * (list u8 * Z)) :=
  if image_size =? 0 then
    '(entries, result) ← recall entries id;
    mret (entries, (result, 6))
  else
    result ← image_message body image_size;
    mret (remember entries id result, (result, 12 + image_size)).
Definition message_body (message : list u8) : outcome unit (list u8) :=
  code ← read_u16 message 0;
  none_if (negb (code =? 0x0110));;
  size ← read_u16 message 2;
  none_if (negb (zlen message =? size + 4));;
  slice message 4 (zlen message).
Definition normalize (entries : Entries) (message : list u8) : Entries * outcome unit (list u8) :=
  match
    body ← message_body message;
    id ← read_u32 body 0;
    image_size ← read_u16 body 4;
    '(entries, (result, suffix_offset)) ← cursor_message entries body id image_size;
    mret (entries, body, result, suffix_offset)
  with
  | Ok (entries, body, result, suffix_offset) =>
      (entries, suffix ← get body suffix_offset (zlen body); with_suffix result suffix)
  | Err e => (entries, Err e)
  | Panic => (entries, Panic)
  end.
End Encoder.
End BitmapCursors.

(** ** The hand-over ends *)
Import NvstCursorCapture.
Inductive CursorEvent := Notified (now : Z) | Updated (now : Z) (send : CursorCommand -> bool).
Definition time_of (e : CursorEvent) : Z := match e with Notified now | Updated now _ => now end.
(** The state, the commands sent so far with their answers, and how often the
    client was told to compose the cursor. *)
Record Handover := { capture : CaptureState; log : list (CursorCommand * bool); handed : nat }.
Definition advance (self : Handover) (e : CursorEvent) : Handover :=
  match e with
  | Notified now => {| capture := notify (capture self) now; log := log self; handed := handed self |}
  | Updated now send =>
      let '(capture, commands, done) := update (capture self) now send in
      {| capture := capture; log := log self ++ map (fun c => (c, send c)) commands; handed := (handed self + if done then 1 else 0)%nat |}
  end.
Definition activated (now : Z) : Handover := {| capture := activate now; log := []; handed := 0 |}.
(** The answers to the requests of one kind. *)
Definition answers (command : CursorCommand) (log : list (CursorCommand * bool)) : list bool :=
  omap (fun entry : CursorCommand * bool => if bool_decide (entry.1 = command) then Some entry.2 else None) log.
Lemma answers_app command l k : answers command (l ++ k) = answers command l ++ answers command k.
Proof. apply omap_app. Qed.

(** The times do not go back, and begin at [from]. *)
Fixpoint in_order (from : Z) (events : list CursorEvent) : Prop :=
  match events with [] => True | e :: events => from <= time_of e /\ in_order (time_of e) events end.
Definition last_time (from : Z) (events : list CursorEvent) : Z := match last events with Some e => time_of e | None => from end.

(** What holds from the activation on. *)
Definition handover_ok (since now : Z) (self : Handover) : Prop :=
  zlen (answers (Capture true) (log self)) <= 7
  /\ match capture self with
     | Inactive => False
     | Waiting deadline retry_at attempts =>
         deadline = since + SILENT_HOST_TIMEOUT /\ zlen (answers (Capture true) (log self)) = attempts - 1 /\ answers (Capture false) (log self) = []
         /\ handed self = 0%nat
     | Disabling retry_at attempts =>
         retry_at <= now + RETRY_INTERVAL /\ 0 <= attempts < MAX_ATTEMPTS /\ answers (Capture false) (log self) = replicate (Z.to_nat attempts) false /\ handed self = 0%nat
     | Local => exists n, (n < 8)%nat /\ answers (Capture false) (log self) = replicate n false ++ [true] /\ handed self = 1%nat
     | Exhausted => answers (Capture false) (log self) = replicate 8 false /\ handed self = 0%nat
     end.
Lemma handover_later since now later self : now <= later -> handover_ok since now self -> handover_ok since later self.
Proof. intros Hl [H1 H2]. split; [done|]. destruct (capture self); try done. destruct H2 as (? & ? & ? & ?). split; [lia|]. done. Qed.

Lemma update_disabling since now send retry_at attempts log :
  zlen (answers (Capture true) log) <= 7 -> 0 <= attempts < MAX_ATTEMPTS -> retry_at <= now + RETRY_INTERVAL ->
  answers (Capture false) log = replicate (Z.to_nat attempts) false ->
  handover_ok since now (advance {| capture := Disabling retry_at attempts; log := log; handed := 0 |} (Updated now send)).
Proof.
  intros H1 Ha Hr Hf. unfold advance, update. cbn [capture Cursor.log handed]. destruct (retry_at <=? now).
  2: { cbn [map]. rewrite app_nil_r. by split. }
  destruct (send (Capture false)) eqn:Hs; [|destruct (Z.eqb_spec (attempts + 1) MAX_ATTEMPTS) as [E|E]]; cbn [map];
    (split; cbn [Cursor.log capture handed]; rewrite answers_app; [cbn; by rewrite app_nil_r|]); rewrite Hf; cbn; rewrite Hs.
  - exists (Z.to_nat attempts). unfold MAX_ATTEMPTS in Ha. split; [lia|]. done.
  - unfold MAX_ATTEMPTS in *. assert (attempts = 7) as -> by lia. done.
  - split; [lia|]. unfold MAX_ATTEMPTS in *. split; [lia|]. split; [|done]. replace (Z.to_nat (attempts + 1)) with (Z.to_nat attempts + 1)%nat by lia.
    by rewrite replicate_add.
Qed.
Lemma advance_ok since now self e : handover_ok since now self -> now <= time_of e -> handover_ok since (time_of e) (advance self e).
Proof.
  intros Hok Ht. apply (handover_later _ _ (time_of e) _ Ht) in Hok. destruct self as [st l h]. destruct Hok as [H1 H2].
  cbn [Cursor.log capture handed] in *. destruct e as [t|t send]; cbn [time_of] in *.
  - split; [done|]. cbn [advance capture Cursor.log handed]. destruct st; cbn [notify]; try done.
    destruct H2 as (_ & _ & Hf & Hh). rewrite Hf. unfold RETRY_INTERVAL, MAX_ATTEMPTS, from_millis. split; [lia|]. split; [lia|]. done.
  - destruct st as [|deadline retry_at attempts|retry_at attempts| |]; [done| | |..].
    + destruct H2 as (-> & Hn & Hf & ->). destruct (Z.leb_spec (since + SILENT_HOST_TIMEOUT) t) as [Hd|Hd].
      * assert (Heq : advance {| capture := Waiting (since + SILENT_HOST_TIMEOUT) retry_at attempts; Cursor.log := l; handed := 0 |} (Updated t send)
          = advance {| capture := Disabling t 0; Cursor.log := l; handed := 0 |} (Updated t send)).
        { unfold advance, update. cbn [capture]. by rewrite (proj2 (Z.leb_le _ _) Hd). }
        rewrite Heq. apply update_disabling; [done| |unfold RETRY_INTERVAL, from_millis; lia|done]. unfold MAX_ATTEMPTS. lia.
      * unfold advance, update. cbn [capture]. rewrite (proj2 (Z.leb_gt _ _) Hd). destruct (_ && _) eqn:E; [zbool|].
        -- cbn [map]. split; cbn [Cursor.log capture handed]; rewrite !answers_app; cbn [answers omap fst snd bool_decide]; rewrite ?zlen_app.
           ++ unfold MAX_ATTEMPTS in *. change (zlen (answers (Capture true) [(Capture true, send (Capture true)); (Tracking, send Tracking)])) with 1. lia.
           ++ split; [done|]. change (zlen (answers (Capture true) [(Capture true, send (Capture true)); (Tracking, send Tracking)])) with 1. split; [lia|]. by rewrite Hf.
        -- cbn [map]. rewrite app_nil_r. by split.
    + destruct H2 as (Hr & Ha & Hf & ->). by apply update_disabling.
    + unfold advance, update. cbn [capture map]. rewrite app_nil_r, Nat.add_0_r. by split.
    + unfold advance, update. cbn [capture map]. rewrite app_nil_r, Nat.add_0_r. by split.
Qed.
Lemma handover_run_ok since events : forall now self, handover_ok since now self -> in_order now events -> handover_ok since (last_time now events) (foldl advance self events).
Proof.
  induction events as [|e events IH]; intros now self Hok Hord; [done|]. destruct Hord as [Ht Hord]. cbn [foldl].
  apply (advance_ok since now self e) in Hok; [|done]. specialize (IH _ _ Hok Hord). unfold last_time in *. destruct events as [|e2 events]; [exact IH|].
  change (last (e :: e2 :: events)) with (last (e2 :: events)). destruct (last (e2 :: events)) eqn:E; [exact IH|]. by apply last_None in E.
Qed.

(** Updates no closer together than a retry, from [due] on. *)
Fixpoint spaced (due : Z) (events : list CursorEvent) : Prop :=
  match events with
  | [] => True
  | Updated now _ :: events => due <= now /\ spaced (now + RETRY_INTERVAL) events
  | Notified _ :: _ => False
  end.
Lemma spaced_in_order events : forall due from, from <= due -> spaced due events -> in_order from events.
Proof.
  induction events as [|[|now send] events IH]; intros due from Hd Hs; [done|done|]. destruct Hs as [Hn Hs]. split; [cbn; lia|].
  eapply IH; [|exact Hs]. unfold RETRY_INTERVAL, from_millis. cbn [time_of]. lia.
Qed.
Definition settled (self : Handover) : Prop := capture self = Local \/ capture self = Exhausted.
Lemma settled_stays self e : settled self -> settled (advance self e).
Proof. destruct self as [st l h]. intros [H|H]; cbn in H; subst; destruct e; [by left..|by right|by right]. Qed.
Lemma settled_stays_all events : forall self, settled self -> settled (foldl advance self events).
Proof. induction events as [|e events IH]; intros self H; [done|]. apply IH. by apply settled_stays. Qed.
Lemma disabling_settles events : forall self retry_at attempts due, capture self = Disabling retry_at attempts -> retry_at <= due ->
  0 <= attempts < MAX_ATTEMPTS -> spaced due events -> MAX_ATTEMPTS - attempts <= zlen events -> settled (foldl advance self events).
Proof.
  induction events as [|e events IH]; intros self retry_at attempts due Hst Hr Ha Hsp Hn; [change (zlen []) with 0 in Hn; lia|].
  destruct e as [|now send]; [done|]. destruct Hsp as [Hnow Hsp]. rewrite zlen_cons in Hn. cbn [foldl].
  destruct self as [st l h]. cbn in Hst. subst st. unfold advance at 2, update. cbn [capture]. rewrite (proj2 (Z.leb_le _ _)) by lia.
  destruct (send (Capture false)); [apply settled_stays_all; by left|]. destruct (Z.eqb_spec (attempts + 1) MAX_ATTEMPTS); [apply settled_stays_all; by right|].
  eapply IH; [reflexivity|apply Z.le_refl|lia|done|lia].
Qed.
Lemma overdue_settles since now self events : handover_ok since now self ->
  spaced (Z.max (since + SILENT_HOST_TIMEOUT) (now + RETRY_INTERVAL)) events -> MAX_ATTEMPTS <= zlen events -> settled (foldl advance self events).
Proof.
  intros [_ H2] Hsp Hn. destruct self as [st l h]. cbn [capture Cursor.log handed] in H2. destruct st as [|deadline retry_at attempts|retry_at attempts| |]; [done| | |apply settled_stays_all; by left|apply settled_stays_all; by right].
  - destruct H2 as (-> & _). destruct events as [|[|t send] events]; [change (zlen []) with 0 in Hn; unfold MAX_ATTEMPTS in Hn; lia|done|].
    destruct Hsp as [Ht Hsp]. assert (Heq : foldl advance {| capture := Waiting (since + SILENT_HOST_TIMEOUT) retry_at attempts; Cursor.log := l; handed := h |} (Updated t send :: events)
      = foldl advance {| capture := Disabling t 0; Cursor.log := l; handed := h |} (Updated t send :: events)).
    { cbn [foldl]. f_equal. unfold advance, update. cbn [capture]. by rewrite (proj2 (Z.leb_le _ _)) by lia. }
    rewrite Heq. eapply (disabling_settles _ _ t 0 t); [done|lia|unfold MAX_ATTEMPTS; lia| |lia]. by split; [apply Z.le_refl|].
  - destruct H2 as (Hr & Ha & _). eapply disabling_settles; [reflexivity| |done|exact Hsp|lia]. lia.
Qed.

(** C34: the cursor is handed over, once.  After an activation, whatever
    notifications and updates follow and whatever the queue answers, at most
    seven more requests to the server and eight to end its cursor are sent, and
    the client is told to compose the cursor at most once, exactly when such a
    request was accepted.  Once the host has been silent for three seconds,
    eight updates a retry apart settle it: the cursor is local, or all eight
    requests were refused. *)
Theorem cursor_is_handed_over since events updates
    (Hord : in_order since events)
    (Hsp : spaced (Z.max (since + SILENT_HOST_TIMEOUT) (last_time since events + RETRY_INTERVAL)) updates) :
  let before := foldl advance (activated since) events in
  let after := foldl advance before updates in
  zlen (answers (Capture true) (log before)) <= 7 /\ zlen (answers (Capture false) (log before)) <= 8
  /\ (handed before <= 1)%nat /\ (handed before = 1%nat <-> last (answers (Capture false) (log before)) = Some true)
  /\ (MAX_ATTEMPTS <= zlen updates ->
       capture after = Local /\ handed after = 1%nat
       \/ capture after = Exhausted /\ answers (Capture false) (log after) = replicate 8 false).
Proof.
  cbv zeta. assert (H0 : handover_ok since since (activated since)) by done.
  pose proof (handover_run_ok since events since _ H0 Hord) as Hok. set (before := foldl advance (activated since) events) in *.
  assert (Hbounds : zlen (answers (Capture false) (log before)) <= 8 /\ (handed before <= 1)%nat
    /\ (handed before = 1%nat <-> last (answers (Capture false) (log before)) = Some true)).
  { destruct Hok as [_ H2]. destruct (capture before) as [|d r a|r a| |]; [done|..].
    - destruct H2 as (_ & _ & -> & ->). split; [by vm_compute|]. split; [lia|]. split; [done|]. by vm_compute.
    - destruct H2 as (_ & Ha & -> & ->). unfold MAX_ATTEMPTS, zlen in *. rewrite length_replicate. split; [lia|]. split; [lia|]. split; [done|].
      intros Hl. apply last_Some in Hl as [k Hk]. assert (Hin : true ∈ replicate (Z.to_nat a) false) by (rewrite Hk; set_solver). by apply elem_of_replicate in Hin as [? _].
    - destruct H2 as (n & Hn & -> & ->). unfold zlen. rewrite length_app, length_replicate, last_snoc. cbn. split; [lia|]. split; [lia|]. done.
    - destruct H2 as (-> & ->). split; [by vm_compute|]. split; [lia|]. split; [done|]. by vm_compute. }
  split; [apply Hok|]. split; [apply Hbounds|]. split; [apply Hbounds|]. split; [apply Hbounds|]. intros Hn.
  destruct (overdue_settles since _ before updates Hok Hsp Hn) as [Hs|Hs].
  all: assert (Hord2 : in_order (last_time since events) updates) by (eapply spaced_in_order; [|exact Hsp]; unfold RETRY_INTERVAL, from_millis; lia).
  all: pose proof (handover_run_ok since updates _ _ Hok Hord2) as [_ H2]; rewrite Hs in H2.
  - left. destruct H2 as (n & _ & _ & H). done.
  - right. by destruct H2.
Qed.

(** A silent host whose queue is full twice. *)
Definition example_updates : list CursorEvent := map (fun k => Updated (from_secs 3 + k * RETRY_INTERVAL) (fun _ => 2 <=? k)) (zrange 8).
Lemma cursor_is_handed_over_witness :
  let after := foldl advance (activated 0) example_updates in
  capture after = Local
  /\ (capture after = Local /\ handed after = 1%nat \/ capture after = Exhausted /\ answers (Capture false) (log after) = replicate 8 false).
Proof.
  cbv zeta. split; [reflexivity|]. refine (proj2 (proj2 (proj2 (proj2 (cursor_is_handed_over 0 [] example_updates I _)))) _).
  - repeat split; vm_compute; discriminate.
  - vm_compute. discriminate.
Defined.

(** ** Bitmaps *)
Module BitmapProofs.
Import BitmapCursors.
Lemma get_Ok {A} (l : list A) a b r : get l a b = Ok r -> zget_range l a b = Some r.
Proof. unfold get. destruct (zget_range l a b); [by intros [= ->]|done]. Qed.
Lemma none_if_Ok c u : none_if c = Ok u -> c = false.
Proof. apply guard_err_inv. Qed.

(** The header, byte for byte. *)
Lemma bmp_header_spec image pixels_len : 54 <= zlen image ->
  bmp_header image pixels_len = Ok (take 2 image ++ to_le_bytes 4 (122 + pixels_len) ++ take 4 (drop 6 image) ++ to_le_bytes 4 122 ++ to_le_bytes 4 108
    ++ take 12 (drop 18 image) ++ to_le_bytes 4 3 ++ to_le_bytes 4 pixels_len ++ take 8 (drop 38 image) ++ replicate 8 Byte.x00
    ++ concat (map (to_le_bytes 4) masks) ++ to_le_bytes 4 0x73524742 ++ replicate 48 Byte.x00).
Proof.
  intros Hlen. unfold zlen in Hlen.
  do 54 (destruct image as [|? image]; [cbn [length] in Hlen; lia|]). clear Hlen.
  unfold bmp_header, get. rewrite (zget_range_Some _ 0 54) by (unfold zlen; cbn [length]; lia).
  unfold masks. cbn [to_le_bytes]. set (size := 122 + pixels_len). reflexivity.
Qed.

Definition header_bytes (image : list u8) (pixels_len : Z) : list u8 :=
  take 2 image ++ to_le_bytes 4 (122 + pixels_len) ++ take 4 (drop 6 image) ++ to_le_bytes 4 122 ++ to_le_bytes 4 108
    ++ take 12 (drop 18 image) ++ to_le_bytes 4 3 ++ to_le_bytes 4 pixels_len ++ take 8 (drop 38 image) ++ replicate 8 Byte.x00
    ++ concat (map (to_le_bytes 4) masks) ++ to_le_bytes 4 0x73524742 ++ replicate 48 Byte.x00.
Lemma header_length image pixels_len : 54 <= zlen image -> zlen (header_bytes image pixels_len) = 122.
Proof.
  intros Hlen. unfold header_bytes, zlen in *. rewrite !length_app, !length_take, !length_drop, !length_to_le_bytes, !length_replicate.
  change (length (concat (map (to_le_bytes 4) masks))) with 16%nat. lia.
Qed.
(** What is read back. *)
Lemma bmp_header_reads image pixels_len pixels : 54 <= zlen image ->
  let bmp := header_bytes image pixels_len ++ pixels in
  get bmp 0 2 = get image 0 2 /\ read_u32 bmp 14 = Ok 108 /\ read_u16 bmp 26 = read_u16 image 26 /\ read_u16 bmp 28 = read_u16 image 28
  /\ read_u32 bmp 18 = read_u32 image 18 /\ read_u32 bmp 22 = read_u32 image 22 /\ read_u32 bmp 30 = Ok 3
  /\ (forall i, In i [0; 1; 2; 3]%nat -> mask_differs bmp i = false) /\ read_u32 bmp 10 = Ok 122
  /\ bmp_header bmp pixels_len = Ok (header_bytes image pixels_len).
Proof.
  intros Hlen bmp. assert (Hbmp : 122 <= zlen bmp) by (unfold bmp; rewrite zlen_app, header_length by done; pose proof (zlen_nonneg pixels); lia).
  assert (Hheader : bmp_header bmp pixels_len = Ok (header_bytes image pixels_len)).
  { rewrite bmp_header_spec by lia. f_equal. unfold bmp. clear Hbmp bmp. unfold zlen in Hlen.
    do 54 (destruct image as [|? image]; [cbn [length] in Hlen; lia|]). reflexivity. }
  assert (Hlong : 54 <= zlen bmp) by lia. split_and!; [..|done]; unfold mask_differs, read_u32, read_u16, get; clear Hheader.
  all: try (intros i [<-|[<-|[<-|[<-|[]]]]]).
  all: rewrite ?(zget_range_Some bmp) by (cbn; lia).
  all: rewrite ?(zget_range_Some image) by lia.
  all: unfold bmp, header_bytes, zlen in *; do 54 (destruct image as [|? image]; [cbn [length] in Hlen; lia|]); reflexivity.
Qed.

(** What a bitmap that is accepted is: its dimensions, and its pixels behind the
    header, as they were or with an alpha of 255. *)
Lemma opaque_length pixels : length (opaque pixels) = length pixels.
Proof.
  assert (H : forall n pixels, (length pixels <= n)%nat -> length (opaque pixels) = length pixels); [|by apply (H (length pixels))].
  clear. induction n as [|n IH]; intros [|b [|g [|r [|a pixels]]]] Hn; try done; cbn [length] in Hn; [lia|]. cbn [opaque length]. rewrite IH by lia. done.
Qed.
Record bmp_of (image bmp : list u8) (width height : Z) : Prop := {
  bo_width : 1 <= width <= 256;
  bo_height : 1 <= height <= 256;
  bo_image : 54 <= zlen image;
  bo_size : 122 + width * height * 4 <= MAX_IMAGE_BYTES;
  bo_bytes : exists pixels, zlen pixels = width * height * 4 /\ bmp = header_bytes image (width * height * 4) ++ pixels
    /\ exists offset raw, zget_range image offset (offset + width * height * 4) = Some raw /\ (pixels = raw \/ transparent raw = true /\ pixels = opaque raw);
  bo_magic : get image 0 2 = Ok (str "BM");
  bo_planes : read_u16 image 26 = Ok 1;
  bo_bits : read_u16 image 28 = Ok 32;
  bo_read_width : exists w, read_u32 image 18 = Ok w /\ as_i32 w = width;
  bo_read_height : exists h, read_u32 image 22 = Ok h /\ as_i32 h <> - 2 ^ 31 /\ Z.abs (as_i32 h) = height
}.
Ltac next H := let x := fresh "x" in let E := fresh "E" in apply bind_Ok_inv in H as (x & E & H).
Lemma normalized_bmp_spec image bmp width height : normalized_bmp image = Ok (bmp, width, height) -> bmp_of image bmp width height.
Proof.
  unfold normalized_bmp. intros H. repeat next H.
  apply none_if_Ok in E, E1, E3, E5, E7, E10, E11, E13, E14, E16, E18.
  case_bool_decide; [|done]. subst. apply negb_false_iff in E5, E7. apply Z.eqb_eq in E5, E7. apply Z.eqb_neq in E10. apply Z.ltb_ge in E16, E18.
  apply orb_false_iff in E11 as [Hw Hh]. apply negb_false_iff, andb_true_iff in Hw as [Hw1 Hw2]. apply negb_false_iff, andb_true_iff in Hh as [Hh1 Hh2].
  apply Z.leb_le in Hw1, Hw2, Hh1, Hh2. remember (as_i32 x8) as w eqn:Hweq. remember (Z.abs (as_i32 x9)) as h eqn:Hheq.
  remember (w * h * 4) as n eqn:Hn.
  apply get_Ok in E17 as Hpixels. pose proof (zget_range_length _ _ _ _ Hpixels) as Hlen. pose proof (zget_range_inv _ _ _ _ Hpixels) as (Hr1 & Hr2 & _).
  assert (Hx2 : 40 <= x2).
  { apply negb_false_iff in E3. cbn [existsb] in E3. rewrite !orb_true_iff in E3. destruct E3 as [E3|[E3|[E3|E3]]]; [apply Z.eqb_eq in E3; lia..|done]. }
  assert (Himage : 54 <= zlen image) by nia.
  rewrite (bmp_header_spec image n Himage) in E19. injection E19 as <-. fold (header_bytes image n) in H.
  injection H as <- <- <-. constructor; rewrite <- ?Hn; try done.
  - set (shown := if _ && _ then opaque x17 else x17). exists shown. split; [|split; [done|]].
    + unfold shown. destruct (_ && transparent x17); unfold zlen in *; rewrite ?opaque_length; lia.
    + exists x15, x17. split; [done|]. unfold shown. destruct (_ && transparent x17) eqn:Ht; [right|by left]. apply andb_true_iff in Ht as [_ Ht]. done.
  - rewrite E4. by rewrite E5.
  - rewrite E6. by rewrite E7.
  - exists x8. by split.
  - exists x9. by split_and!.
Qed.
(** A bitmap that was normalized is normalized to itself. *)
Lemma normalized_again image bmp width height : bmp_of image bmp width height -> normalized_bmp bmp = Ok (bmp, width, height).
Proof.
  intros [Hw Hh Himage Hsize (pixels & Hlen & -> & _) Hmagic Hplanes Hbits (w & Hrw & Hw') (h & Hrh & Hmin & Hh')].
  set (n := width * height * 4) in *. destruct (bmp_header_reads image n pixels Himage) as (R1 & R2 & R3 & R4 & R5 & R6 & R7 & R8 & R9 & R10).
  pose proof (header_length image n Himage) as Hhl. unfold normalized_bmp. set (bmp := header_bytes image n ++ pixels) in *.
  assert (Hbl : zlen bmp = 122 + n) by (unfold bmp; rewrite zlen_app; lia).
  rewrite R1, R2, R3, R4, R5, R6, R7, R9, Hmagic, Hplanes, Hbits, Hrw, Hrh. unfold none_if at 1. rewrite (proj2 (Z.ltb_ge MAX_IMAGE_BYTES (zlen bmp))) by lia.
  cbn [guard_err mbind outcome_bind]. rewrite Hw', Hh'. unfold none_if.
  rewrite (proj2 (Z.eqb_neq _ _) Hmin), !(proj2 (Z.leb_le _ _)) by lia. cbn -[bmp n get bmp_header MAX_IMAGE_BYTES Z.mul Z.add mask_differs].
  rewrite !R8 by (cbn; tauto). cbn -[bmp n get bmp_header MAX_IMAGE_BYTES Z.mul Z.add]. fold n. change (122 <? 14 + 108) with false.
  assert (Hget : get bmp 122 (122 + n) = Ok pixels).
  { unfold get, bmp. rewrite <- Hhl. rewrite <- (app_nil_r pixels) at 1. by rewrite zget_range_prefix. }
  rewrite Hget. rewrite (proj2 (Z.ltb_ge _ _)) by lia. cbn [guard_err mbind outcome_bind]. rewrite R10. done.
Qed.

(** ** The cache *)

(** A use of a cursor: its message when it came with an image. *)
Definition use : Type := Z * option (list u8).
(** The cursors in the order of their last use, the latest first; the image a
    cursor came with last.  Uses are listed latest first. *)
Fixpoint last_used (uses : list use) : list Z :=
  match uses with [] => [] | (id, _) :: uses => id :: List.filter (fun other => negb (other =? id)) (last_used uses) end.
Fixpoint last_image (id : Z) (uses : list use) : list u8 :=
  match uses with
  | [] => []
  | (other, image) :: uses => match image with Some image => if other =? id then image else last_image id uses | None => last_image id uses end
  end.
Definition cache_ok (entries : Entries) (uses : list use) : Prop :=
  rev entries = map (fun id => (id, last_image id uses)) (take 16 (last_used uses)).

Lemma filter_NoDup {A} (f : A -> bool) l : NoDup l -> NoDup (List.filter f l).
Proof.
  induction 1 as [|x l Hx Hl IH]; [constructor|]. cbn. destruct (f x); [|done]. constructor; [|done].
  rewrite list_elem_of_In, filter_In, <- list_elem_of_In. tauto.
Qed.
Lemma last_used_NoDup uses : NoDup (last_used uses).
Proof.
  induction uses as [|[id image] uses IH]; [constructor|]. cbn. constructor; [|by apply filter_NoDup].
  rewrite list_elem_of_In, filter_In. intros [_ H]. by rewrite Z.eqb_refl in H.
Qed.
Lemma filter_absent id l : id ∉ l -> List.filter (fun other => negb (other =? id)) l = l.
Proof.
  induction l as [|x l IH]; [done|]. rewrite not_elem_of_cons. intros [Hx Hl]. cbn. destruct (Z.eqb_spec x id); [congruence|]. cbn. by rewrite IH.
Qed.
Lemma take_filter_take n : forall id (l : list Z), NoDup l ->
  take n (List.filter (fun other => negb (other =? id)) (take (S n) l)) = take n (List.filter (fun other => negb (other =? id)) l).
Proof.
  induction n as [|n IH]; intros id l Hl; [done|]. destruct l as [|x l]; [done|]. apply NoDup_cons in Hl as [Hx Hl].
  change (take (S (S n)) (x :: l)) with (x :: take (S n) l). cbn [List.filter]. destruct (Z.eqb_spec x id) as [->|Hne]; cbn [negb].
  - rewrite !filter_absent; [by rewrite take_take, Nat.min_id|done|]. intros Hin. apply Hx. rewrite <- (take_drop (S n) l). apply elem_of_app. by left.
  - cbn [take]. f_equal. by apply IH.
Qed.
Lemma filter_map_fst (id : Z) (f : Z -> list u8) l :
  List.filter (fun entry : Z * list u8 => negb (bool_decide (entry.1 = id))) (map (fun i => (i, f i)) l) = map (fun i => (i, f i)) (List.filter (fun i => negb (i =? id)) l).
Proof.
  induction l as [|i l IH]; [done|]. cbn [map List.filter fst]. destruct (Z.eqb_spec i id) as [->|Hne].
  - rewrite bool_decide_eq_true_2 by done. done.
  - rewrite bool_decide_eq_false_2 by done. cbn [negb map]. by rewrite IH.
Qed.
Lemma filter_reverse {A} (f : A -> bool) l : List.filter f (rev l) = rev (List.filter f l).
Proof. induction l as [|x l IH]; [done|]. cbn. rewrite List.filter_app, IH. cbn. destruct (f x); [done|]. apply app_nil_r. Qed.
Lemma last_image_other id image uses ids : id ∉ ids ->
  map (fun i => (i, last_image i ((id, image) :: uses))) ids = map (fun i => (i, last_image i uses)) ids.
Proof.
  intros Hid. apply map_ext_in. intros i Hi. apply list_elem_of_In in Hi. cbn. destruct image as [image|]; [|done].
  destruct (Z.eqb_spec id i) as [->|]; [done|done].
Qed.
Lemma cache_length entries uses : cache_ok entries uses -> (length entries <= 16)%nat.
Proof. intros H. apply (f_equal length) in H. rewrite length_rev, length_map, length_take in H. lia. Qed.

Lemma cache_NoDup entries uses : cache_ok entries uses -> NoDup (map fst entries).
Proof.
  intros Hok. rewrite <- (rev_involutive entries), map_rev, Hok, map_map. cbn [fst]. rewrite map_id. rewrite <- Permutation_rev.
  pose proof (last_used_NoDup uses) as H. rewrite <- (take_drop 16 (last_used uses)) in H. by apply NoDup_app in H as [H _].
Qed.
Lemma filter_keys_absent id (entries : Entries) : id ∉ map fst entries ->
  List.filter (fun entry : Z * list u8 => negb (bool_decide (entry.1 = id))) entries = entries.
Proof.
  induction entries as [|[i r] entries IH]; [done|]. cbn [map fst]. rewrite not_elem_of_cons. intros [Hx Hl]. cbn [List.filter fst].
  rewrite bool_decide_eq_false_2 by congruence. cbn [negb]. by rewrite IH.
Qed.

(** A use moves its cursor to the front. *)
Lemma used_front id image uses :
  map (fun i => (i, last_image i ((id, image) :: uses))) (take 16 (last_used ((id, image) :: uses)))
  = (id, last_image id ((id, image) :: uses))
      :: take 15 (List.filter (fun entry : Z * list u8 => negb (bool_decide (entry.1 = id))) (map (fun i => (i, last_image i uses)) (take 16 (last_used uses)))).
Proof.
  cbn [last_used take map]. f_equal. rewrite filter_map_fst, firstn_map, take_filter_take by apply last_used_NoDup. apply last_image_other.
  intros Hin. assert (Hin' : id ∈ List.filter (fun i => negb (i =? id)) (last_used uses)).
  { rewrite <- (take_drop 15 (List.filter _ _)). apply elem_of_app. by left. }
  apply list_elem_of_In, filter_In in Hin' as [_ H]. by rewrite Z.eqb_refl in H.
Qed.
Lemma remember_ok entries uses id result : cache_ok entries uses -> cache_ok (remember entries id result) ((id, Some result) :: uses).
Proof.
  intros Hok. unfold cache_ok. rewrite used_front, <- Hok, filter_reverse. cbn [last_image]. rewrite Z.eqb_refl.
  unfold remember. set (kept := List.filter _ entries). rewrite rev_unit. f_equal.
  assert (Hlen : (length kept <= 16)%nat) by (pose proof (List.filter_length_le (fun entry : Z * list u8 => negb (bool_decide (entry.1 = id))) entries); pose proof (cache_length _ _ Hok); unfold kept; lia).
  unfold MAX_CURSORS. destruct (Z.eqb_spec (zlen kept) 16) as [E|E].
  - destruct kept as [|x kept]; [done|]. cbn [tail rev]. unfold zlen in E. cbn [length] in E. rewrite take_app_le by (rewrite length_rev; lia).
    by rewrite take_ge by (rewrite length_rev; lia).
  - rewrite take_ge; [done|]. rewrite length_rev. unfold zlen in E. lia.
Qed.
Lemma filter_delete entries i id r : NoDup (map fst entries) -> entries !! i = Some (id, r) ->
  List.filter (fun entry : Z * list u8 => negb (bool_decide (entry.1 = id))) entries = delete i entries.
Proof.
  intros Hnd Hi. apply list_elem_of_split_length in Hi as (l1 & l2 & -> & ->). rewrite delete_middle, List.filter_app.
  rewrite map_app in Hnd. apply NoDup_app in Hnd as (_ & Hl & Hr). cbn [map fst] in Hl, Hr. apply NoDup_cons in Hr as [Hr _].
  cbn [List.filter fst]. rewrite bool_decide_eq_true_2 by done. cbn [negb]. rewrite !filter_keys_absent; [done|done|].
  intros Hin2. apply (Hl id Hin2). apply elem_of_cons. by left.
Qed.
Lemma recall_ok entries uses id entries' result : cache_ok entries uses -> recall entries id = Ok (entries', result) ->
  cache_ok entries' ((id, None) :: uses) /\ result = last_image id uses.
Proof.
  intros Hok H. unfold recall in H. next H. next H. injection H as <- <-. unfold position_of, position in E.
  destruct (list_find _ entries) as [[i e]|] eqn:Hf; [|done]. cbn in E. injection E as <-. apply list_find_Some in Hf as (Hi & Hid & Hfirst). assert (E1 : ok_or (Some e) tt = Ok x0) by (rewrite <- Hi; exact E0). injection E1 as <-.
  apply bool_decide_eq_true in Hid. destruct e as [eid r]. cbn in Hid. subst eid.
  assert (Hr : In (id, r) (map (fun i => (i, last_image i uses)) (take 16 (last_used uses)))).
  { rewrite <- Hok. apply in_rev. rewrite rev_involutive. apply list_elem_of_In. by eapply list_elem_of_lookup_2. }
  apply in_map_iff in Hr as (id' & [= -> <-] & Hin). split; [|done].
  pose proof (filter_delete entries i id (last_image id uses) (cache_NoDup _ _ Hok) Hi) as Hrest.
  unfold cache_ok. rewrite used_front, <- Hok, filter_reverse, Hrest. cbn [last_image]. rewrite rev_unit. f_equal.
  rewrite take_ge; [done|]. rewrite length_rev. pose proof (cache_length _ _ Hok). rewrite length_delete by done. lia.
Qed.
End BitmapProofs.

(** ** What the client gets *)
Module CursorMessages.
Import BitmapCursors BitmapProofs.
Section Messages.
Context (encode : list u8 -> list u8).

(** The use a message makes of the cache, if it is accepted. *)
Definition use_of (entries : Entries) (message : list u8) : option use :=
  match
    body ← message_body message;
    id ← read_u32 body 0;
    image_size ← read_u16 body 4;
    '(_, (result, _)) ← cursor_message encode entries body id image_size;
    mret (id, if image_size =? 0 then None else Some result)
  with Ok u => Some u | _ => None end.
Definition receive (state : Entries * list use) (message : list u8) : Entries * list use :=
  ((normalize encode state.1 message).1, match use_of state.1 message with Some u => u :: state.2 | None => state.2 end).

(** A custom cursor as the client takes it, without the suffix. *)
Definition cursor_shaped (message : list u8) : Prop :=
  exists x y encoded, zlen encoded <= U16_MAX
    /\ message = [Byte.x01; Byte.x00; x; y; Byte.x09] ++ str "image/bmp" ++ to_le_bytes 2 (zlen encoded) ++ encoded.
Lemma shaped_valid message suffix : cursor_shaped message -> In (zlen suffix) [0; 4; 6] -> valid_cursor_channel_message (message ++ suffix) = Ok true.
Proof.
  intros (x & y & encoded & Hlen & ->) Hs. set (head := [Byte.x01; Byte.x00; x; y; Byte.x09] ++ str "image/bmp").
  assert (Hm : ([Byte.x01; Byte.x00; x; y; Byte.x09] ++ str "image/bmp" ++ to_le_bytes 2 (zlen encoded) ++ encoded) ++ suffix
    = head ++ to_le_bytes 2 (zlen encoded) ++ (encoded ++ suffix)) by (unfold head; by rewrite <- !app_assoc).
  rewrite Hm. set (m := head ++ _). pose proof (zlen_nonneg encoded) as He. pose proof (zlen_nonneg suffix) as Hsn.
  assert (Hml : zlen m = 16 + zlen encoded + zlen suffix) by (unfold m; rewrite !zlen_app, zlen_to_le_bytes; change (zlen head) with 14; lia).
  unfold valid_cursor_channel_message. rewrite (proj2 (Z.ltb_ge _ _)) by lia.
  change (m.[0]) with (Ok (E:=Empty_set) Byte.x01). change (m.[4]) with (Ok (E:=Empty_set) Byte.x09). rewrite !bind_Ok.
  change (5 + b2z Byte.x09) with (zlen head). change (negb _) with false at 1. cbv iota.
  assert (Hget : zget_range m (zlen head) (zlen head + 2) = Some (to_le_bytes 2 (zlen encoded))).
  { unfold m. apply (zget_range_prefix head (to_le_bytes 2 (zlen encoded)) (encoded ++ suffix)). by rewrite zlen_to_le_bytes. }
  rewrite Hget, from_to_le_bytes by (change (256 ^ Z.of_nat 2) with 65536; unfold U16_MAX in Hlen; lia). change (zlen head) with 14.
  rewrite (proj2 (Z.leb_le _ _)) by lia. replace (zlen m - (14 + 2 + zlen encoded)) with (zlen suffix) by lia.
  assert (Hin : existsb (Z.eqb (zlen suffix)) [0; 4; 6] = true) by (apply existsb_exists; exists (zlen suffix); split; [done|apply Z.eqb_refl]).
  by rewrite Hin.
Qed.

Lemma image_message_shaped body image_size result : image_message encode body image_size = Ok result -> cursor_shaped result.
Proof.
  unfold image_message. intros H. next H. next H. destruct x0 as [[bmp width] height]. next H. next H. next H. next H. injection H as <-.
  apply none_if_Ok, Z.ltb_ge in E4. by eexists _, _, _.
Qed.
Lemma bind_never_panics {A B} (m : outcome unit A) (f : A -> outcome unit B) :
  m <> Panic -> (forall a, m = Ok a -> f a <> Panic) -> (m ≫= f) <> Panic.
Proof. destruct m; intros H1 H2; cbn; [by apply H2|done|done]. Qed.
Lemma get_never_panics {A} (l : list A) a b : get l a b <> Panic.
Proof. unfold get. by destruct (zget_range l a b). Qed.
Lemma none_if_never_panics c : none_if c <> Panic.
Proof. by destruct c. Qed.
Lemma read_u16_never_panics data offset : read_u16 data offset <> Panic.
Proof. unfold read_u16. apply bind_never_panics; [apply get_never_panics|done]. Qed.
Lemma read_u32_never_panics data offset : read_u32 data offset <> Panic.
Proof. unfold read_u32. apply bind_never_panics; [apply get_never_panics|done]. Qed.
Lemma header_never_panics image pixels_len : bmp_header image pixels_len <> Panic.
Proof.
  destruct (Z.le_gt_cases 54 (zlen image)) as [H|H]; [by rewrite bmp_header_spec|]. unfold bmp_header, get, zget_range.
  rewrite (proj2 (Z.leb_gt 54 (zlen image))) by lia. done.
Qed.
Ltac never_panics := cbv zeta; repeat first [apply get_never_panics | apply none_if_never_panics | apply read_u16_never_panics | apply read_u32_never_panics
  | apply header_never_panics | apply bind_never_panics; [|intros ? ?] | done].
Lemma normalized_never_panics image : normalized_bmp image <> Panic.
Proof. unfold normalized_bmp. never_panics. Qed.
Lemma image_message_never_panics body image_size : image_message encode body image_size <> Panic.
Proof.
  unfold image_message. apply bind_never_panics; [apply get_never_panics|intros image _].
  apply bind_never_panics; [apply normalized_never_panics|intros [[bmp width] height] _]. never_panics.
Qed.
Lemma cursor_message_never_panics entries body id image_size : cursor_message encode entries body id image_size <> Panic.
Proof.
  unfold cursor_message. destruct (image_size =? 0).
  - apply bind_never_panics; [|by intros [? ?]]. unfold recall. apply bind_never_panics; [by destruct (position_of id entries)|]. intros i _.
    apply bind_never_panics; [by destruct (entries !! i)|done].
  - apply bind_never_panics; [apply image_message_never_panics|done].
Qed.
Lemma body_never_panics message : message_body message <> Panic.
Proof.
  unfold message_body. never_panics. apply none_if_Ok in H2. apply negb_false_iff, Z.eqb_eq in H2. unfold read_u16 in H1. apply bind_Ok_inv in H1 as (b & _ & [= <-]).
  pose proof (from_le_bytes_range b). apply slice_no_panic; lia.
Qed.

(** The suffix is complete or left out. *)
Lemma with_suffix_spec result suffix : exists kept, with_suffix result suffix = Ok (result ++ kept) /\ In (zlen kept) [0; 4; 6].
Proof.
  unfold with_suffix. destruct (Z.ltb_spec (zlen suffix) 4); [exists []; rewrite app_nil_r; split; [done|by left]|].
  unfold slice. rewrite (zget_range_Some suffix 0 4) by lia. cbn [expect]. rewrite bind_Ok.
  destruct (Z.ltb_spec (zlen suffix) 7).
  - eexists. split; [reflexivity|]. right. left. unfold zlen in *. rewrite length_take, length_drop. lia.
  - rewrite zget_range_Some by lia. cbn [expect]. rewrite bind_Ok, <- app_assoc. eexists. split; [reflexivity|]. right. right. left.
    rewrite zlen_app. unfold zlen in *. rewrite !length_take, !length_drop. lia.
Qed.

(** The state between messages. *)
Definition cursors_ok (state : Entries * list use) : Prop :=
  cache_ok state.1 state.2 /\ forall id, id ∈ last_used state.2 -> cursor_shaped (last_image id state.2).
Lemma recalled_used entries uses id entries' result : cache_ok entries uses -> recall entries id = Ok (entries', result) -> id ∈ last_used uses.
Proof.
  intros Hok H. unfold recall in H. next H. unfold position_of, position in E. destruct (list_find _ entries) as [[i e]|] eqn:Hf; [|done].
  apply list_find_Some in Hf as (Hi & Hid & _). apply bool_decide_eq_true in Hid.
  assert (Hr : In e (rev entries)) by (apply in_rev; rewrite rev_involutive; apply list_elem_of_In; by eapply list_elem_of_lookup_2).
  rewrite Hok in Hr. apply in_map_iff in Hr as (id' & <- & Hin). cbn in Hid. subst id'. apply list_elem_of_In in Hin.
  rewrite <- (take_drop 16 (last_used uses)). apply elem_of_app. by left.
Qed.
Lemma cursor_message_ok entries uses body id image_size entries' result offset : cursors_ok (entries, uses) ->
  cursor_message encode entries body id image_size = Ok (entries', (result, offset)) ->
  let u := (id, if image_size =? 0 then None else Some result) in
  cursors_ok (entries', u :: uses) /\ result = last_image id (u :: uses) /\ cursor_shaped result
  /\ (6 <= zlen body -> offset <= zlen body) /\ 0 <= offset.
Proof.
  intros [Hok Hshape] H. unfold cursor_message in H. cbn [fst snd] in *. destruct (Z.eqb_spec image_size 0) as [E0|E0].
  - next H. destruct x as [entries2 r]. injection H as <- <- <-. pose proof (recalled_used _ _ _ _ _ Hok E) as Hused.
    destruct (recall_ok _ _ _ _ _ Hok E) as [Hok' ->]. cbv zeta. split; [|split; [done|split; [by apply Hshape|lia]]].
    split; [done|]. cbn [fst snd]. intros id' Hin. cbn [last_image]. apply Hshape. cbn [last_used] in Hin. apply elem_of_cons in Hin as [->|Hin]; [done|].
    apply list_elem_of_In, filter_In in Hin as [Hin _]. by apply list_elem_of_In.
  - next H. injection H as <- <- <-. pose proof (image_message_shaped _ _ _ E) as Hs. cbv zeta. split; [|split; [|split; [done|]]].
    + split; [by apply remember_ok|]. cbn [fst snd]. intros id' Hin. cbn [last_image]. destruct (Z.eqb_spec id id') as [->|Hne]; [done|].
      apply Hshape. cbn [last_used] in Hin. apply elem_of_cons in Hin as [->|Hin]; [done|]. apply list_elem_of_In, filter_In in Hin as [Hin _]. by apply list_elem_of_In.
    + cbn [last_image]. by rewrite Z.eqb_refl.
    + unfold image_message in E. next E. apply get_Ok, zget_range_inv in E1 as (? & ? & _). lia.
Qed.
Lemma normalize_ok entries uses message : cursors_ok (entries, uses) ->
  cursors_ok (receive (entries, uses) message)
  /\ match normalize encode entries message with
     | (entries', Ok result) => exists id image, use_of entries message = Some (id, image)
         /\ last_image id ((id, image) :: uses) `prefix_of` result /\ valid_cursor_channel_message result = Ok true
     | (entries', Err _) => entries' = entries /\ use_of entries message = None
     | (_, Panic) => False
     end.
Proof.
  intros Hok. unfold receive, normalize, use_of. cbn [fst snd]. pose proof (body_never_panics message) as Hb.
  destruct (message_body message) as [body|[]|]; cbn [mbind outcome_bind]; [|by split|done]. pose proof (read_u32_never_panics body 0) as H0.
  destruct (read_u32 body 0) as [id|[]|]; cbn [mbind outcome_bind]; [|by split|done]. pose proof (read_u16_never_panics body 4) as H4.
  destruct (read_u16 body 4) as [image_size|[]|] eqn:E4; cbn [mbind outcome_bind]; [|by split|done].
  pose proof (cursor_message_never_panics entries body id image_size) as Hc.
  destruct (cursor_message encode entries body id image_size) as [[entries' [result offset]]|[]|] eqn:E; cbn [mbind outcome_bind]; [|by split|done].
  cbn [mret outcome_ret fst]. destruct (cursor_message_ok _ _ _ _ _ _ _ _ Hok E) as (Hok' & Hres & Hshape & Hoff & Hpos). split; [done|].
  assert (Hbody : 6 <= zlen body).
  { unfold read_u16 in E4. apply bind_Ok_inv in E4 as (b & Eb & _). apply get_Ok, zget_range_inv in Eb. lia. }
  unfold get at 1. rewrite zget_range_Some by lia. cbn [ok_or mbind outcome_bind].
  match goal with |- context [with_suffix result ?s] => destruct (with_suffix_spec result s) as (kept & -> & Hkept) end.
  exists id, (if image_size =? 0 then None else Some result). split; [done|]. rewrite <- Hres. split; [by exists kept|]. by apply shaped_valid.
Qed.

(** C35: the cursors the client knows.  Whatever messages the server sends, none
    panics; the cache holds exactly the sixteen cursors used last, each with the
    image it came with last, and a message that is refused changes nothing.  A
    message that is accepted gives the last image of its cursor with at most a
    position and a scale behind it, and passes the client's own check. *)
Theorem bitmap_cursors_are_the_last_used (messages : list (list u8)) (message : list u8) :
  let '(entries, uses) := foldl receive ([], []) messages in
  cache_ok entries uses
  /\ match normalize encode entries message with
     | (entries', Ok result) => exists id image, use_of entries message = Some (id, image)
         /\ last_image id ((id, image) :: uses) `prefix_of` result /\ valid_cursor_channel_message result = Ok true
     | (entries', Err _) => entries' = entries /\ use_of entries message = None
     | (_, Panic) => False
     end.
Proof.
  assert (H : forall messages state, cursors_ok state -> cursors_ok (foldl receive state messages)).
  { clear. induction messages as [|m messages IH]; intros [entries uses] Hok; [done|]. cbn [foldl]. apply IH. by apply normalize_ok. }
  specialize (H messages ([], [])). destruct (foldl receive ([], []) messages) as [entries uses].
  assert (Hok : cursors_ok (entries, uses)) by (apply H; split; [done|]; intros id Hin; by apply not_elem_of_nil in Hin).
  split; [apply Hok|]. by apply normalize_ok.
Qed.
End Messages.
End CursorMessages.
