(* ===== verification/Haptics.v ===== *)
(** * Rumble and microphone

    [NvstHaptics] keeps the latest rumble of each of four controllers
    ([nvst_haptics.rs]); [MicrophoneQueue] the last frames of the microphone
    ([nvst_microphone.rs]). *)

From stdpp Require Import list.
From S2P Require Import Prelude Hid.

Definition HAPTIC_COMMAND_CODE : Z := 0x010b.
Record NvstControllerRumble := {
  controller_id : Z;
  low_frequency : Z;
  high_frequency : Z;
  duration_ms : Z;
  source_incarnation : option Z
}.

Module NvstHaptics.
(** [pending]: a slot for each controller, and how many were overwritten. *)
Record t := { slots : list (option NvstControllerRumble); coalesced : Z }.
Definition default : t := {| slots := [None; None; None; None]; coalesced := 0 |}.

Definition store (self : t) (slot : Z) (command : NvstControllerRumble) : outcome Empty_set t :=
  old ← (slots self).[slot];
  slots ← set_idx (slots self) slot (Some command);
  mret {| NvstHaptics.slots := slots; coalesced := match old with Some _ => saturating_add64 (coalesced self) 1 | None => coalesced self end |}.

Definition le16 (bytes : list u8) (i : Z) : outcome Empty_set Z := lo ← bytes.[i]; hi ← bytes.[i + 1]; mret (from_le_bytes [lo; hi]).

Definition record_command (record : list u8) (record_length controller_id : Z) : outcome Empty_set NvstControllerRumble :=
  duration ← (if record_length =? 8 then le16 record 6 else mret 0);
  low ← le16 record 2;
  high ← le16 record 4;
  mret {| controller_id := controller_id; low_frequency := low; high_frequency := high;
          duration_ms := if duration =? 0 then 1000 else duration; source_incarnation := None |}.
(** One record; those of other controllers are skipped. *)
Definition receive_record (record_length : Z) (self : t) (record : list u8) : outcome Empty_set t :=
  controller_id ← le16 record 0;
  if 4 <=? controller_id then mret self else
  command ← record_command record record_length controller_id;
  store self controller_id command.
(** [chunks_exact] *)
Fixpoint chunks_exact (fuel : nat) (n : nat) (bytes : list u8) : list (list u8) :=
  match fuel with
  | O => []
  | S fuel => if (length bytes <? n)%nat then [] else take n bytes :: chunks_exact fuel n (drop n bytes)
  end.
Definition record_length_of (kind : Z) : option Z := if kind =? 1 then Some 6 else if kind =? 2 then Some 8 else None.
Definition receive_command (self : t) (payload : list u8) : outcome Empty_set t :=
  kind ← le16 payload 0;
  match record_length_of kind with
  | None => mret self
  | Some record_length =>
      declared ← le16 payload 2;
      let available := Z.min declared (zlen payload - 4) in
      records ← slice payload 4 (4 + available);
      ofold (receive_record record_length) (chunks_exact (length records) (Z.to_nat record_length) records) self
  end.
(** The loop over the frames; every turn takes at least four bytes. *)
Fixpoint receive_frames (fuel : nat) (self : t) (bytes : list u8) : outcome Empty_set t :=
  match fuel with
  | O => Panic
  | S fuel =>
      if zlen bytes <? 4 then mret self else
      code ← le16 bytes 0;
      length ← le16 bytes 2;
      match zget_range bytes 4 (4 + length) with
      | None => mret self
      | Some payload =>
          bytes ← slice bytes (4 + length) (zlen bytes);
          if negb (code =? HAPTIC_COMMAND_CODE) || (zlen payload <? 4) then receive_frames fuel self bytes else
          self ← receive_command self payload;
          receive_frames fuel self bytes
      end
  end.
Definition receive (self : t) (bytes : list u8) : outcome Empty_set t := receive_frames (S (length bytes)) self bytes.
Definition take_pending (self : t) : t * (list (option NvstControllerRumble) * Z) := (default, (slots self, coalesced self)).
Definition store_sony (self : t) (rumble : SonyRumble) : outcome Empty_set t :=
  store self (rumble_slot rumble) {| controller_id := rumble_slot rumble; low_frequency := Hid.low_frequency rumble;
    high_frequency := Hid.high_frequency rumble; duration_ms := 0; source_incarnation := Some (rumble_incarnation rumble) |}.
End NvstHaptics.

(** ** The microphone *)
Definition MICROPHONE_QUEUE_CAPACITY : Z := 5.
Definition MAX_OPUS_BYTES : Z := 1275.
Definition MAX_FRAME_AGE : Z := from_millis 100.
Record MicrophoneFrame := { payload : list u8; timestamp : Z; queued_at : Z }.
Inductive MicrophoneError := Closed | MicrophoneUnavailable | MicrophoneDisabled | InvalidMicrophoneFrame.

Definition microphone_frame (p : list u8) (ts now : Z) : MicrophoneFrame := {| payload := p; timestamp := ts; queued_at := now |}.

Module MicrophoneQueue.
Record t := { available : bool; enabled : bool; closed : bool; generation : Z; frames : list MicrophoneFrame; dropped : Z }.
Definition new (available : bool) : t :=
  {| MicrophoneQueue.available := available; enabled := false; closed := false; generation := 0; frames := []; dropped := 0 |}.
Definition clear (self : t) : t := self <| dropped := dropped self + zlen (frames self) |> <| frames := [] |>.
Definition set_enabled (self : t) (enabled : bool) : t * option MicrophoneError :=
  let self := clear self in
  let self := self <| generation := as_u64 (generation self + 1) |> in
  if closed self then (self, Some Closed) else
  if enabled && negb (available self) then (self, Some MicrophoneUnavailable) else
  (self <| MicrophoneQueue.enabled := enabled |>, None).
Definition push (self : t) (payload : list u8) (timestamp now : Z) : t * option MicrophoneError :=
  if closed self then (self, Some Closed) else
  if negb (available self) then (self, Some MicrophoneUnavailable) else
  if negb (enabled self) then (self, Some MicrophoneDisabled) else
  if (zlen payload =? 0) || (MAX_OPUS_BYTES <? zlen payload) then (self, Some InvalidMicrophoneFrame) else
  let self := if zlen (frames self) =? MICROPHONE_QUEUE_CAPACITY
    then self <| frames := tail (frames self) |> <| dropped := dropped self + 1 |> else self in
  (self <| frames := frames self ++ [microphone_frame payload timestamp now] |>, None).
Fixpoint pop_fresh (frames : list MicrophoneFrame) (dropped now : Z) : list MicrophoneFrame * Z * option MicrophoneFrame :=
  match frames with
  | [] => ([], dropped, None)
  | frame :: frames => if saturating_duration_since now (queued_at frame) <? MAX_FRAME_AGE then (frames, dropped, Some frame) else pop_fresh frames (dropped + 1) now
  end.
Definition pop (self : t) (now : Z) : t * option MicrophoneFrame :=
  let '(frames, dropped, frame) := pop_fresh (frames self) (dropped self) now in
  (self <| MicrophoneQueue.frames := frames |> <| MicrophoneQueue.dropped := dropped |>, frame).
Definition close (self : t) : t :=
  let self := clear self in
  let self := self <| enabled := false |> <| closed := true |> in
  self <| generation := as_u64 (generation self + 1) |>.
End MicrophoneQueue.

(** ** Rumble *)
Import NvstHaptics.
(** The latest of the commands for a slot, after what was there. *)
Definition latest (i : Z) (commands : list NvstControllerRumble) (old : option NvstControllerRumble) : option NvstControllerRumble :=
  foldl (fun old command => if controller_id command =? i then Some command else old) old commands.
Definition occupied (slots : list (option NvstControllerRumble)) : Z := zlen (omap id slots).

(** What commands make of the pending ones: the latest of each slot stays, the
    others are counted. *)
Record felt (self : t) (commands : list NvstControllerRumble) (self' : t) : Prop := {
  fe_slots : zlen (slots self') = 4;
  fe_latest : forall i, 0 <= i < 4 -> zget (slots self') i = Some (latest i commands (from_option id None (zget (slots self) i)));
  fe_counted : coalesced self' = Z.min U64_MAX (coalesced self + (occupied (slots self) + zlen commands - occupied (slots self')));
  fe_grows : occupied (slots self) <= occupied (slots self') <= occupied (slots self) + zlen commands
}.
Definition in_range (command : NvstControllerRumble) : Prop := 0 <= controller_id command < 4.

Lemma store_ok self command : zlen (slots self) = 4 -> 0 <= coalesced self <= U64_MAX -> in_range command ->
  exists self', store self (controller_id command) command = Ok self' /\ felt self [command] self'.
Proof.
  intros H4 Hc Hr. unfold in_range in Hr. unfold store, idx. destruct self as [sl c]. cbn [slots coalesced] in *.
  destruct sl as [|s0 [|s1 [|s2 [|s3 [|]]]]]; try (unfold zlen in H4; cbn in H4; lia). clear H4. unfold U64_MAX in Hc.
  assert (Hcase : controller_id command = 0 \/ controller_id command = 1 \/ controller_id command = 2 \/ controller_id command = 3) by lia.
  destruct Hcase as [E|[E|[E|E]]]; rewrite E; eexists; (split; [reflexivity|]); constructor; cbn [slots coalesced NvstHaptics.slots];
    try reflexivity;
    try (intros i Hi; assert (Hi' : i = 0 \/ i = 1 \/ i = 2 \/ i = 3) by lia; destruct Hi' as [->|[->|[->| ->]]]; unfold latest; cbn [foldl]; rewrite E; reflexivity);
    destruct s0, s1, s2, s3; repeat match goal with |- context [occupied ?l] => let v := eval cbv in (occupied l) in change (occupied l) with v end;
    change (zlen [command]) with 1; unfold saturating_add64, U64_MAX; lia.
Qed.
Lemma latest_command_app i a b old : latest i (a ++ b) old = latest i b (latest i a old).
Proof. apply foldl_app. Qed.
Lemma felt_nil self : zlen (slots self) = 4 -> 0 <= coalesced self <= U64_MAX -> felt self [] self.
Proof.
  intros H4 Hc. constructor; [done| | |change (zlen []) with 0; lia].
  - intros i Hi. unfold latest. cbn [foldl]. destruct (zget_Some (slots self) i) as [x Hx]; [lia|]. by rewrite Hx.
  - change (zlen []) with 0. lia.
Qed.
Lemma felt_trans a b c l k : 0 <= coalesced a -> felt a l b -> felt b k c -> felt a (l ++ k) c.
Proof.
  intros Hc [A1 A2 A3 A4] [B1 B2 B3 B4]. constructor; [done| | |rewrite zlen_app; lia].
  - intros i Hi. rewrite B2, A2, latest_command_app by done. done.
  - rewrite B3, A3, zlen_app. unfold U64_MAX in *. lia.
Qed.
Lemma felt_coalesced a l b : 0 <= coalesced a <= U64_MAX -> felt a l b -> 0 <= coalesced b <= U64_MAX.
Proof. intros Hc [_ _ H3 H4]. rewrite H3. unfold U64_MAX in *. lia. Qed.
Definition haptics_ok (self : t) : Prop := zlen (slots self) = 4 /\ 0 <= coalesced self <= U64_MAX.

(** The command a record stands for. *)
Definition command_of (pulse : bool) (record : Z * Z * Z * Z) : NvstControllerRumble :=
  let '(controller, low, high, duration) := record in
  {| controller_id := controller; low_frequency := low; high_frequency := high;
     duration_ms := if pulse && negb (duration =? 0) then duration else 1000; source_incarnation := None |}.
Definition encode_record (pulse : bool) (record : Z * Z * Z * Z) : list u8 :=
  let '(controller, low, high, duration) := record in
  to_le_bytes 2 controller ++ to_le_bytes 2 low ++ to_le_bytes 2 high ++ (if pulse then to_le_bytes 2 duration else []).
Definition record_ok (record : Z * Z * Z * Z) : Prop :=
  let '(controller, low, high, duration) := record in is_u16 controller /\ is_u16 low /\ is_u16 high /\ is_u16 duration.
Definition record_size (pulse : bool) : nat := if pulse then 8%nat else 6%nat.
Definition mine (command : NvstControllerRumble) : bool := controller_id command <? 4.

Lemma le16_at pre z post : is_u16 z -> le16 (pre ++ to_le_bytes 2 z ++ post) (zlen pre) = Ok z.
Proof.
  intros Hz. set (bytes := pre ++ _). assert (H0 : zget bytes (zlen pre) = Some (z2b z)) by (unfold bytes; by rewrite zget_at).
  assert (H1 : zget bytes (zlen pre + 1) = Some (z2b (z / 256))).
  { unfold bytes. change (pre ++ to_le_bytes 2 z ++ post) with (pre ++ [z2b z] ++ (z2b (z / 256) :: post)). rewrite app_assoc.
    replace (zlen pre + 1) with (zlen (pre ++ [z2b z])) by (rewrite zlen_app; done). by rewrite zget_at. }
  unfold le16, idx. rewrite H0, H1. change (Ok (E:=Empty_set) (from_le_bytes (to_le_bytes 2 z)) = Ok z).
  rewrite from_to_le_bytes; [done|]. unfold is_u16 in Hz. change (256 ^ Z.of_nat 2) with (2 ^ 16). lia.
Qed.
Lemma receive_record_ok pulse self record : haptics_ok self -> record_ok record ->
  exists self', receive_record (Z.of_nat (record_size pulse)) self (encode_record pulse record) = Ok self'
    /\ felt self (List.filter mine [command_of pulse record]) self'.
Proof.
  intros [H4 Hc] Hr. destruct record as [[[controller low] high] duration]. destruct Hr as (H0 & H1 & H2 & H3).
  unfold receive_record, encode_record.
  assert (Hid : le16 (to_le_bytes 2 controller ++ to_le_bytes 2 low ++ to_le_bytes 2 high ++ (if pulse then to_le_bytes 2 duration else [])) 0 = Ok controller)
    by (exact (le16_at [] controller _ H0)).
  rewrite Hid, bind_Ok.
  change (List.filter mine [command_of pulse (controller, low, high, duration)])
    with (if controller <? 4 then [command_of pulse (controller, low, high, duration)] else []).
  destruct (Z.leb_spec 4 controller) as [Hge|Hlt].
  { rewrite (proj2 (Z.ltb_ge _ _)) by lia. exists self. split; [done|]. by apply felt_nil. }
  rewrite (proj2 (Z.ltb_lt _ _)) by lia. unfold record_command.
  assert (Hlow : le16 (to_le_bytes 2 controller ++ to_le_bytes 2 low ++ to_le_bytes 2 high ++ (if pulse then to_le_bytes 2 duration else [])) 2 = Ok low)
    by (exact (le16_at (to_le_bytes 2 controller) low _ H1)).
  assert (Hhigh : le16 (to_le_bytes 2 controller ++ to_le_bytes 2 low ++ to_le_bytes 2 high ++ (if pulse then to_le_bytes 2 duration else [])) 4 = Ok high)
    by (exact (le16_at (to_le_bytes 2 controller ++ to_le_bytes 2 low) high _ H2)).
  rewrite Hlow, Hhigh.
  assert (Hd : (if Z.of_nat (record_size pulse) =? 8 then le16 (to_le_bytes 2 controller ++ to_le_bytes 2 low ++ to_le_bytes 2 high ++ (if pulse then to_le_bytes 2 duration else [])) 6 else mret 0)
    = Ok (if pulse then duration else 0)).
  { destruct pulse; cbn [record_size]; [|done]. change (Z.of_nat 8 =? 8) with true. cbv iota.
    pose proof (le16_at (to_le_bytes 2 controller ++ to_le_bytes 2 low ++ to_le_bytes 2 high) duration [] H3) as H. rewrite app_nil_r in H. exact H. }
  rewrite Hd. rewrite !bind_Ok. 
  assert (Hcmd : (if (if pulse then duration else 0) =? 0 then 1000 else if pulse then duration else 0) = (if pulse && negb (duration =? 0) then duration else 1000)).
  { destruct pulse; cbn [andb]; [by destruct (duration =? 0)|done]. }
  rewrite Hcmd. unfold is_u16 in H0. exact (store_ok self {| controller_id := controller; low_frequency := low; high_frequency := high;
    duration_ms := if pulse && negb (duration =? 0) then duration else 1000; source_incarnation := None |} H4 Hc ltac:(split; cbn; lia)).
Qed.
Lemma length_encode_record pulse record : length (encode_record pulse record) = record_size pulse.
Proof. destruct record as [[[a b] c] d]. by destruct pulse. Qed.
Lemma felt_ok self l self' : haptics_ok self -> felt self l self' -> haptics_ok self'.
Proof. intros [H4 Hc] Hf. split; [apply Hf|by eapply felt_coalesced]. Qed.
Lemma chunks_encoded pulse records : forall fuel, (length (concat (map (encode_record pulse) records)) <= fuel)%nat ->
  chunks_exact fuel (record_size pulse) (concat (map (encode_record pulse) records)) = map (encode_record pulse) records.
Proof.
  induction records as [|r records IH]; intros fuel Hf; cbn [map concat] in *.
  - destruct fuel; [done|]. cbn [chunks_exact length]. by destruct pulse.
  - rewrite length_app, length_encode_record in Hf. destruct fuel as [|fuel]; [destruct pulse; cbn in Hf; lia|]. cbn [chunks_exact].
    rewrite length_app, length_encode_record. rewrite (proj2 (Nat.ltb_ge _ _)) by lia.
    rewrite take_app_le, drop_app_ge by (rewrite length_encode_record; lia). rewrite length_encode_record, Nat.sub_diag, take_ge by (rewrite length_encode_record; lia).
    cbn [drop]. rewrite IH; [done|]. destruct pulse; cbn in Hf; lia.
Qed.
Lemma receive_records_ok pulse records : forall self, haptics_ok self -> Forall record_ok records ->
  exists self', ofold (receive_record (Z.of_nat (record_size pulse))) (map (encode_record pulse) records) self = Ok self'
    /\ felt self (List.filter mine (map (command_of pulse) records)) self'.
Proof.
  induction records as [|r records IH]; intros self Hok Hr; [exists self; split; [done|]; destruct Hok; by apply felt_nil|].
  apply Forall_cons in Hr as [Hr Hrs]. destruct (receive_record_ok pulse self r Hok Hr) as (self1 & H1 & F1).
  destruct (IH self1 (felt_ok _ _ _ Hok F1) Hrs) as (self2 & H2 & F2). exists self2. cbn [map ofold]. rewrite H1, bind_Ok. split; [done|].
  change (command_of pulse r :: map (command_of pulse) records) with ([command_of pulse r] ++ map (command_of pulse) records). rewrite List.filter_app.
  apply (felt_trans _ self1); [apply Hok|done|done].
Qed.

(** What the server sends: rumbles, with or without a duration, and commands of
    other kinds. *)
Inductive haptic_frame := Rumbles (pulse : bool) (records : list (Z * Z * Z * Z)) | Other (code : Z) (payload : list u8).
Definition frame_code (f : haptic_frame) : Z := match f with Rumbles _ _ => HAPTIC_COMMAND_CODE | Other code _ => code end.
Definition frame_payload (f : haptic_frame) : list u8 :=
  match f with
  | Rumbles pulse records =>
      let bytes := concat (map (encode_record pulse) records) in
      to_le_bytes 2 (if pulse then 2 else 1) ++ to_le_bytes 2 (zlen bytes) ++ bytes
  | Other _ payload => payload
  end.
Definition encode_frame (f : haptic_frame) : list u8 := to_le_bytes 2 (frame_code f) ++ to_le_bytes 2 (zlen (frame_payload f)) ++ frame_payload f.
Definition frame_ok (f : haptic_frame) : Prop :=
  zlen (frame_payload f) <= U16_MAX
  /\ match f with Rumbles _ records => Forall record_ok records | Other code _ => is_u16 code /\ code <> HAPTIC_COMMAND_CODE end.
Definition frame_commands (f : haptic_frame) : list NvstControllerRumble :=
  match f with Rumbles pulse records => List.filter mine (map (command_of pulse) records) | Other _ _ => [] end.

Lemma receive_command_ok pulse records self : haptics_ok self -> frame_ok (Rumbles pulse records) ->
  exists self', receive_command self (frame_payload (Rumbles pulse records)) = Ok self' /\ felt self (frame_commands (Rumbles pulse records)) self'.
Proof.
  intros Hok [Hlen Hr]. unfold receive_command. cbn [frame_payload] in *. set (bytes := concat _) in *.
  rewrite !zlen_app, !zlen_to_le_bytes in Hlen. pose proof (zlen_nonneg bytes) as Hb.
  assert (Hkind : le16 (to_le_bytes 2 (if pulse then 2 else 1) ++ to_le_bytes 2 (zlen bytes) ++ bytes) 0 = Ok (if pulse then 2 else 1)).
  { exact (le16_at [] (if pulse then 2 else 1) _ ltac:(unfold is_u16; destruct pulse; lia)). }
  assert (Hdecl : le16 (to_le_bytes 2 (if pulse then 2 else 1) ++ to_le_bytes 2 (zlen bytes) ++ bytes) 2 = Ok (zlen bytes)).
  { exact (le16_at (to_le_bytes 2 (if pulse then 2 else 1)) (zlen bytes) bytes ltac:(unfold is_u16, U16_MAX in *; lia)). }
  rewrite Hkind, bind_Ok. assert (Hrl : record_length_of (if pulse then 2 else 1) = Some (Z.of_nat (record_size pulse))) by by destruct pulse.
  rewrite Hrl, Hdecl, bind_Ok. rewrite !zlen_app, !zlen_to_le_bytes. replace (Z.min _ _) with (zlen bytes) by lia.
  assert (Hslice : slice (E:=Empty_set) (to_le_bytes 2 (if pulse then 2 else 1) ++ to_le_bytes 2 (zlen bytes) ++ bytes) 4 (4 + zlen bytes) = Ok bytes).
  { unfold slice. rewrite app_assoc. rewrite <- (app_nil_r bytes) at 2.
    exact (f_equal expect (zget_range_prefix (to_le_bytes 2 (if pulse then 2 else 1) ++ to_le_bytes 2 (zlen bytes)) bytes [] _ eq_refl)). }
  rewrite Hslice, bind_Ok, Nat2Z.id. unfold bytes. rewrite chunks_encoded by lia. by apply receive_records_ok.
Qed.

(** C36: rumble reaches the controllers.  Whatever was pending, the frames the
    server sends, rumbles of any number of controllers with or without a duration
    among commands of other kinds, leave for each controller the last rumble that
    was sent to it, with a duration of a second where none was given; every
    rumble that was overwritten is counted. *)
Theorem rumble_reaches_the_controllers frames : forall self, haptics_ok self -> Forall frame_ok frames ->
  exists self', receive self (concat (map encode_frame frames)) = Ok self' /\ felt self (concat (map frame_commands frames)) self'.
Proof.
  unfold receive. assert (H : forall fuel self, (length (concat (map encode_frame frames)) < fuel)%nat -> haptics_ok self -> Forall frame_ok frames ->
    exists self', receive_frames fuel self (concat (map encode_frame frames)) = Ok self' /\ felt self (concat (map frame_commands frames)) self').
  2: { intros self. apply H. lia. }
  induction frames as [|f frames IH]; intros fuel self Hfuel Hok Hfs; (destruct fuel as [|fuel]; [lia|]); cbn [map concat] in *.
  { exists self. split; [done|]. destruct Hok. by apply felt_nil. }
  apply Forall_cons in Hfs as [Hf Hfs]. pose proof Hf as [Hlen Hkind]. set (rest := concat (map encode_frame frames)) in *.
  pose proof (zlen_nonneg (frame_payload f)) as Hp. pose proof (zlen_nonneg rest) as Hrest.
  assert (Hcode : is_u16 (frame_code f)) by (destruct f; [by vm_compute|apply Hkind]).
  cbn [receive_frames]. unfold encode_frame in *. rewrite <- !app_assoc. set (bytes := to_le_bytes 2 (frame_code f) ++ _).
  assert (Hbl : zlen bytes = 4 + zlen (frame_payload f) + zlen rest) by (unfold bytes; rewrite !zlen_app, !zlen_to_le_bytes; lia).
  rewrite (proj2 (Z.ltb_ge _ _)) by lia.
  assert (H0 : le16 bytes 0 = Ok (frame_code f)) by (exact (le16_at [] (frame_code f) _ Hcode)). rewrite H0, bind_Ok.
  assert (H2 : le16 bytes 2 = Ok (zlen (frame_payload f))).
  { exact (le16_at (to_le_bytes 2 (frame_code f)) (zlen (frame_payload f)) _ ltac:(unfold is_u16, U16_MAX in *; lia)). }
  rewrite H2, bind_Ok.
  assert (Hget : zget_range bytes 4 (4 + zlen (frame_payload f)) = Some (frame_payload f)).
  { unfold bytes. rewrite (app_assoc (to_le_bytes 2 (frame_code f))). by apply (zget_range_prefix (to_le_bytes 2 (frame_code f) ++ to_le_bytes 2 (zlen (frame_payload f)))). }
  assert (Hdrop : slice (E:=Empty_set) bytes (4 + zlen (frame_payload f)) (zlen bytes) = Ok rest).
  { rewrite Hbl. unfold bytes, slice. rewrite (app_assoc (to_le_bytes 2 (frame_code f))), (app_assoc _ (frame_payload f)). rewrite <- (app_nil_r rest) at 1.
    pose proof (zget_range_prefix ((to_le_bytes 2 (frame_code f) ++ to_le_bytes 2 (zlen (frame_payload f))) ++ frame_payload f) rest [] _ eq_refl) as H.
    rewrite !zlen_app, !zlen_to_le_bytes in H. change (Z.of_nat 2 + Z.of_nat 2) with 4 in H. by rewrite H. }
  rewrite Hget, Hdrop, bind_Ok. rewrite length_app in Hfuel.
  assert (Hshort : (length rest < fuel)%nat) by (rewrite length_app, length_to_le_bytes in Hfuel; lia).
  destruct f as [pulse records|code payload]; cbn [frame_code].
  - rewrite Z.eqb_refl. cbn [negb orb]. rewrite (proj2 (Z.ltb_ge _ _)) by (cbn [frame_payload]; rewrite !zlen_app, !zlen_to_le_bytes; pose proof (zlen_nonneg (concat (map (encode_record pulse) records))); lia).
    destruct (receive_command_ok pulse records self Hok Hf) as (self1 & R1 & F1). rewrite R1, bind_Ok.
    destruct (IH fuel self1 Hshort (felt_ok _ _ _ Hok F1) Hfs) as (self2 & R2 & F2). exists self2. split; [done|]. apply (felt_trans _ self1); [apply Hok|done|done].
  - cbn [frame_commands app]. destruct Hkind as [_ Hne]. rewrite (proj2 (Z.eqb_neq _ _) Hne). cbn [negb orb]. by apply IH.
Qed.

Lemma rumble_reaches_the_controllers_witness :
  let frames := [Rumbles true [(2, 65535, 0, 250); (7, 1, 1, 1)]; Other 0x0110 [Byte.x00]; Rumbles false [(2, 9, 8, 0)]] in
  exists self', receive NvstHaptics.default (concat (map encode_frame frames)) = Ok self' /\ felt NvstHaptics.default (concat (map frame_commands frames)) self'.
Proof.
  cbv zeta. apply rumble_reaches_the_controllers; [split; [reflexivity|vm_compute; split; discriminate]|].
  repeat constructor; vm_compute; discriminate.
Defined.

(** Any bytes at all are read without a panic, as some commands. *)
Lemma le16_total bytes i : 0 <= i -> i + 2 <= zlen bytes -> exists v, le16 bytes i = Ok v /\ 0 <= v.
Proof.
  intros Hi Hl. unfold le16. destruct (idx_Ok (E:=Empty_set) bytes i) as (a & -> & _); [lia|]. destruct (idx_Ok (E:=Empty_set) bytes (i + 1)) as (b & -> & _); [lia|].
  rewrite !bind_Ok. eexists. split; [reflexivity|]. apply from_le_bytes_range.
Qed.
Lemma receive_record_total n self record : haptics_ok self -> n = 6 \/ n = 8 -> zlen record = n ->
  exists self' commands, receive_record n self record = Ok self' /\ felt self commands self'.
Proof.
  intros Hok Hn Hl. unfold receive_record. destruct (le16_total record 0) as (c & -> & Hc); [lia..|]. rewrite bind_Ok.
  destruct (Z.leb_spec 4 c); [exists self, []; split; [done|]; destruct Hok; by apply felt_nil|]. unfold record_command.
  destruct (le16_total record 2) as (low & -> & _); [lia..|]. destruct (le16_total record 4) as (high & -> & _); [lia..|].
  assert (Hd : exists d, (if n =? 8 then le16 record 6 else mret 0) = Ok d).
  { destruct (Z.eqb_spec n 8); [|by exists 0]. destruct (le16_total record 6) as (d & -> & _); [lia..|]. by exists d. }
  destruct Hd as [d ->]. rewrite !bind_Ok. destruct Hok as [H4 Hco].
  destruct (store_ok self {| controller_id := c; low_frequency := low; high_frequency := high; duration_ms := if d =? 0 then 1000 else d; source_incarnation := None |})
    as (self' & Hs & Hf); [done|done|split; cbn; lia|]. exists self'. eexists. split; [exact Hs|exact Hf].
Qed.
Lemma chunks_length n fuel : forall bytes, Forall (fun chunk => length chunk = n) (chunks_exact fuel n bytes).
Proof.
  induction fuel as [|fuel IH]; intros bytes; [constructor|]. cbn [chunks_exact]. destruct (Nat.ltb_spec (length bytes) n); [constructor|].
  constructor; [|apply IH]. rewrite length_take. lia.
Qed.
Lemma receive_records_total n records : n = 6 \/ n = 8 -> Forall (fun chunk => length chunk = Z.to_nat n) records -> forall self, haptics_ok self ->
  exists self' commands, ofold (receive_record n) records self = Ok self' /\ felt self commands self'.
Proof.
  intros Hn. induction 1 as [|r records Hr _ IH]; intros self Hok; [exists self, []; split; [done|]; destruct Hok; by apply felt_nil|].
  destruct (receive_record_total n self r Hok Hn) as (self1 & l1 & H1 & F1); [unfold zlen; lia|].
  destruct (IH self1 (felt_ok _ _ _ Hok F1)) as (self2 & l2 & H2 & F2). exists self2, (l1 ++ l2). cbn [ofold]. rewrite H1, bind_Ok. split; [done|].
  apply (felt_trans _ self1); [apply Hok|done|done].
Qed.
Theorem any_haptics_are_read bytes : forall self, haptics_ok self -> exists self' commands, receive self bytes = Ok self' /\ felt self commands self'.
Proof.
  unfold receive. assert (H : forall fuel bytes self, (length bytes < fuel)%nat -> haptics_ok self ->
    exists self' commands, receive_frames fuel self bytes = Ok self' /\ felt self commands self'); [|intros self; apply H; lia].
  clear bytes. induction fuel as [|fuel IH]; intros bytes self Hf Hok; [lia|]. cbn [receive_frames].
  destruct (Z.ltb_spec (zlen bytes) 4); [exists self, []; split; [done|]; destruct Hok; by apply felt_nil|].
  destruct (le16_total bytes 0) as (code & -> & _); [lia..|]. destruct (le16_total bytes 2) as (n & -> & Hn); [lia..|]. rewrite !bind_Ok.
  destruct (zget_range bytes 4 (4 + n)) as [payload|] eqn:Hget; [|exists self, []; split; [done|]; destruct Hok; by apply felt_nil].
  pose proof (zget_range_length _ _ _ _ Hget) as Hpl. apply zget_range_inv in Hget as (_ & Hle & _).
  rewrite slice_Ok by lia. rewrite bind_Ok. set (rest := take _ _).
  assert (Hshort : (length rest < fuel)%nat) by (unfold rest, zlen in *; rewrite length_take, length_drop; lia).
  destruct (_ || _) eqn:Hskip; [by apply IH|]. apply orb_false_iff in Hskip as [_ Hp]. apply Z.ltb_ge in Hp.
  assert (Hcmd : exists self1 l1, receive_command self payload = Ok self1 /\ felt self l1 self1).
  { unfold receive_command. destruct (le16_total payload 0) as (kind & -> & _); [lia..|]. rewrite bind_Ok.
    destruct (record_length_of kind) as [m|] eqn:Hm; [|exists self, []; split; [done|]; destruct Hok; by apply felt_nil].
    assert (Hm' : m = 6 \/ m = 8) by (unfold record_length_of in Hm; destruct (kind =? 1); [|destruct (kind =? 2)]; simplify_eq; lia).
    destruct (le16_total payload 2) as (declared & -> & Hd); [lia..|]. rewrite bind_Ok.
    rewrite slice_Ok by lia. rewrite bind_Ok.
    apply receive_records_total; [done|apply chunks_length|done]. }
  destruct Hcmd as (self1 & l1 & -> & F1). rewrite bind_Ok. destruct (IH rest self1 Hshort (felt_ok _ _ _ Hok F1)) as (self2 & l2 & H2 & F2).
  exists self2, (l1 ++ l2). split; [done|]. apply (felt_trans _ self1); [apply Hok|done|done].
Qed.

(** ** The microphone *)
Import MicrophoneQueue.
Inductive MicrophoneEvent := Pushed (payload : list u8) (timestamp now : Z) | Popped (now : Z) | Toggled (on : bool) | Ended.
(** The queue, the frames it took since the microphone was last switched, all
    it took and what was sent, in order. *)
Record Talk := { queue : t; fresh : list MicrophoneFrame; taken : list MicrophoneFrame; sent : list MicrophoneFrame }.
Definition talk (self : Talk) (e : MicrophoneEvent) : Talk :=
  match e with
  | Pushed p ts now =>
      let '(queue', failed) := push (queue self) p ts now in
      let more := match failed with None => [microphone_frame p ts now] | Some _ => [] end in
      {| queue := queue'; fresh := fresh self ++ more; taken := taken self ++ more; sent := sent self |}
  | Popped now =>
      let '(queue', frame) := pop (queue self) now in
      {| queue := queue'; fresh := fresh self; taken := taken self; sent := sent self ++ match frame with Some frame => [frame] | None => [] end |}
  | Toggled on => {| queue := (set_enabled (queue self) on).1; fresh := []; taken := taken self; sent := sent self |}
  | Ended => {| queue := close (queue self); fresh := []; taken := taken self; sent := sent self |}
  end.
Definition silence (available : bool) : Talk := {| queue := new available; fresh := []; taken := []; sent := [] |}.

(** What waits was taken since the last switch, and in order behind what was
    sent; nothing is lost uncounted. *)
Record talk_ok (self : Talk) : Prop := {
  to_few : zlen (frames (queue self)) <= MICROPHONE_QUEUE_CAPACITY;
  to_waiting : frames (queue self) `suffix_of` fresh self;
  to_order : sent self ++ frames (queue self) `sublist_of` taken self;
  to_fresh : fresh self `suffix_of` taken self;
  to_counted : zlen (taken self) = zlen (sent self) + zlen (frames (queue self)) + dropped (queue self);
  to_small : Forall (fun frame => 0 < zlen (payload frame) <= MAX_OPUS_BYTES) (taken self)
}.
Lemma pop_fresh_spec now l : forall d, exists old, let '(rest, d', frame) := pop_fresh l d now in
  l = old ++ match frame with Some frame => [frame] | None => [] end ++ rest /\ d' = d + zlen old
  /\ match frame with Some frame => saturating_duration_since now (queued_at frame) < MAX_FRAME_AGE | None => rest = [] end.
Proof.
  induction l as [|f l IH]; intros d; cbn [pop_fresh].
  - exists []. split; [done|]. split; [change (zlen []) with 0; lia|done].
  - destruct (Z.ltb_spec (saturating_duration_since now (queued_at f)) MAX_FRAME_AGE).
    + exists []. split; [done|]. split; [change (zlen []) with 0; lia|done].
    + destruct (IH (d + 1)) as [old H1]. exists (f :: old). destruct (pop_fresh l (d + 1) now) as [[rest d'] frame].
      destruct H1 as (-> & -> & H3). split; [done|]. split; [rewrite zlen_cons; lia|done].
Qed.
Lemma suffix_app_r {A} (l k m : list A) : l `suffix_of` k -> l ++ m `suffix_of` k ++ m.
Proof. intros [p ->]. exists p. by rewrite app_assoc. Qed.
Lemma talk_keeps self e : talk_ok self -> talk_ok (talk self e).
Proof.
  destruct self as [q f tk s]. intros [H1 H2 H3 H4 H5 H6]. cbn [queue fresh taken sent] in *. destruct e as [p ts now|now|on|]; cbn [talk queue fresh taken sent].
  - unfold push. destruct (closed q); [rewrite !app_nil_r; by constructor|]. destruct (negb (available q)); [rewrite !app_nil_r; by constructor|].
    destruct (negb (enabled q)); [rewrite !app_nil_r; by constructor|]. destruct (_ || _) eqn:Hp; [rewrite !app_nil_r; by constructor|].
    apply orb_false_iff in Hp as [Hp1 Hp2]. apply Z.eqb_neq in Hp1. apply Z.ltb_ge in Hp2. pose proof (zlen_nonneg p) as Hp0.
    set (frame := microphone_frame p ts now). set (q1 := if zlen (frames q) =? MICROPHONE_QUEUE_CAPACITY then _ else q).
    assert (Hq1 : exists cut, frames q = cut ++ frames q1 /\ dropped q1 = dropped q + zlen cut /\ zlen (frames q1) < MICROPHONE_QUEUE_CAPACITY).
    { unfold q1, MICROPHONE_QUEUE_CAPACITY in *. destruct (Z.eqb_spec (zlen (frames q)) 5) as [E|E].
      - destruct (frames q) as [|x l] eqn:Hf; [done|]. exists [x]. cbn. rewrite ?Hf. rewrite zlen_cons in E. split; [done|]. split; [done|]. change (zlen l < 5). lia.
      - exists []. split; [done|]. change (zlen []) with 0. split; lia. }
    destruct Hq1 as (cut & Hcut & Hdrop & Hroom). rewrite Hcut in H2, H3, H5. rewrite zlen_app in H5.
    assert (H2' : frames q1 `suffix_of` f) by (destruct H2 as [k ->]; exists (k ++ cut); by rewrite app_assoc).
    constructor; cbn [queue fresh taken sent]; change (frames (q1 <| MicrophoneQueue.frames := frames q1 ++ [frame] |>)) with (frames q1 ++ [frame]);
      change (dropped (q1 <| MicrophoneQueue.frames := frames q1 ++ [frame] |>)) with (dropped q1); rewrite ?zlen_app; change (zlen [frame]) with 1.
    + lia.
    + by apply suffix_app_r.
    + rewrite app_assoc. apply sublist_app; [|done]. etrans; [|exact H3]. apply sublist_app; [done|]. by apply sublist_inserts_l.
    + by apply suffix_app_r.
    + lia.
    + apply Forall_app. split; [done|]. constructor; [|done]. cbn. lia.
  - unfold pop. pose proof (pop_fresh_spec now (frames q) (dropped q)) as [old H]. destruct (pop_fresh (frames q) (dropped q) now) as [[rest d'] frame].
    destruct H as (Hl & -> & _). rewrite Hl in *. set (out := match frame with Some frame => [frame] | None => [] end) in *. rewrite !zlen_app in *.
    pose proof (zlen_nonneg old). pose proof (zlen_nonneg out).
    set (q' := q <| MicrophoneQueue.frames := rest |> <| dropped := dropped q + zlen old |>).
    assert (Hfq : frames q' = rest) by done. assert (Hdq : dropped q' = dropped q + zlen old) by done. clearbody q'.
    constructor; cbn [queue fresh taken sent]; rewrite ?Hfq, ?Hdq, ?zlen_app; try done; try lia.
    + destruct H2 as [k ->]. exists (k ++ old ++ out). by rewrite <- !app_assoc.
    + etrans; [|exact H3]. rewrite <- app_assoc. apply sublist_app; [done|]. by apply sublist_inserts_l.
  - assert (Hq : frames (set_enabled q on).1 = [] /\ dropped (set_enabled q on).1 = dropped q + zlen (frames q)).
    { unfold set_enabled. cbn. destruct (closed q); [done|]. by destruct (on && negb (available q)). }
    destruct Hq as [Hf Hd]. constructor; cbn [queue fresh taken sent]; rewrite ?Hf, ?Hd; try done.
    + rewrite app_nil_r. etrans; [|exact H3]. by apply sublist_inserts_r.
    + exists tk. by rewrite app_nil_r.
    + change (zlen []) with 0. lia.
  - assert (Hf : frames (close q) = []) by done. assert (Hd : dropped (close q) = dropped q + zlen (frames q)) by done.
    constructor; cbn [queue fresh taken sent]; rewrite ?Hf, ?Hd; try done.
    + rewrite app_nil_r. etrans; [|exact H3]. by apply sublist_inserts_r.
    + exists tk. by rewrite app_nil_r.
    + change (zlen []) with 0. lia.
Qed.
Theorem microphone_frames_are_fresh available events now :
  let self := foldl talk (silence available) events in
  talk_ok self
  /\ match (pop (queue self) now).2 with
     | Some frame => frame ∈ fresh self /\ saturating_duration_since now (queued_at frame) < MAX_FRAME_AGE
     | None => frames (pop (queue self) now).1 = []
     end.
Proof.
  cbv zeta. assert (Hok : talk_ok (foldl talk (silence available) events)).
  { assert (H : forall self, talk_ok self -> talk_ok (foldl talk self events)); [|apply H; by constructor].
    induction events as [|e events IH]; intros self H; [done|]. apply IH. by apply talk_keeps. }
  split; [done|]. set (self := foldl _ _ _) in *. unfold pop. pose proof (pop_fresh_spec now (frames (queue self)) (dropped (queue self))) as [old H].
  destruct (pop_fresh _ _ now) as [[rest d'] [frame|]]; cbn [snd fst]; destruct H as (Hl & _ & H3); [|done].
  split; [|done]. destruct (to_waiting _ Hok) as [k ->]. rewrite Hl. set_solver.
Qed.
