(* ===== verification/Captured.v ===== *)
(** * Captured input

    What the player does between the window and the transport:
    [CapturedInputQueue] of [media.rs], the [EmbeddedInputCapture] in front of it
    ([embedded_input.rs]), and the turn in which the session takes the inputs and
    sends them ([forward_nvst_session_events], [captured_input_packet] of
    opennow-streamer-core's [lib.rs]). *)

From stdpp Require Import list strings.
From S2P Require Import Prelude Deque F64 Control Text InputWire InputCodec.

Inductive StreamShortcutAction :=
  | ToggleStats | TogglePointerLock | ToggleFullscreen | StopStream | ToggleAntiAfk | Screenshot | ToggleRecording | SaveClip.
#[export] Instance StreamShortcutAction_eq_dec : EqDecision StreamShortcutAction.
Proof. solve_decision. Defined.

Module CapturedInput.
(** The fields of [Gamepad] but for its [controller_id] and [bitmap]. *)
Record Pad := {
  buttons : Z; left_trigger : Z; right_trigger : Z;
  left_stick_x : Z; left_stick_y : Z; right_stick_x : Z; right_stick_y : Z
}.
(** [Text] holds a handle of the paste; its text stands for it. *)
Inductive t :=
  | Text (text : list u8)
  | Key (virtual_key modifiers : Z) (pressed : bool)
  | MouseMove (delta_x delta_y : Z)
  | MouseAbsolute (x y width height : Z)
  | MouseButton (button : Z) (pressed : bool)
  | MouseWheel (delta_x delta_y : Z)
  | Gamepad (controller_id bitmap : Z) (pad : Pad)
  | Guide | Screenshot | RecordingToggle
  | Shortcut (action : StreamShortcutAction).
#[export] Instance Pad_eq_dec : EqDecision Pad.
Proof. solve_decision. Defined.
Definition neutral : Pad :=
  {| buttons := 0; left_trigger := 0; right_trigger := 0; left_stick_x := 0; left_stick_y := 0; right_stick_x := 0; right_stick_y := 0 |}.
Definition is_text (input : t) : bool := match input with Text _ => true | _ => false end.
Definition is_absolute (input : t) : bool := match input with MouseAbsolute _ _ _ _ => true | _ => false end.
Definition is_motion (input : t) : bool := match input with MouseMove _ _ | MouseAbsolute _ _ _ _ => true | _ => false end.
Definition is_gamepad (id : Z) (input : t) : bool := match input with Gamepad controller_id _ _ => controller_id =? id | _ => false end.
End CapturedInput.
Import CapturedInput.

Definition CAPTURED_INPUT_CAPACITY : Z := 256.
Record CapturedInputSample := { input : CapturedInput.t; captured_at : Z }.

Module CapturedInputQueue.
Record t := {
  pending : list CapturedInputSample;
  overflowed : bool;
  text_ready : bool;
  text_generation : Z;
  text_slot : TextInputSlot.t
}.
Definition default : t :=
  {| pending := []; overflowed := false; text_ready := false; text_generation := 0; text_slot := TextInputSlot.default |}.

(** [retain]: what is removed is dropped, and a paste with its handle. *)
Definition retain (keep : CapturedInput.t -> bool) (self : t) : t :=
  let dropped := List.filter (fun sample => is_text (input sample) && negb (keep (input sample))) (pending self) in
  self <| pending := List.filter (fun sample => keep (input sample)) (pending self) |>
       <| text_slot ::= (fun slot => Nat.iter (length dropped) TextInputSlot.drop_text slot) |>.

Definition set_text_ready (self : t) (generation : Z) (ready : bool) : t :=
  let previous := text_generation self in
  if U64_MAX / 2 <? as_u64 (generation - previous) then self else
  let self := self <| text_generation := generation |> <| text_ready := ready |> in
  if negb ready || negb (generation =? previous)
  then retain (fun input => negb (is_text input)) (self <| text_slot ::= TextInputSlot.cancel |>)
  else self.

Definition submit_text (self : t) (bytes : list u8) (now : Z) : t * outcome TextInputError unit :=
  if negb (text_ready self) then (self, Err Unavailable) else
  if CAPTURED_INPUT_CAPACITY <=? zlen (pending self) then (self, Err Busy) else
  match TextInputSlot.submit (text_slot self) bytes with
  | (slot, Ok text) =>
      (self <| text_slot := slot |> <| pending ::= (fun l => l ++ [{| input := CapturedInput.Text (Text.text text); captured_at := now |}]) |>, mret tt)
  | (slot, Err e) => (self <| text_slot := slot |>, Err e)
  | (slot, Panic) => (self <| text_slot := slot |>, Panic)
  end.

Definition discard_text (self : t) : t := retain (fun input => negb (is_text input)) (self <| text_slot ::= TextInputSlot.cancel |>).

(** An absolute position replaces the one before it. *)
Definition coalesce (sample : CapturedInputSample) (pending : list CapturedInputSample) : list CapturedInputSample :=
  if is_absolute (input sample) && match last pending with Some back => is_absolute (input back) | None => false end
  then removelast pending else pending.
(** With whether the consumer is woken. *)
Definition push_sample (self : t) (sample : CapturedInputSample) : t * bool :=
  let self := self <| pending ::= coalesce sample |> in
  let push (self : t) := (self <| pending ::= (fun l => l ++ [sample]) |>, true) in
  if CAPTURED_INPUT_CAPACITY <=? zlen (pending self) then
    match position (fun event => is_motion (input event)) (pending self) with
    | Some index => push (self <| pending ::= delete index |>)
    | None => (self <| overflowed := true |>, false)
    end
  else push self.
Definition push (self : t) (input : CapturedInput.t) (now : Z) : t * bool := push_sample self {| Captured.input := input; captured_at := now |}.

Definition release_gamepad (self : t) (controller_id bitmap now : Z) : outcome Empty_set t :=
  if negb (controller_id <? 4) then Panic else
  let self := retain (fun input => negb (is_gamepad controller_id input)) self in
  mret (self <| pending ::= (fun l => l ++ [{| input := Gamepad controller_id bitmap neutral; captured_at := now |}]) |>).

Definition take_sample (self : t) : t * option CapturedInputSample :=
  match pending self with [] => (self, None) | sample :: rest => (self <| pending := rest |>, Some sample) end.
Definition take_overflowed (self : t) : t * bool := (self <| overflowed := false |>, overflowed self).
Definition clear (self : t) : t := retain (fun _ => false) self <| overflowed := false |>.
End CapturedInputQueue.
Import CapturedInputQueue (pending, overflowed, text_ready, text_generation, text_slot, retain, push, push_sample, release_gamepad, discard_text, set_text_ready, take_sample, take_overflowed, clear, coalesce).

Inductive EmbeddedLocalAction := LocalGuide | LocalScreenshot | LocalRecordingToggle.

Module EmbeddedInputCapture.
Record t := { queue : CapturedInputQueue.t; active : bool; gamepads : list (option Z) }.
Definition new (queue : CapturedInputQueue.t) : t :=
  {| EmbeddedInputCapture.queue := queue; active := false; gamepads := [None; None; None; None] |}.

(** [None] when the input is not to be queued. *)
Definition note_gamepad (self : t) (controller_id bitmap : Z) (pad : Pad) (now : Z) : outcome Empty_set (t * bool) :=
  if zlen (gamepads self) <=? controller_id then mret (self, false) else
  let is_neutral := bool_decide (pad = neutral) in
  if negb (active self) && negb is_neutral then mret (self, false) else
  let noted := map (fun value : option Z => match value with Some _ => Some bitmap | None => None end) (gamepads self) in
  noted ← set_idx noted controller_id (Some bitmap);
  let self := self <| gamepads := noted |> in
  if is_neutral && negb (active self) then
    queue ← release_gamepad (queue self) controller_id bitmap now;
    mret (self <| EmbeddedInputCapture.queue := queue |>, false)
  else mret (self, true).
Definition submit (self : t) (input : CapturedInput.t) (now : Z) : outcome Empty_set t :=
  '(self, go_on) ← match input with
    | Gamepad controller_id bitmap pad => note_gamepad self controller_id bitmap pad now
    | _ => mret (self, true)
    end;
  mret (if go_on && active self then self <| queue ::= (fun queue => (push queue input now).1) |> else self).

Definition local_input (action : EmbeddedLocalAction) : CapturedInput.t :=
  match action with LocalGuide => Guide | LocalScreenshot => CapturedInput.Screenshot | LocalRecordingToggle => RecordingToggle end.
Definition submit_local_action (self : t) (action : EmbeddedLocalAction) (now : Z) : outcome Empty_set t := submit self (local_input action) now.

Definition submit_text (self : t) (bytes : list u8) (now : Z) : t * outcome TextInputError unit :=
  if negb (active self) then (self, Err Unavailable) else
  let '(queue, result) := CapturedInputQueue.submit_text (queue self) bytes now in
  (self <| EmbeddedInputCapture.queue := queue |>, result).

(** The held controllers, in their order. *)
Fixpoint release_all (queue : CapturedInputQueue.t) (controller_id : Z) (gamepads : list (option Z)) (now : Z) : outcome Empty_set CapturedInputQueue.t :=
  match gamepads with
  | [] => mret queue
  | None :: gamepads => release_all queue (controller_id + 1) gamepads now
  | Some bitmap :: gamepads =>
      queue ← release_gamepad queue controller_id bitmap now;
      release_all queue (controller_id + 1) gamepads now
  end.
Definition set_active (self : t) (active : bool) (now : Z) : outcome Empty_set t :=
  if negb active then
    let self := self <| queue ::= discard_text |> in
    self ← (if EmbeddedInputCapture.active self then
        queue ← release_all (queue self) 0 (gamepads self) now;
        mret (self <| EmbeddedInputCapture.queue := queue |> <| gamepads ::= map (fun _ => None) |>)
      else mret self);
    mret (self <| EmbeddedInputCapture.active := false |>)
  else mret (self <| EmbeddedInputCapture.active := true |>).
End EmbeddedInputCapture.

Definition raw_capture_enabled (active relative_mouse : bool) : bool := active && relative_mouse.
Definition x11_raw_capture_enabled (active relative_mouse : bool) (x11_window : Z) : bool :=
  raw_capture_enabled active relative_mouse && negb (x11_window =? 0).

(** ** The turn of the session *)

Record InputTuning := { sensitivity : f64; acceleration_percent : f64 }.
(** What the two variables of the environment parse to. *)
Definition input_tuning (sensitivity acceleration : option f64) : InputTuning :=
  {| Captured.sensitivity := F64.clamp (F64.div (F64.of_Z 1) (F64.of_Z 10)) (F64.of_Z 3) (default F64.one sensitivity);
     acceleration_percent := F64.clamp F64.one (F64.of_Z 150) (default F64.one acceleration) |}.

(** [f64::round]: halves away from zero. *)
Definition round (x : f64) : f64 :=
  match x with
  | SpecFloat.S754_finite s m e =>
      if 0 <=? e then x else
      let magnitude := Z.shiftr (Zpos m + Z.shiftl 1 (- e - 1)) (- e) in
      if magnitude =? 0 then SpecFloat.S754_zero s else F64.of_Z (SpecFloat.cond_Zopp s magnitude)
  | _ => x
  end.
Definition I16_MIN : Z := -32768.
Definition I16_MAX : Z := 32767.
Definition clamp_i16 (value : f64) : Z := F64.to_int I16_MIN I16_MAX (F64.clamp (F64.of_Z I16_MIN) (F64.of_Z I16_MAX) (round value)).

Section Session.
(** [f64::hypot], which the platform's mathematical library computes. *)
Context (hypot : f64 -> f64 -> f64) (tuning : InputTuning).

Definition tune_relative_mouse (delta_x delta_y : Z) : Z * Z :=
  let x := F64.mul (F64.of_Z delta_x) (sensitivity tuning) in
  let y := F64.mul (F64.of_Z delta_y) (sensitivity tuning) in
  let '(x, y) :=
    if F64.lt F64.one (acceleration_percent tuning) then
      let speed := hypot x y in
      let strength := F64.div (F64.sub (acceleration_percent tuning) F64.one) (F64.of_Z 149) in
      let factor := F64.add F64.one (F64.min (F64.mul (F64.div (F64.of_Z 6) (F64.of_Z 10)) strength) (F64.mul (F64.div speed (F64.of_Z 50)) strength)) in
      (F64.mul x factor, F64.mul y factor)
    else (x, y) in
  (clamp_i16 x, clamp_i16 y).

Definition captured_input_packet (input : CapturedInput.t) (timestamp_us : Z) : outcome Empty_set (list u8) :=
  match input with
  | CapturedInput.Text _ => Panic
  | Key virtual_key modifiers pressed =>
      mret (to_le_bytes 4 (if pressed then 3 else 4) ++ to_be_bytes 2 virtual_key ++ to_be_bytes 2 modifiers ++ to_be_bytes 2 0
            ++ to_be_bytes 8 timestamp_us)
  | MouseMove delta_x delta_y =>
      let '(delta_x, delta_y) := tune_relative_mouse delta_x delta_y in
      mret (to_le_bytes 4 7 ++ to_be_bytes 2 delta_x ++ to_be_bytes 2 delta_y ++ zeroes 6 ++ to_be_bytes 8 timestamp_us)
  | MouseAbsolute x y width height =>
      mret (to_le_bytes 4 5 ++ to_be_bytes 2 x ++ to_be_bytes 2 y ++ to_be_bytes 2 0 ++ to_be_bytes 2 width ++ to_be_bytes 2 height
            ++ to_be_bytes 4 0 ++ to_be_bytes 8 timestamp_us)
  | MouseButton button pressed =>
      mret (to_le_bytes 4 (if pressed then 8 else 9) ++ [z2b button; Byte.x00] ++ zeroes 4 ++ to_be_bytes 8 timestamp_us)
  | MouseWheel delta_x delta_y =>
      mret (to_le_bytes 4 10 ++ to_be_bytes 2 delta_x ++ to_be_bytes 2 delta_y ++ zeroes 6 ++ to_be_bytes 8 timestamp_us)
  | Gamepad controller_id bitmap pad =>
      mret (to_le_bytes 4 12 ++ to_le_bytes 2 26 ++ to_le_bytes 2 (Z.land controller_id 3) ++ to_le_bytes 2 bitmap ++ to_le_bytes 2 20
            ++ to_le_bytes 2 (buttons pad) ++ to_le_bytes 2 (Z.lor (left_trigger pad) (Z.shiftl (right_trigger pad) 8))
            ++ to_le_bytes 2 (left_stick_x pad) ++ to_le_bytes 2 (left_stick_y pad) ++ to_le_bytes 2 (right_stick_x pad)
            ++ to_le_bytes 2 (right_stick_y pad) ++ to_le_bytes 2 0 ++ to_le_bytes 2 85 ++ to_le_bytes 2 0 ++ to_le_bytes 8 timestamp_us)
  | Guide | CapturedInput.Screenshot | RecordingToggle | Shortcut _ => mret []
  end.

(** What the session does with an input.  [SendText] hands the paste on. *)
Inductive SessionEffect :=
  | OverlayRequest | ScreenshotRequest | RecordingToggleRequest
  | ForwardShortcut (action : StreamShortcutAction)
  | SendText (text : list u8) (timestamp_us : Z)
  | SendInput (packet : list u8) (origin : Z).
Inductive TurnEnd := TurnDone | CaptureOverflow | CaptureFailed.

Definition sample_timestamp (input_origin captured_at : Z) : Z :=
  Z.min U64_MAX (default 0 (checked_duration_since captured_at input_origin) / 1000).
Definition forward_nvst_captured_sample (input_origin : Z) (sample : CapturedInputSample) : outcome Empty_set (option SessionEffect) :=
  let timestamp_us := sample_timestamp input_origin (captured_at sample) in
  match input sample with
  | Guide | CapturedInput.Screenshot | RecordingToggle | Shortcut _ => mret None
  | CapturedInput.Text text => mret (Some (SendText text timestamp_us))
  | input => packet ← captured_input_packet input timestamp_us; mret (Some (SendInput packet (captured_at sample)))
  end.
Definition session_effect (input_origin : Z) (sample : CapturedInputSample) : outcome Empty_set (option SessionEffect) :=
  match input sample with
  | Guide => mret (Some OverlayRequest)
  | CapturedInput.Screenshot => mret (Some ScreenshotRequest)
  | RecordingToggle => mret (Some RecordingToggleRequest)
  | Shortcut action => mret (Some (ForwardShortcut action))
  | _ => forward_nvst_captured_sample input_origin sample
  end.

(** At most 32 inputs; [accepted] tells whether the transport takes one, after
    what it was given before. *)
Fixpoint take_inputs (count : nat) (accepted : list SessionEffect -> SessionEffect -> bool) (input_origin : Z) (queue : CapturedInputQueue.t)
    (effects : list SessionEffect) : outcome Empty_set (CapturedInputQueue.t * list SessionEffect * TurnEnd) :=
  match count with
  | O => mret (queue, effects, TurnDone)
  | S count =>
      match take_sample queue with
      | (queue, None) => mret (queue, effects, TurnDone)
      | (queue, Some sample) =>
          effect ← session_effect input_origin sample;
          let sent := match effect with Some (SendText _ _ as effect) | Some (SendInput _ _ as effect) => accepted effects effect | _ => true end in
          let effects := effects ++ option_list effect in
          if sent then take_inputs count accepted input_origin queue effects
          else mret (queue, effects, CaptureFailed)
      end
  end.
Definition session_turn (accepted : list SessionEffect -> SessionEffect -> bool) (input_available : bool) (input_origin : Z) (queue : CapturedInputQueue.t)
    : outcome Empty_set (CapturedInputQueue.t * list SessionEffect * TurnEnd) :=
  if negb input_available then mret (clear queue, [], TurnDone) else
  let '(queue, overflowed) := take_overflowed queue in
  if overflowed then mret (queue, [], CaptureOverflow) else
  take_inputs 32 accepted input_origin queue [].
End Session.

(** ** The queue thins out motion only *)
Definition thinned {A} (keep : A -> bool) (l l' : list A) : Prop := l' `sublist_of` l /\ List.filter keep l' = List.filter keep l.
Section Thinned.
Context {A : Type}.
Implicit Types (keep : A -> bool) (l : list A).
Lemma thinned_refl keep l : thinned keep l l.
Proof. done. Qed.
Lemma thinned_trans keep l k m : thinned keep l k -> thinned keep k m -> thinned keep l m.
Proof. intros [H1 H2] [H3 H4]. split; [by etrans|congruence]. Qed.
Lemma thinned_app keep l l' k : thinned keep l l' -> thinned keep (k ++ l) (k ++ l').
Proof. intros [H1 H2]. split; [by apply sublist_app|]. by rewrite !List.filter_app, H2. Qed.
Lemma thinned_drop keep l1 x l2 : keep x = false -> thinned keep (l1 ++ x :: l2) (l1 ++ l2).
Proof.
  intros Hx. split; [by apply sublist_app, sublist_cons|]. rewrite !List.filter_app. cbn [List.filter]. by rewrite Hx.
Qed.
Lemma thinned_filter keep keep' l : (forall x, keep x = true -> keep' x = true) -> thinned keep l (List.filter keep' l).
Proof.
  intros Hk. induction l as [|x l IH]; [done|]. destruct IH as [IH1 IH2]. cbn [List.filter]. destruct (keep' x) eqn:E.
  - split; [by apply sublist_skip|]. cbn [List.filter]. by rewrite IH2.
  - split; [by apply sublist_cons|]. cbn [List.filter]. destruct (keep x) eqn:Ek; [apply Hk in Ek; congruence|done].
Qed.
Lemma thinned_coarse keep keep' l l' : (forall x, keep' x = true -> keep x = true) -> thinned keep l l' -> thinned keep' l l'.
Proof.
  intros Hk [H1 H2]. split; [done|]. assert (Hff : forall k : list A, List.filter keep' (List.filter keep k) = List.filter keep' k).
  { induction k as [|x k IH]; [done|]. cbn [List.filter]. destruct (keep x) eqn:E; cbn [List.filter]; [by rewrite IH|].
    destruct (keep' x) eqn:E'; [|done]. apply Hk in E'. congruence. }
  by rewrite <- (Hff l'), H2, Hff.
Qed.
End Thinned.
Lemma filter_map {A B} (f : A -> B) (keep : B -> bool) l : map f (List.filter (fun x => keep (f x)) l) = List.filter keep (map f l).
Proof. induction l as [|x l IH]; [done|]. cbn. destruct (keep (f x)); cbn; by rewrite IH. Qed.
Lemma filter_none {A} (f : A -> bool) l : (forall x, x ∈ l -> f x = false) -> List.filter f l = [].
Proof. induction l as [|x l IH]; intros H; [done|]. cbn. rewrite (H x) by constructor. apply IH. intros y Hy. apply H. by constructor. Qed.
Lemma filter_filter_none {A} (f g : A -> bool) l : (forall x, g x = true -> f x = false) -> List.filter f (List.filter g l) = [].
Proof. intros H. apply filter_none. intros x Hx. apply list_elem_of_In, filter_In in Hx as [_ Hx]. by apply H. Qed.

Definition inputs (self : CapturedInputQueue.t) : list CapturedInput.t := map input (pending self).
Lemma inputs_retain keep self : inputs (retain keep self) = List.filter keep (inputs self).
Proof. apply filter_map. Qed.
Definition lasting (input : CapturedInput.t) : bool := negb (is_motion input).
Lemma zlen_inputs self : zlen (inputs self) = zlen (pending self).
Proof. unfold zlen, inputs. by rewrite length_map. Qed.

Lemma coalesce_thins sample pending : thinned lasting (map input pending) (map input (coalesce sample pending)) /\ zlen (coalesce sample pending) <= zlen pending.
Proof.
  unfold coalesce. destruct (is_absolute _); cbn [andb]; [|split; [apply thinned_refl|lia]].
  destruct (last pending) as [back|] eqn:E; [|split; [apply thinned_refl|lia]]. apply last_Some in E as [k ->].
  destruct (is_absolute (input back)) eqn:Eb; [|split; [apply thinned_refl|lia]]. rewrite removelast_last, map_app, zlen_app. split; [|pose proof (zlen_nonneg [back]); lia].
  cbn [map]. rewrite <- (app_nil_r (map input k)) at 2. apply thinned_drop. unfold lasting. by destruct (input back).
Qed.
Lemma position_split {A} (p : A -> bool) l i : position p l = Some i -> exists l1 x l2, l = l1 ++ x :: l2 /\ p x = true /\ delete i l = l1 ++ l2.
Proof.
  unfold position. intros ([j x] & Hj & Hi)%fmap_Some. cbn in Hi. subst j. apply list_find_Some in Hj as (Hl & Hx & _).
  pose proof (take_drop_middle _ _ _ Hl) as Hsplit. exists (take i l), x, (drop (S i) l). split_and!; [done|done|]. apply delete_take_drop.
Qed.
Lemma position_absent {A} (p : A -> bool) l : position p l = None -> Forall (fun x => p x = false) l.
Proof. unfold position. intros H%fmap_None%list_find_None. eapply Forall_impl; [exact H|]. intros x Hx. destruct (p x) eqn:E; [by destruct Hx|done]. Qed.

(** What [push] does with the other inputs, and with its own. *)
Record pushed (self self' : CapturedInputQueue.t) (input : CapturedInput.t) (woken : bool) : Prop := {
  pu_stream : exists kept, thinned lasting (inputs self) kept /\ inputs self' = kept ++ (if woken then [input] else []);
  pu_size : zlen (pending self') <= Z.max CAPTURED_INPUT_CAPACITY (zlen (pending self));
  pu_flag : overflowed self' = overflowed self || negb woken;
  pu_full : woken = false -> CAPTURED_INPUT_CAPACITY <= zlen (pending self') /\ Forall (fun input => is_motion input = false) (inputs self');
  pu_text : text_ready self' = text_ready self /\ text_generation self' = text_generation self /\ text_slot self' = text_slot self
}.
Lemma push_thins self input now : pushed self (push self input now).1 input (push self input now).2.
Proof.
  unfold push, push_sample. set (sample := {| Captured.input := input |}). destruct (coalesce_thins sample (pending self)) as [Hthin Hlen].
  cbn [CapturedInputQueue.pending set]. unfold set, const. cbn [CapturedInputQueue.pending]. destruct (Z.leb_spec CAPTURED_INPUT_CAPACITY (zlen (coalesce sample (pending self)))) as [Hfull|Hroom].
  2: { constructor; unfold inputs; cbn; try done; [|rewrite zlen_app; unfold zlen at 2; cbn; lia|by rewrite orb_false_r]. eexists. split; [exact Hthin|]. by rewrite map_app. }
  destruct (position _ _) as [index|] eqn:E.
  - apply position_split in E as (l1 & x & l2 & Hl & Hx & Hd). rewrite Hd, Hl in *. constructor; unfold inputs; cbn; try done.
    + exists (map Captured.input (l1 ++ l2)). split; [|by rewrite map_app]. eapply thinned_trans; [exact Hthin|]. rewrite !map_app. cbn [map]. apply thinned_drop. unfold lasting. by rewrite Hx.
    + rewrite !zlen_app, zlen_cons in *. rewrite zlen_nil. lia.
    + by rewrite orb_false_r.
  - apply position_absent in E. constructor; unfold inputs; cbn; try done; [|lia|by rewrite orb_true_r|].
    + eexists. split; [exact Hthin|]. by rewrite app_nil_r.
    + intros _. split; [lia|]. by apply Forall_map.
Qed.

(** ** What becomes of the inputs

    [offered] are the inputs that reached the queue since it was last cleared,
    [delivered] those the session took; [lost] tells that the queue overflowed. *)
Definition must (input : CapturedInput.t) : bool :=
  match input with CapturedInput.Text _ | MouseMove _ _ | MouseAbsolute _ _ _ _ | Gamepad _ _ _ => false | _ => true end.
(** The last report of a controller. *)
Definition last_report (id : Z) (inputs : list CapturedInput.t) : option CapturedInput.t := last (List.filter (is_gamepad id) inputs).
Definition waiting (inputs : list CapturedInput.t) : list Z := List.filter (fun id => existsb (is_gamepad id) inputs) [0; 1; 2; 3].

Record stream_ok (offered delivered : list CapturedInput.t) (lost : bool) (self : CapturedInputQueue.t) : Prop := {
  so_order : (delivered ++ inputs self) `sublist_of` offered;
  so_flag : overflowed self = true -> lost = true;
  so_kept : lost = false -> List.filter must (delivered ++ inputs self) = List.filter must offered;
  so_last : lost = false -> forall id, last_report id (delivered ++ inputs self) = last_report id offered;
  so_size : zlen (pending self) <= CAPTURED_INPUT_CAPACITY + zlen (waiting (inputs self))
}.

Lemma last_report_app id l k : last_report id (l ++ k) = match last_report id k with Some input => Some input | None => last_report id l end.
Proof. unfold last_report. by rewrite List.filter_app, last_app. Qed.
Lemma last_report_other id l : Forall (fun input => is_gamepad id input = false) l -> last_report id l = None.
Proof. intros H. unfold last_report. rewrite filter_none; [done|]. by apply Forall_forall. Qed.
Lemma thinned_report id l l' : thinned lasting l l' -> last_report id l' = last_report id l.
Proof. intros H. apply (thinned_coarse _ (is_gamepad id)) in H as [_ H]; [|by intros []]. unfold last_report. by rewrite H. Qed.
Lemma waiting_mono l l' : (forall id, existsb (is_gamepad id) l = true -> existsb (is_gamepad id) l' = true) -> zlen (waiting l) <= zlen (waiting l').
Proof.
  intros H. unfold waiting. assert (Hg : forall ids, zlen (List.filter (fun id => existsb (is_gamepad id) l) ids) <= zlen (List.filter (fun id => existsb (is_gamepad id) l') ids)); [|apply Hg].
  induction ids as [|id ids IH]; [done|]. cbn [List.filter]. destruct (existsb (is_gamepad id) l) eqn:E; [rewrite (H _ E), !zlen_cons; lia|].
  destruct (existsb (is_gamepad id) l'); rewrite ?zlen_cons; lia.
Qed.
Lemma existsb_filter {A} (f g : A -> bool) l : (forall x, f x = true -> g x = true) -> existsb f (List.filter g l) = existsb f l.
Proof.
  intros H. induction l as [|x l IH]; [done|]. cbn [List.filter existsb]. destruct (g x) eqn:E; cbn [existsb]; rewrite IH; [done|].
  destruct (f x) eqn:Ef; [|done]. apply H in Ef. congruence.
Qed.
Lemma waiting_most l : zlen (waiting l) <= 4.
Proof. unfold waiting. cbn. repeat destruct (existsb _ _); done. Qed.

Lemma stream_push offered delivered lost self self' input woken :
  stream_ok offered delivered lost self -> pushed self self' input woken -> stream_ok (offered ++ [input]) delivered (lost || overflowed self') self'.
Proof.
  intros [Ho Hf Hk Hl Hs] [(kept & Hthin & Heq) Hsize Hflag Hfull _]. pose proof (thinned_app _ _ _ delivered Hthin) as Hd.
  constructor; rewrite ?Heq, ?app_assoc.
  - etrans; [|apply sublist_app; [exact Ho|reflexivity]]. apply sublist_app; [exact (proj1 Hd)|]. destruct woken; [done|apply sublist_nil_l].
  - intros H. rewrite H. apply orb_true_r.
  - rewrite Hflag. intros H. apply orb_false_iff in H as [H1 H2]. apply orb_false_iff in H2 as [_ H2]. destruct woken; [|done].
    rewrite !List.filter_app, <- (Hk H1), !List.filter_app. f_equal. f_equal. apply (thinned_coarse _ must) in Hthin as [_ ->]; [done|]. by intros [].
  - rewrite Hflag. intros H id. apply orb_false_iff in H as [H1 H2]. apply orb_false_iff in H2 as [_ H2]. destruct woken; [|done].
    rewrite !(last_report_app id _ [input]), <- (Hl H1 id). by rewrite (thinned_report id _ _ Hd).
  - assert (Hw : zlen (waiting (inputs self)) <= zlen (waiting (kept ++ (if woken then [input] else [])))).
    { apply waiting_mono. intros id H. rewrite existsb_app. apply (thinned_coarse _ (is_gamepad id)) in Hthin as [_ Hg]; [|by intros []].
      rewrite <- (existsb_filter _ (is_gamepad id)) in H by done. rewrite <- Hg, existsb_filter in H by done. by rewrite H. }
    pose proof (zlen_nonneg (waiting (kept ++ (if woken then [input] else [])))). lia.
Qed.

(** Inputs that are dropped and do not matter to the stream. *)
Lemma stream_retain keep offered delivered lost self :
  (forall input, must input = true -> keep input = true) -> (forall id input, is_gamepad id input = true -> keep input = true) ->
  stream_ok offered delivered lost self -> stream_ok offered delivered lost (retain keep self).
Proof.
  intros Hm Hg [Ho Hf Hk Hl Hs]. assert (Hin : inputs (retain keep self) = List.filter keep (inputs self)) by apply filter_map.
  assert (Hthin : forall f, (forall input, f input = true -> keep input = true) -> thinned f (delivered ++ inputs self) (delivered ++ List.filter keep (inputs self))) by (intros f H; by apply thinned_app, thinned_filter).
  constructor; rewrite ?Hin; try done.
  - etrans; [|exact Ho]. apply (Hthin (fun _ => false)). done.
  - intros H. rewrite <- (Hk H). apply Hthin, Hm.
  - intros H id. rewrite <- (Hl H id). unfold last_report. by rewrite (proj2 (Hthin _ (Hg id))).
  - rewrite <- zlen_inputs, Hin. rewrite <- zlen_inputs in Hs. assert (Hle : zlen (List.filter keep (inputs self)) <= zlen (inputs self)).
    { unfold zlen. pose proof (sublist_length _ _ (proj1 (thinned_filter (fun _ => false) keep (inputs self) ltac:(done)))). lia. }
    assert (zlen (waiting (inputs self)) <= zlen (waiting (List.filter keep (inputs self)))) by (apply waiting_mono; intros id H; by rewrite existsb_filter by (apply Hg)). lia.
Qed.
Lemma stream_take offered delivered lost self : stream_ok offered delivered lost self ->
  stream_ok offered (delivered ++ match (take_sample self).2 with Some sample => [input sample] | None => [] end) lost (take_sample self).1.
Proof.
  intros [Ho Hf Hk Hl Hs]. unfold take_sample. destruct (pending self) as [|sample rest] eqn:E; cbn [fst snd]; [rewrite app_nil_r; by constructor; rewrite ?E|].
  assert (Hin : inputs self = input sample :: map input rest) by (unfold inputs; by rewrite E). rewrite Hin in Ho, Hk, Hl, Hs. rewrite zlen_cons in Hs.
  set (self' := self <| pending := rest |>). change (inputs self') with (map input rest).
  constructor; change (inputs self') with (map input rest); change (pending self') with rest; rewrite <- ?app_assoc; try done.
  assert (zlen (waiting (input sample :: map input rest)) <= 1 + zlen (waiting (map input rest))); [|lia].
  unfold waiting. generalize (map input rest). intros l. destruct (input sample) as [| | | | | |id ? ?| | | |]; cbn [List.filter existsb is_gamepad orb]; try lia.
  assert (H : forall ids, NoDup ids -> zlen (List.filter (fun i => (id =? i) || existsb (is_gamepad i) l) ids) <= 1 + zlen (List.filter (fun i => existsb (is_gamepad i) l) ids)).
  { induction ids as [|i ids IH]; intros Hnd; [cbn; lia|]. apply NoDup_cons in Hnd as [Hni Hnd]. specialize (IH Hnd). cbn [List.filter].
    destruct (Z.eqb_spec id i) as [->|Hne]; cbn [orb]; [|destruct (existsb (is_gamepad i) l); rewrite ?zlen_cons; lia].
    rewrite zlen_cons. rewrite (filter_ext_in (fun j => (i =? j) || existsb (is_gamepad j) l) (fun j => existsb (is_gamepad j) l)).
    - destruct (existsb (is_gamepad i) l); rewrite ?zlen_cons; lia.
    - intros j Hj. destruct (Z.eqb_spec i j) as [->|]; [|done]. apply list_elem_of_In in Hj. done. }
  apply (H [0; 1; 2; 3]). apply (bool_decide_unpack _). by vm_compute.
Qed.
Lemma stream_clear self : stream_ok [] [] false (clear self).
Proof.
  assert (Hp : pending (clear self) = []) by (change (pending (clear self)) with (List.filter (fun _ : CapturedInputSample => false) (pending self)); by apply filter_none).
  constructor; unfold inputs; rewrite ?Hp; done.
Qed.

Lemma release_gamepad_Ok self id bitmap now : 0 <= id < 4 -> exists self', release_gamepad self id bitmap now = Ok self'
  /\ inputs self' = List.filter (fun input => negb (is_gamepad id input)) (inputs self) ++ [Gamepad id bitmap neutral]
  /\ overflowed self' = overflowed self /\ text_ready self' = text_ready self /\ text_generation self' = text_generation self
  /\ text_slot self' = text_slot self.
Proof.
  intros Hid. unfold release_gamepad. rewrite (proj2 (Z.ltb_lt _ _)) by lia. cbn [negb]. eexists. split; [reflexivity|].
  set (self' := retain _ self). assert (Hs : text_slot self' = text_slot self).
  { unfold self', retain. cbn. unfold const. rewrite filter_none; [done|]. intros sample _. by destruct (input sample). }
  split; [|by rewrite <- Hs]. unfold inputs at 1. cbn. unfold const. rewrite map_app. f_equal. apply (filter_map input (fun i => negb (is_gamepad id i))).
Qed.
Lemma stream_release offered delivered lost self self' id bitmap : 0 <= id < 4 ->
  inputs self' = List.filter (fun input => negb (is_gamepad id input)) (inputs self) ++ [Gamepad id bitmap neutral] ->
  overflowed self' = overflowed self -> stream_ok offered delivered lost self -> stream_ok (offered ++ [Gamepad id bitmap neutral]) delivered lost self'.
Proof.
  intros Hid Heq Hov [Ho Hf Hk Hl Hs]. set (keep := fun input => negb (is_gamepad id input)) in *. set (report := Gamepad id bitmap neutral) in *.
  assert (Hthin : forall f, (forall input, f input = true -> keep input = true) -> thinned f (delivered ++ inputs self) (delivered ++ List.filter keep (inputs self))) by (intros f H; by apply thinned_app, thinned_filter).
  constructor; rewrite ?Heq, ?Hov, ?app_assoc; [| exact Hf | | |].
  - apply sublist_app; [|done]. etrans; [|exact Ho]. by apply (Hthin (fun _ => false)).
  - intros H. rewrite (List.filter_app _ _ [report]), (List.filter_app _ offered), <- (Hk H). f_equal. apply (Hthin must). by intros [].
  - intros H j. rewrite !(last_report_app j _ [report]), <- (Hl H j). unfold last_report at 1 3. cbn [List.filter is_gamepad report].
    destruct (Z.eqb_spec id j) as [->|Hne]; [done|]. cbn [last]. unfold last_report. f_equal. apply Hthin. unfold keep. intros []; try done. cbn [is_gamepad]. intros He. zbool. subst. 
    apply negb_true_iff. apply Z.eqb_neq. lia.
  - rewrite <- zlen_inputs in *. rewrite Heq, zlen_app. change (zlen [report]) with 1.
    assert (Hg : forall l, zlen (List.filter keep l) + zlen (List.filter (is_gamepad id) l) = zlen l).
    { induction l as [|x l IH]; [done|]. cbn [List.filter]. unfold keep at 1. destruct (is_gamepad id x); cbn [negb]; rewrite !zlen_cons; lia. }
    specialize (Hg (inputs self)). assert (Hold : forall j, j <> id -> existsb (is_gamepad j) (inputs self) = true -> existsb (is_gamepad j) (List.filter keep (inputs self) ++ [report]) = true).
    { intros j Hj H. rewrite existsb_app, existsb_filter, H; [done|]. unfold keep. intros []; try done. cbn [is_gamepad]. intros He. zbool. apply negb_true_iff, Z.eqb_neq. lia. }
    assert (Hnew : existsb (is_gamepad id) (List.filter keep (inputs self) ++ [report]) = true) by (rewrite existsb_app; cbn; rewrite Z.eqb_refl; by rewrite orb_true_r).
    destruct (existsb (is_gamepad id) (inputs self)) eqn:E.
    + assert (1 <= zlen (List.filter (is_gamepad id) (inputs self))).
      { apply existsb_exists in E as (x & Hx & Hg'). assert (Hin : In x (List.filter (is_gamepad id) (inputs self))) by (by apply filter_In). destruct (List.filter (is_gamepad id) (inputs self)) as [|y l]; [destruct Hin|]. rewrite zlen_cons. pose proof (zlen_nonneg l). lia. }
      assert (zlen (waiting (inputs self)) <= zlen (waiting (List.filter keep (inputs self) ++ [report]))).
      { apply waiting_mono. intros j Hj. destruct (decide (j = id)) as [->|]; [done|]. by apply Hold. } lia.
    + assert (1 + zlen (waiting (inputs self)) <= zlen (waiting (List.filter keep (inputs self) ++ [report]))).
      { unfold waiting. assert (Hcount : forall ids, zlen (List.filter (fun j => existsb (is_gamepad j) (inputs self)) ids) + (if existsb (Z.eqb id) ids then 1 else 0)
          <= zlen (List.filter (fun j => existsb (is_gamepad j) (List.filter keep (inputs self) ++ [report])) ids)).
        { induction ids as [|j ids IH]; [done|]. cbn [List.filter existsb]. destruct (Z.eqb_spec id j) as [<-|Hne]; cbn [orb].
          - rewrite E, Hnew, zlen_cons. destruct (existsb (Z.eqb id) ids); lia.
          - destruct (existsb (is_gamepad j) (inputs self)) eqn:Ej; [rewrite (Hold j) by done; rewrite !zlen_cons; lia|]. destruct (existsb (is_gamepad j) (_ ++ _)); rewrite ?zlen_cons; lia. }
        specialize (Hcount [0; 1; 2; 3]). replace (existsb (Z.eqb id) [0; 1; 2; 3]) with true in Hcount; [lia|]. assert (id = 0 \/ id = 1 \/ id = 2 \/ id = 3) as [->|[->|[->| ->]]] by lia; done. }
      pose proof (zlen_nonneg (List.filter (is_gamepad id) (inputs self))). lia.
Qed.

(** ** Pastes *)
Definition texts (self : CapturedInputQueue.t) : list CapturedInput.t := List.filter is_text (inputs self).

(** A paste that lives and is not cancelled belongs to the session and the
    capture that are active; only such a paste is pending. *)
Record text_ok (active : bool) (handles : nat) (author : Z) (self : CapturedInputQueue.t) : Prop := {
  tk_strong : TextInputSlot.strong (text_slot self) = (length (texts self) + handles)%nat;
  tk_live : forall p, TextInputSlot.upgrade (text_slot self) = Some p -> cancelled p = false ->
    active = true /\ text_ready self = true /\ author = text_generation self /\ (texts self = [] \/ texts self = [CapturedInput.Text (Text.text p)]);
  tk_pending : texts self <> [] -> exists p, TextInputSlot.upgrade (text_slot self) = Some p /\ cancelled p = false;
  tk_payload : (0 < TextInputSlot.strong (text_slot self))%nat -> TextInputSlot.payload (text_slot self) <> None
}.
Lemma text_same active handles author self self' : texts self' = texts self -> text_slot self' = text_slot self ->
  text_ready self' = text_ready self -> text_generation self' = text_generation self -> text_ok active handles author self -> text_ok active handles author self'.
Proof. intros Ht Hs Hr Hg [H1 H2 H3 H4]. constructor; rewrite ?Ht, ?Hs, ?Hr, ?Hg; done. Qed.
Lemma iter_drop n slot : TextInputSlot.strong (Nat.iter n TextInputSlot.drop_text slot) = (TextInputSlot.strong slot - n)%nat
  /\ TextInputSlot.payload (Nat.iter n TextInputSlot.drop_text slot) = TextInputSlot.payload slot.
Proof.
  induction n as [|n [IH1 IH2]]; [split; [cbn; lia|done]|].
  change (Nat.iter (S n) _ slot) with (TextInputSlot.drop_text (Nat.iter n TextInputSlot.drop_text slot)).
  revert IH1 IH2. generalize (Nat.iter n TextInputSlot.drop_text slot). intros x IH1 IH2. cbn. unfold const. rewrite IH1, IH2. split; [lia|done].
Qed.
Lemma texts_retain keep self : List.filter is_text (List.filter keep (inputs self)) = texts (retain keep self).
Proof. unfold texts. by rewrite inputs_retain. Qed.
Lemma retain_slot keep self :
  let dropped := length (List.filter (fun input => is_text input && negb (keep input)) (inputs self)) in
  TextInputSlot.strong (text_slot (retain keep self)) = (TextInputSlot.strong (text_slot self) - dropped)%nat
  /\ TextInputSlot.payload (text_slot (retain keep self)) = TextInputSlot.payload (text_slot self).
Proof.
  cbv zeta. unfold retain. cbn. unfold const. unfold inputs. rewrite <- (filter_map input (fun input => is_text input && negb (keep input))), length_map. apply iter_drop.
Qed.
Lemma upgrade_Some slot p : TextInputSlot.upgrade slot = Some p <-> (0 < TextInputSlot.strong slot)%nat /\ TextInputSlot.payload slot = Some p.
Proof. unfold TextInputSlot.upgrade. destruct (Nat.eqb_spec (TextInputSlot.strong slot) 0); split; intros H; try done; [lia|by split; [lia|]|apply H]. Qed.

Lemma cancel_strong slot : TextInputSlot.strong (TextInputSlot.cancel slot) = TextInputSlot.strong slot
  /\ (forall p, TextInputSlot.upgrade (TextInputSlot.cancel slot) = Some p -> cancelled p = true)
  /\ (TextInputSlot.payload slot <> None -> TextInputSlot.payload (TextInputSlot.cancel slot) <> None).
Proof.
  unfold TextInputSlot.cancel. destruct (TextInputSlot.upgrade slot) as [p|] eqn:E; [|split; [done|]; split; [rewrite E; done|done]]. apply upgrade_Some in E as [Hs _].
  split; [done|]. split; [|done]. intros q Hq. apply upgrade_Some in Hq as [_ Hq]. cbn in Hq. unfold const in Hq. by injection Hq as <-.
Qed.
(** What [discard_text] and [set_text_ready] do to a paste. *)
Lemma text_discard active active' handles author author' self ready generation :
  text_ok active handles author self ->
  text_ok active' handles author' (discard_text (self <| text_generation := generation |> <| text_ready := ready |>)).
Proof.
  intros [H1 H2 H3 H4]. set (self1 := self <| text_generation := generation |> <| text_ready := ready |> <| text_slot ::= TextInputSlot.cancel |>).
  change (discard_text _) with (retain (fun input => negb (is_text input)) self1).
  destruct (retain_slot (fun input => negb (is_text input)) self1) as [Hs Hp]. destruct (cancel_strong (text_slot self)) as (Hc1 & Hc2 & Hc3).
  assert (Ht : texts (retain (fun input => negb (is_text input)) self1) = []).
  { rewrite <- texts_retain. apply filter_filter_none. intros x Hx. by apply negb_true_iff. }
  assert (Hd : List.filter (fun input => is_text input && negb (negb (is_text input))) (inputs self1) = texts self).
  { unfold texts. change (inputs self1) with (inputs self). apply filter_ext. intros x. by destruct (is_text x). }
  rewrite Hd in Hs. change (text_slot self1) with (TextInputSlot.cancel (text_slot self)) in *. constructor; [| |by rewrite Ht|rewrite Hs, Hp; intros Hpos; apply Hc3, H4; lia].
  - rewrite Ht, Hs, Hc1, H1. cbn. lia.
  - intros p Hup Hnc. apply upgrade_Some in Hup as [Hup1 Hup2]. rewrite Hs, Hp in *.
    rewrite (Hc2 p) in Hnc; [done|]. apply upgrade_Some. split; [lia|done].
Qed.
Lemma text_clear active handles author self : text_ok active handles author self -> text_ok active handles author (clear self).
Proof.
  intros [H1 H2 H3 H4]. destruct (retain_slot (fun _ => false) self) as [Hs Hp].
  assert (Ht : texts (clear self) = []) by (change (texts (clear self)) with (texts (retain (fun _ => false) self)); rewrite <- texts_retain; by apply filter_filter_none).
  assert (Hd : List.filter (fun input => is_text input && negb false) (inputs self) = texts self) by (apply filter_ext; intros x; by destruct (is_text x)).
  rewrite Hd in Hs. change (text_slot (retain (fun _ => false) self)) with (text_slot (clear self)) in *. constructor; [| |by rewrite Ht|rewrite Hs, Hp; intros Hpos; apply H4; lia].
  - rewrite Ht, Hs, H1. cbn. lia.
  - intros p Hup Hnc. apply upgrade_Some in Hup as [Hup1 Hup2]. rewrite Hs, Hp in *. destruct (H2 p) as (? & ? & ? & _); [apply upgrade_Some; split; [lia|done]|done|]. split_and!; try done. by left.
Qed.
Lemma text_take active handles author self : text_ok active handles author self ->
  text_ok active (handles + match (take_sample self).2 with Some sample => if is_text (input sample) then 1 else 0 | None => 0 end) author (take_sample self).1.
Proof.
  intros [H1 H2 H3 H4]. unfold take_sample. destruct (pending self) as [|sample rest] eqn:E; cbn [fst snd]; [rewrite Nat.add_0_r; by constructor|].
  set (self' := self <| pending := rest |>). assert (Ht : texts self = (if is_text (input sample) then [input sample] else []) ++ texts self').
  { unfold texts, inputs. rewrite E. cbn. unfold const. by destruct (is_text (input sample)). }
  change (text_slot self) with (text_slot self') in *. rewrite Ht in *. constructor; [| | |done].
  - rewrite H1, length_app. destruct (is_text (input sample)); cbn; lia.
  - intros p Hup Hnc. destruct (H2 p Hup Hnc) as (? & ? & ? & Htx). split_and!; try done. destruct (is_text (input sample)); cbn [app] in Htx; [|done]. left.
    destruct Htx as [|Htx]; [done|]. by injection Htx as _ Htx.
  - intros Hne. apply H3. by destruct (is_text (input sample)).
Qed.

(** ** The capture and its threads

    [handles] counts the handles of the paste that the transport holds, [author]
    is the session generation under which it was submitted. *)
Record Captures := {
  capture : EmbeddedInputCapture.t;
  offered : list CapturedInput.t;
  delivered : list CapturedInput.t;
  lost : bool;
  handles : nat;
  author : Z
}.
Definition started : Captures :=
  {| capture := EmbeddedInputCapture.new CapturedInputQueue.default; offered := []; delivered := []; lost := false; handles := 0; author := 0 |}.

(** The window submits and changes the focus, the raw-input thread pushes
    relative motion, wheel and buttons, the session takes, clears and announces
    itself, the transport clones and drops the paste it was given. *)
Inductive CaptureEvent :=
  | Submitted (input : CapturedInput.t) (now : Z)
  | TextSubmitted (bytes : list u8) (now : Z)
  | Activated (active : bool) (now : Z)
  | RawInput (input : CapturedInput.t) (now : Z)
  | TextReady (generation : Z) (ready : bool)
  | Taken | OverflowTaken | Cleared
  | TextCloned | TextDropped.
Definition event_ok (e : CaptureEvent) : Prop :=
  match e with
  | Submitted (CapturedInput.Text _) _ => False
  | Submitted (Gamepad id _ _) _ => is_u8 id
  | RawInput (MouseMove _ _ | MouseWheel _ _ | MouseButton _ _) _ => True
  | RawInput _ _ => False
  | _ => True
  end.

Fixpoint releases (id : Z) (gamepads : list (option Z)) : list CapturedInput.t :=
  match gamepads with
  | [] => []
  | None :: gamepads => releases (id + 1) gamepads
  | Some bitmap :: gamepads => Gamepad id bitmap neutral :: releases (id + 1) gamepads
  end.
(** The inputs an event brings to the queue. *)
Definition reached (self : EmbeddedInputCapture.t) (e : CaptureEvent) : list CapturedInput.t :=
  match e with
  | Submitted (Gamepad id bitmap pad) _ => if (id <? 4) && (EmbeddedInputCapture.active self || bool_decide (pad = neutral)) then [Gamepad id bitmap pad] else []
  | Submitted input _ => if EmbeddedInputCapture.active self then [input] else []
  | TextSubmitted bytes now => match (EmbeddedInputCapture.submit_text self bytes now).2 with Ok _ => [CapturedInput.Text bytes] | _ => [] end
  | Activated false _ => if EmbeddedInputCapture.active self then releases 0 (EmbeddedInputCapture.gamepads self) else []
  | RawInput input _ => [input]
  | _ => []
  end.
Definition on_queue (f : CapturedInputQueue.t -> CapturedInputQueue.t) (self : EmbeddedInputCapture.t) : EmbeddedInputCapture.t :=
  self <| EmbeddedInputCapture.queue ::= f |>.
Definition after (self : Captures) (e : CaptureEvent) (capture' : EmbeddedInputCapture.t) : Captures :=
  self <| capture := capture' |> <| offered ::= (fun l => l ++ reached (capture self) e) |>
       <| lost ::= (fun lost => lost || overflowed (EmbeddedInputCapture.queue capture')) |>.
Definition react (self : Captures) (e : CaptureEvent) : outcome Empty_set Captures :=
  let after := after self e in
  match e with
  | Submitted input now => capture ← EmbeddedInputCapture.submit (capture self) input now; mret (after capture)
  | TextSubmitted bytes now =>
      let '(capture', result) := EmbeddedInputCapture.submit_text (capture self) bytes now in
      mret ((after capture') <| author := match result with Ok _ => text_generation (EmbeddedInputCapture.queue capture') | _ => author self end |>)
  | Activated active now => capture ← EmbeddedInputCapture.set_active (capture self) active now; mret (after capture)
  | RawInput input now => mret (after (on_queue (fun queue => (push queue input now).1) (capture self)))
  | TextReady generation ready => mret (after (on_queue (fun queue => set_text_ready queue generation ready) (capture self)))
  | Taken =>
      let '(queue, sample) := take_sample (EmbeddedInputCapture.queue (capture self)) in
      mret ((after (on_queue (fun _ => queue) (capture self)))
        <| delivered ::= (fun l => l ++ match sample with Some sample => [input sample] | None => [] end) |>
        <| handles ::= (fun n => n + match sample with Some sample => if is_text (input sample) then 1 else 0 | None => 0 end)%nat |>)
  | OverflowTaken => mret (after (on_queue (fun queue => (take_overflowed queue).1) (capture self)))
  | Cleared => mret (self <| capture ::= on_queue clear |> <| offered := [] |> <| delivered := [] |> <| lost := false |>)
  | TextCloned =>
      if (handles self =? 0)%nat then mret self else
      mret (self <| capture ::= on_queue (fun queue => queue <| text_slot ::= TextInputSlot.clone_text |>) |> <| handles ::= S |>)
  | TextDropped =>
      if (handles self =? 0)%nat then mret self else
      mret (self <| capture ::= on_queue (fun queue => queue <| text_slot ::= TextInputSlot.drop_text |>) |> <| handles ::= pred |>)
  end.

Abbreviation queue_of s := (EmbeddedInputCapture.queue (capture s)).
(** A controller whose last report is not neutral is held by an active capture. *)
Definition rest_ok (active : bool) (gamepads : list (option Z)) (stream : list CapturedInput.t) : Prop :=
  forall id, 0 <= id < 4 -> match last_report id stream with
    | Some report => (exists bitmap, report = Gamepad id bitmap neutral) \/ (active = true /\ exists bitmap, zget gamepads id = Some (Some bitmap))
    | None => True
    end.
Record captures_ok (s : Captures) : Prop := {
  ca_gamepads : zlen (EmbeddedInputCapture.gamepads (capture s)) = 4;
  ca_stream : stream_ok (offered s) (delivered s) (lost s) (queue_of s);
  ca_rest : rest_ok (EmbeddedInputCapture.active (capture s)) (EmbeddedInputCapture.gamepads (capture s)) (delivered s ++ inputs (queue_of s));
  ca_text : text_ok (EmbeddedInputCapture.active (capture s)) (handles s) (author s) (queue_of s)
}.

(** ** Every event keeps them *)
Lemma set_idx_4 {E A} (l : list A) id x : zlen l = 4 -> 0 <= id < 4 -> set_idx (E:=E) l id x = Ok (<[Z.to_nat id := x]> l).
Proof. intros Hl Hid. apply set_idx_Ok. lia. Qed.
Lemma rest_gamepads active gamepads gamepads' stream :
  (forall id bitmap, zget gamepads id = Some (Some bitmap) -> exists bitmap', zget gamepads' id = Some (Some bitmap')) ->
  rest_ok active gamepads stream -> rest_ok active gamepads' stream.
Proof.
  intros Hg H id Hid. specialize (H id Hid). destruct (last_report id stream) as [r|]; [|done]. destruct H as [H|[Ha [b Hb]]]; [by left|right].
  split; [done|]. by eapply Hg.
Qed.
Lemma rest_reports active gamepads stream stream' : (forall id, last_report id stream' = last_report id stream \/ exists bitmap, last_report id stream' = Some (Gamepad id bitmap neutral)
    \/ active = true /\ exists bitmap', zget gamepads id = Some (Some bitmap')) ->
  rest_ok active gamepads stream -> rest_ok active gamepads stream'.
Proof.
  intros Hl H id Hid. destruct (Hl id) as [->|[b [->|[Ha [b' Hb]]]]]; [by apply H|left; by exists b|].
  destruct (last_report id stream'); [|done]. right. split; [done|]. by exists b'.
Qed.

(** An input that goes to the queue while the capture is active. *)
Lemma push_keeps active gamepads offered delivered lost handles author self input now :
  is_text input = false -> (forall id, is_gamepad id input = true -> active = true /\ exists bitmap, zget gamepads id = Some (Some bitmap)) ->
  stream_ok offered delivered lost self -> rest_ok active gamepads (delivered ++ inputs self) -> text_ok active handles author self ->
  let self' := (push self input now).1 in
  stream_ok (offered ++ [input]) delivered (lost || overflowed self') self' /\ rest_ok active gamepads (delivered ++ inputs self') /\ text_ok active handles author self'.
Proof.
  intros Htext Hheld Hs Hr Ht self'. pose proof (push_thins self input now) as Hp. fold self' in Hp. set (woken := (push self input now).2) in *.
  split; [by apply (stream_push _ _ _ self self' input woken)|]. destruct Hp as [(kept & Hthin & Heq) _ _ _ (H1 & H2 & H3)]. split.
  - rewrite Heq. eapply rest_reports; [|exact Hr]. intros id. rewrite app_assoc, last_report_app, (thinned_report id _ _ (thinned_app _ _ _ delivered Hthin)).
    destruct woken; [|by left]. unfold last_report at 1 3. cbn [List.filter]. destruct (is_gamepad id input) eqn:E; [|by left].
    right. exists 0. right. by apply Hheld.
  - apply (text_same _ _ _ self); try done. unfold texts. rewrite Heq, List.filter_app. apply (thinned_coarse _ is_text) in Hthin as [_ ->]; [|by intros []].
    destruct woken; cbn [List.filter]; rewrite ?Htext; apply app_nil_r.
Qed.
Lemma release_keeps active active2 gamepads offered delivered lost handles author self id bitmap now :
  0 <= id < 4 -> stream_ok offered delivered lost self -> rest_ok active gamepads (delivered ++ inputs self) -> text_ok active2 handles author self ->
  exists self', release_gamepad self id bitmap now = Ok self'
    /\ stream_ok (offered ++ [Gamepad id bitmap neutral]) delivered lost self' /\ rest_ok active gamepads (delivered ++ inputs self') /\ text_ok active2 handles author self'
    /\ (forall j, j <> id -> last_report j (delivered ++ inputs self') = last_report j (delivered ++ inputs self))
    /\ last_report id (delivered ++ inputs self') = Some (Gamepad id bitmap neutral) /\ overflowed self' = overflowed self.
Proof.
  intros Hid Hs Hr Ht. destruct (release_gamepad_Ok self id bitmap now Hid) as (self' & Hrel & Hin & Hov & Hready & Hgen & Hslot). exists self'. split; [done|].
  split; [by apply (stream_release _ _ _ self)|]. assert (Hsame : last_report id (delivered ++ inputs self') = Some (Gamepad id bitmap neutral)).
  { rewrite Hin, app_assoc, last_report_app. unfold last_report at 1. cbn. by rewrite Z.eqb_refl. }
  assert (Hother : forall j, j <> id -> last_report j (delivered ++ inputs self') = last_report j (delivered ++ inputs self)).
  { intros j Hj. rewrite Hin, app_assoc, last_report_app, (last_report_other j [_]); [|repeat constructor; cbn; apply Z.eqb_neq; lia].
    unfold last_report. f_equal. apply thinned_app, thinned_filter. intros []; try done. cbn. intros He. zbool. apply negb_true_iff, Z.eqb_neq. lia. }
  split_and!; try done.
  - eapply rest_reports; [|exact Hr]. intros j. destruct (decide (j = id)) as [->|Hj]; [right; exists bitmap; by left|left; by apply Hother].
  - apply (text_same _ _ _ self); try done. unfold texts. rewrite Hin, List.filter_app. cbn. rewrite app_nil_r. apply thinned_filter. by intros [].
Qed.
Lemma lost_same offered delivered lost self : stream_ok offered delivered lost self -> lost || overflowed self = lost.
Proof. intros [_ Hf _ _ _]. destruct lost; [done|]. by destruct (overflowed self); [discriminate Hf|]. Qed.
Lemma stream_same offered delivered lost self self' : pending self' = pending self -> overflowed self' = overflowed self ->
  stream_ok offered delivered lost self -> stream_ok offered delivered lost self'.
Proof. intros Hp Ho [H1 H2 H3 H4 H5]. constructor; unfold inputs in *; rewrite ?Hp, ?Ho; done. Qed.
Lemma discard_keeps active active' gamepads offered delivered lost handles author author' self ready generation :
  stream_ok offered delivered lost self -> rest_ok active gamepads (delivered ++ inputs self) -> text_ok active handles author self ->
  let self' := discard_text (self <| text_generation := generation |> <| text_ready := ready |>) in
  stream_ok offered delivered lost self' /\ rest_ok active gamepads (delivered ++ inputs self') /\ text_ok active' handles author' self'
  /\ overflowed self' = overflowed self /\ forall id, last_report id (delivered ++ inputs self') = last_report id (delivered ++ inputs self).
Proof.
  intros Hs Hr Ht self'. set (self1 := self <| text_generation := generation |> <| text_ready := ready |> <| text_slot ::= TextInputSlot.cancel |>).
  change self' with (retain (fun input => negb (is_text input)) self1).
  assert (Hl : forall id, last_report id (delivered ++ inputs (retain (fun input => negb (is_text input)) self1)) = last_report id (delivered ++ inputs self)).
  { intros id. rewrite inputs_retain. unfold last_report. f_equal. apply thinned_app, thinned_filter. by intros []. }
  split; [|split; [|split; [by eapply text_discard|by split]]].
  - apply stream_retain; [by intros []|by intros ? []|]. by apply (stream_same _ _ _ self).
  - eapply rest_reports; [|exact Hr]. intros id. by left.
Qed.

Lemma release_all_keeps active active2 gamepads offered delivered lost handles author now : forall held id self, 0 <= id -> id + zlen held <= 4 ->
  stream_ok offered delivered lost self -> rest_ok active gamepads (delivered ++ inputs self) -> text_ok active2 handles author self ->
  exists self', EmbeddedInputCapture.release_all self id held now = Ok self'
    /\ stream_ok (offered ++ releases id held) delivered lost self' /\ rest_ok active gamepads (delivered ++ inputs self') /\ text_ok active2 handles author self'
    /\ overflowed self' = overflowed self
    /\ forall j, match zget held (j - id) with
       | Some (Some bitmap) => last_report j (delivered ++ inputs self') = Some (Gamepad j bitmap neutral)
       | _ => last_report j (delivered ++ inputs self') = last_report j (delivered ++ inputs self)
       end.
Proof.
  intros held. revert offered. induction held as [|[bitmap|] held IH]; intros offered id self Hid Hlen Hs Hr Ht; cbn [EmbeddedInputCapture.release_all releases].
  - exists self. rewrite app_nil_r. split_and!; try done. intros j. unfold zget. destruct (_ <? 0); [done|]. by rewrite lookup_nil.
  - rewrite zlen_cons in Hlen. pose proof (zlen_nonneg held) as Hh.
    destruct (release_keeps active active2 gamepads offered delivered lost handles author self id bitmap now) as (self1 & -> & Hs1 & Hr1 & Ht1 & Hother & Hsame & Hov); [lia|done..|]. rewrite bind_Ok.
    destruct (IH (offered ++ [Gamepad id bitmap neutral]) (id + 1) self1) as (self' & -> & Hs' & Hr' & Ht' & Hov' & Hl); [lia|lia|done..|]. exists self'. split; [done|].
    rewrite <- app_assoc in Hs'. split_and!; try done; [congruence|]. intros j. specialize (Hl j). replace (j - (id + 1)) with (j - id - 1) in Hl by lia.
    destruct (Z.eq_dec j id) as [->|Hj].
    + rewrite Z.sub_diag in *. cbn in Hl |- *. by rewrite Hl.
    + assert (Hz : zget (Some bitmap :: held) (j - id) = zget held (j - id - 1)).
      { unfold zget. destruct (Z.ltb_spec (j - id) 0), (Z.ltb_spec (j - id - 1) 0); try done; try lia. by replace (Z.to_nat (j - id)) with (S (Z.to_nat (j - id - 1))) by lia. }
      rewrite Hz. rewrite (Hother j Hj) in Hl. done.
  - rewrite zlen_cons in Hlen. destruct (IH offered (id + 1) self) as (self' & -> & Hs' & Hr' & Ht' & Hov' & Hl); [lia|lia|done..|]. exists self'.
    split_and!; try done. intros j. specialize (Hl j). replace (j - (id + 1)) with (j - id - 1) in Hl by lia. destruct (Z.eq_dec j id) as [->|Hj].
    + rewrite Z.sub_diag in *. cbn in Hl |- *. done.
    + assert (Hz : zget (None :: held) (j - id) = zget held (j - id - 1)).
      { unfold zget. destruct (Z.ltb_spec (j - id) 0), (Z.ltb_spec (j - id - 1) 0); try done; try lia. by replace (Z.to_nat (j - id)) with (S (Z.to_nat (j - id - 1))) by lia. }
      by rewrite Hz.
Qed.

Lemma capture_active_ok s active now : captures_ok s -> exists s', react s (Activated active now) = Ok s' /\ captures_ok s'.
Proof.
  intros [Hg Hs Hr Ht]. unfold react, EmbeddedInputCapture.set_active. destruct active; cbn [negb].
  - rewrite bind_mret. eexists. split; [reflexivity|]. constructor; cbn; unfold const; rewrite ?app_nil_r; rewrite ?(lost_same _ _ _ _ Hs); try done.
    + intros id Hid. specialize (Hr id Hid). destruct (last_report _ _); [|done]. destruct Hr as [Hr|[_ Hr]]; [by left|by right].
    + destruct Ht as [H1 H2 H3 H4]. constructor; try done. intros p Hp Hc. destruct (H2 p Hp Hc) as (_ & ?). done.
  - destruct s as [[q act gs] off del lo han aut]. cbn in *.
    destruct (discard_keeps act false gs off del lo han aut aut q (text_ready q) (text_generation q) Hs Hr Ht) as (Hs1 & Hr1 & Ht1 & Hov1 & Hl1).
    replace (q <| text_generation := text_generation q |> <| text_ready := text_ready q |>) with q in * by (by destruct q). set (q1 := discard_text q) in *.
    destruct act.
    + destruct (release_all_keeps true false gs off del lo han aut now gs 0 q1) as (q2 & Hrel & Hs2 & _ & Ht2 & Hov2 & Hl2); [lia|lia|done..|].
      cbn. unfold const. rewrite Hrel, bind_Ok, bind_mret. cbn. unfold const. eexists. split; [reflexivity|].
      constructor; cbn; unfold const; rewrite ?(lost_same _ _ _ _ Hs2); try done; [by unfold zlen in *; rewrite length_map|].
      intros id Hid. specialize (Hl2 id). rewrite Z.sub_0_r in Hl2. specialize (Hr1 id Hid).
      destruct (zget gs id) as [[bitmap|]|] eqn:E; rewrite Hl2; [left; by exists bitmap|..].
      all: destruct (last_report id _); [|done]; left; destruct Hr1 as [Hr1|[_ [b Hb]]]; [done|congruence].
    + rewrite !bind_mret. cbn. unfold const. eexists. split; [reflexivity|].
      constructor; cbn; unfold const; rewrite ?app_nil_r; rewrite ?(lost_same _ _ _ _ Hs); done.
Qed.

(** A push from whichever thread. *)
Lemma pushed_ok s gamepads input now e : captures_ok s -> reached (capture s) e = [input] -> is_text input = false ->
  zlen gamepads = 4 -> (forall id bitmap, zget (EmbeddedInputCapture.gamepads (capture s)) id = Some (Some bitmap) -> exists bitmap', zget gamepads id = Some (Some bitmap')) ->
  (forall id, is_gamepad id input = true -> EmbeddedInputCapture.active (capture s) = true /\ exists bitmap, zget gamepads id = Some (Some bitmap)) ->
  captures_ok (after s e (on_queue (fun queue => (push queue input now).1) ((capture s) <| EmbeddedInputCapture.gamepads := gamepads |>))).
Proof.
  intros [Hg Hs Hr Ht] Hreach Htext Hlen Hmono Hheld. apply (rest_gamepads _ _ gamepads _ Hmono) in Hr.
  destruct (push_keeps _ gamepads _ _ _ _ (author s) (queue_of s) input now Htext Hheld Hs Hr Ht) as (Hs' & Hr' & Ht').
  constructor; cbn; unfold const; rewrite ?Hreach; done.
Qed.
(** Nothing reaches the queue. *)
Lemma ignored_ok s e : captures_ok s -> reached (capture s) e = [] -> captures_ok (after s e (capture s)).
Proof.
  intros [Hg Hs Hr Ht] Hreach. constructor; cbn; unfold const; rewrite ?Hreach, ?app_nil_r, ?(lost_same _ _ _ _ Hs); done.
Qed.
Lemma submitted_gamepad_ok s id bitmap pad now : captures_ok s -> is_u8 id ->
  exists s', react s (Submitted (Gamepad id bitmap pad) now) = Ok s' /\ captures_ok s'.
Proof.
  intros Hok Hid. pose proof Hok as [Hg Hs Hr Ht]. unfold is_u8 in Hid. unfold react, EmbeddedInputCapture.submit, EmbeddedInputCapture.note_gamepad. rewrite Hg.
  set (e := Submitted (Gamepad id bitmap pad) now). set (gs := EmbeddedInputCapture.gamepads (capture s)) in *.
  destruct (Z.leb_spec 4 id) as [Hbig|Hsmall].
  { rewrite !bind_mret. eexists. split; [reflexivity|]. cbn [andb]. apply ignored_ok; [done|]. cbn. by rewrite (proj2 (Z.ltb_ge _ _)). }
  assert (Hidr : (id <? 4) = true) by (apply Z.ltb_lt; lia). set (act := EmbeddedInputCapture.active (capture s)) in *.
  destruct (negb act && negb (bool_decide (pad = neutral))) eqn:Erefuse.
  { rewrite !bind_mret. eexists. split; [reflexivity|]. cbn [andb]. apply ignored_ok; [done|]. cbn. rewrite Hidr. fold act. by destruct act, (bool_decide (pad = neutral)). }
  set (noted := map _ gs). assert (Hln : zlen noted = 4) by (unfold noted, zlen in *; by rewrite length_map). rewrite set_idx_4 by (done || lia). rewrite bind_Ok.
  set (gs' := <[Z.to_nat id := Some bitmap]> noted). assert (Hlen : zlen gs' = 4) by (unfold gs'; by rewrite zlen_insert).
  assert (Hnew : zget gs' id = Some (Some bitmap)) by (unfold gs'; rewrite zget_lookup by lia; apply list_lookup_insert_eq; unfold zlen in Hln; lia).
  assert (Hmono : forall j b, zget gs j = Some (Some b) -> exists b', zget gs' j = Some (Some b')).
  { intros j b Hb. destruct (Z.eq_dec j id) as [->|Hj]; [by exists bitmap|]. exists bitmap. pose proof (zget_lt _ _ _ Hb). unfold gs'. rewrite zget_lookup in Hb |- * by lia.
    rewrite list_lookup_insert_ne by lia. unfold noted. rewrite list_lookup_fmap, Hb. done. }
  match goal with |- context [bool_decide (pad = neutral) && negb ?a] => change a with act end.
  destruct (bool_decide (pad = neutral) && negb act) eqn:Erel.
  - apply andb_true_iff in Erel as [Hn Ha]. apply bool_decide_eq_true in Hn as ->. apply negb_true_iff in Ha.
    destruct (release_keeps act act gs' (offered s) (delivered s) (lost s) (handles s) (author s) (queue_of s) id bitmap now) as (q & Hq & Hs' & Hr' & Ht' & _ & _ & Hov); [lia|done| |done|].
    { by apply (rest_gamepads _ gs). }
    cbn [EmbeddedInputCapture.queue]. unfold set at 1. cbn. unfold const. rewrite Hq, bind_Ok, !bind_mret. eexists. split; [reflexivity|]. cbn [andb].
    assert (Hre : reached (capture s) e = [Gamepad id bitmap neutral]) by (cbn; by rewrite Hidr, bool_decide_eq_true_2, orb_true_r).
    constructor; cbn -[reached]; unfold const; rewrite ?Hre, ?(lost_same _ _ _ _ Hs'); done.
  - rewrite !bind_mret. cbn [andb]. match goal with |- context [if ?a then _ else _] => change a with act end.
    assert (Hact : act = true) by (by destruct act, (bool_decide (pad = neutral))). rewrite Hact.
    eexists. split; [reflexivity|]. apply (pushed_ok s gs' (Gamepad id bitmap pad) now e); try done.
    + cbn. rewrite Hidr. fold act. by rewrite Hact.
    + cbn. intros j Hj. zbool. subst j. split; [done|]. by exists bitmap.
Qed.
Lemma plain_push_ok s input now e : captures_ok s -> reached (capture s) e = [input] -> is_text input = false -> (forall id, is_gamepad id input = false) ->
  captures_ok (after s e (on_queue (fun queue => (push queue input now).1) (capture s))).
Proof.
  intros Hok Hreach Htext Hpad. pose proof (pushed_ok s (EmbeddedInputCapture.gamepads (capture s)) input now e Hok Hreach Htext (ca_gamepads s Hok)) as H.
  replace ((capture s) <| EmbeddedInputCapture.gamepads := _ |>) with (capture s) in H by (by destruct (capture s)). apply H; [intros id b Hb; by exists b|].
  intros id Hid. by rewrite Hpad in Hid.
Qed.
Lemma submitted_ok s input now : captures_ok s -> event_ok (Submitted input now) -> exists s', react s (Submitted input now) = Ok s' /\ captures_ok s'.
Proof.
  intros Hok He. destruct (is_text input) eqn:Et; [by destruct input|]. destruct input as [| | | | | |id bitmap pad| | | |]; [done|..].
  6: { by apply submitted_gamepad_ok. }
  all: unfold react, EmbeddedInputCapture.submit; rewrite !bind_mret; eexists; split; [reflexivity|]; cbn [andb].
  all: destruct (EmbeddedInputCapture.active (capture s)) eqn:Ha; [apply plain_push_ok|apply ignored_ok]; try done; cbn; by rewrite Ha.
Qed.

Lemma submit_inv slot bytes slot' r : TextInputSlot.submit slot bytes = (slot', r) -> match r with
  | Ok p => TextInputSlot.strong slot' = 1%nat /\ TextInputSlot.payload slot' = Some p /\ Text.text p = bytes /\ cancelled p = false /\ TextInputSlot.upgrade slot = None
  | Err _ => slot' = slot
  | Panic => False
  end.
Proof.
  unfold TextInputSlot.submit. destruct (_ <? _); [by intros [= <- <-]|]. destruct (_ || _); [by intros [= <- <-]|]. destruct (from_utf8 bytes); [|by intros [= <- <-]].
  destruct (TextInputSlot.upgrade slot) eqn:E; by intros [= <- <-].
Qed.
(** The paste is the only one, and nobody holds another. *)
Lemma accepted_text_keeps active gamepads offered delivered lost author self slot p now :
  stream_ok offered delivered lost self -> rest_ok active gamepads (delivered ++ inputs self) -> text_ok active 0 author self ->
  text_ready self = true -> zlen (pending self) < CAPTURED_INPUT_CAPACITY -> texts self = [] ->
  TextInputSlot.strong slot = 1%nat -> TextInputSlot.payload slot = Some p -> cancelled p = false ->
  let sample := {| input := CapturedInput.Text (Text.text p); captured_at := now |} in
  let self' := self <| text_slot := slot |> <| pending ::= (fun l => l ++ [sample]) |> in
  stream_ok (offered ++ [input sample]) delivered lost self' /\ rest_ok active gamepads (delivered ++ inputs self')
  /\ (active = true -> text_ok active 0 (text_generation self) self').
Proof.
  intros [H1 H2 H3 H4 H5] Hr Ht Hready Hroom Htexts Hst Hpay Hnc sample self'.
  assert (Hin : inputs self' = inputs self ++ [input sample]) by (unfold inputs; cbn; unfold const; by rewrite map_app).
  split; [|split].
  - constructor; rewrite ?Hin, ?app_assoc; try done.
    + by apply sublist_app.
    + intros Hl. rewrite (List.filter_app _ _ [_]), (List.filter_app _ offered), <- (H3 Hl). done.
    + intros Hl id. rewrite !(last_report_app id _ [_]), <- (H4 Hl id). done.
    + cbn [pending self']. rewrite <- zlen_inputs, Hin, zlen_app, zlen_inputs. change (zlen [input sample]) with 1. pose proof (zlen_nonneg (waiting (inputs self ++ [input sample]))). lia.
  - eapply rest_reports; [|exact Hr]. intros id. left. rewrite Hin, app_assoc, last_report_app. done.
  - intros Ha. assert (Htq : texts self' = [input sample]) by (unfold texts; rewrite Hin, List.filter_app; fold (texts self); by rewrite Htexts).
    change (text_slot self') with slot in *. constructor; change (text_slot self') with slot; rewrite ?Htq; try done.
    + intros q Hq _. apply upgrade_Some in Hq as [_ Hq]. assert (q = p) as -> by congruence. split_and!; try done. by right.
    + intros _. exists p. split; [|done]. apply upgrade_Some. split; [lia|done].
    + by rewrite Hpay.
Qed.
Lemma text_submitted_ok s bytes now : captures_ok s -> exists s', react s (TextSubmitted bytes now) = Ok s' /\ captures_ok s'.
Proof.
  intros Hok. pose proof Hok as [Hg Hs Hr Ht]. unfold react. set (e := TextSubmitted bytes now). unfold EmbeddedInputCapture.submit_text, CapturedInputQueue.submit_text.
  assert (Hsame : forall a, a = author s -> reached (capture s) e = [] -> captures_ok ((after s e (capture s)) <| author := a |>)).
  { intros a -> Hre. destruct (ignored_ok s e Hok Hre) as [? ? ? ?]. by constructor. }
  destruct (EmbeddedInputCapture.active (capture s)) eqn:Ha; cbn [negb].
  2: { eexists. split; [reflexivity|]. apply Hsame; [done|]. unfold reached, e, EmbeddedInputCapture.submit_text. by rewrite Ha. }
  destruct (text_ready (queue_of s)) eqn:Hready; cbn [negb].
  2: { eexists. split; [reflexivity|]. replace ((capture s) <| EmbeddedInputCapture.queue := queue_of s |>) with (capture s) by (by destruct (capture s)).
       apply Hsame; [done|]. unfold reached, e, EmbeddedInputCapture.submit_text, CapturedInputQueue.submit_text. by rewrite Ha, Hready. }
  destruct (Z.leb_spec CAPTURED_INPUT_CAPACITY (zlen (pending (queue_of s)))) as [Hfull|Hroom].
  { eexists. split; [reflexivity|]. replace ((capture s) <| EmbeddedInputCapture.queue := queue_of s |>) with (capture s) by (by destruct (capture s)).
    apply Hsame; [done|]. unfold reached, e, EmbeddedInputCapture.submit_text, CapturedInputQueue.submit_text. rewrite Ha, Hready. cbn [negb]. by rewrite (proj2 (Z.leb_le _ _)). }
  assert (Hre : reached (capture s) e = match (TextInputSlot.submit (text_slot (queue_of s)) bytes).2 with Ok _ => [CapturedInput.Text bytes] | _ => [] end).
  { unfold reached, e, EmbeddedInputCapture.submit_text, CapturedInputQueue.submit_text. rewrite Ha, Hready. cbn [negb]. rewrite (proj2 (Z.leb_gt _ _)) by done.
    by destruct (TextInputSlot.submit _ _) as [? []]. }
  destruct (TextInputSlot.submit (text_slot (queue_of s)) bytes) as [slot' r] eqn:Esub. apply submit_inv in Esub. cbn [snd] in Hre. destruct r as [p|err|]; [| |done].
  - destruct Esub as (Hst & Hpay & Htxt & Hnc & Hup). eexists. split; [reflexivity|]. rewrite Htxt.
    assert (Htexts : texts (queue_of s) = []).
    { destruct (decide (texts (queue_of s) = [])) as [|Hne]; [done|]. apply (tk_pending _ _ _ _ Ht) in Hne as (q & Hq & _). congruence. }
    assert (Hzero : TextInputSlot.strong (text_slot (queue_of s)) = 0%nat).
    { destruct Ht as [_ _ _ H4]. unfold TextInputSlot.upgrade in Hup. destruct (Nat.eqb_spec (TextInputSlot.strong (text_slot (queue_of s))) 0) as [|Hne]; [done|].
      exfalso. apply H4; [lia|done]. }
    assert (Hhand : handles s = 0%nat) by (rewrite (tk_strong _ _ _ _ Ht), Htexts in Hzero; cbn in Hzero; lia).
    rewrite Hhand in Ht.
    destruct (accepted_text_keeps true (EmbeddedInputCapture.gamepads (capture s)) _ _ _ (author s) (queue_of s) slot' p now Hs Hr Ht Hready Hroom Htexts Hst Hpay Hnc) as (Hs' & Hr' & Ht').
    rewrite Htxt in *. pose proof (lost_same _ _ _ _ Hs') as Hlost. constructor; cbn -[reached]; unfold const; rewrite ?Hre, ?Ha, ?Hhand; [done| |exact Hr'|exact (Ht' eq_refl)].
    cbn in Hlost. unfold const in Hlost. by rewrite Hlost.
  - subst slot'. eexists. split; [reflexivity|]. replace ((capture s) <| EmbeddedInputCapture.queue := _ |>) with (capture s); [by apply Hsame|].
    destruct s as [[[] ? ?] ? ? ? ? ?]. done.
Qed.

(** An event that only changes the queue, and brings nothing. *)
Lemma queue_event_ok s e q : captures_ok s -> reached (capture s) e = [] ->
  stream_ok (offered s) (delivered s) (lost s) q -> rest_ok (EmbeddedInputCapture.active (capture s)) (EmbeddedInputCapture.gamepads (capture s)) (delivered s ++ inputs q) ->
  text_ok (EmbeddedInputCapture.active (capture s)) (handles s) (author s) q -> captures_ok (after s e (on_queue (fun _ => q) (capture s))).
Proof.
  intros [Hg _ _ _] Hre Hs Hr Ht. constructor; cbn -[reached]; unfold const; rewrite ?Hre, ?app_nil_r, ?(lost_same _ _ _ _ Hs); done.
Qed.
Lemma text_ready_ok s generation ready : captures_ok s -> captures_ok (after s (TextReady generation ready) (on_queue (fun queue => set_text_ready queue generation ready) (capture s))).
Proof.
  intros Hok. pose proof Hok as [Hg Hs Hr Ht]. apply (queue_event_ok s (TextReady generation ready) (set_text_ready (queue_of s) generation ready)); try done; unfold set_text_ready.
  all: destruct (_ <? _); [done|].
  all: destruct (discard_keeps _ (EmbeddedInputCapture.active (capture s)) _ _ _ _ _ _ (author s) (queue_of s) ready generation Hs Hr Ht) as (Hs' & Hr' & Ht' & _ & _).
  all: destruct ready, (Z.eqb_spec generation (text_generation (queue_of s))) as [->|Hne]; cbn [negb orb]; try done.
  - by apply (stream_same _ _ _ (queue_of s)).
  - destruct Ht as [H1 H2 H3 H4]. constructor; try done. intros p Hp Hc. destruct (H2 p Hp Hc) as (? & _ & ? & ?). done.
Qed.
Lemma clone_keeps active handles author self : (0 < handles)%nat -> text_ok active handles author self ->
  text_ok active (S handles) author (self <| text_slot ::= TextInputSlot.clone_text |>).
Proof.
  intros Hh [H1 H2 H3 H4]. assert (Hup : forall p, TextInputSlot.upgrade (TextInputSlot.clone_text (text_slot self)) = Some p <-> TextInputSlot.upgrade (text_slot self) = Some p).
  { intros p. rewrite !upgrade_Some. cbn. unfold const. split; intros [? ?]; split; try done; lia. }
  constructor; cbn -[texts]; unfold const.
  - unfold texts, inputs in *. cbn in *. lia.
  - intros p Hp%Hup. by apply H2.
  - intros Hne. destruct (H3 Hne) as (p & Hp & Hc). exists p. by rewrite Hup.
  - intros _. apply H4. lia.
Qed.
Lemma drop_keeps active handles author self : text_ok active (S handles) author self ->
  text_ok active handles author (self <| text_slot ::= TextInputSlot.drop_text |>).
Proof.
  intros [H1 H2 H3 H4]. constructor; cbn -[texts]; unfold const.
  - unfold texts, inputs in *. cbn in *. lia.
  - intros p Hp. apply H2. apply upgrade_Some in Hp as [Hp1 Hp2]. apply upgrade_Some. cbn in *. unfold const in *. split; [lia|done].
  - intros Hne. destruct (H3 Hne) as (p & Hp & Hc). exists p. split; [|done]. apply upgrade_Some in Hp as [Hp1 Hp2]. apply upgrade_Some. cbn. unfold const. split; [|done].
    change (texts _) with (texts self) in Hne. destruct (texts self); [done|]. cbn in H1. lia.
  - intros Hpos. apply H4. lia.
Qed.

Lemma react_ok s e : captures_ok s -> event_ok e -> exists s', react s e = Ok s' /\ captures_ok s'.
Proof.
  intros Hok He. pose proof Hok as [Hg Hs Hr Ht]. destruct e as [input now|bytes now|active now|input now|generation ready| | | | |].
  - by apply submitted_ok.
  - by apply text_submitted_ok.
  - by apply capture_active_ok.
  - eexists. split; [reflexivity|]. apply plain_push_ok; try done; by destruct input.
  - eexists. split; [reflexivity|]. by apply text_ready_ok.
  - unfold react. pose proof (stream_take _ _ _ _ Hs) as Hs'. pose proof (text_take _ _ _ _ Ht) as Ht'.
    assert (Hin : delivered s ++ inputs (queue_of s) = (delivered s ++ match (take_sample (queue_of s)).2 with Some sample => [input sample] | None => [] end) ++ inputs (take_sample (queue_of s)).1).
    { unfold take_sample, inputs. destruct (pending (queue_of s)) as [|sample rest] eqn:E; cbn; unfold const; [by rewrite E, !app_nil_r|]. by rewrite <- app_assoc. }
    rewrite Hin in Hr. destruct (take_sample (queue_of s)) as [q sample]. cbn [fst snd] in *. eexists. split; [reflexivity|].
    constructor; cbn; unfold const; rewrite ?app_nil_r, ?(lost_same _ _ _ _ Hs'); done.
  - eexists. split; [reflexivity|]. apply (queue_event_ok s OverflowTaken (take_overflowed (queue_of s)).1); try done.
    + destruct Hs as [H1 H2 H3 H4 H5]. by constructor.
    + destruct Ht as [H1 H2 H3 H4]. by constructor.
  - eexists. split; [reflexivity|]. assert (Hp : inputs (clear (queue_of s)) = []) by (change (inputs (clear (queue_of s))) with (inputs (retain (fun _ => false) (queue_of s))); rewrite inputs_retain; by apply filter_none).
    constructor; [done|apply stream_clear| |by apply text_clear]. cbn -[clear]. unfold const. intros id _. by rewrite Hp.
  - unfold react. destruct (Nat.eqb_spec (handles s) 0) as [|Hne]; [by exists s|]. eexists. split; [reflexivity|].
    constructor; [done|by apply (stream_same _ _ _ (queue_of s))|done|]. exact (clone_keeps _ (handles s) _ _ ltac:(lia) Ht).
  - unfold react. destruct (Nat.eqb_spec (handles s) 0) as [|Hne]; [by exists s|]. eexists. split; [reflexivity|].
    constructor; [done|by apply (stream_same _ _ _ (queue_of s))|done|].
    apply (drop_keeps _ (pred (handles s)) _ (queue_of s)). by replace (S (pred (handles s))) with (handles s) by lia.
Qed.
Lemma started_ok : captures_ok started.
Proof. constructor; [done| | |]; [by constructor|intros id _; exact I|constructor; [done|done|done|cbn; lia]]. Qed.
Lemma captures_run_ok events : forall s, captures_ok s -> Forall event_ok events -> exists s', ofold react events s = Ok s' /\ captures_ok s'.
Proof.
  induction events as [|e events IH]; intros s Hok He; [by exists s|]. apply Forall_cons in He as [He Hes].
  destruct (react_ok s e Hok He) as (s1 & Hs1 & Hok1). cbn [ofold]. rewrite Hs1, bind_Ok. by apply IH.
Qed.

(** ** Only a full queue loses an input *)
Lemma release_gamepad_flag self id bitmap now self' : release_gamepad self id bitmap now = Ok self' -> overflowed self' = overflowed self.
Proof. unfold release_gamepad. destruct (negb _); [done|]. by intros [= <-]. Qed.
Lemma release_all_flag now gamepads : forall self id self', EmbeddedInputCapture.release_all self id gamepads now = Ok self' -> overflowed self' = overflowed self.
Proof.
  induction gamepads as [|[bitmap|] gamepads IH]; intros self id self'; cbn; [by intros [= <-]| |apply IH].
  intros (self1 & H1%release_gamepad_flag & H2%IH)%bind_Ok_inv. congruence.
Qed.
Lemma set_active_flag self active now self' : EmbeddedInputCapture.set_active self active now = Ok self' ->
  overflowed (EmbeddedInputCapture.queue self') = overflowed (EmbeddedInputCapture.queue self).
Proof.
  unfold EmbeddedInputCapture.set_active. destruct active; cbn [negb]; [by intros [= <-]|]. intros (self1 & H1 & [= <-])%bind_Ok_inv. cbn.
  destruct (EmbeddedInputCapture.active self) eqn:Ha; cbn in H1; unfold const in H1; rewrite Ha in H1.
  - apply bind_Ok_inv in H1 as (q & Hq%release_all_flag & [= <-]). cbn. by rewrite Hq.
  - injection H1 as <-. done.
Qed.
Lemma submit_flag self input now self' : EmbeddedInputCapture.submit self input now = Ok self' ->
  overflowed (EmbeddedInputCapture.queue self') = overflowed (EmbeddedInputCapture.queue self)
  \/ EmbeddedInputCapture.queue self' = (push (EmbeddedInputCapture.queue self) input now).1.
Proof.
  unfold EmbeddedInputCapture.submit. intros ([self1 go_on] & H1 & [= <-])%bind_Ok_inv.
  assert (Hq : overflowed (EmbeddedInputCapture.queue self1) = overflowed (EmbeddedInputCapture.queue self)
    /\ (go_on = true -> EmbeddedInputCapture.queue self1 = EmbeddedInputCapture.queue self)).
  { destruct input as [| | | | | |id bitmap pad| | | |]; try by injection H1 as <- <-. unfold EmbeddedInputCapture.note_gamepad in H1.
    destruct (_ <=? _); [by injection H1 as <- <-|]. destruct (negb _ && _); [by injection H1 as <- <-|].
    apply bind_Ok_inv in H1 as (noted & _ & H1). cbn in H1. unfold const in H1. destruct (bool_decide _ && _); [|by injection H1 as <- <-].
    apply bind_Ok_inv in H1 as (q & Hq%release_gamepad_flag & [= <- <-]). cbn. by rewrite Hq. }
  destruct Hq as [Hov Hq]. destruct go_on; cbn [andb]; [|by left]. destruct (EmbeddedInputCapture.active self1); [|by left]. right. cbn. unfold const. by rewrite Hq.
Qed.
Lemma submit_text_flag self bytes now : overflowed (EmbeddedInputCapture.queue (EmbeddedInputCapture.submit_text self bytes now).1) = overflowed (EmbeddedInputCapture.queue self).
Proof.
  unfold EmbeddedInputCapture.submit_text, CapturedInputQueue.submit_text. destruct (negb _); [done|]. destruct (negb _); [done|]. destruct (_ <=? _); [done|].
  by destruct (TextInputSlot.submit _ _) as [? []].
Qed.
Definition choked (self : CapturedInputQueue.t) : Prop := CAPTURED_INPUT_CAPACITY <= zlen (pending self) /\ Forall (fun input => is_motion input = false) (inputs self).
Lemma pushed_choked self input now : overflowed self = false -> overflowed (push self input now).1 = true -> choked (push self input now).1.
Proof.
  intros H1 H2. destruct (push_thins self input now) as [_ _ Hflag Hfull _]. rewrite H1, H2 in Hflag. apply Hfull. by destruct (push self input now).2.
Qed.
Lemma react_lost s e s' : captures_ok s -> react s e = Ok s' -> lost s = false -> lost s' = true -> choked (queue_of s').
Proof.
  intros [_ Hs _ _] Hreact Hl Hl'. assert (Hov : overflowed (queue_of s) = false) by (destruct (overflowed (queue_of s)) eqn:E; [|done]; apply (so_flag _ _ _ _ Hs) in E; congruence).
  destruct e as [input now|bytes now|active now|input now|generation ready| | | | |]; unfold react in Hreact.
  - apply bind_Ok_inv in Hreact as (c & Hc & [= <-]). cbn in *. unfold const in *. rewrite Hl in Hl'. cbn in Hl'. apply submit_flag in Hc as [Hc|Hc]; [congruence|].
    rewrite Hc in *. by apply pushed_choked.
  - pose proof (submit_text_flag (capture s) bytes now) as Hc. destruct (EmbeddedInputCapture.submit_text _ _ _) as [c r]. injection Hreact as <-. cbn in *. unfold const in *. rewrite Hl in Hl'. cbn in Hl'. congruence.
  - apply bind_Ok_inv in Hreact as (c & Hc%set_active_flag & [= <-]). cbn in *. unfold const in *. rewrite Hl in Hl'. cbn in Hl'. congruence.
  - injection Hreact as <-. cbn in *. unfold const in *. rewrite Hl in Hl'. cbn in Hl'. by apply pushed_choked.
  - injection Hreact as <-. cbn in Hl'. unfold const in Hl'. rewrite Hl in Hl'. cbn in Hl'. unfold set_text_ready in Hl'. destruct (_ <? _); [congruence|]. destruct (_ || _); cbn in Hl'; congruence.
  - unfold take_sample in Hreact. destruct (pending (queue_of s)); injection Hreact as <-; cbn in Hl'; unfold const in Hl'; rewrite Hl in Hl'; cbn in Hl'; congruence.
  - injection Hreact as <-. cbn in Hl'. unfold const in Hl'. rewrite Hl in Hl'. done.
  - by injection Hreact as <-.
  - destruct (_ =? _)%nat; injection Hreact as <-; cbn in Hl'; congruence.
  - destruct (_ =? _)%nat; injection Hreact as <-; cbn in Hl'; congruence.
Qed.



(** C39: a paste stays with its session.  However the threads interleave, a paste
    that is alive and not cancelled was submitted to the session whose generation
    is current, which is ready for text, while the capture is active; it is the
    only one, and no other is pending.  A session of an older generation changes
    nothing. *)
Theorem pastes_stay_with_their_session events (He : Forall event_ok events) : exists s, ofold react events started = Ok s
  /\ (forall p, TextInputSlot.upgrade (text_slot (queue_of s)) = Some p -> cancelled p = false ->
        EmbeddedInputCapture.active (capture s) = true /\ text_ready (queue_of s) = true /\ author s = text_generation (queue_of s))
  /\ (texts (queue_of s) = [] \/ exists p, TextInputSlot.upgrade (text_slot (queue_of s)) = Some p /\ cancelled p = false
        /\ texts (queue_of s) = [CapturedInput.Text (Text.text p)])
  /\ forall generation ready, U64_MAX / 2 < as_u64 (generation - text_generation (queue_of s)) ->
        react s (TextReady generation ready) = Ok s.
Proof.
  destruct (captures_run_ok events started started_ok He) as (s & Hrun & Hok). exists s. split; [done|]. pose proof Hok as [_ Hs _ [H1 H2 H3 H4]].
  split; [intros p Hp Hc; destruct (H2 p Hp Hc) as (? & ? & ? & _); done|]. split.
  - destruct (decide (texts (queue_of s) = [])) as [|Hne]; [by left|right]. destruct (H3 Hne) as (p & Hp & Hc). exists p. split_and!; try done.
    destruct (H2 p Hp Hc) as (_ & _ & _ & [|]); done.
  - intros generation ready Hold. assert (Hq : set_text_ready (queue_of s) generation ready = queue_of s) by (unfold set_text_ready; by rewrite (proj2 (Z.ltb_lt _ _))).
    unfold react, after, on_queue. destruct s as [[q act gs] off del lo han aut]. pose proof (lost_same _ _ _ _ Hs) as Hl. cbn -[set_text_ready] in *. unfold const in *.
    unfold mret, outcome_ret, set, const. cbn -[set_text_ready]. unfold set, const. cbn -[set_text_ready]. by rewrite !Hq, Hl, app_nil_r.
Qed.

(** A button is held when the window loses the focus; its report is taken, and
    the closing one is pending. *)
Definition held_pad : Pad := neutral <| buttons := 0x1000 |>.
Definition focus_lost : list CaptureEvent := [Activated true 0; Submitted (Gamepad 0 0x0101 held_pad) 1; Taken; Activated false 2].

(** Two motions are merged; the key between keeps its place. *)
Definition typed : list CaptureEvent :=
  [Activated true 0; Submitted (MouseAbsolute 1 1 9 9) 1; Submitted (MouseAbsolute 2 2 9 9) 2; Submitted (Key 65 0 true) 3; Taken].

(** A paste of the second session outlives what the first still says. *)
Definition pasted : list CaptureEvent := [Activated true 0; TextReady 2 true; TextSubmitted [Byte.x61] 1; TextReady 1 false].
Lemma pastes_stay_with_their_session_witness : Forall event_ok pasted
  /\ exists s, ofold react pasted started = Ok s /\ author s = 2 /\ react s (TextReady 1 false) = Ok s.
Proof.
  assert (He : Forall event_ok pasted) by (repeat constructor; done). split; [exact He|].
  destruct (pastes_stay_with_their_session pasted He) as (s & Hs & _ & _ & H). exists s. split; [exact Hs|].
  specialize (H 1 false). vm_compute in Hs. injection Hs as <-. split; [reflexivity|]. apply H. vm_compute. reflexivity.
Defined.
