(* ===== verification/CapturedWire.v ===== *)
(** * Captured input on the wire

    The session writes a captured input as a packet ([captured_input_packet] in
    [Captured]), the transport's codec reads it back ([encode] in [InputCodec]):
    what the player did is what the host is told. *)

From stdpp Require Import list strings.
From S2P Require Import Prelude Deque Control InputWire InputCodec F64 Captured.
Import CapturedInput.
Import CapturedInputQueue (pending, overflowed, take_sample, take_overflowed).

(** ** What the host is to be told *)
Section Wire.
Context (hypot : f64 -> f64 -> f64) (tuning : InputTuning).

Definition packet_of (input : CapturedInput.t) : list u8 :=
  match input with
  | Key virtual_key modifiers pressed =>
      remote_input_packet (if pressed then INPUT_KEY_DOWN else INPUT_KEY_UP) (to_be_bytes 2 virtual_key ++ to_be_bytes 2 modifiers ++ zeroes 10)
  | MouseMove delta_x delta_y =>
      let '(delta_x, delta_y) := tune_relative_mouse hypot tuning delta_x delta_y in
      remote_input_packet INPUT_MOUSE_RELATIVE (to_be_bytes 2 delta_x ++ to_be_bytes 2 delta_y ++ zeroes 2)
  | MouseAbsolute x y width height =>
      remote_input_packet INPUT_MOUSE_ABSOLUTE (to_be_bytes 2 x ++ to_be_bytes 2 y ++ [Byte.x08; Byte.x00] ++ to_be_bytes 2 width ++ to_be_bytes 2 height)
  | MouseButton button pressed => remote_input_packet (if pressed then INPUT_MOUSE_BUTTON_DOWN else INPUT_MOUSE_BUTTON_UP) [z2b button; Byte.x00]
  | MouseWheel delta_x delta_y => remote_input_packet INPUT_MOUSE_WHEEL (to_be_bytes 2 delta_x ++ to_be_bytes 2 delta_y ++ zeroes 2)
  | _ => []
  end.
(** The report of a controller, with the fields at their places. *)
Definition report_of (id bitmap : Z) (pad : Pad) (timestamp_us : Z) : list u8 :=
  to_le_bytes 4 INPUT_GAMEPAD ++ to_le_bytes 2 26 ++ to_le_bytes 2 id ++ to_le_bytes 2 bitmap ++ to_le_bytes 2 20 ++ to_le_bytes 2 (buttons pad)
  ++ [z2b (left_trigger pad); z2b (right_trigger pad)] ++ to_le_bytes 2 (left_stick_x pad) ++ to_le_bytes 2 (left_stick_y pad)
  ++ to_le_bytes 2 (right_stick_x pad) ++ to_le_bytes 2 (right_stick_y pad) ++ to_le_bytes 2 0 ++ to_le_bytes 2 85 ++ to_le_bytes 2 0 ++ to_le_bytes 8 timestamp_us.
Definition pad_ok (pad : Pad) : Prop := is_u8 (left_trigger pad) /\ is_u8 (right_trigger pad).
Definition input_ok (input : CapturedInput.t) : Prop :=
  match input with
  | Key virtual_key modifiers _ => is_u16 virtual_key /\ is_u16 modifiers
  | Gamepad id bitmap pad => 0 <= id < 4 /\ is_u16 bitmap /\ pad_ok pad
  | _ => True
  end.

Lemma read_u16_be_at l1 v l3 a : a = zlen l1 -> is_u16 v -> read_u16_be (l1 ++ to_be_bytes 2 v ++ l3) a = Some v.
Proof.
  intros -> Hv. unfold read_u16_be. rewrite zget_range_at by (rewrite ?zlen_to_be_bytes; lia). cbn [fmap option_fmap option_map]. rewrite from_to_be_bytes; [done|]. unfold is_u16 in Hv. lia.
Qed.
Lemma read_u16_le_at l1 v l3 a : a = zlen l1 -> is_u16 v -> read_u16_le (l1 ++ to_le_bytes 2 v ++ l3) a = Some v.
Proof.
  intros -> Hv. unfold read_u16_le. rewrite zget_range_at by (rewrite ?zlen_to_le_bytes; lia). cbn [fmap option_fmap option_map]. rewrite from_to_le_bytes; [done|]. unfold is_u16 in Hv. lia.
Qed.
Lemma read_u64_be_end l1 v a : a = zlen l1 -> is_u64 v -> read_u64_be (l1 ++ to_be_bytes 8 v) a = Some v.
Proof. intros Ha Hv. rewrite <- (app_nil_r (to_be_bytes 8 v)). by apply read_u64_be_at. Qed.
Lemma read_u64_le_end l1 v a : a = zlen l1 -> is_u64 v -> read_u64_le (l1 ++ to_le_bytes 8 v) a = Some v.
Proof.
  intros -> Hv. rewrite <- (app_nil_r (to_le_bytes 8 v)). unfold read_u64_le. rewrite zget_range_at by (rewrite ?zlen_to_le_bytes; lia). cbn [fmap option_fmap option_map].
  rewrite from_to_le_bytes; [done|]. unfold is_u64 in Hv. lia.
Qed.

Lemma event_type ty tail : is_u32 ty -> read_u32_le (to_le_bytes 4 ty ++ tail) 0 = Some ty.
Proof. intros Hty. by apply (read_u32_le_at []). Qed.
(** A packet of the session is one native event. *)
Lemma session_event ty tail fallback : is_u32 ty -> ty < 0x22 -> native_events (to_le_bytes 4 ty ++ tail) fallback
  = Ok [{| NativeEvent.bytes := to_le_bytes 4 ty ++ tail; NativeEvent.timestamp_us := fallback |}].
Proof.
  intros Hty Hsmall. unfold native_events, guard_err. rewrite (proj2 (Z.eqb_neq _ _)).
  2: { rewrite zlen_app, zlen_to_le_bytes. pose proof (zlen_nonneg tail). lia. }
  unfold is_u32 in Hty. assert (H0 : (to_le_bytes 4 ty ++ tail).[0] = (Ok (z2b ty) : outcome NvstInputCodecError u8)) by done.
  obind. rewrite H0, bind_Ok. rewrite b2z_z2b_small by lia. rewrite (proj2 (Z.eqb_neq _ _)) by lia. rewrite (proj2 (Z.eqb_neq ty 35)) by lia. done.
Qed.
Lemma encode_single packet fallback event : native_events packet fallback = Ok [event] -> forall codec, encode packet fallback codec = encode_event event [] codec.
Proof.
  intros H codec. unfold encode. rewrite H, lift_bind. cbn [encode_events]. unfold mbind, codecM_bind. by destruct (encode_event event [] codec) as [c []].
Qed.
Lemma encode_message ty tail fallback codec message : is_u32 ty -> ty < 0x22 ->
  (let event := {| NativeEvent.bytes := to_le_bytes 4 ty ++ tail; NativeEvent.timestamp_us := fallback |} in
   encode_event event [] codec = (m ← lift message; mret ([] ++ [m])) codec) ->
  forall m, message = Ok m -> encode (to_le_bytes 4 ty ++ tail) fallback codec = (codec, Ok [m]).
Proof.
  intros Hty Hsmall Hev m ->. rewrite (encode_single _ _ _ (session_event ty tail fallback Hty Hsmall)). by rewrite Hev.
Qed.

(** What the codec makes of the packet of an input. *)
Definition understood (codec : NvstInputCodec.t) (input : CapturedInput.t) (timestamp_us : Z) (packet : list u8) (fallback : Z) : Prop :=
  match input with
  | Gamepad id bitmap pad =>
      let filtered := Z.land bitmap (not16 (NvstInputCodec.rich_slot_mask codec)) in
      exists codec' transition report, encode packet fallback codec = (codec', Ok (transition ++ report))
        /\ codec_wf codec' /\ NvstInputCodec.gamepad_bitmap codec' = Some filtered
        /\ (if bool_decide (NvstInputCodec.gamepad_bitmap codec = Some filtered) then transition = []
            else announces (default 0 (NvstInputCodec.gamepad_bitmap codec)) filtered timestamp_us transition)
        /\ if has_slot filtered id
           then exists sequence, NvstInputCodec.gamepad_sequences codec !! Z.to_nat id = Some sequence
             /\ report = [{| route := InputPartial;
                 bytes := control_command COMMAND_GAMEPAD ([z2b 0x23] ++ to_be_bytes 8 timestamp_us ++ [z2b 0x26; z2b id] ++ to_be_bytes 2 (as_u16 (sequence + 1))
                   ++ [z2b 0x21] ++ to_be_bytes 2 38 ++ report_of id bitmap pad timestamp_us) |}]
           else report = []
  | _ => exists message, remote_input_message (E := Empty_set) (packet_of input) timestamp_us = Ok message /\ encode packet fallback codec = (codec, Ok [message])
  end.

Lemma big_endian_2 v : to_be_bytes 2 v = [z2b (Z.shiftr v 8); z2b v].
Proof. unfold to_be_bytes. cbn. by rewrite Z.shiftr_div_pow2 by lia. Qed.
Lemma message_exists ty body timestamp : is_u32 ty -> zlen body <= 32 -> exists m, forall E, remote_input_message (E := E) (remote_input_packet ty body) timestamp = Ok m.
Proof.
  intros Hty Hb. unfold remote_input_message. rewrite remote_input_packet_type_of by done. eexists. intros E. reflexivity.
Qed.

Lemma key_understood codec ty virtual_key modifiers timestamp fallback m : ty = INPUT_KEY_DOWN \/ ty = INPUT_KEY_UP -> is_u16 virtual_key -> is_u16 modifiers -> is_u64 timestamp ->
  (forall E, remote_input_message (E := E) (remote_input_packet ty (to_be_bytes 2 virtual_key ++ to_be_bytes 2 modifiers ++ zeroes 10)) timestamp = Ok m) ->
  encode (to_le_bytes 4 ty ++ to_be_bytes 2 virtual_key ++ to_be_bytes 2 modifiers ++ to_be_bytes 2 0 ++ to_be_bytes 8 timestamp) fallback codec = (codec, Ok [m]).
Proof.
  intros Hty Hk Hm Hts Hmsg. assert (Ht : is_u32 ty /\ ty < 0x22) by (destruct Hty as [-> | ->]; split; [by split|done|by split|done]).
  apply (encode_message ty _ fallback codec (key_message ty {| NativeEvent.bytes := to_le_bytes 4 ty ++ to_be_bytes 2 virtual_key ++ to_be_bytes 2 modifiers ++ to_be_bytes 2 0 ++ to_be_bytes 8 timestamp; NativeEvent.timestamp_us := fallback |})); [apply Ht..| |].
  - cbv zeta. unfold encode_event. cbn [NativeEvent.bytes]. rewrite event_type by apply Ht. rewrite ok_or_Some, lift_bind. by destruct Hty as [-> | ->].
  - unfold key_message, require_len, guard_err. cbn [NativeEvent.bytes NativeEvent.timestamp_us]. rewrite !zlen_app, !zlen_to_le_bytes, !zlen_to_be_bytes. change (_ <? 18) with false. cbv iota. obind.
    rewrite (read_u16_be_at (to_le_bytes 4 ty) _ _ 4); [|done|done]. cbn [expect]. obind.
    rewrite (app_assoc (to_le_bytes 4 ty)), (read_u16_be_at (to_le_bytes 4 ty ++ _) _ _ 6); [|done|done]. cbn [expect]. obind.
    rewrite !app_assoc, read_u64_be_end; [|done|done]. cbn [default from_option]. rewrite <- (Hmsg _), !big_endian_2. done.
Qed.

(** The arms that copy bytes. *)
Lemma delta_understood codec ty a b tail timestamp fallback m : ty = INPUT_MOUSE_RELATIVE \/ ty = INPUT_MOUSE_WHEEL -> is_u64 timestamp -> zlen tail = 6 ->
  (forall E, remote_input_message (E := E) (remote_input_packet ty (to_be_bytes 2 a ++ to_be_bytes 2 b ++ zeroes 2)) timestamp = Ok m) ->
  encode (to_le_bytes 4 ty ++ to_be_bytes 2 a ++ to_be_bytes 2 b ++ tail ++ to_be_bytes 8 timestamp) fallback codec = (codec, Ok [m]).
Proof.
  intros Hty Hts Htail Hmsg. assert (Ht : is_u32 ty /\ ty < 0x22) by (destruct Hty as [-> | ->]; split; [by split|done|by split|done]).
  set (bytes := to_le_bytes 4 ty ++ _). set (event := {| NativeEvent.bytes := bytes; NativeEvent.timestamp_us := fallback |}).
  assert (Hmessage : forall reason, delta_message ty reason event = Ok m).
  { intros reason. unfold delta_message, require_len, guard_err. cbn [event NativeEvent.bytes NativeEvent.timestamp_us].
    assert (Hlen : zlen bytes = 22) by (unfold bytes; rewrite !zlen_app, zlen_to_le_bytes, !zlen_to_be_bytes, Htail; done).
    assert (Hread : read_u64_be bytes 14 = Some timestamp).
    { unfold bytes. rewrite !app_assoc. apply read_u64_be_end; [|done]. by rewrite !zlen_app, zlen_to_le_bytes, !zlen_to_be_bytes, Htail. }
    rewrite Hlen, Hread. cbn [default from_option]. rewrite <- (Hmsg _). unfold bytes, to_be_bytes. cbn. done. }
  apply (encode_message ty _ fallback codec (Ok m)); [apply Ht..| |done].
  cbv zeta. unfold encode_event. cbn [NativeEvent.bytes]. rewrite event_type by apply Ht. rewrite ok_or_Some, lift_bind. fold bytes. fold event.
  destruct Hty as [-> | ->].
  - change ((message ← lift (delta_message INPUT_MOUSE_RELATIVE "short relative mouse packet" event); mret ([] ++ [message])) codec = (m0 ← lift (Ok m); mret ([] ++ [m0])) codec). by rewrite Hmessage.
  - change ((message ← lift (delta_message INPUT_MOUSE_WHEEL "short mouse wheel packet" event); mret ([] ++ [message])) codec = (m0 ← lift (Ok m); mret ([] ++ [m0])) codec). by rewrite Hmessage.
Qed.
Lemma absolute_understood codec x y width height timestamp fallback m : is_u64 timestamp ->
  (forall E, remote_input_message (E := E) (packet_of (MouseAbsolute x y width height)) timestamp = Ok m) ->
  encode (to_le_bytes 4 INPUT_MOUSE_ABSOLUTE ++ to_be_bytes 2 x ++ to_be_bytes 2 y ++ to_be_bytes 2 0 ++ to_be_bytes 2 width ++ to_be_bytes 2 height
    ++ to_be_bytes 4 0 ++ to_be_bytes 8 timestamp) fallback codec = (codec, Ok [m]).
Proof.
  intros Hts Hmsg. set (bytes := to_le_bytes 4 INPUT_MOUSE_ABSOLUTE ++ _). set (event := {| NativeEvent.bytes := bytes; NativeEvent.timestamp_us := fallback |}).
  apply (encode_message INPUT_MOUSE_ABSOLUTE _ fallback codec (absolute_message INPUT_MOUSE_ABSOLUTE event)); [by split|done| |].
  - cbv zeta. unfold encode_event. cbn [NativeEvent.bytes]. rewrite event_type by by split. by rewrite ok_or_Some, lift_bind.
  - unfold absolute_message, require_len, guard_err. cbn [event NativeEvent.bytes NativeEvent.timestamp_us].
    assert (Hlen : zlen bytes = 26) by (unfold bytes; by rewrite !zlen_app, zlen_to_le_bytes, !zlen_to_be_bytes).
    assert (Hread : read_u64_be bytes 18 = Some timestamp) by (unfold bytes; rewrite !app_assoc; by apply read_u64_be_end).
    rewrite Hlen, Hread. cbn [default from_option]. rewrite <- (Hmsg _). unfold bytes, to_be_bytes. cbn. done.
Qed.
Lemma button_understood codec ty button timestamp fallback m : ty = INPUT_MOUSE_BUTTON_DOWN \/ ty = INPUT_MOUSE_BUTTON_UP -> is_u64 timestamp ->
  (forall E, remote_input_message (E := E) (remote_input_packet ty [z2b button; Byte.x00]) timestamp = Ok m) ->
  encode (to_le_bytes 4 ty ++ [z2b button; Byte.x00] ++ zeroes 4 ++ to_be_bytes 8 timestamp) fallback codec = (codec, Ok [m]).
Proof.
  intros Hty Hts Hmsg. assert (Ht : is_u32 ty /\ ty < 0x22) by (destruct Hty as [-> | ->]; split; [by split|done|by split|done]).
  set (bytes := to_le_bytes 4 ty ++ _). set (event := {| NativeEvent.bytes := bytes; NativeEvent.timestamp_us := fallback |}).
  apply (encode_message ty _ fallback codec (button_message ty event)); [apply Ht..| |].
  - cbv zeta. unfold encode_event. cbn [NativeEvent.bytes]. rewrite event_type by apply Ht. rewrite ok_or_Some, lift_bind. by destruct Hty as [-> | ->].
  - unfold button_message, require_len, guard_err. cbn [event NativeEvent.bytes NativeEvent.timestamp_us].
    assert (Hlen : zlen bytes = 18) by (unfold bytes; by rewrite !zlen_app, zlen_to_le_bytes, !zlen_to_be_bytes).
    assert (Hread : read_u64_be bytes 10 = Some timestamp) by (unfold bytes; rewrite !app_assoc; by apply read_u64_be_end).
    rewrite Hlen, Hread. cbn [default from_option]. rewrite <- (Hmsg _). unfold bytes. cbn. done.
Qed.

Lemma triggers left right : is_u8 left -> is_u8 right -> to_le_bytes 2 (Z.lor left (Z.shiftl right 8)) = [z2b left; z2b right].
Proof.
  intros Hl Hr. unfold is_u8 in *. rewrite Z.lor_comm, lor_shiftl_low by lia. change (2 ^ 8) with 256 in *. cbn [to_le_bytes].
  unfold to_le_bytes. rewrite Z.div_add_l, Z.div_small, Z.add_0_r by lia. f_equal. apply b2z_inj. by rewrite !b2z_z2b, Z.add_comm, Z.mod_add.
Qed.
Lemma packet_is_report id bitmap pad timestamp : 0 <= id < 4 -> pad_ok pad ->
  captured_input_packet hypot tuning (Gamepad id bitmap pad) timestamp = Ok (report_of id bitmap pad timestamp).
Proof.
  intros Hid [Hl Hr]. unfold captured_input_packet. rewrite triggers by done. change 3 with (Z.ones 2). rewrite Z.land_ones, Z.mod_small by (try done; lia). done.
Qed.
Lemma gamepad_understood codec id bitmap pad timestamp fallback : codec_wf codec -> input_ok (Gamepad id bitmap pad) -> is_u64 timestamp ->
  understood codec (Gamepad id bitmap pad) timestamp (report_of id bitmap pad timestamp) fallback.
Proof.
  intros Hwf (Hid & Hb & Hpad) Hts. set (packet := report_of id bitmap pad timestamp). assert (Hlen : zlen packet = 38).
  { unfold packet, report_of. by rewrite !zlen_app, !zlen_to_le_bytes. }
  set (event := {| NativeEvent.bytes := packet; NativeEvent.timestamp_us := fallback |}).
  assert (Hidr : read_u16_le packet 6 = Some id).
  { unfold packet, report_of. rewrite (app_assoc (to_le_bytes 4 _)). apply read_u16_le_at; [done|]. unfold is_u16. lia. }
  assert (Hbr : read_u16_le packet 8 = Some bitmap).
  { unfold packet, report_of. rewrite (app_assoc (to_le_bytes 4 _)), (app_assoc _ (to_le_bytes 2 id)). by apply read_u16_le_at. }
  assert (Htsr : read_u64_le packet 30 = Some timestamp).
  { unfold packet, report_of. rewrite !app_assoc. by apply read_u64_le_end. }
  destruct (gamepad_event_spec codec event [] id bitmap Hwf) as (codec' & transition & report & Hrun & Hwf' & Hbm & _ & Htr & Hrep); try done.
  cbn [event NativeEvent.bytes NativeEvent.timestamp_us] in *. rewrite Htsr in *. cbn [default from_option app] in *.
  assert (Henc : encode packet fallback codec = (codec', Ok (transition ++ report))).
  { rewrite (encode_single packet fallback event); [|unfold event, packet, report_of; by apply session_event].
    unfold encode_event. cbn [event NativeEvent.bytes]. unfold packet at 1, report_of at 1. rewrite event_type by by split. rewrite ok_or_Some, lift_bind. exact Hrun. }
  exists codec', transition, report. split_and!; try done. destruct (has_slot _ id); [|done].
  destruct Hrep as (sequence & message & Hseq & _ & Hcmd & ->). exists sequence. split; [done|]. do 2 f_equal. unfold gamepad_command in Hcmd.
  assert (Hb6 : packet.[6] = (Ok (z2b id) : outcome NvstInputCodecError u8)) by (unfold packet, report_of; cbn; done).
  rewrite Hb6, bind_Ok in Hcmd. rewrite slice_Ok in Hcmd by lia. rewrite bind_Ok in Hcmd. injection Hcmd as <-.
  replace (take (Z.to_nat (38 - 0)) (drop (Z.to_nat 0) packet)) with packet; [done|]. rewrite drop_0. symmetry. apply firstn_all2. unfold zlen in Hlen. lia.
Qed.

(** ** The turn *)
Definition forwarded (input_origin : Z) (sample : CapturedInputSample) (effect : SessionEffect) : Prop :=
  let timestamp_us := sample_timestamp input_origin (captured_at sample) in
  match input sample with
  | Guide => effect = OverlayRequest
  | CapturedInput.Screenshot => effect = ScreenshotRequest
  | RecordingToggle => effect = RecordingToggleRequest
  | Shortcut action => effect = ForwardShortcut action
  | CapturedInput.Text text => effect = SendText text timestamp_us
  | input => exists packet, effect = SendInput packet (captured_at sample)
      /\ forall codec fallback, codec_wf codec -> understood codec input timestamp_us packet fallback
  end.
Lemma sample_timestamp_range origin at_ : is_u64 (sample_timestamp origin at_).
Proof.
  unfold sample_timestamp, is_u64, checked_duration_since. destruct (Z.leb_spec origin at_); cbn [default from_option]; unfold U64_MAX.
  - pose proof (Z.div_pos (at_ - origin) 1000). unfold id. change (2 ^ 64) with 18446744073709551616. lia.
  - by vm_compute.
Qed.
(** A relative motion fits its fields. *)
Lemma tuned_motion_fits delta_x delta_y : let '(x, y) := tune_relative_mouse hypot tuning delta_x delta_y in I16_MIN <= x <= I16_MAX /\ I16_MIN <= y <= I16_MAX.
Proof. unfold tune_relative_mouse. destruct (if F64.lt _ _ then _ else _) as [x y]. unfold clamp_i16. split; apply to_int_range; unfold I16_MIN, I16_MAX; lia. Qed.

Lemma effect_forwarded origin sample : input_ok (input sample) -> exists effect, session_effect hypot tuning origin sample = Ok (Some effect) /\ forwarded origin sample effect.
Proof.
  intros Hok. unfold session_effect, forward_nvst_captured_sample, forwarded. pose proof (sample_timestamp_range origin (captured_at sample)) as Hts.
  set (ts := sample_timestamp origin (captured_at sample)) in *. destruct (input sample) as [text|vk mods pressed|dx dy|x y w h|button pressed|dx dy|id bitmap pad| | | |action].
  all: try by (eexists; split; [reflexivity|]).
  - destruct Hok as [Hk Hm]. eexists. split; [reflexivity|]. eexists. split; [reflexivity|]. intros codec fallback _.
    assert (Hty : is_u32 (if pressed then INPUT_KEY_DOWN else INPUT_KEY_UP)) by (destruct pressed; by split).
    destruct (message_exists _ (to_be_bytes 2 vk ++ to_be_bytes 2 mods ++ zeroes 10) ts Hty) as [m Hmsg]; [by rewrite !zlen_app, !zlen_to_be_bytes|]. exists m. split; [apply Hmsg|].
    destruct pressed; (eapply key_understood; [by eauto|done|done|done|exact Hmsg]).
  - unfold captured_input_packet, understood, packet_of. destruct (tune_relative_mouse hypot tuning dx dy) as [tx ty]. eexists. split; [reflexivity|]. eexists. split; [reflexivity|]. intros codec fallback _.
    destruct (message_exists INPUT_MOUSE_RELATIVE (to_be_bytes 2 tx ++ to_be_bytes 2 ty ++ zeroes 2) ts) as [m Hmsg]; [by split|by rewrite !zlen_app, !zlen_to_be_bytes|]. exists m. split; [apply Hmsg|].
    apply (delta_understood codec INPUT_MOUSE_RELATIVE tx ty (zeroes 6)); [by left|done|done|exact Hmsg].
  - eexists. split; [reflexivity|]. eexists. split; [reflexivity|]. intros codec fallback _.
    destruct (message_exists INPUT_MOUSE_ABSOLUTE (to_be_bytes 2 x ++ to_be_bytes 2 y ++ [Byte.x08; Byte.x00] ++ to_be_bytes 2 w ++ to_be_bytes 2 h) ts) as [m Hmsg]; [by split|by rewrite !zlen_app, !zlen_to_be_bytes|]. exists m. split; [apply Hmsg|].
    by apply absolute_understood.
  - eexists. split; [reflexivity|]. eexists. split; [reflexivity|]. intros codec fallback _.
    assert (Hty : is_u32 (if pressed then INPUT_MOUSE_BUTTON_DOWN else INPUT_MOUSE_BUTTON_UP)) by (destruct pressed; by split).
    destruct (message_exists _ [z2b button; Byte.x00] ts Hty) as [m Hmsg]; [done|]. exists m. split; [apply Hmsg|].
    destruct pressed; (eapply button_understood; [by eauto|done|exact Hmsg]).
  - eexists. split; [reflexivity|]. eexists. split; [reflexivity|]. intros codec fallback _.
    destruct (message_exists INPUT_MOUSE_WHEEL (to_be_bytes 2 dx ++ to_be_bytes 2 dy ++ zeroes 2) ts) as [m Hmsg]; [by split|by rewrite !zlen_app, !zlen_to_be_bytes|]. exists m. split; [apply Hmsg|].
    apply (delta_understood codec INPUT_MOUSE_WHEEL dx dy (zeroes 6)); [by right|done|done|exact Hmsg].
  - destruct Hok as (Hid & Hb & Hpad). rewrite packet_is_report by done. eexists. split; [reflexivity|]. eexists. split; [reflexivity|]. intros codec fallback Hwf.
    by apply gamepad_understood.
Qed.

Definition turn_ends (accepted : list SessionEffect -> SessionEffect -> bool) (full : bool) (left : list CapturedInputSample) (effects : list SessionEffect) (end_ : TurnEnd) : Prop :=
  match end_ with
  | TurnDone => full = true \/ left = []
  | CaptureFailed => exists before refused, effects = before ++ [refused] /\ accepted before refused = false
  | CaptureOverflow => False
  end.
Lemma take_inputs_ok accepted origin : forall count queue effects, Forall (fun sample => input_ok (input sample)) (pending queue) ->
  exists queue' taken new end_, take_inputs hypot tuning count accepted origin queue effects = Ok (queue', effects ++ new, end_)
    /\ pending queue = taken ++ pending queue' /\ Forall2 (forwarded origin) taken new /\ (length taken <= count)%nat
    /\ turn_ends accepted (length taken =? count)%nat (pending queue') (effects ++ new) end_.
Proof.
  induction count as [|count IH]; intros queue effects Hok; cbn [take_inputs].
  { exists queue, [], [], TurnDone. rewrite app_nil_r. split_and!; try done. by left. }
  unfold take_sample. destruct (pending queue) as [|sample rest] eqn:E.
  { exists queue, [], [], TurnDone. rewrite app_nil_r. split_and!; try done; [cbn; lia|by right]. }
  apply Forall_cons in Hok as [Hs Hrest]. destruct (effect_forwarded origin sample Hs) as (effect & -> & Hf). rewrite bind_Ok.
  set (queue1 := queue <| pending := rest |>). assert (Hstep : forall sent : bool, (sent = false -> accepted effects effect = false) ->
    exists queue' taken new end_, (if sent then take_inputs hypot tuning count accepted origin queue1 (effects ++ option_list (Some effect)) else mret (queue1, effects ++ option_list (Some effect), CaptureFailed)) = Ok (queue', effects ++ new, end_)
      /\ sample :: rest = taken ++ pending queue' /\ Forall2 (forwarded origin) taken new /\ (length taken <= S count)%nat
      /\ turn_ends accepted (length taken =? S count)%nat (pending queue') (effects ++ new) end_).
  { intros [] Hacc; cbn [option_list].
    - destruct (IH queue1 (effects ++ [effect]) Hrest) as (queue' & taken & new & end_ & Hrun & Hp & Hf2 & Hlen & Hend). rewrite <- app_assoc in *.
      exists queue', (sample :: taken), (effect :: new), end_. split_and!; try done; [by change rest with (pending queue1); rewrite Hp|by constructor|cbn; lia].
    - exists queue1, [sample], [effect], CaptureFailed. split_and!; try done; [by constructor|cbn; lia|]. exists effects, effect. split; [done|by apply Hacc]. }
  destruct effect; first [exact (Hstep (accepted effects _) (fun H => H))|by apply (Hstep true)].
Qed.

End Wire.

(** A key and a button of a controller. *)
Definition pressed : list CapturedInputSample :=
  [{| input := Key 65 0 true; captured_at := 5000 |}; {| input := Gamepad 1 0x0202 (neutral <| buttons := 0x1000 |>); captured_at := 6000 |}].
